(* ===== verification/_CoqProject ===== *)
-Q . S2P
Prelude.v
Mem.v
Riscv.v
Kalloc.v
Vm.v
PageTable.v
AddrSpace.v
Cow.v
Fork.v
CowFault.v
Uvm.v
UvmFree.v
CowInv.v
ForkInv.v
CopyOut.v
Boot.v
MemoryProps.v
Grep.v
Pipe.v
Spinlock.v
Sleeplock.v
Bytes.v
Bio.v
BioInv.v
Log.v
LogInv.v
LogCrash.v
LogProps.v
Store.v
StoreLog.v
Fs.v
Dir.v
FsBlock.v
FsAlloc.v
FsProps.v
Dinode.v
FsFile.v
FsRead.v
FsWrite.v
FsFileProps.v
FsInode.v
FsDir.v
FsPath.v
FsLink.v
FsTrunc.v
FsVol.v
FsNew.v
VirtioDisk.v
VirtioInv.v
VirtioProps.v
Mkfs.v
MkfsInv.v
MkfsProps.v
MkfsBoot.v
Umalloc.v
Printf.v
Ulib.v
Console.v
Fdtable.v
Kernel.v
File.v
Proc.v
Exec.v
ExecArgs.v
Sysfile.v
Trap.v
Wakeup.v
NoSleep.v
FileRefs.v
FdCalls.v
FdProc.v
TrapProps.v
Sh.v
ShRun.v
User.v
UserProps.v
Unix.v
FsCalls.v
FsCreate.v
UserTests.v
