(* ===== verification/Prelude.v ===== *)
(** * xv6 for RISC-V with copy-on-write fork: a verification development

    The program is a small Unix: a kernel (kernel/) of about six thousand lines of C and
    the user programs and library that run on it (user/), with mkfs, the program of the host
    that makes its disk.  This library models the kernel from the page allocator and the disk
    driver to the system calls, mkfs, and on the user side the C library, the shell, all the
    small programs and most of the test programs, and proves what makes them correct.

    ** Effects

    C functions are functions in the monad [M S A := S -> res S A] of this file.  [S] is the
    state of the component: memory is bytes, page tables and the free list live in it, and
    pointers are addresses or, into a static array, indices.  A run can return ([Ret]), end
    in the kernel's [panic] ([Panic]), do what C leaves undefined or the hardware refuses
    ([Fault]: a null pointer, a write past an array), give up the processor in the kernel's
    [sleep] ([Sleep]: the channel, the state it leaves, and what the thread does when it is
    resumed in whatever state the others have left), or run out of the fuel of a loop
    ([NoFuel]).  Integers are Z, wrapped at their width by [u64], [u32], [i32] and the like
    where the C type does.

    Loops are [loop fuel body].  The fuel of a loop is computed from what bounds it in C,
    an array's length, a byte count or the size of a table; loops that wait take [fuel]
    waits as an argument.  Theorems that a function returns show that the fuel is enough,
    the others hold for every fuel and exclude [NoFuel] only where a wait is without end.

    ** Files

    Memory (kernel/kalloc.c, vm.c, string.c, riscv.h, memlayout.h).
    - Mem: bytes and words in memory, string.c.  Riscv: pages and page-table entries.
    - Kalloc: the free list threaded through free pages, reference counts.
    - Vm: every function of vm.c but kvminit and kvminithart, and [update] of kalloc.c.
    - PageTable, AddrSpace, Uvm, UvmFree: what a table in memory means ([pt_ok], [pte_of])
      and what walk, mappages, uvmunmap, uvmalloc, uvmdealloc and uvmfree do to it.
    - Cow, Fork, CowFault, CowInv, ForkInv, CopyOut: copy-on-write.  [cow_inv]
      relates all address spaces: a page that may be written is mapped once, and counts are
      at least the number of mappings.
    - Boot: a machine of ten pages, on which witnesses are computed.
    - MemoryProps: the theorems.  Fork shares memory exactly and keeps the invariant or
      undoes everything; a copy-on-write fault gives a private page without changing a byte
      any process sees; copyout changes the bytes it is given and no others; copyin is total
      on user pointers; freeing gives everything back; and two errors of the code, a null
      page and a null entry that are used unchecked.

    Locks and sleeping.
    - Spinlock (spinlock.c): harts interleaved at the accesses to lock words; exclusion.
    - Sleeplock (sleeplock.c): exclusion, given what others may do while a thread sleeps.
    - Wakeup: sleep, wakeup, yield, sched and the scheduler of proc.c as steps on any number
      of processors; no wakeup is lost.  FdProc: wakeup's loop is one step on the table.

    Disk (virtio_disk.c, virtio.h).
    - VirtioDisk: descriptors, rings, requests with the points where they sleep, the interrupt
      handler, the initialisation.
    - VirtioInv, VirtioProps: the driver with its callers, its interrupts, the owners of the
      buffers and a device that follows the specification, as one transition system, and the
      invariant that relates descriptors, rings and callers.  The device may report an error
      for a request; but for the panic of the handler on that, no step panics, and none loses
      a descriptor.  What callers see is a disk that does each operation at one moment
      between the call and its return, and from a call that failed there is no return.

    File system (bio.c, log.c, fs.c).
    - Bytes, Bio, BioInv: the buffer cache as a linked list over a disk that records its
      writes; coherence.
    - Log, LogInv, LogCrash, LogProps: the log.  A crash leaves the disk after any prefix of
      the writes; commit is atomic, recovery idempotent; the log is a block too small.
    - Store, StoreLog: the class of block operations fs.c is written against, with its laws,
      and the instance made of cache and log.
    - Fs, Dir: all of fs.c.
    - FsBlock, FsAlloc, FsProps: the block allocator, functionally and across crashes.
    - Dinode, FsFile, FsRead, FsWrite, FsFileProps: a file as a sequence of bytes.  [sound] is
      the invariant of an inode with its direct and indirect blocks; readi reads a slice of
      the contents, writei overwrites one or stops past the end where the disk is full, and
      after a crash the file is the old one or the new one.
    - FsInode: the table of inodes, [cache_ok], and iget, idup, ilock, iunlock and iput on it.
    - FsDir, FsPath: directories as lists of entries, [tree_ok], the walk along a path; namei
      and nameiparent compute it.
    - FsLink, FsTrunc: dirlink adds an entry; itrunc, and iput of the last reference to a file
      without names, give back what the file had.
    - FsVol: [volume], the invariant of all files of a disk together; a change of one file
      leaves the others as they are.  [kstate] is the kernel between two operations on it.
      FsNew: ialloc and the freeing of inodes on a volume.
    - FsCalls, FsCreate: [shows] relates a volume to the files of Unix (below); the parts of
      sys_link, and of open, mknod and mkdir through create, that work on the file system
      implement the specification.

    The image (mkfs/mkfs.c).
    - Mkfs: the whole program on an image of blocks.  MkfsInv, MkfsProps: the image read back
      gives the host's files, and a bitmap that is exact.
    - MkfsBoot: the kernel on that image, a consistent volume; the path of each file leads to
      its inode, and reading it gives the host's bytes.

    Devices: Pipe (pipe.c), Console (console.c), Printf (both printf.c); uart.c is in Trap.
    Pipes deliver the bytes written in order, the console refines a line editor, numbers
    are printed as their numerals when they fit the buffer.

    The kernel as a whole.
    - Kernel: the state of all components and how the code of each runs inside it.
    - Fdtable, File, Proc, Exec, Sysfile, Trap: file.c, proc.c, the arguments of system calls
      and exec.c, sysfile.c, uart.c, sysproc.c, the dispatch of system calls and trap.c.
    - NoSleep, FileRefs, FdCalls, FdProc: the reference counts of open files are the
      descriptors that refer to them.  NoSleep says which code may not sleep, FileRefs what a
      thread keeps and what the others may do while it sleeps, FdCalls and FdProc show each
      call that makes or removes a descriptor to keep to that, and FdProc ends with processes
      that make these calls in any order.  A process asleep in exit still has the one
      descriptor it is closing, whose reference is gone; the counts are exact up to those.
    - ExecArgs: the stack that exec builds.
    - TrapProps: a store to a copy-on-write page from the trap to the return; any other fault
      of a user program panics the kernel.

    User programs.
    - Ulib, Umalloc: ulib.c and umalloc.c; malloc and free keep blocks in use disjoint, for
      requests that fit the argument of sbrk; larger ones fault.
    - Sh, ShRun: the parser is total and cuts the line into its words; a line starts the
      right programs with the right files.
    - Grep: the matcher decides its pattern's language.
    - User: cat, echo, grep, init, kill, ln, ls, mkdir, rm, wc and zombie as interaction trees
      whose events are the system calls.
    - UserProps: the class of what a program may rely on of open, read, write and close; for
      every instance of it cat copies its files, wc counts and grep prints the matching lines,
      and they exit.
    - Unix: a specification of the system calls, files with names, pipes, descriptors and
      processes without the means of the kernel, that runs programs step by step.
    - UserTests: usertests, cowtest, forktest, stressfs and grind; as a check of the
      specification, tests of usertests are run on it.

    ** What is simplified

    In Kernel and the files on it spin locks are flags, taken and given back by a thread
    between two sleeps: Spinlock shows that they exclude.  Console and pipe transfers go
    through a function that says which user addresses are accessible, computed when the call
    starts.  A file system object is reached by its index in the table, and the store of the file system is instantiated
    with cache and log.  The theorems on descriptors assume nothing about the file system
    but follow its sleeps.  The theorems on the table of inodes are for calls that find no
    inode locked by another thread, and those on block operations for one thread at a time.
    A handler of the disk driver runs, between two sleeps, as one step with respect to the
    device, whose memory ordering is not modelled; a thread that sleeps may be resumed at any
    moment.  Of the host's calls in mkfs, opening and reading may end it, writing succeeds.
    Messages that the kernel and mkfs print on error paths are left out.

    In a user program of the file User, what a call returns through a pointer is part of its
    result, a buffer is the bytes that are read from it, and strings have no terminating NUL.
    The specification of the file Unix has no limit on the blocks of the disk, and memory is
    what the tests look at: the break and whether an address may be written.

    ** Not modelled

    The interrupt controller (plic.c): four functions that access its registers; devintr takes
    the two it calls as arguments.  Assembly
    (entry.S, swtch.S, kernelvec.S, trampoline.S, initcode.S) and the start (start.c,
    main.c): control registers and order; a switch of threads is the suspension of a
    computation.  uartinit, consoleinit, kvminit and kvminithart: device and control
    registers.  usys.pl, which generates the stubs of the system calls.  Of usertests.c the
    tests that use addresses and instructions directly (copyinstr, rwsbrk, pgbug, badarg,
    argptest, stacktest, nowrite, kernmem, MAXVAplus, bsstest, validatetest, bigargtest), those
    of sbrk and of memory limits, the slow ones that fill the disk, and the command line.
    Not proved, although modelled: that system calls other than link and those that create
    files implement the file Unix, in particular unlink, whose correctness needs link counts
    that are exact; that create keeps to the ten blocks of the log that begin_op reserves (the
    theorem asks for more); and theorems on the kernel's kill and procdump. *)

From stdpp Require Export base gmap list strings numbers fin_maps.
From Stdlib Require Export ZArith Lia.

#[global] Open Scope Z_scope.

(** * Results of kernel code

    Kernel code is modelled in a state monad whose results say how a call ended.
    [Ret] is a normal return.  [Panic] is a call of [panic] (printf.c), which never
    returns.  [Fault] is behaviour C leaves undefined or the hardware refuses: a null
    dereference, an array index out of range.  [NoFuel] is a loop cut off by its bound;
    the theorems show it is not reached.  [Sleep] is a call of [sleep] (proc.c): the
    thread has published state [s], waits on channel [chan], and continues with [k]
    from whatever state the rest of the system leaves. *)

Inductive chan : Type :=
| ChTicks
| ChProc (i : nat)
| ChPipeRead (pi : Z)
| ChPipeWrite (pi : Z)
| ChSleeplock (i : nat)
| ChInode (i : nat)
| ChLog
| ChCons
| ChUartTx
| ChBuf (i : nat)
| ChDiskFree
| ChNone.

#[export] Instance chan_eq_dec : EqDecision chan.
Proof. solve_decision. Defined.

Inductive res (S A : Type) : Type :=
| Ret (a : A) (s : S)
| Panic (msg : string)
| Fault (why : string)
| NoFuel
| Sleep (c : chan) (s : S) (k : S → res S A).

Arguments Ret {S A} a s.
Arguments Panic {S A} msg.
Arguments Fault {S A} why.
Arguments NoFuel {S A}.
Arguments Sleep {S A} c s k.

Fixpoint res_bind {S A B : Type} (r : res S A) (f : A → S → res S B) : res S B :=
  match r with
  | Ret a s => f a s
  | Panic m => Panic m
  | Fault w => Fault w
  | NoFuel => NoFuel
  | Sleep c s k => Sleep c s (λ s', res_bind (k s') f)
  end.

Definition M (S A : Type) : Type := S → res S A.

#[export] Instance M_ret S : MRet (M S) := λ A a s, Ret a s.
#[export] Instance M_bind S : MBind (M S) := λ A B f c s, res_bind (c s) f.

Section monad.
Context {S : Type}.

Definition panic {A} (msg : string) : M S A := λ _, Panic msg.
Definition fault {A} (why : string) : M S A := λ _, Fault why.
Definition get : M S S := λ s, Ret s s.
Definition gets {A} (f : S → A) : M S A := λ s, Ret (f s) s.
Definition put (s' : S) : M S unit := λ _, Ret tt s'.
Definition modify (f : S → S) : M S unit := λ s, Ret tt (f s).
Definition sleep_on (c : chan) : M S unit := λ s, Sleep c s (λ s', Ret tt s').

(** [if(b) c] with no else branch *)
Definition when (b : bool) (c : M S unit) : M S unit := if b then c else mret tt.

(** A C loop: [body] returns [inl a'] to go round again and [inr b] to leave.
    [fuel] bounds the number of rounds. *)
Fixpoint loop {A B} (fuel : nat) (body : A → M S (A + B)) (a : A) : M S B :=
  match fuel with
  | O => λ _, NoFuel
  | Datatypes.S n =>
      r ← body a;
      match r with
      | inl a' => loop n body a'
      | inr b => mret b
      end
  end.

End monad.

#[global] Arguments loop : simpl never.

(** Running a component's code inside a larger state. *)
Fixpoint zoom_res {S T A} (put : T → S → S) (get : S → T) (s : S) (r : res T A) : res S A :=
  match r with
  | Ret a t => Ret a (put t s)
  | Panic m => Panic m
  | Fault w => Fault w
  | NoFuel => NoFuel
  | Sleep c t k => Sleep c (put t s) (λ s', zoom_res put get s' (k (get s')))
  end.

Definition zoom {S T A} (put : T → S → S) (get : S → T) (c : M T A) : M S A :=
  λ s, zoom_res put get s (c (get s)).

(** [runs env r a s]: the computation [r] returns [a] in state [s] when every sleep is
    ended by a step of [env], the effect of all other threads. *)
Inductive runs {S A} (env : S → S → Prop) : res S A → A → S → Prop :=
| runs_ret a s : runs env (Ret a s) a s
| runs_sleep c s k s' a s'' :
    env s s' → runs env (k s') a s'' → runs env (Sleep c s k) a s''.

(** * Integers at their width *)

Definition u64 (x : Z) : Z := x mod 2 ^ 64.
Definition u32 (x : Z) : Z := x mod 2 ^ 32.
Definition u16 (x : Z) : Z := x mod 2 ^ 16.
Definition u8 (x : Z) : Z := x mod 2 ^ 8.
Definition i32 (x : Z) : Z := (x + 2 ^ 31) mod 2 ^ 32 - 2 ^ 31.
Definition i16 (x : Z) : Z := (x + 2 ^ 15) mod 2 ^ 16 - 2 ^ 15.

Lemma u64_id x : 0 ≤ x < 2 ^ 64 → u64 x = x.
Proof. apply Z.mod_small. Qed.
Lemma u64_bound x : 0 ≤ u64 x < 2 ^ 64.
Proof. apply Z.mod_pos_bound; lia. Qed.
Lemma u32_id x : 0 ≤ x < 2 ^ 32 → u32 x = x.
Proof. apply Z.mod_small. Qed.
Lemma u32_bound x : 0 ≤ u32 x < 2 ^ 32.
Proof. apply Z.mod_pos_bound; lia. Qed.
Lemma u8_id x : 0 ≤ x < 2 ^ 8 → u8 x = x.
Proof. apply Z.mod_small. Qed.
Lemma u8_bound x : 0 ≤ u8 x < 256.
Proof. apply Z.mod_pos_bound; lia. Qed.
Lemma i32_id x : - 2 ^ 31 ≤ x < 2 ^ 31 → i32 x = x.
Proof. intros. unfold i32. rewrite Z.mod_small; lia. Qed.

(** * Automation *)

Create HintDb xv6 discriminated.
Create Rewrite HintDb res.

Section monad_laws.
Context {S A B : Type}.
Implicit Types (c : M S A) (f : A → M S B).

Lemma bind_ret_eq c f s a s' : c s = Ret a s' → (c ≫= f) s = f a s'.
Proof. intros E. unfold mbind, M_bind. by rewrite E. Qed.

Lemma bind_panic_eq c f s m : c s = Panic m → (c ≫= f) s = Panic m.
Proof. intros E. unfold mbind, M_bind. by rewrite E. Qed.

Lemma bind_fault_eq c f s m : c s = Fault m → (c ≫= f) s = Fault m.
Proof. intros E. unfold mbind, M_bind. by rewrite E. Qed.

Lemma bind_inv_ret c f s b s'' :
  (c ≫= f) s = Ret b s'' → ∃ a s', c s = Ret a s' ∧ f a s' = Ret b s''.
Proof. unfold mbind, M_bind. destruct (c s); naive_solver. Qed.

Lemma mret_bind (a : A) f s : (mret a ≫= f) s = f a s.
Proof. done. Qed.
End monad_laws.

Lemma loop_unfold {S A B} n (body : A → M S (A + B)) a s :
  loop (Datatypes.S n) body a s =
  res_bind (body a s) (λ r, match r with inl a' => loop n body a' | inr b => Ret b end).
Proof. reflexivity. Qed.

Lemma loop_next {S A B} n (body : A → M S (A + B)) a a' s s' :
  body a s = Ret (inl a') s' → loop (Datatypes.S n) body a s = loop n body a' s'.
Proof. intros E. rewrite loop_unfold, E. reflexivity. Qed.

Lemma loop_done {S A B} n (body : A → M S (A + B)) a b s s' :
  body a s = Ret (inr b) s' → loop (Datatypes.S n) body a s = Ret b s'.
Proof. intros E. rewrite loop_unfold, E. reflexivity. Qed.

Lemma loop_panic {S A B} n (body : A → M S (A + B)) a m s :
  body a s = Panic m → loop (Datatypes.S n) body a s = Panic m.
Proof. intros E. rewrite loop_unfold, E. reflexivity. Qed.

(** Total correctness of a loop: an invariant [I n a s], [n] the rounds still needed,
    that every round preserves with a smaller [n] or leaves with the postcondition. *)
Lemma loop_total {S A B} (I : nat → A → S → Prop) (Q : B → S → Prop)
    (body : A → M S (A + B)) :
  (∀ n a s, I n a s →
     (∃ a' s' m, body a s = Ret (inl a') s' ∧ (m < n)%nat ∧ I m a' s') ∨
     (∃ b s', body a s = Ret (inr b) s' ∧ Q b s')) →
  ∀ n a s fuel, I n a s → (n < fuel)%nat →
  ∃ b s', loop fuel body a s = Ret b s' ∧ Q b s'.
Proof.
  intros Hstep n. induction (lt_wf n) as [n _ IH]. intros a s fuel HI Hf.
  destruct fuel as [|fuel]; [lia|].
  destruct (Hstep n a s HI) as [(a' & s' & m & E & Hm & HI')|(b & s' & E & HQ)].
  - rewrite (loop_next _ _ _ _ _ _ E). apply (IH m Hm); [done|lia].
  - rewrite (loop_done _ _ _ _ _ _ E). eauto.
Qed.

(** * Threads that sleep

    [meets G R Q r]: whenever the thread sleeps it publishes a state of [G]; if every state
    it is woken in is related by [R] to the one it published, it never panics or faults, and
    a normal return satisfies [Q].  Running out of fuel is not excluded: how often a thread
    is woken is up to the others. *)
Fixpoint meets {S A} (G : chan → S → Prop) (R : S → S → Prop) (Q : A → S → Prop) (r : res S A) : Prop :=
  match r with
  | Ret a s => Q a s
  | Panic _ | Fault _ => False
  | NoFuel => True
  | Sleep c s k => G c s ∧ ∀ s', R s s' → meets G R Q (k s')
  end.

Section meets.
Context {S : Type} (G : chan → S → Prop) (R : S → S → Prop).

Lemma meets_mono {A} (Q Q' : A → S → Prop) r :
  (∀ a s, Q a s → Q' a s) → meets G R Q r → meets G R Q' r.
Proof. intros HQ. induction r; simpl; auto. intros [HG Hk]. split; auto. Qed.

Lemma meets_bind {A B} (Q : B → S → Prop) (r : res S A) f :
  meets G R (λ a s, meets G R Q (f a s)) r → meets G R Q (res_bind r f).
Proof. induction r; simpl; auto. intros [HG Hk]. split; auto. Qed.

Lemma meets_loop {A B} (I : A → S → Prop) (Q : B → S → Prop) (body : A → M S (A + B)) :
  (∀ a s, I a s → meets G R (λ x s', match x with inl a' => I a' s' | inr b => Q b s' end) (body a s)) →
  ∀ fuel a s, I a s → meets G R Q (loop fuel body a s).
Proof.
  intros Hb fuel. induction fuel as [|fuel IH]; intros a s HI; [done|]. rewrite loop_unfold.
  apply meets_bind. eapply meets_mono; [|by apply Hb]. intros [a'|b] s'; simpl; auto.
Qed.
End meets.

(** Reduce one monadic step: unfold the bind when its first computation has a known
    result, from a hypothesis or by computation. *)
Ltac mstep :=
  first
    [ rewrite mret_bind
    | match goal with
      | H : ?c ?s = Ret _ _ |- context [mbind ?f ?c ?s] => rewrite (bind_ret_eq _ _ _ _ _ H)
      | H : ?c ?s = Panic _ |- context [mbind ?f ?c ?s] => rewrite (bind_panic_eq _ _ _ _ H)
      end ].

(** Compute through the monad's primitives. *)
Ltac msimpl :=
  unfold mbind, M_bind, mret, M_ret, get, gets, put, modify, when, panic, fault;
  cbn [res_bind negb andb orb].

(** Destruct the boolean test of the next [if] and turn it into a proposition. *)
Ltac bcase :=
  match goal with
  | |- context [if ?b then _ else _] =>
      match b with
      | Z.ltb ?x ?y => destruct (Z.ltb_spec x y)
      | Z.leb ?x ?y => destruct (Z.leb_spec x y)
      | Z.eqb ?x ?y => destruct (Z.eqb_spec x y)
      | _ => destruct b eqn:?
      end
  end.

(** Linear arithmetic with division and remainder by constants. *)
Ltac zdm := Z.div_mod_to_equations; lia.

(** * Shared lemmas *)

Lemma Z_div_unique_range a b q : 0 < b → q * b ≤ a < (q + 1) * b → a / b = q.
Proof. intros. symmetry. apply Z.div_unique with (a - q * b); lia. Qed.

Lemma Z_land_ones_mod x n : 0 ≤ n → Z.land x (2 ^ n - 1) = x mod 2 ^ n.
Proof. intros. rewrite <- Z.land_ones by lia. f_equal. rewrite Z.ones_equiv. lia. Qed.
