(* ===== verification/Mem.v ===== *)
(** Physical memory as bytes, little-endian words in it, and the byte and string
    routines of kernel/string.c, which every other component uses.

    [mem] maps addresses to bytes; [rd] and [wr] are the C lvalue accesses
    [*(uchar* )a] and [*(uchar* )a = v], [read64]/[write64] and [read32]/[write32] the
    accesses through wider pointers on this little-endian machine.  [memset], [memmove]
    and the rest follow the loops of string.c one byte at a time. *)

From S2P Require Import Prelude.

(** * Bytes and words *)

Abbreviation mem := (gmap Z Z).

Definition rd (m : mem) (a : Z) : Z := u8 (default 0 (m !! a)).
Definition wr (m : mem) (a v : Z) : mem := <[a := u8 v]> m.

Fixpoint le_read (k : nat) (m : mem) (a : Z) : Z :=
  match k with
  | O => 0
  | S k => rd m a + 256 * le_read k m (a + 1)
  end.

Fixpoint le_write (k : nat) (m : mem) (a v : Z) : mem :=
  match k with
  | O => m
  | S k => le_write k (wr m a v) (a + 1) (v / 256)
  end.

Definition read64 (m : mem) (a : Z) : Z := le_read 8 m a.
Definition write64 (m : mem) (a v : Z) : mem := le_write 8 m a v.
Definition read32 (m : mem) (a : Z) : Z := le_read 4 m a.
Definition write32 (m : mem) (a v : Z) : mem := le_write 4 m a v.

(** The [n] bytes from [a] on, and storing a list of bytes. *)
Fixpoint rd_bytes (m : mem) (a : Z) (n : nat) : list Z :=
  match n with
  | O => []
  | S n => rd m a :: rd_bytes m (a + 1) n
  end.

Fixpoint wr_bytes (m : mem) (a : Z) (l : list Z) : mem :=
  match l with
  | [] => m
  | b :: l => wr_bytes (wr m a b) (a + 1) l
  end.

(** A NUL-terminated string [l] sits at [a]. *)
Fixpoint cstr (m : mem) (a : Z) (l : list Z) : Prop :=
  match l with
  | [] => rd m a = 0
  | b :: l => b ≠ 0 ∧ rd m a = b ∧ cstr m (a + 1) l
  end.

(** * kernel/string.c *)

(** [for(i = 0; i < n; i++) cdst[i] = c;] *)
Fixpoint set_loop (k : nat) (m : mem) (d c : Z) : mem :=
  match k with
  | O => m
  | S k => set_loop k (wr m d c) (d + 1) c
  end.

Definition memset (m : mem) (dst c n : Z) : mem := set_loop (Z.to_nat (u32 n)) m dst c.

Fixpoint memcmp_loop (k : nat) (m : mem) (s1 s2 : Z) : Z :=
  match k with
  | O => 0
  | S k => if rd m s1 =? rd m s2 then memcmp_loop k m (s1 + 1) (s2 + 1)
           else rd m s1 - rd m s2
  end.

Definition memcmp (m : mem) (v1 v2 n : Z) : Z := memcmp_loop (Z.to_nat (u32 n)) m v1 v2.

(** [while(n-- > 0) *d++ = *s++;] *)
Fixpoint copy_fwd (k : nat) (m : mem) (d s : Z) : mem :=
  match k with
  | O => m
  | S k => copy_fwd k (wr m d (rd m s)) (d + 1) (s + 1)
  end.

(** [while(n-- > 0) *--d = *--s;] *)
Fixpoint copy_bwd (k : nat) (m : mem) (d s : Z) : mem :=
  match k with
  | O => m
  | S k => copy_bwd k (wr m (d - 1) (rd m (s - 1))) (d - 1) (s - 1)
  end.

Definition memmove (m : mem) (dst src n : Z) : mem :=
  let n := u32 n in
  if n =? 0 then m
  else if (src <? dst) && (dst <? src + n)
  then copy_bwd (Z.to_nat n) m (dst + n) (src + n)
  else copy_fwd (Z.to_nat n) m dst src.

Definition memcpy (m : mem) (dst src n : Z) : mem := memmove m dst src n.

Fixpoint strncmp_loop (k : nat) (m : mem) (p q : Z) : Z :=
  match k with
  | O => 0
  | S k => if negb (rd m p =? 0) && (rd m p =? rd m q)
           then strncmp_loop k m (p + 1) (q + 1)
           else rd m p - rd m q
  end.

Definition strncmp (m : mem) (p q n : Z) : Z := strncmp_loop (Z.to_nat (u32 n)) m p q.

(** [while(n-- > 0) *s++ = 0;] *)
Fixpoint pad_loop (k : nat) (m : mem) (s : Z) : mem :=
  match k with
  | O => m
  | S k => pad_loop k (wr m s 0) (s + 1)
  end.

(** [while(n-- > 0 && ( *s++ = *t++ ) != 0);] and then the padding. *)
Fixpoint strncpy_loop (k : nat) (m : mem) (s t : Z) : mem :=
  match k with
  | O => m
  | S k =>
      let c := rd m t in
      let m := wr m s c in
      if c =? 0 then pad_loop k m (s + 1) else strncpy_loop k m (s + 1) (t + 1)
  end.

Definition strncpy (m : mem) (s t n : Z) : mem := strncpy_loop (Z.to_nat n) m s t.

(** [while(--n > 0 && ( *s++ = *t++ ) != 0); *s = 0;] with [k] = n - 1 *)
Fixpoint safestrcpy_loop (k : nat) (m : mem) (s t : Z) : mem :=
  match k with
  | O => wr m s 0
  | S k =>
      let c := rd m t in
      let m := wr m s c in
      if c =? 0 then wr m (s + 1) 0 else safestrcpy_loop k m (s + 1) (t + 1)
  end.

Definition safestrcpy (m : mem) (s t n : Z) : mem :=
  if n <=? 0 then m else safestrcpy_loop (Z.to_nat (n - 1)) m s t.

(** [for(n = 0; s[n]; n++);]; [None] if no NUL within [fuel] bytes. *)
Fixpoint strlen_loop (fuel : nat) (m : mem) (s n : Z) : option Z :=
  match fuel with
  | O => None
  | S fuel => if rd m (s + n) =? 0 then Some n else strlen_loop fuel m s (n + 1)
  end.

Definition strlen (fuel : nat) (m : mem) (s : Z) : option Z := strlen_loop fuel m s 0.

(** * Lemmas *)

Lemma rd_bound m a : 0 ≤ rd m a < 256.
Proof. apply u8_bound. Qed.

Lemma rd_wr m a v b : rd (wr m a v) b = if decide (a = b) then u8 v else rd m b.
Proof.
  unfold rd, wr. rewrite lookup_insert. case_decide; simpl; [|done].
  apply u8_id. apply u8_bound.
Qed.

Lemma rd_wr_eq m a v : rd (wr m a v) a = u8 v.
Proof. rewrite rd_wr. by case_decide. Qed.

Lemma rd_wr_ne m a v b : a ≠ b → rd (wr m a v) b = rd m b.
Proof. intros. rewrite rd_wr. by case_decide. Qed.

Lemma u8_rd m a : u8 (rd m a) = rd m a.
Proof. apply u8_id, rd_bound. Qed.

Lemma le_read_bound k m a : 0 ≤ le_read k m a < 256 ^ Z.of_nat k.
Proof.
  revert a. induction k as [|k IH]; intros a; [simpl; lia|].
  rewrite Nat2Z.inj_succ, Z.pow_succ_r by lia. simpl.
  pose proof (rd_bound m a). specialize (IH (a + 1)). lia.
Qed.

Lemma le_read_ext k m m' a :
  (∀ x, a ≤ x < a + Z.of_nat k → rd m' x = rd m x) → le_read k m' a = le_read k m a.
Proof.
  revert a. induction k as [|k IH]; intros a H; [done|]. simpl.
  rewrite H by lia. rewrite (IH (a + 1)); [done|]. intros; apply H; lia.
Qed.

Lemma rd_le_write_out k m a v x :
  x < a ∨ a + Z.of_nat k ≤ x → rd (le_write k m a v) x = rd m x.
Proof.
  revert m a v. induction k as [|k IH]; intros m a v H; [done|]. simpl.
  rewrite IH by lia. apply rd_wr_ne. lia.
Qed.

Lemma le_read_write_eq k m a v : le_read k (le_write k m a v) a = v mod 256 ^ Z.of_nat k.
Proof.
  revert m a v. induction k as [|k IH]; intros m a v; [simpl; by rewrite Z.mod_1_r|].
  rewrite Nat2Z.inj_succ, Z.pow_succ_r by lia. simpl.
  rewrite IH, rd_le_write_out by lia. rewrite rd_wr_eq. unfold u8.
  change (2 ^ 8) with 256. rewrite Z.rem_mul_r; [done|lia|]. apply Z.pow_pos_nonneg; lia.
Qed.

Lemma le_read_write_ne k j m a b v :
  b + Z.of_nat k ≤ a ∨ a + Z.of_nat j ≤ b →
  le_read k (le_write j m a v) b = le_read k m b.
Proof. intros. apply le_read_ext. intros. apply rd_le_write_out. lia. Qed.

Lemma read64_bound m a : 0 ≤ read64 m a < 2 ^ 64.
Proof. exact (le_read_bound 8 m a). Qed.

Lemma read64_write64_eq m a v : 0 ≤ v < 2 ^ 64 → read64 (write64 m a v) a = v.
Proof. intros. unfold read64, write64. rewrite le_read_write_eq. by apply Z.mod_small. Qed.

Lemma read64_write64_ne m a b v :
  b + 8 ≤ a ∨ a + 8 ≤ b → read64 (write64 m a v) b = read64 m b.
Proof. intros. apply le_read_write_ne. lia. Qed.

Lemma rd_write64_out m a v x : x < a ∨ a + 8 ≤ x → rd (write64 m a v) x = rd m x.
Proof. intros. apply rd_le_write_out. lia. Qed.

Lemma read64_ext m m' a :
  (∀ x, a ≤ x < a + 8 → rd m' x = rd m x) → read64 m' a = read64 m a.
Proof. intros H. apply le_read_ext. intros; apply H; lia. Qed.

Lemma le_read_zero k m a :
  (∀ x, a ≤ x < a + Z.of_nat k → rd m x = 0) → le_read k m a = 0.
Proof.
  revert a. induction k as [|k IH]; intros a H; [done|]. simpl.
  rewrite H by lia. rewrite IH; [done|]. intros; apply H; lia.
Qed.

Lemma read64_zero m a : (∀ x, a ≤ x < a + 8 → rd m x = 0) → read64 m a = 0.
Proof. intros H. apply le_read_zero. intros; apply H; lia. Qed.

Lemma rd_set_loop k m d c a :
  rd (set_loop k m d c) a = if decide (d ≤ a < d + Z.of_nat k) then u8 c else rd m a.
Proof.
  revert m d. induction k as [|k IH]; intros m d.
  - case_decide; [lia|done].
  - simpl set_loop. rewrite IH, rd_wr. repeat case_decide; try lia; done.
Qed.

Lemma rd_memset m d c n a :
  0 ≤ n < 2 ^ 32 →
  rd (memset m d c n) a = if decide (d ≤ a < d + n) then u8 c else rd m a.
Proof.
  intros. unfold memset. rewrite rd_set_loop, u32_id by lia.
  repeat case_decide; try lia; done.
Qed.

Lemma rd_memset_out m d c n a :
  0 ≤ n < 2 ^ 32 → a < d ∨ d + n ≤ a → rd (memset m d c n) a = rd m a.
Proof. intros. rewrite rd_memset by lia. case_decide; [lia|done]. Qed.

Lemma rd_copy_fwd k m d s a :
  d ≤ s ∨ s + Z.of_nat k ≤ d →
  rd (copy_fwd k m d s) a =
  if decide (d ≤ a < d + Z.of_nat k) then rd m (s + (a - d)) else rd m a.
Proof.
  revert m d s. induction k as [|k IH]; intros m d s H.
  - case_decide; [lia|done].
  - simpl copy_fwd. rewrite IH by lia. rewrite !rd_wr.
    destruct (decide (d = a)) as [<-|]; repeat case_decide; try lia; try done;
      rewrite ?u8_rd; f_equal; lia.
Qed.

Lemma rd_copy_bwd k m d s a :
  s ≤ d →
  rd (copy_bwd k m d s) a =
  if decide (d - Z.of_nat k ≤ a < d) then rd m (s + (a - d)) else rd m a.
Proof.
  revert m d s. induction k as [|k IH]; intros m d s H.
  - case_decide; [lia|done].
  - simpl copy_bwd. rewrite IH by lia. rewrite !rd_wr.
    destruct (decide (d - 1 = a)) as [<-|]; repeat case_decide; try lia; try done;
      rewrite ?u8_rd; f_equal; lia.
Qed.

Lemma rd_memmove m d s n a :
  0 ≤ n < 2 ^ 32 →
  rd (memmove m d s n) a = if decide (d ≤ a < d + n) then rd m (s + (a - d)) else rd m a.
Proof.
  intros Hn. unfold memmove. rewrite u32_id by lia.
  bcase; [case_decide; [lia|done]|].
  destruct (Z.ltb_spec s d); simpl; [destruct (Z.ltb_spec d (s + n)); simpl|].
  - rewrite rd_copy_bwd by lia. rewrite Z2Nat.id by lia.
    repeat case_decide; try lia; try done. f_equal; lia.
  - rewrite rd_copy_fwd by lia. rewrite Z2Nat.id by lia. done.
  - rewrite rd_copy_fwd by lia. rewrite Z2Nat.id by lia. done.
Qed.

Lemma rd_memmove_out m d s n a :
  0 ≤ n < 2 ^ 32 → a < d ∨ d + n ≤ a → rd (memmove m d s n) a = rd m a.
Proof. intros. rewrite rd_memmove by lia. case_decide; [lia|done]. Qed.

Lemma length_rd_bytes m a n : length (rd_bytes m a n) = n.
Proof. revert a. induction n; intros; simpl; [done|]. by rewrite IHn. Qed.

Lemma lookup_rd_bytes m a n i :
  (i < n)%nat → rd_bytes m a n !! i = Some (rd m (a + Z.of_nat i)).
Proof.
  revert a i. induction n as [|n IH]; intros a i Hi; [lia|].
  destruct i as [|i]; simpl; [by rewrite Z.add_0_r|].
  rewrite IH by lia. do 2 f_equal. lia.
Qed.

Lemma rd_bytes_ext m m' a a' n :
  (∀ i, (i < n)%nat → rd m' (a' + Z.of_nat i) = rd m (a + Z.of_nat i)) →
  rd_bytes m' a' n = rd_bytes m a n.
Proof.
  intros H. apply list_eq_same_length with n; rewrite ?length_rd_bytes; [done..|].
  intros i x y Hi. rewrite !lookup_rd_bytes by done. rewrite H by done. congruence.
Qed.

Lemma rd_wr_bytes m a l x :
  rd (wr_bytes m a l) x =
  match l !! Z.to_nat (x - a) with
  | Some b => if decide (a ≤ x) then u8 b else rd m x
  | None => rd m x
  end.
Proof.
  revert m a. induction l as [|b l IH]; intros m a; simpl; [done|].
  rewrite IH, rd_wr. destruct (decide (a = x)) as [<-|Hne].
  - rewrite Z.sub_diag. simpl. case_match; repeat case_decide; try lia; done.
  - destruct (decide (a ≤ x)).
    + replace (Z.to_nat (x - a)) with (S (Z.to_nat (x - (a + 1)))) by lia. simpl.
      case_match; repeat case_decide; try lia; done.
    + repeat case_match; repeat case_decide; try lia; done.
Qed.

(** Keep the byte-level loops folded in goals. *)
#[global] Arguments memset : simpl never.
#[global] Arguments memmove : simpl never.
#[global] Arguments read64 : simpl never.
#[global] Arguments write64 : simpl never.
#[global] Arguments read32 : simpl never.
#[global] Arguments write32 : simpl never.
#[global] Opaque memset memmove read64 write64 read32 write32.
