(* ===== verification/Riscv.v ===== *)
(** The address arithmetic of kernel/riscv.h and the address map of kernel/memlayout.h:
    pages, Sv39 page-table entries and indices, and the layout of physical and virtual
    memory.  The macros keep the C bit operations; the lemmas below give their arithmetic
    meaning, which the rest of the development uses. *)

From S2P Require Import Prelude.

(** * Pages and page-table entries (riscv.h) *)

Definition PGSIZE : Z := 4096.
Definition PGSHIFT : Z := 12.

Definition PGROUNDUP (sz : Z) : Z := Z.land (u64 (sz + PGSIZE - 1)) (Z.lnot (PGSIZE - 1)).
Definition PGROUNDDOWN (a : Z) : Z := Z.land a (Z.lnot (PGSIZE - 1)).

Definition PTE_V : Z := Z.shiftl 1 0.
Definition PTE_R : Z := Z.shiftl 1 1.
Definition PTE_W : Z := Z.shiftl 1 2.
Definition PTE_X : Z := Z.shiftl 1 3.
Definition PTE_U : Z := Z.shiftl 1 4.
Definition PTE_COW : Z := Z.shiftl 1 8.

Definition PA2PTE (pa : Z) : Z := u64 (Z.shiftl (Z.shiftr pa 12) 10).
Definition PTE2PA (pte : Z) : Z := u64 (Z.shiftl (Z.shiftr pte 10) 12).
Definition PTE_FLAGS (pte : Z) : Z := Z.land pte 0x3FF.

Definition PXMASK : Z := 0x1FF.
Definition PXSHIFT (level : Z) : Z := PGSHIFT + 9 * level.
Definition PX (level va : Z) : Z := Z.land (Z.shiftr va (PXSHIFT level)) PXMASK.

Definition MAXVA : Z := Z.shiftl 1 (9 + 9 + 9 + 12 - 1).

Definition SATP_SV39 : Z := Z.shiftl 8 60.
Definition MAKE_SATP (pagetable : Z) : Z := Z.lor SATP_SV39 (Z.shiftr pagetable 12).

Definition SSTATUS_SPP : Z := Z.shiftl 1 8.
Definition SSTATUS_SPIE : Z := Z.shiftl 1 5.
Definition SSTATUS_SIE : Z := Z.shiftl 1 1.

(** * The address map (memlayout.h) *)

Definition UART0 : Z := 0x10000000.
Definition UART0_IRQ : Z := 10.
Definition VIRTIO0 : Z := 0x10001000.
Definition VIRTIO0_IRQ : Z := 1.
Definition PLIC : Z := 0x0c000000.
Definition KERNBASE : Z := 0x80000000.
Definition PHYSTOP : Z := KERNBASE + 128 * 1024 * 1024.
Definition TRAMPOLINE : Z := MAXVA - PGSIZE.
Definition KSTACK (p : Z) : Z := TRAMPOLINE - (p + 1) * 2 * PGSIZE.
Definition TRAPFRAME : Z := TRAMPOLINE - PGSIZE.

(** The symbols kernel.ld and trampoline.S define: the end of the kernel's image, the end
    of its text, and the page of trampoline code. *)
Class KernelImage := {
  kend : Z;
  etext : Z;
  trampoline : Z;
}.

Class KernelImageOk `{KernelImage} : Prop := {
  kend_range : KERNBASE ≤ kend ≤ PHYSTOP;
  etext_range : KERNBASE < etext ≤ kend;
  etext_aligned : etext mod PGSIZE = 0;
  trampoline_range : KERNBASE ≤ trampoline < etext;
  trampoline_aligned : trampoline mod PGSIZE = 0;
}.

(** A page [kalloc] may hand out. *)
Definition is_page `{KernelImage} (pa : Z) : Prop :=
  pa mod PGSIZE = 0 ∧ kend ≤ pa < PHYSTOP.

(** Bit [n] of [x]. *)
Abbreviation bit x n := (Z.testbit x n).

(** * Lemmas *)

Lemma land_mask_mod a : 0 ≤ a → Z.land a (Z.lnot (PGSIZE - 1)) = a - a mod PGSIZE.
Proof.
  intros Ha. change (PGSIZE - 1) with (Z.ones 12).
  rewrite <- Z.ldiff_land, Z.ldiff_ones_r by lia.
  rewrite Z.shiftl_mul_pow2, Z.shiftr_div_pow2 by lia.
  change (2 ^ 12) with 4096. unfold PGSIZE. zdm.
Qed.

Lemma PGROUNDDOWN_mod a : 0 ≤ a → PGROUNDDOWN a = a - a mod PGSIZE.
Proof. apply land_mask_mod. Qed.

Lemma PGROUNDDOWN_props a :
  0 ≤ a → 0 ≤ PGROUNDDOWN a ≤ a ∧ a < PGROUNDDOWN a + PGSIZE ∧ PGROUNDDOWN a mod PGSIZE = 0.
Proof. intros. rewrite PGROUNDDOWN_mod by done. unfold PGSIZE. zdm. Qed.

Lemma PGROUNDUP_mod a :
  0 ≤ a < 2 ^ 64 - PGSIZE → PGROUNDUP a = a + PGSIZE - 1 - (a + PGSIZE - 1) mod PGSIZE.
Proof.
  intros. unfold PGROUNDUP. rewrite u64_id by (unfold PGSIZE in *; lia).
  apply land_mask_mod. unfold PGSIZE. lia.
Qed.

Lemma PGROUNDUP_props a :
  0 ≤ a < 2 ^ 64 - PGSIZE →
  a ≤ PGROUNDUP a < a + PGSIZE ∧ PGROUNDUP a mod PGSIZE = 0.
Proof. intros. rewrite PGROUNDUP_mod by done. unfold PGSIZE in *. zdm. Qed.

Lemma PGROUNDUP_aligned a :
  0 ≤ a < 2 ^ 64 - PGSIZE → a mod PGSIZE = 0 → PGROUNDUP a = a.
Proof. intros. rewrite PGROUNDUP_mod by done. unfold PGSIZE in *. zdm. Qed.

Lemma PX_div level va : 0 ≤ level → 0 ≤ va → PX level va = (va / 2 ^ (12 + 9 * level)) mod 512.
Proof.
  intros. unfold PX, PXMASK, PXSHIFT, PGSHIFT. rewrite Z.shiftr_div_pow2 by lia.
  exact (Z_land_ones_mod _ 9 ltac:(lia)).
Qed.

Lemma PX_low va : 0 ≤ va < MAXVA → PX 2 va < 256.
Proof.
  intros Hva. rewrite PX_div by lia. change (2 ^ (12 + 9 * 2)) with 1073741824.
  change MAXVA with 274877906944 in Hva. zdm.
Qed.

Lemma PX_bound level va : 0 ≤ level → 0 ≤ va → 0 ≤ PX level va < 512.
Proof. intros. rewrite PX_div by lia. apply Z.mod_pos_bound; lia. Qed.

(** The three indices determine the page. *)
Lemma PX_inj va va' :
  0 ≤ va < MAXVA → 0 ≤ va' < MAXVA →
  PX 2 va = PX 2 va' → PX 1 va = PX 1 va' → PX 0 va = PX 0 va' →
  va / PGSIZE = va' / PGSIZE.
Proof.
  intros Hv Hv'. rewrite !PX_div by lia. unfold MAXVA in *.
  change (2 ^ (12 + 9 * 2)) with 1073741824. change (2 ^ (12 + 9 * 1)) with 2097152.
  change (2 ^ (12 + 9 * 0)) with 4096. change (Z.shiftl 1 (9 + 9 + 9 + 12 - 1)) with 274877906944 in *.
  unfold PGSIZE. zdm.
Qed.

Lemma PX_page level va va' :
  0 ≤ level → 0 ≤ va → 0 ≤ va' → va / PGSIZE = va' / PGSIZE → PX level va = PX level va'.
Proof.
  intros Hl Hv Hv' E. rewrite !PX_div by lia. rewrite Z.pow_add_r by lia.
  change (2 ^ 12) with PGSIZE.
  rewrite <- !Z.div_div by (unfold PGSIZE; lia). by rewrite E.
Qed.

Lemma land_pow2_eqb x n : 0 ≤ n → (Z.land x (Z.shiftl 1 n) =? 0) = negb (bit x n).
Proof.
  intros Hn. rewrite Z.shiftl_1_l. destruct (bit x n) eqn:E; simpl.
  - apply Z.eqb_neq. intros H0.
    assert (Z.testbit (Z.land x (2 ^ n)) n = true) as H1.
    { rewrite Z.land_spec, E, Z.pow2_bits_true by lia. done. }
    rewrite H0, Z.bits_0 in H1. done.
  - apply Z.eqb_eq. apply Z.bits_inj'. intros i Hi.
    rewrite Z.land_spec, Z.bits_0, Z.pow2_bits_eqb by lia.
    destruct (Z.eqb_spec n i) as [<-|]; [by rewrite E|apply andb_false_r].
Qed.

(** A page-table entry as its page and its flags. *)
Lemma PA2PTE_div pa : 0 ≤ pa < 2 ^ 64 → PA2PTE pa = pa / PGSIZE * 1024.
Proof.
  intros. unfold PA2PTE. rewrite Z.shiftr_div_pow2, Z.shiftl_mul_pow2 by lia.
  change (2 ^ 12) with PGSIZE. change (2 ^ 10) with 1024.
  apply u64_id. unfold PGSIZE. zdm.
Qed.

Lemma lor_low x f : 0 ≤ f < 1024 → Z.lor (x * 1024) f = x * 1024 + f.
Proof.
  intros. change 1024 with (2 ^ 10). rewrite <- Z.shiftl_mul_pow2 by lia.
  symmetry.
  rewrite <- Z.lxor_lor; [apply Z.add_nocarry_lxor|]; apply Z.bits_inj'; intros i Hi;
    rewrite Z.land_spec, Z.bits_0.
  all: destruct (decide (i < 10));
    [rewrite Z.shiftl_spec_low by lia; done|].
  all: replace (Z.testbit f i) with false; [by rewrite andb_false_r|].
  all: symmetry; destruct (decide (f = 0)) as [->|];
    [apply Z.bits_0|apply Z.bits_above_log2; [lia|]].
  all: enough (Z.log2 f < 10) by lia; apply Z.log2_lt_pow2; lia.
Qed.

Definition pte_of_page (pa f : Z) : Z := Z.lor (PA2PTE pa) f.

Lemma pte_of_page_sum pa f :
  0 ≤ pa < 2 ^ 64 → 0 ≤ f < 1024 → pte_of_page pa f = pa / PGSIZE * 1024 + f.
Proof. intros. unfold pte_of_page. rewrite PA2PTE_div by done. by apply lor_low. Qed.

Lemma pte_of_page_bound pa f :
  0 ≤ pa < 2 ^ 64 → 0 ≤ f < 1024 → 0 ≤ pte_of_page pa f < 2 ^ 64.
Proof. intros. rewrite pte_of_page_sum by done. unfold PGSIZE. zdm. Qed.

Lemma PTE2PA_of_page pa f :
  0 ≤ pa < 2 ^ 64 → pa mod PGSIZE = 0 → 0 ≤ f < 1024 → PTE2PA (pte_of_page pa f) = pa.
Proof.
  intros. rewrite pte_of_page_sum by done. unfold PTE2PA.
  rewrite Z.shiftr_div_pow2, Z.shiftl_mul_pow2 by lia.
  change (2 ^ 10) with 1024. change (2 ^ 12) with PGSIZE.
  rewrite Z.div_add_l, (Z.div_small f), Z.add_0_r by lia.
  unfold PGSIZE in *. rewrite u64_id; zdm.
Qed.

Lemma PTE_FLAGS_mod pte : PTE_FLAGS pte = pte mod 1024.
Proof. exact (Z_land_ones_mod pte 10 ltac:(lia)). Qed.

Lemma PTE_FLAGS_bound pte : 0 ≤ PTE_FLAGS pte < 1024.
Proof. rewrite PTE_FLAGS_mod. apply Z.mod_pos_bound; lia. Qed.

Lemma PTE_FLAGS_of_page pa f :
  0 ≤ pa < 2 ^ 64 → 0 ≤ f < 1024 → PTE_FLAGS (pte_of_page pa f) = f.
Proof.
  intros. rewrite PTE_FLAGS_mod, pte_of_page_sum by done.
  rewrite Z.add_comm, Z.mod_add by lia. by apply Z.mod_small.
Qed.

Lemma bit_PTE_FLAGS pte n : 0 ≤ n < 10 → bit (PTE_FLAGS pte) n = bit pte n.
Proof.
  intros. rewrite PTE_FLAGS_mod. change 1024 with (2 ^ 10).
  apply Z.mod_pow2_bits_low. lia.
Qed.

Lemma bit_pte_of_page pa f n :
  0 ≤ pa < 2 ^ 64 → 0 ≤ f < 1024 → 0 ≤ n < 10 → bit (pte_of_page pa f) n = bit f n.
Proof. intros. rewrite <- bit_PTE_FLAGS by lia. by rewrite PTE_FLAGS_of_page. Qed.

(** Flag words stay flag words under the kernel's bit operations. *)
Lemma flags_lor f g : 0 ≤ f < 1024 → 0 ≤ g < 1024 → 0 ≤ Z.lor f g < 1024.
Proof.
  intros. split; [apply Z.lor_nonneg; lia|].
  destruct (decide (Z.lor f g = 0)); [lia|].
  apply (Z.log2_lt_pow2 _ 10); [pose proof (proj2 (Z.lor_nonneg f g)); lia|].
  rewrite Z.log2_lor by lia.
  assert (∀ x, 0 ≤ x < 1024 → Z.log2 x < 10) as Hl.
  { intros x Hx. destruct (decide (x = 0)) as [->|]; [done|]. apply Z.log2_lt_pow2; lia. }
  pose proof (Hl f). pose proof (Hl g). lia.
Qed.

Lemma flags_land f g : 0 ≤ f < 1024 → 0 ≤ Z.land f g < 1024.
Proof.
  intros. replace (Z.land f g) with (Z.land f g mod 1024).
  { apply Z.mod_pos_bound. lia. }
  change 1024 with (2 ^ 10). rewrite <- Z.land_ones by lia.
  rewrite <- Z.land_assoc, (Z.land_comm g), Z.land_assoc, Z.land_ones by lia.
  by rewrite Z.mod_small by (change (2 ^ 10) with 1024; lia).
Qed.

Lemma land_PTE_V v : (Z.land v PTE_V =? 0) = negb (bit v 0).
Proof. by apply land_pow2_eqb. Qed.
Lemma land_PTE_W v : (Z.land v PTE_W =? 0) = negb (bit v 2).
Proof. by apply land_pow2_eqb. Qed.
Lemma land_PTE_U v : (Z.land v PTE_U =? 0) = negb (bit v 4).
Proof. by apply land_pow2_eqb. Qed.
Lemma land_PTE_COW v : (Z.land v PTE_COW =? 0) = negb (bit v 8).
Proof. by apply land_pow2_eqb. Qed.
