(* ===== verification/Kalloc.v ===== *)
(** The physical page allocator, kernel/kalloc.c, with the per-page reference counts of
    copy-on-write fork.

    [kmem] is the allocator's state together with the memory it manages: the free list is
    threaded through the free pages themselves ([struct run]), so it can only be read
    through [ram].  Every operation takes and releases [kmem.lock]; taking it twice on one
    hart panics as in spinlock.c.  [kmem_inv s l] is the allocator's invariant: the list in
    memory is [l], without repetitions, of proper pages whose count is zero. *)

From S2P Require Import Prelude Mem Riscv.

(** * State *)

Record kmem := KMem {
  ram : mem;
  freelist : Z;
  ref_count : gmap Z Z;
  kmem_locked : bool;
}.

Definition set_ram (m : mem) (s : kmem) : kmem :=
  KMem m (freelist s) (ref_count s) (kmem_locked s).
Definition set_freelist (p : Z) (s : kmem) : kmem :=
  KMem (ram s) p (ref_count s) (kmem_locked s).
Definition set_refs (r : gmap Z Z) (s : kmem) : kmem :=
  KMem (ram s) (freelist s) r (kmem_locked s).
Definition set_kmem_locked (b : bool) (s : kmem) : kmem :=
  KMem (ram s) (freelist s) (ref_count s) b.

(** [ref_count] has (PHYSTOP-KERNBASE)/PGSIZE entries. *)
Definition NREF : Z := (PHYSTOP - KERNBASE) / PGSIZE.
Definition ref_index (pa : Z) : Z := u64 (pa - KERNBASE) / PGSIZE.

Section kalloc.
Context `{KernelImage}.

(** * Memory accesses through the kernel's direct map

    RAM is mapped readable from KERNBASE and writable from [etext] (kvmmake, vm.c);
    anything else is a kernel page fault. *)

Definition readable (a n : Z) : bool := (KERNBASE <=? a) && (a + n <=? PHYSTOP).
Definition writable (a n : Z) : bool := (etext <=? a) && (a + n <=? PHYSTOP).

Definition load64 (a : Z) : M kmem Z := λ s,
  if readable a 8 then Ret (read64 (ram s) a) s else Fault "load page fault".

Definition store64 (a v : Z) : M kmem unit := λ s,
  if writable a 8 then Ret tt (set_ram (write64 (ram s) a v) s) else Fault "store page fault".

Definition mset (d c n : Z) : M kmem unit := λ s,
  if writable d n then Ret tt (set_ram (memset (ram s) d c n) s) else Fault "store page fault".

Definition mmove (d src n : Z) : M kmem unit := λ s,
  if n =? 0 then Ret tt s
  else if writable d n && readable src n
  then Ret tt (set_ram (memmove (ram s) d src n) s)
  else Fault "page fault in memmove".

(** * The lock *)

Definition acquire_kmem : M kmem unit := λ s,
  if kmem_locked s then Panic "acquire" else Ret tt (set_kmem_locked true s).

Definition release_kmem : M kmem unit := λ s,
  if kmem_locked s then Ret tt (set_kmem_locked false s) else Panic "release".

(** * Reference counts *)

Definition ref_get (i : Z) : M kmem Z := λ s,
  if (0 <=? i) && (i <? NREF) then Ret (default 0 (ref_count s !! i)) s
  else Fault "ref_count out of range".

Definition ref_set (i v : Z) : M kmem unit := λ s,
  if (0 <=? i) && (i <? NREF) then Ret tt (set_refs (<[i := i32 v]> (ref_count s)) s)
  else Fault "ref_count out of range".

Definition update_ref_count (pa sign : Z) : M kmem unit :=
  let index := ref_index pa in
  if sign =? 1 then c ← ref_get index; ref_set index (c + 1)
  else if sign =? 0 then c ← ref_get index; ref_set index (c - 1)
  else mret tt.

Definition get_ref_count (pa : Z) : M kmem Z := ref_get (ref_index pa).

(** * Freeing and allocating *)

(** The body of both [kfree] and [kfree_no_lock] once the count has been dropped: put the
    page on the free list if its count is zero. *)
Definition push_if_unreferenced (pa : Z) : M kmem unit :=
  c ← ref_get (ref_index pa);
  if c =? 0 then
    if negb (pa mod PGSIZE =? 0) || (pa <? kend) || (PHYSTOP <=? pa) then panic "kfree"
    else
      mset pa 1 PGSIZE;;
      head ← gets freelist;
      store64 pa head;;
      modify (set_freelist pa)
  else mret tt.

Definition kfree (pa : Z) : M kmem unit :=
  acquire_kmem;;
  c ← ref_get (ref_index pa);
  when (1 <=? c) (update_ref_count pa 0);;
  push_if_unreferenced pa;;
  release_kmem.

Definition kfree_no_lock (pa : Z) : M kmem unit :=
  update_ref_count pa 0;;
  push_if_unreferenced pa.

Definition kalloc_no_lock : M kmem Z :=
  r ← gets freelist;
  when (negb (r =? 0)) (next ← load64 r; modify (set_freelist next));;
  when (negb (r =? 0)) (mset r 5 PGSIZE;; ref_set (ref_index r) 1);;
  mret r.

Definition kalloc : M kmem Z :=
  acquire_kmem;;
  r ← gets freelist;
  when (negb (r =? 0)) (next ← load64 r; modify (set_freelist next));;
  when (negb (r =? 0)) (mset r 5 PGSIZE;; ref_set (ref_index r) 1);;
  release_kmem;;
  mret r.

Definition lock_update_ref_count (pa sign : Z) : M kmem unit :=
  acquire_kmem;;
  update_ref_count pa sign;;
  release_kmem.

(** [for(; p + PGSIZE <= pa_end; p += PGSIZE) kfree(p);] *)
Definition freerange_body (pa_end : Z) (p : Z) : M kmem (Z + unit) :=
  if p + PGSIZE <=? pa_end then kfree p;; mret (inl (p + PGSIZE)) else mret (inr tt).

Definition freerange (pa_start pa_end : Z) : M kmem unit :=
  let p := PGROUNDUP pa_start in
  loop (S (Z.to_nat ((pa_end - p) / PGSIZE))) (freerange_body pa_end) p.

Definition kinit : M kmem unit :=
  modify (set_kmem_locked false);;
  freerange kend PHYSTOP.

(** * The invariant *)

Fixpoint flist (m : mem) (p : Z) (l : list Z) : Prop :=
  match l with
  | [] => p = 0
  | x :: l => p = x ∧ flist m (read64 m x) l
  end.

(** The reference count of the page at [pa]. *)
Definition refs (s : kmem) (pa : Z) : Z := default 0 (ref_count s !! ref_index pa).

Record free_ok (s : kmem) (l : list Z) : Prop := {
  inv_flist : flist (ram s) (freelist s) l;
  inv_nodup : NoDup l;
  inv_pages : Forall is_page l;
  inv_free : Forall (λ x, refs s x = 0) l;
}.

Definition kmem_inv (s : kmem) (l : list Z) : Prop :=
  free_ok s l ∧ kmem_locked s = false.

End kalloc.

(** Memory unchanged outside the page at [pa]. *)
Definition same_outside (pa : Z) (m m' : mem) : Prop :=
  ∀ a, a < pa ∨ pa + PGSIZE ≤ a → rd m' a = rd m a.

(** Counts unchanged except for the page at [pa]. *)
Definition same_refs_but (pa : Z) (s s' : kmem) : Prop :=
  ∀ x, ref_index x ≠ ref_index pa → refs s' x = refs s x.

(** * Lemmas *)

#[export] Hint Unfold PGSIZE KERNBASE PHYSTOP : xv6.

Section lemmas.
Context `{KernelImageOk}.

Lemma is_page_range pa : is_page pa → etext ≤ pa ∧ pa + PGSIZE ≤ PHYSTOP ∧ KERNBASE ≤ pa.
Proof.
  intros [Ha Hr]. pose proof kend_range. pose proof etext_range.
  unfold PHYSTOP, KERNBASE, PGSIZE in *. zdm.
Qed.

Lemma is_page_nonzero pa : is_page pa → pa ≠ 0.
Proof. intros Hp. apply is_page_range in Hp. unfold KERNBASE in *. lia. Qed.

Lemma is_page_u64 pa : is_page pa → 0 ≤ pa < 2 ^ 64.
Proof. intros Hp. apply is_page_range in Hp. unfold PHYSTOP, KERNBASE, PGSIZE in *. lia. Qed.

(** Two pages are equal or do not overlap. *)
Lemma is_page_disjoint p q : is_page p → is_page q → p ≠ q → p + PGSIZE ≤ q ∨ q + PGSIZE ≤ p.
Proof. intros [Hp _] [Hq _] Hne. unfold PGSIZE in *. zdm. Qed.

Lemma ref_index_range pa : KERNBASE ≤ pa < PHYSTOP → 0 ≤ ref_index pa < NREF.
Proof.
  intros. unfold ref_index, NREF. rewrite u64_id by (unfold PHYSTOP, KERNBASE in *; lia).
  unfold PHYSTOP, KERNBASE, PGSIZE in *. zdm.
Qed.

Lemma is_page_ref_index pa : is_page pa → 0 ≤ ref_index pa < NREF.
Proof.
  intros Hp. apply is_page_range in Hp. apply ref_index_range. unfold PGSIZE in *. lia.
Qed.

Lemma ref_index_inj p q : is_page p → is_page q → ref_index p = ref_index q → p = q.
Proof.
  intros Hp Hq. pose proof (is_page_range _ Hp). pose proof (is_page_range _ Hq).
  destruct Hp as [Hp _], Hq as [Hq _]. unfold ref_index.
  rewrite !u64_id by (unfold PHYSTOP, KERNBASE, PGSIZE in *; lia).
  unfold PHYSTOP, KERNBASE, PGSIZE in *. zdm.
Qed.

Lemma ref_get_ok i s : 0 ≤ i < NREF → ref_get i s = Ret (default 0 (ref_count s !! i)) s.
Proof. intros. unfold ref_get. rewrite (proj2 (Z.leb_le _ _)), (proj2 (Z.ltb_lt _ _)) by lia. done. Qed.

Lemma ref_set_ok i v s :
  0 ≤ i < NREF → ref_set i v s = Ret tt (set_refs (<[i := i32 v]> (ref_count s)) s).
Proof. intros. unfold ref_set. rewrite (proj2 (Z.leb_le _ _)), (proj2 (Z.ltb_lt _ _)) by lia. done. Qed.

Lemma load64_ok a s : KERNBASE ≤ a → a + 8 ≤ PHYSTOP → load64 a s = Ret (read64 (ram s) a) s.
Proof. intros. unfold load64, readable. rewrite !(proj2 (Z.leb_le _ _)) by lia. done. Qed.

Lemma store64_ok a v s :
  etext ≤ a → a + 8 ≤ PHYSTOP → store64 a v s = Ret tt (set_ram (write64 (ram s) a v) s).
Proof. intros. unfold store64, writable. rewrite !(proj2 (Z.leb_le _ _)) by lia. done. Qed.

Lemma mset_ok d c n s :
  etext ≤ d → d + n ≤ PHYSTOP → mset d c n s = Ret tt (set_ram (memset (ram s) d c n) s).
Proof. intros. unfold mset, writable. rewrite !(proj2 (Z.leb_le _ _)) by lia. done. Qed.

Lemma mmove_ok d src n s :
  0 < n → etext ≤ d → d + n ≤ PHYSTOP → KERNBASE ≤ src → src + n ≤ PHYSTOP →
  mmove d src n s = Ret tt (set_ram (memmove (ram s) d src n) s).
Proof.
  intros. unfold mmove, writable, readable. rewrite (proj2 (Z.eqb_neq _ _)) by lia.
  rewrite !(proj2 (Z.leb_le _ _)) by lia. done.
Qed.

Lemma flist_ext m m' p l :
  (∀ x, x ∈ l → read64 m' x = read64 m x) → flist m p l → flist m' p l.
Proof.
  revert p. induction l as [|x l IH]; intros p Hext Hl; [done|].
  destruct Hl as [-> Hl]. split; [done|]. rewrite Hext by set_solver.
  apply IH; [set_solver|done].
Qed.

(** The free list does not see changes confined to a page that is not on it. *)
Lemma flist_same_outside m m' pa p l :
  same_outside pa m m' → is_page pa → Forall is_page l → pa ∉ l →
  flist m p l → flist m' p l.
Proof.
  intros Hs Hp Hl Hni. apply flist_ext. intros x Hx. apply read64_ext. intros a Ha.
  apply Hs. rewrite Forall_forall in Hl.
  destruct (is_page_disjoint x pa) as [Hd|Hd];
    [by apply Hl|done|set_solver|unfold PGSIZE in *; lia..].
Qed.

Lemma same_outside_refl pa m : same_outside pa m m.
Proof. by intros a _. Qed.

Lemma same_outside_trans pa m1 m2 m3 :
  same_outside pa m1 m2 → same_outside pa m2 m3 → same_outside pa m1 m3.
Proof. intros H1 H2 a Ha. by rewrite H2, H1. Qed.

Lemma same_outside_memset pa c m : same_outside pa m (memset m pa c PGSIZE).
Proof. intros a Ha. apply rd_memset_out; unfold PGSIZE in *; lia. Qed.

Lemma same_outside_write64 pa a v m :
  pa ≤ a → a + 8 ≤ pa + PGSIZE → same_outside pa m (write64 m a v).
Proof. intros ?? x Hx. apply rd_write64_out. unfold PGSIZE in *; lia. Qed.

(** What [kalloc] leaves behind when it hands out the page [x]. *)
Record alloc_post (s s' : kmem) (x : Z) (l : list Z) : Prop := {
  ka_ok : free_ok s' l;
  ka_page : is_page x;
  ka_fresh : x ∉ l;
  ka_ref : refs s' x = 1;
  ka_refs : same_refs_but x s s';
  ka_junk : ∀ a, x ≤ a < x + PGSIZE → rd (ram s') a = 5;
  ka_mem : same_outside x (ram s) (ram s');
  ka_lock : kmem_locked s' = kmem_locked s;
}.

Lemma kalloc_no_lock_empty s : free_ok s [] → kalloc_no_lock s = Ret 0 s.
Proof. intros [Hl _ _ _]. simpl in Hl. unfold kalloc_no_lock. msimpl. by rewrite Hl. Qed.

Lemma kalloc_no_lock_cons s x l :
  free_ok s (x :: l) → ∃ s', kalloc_no_lock s = Ret x s' ∧ alloc_post s s' x l.
Proof.
  intros [[Hfl Hl] Hnd Hpg Hfree].
  apply NoDup_cons in Hnd as [Hx Hnd]. apply Forall_cons in Hpg as [Hp Hpg].
  apply Forall_cons in Hfree as [Hfx Hfree].
  pose proof (is_page_range x Hp) as (? & ? & ?). pose proof (is_page_ref_index x Hp).
  pose proof (is_page_nonzero x Hp).
  eexists. split.
  { unfold kalloc_no_lock. msimpl. rewrite Hfl, (proj2 (Z.eqb_neq x 0)) by done. msimpl.
    rewrite load64_ok by (unfold PGSIZE in *; lia). msimpl.
    rewrite mset_ok by done. msimpl. rewrite ref_set_ok by done. msimpl. done. }
  constructor; simpl; [constructor; simpl| | | | | | |]; try done.
  - eapply flist_same_outside; [apply same_outside_memset|done..].
  - rewrite Forall_forall in *. intros y Hy. rewrite <- (Hfree y Hy). unfold refs. simpl.
    rewrite lookup_insert_ne; [done|]. intros E. apply ref_index_inj in E; [|done|by apply Hpg].
    congruence.
  - unfold refs. simpl. rewrite lookup_insert_eq. done.
  - intros y Hy. unfold refs. simpl. rewrite lookup_insert_ne; done.
  - intros a Ha. rewrite rd_memset by (unfold PGSIZE; lia). by case_decide.
  - apply same_outside_memset.
Qed.

(** [kalloc] is [kalloc_no_lock] inside the lock. *)
Lemma kalloc_locks s :
  kmem_locked s = false →
  kalloc s = res_bind (kalloc_no_lock (set_kmem_locked true s))
               (λ r s', res_bind (release_kmem s') (λ _ s'', Ret r s'')).
Proof.
  intros Hk. unfold kalloc, kalloc_no_lock, acquire_kmem. msimpl. rewrite Hk. msimpl.
  unfold load64, mset, ref_set. simpl.
  repeat (bcase; msimpl; try done).
Qed.

Lemma free_ok_lock b s l : free_ok (set_kmem_locked b s) l ↔ free_ok s l.
Proof. split; intros [????]; by constructor. Qed.

Lemma alloc_post_lock b b' s s' x l :
  alloc_post (set_kmem_locked b s) s' x l →
  alloc_post (set_kmem_locked b' s) (set_kmem_locked b' s') x l.
Proof. intros [[????]???????]; by constructor. Qed.

Lemma set_kmem_locked_id s b : kmem_locked s = b → set_kmem_locked b s = s.
Proof. destruct s. simpl. by intros ->. Qed.

Lemma kalloc_empty s : kmem_inv s [] → kalloc s = Ret 0 s.
Proof.
  intros [Hok Hk]. rewrite kalloc_locks by done.
  rewrite kalloc_no_lock_empty by (by apply free_ok_lock). msimpl.
  destruct s. simpl in *. by rewrite Hk.
Qed.

Lemma kalloc_cons s x l :
  kmem_inv s (x :: l) → ∃ s', kalloc s = Ret x s' ∧ alloc_post s s' x l.
Proof.
  intros [Hok Hk]. rewrite kalloc_locks by done.
  destruct (kalloc_no_lock_cons (set_kmem_locked true s) x l) as (s' & E & Hpost).
  { by apply free_ok_lock. }
  rewrite E. msimpl. unfold release_kmem. rewrite (ka_lock _ _ _ _ Hpost). simpl.
  eexists. split; [done|]. rewrite <- (set_kmem_locked_id s false Hk).
  by apply (alloc_post_lock true).
Qed.

(** What dropping a reference to the page [pa] leaves behind: its count, and the page on
    the free list if that count is zero. *)
Record free_post (s s' : kmem) (pa : Z) (l : list Z) (c : Z) : Prop := {
  kf_ok : free_ok s' (if decide (c = 0) then pa :: l else l);
  kf_ref : refs s' pa = c;
  kf_refs : same_refs_but pa s s';
  kf_mem : same_outside pa (ram s) (ram s');
  kf_kept : c ≠ 0 → ram s' = ram s;
  kf_lock : kmem_locked s' = kmem_locked s;
}.

Lemma push_spec s pa l c :
  free_ok s l → is_page pa → pa ∉ l → refs s pa = c →
  ∃ s', push_if_unreferenced pa s = Ret tt s' ∧ free_post s s' pa l c.
Proof.
  intros [Hl Hnd Hpg Hfree] Hp Hni Hc.
  pose proof (is_page_range pa Hp) as (? & ? & ?). pose proof (is_page_ref_index pa Hp).
  unfold push_if_unreferenced. msimpl. rewrite ref_get_ok by done. msimpl.
  change (default 0 (ref_count s !! ref_index pa)) with (refs s pa). rewrite Hc.
  destruct (Z.eqb_spec c 0) as [->|Hne].
  - destruct Hp as [Hal Hr]. rewrite Hal, (proj2 (Z.ltb_ge _ _)), (proj2 (Z.leb_gt _ _)) by lia.
    simpl. rewrite mset_ok by done. msimpl.
    rewrite store64_ok by (unfold PGSIZE in *; lia). msimpl.
    eexists. split; [done|].
    assert (same_outside pa (ram s) (write64 (memset (ram s) pa 1 PGSIZE) pa (freelist s))) as Hso.
    { eapply same_outside_trans; [apply same_outside_memset|].
      apply same_outside_write64; unfold PGSIZE; lia. }
    constructor; simpl; try done. constructor; simpl; [|by constructor|by constructor|by constructor].
    split; [done|]. rewrite read64_write64_eq.
    + by apply (flist_same_outside (ram s) _ pa).
    + destruct l as [|y l]; simpl in Hl; [rewrite Hl; lia|].
      destruct Hl as [-> _]. apply Forall_cons in Hpg as [Hy _]. by apply is_page_u64.
  - eexists. split; [done|]. constructor; rewrite ?decide_False by done; try done.
Qed.

Lemma update_ref_count_ok s pa sign :
  0 ≤ ref_index pa < NREF → sign = 0 ∨ sign = 1 →
  update_ref_count pa sign s =
  Ret tt (set_refs (<[ref_index pa := i32 (refs s pa + (2 * sign - 1))]> (ref_count s)) s).
Proof.
  intros Hi [-> | ->]; unfold update_ref_count; simpl; msimpl;
    rewrite ref_get_ok by done; msimpl; by rewrite ref_set_ok by done.
Qed.

(** Changing the count of a page that is not free keeps the free list right. *)
Lemma free_ok_set_ref s l pa v :
  free_ok s l → is_page pa → pa ∉ l →
  free_ok (set_refs (<[ref_index pa := v]> (ref_count s)) s) l.
Proof.
  intros [Hl Hnd Hpg Hfree] Hp Hni. constructor; try done.
  rewrite Forall_forall in *. intros y Hy. rewrite <- (Hfree y Hy). unfold refs. simpl.
  rewrite lookup_insert_ne; [done|]. intros E.
  apply ref_index_inj in E; [|done|by apply Hpg]. congruence.
Qed.

Lemma refs_set_eq s pa v :
  refs (set_refs (<[ref_index pa := v]> (ref_count s)) s) pa = v.
Proof. unfold refs. simpl. by rewrite lookup_insert_eq. Qed.

Lemma refs_set_ne s pa v x :
  ref_index x ≠ ref_index pa →
  refs (set_refs (<[ref_index pa := v]> (ref_count s)) s) x = refs s x.
Proof. intros. unfold refs. simpl. by rewrite lookup_insert_ne. Qed.

Lemma kfree_no_lock_spec s pa l :
  free_ok s l → is_page pa → pa ∉ l → 1 ≤ refs s pa < 2 ^ 31 →
  ∃ s', kfree_no_lock pa s = Ret tt s' ∧ free_post s s' pa l (refs s pa - 1).
Proof.
  intros Hok Hp Hni Hr. unfold kfree_no_lock. msimpl.
  rewrite update_ref_count_ok by (auto using is_page_ref_index). msimpl.
  rewrite i32_id by lia. replace (refs s pa + (2 * 0 - 1)) with (refs s pa - 1) by lia.
  destruct (push_spec _ pa l _ (free_ok_set_ref s l pa (refs s pa - 1) Hok Hp Hni) Hp Hni eq_refl)
    as (s' & E & [Ho Hre Hrs Hm Hk Hlk]).
  rewrite refs_set_eq in *. exists s'. split; [done|]. constructor; try done.
  intros x Hx. rewrite Hrs by done. by apply refs_set_ne.
Qed.

Lemma kfree_spec s pa l :
  kmem_inv s l → is_page pa → pa ∉ l → 0 ≤ refs s pa < 2 ^ 31 →
  ∃ s', kfree pa s = Ret tt s' ∧ free_post s s' pa l (Z.max 0 (refs s pa - 1)).
Proof.
  intros [Hok Hk] Hp Hni Hr. pose proof (is_page_ref_index pa Hp).
  unfold kfree, acquire_kmem. msimpl. rewrite Hk. msimpl. rewrite ref_get_ok by done. msimpl.
  change (default 0 (ref_count (set_kmem_locked true s) !! ref_index pa)) with (refs s pa).
  set (s1 := set_kmem_locked true s).
  assert (∃ s2, (if 1 <=? refs s pa then update_ref_count pa 0 else λ s0, Ret tt s0) s1 = Ret tt s2 ∧
    free_ok s2 l ∧ refs s2 pa = Z.max 0 (refs s pa - 1) ∧ same_refs_but pa s s2 ∧
    ram s2 = ram s ∧ kmem_locked s2 = true) as (s2 & -> & Hok2 & Hr2 & Hrs2 & Hm2 & Hk2).
  { destruct (Z.leb_spec 1 (refs s pa)).
    - rewrite update_ref_count_ok by auto. eexists. split; [done|].
      rewrite i32_id by (change (refs s1 pa) with (refs s pa); lia). split_and!; try done.
      + apply free_ok_set_ref; [by apply free_ok_lock|done..].
      + rewrite refs_set_eq. change (refs s1 pa) with (refs s pa). lia.
      + intros x Hx. etransitivity; [by apply refs_set_ne|done].
    - eexists. split; [done|]. split_and!; try done; [by apply free_ok_lock|].
      change (refs s1 pa) with (refs s pa). lia. }
  msimpl. destruct (push_spec s2 pa l _ Hok2 Hp Hni Hr2) as (s3 & -> & [Ho Hre Hrs Hm Hkk Hlk]).
  msimpl. unfold release_kmem. rewrite Hlk, Hk2. eexists. split; [done|].
  rewrite Hm2 in *. constructor; try done.
  - by apply free_ok_lock.
  - intros x Hx. etransitivity; [apply Hrs; done|by apply Hrs2].
Qed.

(** The [n] pages from [p] on. *)
Fixpoint page_run (p : Z) (n : nat) : list Z :=
  match n with
  | O => []
  | S n => p :: page_run (p + PGSIZE) n
  end.

Lemma elem_of_page_run p n x :
  x ∈ page_run p n ↔ ∃ i, (i < n)%nat ∧ x = p + Z.of_nat i * PGSIZE.
Proof.
  revert p. induction n as [|n IH]; intros p; simpl.
  - split; [set_solver|]. intros (i & Hi & _). lia.
  - rewrite elem_of_cons, IH. split.
    + intros [->|(i & Hi & ->)]; [exists O; lia|exists (S i); lia].
    + intros (i & Hi & ->). destruct i as [|i]; [left; lia|right; exists i; lia].
Qed.

Lemma freerange_loop n : ∀ p s l fuel pa_end,
  (n < fuel)%nat → p mod PGSIZE = 0 → kend ≤ p → pa_end ≤ PHYSTOP →
  p + Z.of_nat n * PGSIZE ≤ pa_end < p + (Z.of_nat n + 1) * PGSIZE →
  kmem_inv s l →
  (∀ x, x ∈ page_run p n → x ∉ l ∧ refs s x = 0) →
  ∃ s', loop fuel (freerange_body pa_end) p s = Ret tt s' ∧
        kmem_inv s' (reverse (page_run p n) ++ l).
Proof.
  induction n as [|n IH]; intros p s l fuel pa_end Hf Hal Hke Hpe Hn Hinv Hx;
    (destruct fuel as [|fuel]; [lia|]).
  - exists s. split; [|done]. apply loop_done. unfold freerange_body.
    by rewrite (proj2 (Z.leb_gt _ _)) by lia.
  - assert (is_page p) as Hp.
    { split; [done|]. unfold PHYSTOP, KERNBASE, PGSIZE in *. lia. }
    destruct (Hx p) as [Hni Hr0]; [simpl; set_solver|].
    destruct (kfree_spec s p l Hinv Hp Hni) as (s1 & E & [Ho Hre Hrs Hm _ Hlk]); [lia|].
    rewrite Hr0 in *. simpl in Ho.
    rewrite (loop_next _ _ _ (p + PGSIZE) s s1).
    2:{ unfold freerange_body. rewrite (proj2 (Z.leb_le _ _)) by (unfold PGSIZE in *; lia).
        msimpl. by rewrite E. }
    destruct (IH (p + PGSIZE) s1 (p :: l) fuel pa_end) as (s2 & E2 & Hinv2);
      try (unfold PGSIZE in *; lia).
    + unfold PGSIZE in *. zdm.
    + split; [done|]. rewrite Hlk. apply Hinv.
    + intros x Hxr. apply elem_of_page_run in Hxr as Hxr'.
      destruct Hxr' as (i & Hi & ->). destruct (Hx (p + PGSIZE + Z.of_nat i * PGSIZE)) as [Hl0 Hr0'].
      { simpl. set_solver. }
      split.
      * rewrite not_elem_of_cons. split; [unfold PGSIZE; lia|done].
      * rewrite Hrs; [done|]. intros Eq.
        apply ref_index_inj in Eq; [unfold PGSIZE in Eq; lia| |done].
        split; unfold PHYSTOP, KERNBASE, PGSIZE in *; zdm.
    + exists s2. split; [done|]. simpl. by rewrite reverse_cons, <- app_assoc.
Qed.

(** The pages above the kernel image. *)
Definition all_pages : list Z :=
  page_run (PGROUNDUP kend) (Z.to_nat ((PHYSTOP - PGROUNDUP kend) / PGSIZE)).

Lemma kend_roundup : kend ≤ PGROUNDUP kend ≤ PHYSTOP ∧ PGROUNDUP kend mod PGSIZE = 0.
Proof.
  pose proof kend_range. destruct (PGROUNDUP_props kend) as [? ?].
  { unfold PHYSTOP, KERNBASE, PGSIZE in *. lia. }
  unfold PHYSTOP, KERNBASE, PGSIZE in *. zdm.
Qed.

Lemma elem_of_all_pages x : x ∈ all_pages ↔ is_page x.
Proof.
  unfold all_pages, is_page. rewrite elem_of_page_run. pose proof kend_roundup as [Hk Hal].
  split.
  - intros (i & Hi & ->). unfold PHYSTOP, KERNBASE, PGSIZE in *. zdm.
  - intros [Hx Hr]. exists (Z.to_nat ((x - PGROUNDUP kend) / PGSIZE)).
    pose proof kend_range. destruct (PGROUNDUP_props kend) as [? _].
    { unfold PHYSTOP, KERNBASE, PGSIZE in *. lia. }
    unfold PHYSTOP, KERNBASE, PGSIZE in *. zdm.
Qed.

Lemma kinit_spec s :
  freelist s = 0 → (∀ x, refs s x = 0) →
  ∃ s', kinit s = Ret tt s' ∧ kmem_inv s' (reverse all_pages).
Proof.
  intros Hf Hr. pose proof kend_roundup as [Hk Hal]. unfold kinit, freerange. msimpl.
  destruct (freerange_loop (Z.to_nat ((PHYSTOP - PGROUNDUP kend) / PGSIZE))
    (PGROUNDUP kend) (set_kmem_locked false s) []
    (S (Z.to_nat ((PHYSTOP - PGROUNDUP kend) / PGSIZE))) PHYSTOP)
    as (s' & E & Hinv); try (unfold PHYSTOP, KERNBASE, PGSIZE in *; zdm).
  - repeat constructor; done.
  - intros x _. split; [set_solver|apply Hr].
  - rewrite app_nil_r in Hinv. eauto.
Qed.

End lemmas.
