(* ===== verification/Vm.v ===== *)
(** Virtual memory: page tables, user address spaces and the copies between user and
    kernel memory, kernel/vm.c, with the copy-on-write fault handler and the [update]
    routine it calls in kernel/kalloc.c, and [proc_mapstacks] of kernel/proc.c, which
    [kvmmake] calls.

    A page table is what the hardware sees: 512 little-endian words in a page of [ram].
    Functions that return a pointer or 0 return an address; dereferencing 0 is a fault.
    The kernel-side buffer of [copyout], [copyin] and [copyinstr] is a list of bytes: it
    is a kernel object (a stack variable, a block buffer), never a user page.  The
    lemmas about these definitions are in PageTable.v and its clients. *)

From S2P Require Import Prelude Mem Riscv Kalloc.

Section vm.
Context `{KernelImage}.

(** * Accesses to memory as bytes *)

Definition mread (a : Z) (n : nat) : M kmem (list Z) := λ s,
  if readable a (Z.of_nat n) then Ret (rd_bytes (ram s) a n) s else Fault "load page fault".

Definition load8 (a : Z) : M kmem Z := λ s,
  if readable a 1 then Ret (rd (ram s) a) s else Fault "load page fault".

Definition mwrite (a : Z) (l : list Z) : M kmem unit := λ s,
  if writable a (Z.of_nat (length l)) then Ret tt (set_ram (wr_bytes (ram s) a l) s)
  else Fault "store page fault".

(** * Walking and building page tables *)

(** The loop of [walk], at [level] with [level] levels above the leaves to go. *)
Fixpoint walk_from (va : Z) (alloc : bool) (level : nat) (pagetable : Z) : M kmem Z :=
  match level with
  | O => mret (pagetable + 8 * PX 0 va)
  | S level' =>
      let pte := pagetable + 8 * PX (Z.of_nat level) va in
      v ← load64 pte;
      if negb (Z.land v PTE_V =? 0) then walk_from va alloc level' (PTE2PA v)
      else if negb alloc then mret 0
      else
        pagetable ← kalloc;
        if pagetable =? 0 then mret 0
        else
          mset pagetable 0 PGSIZE;;
          store64 pte (Z.lor (PA2PTE pagetable) PTE_V);;
          walk_from va alloc level' pagetable
  end.

Definition walk (pagetable va : Z) (alloc : bool) : M kmem Z :=
  if MAXVA <=? va then panic "walk" else walk_from va alloc 2 pagetable.

Definition walkaddr (pagetable va : Z) : M kmem Z :=
  if MAXVA <=? va then mret 0
  else
    pte ← walk pagetable va false;
    if pte =? 0 then mret 0
    else
      v ← load64 pte;
      if Z.land v PTE_V =? 0 then mret 0
      else if Z.land v PTE_U =? 0 then mret 0
      else mret (PTE2PA v).

(** One round of the loop of [mappages], from address [a] to physical address [pa]. *)
Definition mappages_body (pagetable last perm : Z) (ap : Z * Z) : M kmem ((Z * Z) + Z) :=
  let '(a, pa) := ap in
  pte ← walk pagetable a true;
  if pte =? 0 then mret (inr (-1))
  else
    store64 pte (Z.lor (Z.lor (PA2PTE pa) perm) PTE_V);;
    if a =? last then mret (inr 0)
    else mret (inl (u64 (a + PGSIZE), u64 (pa + PGSIZE))).

Definition mappages (pagetable va size pa perm : Z) : M kmem Z :=
  if negb (va mod PGSIZE =? 0) then panic "mappages: va not aligned"
  else if negb (size mod PGSIZE =? 0) then panic "mappages: size not aligned"
  else if size =? 0 then panic "mappages: size"
  else
    let last := u64 (va + size - PGSIZE) in
    loop (Z.to_nat (size / PGSIZE)) (mappages_body pagetable last perm) (va, pa).

Definition kvmmap (kpgtbl va pa sz perm : Z) : M kmem unit :=
  r ← mappages kpgtbl va sz pa perm;
  if negb (r =? 0) then panic "kvmmap" else mret tt.

(** [proc_mapstacks] (proc.c): a page for each process's kernel stack. *)
Definition NPROC : Z := 64.

Definition proc_mapstacks_body (kpgtbl p : Z) : M kmem (Z + unit) :=
  if p <? NPROC then
    pa ← kalloc;
    if pa =? 0 then panic "kalloc"
    else kvmmap kpgtbl (KSTACK p) pa PGSIZE (Z.lor PTE_R PTE_W);; mret (inl (p + 1))
  else mret (inr tt).

Definition proc_mapstacks (kpgtbl : Z) : M kmem unit :=
  loop (S (Z.to_nat NPROC)) (proc_mapstacks_body kpgtbl) 0.

Definition kvmmake : M kmem Z :=
  kpgtbl ← kalloc;
  mset kpgtbl 0 PGSIZE;;
  kvmmap kpgtbl UART0 UART0 PGSIZE (Z.lor PTE_R PTE_W);;
  kvmmap kpgtbl VIRTIO0 VIRTIO0 PGSIZE (Z.lor PTE_R PTE_W);;
  kvmmap kpgtbl PLIC PLIC 0x4000000 (Z.lor PTE_R PTE_W);;
  kvmmap kpgtbl KERNBASE KERNBASE (etext - KERNBASE) (Z.lor PTE_R PTE_X);;
  kvmmap kpgtbl etext etext (PHYSTOP - etext) (Z.lor PTE_R PTE_W);;
  kvmmap kpgtbl TRAMPOLINE trampoline PGSIZE (Z.lor PTE_R PTE_X);;
  proc_mapstacks kpgtbl;;
  mret kpgtbl.

(** * User address spaces *)

Definition uvmunmap_body (pagetable va npages : Z) (do_free : bool) (a : Z) : M kmem (Z + unit) :=
  if a <? u64 (va + u64 (npages * PGSIZE)) then
    pte ← walk pagetable a false;
    if pte =? 0 then panic "uvmunmap: walk"
    else
      v ← load64 pte;
      if Z.land v PTE_V =? 0 then panic "uvmunmap: not mapped"
      else if PTE_FLAGS v =? PTE_V then panic "uvmunmap: not a leaf"
      else
        when do_free (kfree (PTE2PA v));;
        store64 pte 0;;
        mret (inl (u64 (a + PGSIZE)))
  else mret (inr tt).

Definition uvmunmap (pagetable va npages : Z) (do_free : bool) : M kmem unit :=
  if negb (va mod PGSIZE =? 0) then panic "uvmunmap: not aligned"
  else loop (S (Z.to_nat npages)) (uvmunmap_body pagetable va npages do_free) va.

Definition uvmcreate : M kmem Z :=
  pagetable ← kalloc;
  if pagetable =? 0 then mret 0
  else mset pagetable 0 PGSIZE;; mret pagetable.

Definition uvmfirst (pagetable : Z) (src : list Z) : M kmem unit :=
  let sz := Z.of_nat (length src) in
  if PGSIZE <=? sz then panic "uvmfirst: more than a page"
  else
    m ← kalloc;
    mset m 0 PGSIZE;;
    mappages pagetable 0 PGSIZE m (Z.lor PTE_W (Z.lor PTE_R (Z.lor PTE_X PTE_U)));;
    mwrite m src.

Definition uvmdealloc (pagetable oldsz newsz : Z) : M kmem Z :=
  if oldsz <=? newsz then mret oldsz
  else
    when (PGROUNDUP newsz <? PGROUNDUP oldsz)
      (let npages := i32 ((PGROUNDUP oldsz - PGROUNDUP newsz) / PGSIZE) in
       uvmunmap pagetable (PGROUNDUP newsz) (u64 npages) true);;
    mret newsz.

Definition uvmalloc_body (pagetable oldsz newsz xperm : Z) (a : Z) : M kmem (Z + Z) :=
  if a <? newsz then
    m ← kalloc;
    if m =? 0 then uvmdealloc pagetable a oldsz;; mret (inr 0)
    else
      mset m 0 PGSIZE;;
      r ← mappages pagetable a PGSIZE m (Z.lor (Z.lor PTE_R PTE_U) xperm);
      if negb (r =? 0) then kfree m;; uvmdealloc pagetable a oldsz;; mret (inr 0)
      else mret (inl (u64 (a + PGSIZE)))
  else mret (inr newsz).

Definition uvmalloc (pagetable oldsz newsz xperm : Z) : M kmem Z :=
  if newsz <? oldsz then mret oldsz
  else
    let oldsz := PGROUNDUP oldsz in
    loop (S (Z.to_nat ((newsz - oldsz + PGSIZE - 1) / PGSIZE)))
         (uvmalloc_body pagetable oldsz newsz xperm) oldsz.

(** One entry of [freewalk]; [free_child] is the recursive call. *)
Definition freewalk_body (free_child : Z → M kmem unit) (pagetable i : Z) : M kmem (Z + unit) :=
  if i <? 512 then
    pte ← load64 (pagetable + 8 * i);
    if negb (Z.land pte PTE_V =? 0) &&
       (Z.land pte (Z.lor PTE_R (Z.lor PTE_W PTE_X)) =? 0) then
      free_child (PTE2PA pte);;
      store64 (pagetable + 8 * i) 0;;
      mret (inl (i + 1))
    else if negb (Z.land pte PTE_V =? 0) then panic "freewalk: leaf"
    else mret (inl (i + 1))
  else mret (inr tt).

Fixpoint freewalk (depth : nat) (pagetable : Z) : M kmem unit :=
  match depth with
  | O => λ _, NoFuel
  | S depth =>
      loop 513 (freewalk_body (freewalk depth) pagetable) 0;;
      kfree pagetable
  end.

(** A page table has three levels. *)
Definition uvmfree (pagetable sz : Z) : M kmem unit :=
  when (0 <? sz) (uvmunmap pagetable 0 (PGROUNDUP sz / PGSIZE) true);;
  freewalk 3 pagetable.

(** * Copy-on-write *)

(** [update] (kalloc.c): give the faulting page a private writable copy, or make it
    writable again when no one else refers to it. *)
Definition cow_flags (flags : Z) : Z := Z.land (Z.lor flags PTE_W) (Z.lnot PTE_COW).

Definition update (table va pa flags : Z) : M kmem Z :=
  acquire_kmem;;
  c ← get_ref_count pa;
  (if 1 <? c then
     new_pa ← kalloc_no_lock;
     mmove new_pa pa PGSIZE;;
     mappages table va PGSIZE new_pa (cow_flags flags);;
     kfree_no_lock pa
   else
     c ← get_ref_count pa;
     if c =? 1 then mappages table va PGSIZE pa (cow_flags flags);; mret tt
     else mret tt);;
  release_kmem;;
  mret 0.

(** [scause] is the value of the scause register during the call. *)
Definition cow_fault_handler (scause table va : Z) : M kmem Z :=
  pte ← walk table (PGROUNDDOWN va) false;
  v ← load64 pte;
  if v =? 0 then mret (-1)
  else if scause =? 13 then mret (-1)
  else if MAXVA <=? va then mret (-1)
  else if negb (Z.land v PTE_COW =? 0) && negb (Z.land v PTE_V =? 0) && negb (Z.land v PTE_U =? 0) then
    r ← update table (PGROUNDDOWN va) (PTE2PA v) (PTE_FLAGS v);
    if r =? 0 then mret 0 else mret 0
  else mret (-1).

(** The flags both parent and child get for a page that was writable. *)
Definition share_flags (flags : Z) : Z :=
  Z.lor (Z.lor (Z.land flags (Z.lnot PTE_W)) PTE_R) PTE_COW.

Definition uvmcopy_err (new i : Z) : M kmem (Z + Z) :=
  uvmunmap new 0 (i / PGSIZE) true;; mret (inr (-1)).

Definition uvmcopy_body (old new sz : Z) (i : Z) : M kmem (Z + Z) :=
  if i <? sz then
    pte ← walk old i false;
    if pte =? 0 then panic "uvmcopy: pte should exist"
    else
      v ← load64 pte;
      if Z.land v PTE_V =? 0 then panic "uvmcopy: page not present"
      else
        let pa := PTE2PA v in
        let flags := PTE_FLAGS v in
        if negb (Z.land v PTE_W =? 0) then
          store64 pte (Z.lor (PA2PTE pa) (share_flags flags));;
          r ← mappages new i PGSIZE pa (share_flags flags);
          if negb (r =? 0) then uvmcopy_err new i
          else lock_update_ref_count pa 1;; mret (inl (u64 (i + PGSIZE)))
        else
          r ← mappages new i PGSIZE pa flags;
          if negb (r =? 0) then uvmcopy_err new i
          else lock_update_ref_count pa 1;; mret (inl (u64 (i + PGSIZE)))
  else mret (inr 0).

Definition uvmcopy (old new sz : Z) : M kmem Z :=
  loop (S (Z.to_nat ((sz + PGSIZE - 1) / PGSIZE))) (uvmcopy_body old new sz) 0.

Definition uvmclear (pagetable va : Z) : M kmem unit :=
  pte ← walk pagetable va false;
  if pte =? 0 then panic "uvmclear"
  else v ← load64 pte; store64 pte (Z.land v (Z.lnot PTE_U)).

(** * Copies between user and kernel memory *)

Definition copyout_body (scause pagetable : Z) (st : Z * list Z) : M kmem ((Z * list Z) + Z) :=
  let '(dstva, src) := st in
  let len := Z.of_nat (length src) in
  if 0 <? len then
    let va0 := PGROUNDDOWN dstva in
    if MAXVA <=? va0 then mret (inr (-1))
    else
      pte ← walk pagetable va0 false;
      v ← load64 pte;
      r ← (if negb (Z.land v PTE_COW =? 0) then cow_fault_handler scause pagetable va0 else mret 0);
      if r =? -1 then mret (inr (-1))
      else if pte =? 0 then mret (inr (-1))
      else
        v ← load64 pte;
        if (Z.land v PTE_V =? 0) || (Z.land v PTE_U =? 0) || (Z.land v PTE_W =? 0)
        then mret (inr (-1))
        else
          let pa0 := PTE2PA v in
          let n := Z.min (PGSIZE - (dstva - va0)) len in
          mwrite (pa0 + (dstva - va0)) (take (Z.to_nat n) src);;
          mret (inl (u64 (va0 + PGSIZE), drop (Z.to_nat n) src))
  else mret (inr 0).

Definition copyout (scause pagetable dstva : Z) (src : list Z) : M kmem Z :=
  loop (length src + 1) (copyout_body scause pagetable) (dstva, src).

Definition copyin_body (pagetable : Z) (st : Z * Z * list Z)
    : M kmem ((Z * Z * list Z) + (Z * list Z)) :=
  let '(srcva, len, dst) := st in
  if 0 <? len then
    let va0 := PGROUNDDOWN srcva in
    pa0 ← walkaddr pagetable va0;
    if pa0 =? 0 then mret (inr (-1, dst))
    else
      let n := Z.min (PGSIZE - (srcva - va0)) len in
      bs ← mread (pa0 + (srcva - va0)) (Z.to_nat n);
      mret (inl (u64 (va0 + PGSIZE), len - n, dst ++ bs))
  else mret (inr (0, dst)).

(** The status and the bytes stored in [dst]. *)
Definition copyin (pagetable srcva len : Z) : M kmem (Z * list Z) :=
  loop (Z.to_nat len + 1) (copyin_body pagetable) (srcva, len, []).

(** The inner loop of [copyinstr]: copy from [p] until a NUL or [n] bytes. *)
Fixpoint copyinstr_page (n : nat) (p : Z) (dst : list Z) : M kmem (bool * list Z) :=
  match n with
  | O => mret (false, dst)
  | S n =>
      c ← load8 p;
      if c =? 0 then mret (true, dst ++ [0]) else copyinstr_page n (p + 1) (dst ++ [c])
  end.

Definition copyinstr_body (pagetable : Z) (st : Z * Z * list Z)
    : M kmem ((Z * Z * list Z) + (Z * list Z)) :=
  let '(srcva, max, dst) := st in
  if 0 <? max then
    let va0 := PGROUNDDOWN srcva in
    pa0 ← walkaddr pagetable va0;
    if pa0 =? 0 then mret (inr (-1, dst))
    else
      let n := Z.min (PGSIZE - (srcva - va0)) max in
      r ← copyinstr_page (Z.to_nat n) (pa0 + (srcva - va0)) dst;
      if r.1 : bool then mret (inr (0, r.2))
      else mret (inl (u64 (va0 + PGSIZE), max - n, r.2))
  else mret (inr (-1, dst)).

Definition copyinstr (pagetable srcva max : Z) : M kmem (Z * list Z) :=
  loop (Z.to_nat max + 1) (copyinstr_body pagetable) (srcva, max, []).

End vm.
