(* ===== verification/PageTable.v ===== *)
(** What a page table in memory means, and that [walk] (vm.c) reads and extends it
    correctly.

    A [ptree] names the pages of a three-level table by the path of indices that leads to
    them.  [pt_ok s root T] says that the table rooted at [root] has exactly these pages,
    that they are distinct, allocated, and linked by valid non-leaf entries.  [pte_of] is
    the abstract content: the leaf entry for a virtual address, zero where the table has no
    leaf page.  [grows] is the effect of building missing levels: pages move from the free
    list into the tree and no mapping changes. *)

From S2P Require Import Prelude Mem Riscv Kalloc Vm.

(** * Page-table trees *)

Abbreviation ptree := (gmap (list Z) Z).

Definition pt_page (T : ptree) (p : Z) : Prop := ∃ path, T !! path = Some p.

Definition in_pages (T : ptree) (a : Z) : Prop := ∃ p, pt_page T p ∧ p ≤ a < p + PGSIZE.

(** The address of the leaf entry for [va], and its value. *)
Definition pt_lookup (T : ptree) (va : Z) : option Z :=
  (λ p, p + 8 * PX 0 va) <$> T !! [PX 2 va; PX 1 va].

Definition pte_of (s : kmem) (T : ptree) (va : Z) : Z :=
  match pt_lookup T va with
  | Some a => read64 (ram s) a
  | None => 0
  end.

Section ptree.
Context `{KernelImage}.

Record pt_ok (s : kmem) (root : Z) (T : ptree) : Prop := {
  pt_root : T !! [] = Some root;
  pt_is_page : ∀ path p, T !! path = Some p → is_page p;
  pt_inj : ∀ path path' p, T !! path = Some p → T !! path' = Some p → path = path';
  pt_dom : ∀ path p, T !! path = Some p → (length path ≤ 2)%nat ∧ Forall (λ i, 0 ≤ i < 512) path;
  pt_low : ∀ i rest p, T !! (i :: rest) = Some p → i < 256;
  pt_parent : ∀ path i c, T !! (path ++ [i]) = Some c → is_Some (T !! path);
  pt_child : ∀ path p i, T !! path = Some p → (length path < 2)%nat → 0 ≤ i < 512 →
    match T !! (path ++ [i]) with
    | Some c => read64 (ram s) (p + 8 * i) = pte_of_page c PTE_V
    | None => bit (read64 (ram s) (p + 8 * i)) 0 = false
    end;
  pt_ref : ∀ path p, T !! path = Some p → refs s p = 1;
}.

(** [s, T, l] becomes [s', T', l'] by adding table pages taken from the free list and
    setting the leaf entries to [f]. *)
Record evolves (root : Z) (s : kmem) (T : ptree) (l : list Z)
    (s' : kmem) (T' : ptree) (l' : list Z) (f : Z → Z) : Prop := {
  g_pt : pt_ok s' root T';
  g_inv : kmem_inv s' l';
  g_sub : T ⊆ T';
  g_suffix : l' `suffix_of` l;
  g_new : ∀ path p, T' !! path = Some p → T !! path = Some p ∨ p ∈ l;
  g_refs : ∀ x, is_page x → refs s x ≠ 0 → refs s' x = refs s x;
  g_mem : ∀ a, ¬ in_pages T' a → rd (ram s') a = rd (ram s) a;
  g_pte : ∀ va, 0 ≤ va < MAXVA → pte_of s' T' va = f va;
}.

(** Only table pages are added: no mapping changes. *)
Definition grows (root : Z) (s : kmem) (T : ptree) (l : list Z)
    (s' : kmem) (T' : ptree) (l' : list Z) : Prop :=
  evolves root s T l s' T' l' (pte_of s T).

End ptree.

Section lemmas.
Context `{KernelImageOk}.

Lemma pt_page_is_page s root T p : pt_ok s root T → pt_page T p → is_page p.
Proof. intros Hok [path Hp]. by eapply pt_is_page. Qed.

Lemma pt_page_not_free s root T l p : pt_ok s root T → free_ok s l → pt_page T p → p ∉ l.
Proof.
  intros Hok Hf [path Hp] Hl. pose proof (pt_ref _ _ _ Hok _ _ Hp) as Hr.
  pose proof (inv_free _ _ Hf) as Hz. rewrite Forall_forall in Hz. rewrite Hz in Hr; done.
Qed.

(** An address in one page is in no other page. *)
Lemma page_unique p q a :
  is_page p → is_page q → p ≤ a < p + PGSIZE → q ≤ a < q + PGSIZE → p = q.
Proof.
  intros Hp Hq Ha Ha'. destruct (decide (p = q)) as [|Hne]; [done|].
  destruct (is_page_disjoint p q Hp Hq Hne); lia.
Qed.

Lemma pt_slot_range p i : is_page p → 0 ≤ i < 512 →
  etext ≤ p + 8 * i ∧ KERNBASE ≤ p + 8 * i ∧ p + 8 * i + 8 ≤ PHYSTOP ∧
  p ≤ p + 8 * i ∧ p + 8 * i + 8 ≤ p + PGSIZE ∧ p + 8 * i ≠ 0.
Proof.
  intros Hp Hi. pose proof (is_page_range p Hp). pose proof (is_page_nonzero p Hp).
  unfold PHYSTOP, KERNBASE, PGSIZE in *. lia.
Qed.

Lemma pt_lookup_slot s root T va a :
  pt_ok s root T → 0 ≤ va → pt_lookup T va = Some a →
  ∃ p, T !! [PX 2 va; PX 1 va] = Some p ∧ a = p + 8 * PX 0 va ∧ is_page p ∧ 0 ≤ PX 0 va < 512.
Proof.
  intros Hok Hva E. unfold pt_lookup in E. apply fmap_Some in E as (p & E & ->).
  exists p. split_and!; try done; [by eapply pt_is_page|apply PX_bound; lia..].
Qed.

(** A table does not see changes outside its pages. *)
Lemma pt_ok_frame s s' root T :
  (∀ a, in_pages T a → rd (ram s') a = rd (ram s) a) →
  (∀ p, pt_page T p → refs s' p = refs s p) →
  pt_ok s root T → pt_ok s' root T.
Proof.
  intros Hm Hr Hok. constructor; try apply Hok.
  - intros path p i Hp Hl Hi. pose proof (pt_child _ _ _ Hok path p i Hp Hl Hi) as Hc.
    replace (read64 (ram s') (p + 8 * i)) with (read64 (ram s) (p + 8 * i)); [done|].
    symmetry. apply read64_ext. intros x Hx. apply Hm. exists p. split; [by exists path|].
    unfold PGSIZE. lia.
  - intros path p Hp. rewrite Hr by (by exists path). by eapply pt_ref.
Qed.

Lemma pte_of_frame s s' root T va :
  pt_ok s root T → 0 ≤ va →
  (∀ a, in_pages T a → rd (ram s') a = rd (ram s) a) → pte_of s' T va = pte_of s T va.
Proof.
  intros Hok Hva Hm. unfold pte_of. destruct (pt_lookup T va) as [a|] eqn:E; [|done].
  apply (pt_lookup_slot s root) in E as (p & Hp & -> & Hpp & Hi); [|done..].
  apply read64_ext. intros x Hx. apply Hm. exists p. split; [by eexists|].
  unfold PGSIZE. lia.
Qed.

(** Reading the entry for the next level. *)
Lemma pt_step_child s root T path p i c :
  pt_ok s root T → T !! path = Some p → (length path < 2)%nat → 0 ≤ i < 512 →
  T !! (path ++ [i]) = Some c →
  bit (read64 (ram s) (p + 8 * i)) 0 = true ∧ PTE2PA (read64 (ram s) (p + 8 * i)) = c.
Proof.
  intros Hok Hp Hl Hi Hc. pose proof (pt_child _ _ _ Hok _ _ _ Hp Hl Hi) as Hr.
  rewrite Hc in Hr. rewrite Hr. pose proof (pt_is_page _ _ _ Hok _ _ Hc) as Hcp.
  pose proof (is_page_u64 c Hcp). destruct Hcp as [Hal _].
  rewrite bit_pte_of_page, PTE2PA_of_page; done.
Qed.

Lemma pt_step_none s root T path p i :
  pt_ok s root T → T !! path = Some p → (length path < 2)%nat → 0 ≤ i < 512 →
  T !! (path ++ [i]) = None → bit (read64 (ram s) (p + 8 * i)) 0 = false.
Proof.
  intros Hok Hp Hl Hi Hc. pose proof (pt_child _ _ _ Hok _ _ _ Hp Hl Hi) as Hr.
  by rewrite Hc in Hr.
Qed.

Lemma walk_from_zero va alloc pt s : walk_from va alloc 0 pt s = Ret (pt + 8 * PX 0 va) s.
Proof. done. Qed.

(** One level of [walk] down an existing entry. *)
Lemma walk_from_child s root T path p va alloc level c :
  pt_ok s root T → T !! path = Some p → (length path < 2)%nat → 0 ≤ va →
  T !! (path ++ [PX (Z.of_nat (S level)) va]) = Some c →
  walk_from va alloc (S level) p s = walk_from va alloc level c s.
Proof.
  intros Hok Hp Hl Hva Hc. assert (0 ≤ PX (Z.of_nat (S level)) va < 512) as Hi by (apply PX_bound; lia).
  pose proof (pt_slot_range p _ (pt_is_page _ _ _ Hok _ _ Hp) Hi) as (? & ? & ? & _).
  destruct (pt_step_child s root T path p _ c Hok Hp Hl Hi Hc) as [Hb Hpa].
  cbn [walk_from]. msimpl. rewrite load64_ok by done. msimpl.
  rewrite land_PTE_V, Hb. simpl. by rewrite Hpa.
Qed.

(** [walk] without allocation finds the leaf entry, or 0 if a level is missing. *)
Lemma walk_ro s root T va :
  pt_ok s root T → 0 ≤ va < MAXVA →
  walk root va false s = Ret (default 0 (pt_lookup T va)) s.
Proof.
  intros Hok Hva. unfold walk. rewrite (proj2 (Z.leb_gt _ _)) by lia.
  pose proof (pt_root _ _ _ Hok) as Hr.
  assert (∀ level path p, (length path < 2)%nat → T !! path = Some p →
    T !! (path ++ [PX (Z.of_nat (S level)) va]) = None →
    walk_from va false (S level) p s = Ret 0 s) as Hmiss.
  { intros level path p Hl Hp Hc.
    assert (0 ≤ PX (Z.of_nat (S level)) va < 512) as Hi by (apply PX_bound; lia).
    pose proof (pt_slot_range p _ (pt_is_page _ _ _ Hok _ _ Hp) Hi) as (? & ? & ? & _).
    cbn [walk_from]. msimpl. rewrite load64_ok by done. msimpl.
    by rewrite land_PTE_V, (pt_step_none s root T path p _ Hok Hp Hl Hi Hc). }
  unfold pt_lookup.
  destruct (T !! [PX 2 va]) as [p1|] eqn:E1.
  - rewrite (walk_from_child s root T [] root va false 1 p1 Hok Hr ltac:(simpl; lia) ltac:(lia) E1).
    destruct (T !! [PX 2 va; PX 1 va]) as [p0|] eqn:E0.
    + by rewrite (walk_from_child s root T [PX 2 va] p1 va false 0 p0 Hok E1
                    ltac:(simpl; lia) ltac:(lia) E0).
    + by rewrite (Hmiss 0%nat [PX 2 va] p1 ltac:(simpl; lia) E1 E0).
  - rewrite (Hmiss 1%nat [] root ltac:(simpl; lia) Hr E1).
    destruct (T !! [PX 2 va; PX 1 va]) as [p0|] eqn:E0; [|done].
    destruct (pt_parent _ _ _ Hok [PX 2 va] (PX 1 va) p0 E0) as [q Hq]. congruence.
Qed.

(** * Building missing levels *)

Lemma free_ok_set_ram s l m :
  free_ok s l → (∀ p, p ∈ l → ∀ a, p ≤ a < p + PGSIZE → rd m a = rd (ram s) a) →
  free_ok (set_ram m s) l.
Proof.
  intros [Hl Hnd Hpg Hfree] Hm. constructor; try done. simpl.
  apply (flist_ext (ram s)); [|done]. intros x Hx. apply read64_ext. intros a Ha.
  apply (Hm x); [done|]. unfold PGSIZE. lia.
Qed.

Section extend.
Context (s s1 : kmem) (root : Z) (T : ptree) (l : list Z) (path : list Z) (p i c : Z).
Hypothesis Hok : pt_ok s root T.
Hypothesis Hinv : kmem_inv s (c :: l).
Hypothesis Halloc : alloc_post s s1 c l.
Hypothesis Hp : T !! path = Some p.
Hypothesis Hlen : (length path < 2)%nat.
Hypothesis Hi : 0 ≤ i < 512.
Hypothesis Hlow : path = [] → i < 256.
Hypothesis Hnone : T !! (path ++ [i]) = None.

Let T' : ptree := <[path ++ [i] := c]> T.
Let m2 : mem := memset (ram s1) c 0 PGSIZE.
Let m3 : mem := write64 m2 (p + 8 * i) (pte_of_page c PTE_V).
Let s3 : kmem := set_ram m3 s1.

Local Lemma ext_c_free : refs s c = 0.
Proof.
  destruct Hinv as [Hf _]. pose proof (inv_free _ _ Hf) as Hz.
  by apply Forall_cons in Hz as [Hz _].
Qed.

Local Lemma ext_c_new q : pt_page T q → q ≠ c.
Proof.
  intros [path' Hq] ->. pose proof (pt_ref _ _ _ Hok _ _ Hq). rewrite ext_c_free in *. lia.
Qed.

Local Lemma ext_rd_other a q :
  is_page q → q ≠ c → q ≤ a < q + PGSIZE → a < p + 8 * i ∨ p + 8 * i + 8 ≤ a →
  rd m3 a = rd (ram s) a.
Proof.
  intros Hq Hne Ha Hout. unfold m3, m2. rewrite rd_write64_out by lia.
  pose proof (ka_page _ _ _ _ Halloc).
  assert (a < c ∨ c + PGSIZE ≤ a) by (destruct (is_page_disjoint q c); [done..|lia|lia]).
  rewrite rd_memset_out by (done || unfold PGSIZE; lia). by apply (ka_mem _ _ _ _ Halloc).
Qed.

Local Lemma ext_p_page : is_page p.
Proof. by eapply pt_is_page. Qed.

Local Lemma ext_slot : read64 m3 (p + 8 * i) = pte_of_page c PTE_V.
Proof.
  unfold m3. apply read64_write64_eq, pte_of_page_bound; [|done].
  apply is_page_u64, Halloc.
Qed.

(** The other entries of the old pages are as they were. *)
Local Lemma ext_old_slot q j :
  pt_page T q → 0 ≤ j < 512 → q ≠ p ∨ j ≠ i →
  read64 m3 (q + 8 * j) = read64 (ram s) (q + 8 * j).
Proof.
  intros Hq Hj Hne. pose proof (pt_page_is_page _ _ _ _ Hok Hq) as Hqp.
  pose proof ext_p_page as Hpp.
  apply read64_ext. intros a Ha. apply ext_rd_other with q; try done.
  - by apply ext_c_new.
  - unfold PGSIZE. lia.
  - destruct (decide (q = p)) as [->|Hqne]; [destruct Hne; [done|lia]|].
    destruct (is_page_disjoint q p Hqp Hpp Hqne); unfold PGSIZE in *; lia.
Qed.

Local Lemma ext_new_slot j : 0 ≤ j < 512 → read64 m3 (c + 8 * j) = 0.
Proof.
  intros Hj. apply read64_zero. intros a Ha. unfold m3, m2.
  assert (p ≠ c) by (apply ext_c_new; by exists path).
  pose proof ext_p_page. pose proof (ka_page _ _ _ _ Halloc).
  rewrite rd_write64_out.
  - rewrite rd_memset by (unfold PGSIZE; lia). rewrite decide_True by (unfold PGSIZE; lia). done.
  - destruct (is_page_disjoint p c); [done..| |]; unfold PGSIZE in *; lia.
Qed.

Local Lemma ext_refs x : is_page x → refs s x ≠ 0 → refs s3 x = refs s x.
Proof.
  intros Hx Hr. change (refs s3 x) with (refs s1 x). apply (ka_refs _ _ _ _ Halloc).
  intros E. apply ref_index_inj in E; [|done|apply Halloc]. subst x. by rewrite ext_c_free in Hr.
Qed.

Local Lemma ext_pt_ok : pt_ok s3 root T'.
Proof.
  assert (pt_page T p) as HTp by (by exists path).
  constructor; unfold T'.
  - rewrite lookup_insert_ne; [apply Hok|]. by destruct path.
  - intros path' q Hq. apply lookup_insert_Some in Hq as [[_ <-]|[_ Hq]]; [apply Halloc|].
    by eapply pt_is_page.
  - intros path' path'' q Hq Hq'.
    apply lookup_insert_Some in Hq as [[<- <-]|[_ Hq]];
      apply lookup_insert_Some in Hq' as [[<- E]|[_ Hq']]; try done.
    + destruct (ext_c_new c); [by eexists|done].
    + subst q. destruct (ext_c_new c); [by eexists|done].
    + by eapply pt_inj.
  - intros path' q Hq. apply lookup_insert_Some in Hq as [[<- <-]|[_ Hq]]; [|by eapply pt_dom].
    destruct (pt_dom _ _ _ Hok _ _ Hp) as [_ Hf]. rewrite length_app. simpl. split; [lia|].
    apply Forall_app. split; [done|]. by constructor.
  - intros j rest q Hq. apply lookup_insert_Some in Hq as [[E _]|[_ Hq]]; [|by eapply pt_low].
    destruct path as [|j' path']; simplify_eq/=; [by apply Hlow|by eapply pt_low].
  - intros path' j q Hq. apply lookup_insert_Some in Hq as [[E <-]|[_ Hq]].
    + apply app_inj_tail in E as [<- <-]. rewrite lookup_insert_ne; [by eexists|].
      intros E. apply (f_equal length) in E. rewrite length_app in E. simpl in E. lia.
    + destruct (pt_parent _ _ _ Hok _ _ _ Hq) as [q' Hq']. exists q'.
      rewrite lookup_insert_ne; [done|]. intros <-. congruence.
  - intros path' q j Hq Hl Hj. cbn [ram s3 set_ram].
    apply lookup_insert_Some in Hq as [[<- <-]|[Hne Hq]].
    + rewrite lookup_insert_ne.
      * destruct (T !! ((path ++ [i]) ++ [j])) as [d|] eqn:E.
        { destruct (pt_parent _ _ _ Hok _ _ _ E) as [? ?]. congruence. }
        change (ram s3) with m3. by rewrite ext_new_slot.
      * intros E. apply (f_equal length) in E. rewrite !length_app in E. simpl in E. lia.
    + change (ram s3) with m3.
      destruct (decide (path ++ [i] = path' ++ [j])) as [E|Hne'].
      * rewrite E, lookup_insert_eq. apply app_inj_tail in E as [<- <-].
        rewrite Hp in Hq. injection Hq as <-. apply ext_slot.
      * rewrite lookup_insert_ne by done. rewrite ext_old_slot; [by apply (pt_child _ _ _ Hok)|by eexists|done|].
        destruct (decide (q = p)) as [->|]; [|by left]. right. intros ->.
        apply Hne'. f_equal. by eapply pt_inj.
  - intros path' q Hq. apply lookup_insert_Some in Hq as [[_ <-]|[_ Hq]]; [apply Halloc|].
    rewrite <- (pt_ref _ _ _ Hok _ _ Hq). apply ext_refs; [by eapply pt_is_page|].
    rewrite (pt_ref _ _ _ Hok _ _ Hq). done.
Qed.

Local Lemma ext_pte va : 0 ≤ va < MAXVA → pte_of s3 T' va = pte_of s T va.
Proof.
  intros Hva. unfold pte_of, pt_lookup, T'.
  assert (0 ≤ PX 0 va < 512) as Hpx by (apply PX_bound; lia).
  destruct (decide (path ++ [i] = [PX 2 va; PX 1 va])) as [E|Hne].
  - rewrite E, lookup_insert_eq, <- E, Hnone. simpl. change (ram s3) with m3. by apply ext_new_slot.
  - rewrite lookup_insert_ne by done. destruct (T !! [PX 2 va; PX 1 va]) as [q|] eqn:E; [|done].
    simpl. change (ram s3) with m3. apply ext_old_slot; [by eexists|done|]. left. intros ->.
    pose proof (pt_inj _ _ _ Hok _ _ _ E Hp) as Epath. rewrite <- Epath in Hlen. simpl in Hlen. lia.
Qed.

Lemma grows_extend : grows root s T (c :: l) s3 T' l.
Proof.
  assert (pt_page T p) as HTp by (by exists path).
  constructor; [apply ext_pt_ok| | | | |apply ext_refs| |apply ext_pte].
  - split.
    2:{ change (kmem_locked s3) with (kmem_locked s1). rewrite (ka_lock _ _ _ _ Halloc). apply Hinv. }
    apply free_ok_set_ram; [apply Halloc|]. intros q Hq a Ha.
    pose proof (inv_pages _ _ (ka_ok _ _ _ _ Halloc)) as Hpg. rewrite Forall_forall in Hpg.
    assert (q ≠ c) by (intros ->; by apply (ka_fresh _ _ _ _ Halloc)).
    assert (q ≠ p).
    { intros ->. apply (pt_page_not_free s root T (c :: l) p); [done|apply Hinv|done|set_solver]. }
    rewrite ext_rd_other with (q := q); [|by apply Hpg|done|done|].
    + symmetry. apply (ka_mem _ _ _ _ Halloc).
      destruct (is_page_disjoint q c); [by apply Hpg|apply Halloc|done|lia|lia].
    + pose proof ext_p_page. destruct (is_page_disjoint q p); [by apply Hpg|done..| |];
        unfold PGSIZE in *; lia.
  - by apply insert_subseteq.
  - by exists [c].
  - intros path' q Hq. apply lookup_insert_Some in Hq as [[_ <-]|[_ Hq]]; [set_solver|by left].
  - intros a Ha. change (ram s3) with m3. unfold m3, m2.
    assert (¬ (p ≤ a < p + PGSIZE)).
    { intros Hpa. apply Ha. exists p. split; [|done]. exists path. unfold T'.
      rewrite lookup_insert_ne; [done|]. intros E. congruence. }
    assert (¬ (c ≤ a < c + PGSIZE)).
    { intros Hca. apply Ha. exists c. split; [|done]. exists (path ++ [i]). apply lookup_insert_eq. }
    rewrite rd_write64_out by (unfold PGSIZE in *; lia).
    rewrite rd_memset_out by (unfold PGSIZE in *; lia).
    apply (ka_mem _ _ _ _ Halloc). lia.
Qed.

End extend.

Lemma grows_refl root s T l : pt_ok s root T → kmem_inv s l → grows root s T l s T l.
Proof. intros. constructor; try done; naive_solver. Qed.

Lemma evolves_trans root s1 T1 l1 s2 T2 l2 s3 T3 l3 f g :
  evolves root s1 T1 l1 s2 T2 l2 f → evolves root s2 T2 l2 s3 T3 l3 g →
  evolves root s1 T1 l1 s3 T3 l3 g.
Proof.
  intros G1 G2. constructor; try apply G2.
  - by etransitivity; apply G1 || apply G2.
  - by etransitivity; [apply G2|apply G1].
  - intros path p Hp. apply (g_new _ _ _ _ _ _ _ _ G2) in Hp as [Hp|Hp].
    + by apply (g_new _ _ _ _ _ _ _ _ G1).
    + right. destruct (g_suffix _ _ _ _ _ _ _ _ G1) as [k ->]. set_solver.
  - intros x Hx Hr. rewrite (g_refs _ _ _ _ _ _ _ _ G2), (g_refs _ _ _ _ _ _ _ _ G1); try done.
    by rewrite (g_refs _ _ _ _ _ _ _ _ G1).
  - intros a Ha. rewrite (g_mem _ _ _ _ _ _ _ _ G2) by done. apply (g_mem _ _ _ _ _ _ _ _ G1).
    intros (p & [path Hp] & Hpa). apply Ha. exists p. split; [|done]. exists path.
    eapply lookup_weaken; [done|apply G2].
Qed.

Lemma evolves_ext root s T l s' T' l' f g :
  (∀ va, 0 ≤ va < MAXVA → f va = g va) →
  evolves root s T l s' T' l' f → evolves root s T l s' T' l' g.
Proof. intros Hfg [????????]. constructor; try done. intros va Hva. rewrite <- Hfg; auto. Qed.

Lemma grows_trans root s1 T1 l1 s2 T2 l2 s3 T3 l3 :
  grows root s1 T1 l1 s2 T2 l2 → grows root s2 T2 l2 s3 T3 l3 → grows root s1 T1 l1 s3 T3 l3.
Proof.
  intros G1 G2. eapply evolves_ext; [|eapply evolves_trans; [exact G1|exact G2]].
  intros va Hva. apply (g_pte _ _ _ _ _ _ _ _ G1 va Hva).
Qed.

(** One level of [walk] with allocation: go down, building the next page if needed, or
    give up because no page is free. *)
Lemma walk_level_alloc s root T l path p va level :
  pt_ok s root T → kmem_inv s l → T !! path = Some p → (length path < 2)%nat → 0 ≤ va →
  (path = [] → PX (Z.of_nat (S level)) va < 256) →
  (∃ c s' T' l', grows root s T l s' T' l' ∧
     T' !! (path ++ [PX (Z.of_nat (S level)) va]) = Some c ∧
     walk_from va true (S level) p s = walk_from va true level c s') ∨
  (l = [] ∧ walk_from va true (S level) p s = Ret 0 s).
Proof.
  intros Hok Hinv Hp Hlen Hva Hlow.
  destruct (T !! (path ++ [PX (Z.of_nat (S level)) va])) as [c|] eqn:E.
  - left. exists c, s, T, l. split; [by apply grows_refl|]. split; [done|].
    by eapply walk_from_child.
  - assert (0 ≤ PX (Z.of_nat (S level)) va < 512) as Hi by (apply PX_bound; lia).
    pose proof (pt_slot_range p _ (pt_is_page _ _ _ Hok _ _ Hp) Hi) as (? & ? & ? & _).
    cbn [walk_from]. msimpl. rewrite load64_ok by done. msimpl.
    rewrite land_PTE_V, (pt_step_none s root T path p _ Hok Hp Hlen Hi E). simpl.
    destruct l as [|c l].
    + right. rewrite kalloc_empty by done. by msimpl.
    + left. destruct (kalloc_cons s c l Hinv) as (s1 & -> & Hpost). msimpl.
      pose proof (ka_page _ _ _ _ Hpost) as Hc. pose proof (is_page_range c Hc) as (? & ? & ?).
      rewrite (proj2 (Z.eqb_neq c 0)) by (by apply is_page_nonzero). msimpl.
      rewrite mset_ok by done. msimpl. rewrite store64_ok by done. msimpl.
      eexists c, _, _, l. split; [|split; [|done]]; [|apply lookup_insert_eq].
      exact (grows_extend s s1 root T l path p _ c Hok Hinv Hpost Hp Hlen Hi Hlow E).
Qed.

(** [walk] with allocation returns the leaf entry of a table that maps what it mapped
    before, or 0 when memory has run out. *)
Lemma walk_alloc s root T l va :
  pt_ok s root T → kmem_inv s l → 0 ≤ va < MAXVA →
  ∃ r s' T' l', walk root va true s = Ret r s' ∧ grows root s T l s' T' l' ∧
    (pt_lookup T' va = Some r ∨ r = 0 ∧ l' = []).
Proof.
  intros Hok Hinv Hva. unfold walk. rewrite (proj2 (Z.leb_gt _ _)) by lia.
  destruct (walk_level_alloc s root T l [] root va 1 Hok Hinv (pt_root _ _ _ Hok))
    as [(p1 & s1 & T1 & l1 & G1 & E1 & ->)|[-> ->]]; [simpl; lia|lia|intros _; by apply PX_low| |].
  - destruct (walk_level_alloc s1 root T1 l1 [PX 2 va] p1 va 0)
      as [(p0 & s2 & T2 & l2 & G2 & E2 & ->)|[-> ->]]; [apply G1..|exact E1|simpl; lia|lia|done| |].
    + exists (p0 + 8 * PX 0 va), s2, T2, l2. split; [done|].
      split; [by eapply grows_trans|]. left. unfold pt_lookup.
      by rewrite (E2 : T2 !! [PX 2 va; PX 1 va] = Some p0).
    + exists 0, s1, T1, []. eauto.
  - exists 0, s, T, []. split; [done|]. split; [by apply grows_refl|]. by right.
Qed.

(** * Writing a leaf entry *)

(** [f] with the entry for the page of [va] set to [v]. *)
Definition set_pte (va v : Z) (f : Z → Z) : Z → Z :=
  λ va', if decide (va' / PGSIZE = va / PGSIZE) then v else f va'.

Lemma pt_store s root T l va a v :
  pt_ok s root T → kmem_inv s l → 0 ≤ va < MAXVA → pt_lookup T va = Some a → 0 ≤ v < 2 ^ 64 →
  ∃ s', store64 a v s = Ret tt s' ∧ ref_count s' = ref_count s ∧
    evolves root s T l s' T l (set_pte va v (pte_of s T)).
Proof.
  intros Hok [Hf Hlk] Hva Hlook Hv.
  destruct (pt_lookup_slot s root T va a Hok ltac:(lia) Hlook) as (p & Hp & -> & Hpp & Hi).
  pose proof (pt_slot_range p _ Hpp Hi) as (? & ? & ? & ? & ? & ?).
  rewrite store64_ok by done. eexists. split; [done|].
  assert (∀ q j, pt_page T q → 0 ≤ j < 512 → q ≠ p ∨ j ≠ PX 0 va →
    read64 (write64 (ram s) (p + 8 * PX 0 va) v) (q + 8 * j) = read64 (ram s) (q + 8 * j)) as Hother.
  { intros q j Hq Hj Hne. apply read64_write64_ne.
    destruct (decide (q = p)) as [->|Hqp]; [destruct Hne; [done|lia]|].
    destruct (is_page_disjoint q p (pt_page_is_page _ _ _ _ Hok Hq) Hpp Hqp); unfold PGSIZE in *; lia. }
  split; [done|]. constructor; [|split; [|done]|done|done|by left|done| |].
  - constructor; try apply Hok. intros path q j Hq Hl Hj. simpl.
    rewrite Hother; [by apply (pt_child _ _ _ Hok)|by eexists|done|]. left. intros ->.
    pose proof (pt_inj _ _ _ Hok _ _ _ Hq Hp) as E. rewrite E in Hl. simpl in Hl. lia.
  - apply free_ok_set_ram; [done|]. intros q Hq x Hx. apply rd_write64_out.
    assert (q ≠ p) as Hne.
    { intros ->. eapply pt_page_not_free; [done|done| |done]. by eexists. }
    pose proof (inv_pages _ _ Hf) as Hpg. rewrite Forall_forall in Hpg.
    destruct (is_page_disjoint q p (Hpg _ Hq) Hpp Hne); unfold PGSIZE in *; lia.
  - intros x Hx. apply rd_write64_out.
    assert (¬ (p ≤ x < p + PGSIZE)) by (intros ?; apply Hx; exists p; split; [by eexists|done]).
    unfold PGSIZE in *. lia.
  - intros va' Hva'. unfold set_pte, pte_of at 1, pt_lookup. case_decide as E.
    + rewrite (PX_page 2 va' va), (PX_page 1 va' va), (PX_page 0 va' va), Hp by (done || lia).
      simpl. by apply read64_write64_eq.
    + destruct (T !! [PX 2 va'; PX 1 va']) as [q|] eqn:Eq; unfold pte_of, pt_lookup; rewrite Eq; simpl; [|done].
      apply Hother; [by eexists|apply PX_bound; lia|].
      destruct (decide (q = p)) as [->|]; [|by left]. right. intros E0.
      pose proof (pt_inj _ _ _ Hok _ _ _ Eq Hp) as Epath. injection Epath as E2 E1.
      apply E. by apply PX_inj.
Qed.

End lemmas.
