(* ===== verification/AddrSpace.v ===== *)
(** User address spaces: what [mappages], [uvmunmap], [uvmalloc] and [uvmdealloc] (vm.c)
    do to the mappings, the reference counts and the free list, on every path including
    running out of memory. *)

From S2P Require Import Prelude Mem Riscv Kalloc Vm PageTable.

(** [f] with the [k] pages from [a] on mapped to the pages from [pa] on. *)
Definition map_run (a k pa perm : Z) (f : Z → Z) : Z → Z := λ v,
  let j := v / PGSIZE - a / PGSIZE in
  if decide (0 ≤ j < k) then pte_of_page (pa + j * PGSIZE) (Z.lor perm PTE_V) else f v.

(** [f] with [k] pages from [a] on unmapped. *)
Definition clear_run (a k : Z) (f : Z → Z) : Z → Z := λ v,
  if decide (0 ≤ v / PGSIZE - a / PGSIZE < k) then 0 else f v.

(** The pages mapped at the [n] pages from [a] on. *)
Fixpoint run_pas (f : Z → Z) (a : Z) (n : nat) : list Z :=
  match n with
  | O => []
  | S n => PTE2PA (f a) :: run_pas f (a + PGSIZE) n
  end.

(** How often [x] occurs in [L]. *)
Definition occ (L : list Z) (x : Z) : Z := Z.of_nat (count_occ Z.eq_dec L x).

Section post.
Context `{KernelImage}.

(** References to the pages in [L] have been dropped; those without any left are free. *)
Record released (s : kmem) (T : ptree) (l : list Z) (s' : kmem) (l' : list Z) (L : list Z) : Prop := {
  rel_inv : kmem_inv s' l';
  rel_refs : ∀ x, is_page x → refs s' x = refs s x - occ L x;
  rel_free : ∀ x, x ∈ l' ↔ x ∈ l ∨ x ∈ L ∧ refs s' x = 0;
  rel_mem : ∀ a, ¬ in_pages T a → (∀ x, x ∈ l' → ¬ (x ≤ a < x + PGSIZE)) →
    rd (ram s') a = rd (ram s) a;
}.

(** The pages in [L] may each be dropped once. *)
Definition droppable (s : kmem) (T : ptree) (L : list Z) : Prop :=
  Forall (λ x, is_page x ∧ ¬ pt_page T x ∧ occ L x ≤ refs s x < 2 ^ 31) L.

(** The leaf entries of the [n] pages from [a] on are valid mappings. *)
Definition mapped_run (f : Z → Z) (a : Z) (n : nat) : Prop :=
  ∀ k, 0 ≤ k < Z.of_nat n →
    bit (f (a + k * PGSIZE)) 0 = true ∧ PTE_FLAGS (f (a + k * PGSIZE)) ≠ PTE_V.

End post.

Section addrspace.
Context `{KernelImageOk}.

Lemma MAXVA_val : MAXVA = 274877906944.
Proof. reflexivity. Qed.

Lemma PTE_V_flag : 0 ≤ PTE_V < 1024.
Proof. change PTE_V with 1. lia. Qed.

Lemma div_add_page a : (a + PGSIZE) / PGSIZE = a / PGSIZE + 1.
Proof. unfold PGSIZE. zdm. Qed.

Lemma map_run_zero a pa perm f v : map_run a 0 pa perm f v = f v.
Proof. unfold map_run. by rewrite decide_False by lia. Qed.

Lemma map_run_step a k pa perm f v :
  0 ≤ k →
  map_run (a + PGSIZE) k (pa + PGSIZE) perm
    (set_pte a (pte_of_page pa (Z.lor perm PTE_V)) f) v =
  map_run a (k + 1) pa perm f v.
Proof.
  intros. unfold map_run, set_pte. rewrite div_add_page.
  repeat case_decide; try lia; try done; f_equal; lia.
Qed.

Lemma mappages_body_spec s root T l a pa perm last :
  pt_ok s root T → kmem_inv s l → 0 ≤ a < MAXVA → 0 ≤ pa < 2 ^ 64 → 0 ≤ perm < 1024 →
  ∃ s' T' l',
    (mappages_body root last perm (a, pa) s =
       Ret (if a =? last then inr 0 else inl (u64 (a + PGSIZE), u64 (pa + PGSIZE))) s' ∧
     evolves root s T l s' T' l' (set_pte a (pte_of_page pa (Z.lor perm PTE_V)) (pte_of s T))) ∨
    (mappages_body root last perm (a, pa) s = Ret (inr (-1)) s' ∧
     grows root s T l s' T' l' ∧ l' = []).
Proof.
  intros Hok Hinv Ha Hpa Hperm.
  destruct (walk_alloc s root T l a Hok Hinv Ha) as (r & s1 & T1 & l1 & E & G & Hr).
  unfold mappages_body. msimpl. rewrite E. msimpl.
  destruct Hr as [Hr|[-> ->]].
  - destruct (pt_lookup_slot s1 root T1 a r) as (p & Hp & -> & Hpp & Hi); [apply G|lia|done|].
    pose proof (pt_slot_range p _ Hpp Hi) as (_ & _ & _ & _ & _ & Hnz).
    rewrite (proj2 (Z.eqb_neq _ _)) by done.
    rewrite <- Z.lor_assoc. fold (pte_of_page pa (Z.lor perm PTE_V)).
    destruct (pt_store s1 root T1 l1 a _ (pte_of_page pa (Z.lor perm PTE_V))
      (g_pt _ _ _ _ _ _ _ _ G) (g_inv _ _ _ _ _ _ _ _ G) Ha Hr) as (s2 & E2 & _ & G2).
    { apply pte_of_page_bound; [done|]. apply flags_lor; [done|apply PTE_V_flag]. }
    rewrite E2. msimpl. exists s2, T1, l1. left. split; [by destruct (a =? last)|].
    eapply evolves_ext; [|eapply evolves_trans; [exact G|exact G2]].
    intros v Hv. unfold set_pte. case_decide; [done|]. apply (g_pte _ _ _ _ _ _ _ _ G v Hv).
  - exists s1, T1, []. right. done.
Qed.

Lemma mappages_loop root perm last n : ∀ s T l a pa fuel,
  (n < fuel)%nat → pt_ok s root T → kmem_inv s l →
  0 ≤ a → last = a + Z.of_nat n * PGSIZE → last + PGSIZE ≤ MAXVA →
  0 ≤ pa → pa + Z.of_nat n * PGSIZE + PGSIZE ≤ 2 ^ 64 → 0 ≤ perm < 1024 →
  ∃ r s' T' l' k,
    loop fuel (mappages_body root last perm) (a, pa) s = Ret r s' ∧
    evolves root s T l s' T' l' (map_run a k pa perm (pte_of s T)) ∧
    (r = 0 ∧ k = Z.of_nat n + 1 ∨ r = -1 ∧ 0 ≤ k ≤ Z.of_nat n ∧ l' = []).
Proof.
  induction n as [|n IH]; intros s T l a pa fuel Hfuel Hok Hinv Ha Hlast Hmax Hpa Hpamax Hperm;
    (destruct fuel as [|fuel]; [lia|]); rewrite MAXVA_val in *; unfold PGSIZE in Hlast, Hmax, Hpamax.
  all: destruct (mappages_body_spec s root T l a pa perm last)
    as (s1 & T1 & l1 & [[E G]|(E & G & ->)]); try done; try (rewrite ?MAXVA_val; lia).
  - rewrite (proj2 (Z.eqb_eq a last)) in E by lia. rewrite (loop_done _ _ _ _ _ _ E).
    exists 0, s1, T1, l1, 1. split; [done|]. split; [|left; lia].
    eapply evolves_ext; [|exact G]. intros v _. rewrite <- (map_run_zero (a + PGSIZE) (pa + PGSIZE) perm).
    by apply map_run_step.
  - rewrite (loop_done _ _ _ _ _ _ E). exists (-1), s1, T1, [], 0.
    split; [done|]. split; [|right; lia || (split; [done|split; [lia|done]])].
    eapply evolves_ext; [|exact G]. intros v _. by rewrite map_run_zero.
  - rewrite (proj2 (Z.eqb_neq a last)) in E by lia. rewrite (loop_next _ _ _ _ _ _ E).
    rewrite !u64_id by (unfold PGSIZE; lia).
    destruct (IH s1 T1 l1 (a + PGSIZE) (pa + PGSIZE) fuel) as (r & s2 & T2 & l2 & k & E2 & G2 & Hr);
      try apply G; try done; try (rewrite ?MAXVA_val; unfold PGSIZE; lia).
    exists r, s2, T2, l2, (k + 1). split; [done|]. split.
    2:{ destruct Hr as [[-> ->]|(-> & ? & ->)]; [left|right]; (split; [done|]); [lia|split; [lia|done]]. }
    eapply evolves_ext; [|eapply evolves_trans; [exact G|exact G2]].
    intros v Hv. rewrite <- map_run_step by lia. unfold map_run. case_decide; [done|].
    apply (g_pte _ _ _ _ _ _ _ _ G v Hv).
  - rewrite (loop_done _ _ _ _ _ _ E). exists (-1), s1, T1, [], 0.
    split; [done|]. split; [|right; split; [done|split; [lia|done]]].
    eapply evolves_ext; [|exact G]. intros v _. by rewrite map_run_zero.
Qed.

(** [mappages] maps the whole range, or reports failure with a prefix of it mapped and no
    page left to allocate. *)
Lemma mappages_ok s root T l va n pa perm :
  pt_ok s root T → kmem_inv s l → va mod PGSIZE = 0 → 0 ≤ va → 0 < n →
  va + n * PGSIZE ≤ MAXVA → 0 ≤ pa → pa + n * PGSIZE ≤ 2 ^ 64 → 0 ≤ perm < 1024 →
  ∃ r s' T' l' k,
    mappages root va (n * PGSIZE) pa perm s = Ret r s' ∧
    evolves root s T l s' T' l' (map_run va k pa perm (pte_of s T)) ∧
    (r = 0 ∧ k = n ∨ r = -1 ∧ 0 ≤ k < n ∧ l' = []).
Proof.
  intros Hok Hinv Hal Hva Hn Hmax Hpa Hpamax Hperm. unfold mappages.
  rewrite Hal. replace (n * PGSIZE mod PGSIZE) with 0 by (by rewrite Z.mod_mul).
  rewrite (proj2 (Z.eqb_neq (n * PGSIZE) 0)) by (unfold PGSIZE; lia). simpl.
  rewrite Z.div_mul by done. rewrite MAXVA_val in Hmax.
  rewrite u64_id by (unfold PGSIZE in *; lia).
  destruct (mappages_loop root perm (va + n * PGSIZE - PGSIZE) (Z.to_nat (n - 1)) s T l va pa
    (Z.to_nat n)) as (r & s' & T' & l' & k & E & G & Hr);
    try done; try (rewrite ?MAXVA_val; unfold PGSIZE in *; lia).
  exists r, s', T', l', k. split; [done|]. split; [done|].
  destruct Hr as [[-> ->]|(-> & ? & ->)]; [left; lia|right; split; [done|split; [lia|done]]].
Qed.

(** Mapping a single page. *)
Lemma mappages_one s root T l va pa perm :
  pt_ok s root T → kmem_inv s l → va mod PGSIZE = 0 → 0 ≤ va < MAXVA →
  0 ≤ pa ≤ 2 ^ 64 - PGSIZE → 0 ≤ perm < 1024 →
  ∃ r s' T' l', mappages root va PGSIZE pa perm s = Ret r s' ∧
    (r = 0 ∧ evolves root s T l s' T' l' (set_pte va (pte_of_page pa (Z.lor perm PTE_V)) (pte_of s T)) ∨
     r = -1 ∧ grows root s T l s' T' l' ∧ l' = []).
Proof.
  intros Hok Hinv Hal Hva Hpa Hperm.
  destruct (mappages_ok s root T l va 1 pa perm) as (r & s' & T' & l' & k & E & G & Hr); try done.
  { lia. } { rewrite MAXVA_val in *. unfold PGSIZE in *. zdm. } { lia. } { unfold PGSIZE in *; lia. }
  change (1 * PGSIZE) with PGSIZE in E. exists r, s', T', l'. split; [done|].
  destruct Hr as [[-> ->]|(-> & Hk & ->)]; [left|right].
  - split; [done|]. eapply evolves_ext; [|exact G]. intros v _.
    unfold map_run, set_pte. repeat case_decide; try lia; try done; f_equal; lia.
  - split; [done|]. split; [|done]. eapply evolves_ext; [|exact G]. intros v _.
    replace k with 0 by lia. apply map_run_zero.
Qed.

(** * Unmapping *)

Lemma occ_cons y L x : occ (y :: L) x = (if decide (y = x) then 1 else 0) + occ L x.
Proof. unfold occ. simpl. destruct (Z.eq_dec y x), (decide (y = x)); try done; lia. Qed.

Lemma occ_nonneg L x : 0 ≤ occ L x.
Proof. unfold occ. lia. Qed.

Lemma occ_pos L x : x ∈ L ↔ 0 < occ L x.
Proof. unfold occ. rewrite list_elem_of_In, (count_occ_In Z.eq_dec). lia. Qed.

Lemma in_use_not_free s l x : free_ok s l → refs s x ≠ 0 → x ∉ l.
Proof.
  intros Hf Hr Hx. pose proof (inv_free _ _ Hf) as Hz. rewrite Forall_forall in Hz.
  by apply Hr, Hz.
Qed.

Lemma run_pas_ext f g a n :
  (∀ k, 0 ≤ k < Z.of_nat n → f (a + k * PGSIZE) = g (a + k * PGSIZE)) →
  run_pas f a n = run_pas g a n.
Proof.
  revert a. induction n as [|n IH]; intros a Hfg; [done|]. simpl. f_equal.
  - f_equal. specialize (Hfg 0 ltac:(lia)). by rewrite Z.mul_0_l, Z.add_0_r in Hfg.
  - apply IH. intros k Hk. specialize (Hfg (k + 1) ltac:(lia)).
    by replace (a + (k + 1) * PGSIZE) with (a + PGSIZE + k * PGSIZE) in Hfg by lia.
Qed.

(** A valid entry has a leaf slot. *)
Lemma pte_valid_lookup s T va :
  bit (pte_of s T va) 0 = true → ∃ a, pt_lookup T va = Some a ∧ pte_of s T va = read64 (ram s) a.
Proof. unfold pte_of. destruct (pt_lookup T va) as [a|]; [eauto|]. by rewrite Z.bits_0. Qed.

(** Dropping one reference to a page outside the table leaves the table alone. *)
Lemma kfree_pt s root T l pa :
  pt_ok s root T → kmem_inv s l → is_page pa → ¬ pt_page T pa → 1 ≤ refs s pa < 2 ^ 31 →
  ∃ s' l', kfree pa s = Ret tt s' ∧ pt_ok s' root T ∧ released s T l s' l' [pa] ∧
    (∀ va, 0 ≤ va → pte_of s' T va = pte_of s T va).
Proof.
  intros Hok Hinv Hpa Hnpt Hr.
  assert (pa ∉ l) as Hni by (apply (in_use_not_free s); [apply Hinv|lia]).
  destruct (kfree_spec s pa l Hinv Hpa Hni) as (s' & E & [Ho Hre Hrs Hm Hkeep Hlk]); [lia|].
  replace (Z.max 0 (refs s pa - 1)) with (refs s pa - 1) in * by lia.
  assert (∀ a, in_pages T a → rd (ram s') a = rd (ram s) a) as Hframe.
  { intros a (q & Hq & Ha). apply Hm. pose proof (pt_page_is_page _ _ _ _ Hok Hq) as Hqp.
    destruct (decide (q = pa)) as [->|Hne]; [done|].
    destruct (is_page_disjoint q pa Hqp Hpa Hne); lia. }
  assert (∀ x, is_page x → x ≠ pa → refs s' x = refs s x) as Hother.
  { intros x Hx Hne. apply Hrs. intros Ei. apply ref_index_inj in Ei; done. }
  eexists s', _. split; [done|]. split; [|split].
  - apply (pt_ok_frame s); [done| |done]. intros q Hq. apply Hother.
    + by eapply pt_page_is_page.
    + by intros ->.
  - constructor.
    + split; [exact Ho|]. rewrite Hlk. apply Hinv.
    + intros x Hx. rewrite occ_cons. change (occ [] x) with 0.
      destruct (decide (pa = x)) as [Ex|Ex]; [subst; lia|].
      rewrite Hother; [lia|done|congruence].
    + intros x. destruct (decide (refs s pa - 1 = 0)) as [Ec|Ec]; rewrite ?elem_of_cons, ?elem_of_nil.
      * split; [intros [->|]; [right; split; [by left|lia]|by left]|].
        intros [|[[->|[]] _]]; [by right|by left].
      * split; [by left|]. intros [|[[->|[]] Hz]]; [done|lia].
    + intros a Ha Hx. destruct (decide (refs s pa - 1 = 0)) as [Ec|Ec].
      * apply Hm. specialize (Hx pa ltac:(set_solver)). lia.
      * by rewrite Hkeep.
  - intros va Hva. by eapply pte_of_frame.
Qed.

Lemma released_nil s T l : kmem_inv s l → released s T l s l [].
Proof.
  intros. constructor; try done.
  - intros x _. unfold occ. simpl. lia.
  - intros x. split; [by left|]. intros [|[Hx _]]; [done|]. by apply elem_of_nil in Hx.
Qed.

Lemma released_trans s1 T l1 s2 l2 s3 l3 L1 L2 :
  released s1 T l1 s2 l2 L1 → released s2 T l2 s3 l3 L2 →
  (∀ x, x ∈ L1 ++ L2 → is_page x) →
  released s1 T l1 s3 l3 (L1 ++ L2).
Proof.
  intros R1 R2 Hpg.
  assert (∀ x, occ (L1 ++ L2) x = occ L1 x + occ L2 x) as Hocc.
  { intros x. unfold occ. rewrite count_occ_app. lia. }
  assert (∀ x, is_page x → x ∈ l2 → refs s2 x = 0 ∧ refs s3 x = 0) as Hz.
  { intros x Hx Hl. destruct (rel_inv _ _ _ _ _ _ R1) as [Hf2 _]. destruct (rel_inv _ _ _ _ _ _ R2) as [Hf3 _].
    pose proof (inv_free _ _ Hf2) as F2. pose proof (inv_free _ _ Hf3) as F3.
    rewrite Forall_forall in F2, F3. split; [by apply F2|]. apply F3.
    apply (rel_free _ _ _ _ _ _ R2). by left. }
  constructor; [apply R2| | |].
  - intros x Hx. rewrite (rel_refs _ _ _ _ _ _ R2), (rel_refs _ _ _ _ _ _ R1), Hocc by done. lia.
  - intros x. rewrite (rel_free _ _ _ _ _ _ R2), (rel_free _ _ _ _ _ _ R1), elem_of_app. split.
    + intros [[|[Hx Hr]]|[Hx Hr]]; [by left| |naive_solver].
      right. split; [by left|]. apply Hz; [apply Hpg; set_solver|].
      apply (rel_free _ _ _ _ _ _ R1). by right.
    + intros [|[[Hx|Hx] Hr]]; [naive_solver| |naive_solver].
      destruct (decide (x ∈ L2)) as [Hx2|Hx2]; [by right|]. left. right. split; [done|].
      rewrite (rel_refs _ _ _ _ _ _ R2) in Hr by (apply Hpg; set_solver).
      destruct (decide (occ L2 x = 0)) as [E0|E0]; [lia|].
      destruct Hx2. apply occ_pos. pose proof (occ_nonneg L2 x). lia.
  - intros a Ha Hx. rewrite (rel_mem _ _ _ _ _ _ R2) by done. apply (rel_mem _ _ _ _ _ _ R1); [done|].
    intros x Hx2. apply Hx. apply (rel_free _ _ _ _ _ _ R2). by left.
Qed.

Lemma refs_ext s s' x : ref_count s' = ref_count s → refs s' x = refs s x.
Proof. unfold refs. by intros ->. Qed.

Lemma released_store root s T l s1 l1 s2 L f :
  released s T l s1 l1 L → evolves root s1 T l1 s2 T l1 f → ref_count s2 = ref_count s1 →
  released s T l s2 l1 L.
Proof.
  intros R G Hrc. constructor; [apply G| | |].
  - intros x Hx. rewrite (refs_ext s1) by done. by apply R.
  - intros x. rewrite (refs_ext s1) by done. apply R.
  - intros a Ha Hx. rewrite (g_mem _ _ _ _ _ _ _ _ G) by done. by apply R.
Qed.

(** One round of [uvmunmap]. *)
Lemma uvmunmap_step s root T l va np a do_free :
  pt_ok s root T → kmem_inv s l → 0 ≤ a < MAXVA → a < u64 (va + u64 (np * PGSIZE)) →
  bit (pte_of s T a) 0 = true → PTE_FLAGS (pte_of s T a) ≠ PTE_V →
  (do_free = true → droppable s T [PTE2PA (pte_of s T a)]) →
  ∃ s' l', uvmunmap_body root va np do_free a s = Ret (inl (u64 (a + PGSIZE))) s' ∧
    pt_ok s' root T ∧
    released s T l s' l' (if do_free then [PTE2PA (pte_of s T a)] else []) ∧
    (∀ v, 0 ≤ v < MAXVA → pte_of s' T v = set_pte a 0 (pte_of s T) v).
Proof.
  intros Hok Hinv Ha Hlt Hv Hleaf Hdrop.
  destruct (pte_valid_lookup s T a Hv) as (r & Hr & Epte).
  destruct (pt_lookup_slot s root T a r Hok ltac:(lia) Hr) as (p & Hp & Er & Hpp & Hi).
  pose proof (pt_slot_range p _ Hpp Hi) as (? & ? & ? & _ & _ & ?). rewrite <- Er in *.
  unfold uvmunmap_body. rewrite (proj2 (Z.ltb_lt _ _)) by done. msimpl.
  rewrite (walk_ro s root T a Hok Ha), Hr. msimpl. simpl.
  rewrite (proj2 (Z.eqb_neq r 0)) by done. msimpl. rewrite load64_ok by done. msimpl.
  rewrite <- Epte. rewrite land_PTE_V, Hv. msimpl. rewrite (proj2 (Z.eqb_neq _ _)) by done. msimpl.
  set (pa := PTE2PA (pte_of s T a)) in *.
  assert (∃ s1 l1, (if do_free then kfree pa else λ s0, Ret tt s0) s = Ret tt s1 ∧ pt_ok s1 root T ∧
    released s T l s1 l1 (if do_free then [pa] else []) ∧
    (∀ v, 0 ≤ v → pte_of s1 T v = pte_of s T v)) as (s1 & l1 & -> & Hok1 & R1 & Hpte1).
  { destruct do_free.
    - specialize (Hdrop eq_refl). apply Forall_cons in Hdrop as [(Hpg & Hnpt & Hocc) _].
      rewrite occ_cons, decide_True in Hocc by done. change (occ [] pa) with 0 in Hocc.
      apply kfree_pt; try done; lia.
    - exists s, l. split_and!; try done. by apply released_nil. }
  msimpl. destruct (pt_store s1 root T l1 a r 0) as (s2 & E2 & Hrc & G); try done; [apply R1|].
  rewrite E2. msimpl. exists s2, l1. split_and!; [done|apply G|by eapply released_store|].
  intros v Hva. rewrite (g_pte _ _ _ _ _ _ _ _ G v Hva). unfold set_pte. case_decide; [done|].
  apply Hpte1. lia.
Qed.

Lemma clear_run_step a k f v :
  0 ≤ k → clear_run (a + PGSIZE) k (set_pte a 0 f) v = clear_run a (k + 1) f v.
Proof.
  intros. unfold clear_run, set_pte. rewrite div_add_page.
  repeat case_decide; try lia; done.
Qed.

Lemma droppable_tail s T l s1 l1 x L :
  droppable s T (x :: L) → released s T l s1 l1 [x] → droppable s1 T L.
Proof.
  unfold droppable. intros Hd R. rewrite Forall_forall in *. intros y Hy.
  destruct (Hd y) as (Hpg & Hnpt & Hocc); [set_solver|]. split_and!; try done;
    rewrite (rel_refs _ _ _ _ _ _ R), occ_cons by done; rewrite occ_cons in Hocc;
    change (occ [] y) with 0; case_decide; lia.
Qed.

Lemma set_pte_far a v f k :
  a mod PGSIZE = 0 → 0 ≤ k → set_pte a v f (a + PGSIZE + k * PGSIZE) = f (a + PGSIZE + k * PGSIZE).
Proof.
  intros. unfold set_pte. case_decide as E; [|done]. exfalso. unfold PGSIZE in *. zdm.
Qed.

Lemma uvmunmap_loop root va np do_free n : ∀ s T l a fuel,
  (n < fuel)%nat → pt_ok s root T → kmem_inv s l → 0 ≤ a → a mod PGSIZE = 0 →
  u64 (va + u64 (np * PGSIZE)) = a + Z.of_nat n * PGSIZE → a + Z.of_nat n * PGSIZE ≤ MAXVA →
  mapped_run (pte_of s T) a n →
  (do_free = true → droppable s T (run_pas (pte_of s T) a n)) →
  ∃ s' l', loop fuel (uvmunmap_body root va np do_free) a s = Ret tt s' ∧
    pt_ok s' root T ∧
    released s T l s' l' (if do_free then run_pas (pte_of s T) a n else []) ∧
    (∀ v, 0 ≤ v < MAXVA → pte_of s' T v = clear_run a (Z.of_nat n) (pte_of s T) v).
Proof.
  induction n as [|n IH]; intros s T l a fuel Hfuel Hok Hinv Ha Hal Hend Hmax Hmap Hdrop;
    (destruct fuel as [|fuel]; [lia|]).
  - exists s, l. split.
    { apply loop_done. unfold uvmunmap_body. by rewrite (proj2 (Z.ltb_ge _ _)) by lia. }
    split; [done|]. split; [destruct do_free; by apply released_nil|].
    intros v Hv. unfold clear_run. by rewrite decide_False by lia.
  - destruct (Hmap 0 ltac:(lia)) as [Hv Hleaf]. rewrite Z.mul_0_l, Z.add_0_r in Hv, Hleaf.
    assert (do_free = true → droppable s T [PTE2PA (pte_of s T a)]) as Hd1.
    { intros Hf. specialize (Hdrop Hf). simpl in Hdrop. unfold droppable in *.
      apply Forall_cons in Hdrop as [(? & ? & Hocc) _]. apply Forall_singleton.
      split_and!; try done; [|lia]. rewrite occ_cons, decide_True in * by done.
      change (occ [] (PTE2PA (pte_of s T a))) with 0.
      pose proof (occ_nonneg (run_pas (pte_of s T) (a + PGSIZE) n) (PTE2PA (pte_of s T a))). lia. }
    destruct (uvmunmap_step s root T l va np a do_free Hok Hinv) as (s1 & l1 & E & Hok1 & R1 & Hpte1);
      try done; try (unfold PGSIZE in *; lia).
    rewrite (loop_next _ _ _ _ _ _ E). rewrite MAXVA_val in Hmax.
    rewrite u64_id by (unfold PGSIZE in *; lia).
    assert (∀ k, 0 ≤ k < Z.of_nat n →
      pte_of s1 T (a + PGSIZE + k * PGSIZE) = pte_of s T (a + PGSIZE + k * PGSIZE)) as Hsame.
    { intros k Hk. rewrite Hpte1 by (rewrite MAXVA_val; unfold PGSIZE in *; lia).
      apply set_pte_far; [done|lia]. }
    destruct (IH s1 T l1 (a + PGSIZE) fuel) as (s2 & l2 & E2 & Hok2 & R2 & Hpte2);
      try done; try (rewrite ?MAXVA_val; unfold PGSIZE in *; (lia || zdm)).
    + apply R1.
    + intros k Hk. rewrite Hsame by done. specialize (Hmap (k + 1) ltac:(lia)).
      by replace (a + (k + 1) * PGSIZE) with (a + PGSIZE + k * PGSIZE) in Hmap by lia.
    + intros ->. specialize (Hdrop eq_refl). simpl in Hdrop.
      rewrite (run_pas_ext (pte_of s1 T) (pte_of s T)) by exact Hsame. by eapply droppable_tail.
    + exists s2, l2. split; [done|]. split; [done|]. split.
      * rewrite (run_pas_ext (pte_of s1 T) (pte_of s T)) in R2 by exact Hsame.
        destruct do_free; [|by apply (released_trans s T l s1 l1 s2 l2 [] []); [..|set_solver]].
        apply (released_trans s T l s1 l1 s2 l2 [PTE2PA (pte_of s T a)]); [done..|].
        intros x Hx. specialize (Hdrop eq_refl). unfold droppable in Hdrop.
        rewrite Forall_forall in Hdrop. by apply Hdrop.
      * intros v Hva. rewrite Hpte2 by done.
        replace (Z.of_nat (S n)) with (Z.of_nat n + 1) by lia. rewrite <- clear_run_step by lia.
        unfold clear_run. case_decide; [done|]. by apply Hpte1.
Qed.

(** [uvmunmap] removes the mappings of the range and, with [do_free], drops one reference
    to each page mapped there. *)
Lemma uvmunmap_ok s root T l va n do_free :
  pt_ok s root T → kmem_inv s l → 0 ≤ va → va mod PGSIZE = 0 →
  va + Z.of_nat n * PGSIZE ≤ MAXVA → mapped_run (pte_of s T) va n →
  (do_free = true → droppable s T (run_pas (pte_of s T) va n)) →
  ∃ s' l', uvmunmap root va (Z.of_nat n) do_free s = Ret tt s' ∧
    pt_ok s' root T ∧
    released s T l s' l' (if do_free then run_pas (pte_of s T) va n else []) ∧
    (∀ v, 0 ≤ v < MAXVA → pte_of s' T v = clear_run va (Z.of_nat n) (pte_of s T) v).
Proof.
  intros Hok Hinv Hva Hal Hmax Hmap Hdrop. unfold uvmunmap. rewrite Hal. simpl.
  apply uvmunmap_loop; try done; [lia|].
  rewrite MAXVA_val in Hmax. rewrite !u64_id; unfold PGSIZE in *; try lia.
  rewrite u64_id; lia.
Qed.

End addrspace.
