(* ===== verification/Cow.v ===== *)
(** Copy-on-write: the fault handler [cow_fault_handler] (vm.c) with [update] (kalloc.c),
    and the sharing fork of [uvmcopy] (vm.c). *)

From S2P Require Import Prelude Mem Riscv Kalloc Vm PageTable AddrSpace.

(** The entry [update] installs for the page at [pa]. *)
Definition cow_pte (pa flags : Z) : Z := pte_of_page pa (Z.lor (cow_flags flags) PTE_V).

(** The entry a forked child gets for the parent's entry [v], and the parent's own. *)
Definition child_pte (v : Z) : Z :=
  pte_of_page (PTE2PA v) (if bit v 2 then share_flags (PTE_FLAGS v) else PTE_FLAGS v).
Definition parent_pte (v : Z) : Z := if bit v 2 then child_pte v else v.

(** The bytes of the page at [x] are those of the page at [y] in [s]. *)
Definition page_copied (s s' : kmem) (x y : Z) : Prop :=
  ∀ k, 0 ≤ k < PGSIZE → rd (ram s') (x + k) = rd (ram s) (y + k).

Section cow.
Context `{KernelImageOk}.

(** * Flags *)

Lemma bit_small f n : 0 ≤ f < 1024 → 10 ≤ n → bit f n = false.
Proof.
  intros. destruct (decide (f = 0)) as [->|]; [apply Z.bits_0|].
  apply Z.bits_above_log2; [lia|]. enough (Z.log2 f < 10) by lia. apply Z.log2_lt_pow2; lia.
Qed.

Lemma PTE_W_bits n : bit PTE_W n = bool_decide (n = 2).
Proof. unfold PTE_W. rewrite Z.shiftl_1_l, Z.pow2_bits_eqb by lia. case_bool_decide; lia. Qed.
Lemma PTE_V_bits n : bit PTE_V n = bool_decide (n = 0).
Proof. unfold PTE_V. rewrite Z.shiftl_1_l, Z.pow2_bits_eqb by lia. case_bool_decide; lia. Qed.
Lemma PTE_R_bits n : bit PTE_R n = bool_decide (n = 1).
Proof. unfold PTE_R. rewrite Z.shiftl_1_l, Z.pow2_bits_eqb by lia. case_bool_decide; lia. Qed.
Lemma PTE_COW_bits n : bit PTE_COW n = bool_decide (n = 8).
Proof. unfold PTE_COW. rewrite Z.shiftl_1_l, Z.pow2_bits_eqb by lia. case_bool_decide; lia. Qed.

Lemma cow_flags_bound f : 0 ≤ f < 1024 → 0 ≤ cow_flags f < 1024.
Proof. intros. apply flags_land, flags_lor; [done|]. change PTE_W with 4. lia. Qed.

Lemma share_flags_bound f : 0 ≤ f < 1024 → 0 ≤ share_flags f < 1024.
Proof.
  intros. apply flags_lor; [apply flags_lor; [by apply flags_land|]|];
    [change PTE_R with 2; lia|change PTE_COW with 256; lia].
Qed.

(** What the two flag computations do, bit by bit. *)
Lemma cow_flags_bit f n : 0 ≤ n →
  bit (cow_flags f) n = if decide (n = 8) then false else if decide (n = 2) then true else bit f n.
Proof.
  intros. unfold cow_flags.
  rewrite Z.land_spec, Z.lor_spec, Z.lnot_spec, PTE_W_bits, PTE_COW_bits by done.
  repeat case_decide; repeat case_bool_decide; try lia; simpl;
    by rewrite ?orb_true_r, ?orb_false_r, ?andb_true_r, ?andb_false_r.
Qed.

Lemma share_flags_bit f n : 0 ≤ n →
  bit (share_flags f) n =
  if decide (n = 2) then false else if decide (n = 1 ∨ n = 8) then true else bit f n.
Proof.
  intros. unfold share_flags.
  rewrite !Z.lor_spec, Z.land_spec, Z.lnot_spec, PTE_W_bits, PTE_R_bits, PTE_COW_bits by done.
  repeat case_decide; repeat case_bool_decide; try lia; simpl;
    by rewrite ?orb_true_r, ?orb_false_r, ?andb_true_r, ?andb_false_r.
Qed.

Lemma flags_V f : bit f 0 = true → Z.lor f PTE_V = f.
Proof.
  intros Hf. apply Z.bits_inj'. intros n Hn. rewrite Z.lor_spec, PTE_V_bits.
  case_bool_decide; subst; [by rewrite Hf|by rewrite orb_false_r].
Qed.

Lemma cow_pte_bits pa f n :
  0 ≤ pa < 2 ^ 64 → 0 ≤ f < 1024 → 0 ≤ n < 10 →
  bit (cow_pte pa f) n =
  if decide (n = 0 ∨ n = 2) then true else if decide (n = 8) then false else bit f n.
Proof.
  intros. unfold cow_pte. rewrite bit_pte_of_page; [|done| |done].
  2:{ apply flags_lor; [by apply cow_flags_bound|apply PTE_V_flag]. }
  rewrite Z.lor_spec, cow_flags_bit, PTE_V_bits by lia.
  repeat case_decide; repeat case_bool_decide; try lia; subst; simpl;
    by rewrite ?orb_true_r, ?orb_false_r.
Qed.

(** * Working under the lock *)

Lemma pt_ok_lock b s root T : pt_ok (set_kmem_locked b s) root T ↔ pt_ok s root T.
Proof. split; intros [???????]; by constructor. Qed.

(** A walk that finds every level allocates nothing. *)
Lemma walk_hit s root T va alloc a :
  pt_ok s root T → 0 ≤ va < MAXVA → pt_lookup T va = Some a → walk root va alloc s = Ret a s.
Proof.
  intros Hok Hva Ha. unfold walk. rewrite (proj2 (Z.leb_gt _ _)) by lia.
  destruct (pt_lookup_slot s root T va a Hok ltac:(lia) Ha) as (p & Hp & -> & _).
  destruct (pt_parent _ _ _ Hok [PX 2 va] (PX 1 va) p Hp) as [p1 Hp1].
  rewrite (walk_from_child s root T [] root va alloc 1 p1 Hok (pt_root _ _ _ Hok)
    ltac:(simpl; lia) ltac:(lia) Hp1).
  by rewrite (walk_from_child s root T [PX 2 va] p1 va alloc 0 p Hok Hp1 ltac:(simpl; lia) ltac:(lia) Hp).
Qed.

(** [mappages] over an existing leaf entry just overwrites it, whether or not the
    allocator's lock is held. *)
Lemma mappages_hit s root T l va pa perm a :
  pt_ok s root T → free_ok s l → va mod PGSIZE = 0 → 0 ≤ va < MAXVA → pt_lookup T va = Some a →
  0 ≤ pa < 2 ^ 64 → 0 ≤ perm < 1024 →
  ∃ s', mappages root va PGSIZE pa perm s = Ret 0 s' ∧ pt_ok s' root T ∧ free_ok s' l ∧
    ref_count s' = ref_count s ∧ kmem_locked s' = kmem_locked s ∧
    (∀ x, ¬ in_pages T x → rd (ram s') x = rd (ram s) x) ∧
    (∀ v, 0 ≤ v < MAXVA →
       pte_of s' T v = set_pte va (pte_of_page pa (Z.lor perm PTE_V)) (pte_of s T) v).
Proof.
  intros Hok Hf Hal Hva Ha Hpa Hperm.
  set (u := set_kmem_locked false s).
  destruct (pt_store u root T l va a (pte_of_page pa (Z.lor perm PTE_V)))
    as (u' & E & Hrc & G); try done.
  { by apply pt_ok_lock. } { split; [by apply free_ok_lock|done]. }
  { apply pte_of_page_bound; [done|]. apply flags_lor; [done|apply PTE_V_flag]. }
  assert (store64 a (pte_of_page pa (Z.lor perm PTE_V)) s =
    Ret tt (set_kmem_locked (kmem_locked s) u')) as E'.
  { unfold store64 in *. simpl in *. destruct (writable a 8); [|done]. injection E as <-.
    by destruct s. }
  exists (set_kmem_locked (kmem_locked s) u'). split.
  - unfold mappages. rewrite Hal. simpl. change (Z.to_nat (PGSIZE / PGSIZE)) with 1%nat.
    apply loop_done. unfold mappages_body. msimpl.
    rewrite (walk_hit s root T va true a) by done. msimpl.
    destruct (pt_lookup_slot s root T va a Hok ltac:(lia) Ha) as (p & Hp & -> & Hpp & Hi).
    pose proof (pt_slot_range p _ Hpp Hi) as (_ & _ & _ & _ & _ & Hnz).
    rewrite (proj2 (Z.eqb_neq _ 0)) by done. rewrite <- Z.lor_assoc.
    fold (pte_of_page pa (Z.lor perm PTE_V)). rewrite E'. msimpl.
    rewrite MAXVA_val in Hva. rewrite u64_id by (unfold PGSIZE; lia).
    rewrite (proj2 (Z.eqb_eq va (va + PGSIZE - PGSIZE))) by lia. done.
  - split_and!; try done.
    + apply pt_ok_lock, G.
    + apply free_ok_lock, G.
    + apply (g_mem _ _ _ _ _ _ _ _ G).
    + apply (g_pte _ _ _ _ _ _ _ _ G).
Qed.

(** Changes confined to a page that was free do not touch a table. *)
Lemma pt_ok_fresh s s' root T x :
  pt_ok s root T → is_page x → refs s x = 0 → same_outside x (ram s) (ram s') →
  same_refs_but x s s' → pt_ok s' root T ∧ (∀ va, 0 ≤ va → pte_of s' T va = pte_of s T va).
Proof.
  intros Hok Hx Hr Hm Hrs.
  assert (∀ q, pt_page T q → q ≠ x) as Hne.
  { intros q [path Hq] ->. pose proof (pt_ref _ _ _ Hok _ _ Hq). lia. }
  assert (∀ a, in_pages T a → rd (ram s') a = rd (ram s) a) as Hf.
  { intros a (q & Hq & Ha). apply Hm. pose proof (pt_page_is_page _ _ _ _ Hok Hq) as Hqp.
    destruct (is_page_disjoint q x Hqp Hx (Hne q Hq)); lia. }
  split; [|intros; by eapply pte_of_frame].
  apply (pt_ok_frame s); [done| |done]. intros q Hq. apply Hrs. intros E.
  apply ref_index_inj in E; [by destruct (Hne q Hq)|by eapply pt_page_is_page|done].
Qed.

(** What [update] leaves behind after giving [va] the private page [x] instead of [pa]. *)
Record cow_copied (s : kmem) (root : Z) (T : ptree) (l : list Z) (va pa x flags : Z) (s' : kmem) : Prop := {
  cc_pt : pt_ok s' root T;
  cc_inv : kmem_inv s' l;
  cc_pte : ∀ v, 0 ≤ v < MAXVA → pte_of s' T v = set_pte va (cow_pte x flags) (pte_of s T) v;
  cc_ref_old : refs s' pa = refs s pa - 1;
  cc_ref_new : refs s' x = 1;
  cc_refs : ∀ y, is_page y → y ≠ pa → y ≠ x → refs s' y = refs s y;
  cc_copy : page_copied s s' x pa;
  cc_mem : ∀ a, ¬ in_pages T a → ¬ (x ≤ a < x + PGSIZE) → rd (ram s') a = rd (ram s) a;
}.

Lemma update_shared s root T l x va pa flags a :
  pt_ok s root T → kmem_inv s (x :: l) → va mod PGSIZE = 0 → 0 ≤ va < MAXVA →
  pt_lookup T va = Some a → is_page pa → ¬ pt_page T pa → 1 < refs s pa < 2 ^ 31 →
  0 ≤ flags < 1024 →
  ∃ s', update root va pa flags s = Ret 0 s' ∧ cow_copied s root T l va pa x flags s'.
Proof.
  intros Hok [Hf Hlk] Hal Hva Ha Hpa Hnpt Hr Hfl.
  pose proof (is_page_ref_index pa Hpa). pose proof (is_page_range pa Hpa) as (? & ? & ?).
  set (s1 := set_kmem_locked true s).
  destruct (kalloc_no_lock_cons s1 x l) as (s2 & E2 & P2); [by apply free_ok_lock|].
  pose proof (ka_page _ _ _ _ P2) as Hx. pose proof (is_page_range x Hx) as (? & ? & ?).
  assert (refs s x = 0) as Hx0.
  { pose proof (inv_free _ _ Hf) as Hz. by apply Forall_cons in Hz as [Hz _]. }
  assert (x ≠ pa) as Hxpa by (intros ->; lia).
  set (s3 := set_ram (memmove (ram s2) x pa PGSIZE) s2).
  assert (same_outside x (ram s) (ram s3)) as Hso.
  { intros b Hb. simpl. rewrite rd_memmove_out by (unfold PGSIZE in *; lia).
    by apply (ka_mem _ _ _ _ P2). }
  destruct (pt_ok_fresh s s3 root T x Hok Hx Hx0 Hso) as [Hok3 Hpte3].
  { intros y Hy. by apply (ka_refs _ _ _ _ P2). }
  assert (free_ok s3 l) as Hf3.
  { apply free_ok_set_ram; [apply P2|]. intros q Hq b Hb. apply rd_memmove_out; [unfold PGSIZE; lia|].
    pose proof (inv_pages _ _ (ka_ok _ _ _ _ P2)) as Hpg. rewrite Forall_forall in Hpg.
    destruct (is_page_disjoint q x (Hpg q Hq) Hx); [|lia..].
    intros ->. by apply (ka_fresh _ _ _ _ P2). }
  destruct (mappages_hit s3 root T l va x (cow_flags flags) a) as
    (s4 & E4 & Hok4 & Hf4 & Hrc4 & Hlk4 & Hm4 & Hpte4); try done.
  { by apply is_page_u64. } { by apply cow_flags_bound. }
  assert (refs s4 pa = refs s pa) as Hr4.
  { rewrite (refs_ext s3) by done. apply (ka_refs _ _ _ _ P2). intros E.
    by apply ref_index_inj in E. }
  destruct (kfree_no_lock_spec s4 pa l Hf4 Hpa) as (s5 & E5 & [Ho Hre Hrs Hm5 Hkeep Hlk5]).
  { apply (in_use_not_free s4); [done|lia]. } { lia. }
  rewrite Hr4 in *. rewrite decide_False in Ho by lia. specialize (Hkeep ltac:(lia)).
  exists (set_kmem_locked false s5). split.
  - unfold update, acquire_kmem. msimpl. rewrite Hlk. msimpl. fold s1.
    unfold get_ref_count. rewrite ref_get_ok by done. msimpl.
    change (default 0 (ref_count s1 !! ref_index pa)) with (refs s pa).
    rewrite (proj2 (Z.ltb_lt 1 _)) by lia. msimpl. rewrite E2. msimpl.
    rewrite mmove_ok by (done || unfold PGSIZE; lia). msimpl. fold s3. rewrite E4. msimpl.
    rewrite E5. msimpl. unfold release_kmem. rewrite Hlk5, Hlk4. change (kmem_locked s3) with (kmem_locked s2).
    by rewrite (ka_lock _ _ _ _ P2).
  - assert (∀ q, pt_page T q → is_page q) as Htp by (intros; by eapply pt_page_is_page).
    constructor.
    + apply pt_ok_lock. apply (pt_ok_frame s4); [by rewrite Hkeep| |done].
      intros q Hq. apply Hrs. intros E. apply ref_index_inj in E; [by subst|by apply Htp|done].
    + split; [by apply free_ok_lock|done].
    + intros v Hv. change (pte_of (set_kmem_locked false s5) T v) with (pte_of s5 T v).
      replace (pte_of s5 T v) with (pte_of s4 T v) by (unfold pte_of; by rewrite Hkeep).
      rewrite Hpte4 by done. unfold set_pte. case_decide; [done|]. apply Hpte3. lia.
    + done.
    + change (refs s5 x = 1). rewrite Hrs.
      * rewrite (refs_ext s3) by done. apply P2.
      * intros E. by apply ref_index_inj in E.
    + intros y Hy Hyp Hyx. change (refs s5 y = refs s y).
      rewrite Hrs by (intros E; by apply ref_index_inj in E).
      rewrite (refs_ext s3) by done. apply (ka_refs _ _ _ _ P2). intros E. by apply ref_index_inj in E.
    + intros k Hk. change (rd (ram s5) (x + k) = rd (ram s) (pa + k)). rewrite Hkeep, Hm4.
      * simpl. rewrite rd_memmove by (unfold PGSIZE; lia). rewrite decide_True by lia.
        replace (pa + (x + k - x)) with (pa + k) by lia. apply (ka_mem _ _ _ _ P2).
        destruct (is_page_disjoint pa x Hpa Hx); [congruence|lia..].
      * intros (q & [path Hq] & Hqa).
        assert (q = x) as -> by (eapply page_unique; [apply Htp; by eexists|done|done|lia]).
        pose proof (pt_ref _ _ _ Hok _ _ Hq). lia.
    + intros b Hb Hbx. change (rd (ram s5) b = rd (ram s) b). rewrite Hkeep, Hm4 by done.
      apply Hso. lia.
Qed.

(** With no free page, [update] copies to address 0 and faults. *)
Lemma update_oom s root va pa flags :
  kmem_inv s [] → is_page pa → 1 < refs s pa →
  update root va pa flags s = Fault "page fault in memmove".
Proof.
  intros [Hf Hlk] Hpa Hr. unfold update, acquire_kmem. msimpl. rewrite Hlk. msimpl.
  unfold get_ref_count. rewrite ref_get_ok by (by apply is_page_ref_index). msimpl.
  change (default 0 (ref_count (set_kmem_locked true s) !! ref_index pa)) with (refs s pa).
  rewrite (proj2 (Z.ltb_lt 1 _)) by lia. msimpl.
  rewrite kalloc_no_lock_empty by (by apply free_ok_lock). msimpl.
  unfold mmove, writable. pose proof etext_range. rewrite (proj2 (Z.leb_gt etext 0)); [done|].
  unfold KERNBASE in *. lia.
Qed.

(** A page nobody else refers to is made writable in place. *)
Lemma update_unshared s root T l va pa flags a :
  pt_ok s root T → kmem_inv s l → va mod PGSIZE = 0 → 0 ≤ va < MAXVA →
  pt_lookup T va = Some a → is_page pa → refs s pa = 1 → 0 ≤ flags < 1024 →
  ∃ s', update root va pa flags s = Ret 0 s' ∧ pt_ok s' root T ∧ kmem_inv s' l ∧
    ref_count s' = ref_count s ∧
    (∀ b, ¬ in_pages T b → rd (ram s') b = rd (ram s) b) ∧
    (∀ v, 0 ≤ v < MAXVA → pte_of s' T v = set_pte va (cow_pte pa flags) (pte_of s T) v).
Proof.
  intros Hok [Hf Hlk] Hal Hva Ha Hpa Hr Hfl. pose proof (is_page_ref_index pa Hpa).
  set (s1 := set_kmem_locked true s).
  destruct (mappages_hit s1 root T l va pa (cow_flags flags) a) as
    (s2 & E2 & Hok2 & Hf2 & Hrc2 & Hlk2 & Hm2 & Hpte2); try done.
  { by apply pt_ok_lock. } { by apply free_ok_lock. } { by apply is_page_u64. }
  { by apply cow_flags_bound. }
  exists (set_kmem_locked false s2). split.
  - unfold update, acquire_kmem. msimpl. rewrite Hlk. msimpl. fold s1.
    unfold get_ref_count. rewrite ref_get_ok by done. msimpl.
    change (default 0 (ref_count s1 !! ref_index pa)) with (refs s pa). rewrite Hr. simpl. msimpl.
    rewrite ref_get_ok by done. msimpl.
    change (default 0 (ref_count s1 !! ref_index pa)) with (refs s pa). rewrite Hr. simpl. msimpl.
    rewrite E2. msimpl. unfold release_kmem. by rewrite Hlk2.
  - split_and!; try done; [by apply pt_ok_lock|split; [by apply free_ok_lock|done]].
Qed.

End cow.
