(* ===== verification/Fork.v ===== *)
(** The address-space copy of fork: [uvmcopy] (vm.c) shares every page of the parent with
    the child, read-only and marked copy-on-write, and counts the new references; if it
    runs out of page-table pages it drops the references it had taken. *)

From S2P Require Import Prelude Mem Riscv Kalloc Vm PageTable AddrSpace Cow.

Section fork.
Context `{KernelImageOk}.

(** Two tables share no page. *)
Definition pt_disjoint (T1 T2 : ptree) : Prop := ∀ p, pt_page T1 p → ¬ pt_page T2 p.

(** Building one table does not disturb another. *)
Lemma evolves_other s r1 T1 r2 T2 l s' T2' l' f :
  pt_ok s r1 T1 → kmem_inv s l → pt_disjoint T1 T2 → evolves r2 s T2 l s' T2' l' f →
  pt_ok s' r1 T1 ∧ (∀ va, 0 ≤ va → pte_of s' T1 va = pte_of s T1 va) ∧ pt_disjoint T1 T2'.
Proof.
  intros Hok [Hf _] Hd G.
  assert (pt_disjoint T1 T2') as Hd'.
  { intros p Hp [path Hp']. destruct (g_new _ _ _ _ _ _ _ _ G _ _ Hp') as [Hq|Hq].
    - apply (Hd p); [done|by eexists].
    - by apply (pt_page_not_free s r1 T1 l p). }
  assert (∀ a, in_pages T1 a → rd (ram s') a = rd (ram s) a) as Hframe.
  { intros a (p & Hp & Ha). apply (g_mem _ _ _ _ _ _ _ _ G). intros (q & Hq & Hqa).
    assert (q = p) as -> by
      (eapply page_unique; [eapply pt_page_is_page; [apply G|done]|by eapply pt_page_is_page|done..]).
    by apply (Hd' p). }
  split; [|split; [|done]].
  - apply (pt_ok_frame s); [done| |done]. intros p [path Hp].
    apply (g_refs _ _ _ _ _ _ _ _ G); [by eapply pt_is_page|]. by rewrite (pt_ref _ _ _ Hok _ _ Hp).
  - intros va Hva. by eapply pte_of_frame.
Qed.

Lemma table_frame s s' r1 T1 r2 T2 :
  pt_ok s r1 T1 → pt_ok s r2 T2 → pt_disjoint T1 T2 →
  (∀ a, ¬ in_pages T2 a → rd (ram s') a = rd (ram s) a) →
  (∀ p, pt_page T1 p → refs s' p = refs s p) →
  pt_ok s' r1 T1 ∧ (∀ va, 0 ≤ va → pte_of s' T1 va = pte_of s T1 va).
Proof.
  intros Hok1 Hok2 Hd Hm Hr.
  assert (∀ a, in_pages T1 a → rd (ram s') a = rd (ram s) a) as Hframe.
  { intros a (p & Hp & Ha). apply Hm. intros (q & Hq & Hqa).
    assert (q = p) as -> by (eapply page_unique; [by eapply (pt_page_is_page s r2)|by eapply (pt_page_is_page s r1)|done|done]).
    by apply (Hd p). }
  split; [by apply (pt_ok_frame s)|]. intros va Hva. by eapply pte_of_frame.
Qed.

Lemma pt_disjoint_sym T1 T2 : pt_disjoint T1 T2 → pt_disjoint T2 T1.
Proof. intros Hd p H2 H1. by apply (Hd p). Qed.

(** Taking a reference to a page in use. *)
Lemma incr_ok s l pa :
  kmem_inv s l → is_page pa → 0 < refs s pa < 2 ^ 31 - 1 →
  ∃ s', lock_update_ref_count pa 1 s = Ret tt s' ∧ kmem_inv s' l ∧ ram s' = ram s ∧
    refs s' pa = refs s pa + 1 ∧ same_refs_but pa s s'.
Proof.
  intros [Hf Hlk] Hpa Hr. pose proof (is_page_ref_index pa Hpa).
  unfold lock_update_ref_count, acquire_kmem. msimpl. rewrite Hlk. msimpl.
  rewrite update_ref_count_ok by auto. msimpl. unfold release_kmem. simpl.
  change (refs (set_kmem_locked true s) pa) with (refs s pa).
  rewrite i32_id by lia. eexists. split; [done|]. split_and!; try done.
  - split; [|done]. apply free_ok_lock.
    apply (free_ok_set_ref (set_kmem_locked true s)); [by apply free_ok_lock|done|].
    apply (in_use_not_free s); [done|lia].
  - unfold refs at 1. simpl. rewrite lookup_insert_eq. simpl. lia.
  - intros x Hx. unfold refs. simpl. by rewrite lookup_insert_ne.
Qed.

Lemma incr_pt s s' root T pa :
  pt_ok s root T → ¬ pt_page T pa → is_page pa → ram s' = ram s → same_refs_but pa s s' →
  pt_ok s' root T ∧ (∀ va, pte_of s' T va = pte_of s T va).
Proof.
  intros Hok Hn Hpa Hram Hrs. split; [|intros va; unfold pte_of; by rewrite Hram].
  apply (pt_ok_frame s); [by rewrite Hram| |done]. intros p Hp. apply Hrs. intros E.
  apply ref_index_inj in E; [by subst|by eapply pt_page_is_page|done].
Qed.

Lemma run_pas_snoc f a n :
  run_pas f a (S n) = run_pas f a n ++ [PTE2PA (f (a + Z.of_nat n * PGSIZE))].
Proof.
  revert a. induction n as [|n IH]; intros a; [simpl; by rewrite Z.add_0_r|].
  change (run_pas f a (S (S n))) with (PTE2PA (f a) :: run_pas f (a + PGSIZE) (S n)).
  rewrite IH. cbn [run_pas app].
  by replace (a + PGSIZE + Z.of_nat n * PGSIZE) with (a + Z.of_nat (S n) * PGSIZE) by lia.
Qed.

Lemma run_pas_same f g a n :
  (∀ j, (j < n)%nat → PTE2PA (f (a + Z.of_nat j * PGSIZE)) = PTE2PA (g (a + Z.of_nat j * PGSIZE))) →
  run_pas f a n = run_pas g a n.
Proof.
  induction n as [|n IH]; intros Hfg; [done|]. rewrite !run_pas_snoc, IH, Hfg; try lia; [done|].
  intros j Hj. apply Hfg. lia.
Qed.

Lemma occ_snoc L y x : occ (L ++ [y]) x = occ L x + (if decide (y = x) then 1 else 0).
Proof. unfold occ. rewrite count_occ_app. simpl. destruct (Z.eq_dec y x), (decide (y = x)); try done; lia. Qed.

(** * The loop *)

(** The parent's entries for the [n] pages of its memory are leaf mappings of pages that
    are in use, not table pages, and not referred to too often. *)
Record parent_ok (s : kmem) (T1 T2 : ptree) (n : nat) : Prop := {
  pa_mapped : mapped_run (pte_of s T1) 0 n;
  pa_pages : Forall (λ x, is_page x ∧ ¬ pt_page T1 x ∧ ¬ pt_page T2 x ∧
                          0 < refs s x ∧ refs s x + occ (run_pas (pte_of s T1) 0 n) x < 2 ^ 31)
                    (run_pas (pte_of s T1) 0 n);
}.

(** The state after [k] pages have been shared. *)
Record sharing (s0 : kmem) (r1 r2 : Z) (T1 T20 : ptree) (l0 : list Z) (k : nat)
    (s : kmem) (T2 : ptree) (l : list Z) : Prop := {
  sh_pt1 : pt_ok s r1 T1;
  sh_pt2 : pt_ok s r2 T2;
  sh_inv : kmem_inv s l;
  sh_disj : pt_disjoint T1 T2;
  sh_new : ∀ p, pt_page T2 p → pt_page T20 p ∨ p ∈ l0;
  sh_suffix : l `suffix_of` l0;
  sh_pte1 : ∀ v, 0 ≤ v < MAXVA → pte_of s T1 v =
    if decide (v / PGSIZE < Z.of_nat k) then parent_pte (pte_of s0 T1 v) else pte_of s0 T1 v;
  sh_pte2 : ∀ v, 0 ≤ v < MAXVA → pte_of s T2 v =
    if decide (v / PGSIZE < Z.of_nat k) then child_pte (pte_of s0 T1 v) else pte_of s0 T20 v;
  sh_refs : ∀ x, is_page x → 0 < refs s0 x →
    refs s x = refs s0 x + occ (run_pas (pte_of s0 T1) 0 k) x;
  sh_mem : ∀ a, ¬ in_pages T1 a → ¬ in_pages T2 a → rd (ram s) a = rd (ram s0) a;
}.

Lemma sharing_init s r1 r2 T1 T2 l :
  pt_ok s r1 T1 → pt_ok s r2 T2 → kmem_inv s l → pt_disjoint T1 T2 →
  sharing s r1 r2 T1 T2 l 0 s T2 l.
Proof.
  intros. constructor; try done.
  - by left.
  - intros v Hv. rewrite decide_False; [done|]. unfold PGSIZE in *. zdm.
  - intros v Hv. rewrite decide_False; [done|]. unfold PGSIZE in *. zdm.
  - intros x _ _. simpl. change (occ [] x) with 0. lia.
Qed.

(** The flags [uvmcopy] maps the page with in the child. *)
Definition new_flags (v : Z) : Z := if bit v 2 then share_flags (PTE_FLAGS v) else PTE_FLAGS v.

Lemma new_flags_bound v : 0 ≤ new_flags v < 1024.
Proof.
  unfold new_flags. pose proof (PTE_FLAGS_bound v). destruct (bit v 2); [by apply share_flags_bound|done].
Qed.

Lemma new_flags_valid v : bit v 0 = true → Z.lor (new_flags v) PTE_V = new_flags v.
Proof.
  intros Hv. apply flags_V. unfold new_flags. destruct (bit v 2).
  - rewrite share_flags_bit by lia. repeat case_decide; try lia. by rewrite bit_PTE_FLAGS by lia.
  - by rewrite bit_PTE_FLAGS by lia.
Qed.

(** Rewriting the parent's entry: nothing, or the shared flags if it was writable. *)
Lemma uvmcopy_parent s r1 T1 l i a :
  pt_ok s r1 T1 → kmem_inv s l → 0 ≤ i < MAXVA → pt_lookup T1 i = Some a →
  is_page (PTE2PA (pte_of s T1 i)) →
  ∃ s', (if bit (pte_of s T1 i) 2
         then store64 a (Z.lor (PA2PTE (PTE2PA (pte_of s T1 i))) (share_flags (PTE_FLAGS (pte_of s T1 i))))
         else λ s0, Ret tt s0) s = Ret tt s' ∧ ref_count s' = ref_count s ∧
    evolves r1 s T1 l s' T1 l (set_pte i (parent_pte (pte_of s T1 i)) (pte_of s T1)).
Proof.
  intros Hok Hinv Hi Ha Hpa. unfold parent_pte, child_pte. destruct (bit (pte_of s T1 i) 2) eqn:Ew.
  - destruct (pt_store s r1 T1 l i a (pte_of_page (PTE2PA (pte_of s T1 i))
      (share_flags (PTE_FLAGS (pte_of s T1 i))))) as (s' & E & Hrc & G); try done.
    { apply pte_of_page_bound; [by apply is_page_u64|apply share_flags_bound, PTE_FLAGS_bound]. }
    exists s'. done.
  - exists s. split; [done|]. split; [done|].
    eapply evolves_ext; [|apply grows_refl; done]. intros v Hv. unfold set_pte.
    case_decide as E; [|done]. unfold pte_of, pt_lookup.
    rewrite (PX_page 2 v i), (PX_page 1 v i), (PX_page 0 v i) by (done || lia). done.
Qed.

(** One round of the loop, its two branches joined. *)
Lemma uvmcopy_body_eq s r1 r2 T1 sz i a :
  pt_ok s r1 T1 → 0 ≤ i < MAXVA → i < sz → pt_lookup T1 i = Some a →
  bit (pte_of s T1 i) 0 = true →
  let v := pte_of s T1 i in
  uvmcopy_body r1 r2 sz i s =
  res_bind ((if bit v 2 then store64 a (Z.lor (PA2PTE (PTE2PA v)) (share_flags (PTE_FLAGS v)))
             else λ s0, Ret tt s0) s)
    (λ _ s1, res_bind (mappages r2 i PGSIZE (PTE2PA v) (new_flags v) s1)
       (λ r, if negb (r =? 0) then uvmcopy_err r2 i
             else λ s2, res_bind (lock_update_ref_count (PTE2PA v) 1 s2)
                    (λ _ s3, Ret (inl (u64 (i + PGSIZE))) s3))).
Proof.
  intros Hok Hi Hsz Ha Hv. cbv zeta.
  destruct (pt_lookup_slot s r1 T1 i a Hok ltac:(lia) Ha) as (p & Hp & Ea & Hpp & Hpx).
  pose proof (pt_slot_range p _ Hpp Hpx) as (? & ? & ? & _ & _ & ?). rewrite <- Ea in *.
  assert (pte_of s T1 i = read64 (ram s) a) as Ev by (unfold pte_of; by rewrite Ha).
  unfold uvmcopy_body. rewrite (proj2 (Z.ltb_lt _ _)) by done. msimpl.
  rewrite (walk_ro s r1 T1 i Hok Hi), Ha. msimpl. cbn [default from_option id].
  rewrite (proj2 (Z.eqb_neq a 0)) by done. msimpl. rewrite load64_ok by done. msimpl.
  rewrite <- Ev. rewrite land_PTE_V, Hv. msimpl. rewrite land_PTE_W.
  unfold new_flags. destruct (bit (pte_of s T1 i) 2); reflexivity.
Qed.

Section step.
Context (s0 : kmem) (r1 r2 : Z) (T1 T20 : ptree) (l0 : list Z) (n : nat).
Hypothesis Hinv0 : kmem_inv s0 l0.
Hypothesis Hpar : parent_ok s0 T1 T20 n.
Hypothesis Hmax : Z.of_nat n * PGSIZE ≤ MAXVA.

Local Abbreviation pas k := (run_pas (pte_of s0 T1) 0 k).

(** The parent's [k]th page. *)
Lemma parent_page k :
  (k < n)%nat →
  let v := pte_of s0 T1 (Z.of_nat k * PGSIZE) in
  bit v 0 = true ∧ PTE_FLAGS v ≠ PTE_V ∧ is_page (PTE2PA v) ∧ ¬ pt_page T1 (PTE2PA v) ∧
  ¬ pt_page T20 (PTE2PA v) ∧ 0 < refs s0 (PTE2PA v) ∧
  refs s0 (PTE2PA v) + occ (pas n) (PTE2PA v) < 2 ^ 31 ∧ PTE2PA v ∈ pas n.
Proof.
  intros Hk v. destruct (pa_mapped _ _ _ _ Hpar (Z.of_nat k) ltac:(lia)) as [Hv Hl].
  rewrite Z.add_0_l in Hv, Hl.
  assert (PTE2PA v ∈ pas n) as Hin.
  { unfold v. replace n with (k + S (n - k - 1))%nat by lia. clear Hpar Hmax Hv Hl Hk v.
    generalize (n - k - 1)%nat as m. intros m. rewrite <- (Z.add_0_l (Z.of_nat k * PGSIZE)).
    generalize 0 as a. induction k as [|k IH]; intros a; simpl.
    - rewrite Z.add_0_r. set_solver.
    - apply elem_of_cons. right. specialize (IH (a + PGSIZE)).
      by replace (a + PGSIZE + Z.of_nat k * PGSIZE) with (a + Z.of_nat (S k) * PGSIZE) in IH by lia. }
  pose proof (pa_pages _ _ _ _ Hpar) as Hp. rewrite Forall_forall in Hp.
  destruct (Hp _ Hin) as (? & ? & ? & ? & ?). done.
Qed.

Lemma pas_mono k x : (k ≤ n)%nat → occ (pas k) x ≤ occ (pas n) x.
Proof.
  intros Hk. replace n with (k + (n - k))%nat by lia.
  generalize (n - k)%nat as m. intros m. induction m as [|m IH]; [by rewrite Nat.add_0_r|].
  rewrite Nat.add_succ_r, run_pas_snoc, occ_snoc. case_decide; lia.
Qed.

Context (k : nat) (s : kmem) (T2 : ptree) (l : list Z) (sz : Z).
Hypothesis Hsh : sharing s0 r1 r2 T1 T20 l0 k s T2 l.
Hypothesis Hk : (k < n)%nat.
Hypothesis Hsz : Z.of_nat k * PGSIZE < sz.

Local Abbreviation i := (Z.of_nat k * PGSIZE).
Local Abbreviation v := (pte_of s0 T1 i).
Local Abbreviation pa := (PTE2PA v).

Local Lemma step_range : 0 ≤ i < MAXVA ∧ i / PGSIZE = Z.of_nat k ∧ i mod PGSIZE = 0.
Proof. rewrite MAXVA_val in *. unfold PGSIZE in *. zdm. Qed.

Local Lemma step_pte : pte_of s T1 i = v.
Proof.
  destruct step_range as (? & E & _). rewrite (sh_pte1 _ _ _ _ _ _ _ _ _ _ Hsh) by done.
  by rewrite decide_False by lia.
Qed.

Local Lemma step_refs : refs s pa = refs s0 pa + occ (pas k) pa.
Proof.
  destruct (parent_page k Hk) as (_ & _ & Hpg & _ & _ & Hr & _).
  apply (sh_refs _ _ _ _ _ _ _ _ _ _ Hsh); [done|lia].
Qed.

Local Lemma step_not_pt2 : ¬ pt_page T2 pa.
Proof.
  destruct (parent_page k Hk) as (_ & _ & Hpg & _ & Hn & Hr & _). intros Hp.
  apply (sh_new _ _ _ _ _ _ _ _ _ _ Hsh) in Hp as [|Hp]; [done|].
  revert Hp. apply (in_use_not_free s0); [apply Hinv0|lia].
Qed.

(** The state once the parent's entry has been rewritten. *)
Record parent_done (s1 : kmem) : Prop := {
  pd_pt1 : pt_ok s1 r1 T1;
  pd_pt2 : pt_ok s1 r2 T2;
  pd_inv : kmem_inv s1 l;
  pd_pte1 : ∀ w, 0 ≤ w < MAXVA → pte_of s1 T1 w =
    if decide (w / PGSIZE < Z.of_nat (S k)) then parent_pte (pte_of s0 T1 w) else pte_of s0 T1 w;
  pd_pte2 : ∀ w, 0 ≤ w < MAXVA → pte_of s1 T2 w = pte_of s T2 w;
  pd_refs : ref_count s1 = ref_count s;
  pd_mem : ∀ a, ¬ in_pages T1 a → rd (ram s1) a = rd (ram s) a;
}.

Lemma uvmcopy_step_parent :
  ∃ s1, parent_done s1 ∧
    uvmcopy_body r1 r2 sz i s =
    res_bind (mappages r2 i PGSIZE pa (new_flags v) s1)
       (λ r, if negb (r =? 0) then uvmcopy_err r2 i
             else λ s2, res_bind (lock_update_ref_count pa 1 s2)
                    (λ _ s3, Ret (inl (Z.of_nat (S k) * PGSIZE)) s3)).
Proof.
  destruct step_range as (Hi & Ei & _). destruct (parent_page k Hk) as (Hv & _ & Hpg & _).
  pose proof step_pte as Ep. rewrite <- Ep in Hv.
  destruct (pte_valid_lookup s T1 i Hv) as (a & Ha & _).
  pose proof (uvmcopy_body_eq s r1 r2 T1 sz i a (sh_pt1 _ _ _ _ _ _ _ _ _ _ Hsh) Hi Hsz Ha Hv) as Eb.
  cbv zeta in Eb. rewrite Eb.
  destruct (uvmcopy_parent s r1 T1 l i a) as (s1 & -> & Hrc & G); try done; try apply Hsh.
  { by rewrite Ep. }
  rewrite Ep. exists s1. split.
  2:{ cbn [res_bind]. rewrite MAXVA_val in *.
      replace (u64 (i + PGSIZE)) with (Z.of_nat (S k) * PGSIZE); [done|].
      rewrite u64_id by (unfold PGSIZE in *; lia). lia. }
  destruct (evolves_other s r2 T2 r1 T1 l s1 T1 l _ (sh_pt2 _ _ _ _ _ _ _ _ _ _ Hsh)
    (sh_inv _ _ _ _ _ _ _ _ _ _ Hsh) (pt_disjoint_sym _ _ (sh_disj _ _ _ _ _ _ _ _ _ _ Hsh)) G)
    as (Hok2 & Hpte2 & _).
  constructor; try done; try apply G.
  - intros w Hw. rewrite (g_pte _ _ _ _ _ _ _ _ G w Hw). unfold set_pte.
    rewrite Ep, Ei, (sh_pte1 _ _ _ _ _ _ _ _ _ _ Hsh) by done.
    destruct (decide (w / PGSIZE = Z.of_nat k)) as [Ew|Ew].
    + rewrite decide_True by lia. f_equal. unfold pte_of, pt_lookup.
      rewrite (PX_page 2 w i), (PX_page 1 w i), (PX_page 0 w i) by (done || lia). done.
    + repeat case_decide; try lia; done.
  - intros w Hw. apply Hpte2. lia.
Qed.

(** The pages shared so far, and the table pages added for them. *)
Local Lemma pas_page x :
  x ∈ pas k → is_page x ∧ ¬ pt_page T1 x ∧ ¬ pt_page T20 x ∧ 0 < refs s0 x ∧
    refs s0 x + occ (pas n) x < 2 ^ 31.
Proof.
  intros Hx. pose proof (pas_mono k x ltac:(lia)). apply occ_pos in Hx.
  pose proof (pa_pages _ _ _ _ Hpar) as Hp. rewrite Forall_forall in Hp. apply Hp, occ_pos. lia.
Qed.

Local Lemma table_page_new T2' p :
  (∀ path p, T2' !! path = Some p → T2 !! path = Some p ∨ p ∈ l) →
  pt_page T2' p → pt_page T20 p ∨ p ∈ l0.
Proof.
  intros Hnew [path Hp]. destruct (Hnew _ _ Hp) as [Hp'|Hp'].
  - apply (sh_new _ _ _ _ _ _ _ _ _ _ Hsh). by eexists.
  - right. destruct (sh_suffix _ _ _ _ _ _ _ _ _ _ Hsh) as [m ->]. set_solver.
Qed.

(** Success: one more page is shared. *)
Lemma uvmcopy_step_ok s1 s2 T2' l' :
  parent_done s1 →
  evolves r2 s1 T2 l s2 T2' l' (set_pte i (pte_of_page pa (Z.lor (new_flags v) PTE_V)) (pte_of s1 T2)) →
  ∃ s3, lock_update_ref_count pa 1 s2 = Ret tt s3 ∧ sharing s0 r1 r2 T1 T20 l0 (S k) s3 T2' l'.
Proof.
  intros Hpd G. destruct step_range as (Hi & Ei & _).
  destruct (parent_page k Hk) as (Hv & _ & Hpg & Hn1 & _ & Hr0 & Hmaxr & _).
  pose proof (pas_mono (S k) pa ltac:(lia)) as Hmono.
  rewrite run_pas_snoc, Z.add_0_l, occ_snoc, decide_True in Hmono by done.
  pose proof step_refs as Er. pose proof (occ_nonneg (pas k) pa).
  assert (refs s1 pa = refs s pa) as Er1 by (apply refs_ext, Hpd).
  assert (refs s2 pa = refs s pa) as Er2.
  { rewrite (g_refs _ _ _ _ _ _ _ _ G); [done|done|lia]. }
  destruct (incr_ok s2 l' pa (g_inv _ _ _ _ _ _ _ _ G) Hpg ltac:(lia))
    as (s3 & E3 & Hinv3 & Hram3 & Hr3 & Hrs3).
  exists s3. split; [done|].
  destruct (evolves_other s1 r1 T1 r2 T2 l s2 T2' l' _ (pd_pt1 _ Hpd) (pd_inv _ Hpd)
    (sh_disj _ _ _ _ _ _ _ _ _ _ Hsh) G) as (Hok1 & Hpte1 & Hd).
  pose proof (λ p, table_page_new T2' p (g_new _ _ _ _ _ _ _ _ G)) as Hnew.
  assert (¬ pt_page T2' pa) as Hn2.
  { intros Hp. apply Hnew in Hp as [Hp|Hp]; [by apply (parent_page k Hk)|].
    revert Hp. apply (in_use_not_free s0); [apply Hinv0|lia]. }
  destruct (incr_pt s2 s3 r1 T1 pa Hok1 Hn1 Hpg Hram3 Hrs3) as [Hok1' Hpte1'].
  destruct (incr_pt s2 s3 r2 T2' pa (g_pt _ _ _ _ _ _ _ _ G) Hn2 Hpg Hram3 Hrs3) as [Hok2' Hpte2'].
  constructor; try done.
  - etransitivity; [apply G|apply Hsh].
  - intros w Hw. rewrite Hpte1', Hpte1 by lia. by apply Hpd.
  - intros w Hw. rewrite Hpte2', (g_pte _ _ _ _ _ _ _ _ G w Hw). unfold set_pte.
    rewrite Ei, new_flags_valid by done.
    destruct (decide (w / PGSIZE = Z.of_nat k)) as [Ew|Ew].
    + rewrite decide_True by lia.
      replace (pte_of s0 T1 w) with v; [done|]. unfold pte_of, pt_lookup.
      rewrite (PX_page 2 w i), (PX_page 1 w i), (PX_page 0 w i) by (done || lia). done.
    + rewrite (pd_pte2 _ Hpd) by done. rewrite (sh_pte2 _ _ _ _ _ _ _ _ _ _ Hsh) by done.
      repeat case_decide; try lia; done.
  - intros x Hx Hxr. rewrite run_pas_snoc, Z.add_0_l, occ_snoc.
    pose proof (sh_refs _ _ _ _ _ _ _ _ _ _ Hsh x Hx Hxr) as Esx. pose proof (occ_nonneg (pas k) x).
    destruct (decide (pa = x)) as [<-|Hne]; [lia|].
    rewrite Hrs3 by (intros E; by apply ref_index_inj in E).
    assert (refs s1 x = refs s x) as Ex1 by (apply refs_ext, Hpd).
    rewrite (g_refs _ _ _ _ _ _ _ _ G); [lia|done|lia].
  - intros a Ha1 Ha2. rewrite Hram3, (g_mem _ _ _ _ _ _ _ _ G), (pd_mem _ Hpd) by done.
    apply (sh_mem _ _ _ _ _ _ _ _ _ _ Hsh); [done|]. intros (p & [path Hp] & Hpa). apply Ha2.
    exists p. split; [|done]. exists path. eapply lookup_weaken; [done|apply G].
Qed.

(** What a failed copy leaves: the pages shared so far are no longer the child's, every
    page has the references it had, and the parent's entries stay marked. *)
Record copy_undone (s' : kmem) (T2' : ptree) : Prop := {
  cu_pt1 : pt_ok s' r1 T1;
  cu_pt2 : pt_ok s' r2 T2';
  cu_inv : kmem_inv s' [];
  cu_disj : pt_disjoint T1 T2';
  cu_new : ∀ p, pt_page T2' p → pt_page T20 p ∨ p ∈ l0;
  cu_pte1 : ∀ w, 0 ≤ w < MAXVA → pte_of s' T1 w =
    if decide (w / PGSIZE < Z.of_nat (S k)) then parent_pte (pte_of s0 T1 w) else pte_of s0 T1 w;
  cu_pte2 : ∀ w, 0 ≤ w < MAXVA → pte_of s' T2' w =
    if decide (w / PGSIZE < Z.of_nat k) then 0 else pte_of s0 T20 w;
  cu_refs : ∀ x, is_page x → 0 < refs s0 x → refs s' x = refs s0 x;
  cu_mem : ∀ a, ¬ in_pages T1 a → ¬ in_pages T2' a → rd (ram s') a = rd (ram s0) a;
}.

Lemma child_pte_facts j :
  (j < n)%nat → let w := pte_of s0 T1 (Z.of_nat j * PGSIZE) in
  bit (child_pte w) 0 = true ∧ PTE_FLAGS (child_pte w) ≠ PTE_V ∧ PTE2PA (child_pte w) = PTE2PA w.
Proof.
  intros Hj w. destruct (parent_page j Hj) as (Hv & Hl & Hpg & _). fold w in Hv, Hl, Hpg.
  pose proof (is_page_u64 _ Hpg). destruct Hpg as [Hal _]. pose proof (new_flags_bound w) as Hb.
  unfold child_pte. fold (new_flags w). rewrite PTE2PA_of_page, PTE_FLAGS_of_page by done.
  split_and!; [|unfold new_flags|done].
  - rewrite bit_pte_of_page by (done || lia). rewrite <- new_flags_valid by done.
    rewrite Z.lor_spec. by rewrite orb_true_r.
  - destruct (bit w 2); [|done]. intros E. apply (f_equal (λ f, bit f 8)) in E.
    rewrite share_flags_bit in E by lia. repeat case_decide; try lia. done.
Qed.

Lemma uvmcopy_step_err s1 s2 T2' :
  parent_done s1 → grows r2 s1 T2 l s2 T2' [] →
  ∃ s3, uvmcopy_err r2 i s2 = Ret (inr (-1)) s3 ∧ copy_undone s3 T2'.
Proof.
  intros Hpd G. destruct step_range as (Hi & Ei & _).
  destruct (evolves_other s1 r1 T1 r2 T2 l s2 T2' [] _ (pd_pt1 _ Hpd) (pd_inv _ Hpd)
    (sh_disj _ _ _ _ _ _ _ _ _ _ Hsh) G) as (Hok1 & Hpte1 & Hd).
  assert (∀ w, 0 ≤ w < MAXVA → pte_of s2 T2' w =
    if decide (w / PGSIZE < Z.of_nat k) then child_pte (pte_of s0 T1 w) else pte_of s0 T20 w) as Hpte2.
  { intros w Hw. rewrite (g_pte _ _ _ _ _ _ _ _ G w Hw), (pd_pte2 _ Hpd) by done. by apply Hsh. }
  assert (∀ j, (j < k)%nat → pte_of s2 T2' (0 + Z.of_nat j * PGSIZE) =
    child_pte (pte_of s0 T1 (Z.of_nat j * PGSIZE))) as Hj.
  { intros j ?. rewrite Z.add_0_l, Hpte2.
    - rewrite Z.div_mul by done. by rewrite decide_True by lia.
    - rewrite MAXVA_val in *. unfold PGSIZE in *. lia. }
  assert (run_pas (pte_of s2 T2') 0 k = pas k) as Epas.
  { apply run_pas_same. intros j Hlt. rewrite Hj by done. by apply child_pte_facts; lia. }
  assert (∀ x, is_page x → 0 < refs s0 x → refs s2 x = refs s0 x + occ (pas k) x) as Hr2.
  { intros x Hx Hxr. pose proof (sh_refs _ _ _ _ _ _ _ _ _ _ Hsh x Hx Hxr) as Es.
    pose proof (refs_ext _ _ x (pd_refs _ Hpd)). pose proof (occ_nonneg (pas k) x).
    rewrite (g_refs _ _ _ _ _ _ _ _ G); [lia|done|lia]. }
  destruct (uvmunmap_ok s2 r2 T2' [] 0 k true) as (s3 & l3 & E & Hok2 & Hrel & Hclr);
    try done; try apply G.
  { lia. }
  { intros z Hz. replace z with (Z.of_nat (Z.to_nat z)) by lia. rewrite Hj by lia.
    destruct (child_pte_facts (Z.to_nat z) ltac:(lia)) as (? & ? & _). done. }
  { intros _. rewrite Epas. apply Forall_forall. intros x Hx.
    destruct (pas_page x Hx) as (? & ? & ? & ? & ?). rewrite Hr2 by done.
    pose proof (pas_mono k x ltac:(lia)). split_and!; try lia; [done|].
    intros Hp. apply (table_page_new T2' x (g_new _ _ _ _ _ _ _ _ G)) in Hp as [|Hp]; [done|].
    revert Hp. apply (in_use_not_free s0); [apply Hinv0|lia]. }
  rewrite Epas in Hrel.
  assert (∀ x, is_page x → 0 < refs s0 x → refs s3 x = refs s0 x) as Hr3.
  { intros x Hx Hxr. rewrite (rel_refs _ _ _ _ _ _ Hrel), Hr2 by done. lia. }
  assert (l3 = []) as ->.
  { destruct l3 as [|x l3]; [done|]. exfalso.
    destruct (proj1 (rel_free _ _ _ _ _ _ Hrel x) ltac:(set_solver)) as [Hx|[Hx Hx0]]; [set_solver|].
    destruct (pas_page x Hx) as (? & _ & _ & ? & _). rewrite Hr3 in Hx0 by done. lia. }
  assert (∀ a, ¬ in_pages T2' a → rd (ram s3) a = rd (ram s2) a) as Hm3.
  { intros a Ha. apply (rel_mem _ _ _ _ _ _ Hrel); [done|set_solver]. }
  exists s3. split.
  { unfold uvmcopy_err. rewrite Ei. msimpl. by rewrite E. }
  destruct (table_frame s2 s3 r1 T1 r2 T2' Hok1 (g_pt _ _ _ _ _ _ _ _ G) Hd Hm3) as [Hok1' Hpte1'].
  { intros p Hp. rewrite (rel_refs _ _ _ _ _ _ Hrel) by (by eapply (pt_page_is_page s2 r1)).
    assert (¬ 0 < occ (pas k) p) by (rewrite <- occ_pos; intros Hx; by destruct (pas_page p Hx) as (_ & Hn & _)).
    pose proof (occ_nonneg (pas k) p). lia. }
  constructor; try done; try apply Hrel.
  - intros p Hp. by apply (table_page_new T2' p (g_new _ _ _ _ _ _ _ _ G)).
  - intros w Hw. rewrite Hpte1', Hpte1 by lia. by apply Hpd.
  - intros w Hw. rewrite Hclr by done. unfold clear_run. rewrite Hpte2 by done.
    change (0 / PGSIZE) with 0. assert (0 ≤ w / PGSIZE) by (unfold PGSIZE; zdm).
    repeat case_decide; try lia; done.
  - intros a Ha1 Ha2. rewrite Hm3, (g_mem _ _ _ _ _ _ _ _ G), (pd_mem _ Hpd) by done.
    apply (sh_mem _ _ _ _ _ _ _ _ _ _ Hsh); [done|]. intros (p & [path Hp] & Hpa). apply Ha2.
    exists p. split; [|done]. exists path. eapply lookup_weaken; [done|apply G].
Qed.

(** One round: a page is shared, or the copy is undone. *)
Lemma uvmcopy_step :
  (∃ s' T2' l', uvmcopy_body r1 r2 sz i s = Ret (inl (Z.of_nat (S k) * PGSIZE)) s' ∧
     sharing s0 r1 r2 T1 T20 l0 (S k) s' T2' l') ∨
  (∃ s' T2', uvmcopy_body r1 r2 sz i s = Ret (inr (-1)) s' ∧ copy_undone s' T2').
Proof.
  destruct uvmcopy_step_parent as (s1 & Hpd & ->). destruct step_range as (Hi & Ei & Hal).
  destruct (parent_page k Hk) as (_ & _ & Hpg & _). pose proof (is_page_range _ Hpg) as Hrng.
  destruct (mappages_one s1 r2 T2 l i pa (new_flags v)) as (r & s2 & T2' & l' & E & Hr);
    try done; try apply Hpd; try apply new_flags_bound.
  { unfold PHYSTOP, KERNBASE, PGSIZE in *. lia. }
  rewrite E. cbn [res_bind]. destruct Hr as [[-> G]|(-> & G & ->)]; cbn [Z.eqb negb].
  - left. destruct (uvmcopy_step_ok s1 s2 T2' l' Hpd G) as (s3 & -> & Hs). cbn [res_bind]. eauto 6.
  - right. destruct (uvmcopy_step_err s1 s2 T2' Hpd G) as (s3 & -> & Hs). eauto 6.
Qed.

End step.

Lemma uvmcopy_loop s0 r1 r2 T1 T20 l0 n sz :
  kmem_inv s0 l0 → parent_ok s0 T1 T20 n → Z.of_nat n * PGSIZE ≤ MAXVA →
  (Z.of_nat n - 1) * PGSIZE < sz ≤ Z.of_nat n * PGSIZE →
  ∀ m k s T2 l fuel, (k + m = n)%nat → (m < fuel)%nat → sharing s0 r1 r2 T1 T20 l0 k s T2 l →
  ∃ r s' T2',
    loop fuel (uvmcopy_body r1 r2 sz) (Z.of_nat k * PGSIZE) s = Ret r s' ∧
    (r = 0 ∧ (∃ l', sharing s0 r1 r2 T1 T20 l0 n s' T2' l') ∨
     r = -1 ∧ ∃ k', (k' < n)%nat ∧ copy_undone s0 r1 r2 T1 T20 l0 k' s' T2').
Proof.
  intros Hinv Hpar Hmax Hsz m. induction m as [|m IH]; intros k s T2 l fuel Hkm Hf Hsh.
  - destruct fuel as [|fuel]; [lia|]. replace k with n in * by lia.
    exists 0, s, T2. split; [|left; eauto].
    apply (loop_done _ _ _ _ s). unfold uvmcopy_body. by rewrite (proj2 (Z.ltb_ge _ _)) by lia.
  - destruct fuel as [|fuel]; [lia|].
    destruct (uvmcopy_step s0 r1 r2 T1 T20 l0 n Hinv Hpar Hmax k s T2 l sz Hsh)
      as [(s' & T2' & l' & E & Hs)|(s' & T2' & E & Hu)]; try (unfold PGSIZE in *; lia).
    + rewrite (loop_next _ _ _ _ _ _ E). apply (IH (S k) s' T2' l'); [lia|lia|done].
    + exists (-1), s', T2'. rewrite (loop_done _ _ _ _ _ _ E). split; [done|]. right.
      split; [done|]. exists k. split; [lia|done].
Qed.

Lemma uvmcopy_ok s0 r1 r2 T1 T20 l0 sz :
  kmem_inv s0 l0 → pt_ok s0 r1 T1 → pt_ok s0 r2 T20 → pt_disjoint T1 T20 → 0 ≤ sz ≤ MAXVA →
  parent_ok s0 T1 T20 (Z.to_nat ((sz + PGSIZE - 1) / PGSIZE)) →
  ∃ r s' T2',
    uvmcopy r1 r2 sz s0 = Ret r s' ∧
    (r = 0 ∧ (∃ l', sharing s0 r1 r2 T1 T20 l0 (Z.to_nat ((sz + PGSIZE - 1) / PGSIZE)) s' T2' l') ∨
     r = -1 ∧ ∃ k, (k < Z.to_nat ((sz + PGSIZE - 1) / PGSIZE))%nat ∧
       copy_undone s0 r1 r2 T1 T20 l0 k s' T2').
Proof.
  intros Hinv Hok1 Hok2 Hd Hsz Hpar. unfold uvmcopy.
  assert (0 ≤ (sz + PGSIZE - 1) / PGSIZE) by (unfold PGSIZE; zdm).
  apply (uvmcopy_loop s0 r1 r2 T1 T20 l0 _ sz Hinv Hpar) with (m := Z.to_nat ((sz + PGSIZE - 1) / PGSIZE))
    (k := 0%nat) (T2 := T20) (l := l0); try lia; [rewrite MAXVA_val in *|..|by apply sharing_init].
  all: unfold PGSIZE in *; zdm.
Qed.

End fork.
