(* ===== verification/CowFault.v ===== *)
(** The copy-on-write fault handler, [cow_fault_handler] (vm.c), seen from user memory: it
    returns with a private writable page in place of the shared one, every user byte of
    every process as it was, and refuses every address that is not copy-on-write. *)

From S2P Require Import Prelude Mem Riscv Kalloc Vm PageTable AddrSpace Cow Fork.

(** The byte a program sees at [va]. *)
Definition ubyte (s : kmem) (T : ptree) (va : Z) : Z :=
  rd (ram s) (PTE2PA (pte_of s T va) + va mod PGSIZE).

Section cowfault.
Context `{KernelImageOk}.

(** [va] is mapped to a page in use that is not a page of a table in [Ts]. *)
Definition user_page (s : kmem) (T : ptree) (Ts : list ptree) (va : Z) : Prop :=
  is_page (PTE2PA (pte_of s T va)) ∧ 0 < refs s (PTE2PA (pte_of s T va)) < 2 ^ 31 ∧
  Forall (λ T', ¬ pt_page T' (PTE2PA (pte_of s T va))) Ts.

(** An entry the handler resolves. *)
Definition is_cow (v : Z) : Prop := bit v 8 = true ∧ bit v 0 = true ∧ bit v 4 = true.

(** The state after the handler gave [va0] the page [x]. *)
Record cow_resolved (s : kmem) (root : Z) (T : ptree) (va0 x : Z) (s' : kmem) (l' : list Z) : Prop := {
  cr_pt : pt_ok s' root T;
  cr_inv : kmem_inv s' l';
  cr_page : is_page x;
  cr_case : x = PTE2PA (pte_of s T va0) ∧ refs s x = 1 ∨
    refs s x = 0 ∧ 1 < refs s (PTE2PA (pte_of s T va0));
  cr_pte : ∀ v, 0 ≤ v < MAXVA →
    pte_of s' T v = set_pte va0 (cow_pte x (PTE_FLAGS (pte_of s T va0))) (pte_of s T) v;
  cr_ref : refs s' x = 1;
  cr_refs : ∀ y, is_page y → y ≠ x →
    refs s' y = refs s y - (if decide (y = PTE2PA (pte_of s T va0)) then 1 else 0);
  cr_copy : page_copied s s' x (PTE2PA (pte_of s T va0));
  cr_mem : ∀ a, ¬ in_pages T a → ¬ (x ≤ a < x + PGSIZE) → rd (ram s') a = rd (ram s) a;
}.

Lemma page_not_in_pages s root T x a :
  pt_ok s root T → is_page x → ¬ pt_page T x → x ≤ a < x + PGSIZE → ¬ in_pages T a.
Proof.
  intros Hok Hx Hn Ha (q & Hq & Hqa). apply Hn.
  replace x with q; [done|]. eapply page_unique; [by eapply pt_page_is_page|done..].
Qed.

Lemma walk_entry s root T va :
  pt_ok s root T → 0 ≤ va < MAXVA → bit (pte_of s T va) 0 = true →
  ∃ a, pt_lookup T va = Some a ∧ walk root va false s = Ret a s ∧
    load64 a s = Ret (pte_of s T va) s.
Proof.
  intros Hok Hva Hv. destruct (pte_valid_lookup s T va Hv) as (a & Ha & Ev).
  exists a. split; [done|]. rewrite (walk_ro s root T va Hok Hva), Ha. split; [done|].
  destruct (pt_lookup_slot s root T va a Hok ltac:(lia) Ha) as (p & _ & -> & Hpp & Hpx).
  pose proof (pt_slot_range p _ Hpp Hpx) as (? & ? & ? & _). by rewrite load64_ok, Ev.
Qed.

Lemma pte_nonzero v : bit v 0 = true → v ≠ 0.
Proof. intros Hv ->. by rewrite Z.bits_0 in Hv. Qed.

(** The handler on a copy-on-write entry. *)
Lemma cow_fault_handler_ok s root T l va scause :
  let va0 := PGROUNDDOWN va in
  let pa := PTE2PA (pte_of s T va0) in
  pt_ok s root T → kmem_inv s l → 0 ≤ va < MAXVA → scause ≠ 13 → is_cow (pte_of s T va0) →
  user_page s T [T] va0 → (1 < refs s pa → l ≠ []) →
  ∃ x s' l', cow_fault_handler scause root va s = Ret 0 s' ∧ cow_resolved s root T va0 x s' l' ∧
    (if decide (refs s pa = 1) then x = pa ∧ l' = l else l = x :: l').
Proof.
  cbv zeta. intros Hok Hinv Hva Hsc (Hc & Hv & Hu) (Hpg & Hr & Hnpt) Hl.
  rewrite Forall_singleton in Hnpt.
  pose proof (PGROUNDDOWN_props va ltac:(lia)) as (Hlo & Hhi & Hal).
  assert (0 ≤ PGROUNDDOWN va < MAXVA) as Hva0 by (unfold PGSIZE in *; lia).
  destruct (walk_entry s root T _ Hok Hva0 Hv) as (a & Ha & Ew & Eld).
  set (v := pte_of s T (PGROUNDDOWN va)) in *.
  assert (∀ s', update root (PGROUNDDOWN va) (PTE2PA v) (PTE_FLAGS v) s = Ret 0 s' →
    cow_fault_handler scause root va s = Ret 0 s') as Hbody.
  { intros s' Eu. unfold cow_fault_handler. msimpl. rewrite Ew. msimpl. rewrite Eld. msimpl.
    rewrite (proj2 (Z.eqb_neq v 0)) by (by apply pte_nonzero).
    rewrite (proj2 (Z.eqb_neq scause 13)), (proj2 (Z.leb_gt _ _)) by lia.
    rewrite land_PTE_COW, land_PTE_V, land_PTE_U, Hc, Hv, Hu. msimpl. by rewrite Eu. }
  pose proof (PTE_FLAGS_bound v) as Hfb.
  destruct (decide (refs s (PTE2PA v) = 1)) as [Hr1|Hr1].
  - destruct (update_unshared s root T l (PGROUNDDOWN va) (PTE2PA v) (PTE_FLAGS v) a)
      as (s' & Eu & Hok' & Hinv' & Hrc & Hm & Hpte); try done.
    exists (PTE2PA v), s', l. split; [by apply Hbody|]. split; [|done].
    constructor; try done; [by left| | | |].
    + by rewrite (refs_ext s) by done.
    + intros y _ Hy. rewrite (refs_ext s s' _ Hrc), decide_False by done. lia.
    + intros k Hk. apply Hm. apply (page_not_in_pages s root T (PTE2PA v)); [done..|]. fold v. lia.
    + auto.
  - destruct l as [|x l]; [by destruct (Hl ltac:(lia))|].
    destruct (update_shared s root T l x (PGROUNDDOWN va) (PTE2PA v) (PTE_FLAGS v) a)
      as (s' & Eu & C); try done; try lia.
    assert (is_page x ∧ refs s x = 0) as [Hx Hx0].
    { destruct Hinv as [[_ _ Hp Hz] _]. split; [by inversion Hp|by inversion Hz]. }
    exists x, s', l. split; [by apply Hbody|]. split; [|done].
    constructor; try done; try apply C; [right; fold v; lia|].
    fold v. intros y Hy Hyx. case_decide as E; [subst y; rewrite (cc_ref_old _ _ _ _ _ _ _ _ _ C); lia|].
    rewrite (cc_refs _ _ _ _ _ _ _ _ _ C) by done. lia.
Qed.

(** The handler refuses what is not copy-on-write, without changing anything. *)
Lemma cow_fault_handler_refuses s root T va scause :
  pt_ok s root T → 0 ≤ va < MAXVA → is_Some (pt_lookup T (PGROUNDDOWN va)) →
  scause = 13 ∨ ¬ is_cow (pte_of s T (PGROUNDDOWN va)) →
  cow_fault_handler scause root va s = Ret (-1) s.
Proof.
  intros Hok Hva [a Ha] Hno. pose proof (PGROUNDDOWN_props va ltac:(lia)) as (Hlo & Hhi & Hal).
  assert (0 ≤ PGROUNDDOWN va < MAXVA) as Hva0 by (unfold PGSIZE in *; lia).
  destruct (pt_lookup_slot s root T _ a Hok ltac:(apply Hva0) Ha) as (p & _ & Ea & Hpp & Hpx).
  pose proof (pt_slot_range p _ Hpp Hpx) as (? & ? & ? & _). rewrite <- Ea in *.
  unfold cow_fault_handler. msimpl. rewrite (walk_ro s root T _ Hok Hva0), Ha. msimpl.
  cbn [default from_option id]. rewrite load64_ok by done. msimpl.
  replace (read64 (ram s) a) with (pte_of s T (PGROUNDDOWN va)) by (unfold pte_of; by rewrite Ha).
  destruct (_ =? 0); [done|]. destruct (Z.eqb_spec scause 13) as [|Hne]; [done|].
  rewrite (proj2 (Z.leb_gt _ _)) by lia. rewrite land_PTE_COW, land_PTE_V, land_PTE_U.
  destruct Hno as [|Hno]; [done|]. unfold is_cow in Hno.
  destruct (bit _ 8), (bit _ 0), (bit _ 4); simpl; try done. by destruct Hno.
Qed.

(** With no mapping at all, the handler's first dereference faults. *)
Lemma cow_fault_handler_unmapped s root T va scause :
  pt_ok s root T → 0 ≤ va < MAXVA → pt_lookup T (PGROUNDDOWN va) = None →
  cow_fault_handler scause root va s = Fault "load page fault".
Proof.
  intros Hok Hva Ha. pose proof (PGROUNDDOWN_props va ltac:(lia)) as (Hlo & Hhi & Hal).
  unfold cow_fault_handler. msimpl. rewrite (walk_ro s root T) by (done || unfold PGSIZE in *; lia).
  rewrite Ha. msimpl. done.
Qed.

(** * What user programs see *)

Lemma cow_pte_page x f : is_page x → 0 ≤ f < 1024 → PTE2PA (cow_pte x f) = x.
Proof.
  intros Hx Hf. pose proof (is_page_u64 x Hx). destruct Hx as [Hal _]. apply PTE2PA_of_page; [done..|].
  apply flags_lor; [by apply cow_flags_bound|apply PTE_V_flag].
Qed.

Lemma pte_of_same_page s T v w : 0 ≤ v → 0 ≤ w → v / PGSIZE = w / PGSIZE → pte_of s T v = pte_of s T w.
Proof.
  intros. unfold pte_of, pt_lookup.
  by rewrite (PX_page 2 v w), (PX_page 1 v w), (PX_page 0 v w) by (done || lia).
Qed.

Lemma mod_page_range va : 0 ≤ va mod PGSIZE < PGSIZE.
Proof. apply Z.mod_pos_bound. done. Qed.

(** The bytes of a page in use are untouched, unless it is the page given out. *)
Lemma cow_resolved_byte s root T va0 x s' l' y a :
  pt_ok s root T → cow_resolved s root T va0 x s' l' →
  is_page y → 0 < refs s y → ¬ pt_page T y → y ≤ a < y + PGSIZE → rd (ram s') a = rd (ram s) a.
Proof.
  intros Hok C Hy Hr Hn Ha. pose proof (page_not_in_pages s root T y a Hok Hy Hn Ha) as Hna.
  destruct (decide (x ≤ a < x + PGSIZE)) as [Hxa|Hxa]; [|by apply (cr_mem _ _ _ _ _ _ _ C)].
  assert (x = y) as -> by (eapply page_unique; [apply C|done..]).
  destruct (cr_case _ _ _ _ _ _ _ C) as [[E _]|]; [|lia].
  pose proof (cr_copy _ _ _ _ _ _ _ C (a - y) ltac:(lia)) as Hc. rewrite <- E in Hc.
  by replace (y + (a - y)) with a in Hc by lia.
Qed.

Lemma cow_resolved_view s root T va0 x s' l' va :
  pt_ok s root T → cow_resolved s root T va0 x s' l' → 0 ≤ va0 → 0 ≤ va < MAXVA →
  user_page s T [T] va → ubyte s' T va = ubyte s T va.
Proof.
  intros Hok C Hva0 Hva (Hpg & Hr & Hn). rewrite Forall_singleton in Hn. unfold ubyte.
  rewrite (cr_pte _ _ _ _ _ _ _ C) by done. unfold set_pte. pose proof (mod_page_range va).
  case_decide as E.
  - rewrite cow_pte_page; [|apply C|apply PTE_FLAGS_bound].
    rewrite (cr_copy _ _ _ _ _ _ _ C) by done. by rewrite (pte_of_same_page s T va va0) by (done || lia).
  - apply (cow_resolved_byte s root T va0 x s' l' (PTE2PA (pte_of s T va))); try done; lia.
Qed.

(** Another process's table and memory stay the same. *)
Lemma cow_resolved_other s root T va0 x s' l' root2 T2 :
  pt_ok s root T → pt_ok s root2 T2 → pt_disjoint T2 T → ¬ pt_page T2 (PTE2PA (pte_of s T va0)) →
  cow_resolved s root T va0 x s' l' →
  pt_ok s' root2 T2 ∧
  (∀ va, 0 ≤ va → pte_of s' T2 va = pte_of s T2 va) ∧
  (∀ va, user_page s T2 [T] va → 0 ≤ va → ubyte s' T2 va = ubyte s T2 va).
Proof.
  intros Hok Hok2 Hd Hnp C.
  assert (∀ p, pt_page T2 p → p ≠ x) as Hnx.
  { intros p [path Hp] ->. destruct (cr_case _ _ _ _ _ _ _ C) as [[-> _]|[Hx _]]; [by destruct Hnp; exists path|].
    pose proof (pt_ref _ _ _ Hok2 _ _ Hp). lia. }
  assert (∀ a, in_pages T2 a → rd (ram s') a = rd (ram s) a) as Hm.
  { intros a (p & Hp & Ha). pose proof (pt_page_is_page _ _ _ _ Hok2 Hp).
    apply (cow_resolved_byte s root T va0 x s' l' p); try done; [|by apply Hd].
    destruct Hp as [path Hp]. rewrite (pt_ref _ _ _ Hok2 _ _ Hp). lia. }
  assert (pt_ok s' root2 T2) as Hok2'.
  { apply (pt_ok_frame s); [done| |done]. intros p Hp.
    rewrite (cr_refs _ _ _ _ _ _ _ C); [|by eapply pt_page_is_page|by apply Hnx].
    rewrite decide_False; [lia|]. by intros ->. }
  assert (∀ va, 0 ≤ va → pte_of s' T2 va = pte_of s T2 va) as Hpte by (intros; by eapply pte_of_frame).
  split; [done|]. split; [done|].
  intros va (Hpg & Hr & Hn) Hva. rewrite Forall_singleton in Hn. unfold ubyte. rewrite Hpte by done.
  pose proof (mod_page_range va).
  apply (cow_resolved_byte s root T va0 x s' l' (PTE2PA (pte_of s T2 va))); try done; lia.
Qed.

End cowfault.
