(* ===== verification/Uvm.v ===== *)
(** Growing, shrinking and creating user address spaces: [uvmcreate], [uvmalloc] and
    [uvmdealloc] (vm.c). *)

From S2P Require Import Prelude Mem Riscv Kalloc Vm PageTable AddrSpace Cow.

Section uvm.
Context `{KernelImageOk}.

(** * A fresh page of zeros *)

Record zeroed (s s' : kmem) (x : Z) (l : list Z) : Prop := {
  z_inv : kmem_inv s' l;
  z_page : is_page x;
  z_fresh : x ∉ l;
  z_ref0 : refs s x = 0;
  z_ref : refs s' x = 1;
  z_refs : same_refs_but x s s';
  z_zero : ∀ a, x ≤ a < x + PGSIZE → rd (ram s') a = 0;
  z_mem : same_outside x (ram s) (ram s');
}.

Lemma kalloc_zeroed s x l :
  kmem_inv s (x :: l) →
  ∃ s1 s2, kalloc s = Ret x s1 ∧ mset x 0 PGSIZE s1 = Ret tt s2 ∧ zeroed s s2 x l.
Proof.
  intros Hinv. destruct (kalloc_cons s x l Hinv) as (s1 & E & P).
  pose proof (ka_page _ _ _ _ P) as Hx. pose proof (is_page_range x Hx) as (? & ? & ?).
  exists s1. rewrite mset_ok by done. eexists. split; [done|]. split; [done|].
  assert (refs s x = 0) by (destruct Hinv as [[_ _ _ Hz] _]; by inversion Hz).
  constructor; try done; try apply P.
  - split; [|simpl; rewrite (ka_lock _ _ _ _ P); apply Hinv].
    apply free_ok_set_ram; [apply P|]. intros q Hq a Ha. apply rd_memset_out; [unfold PGSIZE; lia|].
    pose proof (inv_pages _ _ (ka_ok _ _ _ _ P)) as Hp. rewrite Forall_forall in Hp.
    destruct (is_page_disjoint q x (Hp _ Hq) Hx); [|lia..]. intros ->. by apply (ka_fresh _ _ _ _ P).
  - intros a Ha. simpl. rewrite rd_memset by (unfold PGSIZE; lia). by rewrite decide_True.
  - eapply same_outside_trans; [apply P|]. apply same_outside_memset.
Qed.

(** * uvmcreate *)

Definition empty_pt (root : Z) : ptree := {[ [] := root ]}.

Lemma pt_page_empty root p : pt_page (empty_pt root) p ↔ p = root.
Proof.
  unfold pt_page, empty_pt. split.
  - intros [path Hp]. by apply lookup_singleton_Some in Hp as [_ ->].
  - intros ->. exists []. apply lookup_singleton_eq.
Qed.

Lemma pte_of_empty s root va : pte_of s (empty_pt root) va = 0.
Proof. unfold pte_of, pt_lookup, empty_pt. by rewrite lookup_singleton_ne. Qed.

Lemma zeroed_pt s s' x l : zeroed s s' x l → pt_ok s' x (empty_pt x).
Proof.
  intros Hz. assert (∀ path p, empty_pt x !! path = Some p → path = [] ∧ p = x) as Hone.
  { intros path p Hp. unfold empty_pt in Hp. by apply lookup_singleton_Some in Hp as [<- <-]. }
  constructor.
  - apply lookup_singleton_eq.
  - intros path p [_ ->]%Hone. apply Hz.
  - intros path path' p [-> _]%Hone [-> _]%Hone. done.
  - intros path p [-> _]%Hone. split; [simpl; lia|done].
  - intros i rest p [E _]%Hone. done.
  - intros path i c [E _]%Hone. by destruct path.
  - intros path p i [-> ->]%Hone _ Hi. simpl. unfold empty_pt. rewrite lookup_singleton_ne by done.
    rewrite read64_zero; [done|]. intros a Ha. apply Hz. unfold PGSIZE. lia.
  - intros path p [_ ->]%Hone. apply Hz.
Qed.

Lemma uvmcreate_cons s x l :
  kmem_inv s (x :: l) → ∃ s', uvmcreate s = Ret x s' ∧ zeroed s s' x l.
Proof.
  intros Hinv. destruct (kalloc_zeroed s x l Hinv) as (s1 & s2 & E1 & E2 & Hz).
  exists s2. split; [|done]. unfold uvmcreate. msimpl. rewrite E1. msimpl.
  rewrite (proj2 (Z.eqb_neq x 0)) by apply is_page_nonzero, Hz. msimpl. by rewrite E2.
Qed.

Lemma uvmcreate_empty s : kmem_inv s [] → uvmcreate s = Ret 0 s.
Proof. intros. unfold uvmcreate. msimpl. by rewrite kalloc_empty. Qed.

(** * uvmdealloc *)

(** The pages between two sizes. *)
Definition pages_between (lo hi : Z) : nat := Z.to_nat ((PGROUNDUP hi - PGROUNDUP lo) / PGSIZE).

Lemma uvmdealloc_ok s root T l oldsz newsz :
  let n := pages_between newsz oldsz in
  let a := PGROUNDUP newsz in
  pt_ok s root T → kmem_inv s l → 0 ≤ newsz < oldsz → oldsz ≤ MAXVA →
  mapped_run (pte_of s T) a n → droppable s T (run_pas (pte_of s T) a n) →
  ∃ s' l', uvmdealloc root oldsz newsz s = Ret newsz s' ∧ pt_ok s' root T ∧
    released s T l s' l' (run_pas (pte_of s T) a n) ∧
    (∀ v, 0 ≤ v < MAXVA → pte_of s' T v = clear_run a (Z.of_nat n) (pte_of s T) v).
Proof.
  cbv zeta. intros Hok Hinv Hn Hmax Hmap Hdrop. rewrite MAXVA_val in *.
  destruct (PGROUNDUP_props newsz) as [Hr1 Ha1]; [unfold PGSIZE; lia|].
  destruct (PGROUNDUP_props oldsz) as [Hr2 Ha2]; [unfold PGSIZE; lia|].
  unfold uvmdealloc. rewrite (proj2 (Z.leb_gt _ _)) by lia. msimpl.
  assert (PGROUNDUP newsz ≤ PGROUNDUP oldsz) as Hle by (unfold PGSIZE in *; zdm).
  unfold pages_between in *. set (n := (PGROUNDUP oldsz - PGROUNDUP newsz) / PGSIZE) in *.
  assert (PGROUNDUP oldsz = PGROUNDUP newsz + n * PGSIZE ∧ 0 ≤ n < 2 ^ 31) as [En Hnn]
    by (unfold n, PGSIZE in *; zdm).
  destruct (uvmunmap_ok s root T l (PGROUNDUP newsz) (Z.to_nat n) true) as
    (s' & l' & E & Hok' & Hrel & Hpte); try done; try lia.
  { rewrite MAXVA_val. unfold PGSIZE in *. zdm. }
  destruct (Z.ltb_spec (PGROUNDUP newsz) (PGROUNDUP oldsz)) as [Hlt|Hge].
  - exists s', l'. rewrite i32_id by lia. rewrite u64_id by lia.
    rewrite Z2Nat.id in E by lia. rewrite E. msimpl. done.
  - assert (n = 0) as E0 by (unfold PGSIZE in *; lia). rewrite E0 in *. simpl in *.
    exists s, l. split; [done|]. split; [done|]. split; [by apply released_nil|].
    intros v Hv. unfold clear_run. by rewrite decide_False by lia.
Qed.

(** * uvmalloc *)

Definition alloc_pte (xperm x : Z) : Z := pte_of_page x (Z.lor (Z.lor (Z.lor PTE_R PTE_U) xperm) PTE_V).

(** [f] with the pages [xs] mapped from [a] on. *)
Definition map_list (a : Z) (xs : list Z) (perm : Z) (f : Z → Z) : Z → Z := λ v,
  match decide (0 ≤ v / PGSIZE - a / PGSIZE) with
  | left _ =>
      match xs !! Z.to_nat (v / PGSIZE - a / PGSIZE) with
      | Some x => alloc_pte perm x
      | None => f v
      end
  | right _ => f v
  end.

(** The pages [xs] have been taken from the free list, zeroed, and are not yet anyone's. *)
Record taken (s : kmem) (root : Z) (T : ptree) (l : list Z) (xs : list Z)
    (s' : kmem) (T' : ptree) (l' : list Z) : Prop := {
  tk_pt : pt_ok s' root T';
  tk_inv : kmem_inv s' l';
  tk_sub : T ⊆ T';
  tk_new : ∀ path p, T' !! path = Some p → T !! path = Some p ∨ p ∈ l;
  tk_free : ∀ x, x ∈ l' → x ∈ l;
  tk_nodup : NoDup xs;
  tk_pages : ∀ x, x ∈ xs → is_page x ∧ x ∈ l ∧ ¬ pt_page T' x ∧ refs s' x = 1;
  tk_zero : ∀ x b, x ∈ xs → x ≤ b < x + PGSIZE → rd (ram s') b = 0;
  tk_refs : ∀ x, is_page x → refs s x ≠ 0 → refs s' x = refs s x;
  tk_mem : ∀ b, ¬ in_pages T' b → (∀ x, x ∈ l → ¬ (x ≤ b < x + PGSIZE)) → rd (ram s') b = rd (ram s) b;
}.

Lemma taken_nil s root T l : pt_ok s root T → kmem_inv s l → taken s root T l [] s T l.
Proof. intros. constructor; try done; [by left|constructor|set_solver|set_solver]. Qed.

Section taken_step.
Context (s : kmem) (root : Z) (T : ptree) (l xs : list Z) (s1 : kmem) (T1 : ptree) (x : Z) (l1 : list Z).
Context (s2 s3 : kmem) (T3 : ptree) (l3 : list Z) (f : Z → Z).
Hypothesis A : taken s root T l xs s1 T1 (x :: l1).
Hypothesis Hz : zeroed s1 s2 x l1.
Hypothesis G : evolves root s2 T1 l1 s3 T3 l3 f.

Local Lemma ts_new p : pt_page T3 p → pt_page T1 p ∨ p ∈ l1.
Proof. intros [path Hp]. destruct (g_new _ _ _ _ _ _ _ _ G _ _ Hp); [left; by eexists|by right]. Qed.

Local Lemma ts_refs y : is_page y → refs s1 y ≠ 0 → refs s3 y = refs s1 y ∧ y ≠ x.
Proof.
  intros Hy Hr. assert (y ≠ x) as Hyx by (intros ->; by apply Hr, Hz). split; [|done].
  assert (refs s2 y = refs s1 y) as E.
  { apply (z_refs _ _ _ _ Hz). intros E. apply ref_index_inj in E; [done|done|apply Hz]. }
  rewrite (g_refs _ _ _ _ _ _ _ _ G); [done|done|lia].
Qed.

Local Lemma ts_notT3 y : y ∈ xs ++ [x] → ¬ pt_page T3 y.
Proof.
  intros Hy Hp. apply ts_new in Hp.
  apply elem_of_app in Hy as [Hy| ->%list_elem_of_singleton].
  - destruct (tk_pages _ _ _ _ _ _ _ _ A y Hy) as (_ & _ & Hn & Hy1). destruct Hp as [|Hp]; [done|].
    apply (in_use_not_free s1 (x :: l1) y); [apply A|lia|set_solver].
  - destruct Hp as [[path Hp]|Hp]; [|by destruct (z_fresh _ _ _ _ Hz)].
    pose proof (pt_ref _ _ _ (tk_pt _ _ _ _ _ _ _ _ A) _ _ Hp). pose proof (z_ref0 _ _ _ _ Hz). lia.
Qed.

Local Lemma ts_mem y b :
  is_page y → ¬ pt_page T3 y → y ≤ b < y + PGSIZE → rd (ram s3) b = rd (ram s2) b.
Proof.
  intros Hy Hn Hb. apply (g_mem _ _ _ _ _ _ _ _ G). intros (q & Hq & Hqb). apply Hn.
  replace y with q; [done|]. eapply page_unique; [|done..]. eapply pt_page_is_page; [apply G|done].
Qed.

Local Lemma ts_pages y : y ∈ xs ++ [x] → is_page y ∧ y ∈ l ∧ ¬ pt_page T3 y ∧ refs s3 y = 1.
Proof.
  intros Hy. pose proof (ts_notT3 y Hy) as Hn.
  apply elem_of_app in Hy as [Hy| ->%list_elem_of_singleton].
  - destruct (tk_pages _ _ _ _ _ _ _ _ A y Hy) as (? & ? & _ & Hy1). split_and!; try done.
    destruct (ts_refs y) as [-> _]; [done|lia|done].
  - assert (refs s2 x = 1) by apply Hz. split_and!; try done; [apply Hz| |].
    + apply (tk_free _ _ _ _ _ _ _ _ A). set_solver.
    + rewrite (g_refs _ _ _ _ _ _ _ _ G); [done|apply Hz|lia].
Qed.

Local Lemma ts_zero y b : y ∈ xs ++ [x] → y ≤ b < y + PGSIZE → rd (ram s3) b = 0.
Proof.
  intros Hy Hb. destruct (ts_pages y Hy) as (Hpg & _ & Hn & _). rewrite (ts_mem y) by done.
  apply elem_of_app in Hy as [Hy| ->%list_elem_of_singleton]; [|by apply Hz].
  destruct (tk_pages _ _ _ _ _ _ _ _ A y Hy) as (_ & _ & _ & Hy1).
  destruct (ts_refs y) as [_ Hyx]; [done|lia|]. rewrite (z_mem _ _ _ _ Hz).
  - by apply (tk_zero _ _ _ _ _ _ _ _ A y).
  - destruct (is_page_disjoint y x); [done|apply Hz|done|lia|lia].
Qed.

(** One more page is taken, and the table changed. *)
Lemma taken_step : taken s root T l (xs ++ [x]) s3 T3 l3.
Proof.
  constructor; try apply G; [| | | |apply ts_pages|apply ts_zero| |].
  - etransitivity; [apply A|apply G].
  - intros path p Hp. destruct (g_new _ _ _ _ _ _ _ _ G _ _ Hp) as [Hp'|Hp'].
    + by apply (tk_new _ _ _ _ _ _ _ _ A) in Hp'.
    + right. apply (tk_free _ _ _ _ _ _ _ _ A). set_solver.
  - intros y Hy. apply (tk_free _ _ _ _ _ _ _ _ A). destruct (g_suffix _ _ _ _ _ _ _ _ G) as [k ->].
    set_solver.
  - apply NoDup_app. split_and!; [apply A| |apply NoDup_singleton].
    intros y Hy ->%list_elem_of_singleton. destruct (tk_pages _ _ _ _ _ _ _ _ A x Hy) as (_ & _ & _ & Hx).
    pose proof (z_ref0 _ _ _ _ Hz). lia.
  - intros y Hy Hr0. pose proof (tk_refs _ _ _ _ _ _ _ _ A y Hy Hr0) as E.
    destruct (ts_refs y) as [-> _]; [done|lia|done].
  - intros b Hb Hbx. rewrite (g_mem _ _ _ _ _ _ _ _ G) by done. rewrite (z_mem _ _ _ _ Hz).
    + apply (tk_mem _ _ _ _ _ _ _ _ A); [|done]. intros (p & [path Hp] & Hpb).
      apply Hb. exists p. split; [|done]. exists path. eapply lookup_weaken; [done|apply G].
    + specialize (Hbx x (tk_free _ _ _ _ _ _ _ _ A x ltac:(set_solver))). lia.
Qed.

Local Lemma ts_pte2 v : 0 ≤ v → pte_of s2 T1 v = pte_of s1 T1 v.
Proof.
  apply (pt_ok_fresh s1 s2 root T1 x (tk_pt _ _ _ _ _ _ _ _ A)); apply Hz.
Qed.

End taken_step.

(** Giving back the last page taken. *)
Lemma taken_kfree s root T l xs x s1 T1 l1 :
  kmem_inv s l → taken s root T l (xs ++ [x]) s1 T1 l1 →
  ∃ s2 l2, kfree x s1 = Ret tt s2 ∧ taken s root T l xs s2 T1 l2 ∧
    (∀ v, 0 ≤ v → pte_of s2 T1 v = pte_of s1 T1 v).
Proof.
  intros Hinv A. destruct (tk_pages _ _ _ _ _ _ _ _ A x ltac:(set_solver)) as (Hx & Hxl & HnT & Hx1).
  destruct (kfree_pt s1 root T1 l1 x) as (s2 & l2 & E & Hok & Hrel & Hpte);
    [apply A|apply A|done|done|lia|].
  exists s2, l2. split; [done|]. split; [|done].
  assert (∀ y, y ∈ xs → y ≠ x) as Hne.
  { intros y Hy ->. pose proof (tk_nodup _ _ _ _ _ _ _ _ A) as Hnd.
    apply NoDup_app in Hnd as (_ & Hd & _). apply (Hd x); set_solver. }
  assert (∀ y, is_page y → y ≠ x → refs s2 y = refs s1 y) as Hr2.
  { intros y Hy Hyx. rewrite (rel_refs _ _ _ _ _ _ Hrel), occ_cons by done.
    rewrite decide_False by congruence. change (occ [] y) with 0. lia. }
  constructor; try apply A; try done; try apply Hrel.
  - intros y [Hy|[->%list_elem_of_singleton _]]%(rel_free _ _ _ _ _ _ Hrel); [by apply A|done].
  - by pose proof (tk_nodup _ _ _ _ _ _ _ _ A) as (? & _ & _)%NoDup_app.
  - intros y Hy. destruct (tk_pages _ _ _ _ _ _ _ _ A y ltac:(set_solver)) as (? & ? & ? & ?).
    split_and!; try done. rewrite Hr2; auto.
  - intros y b Hy Hb. destruct (tk_pages _ _ _ _ _ _ _ _ A y ltac:(set_solver)) as (Hyp & ? & Hn & ?).
    rewrite (rel_mem _ _ _ _ _ _ Hrel).
    + apply (tk_zero _ _ _ _ _ _ _ _ A y); [set_solver|done].
    + intros (q & Hq & Hqb). apply Hn. replace y with q; [done|].
      eapply page_unique; [by eapply (pt_page_is_page s1 root); [apply A|]|done..].
    + intros q Hq Hqb. pose proof (inv_pages _ _ (proj1 (rel_inv _ _ _ _ _ _ Hrel))) as Hp.
      rewrite Forall_forall in Hp. assert (q = y) as -> by (eapply page_unique; eauto).
      pose proof (inv_free _ _ (proj1 (rel_inv _ _ _ _ _ _ Hrel))) as Hz. rewrite Forall_forall in Hz.
      specialize (Hz y Hq). simpl in Hz. rewrite Hr2 in Hz; [lia|done|by apply Hne].
  - intros y Hy Hr. destruct (decide (y = x)) as [->|Hyx].
    { by destruct (in_use_not_free s l x (proj1 Hinv) Hr). }
    rewrite Hr2 by done. by apply A.
  - intros b Hb Hbl. rewrite (rel_mem _ _ _ _ _ _ Hrel); [by apply A|done|].
    intros y [Hy|[->%list_elem_of_singleton _]]%(rel_free _ _ _ _ _ _ Hrel); [by apply Hbl, A|by apply Hbl].
Qed.

(** Giving all of them back. *)
Lemma taken_released s root T l xs s1 T1 l1 s2 l2 :
  kmem_inv s l → taken s root T l xs s1 T1 l1 → pt_ok s2 root T1 → released s1 T1 l1 s2 l2 xs →
  taken s root T l [] s2 T1 l2.
Proof.
  intros Hinv A Hok Hrel.
  constructor; try apply A; try done; try apply Hrel; [|constructor|set_solver|set_solver| |].
  - intros y [Hy|[Hy _]]%(rel_free _ _ _ _ _ _ Hrel); [by apply A|].
    by apply (tk_pages _ _ _ _ _ _ _ _ A y Hy).
  - intros y Hy Hr. rewrite (rel_refs _ _ _ _ _ _ Hrel), (tk_refs _ _ _ _ _ _ _ _ A) by done.
    assert (¬ 0 < occ xs y).
    { rewrite <- occ_pos. intros Hx. apply (in_use_not_free s l y (proj1 Hinv) Hr).
      by apply (tk_pages _ _ _ _ _ _ _ _ A y Hx). }
    pose proof (occ_nonneg xs y). lia.
  - intros b Hb Hbl. rewrite (rel_mem _ _ _ _ _ _ Hrel); [by apply A|done|].
    intros y [Hy|[Hy _]]%(rel_free _ _ _ _ _ _ Hrel); [by apply Hbl, A|].
    by apply Hbl, (tk_pages _ _ _ _ _ _ _ _ A y Hy).
Qed.

Lemma map_list_snoc a xs perm f x v :
  map_list a (xs ++ [x]) perm f v =
  set_pte (a + Z.of_nat (length xs) * PGSIZE) (alloc_pte perm x) (map_list a xs perm f) v.
Proof.
  unfold map_list, set_pte. rewrite Z.div_add by done.
  destruct (decide (0 ≤ v / PGSIZE - a / PGSIZE)) as [Hge|Hlt]; [|rewrite decide_False by lia; done].
  destruct (decide (v / PGSIZE = a / PGSIZE + Z.of_nat (length xs))) as [E|E].
  - replace (Z.to_nat _) with (length xs) by lia. by rewrite list_lookup_middle.
  - destruct (decide (Z.to_nat (v / PGSIZE - a / PGSIZE) < length xs)%nat) as [Hl|Hl].
    + by rewrite lookup_app_l.
    + rewrite !lookup_ge_None_2; [done|lia|rewrite length_app; simpl; lia].
Qed.

Lemma map_list_nil a perm f v : map_list a [] perm f v = f v.
Proof. unfold map_list. by case_decide. Qed.

(** * The loop of uvmalloc *)

Section uvmalloc.
Context (s : kmem) (root : Z) (T : ptree) (l : list Z) (a xperm : Z).
Hypothesis Hinv : kmem_inv s l.
Hypothesis Ha : 0 ≤ a ∧ a mod PGSIZE = 0.
Hypothesis Hperm : 0 ≤ xperm < 1024.

Lemma alloc_flags_bound : 0 ≤ Z.lor (Z.lor (Z.lor PTE_R PTE_U) xperm) PTE_V < 1024.
Proof.
  apply flags_lor; [apply flags_lor; [|done]|apply PTE_V_flag].
  change (Z.lor PTE_R PTE_U) with 18. lia.
Qed.

Lemma alloc_pte_facts x :
  is_page x → bit (alloc_pte xperm x) 0 = true ∧ PTE_FLAGS (alloc_pte xperm x) ≠ PTE_V ∧
    PTE2PA (alloc_pte xperm x) = x.
Proof.
  intros Hx. pose proof (is_page_u64 x Hx). destruct Hx as [Hal _]. pose proof alloc_flags_bound.
  unfold alloc_pte. rewrite PTE2PA_of_page, PTE_FLAGS_of_page by done. split_and!; [| |done].
  - rewrite bit_pte_of_page by (done || lia). rewrite Z.lor_spec. by rewrite orb_true_r.
  - intros E. apply (f_equal (λ f, bit f 1)) in E. rewrite !Z.lor_spec in E. done.
Qed.

(** The mappings made so far. *)
Definition mapped_so_far (xs : list Z) (s1 : kmem) (T1 : ptree) : Prop :=
  ∀ v, 0 ≤ v < MAXVA → pte_of s1 T1 v = map_list a xs xperm (pte_of s T) v.

Lemma map_list_at xs f j x :
  xs !! j = Some x → map_list a xs xperm f (a + Z.of_nat j * PGSIZE) = alloc_pte xperm x.
Proof.
  intros Hj. unfold map_list. rewrite Z.div_add by done.
  rewrite decide_True by lia. by replace (Z.to_nat _) with j by lia; rewrite Hj.
Qed.

Lemma run_pas_list xs f :
  (∀ j x, xs !! j = Some x → PTE2PA (f (a + Z.of_nat j * PGSIZE)) = x) → run_pas f a (length xs) = xs.
Proof.
  clear Ha. revert a. induction xs as [|x xs IH]; intros b Hf; [done|]. simpl. f_equal.
  - rewrite <- (Hf 0%nat x) by done. do 2 f_equal. lia.
  - apply IH. intros j y Hj. rewrite <- (Hf (S j) y) by done. do 2 f_equal. lia.
Qed.

Lemma occ_nodup L x : NoDup L → occ L x ≤ 1.
Proof.
  intros Hnd. unfold occ. pose proof (proj1 (NoDup_count_occ Z.eq_dec L)) as Hc.
  rewrite NoDup_ListNoDup in Hnd. specialize (Hc Hnd x). lia.
Qed.

(** Undoing: unmap and free the pages allocated. *)
Lemma uvmalloc_undo xs s1 T1 l1 :
  taken s root T l xs s1 T1 l1 → mapped_so_far xs s1 T1 →
  a + Z.of_nat (length xs) * PGSIZE ≤ MAXVA →
  (∀ v, a ≤ v < a + Z.of_nat (length xs) * PGSIZE → pte_of s T v = 0) →
  ∃ r s' l', uvmdealloc root (a + Z.of_nat (length xs) * PGSIZE) a s1 = Ret r s' ∧
    taken s root T l [] s' T1 l' ∧ mapped_so_far [] s' T1.
Proof.
  intros A Hmap Hmax Hz. rewrite MAXVA_val in Hmax.
  assert (∀ j x, xs !! j = Some x → pte_of s1 T1 (a + Z.of_nat j * PGSIZE) = alloc_pte xperm x ∧ is_page x)
    as Hj.
  { intros j x Hj. pose proof (lookup_lt_Some _ _ _ Hj). rewrite Hmap, (map_list_at xs _ j x Hj).
    - split; [done|]. apply (tk_pages _ _ _ _ _ _ _ _ A). by eapply list_elem_of_lookup_2.
    - rewrite MAXVA_val. unfold PGSIZE in *. lia. }
  assert (run_pas (pte_of s1 T1) a (length xs) = xs) as Erun.
  { apply run_pas_list. intros j x Hx. destruct (Hj j x Hx) as [-> Hp]. by apply alloc_pte_facts. }
  destruct xs as [|x0 xs'] eqn:Exs.
  { exists a, s1, l1. split; [|done]. unfold uvmdealloc. simpl. rewrite Z.add_0_r.
    by rewrite Z.leb_refl. }
  rewrite <- Exs in *. assert (0 < Z.of_nat (length xs)) as Hpos by (subst; simpl; lia). clear Exs.
  set (n := length xs) in *.
  assert (pages_between a (a + Z.of_nat n * PGSIZE) = n ∧ PGROUNDUP a = a) as [En Ea].
  { unfold pages_between. rewrite !PGROUNDUP_aligned; unfold PGSIZE in *; try lia; zdm. }
  destruct (uvmdealloc_ok s1 root T1 l1 (a + Z.of_nat n * PGSIZE) a) as (s' & l' & E & Hok & Hrel & Hpte);
    rewrite ?En, ?Ea, ?Erun in *; try apply A; try (rewrite ?MAXVA_val; unfold PGSIZE in *; lia).
  { intros k Hk. destruct (lookup_lt_is_Some_2 xs (Z.to_nat k)) as [x Hx]; [fold n; lia|].
    destruct (Hj _ _ Hx) as [Ep Hp]. rewrite Z2Nat.id in Ep by lia. rewrite Ep.
    by destruct (alloc_pte_facts x Hp) as (? & ? & _). }
  { apply Forall_forall. intros x Hx. destruct (tk_pages _ _ _ _ _ _ _ _ A x Hx) as (? & ? & ? & Hr).
    pose proof (occ_nodup xs x (tk_nodup _ _ _ _ _ _ _ _ A)). split_and!; try done; lia. }
  exists a, s', l'. split; [done|]. split.
  - by apply (taken_released s root T l xs s1 T1 l1).
  - intros v Hv. rewrite Hpte by done. rewrite map_list_nil. unfold clear_run.
    destruct Ha as [Ha0 Hal]. case_decide as Hin.
    + symmetry. apply Hz. unfold PGSIZE in *. zdm.
    + rewrite Hmap by done. unfold map_list. case_decide; [|done].
      rewrite lookup_ge_None_2; [done|fold n; lia].
Qed.

Context (newsz : Z) (n : nat).
Hypothesis Hmax : a + Z.of_nat n * PGSIZE ≤ MAXVA.
Hypothesis Hunmapped : ∀ v, a ≤ v < a + Z.of_nat n * PGSIZE → pte_of s T v = 0.

Local Abbreviation at_ xs := (a + Z.of_nat (length xs) * PGSIZE).

(** One round: a page more, or everything undone. *)
Lemma uvmalloc_step xs s1 T1 l1 :
  taken s root T l xs s1 T1 l1 → mapped_so_far xs s1 T1 → at_ xs < newsz → (length xs < n)%nat →
  (∃ x s' T' l', uvmalloc_body root a newsz xperm (at_ xs) s1 = Ret (inl (at_ (xs ++ [x]))) s' ∧
     taken s root T l (xs ++ [x]) s' T' l' ∧ mapped_so_far (xs ++ [x]) s' T') ∨
  (∃ s' T' l', uvmalloc_body root a newsz xperm (at_ xs) s1 = Ret (inr 0) s' ∧
     taken s root T l [] s' T' l' ∧ mapped_so_far [] s' T').
Proof.
  intros A Hmap Hlt Hn. destruct Ha as [Ha0 Hal]. rewrite MAXVA_val in Hmax.
  assert (at_ xs < MAXVA ∧ at_ xs ≤ MAXVA - PGSIZE) as [Hva Hva'] by (rewrite MAXVA_val; unfold PGSIZE in *; lia).
  assert (∀ s2 T2 l2, taken s root T l xs s2 T2 l2 → mapped_so_far xs s2 T2 →
    ∃ r s' l', uvmdealloc root (at_ xs) a s2 = Ret r s' ∧ taken s root T l [] s' T2 l' ∧
      mapped_so_far [] s' T2) as Hundo.
  { intros. apply (uvmalloc_undo xs _ _ l2); try done; [lia|]. intros v Hv. apply Hunmapped.
    unfold PGSIZE in *. lia. }
  unfold uvmalloc_body. rewrite (proj2 (Z.ltb_lt _ _)) by done. msimpl.
  destruct l1 as [|x l1].
  { right. rewrite kalloc_empty by apply A. msimpl. cbn [Z.eqb].
    destruct (Hundo s1 T1 [] A Hmap) as (r & s' & l' & E & A' & Hm'). rewrite E. eauto 7. }
  destruct (kalloc_zeroed s1 x l1) as (s1' & s2 & E1 & E2 & Hz); [apply A|].
  rewrite E1. msimpl. rewrite (proj2 (Z.eqb_neq x 0)) by apply is_page_nonzero, Hz.
  msimpl. rewrite E2. msimpl.
  destruct (pt_ok_fresh s1 s2 root T1 x) as [Hok2 Hpte2]; [apply A|apply Hz..|].
  pose proof (is_page_range x (z_page _ _ _ _ Hz)) as (_ & ? & ?).
  destruct (mappages_one s2 root T1 l1 (at_ xs) x (Z.lor (Z.lor PTE_R PTE_U) xperm)) as
    (r & s3 & T3 & l3 & E3 & Hr); try done; try apply Hz.
  { unfold PGSIZE in *. zdm. } { unfold PGSIZE in *. lia. } { unfold PHYSTOP, KERNBASE, PGSIZE in *. lia. }
  { apply flags_lor; [|done]. change (Z.lor PTE_R PTE_U) with 18. lia. }
  rewrite E3. msimpl. destruct Hr as [[-> G]|(-> & G & ->)]; cbn [Z.eqb negb].
  - left. exists x, s3, T3, l3. split_and!.
    + rewrite length_app. simpl. rewrite MAXVA_val in *. rewrite u64_id by (unfold PGSIZE in *; lia).
      do 2 f_equal. unfold PGSIZE. lia.
    + by eapply taken_step.
    + intros v Hv. rewrite (g_pte _ _ _ _ _ _ _ _ G v Hv), map_list_snoc. unfold set_pte.
      case_decide; [done|]. rewrite Hpte2 by lia. by apply Hmap.
  - right. destruct (taken_kfree s root T l xs x s3 T3 []) as (s4 & l4 & E4 & A4 & Hpte4); [done| |].
    { by eapply taken_step. }
    rewrite E4. msimpl. destruct (Hundo s4 T3 l4 A4) as (r & s' & l' & E & A' & Hm').
    { intros v Hv. rewrite Hpte4, (g_pte _ _ _ _ _ _ _ _ G), Hpte2 by lia. by apply Hmap. }
    rewrite E. eauto 7.
Qed.

Lemma uvmalloc_loop : (∀ k, a + k * PGSIZE < newsz ↔ k < Z.of_nat n) →
  ∀ m xs s1 T1 l1 fuel, (length xs + m = n)%nat → (m < fuel)%nat →
  taken s root T l xs s1 T1 l1 → mapped_so_far xs s1 T1 →
  ∃ r s' T' l' xs', loop fuel (uvmalloc_body root a newsz xperm) (at_ xs) s1 = Ret r s' ∧
    taken s root T l xs' s' T' l' ∧ mapped_so_far xs' s' T' ∧
    (r = newsz ∧ length xs' = n ∨ r = 0 ∧ xs' = []).
Proof.
  intros Hns m. induction m as [|m IH]; intros xs s1 T1 l1 fuel Hm Hf A Hmap.
  - destruct fuel as [|fuel]; [lia|]. exists newsz, s1, T1, l1, xs.
    split; [|split_and!; try done; left; split; [done|lia]].
    apply loop_done. unfold uvmalloc_body. rewrite (proj2 (Z.ltb_ge _ _)); [done|].
    apply Z.nlt_ge. rewrite Hns. lia.
  - destruct fuel as [|fuel]; [lia|].
    destruct (uvmalloc_step xs s1 T1 l1 A Hmap) as [(x & s' & T' & l' & E & A' & Hm')|(s' & T' & l' & E & A' & Hm')].
    { apply Hns. lia. } { lia. }
    + rewrite (loop_next _ _ _ _ _ _ E). apply (IH (xs ++ [x]) s' T' l'); try done; [|lia].
      rewrite length_app. simpl. lia.
    + exists 0, s', T', l', []. rewrite (loop_done _ _ _ _ _ _ E). split_and!; try done. by right.
Qed.

End uvmalloc.

(** [uvmalloc] maps fresh zeroed pages up to the new size, or leaves everything as it was. *)
Lemma uvmalloc_ok s root T l oldsz newsz xperm :
  pt_ok s root T → kmem_inv s l → 0 ≤ oldsz ≤ newsz → newsz ≤ MAXVA → 0 ≤ xperm < 1024 →
  (∀ v, PGROUNDUP oldsz ≤ v < PGROUNDUP newsz → pte_of s T v = 0) →
  ∃ r s' T' l' xs, uvmalloc root oldsz newsz xperm s = Ret r s' ∧
    taken s root T l xs s' T' l' ∧
    (∀ v, 0 ≤ v < MAXVA → pte_of s' T' v = map_list (PGROUNDUP oldsz) xs xperm (pte_of s T) v) ∧
    (r = newsz ∧ length xs = pages_between oldsz newsz ∨ r = 0 ∧ xs = []).
Proof.
  intros Hok Hinv Hsz Hmax Hperm Hun. rewrite MAXVA_val in Hmax.
  destruct (PGROUNDUP_props oldsz) as [Hr1 Ha1]; [unfold PGSIZE; lia|].
  destruct (PGROUNDUP_props newsz) as [Hr2 Ha2]; [unfold PGSIZE; lia|].
  assert (PGROUNDUP oldsz ≤ PGROUNDUP newsz) as Hle by (unfold PGSIZE in *; zdm).
  unfold uvmalloc. rewrite (proj2 (Z.ltb_ge _ _)) by lia. cbv zeta.
  set (n := pages_between oldsz newsz).
  assert (PGROUNDUP newsz = PGROUNDUP oldsz + Z.of_nat n * PGSIZE) as En.
  { unfold n, pages_between. unfold PGSIZE in *. zdm. }
  assert (∀ b fuel, loop fuel (uvmalloc_body root b newsz xperm) b s =
    loop fuel (uvmalloc_body root b newsz xperm) (b + Z.of_nat (length (@nil Z)) * PGSIZE) s) as E0.
  { intros. by rewrite Z.add_0_r. }
  rewrite E0. apply (uvmalloc_loop s root T l (PGROUNDUP oldsz) xperm Hinv ltac:(lia) Hperm newsz n) with
    (m := n) (T1 := T) (l1 := l); try done.
  - rewrite MAXVA_val. unfold PGSIZE in *. zdm.
  - intros v Hv. apply Hun. lia.
  - unfold PGSIZE in *. intros k. zdm.
  - unfold n, pages_between, PGSIZE in *. zdm.
  - by apply taken_nil.
  - intros v Hv. by rewrite map_list_nil.
Qed.

End uvm.
