(* ===== verification/UvmFree.v ===== *)
(** Taking an address space apart: [freewalk] and [uvmfree] (vm.c) give back every page of
    a table whose mappings have been removed, and drop one reference to every user page. *)

From S2P Require Import Prelude Mem Riscv Kalloc Vm PageTable AddrSpace Cow Uvm.

(** The pages of the part of the table below [path], [d] levels deep, children first. *)
Fixpoint pages_under (T : ptree) (d : nat) (path : list Z) : list Z :=
  match d with
  | O => []
  | S d =>
      match T !! path with
      | Some p => concat (map (λ i, pages_under T d (path ++ [i])) (seqZ 0 512)) ++ [p]
      | None => []
      end
  end.

Section uvmfree.
Context `{KernelImageOk}.

(** The pages in [F] have gone to the free list; of the others only those in [D] may have
    been written to. *)
Record freed (s : kmem) (l : list Z) (s' : kmem) (l' : list Z) (F D : list Z) : Prop := {
  fr_inv : kmem_inv s' l';
  fr_free : ∀ x, x ∈ l' ↔ x ∈ l ∨ x ∈ F;
  fr_refs : ∀ x, is_page x → refs s' x = if decide (x ∈ F) then 0 else refs s x;
  fr_mem : ∀ a, (∀ x, x ∈ F → ¬ (x ≤ a < x + PGSIZE)) → (∀ x, x ∈ D → ¬ (x ≤ a < x + PGSIZE)) →
    rd (ram s') a = rd (ram s) a;
}.

Lemma freed_nil s l D : kmem_inv s l → freed s l s l [] D.
Proof.
  intros. constructor; try done; intros x. rewrite elem_of_nil. tauto.
Qed.

Lemma freed_app s1 l1 s2 l2 s3 l3 F1 F2 D :
  freed s1 l1 s2 l2 F1 D → freed s2 l2 s3 l3 F2 D → freed s1 l1 s3 l3 (F1 ++ F2) D.
Proof.
  intros A B. constructor.
  - apply B.
  - intros x. rewrite (fr_free _ _ _ _ _ _ B), (fr_free _ _ _ _ _ _ A), elem_of_app. tauto.
  - intros x Hx. rewrite (fr_refs _ _ _ _ _ _ B), (fr_refs _ _ _ _ _ _ A) by done.
    pose proof (elem_of_app F1 F2 x). repeat case_decide; tauto.
  - intros a Ha HD. rewrite (fr_mem _ _ _ _ _ _ B), (fr_mem _ _ _ _ _ _ A); try done;
      intros x Hx; apply Ha, elem_of_app; auto.
Qed.

Lemma freed_dirty s l s' l' F D D' :
  freed s l s' l' F D → (∀ x, x ∈ D → x ∈ F ∨ x ∈ D') → freed s l s' l' F D'.
Proof.
  intros A HD. constructor; try apply A. intros a HF HD'. apply (fr_mem _ _ _ _ _ _ A); [done|].
  intros x [Hx|Hx]%HD; auto.
Qed.

(** Freeing one page with a single reference. *)
Lemma kfree_freed s l p D :
  kmem_inv s l → is_page p → refs s p = 1 → ∃ s' l', kfree p s = Ret tt s' ∧ freed s l s' l' [p] D.
Proof.
  intros Hinv Hp Hr. assert (p ∉ l) as Hni by (apply (in_use_not_free s); [apply Hinv|lia]).
  destruct (kfree_spec s p l Hinv Hp Hni) as (s' & E & [Ho Hre Hrs Hm _ Hlk]); [lia|].
  rewrite Hr in *. simpl in Ho, Hre. exists s', (p :: l). split; [done|]. constructor.
  - split; [done|]. rewrite Hlk. apply Hinv.
  - intros x. rewrite elem_of_cons, list_elem_of_singleton. tauto.
  - intros x Hx. case_decide as E0; rewrite list_elem_of_singleton in E0; [by subst|].
    apply Hrs. intros Ei. apply ref_index_inj in Ei; done.
  - intros a Ha _. apply Hm. specialize (Ha p ltac:(by apply list_elem_of_singleton)). lia.
Qed.

(** A store in a page that is not free. *)
Lemma store_freed s l p a v :
  kmem_inv s l → is_page p → p ∉ l → p ≤ a → a + 8 ≤ p + PGSIZE →
  ∃ s', store64 a v s = Ret tt s' ∧ freed s l s' l [] [p] ∧
    (∀ b, b < a ∨ a + 8 ≤ b → rd (ram s') b = rd (ram s) b).
Proof.
  intros [Hf Hlk] Hp Hni H1 H2. pose proof (is_page_range p Hp) as (? & ? & ?).
  rewrite store64_ok by (unfold PGSIZE in *; lia). eexists. split; [done|].
  assert (∀ b, b < a ∨ a + 8 ≤ b → rd (write64 (ram s) a v) b = rd (ram s) b) as Hm
    by (intros; by apply rd_write64_out).
  split; [|done]. constructor.
  - split; [|done]. apply free_ok_set_ram; [done|]. intros q Hq b Hb. apply Hm.
    pose proof (inv_pages _ _ Hf) as Hpg. rewrite Forall_forall in Hpg.
    destruct (is_page_disjoint q p (Hpg _ Hq) Hp); [congruence|lia..].
  - intros x. rewrite elem_of_nil. tauto.
  - intros x _. by rewrite decide_False by set_solver.
  - intros b _ Hb. apply Hm. specialize (Hb p ltac:(by apply list_elem_of_singleton)). lia.
Qed.

(** * The pages of a subtree *)

Section subtree.
Context (s0 : kmem) (root : Z) (T : ptree).
Hypothesis Hok : pt_ok s0 root T.

Lemma pt_prefix path suf q : T !! (path ++ suf) = Some q → is_Some (T !! path).
Proof.
  revert q. induction suf as [|i suf IH] using rev_ind; intros q Hq; [rewrite app_nil_r in Hq; eauto|].
  rewrite app_assoc in Hq. destruct (pt_parent _ _ _ Hok _ _ _ Hq) as [q' Hq']. eauto.
Qed.

Lemma elem_of_pages_under d : ∀ path q,
  q ∈ pages_under T d path ↔ ∃ suf, (length suf < d)%nat ∧ T !! (path ++ suf) = Some q.
Proof.
  induction d as [|d IH]; intros path q; cbn [pages_under].
  { split; [set_solver|]. intros (suf & ? & _). lia. }
  split.
  - destruct (T !! path) as [p|] eqn:Hp; [|set_solver].
    intros [Hq| ->%list_elem_of_singleton]%elem_of_app.
    + apply list_elem_of_In, in_concat in Hq as (L & HL & Hq%list_elem_of_In).
      apply in_map_iff in HL as (i & <- & _). apply IH in Hq as (suf & ? & Hq).
      exists (i :: suf). simpl. rewrite <- app_assoc in Hq. split; [lia|done].
    + exists []. rewrite app_nil_r. split; [simpl; lia|done].
  - intros (suf & Hl & Hq). destruct (pt_prefix path suf q Hq) as [p Hp]. rewrite Hp.
    apply elem_of_app. destruct suf as [|i suf].
    + right. rewrite app_nil_r in Hq. simplify_eq. set_solver.
    + left. apply list_elem_of_In, in_concat. exists (pages_under T d (path ++ [i])). split.
      * apply in_map_iff. exists i. split; [done|]. apply list_elem_of_In, elem_of_seqZ.
        destruct (pt_dom _ _ _ Hok _ _ Hq) as [_ Hf].
        apply Forall_app in Hf as [_ Hf]. inversion Hf; lia.
      * apply list_elem_of_In, IH. exists suf. rewrite <- app_assoc. simpl in *. split; [lia|done].
Qed.

Lemma pages_under_disjoint d path i j q :
  q ∈ pages_under T d (path ++ [i]) → q ∈ pages_under T d (path ++ [j]) → i = j.
Proof.
  intros (suf & _ & Hi)%elem_of_pages_under (suf' & _ & Hj)%elem_of_pages_under.
  pose proof (pt_inj _ _ _ Hok _ _ _ Hi Hj) as E. rewrite <- !app_assoc in E.
  by apply app_inv_head in E as [=].
Qed.

Lemma pages_under_self d path i p :
  T !! path = Some p → p ∉ pages_under T d (path ++ [i]).
Proof.
  intros Hp (suf & _ & Hq)%elem_of_pages_under. pose proof (pt_inj _ _ _ Hok _ _ _ Hp Hq) as E.
  apply (f_equal length) in E. rewrite !length_app in E. simpl in E. lia.
Qed.

Lemma pages_under_page d path q : q ∈ pages_under T d path → is_page q.
Proof. intros (suf & _ & Hq)%elem_of_pages_under. by eapply pt_is_page. Qed.

(** * freewalk *)

(** No leaf entry is valid. *)
Hypothesis Hclear : ∀ path p i, T !! path = Some p → length path = 2%nat → 0 ≤ i < 512 →
  bit (read64 (ram s0) (p + 8 * i)) 0 = false.

Lemma entry path p i :
  T !! path = Some p → 0 ≤ i < 512 →
  match T !! (path ++ [i]) with
  | Some c => read64 (ram s0) (p + 8 * i) = pte_of_page c PTE_V
  | None => bit (read64 (ram s0) (p + 8 * i)) 0 = false
  end.
Proof.
  intros Hp Hi. destruct (pt_dom _ _ _ Hok _ _ Hp) as [Hl _].
  destruct (decide (length path = 2%nat)) as [E|E].
  - destruct (T !! (path ++ [i])) as [c|] eqn:Hc; [|by apply (Hclear path)].
    destruct (pt_dom _ _ _ Hok _ _ Hc) as [Hl' _]. rewrite length_app in Hl'. simpl in Hl'. lia.
  - apply (pt_child _ _ _ Hok path); [done|lia|done].
Qed.

(** The pages in [F] are as they were in [s0]. *)
Definition intact (s : kmem) (F : list Z) : Prop :=
  ∀ q, q ∈ F → refs s q = 1 ∧ ∀ a, q ≤ a < q + PGSIZE → rd (ram s) a = rd (ram s0) a.

(** Freeing some pages and writing to others leaves the rest intact. *)
Lemma intact_freed s l s' l' F D F' :
  freed s l s' l' F D → (∀ q, q ∈ F ∨ q ∈ D → is_page q) → (∀ q, q ∈ F' → is_page q) →
  (∀ q, q ∈ F' → q ∉ F ∧ q ∉ D) → intact s F' → intact s' F'.
Proof.
  intros A HFD HF' Hd Hin q Hq. destruct (Hin q Hq) as [Hr Hm]. destruct (Hd q Hq) as [HnF HnD].
  split.
  - rewrite (fr_refs _ _ _ _ _ _ A) by auto. by rewrite decide_False.
  - intros a Ha. rewrite (fr_mem _ _ _ _ _ _ A); [by apply Hm|..]; intros x Hx Hxa;
      assert (x = q) as -> by (eapply page_unique; eauto); done.
Qed.

Lemma child_pte_flags c : is_page c →
  let v := pte_of_page c PTE_V in
  Z.land v PTE_V ≠ 0 ∧ Z.land v (Z.lor PTE_R (Z.lor PTE_W PTE_X)) = 0 ∧ PTE2PA v = c.
Proof.
  intros Hc v. pose proof (is_page_u64 c Hc). destruct Hc as [Hal _].
  pose proof PTE_V_flag. split_and!; [| |by apply PTE2PA_of_page].
  - intros E. pose proof (land_PTE_V v) as E'. rewrite E in E'. unfold v in E'.
    rewrite bit_pte_of_page in E' by (done || lia). done.
  - unfold v. rewrite pte_of_page_sum by done. change (Z.lor _ _) with 14. change PTE_V with 1.
    apply Z.bits_inj'. intros n Hn. rewrite Z.land_spec, Z.bits_0.
    destruct (Z.lt_ge_cases n 10) as [Hlt|Hge].
    + rewrite <- (Z.mod_pow2_bits_low _ 10) by lia. rewrite Z.add_comm, Z.mod_add by done.
      assert (n = 0 ∨ n = 1 ∨ n = 2 ∨ n = 3 ∨ n = 4 ∨ n = 5 ∨ n = 6 ∨ n = 7 ∨ n = 8 ∨ n = 9) as Hc by lia.
      by repeat destruct Hc as [->|Hc]; subst.
    + rewrite (Z.bits_above_log2 14 n), andb_false_r by (simpl; lia). done.
Qed.

(** The pages below the entries [i], [i+1], ... of the page at [path]. *)
Definition under_from (d : nat) (path : list Z) (i : Z) (k : nat) : list Z :=
  concat (map (λ j, pages_under T d (path ++ [j])) (seqZ i (Z.of_nat k))).

Lemma under_from_S d path i k :
  under_from d path i (S k) = pages_under T d (path ++ [i]) ++ under_from d path (i + 1) k.
Proof. unfold under_from. rewrite seqZ_cons by lia. cbn. do 4 f_equal; lia. Qed.

Lemma elem_of_under_from d path i k q :
  q ∈ under_from d path i k → ∃ j, i ≤ j < i + Z.of_nat k ∧ q ∈ pages_under T d (path ++ [j]).
Proof.
  intros (L & HL & Hq)%list_elem_of_In%in_concat. apply in_map_iff in HL as (j & <- & Hj).
  apply list_elem_of_In, elem_of_seqZ in Hj. exists j. split; [lia|by apply list_elem_of_In].
Qed.

Section node.
Context (d : nat) (path : list Z) (p : Z).
Hypothesis Hp : T !! path = Some p.
Hypothesis IHchild : ∀ i c s l, T !! (path ++ [i]) = Some c → kmem_inv s l →
  intact s (pages_under T d (path ++ [i])) →
  ∃ s' l', freewalk d c s = Ret tt s' ∧ freed s l s' l' (pages_under T d (path ++ [i])) [].

(** What is left to do at entry [i]. *)
Record to_free (i : Z) (k : nat) (s : kmem) (l : list Z) : Prop := {
  tf_inv : kmem_inv s l;
  tf_ref : refs s p = 1;
  tf_slots : ∀ a, p + 8 * i ≤ a < p + PGSIZE → rd (ram s) a = rd (ram s0) a;
  tf_rest : intact s (under_from d path i k);
}.

Local Lemma p_page : is_page p.
Proof. by eapply pt_is_page. Qed.

Local Lemma load_entry i k s l :
  to_free i k s l → 0 ≤ i < 512 → load64 (p + 8 * i) s = Ret (read64 (ram s0) (p + 8 * i)) s.
Proof.
  intros A Hi. pose proof (pt_slot_range p i p_page Hi) as (? & ? & ? & _).
  rewrite load64_ok by done. f_equal. apply read64_ext. intros a Ha. apply (tf_slots _ _ _ _ A).
  unfold PGSIZE. lia.
Qed.

Local Lemma rest_intact i k s l s' l' :
  freed s l s' l' (pages_under T d (path ++ [i])) [p] →
  intact s (under_from d path (i + 1) k) → intact s' (under_from d path (i + 1) k).
Proof.
  intros F. apply (intact_freed _ _ _ _ _ _ _ F).
  - intros q [Hq| ->%list_elem_of_singleton]; [by eapply pages_under_page|apply p_page].
  - intros q (j & _ & Hq)%elem_of_under_from. by eapply pages_under_page.
  - intros q (j & Hj & Hq)%elem_of_under_from. split.
    + intros Hq'. pose proof (pages_under_disjoint _ _ _ _ _ Hq Hq'). lia.
    + intros ->%list_elem_of_singleton. by apply (pages_under_self d path j p).
Qed.

(** One entry. *)
Lemma freewalk_step i k s l :
  to_free i (S k) s l → 0 ≤ i < 512 →
  ∃ s' l', freewalk_body (freewalk d) p i s = Ret (inl (i + 1)) s' ∧
    freed s l s' l' (pages_under T d (path ++ [i])) [p] ∧ to_free (i + 1) k s' l'.
Proof.
  intros A Hi. pose proof p_page as Hpp. pose proof (entry path p i Hp Hi) as He.
  assert (intact s (pages_under T d (path ++ [i])) ∧ intact s (under_from d path (i + 1) k)) as [I1 I2].
  { pose proof (tf_rest _ _ _ _ A) as Hr. rewrite under_from_S in Hr.
    split; intros q Hq; apply Hr, elem_of_app; auto. }
  unfold freewalk_body. rewrite (proj2 (Z.ltb_lt _ _)) by lia. msimpl.
  rewrite (load_entry i (S k) s l A Hi). msimpl.
  destruct (T !! (path ++ [i])) as [c|] eqn:Hc.
  - rewrite He. destruct (child_pte_flags c (pt_is_page _ _ _ Hok _ _ Hc)) as (E1 & E2 & E3).
    rewrite (proj2 (Z.eqb_neq _ _) E1), E2, E3. cbn [negb andb Z.eqb]. msimpl.
    destruct (IHchild i c s l Hc (tf_inv _ _ _ _ A) I1) as (s1 & l1 & -> & F1). msimpl.
    pose proof F1 as F0. apply (freed_dirty _ _ _ _ _ _ [p]) in F1; [|set_solver].
    assert (p ∉ pages_under T d (path ++ [i])) as Hpn by (by apply pages_under_self).
    destruct (store_freed s1 l1 p (p + 8 * i) 0) as (s2 & -> & F2 & Hm2);
      [apply F1|done| |lia|unfold PGSIZE; lia|].
    { rewrite (fr_free _ _ _ _ _ _ F1). intros [Hl|]; [|done].
      apply (in_use_not_free s l p); [apply A|rewrite (tf_ref _ _ _ _ A); lia|done]. }
    msimpl. pose proof (freed_app _ _ _ _ _ _ _ _ _ F1 F2) as F. rewrite app_nil_r in F.
    exists s2, l1. split; [done|]. split; [done|]. constructor.
    + apply F2.
    + rewrite (fr_refs _ _ _ _ _ _ F), decide_False by done. apply A.
    + intros a Ha. rewrite Hm2 by lia. rewrite (fr_mem _ _ _ _ _ _ F0); [apply A; lia| |set_solver].
      intros x Hx Hxa. apply Hpn. replace p with x; [done|]. apply (page_unique x p a); [|done..|lia].
      by eapply pages_under_page.
    + by apply (rest_intact i k s l s2 l1).
  - rewrite land_PTE_V, He. cbn [negb andb]. exists s, l. split; [done|]. split.
    + replace (pages_under T d (path ++ [i])) with (@nil Z); [apply freed_nil, A|].
      destruct d; cbn [pages_under]; [done|by rewrite Hc].
    + constructor; try apply A; [|done]. intros a Ha. apply A. lia.
Qed.

Lemma freewalk_loop k : ∀ i s l fuel,
  to_free i k s l → 0 ≤ i → i + Z.of_nat k = 512 → (k < fuel)%nat →
  ∃ s' l', loop fuel (freewalk_body (freewalk d) p) i s = Ret tt s' ∧
    freed s l s' l' (under_from d path i k) [p] ∧ kmem_inv s' l' ∧ refs s' p = 1.
Proof.
  induction k as [|k IH]; intros i s l fuel A Hi Hk Hf; (destruct fuel as [|fuel]; [lia|]).
  - exists s, l. split; [|split; [|split; apply A]].
    + apply loop_done. unfold freewalk_body. by rewrite (proj2 (Z.ltb_ge _ _)) by lia.
    + apply freed_nil, A.
  - destruct (freewalk_step i k s l A ltac:(lia)) as (s1 & l1 & E1 & F1 & A1).
    destruct (IH (i + 1) s1 l1 fuel A1) as (s2 & l2 & E2 & F2 & Hinv2 & Hr2); try lia.
    exists s2, l2. rewrite (loop_next _ _ _ _ _ _ E1). split; [done|]. split; [|done].
    rewrite under_from_S. by eapply freed_app.
Qed.

Lemma freewalk_node s l :
  kmem_inv s l → intact s (pages_under T (S d) path) →
  ∃ s' l', freewalk (S d) p s = Ret tt s' ∧ freed s l s' l' (pages_under T (S d) path) [].
Proof.
  intros Hinv Hin. cbn [pages_under] in *. rewrite Hp in *. fold (under_from d path 0 512) in *.
  destruct (Hin p) as [Hr Hm]; [apply elem_of_app; right; by apply list_elem_of_singleton|].
  destruct (freewalk_loop 512 0 s l 513) as (s1 & l1 & E1 & F1 & Hinv1 & Hr1); try lia.
  { constructor; try done.
    - intros a Ha. apply Hm. lia.
    - intros q Hq. apply Hin, elem_of_app. by left. }
  destruct (kfree_freed s1 l1 p [p] Hinv1 p_page Hr1) as (s2 & l2 & E2 & F2).
  exists s2, l2. cbn [freewalk]. split.
  - msimpl. rewrite E1. msimpl. by rewrite E2.
  - eapply freed_dirty; [by eapply freed_app|]. intros x Hx. left. apply elem_of_app. by right.
Qed.

End node.

(** [freewalk] on the page at [path] frees everything below it. *)
Lemma freewalk_ok d : ∀ path p s l,
  T !! path = Some p → (length path + d = 3)%nat → kmem_inv s l →
  intact s (pages_under T d path) →
  ∃ s' l', freewalk d p s = Ret tt s' ∧ freed s l s' l' (pages_under T d path) [].
Proof.
  induction d as [|d IH]; intros path p s l Hp Hl Hinv Hin.
  { destruct (pt_dom _ _ _ Hok _ _ Hp). lia. }
  apply (freewalk_node d path p Hp); [|done..].
  intros i c s1 l1 Hc. apply (IH (path ++ [i]) c s1 l1 Hc). rewrite length_app. simpl. lia.
Qed.

End subtree.

(** [freewalk] on a whole table. *)
Lemma freewalk_table s root T l :
  pt_ok s root T → kmem_inv s l →
  (∀ path p i, T !! path = Some p → length path = 2%nat → 0 ≤ i < 512 →
     bit (read64 (ram s) (p + 8 * i)) 0 = false) →
  ∃ s' l', freewalk 3 root s = Ret tt s' ∧ freed s l s' l' (pages_under T 3 []) [].
Proof.
  intros Hok Hinv Hclear. apply (freewalk_ok s root T Hok Hclear); try done; [apply Hok|].
  intros q (suf & _ & Hq)%(elem_of_pages_under s root T Hok). split; [by eapply pt_ref|done].
Qed.

Lemma elem_of_pages_all s root T q :
  pt_ok s root T → q ∈ pages_under T 3 [] ↔ pt_page T q.
Proof.
  intros Hok. rewrite (elem_of_pages_under s root T Hok). split.
  - intros (suf & _ & Hq). by exists suf.
  - intros [path Hq]. exists path. split; [|done]. destruct (pt_dom _ _ _ Hok _ _ Hq). lia.
Qed.

(** Every slot of a leaf page is the entry of some address. *)
Lemma leaf_slot s root T path p i :
  pt_ok s root T → T !! path = Some p → length path = 2%nat → 0 ≤ i < 512 →
  ∃ va, 0 ≤ va < MAXVA ∧ pte_of s T va = read64 (ram s) (p + 8 * i).
Proof.
  intros Hok Hp Hl Hi. destruct path as [|i2 [|i1 [|]]]; try done.
  pose proof (pt_low _ _ _ Hok _ _ _ Hp) as Hlow.
  destruct (pt_dom _ _ _ Hok _ _ Hp) as [_ Hf]. rewrite !Forall_cons in Hf. destruct Hf as (Hi2 & Hi1 & _).
  exists (i2 * 2 ^ 30 + i1 * 2 ^ 21 + i * 2 ^ 12). rewrite MAXVA_val.
  assert (0 ≤ i2 * 2 ^ 30 + i1 * 2 ^ 21 + i * 2 ^ 12) by lia.
  split; [lia|]. unfold pte_of, pt_lookup. rewrite !PX_div by lia.
  change (2 ^ (12 + 9 * 2)) with 1073741824. change (2 ^ (12 + 9 * 1)) with 2097152.
  change (2 ^ (12 + 9 * 0)) with 4096.
  change (2 ^ 30) with 1073741824. change (2 ^ 21) with 2097152. change (2 ^ 12) with 4096.
  set (va := i2 * 1073741824 + i1 * 2097152 + i * 4096).
  assert ((va / 1073741824) mod 512 = i2) as -> by (unfold va; zdm).
  assert ((va / 2097152) mod 512 = i1) as -> by (unfold va; zdm).
  assert ((va / 4096) mod 512 = i) as -> by (unfold va; zdm).
  by rewrite Hp.
Qed.

(** [uvmfree] drops one reference to each user page and frees the whole table. *)
Lemma uvmfree_ok s root T l sz :
  let n := Z.to_nat (PGROUNDUP sz / PGSIZE) in
  let L := run_pas (pte_of s T) 0 n in
  pt_ok s root T → kmem_inv s l → 0 ≤ sz ≤ MAXVA → mapped_run (pte_of s T) 0 n → droppable s T L →
  (∀ v, PGROUNDUP sz ≤ v < MAXVA → bit (pte_of s T v) 0 = false) →
  ∃ s' l', uvmfree root sz s = Ret tt s' ∧ kmem_inv s' l' ∧
    (∀ x, x ∈ l' ↔ x ∈ l ∨ pt_page T x ∨ x ∈ L ∧ refs s x = occ L x) ∧
    (∀ x, is_page x → ¬ pt_page T x → refs s' x = refs s x - occ L x).
Proof.
  cbv zeta. intros Hok Hinv Hsz Hmap Hdrop Hno.
  destruct (PGROUNDUP_props sz) as [Hr Hal]; [rewrite MAXVA_val in *; unfold PGSIZE; lia|].
  set (n := Z.to_nat (PGROUNDUP sz / PGSIZE)) in *. set (L := run_pas (pte_of s T) 0 n) in *.
  assert (PGROUNDUP sz = Z.of_nat n * PGSIZE) as En by (unfold n, PGSIZE in *; zdm).
  destruct (uvmunmap_ok s root T l 0 n true) as (s1 & l1 & E1 & Hok1 & Hrel & Hpte); try done.
  { rewrite MAXVA_val in *. unfold PGSIZE in *. zdm. }
  assert (∃ s1 l1, (if 0 <? sz then uvmunmap root 0 (PGROUNDUP sz / PGSIZE) true else mret tt) s = Ret tt s1 ∧
    pt_ok s1 root T ∧ released s T l s1 l1 L ∧
    (∀ v, 0 ≤ v < MAXVA → pte_of s1 T v = clear_run 0 (Z.of_nat n) (pte_of s T) v)) as Hun.
  { destruct (Z.ltb_spec 0 sz) as [Hpos|Hz].
    - exists s1, l1. split_and!; try done. rewrite <- E1. f_equal. unfold n, PGSIZE in *. zdm.
    - assert (n = 0%nat) as E0 by (unfold n, PGSIZE in *; zdm). unfold L. rewrite E0.
      exists s, l. split_and!; try done; [by apply released_nil|].
      intros v _. unfold clear_run. by rewrite decide_False by lia. }
  clear s1 l1 E1 Hok1 Hrel Hpte. destruct Hun as (s1 & l1 & E1 & Hok1 & Hrel & Hpte).
  destruct (freewalk_table s1 root T l1 Hok1 (rel_inv _ _ _ _ _ _ Hrel)) as (s2 & l2 & E2 & F).
  { intros path p i Hp Hl Hi. destruct (leaf_slot s1 root T path p i Hok1 Hp Hl Hi) as (va & Hva & <-).
    rewrite Hpte by done. unfold clear_run. case_decide as Hin; [done|]. apply Hno.
    change (0 / PGSIZE) with 0 in Hin. unfold PGSIZE in *. zdm. }
  exists s2, l2. unfold uvmfree, when. msimpl. unfold mret, M_ret in E1. rewrite E1. msimpl.
  rewrite E2. split; [done|]. split; [apply F|].
  assert (∀ x, x ∈ pages_under T 3 [] ↔ pt_page T x) as Hall by (intros; by apply (elem_of_pages_all s root)).
  unfold droppable in Hdrop. rewrite Forall_forall in Hdrop.
  split.
  - intros x. rewrite (fr_free _ _ _ _ _ _ F), (rel_free _ _ _ _ _ _ Hrel), Hall.
    assert (x ∈ L → (refs s1 x = 0 ↔ refs s x = occ L x)); [|tauto].
    intros Hx. rewrite (rel_refs _ _ _ _ _ _ Hrel) by (by apply Hdrop). lia.
  - intros x Hx Hn. rewrite (fr_refs _ _ _ _ _ _ F), decide_False by (done || by rewrite Hall).
    by apply (rel_refs _ _ _ _ _ _ Hrel).
Qed.

End uvmfree.
