(* ===== verification/CowInv.v ===== *)
(** The copy-on-write invariant of all address spaces together, and that the fault handler
    keeps it.

    Every page below a process's size is mapped; no page table page is mapped; a page's
    reference count is at least the number of times it is mapped, over all processes; and
    a page that some process may write is mapped exactly once. *)

From S2P Require Import Prelude Mem Riscv Kalloc Vm PageTable AddrSpace Cow Fork CowFault.

(** A leaf entry the user may use. *)
Definition uvalid (v : Z) : bool := bit v 0 && bit v 4.

(** The address space of a process. *)
Record aspace := ASpace { as_root : Z; as_pt : ptree; as_sz : Z }.

(** [va] is the address of a page below the size. *)
Definition upage (A : aspace) (va : Z) : Prop := 0 ≤ va < as_sz A ∧ va mod PGSIZE = 0.

(** Process [ia.1] has the page [x] at [ia.2]. *)
Definition maps (s : kmem) (As : list aspace) (x : Z) (ia : nat * Z) : Prop :=
  ∃ A, As !! ia.1 = Some A ∧ upage A ia.2 ∧ PTE2PA (pte_of s (as_pt A) ia.2) = x.

Section cowinv.
Context `{KernelImageOk}.

Record cow_inv (s : kmem) (As : list aspace) (l : list Z) : Prop := {
  ci_inv : kmem_inv s l;
  ci_sz : ∀ i A, As !! i = Some A → 0 ≤ as_sz A ≤ MAXVA;
  ci_pt : ∀ i A, As !! i = Some A → pt_ok s (as_root A) (as_pt A);
  ci_disj : ∀ i j A B, As !! i = Some A → As !! j = Some B → i ≠ j → pt_disjoint (as_pt A) (as_pt B);
  ci_leaf : ∀ i A va, As !! i = Some A → upage A va →
    bit (pte_of s (as_pt A) va) 0 = true ∧ PTE_FLAGS (pte_of s (as_pt A) va) ≠ PTE_V;
  ci_page : ∀ x ia, maps s As x ia → is_page x ∧ refs s x < 2 ^ 31 ∧
    ∀ j B, As !! j = Some B → ¬ pt_page (as_pt B) x;
  ci_user : ∀ i A va, As !! i = Some A → 0 ≤ va < MAXVA → uvalid (pte_of s (as_pt A) va) = true →
    upage A (PGROUNDDOWN va);
  ci_count : ∀ x ia L, NoDup (ia :: L) → (∀ ib, ib ∈ ia :: L → maps s As x ib) →
    Z.of_nat (length L) < refs s x;
  ci_priv : ∀ x i A va jb, As !! i = Some A → maps s As x (i, va) → maps s As x jb →
    bit (pte_of s (as_pt A) va) 2 = true → jb = (i, va);
}.

Lemma ci_refs_pos s As l x ia : cow_inv s As l → maps s As x ia → 0 < refs s x.
Proof.
  intros I Hm. apply (ci_count _ _ _ I x ia [] (NoDup_singleton _)).
  intros ib ->%list_elem_of_singleton. done.
Qed.

(** A page mapped twice has two references. *)
Lemma ci_count2 s As l x ia ib :
  cow_inv s As l → maps s As x ia → maps s As x ib → ia ≠ ib → 1 < refs s x.
Proof.
  intros I Ha Hb Hne. apply (ci_count _ _ _ I x ia [ib]).
  - apply NoDup_cons; split; [by rewrite list_elem_of_singleton|apply NoDup_singleton].
  - intros ic Hic. rewrite elem_of_cons, list_elem_of_singleton in Hic. by destruct Hic as [-> | ->].
Qed.

Lemma upage_user_page s As l i A va Ts :
  cow_inv s As l → As !! i = Some A → upage A va →
  (∀ T, T ∈ Ts → ∃ j B, As !! j = Some B ∧ T = as_pt B) → user_page s (as_pt A) Ts va.
Proof.
  intros I HA Hu HTs. assert (maps s As (PTE2PA (pte_of s (as_pt A) va)) (i, va)) as Hm by (by exists A).
  destruct (ci_page _ _ _ I _ _ Hm) as (Hpg & Hr & Hn). pose proof (ci_refs_pos _ _ _ _ _ I Hm).
  split; [done|]. split; [lia|]. apply Forall_forall. intros T HT.
  destruct (HTs T HT) as (j & B & HB & ->). by eapply Hn.
Qed.

Lemma upage_range A va : as_sz A ≤ MAXVA → upage A va → 0 ≤ va < MAXVA.
Proof. intros ? [? _]. lia. Qed.

Lemma PGROUNDDOWN_aligned va : 0 ≤ va → va mod PGSIZE = 0 → PGROUNDDOWN va = va.
Proof. intros. rewrite PGROUNDDOWN_mod by done. lia. Qed.

Lemma upage_inj A va va' : upage A va → upage A va' → va / PGSIZE = va' / PGSIZE → va = va'.
Proof. intros [? ?] [? ?] E. unfold PGSIZE in *. zdm. Qed.

(** * The fault handler *)

Section fault.
Context (s : kmem) (As : list aspace) (l : list Z) (i : nat) (A : aspace) (va0 x : Z) (s' : kmem) (l' : list Z).
Hypothesis I : cow_inv s As l.
Hypothesis HA : As !! i = Some A.
Hypothesis Hu : upage A va0.
Hypothesis C : cow_resolved s (as_root A) (as_pt A) va0 x s' l'.

Local Abbreviation v0 := (pte_of s (as_pt A) va0).
Local Abbreviation pa := (PTE2PA v0).

Local Lemma f_ok : pt_ok s (as_root A) (as_pt A).
Proof. by apply (ci_pt _ _ _ I i). Qed.

Local Lemma f_pa : maps s As pa (i, va0).
Proof. by exists A. Qed.

Local Lemma f_range : 0 ≤ va0 < MAXVA.
Proof. destruct (ci_sz _ _ _ I i A HA). by apply (upage_range A). Qed.

Local Lemma f_pte_self : pte_of s' (as_pt A) va0 = cow_pte x (PTE_FLAGS v0).
Proof. rewrite (cr_pte _ _ _ _ _ _ _ C) by apply f_range. unfold set_pte. by rewrite decide_True. Qed.

Lemma f_pa_self : PTE2PA (pte_of s' (as_pt A) va0) = x.
Proof. rewrite f_pte_self. apply cow_pte_page; [apply C|apply PTE_FLAGS_bound]. Qed.

Lemma fault_other j B :
  As !! j = Some B → j ≠ i →
  pt_ok s' (as_root B) (as_pt B) ∧ (∀ va, 0 ≤ va → pte_of s' (as_pt B) va = pte_of s (as_pt B) va) ∧
  (∀ va, user_page s (as_pt B) [as_pt A] va → 0 ≤ va → ubyte s' (as_pt B) va = ubyte s (as_pt B) va).
Proof.
  intros HB Hj. apply (cow_resolved_other s (as_root A) (as_pt A) va0 x s' l'); try done.
  - apply f_ok.
  - by apply (ci_pt _ _ _ I j).
  - by apply (ci_disj _ _ _ I j i).
  - destruct (ci_page _ _ _ I _ _ f_pa) as (_ & _ & Hn). by eapply Hn.
Qed.

(** Every other page entry is as before. *)
Lemma fault_pte j B va :
  As !! j = Some B → upage B va → (j, va) ≠ (i, va0) → pte_of s' (as_pt B) va = pte_of s (as_pt B) va.
Proof.
  intros HB Hb Hne. pose proof (upage_range B va (proj2 (ci_sz _ _ _ I j B HB)) Hb) as Hr.
  destruct (decide (j = i)) as [->|Hj]; [|apply (fault_other j B HB Hj); lia].
  rewrite HA in HB. injection HB as <-. rewrite (cr_pte _ _ _ _ _ _ _ C) by done.
  unfold set_pte. rewrite decide_False; [done|]. intros E. apply Hne. f_equal. by apply (upage_inj A).
Qed.

Lemma fault_maps y ib :
  maps s' As y ib → (ib = (i, va0) ∧ y = x) ∨ (ib ≠ (i, va0) ∧ maps s As y ib).
Proof.
  intros (B & HB & Hb & Ey). destruct (decide (ib = (i, va0))) as [->|Hne]; [left|right].
  - simpl in *. rewrite HA in HB. injection HB as <-. split; [done|]. by rewrite <- Ey, f_pa_self.
  - split; [done|]. exists B. split; [done|]. split; [done|]. rewrite <- Ey.
    destruct ib as [j vb]. simpl in *. by rewrite (fault_pte j B vb).
Qed.

(** Nobody else has the new page. *)
Lemma fault_alone ib : ib ≠ (i, va0) → ¬ maps s As x ib.
Proof.
  intros Hne Hm. destruct (cr_case _ _ _ _ _ _ _ C) as [[E Hr]|[Hr _]].
  - pose proof (ci_count2 s As l x ib (i, va0) I Hm) as H2. rewrite E in H2 at 1. specialize (H2 f_pa Hne). lia.
  - pose proof (ci_refs_pos _ _ _ _ _ I Hm). lia.
Qed.

Lemma fault_count y ia L :
  NoDup (ia :: L) → (∀ ib, ib ∈ ia :: L → maps s' As y ib) → Z.of_nat (length L) < refs s' y.
Proof.
  intros Hnd HL. destruct (decide (y = x)) as [->|Hyx].
  - rewrite (cr_ref _ _ _ _ _ _ _ C).
    assert (∀ ib, ib ∈ ia :: L → ib = (i, va0)) as Hone.
    { intros ib Hib. destruct (fault_maps x ib (HL ib Hib)) as [[? _]|[Hne Hm]]; [done|].
      by destruct (fault_alone ib Hne). }
    destruct L as [|b L]; simpl; [lia|]. exfalso.
    apply NoDup_cons in Hnd as [Hn _]. apply Hn. rewrite (Hone ia), (Hone b); set_solver.
  - assert (∀ ib, ib ∈ ia :: L → maps s As y ib ∧ ib ≠ (i, va0)) as HL'.
    { intros ib Hib. destruct (fault_maps y ib (HL ib Hib)) as [[_ ?]|[Hne Hm]]; done. }
    destruct (HL' ia ltac:(set_solver)) as [Hia _]. destruct (ci_page _ _ _ I _ _ Hia) as (Hy & _ & _).
    rewrite (cr_refs _ _ _ _ _ _ _ C) by done. case_decide as Ep.
    + pose proof (ci_count _ _ _ I y (i, va0) (ia :: L)) as Hc. simpl in Hc.
      enough (Z.of_nat (S (length L)) < refs s y) by lia. apply Hc.
      * apply NoDup_cons. split; [|done]. intros Hin. by apply HL' in Hin as [_ ?].
      * intros ib Hib. apply elem_of_cons in Hib as [->|Hib]; [rewrite Ep; apply f_pa|by apply HL'].
    + rewrite Z.sub_0_r. apply (ci_count _ _ _ I y ia L Hnd). intros ib Hib. by apply HL'.
Qed.

Lemma fault_bits n : 0 ≤ n < 10 →
  bit (pte_of s' (as_pt A) va0) n =
  if decide (n = 0 ∨ n = 2) then true else if decide (n = 8) then false else bit v0 n.
Proof.
  intros Hn. rewrite f_pte_self, cow_pte_bits; [|by apply is_page_u64, C|apply PTE_FLAGS_bound|done].
  by rewrite bit_PTE_FLAGS by lia.
Qed.

Lemma fault_leaf j B va :
  As !! j = Some B → upage B va →
  bit (pte_of s' (as_pt B) va) 0 = true ∧ PTE_FLAGS (pte_of s' (as_pt B) va) ≠ PTE_V.
Proof.
  intros HB Hb. destruct (decide ((j, va) = (i, va0))) as [[= -> ->]|Hne].
  - rewrite HA in HB. injection HB as <-. rewrite fault_bits by lia. split; [done|].
    intros E. apply (f_equal (λ f, bit f 2)) in E. rewrite bit_PTE_FLAGS, fault_bits in E by lia. done.
  - rewrite (fault_pte j B va HB Hb Hne). by apply (ci_leaf _ _ _ I j).
Qed.

Lemma fault_page y ib :
  maps s' As y ib → is_page y ∧ refs s' y < 2 ^ 31 ∧ ∀ j B, As !! j = Some B → ¬ pt_page (as_pt B) y.
Proof.
  intros Hm. assert (is_page y ∧ ∀ j B, As !! j = Some B → ¬ pt_page (as_pt B) y) as [Hy Hn].
  { destruct (fault_maps y ib Hm) as [[_ ->]|[_ Hm']].
    - split; [apply C|]. intros j B HB. destruct (cr_case _ _ _ _ _ _ _ C) as [[E _]|[Hr _]].
      + rewrite E. destruct (ci_page _ _ _ I _ _ f_pa) as (_ & _ & Hn). by eapply Hn.
      + intros [path Hp]. pose proof (pt_ref _ _ _ (ci_pt _ _ _ I j B HB) _ _ Hp). lia.
    - destruct (ci_page _ _ _ I _ _ Hm') as (? & _ & ?). done. }
  split; [done|]. split; [|done]. destruct (decide (y = x)) as [->|Hyx].
  - rewrite (cr_ref _ _ _ _ _ _ _ C). lia.
  - destruct (fault_maps y ib Hm) as [[_ ?]|[_ Hm']]; [done|].
    destruct (ci_page _ _ _ I _ _ Hm') as (_ & Hr & _).
    rewrite (cr_refs _ _ _ _ _ _ _ C) by done. case_decide; lia.
Qed.

(** The user's access rights are as before. *)
Lemma fault_uvalid j B va :
  As !! j = Some B → bit v0 0 = true → 0 ≤ va < MAXVA →
  uvalid (pte_of s' (as_pt B) va) = uvalid (pte_of s (as_pt B) va).
Proof.
  intros HB Hv Hva. destruct (decide (j = i)) as [->|Hj].
  2:{ destruct (fault_other j B HB Hj) as (_ & E & _). by rewrite E by lia. }
  rewrite HA in HB. injection HB as <-. destruct (decide (va / PGSIZE = va0 / PGSIZE)) as [E|E].
  - pose proof f_range. rewrite (pte_of_same_page s' _ va va0), (pte_of_same_page s _ va va0) by lia.
    unfold uvalid. rewrite !fault_bits by lia. repeat case_decide; try lia. by rewrite Hv.
  - rewrite (cr_pte _ _ _ _ _ _ _ C) by done. unfold set_pte. by rewrite decide_False.
Qed.

Lemma fault_priv y j B va kb :
  As !! j = Some B → maps s' As y (j, va) → maps s' As y kb →
  bit (pte_of s' (as_pt B) va) 2 = true → kb = (j, va).
Proof.
  intros HB Hm Hk HW. destruct (fault_maps y _ Hm) as [[Ej ->]|[Hne Hm']];
    destruct (fault_maps _ _ Hk) as [[Ek Ey]|[Hne' Hk']].
  - congruence.
  - by destruct (fault_alone kb Hne').
  - subst y. by destruct (fault_alone (j, va) Hne).
  - apply (ci_priv _ _ _ I y j B va kb HB Hm' Hk'). rewrite <- HW. f_equal. symmetry.
    apply (fault_pte j B); try done. by destruct Hm' as (B' & HB' & Hb & _); simpl in *; simplify_eq.
Qed.

(** The handler keeps the invariant. *)
Lemma fault_inv : bit v0 0 = true → cow_inv s' As l'.
Proof.
  intros Hv. constructor.
  - apply C.
  - apply I.
  - intros j B HB. destruct (decide (j = i)) as [->|Hj].
    + rewrite HA in HB. injection HB as <-. apply C.
    + by apply (fault_other j B HB Hj).
  - apply I.
  - apply fault_leaf.
  - apply fault_page.
  - intros j B va HB Hva Huv. rewrite (fault_uvalid j) in Huv by done. by apply (ci_user _ _ _ I j).
  - apply fault_count.
  - apply fault_priv.
Qed.

(** No program's memory changes. *)
Lemma fault_view j B va :
  As !! j = Some B → 0 ≤ va < MAXVA → upage B (PGROUNDDOWN va) →
  ubyte s' (as_pt B) va = ubyte s (as_pt B) va.
Proof.
  intros HB Hva Hb.
  assert (user_page s (as_pt B) [as_pt A] va) as Hup.
  { pose proof (upage_user_page s As l j B _ [as_pt A] I HB Hb) as Hup.
    unfold user_page in *. rewrite (pte_of_same_page s (as_pt B) va (PGROUNDDOWN va)).
    - apply Hup. intros T ->%list_elem_of_singleton. eauto.
    - lia.
    - apply PGROUNDDOWN_props. lia.
    - rewrite PGROUNDDOWN_mod by lia. unfold PGSIZE. zdm. }
  destruct (decide (j = i)) as [->|Hj].
  - rewrite HA in HB. injection HB as <-.
    apply (cow_resolved_view s (as_root A) (as_pt A) va0 x s' l'); try done; [apply f_ok|apply f_range].
  - apply (fault_other j B HB Hj); [done|lia].
Qed.

End fault.

End cowinv.
