(* ===== verification/ForkInv.v ===== *)
(** Forking an address space keeps the copy-on-write invariant: [uvmcopy] (vm.c) adds a
    child that sees the parent's memory, or fails and leaves every count as it was. *)

From S2P Require Import Prelude Mem Riscv Kalloc Vm PageTable AddrSpace Cow Fork CowFault CowInv.

(** The number of pages of an address space of size [sz]. *)
Definition npages (sz : Z) : nat := Z.to_nat ((sz + PGSIZE - 1) / PGSIZE).

Lemma elem_of_run_pas f a n x :
  x ∈ run_pas f a n ↔ ∃ k, (k < n)%nat ∧ x = PTE2PA (f (a + Z.of_nat k * PGSIZE)).
Proof.
  induction n as [|n IH]; [simpl; split; [set_solver|intros (? & ? & _); lia]|].
  rewrite run_pas_snoc, elem_of_app, list_elem_of_singleton, IH. split.
  - intros [(k & ? & ->)| ->]; [exists k; split; [lia|done]|exists n; split; [lia|done]].
  - intros (k & Hk & ->). destruct (decide (k = n)) as [->|]; [by right|left; exists k; split; [lia|done]].
Qed.

Lemma length_run_pas f a n : length (run_pas f a n) = n.
Proof. revert a. induction n as [|n IH]; intros a; simpl; [done|by rewrite IH]. Qed.

Lemma occ_length L x : occ L x ≤ Z.of_nat (length L).
Proof. unfold occ. pose proof (count_occ_bound Z.eq_dec x L). lia. Qed.

(** Distinct pages mapped to [x] are counted by [occ]. *)
Lemma run_pas_count f n x : ∀ L,
  NoDup L → (∀ va, va ∈ L → 0 ≤ va < Z.of_nat n * PGSIZE ∧ va mod PGSIZE = 0 ∧ PTE2PA (f va) = x) →
  Z.of_nat (length L) ≤ occ (run_pas f 0 n) x.
Proof.
  induction n as [|n IH]; intros L Hnd HL.
  { destruct L as [|va L]; [done|]. destruct (HL va ltac:(set_solver)). lia. }
  rewrite run_pas_snoc, occ_snoc, Z.add_0_l. set (vn := Z.of_nat n * PGSIZE) in *.
  destruct (decide (vn ∈ L)) as [Hin|Hni].
  - destruct (elem_of_Permutation L vn) as [[L' Hp] _]; [done|].
    rewrite (Permutation_length Hp). simpl. rewrite Hp in Hnd. apply NoDup_cons in Hnd as [Hn Hnd].
    specialize (IH L' Hnd). rewrite decide_True by (by apply HL).
    enough (Z.of_nat (length L') ≤ occ (run_pas f 0 n) x) by lia. apply IH. intros va Hva.
    assert (va ∈ L) as HvaL by (rewrite Hp; set_solver). destruct (HL va HvaL) as (? & ? & ?).
    split; [|done]. assert (va ≠ vn) by (intros ->; done). unfold vn, PGSIZE in *. zdm.
  - enough (Z.of_nat (length L) ≤ occ (run_pas f 0 n) x) by (case_decide; lia). apply IH; [done|].
    intros va Hva. destruct (HL va Hva) as (? & ? & ?). split; [|done].
    assert (va ≠ vn) by (intros ->; done). unfold vn, PGSIZE in *. zdm.
Qed.

Section forkinv.
Context `{KernelImageOk}.

(** What [fork] has of the child before [uvmcopy]: a table of its own that maps nothing
    for the user. *)
Record child_ok (s : kmem) (As : list aspace) (r2 : Z) (T2 : ptree) : Prop := {
  ch_pt : pt_ok s r2 T2;
  ch_disj : ∀ j B, As !! j = Some B → pt_disjoint (as_pt B) T2;
  ch_user : ∀ va, 0 ≤ va < MAXVA → uvalid (pte_of s T2 va) = false;
  ch_page : ∀ x ia, maps s As x ia → ¬ pt_page T2 x;
}.

(** * The shared entries *)

Lemma new_flags_bits w m : 0 ≤ m < 10 →
  bit (new_flags w) m =
  if decide (m = 2) then false else bit w m || (bit w 2 && bool_decide (m = 1 ∨ m = 8)).
Proof.
  intros Hm. unfold new_flags. destruct (bit w 2) eqn:Ew.
  - rewrite share_flags_bit by lia. rewrite bit_PTE_FLAGS by lia. simpl.
    repeat case_decide; try lia; subst; try (case_bool_decide; try lia; by rewrite ?orb_true_r, ?orb_false_r).
  - rewrite bit_PTE_FLAGS by lia. simpl. rewrite orb_false_r. case_decide; [by subst|done].
Qed.

Lemma child_pte_page w : is_page (PTE2PA w) → PTE2PA (child_pte w) = PTE2PA w.
Proof.
  intros Hp. pose proof (is_page_u64 _ Hp). destruct Hp as [Hal _]. unfold child_pte. fold (new_flags w).
  apply PTE2PA_of_page; [done..|apply new_flags_bound].
Qed.

Lemma child_pte_bits w m : is_page (PTE2PA w) → 0 ≤ m < 10 →
  bit (child_pte w) m =
  if decide (m = 2) then false else bit w m || (bit w 2 && bool_decide (m = 1 ∨ m = 8)).
Proof.
  intros Hp Hm. pose proof (is_page_u64 _ Hp). unfold child_pte. fold (new_flags w).
  rewrite bit_pte_of_page by (done || apply new_flags_bound). by apply new_flags_bits.
Qed.

Lemma parent_pte_page w : is_page (PTE2PA w) → PTE2PA (parent_pte w) = PTE2PA w.
Proof. intros. unfold parent_pte. destruct (bit w 2); [by apply child_pte_page|done]. Qed.

Lemma parent_pte_bits w m : is_page (PTE2PA w) → 0 ≤ m < 10 → bit (parent_pte w) m = bit (child_pte w) m.
Proof.
  intros Hp Hm. unfold parent_pte. destruct (bit w 2) eqn:E; [done|].
  rewrite child_pte_bits by done. rewrite E. simpl. rewrite orb_false_r. case_decide; [by subst|done].
Qed.

Lemma child_pte_leaf w :
  is_page (PTE2PA w) → bit w 0 = true → PTE_FLAGS w ≠ PTE_V → PTE_FLAGS (child_pte w) ≠ PTE_V.
Proof.
  intros Hp Hv Hl E. destruct (bit w 2) eqn:Ew.
  - apply (f_equal (λ f, bit f 8)) in E. rewrite bit_PTE_FLAGS, child_pte_bits, Ew in E by (done || lia).
    rewrite PTE_V_bits in E. rewrite bool_decide_eq_true_2 in E by lia. by rewrite orb_true_r in E.
  - apply Hl. rewrite <- E. unfold child_pte. rewrite Ew.
    pose proof (is_page_u64 _ Hp). destruct Hp as [Hal _].
    by rewrite PTE_FLAGS_of_page by (done || apply PTE_FLAGS_bound).
Qed.

(** Marking pages as shared keeps the invariant. *)
Lemma cow_inv_mark s As l s' l' :
  cow_inv s As l → kmem_inv s' l' →
  (∀ i A, As !! i = Some A → pt_ok s' (as_root A) (as_pt A)) →
  (∀ i A va, As !! i = Some A → 0 ≤ va < MAXVA →
     pte_of s' (as_pt A) va = pte_of s (as_pt A) va ∨
     upage A (PGROUNDDOWN va) ∧ pte_of s' (as_pt A) va = parent_pte (pte_of s (as_pt A) va)) →
  (∀ x ia, maps s As x ia → refs s' x = refs s x) →
  cow_inv s' As l' ∧ (∀ x ia, maps s' As x ia ↔ maps s As x ia).
Proof.
  intros I Hinv Hpt Hpte Hrefs.
  assert (∀ i A va, As !! i = Some A → upage A va →
    is_page (PTE2PA (pte_of s (as_pt A) va)) ∧ 0 ≤ va < MAXVA) as Hpg.
  { intros i A va HA Hu. split; [|destruct (ci_sz _ _ _ I i A HA); by apply (upage_range A)].
    apply (ci_page _ _ _ I _ (i, va)). by exists A. }
  assert (∀ i A va, As !! i = Some A → upage A va →
    PTE2PA (pte_of s' (as_pt A) va) = PTE2PA (pte_of s (as_pt A) va)) as Hpa.
  { intros i A va HA Hu. destruct (Hpg i A va HA Hu) as [? ?].
    destruct (Hpte i A va) as [->|[_ ->]]; try done. by rewrite parent_pte_page. }
  assert (∀ x ia, maps s' As x ia ↔ maps s As x ia) as Hmaps.
  { intros x ia. split; intros (A & HA & Hu & E); exists A; (split; [done|]); (split; [done|]);
      rewrite <- E; [symmetry|]; by apply (Hpa ia.1). }
  split; [|done]. constructor; try done; try apply I.
  - intros i A va HA Hu. destruct (Hpg i A va HA Hu) as [? ?].
    destruct (ci_leaf _ _ _ I i A va HA Hu) as [Hv Hl].
    destruct (Hpte i A va) as [->|[_ ->]]; try done. unfold parent_pte. destruct (bit _ 2); [|done].
    rewrite child_pte_bits, Hv by (done || lia). split; [done|]. by apply child_pte_leaf.
  - intros x ia Hm. apply Hmaps in Hm. rewrite (Hrefs _ _ Hm). by apply (ci_page _ _ _ I _ ia).
  - intros i A va HA Hva Hu. destruct (Hpte i A va HA Hva) as [E|[Hup _]]; [|done].
    rewrite E in Hu. by apply (ci_user _ _ _ I i).
  - intros x ia L Hnd HL. rewrite (Hrefs x ia) by (apply Hmaps, HL; set_solver).
    apply (ci_count _ _ _ I x ia L Hnd). intros ib Hib. by apply Hmaps, HL.
  - intros x i A va jb HA Hm Hj HW. apply Hmaps in Hm, Hj. apply (ci_priv _ _ _ I x i A va); try done.
    destruct Hm as (A' & HA' & Hu & _). simpl in HA', Hu. rewrite HA in HA'. injection HA' as <-.
    destruct (Hpg i A va HA Hu) as [? ?]. destruct (Hpte i A va) as [E|[_ E]]; try done; rewrite E in HW; [done|].
    rewrite parent_pte_bits, child_pte_bits in HW by (done || lia). done.
Qed.

Section fork.
Context (s : kmem) (As : list aspace) (l : list Z) (i : nat) (A : aspace) (r2 : Z) (T20 : ptree).
Hypothesis I : cow_inv s As l.
Hypothesis HA : As !! i = Some A.
Hypothesis Hch : child_ok s As r2 T20.

Local Abbreviation n := (npages (as_sz A)).
Local Abbreviation pas := (run_pas (pte_of s (as_pt A)) 0 n).

Hypothesis Hroom : ∀ x, x ∈ pas → refs s x + occ pas x < 2 ^ 31.

Local Lemma k_sz : 0 ≤ as_sz A ≤ MAXVA.
Proof. by apply (ci_sz _ _ _ I i). Qed.

Local Lemma k_upage va : va mod PGSIZE = 0 → (0 ≤ va ∧ va / PGSIZE < Z.of_nat n ↔ upage A va).
Proof. intros Hal. pose proof k_sz. unfold upage, npages, PGSIZE in *. zdm. Qed.

Local Lemma k_page k : (k < n)%nat → upage A (Z.of_nat k * PGSIZE).
Proof.
  intros Hk. apply k_upage; [by rewrite Z.mod_mul|]. rewrite Z.div_mul by done. unfold PGSIZE. lia.
Qed.

Lemma k_maps x : x ∈ pas → ∃ va, maps s As x (i, va).
Proof.
  intros (k & Hk & ->)%elem_of_run_pas. exists (Z.of_nat k * PGSIZE). rewrite Z.add_0_l.
  exists A. split; [done|]. split; [by apply k_page|done].
Qed.

Lemma fork_parent_ok : parent_ok s (as_pt A) T20 n.
Proof.
  constructor.
  - intros k Hk. rewrite Z.add_0_l. apply (ci_leaf _ _ _ I i A); [done|].
    replace k with (Z.of_nat (Z.to_nat k)) by lia. apply k_page. lia.
  - apply Forall_forall. intros x Hx. destruct (k_maps x Hx) as [va Hm].
    destruct (ci_page _ _ _ I _ _ Hm) as (? & ? & Hn). split_and!; try done.
    + by apply (Hn i).
    + by apply (ch_page _ _ _ _ Hch _ _ Hm).
    + by apply (ci_refs_pos s As l x (i, va)).
    + by apply Hroom.
Qed.

Context (s' : kmem) (T2 : ptree) (l' : list Z).
Hypothesis S : sharing s (as_root A) r2 (as_pt A) T20 l n s' T2 l'.

Definition child : aspace := ASpace r2 T2 (as_sz A).

(** User pages are not written by the copy. *)
Lemma fork_byte x ia a :
  maps s As x ia → x ≤ a < x + PGSIZE → rd (ram s') a = rd (ram s) a.
Proof.
  intros Hm Ha. destruct (ci_page _ _ _ I _ _ Hm) as (Hx & _ & Hn).
  pose proof (ci_refs_pos s As l x ia I Hm) as Hr. apply (sh_mem _ _ _ _ _ _ _ _ _ _ S).
  - apply (page_not_in_pages s (as_root A) _ x); try done; [by apply (ci_pt _ _ _ I i)|by apply (Hn i)].
  - apply (page_not_in_pages s' r2 _ x); try done; [apply S|]. intros Hp.
    apply (sh_new _ _ _ _ _ _ _ _ _ _ S) in Hp as [Hp|Hp].
    + by apply (ch_page _ _ _ _ Hch _ _ Hm).
    + revert Hp. apply (in_use_not_free s); [apply (ci_inv _ _ _ I)|lia].
Qed.

(** Other processes' tables are as before. *)
Lemma fork_other j B :
  As !! j = Some B → j ≠ i →
  pt_ok s' (as_root B) (as_pt B) ∧ (∀ va, 0 ≤ va → pte_of s' (as_pt B) va = pte_of s (as_pt B) va) ∧
  pt_disjoint (as_pt B) T2.
Proof.
  intros HB Hj. pose proof (ci_pt _ _ _ I j B HB) as Hok.
  assert (pt_disjoint (as_pt B) T2) as Hd.
  { intros p Hp Hp2. apply (sh_new _ _ _ _ _ _ _ _ _ _ S) in Hp2 as [Hp2|Hp2].
    - by apply (ch_disj _ _ _ _ Hch j B HB p).
    - by apply (pt_page_not_free s (as_root B) (as_pt B) l p Hok); [apply (ci_inv _ _ _ I)|..]. }
  assert (∀ a, in_pages (as_pt B) a → rd (ram s') a = rd (ram s) a) as Hm.
  { intros a (p & Hp & Ha). pose proof (pt_page_is_page _ _ _ _ Hok Hp) as Hpp.
    apply (sh_mem _ _ _ _ _ _ _ _ _ _ S).
    - apply (page_not_in_pages s (as_root A) _ p); try done; [by apply (ci_pt _ _ _ I i)|].
      by apply (ci_disj _ _ _ I j i B A).
    - apply (page_not_in_pages s' r2 _ p); try done; [apply S|]. by apply Hd. }
  split; [|split; [intros; by eapply pte_of_frame|done]].
  apply (pt_ok_frame s); [done| |done]. intros p [path Hp].
  pose proof (pt_ref _ _ _ Hok _ _ Hp) as Hr. pose proof (pt_is_page _ _ _ Hok _ _ Hp) as Hpp.
  rewrite (sh_refs _ _ _ _ _ _ _ _ _ _ S) by (done || lia).
  enough (¬ 0 < occ pas p) by (pose proof (occ_nonneg pas p); lia).
  rewrite <- occ_pos. intros [va Hmp]%k_maps. destruct (ci_page _ _ _ I _ _ Hmp) as (_ & _ & Hn).
  apply (Hn j B HB). by exists path.
Qed.

Local Abbreviation As' := (As ++ [child]).

Lemma fork_pte_parent va :
  upage A va → pte_of s' (as_pt A) va = parent_pte (pte_of s (as_pt A) va).
Proof.
  intros Hu. pose proof k_sz. rewrite (sh_pte1 _ _ _ _ _ _ _ _ _ _ S) by (unfold upage in Hu; lia).
  rewrite decide_True; [done|]. apply k_upage; [apply Hu|done].
Qed.

Lemma fork_pte_child va : upage A va → pte_of s' T2 va = child_pte (pte_of s (as_pt A) va).
Proof.
  intros Hu. pose proof k_sz. rewrite (sh_pte2 _ _ _ _ _ _ _ _ _ _ S) by (unfold upage in Hu; lia).
  rewrite decide_True; [done|]. apply k_upage; [apply Hu|done].
Qed.

Local Lemma k_is_page va : upage A va → is_page (PTE2PA (pte_of s (as_pt A) va)).
Proof. intros Hu. apply (ci_page _ _ _ I _ (i, va)). by exists A. Qed.

(** The entries of the other processes, and all pages, are as before. *)
Lemma fork_maps y jb :
  maps s' As' y jb → ∃ ia, maps s As y ia ∧
    ((jb.1 < length As)%nat ∧ ia = jb ∨ jb.1 = length As ∧ ia = (i, jb.2)).
Proof.
  intros (B & HB & Hb & Ey). destruct jb as [j va]. simpl in *.
  apply lookup_app_Some in HB as [HB|[Hj HB]].
  - exists (j, va). split; [|left; split; [by eapply lookup_lt_Some|done]].
    exists B. split; [done|]. split; [done|]. simpl. rewrite <- Ey.
    destruct (decide (j = i)) as [->|Hji].
    + rewrite HA in HB. injection HB as <-. rewrite fork_pte_parent by done.
      by rewrite parent_pte_page by (by apply k_is_page).
    + destruct (fork_other j B HB Hji) as (_ & E & _). by rewrite E by (unfold upage in Hb; lia).
  - apply list_lookup_singleton_Some in HB as [Hj0 <-]. exists (i, va).
    split; [|right; split; [lia|done]]. exists A. split; [done|]. split; [done|]. simpl. rewrite <- Ey.
    simpl. rewrite fork_pte_child by done. by rewrite child_pte_page by (by apply k_is_page).
Qed.

Lemma fork_count y ja L :
  NoDup (ja :: L) → (∀ jb, jb ∈ ja :: L → maps s' As' y jb) → Z.of_nat (length L) < refs s' y.
Proof.
  intros Hnd HL. destruct (fork_maps y ja (HL ja ltac:(set_solver))) as (ia & Hia & _).
  destruct (ci_page _ _ _ I _ _ Hia) as (Hy & _). pose proof (ci_refs_pos _ _ _ _ _ I Hia) as Hr.
  rewrite (sh_refs _ _ _ _ _ _ _ _ _ _ S) by done. set (K := ja :: L) in *.
  assert (length L < length K)%nat by (simpl; lia). clearbody K.
  pose proof (Permutation_length (filter_app_complement (λ jb, (jb.1 < length As)%nat) K)) as Hlen.
  rewrite length_app in Hlen.
  assert (Z.of_nat (length (filter (λ jb : nat * Z, (jb.1 < length As)%nat) K)) ≤ refs s y) as Hold.
  { destruct (filter _ K) as [|jb K1] eqn:EK; [simpl; lia|]. simpl.
    enough (Z.of_nat (length K1) < refs s y) by lia. apply (ci_count _ _ _ I y jb K1); rewrite <- EK.
    - by apply NoDup_filter.
    - intros jc [Hlt HK]%list_elem_of_filter. destruct (fork_maps y jc (HL jc HK)) as (? & ? & [[_ ->]|[? _]]);
        [done|lia]. }
  assert (Z.of_nat (length (filter (λ jb : nat * Z, ¬ (jb.1 < length As)%nat) K)) ≤ occ pas y) as Hnew.
  { rewrite <- (length_fmap snd). apply run_pas_count.
    - apply NoDup_fmap_2_strong; [|by apply NoDup_filter].
      intros [j1 v1] [j2 v2] [Hn1 HK1]%list_elem_of_filter [Hn2 HK2]%list_elem_of_filter E. simpl in *.
      destruct (fork_maps y _ (HL _ HK1)) as (? & ? & [[? _]|[E1 _]]); [done|].
      destruct (fork_maps y _ (HL _ HK2)) as (? & ? & [[? _]|[E2 _]]); [done|]. simpl in *. congruence.
    - intros va ([j v1] & -> & [Hn HK]%list_elem_of_filter)%list_elem_of_fmap. simpl in *.
      destruct (fork_maps y _ (HL _ HK)) as (ib & (B & HB & Hb & Ey) & [[? _]|[_ ->]]); [done|].
      simpl in *. rewrite HA in HB. injection HB as <-. pose proof (proj2 Hb).
      apply k_upage in Hb as Hb'; [|done]. split; [|done]. unfold PGSIZE in *. zdm. }
  lia.
Qed.

Local Lemma k_child j B : (As') !! j = Some B → As !! j = Some B ∨ j = length As ∧ B = child.
Proof.
  intros [HB|[Hj HB]]%lookup_app_Some; [by left|right].
  apply list_lookup_singleton_Some in HB as [? <-]. split; [lia|done].
Qed.

Lemma fork_pt j B : (As') !! j = Some B → pt_ok s' (as_root B) (as_pt B).
Proof.
  intros [HB|[_ ->]]%k_child; [|apply S]. destruct (decide (j = i)) as [->|Hj].
  - rewrite HA in HB. injection HB as <-. apply S.
  - by apply (fork_other j B HB Hj).
Qed.

Lemma fork_disj_child j B : As !! j = Some B → pt_disjoint (as_pt B) T2.
Proof.
  intros HB. destruct (decide (j = i)) as [->|Hj]; [|by apply (fork_other j B HB Hj)].
  rewrite HA in HB. injection HB as <-. apply S.
Qed.

Lemma fork_leaf j B va :
  (As') !! j = Some B → upage B va →
  bit (pte_of s' (as_pt B) va) 0 = true ∧ PTE_FLAGS (pte_of s' (as_pt B) va) ≠ PTE_V.
Proof.
  assert (∀ va, upage A va → bit (child_pte (pte_of s (as_pt A) va)) 0 = true ∧
    PTE_FLAGS (child_pte (pte_of s (as_pt A) va)) ≠ PTE_V) as Hc.
  { intros w Hw. destruct (ci_leaf _ _ _ I i A w HA Hw) as [Hv Hl]. pose proof (k_is_page w Hw).
    rewrite child_pte_bits, Hv by (done || lia). split; [done|]. by apply child_pte_leaf. }
  intros [HB|[_ ->]]%k_child Hb; [|simpl; rewrite fork_pte_child by done; by apply Hc].
  destruct (decide (j = i)) as [->|Hj].
  - rewrite HA in HB. injection HB as <-. rewrite fork_pte_parent by done. unfold parent_pte.
    destruct (bit _ 2); [by apply Hc|by apply (ci_leaf _ _ _ I i)].
  - destruct (fork_other j B HB Hj) as (_ & E & _). rewrite E by (unfold upage in Hb; lia).
    by apply (ci_leaf _ _ _ I j).
Qed.

Lemma fork_page y jb :
  maps s' As' y jb →
  is_page y ∧ refs s' y < 2 ^ 31 ∧ ∀ j B, (As') !! j = Some B → ¬ pt_page (as_pt B) y.
Proof.
  intros Hm. destruct (fork_maps y jb Hm) as (ia & Hia & _).
  destruct (ci_page _ _ _ I _ _ Hia) as (Hy & Hr31 & Hn). pose proof (ci_refs_pos _ _ _ _ _ I Hia) as Hr.
  split; [done|]. split.
  - rewrite (sh_refs _ _ _ _ _ _ _ _ _ _ S) by done. destruct (decide (y ∈ pas)) as [Hin|Hni]; [by apply Hroom|].
    enough (¬ 0 < occ pas y) by (pose proof (occ_nonneg pas y); lia). by rewrite <- occ_pos.
  - intros j B [HB|[_ ->]]%k_child; [by apply (Hn j)|]. simpl. intros Hp.
    apply (sh_new _ _ _ _ _ _ _ _ _ _ S) in Hp as [Hp|Hp]; [by apply (ch_page _ _ _ _ Hch _ _ Hia)|].
    revert Hp. apply (in_use_not_free s); [apply (ci_inv _ _ _ I)|lia].
Qed.

(** Outside the copied range the entries are as before. *)
Local Lemma k_beyond va : 0 ≤ va → ¬ upage A (PGROUNDDOWN va) → ¬ (va / PGSIZE < Z.of_nat n).
Proof.
  intros Hva Hnu Hlt. apply Hnu. pose proof (PGROUNDDOWN_props va Hva) as (? & ? & ?).
  apply k_upage; [done|]. split; [lia|]. replace (PGROUNDDOWN va / PGSIZE) with (va / PGSIZE); [done|].
  unfold PGSIZE in *. zdm.
Qed.

Lemma fork_user j B va :
  (As') !! j = Some B → 0 ≤ va < MAXVA → uvalid (pte_of s' (as_pt B) va) = true → upage B (PGROUNDDOWN va).
Proof.
  assert (∀ C, as_sz C = as_sz A → upage A (PGROUNDDOWN va) → upage C (PGROUNDDOWN va)) as Hsz
    by (intros C E; unfold upage; by rewrite E).
  intros [HB|[_ ->]]%k_child Hva Hu.
  - destruct (decide (j = i)) as [->|Hj].
    + rewrite HA in HB. injection HB as <-. destruct (decide (upage A (PGROUNDDOWN va))) as [|Hnu]; [done|].
      rewrite (sh_pte1 _ _ _ _ _ _ _ _ _ _ S) in Hu by done.
      rewrite decide_False in Hu by (by apply k_beyond; [lia|]). by apply (ci_user _ _ _ I i).
    + destruct (fork_other j B HB Hj) as (_ & E & _). rewrite E in Hu by lia. by apply (ci_user _ _ _ I j).
  - apply Hsz; [done|]. destruct (decide (upage A (PGROUNDDOWN va))) as [|Hnu]; [done|]. simpl in Hu.
    rewrite (sh_pte2 _ _ _ _ _ _ _ _ _ _ S) in Hu by done.
    rewrite decide_False in Hu by (by apply k_beyond; [lia|]). by rewrite (ch_user _ _ _ _ Hch) in Hu.
Qed.

Lemma fork_priv y j B va kb :
  (As') !! j = Some B → maps s' As' y (j, va) → maps s' As' y kb →
  bit (pte_of s' (as_pt B) va) 2 = true → kb = (j, va).
Proof.
  intros HB Hm Hk HW. pose proof Hm as (B' & HB' & Hb & _). cbn [fst snd] in *. rewrite HB in HB'.
  injection HB' as <-. destruct (fork_maps y _ Hm) as (ia & Hia & _).
  destruct (k_child j B HB) as [HB0|[_ ->]].
  2:{ change (as_pt child) with T2 in HW. rewrite fork_pte_child, child_pte_bits in HW; [done|by apply k_is_page|lia|done]. }
  destruct (decide (j = i)) as [->|Hj].
  { rewrite HA in HB0. injection HB0 as <-.
    rewrite fork_pte_parent, parent_pte_bits, child_pte_bits in HW by (done || lia || by apply k_is_page).
    done. }
  destruct (fork_other j B HB0 Hj) as (_ & E & _). rewrite E in HW by (unfold upage in Hb; lia).
  destruct (fork_maps y _ Hm) as (ja & Hja & [[_ ->]|[Hjl _]]).
  2:{ simpl in Hjl. apply lookup_lt_Some in HB0. lia. }
  destruct (fork_maps y _ Hk) as (ka & Hka & Hcase).
  pose proof (ci_priv _ _ _ I y j B va ka HB0 Hja Hka HW) as ->.
  destruct Hcase as [[_ E']|[_ [=]]]; [by symmetry|congruence].
Qed.

(** The invariant with the child. *)
Lemma fork_inv : cow_inv s' As' l'.
Proof.
  constructor.
  - apply S.
  - intros j B [HB|[_ ->]]%k_child; [by apply (ci_sz _ _ _ I j)|apply k_sz].
  - apply fork_pt.
  - intros j k B C [HB|[-> ->]]%k_child [HC|[-> ->]]%k_child Hne; try done.
    + by apply (ci_disj _ _ _ I j k).
    + by apply (fork_disj_child j).
    + apply pt_disjoint_sym. by apply (fork_disj_child k).
  - apply fork_leaf.
  - apply fork_page.
  - apply fork_user.
  - apply fork_count.
  - apply fork_priv.
Qed.

Local Lemma k_round va : 0 ≤ va → va / PGSIZE = PGROUNDDOWN va / PGSIZE ∧ 0 ≤ PGROUNDDOWN va.
Proof.
  intros Hva. pose proof (PGROUNDDOWN_props va Hva) as (? & ? & ?). unfold PGSIZE in *. split; [zdm|lia].
Qed.

(** Nobody's memory changes. *)
Lemma fork_view j B va :
  As !! j = Some B → 0 ≤ va → upage B (PGROUNDDOWN va) → ubyte s' (as_pt B) va = ubyte s (as_pt B) va.
Proof.
  intros HB Hva Hb. destruct (k_round va Hva) as [Er Hr]. unfold ubyte.
  rewrite !(pte_of_same_page _ _ va (PGROUNDDOWN va)) by done.
  assert (maps s As (PTE2PA (pte_of s (as_pt B) (PGROUNDDOWN va))) (j, PGROUNDDOWN va)) as Hm by (by exists B).
  pose proof (mod_page_range va).
  replace (PTE2PA (pte_of s' (as_pt B) (PGROUNDDOWN va))) with (PTE2PA (pte_of s (as_pt B) (PGROUNDDOWN va))).
  - apply (fork_byte _ _ _ Hm). lia.
  - destruct (decide (j = i)) as [->|Hj].
    + rewrite HA in HB. injection HB as <-. rewrite fork_pte_parent by done.
      by rewrite parent_pte_page by (by apply k_is_page).
    + destruct (fork_other j B HB Hj) as (_ & E & _). by rewrite E.
Qed.

(** The child sees what the parent sees. *)
Lemma fork_child_view va :
  0 ≤ va → upage A (PGROUNDDOWN va) → ubyte s' T2 va = ubyte s (as_pt A) va.
Proof.
  intros Hva Hu. destruct (k_round va Hva) as [Er Hr]. unfold ubyte.
  rewrite !(pte_of_same_page _ _ va (PGROUNDDOWN va)) by done.
  assert (maps s As (PTE2PA (pte_of s (as_pt A) (PGROUNDDOWN va))) (i, PGROUNDDOWN va)) as Hm by (by exists A).
  pose proof (mod_page_range va). rewrite fork_pte_child, child_pte_page by (done || by apply k_is_page).
  apply (fork_byte _ _ _ Hm). lia.
Qed.

(** The child's rights are the parent's, except that nothing is writable. *)
Lemma fork_child_rights va :
  upage A va → uvalid (pte_of s' T2 va) = uvalid (pte_of s (as_pt A) va) ∧ bit (pte_of s' T2 va) 2 = false.
Proof.
  intros Hu. rewrite fork_pte_child by done. pose proof (k_is_page va Hu). unfold uvalid.
  rewrite !child_pte_bits by (done || lia). simpl. rewrite !andb_false_r, !orb_false_r. done.
Qed.

End fork.

(** A copy that failed leaves the invariant, the counts and the memory as they were. *)
Lemma fork_failed s As l i A r2 T20 k s' T2 :
  cow_inv s As l → As !! i = Some A → child_ok s As r2 T20 →
  (k < npages (as_sz A))%nat → copy_undone s (as_root A) r2 (as_pt A) T20 l k s' T2 →
  cow_inv s' As [] ∧ (∀ x, is_page x → 0 < refs s x → refs s' x = refs s x).
Proof.
  intros I HA Hch Hk U. pose proof (cu_new _ _ _ _ _ _ _ _ _ U) as Hnew. split; [|apply U].
  assert (∀ j B, As !! j = Some B → pt_disjoint (as_pt B) T2) as Hd.
  { intros j B HB p Hp Hp2. apply Hnew in Hp2 as [Hp2|Hp2]; [by apply (ch_disj _ _ _ _ Hch j B HB p)|].
    by apply (pt_page_not_free s (as_root B) (as_pt B) l p (ci_pt _ _ _ I j B HB)); [apply (ci_inv _ _ _ I)|..]. }
  assert (∀ j B, As !! j = Some B → j ≠ i → pt_ok s' (as_root B) (as_pt B) ∧
    ∀ va, 0 ≤ va → pte_of s' (as_pt B) va = pte_of s (as_pt B) va) as Hother.
  { intros j B HB Hj. pose proof (ci_pt _ _ _ I j B HB) as Hok.
    assert (∀ a, in_pages (as_pt B) a → rd (ram s') a = rd (ram s) a) as Hm.
    { intros a (p & Hp & Ha). pose proof (pt_page_is_page _ _ _ _ Hok Hp) as Hpp.
      apply (cu_mem _ _ _ _ _ _ _ _ _ U).
      - apply (page_not_in_pages s (as_root A) _ p); try done; [by apply (ci_pt _ _ _ I i)|].
        by apply (ci_disj _ _ _ I j i B A).
      - apply (page_not_in_pages s' r2 _ p); try done; [apply U|]. by apply (Hd j B HB). }
    split; [|intros; by eapply pte_of_frame]. apply (pt_ok_frame s); [done| |done].
    intros p [path Hp]. apply (cu_refs _ _ _ _ _ _ _ _ _ U); [by eapply pt_is_page|].
    rewrite (pt_ref _ _ _ Hok _ _ Hp). lia. }
  apply (cow_inv_mark s As l); try done; [apply U| | |].
  - intros j B HB. destruct (decide (j = i)) as [->|Hj]; [|by apply (Hother j)].
    rewrite HA in HB. injection HB as <-. apply U.
  - intros j B va HB Hva. destruct (decide (j = i)) as [->|Hj]; [|left; apply (Hother j B); (done || lia)].
    rewrite HA in HB. injection HB as <-. rewrite (cu_pte1 _ _ _ _ _ _ _ _ _ U) by done.
    case_decide as Hlt; [right|by left]. split; [|done].
    pose proof (PGROUNDDOWN_props va ltac:(lia)) as (? & ? & ?). destruct (ci_sz _ _ _ I i A HA).
    unfold upage, npages, PGSIZE in *. zdm.
  - intros x ia Hm. apply (cu_refs _ _ _ _ _ _ _ _ _ U); [by apply (ci_page _ _ _ I _ ia)|].
    by apply (ci_refs_pos s As l x ia).
Qed.

End forkinv.
