(* ===== verification/CopyOut.v ===== *)
(** Copies between user and kernel memory: [walkaddr], [copyin] and [copyout] (vm.c).

    [copyin] returns exactly the user's bytes, or -1 at the first address that is not
    mapped for the user, whatever address and length it is given.  [copyout] changes
    exactly the bytes it is told to, resolving copy-on-write pages on the way, and nothing
    another process sees. *)

From S2P Require Import Prelude Mem Riscv Kalloc Vm PageTable AddrSpace Cow Fork CowFault CowInv.

(** The user may read [va]. *)
Definition uaccess (s : kmem) (T : ptree) (va : Z) : bool := (va <? MAXVA) && uvalid (pte_of s T va).

Definition ubytes (s : kmem) (T : ptree) (va : Z) (n : nat) : list Z :=
  (λ i, ubyte s T (va + Z.of_nat i)) <$> seq 0 n.

Lemma ubytes_app s T va n m : ubytes s T va (n + m) = ubytes s T va n ++ ubytes s T (va + Z.of_nat n) m.
Proof.
  unfold ubytes. rewrite seq_app, fmap_app. f_equal. rewrite Nat.add_0_l, <- (Nat.add_0_r n), <- fmap_add_seq.
  rewrite <- list_fmap_compose. apply list_fmap_ext. intros i x Hx. simpl. f_equal. lia.
Qed.

Section copyuser.
Context `{KernelImageOk}.

(** Entries the user may use map proper pages. *)
Definition user_pages_ok (s : kmem) (T : ptree) : Prop :=
  ∀ va, 0 ≤ va < MAXVA → uvalid (pte_of s T va) = true → is_page (PTE2PA (pte_of s T va)).

Lemma walkaddr_ok s root T va :
  pt_ok s root T → 0 ≤ va →
  walkaddr root va s = Ret (if uaccess s T va then PTE2PA (pte_of s T va) else 0) s.
Proof.
  intros Hok Hva. unfold walkaddr, uaccess, uvalid. destruct (Z.leb_spec MAXVA va) as [Hge|Hlt].
  { by rewrite (proj2 (Z.ltb_ge _ _)) by lia. }
  rewrite (proj2 (Z.ltb_lt _ _)) by lia. msimpl. rewrite (walk_ro s root T va) by (done || lia). msimpl.
  destruct (pt_lookup T va) as [a|] eqn:Ha; cbn [default from_option id].
  2:{ simpl. unfold pte_of. by rewrite Ha. }
  destruct (pt_lookup_slot s root T va a Hok Hva Ha) as (p & _ & -> & Hpp & Hpx).
  pose proof (pt_slot_range p _ Hpp Hpx) as (? & ? & ? & _ & _ & ?).
  rewrite (proj2 (Z.eqb_neq _ 0)) by done. msimpl. rewrite load64_ok by done. msimpl.
  replace (read64 _ _) with (pte_of s T va) by (unfold pte_of; by rewrite Ha).
  rewrite land_PTE_V, land_PTE_U. by destruct (bit _ 0), (bit _ 4).
Qed.

(** The part of a page from [va] on, as the user sees it. *)
Lemma page_ubytes s T va n :
  0 ≤ va → va mod PGSIZE + Z.of_nat n ≤ PGSIZE →
  rd_bytes (ram s) (PTE2PA (pte_of s T (PGROUNDDOWN va)) + (va - PGROUNDDOWN va)) n = ubytes s T va n.
Proof.
  intros Hva Hn. rewrite PGROUNDDOWN_mod by done. pose proof (mod_page_range va).
  apply list_eq_same_length with n; [unfold ubytes; by rewrite length_fmap, length_seq|apply length_rd_bytes|].
  intros i x y Hi. rewrite lookup_rd_bytes by done. unfold ubytes.
  rewrite list_lookup_fmap, lookup_seq_lt by done. simpl. intros [= <-] [= <-]. unfold ubyte.
  rewrite (pte_of_same_page s T (va + Z.of_nat i) (va - va mod PGSIZE)).
  - f_equal. unfold PGSIZE in *. zdm.
  - lia.
  - unfold PGSIZE in *. zdm.
  - unfold PGSIZE in *. zdm.
Qed.

Lemma uaccess_same_page s T v w :
  0 ≤ v → 0 ≤ w → v / PGSIZE = w / PGSIZE → uaccess s T v = uaccess s T w.
Proof.
  intros Hv Hw E. unfold uaccess. rewrite (pte_of_same_page s T v w) by done. f_equal.
  change MAXVA with 274877906944. unfold PGSIZE in *.
  destruct (Z.ltb_spec v 274877906944), (Z.ltb_spec w 274877906944); try done; zdm.
Qed.

(** * copyin *)

(** What [copyin] must return for [len] bytes from [srcva]. *)
Definition copyin_post (s : kmem) (T : ptree) (srcva len : Z) (r : Z) (bs : list Z) : Prop :=
  (r = 0 ∧ bs = ubytes s T srcva (Z.to_nat len) ∧ ∀ j, 0 ≤ j < len → uaccess s T (srcva + j) = true) ∨
  (r = -1 ∧ ∃ k, 0 ≤ k < len ∧ bs = ubytes s T srcva (Z.to_nat k) ∧ uaccess s T (srcva + k) = false).

(** The bytes in the current page are good, and so is what follows. *)
Lemma copyin_post_step s T srcva len n r bs :
  0 ≤ srcva → 0 ≤ n ≤ len → (∀ j, 0 ≤ j < n → uaccess s T (srcva + j) = true) →
  copyin_post s T (srcva + n) (len - n) r bs →
  copyin_post s T srcva len r (ubytes s T srcva (Z.to_nat n) ++ bs).
Proof.
  intros Hs Hn Hacc [(-> & -> & Hj)|(-> & k & Hk & -> & Hno)]; [left|right]; split; try done.
  - split.
    + rewrite <- (Z2Nat.id n) at 2 by lia. rewrite <- ubytes_app. f_equal. lia.
    + intros j Hjl. destruct (Z.lt_ge_cases j n); [by apply Hacc; lia|].
      specialize (Hj (j - n) ltac:(lia)). by replace (srcva + n + (j - n)) with (srcva + j) in Hj by lia.
  - exists (n + k). split; [lia|]. split.
    + rewrite <- (Z2Nat.id n) at 2 by lia. rewrite <- ubytes_app. f_equal. lia.
    + by replace (srcva + (n + k)) with (srcva + n + k) by lia.
Qed.

Lemma copyin_loop s root T :
  pt_ok s root T → user_pages_ok s T →
  ∀ m srcva len dst fuel, Z.to_nat len = m → 0 ≤ srcva → 0 ≤ len → (m < fuel)%nat →
  ∃ r bs, loop fuel (copyin_body root) (srcva, len, dst) s = Ret (r, dst ++ bs) s ∧
    copyin_post s T srcva len r bs.
Proof.
  intros Hok Hup m. induction (lt_wf m) as [m _ IH]. intros srcva len dst fuel Hm Hs Hl Hf.
  destruct fuel as [|fuel]; [lia|]. rewrite loop_unfold. unfold copyin_body at 1.
  destruct (Z.ltb_spec 0 len) as [Hpos|Hz]; msimpl.
  2:{ exists 0, []. rewrite app_nil_r. split; [done|]. left. split; [done|].
      replace len with 0 by lia. split; [done|]. intros; lia. }
  pose proof (PGROUNDDOWN_props srcva Hs) as (Hlo & Hhi & Hal).
  rewrite (walkaddr_ok s root T) by (done || lia). msimpl.
  assert (∀ j, 0 ≤ j → srcva - PGROUNDDOWN srcva + j < PGSIZE →
    uaccess s T (srcva + j) = uaccess s T (PGROUNDDOWN srcva)) as Hsame.
  { intros j Hj Hjp. apply uaccess_same_page; unfold PGSIZE in *; zdm. }
  destruct (uaccess s T (PGROUNDDOWN srcva)) eqn:Ha.
  2:{ exists (-1), []. rewrite app_nil_r. split; [done|]. right. split; [done|]. exists 0.
      split; [lia|]. split; [done|]. apply Hsame; lia. }
  assert (PGROUNDDOWN srcva < MAXVA ∧ is_page (PTE2PA (pte_of s T (PGROUNDDOWN srcva)))) as [Hlt Hpg].
  { unfold uaccess in Ha. apply andb_prop in Ha as [Hlt%Z.ltb_lt Hv]. split; [done|]. apply Hup; [lia|done]. }
  rewrite MAXVA_val in Hlt.
  rewrite (proj2 (Z.eqb_neq _ 0)) by (by apply is_page_nonzero). msimpl.
  set (n := Z.min (PGSIZE - (srcva - PGROUNDDOWN srcva)) len).
  pose proof (is_page_range _ Hpg) as (? & ? & ?).
  unfold mread, readable. rewrite !(proj2 (Z.leb_le _ _)) by (unfold PGSIZE in *; lia). msimpl.
  pose proof (PGROUNDDOWN_mod srcva Hs) as Emod.
  rewrite page_ubytes; [|done|unfold n, PGSIZE in *; lia].
  destruct (decide (n = len)) as [En|Hne].
  - rewrite En, Z.sub_diag. destruct fuel as [|fuel]; [lia|].
    exists 0, (ubytes s T srcva (Z.to_nat len)). split; [done|]. left. split; [done|]. split; [done|].
    intros j Hj. apply Hsame; unfold n in *; lia.
  - assert (u64 (PGROUNDDOWN srcva + PGSIZE) = srcva + n) as ->.
    { rewrite u64_id; unfold n, PGSIZE in *; lia. }
    destruct (IH (Z.to_nat (len - n)) ltac:(unfold n, PGSIZE in *; lia) (srcva + n) (len - n)
      (dst ++ ubytes s T srcva (Z.to_nat n)) fuel) as (r & bs & E & Hpost); try (unfold n, PGSIZE in *; lia).
    exists r, (ubytes s T srcva (Z.to_nat n) ++ bs). rewrite E, <- app_assoc. split; [done|].
    apply copyin_post_step; [done|unfold n; lia| |done]. intros j Hj. apply Hsame; unfold n in *; lia.
Qed.

End copyuser.

(** * copyout under the copy-on-write invariant *)

(** The user may write the page, at once or after a copy. *)
Definition uwritable (v : Z) : bool := uvalid v && (bit v 2 || bit v 8).

Section copyout.
Context `{KernelImageOk}.

(** * Writing to a private page *)

Section store.
Context (s : kmem) (As : list aspace) (l : list Z) (i : nat) (A : aspace) (va0 : Z).
Hypothesis I : cow_inv s As l.
Hypothesis HA : As !! i = Some A.
Hypothesis Hu : upage A va0.
Hypothesis HW : bit (pte_of s (as_pt A) va0) 2 = true.
Context (off : Z) (bs : list Z).
Hypothesis Hoff : 0 ≤ off ∧ off + Z.of_nat (length bs) ≤ PGSIZE.

Local Abbreviation pa := (PTE2PA (pte_of s (as_pt A) va0)).
Local Abbreviation s' := (set_ram (wr_bytes (ram s) (pa + off) bs) s).

Local Lemma st_maps : maps s As pa (i, va0).
Proof. by exists A. Qed.

Local Lemma st_out a : a < pa ∨ pa + PGSIZE ≤ a → rd (ram s') a = rd (ram s) a.
Proof.
  intros Ha. simpl. rewrite rd_wr_bytes. destruct (bs !! _) as [b|] eqn:E; [|done].
  apply lookup_lt_Some in E. rewrite decide_False; [done|]. lia.
Qed.

Lemma store_mwrite : mwrite (pa + off) bs s = Ret tt s'.
Proof.
  destruct (ci_page _ _ _ I _ _ st_maps) as (Hpg & _). pose proof (is_page_range _ Hpg) as (? & ? & ?).
  unfold mwrite, writable. by rewrite !(proj2 (Z.leb_le _ _)) by lia.
Qed.

(** Tables do not change. *)
Lemma store_pt j B : As !! j = Some B →
  pt_ok s' (as_root B) (as_pt B) ∧ ∀ va, 0 ≤ va → pte_of s' (as_pt B) va = pte_of s (as_pt B) va.
Proof.
  intros HB. pose proof (ci_pt _ _ _ I j B HB) as Hok.
  destruct (ci_page _ _ _ I _ _ st_maps) as (Hpg & _ & Hn).
  assert (∀ a, in_pages (as_pt B) a → rd (ram s') a = rd (ram s) a) as Hm.
  { intros a (p & Hp & Ha). apply st_out. pose proof (pt_page_is_page _ _ _ _ Hok Hp) as Hpp.
    destruct (decide (p = pa)) as [->|Hne]; [by destruct (Hn j B HB)|].
    destruct (is_page_disjoint p pa Hpp Hpg Hne); lia. }
  split; [by apply (pt_ok_frame s)|]. intros. by eapply pte_of_frame.
Qed.

Lemma store_inv : cow_inv s' As l.
Proof.
  assert (∀ j B va, As !! j = Some B → 0 ≤ va → pte_of s' (as_pt B) va = pte_of s (as_pt B) va) as Hpte
    by (intros j B va HB; by apply (store_pt j)).
  assert (∀ x ia, maps s' As x ia → maps s As x ia) as Hmaps.
  { intros x ia (B & HB & Hb & E). exists B. split; [done|]. split; [done|].
    by rewrite <- (Hpte ia.1 B) by (done || apply Hb). }
  destruct (ci_page _ _ _ I _ _ st_maps) as (Hpg & _ & _). pose proof (ci_refs_pos _ _ _ _ _ I st_maps) as Hr.
  constructor; try apply I.
  - split; [|apply (ci_inv _ _ _ I)]. destruct (ci_inv _ _ _ I) as [Hf _].
    apply free_ok_set_ram; [done|]. intros q Hq a Ha. apply st_out.
    pose proof (inv_pages _ _ Hf) as Hp. rewrite Forall_forall in Hp.
    destruct (is_page_disjoint q pa (Hp _ Hq) Hpg); [|lia..]. intros ->.
    by apply (in_use_not_free s l pa); [|lia|].
  - intros j B HB. by apply (store_pt j).
  - intros j B va HB Hb. rewrite (Hpte j) by (done || apply Hb). by apply (ci_leaf _ _ _ I j).
  - intros x ia Hm. apply (ci_page _ _ _ I x ia). by apply Hmaps.
  - intros j B va HB Hva. rewrite (Hpte j) by (done || lia). by apply (ci_user _ _ _ I j).
  - intros x ia L Hnd HL. apply (ci_count _ _ _ I x ia L Hnd). intros ib Hib. by apply Hmaps, HL.
  - intros x j B va kb HB Hm Hk Hw. apply Hmaps in Hm, Hk. apply (ci_priv _ _ _ I x j B va); try done.
    rewrite <- (Hpte j); [done|done|]. destruct Hm as (? & _ & Hb & _). apply Hb.
Qed.

(** The bytes seen afterwards. *)
Lemma store_view j B va :
  As !! j = Some B → 0 ≤ va → upage B (PGROUNDDOWN va) →
  ubyte s' (as_pt B) va =
  match (if decide (j = i ∧ va0 + off ≤ va) then bs !! Z.to_nat (va - (va0 + off)) else None) with
  | Some b => u8 b
  | None => ubyte s (as_pt B) va
  end.
Proof.
  intros HB Hva Hb. unfold ubyte. destruct (store_pt j B HB) as [_ Hpte]. rewrite Hpte by done.
  pose proof (PGROUNDDOWN_props va Hva) as (? & ? & Hal). pose proof (mod_page_range va) as Hmod.
  assert (pte_of s (as_pt B) va = pte_of s (as_pt B) (PGROUNDDOWN va)) as Ep.
  { apply pte_of_same_page; unfold PGSIZE in *; (lia || zdm). }
  assert (maps s As (PTE2PA (pte_of s (as_pt B) va)) (j, PGROUNDDOWN va)) as Hm.
  { exists B. split; [done|]. split; [done|]. by rewrite Ep. }
  destruct (ci_page _ _ _ I _ _ Hm) as (Hpg & _ & _). destruct (ci_page _ _ _ I _ _ st_maps) as (Hpg0 & _ & _).
  destruct (decide (PTE2PA (pte_of s (as_pt B) va) = pa)) as [E|E].
  - rewrite E in Hm. pose proof (ci_priv _ _ _ I pa i A va0 _ HA st_maps Hm HW) as [= -> Eva].
    rewrite HA in HB. injection HB as <-. rewrite E. cbn [ram set_ram]. rewrite rd_wr_bytes.
    destruct Hu as [Hu0 Hual].
    replace (pa + va mod PGSIZE - (pa + off)) with (va - (va0 + off)) by (unfold PGSIZE in *; zdm).
    destruct (decide (i = i ∧ va0 + off ≤ va)) as [[_ Hle]|Hnle]; (destruct (bs !! _) as [b|]; [|done]).
    + by rewrite decide_True by (unfold PGSIZE in *; zdm).
    + rewrite decide_False; [done|]. intros Hle. apply Hnle. split; [done|]. unfold PGSIZE in *. zdm.
  - rewrite st_out by (destruct (is_page_disjoint _ _ Hpg Hpg0 E); lia).
    destruct (decide (j = i ∧ va0 + off ≤ va)) as [[-> Hle]|]; [|done].
    rewrite HA in HB. injection HB as <-. rewrite lookup_ge_None_2; [done|].
    destruct Hu as [Hu0 Hual]. assert (PGROUNDDOWN va ≠ va0) by (intros E'; apply E; by rewrite Ep, E').
    unfold PGSIZE in *. zdm.
Qed.

End store.

(** * One page of copyout *)

(** What stays the same for everyone: the memory they see and what they may write. *)
Definition same_view (s s1 : kmem) (As : list aspace) : Prop :=
  ∀ j B va, As !! j = Some B → 0 ≤ va → upage B (PGROUNDDOWN va) →
    ubyte s1 (as_pt B) va = ubyte s (as_pt B) va ∧
    uwritable (pte_of s1 (as_pt B) va) = uwritable (pte_of s (as_pt B) va).

Lemma round_page B va : as_sz B ≤ MAXVA → 0 ≤ va → upage B (PGROUNDDOWN va) → va < MAXVA.
Proof.
  intros Hsz Hva [Hr Hal]. pose proof (PGROUNDDOWN_props va Hva) as (? & ? & _). rewrite MAXVA_val in *.
  unfold PGSIZE in *. zdm.
Qed.

Section page.
Context (s : kmem) (As : list aspace) (l : list Z) (i : nat) (A : aspace) (va0 scause : Z).
Hypothesis I : cow_inv s As l.
Hypothesis HA : As !! i = Some A.
Hypothesis Hu : upage A va0.
Hypothesis Hw : uwritable (pte_of s (as_pt A) va0) = true.
Hypothesis Hsc : scause ≠ 13.
Hypothesis Hl : l ≠ [].

(** The page has been made writable. *)
Record prepared (s1 : kmem) (l1 : list Z) : Prop := {
  pr_inv : cow_inv s1 As l1;
  pr_valid : uvalid (pte_of s1 (as_pt A) va0) = true;
  pr_write : bit (pte_of s1 (as_pt A) va0) 2 = true;
  pr_free : (length l ≤ S (length l1))%nat;
  pr_view : same_view s s1 As;
}.

Local Lemma p_bits : bit (pte_of s (as_pt A) va0) 0 = true ∧ bit (pte_of s (as_pt A) va0) 4 = true ∧
  (bit (pte_of s (as_pt A) va0) 2 || bit (pte_of s (as_pt A) va0) 8) = true.
Proof. unfold uwritable, uvalid in Hw. apply andb_prop in Hw as [[??]%andb_prop ?]. done. Qed.

Local Lemma p_range : 0 ≤ va0 < MAXVA ∧ PGROUNDDOWN va0 = va0.
Proof.
  destruct (ci_sz _ _ _ I i A HA). split; [by apply (upage_range A)|].
  destruct Hu. by apply PGROUNDDOWN_aligned; [lia|].
Qed.

Lemma fault_prepared x s1 l1 :
  cow_resolved s (as_root A) (as_pt A) va0 x s1 l1 → (length l ≤ S (length l1))%nat → prepared s1 l1.
Proof.
  intros C Hlen. destruct p_bits as (Hv & H4 & _). destruct p_range as [Hr Er].
  pose proof (fault_bits s As l i A va0 x s1 l1 I HA Hu C) as Hb.
  assert (∀ j B va, As !! j = Some B → 0 ≤ va → upage B (PGROUNDDOWN va) →
    uwritable (pte_of s1 (as_pt B) va) = uwritable (pte_of s (as_pt B) va)) as Huw.
  { intros j B va HB Hva HuB. pose proof (PGROUNDDOWN_props va Hva) as (? & ? & ?).
    rewrite !(pte_of_same_page _ _ va (PGROUNDDOWN va)) by (unfold PGSIZE in *; (lia || zdm)).
    destruct (decide ((j, PGROUNDDOWN va) = (i, va0))) as [[= -> ->]|Hne].
    - rewrite HA in HB. injection HB as <-. rewrite Hw. unfold uwritable, uvalid. rewrite !Hb, H4 by lia. done.
    - by rewrite (fault_pte s As l i A va0 x s1 l1 I HA Hu C j B). }
  constructor; try done.
  - by apply (fault_inv s As l i A va0 x s1 l1).
  - unfold uvalid. rewrite !Hb, H4 by lia. done.
  - by rewrite Hb by lia.
  - intros j B va HB Hva HuB. split; [|by apply (Huw j)].
    apply (fault_view s As l i A va0 x s1 l1 I HA Hu C j B va HB); [|done].
    split; [done|]. by apply (round_page B); [apply (ci_sz _ _ _ I j)|..].
Qed.

Lemma page_prepare :
  ∃ s1 l1, (if negb (Z.land (pte_of s (as_pt A) va0) PTE_COW =? 0)
            then cow_fault_handler scause (as_root A) va0 else mret 0) s = Ret 0 s1 ∧ prepared s1 l1.
Proof.
  destruct p_bits as (Hv & H4 & H28). destruct p_range as [Hr Er]. rewrite land_PTE_COW.
  destruct (bit (pte_of s (as_pt A) va0) 8) eqn:E8.
  - destruct (cow_fault_handler_ok s (as_root A) (as_pt A) l va0 scause) as (x & s1 & l1 & E & C & Hcase);
      rewrite ?Er in *; try done.
    + by apply (ci_pt _ _ _ I i).
    + apply (ci_inv _ _ _ I).
    + apply (upage_user_page s As l i A va0); try done. intros T ->%list_elem_of_singleton. eauto.
    + exists s1, l1. split; [done|]. apply (fault_prepared x); [done|].
      case_decide; [destruct Hcase as [_ ->]; lia|]. rewrite Hcase. simpl. lia.
  - exists s, l. split; [done|]. unfold uwritable in Hw. apply andb_prop in Hw as [Hw' _].
    rewrite orb_false_r in H28. by constructor; [..|lia|].
Qed.

End page.

(** * The whole copy *)

(** The process [i] has [bs] at [dst]; everything else is as before. *)
Definition written (s s' : kmem) (As : list aspace) (i : nat) (dst : Z) (bs : list Z) : Prop :=
  ∀ j B va, As !! j = Some B → 0 ≤ va → upage B (PGROUNDDOWN va) →
    ubyte s' (as_pt B) va =
      match (if decide (j = i ∧ dst ≤ va) then bs !! Z.to_nat (va - dst) else None) with
      | Some b => u8 b
      | None => ubyte s (as_pt B) va
      end ∧
    uwritable (pte_of s' (as_pt B) va) = uwritable (pte_of s (as_pt B) va).

Lemma written_nil s As i dst : written s s As i dst [].
Proof. intros j B va _ _ _. split; [|done]. by destruct (decide _). Qed.

Lemma written_app s1 s2 s3 As i dst bs1 bs2 :
  written s1 s2 As i dst bs1 → written s2 s3 As i (dst + Z.of_nat (length bs1)) bs2 →
  written s1 s3 As i dst (bs1 ++ bs2).
Proof.
  intros W1 W2 j B va HB Hva Hu. destruct (W1 j B va HB Hva Hu) as [E1 F1].
  destruct (W2 j B va HB Hva Hu) as [E2 F2]. split; [|congruence]. rewrite E2, E1.
  destruct (decide (j = i ∧ dst ≤ va)) as [[-> Hle]|Hn].
  - destruct (decide (i = i ∧ dst + Z.of_nat (length bs1) ≤ va)) as [[_ Hge]|Hlt].
    + rewrite lookup_app_r by lia. rewrite (lookup_ge_None_2 bs1) by lia.
      by replace (Z.to_nat (va - dst) - length bs1)%nat with (Z.to_nat (va - (dst + Z.of_nat (length bs1)))) by lia.
    + rewrite lookup_app_l; [done|]. assert (¬ dst + Z.of_nat (length bs1) ≤ va) by (intros ?; by apply Hlt). lia.
  - rewrite decide_False; [done|]. intros [-> ?]. apply Hn. split; [done|lia].
Qed.

Section copy.
Context (As : list aspace) (i : nat) (A : aspace) (scause : Z).
Hypothesis HA : As !! i = Some A.
Hypothesis Hsc : scause ≠ 13.

(** One round, once the page is known to be writable after [s1]. *)
Lemma copyout_prepared s l s1 l1 dstva src :
  let va0 := PGROUNDDOWN dstva in
  let n := Z.to_nat (Z.min (PGSIZE - (dstva - va0)) (Z.of_nat (length src))) in
  cow_inv s As l → 0 ≤ dstva < MAXVA → src ≠ [] → upage A va0 →
  (if negb (Z.land (pte_of s (as_pt A) va0) PTE_COW =? 0)
   then cow_fault_handler scause (as_root A) va0 else mret 0) s = Ret 0 s1 →
  prepared s As l A va0 s1 l1 →
  ∃ s', copyout_body scause (as_root A) (dstva, src) s = Ret (inl (va0 + PGSIZE, drop n src)) s' ∧
    cow_inv s' As l1 ∧ written s s' As i dstva (take n src) ∧
    ∀ va, 0 ≤ va → pte_of s' (as_pt A) va = pte_of s1 (as_pt A) va.
Proof.
  cbv zeta. intros I Hd Hsrc Hu E1 P1. pose proof (PGROUNDDOWN_props dstva ltac:(lia)) as (Hlo & Hhi & Hal).
  set (va0 := PGROUNDDOWN dstva) in *.
  pose proof (pr_inv _ _ _ _ _ _ _ P1) as I1.
  destruct (walk_entry s (as_root A) (as_pt A) va0) as (a & Ha & Ew & Eld);
    [by apply (ci_pt _ _ _ I i)|lia|by apply (ci_leaf _ _ _ I i)|].
  destruct (walk_entry s1 (as_root A) (as_pt A) va0) as (a' & Ha' & _ & Eld1);
    [by apply (ci_pt _ _ _ I1 i)|lia|by apply (ci_leaf _ _ _ I1 i)|].
  rewrite Ha in Ha'. injection Ha' as <-.
  assert (0 < Z.of_nat (length src)) as Hpos by (destruct src; [done|simpl; lia]).
  set (n := Z.to_nat (Z.min (PGSIZE - (dstva - va0)) (Z.of_nat (length src)))).
  assert (length (take n src) = n) as Elen by (rewrite length_take; lia).
  assert (a ≠ 0) as Hnz.
  { destruct (pt_lookup_slot s (as_root A) (as_pt A) va0 a) as (p & _ & -> & Hpp & Hpx);
      [by apply (ci_pt _ _ _ I i)|lia|done|]. by apply (pt_slot_range p). }
  assert (0 ≤ dstva - va0 ∧ dstva - va0 + Z.of_nat (length (take n src)) ≤ PGSIZE) as Hoff
    by (rewrite Elen; unfold n; lia).
  pose proof (store_mwrite s1 As l1 i A va0 I1 HA Hu (dstva - va0) (take n src) Hoff) as Em.
  exists (set_ram (wr_bytes (ram s1) (PTE2PA (pte_of s1 (as_pt A) va0) + (dstva - va0)) (take n src)) s1).
  pose proof (store_inv s1 As l1 i A va0 I1 HA Hu (dstva - va0) (take n src) Hoff) as I2.
  pose proof (store_pt s1 As l1 i A va0 I1 HA Hu (dstva - va0) (take n src) Hoff) as Hpt.
  split; [|split; [done|split; [|by apply (Hpt i A)]]].
  - unfold copyout_body. fold va0. rewrite (proj2 (Z.ltb_lt _ _)), (proj2 (Z.leb_gt _ _)) by lia. msimpl.
    rewrite Ew. msimpl. rewrite Eld. msimpl. unfold mret, M_ret in E1. rewrite E1. msimpl.
    cbn [Z.eqb]. rewrite (proj2 (Z.eqb_neq a 0)) by done. msimpl. rewrite Eld1. msimpl.
    pose proof (pr_valid _ _ _ _ _ _ _ P1) as Huv. unfold uvalid in Huv. apply andb_prop in Huv as [Hv0 Hv4].
    rewrite land_PTE_V, land_PTE_U, land_PTE_W, Hv0, Hv4, (pr_write _ _ _ _ _ _ _ P1). cbn [negb orb].
    fold n. rewrite Em. cbn [res_bind]. rewrite u64_id; [done|]. rewrite MAXVA_val in *. unfold PGSIZE in *. lia.
  - intros j B va HB Hva HuB. destruct (pr_view _ _ _ _ _ _ _ P1 j B va HB Hva HuB) as [Eb Eu].
    destruct (Hpt j B HB) as [_ Hpte]. rewrite Hpte by done. split; [|done].
    rewrite (store_view s1 As l1 i A va0 I1 HA Hu (pr_write _ _ _ _ _ _ _ P1) _ _ Hoff j B va HB Hva HuB).
    replace (va0 + (dstva - va0)) with dstva by lia. by rewrite Eb.
Qed.

Local Lemma dst_page s l dstva :
  cow_inv s As l → 0 ≤ dstva < MAXVA → uwritable (pte_of s (as_pt A) dstva) = true →
  upage A (PGROUNDDOWN dstva) ∧ pte_of s (as_pt A) (PGROUNDDOWN dstva) = pte_of s (as_pt A) dstva.
Proof.
  intros I Hd Hw. pose proof (PGROUNDDOWN_props dstva ltac:(lia)) as (Hlo & Hhi & Hal). split.
  - apply (ci_user _ _ _ I i A dstva HA Hd). unfold uwritable in Hw. by apply andb_prop in Hw as [? _].
  - symmetry. apply pte_of_same_page; unfold PGSIZE in *; (lia || zdm).
Qed.

Lemma copyout_step s l dstva src :
  let va0 := PGROUNDDOWN dstva in
  let n := Z.to_nat (Z.min (PGSIZE - (dstva - va0)) (Z.of_nat (length src))) in
  cow_inv s As l → 0 ≤ dstva < MAXVA → src ≠ [] → l ≠ [] →
  uwritable (pte_of s (as_pt A) dstva) = true →
  ∃ s' l', copyout_body scause (as_root A) (dstva, src) s = Ret (inl (va0 + PGSIZE, drop n src)) s' ∧
    cow_inv s' As l' ∧ (length l ≤ S (length l'))%nat ∧ written s s' As i dstva (take n src).
Proof.
  cbv zeta. intros I Hd Hsrc Hl Hw. destruct (dst_page s l dstva I Hd Hw) as [Hu Ep]. rewrite <- Ep in Hw.
  destruct (page_prepare s As l i A _ scause I HA Hu Hw Hsc Hl) as (s1 & l1 & E1 & P1).
  destruct (copyout_prepared s l s1 l1 dstva src I Hd Hsrc Hu E1 P1) as (s' & E & I' & W & _).
  exists s', l1. split; [exact E|]. split; [exact I'|]. split; [apply P1|exact W].
Qed.

(** Bytes that fit in one page the process does not share: no page is taken and no entry of
    its table changes. *)
Lemma copyout_private s l dstva src :
  cow_inv s As l → 0 ≤ dstva < MAXVA → dstva mod PGSIZE + Z.of_nat (length src) ≤ PGSIZE →
  uwritable (pte_of s (as_pt A) dstva) = true → bit (pte_of s (as_pt A) dstva) 8 = false →
  ∃ s', copyout scause (as_root A) dstva src s = Ret 0 s' ∧ cow_inv s' As l ∧
    written s s' As i dstva src ∧ ∀ va, 0 ≤ va → pte_of s' (as_pt A) va = pte_of s (as_pt A) va.
Proof.
  intros I Hd Hfit Hw H8. unfold copyout.
  destruct (decide (src = [])) as [->|Hne].
  { exists s. cbn [length Nat.add]. rewrite (loop_done _ _ _ 0 s s); [|done]. split_and!; [done|done|apply written_nil|done]. }
  assert (0 < Z.of_nat (length src)) as Hpos by (destruct src; [done|simpl in *; lia]).
  destruct (dst_page s l dstva I Hd Hw) as [Hu Ep].
  assert (prepared s As l A (PGROUNDDOWN dstva) s l) as P.
  { unfold uwritable in Hw. apply andb_prop in Hw as [Hv Hb]. rewrite H8, orb_false_r in Hb.
    constructor; rewrite ?Ep; [done..|lia|]. intros ? ? ? _ _ _. done. }
  pose proof (PGROUNDDOWN_props dstva ltac:(lia)) as (Hlo & Hhi & Hal).
  destruct (copyout_prepared s l s l dstva src I Hd Hne Hu) as (s' & E & I' & W & Hp); [|done|].
  { by rewrite land_PTE_COW, Ep, H8. }
  assert (dstva - PGROUNDDOWN dstva = dstva mod PGSIZE) as Eo by (unfold PGSIZE in *; zdm).
  rewrite Eo in *. exists s'. replace (length src + 1)%nat with (S (S (length src - 1))) by lia.
  rewrite (loop_next _ _ _ _ _ _ E), drop_ge by lia. rewrite (loop_done _ _ _ 0 s' s') by done.
  rewrite take_ge in W by lia. done.
Qed.

(** The pages [len] bytes from [dst] touch. *)
Definition touched (dst len : Z) : Z :=
  if decide (len = 0) then 0 else (dst + len - 1) / PGSIZE - dst / PGSIZE + 1.

Lemma copyout_loop m : ∀ s l dstva src fuel,
  length src = m → (m < fuel)%nat → cow_inv s As l → 0 ≤ dstva → dstva + Z.of_nat m ≤ MAXVA →
  touched dstva (Z.of_nat m) ≤ Z.of_nat (length l) →
  (∀ k, 0 ≤ k < Z.of_nat m → uwritable (pte_of s (as_pt A) (dstva + k)) = true) →
  ∃ s' l', loop fuel (copyout_body scause (as_root A)) (dstva, src) s = Ret 0 s' ∧
    cow_inv s' As l' ∧ written s s' As i dstva src.
Proof.
  induction (lt_wf m) as [m _ IH]. intros s l dstva src fuel <- Hf I Hd Hmax Ht Hw.
  destruct fuel as [|fuel]; [lia|]. destruct (decide (src = [])) as [->|Hne].
  { exists s, l. rewrite (loop_done _ _ _ 0 s s); [|done]. split; [done|]. split; [done|apply written_nil]. }
  assert (0 < Z.of_nat (length src)) as Hpos by (destruct src; [done|simpl in *; lia]).
  pose proof (PGROUNDDOWN_props dstva ltac:(lia)) as (Hlo & Hhi & Hal).
  destruct (copyout_step s l dstva src) as (s1 & l1 & E1 & I1 & Hl1 & W1); try done; [lia| | |].
  { unfold touched in Ht. rewrite decide_False in Ht by lia. intros ->. simpl in Ht. unfold PGSIZE in *. zdm. }
  { rewrite <- (Z.add_0_r dstva). apply Hw. lia. }
  rewrite (loop_next _ _ _ _ _ _ E1). clear E1.
  set (n := Z.to_nat (Z.min (PGSIZE - (dstva - PGROUNDDOWN dstva)) (Z.of_nat (length src)))) in *.
  destruct (decide (Z.of_nat n = Z.of_nat (length src))) as [En|En].
  - rewrite take_ge in W1 by lia. rewrite drop_ge by lia.
    destruct fuel as [|fuel]; [lia|]. exists s1, l1. rewrite (loop_done _ _ _ 0 s1 s1) by done. done.
  - assert (PGROUNDDOWN dstva + PGSIZE = dstva + Z.of_nat n) as Enext by (unfold n in *; lia).
    rewrite Enext. assert (length (take n src) = n) as Elen by (rewrite length_take; lia).
    destruct (IH (length src - n)%nat ltac:(lia) s1 l1 (dstva + Z.of_nat n) (drop n src) fuel) as (s2 & l2 & E2 & I2 & W2);
      try done; try lia.
    + rewrite length_drop. lia.
    + unfold touched in *. rewrite decide_False in Ht by lia. case_decide; [lia|]. unfold PGSIZE in *. zdm.
    + intros k Hk. specialize (Hw (Z.of_nat n + k) ltac:(lia)). rewrite Z.add_assoc in Hw.
      destruct (W1 i A (dstva + Z.of_nat n + k) HA) as [_ ->]; [lia| |done].
      apply (ci_user _ _ _ I i A); [done|lia|]. unfold uwritable in Hw. by apply andb_prop in Hw as [? _].
    + exists s2, l2. split; [done|]. split; [done|]. rewrite <- (take_drop n src).
      apply (written_app s s1 s2); [done|]. by rewrite Elen.
Qed.

End copy.

End copyout.
