(* ===== verification/Boot.v ===== *)
(** A small machine, booted: ten pages of memory, one process of two pages.  The
    witnesses of the memory theorems start from it. *)

From S2P Require Import Prelude Mem Riscv Kalloc Vm PageTable AddrSpace Cow Fork CowFault CowInv Uvm ForkInv CopyOut.

(** * The first address space satisfies the copy-on-write invariant *)

Section first.
Context `{KernelImageOk}.

(** An address space of freshly allocated pages. *)
Record fresh_space (s : kmem) (A : aspace) (l : list Z) (xperm : Z) (xs : list Z) : Prop := {
  fs_sz : as_sz A = Z.of_nat (length xs) * PGSIZE ∧ as_sz A ≤ MAXVA;
  fs_perm : 0 ≤ xperm < 1024;
  fs_pt : pt_ok s (as_root A) (as_pt A);
  fs_inv : kmem_inv s l;
  fs_nodup : NoDup xs;
  fs_pages : ∀ x, x ∈ xs → is_page x ∧ ¬ pt_page (as_pt A) x ∧ refs s x = 1;
  fs_pte : ∀ v, 0 ≤ v < MAXVA → pte_of s (as_pt A) v = map_list 0 xs xperm (λ _, 0) v;
}.

Section space.
Context (s : kmem) (A : aspace) (l : list Z) (xperm : Z) (xs : list Z).
Hypothesis F : fresh_space s A l xperm xs.

Lemma fresh_lookup va :
  upage A va → ∃ x, xs !! Z.to_nat (va / PGSIZE) = Some x ∧ pte_of s (as_pt A) va = alloc_pte xperm x ∧
    x ∈ xs ∧ PTE2PA (pte_of s (as_pt A) va) = x.
Proof.
  intros [Hr Hal]. destruct (fs_sz _ _ _ _ _ F) as [Esz Hmax].
  assert (0 ≤ va / PGSIZE < Z.of_nat (length xs)) as Hk by (unfold PGSIZE in *; zdm).
  destruct (lookup_lt_is_Some_2 xs (Z.to_nat (va / PGSIZE))) as [x Hx]; [lia|]. exists x. split; [done|].
  assert (x ∈ xs) as Hin by (by eapply list_elem_of_lookup_2).
  assert (pte_of s (as_pt A) va = alloc_pte xperm x) as E.
  { rewrite (fs_pte _ _ _ _ _ F) by lia. unfold map_list. change (0 / PGSIZE) with 0. rewrite Z.sub_0_r.
    rewrite decide_True by lia. by rewrite Hx. }
  split; [done|]. split; [done|]. rewrite E.
  apply (alloc_pte_facts xperm (fs_perm _ _ _ _ _ F)). by apply (fs_pages _ _ _ _ _ F).
Qed.

Lemma fresh_maps y ia : maps s [A] y ia → ∃ va, ia = (0%nat, va) ∧ upage A va ∧ xs !! Z.to_nat (va / PGSIZE) = Some y.
Proof.
  intros (B & HB & Hu & <-). destruct ia as [j va]. apply list_lookup_singleton_Some in HB as [E <-].
  cbn [fst snd] in *. subst j. exists va. split; [done|]. split; [done|].
  by destruct (fresh_lookup va Hu) as (x & Hx & _ & _ & ->).
Qed.

Lemma fresh_unique y ia ib : maps s [A] y ia → maps s [A] y ib → ia = ib.
Proof.
  intros (va & -> & [Ha Hal] & Ea)%fresh_maps (vb & -> & [Hb Hbl] & Eb)%fresh_maps. f_equal.
  pose proof (NoDup_lookup _ _ _ _ (fs_nodup _ _ _ _ _ F) Ea Eb). unfold PGSIZE in *. zdm.
Qed.

Lemma fresh_cow_inv : cow_inv s [A] l.
Proof.
  destruct (fs_sz _ _ _ _ _ F) as [Esz Hmax].
  assert (∀ y ia, maps s [A] y ia → y ∈ xs) as Hin.
  { intros y ia (va & _ & _ & Hx)%fresh_maps. by eapply list_elem_of_lookup_2. }
  assert (∀ j B, [A] !! j = Some B → j = 0%nat ∧ B = A) as Hone.
  { intros j B HB. by apply list_lookup_singleton_Some in HB as [-> <-]. }
  constructor.
  - apply F.
  - intros j B [_ ->]%Hone. unfold PGSIZE in *. lia.
  - intros j B [_ ->]%Hone. apply F.
  - intros j k B C [-> _]%Hone [-> _]%Hone. done.
  - intros j B va [_ ->]%Hone Hu. destruct (fresh_lookup va Hu) as (x & _ & -> & Hx & _).
    destruct (alloc_pte_facts xperm (fs_perm _ _ _ _ _ F) x) as (? & ? & _); [|done].
    by apply (fs_pages _ _ _ _ _ F).
  - intros y ia Hm. destruct (fs_pages _ _ _ _ _ F y (Hin y ia Hm)) as (? & ? & ->). split; [done|].
    split; [lia|]. by intros j B [_ ->]%Hone.
  - intros j B va [_ ->]%Hone Hva Hu. pose proof (PGROUNDDOWN_props va ltac:(lia)) as (? & ? & ?).
    split; [|done]. rewrite (fs_pte _ _ _ _ _ F) in Hu by done. unfold map_list in Hu.
    change (0 / PGSIZE) with 0 in Hu. rewrite Z.sub_0_r, decide_True in Hu by (unfold PGSIZE; zdm).
    destruct (xs !! Z.to_nat (va / PGSIZE)) as [x|] eqn:Ex; [|done]. apply lookup_lt_Some in Ex.
    unfold PGSIZE in *. zdm.
  - intros y ia L Hnd HL. destruct L as [|ib L].
    + destruct (fs_pages _ _ _ _ _ F y) as (_ & _ & ->); [|simpl; lia]. apply (Hin y ia), HL. set_solver.
    + exfalso. apply NoDup_cons in Hnd as [Hn _]. apply Hn.
      rewrite (fresh_unique y ia ib); [set_solver|apply HL; set_solver..].
  - intros y j B va kb _ Hm Hk _. by apply (fresh_unique y).
Qed.

End space.

(** [uvmcreate] followed by [uvmalloc] builds such an address space. *)
Lemma first_space s x l s1 sz xperm s2 T l2 xs :
  kmem_inv s (x :: l) → zeroed s s1 x l → 0 ≤ sz ≤ MAXVA → 0 ≤ xperm < 1024 → sz mod PGSIZE = 0 →
  taken s1 x (empty_pt x) l xs s2 T l2 → length xs = pages_between 0 sz →
  (∀ v, 0 ≤ v < MAXVA → pte_of s2 T v = map_list 0 xs xperm (pte_of s1 (empty_pt x)) v) →
  fresh_space s2 (ASpace x T sz) l2 xperm xs.
Proof.
  intros Hinv Hz Hsz Hperm Hal A Hlen Hpte. constructor; simpl; try done; try apply A.
  - split; [|lia]. rewrite Hlen. unfold pages_between. change (PGROUNDUP 0) with 0. rewrite MAXVA_val in *.
    rewrite PGROUNDUP_aligned by (done || unfold PGSIZE; lia). unfold PGSIZE in *. zdm.
  - intros y Hy. destruct (tk_pages _ _ _ _ _ _ _ _ A y Hy) as (? & _ & ? & ?). done.
  - intros v Hv. rewrite Hpte by done. unfold map_list. case_decide; [|apply pte_of_empty].
    destruct (xs !! _); [done|apply pte_of_empty].
Qed.

End first.

(** * A concrete machine *)

Definition result {S A} (r : res S A) : option A := match r with Ret a _ => Some a | _ => None end.

#[global] Instance small_machine : KernelImage :=
  { kend := PHYSTOP - 10 * PGSIZE; etext := KERNBASE + 0x8000; trampoline := KERNBASE + 0x7000 }.

#[global] Instance small_machine_ok : KernelImageOk.
Proof. constructor; try done; unfold kend, etext, trampoline; simpl; unfold PHYSTOP, KERNBASE, PGSIZE; lia. Qed.

Definition cleared : kmem := KMem ∅ 0 ∅ false.

(** Boot and create a process of two pages; then fork it.  Is memory left? *)
Definition init_process : M kmem (Z * Z) :=
  kinit;; root ← uvmcreate; r ← uvmalloc root 0 (2 * PGSIZE) PTE_W; mret (root, r).

Definition fork_process (root : Z) : M kmem (Z * Z) :=
  child ← uvmcreate; r ← uvmcopy root child (2 * PGSIZE); mret (child, r).

Definition memory_left : M kmem bool := kalloc;; x ← kalloc; mret (negb (x =? 0)).

Lemma memory_left_two s l : kmem_inv s l → result (memory_left s) = Some true → (2 ≤ length l)%nat.
Proof.
  intros Hinv E. unfold memory_left in E. revert E. msimpl. destruct l as [|x [|y l]]; [..|simpl; lia].
  - rewrite kalloc_empty by done. cbn [res_bind]. by rewrite kalloc_empty.
  - destruct (kalloc_cons s x [] Hinv) as (s' & -> & P). cbn [res_bind]. rewrite kalloc_empty; [done|].
    split; [apply P|]. rewrite (ka_lock _ _ _ _ P). apply Hinv.
Qed.

Lemma memory_left_list s l : kmem_inv s l → result (memory_left s) = Some true → l ≠ [].
Proof. intros Hinv E. pose proof (memory_left_two s l Hinv E). by intros ->; simpl in *; lia. Qed.

Definition init_left : M kmem (Z * bool) := r ← init_process; b ← memory_left; mret (r.2, b).

Definition fork_left : M kmem (Z * bool) :=
  r ← init_process; f ← fork_process r.1; b ← memory_left; mret (f.2, b).

Lemma init_left_runs : result (init_left cleared) = Some (2 * PGSIZE, true).
Proof. vm_compute. reflexivity. Qed.

Lemma fork_left_runs : result (fork_left cleared) = Some (0, true).
Proof. vm_compute. reflexivity. Qed.

Lemma init_left_inv s r s' d :
  init_process s = Ret r s' → result (init_left s) = Some d →
  r.2 = d.1 ∧ result (memory_left s') = Some d.2.
Proof.
  intros E. unfold init_left, mbind, M_bind. rewrite E. cbn [res_bind].
  destruct (memory_left s'); simpl; try done. by intros [= <-].
Qed.

Lemma fork_left_inv s r s' f s'' d :
  init_process s = Ret r s' → fork_process r.1 s' = Ret f s'' → result (fork_left s) = Some d →
  f.2 = d.1 ∧ result (memory_left s'') = Some d.2.
Proof.
  intros E E'. unfold fork_left, mbind, M_bind. rewrite E. cbn [res_bind]. rewrite E'. cbn [res_bind].
  destruct (memory_left s''); simpl; try done. by intros [= <-].
Qed.

Opaque init_process fork_process memory_left init_left fork_left.

(** One process of two writable pages, with memory left. *)
Lemma init_process_ok s s0 x l :
  kinit s = Ret tt s0 → kmem_inv s0 (x :: l) → result (init_left s) = Some (2 * PGSIZE, true) →
  ∃ s' A l' xs, init_process s = Ret (as_root A, 2 * PGSIZE) s' ∧
    fresh_space s' A l' PTE_W xs ∧ as_sz A = 2 * PGSIZE ∧ l' ≠ [].
Proof.
  intros E0 Hinv0 R. destruct (uvmcreate_cons s0 x l Hinv0) as (s1 & E1 & Hz).
  destruct (uvmalloc_ok s1 x (empty_pt x) l 0 (2 * PGSIZE) PTE_W) as (r & s2 & T & l2 & xs & E2 & A & Hpte & Hr).
  { by eapply zeroed_pt. } { apply Hz. } { unfold PGSIZE; lia. } { rewrite MAXVA_val. unfold PGSIZE. lia. } { done. }
  { intros. apply pte_of_empty. }
  assert (init_process s = Ret (x, r) s2) as E.
  { Transparent init_process. unfold init_process. msimpl. rewrite E0. msimpl. rewrite E1. msimpl. by rewrite E2. }
  destruct (init_left_inv _ _ _ _ E R) as [Er Eb]. cbn [fst snd] in Er, Eb. subst r.
  exists s2, (ASpace x T (2 * PGSIZE)), l2, xs. split; [done|].
  split; [|split; [done|by apply (memory_left_list s2 l2 (tk_inv _ _ _ _ _ _ _ _ A))]].
  destruct Hr as [[_ Hlen]|[? _]]; [|done].
  eapply (first_space s0 x l s1); try done; rewrite ?MAXVA_val; unfold PGSIZE; lia.
Qed.

Opaque init_process.

Lemma booted : ∃ s0 x l, kinit cleared = Ret tt s0 ∧ kmem_inv s0 (x :: l).
Proof.
  destruct (kinit_spec cleared) as (s0 & E0 & Hinv0); [reflexivity|intros; reflexivity|].
  assert (∃ x l, reverse all_pages = x :: l) as (x & l & El) by (vm_compute; eauto).
  rewrite El in Hinv0. exists s0, x, l. split; [exact E0|exact Hinv0].
Qed.

Lemma one_process :
  ∃ s A l xs, init_process cleared = Ret (as_root A, 2 * PGSIZE) s ∧
    fresh_space s A l PTE_W xs ∧ as_sz A = 2 * PGSIZE ∧ l ≠ [].
Proof.
  destruct booted as (s0 & x & l & E & Hinv). exact (init_process_ok _ _ _ _ E Hinv init_left_runs).
Qed.

(** A second table for a child-to-be. *)
Lemma child_fresh s As l x s1 :
  cow_inv s As (x :: l) → zeroed s s1 x l → cow_inv s1 As l ∧ child_ok s1 As x (empty_pt x) ∧
    (∀ y ia, maps s1 As y ia ↔ maps s As y ia) ∧
    (∀ j B va, As !! j = Some B → 0 ≤ va → pte_of s1 (as_pt B) va = pte_of s (as_pt B) va) ∧
    (∀ y ia, maps s As y ia → refs s1 y = refs s y).
Proof.
  intros I Hz.
  assert (∀ j B, As !! j = Some B → pt_ok s1 (as_root B) (as_pt B) ∧
    ∀ va, 0 ≤ va → pte_of s1 (as_pt B) va = pte_of s (as_pt B) va) as Hpt.
  { intros j B HB. apply (pt_ok_fresh s s1 _ _ x); [by apply (ci_pt _ _ _ I j)|apply Hz..]. }
  assert (∀ y ia, maps s As y ia → refs s1 y = refs s y ∧ y ≠ x) as Hr.
  { intros y ia Hm. pose proof (ci_refs_pos _ _ _ _ _ I Hm). destruct (ci_page _ _ _ I _ _ Hm) as (Hy & _).
    assert (y ≠ x) by (intros ->; rewrite (z_ref0 _ _ _ _ Hz) in *; lia). split; [|done].
    apply (z_refs _ _ _ _ Hz). intros E. apply ref_index_inj in E; [done|done|apply Hz]. }
  destruct (cow_inv_mark s As (x :: l) s1 l) as [I1 Hmaps]; try done; [apply Hz| | | |].
  { intros j B HB. by apply (Hpt j). }
  { intros j B va HB Hva. left. apply (Hpt j); [done|lia]. }
  { intros y ia Hm. by apply (Hr y ia). }
  split; [done|]. split; [|split; [done|split; [intros j B va HB; by apply (Hpt j)|intros y ia Hm; by apply (Hr y ia)]]].
  constructor.
  - by eapply zeroed_pt.
  - intros j B HB p [path Hp] ->%pt_page_empty.
    pose proof (pt_ref _ _ _ (ci_pt _ _ _ I j B HB) _ _ Hp). pose proof (z_ref0 _ _ _ _ Hz). lia.
  - intros va _. by rewrite pte_of_empty.
  - intros y ia Hm ->%pt_page_empty. apply Hmaps in Hm. by destruct (Hr x ia Hm).
Qed.

(** Two processes sharing two pages, with memory left. *)
Definition two_sharing (s : kmem) (A B : aspace) (l : list Z) : Prop :=
  cow_inv s [A; B] l ∧ as_sz A = 2 * PGSIZE ∧ as_sz B = 2 * PGSIZE ∧ l ≠ [] ∧
  is_cow (pte_of s (as_pt B) 0) ∧ uwritable (pte_of s (as_pt B) 0) = true.

(** A process about to be forked: its child has an empty table. *)
Definition forkable (s : kmem) (A : aspace) (x : Z) (l : list Z) : Prop :=
  cow_inv s [A] l ∧ child_ok s [A] x (empty_pt x) ∧
  ∀ y, y ∈ run_pas (pte_of s (as_pt A)) 0 (npages (as_sz A)) →
    refs s y + occ (run_pas (pte_of s (as_pt A)) 0 (npages (as_sz A))) y < 2 ^ 31.

Lemma space_forkable s A x l xs s1 :
  fresh_space s A (x :: l) PTE_W xs → as_sz A = 2 * PGSIZE → zeroed s s1 x l → forkable s1 A x l.
Proof.
  intros F Hsz Hz. pose proof (fresh_cow_inv s A (x :: l) PTE_W xs F) as I.
  destruct (child_fresh s [A] l x s1 I Hz) as (I1 & Hch & Hmaps & Hpte & Hr).
  split; [done|]. split; [done|]. intros y Hy.
  pose proof (occ_length (run_pas (pte_of s1 (as_pt A)) 0 (npages (as_sz A))) y) as Ho.
  rewrite length_run_pas, Hsz in Ho. change (npages (2 * PGSIZE)) with 2%nat in Ho.
  destruct (k_maps s1 [A] l 0 A I1 eq_refl y Hy) as [va Hm]. rewrite (Hr y (0%nat, va)) by (by apply Hmaps).
  apply Hmaps in Hm. destruct (fresh_maps s A _ _ _ F y _ Hm) as (vb & _ & _ & Hx).
  destruct (fs_pages _ _ _ _ _ F y) as (_ & _ & ->); [by eapply list_elem_of_lookup_2|]. rewrite Hsz.
  change (npages (2 * PGSIZE)) with 2%nat. lia.
Qed.

Lemma fork_process_ok s s' A l xs :
  init_process s = Ret (as_root A, 2 * PGSIZE) s' → fresh_space s' A l PTE_W xs → as_sz A = 2 * PGSIZE →
  l ≠ [] → result (fork_left s) = Some (0, true) →
  ∃ s2 B l2, two_sharing s2 A B l2 ∧ (2 ≤ length l2)%nat.
Proof.
  intros E F Hsz Hl R. destruct l as [|x l]; [done|].
  destruct (uvmcreate_cons s' x l) as (s1 & E1 & Hz); [apply F|].
  destruct (space_forkable s' A x l xs s1 F Hsz Hz) as (I1 & Hch & Hroom).
  assert (∀ va, 0 ≤ va → pte_of s1 (as_pt A) va = pte_of s' (as_pt A) va) as Hpte.
  { destruct (pt_ok_fresh s' s1 (as_root A) (as_pt A) x) as [_ Hp]; [apply F|apply Hz..|done]. }
  destruct (uvmcopy_ok s1 (as_root A) x (as_pt A) (empty_pt x) l (as_sz A)) as (r & s2 & T2 & E2 & Hcase).
  { apply Hz. } { by apply (ci_pt _ _ _ I1 0). } { apply Hch. } { by apply (ch_disj _ _ _ _ Hch 0). }
  { rewrite Hsz, MAXVA_val. unfold PGSIZE. lia. } { by apply (fork_parent_ok s1 [A] l 0 A x). }
  rewrite Hsz in E2. assert (fork_process (as_root A) s' = Ret (x, r) s2) as Ef.
  { Transparent fork_process. unfold fork_process. msimpl. rewrite E1. msimpl. by rewrite E2. }
  destruct (fork_left_inv s _ s' _ s2 _ E Ef R) as [Er Eb].
  cbn [fst snd] in Er, Eb. subst r. destruct Hcase as [(_ & l2 & S)|[? _]]; [|done].
  exists s2, (ASpace x T2 (as_sz A)), l2.
  pose proof (fork_inv s1 [A] l 0 A x (empty_pt x) I1 eq_refl Hch Hroom s2 T2 l2 S) as I2.
  split; [|by apply (memory_left_two s2); [apply I2|]].
  split; [exact I2|]. split; [done|]. split; [done|]. split; [by apply (memory_left_list s2); [apply I2|]|].
  assert (upage A 0) as Hu by (split; [rewrite Hsz; unfold PGSIZE; lia|done]).
  destruct (fresh_lookup s' A _ _ _ F 0 Hu) as (y & _ & Ey & Hy & Epa). cbn [as_pt].
  rewrite (fork_pte_child s1 [A] l 0 A x (empty_pt x) I1 eq_refl s2 T2 l2 S 0 Hu).
  rewrite (Hpte 0) by done.
  destruct (fs_pages _ _ _ _ _ F y Hy) as (Hyp & _). pose proof (is_page_u64 y Hyp).
  assert (∀ m, 0 ≤ m < 10 → bit (pte_of s' (as_pt A) 0) m = bit 23 m) as Hb.
  { intros m Hm. rewrite Ey. unfold alloc_pte. by rewrite bit_pte_of_page. }
  assert (∀ m, 0 ≤ m < 10 → bit (child_pte (pte_of s' (as_pt A) 0)) m =
    if decide (m = 2) then false else bit 23 m || bool_decide (m = 1 ∨ m = 8)) as Hc.
  { intros m Hm. rewrite child_pte_bits, !Hb by (done || lia || by rewrite Epa). done. }
  unfold is_cow, uwritable, uvalid. rewrite !Hc by lia. done.
Qed.

Opaque fork_process.

Lemma two_processes_room : ∃ s A B l, two_sharing s A B l ∧ (2 ≤ length l)%nat.
Proof.
  destruct one_process as (s & A & l & xs & E & F & Hsz & Hl).
  destruct (fork_process_ok _ _ _ _ _ E F Hsz Hl fork_left_runs) as (s2 & B & l2 & W).
  exists s2, A, B, l2. exact W.
Qed.

Lemma two_processes : ∃ s A B l, two_sharing s A B l.
Proof. destruct two_processes_room as (s & A & B & l & W & _). by exists s, A, B, l. Qed.

Lemma one_forkable : ∃ s A x l, forkable s A x l ∧ as_sz A = 2 * PGSIZE.
Proof.
  destruct one_process as (s & A & l & xs & _ & F & Hsz & Hl).
  destruct l as [|x l]; [done|]. destruct (uvmcreate_cons s x l) as (s1 & _ & Hz); [apply F|].
  exists s1, A, x, l. split; [by apply (space_forkable s A x l xs)|done].
Qed.
