(* ===== verification/MemoryProps.v ===== *)
(** What the memory subsystem promises: the theorems about fork, copy-on-write faults,
    copies to and from user memory, address spaces and the page allocator, each with a
    witness on the machine of Boot.v. *)

From S2P Require Import Prelude Mem Riscv Kalloc Vm PageTable AddrSpace Cow Fork CowFault CowInv Uvm UvmFree ForkInv CopyOut Boot.

Section props.
Context `{KernelImageOk}.

(** C1. Forking an address space.  In a system whose processes satisfy the copy-on-write
    invariant, [uvmcopy] on process [i] and an empty child table returns.  With 0, the
    child joins the invariant with the same size and the same bytes as its parent, no page
    of the child is writable, and no process's memory has changed.  With -1, the invariant
    holds as before, and every page has the reference count it had. *)
Theorem uvmcopy_forks s As l i A r2 T20 :
  cow_inv s As l → As !! i = Some A → child_ok s As r2 T20 →
  (∀ x, x ∈ run_pas (pte_of s (as_pt A)) 0 (npages (as_sz A)) →
     refs s x + occ (run_pas (pte_of s (as_pt A)) 0 (npages (as_sz A))) x < 2 ^ 31) →
  ∃ r s', uvmcopy (as_root A) r2 (as_sz A) s = Ret r s' ∧
    (r = 0 ∧ (∃ T2 l', cow_inv s' (As ++ [ASpace r2 T2 (as_sz A)]) l' ∧
       (∀ va, 0 ≤ va → upage A (PGROUNDDOWN va) → ubyte s' T2 va = ubyte s (as_pt A) va) ∧
       (∀ va, upage A va → uvalid (pte_of s' T2 va) = uvalid (pte_of s (as_pt A) va) ∧
                           bit (pte_of s' T2 va) 2 = false) ∧
       (∀ j B va, As !! j = Some B → 0 ≤ va → upage B (PGROUNDDOWN va) →
          ubyte s' (as_pt B) va = ubyte s (as_pt B) va)) ∨
     r = -1 ∧ cow_inv s' As [] ∧ (∀ x, is_page x → 0 < refs s x → refs s' x = refs s x)).
Proof.
  intros I HA Hch Hroom.
  destruct (uvmcopy_ok s (as_root A) r2 (as_pt A) T20 l (as_sz A)) as (r & s' & T2 & E & Hr).
  { apply (ci_inv _ _ _ I). } { by apply (ci_pt _ _ _ I i). } { apply Hch. }
  { by apply (ch_disj _ _ _ _ Hch i). } { by apply (ci_sz _ _ _ I i). }
  { by apply (fork_parent_ok s As l i A r2). }
  exists r, s'. split; [done|]. destruct Hr as [(-> & l' & S)|(-> & k & Hk & U)]; [left|right]; (split; [done|]).
  - exists T2, l'. split_and!.
    + by apply (fork_inv s As l i A r2 T20 I HA Hch Hroom).
    + by apply (fork_child_view s As l i A r2 T20 I HA Hch s' T2 l' S).
    + by apply (fork_child_rights s As l i A r2 T20 I HA s' T2 l' S).
    + by apply (fork_view s As l i A r2 T20 I HA Hch s' T2 l' S).
  - by apply (fork_failed s As l i A r2 T20 k s' T2).
Qed.

(** C2. A write fault on a copy-on-write page.  If the faulting page is mapped for the
    user, marked copy-on-write, and a page is free in case it has to be copied, the handler
    returns 0 with the invariant in force, the page writable and no longer marked, referred
    to by this process alone, and the memory every process sees unchanged. *)
Theorem cow_fault_resolves s As l i A va scause :
  cow_inv s As l → As !! i = Some A → 0 ≤ va < MAXVA → scause ≠ 13 →
  is_cow (pte_of s (as_pt A) va) → l ≠ [] →
  ∃ s' l', cow_fault_handler scause (as_root A) va s = Ret 0 s' ∧ cow_inv s' As l' ∧
    bit (pte_of s' (as_pt A) va) 2 = true ∧ bit (pte_of s' (as_pt A) va) 8 = false ∧
    uvalid (pte_of s' (as_pt A) va) = true ∧ refs s' (PTE2PA (pte_of s' (as_pt A) va)) = 1 ∧
    (∀ j B w, As !! j = Some B → 0 ≤ w < MAXVA → upage B (PGROUNDDOWN w) →
       ubyte s' (as_pt B) w = ubyte s (as_pt B) w).
Proof.
  intros I HA Hva Hsc Hc Hl. pose proof (PGROUNDDOWN_props va ltac:(lia)) as (? & ? & ?).
  assert (∀ s0, pte_of s0 (as_pt A) va = pte_of s0 (as_pt A) (PGROUNDDOWN va)) as Ep.
  { intros s0. apply pte_of_same_page; unfold PGSIZE in *; (lia || zdm). }
  assert (uvalid (pte_of s (as_pt A) va) = true) as Huv.
  { unfold uvalid. destruct Hc as (_ & -> & ->). done. }
  pose proof (ci_user _ _ _ I i A va HA Hva Huv) as Hu. rewrite Ep in Hc.
  destruct (cow_fault_handler_ok s (as_root A) (as_pt A) l va scause) as (x & s' & l' & E & C & _); try done.
  { by apply (ci_pt _ _ _ I i). } { apply (ci_inv _ _ _ I). }
  { apply (upage_user_page s As l i A); try done. intros T ->%list_elem_of_singleton. eauto. }
  pose proof (fault_bits s As l i A _ x s' l' I HA Hu C) as Hb. destruct Hc as (Hc8 & Hc0 & Hc4).
  exists s', l'. split; [done|]. split; [by apply (fault_inv s As l i A (PGROUNDDOWN va) x)|].
  rewrite Ep. unfold uvalid. rewrite !Hb, Hc4 by lia. split_and!; try done.
  - rewrite (f_pa_self s As l i A _ x s' l' I HA Hu C). apply C.
  - intros j B w HB Hw HuB. by apply (fault_view s As l i A _ x s' l' I HA Hu C j B w).
Qed.

(** C7. [copyout] writes to one process only.  If the process may write every byte of the
    range (at once or after a copy) and as many pages are free as the range touches, it
    returns 0; then the range holds the bytes given, every other byte of this and of every
    other process is as it was, and the copy-on-write invariant still holds. *)
Theorem copyout_writes s As l i A scause dstva src :
  cow_inv s As l → As !! i = Some A → scause ≠ 13 → 0 ≤ dstva →
  dstva + Z.of_nat (length src) ≤ MAXVA →
  touched dstva (Z.of_nat (length src)) ≤ Z.of_nat (length l) →
  (∀ k, 0 ≤ k < Z.of_nat (length src) → uwritable (pte_of s (as_pt A) (dstva + k)) = true) →
  ∃ s' l', copyout scause (as_root A) dstva src s = Ret 0 s' ∧ cow_inv s' As l' ∧
    ∀ j B va, As !! j = Some B → 0 ≤ va → upage B (PGROUNDDOWN va) →
      ubyte s' (as_pt B) va =
        match (if decide (j = i ∧ dstva ≤ va) then src !! Z.to_nat (va - dstva) else None) with
        | Some b => u8 b
        | None => ubyte s (as_pt B) va
        end.
Proof.
  intros I HA Hsc Hd Hmax Ht Hw.
  destruct (copyout_loop As i A scause HA Hsc (length src) s l dstva src (length src + 1))
    as (s' & l' & E & I' & W); try done; [lia|].
  exists s', l'. split; [done|]. split; [done|]. intros j B va HB Hva Hu. by apply (W j B va).
Qed.

(** C8. [copyin] never faults, whatever address and length the user supplies: it returns 0
    with exactly the user's bytes when the whole range is readable, and otherwise -1 with
    the bytes before the first address that is not; the machine state does not change. *)
Theorem copyin_reads s root T srcva len :
  pt_ok s root T → user_pages_ok s T → 0 ≤ srcva → 0 ≤ len →
  ∃ r bs, copyin root srcva len s = Ret (r, bs) s ∧
    (r = 0 ∧ bs = ubytes s T srcva (Z.to_nat len) ∧
       (∀ j, 0 ≤ j < len → uaccess s T (srcva + j) = true) ∨
     r = -1 ∧ ∃ k, 0 ≤ k < len ∧ bs = ubytes s T srcva (Z.to_nat k) ∧ uaccess s T (srcva + k) = false).
Proof.
  intros Hok Hup Hs Hl.
  destruct (copyin_loop s root T Hok Hup (Z.to_nat len) srcva len [] (Z.to_nat len + 1)) as (r & bs & E & Hpost);
    try done; [lia|]. exists r, bs. by split.
Qed.

(** Growing a process.  [uvmalloc] from [oldsz] to [newsz] either returns [newsz] with
    one fresh page of zeros, of reference count one, mapped for every page in between, or
    returns 0 with every mapping and every reference count as it was. *)
Lemma uvmalloc_grows s root T l oldsz newsz xperm :
  pt_ok s root T → kmem_inv s l → 0 ≤ oldsz ≤ newsz → newsz ≤ MAXVA → 0 ≤ xperm < 1024 →
  (∀ v, PGROUNDUP oldsz ≤ v < PGROUNDUP newsz → pte_of s T v = 0) →
  ∃ r s' T' l' xs, uvmalloc root oldsz newsz xperm s = Ret r s' ∧
    (r = newsz ∧ length xs = pages_between oldsz newsz ∨ r = 0 ∧ xs = []) ∧
    pt_ok s' root T' ∧ kmem_inv s' l' ∧ NoDup xs ∧
    (∀ x, x ∈ xs → x ∈ l ∧ refs s' x = 1 ∧ ∀ b, x ≤ b < x + PGSIZE → rd (ram s') b = 0) ∧
    (∀ x, is_page x → refs s x ≠ 0 → refs s' x = refs s x) ∧
    (∀ v, 0 ≤ v < MAXVA → pte_of s' T' v = map_list (PGROUNDUP oldsz) xs xperm (pte_of s T) v).
Proof.
  intros Hok Hinv Hsz Hmax Hperm Hun.
  destruct (uvmalloc_ok s root T l oldsz newsz xperm) as (r & s' & T' & l' & xs & E & A & Hpte & Hr); try done.
  exists r, s', T', l', xs. split; [done|]. split; [done|]. split_and!; try apply A; try done.
  intros x Hx. destruct (tk_pages _ _ _ _ _ _ _ _ A x Hx) as (_ & ? & _ & ?). split_and!; try done.
  intros b. by apply (tk_zero _ _ _ _ _ _ _ _ A).
Qed.

(** C34. Tearing a process down.  [uvmfree] on a table that maps exactly the pages below
    [sz] returns; the free list then holds what it held, every page of the table, and every
    user page whose last references these mappings were; the other user pages lose one
    reference per mapping. *)
Theorem uvmfree_returns_everything s root T l sz :
  let n := Z.to_nat (PGROUNDUP sz / PGSIZE) in
  let L := run_pas (pte_of s T) 0 n in
  pt_ok s root T → kmem_inv s l → 0 ≤ sz ≤ MAXVA → mapped_run (pte_of s T) 0 n → droppable s T L →
  (∀ v, PGROUNDUP sz ≤ v < MAXVA → bit (pte_of s T v) 0 = false) →
  ∃ s' l', uvmfree root sz s = Ret tt s' ∧ kmem_inv s' l' ∧
    (∀ x, x ∈ l' ↔ x ∈ l ∨ pt_page T x ∨ x ∈ L ∧ refs s x = occ L x) ∧
    (∀ x, is_page x → ¬ pt_page T x → refs s' x = refs s x - occ L x).
Proof. apply uvmfree_ok. Qed.

(** Booting the allocator.  On a machine whose static data is zero, [kinit] returns
    with every page between the end of the kernel and PHYSTOP on the free list, each once. *)
Lemma kinit_frees_all s :
  freelist s = 0 → (∀ x, refs s x = 0) →
  ∃ s' l, kinit s = Ret tt s' ∧ kmem_inv s' l ∧ (∀ x, x ∈ l ↔ is_page x).
Proof.
  intros Hf Hr. destruct (kinit_spec s Hf Hr) as (s' & E & Hinv). exists s', (reverse all_pages).
  split; [done|]. split; [done|]. intros x. rewrite elem_of_reverse. apply elem_of_all_pages.
Qed.

(** [kalloc] takes the first free page, or returns 0 with nothing changed when there is
    none.  The page was not in use, its count becomes one, no other count changes, no
    memory outside it changes, and the allocator's invariant holds for the shorter list. *)
Lemma kalloc_allocates s l :
  kmem_inv s l →
  match l with
  | [] => kalloc s = Ret 0 s
  | x :: l' => ∃ s', kalloc s = Ret x s' ∧ kmem_inv s' l' ∧ is_page x ∧ (x ∉ l') ∧
      refs s x = 0 ∧ refs s' x = 1 ∧ same_refs_but x s s' ∧ same_outside x (ram s) (ram s')
  end.
Proof.
  intros Hinv. destruct l as [|x l]; [by apply kalloc_empty|].
  destruct (kalloc_cons s x l Hinv) as (s' & E & P). exists s'. split; [done|].
  split; [split; [apply P|]|split_and!; try apply P].
  - rewrite (ka_lock _ _ _ _ P). apply Hinv.
  - destruct Hinv as [[_ _ _ Hz] _]. by inversion Hz.
Qed.

(** [kfree] drops one reference to a page in use; the page joins the free list exactly
    when it was the last one, and its contents are untouched otherwise. *)
Lemma kfree_drops s pa l :
  kmem_inv s l → is_page pa → 1 ≤ refs s pa < 2 ^ 31 →
  ∃ s', kfree pa s = Ret tt s' ∧ refs s' pa = refs s pa - 1 ∧ same_refs_but pa s s' ∧
    kmem_inv s' (if decide (refs s pa = 1) then pa :: l else l) ∧
    same_outside pa (ram s) (ram s') ∧ (refs s pa ≠ 1 → ram s' = ram s).
Proof.
  intros Hinv Hp Hr. assert (pa ∉ l) as Hni by (apply (in_use_not_free s); [apply Hinv|lia]).
  destruct (kfree_spec s pa l Hinv Hp Hni) as (s' & E & P); [lia|]. exists s'. split; [done|].
  replace (Z.max 0 (refs s pa - 1)) with (refs s pa - 1) in P by lia.
  destruct P as [Ho Hre Hrs Hm Hk Hlk]. split_and!; try done; [split|].
  - destruct (decide (refs s pa = 1)), (decide (refs s pa - 1 = 0)); (done || lia).
  - rewrite Hlk. apply Hinv.
  - intros. apply Hk. lia.
Qed.

(** Mapping and unmapping.  [mappages] maps a page-aligned run or, out of memory, a
    prefix of it and returns -1; unmapping with [uvmunmap] what was mapped restores every
    entry of a run that was empty before, without touching a reference count. *)
Lemma mappages_uvmunmap s root T l va n pa perm :
  pt_ok s root T → kmem_inv s l → va mod PGSIZE = 0 → 0 ≤ va → (0 < n)%nat →
  va + Z.of_nat n * PGSIZE ≤ MAXVA → 0 ≤ pa → pa + Z.of_nat n * PGSIZE ≤ 2 ^ 64 →
  0 ≤ perm < 1024 → bit perm 1 = true →
  (∀ v, va ≤ v < va + Z.of_nat n * PGSIZE → pte_of s T v = 0) →
  ∃ r s1 T' (l1 : list Z) k, mappages root va (Z.of_nat n * PGSIZE) pa perm s = Ret r s1 ∧
    (r = 0 ∧ k = Z.of_nat n ∨ r = -1 ∧ 0 ≤ k < Z.of_nat n ∧ l1 = []) ∧
    (∀ v, 0 ≤ v < MAXVA → pte_of s1 T' v = map_run va k pa perm (pte_of s T) v) ∧
    ∃ s2 l2, uvmunmap root va k false s1 = Ret tt s2 ∧ pt_ok s2 root T' ∧ kmem_inv s2 l2 ∧
      (∀ v, 0 ≤ v < MAXVA → pte_of s2 T' v = pte_of s T v) ∧
      (∀ x, is_page x → refs s2 x = refs s1 x).
Proof.
  intros Hok Hinv Hal Hva Hn Hmax Hpa Hpam Hperm Hb Hz.
  destruct (mappages_ok s root T l va (Z.of_nat n) pa perm) as (r & s1 & T' & l1 & k & E & G & Hr); try done; [lia|].
  exists r, s1, T', l1, k. split; [done|]. split; [done|]. split; [apply G|].
  assert (0 ≤ k ≤ Z.of_nat n) as Hk by (destruct Hr as [[_ ->]|(_ & ? & _)]; lia).
  destruct (uvmunmap_ok s1 root T' l1 va (Z.to_nat k) false) as (s2 & l2 & E2 & Hok2 & Hrel & Hpte2); try done;
    try apply G; [unfold PGSIZE in *; lia| |].
  { intros j Hj. assert (0 ≤ va + j * PGSIZE < MAXVA) as Hr0 by (unfold PGSIZE in *; lia).
    assert (pte_of s1 T' (va + j * PGSIZE) = pte_of_page (pa + j * PGSIZE) (Z.lor perm PTE_V)) as ->.
    { rewrite (g_pte _ _ _ _ _ _ _ _ G) by done. unfold map_run. rewrite Z.div_add by done.
      rewrite decide_True by lia. f_equal. lia. }
    assert (0 ≤ Z.lor perm PTE_V < 1024) as Hf by (apply flags_lor; [done|apply PTE_V_flag]).
    assert (0 ≤ pa + j * PGSIZE < 2 ^ 64) by (unfold PGSIZE in *; lia).
    rewrite PTE_FLAGS_of_page, bit_pte_of_page by (done || lia). rewrite Z.lor_spec. split; [by rewrite orb_true_r|].
    intros Ef. apply (f_equal (λ f, bit f 1)) in Ef. rewrite Z.lor_spec, Hb in Ef. done. }
  rewrite Z2Nat.id in * by lia. exists s2, l2. split; [done|]. split; [done|]. split; [apply Hrel|]. split.
  - intros v Hv. rewrite Hpte2 by done. unfold clear_run. case_decide as Hin.
    + symmetry. apply Hz. unfold PGSIZE in *. zdm.
    + rewrite (g_pte _ _ _ _ _ _ _ _ G) by done. unfold map_run. by rewrite decide_False by lia.
  - intros x Hx. rewrite (rel_refs _ _ _ _ _ _ Hrel) by done. change (occ [] x) with 0. lia.
Qed.

(** Running out of memory during a copy-on-write fault is not handled: with no free
    page, [update] on a shared page copies to the null page that [kalloc_no_lock] returned
    and faults in the kernel. *)
Lemma update_out_of_memory s root va pa flags :
  kmem_inv s [] → is_page pa → 1 < refs s pa →
  update root va pa flags s = Fault "page fault in memmove".
Proof. apply update_oom. Qed.

(** The handler dereferences the entry before it knows there is one: a fault at an
    address whose leaf table page does not exist makes the kernel load from address zero. *)
Lemma cow_fault_null_entry s root T va scause :
  pt_ok s root T → 0 ≤ va < MAXVA → pt_lookup T (PGROUNDDOWN va) = None →
  cow_fault_handler scause root va s = Fault "load page fault".
Proof. apply cow_fault_handler_unmapped. Qed.

End props.

(** * Witnesses *)

Lemma uvmcopy_forks_witness :
  ∃ s A x r s', as_sz A = 2 * PGSIZE ∧ uvmcopy (as_root A) x (as_sz A) s = Ret r s'.
Proof.
  destruct one_forkable as (s & A & x & l & (I & Hch & Hroom) & Hsz).
  destruct (uvmcopy_forks s [A] l 0 A x (empty_pt x) I eq_refl Hch Hroom) as (r & s' & E & _).
  exists s, A, x, r, s'. split; [exact Hsz|exact E].
Defined.

Lemma cow_fault_resolves_witness :
  ∃ s B s', cow_fault_handler 15 (as_root B) 0 s = Ret 0 s' ∧ bit (pte_of s' (as_pt B) 0) 2 = true.
Proof.
  destruct two_processes as (s & A & B & l & I & _ & _ & Hl & Hc & _).
  destruct (cow_fault_resolves s [A; B] l 1 B 0 15 I eq_refl) as (s' & l' & E & _ & Hw & _);
    [rewrite MAXVA_val; lia|lia|exact Hc|exact Hl|].
  exists s, B, s'. split; [exact E|exact Hw].
Defined.

Lemma copyout_writes_witness :
  ∃ s B s', copyout 8 (as_root B) 0 [104; 105] s = Ret 0 s' ∧ ubyte s' (as_pt B) 1 = 105.
Proof.
  destruct two_processes as (s & A & B & l & I & _ & Hsz & Hl & _ & Hw).
  destruct (copyout_writes s [A; B] l 1 B 8 0 [104; 105] I eq_refl) as (s' & l' & E & _ & W).
  - lia.
  - lia.
  - rewrite MAXVA_val. simpl. lia.
  - change (touched 0 (Z.of_nat (length [104; 105]))) with 1. destruct l; [done|simpl; lia].
  - intros k Hk. simpl in Hk. rewrite (pte_of_same_page s (as_pt B) (0 + k) 0); [exact Hw|lia|lia|].
    unfold PGSIZE. zdm.
  - exists s, B, s'. split; [exact E|]. rewrite (W 1%nat B 1 eq_refl); [reflexivity|lia|].
    change (PGROUNDDOWN 1) with 0. split; [rewrite Hsz; unfold PGSIZE; lia|reflexivity].
Defined.

Lemma copyin_reads_witness :
  ∃ s B r bs, copyin (as_root B) 4094 4 s = Ret (r, bs) s ∧
    (r = 0 ∨ uaccess s (as_pt B) 4094 = false ∨ r = -1).
Proof.
  destruct two_processes as (s & A & B & l & I & _ & Hsz & Hl & _ & Hw).
  destruct (copyin_reads s (as_root B) (as_pt B) 4094 4) as (r & bs & E & Hr).
  - apply (ci_pt _ _ _ I 1 B eq_refl).
  - intros va Hva Hu. pose proof (ci_user _ _ _ I 1 B va eq_refl Hva Hu) as Hup.
    pose proof (PGROUNDDOWN_props va ltac:(lia)) as (? & ? & ?).
    rewrite (pte_of_same_page s (as_pt B) va (PGROUNDDOWN va)); [|lia|lia|unfold PGSIZE in *; zdm].
    apply (ci_page _ _ _ I _ (1%nat, PGROUNDDOWN va)). exists B. split; [reflexivity|]. split; [exact Hup|reflexivity].
  - lia.
  - lia.
  - exists s, B, r, bs. split; [exact E|]. destruct Hr as [[Hr _]|[Hr _]]; [left|right; right]; exact Hr.
Defined.

Lemma uvmalloc_grows_witness :
  ∃ s A r s', uvmalloc (as_root A) (2 * PGSIZE) (3 * PGSIZE) PTE_W s = Ret r s'.
Proof.
  destruct one_process as (s & A & l & xs & _ & F & Hsz & _).
  destruct (uvmalloc_grows s (as_root A) (as_pt A) l (2 * PGSIZE) (3 * PGSIZE) PTE_W) as (r & s' & T' & l' & ys & E & _).
  - apply F.
  - apply F.
  - unfold PGSIZE; lia.
  - rewrite MAXVA_val. unfold PGSIZE. lia.
  - done.
  - intros v Hv. change (PGROUNDUP (2 * PGSIZE)) with 8192 in Hv. change (PGROUNDUP (3 * PGSIZE)) with 12288 in Hv.
    destruct (fs_sz _ _ _ _ _ F) as [Hl _]. rewrite Hsz in Hl.
    rewrite (fs_pte _ _ _ _ _ F) by (rewrite MAXVA_val; lia). unfold map_list. case_decide; [|reflexivity].
    rewrite lookup_ge_None_2; [reflexivity|]. change (0 / PGSIZE) with 0. unfold PGSIZE in *. zdm.
  - exists s, A, r, s'. exact E.
Defined.

Lemma uvmfree_returns_everything_witness :
  ∃ s A s', uvmfree (as_root A) (as_sz A) s = Ret tt s'.
Proof.
  destruct one_process as (s & A & l & xs & _ & F & Hsz & _).
  pose proof (fresh_cow_inv s A l PTE_W xs F) as I. destruct (fs_sz _ _ _ _ _ F) as [Hl Hmax].
  assert (∀ k, 0 ≤ k < 2 → upage A (k * PGSIZE)) as Hu.
  { intros k Hk. split; [rewrite Hsz; unfold PGSIZE; lia|by apply Z.mod_mul]. }
  destruct (uvmfree_returns_everything s (as_root A) (as_pt A) l (as_sz A)) as (s' & l' & E & _).
  - apply F.
  - apply F.
  - rewrite Hl. unfold PGSIZE in *. lia.
  - rewrite Hsz. intros k Hk. change (Z.of_nat (Z.to_nat (PGROUNDUP (2 * PGSIZE) / PGSIZE))) with 2 in Hk.
    rewrite Z.add_0_l. apply (ci_leaf _ _ _ I 0 A _ eq_refl), Hu, Hk.
  - rewrite Hsz. change (Z.to_nat (PGROUNDUP (2 * PGSIZE) / PGSIZE)) with 2%nat.
    assert (2%nat = length xs) as -> by (rewrite Hsz in Hl; unfold PGSIZE in *; lia).
    rewrite (run_pas_list 0 xs).
    + apply Forall_forall. intros x Hx. destruct (fs_pages _ _ _ _ _ F x Hx) as (Hp & Hn & Hr).
      split; [exact Hp|]. split; [exact Hn|]. rewrite Hr. split; [|lia]. apply occ_nodup, F.
    + intros j x Hj. pose proof (lookup_lt_Some _ _ _ Hj) as Hlt. rewrite Hsz in Hl.
      destruct (fresh_lookup s A l PTE_W xs F (Z.of_nat j * PGSIZE)) as (y & Hy & _ & _ & Ey).
      { apply Hu. unfold PGSIZE in *. lia. }
      rewrite Z.add_0_l, Ey. rewrite Z.div_mul, Nat2Z.id in Hy by done. congruence.
  - intros v Hv. rewrite Hsz in Hv, Hl. change (PGROUNDUP (2 * PGSIZE)) with 8192 in Hv.
    rewrite (fs_pte _ _ _ _ _ F) by lia. unfold map_list. case_decide; [|reflexivity].
    rewrite lookup_ge_None_2; [reflexivity|]. change (0 / PGSIZE) with 0. unfold PGSIZE in *. zdm.
  - exists s, A, s'. exact E.
Defined.

Lemma kinit_frees_all_witness : ∃ s' l, kinit cleared = Ret tt s' ∧ kmem_inv s' l.
Proof.
  destruct (kinit_frees_all cleared) as (s' & l & E & Hinv & _); [reflexivity|intros x; reflexivity|].
  exists s', l. split; [exact E|exact Hinv].
Defined.

Lemma kalloc_allocates_witness : ∃ s x s', kalloc s = Ret x s' ∧ refs s x = 0 ∧ refs s' x = 1.
Proof.
  destruct booted as (s & x & l & _ & Hinv).
  destruct (kalloc_allocates s (x :: l) Hinv) as (s' & E & _ & _ & _ & H0 & H1 & _).
  exists s, x, s'. split; [exact E|]. split; [exact H0|exact H1].
Defined.

Lemma kfree_drops_witness :
  ∃ s pa s', kfree pa s = Ret tt s' ∧ refs s pa = 1 ∧ refs s' pa = refs s pa - 1.
Proof.
  destruct one_process as (s & A & l & xs & _ & F & Hsz & _).
  destruct (fresh_lookup s A l PTE_W xs F 0) as (y & _ & _ & Hy & _).
  { split; [rewrite Hsz; unfold PGSIZE; lia|done]. }
  destruct (fs_pages _ _ _ _ _ F y Hy) as (Hp & _ & Hr).
  destruct (kfree_drops s y l) as (s' & E & Hr' & _); [apply F|exact Hp|lia|].
  exists s, y, s'. split; [exact E|]. split; [exact Hr|exact Hr'].
Defined.

Lemma mappages_uvmunmap_witness :
  ∃ s A r s1 k s2, mappages (as_root A) 0x10000 (2 * PGSIZE) KERNBASE PTE_R s = Ret r s1 ∧
    uvmunmap (as_root A) 0x10000 k false s1 = Ret tt s2.
Proof.
  destruct one_process as (s & A & l & xs & _ & F & Hsz & _). destruct (fs_sz _ _ _ _ _ F) as [Hl _].
  destruct (mappages_uvmunmap s (as_root A) (as_pt A) l 0x10000 2 KERNBASE PTE_R) as
    (r & s1 & T' & l1 & k & E & _ & _ & s2 & l2 & E2 & _); try done; try apply F; try lia.
  - intros v Hv. rewrite Hsz in Hl. rewrite (fs_pte _ _ _ _ _ F) by (rewrite MAXVA_val; unfold PGSIZE in *; lia).
    unfold map_list. case_decide; [|reflexivity].
    rewrite lookup_ge_None_2; [reflexivity|]. change (0 / PGSIZE) with 0. unfold PGSIZE in *. zdm.
  - exists s, A, r, s1, k, s2. split; [exact E|exact E2].
Defined.

(** A state with one page in use twice and none free. *)
Definition exhausted : kmem := KMem ∅ 0 (<[ref_index (PHYSTOP - PGSIZE) := 2]> ∅) false.

Lemma update_out_of_memory_witness :
  update KERNBASE 0 (PHYSTOP - PGSIZE) 0 exhausted = Fault "page fault in memmove".
Proof.
  apply (update_out_of_memory exhausted KERNBASE 0 (PHYSTOP - PGSIZE) 0).
  - split; [constructor|]; done || constructor.
  - split; [reflexivity|]. unfold kend. simpl. unfold PHYSTOP, KERNBASE, PGSIZE. lia.
  - vm_compute. reflexivity.
Defined.

Lemma cow_fault_null_entry_witness :
  ∃ s A, cow_fault_handler 15 (as_root A) 0x40000000 s = Fault "load page fault".
Proof.
  destruct booted as (s & x & l & _ & Hinv). destruct (uvmcreate_cons s x l Hinv) as (s1 & _ & Hz).
  exists s1, (ASpace x (empty_pt x) 0). apply (cow_fault_null_entry s1 x (empty_pt x) 0x40000000 15).
  - exact (zeroed_pt s s1 x l Hz).
  - rewrite MAXVA_val. lia.
  - reflexivity.
Defined.
