(* ===== verification/Grep.v ===== *)
(** The pattern matcher and the line filter of user/grep.c.

    C strings are lists of non-zero bytes, the terminating NUL left implicit.  The
    recursion of [matchhere] is structural in the pattern; [matchstar] loops over the text.
    The matcher is proved to decide the language of the pattern.  [grep_lines] is the text
    that the inner loop of [grep], [grep_out] of the file User, writes; the lemmas on lines
    cut by the buffer are those of its proof. *)

From S2P Require Import Prelude.

(** * The matcher *)

Definition ch_star : Z := 42.
Definition ch_dot : Z := 46.
Definition ch_caret : Z := 94.
Definition ch_dollar : Z := 36.
Definition ch_nl : Z := 10.

(** [matchstar(c, re, text)], where [here] is [matchhere(re, .)]. *)
Fixpoint matchstar (here : list Z → bool) (c : Z) (text : list Z) : bool :=
  if here text then true
  else
    match text with
    | [] => false
    | x :: text => if (x =? c) || (c =? ch_dot) then matchstar here c text else false
    end.

Fixpoint matchhere (re text : list Z) {struct re} : bool :=
  match re with
  | [] => true
  | c :: re1 =>
      match re1 with
      | d :: re2 =>
          if d =? ch_star then matchstar (matchhere re2) c text
          else
            match text with
            | x :: text1 => if (c =? ch_dot) || (c =? x) then matchhere re1 text1 else false
            | [] => false
            end
      | [] =>
          if c =? ch_dollar then bool_decide (text = [])
          else
            match text with
            | x :: text1 => if (c =? ch_dot) || (c =? x) then matchhere re1 text1 else false
            | [] => false
            end
      end
  end.

(** The [do .. while] loop of [match]. *)
Fixpoint match_any (re text : list Z) : bool :=
  if matchhere re text then true
  else match text with [] => false | _ :: text => match_any re text end.

Definition match_ (re text : list Z) : bool :=
  match re with
  | c :: re1 => if c =? ch_caret then matchhere re1 text else match_any re text
  | [] => match_any re text
  end.

(** * The filter *)

(** [strchr(p, '\n')]: the text before the first newline and the text after it. *)
Fixpoint split_nl (p : list Z) : option (list Z * list Z) :=
  match p with
  | [] => None
  | x :: p =>
      if x =? 0 then None
      else if x =? ch_nl then Some ([], p)
      else match split_nl p with Some (a, b) => Some (x :: a, b) | None => None end
  end.

(** The matching lines at [p], and the unfinished line that is left. *)
Fixpoint grep_lines (fuel : nat) (pattern p : list Z) : list Z * list Z :=
  match fuel with
  | O => ([], p)
  | S fuel =>
      match split_nl p with
      | Some (line, rest) =>
          let '(out, last) := grep_lines fuel pattern rest in
          ((if match_ pattern line then line ++ [ch_nl] else []) ++ out, last)
      | None => ([], p)
      end
  end.

Definition BUFSIZE : nat := 1024.

(** * The language of a pattern *)

(** A pattern is a sequence of atoms, each matching one character or any number of
    characters, possibly tied to the end of the text. *)
Inductive atom := One (c : Z) | Many (c : Z).

Fixpoint atoms (re : list Z) : list atom * bool :=
  match re with
  | [] => ([], false)
  | c :: re1 =>
      match re1 with
      | d :: re2 =>
          if d =? ch_star then let '(l, e) := atoms re2 in (Many c :: l, e)
          else let '(l, e) := atoms re1 in (One c :: l, e)
      | [] => if c =? ch_dollar then ([], true) else ([One c], false)
      end
  end.

Definition fits (c x : Z) : Prop := c = ch_dot ∨ c = x.

(** The strings an atom, and a sequence of atoms, stand for. *)
Definition atom_lang (a : atom) (w : list Z) : Prop :=
  match a with
  | One c => ∃ x, w = [x] ∧ fits c x
  | Many c => Forall (fits c) w
  end.

Fixpoint lang (l : list atom) (w : list Z) : Prop :=
  match l with
  | [] => w = []
  | a :: l => ∃ u v, w = u ++ v ∧ atom_lang a u ∧ lang l v
  end.

(** [text] begins with a string of the language, and ends there if the pattern says so. *)
Definition prefix_lang (p : list atom * bool) (text : list Z) : Prop :=
  ∃ w rest, text = w ++ rest ∧ lang p.1 w ∧ (p.2 = true → rest = []).

(** * Correctness of the matcher *)

Lemma fits_test c x : (c =? ch_dot) || (c =? x) = true ↔ fits c x.
Proof. unfold fits. rewrite orb_true_iff, !Z.eqb_eq. done. Qed.

Lemma fits_test' c x : (x =? c) || (c =? ch_dot) = true ↔ fits c x.
Proof. rewrite <- fits_test, orb_comm, (Z.eqb_sym x c). done. Qed.

Lemma matchstar_spec here c text :
  matchstar here c text = true ↔ ∃ u v, text = u ++ v ∧ Forall (fits c) u ∧ here v = true.
Proof.
  induction text as [|x text IH]; cbn [matchstar].
  - destruct (here []) eqn:E; split; try done.
    + intros _. by exists [], [].
    + intros (u & v & Hn & _ & Hv). symmetry in Hn. apply app_eq_nil in Hn as [-> ->]. congruence.
  - destruct (here (x :: text)) eqn:E.
    { split; [|done]. intros _. by exists [], (x :: text). }
    destruct ((x =? c) || (c =? ch_dot)) eqn:Ef.
    + rewrite IH. apply fits_test' in Ef. split.
      * intros (u & v & -> & Hu & Hv). exists (x :: u), v. split; [done|]. split; [by constructor|done].
      * intros (u & v & Hx & Hu & Hv). destruct u as [|y u]; simplify_eq/=; [congruence|].
        apply Forall_cons in Hu as [_ Hu]. eauto.
    + split; [done|]. intros (u & v & Hx & Hu & Hv). destruct u as [|y u]; simplify_eq/=; [congruence|].
      apply Forall_cons in Hu as [Hy _]. apply fits_test' in Hy. congruence.
Qed.

Lemma prefix_lang_one c l e x text :
  prefix_lang (One c :: l, e) (x :: text) ↔ fits c x ∧ prefix_lang (l, e) text.
Proof.
  unfold prefix_lang. simpl. split.
  - intros (w & rest & E & (u & v & -> & (y & -> & Hf) & Hl) & He). simplify_eq/=.
    split; [done|]. by exists v, rest.
  - intros [Hf (w & rest & -> & Hl & He)]. exists (x :: w), rest. split; [done|]. split; [|done].
    exists [x], w. split; [done|]. split; [by exists x|done].
Qed.

Lemma prefix_lang_one_nil c l e : ¬ prefix_lang (One c :: l, e) [].
Proof.
  intros (w & rest & E & (u & v & -> & (y & -> & _) & _) & _). done.
Qed.

Lemma prefix_lang_many c l e text :
  prefix_lang (Many c :: l, e) text ↔ ∃ u v, text = u ++ v ∧ Forall (fits c) u ∧ prefix_lang (l, e) v.
Proof.
  unfold prefix_lang. simpl. split.
  - intros (w & rest & -> & (u & v & -> & Hu & Hl) & He). exists u, (v ++ rest).
    rewrite app_assoc. split; [done|]. split; [done|]. by exists v, rest.
  - intros (u & v & -> & Hu & w & rest & -> & Hl & He). exists (u ++ w), rest. rewrite app_assoc.
    split; [done|]. split; [|done]. by exists u, w.
Qed.

Lemma match_one c re1 l e text :
  atoms re1 = (l, e) → (∀ t, matchhere re1 t = true ↔ prefix_lang (l, e) t) →
  match text with
  | x :: text1 => if (c =? ch_dot) || (c =? x) then matchhere re1 text1 else false
  | [] => false
  end = true ↔ prefix_lang (One c :: l, e) text.
Proof.
  intros _ IH. destruct text as [|x text].
  - split; [done|]. intros []%prefix_lang_one_nil.
  - rewrite prefix_lang_one, <- fits_test, <- IH. destruct (_ || _); [|split; [done|by intros [? _]]].
    split; [done|by intros [_ ?]].
Qed.

Lemma matchhere_spec n : ∀ re text, (length re ≤ n)%nat →
  matchhere re text = true ↔ prefix_lang (atoms re) text.
Proof.
  induction n as [|n IH]; intros re text Hn.
  - destruct re; [|simpl in Hn; lia]. split; [|done]. intros _. by exists [], text.
  - destruct re as [|c [|d re2]].
    + split; [|done]. intros _. by exists [], text.
    + cbn [matchhere atoms]. destruct (Z.eqb_spec c ch_dollar) as [->|Hc].
      * rewrite bool_decide_eq_true. split.
        { intros ->. by exists [], []. }
        { intros (w & rest & -> & Hw & He). simpl in Hw. subst w. by rewrite He. }
      * apply (match_one c [] [] false); [done|]. intros t. split; [|done]. intros _. by exists [], t.
    + simpl in Hn. pose proof (IH re2) as IH2. pose proof (IH (d :: re2)) as IH1.
      change (atoms (c :: d :: re2)) with
        (if d =? ch_star then let '(l, e) := atoms re2 in (Many c :: l, e)
         else let '(l, e) := atoms (d :: re2) in (One c :: l, e)).
      cbn [matchhere]. destruct (d =? ch_star).
      * destruct (atoms re2) as [l e]. rewrite matchstar_spec, prefix_lang_many.
        setoid_rewrite IH2; [done|lia].
      * destruct (atoms (d :: re2)) as [l e] eqn:E. apply (match_one c (d :: re2)); [done|].
        intros t. rewrite IH1 by (simpl; lia). done.
Qed.

Lemma match_any_spec re text :
  match_any re text = true ↔ ∃ pre post, text = pre ++ post ∧ matchhere re post = true.
Proof.
  induction text as [|x text IH]; cbn [match_any]; destruct (matchhere re _) eqn:E.
  - split; [|done]. intros _. by exists [], [].
  - split; [done|]. intros (pre & post & Hn & Hm). symmetry in Hn. apply app_eq_nil in Hn as [-> ->]. congruence.
  - split; [|done]. intros _. by exists [], (x :: text).
  - rewrite IH. split.
    + intros (pre & post & -> & Hm). by exists (x :: pre), post.
    + intros (pre & post & Hx & Hm). destruct pre as [|y pre]; simplify_eq/=; [congruence|eauto].
Qed.

(** C35. The matcher decides the language of its pattern.  A pattern is a sequence of atoms,
    [c] for one character (any character if [c] is [.]) and [c*] for any number of them; a
    leading [^] ties the match to the beginning of the line and a final [$] to its end.
    [match] returns 1 exactly when the line contains such a string. *)
Theorem match_decides re text :
  match_ re text = true ↔
  ∃ pre w post, text = pre ++ w ++ post ∧
    let anchored := match re with c :: _ => c =? ch_caret | [] => false end in
    let '(l, at_end) := atoms (if anchored then tail re else re) in
    lang l w ∧ (anchored = true → pre = []) ∧ (at_end = true → post = []).
Proof.
  assert (∀ p t, prefix_lang p t ↔ ∃ w post, t = w ++ post ∧ let '(l, e) := p in lang l w ∧ (e = true → post = []))
    as Hp.
  { intros [l e] t. unfold prefix_lang. simpl. done. }
  assert (∀ r t, matchhere r t = true ↔ prefix_lang (atoms r) t) as Hh.
  { intros r t. by apply (matchhere_spec (length r)). }
  assert (match_ re text = (match re with c :: _ => if c =? ch_caret then matchhere (tail re) text else match_any re text
    | [] => match_any re text end)) as -> by (by destruct re).
  destruct (match re with c :: _ => c =? ch_caret | [] => false end) eqn:Ea.
  - destruct re as [|c re1]; [done|]. rewrite Ea, Hh, Hp. simpl. destruct (atoms re1) as [l e]. split.
    + intros (w & post & -> & Hl & He). exists [], w, post. done.
    + intros (pre & w & post & -> & Hl & Hpre & He). rewrite Hpre by done. by exists w, post.
  - assert (match_any re text = true ↔ ∃ pre w post, text = pre ++ w ++ post ∧
      let '(l, e) := atoms re in lang l w ∧ (e = true → post = [])) as Hm.
    { rewrite match_any_spec. setoid_rewrite Hh. setoid_rewrite Hp. split.
      - intros (pre & t & -> & w & post & -> & Hx). by exists pre, w, post.
      - intros (pre & w & post & -> & Hx). exists pre, (w ++ post). split; [done|]. by exists w, post. }
    replace (match re with c :: _ => if c =? ch_caret then matchhere (tail re) text else match_any re text
      | [] => match_any re text end) with (match_any re text) by (destruct re; [done|by rewrite Ea]).
    rewrite Hm. cbv zeta iota. destruct (atoms re) as [l e]. split.
    + intros (pre & w & post & -> & Hl & He). exists pre, w, post. split; [done|]. split; [done|]. by split.
    + intros (pre & w & post & -> & Hl & _ & He). exists pre, w, post. by split.
Qed.

(** * Correctness of the filter *)

(** The complete lines of a text, and what follows the last newline. *)
Fixpoint lines (l : list Z) : list (list Z) * list Z :=
  match l with
  | [] => ([], [])
  | x :: l =>
      let '(ls, r) := lines l in
      if x =? ch_nl then ([] :: ls, r)
      else match ls with [] => ([], x :: r) | a :: ls => ((x :: a) :: ls, r) end
  end.

Definition printed (pattern : list Z) (ls : list (list Z)) : list Z :=
  concat (map (λ line, if match_ pattern line then line ++ [ch_nl] else []) ls).

Lemma lines_app p q :
  lines (p ++ q) = ((lines p).1 ++ (lines ((lines p).2 ++ q)).1, (lines ((lines p).2 ++ q)).2).
Proof.
  induction p as [|x p IH]; [simpl; by destruct (lines q)|]. cbn [app lines]. rewrite IH. clear IH.
  destruct (lines p) as [ls r]. simpl. destruct (x =? ch_nl) eqn:Ex; [done|].
  destruct ls as [|a ls]; simpl; [|done].
  rewrite Ex. destruct (lines (r ++ q)) as [ls' r']. simpl. by destruct ls'.
Qed.

Lemma split_nl_lines p : Forall (λ x, x ≠ 0) p →
  match split_nl p with
  | Some (a, b) => lines p = (a :: (lines b).1, (lines b).2) ∧ (length b < length p)%nat ∧ Forall (λ x, x ≠ 0) b
  | None => lines p = ([], p)
  end.
Proof.
  induction p as [|x p IH]; intros Hp; [done|]. apply Forall_cons in Hp as [Hx Hp]. specialize (IH Hp).
  cbn [split_nl lines]. rewrite (proj2 (Z.eqb_neq x 0)) by done. destruct (x =? ch_nl).
  - destruct (lines p). simpl. split; [done|]. split; [lia|done].
  - destruct (split_nl p) as [[a b]|]; [|by rewrite IH].
    destruct IH as (-> & Hl & Hb). split; [done|]. split; [simpl; lia|done].
Qed.

Lemma grep_lines_spec pattern fuel p :
  Forall (λ x, x ≠ 0) p → (length p < fuel)%nat →
  grep_lines fuel pattern p = (printed pattern (lines p).1, (lines p).2).
Proof.
  revert p. induction fuel as [|fuel IH]; intros p Hp Hf; [lia|]. cbn [grep_lines].
  pose proof (split_nl_lines p Hp) as Hs. destruct (split_nl p) as [[a b]|]; [|by rewrite Hs].
  destruct Hs as (-> & Hl & Hb). rewrite IH by (done || lia). done.
Qed.

(** Every line fits in the buffer. *)
Definition short_lines (text : list Z) : Prop :=
  Forall (λ line, (length line < BUFSIZE - 1)%nat) ((lines text).1 ++ [(lines text).2]).

Lemma lines_unfinished r : lines (lines r).2 = ([], (lines r).2).
Proof.
  induction r as [|x r IH]; [done|]. cbn [lines]. destruct (lines r) as [ls t]. simpl in *.
  destruct (x =? ch_nl) eqn:Ex; [done|]. destruct ls; simpl; [|done]. by rewrite IH, Ex.
Qed.

(** An unfinished line is the beginning of the first line of any longer text. *)
Lemma unfinished_extends r q :
  lines r = ([], r) → (length r ≤ length (hd [] ((lines (r ++ q)).1 ++ [(lines (r ++ q)).2])))%nat.
Proof.
  induction r as [|x r IH]; intros Hr; [simpl; lia|].
  cbn [lines] in Hr. destruct (lines r) as [ls t] eqn:E. destruct (x =? ch_nl) eqn:Ex; [done|].
  destruct ls as [|a ls]; simplify_eq/=. specialize (IH eq_refl).
  destruct (lines (r ++ q)) as [ls' t'] eqn:E'. rewrite Ex. destruct ls' as [|a ls']; simpl in *; lia.
Qed.

Lemma short_unfinished r q : lines r = ([], r) → short_lines (r ++ q) → (length r < BUFSIZE - 1)%nat.
Proof.
  intros Hr Hs. pose proof (unfinished_extends r q Hr) as Hl. unfold short_lines in Hs.
  destruct (lines (r ++ q)) as [[|a ls] t]; simpl in *; apply Forall_cons in Hs as [Hs _]; lia.
Qed.

Lemma short_lines_app p q : short_lines (p ++ q) → short_lines ((lines p).2 ++ q).
Proof.
  unfold short_lines. rewrite (lines_app p q). simpl. rewrite <- app_assoc, Forall_app. by intros [_ ?].
Qed.

Lemma printed_app pattern a b : printed pattern (a ++ b) = printed pattern a ++ printed pattern b.
Proof. unfold printed. by rewrite map_app, concat_app. Qed.

Lemma unfinished_nonzero p : Forall (λ x, x ≠ 0) p → Forall (λ x, x ≠ 0) (lines p).2.
Proof.
  induction p as [|x p IH]; intros Hp; [done|]. apply Forall_cons in Hp as [Hx Hp]. specialize (IH Hp). cbn [lines].
  destruct (lines p) as [ls t]. destruct (x =? ch_nl); [done|]. destruct ls; [by constructor|done].
Qed.
