(* ===== verification/Pipe.v ===== *)
(** Pipes, kernel/pipe.c: a ring buffer of 512 bytes shared by readers and writers.

    The counters are 32-bit and wrap around.  [sleep] releases the pipe's lock and suspends
    the thread; while it is suspended other threads may do anything that keeps the pipe's
    invariant.  [hist] is a history variable: the bytes put into and taken out of the
    buffer, in order, each with the thread that did it.  Bytes are copied one at a time
    from and to user memory: [copyin1 a] is the byte at [a], if the user may read it, and
    [copyout1 a] says whether the user may write [a] (copyin and copyout of vm.c). *)

From S2P Require Import Prelude.

Definition PIPESIZE : Z := 512.

Inductive event := Put (who b : Z) | Got (who b : Z).

Record pipe := Pipe {
  data : list Z;
  nread : Z;
  nwrite : Z;
  readopen : bool;
  writeopen : bool;
  plocked : bool;
  pr_killed : bool;
  woken : list chan;
  umem : gmap Z Z;
  pfreed : bool;
  hist : list event;
}.

Definition set_plocked b p := Pipe (data p) (nread p) (nwrite p) (readopen p) (writeopen p) b (pr_killed p) (woken p) (umem p) (pfreed p) (hist p).
Definition set_woken w p := Pipe (data p) (nread p) (nwrite p) (readopen p) (writeopen p) (plocked p) (pr_killed p) w (umem p) (pfreed p) (hist p).
Definition set_umem u p := Pipe (data p) (nread p) (nwrite p) (readopen p) (writeopen p) (plocked p) (pr_killed p) (woken p) u (pfreed p) (hist p).
Definition set_open ro wo p := Pipe (data p) (nread p) (nwrite p) ro wo (plocked p) (pr_killed p) (woken p) (umem p) (pfreed p) (hist p).
Definition set_pfreed b p := Pipe (data p) (nread p) (nwrite p) (readopen p) (writeopen p) (plocked p) (pr_killed p) (woken p) (umem p) b (hist p).

(** [pi->data[pi->nwrite++ % PIPESIZE] = ch] *)
Definition put_byte (who ch : Z) (p : pipe) : pipe :=
  Pipe (<[Z.to_nat (nwrite p mod PIPESIZE) := ch]> (data p)) (nread p) (u32 (nwrite p + 1)) (readopen p) (writeopen p)
    (plocked p) (pr_killed p) (woken p) (umem p) (pfreed p) (hist p ++ [Put who ch]).

(** [pi->data[pi->nread++ % PIPESIZE]] *)
Definition peek (p : pipe) : Z := nth (Z.to_nat (nread p mod PIPESIZE)) (data p) 0.
Definition get_byte (who : Z) (p : pipe) : pipe :=
  Pipe (data p) (u32 (nread p + 1)) (nwrite p) (readopen p) (writeopen p)
    (plocked p) (pr_killed p) (woken p) (umem p) (pfreed p) (hist p ++ [Got who (peek p)]).

Section pipe.
Context (pi who : Z) (copyin1 : Z → option Z) (copyout1 : Z → bool).

Definition acquire_p : M pipe unit := λ s,
  if plocked s then Panic "acquire" else Ret tt (set_plocked true s).
Definition release_p : M pipe unit := λ s,
  if plocked s then Ret tt (set_plocked false s) else Panic "release".
Definition wakeup_p (c : chan) : M pipe unit := modify (λ s, set_woken (c :: woken s) s).
Definition sleep_p (c : chan) : M pipe unit := release_p;; sleep_on c;; acquire_p.

Definition pipeclose (writable : bool) : M pipe unit :=
  acquire_p;;
  (if writable then
     modify (λ s, set_open (readopen s) false s);; wakeup_p (ChPipeRead pi)
   else
     modify (λ s, set_open false (writeopen s) s);; wakeup_p (ChPipeWrite pi));;
  s ← get;
  if negb (readopen s) && negb (writeopen s) then release_p;; modify (set_pfreed true)
  else release_p.

(** One round of the loop of [pipewrite].  It leaves the loop with [(true, -1)] when the
    function returns at once and with [(false, i)] when it goes on after the loop. *)
Definition pipewrite_body (addr n i : Z) : M pipe (Z + (bool * Z)) :=
  if i <? n then
    s ← get;
    if negb (readopen s) || pr_killed s then release_p;; mret (inr (true, -1))
    else if nwrite s =? u32 (nread s + PIPESIZE) then
      wakeup_p (ChPipeRead pi);; sleep_p (ChPipeWrite pi);; mret (inl i)
    else
      match copyin1 (u64 (addr + i)) with
      | None => mret (inr (false, i))
      | Some ch => modify (put_byte who ch);; mret (inl (i + 1))
      end
  else mret (inr (false, i)).

Definition pipewrite (fuel : nat) (addr n : Z) : M pipe Z :=
  acquire_p;;
  r ← loop fuel (pipewrite_body addr n) 0;
  if (r.1 : bool) then mret r.2
  else wakeup_p (ChPipeRead pi);; release_p;; mret r.2.

(** [while(pi->nread == pi->nwrite && pi->writeopen)]; [true] if the thread was killed. *)
Definition piperead_wait (_ : unit) : M pipe (unit + bool) :=
  s ← get;
  if (nread s =? nwrite s) && writeopen s then
    if pr_killed s then release_p;; mret (inr true)
    else sleep_p (ChPipeRead pi);; mret (inl tt)
  else mret (inr false).

Definition piperead_copy (addr n i : Z) : M pipe (Z + Z) :=
  if i <? n then
    s ← get;
    if nread s =? nwrite s then mret (inr i)
    else
      let ch := peek s in
      modify (get_byte who);;
      if copyout1 (u64 (addr + i)) then
        modify (λ s, set_umem (<[u64 (addr + i) := ch]> (umem s)) s);; mret (inl (i + 1))
      else mret (inr i)
  else mret (inr i).

Definition piperead (fuel : nat) (addr n : Z) : M pipe Z :=
  acquire_p;;
  killed ← loop fuel piperead_wait tt;
  if (killed : bool) then mret (-1)
  else
    i ← loop (S (Z.to_nat n)) (piperead_copy addr n) 0;
    wakeup_p (ChPipeWrite pi);; release_p;; mret i.

(** * The queue in the buffer *)

Definition count (p : pipe) : Z := u32 (nwrite p - nread p).

Definition queue (p : pipe) : list Z :=
  (λ k, nth (Z.to_nat ((nread p + Z.of_nat k) mod PIPESIZE)) (data p) 0) <$> seq 0 (Z.to_nat (count p)).

Definition puts (h : list event) : list Z := omap (λ e, match e with Put _ b => Some b | _ => None end) h.
Definition gots (h : list event) : list Z := omap (λ e, match e with Got _ b => Some b | _ => None end) h.

(** The bytes thread [w] has put in, and taken out. *)
Definition puts_by (w : Z) (h : list event) : list Z :=
  omap (λ e, match e with Put v b => if decide (v = w) then Some b else None | _ => None end) h.
Definition gots_by (w : Z) (h : list event) : list Z :=
  omap (λ e, match e with Got v b => if decide (v = w) then Some b else None | _ => None end) h.

(** First in, first out: the bytes put in are those taken out followed by the queue. *)
Record pipe_inv (p : pipe) : Prop := {
  pi_data : length (data p) = Z.to_nat PIPESIZE;
  pi_nread : 0 ≤ nread p < 2 ^ 32;
  pi_nwrite : 0 ≤ nwrite p < 2 ^ 32;
  pi_count : count p ≤ PIPESIZE;
  pi_fifo : puts (hist p) = gots (hist p) ++ queue p;
}.

(** * The buffer refines the queue *)

Lemma count_range p : 0 ≤ count p < 2 ^ 32.
Proof. apply u32_bound. Qed.

Lemma length_queue p : length (queue p) = Z.to_nat (count p).
Proof. unfold queue. by rewrite length_fmap, length_seq. Qed.

Lemma lookup_queue p k :
  (k < Z.to_nat (count p))%nat →
  queue p !! k = Some (nth (Z.to_nat ((nread p + Z.of_nat k) mod PIPESIZE)) (data p) 0).
Proof. intros Hk. unfold queue. by rewrite list_lookup_fmap, lookup_seq_lt. Qed.

Lemma full_iff p : pipe_inv p → (nwrite p =? u32 (nread p + PIPESIZE)) = true ↔ count p = PIPESIZE.
Proof.
  intros [_ ? ? Hc _]. rewrite Z.eqb_eq. pose proof (count_range p). unfold count, u32, PIPESIZE in *.
  split; intros; zdm.
Qed.

Lemma empty_iff p : pipe_inv p → (nread p =? nwrite p) = true ↔ count p = 0.
Proof.
  intros [_ ? ? Hc _]. rewrite Z.eqb_eq. pose proof (count_range p). unfold count, u32, PIPESIZE in *.
  split; intros; zdm.
Qed.

Lemma count_put ch p : pipe_inv p → count p < PIPESIZE → count (put_byte who ch p) = count p + 1.
Proof.
  intros [_ ? ? Hc _] Hlt. pose proof (count_range p). unfold count, put_byte, u32, PIPESIZE in *. simpl. zdm.
Qed.

Lemma count_get p : pipe_inv p → 0 < count p → count (get_byte who p) = count p - 1.
Proof.
  intros [_ ? ? Hc _] Hlt. pose proof (count_range p). unfold count, get_byte, u32, PIPESIZE in *. simpl. zdm.
Qed.

(** The slot of the next byte is the one after the last. *)
Lemma put_slot p : pipe_inv p → nwrite p mod PIPESIZE = (nread p + count p) mod PIPESIZE.
Proof. intros [_ ? ? Hc _]. unfold count, u32, PIPESIZE in *. zdm. Qed.

Lemma slots_differ a i j : 0 ≤ i < j → j < PIPESIZE → (a + i) mod PIPESIZE ≠ (a + j) mod PIPESIZE.
Proof. unfold PIPESIZE. intros ?? ?. zdm. Qed.

Lemma nth_insert_eq (l : list Z) i x d : (i < length l)%nat → nth i (<[i := x]> l) d = x.
Proof. intros Hi. rewrite nth_lookup, list_lookup_insert_eq; done. Qed.

Lemma nth_insert_ne (l : list Z) i j x d : i ≠ j → nth j (<[i := x]> l) d = nth j l d.
Proof. intros Hi. rewrite !nth_lookup. by rewrite list_lookup_insert_ne. Qed.

Lemma queue_put ch p : pipe_inv p → count p < PIPESIZE → queue (put_byte who ch p) = queue p ++ [ch].
Proof.
  intros I Hlt. pose proof (count_range p) as Hr. pose proof (count_put ch p I Hlt) as Ec.
  apply list_eq_same_length with (S (Z.to_nat (count p))).
  - rewrite length_app, length_queue. simpl. lia.
  - rewrite length_queue, Ec. lia.
  - intros k x y Hk. rewrite lookup_queue by lia. cbn [nread data put_byte].
    assert (length (data p) = 512%nat) as Hd by apply I.
    assert (0 ≤ (nread p + count p) mod PIPESIZE < 512) as Hm by (apply Z.mod_pos_bound; done).
    rewrite (put_slot p I). destruct (decide (k = Z.to_nat (count p))) as [->|Hne].
    + rewrite Z2Nat.id by lia. rewrite nth_insert_eq by lia.
      rewrite lookup_app_r by (rewrite length_queue; lia). rewrite length_queue, Nat.sub_diag. simpl. congruence.
    + rewrite nth_insert_ne.
      * rewrite lookup_app_l by (rewrite length_queue; lia). rewrite lookup_queue by lia. congruence.
      * intros E. apply (slots_differ (nread p) (Z.of_nat k) (count p)); [lia|lia|].
        assert (0 ≤ (nread p + Z.of_nat k) mod PIPESIZE) by (by apply Z.mod_pos_bound). lia.
Qed.

Lemma queue_get p : pipe_inv p → 0 < count p → queue p = peek p :: queue (get_byte who p).
Proof.
  intros I Hlt. pose proof (count_range p) as Hr. pose proof (count_get p I Hlt) as Ec.
  apply list_eq_same_length with (Z.to_nat (count p)).
  - simpl. rewrite length_queue, Ec. lia.
  - by rewrite length_queue.
  - intros k x y Hk. rewrite lookup_queue by done. destruct k as [|k].
    + rewrite Z.add_0_r. simpl. unfold peek. congruence.
    + simpl. rewrite lookup_queue by lia. cbn [nread data get_byte].
      replace ((u32 (nread p + 1) + Z.of_nat k) mod PIPESIZE) with ((nread p + Z.of_nat (S k)) mod PIPESIZE).
      * congruence.
      * unfold u32, PIPESIZE. zdm.
Qed.

Lemma puts_app h h' : puts (h ++ h') = puts h ++ puts h'.
Proof. apply omap_app. Qed.
Lemma gots_app h h' : gots (h ++ h') = gots h ++ gots h'.
Proof. apply omap_app. Qed.

Lemma pipe_inv_put ch p : pipe_inv p → count p < PIPESIZE → pipe_inv (put_byte who ch p).
Proof.
  intros I Hlt. constructor; simpl; try apply I.
  - rewrite length_insert. apply I.
  - apply u32_bound.
  - rewrite count_put by done. lia.
  - rewrite queue_put, puts_app, gots_app by done. simpl. rewrite (pi_fifo _ I), app_nil_r. by rewrite app_assoc.
Qed.

Lemma pipe_inv_get p : pipe_inv p → 0 < count p → pipe_inv (get_byte who p).
Proof.
  intros I Hlt. constructor; simpl; try apply I.
  - apply u32_bound.
  - rewrite count_get by done. pose proof (pi_count _ I). lia.
  - rewrite puts_app, gots_app. simpl. rewrite (pi_fifo _ I), (queue_get p I Hlt), app_nil_r.
    by rewrite <- app_assoc.
Qed.

(** Nothing else matters to the invariant. *)
Lemma pipe_inv_ext p q :
  data q = data p → nread q = nread p → nwrite q = nwrite p → hist q = hist p → pipe_inv p → pipe_inv q.
Proof.
  destruct p, q. simpl. intros -> -> -> -> []. by constructor.
Qed.

(** * Threads *)

(** What other threads may do while this one sleeps: keep the invariant, add to the history
    only their own events, and leave this thread's memory alone. *)
Definition others (s s' : pipe) : Prop :=
  pipe_inv s' ∧ plocked s' = false ∧ umem s' = umem s ∧
  puts_by who (hist s') = puts_by who (hist s) ∧ gots_by who (hist s') = gots_by who (hist s) ∧
  hist s `prefix_of` hist s'.

(** What a sleeping thread publishes.  A writer sleeps only on a full buffer, after waking
    the readers; a reader only on an empty one that can still be written. *)
Definition asleep (c : chan) (s : pipe) : Prop :=
  pipe_inv s ∧ plocked s = false ∧
  (c = ChPipeWrite pi ∧ count s = PIPESIZE ∧ readopen s = true ∧ hd_error (woken s) = Some (ChPipeRead pi) ∨
   c = ChPipeRead pi ∧ count s = 0 ∧ writeopen s = true).

Lemma puts_by_snoc h ch : puts_by who (h ++ [Put who ch]) = puts_by who h ++ [ch].
Proof. unfold puts_by. rewrite omap_app. simpl. by rewrite decide_True. Qed.

Lemma gots_by_snoc h ch : gots_by who (h ++ [Got who ch]) = gots_by who h ++ [ch].
Proof. unfold gots_by. rewrite omap_app. simpl. by rewrite decide_True. Qed.

(** The bytes at [addr], as far as the user may read them. *)
Definition ubuf (addr : Z) (k : nat) : option (list Z) :=
  mapM (λ j, copyin1 (u64 (addr + Z.of_nat j))) (seq 0 k).

Lemma ubuf_snoc addr k bs ch :
  ubuf addr k = Some bs → copyin1 (u64 (addr + Z.of_nat k)) = Some ch → ubuf addr (S k) = Some (bs ++ [ch]).
Proof.
  unfold ubuf. intros Hb Hc. rewrite seq_S, Nat.add_0_l. apply mapM_Some in Hb. apply mapM_Some.
  apply Forall2_app; [done|]. by constructor.
Qed.

Section writer.
Context (s0 : pipe) (addr n : Z).

(** Under the lock, [i] bytes written. *)
Record writing (i : Z) (s : pipe) : Prop := {
  w_inv : pipe_inv s;
  w_lock : plocked s = true;
  w_i : 0 ≤ i ≤ Z.max 0 n;
  w_own : ∃ bs, ubuf addr (Z.to_nat i) = Some bs ∧ puts_by who (hist s) = puts_by who (hist s0) ++ bs;
}.

Lemma pipewrite_round i s :
  writing i s →
  meets asleep others
    (λ x s', match x with
             | inl i' => writing i' s'
             | inr (true, r) => r = -1 ∧ pipe_inv s' ∧ plocked s' = false
             | inr (false, r) => writing r s'
             end) (pipewrite_body addr n i s).
Proof.
  intros W. pose proof (w_inv _ _ W) as I. unfold pipewrite_body.
  destruct (Z.ltb_spec i n) as [Hlt|Hge]; [|done]. msimpl.
  destruct (negb (readopen s) || pr_killed s) eqn:Ek; msimpl.
  { unfold release_p. rewrite (w_lock _ _ W). simpl. split; [done|]. split; [|done]. by apply (pipe_inv_ext s). }
  apply orb_false_elim in Ek as [Ero%negb_false_iff _].
  destruct (nwrite s =? u32 (nread s + PIPESIZE)) eqn:Ef.
  - apply (full_iff s I) in Ef. unfold wakeup_p, sleep_p, release_p, sleep_on. msimpl. cbn [plocked set_woken].
    rewrite (w_lock _ _ W). cbn [res_bind meets]. split.
    + split; [by apply (pipe_inv_ext s)|]. split; [done|]. left. done.
    + intros s' (I' & Hl & _ & Hp & _ & _). unfold acquire_p. rewrite Hl. simpl.
      constructor; simpl; [by apply (pipe_inv_ext s')|done|apply W|].
      destruct (w_own _ _ W) as (bs & Hb & Ho). exists bs. split; [done|]. rewrite Hp. done.
  - assert (count s < PIPESIZE) as Hc.
    { pose proof (pi_count _ I). destruct (decide (count s = PIPESIZE)) as [E|]; [|lia].
      apply (full_iff s I) in E. congruence. }
    destruct (copyin1 (u64 (addr + i))) as [ch|] eqn:Ec; [|done]. simpl.
    destruct (w_own _ _ W) as (bs & Hb & Ho). pose proof (w_i _ _ W).
    constructor; [by apply pipe_inv_put|apply W|lia|].
    exists (bs ++ [ch]). split.
    + replace (Z.to_nat (i + 1)) with (S (Z.to_nat i)) by lia. apply ubuf_snoc; [done|]. by rewrite Z2Nat.id by lia.
    + cbn [hist put_byte]. rewrite puts_by_snoc, Ho. by rewrite app_assoc.
Qed.

End writer.

Lemma pipewrite_meets fuel addr n s :
  pipe_inv s → plocked s = false →
  meets asleep others
    (λ r s', pipe_inv s' ∧ plocked s' = false ∧
       (r = -1 ∨ 0 ≤ r ≤ Z.max 0 n ∧ hd_error (woken s') = Some (ChPipeRead pi) ∧
          ∃ bs, ubuf addr (Z.to_nat r) = Some bs ∧ puts_by who (hist s') = puts_by who (hist s) ++ bs))
    (pipewrite fuel addr n s).
Proof.
  intros I Hl. unfold pipewrite, acquire_p. msimpl. rewrite Hl. msimpl. apply meets_bind.
  eapply meets_mono; [|apply (meets_loop _ _ (writing s addr n) (λ x s', match x with
     | (true, r) => r = -1 ∧ pipe_inv s' ∧ plocked s' = false
     | (false, r) => writing s addr n r s' end))].
  - intros [b r] s' Hx. destruct b; simpl.
    + destruct Hx as (-> & ? & ?). split; [done|]. split; [done|]. by left.
    + unfold wakeup_p, release_p, modify. msimpl. cbn [plocked set_woken]. rewrite (w_lock _ _ _ _ _ Hx). simpl.
      split; [by apply (pipe_inv_ext s'), Hx|]. split; [done|]. right. split; [apply Hx|]. split; [done|]. apply Hx.
  - intros i s1 W. eapply meets_mono; [|by apply pipewrite_round]. by intros [i'|[[] r]] s2.
  - constructor; simpl; [by apply (pipe_inv_ext s)|done|lia|]. exists []. split; [done|]. by rewrite app_nil_r.
Qed.

Section reader.
Context (s0 : pipe) (addr n : Z).
Hypothesis Haddr : 0 ≤ addr ∧ addr + n ≤ 2 ^ 64.

(** The user's buffer holds [bs]. *)
Definition delivered (bs : list Z) (s : pipe) : Prop :=
  ∀ k b, bs !! k = Some b → umem s !! (addr + Z.of_nat k) = Some b.

(** Under the lock, [i] bytes read. *)
Record reading (i : Z) (s : pipe) : Prop := {
  r_inv : pipe_inv s;
  r_lock : plocked s = true;
  r_i : 0 ≤ i ≤ Z.max 0 n;
  r_own : ∃ bs, Z.of_nat (length bs) = i ∧ gots_by who (hist s) = gots_by who (hist s0) ++ bs ∧ delivered bs s;
}.

(** The outcome of the copying loop: [r] bytes delivered, and at most one more taken from
    the pipe, if its destination was not writable. *)
Record read_done (r : Z) (s : pipe) : Prop := {
  rd_inv : pipe_inv s;
  rd_lock : plocked s = true;
  rd_r : 0 ≤ r ≤ Z.max 0 n;
  rd_own : ∃ bs lost, Z.of_nat (length bs) = r ∧ delivered bs s ∧
    gots_by who (hist s) = gots_by who (hist s0) ++ bs ++ lost ∧
    (lost = [] ∨ length lost = 1%nat ∧ r < n ∧ copyout1 (addr + r) = false);
}.

Lemma reading_done i s : reading i s → read_done i s.
Proof.
  intros [? ? ? (bs & ? & ? & ?)]. constructor; try done. exists bs, []. rewrite app_nil_r.
  split_and!; try done. by left.
Qed.

Lemma piperead_round i s :
  reading i s →
  ∃ x s', piperead_copy addr n i s = Ret x s' ∧
    match x with inl i' => i' = i + 1 ∧ reading i' s' ∧ i < n | inr r => read_done r s' end.
Proof.
  intros Rd. pose proof (r_inv _ _ Rd) as I. pose proof (r_i _ _ Rd) as Hi. unfold piperead_copy.
  destruct (Z.ltb_spec i n) as [Hlt|Hge].
  2:{ exists (inr i), s. split; [done|]. by apply reading_done. }
  msimpl. destruct (nread s =? nwrite s) eqn:Ee.
  { exists (inr i), s. split; [done|]. by apply reading_done. }
  assert (0 < count s) as Hc.
  { pose proof (count_range s). destruct (decide (count s = 0)) as [E|]; [|lia].
    apply (empty_iff s I) in E. congruence. }
  rewrite u64_id by lia. pose proof (pipe_inv_get s I Hc) as I'.
  destruct (r_own _ _ Rd) as (bs & Hl & Ho & Hd).
  assert (gots_by who (hist (get_byte who s)) = gots_by who (hist s0) ++ bs ++ [peek s]) as Ho'.
  { cbn [hist get_byte]. rewrite gots_by_snoc, Ho. by rewrite app_assoc. }
  destruct (copyout1 (addr + i)) eqn:Ec.
  - eexists (inl (i + 1)), _. split; [done|]. split; [done|]. split; [|done]. constructor; simpl.
    + by apply (pipe_inv_ext (get_byte who s)).
    + apply Rd.
    + lia.
    + exists (bs ++ [peek s]). rewrite length_app. simpl. split; [lia|]. split; [done|].
      intros k b Hk. cbn [umem set_umem]. apply lookup_app_Some in Hk as [Hk|[Hge Hk]].
      * pose proof (lookup_lt_Some _ _ _ Hk). rewrite lookup_insert_ne by lia. by apply Hd.
      * apply list_lookup_singleton_Some in Hk as [Hk0 <-].
        replace (addr + Z.of_nat k) with (addr + i) by lia. by rewrite lookup_insert_eq.
  - eexists (inr i), _. split; [done|]. constructor; [done|apply Rd|lia|].
    exists bs, [peek s]. split; [done|]. split; [done|]. split; [done|]. right. done.
Qed.

Lemma piperead_copy_loop m : ∀ i s fuel,
  (Z.to_nat n - Z.to_nat i ≤ m)%nat → (m < fuel)%nat → reading i s →
  ∃ r s', loop fuel (piperead_copy addr n) i s = Ret r s' ∧ read_done r s'.
Proof.
  induction m as [|m IH]; intros i s fuel Hm Hf Rd; (destruct fuel as [|fuel]; [lia|]);
    pose proof (r_i _ _ Rd); destruct (piperead_round i s Rd) as ([i'|r] & s' & E & Hx).
  - lia.
  - exists r, s'. by rewrite (loop_done _ _ _ _ _ _ E).
  - destruct Hx as (-> & Rd' & Hlt). rewrite (loop_next _ _ _ _ _ _ E). apply IH; [lia|lia|done].
  - exists r, s'. by rewrite (loop_done _ _ _ _ _ _ E).
Qed.

End reader.

Lemma piperead_meets fuel addr n s :
  0 ≤ addr → addr + n ≤ 2 ^ 64 → pipe_inv s → plocked s = false →
  meets asleep others
    (λ r s', pipe_inv s' ∧ plocked s' = false ∧
       (r = -1 ∨ 0 ≤ r ≤ Z.max 0 n ∧ hd_error (woken s') = Some (ChPipeWrite pi) ∧
          ∃ bs lost, Z.of_nat (length bs) = r ∧ delivered addr bs s' ∧
            gots_by who (hist s') = gots_by who (hist s) ++ bs ++ lost ∧
            (lost = [] ∨ length lost = 1%nat ∧ r < n ∧ copyout1 (addr + r) = false)))
    (piperead fuel addr n s).
Proof.
  intros Ha Hn I Hl. unfold piperead, acquire_p. msimpl. rewrite Hl. msimpl. apply meets_bind.
  eapply meets_mono; [|apply (meets_loop _ _ (λ _, reading s addr n 0) (λ (k : bool) s', if k
     then pipe_inv s' ∧ plocked s' = false else reading s addr n 0 s'))].
  - intros [] s' Hx; simpl; [split_and!; try apply Hx; by left|].
    destruct (piperead_copy_loop s addr n (conj Ha Hn) (Z.to_nat n) 0 s' (S (Z.to_nat n))) as (r & s2 & E & Hd);
      [lia|lia|done|]. rewrite E. unfold wakeup_p, release_p, modify. msimpl. cbn [plocked set_woken].
    rewrite (rd_lock _ _ _ _ _ Hd). simpl. split; [by apply (pipe_inv_ext s2), Hd|]. split; [done|]. right.
    split; [apply Hd|]. split; [done|]. destruct (rd_own _ _ _ _ _ Hd) as (bs & lost & ? & ? & ? & ?).
    exists bs, lost. done.
  - intros [] s1 Rd. unfold piperead_wait. msimpl. pose proof (r_inv _ _ _ _ _ Rd) as I1.
    destruct ((nread s1 =? nwrite s1) && writeopen s1) eqn:Ee; [|done].
    apply andb_prop in Ee as [Ee Ew]. apply (empty_iff s1 I1) in Ee.
    destruct (pr_killed s1); unfold sleep_p, release_p; msimpl; rewrite (r_lock _ _ _ _ _ Rd); simpl.
    + split; [by apply (pipe_inv_ext s1)|done].
    + split; [split; [by apply (pipe_inv_ext s1)|split; [done|by right]]|].
      intros s' (I' & Hl' & Hu & _ & Hg & _). unfold acquire_p. rewrite Hl'. simpl.
      constructor; simpl; [by apply (pipe_inv_ext s')|done|lia|].
      destruct (r_own _ _ _ _ _ Rd) as (bs & Hb & Ho & _). destruct bs; [|done]. exists []. split; [done|].
      split; [by rewrite Hg|]. by intros k b Hk.
  - constructor; simpl; [by apply (pipe_inv_ext s)|done|lia|]. exists []. rewrite app_nil_r.
    split; [done|]. split; [done|]. by intros k b Hk.
Qed.

(** * Transfers that do not have to wait *)

Lemma queue_ext p q : data q = data p → nread q = nread p → nwrite q = nwrite p → queue q = queue p.
Proof. intros E1 E2 E3. unfold queue, count. by rewrite E1, E2, E3. Qed.

Lemma copy_loop_ready addr n : 0 ≤ addr → addr + n ≤ 2 ^ 64 →
  (∀ k, 0 ≤ k < n → copyout1 (addr + k) = true) →
  ∀ q i s fuel, pipe_inv s → queue s = q → 0 ≤ i ≤ n → (Z.to_nat (n - i) < fuel)%nat →
  ∃ s', let k := Nat.min (Z.to_nat (n - i)) (length q) in
    loop fuel (piperead_copy addr n) i s = Ret (i + Z.of_nat k) s' ∧
    pipe_inv s' ∧ queue s' = drop k q ∧ plocked s' = plocked s ∧
    (∀ a, umem s' !! a = match (if decide (addr + i ≤ a) then take k q !! Z.to_nat (a - (addr + i)) else None) with
                         | Some b => Some b | None => umem s !! a end).
Proof.
  intros Ha Hn Hout q. induction q as [|b q IH]; intros i s fuel I Hq Hi Hf; cbv zeta;
    (destruct fuel as [|fuel]; [lia|]).
  - exists s. simpl. rewrite Nat.min_0_r. split.
    + apply loop_done. unfold piperead_copy. rewrite Z.add_0_r. destruct (i <? n); [|done]. msimpl.
      assert (count s = 0) as Hc by (pose proof (length_queue s) as Hl; rewrite Hq in Hl; simpl in Hl;
        pose proof (count_range s); lia). apply (empty_iff s I) in Hc. by rewrite Hc.
    + split_and!; try done. intros a. by destruct (decide _).
  - assert (count s = 1 + Z.of_nat (length q)) as Hc.
    { pose proof (length_queue s) as Hl. rewrite Hq in Hl. simpl in Hl. pose proof (count_range s). lia. }
    destruct (decide (i = n)) as [->|Hne].
    { exists s. rewrite Z.sub_diag. simpl. split.
      - apply loop_done. unfold piperead_copy. by rewrite Z.ltb_irrefl, Z.add_0_r.
      - split_and!; try done. intros a. by destruct (decide _). }
    assert ((nread s =? nwrite s) = false) as Ee.
    { destruct (nread s =? nwrite s) eqn:E; [|done]. apply (empty_iff s I) in E. lia. }
    pose proof (queue_get s I ltac:(lia)) as Eq. rewrite Hq in Eq. injection Eq as Eb Eq.
    set (s1 := set_umem (<[addr + i := b]> (umem s)) (get_byte who s)).
    assert (piperead_copy addr n i s = Ret (inl (i + 1)) s1) as E.
    { unfold piperead_copy. rewrite (proj2 (Z.ltb_lt _ _)) by lia. msimpl. rewrite Ee. msimpl.
      rewrite u64_id by lia. rewrite Hout by lia. by rewrite <- Eb. }
    rewrite (loop_next _ _ _ _ _ _ E).
    destruct (IH (i + 1) s1 fuel) as (s' & E' & I' & Hq' & Hl' & Hu'); try lia.
    { apply (pipe_inv_ext (get_byte who s)); try done. apply pipe_inv_get; [done|lia]. }
    { by rewrite (queue_ext (get_byte who s)). }
    exists s'. replace (Z.to_nat (n - i)) with (S (Z.to_nat (n - (i + 1)))) by lia. simpl.
    rewrite E'. split; [f_equal; lia|]. split_and!; try done.
    intros a. rewrite Hu'. cbn [umem set_umem s1].
    destruct (decide (addr + (i + 1) ≤ a)) as [Hle|Hgt].
    + rewrite decide_True by lia. replace (Z.to_nat (a - (addr + i))) with (S (Z.to_nat (a - (addr + (i + 1))))) by lia.
      simpl. destruct (take _ q !! _); [done|]. by rewrite lookup_insert_ne by lia.
    + destruct (decide (a = addr + i)) as [->|Hna].
      * rewrite decide_True by lia. rewrite Z.sub_diag. simpl. by rewrite lookup_insert_eq.
      * rewrite decide_False by lia. by rewrite lookup_insert_ne by lia.
Qed.

Lemma write_loop_room addr n : 0 ≤ n →
  ∀ bs i s fuel, pipe_inv s → readopen s = true → pr_killed s = false → 0 ≤ i →
  i + Z.of_nat (length bs) = n → count s + Z.of_nat (length bs) ≤ PIPESIZE →
  (∀ k b, bs !! k = Some b → copyin1 (u64 (addr + i + Z.of_nat k)) = Some b) → (length bs < fuel)%nat →
  ∃ s', loop fuel (pipewrite_body addr n) i s = Ret (false, n) s' ∧ pipe_inv s' ∧
    queue s' = queue s ++ bs ∧ plocked s' = plocked s ∧ umem s' = umem s.
Proof.
  intros Hn0 bs. induction bs as [|b bs IH]; intros i s fuel I Hro Hk Hi Hn Hc Hb Hf; (destruct fuel as [|fuel]; [simpl in Hf; lia|]).
  - exists s. simpl in Hn. rewrite app_nil_r. split_and!; try done. apply loop_done. unfold pipewrite_body.
    rewrite (proj2 (Z.ltb_ge _ _)) by lia. by replace i with n by lia.
  - simpl in Hn, Hc, Hf. assert (count s < PIPESIZE) as Hlt by lia.
    assert ((nwrite s =? u32 (nread s + PIPESIZE)) = false) as Ef.
    { destruct (nwrite s =? _) eqn:E; [|done]. apply (full_iff s I) in E. lia. }
    pose proof (Hb 0%nat b eq_refl) as Hb0. rewrite Z.add_0_r in Hb0.
    assert (pipewrite_body addr n i s = Ret (inl (i + 1)) (put_byte who b s)) as E.
    { unfold pipewrite_body. rewrite (proj2 (Z.ltb_lt _ _)) by lia. msimpl. rewrite Hro, Hk. simpl. by rewrite Ef, Hb0. }
    rewrite (loop_next _ _ _ _ _ _ E). pose proof (count_put b s I Hlt) as Ec.
    destruct (IH (i + 1) (put_byte who b s) fuel) as (s' & E' & I' & Hq' & Hl' & Hu'); try done; try lia.
    { by apply pipe_inv_put. }
    { intros k c Hkc. replace (addr + (i + 1) + Z.of_nat k) with (addr + i + Z.of_nat (S k)) by lia. by apply Hb. }
    exists s'. rewrite E'. split_and!; try done. rewrite Hq', queue_put by done. by rewrite <- app_assoc.
Qed.

(** Writing without waiting. *)
Lemma pipewrite_room addr bs s fuel :
  pipe_inv s → plocked s = false → readopen s = true → pr_killed s = false →
  count s + Z.of_nat (length bs) ≤ PIPESIZE →
  (∀ k b, bs !! k = Some b → copyin1 (u64 (addr + Z.of_nat k)) = Some b) → (length bs < fuel)%nat →
  ∃ s', pipewrite fuel addr (Z.of_nat (length bs)) s = Ret (Z.of_nat (length bs)) s' ∧ pipe_inv s' ∧
    queue s' = queue s ++ bs ∧ plocked s' = false ∧ umem s' = umem s.
Proof.
  intros I Hl Hro Hk Hc Hb Hf. unfold pipewrite, acquire_p. msimpl. rewrite Hl. msimpl.
  destruct (write_loop_room addr (Z.of_nat (length bs)) ltac:(lia) bs 0 (set_plocked true s) fuel)
    as (s' & E & I' & Hq & Hl' & Hu); try done; try lia.
  { by apply (pipe_inv_ext s). }
  { intros k b Hkb. rewrite Z.add_0_r. by apply Hb. }
  rewrite E. unfold wakeup_p, release_p, modify. msimpl. simpl. rewrite Hl'. simpl.
  eexists. split; [done|]. split; [by apply (pipe_inv_ext s')|].
  split; [by rewrite (queue_ext s'), Hq|]. split; [done|]. done.
Qed.

(** Reading without waiting. *)
Lemma piperead_ready addr n s fuel :
  0 ≤ addr → addr + n ≤ 2 ^ 64 → 0 ≤ n → pipe_inv s → plocked s = false →
  (queue s ≠ [] ∨ writeopen s = false) → (∀ k, 0 ≤ k < n → copyout1 (addr + k) = true) → (0 < fuel)%nat →
  ∃ s', let k := Nat.min (Z.to_nat n) (length (queue s)) in
    piperead fuel addr n s = Ret (Z.of_nat k) s' ∧ pipe_inv s' ∧ plocked s' = false ∧
    queue s' = drop k (queue s) ∧
    (∀ a, umem s' !! a = match (if decide (addr ≤ a) then take k (queue s) !! Z.to_nat (a - addr) else None) with
                         | Some b => Some b | None => umem s !! a end).
Proof.
  intros Ha Hn Hn0 I Hl Hrdy Hout Hf. cbv zeta. unfold piperead, acquire_p. msimpl. rewrite Hl. msimpl.
  destruct fuel as [|fuel]; [lia|]. rewrite (loop_done fuel piperead_wait tt false _ (set_plocked true s)).
  2:{ unfold piperead_wait. msimpl. cbn [nread nwrite writeopen set_plocked].
      destruct (nread s =? nwrite s) eqn:Ee; [|done]. apply (empty_iff s I) in Ee.
      destruct Hrdy as [Hq|Hw]; [|by rewrite Hw]. destruct Hq. apply length_zero_iff_nil. rewrite length_queue, Ee. done. }
  msimpl. destruct (copy_loop_ready addr n Ha Hn Hout (queue s) 0 (set_plocked true s) (S (Z.to_nat n)))
    as (s' & E & I' & Hq & Hl' & Hu); try done; try lia.
  { by apply (pipe_inv_ext s). }
  rewrite Z.sub_0_r in *. rewrite E. unfold wakeup_p, release_p, modify. msimpl. simpl.
  rewrite Hl'. simpl. eexists. split; [done|]. split; [by apply (pipe_inv_ext s')|]. split; [done|].
  split; [by rewrite (queue_ext s')|]. intros a. cbn [umem set_plocked set_woken]. rewrite Hu. by rewrite Z.add_0_r.
Qed.

End pipe.

(** C28. Writing to a pipe is safe and ordered whatever other threads do.  [pipewrite] never
    panics; it sleeps only without the lock, on a full buffer whose reader is open, just
    after waking the readers; and if the others keep the pipe's invariant while it sleeps, it
    returns with the invariant (what was put in is what was taken out followed by the
    buffer) and either -1 or a count [r] such that exactly the first [r] bytes of the
    user's buffer are its contribution to the stream, in order. *)
Theorem pipewrite_ordered pi who copyin1 fuel addr n s :
  pipe_inv s → plocked s = false →
  meets (asleep pi) (others who)
    (λ r s', pipe_inv s' ∧ plocked s' = false ∧
       (r = -1 ∨ 0 ≤ r ≤ Z.max 0 n ∧ hd_error (woken s') = Some (ChPipeRead pi) ∧
          ∃ bs, ubuf copyin1 addr (Z.to_nat r) = Some bs ∧
            puts_by who (hist s') = puts_by who (hist s) ++ bs))
    (pipewrite pi who copyin1 fuel addr n s).
Proof. apply (pipewrite_meets pi who copyin1 (λ _, true)). Qed.

(** C29. Reading from a pipe.  [piperead] never panics; it sleeps only without the lock, on
    an empty buffer that can still be written; it returns -1 or the number [r] of bytes it
    has delivered to the user's buffer, which are the next bytes of the stream in order.
    If the copy to the user fails after the byte was removed from the buffer, that one byte
    is lost. *)
Theorem piperead_ordered pi who copyout1 fuel addr n s :
  0 ≤ addr → addr + n ≤ 2 ^ 64 → pipe_inv s → plocked s = false →
  meets (asleep pi) (others who)
    (λ r s', pipe_inv s' ∧ plocked s' = false ∧
       (r = -1 ∨ 0 ≤ r ≤ Z.max 0 n ∧ hd_error (woken s') = Some (ChPipeWrite pi) ∧
          ∃ bs lost, Z.of_nat (length bs) = r ∧ delivered addr bs s' ∧
            gots_by who (hist s') = gots_by who (hist s) ++ bs ++ lost ∧
            (lost = [] ∨ length lost = 1%nat ∧ r < n ∧ copyout1 (addr + r) = false)))
    (piperead pi who copyout1 fuel addr n s).
Proof. apply (piperead_meets pi who (λ _, None) copyout1). Qed.

(** What is written is read.  On an empty pipe with room, writing [bs] returns at once
    with its length, and a read of at least that many bytes then returns exactly [bs] in the
    reader's buffer, changes nothing else there, and leaves the pipe empty. *)
Lemma pipe_round_trip pi w r copyin1 copyout1 src dst bs n s fuel :
  pipe_inv s → plocked s = false → readopen s = true → pr_killed s = false → queue s = [] →
  Z.of_nat (length bs) ≤ PIPESIZE → bs ≠ [] → Z.of_nat (length bs) ≤ n → 0 ≤ dst → dst + n ≤ 2 ^ 64 →
  (∀ k b, bs !! k = Some b → copyin1 (u64 (src + Z.of_nat k)) = Some b) →
  (∀ k, 0 ≤ k < n → copyout1 (dst + k) = true) → (length bs < fuel)%nat →
  ∃ s1 s2,
    pipewrite pi w copyin1 fuel src (Z.of_nat (length bs)) s = Ret (Z.of_nat (length bs)) s1 ∧
    piperead pi r copyout1 fuel dst n s1 = Ret (Z.of_nat (length bs)) s2 ∧
    queue s2 = [] ∧
    (∀ a, umem s2 !! a = match (if decide (dst ≤ a) then bs !! Z.to_nat (a - dst) else None) with
                         | Some b => Some b | None => umem s !! a end).
Proof.
  intros I Hl Hro Hk Hq Hlen Hne Hn Hd0 Hd Hin Hout Hf.
  assert (count s = 0) as Hc by (pose proof (length_queue s) as E; rewrite Hq in E; simpl in E; pose proof (count_range s); lia).
  destruct (pipewrite_room pi w copyin1 copyout1 src bs s fuel) as (s1 & E1 & I1 & Q1 & L1 & U1); try done; [lia|].
  rewrite Hq in Q1. simpl in Q1.
  destruct (piperead_ready pi r copyin1 copyout1 dst n s1 fuel) as (s2 & E2 & I2 & L2 & Q2 & U2); try done; try lia.
  { left. by rewrite Q1. }
  rewrite Q1, Nat.min_r in E2, Q2, U2 by lia. exists s1, s2. split; [done|]. split; [done|].
  rewrite drop_all in Q2. split; [done|]. intros a. rewrite U2, U1, firstn_all. done.
Qed.

Definition empty_pipe (c : Z) : pipe :=
  Pipe (repeat 0 (Z.to_nat PIPESIZE)) c c true true false false [] ∅ false [].

Lemma empty_pipe_ok c : 0 ≤ c < 2 ^ 32 → pipe_inv (empty_pipe c).
Proof.
  intros Hc. assert (count (empty_pipe c) = 0) as E by (unfold count; simpl; by rewrite Z.sub_diag).
  constructor; try done.
  - by rewrite E.
  - unfold queue. by rewrite E.
Qed.

Lemma pipewrite_ordered_witness :
  meets (asleep 7) (others 1)
    (λ r s', pipe_inv s' ∧ plocked s' = false ∧
       (r = -1 ∨ 0 ≤ r ≤ 3 ∧ hd_error (woken s') = Some (ChPipeRead 7) ∧
          ∃ bs, ubuf (λ a, Some (a mod 256)) 64 (Z.to_nat r) = Some bs ∧ puts_by 1 (hist s') = bs))
    (pipewrite 7 1 (λ a, Some (a mod 256)) 5 64 3 (empty_pipe (2 ^ 32 - 2))).
Proof. apply (pipewrite_ordered 7 1 (λ a, Some (a mod 256)) 5 64 3 (empty_pipe (2 ^ 32 - 2))); [by apply empty_pipe_ok|done]. Defined.

Lemma piperead_ordered_witness :
  meets (asleep 7) (others 1)
    (λ r s', pipe_inv s' ∧ plocked s' = false ∧
       (r = -1 ∨ 0 ≤ r ≤ 3 ∧ hd_error (woken s') = Some (ChPipeWrite 7) ∧
          ∃ bs lost, Z.of_nat (length bs) = r ∧ delivered 64 bs s' ∧ gots_by 1 (hist s') = bs ++ lost ∧
            (lost = [] ∨ length lost = 1%nat ∧ r < 3 ∧ (64 + r <? 66) = false)))
    (piperead 7 1 (λ a, a <? 66) 5 64 3 (empty_pipe (2 ^ 32 - 2))).
Proof. apply (piperead_ordered 7 1 (λ a, a <? 66) 5 64 3 (empty_pipe (2 ^ 32 - 2))); [done|done|by apply empty_pipe_ok|done]. Defined.

(** Three bytes across the wrap-around of the counters. *)
Lemma pipe_round_trip_witness :
  ∃ s1 s2,
    pipewrite 7 1 (λ a, Some (a mod 256)) 5 64 3 (empty_pipe (2 ^ 32 - 2)) = Ret 3 s1 ∧
    piperead 7 2 (λ _, true) 5 100 10 s1 = Ret 3 s2 ∧ queue s2 = [] ∧
    (∀ a, umem s2 !! a = match (if decide (100 ≤ a) then [64; 65; 66] !! Z.to_nat (a - 100) else None) with
                         | Some b => Some b | None => None end).
Proof.
  apply (pipe_round_trip 7 1 2 (λ a, Some (a mod 256)) (λ _, true) 64 100 [64; 65; 66] 10 (empty_pipe (2 ^ 32 - 2)) 5);
    try done; try (simpl; lia).
  - intros [|[|[|k]]] b Hb; [| | |done]; injection Hb as <-; reflexivity.
Defined.
