(* ===== verification/Spinlock.v ===== *)
(** Spin locks, kernel/spinlock.c, on several harts.

    The machine is a set of harts interleaved at the accesses to the lock words: reading
    [locked], reading [cpu], the atomic swap, writing [cpu] and the atomic release.
    [push_off] and [pop_off] only touch the hart's own struct cpu and are one step.  The
    kernel code that uses the locks is arbitrary: between calls a hart may call [acquire] or
    [release] on any lock, held or not, and may turn interrupts on and off while [noff] is
    zero.  [held] is a history variable: the locks whose [acquire] has returned and whose
    [release] has not got past its check. *)

From S2P Require Import Prelude.

(** struct spinlock, without its name.  A struct cpu is identified by its hart. *)
Record spinlock := Spinlock { locked : bool; lcpu : option nat }.

(** The fields of struct cpu the locks use, and the hart's interrupt enable bit. *)
Record cpu := Cpu { noff : Z; intena : bool; sie : bool }.

(** Where a hart is in [acquire] or [release]. *)
Inductive pc :=
| Running
| AcqPush (l : Z) | AcqTestLocked (l : Z) | AcqTestCpu (l : Z) | AcqSwap (l : Z) | AcqSetCpu (l : Z)
| RelTestLocked (l : Z) | RelTestCpu (l : Z) | RelClearCpu (l : Z) | RelUnlock (l : Z) | RelPop
| Panicked (msg : string).

Record hart := Hart { hcpu : cpu; hpc : pc; held : list Z }.

Record machine := Machine { locks : Z → spinlock; harts : nat → hart }.

Definition set_lock (l : Z) (x : spinlock) (m : machine) : machine :=
  Machine (λ l', if decide (l' = l) then x else locks m l') (harts m).
Definition set_hart (h : nat) (x : hart) (m : machine) : machine :=
  Machine (locks m) (λ h', if decide (h' = h) then x else harts m h').

Definition goto (p : pc) (x : hart) : hart := Hart (hcpu x) p (held x).

Definition initlock : spinlock := Spinlock false None.

Definition push_off (c : cpu) : cpu :=
  let old := sie c in
  Cpu (noff c + 1) (if noff c =? 0 then old else intena c) false.

Definition pop_off (c : cpu) : cpu + string :=
  if sie c then inr "pop_off - interruptible"%string
  else if noff c <? 1 then inr "pop_off"%string
  else
    let n := noff c - 1 in
    inl (Cpu n (intena c) (if (n =? 0) && intena c then true else sie c)).

(** [holding] reads [locked] first and [cpu] only if it is set. *)
Definition holding (me : nat) (x : spinlock) : bool :=
  locked x && bool_decide (lcpu x = Some me).

(** One step of hart [h] inside [acquire]. *)
Definition acquire_step (h : nat) (m : machine) : option machine :=
  let x := harts m h in
  match hpc x with
  | AcqPush l => Some (set_hart h (Hart (push_off (hcpu x)) (AcqTestLocked l) (held x)) m)
  | AcqTestLocked l =>
      Some (set_hart h (goto (if locked (locks m l) then AcqTestCpu l else AcqSwap l) x) m)
  | AcqTestCpu l =>
      Some (set_hart h (goto (if decide (lcpu (locks m l) = Some h) then Panicked "acquire" else AcqSwap l) x) m)
  | AcqSwap l =>
      let old := locked (locks m l) in
      let m' := set_lock l (Spinlock true (lcpu (locks m l))) m in
      Some (set_hart h (goto (if old then AcqSwap l else AcqSetCpu l) x) m')
  | AcqSetCpu l =>
      Some (set_hart h (Hart (hcpu x) Running (l :: held x))
              (set_lock l (Spinlock (locked (locks m l)) (Some h)) m))
  | _ => None
  end.

Definition release_step (h : nat) (m : machine) : option machine :=
  let x := harts m h in
  match hpc x with
  | RelTestLocked l =>
      Some (set_hart h (goto (if locked (locks m l) then RelTestCpu l else Panicked "release") x) m)
  | RelTestCpu l =>
      Some (set_hart h (goto (if decide (lcpu (locks m l) = Some h) then RelClearCpu l else Panicked "release") x) m)
  | RelClearCpu l =>
      Some (set_hart h (Hart (hcpu x) (RelUnlock l) (remove Z.eq_dec l (held x)))
              (set_lock l (Spinlock (locked (locks m l)) None) m))
  | RelUnlock l =>
      Some (set_hart h (goto RelPop x) (set_lock l (Spinlock false (lcpu (locks m l))) m))
  | RelPop =>
      Some (set_hart h (match pop_off (hcpu x) with
                        | inl c => Hart c Running (held x)
                        | inr msg => goto (Panicked msg) x
                        end) m)
  | _ => None
  end.

(** What the code between the calls may do. *)
Inductive client_step (h : nat) (m : machine) : machine → Prop :=
| call_acquire l : hpc (harts m h) = Running →
    client_step h m (set_hart h (goto (AcqPush l) (harts m h)) m)
| call_release l : hpc (harts m h) = Running →
    client_step h m (set_hart h (goto (RelTestLocked l) (harts m h)) m)
| call_intr b : hpc (harts m h) = Running → noff (hcpu (harts m h)) = 0 →
    client_step h m (set_hart h (Hart (Cpu 0 (intena (hcpu (harts m h))) b) Running (held (harts m h))) m).

Inductive step (m m' : machine) : Prop :=
| step_client h : client_step h m m' → step m m'
| step_acquire h : acquire_step h m = Some m' → step m m'
| step_release h : release_step h m = Some m' → step m m'.

Definition initial (m : machine) : Prop :=
  (∀ l, locks m l = initlock) ∧
  (∀ h, hpc (harts m h) = Running ∧ held (harts m h) = [] ∧ noff (hcpu (harts m h)) = 0).

Inductive reachable : machine → Prop :=
| reach_init m : initial m → reachable m
| reach_step m m' : reachable m → step m m' → reachable m'.

(** * The invariant *)

(** Hart [x] has won the swap on [l] and not yet undone it. *)
Definition owns (x : hart) (l : Z) : Prop := l ∈ held x ∨ hpc x = AcqSetCpu l ∨ hpc x = RelUnlock l.

(** The [push_off]s of calls in progress. *)
Definition pending (p : pc) : Z :=
  match p with
  | AcqTestLocked _ | AcqTestCpu _ | AcqSwap _ | AcqSetCpu _ | RelUnlock _ | RelPop => 1
  | _ => 0
  end.

Record hart_ok (x : hart) : Prop := {
  h_nodup : NoDup (held x);
  h_fresh : ∀ l, hpc x = AcqSwap l ∨ hpc x = AcqSetCpu l ∨ hpc x = RelUnlock l → l ∉ held x;
  h_rel : ∀ l, hpc x = RelClearCpu l → l ∈ held x;
  h_noff : (∀ msg, hpc x ≠ Panicked msg) → noff (hcpu x) = Z.of_nat (length (held x)) + pending (hpc x);
  h_sie : 0 < noff (hcpu x) → sie (hcpu x) = false;
  h_le : Z.of_nat (length (held x)) ≤ noff (hcpu x);
}.

Record inv (m : machine) : Prop := {
  i_hart : ∀ h, hart_ok (harts m h);
  i_locked : ∀ l, locked (locks m l) = true ↔ ∃ h, owns (harts m h) l;
  i_one : ∀ l h h', owns (harts m h) l → owns (harts m h') l → h = h';
  i_cpu : ∀ l h, lcpu (locks m l) = Some h ↔ l ∈ held (harts m h);
}.

Lemma harts_set h x m h' : harts (set_hart h x m) h' = if decide (h' = h) then x else harts m h'.
Proof. done. Qed.
Lemma locks_set l k m l' : locks (set_lock l k m) l' = if decide (l' = l) then k else locks m l'.
Proof. done. Qed.

(** A step changes one hart and at most one lock. *)
Lemma inv_update m h x l k :
  inv m → hart_ok x →
  (∀ l', l' ≠ l → (owns x l' ↔ owns (harts m h) l') ∧ (l' ∈ held x ↔ l' ∈ held (harts m h))) →
  (locked k = true ↔ owns x l ∨ ∃ h', h' ≠ h ∧ owns (harts m h') l) →
  (owns x l → ∀ h', h' ≠ h → ¬ owns (harts m h') l) →
  (lcpu k = Some h ↔ l ∈ held x) →
  (∀ h', h' ≠ h → lcpu k = Some h' ↔ l ∈ held (harts m h')) →
  inv (set_hart h x (set_lock l k m)).
Proof.
  intros I Hx Hother Hlocked Hone Hcpu Hcpu'. constructor.
  - intros h'. rewrite harts_set. destruct (decide (h' = h)); [done|apply I].
  - intros l'. change (locks (set_hart h x (set_lock l k m)) l') with (locks (set_lock l k m) l'). rewrite locks_set.
    setoid_rewrite harts_set. destruct (decide (l' = l)) as [->|Hl].
    + rewrite Hlocked. split.
      * intros [Ho|(h' & Hne & Ho)]; [exists h; by rewrite decide_True|exists h'; by rewrite decide_False].
      * intros [h' Ho]. destruct (decide (h' = h)); [by left|right; eauto].
    + rewrite (i_locked _ I). destruct (Hother l' Hl) as [Ho _]. split; intros [h' Hh]; exists h'; cbn [harts set_lock] in *.
      * destruct (decide (h' = h)) as [->|]; [by apply Ho|done].
      * destruct (decide (h' = h)) as [->|]; [by apply Ho|done].
  - intros l' h1 h2. rewrite !harts_set. cbn [harts set_lock]. destruct (decide (l' = l)) as [->|Hl].
    + destruct (decide (h1 = h)) as [->|N1], (decide (h2 = h)) as [->|N2]; intros O1 O2; try done.
      * by destruct (Hone O1 h2 N2).
      * by destruct (Hone O2 h1 N1).
      * by apply (i_one _ I l).
    + destruct (Hother l' Hl) as [Ho _]. intros O1 O2.
      apply (i_one _ I l'); [destruct (decide (h1 = h)) as [->|]|destruct (decide (h2 = h)) as [->|]]; try done; by apply Ho.
  - intros l' h'. change (locks (set_hart h x (set_lock l k m)) l') with (locks (set_lock l k m) l').
    rewrite locks_set, harts_set. cbn [harts set_lock]. destruct (decide (l' = l)) as [->|Hl].
    + destruct (decide (h' = h)) as [->|]; [done|by apply Hcpu'].
    + rewrite (i_cpu _ I). destruct (decide (h' = h)) as [->|]; [|done]. symmetry. by apply Hother.
Qed.

(** A step that does not touch a lock. *)
Lemma inv_local m h x :
  inv m → hart_ok x → held x = held (harts m h) → (∀ l, owns x l ↔ owns (harts m h) l) → inv (set_hart h x m).
Proof.
  intros I Hx Hh Ho. constructor; try done.
  - intros h'. rewrite harts_set. destruct (decide (h' = h)); [done|apply I].
  - intros l. rewrite (i_locked m I l). setoid_rewrite harts_set.
    split; intros [h' Hh']; exists h'; destruct (decide (h' = h)) as [->|]; try done; by apply Ho.
  - intros l h1 h2. rewrite !harts_set. intros O1 O2.
    apply (i_one _ I l); [destruct (decide (h1 = h)) as [->|]|destruct (decide (h2 = h)) as [->|]]; try done; by apply Ho.
  - intros l h'. rewrite harts_set. cbn [locks set_hart]. rewrite (i_cpu _ I).
    destruct (decide (h' = h)) as [->|]; [by rewrite Hh|done].
Qed.

Lemma elem_of_remove l l' ls : l' ∈ remove Z.eq_dec l ls ↔ l' ∈ ls ∧ l' ≠ l.
Proof.
  rewrite !list_elem_of_In. split; [apply in_remove|intros [? ?]; by apply in_in_remove].
Qed.

Lemma length_remove_in l ls : NoDup ls → l ∈ ls → S (length (remove Z.eq_dec l ls)) = length ls.
Proof.
  induction ls as [|x ls IH]; intros Hnd Hin; [by apply elem_of_nil in Hin|]. apply NoDup_cons in Hnd as [Hx Hnd]. simpl.
  destruct (Z.eq_dec l x) as [->|Hne].
  - f_equal. rewrite notin_remove; [done|]. by rewrite <- list_elem_of_In.
  - simpl. f_equal. apply IH; [done|]. apply elem_of_cons in Hin as [?|?]; [by subst|done].
Qed.

Lemma NoDup_remove_val l ls : NoDup ls → NoDup (remove Z.eq_dec l ls).
Proof.
  induction ls as [|x ls IH]; intros Hnd; [done|]. apply NoDup_cons in Hnd as [Hx Hnd]. simpl.
  destruct (Z.eq_dec l x); [by apply IH|]. apply NoDup_cons. split; [|by apply IH].
  rewrite elem_of_remove. naive_solver.
Qed.

(** Moving on without touching a lock or the cpu. *)
Lemma hart_ok_goto p x :
  hart_ok x →
  (∀ l, p = AcqSwap l ∨ p = AcqSetCpu l ∨ p = RelUnlock l → l ∉ held x) →
  (∀ l, p = RelClearCpu l → l ∈ held x) →
  ((∀ msg, p ≠ Panicked msg) → (∀ msg, hpc x ≠ Panicked msg) ∧ pending p = pending (hpc x)) →
  hart_ok (goto p x).
Proof.
  intros X Hf Hr Hp. constructor; simpl; try apply X; try done.
  intros Hn. destruct (Hp Hn) as [Hn' ->]. by apply X.
Qed.

Definition quiet (p : pc) : Prop := ∀ l, p ≠ AcqSetCpu l ∧ p ≠ RelUnlock l.

Lemma owns_goto p x l : quiet p → quiet (hpc x) → owns (goto p x) l ↔ owns x l.
Proof. intros Hp Hx. destruct (Hp l), (Hx l). unfold owns. simpl. naive_solver. Qed.

(** Solve the side conditions on a hart whose program counter is known. *)
Ltac known := simpl in *; intros; unfold quiet; repeat split; intros; naive_solver.

Lemma goto_ok m h p :
  inv m → quiet p → quiet (hpc (harts m h)) → hart_ok (goto p (harts m h)) → inv (set_hart h (goto p (harts m h)) m).
Proof. intros I Hp Hq Hx. apply inv_local; [done|done|done|]. intros l. by apply owns_goto. Qed.

Lemma client_step_ok h m m' : inv m → client_step h m m' → inv m'.
Proof.
  intros I Hs. pose proof (i_hart _ I h) as X. destruct Hs as [l E|l E|b E En].
  - apply goto_ok; try done; [by rewrite E|]. apply hart_ok_goto; rewrite ?E; try done; naive_solver.
  - apply goto_ok; try done; [by rewrite E|]. apply hart_ok_goto; rewrite ?E; try done; naive_solver.
  - assert (held (harts m h) = []) as Hh.
    { pose proof (h_le _ X) as Hle. rewrite En in Hle. destruct (held (harts m h)); [done|simpl in Hle; lia]. }
    apply inv_local; [done| |done|].
    + constructor; simpl; rewrite ?Hh; try done; [constructor|naive_solver].
    + intros l. unfold owns. simpl. rewrite Hh, E. naive_solver.
Qed.

Lemma not_held m h l : inv m → locked (locks m l) = false ∨ lcpu (locks m l) ≠ Some h → l ∉ held (harts m h).
Proof.
  intros I [E|E] Hin.
  - assert (locked (locks m l) = true); [|congruence]. apply (i_locked _ I). exists h. by left.
  - by apply E, (i_cpu _ I).
Qed.

Lemma hart_ok_push m h l :
  inv m → hpc (harts m h) = AcqPush l →
  hart_ok (Hart (push_off (hcpu (harts m h))) (AcqTestLocked l) (held (harts m h))).
Proof.
  intros I E. pose proof (i_hart _ I h) as X. constructor; simpl; try apply X; try done; try naive_solver.
  - intros _. rewrite (h_noff _ X), E; [simpl; lia|by rewrite E].
  - pose proof (h_le _ X). lia.
Qed.

Lemma acquire_swap_ok m h l :
  inv m → hpc (harts m h) = AcqSwap l →
  inv (set_hart h (goto (if locked (locks m l) then AcqSwap l else AcqSetCpu l) (harts m h))
         (set_lock l (Spinlock true (lcpu (locks m l))) m)).
Proof.
  intros I E. pose proof (i_hart _ I h) as X. assert (l ∉ held (harts m h)) as Hn by (apply X; by left).
  assert (quiet (hpc (harts m h))) as Hq by (by rewrite E).
  destruct (locked (locks m l)) eqn:El.
  - apply inv_update; try done.
    + apply hart_ok_goto; rewrite ?E; try done; naive_solver.
    + intros l' _. split; [|done]. by apply owns_goto.
    + simpl. split; [|done]. intros _. apply (i_locked _ I) in El as [h' Ho]. right. exists h'. split; [|done].
      intros ->. destruct Ho as [?|[?|?]]; congruence.
    + intros [?|[?|?]]; done.
    + simpl. apply (i_cpu _ I).
    + intros h' _. simpl. apply (i_cpu _ I).
  - assert (∀ h', ¬ owns (harts m h') l) as Hno.
    { intros h' Ho. assert (locked (locks m l) = true); [|congruence]. apply (i_locked _ I). eauto. }
    apply inv_update; try done.
    + apply hart_ok_goto; rewrite ?E; try done. intros l' [?|[?|?]]; naive_solver.
    + intros l' Hne. split; [|done]. unfold owns. simpl. rewrite E. naive_solver.
    + simpl. split; [|done]. intros _. left. right. by left.
    + simpl. apply (i_cpu _ I).
    + intros h' _. simpl. apply (i_cpu _ I).
Qed.

Lemma acquire_set_cpu_ok m h l :
  inv m → hpc (harts m h) = AcqSetCpu l →
  inv (set_hart h (Hart (hcpu (harts m h)) Running (l :: held (harts m h)))
         (set_lock l (Spinlock (locked (locks m l)) (Some h)) m)).
Proof.
  intros I E. pose proof (i_hart _ I h) as X.
  assert (l ∉ held (harts m h)) as Hn by (apply X; right; by left).
  assert (owns (harts m h) l) as Ho by (right; by left).
  pose proof (h_noff _ X ltac:(rewrite E; done)) as Hnoff. rewrite E in Hnoff. simpl in Hnoff.
  apply inv_update; try done.
  - constructor; simpl; try done.
    + apply NoDup_cons. split; [done|apply X].
    + by intros ? [?|[?|?]].
    + intros _. lia.
    + apply X.
    + lia.
  - intros l' Hne. unfold owns. simpl. rewrite E, elem_of_cons. naive_solver.
  - simpl. split; [|intros _; apply (i_locked _ I); eauto]. intros _. left. left. by left.
  - intros _ h' Hne Ho'. by apply Hne, (i_one _ I l).
  - simpl. split; [intros _; by left|done].
  - intros h' Hne. simpl. split; [congruence|]. intros Hh. destruct Hne. apply (i_one _ I l); [by left|done].
Qed.

Lemma release_clear_cpu_ok m h l :
  inv m → hpc (harts m h) = RelClearCpu l →
  inv (set_hart h (Hart (hcpu (harts m h)) (RelUnlock l) (remove Z.eq_dec l (held (harts m h))))
         (set_lock l (Spinlock (locked (locks m l)) None) m)).
Proof.
  intros I E. pose proof (i_hart _ I h) as X.
  assert (l ∈ held (harts m h)) as Hn by by apply X.
  assert (owns (harts m h) l) as Ho by by left.
  pose proof (h_noff _ X ltac:(rewrite E; done)) as Hnoff. rewrite E in Hnoff. simpl in Hnoff.
  pose proof (length_remove_in l _ (h_nodup _ X) Hn) as Hlen.
  apply inv_update; try done.
  - constructor; simpl; try done.
    + apply NoDup_remove_val, X.
    + intros l' [?|[?|Hl]]; [done|done|]. injection Hl as <-. rewrite elem_of_remove. naive_solver.
    + intros _. lia.
    + apply X.
    + lia.
  - intros l' Hne. unfold owns. simpl. rewrite E, elem_of_remove. naive_solver.
  - simpl. split; [|intros _; apply (i_locked _ I); eauto]. intros _. left. right. by right.
  - intros _ h' Hne Ho'. by apply Hne, (i_one _ I l).
  - simpl. rewrite elem_of_remove. naive_solver.
  - intros h' Hne. simpl. split; [congruence|]. intros Hh. destruct Hne. apply (i_one _ I l); [by left|done].
Qed.

Lemma release_unlock_ok m h l :
  inv m → hpc (harts m h) = RelUnlock l →
  inv (set_hart h (goto RelPop (harts m h)) (set_lock l (Spinlock false (lcpu (locks m l))) m)).
Proof.
  intros I E. pose proof (i_hart _ I h) as X.
  assert (l ∉ held (harts m h)) as Hn by (apply X; right; by right).
  assert (owns (harts m h) l) as Ho by (right; by right).
  assert (∀ h', h' ≠ h → ¬ owns (harts m h') l) as Hno by (intros h' Hne Ho'; by apply Hne, (i_one _ I l)).
  apply inv_update; try done.
  - apply hart_ok_goto; rewrite ?E; try done; naive_solver.
  - intros l' Hne. unfold owns. simpl. rewrite E. naive_solver.
  - simpl. split; [done|]. intros [[?|[?|?]]|(h' & Hne & Ho')]; try done. by destruct (Hno h' Hne).
  - simpl. apply (i_cpu _ I).
  - intros h' _. simpl. apply (i_cpu _ I).
Qed.

Lemma acquire_step_ok h m m' : inv m → acquire_step h m = Some m' → inv m'.
Proof.
  intros I Hs. pose proof (i_hart _ I h) as X. unfold acquire_step in Hs.
  destruct (hpc (harts m h)) as [|l|l|l|l|l|l|l|l|l| |] eqn:E; try done; injection Hs as <-.
  - apply inv_local; [done|by eapply hart_ok_push|done|]. intros l'. unfold owns. simpl. rewrite E. naive_solver.
  - destruct (locked (locks m l)) eqn:El; (apply goto_ok; [done|done|by rewrite E|]);
      (apply hart_ok_goto; rewrite ?E; try done); [naive_solver|].
    intros l' [Hl|[?|?]]; try done. injection Hl as <-. apply not_held; [done|by left].
  - destruct (decide _) as [Ec|Ec]; (apply goto_ok; [done|done|by rewrite E|]);
      (apply hart_ok_goto; rewrite ?E; try done); [naive_solver|naive_solver|].
    intros l' [Hl|[?|?]]; try done. injection Hl as <-. apply not_held; [done|by right].
  - by apply acquire_swap_ok.
  - by apply acquire_set_cpu_ok.
Qed.

Lemma release_step_ok h m m' : inv m → release_step h m = Some m' → inv m'.
Proof.
  intros I Hs. pose proof (i_hart _ I h) as X. unfold release_step in Hs.
  destruct (hpc (harts m h)) as [|l|l|l|l|l|l|l|l|l| |] eqn:E; try done; injection Hs as <-.
  - destruct (locked (locks m l)) eqn:El; (apply goto_ok; [done|done|by rewrite E|]);
      (apply hart_ok_goto; rewrite ?E; try done); naive_solver.
  - destruct (decide _) as [Ec|Ec]; (apply goto_ok; [done|done|by rewrite E|]);
      (apply hart_ok_goto; rewrite ?E; try done); try naive_solver.
    intros l' Hl. injection Hl as <-. by apply (i_cpu _ I).
  - by apply release_clear_cpu_ok.
  - by apply release_unlock_ok.
  - pose proof (h_noff _ X ltac:(rewrite E; done)) as Hnoff. rewrite E in Hnoff. simpl in Hnoff.
    unfold pop_off. rewrite (h_sie _ X) by lia. rewrite (proj2 (Z.ltb_ge _ _)) by lia.
    apply inv_local; [done| |done|].
    + constructor; simpl; try done; try apply X; try lia; [by intros ? [?|[?|?]]|].
      intros Hpos. by rewrite (proj2 (Z.eqb_neq _ _)) by lia.
    + intros l. unfold owns. simpl. rewrite E. naive_solver.
Qed.

Lemma reachable_inv m : reachable m → inv m.
Proof.
  induction 1 as [m [Hl Hh]|m m' _ I [h Hs|h Hs|h Hs]].
  - assert (∀ h l, ¬ owns (harts m h) l) as Hno.
    { intros h l. unfold owns. destruct (Hh h) as (-> & -> & _). intros [?%elem_of_nil|[?|?]]; done. }
    constructor.
    + intros h. destruct (Hh h) as (E1 & E2 & E3). constructor; rewrite ?E1, ?E2, ?E3; try done; [constructor|naive_solver].
    + intros l. rewrite Hl. simpl. split; [done|]. intros [h Ho]. by destruct (Hno h l).
    + intros l h h' Ho. by destruct (Hno h l).
    + intros l h. rewrite Hl. simpl. destruct (Hh h) as (_ & -> & _). rewrite elem_of_nil. done.
  - by eapply client_step_ok.
  - by eapply acquire_step_ok.
  - by eapply release_step_ok.
Qed.

(** * Calls that are not disturbed *)

(** Hart [h] runs [n] steps of [acquire] or [release] on its own. *)
Fixpoint run (n : nat) (h : nat) (m : machine) : option machine :=
  match n with
  | O => Some m
  | S n =>
      match acquire_step h m with
      | Some m' => run n h m'
      | None => match release_step h m with Some m' => run n h m' | None => None end
      end
  end.

Definition acquire (h : nat) (l : Z) (m : machine) : option machine :=
  run 4 h (set_hart h (goto (AcqPush l) (harts m h)) m).
Definition release (h : nat) (l : Z) (m : machine) : option machine :=
  run 5 h (set_hart h (goto (RelTestLocked l) (harts m h)) m).

Ltac look := repeat first
  [ rewrite decide_True by done
  | progress cbn [harts locks set_hart set_lock hpc goto hcpu held locked lcpu] ].

Lemma acquire_free h l m :
  hpc (harts m h) = Running → locked (locks m l) = false →
  ∃ m', acquire h l m = Some m' ∧
    harts m' h = Hart (push_off (hcpu (harts m h))) Running (l :: held (harts m h)) ∧
    locks m' l = Spinlock true (Some h) ∧
    (∀ l', l' ≠ l → locks m' l' = locks m l') ∧ (∀ h', h' ≠ h → harts m' h' = harts m h').
Proof.
  intros E El. eexists. unfold acquire, run, acquire_step. look. rewrite El. look. rewrite El. look.
  split; [done|]. look. split; [done|]. split; [done|]. split.
  - intros l' Hne. look. by rewrite !decide_False by done.
  - intros h' Hne. look. by rewrite !decide_False by done.
Qed.

Lemma release_held h l m :
  hpc (harts m h) = Running → locks m l = Spinlock true (Some h) →
  sie (hcpu (harts m h)) = false → 0 < noff (hcpu (harts m h)) →
  ∃ m' c, release h l m = Some m' ∧ pop_off (hcpu (harts m h)) = inl c ∧
    harts m' h = Hart c Running (remove Z.eq_dec l (held (harts m h))) ∧ locks m' l = initlock ∧
    (∀ l', l' ≠ l → locks m' l' = locks m l') ∧ (∀ h', h' ≠ h → harts m' h' = harts m h').
Proof.
  intros E El Es En. eexists _, _. unfold release, run, acquire_step, release_step. look. rewrite El. look. rewrite El. look.
  unfold pop_off. rewrite Es. rewrite (proj2 (Z.ltb_ge _ _)) by lia. look.
  split; [done|]. split; [done|]. look. split; [done|]. split; [done|]. split.
  - intros l' Hne. look. by rewrite !decide_False by done.
  - intros h' Hne. look. by rewrite !decide_False by done.
Qed.

(** C11. Spin locks exclude.  In every reachable state, whatever the kernel does with them: no
    two harts hold the same lock; [holding] tells exactly whether the hart holds it, so that
    [acquire] panics on a lock the hart holds and [release] on one it does not; and a hart
    that holds a lock, or is inside [acquire], has interrupts off. *)
Theorem spinlock_excludes m h h' l :
  reachable m →
  (l ∈ held (harts m h) → l ∈ held (harts m h') → h = h') ∧
  (holding h (locks m l) = true ↔ l ∈ held (harts m h)) ∧
  (l ∈ held (harts m h) ∨ hpc (harts m h) = AcqSwap l → sie (hcpu (harts m h)) = false).
Proof.
  intros I%reachable_inv. split; [|split].
  - intros ? ?. apply (i_one _ I l); by left.
  - unfold holding. rewrite andb_true_iff, bool_decide_eq_true, (i_cpu _ I). split; [by intros [_ ?]|].
    intros Hh. split; [|done]. apply (i_locked _ I). exists h. by left.
  - pose proof (i_hart _ I h) as X. intros [Hh|E]; apply X.
    + pose proof (h_le _ X). destruct (held (harts m h)); [by apply elem_of_nil in Hh|]. simpl in *. lia.
    + rewrite (h_noff _ X), E by (by rewrite E). simpl. lia.
Qed.

(** [acquire] of a free lock takes it, turning interrupts off, and the [release] that
    follows gives it back and leaves the hart's interrupts, nesting depth and other locks
    as they were, however deep the locks are nested. *)
Theorem acquire_then_release m h l :
  reachable m → hpc (harts m h) = Running → locked (locks m l) = false →
  ∃ m1 m2,
    acquire h l m = Some m1 ∧ held (harts m1 h) = l :: held (harts m h) ∧ holding h (locks m1 l) = true ∧
    sie (hcpu (harts m1 h)) = false ∧
    release h l m1 = Some m2 ∧ held (harts m2 h) = held (harts m h) ∧ hpc (harts m2 h) = Running ∧
    sie (hcpu (harts m2 h)) = sie (hcpu (harts m h)) ∧ noff (hcpu (harts m2 h)) = noff (hcpu (harts m h)) ∧
    locked (locks m2 l) = false.
Proof.
  intros I%reachable_inv E El. pose proof (i_hart _ I h) as X.
  assert (l ∉ held (harts m h)) as Hn by (apply not_held; [done|by left]).
  destruct (acquire_free h l m E El) as (m1 & E1 & Hh1 & Hl1 & _ & _).
  pose proof (h_le _ X). pose proof (h_sie _ X) as Hsie. set (c := hcpu (harts m h)) in *.
  destruct (release_held h l m1) as (m2 & c' & E2 & Hp & Hh2 & Hl2 & _ & _); rewrite ?Hh1, ?Hl1; simpl; try done; [lia|].
  exists m1, m2. rewrite Hh2, Hl2, Hh1, Hl1. unfold holding. simpl. rewrite bool_decide_true by done.
  rewrite Hh1 in Hp. unfold pop_off, push_off in Hp. simpl in Hp.
  rewrite (proj2 (Z.ltb_ge _ _)) in Hp by lia. injection Hp as <-. simpl.
  replace (noff c + 1 - 1) with (noff c) by lia. destruct (Z.eq_dec l l); [|done].
  rewrite notin_remove by (by rewrite <- list_elem_of_In). split_and!; try done.
  destruct (Z.eqb_spec (noff c) 0) as [En|En]; simpl; [by destruct (sie c)|]. rewrite Hsie by lia. done.
Qed.

Definition two_harts : machine := Machine (λ _, initlock) (λ _, Hart (Cpu 0 false true) Running []).

Lemma two_harts_initial : initial two_harts.
Proof. done. Qed.

(** Hart 0 has taken lock 5 while hart 1 spins on it. *)
Definition contended : option machine :=
  m ← acquire 0 5 two_harts; run 4 1 (set_hart 1 (goto (AcqPush 5) (harts m 1)) m).

Lemma run_reachable n h m m' : reachable m → run n h m = Some m' → reachable m'.
Proof.
  revert m. induction n as [|n IH]; intros m Hr E; simpl in E; [by simplify_eq|].
  destruct (acquire_step h m) as [m1|] eqn:E1.
  - apply (IH m1); [|done]. eapply reach_step; [done|]. by eapply step_acquire.
  - destruct (release_step h m) as [m1|] eqn:E2; [|done].
    apply (IH m1); [|done]. eapply reach_step; [done|]. by eapply step_release.
Qed.

Lemma contended_reachable m : contended = Some m → reachable m.
Proof.
  unfold contended. destruct (acquire 0 5 two_harts) as [m1|] eqn:E1; [|done]. intros E2.
  assert (reachable m1) as R1.
  { eapply run_reachable; [|exact E1]. eapply reach_step; [apply reach_init, two_harts_initial|].
    apply (step_client _ _ 0). by apply call_acquire. }
  apply (run_reachable 4 1 (set_hart 1 (goto (AcqPush 5) (harts m1 1)) m1)); [|exact E2]. eapply reach_step; [exact R1|]. apply (step_client _ _ 1). apply call_acquire.
  by injection E1 as <-.
Qed.

Lemma spinlock_excludes_witness :
  ∃ m, contended = Some m ∧ held (harts m 0) = [5] ∧ hpc (harts m 1) = AcqSwap 5 ∧ sie (hcpu (harts m 1)) = false.
Proof.
  destruct contended as [m|] eqn:E; [|done]. exists m. pose proof (contended_reachable m E) as R.
  destruct (spinlock_excludes m 1 0 5 R) as (_ & _ & H). injection E as <-. do 3 (split; [reflexivity|]). apply H.
  right. reflexivity.
Defined.

Lemma acquire_then_release_witness :
  ∃ m1 m2, acquire 0 5 two_harts = Some m1 ∧ held (harts m1 0) = [5] ∧ release 0 5 m1 = Some m2 ∧
    sie (hcpu (harts m2 0)) = true.
Proof.
  destruct (acquire_then_release two_harts 0 5) as (m1 & m2 & E1 & H1 & _ & _ & E2 & _ & _ & H2 & _).
  - apply reach_init, two_harts_initial.
  - reflexivity.
  - reflexivity.
  - exists m1, m2. done.
Defined.
