(* ===== verification/Sleeplock.v ===== *)
(** Sleeping locks, kernel/sleeplock.c.

    A sleeping lock is a flag and a pid under a spin lock; a thread that finds the flag set
    gives up the spin lock and sleeps on the lock's address until it is woken.  The spin
    lock is a flag here, acquired only when free (Spinlock.v shows that spin locks exclude).
    [log] is a history variable: who has acquired and released the lock, in order. *)

From S2P Require Import Prelude.

Inductive sl_event := Acquired (pid : Z) | Released (pid : Z).

Record sleeplock := Sleeplock {
  slocked : bool;
  lk : bool;
  spid : Z;
  swoken : list chan;
  log : list sl_event;
}.

Definition initsleeplock : sleeplock := Sleeplock false false 0 [] [].

Definition set_lk b s := Sleeplock (slocked s) b (spid s) (swoken s) (log s).

Section sleeplock.
Context (me : nat) (pid : Z).

Definition acquire_lk : M sleeplock unit := λ s, if lk s then Panic "acquire" else Ret tt (set_lk true s).
Definition release_lk : M sleeplock unit := λ s, if lk s then Ret tt (set_lk false s) else Panic "release".
Definition sleep_lk : M sleeplock unit := release_lk;; sleep_on (ChSleeplock me);; acquire_lk.
Definition wakeup_lk : M sleeplock unit :=
  modify (λ s, Sleeplock (slocked s) (lk s) (spid s) (ChSleeplock me :: swoken s) (log s)).

Definition acquiresleep_wait (_ : unit) : M sleeplock (unit + unit) :=
  s ← get;
  if slocked s then sleep_lk;; mret (inl tt) else mret (inr tt).

Definition acquiresleep (fuel : nat) : M sleeplock unit :=
  acquire_lk;;
  loop fuel acquiresleep_wait tt;;
  modify (λ s, Sleeplock true (lk s) pid (swoken s) (log s ++ [Acquired pid]));;
  release_lk.

Definition releasesleep : M sleeplock unit :=
  acquire_lk;;
  modify (λ s, Sleeplock false (lk s) 0 (swoken s) (log s ++ [Released pid]));;
  wakeup_lk;;
  release_lk.

Definition holdingsleep : M sleeplock bool :=
  acquire_lk;;
  s ← get;
  let r := slocked s && (spid s =? pid) in
  release_lk;; mret r.

End sleeplock.

(** * Exclusion *)

(** The holder according to a history in which nobody acquires a held lock and only the
    holder releases; [None] if the history is not such. *)
Fixpoint holder (l : list sl_event) (o : option Z) : option (option Z) :=
  match l, o with
  | [], _ => Some o
  | Acquired p :: l, None => holder l (Some p)
  | Released p :: l, Some q => if p =? q then holder l None else None
  | _, _ => None
  end.

Definition held_by (s : sleeplock) : option (option Z) := holder (log s) None.

Record sl_inv (s : sleeplock) : Prop := {
  sl_hist : held_by s = Some (if slocked s then Some (spid s) else None);
}.

Lemma holder_app l1 l2 o : holder (l1 ++ l2) o = (o' ← holder l1 o; holder l2 o').
Proof.
  revert o. induction l1 as [|[p|p] l1 IH]; intros o; simpl; [done| |]; destruct o; simpl; try done.
  destruct (p =? z); [done|done].
Qed.

(** While a thread sleeps the others keep the invariant and release the spin lock. *)
Definition sl_others (s s' : sleeplock) : Prop := sl_inv s' ∧ lk s' = false ∧ log s `prefix_of` log s'.

(** A thread sleeps only while the lock is held, and never with the spin lock. *)
Definition sl_asleep (me : nat) (c : chan) (s : sleeplock) : Prop :=
  c = ChSleeplock me ∧ slocked s = true ∧ lk s = false ∧ sl_inv s.

Lemma acquiresleep_meets me pid fuel s :
  sl_inv s → lk s = false →
  meets (sl_asleep me) sl_others
    (λ _ s', sl_inv s' ∧ lk s' = false ∧ slocked s' = true ∧ spid s' = pid ∧
       ∃ l, log s' = l ++ [Acquired pid] ∧ holder l None = Some None ∧ log s `prefix_of` l)
    (acquiresleep me pid fuel s).
Proof.
  intros I Hl. unfold acquiresleep, acquire_lk. msimpl. rewrite Hl. msimpl. apply meets_bind.
  eapply meets_mono; [|apply (meets_loop _ _ (λ _ s', sl_inv s' ∧ lk s' = true ∧ log s `prefix_of` log s')
     (λ _ s', sl_inv s' ∧ lk s' = true ∧ slocked s' = false ∧ log s `prefix_of` log s'))].
  - intros [] s' ([Hh] & Hl' & Hf & Hp). unfold held_by in Hh. rewrite Hf in Hh. simpl.
    unfold release_lk. simpl. rewrite Hl'. simpl. split.
    + constructor. unfold held_by. simpl. by rewrite holder_app, Hh.
    + split_and!; try done. by exists (log s').
  - intros [] s' (I' & Hl' & Hp). unfold acquiresleep_wait. msimpl. destruct (slocked s') eqn:Es; [|done].
    unfold sleep_lk, release_lk, acquire_lk, sleep_on. msimpl. rewrite Hl'. msimpl. simpl. split.
    + split_and!; try done. by destruct s', I'; constructor.
    + intros s2 (I2 & Hl2 & Hp2). rewrite Hl2. simpl. split; [by destruct s2, I2; constructor|]. split; [done|].
      simpl in *. by etrans.
  - by destruct s, I.
Qed.

Lemma releasesleep_ok me pid s :
  sl_inv s → lk s = false → slocked s = true → spid s = pid →
  ∃ s', releasesleep me pid s = Ret tt s' ∧ sl_inv s' ∧ lk s' = false ∧ slocked s' = false ∧
    ChSleeplock me ∈ swoken s' ∧ log s' = log s ++ [Released pid].
Proof.
  intros [Hh] Hl Hs Hp. eexists. unfold releasesleep, acquire_lk, release_lk, wakeup_lk. msimpl. rewrite Hl. simpl.
  split; [done|]. unfold held_by in Hh. rewrite Hs, Hp in Hh. split.
  - constructor. unfold held_by. simpl. rewrite holder_app, Hh. simpl. by rewrite Z.eqb_refl.
  - simpl. split_and!; try done. by left.
Qed.

(** The calls on a lock that need not wait. *)
Lemma acquiresleep_free me pid fuel s :
  lk s = false → slocked s = false → (0 < fuel)%nat →
  acquiresleep me pid fuel s = Ret tt (Sleeplock true false pid (swoken s) (log s ++ [Acquired pid])).
Proof.
  intros Hl Hs Hf. destruct fuel as [|fuel]; [lia|]. unfold acquiresleep, acquire_lk. msimpl. rewrite Hl. msimpl.
  erewrite loop_done; [|unfold acquiresleep_wait; msimpl; cbn [slocked set_lk]; by rewrite Hs]. done.
Qed.

Lemma releasesleep_eq me pid s :
  lk s = false →
  releasesleep me pid s = Ret tt (Sleeplock false false 0 (ChSleeplock me :: swoken s) (log s ++ [Released pid])).
Proof. intros Hl. unfold releasesleep, acquire_lk. msimpl. by rewrite Hl. Qed.

Lemma holdingsleep_eq pid s : lk s = false → holdingsleep pid s = Ret (slocked s && (spid s =? pid)) s.
Proof. intros Hl. unfold holdingsleep, acquire_lk. msimpl. rewrite Hl. destruct s. simpl in *. by subst. Qed.

(** C36. Sleeping locks exclude.  Whatever the other threads do while it sleeps, as long as
    they keep the lock's invariant (acquired only when free, released only by the holder),
    [acquiresleep] never panics, sleeps only without the spin lock and while somebody holds
    the lock, and when it returns the lock had been free at the moment it was taken and the
    caller is now the holder.  [releasesleep] by the holder frees it and wakes the waiters. *)
Theorem sleeplock_excludes me pid fuel s :
  sl_inv s → lk s = false →
  meets (sl_asleep me) sl_others
    (λ _ s', sl_inv s' ∧ lk s' = false ∧ held_by s' = Some (Some pid) ∧
       (∃ l, log s' = l ++ [Acquired pid] ∧ holder l None = Some None ∧ log s `prefix_of` l) ∧
       ∃ s2, releasesleep me pid s' = Ret tt s2 ∧ sl_inv s2 ∧ held_by s2 = Some None ∧ lk s2 = false ∧
         ChSleeplock me ∈ swoken s2)
    (acquiresleep me pid fuel s).
Proof.
  intros I Hl. eapply meets_mono; [|by apply acquiresleep_meets]. intros [] s' (I' & Hl' & Hs & Hp & Hlog).
  destruct (releasesleep_ok me pid s' I' Hl' Hs Hp) as (s2 & E & I2 & Hl2 & Hs2 & Hw & _).
  split; [done|]. split; [done|]. split; [by rewrite (sl_hist _ I'), Hs, Hp|]. split; [done|].
  exists s2. split_and!; try done. by rewrite (sl_hist _ I2), Hs2.
Qed.

Lemma sleeplock_excludes_witness :
  ∃ s', acquiresleep 3 42 1 initsleeplock = Ret tt s' ∧ held_by s' = Some (Some 42) ∧
    ∃ s2, releasesleep 3 42 s' = Ret tt s2 ∧ held_by s2 = Some None.
Proof.
  pose proof (sleeplock_excludes 3 42 1 initsleeplock ltac:(by constructor) eq_refl) as W. simpl in W.
  destruct W as (_ & _ & Hh & _ & s2 & E & _ & H2 & _). eexists. split; [reflexivity|]. split; [exact Hh|].
  exists s2. done.
Defined.
