(* ===== verification/Bytes.v ===== *)
(** Blocks as lists of bytes: taking pieces out, putting pieces in, and little-endian
    integers in them.  Shared by the log and the file system. *)

From S2P Require Import Prelude.

(** Bytes [o .. o+n) of [d]; storing [bs] at offset [o]. *)
Definition sub (o n : nat) (d : list Z) : list Z := take n (drop o d).
Definition splice (o : nat) (bs d : list Z) : list Z := take o d ++ bs ++ drop (o + length bs) d.

Fixpoint le_dec (bs : list Z) : Z :=
  match bs with
  | [] => 0
  | b :: bs => b + 256 * le_dec bs
  end.

Fixpoint le_enc (n : nat) (v : Z) : list Z :=
  match n with
  | O => []
  | S n => v mod 256 :: le_enc n (v / 256)
  end.

Definition get32 (o : nat) (d : list Z) : Z := le_dec (sub o 4 d).
Definition set32 (o : nat) (v : Z) (d : list Z) : list Z := splice o (le_enc 4 v) d.
Definition get16 (o : nat) (d : list Z) : Z := le_dec (sub o 2 d).
Definition set16 (o : nat) (v : Z) (d : list Z) : list Z := splice o (le_enc 2 v) d.

Definition bytes (d : list Z) : Prop := Forall (λ b, 0 ≤ b < 256) d.

Lemma length_sub o n d : (o + n ≤ length d)%nat → length (sub o n d) = n.
Proof. intros. unfold sub. rewrite length_take, length_drop. lia. Qed.

Lemma lookup_sub o n d i : (i < n)%nat → sub o n d !! i = d !! (o + i)%nat.
Proof. intros. unfold sub. rewrite lookup_take_lt by lia. by rewrite lookup_drop. Qed.

Lemma lookup_sub_ge o n d i : (n ≤ i)%nat → sub o n d !! i = None.
Proof. intros. unfold sub. by rewrite lookup_take_ge by lia. Qed.

Lemma length_splice o bs d : (o + length bs ≤ length d)%nat → length (splice o bs d) = length d.
Proof. intros. unfold splice. rewrite !length_app, length_take, length_drop. lia. Qed.

Lemma lookup_splice o bs d i :
  (o + length bs ≤ length d)%nat →
  splice o bs d !! i = if decide (o ≤ i < o + length bs)%nat then bs !! (i - o)%nat else d !! i.
Proof.
  intros Hl. unfold splice. destruct (decide (i < o)%nat) as [Hi|Hi].
  - rewrite lookup_app_l by (rewrite length_take; lia). rewrite lookup_take_lt by lia. by rewrite decide_False by lia.
  - rewrite lookup_app_r by (rewrite length_take; lia). rewrite length_take, Nat.min_l by lia.
    destruct (decide (i < o + length bs)%nat) as [Hi'|Hi'].
    + rewrite lookup_app_l by lia. by rewrite decide_True by lia.
    + rewrite lookup_app_r by lia. rewrite lookup_drop, decide_False by lia. f_equal. lia.
Qed.

(** Reading back what was stored, and what was not. *)
Lemma sub_splice_same o bs d n : (o + length bs ≤ length d)%nat → n = length bs → sub o n (splice o bs d) = bs.
Proof.
  intros Hl ->. apply list_eq. intros i. destruct (decide (i < length bs)%nat) as [Hi|Hi].
  - rewrite lookup_sub, lookup_splice by lia. rewrite decide_True by lia. f_equal. lia.
  - rewrite lookup_sub_ge by lia. by rewrite lookup_ge_None_2 by lia.
Qed.

Lemma sub_splice_other o o' n bs d :
  (o + length bs ≤ length d)%nat → (o' + n ≤ o ∨ o + length bs ≤ o')%nat → sub o' n (splice o bs d) = sub o' n d.
Proof.
  intros Hl Hd. apply list_eq. intros i. destruct (decide (i < n)%nat) as [Hi|Hi].
  - rewrite !lookup_sub, lookup_splice by lia. by rewrite decide_False by lia.
  - by rewrite !lookup_sub_ge by lia.
Qed.

Lemma splice_all bs d : length bs = length d → splice 0 bs d = bs.
Proof. intros Hl. unfold splice. simpl. rewrite drop_ge by lia. apply app_nil_r. Qed.

Lemma sub_all d n : n = length d → sub 0 n d = d.
Proof. intros ->. unfold sub. rewrite drop_0. apply firstn_all. Qed.

Lemma sub_sub o n o' n' d : (o' + n' ≤ n)%nat → sub o' n' (sub o n d) = sub (o + o') n' d.
Proof.
  intros Hn. apply list_eq. intros i. destruct (decide (i < n')%nat) as [Hi|Hi].
  - rewrite !lookup_sub by lia. f_equal. lia.
  - by rewrite !lookup_sub_ge by lia.
Qed.

Lemma sub_app o n m d : sub o (n + m) d = sub o n d ++ sub (o + n) m d.
Proof. unfold sub. rewrite <- drop_drop. generalize (drop o d). clear. intros d. by rewrite <- (take_drop n (take (n + m) d)), take_take, skipn_firstn_comm, Nat.min_l, Nat.add_sub' by lia. Qed.

Lemma bytes_sub o n d : bytes d → bytes (sub o n d).
Proof. intros H. unfold sub. by apply Forall_take, Forall_drop. Qed.

Lemma bytes_splice o bs d : bytes d → bytes bs → bytes (splice o bs d).
Proof.
  intros Hd Hb. unfold splice. apply Forall_app. split; [by apply Forall_take|].
  apply Forall_app. split; [done|by apply Forall_drop].
Qed.

Lemma length_le_enc n v : length (le_enc n v) = n.
Proof. revert v. induction n as [|n IH]; intros v; simpl; [done|]. by rewrite IH. Qed.

Lemma bytes_le_enc n v : bytes (le_enc n v).
Proof.
  revert v. induction n as [|n IH]; intros v; simpl; constructor; [|apply IH]. apply Z.mod_pos_bound. lia.
Qed.

Lemma le_dec_enc n v : le_dec (le_enc n v) = v mod 256 ^ Z.of_nat n.
Proof.
  revert v. induction n as [|n IH]; intros v; simpl le_enc; simpl le_dec; [by rewrite Z.mod_1_r|].
  rewrite IH. replace (Z.of_nat (S n)) with (1 + Z.of_nat n) by lia. rewrite Z.pow_add_r by lia.
  rewrite Z.rem_mul_r by lia. rewrite Z.pow_1_r. lia.
Qed.

Lemma le_dec_bound bs : bytes bs → 0 ≤ le_dec bs < 256 ^ Z.of_nat (length bs).
Proof.
  induction 1 as [|b bs Hb _ IH]; simpl le_dec; [done|]. cbn [length]. rewrite Nat2Z.inj_succ, Z.pow_succ_r by lia. lia.
Qed.

Lemma le_enc_dec bs : bytes bs → le_enc (length bs) (le_dec bs) = bs.
Proof.
  induction 1 as [|b bs Hb _ IH]; simpl; [done|]. f_equal.
  - rewrite Z.mul_comm, Z_mod_plus_full. by apply Z.mod_small.
  - rewrite Z.mul_comm, Z.div_add by lia. rewrite Z.div_small by lia. by rewrite Z.add_0_l, IH.
Qed.

Section words.
Context (d : list Z) (o : nat).
Hypothesis Ho : (o + 4 ≤ length d)%nat.

Lemma length_set32 v : length (set32 o v d) = length d.
Proof. apply length_splice. by rewrite length_le_enc. Qed.

Lemma get32_set32 v : 0 ≤ v < 2 ^ 32 → get32 o (set32 o v d) = v.
Proof.
  intros Hv. unfold get32, set32. rewrite sub_splice_same by (by rewrite length_le_enc).
  rewrite le_dec_enc. by apply Z.mod_small.
Qed.

Lemma get32_set32_other o' v : (o' + 4 ≤ o ∨ o + 4 ≤ o')%nat → get32 o' (set32 o v d) = get32 o' d.
Proof. intros Hd. unfold get32, set32. by rewrite sub_splice_other by (by rewrite length_le_enc). Qed.

Lemma sub_set32_other o' n v : (o' + n ≤ o ∨ o + 4 ≤ o')%nat → sub o' n (set32 o v d) = sub o' n d.
Proof. intros Hd. unfold set32. by rewrite sub_splice_other by (by rewrite length_le_enc). Qed.
End words.

Lemma get32_range o d : bytes d → 0 ≤ get32 o d < 2 ^ 32.
Proof.
  intros Hb. unfold get32. pose proof (le_dec_bound (sub o 4 d) (bytes_sub o 4 d Hb)) as Hr.
  assert (length (sub o 4 d) ≤ 4)%nat as Hl by (unfold sub; rewrite length_take; lia).
  assert (256 ^ Z.of_nat (length (sub o 4 d)) ≤ 256 ^ 4) by (apply Z.pow_le_mono_r; lia). lia.
Qed.

Lemma get16_range o d : bytes d → 0 ≤ get16 o d < 2 ^ 16.
Proof.
  intros Hb. unfold get16. pose proof (le_dec_bound (sub o 2 d) (bytes_sub o 2 d Hb)) as Hr.
  assert (length (sub o 2 d) ≤ 2)%nat as Hl by (unfold sub; rewrite length_take; lia).
  assert (256 ^ Z.of_nat (length (sub o 2 d)) ≤ 256 ^ 2) by (apply Z.pow_le_mono_r; lia). lia.
Qed.
