(* ===== verification/Bio.v ===== *)
(** The buffer cache, kernel/bio.c.

    The cache is an array of [NBUF] buffers and a list head, linked through [prev] and
    [next] in order of use; a buffer is named by its index and the head has index [NBUF].
    The disk behind it is the device effect [virtio_disk_rw]: one block read or written.
    [dtrace] records the writes that have reached the disk, in order; a crash leaves the
    disk as it was after some prefix of them.

    [bio_inv s P L]: the state of the cache between two calls of one thread, with the
    blocks [P] pinned and the blocks [L] held locked by the thread. *)

From S2P Require Import Prelude Sleeplock.

Definition NBUF : nat := 30.
Definition BSIZE : Z := 1024.
Definition ROOTDEV : Z := 1.

Record buf := Buf {
  valid : bool;
  bdev : Z;
  blockno : Z;
  block : sleeplock;
  refcnt : Z;
  bprev : nat;
  bnext : nat;
  bdata : list Z;
}.

#[export] Instance buf_inhabited : Inhabited buf := populate (Buf false 0 0 initsleeplock 0 0 0 []).

Definition set_valid v b := Buf v (bdev b) (blockno b) (block b) (refcnt b) (bprev b) (bnext b) (bdata b).
Definition set_block l b := Buf (valid b) (bdev b) (blockno b) l (refcnt b) (bprev b) (bnext b) (bdata b).
Definition set_refcnt r b := Buf (valid b) (bdev b) (blockno b) (block b) r (bprev b) (bnext b) (bdata b).
Definition set_prev p b := Buf (valid b) (bdev b) (blockno b) (block b) (refcnt b) p (bnext b) (bdata b).
Definition set_next n b := Buf (valid b) (bdev b) (blockno b) (block b) (refcnt b) (bprev b) n (bdata b).
Definition set_data d b := Buf (valid b) (bdev b) (blockno b) (block b) (refcnt b) (bprev b) (bnext b) d.

Record bcache := Bcache {
  bc_lock : bool;
  nodes : list buf;
  disk : Z → list Z;
  dtrace : list (Z * list Z);
}.

(** The buffers and, after them, the list head. *)
Definition bhead : nat := NBUF.

Definition set_bc_lock b s := Bcache b (nodes s) (disk s) (dtrace s).
Definition set_nodes n s := Bcache (bc_lock s) n (disk s) (dtrace s).

(** [*b], for reading and for writing. *)
Definition node (i : nat) (s : bcache) : buf := nodes s !!! i.
Definition upd (i : nat) (f : buf → buf) (s : bcache) : bcache := set_nodes (alter f i (nodes s)) s.

Definition acquire_bc : M bcache unit := λ s, if bc_lock s then Panic "acquire" else Ret tt (set_bc_lock true s).
Definition release_bc : M bcache unit := λ s, if bc_lock s then Ret tt (set_bc_lock false s) else Panic "release".

Definition insert_front (b : nat) : M bcache unit :=
  modify (λ s, upd b (set_next (bnext (node bhead s))) s);;
  modify (upd b (set_prev bhead));;
  modify (λ s, upd (bnext (node bhead s)) (set_prev b) s);;
  modify (upd bhead (set_next b)).

Definition binit_body (b : nat) : M bcache unit :=
  modify (λ s, upd b (set_next (bnext (node bhead s))) s);;
  modify (upd b (set_prev bhead));;
  modify (upd b (set_block initsleeplock));;
  modify (λ s, upd (bnext (node bhead s)) (set_prev b) s);;
  modify (upd bhead (set_next b)).

Definition binit_loop (b : nat) : M bcache (nat + unit) :=
  if bool_decide (b < NBUF)%nat then binit_body b;; mret (inl (S b)) else mret (inr tt).

Definition binit : M bcache unit :=
  modify (set_bc_lock false);;
  modify (upd bhead (set_prev bhead));;
  modify (upd bhead (set_next bhead));;
  loop (S NBUF) binit_loop 0%nat.

Section bio.
Context (pid : Z) (fuel : nat).

(** The sleeping lock of buffer [i]. *)
Definition in_lock {A} (i : nat) (c : M sleeplock A) : M bcache A :=
  zoom (λ l s, upd i (set_block l) s) (λ s, block (node i s)) c.

Definition bget_hit (dev bno : Z) (b : nat) : M bcache (nat + option nat) :=
  s ← get;
  if bool_decide (b = bhead) then mret (inr None)
  else if (bdev (node b s) =? dev) && (blockno (node b s) =? bno) then mret (inr (Some b))
  else mret (inl (bnext (node b s))).

Definition bget_free (b : nat) : M bcache (nat + option nat) :=
  s ← get;
  if bool_decide (b = bhead) then mret (inr None)
  else if refcnt (node b s) =? 0 then mret (inr (Some b))
  else mret (inl (bprev (node b s))).

Definition bget (dev bno : Z) : M bcache nat :=
  acquire_bc;;
  s ← get;
  hit ← loop (S NBUF) (bget_hit dev bno) (bnext (node bhead s));
  match hit with
  | Some b =>
      modify (upd b (λ x, set_refcnt (u32 (refcnt x + 1)) x));;
      release_bc;;
      in_lock b (acquiresleep b pid fuel);; mret b
  | None =>
      s ← get;
      free ← loop (S NBUF) bget_free (bprev (node bhead s));
      match free with
      | Some b =>
          modify (upd b (λ x, Buf false dev bno (block x) 1 (bprev x) (bnext x) (bdata x)));;
          release_bc;;
          in_lock b (acquiresleep b pid fuel);; mret b
      | None => panic "bget: no buffers"
      end
  end.

(** The device's effect: read the block into the buffer, or write it out. *)
Definition virtio_disk_rw (b : nat) (write : bool) : M bcache unit := λ s,
  let x := node b s in
  if write then
    Ret tt (Bcache (bc_lock s) (nodes s) (λ k, if k =? blockno x then bdata x else disk s k)
              (dtrace s ++ [(blockno x, bdata x)]))
  else Ret tt (upd b (set_data (disk s (blockno x))) s).

Definition bread (dev bno : Z) : M bcache nat :=
  b ← bget dev bno;
  s ← get;
  (if valid (node b s) then mret tt
   else virtio_disk_rw b false;; modify (upd b (set_valid true)));;
  mret b.

Definition bwrite (b : nat) : M bcache unit :=
  h ← in_lock b (holdingsleep pid);
  if (h : bool) then virtio_disk_rw b true else panic "bwrite".

Definition brelse (b : nat) : M bcache unit :=
  h ← in_lock b (holdingsleep pid);
  if (h : bool) then
    in_lock b (releasesleep b pid);;
    acquire_bc;;
    modify (upd b (λ x, set_refcnt (u32 (refcnt x - 1)) x));;
    s ← get;
    (if refcnt (node b s) =? 0 then
       modify (λ s, upd (bnext (node b s)) (set_prev (bprev (node b s))) s);;
       modify (λ s, upd (bprev (node b s)) (set_next (bnext (node b s))) s);;
       insert_front b
     else mret tt);;
    release_bc
  else panic "brelse".

Definition bpin (b : nat) : M bcache unit :=
  acquire_bc;; modify (upd b (λ x, set_refcnt (u32 (refcnt x + 1)) x));; release_bc.

Definition bunpin (b : nat) : M bcache unit :=
  acquire_bc;; modify (upd b (λ x, set_refcnt (u32 (refcnt x - 1)) x));; release_bc.

End bio.

(** * The list through the buffers *)

(** Following [f] from [x] passes through [l] and ends at [y]. *)
Fixpoint seg (f : nat → nat) (x : nat) (l : list nat) (y : nat) : Prop :=
  match l with
  | [] => f x = y
  | z :: l => f x = z ∧ seg f z l y
  end.

Definition nx (s : bcache) (i : nat) : nat := bnext (node i s).
Definition pv (s : bcache) (i : nat) : nat := bprev (node i s).

(** The buffers in order of use: a ring through the head, in both directions. *)
Record ring (s : bcache) (l : list nat) : Prop := {
  rg_len : length (nodes s) = S NBUF;
  rg_perm : l ≡ₚ seq 0 NBUF;
  rg_next : seg (nx s) bhead l bhead;
  rg_prev : seg (pv s) bhead (rev l) bhead;
}.

Lemma seg_app f x l1 y l2 z : seg f x (l1 ++ y :: l2) z ↔ seg f x l1 y ∧ seg f y l2 z.
Proof. revert x. induction l1 as [|w l1 IH]; intros x; simpl; [done|]. rewrite IH. tauto. Qed.

Lemma seg_ext f g x l y : (∀ i, i ∈ x :: l → f i = g i) → seg f x l y → seg g x l y.
Proof.
  revert x. induction l as [|w l IH]; intros x Hfg; simpl.
  - rewrite Hfg by left. done.
  - intros [E Hs]. rewrite Hfg in E by left. split; [done|]. apply IH; [|done].
    intros i Hi. apply Hfg. by right.
Qed.

Lemma node_upd i f s j : (i < length (nodes s))%nat → node j (upd i f s) = if decide (j = i) then f (node i s) else node j s.
Proof.
  intros Hi. unfold node, upd. simpl. destruct (decide (j = i)) as [->|Hne].
  - apply list_lookup_total_correct. rewrite list_lookup_alter_eq.
    destruct (lookup_lt_is_Some_2 (nodes s) i Hi) as [x E]. rewrite E. simpl. f_equal. f_equal.
    symmetry. by apply list_lookup_total_correct.
  - rewrite !list_lookup_total_alt. by rewrite list_lookup_alter_ne.
Qed.

Lemma length_upd i f s : length (nodes (upd i f s)) = length (nodes s).
Proof. apply length_alter. Qed.

(** A ring through some of the buffers. *)
Record lring (s : bcache) (l : list nat) : Prop := {
  lr_len : length (nodes s) = S NBUF;
  lr_nodup : NoDup (bhead :: l);
  lr_lt : ∀ i, i ∈ l → (i < NBUF)%nat;
  lr_next : seg (nx s) bhead l bhead;
  lr_prev : seg (pv s) bhead (rev l) bhead;
}.

(** Everything but the links agrees. *)
Definition strip (b : buf) : buf := set_prev 0 (set_next 0 b).

Record agree (s s' : bcache) : Prop := {
  ag_lock : bc_lock s' = bc_lock s;
  ag_disk : disk s' = disk s;
  ag_trace : dtrace s' = dtrace s;
  ag_len : length (nodes s') = length (nodes s);
  ag_node : ∀ i, strip (node i s') = strip (node i s);
}.

#[export] Instance agree_refl : Reflexive agree.
Proof. by constructor. Qed.
#[export] Instance agree_trans : Transitive agree.
Proof. intros s1 s2 s3 [] []. constructor; congruence. Qed.

Lemma agree_upd i f s : (∀ b, strip (f b) = strip b) → (i < length (nodes s))%nat → agree s (upd i f s).
Proof.
  intros Hf Hi. constructor; try done; [apply length_upd|]. intros j. rewrite node_upd by done.
  destruct (decide (j = i)) as [->|]; [apply Hf|done].
Qed.

Lemma nx_set_next i n s j : (i < length (nodes s))%nat → nx (upd i (set_next n) s) j = if decide (j = i) then n else nx s j.
Proof. intros Hi. unfold nx. rewrite node_upd by done. by destruct (decide (j = i)). Qed.
Lemma nx_set_prev i p s j : (i < length (nodes s))%nat → nx (upd i (set_prev p) s) j = nx s j.
Proof. intros Hi. unfold nx. rewrite node_upd by done. by destruct (decide (j = i)) as [->|]. Qed.
Lemma pv_set_prev i p s j : (i < length (nodes s))%nat → pv (upd i (set_prev p) s) j = if decide (j = i) then p else pv s j.
Proof. intros Hi. unfold pv. rewrite node_upd by done. by destruct (decide (j = i)). Qed.
Lemma pv_set_next i n s j : (i < length (nodes s))%nat → pv (upd i (set_next n) s) j = pv s j.
Proof. intros Hi. unfold pv. rewrite node_upd by done. by destruct (decide (j = i)) as [->|]. Qed.

Lemma seg_start f g x y l z : seg f x l z → g y = f x → (∀ i, i ∈ l → g i = f i) → seg g y l z.
Proof.
  destruct l as [|w l]; simpl; intros Hs E Hfg; [congruence|]. destruct Hs as [Ew Hs]. split; [congruence|].
  apply (seg_ext f); [|done]. intros i Hi. symmetry. by apply Hfg.
Qed.

(** Taking [b] out of a chain: its predecessor now leads to its successor. *)
Lemma seg_remove f g x l1 b l2 z :
  seg f x (l1 ++ b :: l2) z → NoDup (x :: l1 ++ b :: l2) →
  (∀ i, g i = if decide (i = List.last l1 x) then f b else f i) → seg g x (l1 ++ l2) z.
Proof.
  intros Hs Hnd Hg. apply seg_app in Hs as [H1 H2].
  destruct l1 as [|w l1 _] using rev_ind; simpl in *.
  - apply (seg_start f _ b); [done|rewrite Hg; by rewrite decide_True|]. intros i Hi. rewrite Hg, decide_False; [done|].
    intros ->. apply NoDup_cons in Hnd as [Hnd _]. apply Hnd. by right.
  - rewrite List.last_last in Hg. rewrite <- app_assoc in Hnd |- *. simpl in *. apply seg_app in H1 as [H1 Hw].
    apply seg_app. rewrite app_comm_cons in Hnd. apply NoDup_app in Hnd as (Hnd1 & Hdis & Hnd2).
    apply NoDup_cons in Hnd2 as [Hw2 _]. split.
    + apply (seg_ext f); [|done]. intros i Hi. rewrite Hg, decide_False; [done|]. intros ->.
      apply (Hdis w Hi). by left.
    + apply (seg_start f _ b); [done|rewrite Hg; by rewrite decide_True|]. intros i Hi.
      rewrite Hg, decide_False; [done|]. intros ->. apply Hw2. by right.
Qed.

Lemma seg_first f x l z : seg f x l z → f x = hd z l.
Proof. destruct l; simpl; [done|]. by intros [? _]. Qed.

Lemma hd_rev_last (l : list nat) d : hd d (rev l) = List.last l d.
Proof.
  destruct l as [|x l _] using rev_ind; [done|]. rewrite rev_app_distr, List.last_last. done.
Qed.

Lemma lring_bound s l i : lring s l → i ∈ bhead :: l → (i < length (nodes s))%nat.
Proof.
  intros R Hi. rewrite (lr_len _ _ R). apply elem_of_cons in Hi as [->|Hi]; [unfold bhead; lia|].
  pose proof (lr_lt _ _ R i Hi). lia.
Qed.

Lemma hd_in (l : list nat) d : hd d l ∈ d :: l.
Proof. destruct l; [by left|right; by left]. Qed.
Lemma last_in (l : list nat) d : List.last l d ∈ d :: l.
Proof. destruct l as [|x l _] using rev_ind; [by left|]. rewrite List.last_last. set_solver. Qed.
Lemma elem_of_rev (l : list nat) x : x ∈ rev l ↔ x ∈ l.
Proof. rewrite !list_elem_of_In. symmetry. apply in_rev. Qed.

Lemma rev_middle (l1 l2 : list nat) b : rev (l1 ++ b :: l2) = rev l2 ++ b :: rev l1.
Proof. rewrite rev_app_distr. simpl. by rewrite <- app_assoc. Qed.

Lemma NoDup_head_rev (l : list nat) x : NoDup (x :: l) → NoDup (x :: rev l).
Proof. apply NoDup_Permutation_proper. constructor. symmetry. apply Permutation_rev. Qed.

(** [b->next->prev = b->prev; b->prev->next = b->next] *)
Lemma lring_unlink s l1 b l2 :
  lring s (l1 ++ b :: l2) →
  let s1 := upd (nx s b) (set_prev (pv s b)) s in
  let s2 := upd (pv s1 b) (set_next (nx s1 b)) s1 in
  lring s2 (l1 ++ l2) ∧ agree s s2.
Proof.
  intros R s1 s2. pose proof (lr_nodup _ _ R) as Hnd.
  assert (NoDup (b :: bhead :: l1 ++ l2)) as Hnd'.
  { revert Hnd. apply NoDup_Permutation_proper. rewrite <- Permutation_middle. constructor. }
  apply NoDup_cons in Hnd' as [Hb Hnd'].
  pose proof (proj2 (proj1 (seg_app _ _ _ _ _ _) (lr_next _ _ R))) as Hn%seg_first.
  pose proof (lr_prev _ _ R) as Hrp. rewrite rev_middle in Hrp.
  pose proof (proj2 (proj1 (seg_app _ _ _ _ _ _) Hrp)) as Hp%seg_first. rewrite hd_rev_last in Hp.
  assert (nx s b ∈ bhead :: l1 ++ l2) as Hnin.
  { rewrite Hn. pose proof (hd_in l2 bhead) as Hh. rewrite elem_of_cons, elem_of_app in *. tauto. }
  assert (pv s b ∈ bhead :: l1 ++ l2) as Hpin.
  { rewrite Hp. pose proof (last_in l1 bhead) as Hh. rewrite elem_of_cons, elem_of_app in *. tauto. }
  assert (∀ i, i ∈ bhead :: l1 ++ l2 → (i < length (nodes s))%nat) as Bnd.
  { intros i Hi. apply (lring_bound s _ _ R). rewrite elem_of_cons, elem_of_app in *. rewrite elem_of_cons. tauto. }
  assert (nx s b ≠ b) as Hnb by congruence.
  assert (pv s1 b = pv s b) as E1 by (unfold s1; rewrite pv_set_prev by auto; by rewrite decide_False).
  assert (nx s1 b = nx s b) as E2 by (unfold s1; by rewrite nx_set_prev by auto).
  assert (pv s1 b < length (nodes s1))%nat as Bp1 by (rewrite E1; unfold s1; rewrite length_upd; auto).
  split; [|transitivity s1; apply agree_upd; by auto].
  constructor.
  - unfold s2. rewrite length_upd. unfold s1. rewrite length_upd. apply R.
  - done.
  - intros i Hi. apply R. rewrite elem_of_app, elem_of_cons in *. tauto.
  - apply (seg_remove (nx s) _ bhead l1 b l2); [apply R|done|]. intros i. unfold s2. rewrite nx_set_next by done.
    rewrite E1, E2, Hp. unfold s1. by rewrite nx_set_prev by auto.
  - rewrite rev_app_distr. apply (seg_remove (pv s) _ bhead (rev l2) b (rev l1)); [done| |].
    + rewrite <- rev_middle. by apply NoDup_head_rev.
    + intros i. unfold s2. rewrite pv_set_next by done. unfold s1. rewrite pv_set_prev by auto.
      by rewrite Hn, <- hd_rev_last, rev_involutive.
Qed.

(** [insert_front] *)
Lemma lring_insert s l b :
  lring s l → b ∉ l → (b < NBUF)%nat → ∃ s', insert_front b s = Ret tt s' ∧ lring s' (b :: l) ∧ agree s s'.
Proof.
  intros R Hb Hlt. pose proof (lr_nodup _ _ R) as Hnd. pose proof (lr_len _ _ R) as Hlen.
  assert (b ≠ bhead) as Hbh by (unfold bhead; lia).
  assert (∀ i, i ∈ bhead :: l → (i < length (nodes s))%nat) as Bnd by (intros i Hi; by apply (lring_bound s l)).
  pose proof (seg_first _ _ _ _ (lr_next _ _ R)) as Hn.
  assert (nx s bhead ∈ bhead :: l) as Hnin by (rewrite Hn; apply hd_in).
  set (s1 := upd b (set_next (nx s bhead)) s). set (s2 := upd b (set_prev bhead) s1).
  assert (nx s2 bhead = nx s bhead) as E2.
  { unfold s2. rewrite nx_set_prev by (unfold s1; rewrite length_upd; lia). unfold s1.
    rewrite nx_set_next by lia. by rewrite decide_False. }
  set (s3 := upd (nx s2 bhead) (set_prev b) s2). set (s4 := upd bhead (set_next b) s3).
  assert (length (nodes s1) = S NBUF ∧ length (nodes s2) = S NBUF ∧ length (nodes s3) = S NBUF) as (L1 & L2 & L3).
  { unfold s3, s2, s1. by rewrite !length_upd. }
  assert (nx s2 bhead < S NBUF)%nat as B2 by (rewrite E2, <- Hlen; auto).
  assert (∀ j, nx s4 j = if decide (j = bhead) then b else if decide (j = b) then nx s bhead else nx s j) as Hnx.
  { intros j. unfold s4. rewrite nx_set_next by (rewrite L3; unfold bhead; lia). unfold s3. rewrite nx_set_prev by lia.
    unfold s2. rewrite nx_set_prev by lia. unfold s1. by rewrite nx_set_next by lia. }
  assert (∀ j, pv s4 j = if decide (j = nx s bhead) then b else if decide (j = b) then bhead else pv s j) as Hpv.
  { intros j. unfold s4. rewrite pv_set_next by (rewrite L3; unfold bhead; lia). unfold s3. rewrite pv_set_prev, E2 by lia.
    unfold s2. rewrite pv_set_prev by lia. unfold s1. by rewrite pv_set_next by lia. }
  exists s4. split; [done|]. split.
  2:{ transitivity s1; [apply agree_upd; [done|lia]|]. transitivity s2; [apply agree_upd; [done|lia]|].
      transitivity s3; apply agree_upd; try done; [lia|]. rewrite L3. unfold bhead. lia. }
  apply NoDup_cons in Hnd as [Hh Hnd]. constructor.
  - unfold s4. by rewrite length_upd.
  - apply NoDup_cons. split; [|by apply NoDup_cons]. rewrite elem_of_cons. intros [?|?]; congruence.
  - intros i [->|Hi]%elem_of_cons; [done|by apply R].
  - split; [by rewrite Hnx, decide_True|]. apply (seg_start (nx s) _ bhead); [apply R| |].
    + rewrite Hnx. by rewrite decide_False, decide_True.
    + intros i Hi. rewrite Hnx, !decide_False; [done|congruence|congruence].
  - cbn [rev]. apply seg_app. split.
    + pose proof (lr_prev _ _ R) as Hp. destruct l as [|y l]; simpl in *.
      * rewrite Hpv, Hn. by rewrite decide_True.
      * apply seg_app in Hp as [Hp Hy]. apply seg_app. apply NoDup_cons in Hnd as [Hyl Hnd]. split.
        -- apply (seg_ext (pv s)); [|done]. intros i Hi. rewrite elem_of_cons, elem_of_rev in Hi. rewrite Hpv, !decide_False; [done| |].
           ++ intros ->. destruct Hi as [?|?]; [done|]. apply Hb. by right.
           ++ rewrite Hn. intros ->. destruct Hi as [E|?]; [|done]. apply Hh. rewrite E. by left.
        -- simpl. rewrite Hpv, Hn. by rewrite decide_True.
    + simpl. rewrite Hpv, decide_False, decide_True; [done|done|]. intros ->. apply elem_of_cons in Hnin as [?|?]; done.
Qed.

(** * Searching the list *)

Fixpoint first (p : nat → bool) (l : list nat) : option nat :=
  match l with
  | [] => None
  | x :: l => if p x then Some x else first p l
  end.

Lemma first_Some p l x : first p l = Some x → x ∈ l ∧ p x = true.
Proof.
  induction l as [|y l IH]; simpl; [done|]. destruct (p y) eqn:E; intros Hx.
  - simplify_eq. split; [by left|done].
  - destruct (IH Hx). split; [by right|done].
Qed.

Lemma first_None p l : first p l = None ↔ ∀ x, x ∈ l → p x = false.
Proof.
  induction l as [|y l IH]; simpl.
  - split; [|done]. intros _ x Hx. by apply elem_of_nil in Hx.
  - destruct (p y) eqn:E.
    + split; [done|]. intros Hx. rewrite Hx in E by left. done.
    + rewrite IH. split.
      * intros Hx x [->|Hin]%elem_of_cons; auto.
      * intros Hx x Hin. apply Hx. by right.
Qed.

(** Both searches of [bget] walk the ring and stop at the first match. *)
Lemma search_loop (f : bcache → nat → nat) (p : nat → bcache → bool) body s :
  (∀ b, body b s = if bool_decide (b = bhead) then Ret (inr None) s
                   else if p b s then Ret (inr (Some b)) s else Ret (inl (f s b)) s) →
  ∀ l y n, seg (f s) y l bhead → bhead ∉ l → (length l < n)%nat →
  loop n body (f s y) s = Ret (first (λ b, p b s) l) s.
Proof.
  intros Hbody l. induction l as [|x l IH]; intros y n Hs Hh Hn; (destruct n as [|n]; [simpl in Hn; lia|]); simpl in Hs.
  - rewrite Hs. rewrite (loop_done n body bhead None s s); [done|]. by rewrite Hbody.
  - destruct Hs as [-> Hs]. apply not_elem_of_cons in Hh as [Hx Hh]. simpl. destruct (p x s) eqn:Ep.
    + rewrite (loop_done n body x (Some x) s s); [done|]. rewrite Hbody, bool_decide_false by congruence. by rewrite Ep.
    + rewrite (loop_next n body x (f s x) s s).
      * apply IH; [done|done|simpl in Hn; lia].
      * rewrite Hbody, bool_decide_false by congruence. by rewrite Ep.
Qed.

Definition is_block (dev bno : Z) (i : nat) (s : bcache) : bool :=
  (bdev (node i s) =? dev) && (blockno (node i s) =? bno).
Definition is_free (i : nat) (s : bcache) : bool := refcnt (node i s) =? 0.

Lemma ring_lring s l : ring s l → lring s l.
Proof.
  intros R. assert (∀ i, i ∈ l → (i < NBUF)%nat) as Hlt.
  { intros i Hi. rewrite (rg_perm _ _ R) in Hi. apply elem_of_seq in Hi. lia. }
  constructor; [apply R| |done|apply R|apply R].
  apply NoDup_cons. split.
  - intros Hi%Hlt. unfold bhead in Hi. lia.
  - rewrite (rg_perm _ _ R). apply NoDup_seq.
Qed.

Lemma lring_ring s l : lring s l → l ≡ₚ seq 0 NBUF → ring s l.
Proof. intros R Hp. constructor; [apply R|done|apply R|apply R]. Qed.

Lemma ring_length s l : ring s l → length l = NBUF.
Proof. intros R. by rewrite (rg_perm _ _ R), length_seq. Qed.

Lemma elem_of_ring s l i : ring s l → i ∈ l ↔ (i < NBUF)%nat.
Proof. intros R. rewrite (rg_perm _ _ R), elem_of_seq. lia. Qed.

Lemma hit_search dev bno s l :
  ring s l → loop (S NBUF) (bget_hit dev bno) (bnext (node bhead s)) s = Ret (first (λ b, is_block dev bno b s) l) s.
Proof.
  intros R. pose proof (ring_lring s l R) as [_ [Hh _]%NoDup_cons _ _ _].
  apply (search_loop nx (is_block dev bno) (bget_hit dev bno) s); [|apply R|done|rewrite (ring_length s l R); lia].
  intros b. unfold bget_hit. msimpl. fold (is_block dev bno b s). by destruct (bool_decide _), (is_block dev bno b s).
Qed.

Lemma free_search s l :
  ring s l → loop (S NBUF) bget_free (bprev (node bhead s)) s = Ret (first (λ b, is_free b s) (rev l)) s.
Proof.
  intros R. pose proof (ring_lring s l R) as [_ [Hh _]%NoDup_cons _ _ _].
  apply (search_loop pv is_free bget_free s); [|apply R|by rewrite elem_of_rev|rewrite length_rev, (ring_length s l R); lia].
  intros b. unfold bget_free, is_free. msimpl. by destruct (bool_decide _), (refcnt (node b s) =? 0).
Qed.
