(* ===== verification/BioInv.v ===== *)
(** The buffer cache's invariant, and what each of its operations does in terms of the
    contents of blocks.  [view s b] is the content of block [b] as the kernel sees it: the
    cached copy if there is one, else the disk. *)

From S2P Require Import Prelude Sleeplock Bio.

Definition mem01 (P : gset Z) (b : Z) : Z := if decide (b ∈ P) then 1 else 0.

Section inv.
Context (pid : Z).

(** A buffer between calls, with the blocks [P] pinned and [L] held.  An unused buffer has
    device 0; one that is neither pinned nor held is clean. *)
Record buf_ok (d : Z → list Z) (P L : gset Z) (x : buf) : Prop := {
  bo_lk : lk (block x) = false;
  bo_dev : bdev x = ROOTDEV ∨ bdev x = 0;
  bo_valid : valid x = bool_decide (bdev x = ROOTDEV);
  bo_held : slocked (block x) = bool_decide (bdev x = ROOTDEV ∧ blockno x ∈ L);
  bo_pid : slocked (block x) = true → spid (block x) = pid;
  bo_ref : refcnt x = if bool_decide (bdev x = ROOTDEV) then mem01 P (blockno x) + mem01 L (blockno x) else 0;
  bo_len : Z.of_nat (length (bdata x)) = BSIZE;
  bo_clean : bdev x = ROOTDEV → blockno x ∉ P → blockno x ∉ L → bdata x = d (blockno x);
}.

(** Buffer [i] caches block [b]. *)
Definition cached (s : bcache) (b : Z) (i : nat) : Prop :=
  (i < NBUF)%nat ∧ bdev (node i s) = ROOTDEV ∧ blockno (node i s) = b.

Record bio_inv (s : bcache) (P L : gset Z) : Prop := {
  bi_lock : bc_lock s = false;
  bi_ring : ∃ l, ring s l;
  bi_disk : ∀ b, Z.of_nat (length (disk s b)) = BSIZE;
  bi_buf : ∀ i, (i < NBUF)%nat → buf_ok (disk s) P L (node i s);
  bi_uniq : ∀ b i j, cached s b i → cached s b j → i = j;
  bi_used : ∀ b, b ∈ P ∪ L → ∃ i, cached s b i;
}.

Definition find (s : bcache) (b : Z) : option nat := first (λ i, is_block ROOTDEV b i s) (seq 0 NBUF).

Definition view (s : bcache) (b : Z) : list Z :=
  match find s b with
  | Some i => bdata (node i s)
  | None => disk s b
  end.

Lemma is_block_true s b i : is_block ROOTDEV b i s = true ↔ bdev (node i s) = ROOTDEV ∧ blockno (node i s) = b.
Proof. unfold is_block. by rewrite andb_true_iff, !Z.eqb_eq. Qed.

Lemma find_Some s b i : find s b = Some i → cached s b i.
Proof.
  intros [Hi Hp]%first_Some. apply elem_of_seq in Hi. apply is_block_true in Hp. split; [lia|done].
Qed.

Lemma find_None s b : find s b = None ↔ ∀ i, ¬ cached s b i.
Proof.
  unfold find. rewrite first_None. split.
  - intros Hf i (Hi & Hb). assert (is_block ROOTDEV b i s = false) as E by (apply Hf, elem_of_seq; lia).
    apply is_block_true in Hb. congruence.
  - intros Hf i Hi. apply elem_of_seq in Hi. destruct (is_block ROOTDEV b i s) eqn:E; [|done].
    apply is_block_true in E. destruct (Hf i). split; [lia|done].
Qed.

Lemma view_cached s P L b i : bio_inv s P L → cached s b i → view s b = bdata (node i s).
Proof.
  intros I Hc. unfold view. destruct (find s b) as [j|] eqn:E.
  - apply find_Some in E. by rewrite (bi_uniq _ _ _ I b j i).
  - apply find_None with (i := i) in E. done.
Qed.

Lemma view_uncached s b : (∀ i, ¬ cached s b i) → view s b = disk s b.
Proof. intros Hn. unfold view. by rewrite (proj2 (find_None s b)). Qed.

Lemma view_length s P L b : bio_inv s P L → Z.of_nat (length (view s b)) = BSIZE.
Proof.
  intros I. unfold view. destruct (find s b) as [i|] eqn:E; [|apply I].
  apply find_Some in E as [Hi _]. by apply (bi_buf _ _ _ I i Hi).
Qed.

(** Blocks that are neither pinned nor held are the same on disk. *)
Lemma view_clean s P L b : bio_inv s P L → b ∉ P → b ∉ L → view s b = disk s b.
Proof.
  intros I Hp Hl. unfold view. destruct (find s b) as [i|] eqn:E; [|done].
  apply find_Some in E as (Hi & Hd & Hb). rewrite <- Hb in *. by apply (bi_buf _ _ _ I i Hi).
Qed.

(** The operations change one buffer, [i], which then caches [b]. *)
Record one_buf (s s' : bcache) (i : nat) (b : Z) : Prop := {
  ob_i : (i < NBUF)%nat;
  ob_lock : bc_lock s' = false;
  ob_ring : ∃ l, ring s' l;
  ob_other : ∀ j, j ≠ i → strip (node j s') = strip (node j s);
  ob_dev : bdev (node i s') = ROOTDEV;
  ob_bno : blockno (node i s') = b;
  ob_disk : ∀ c, c ≠ b → disk s' c = disk s c;
}.

Lemma strip_eq x y :
  strip x = strip y →
  valid x = valid y ∧ bdev x = bdev y ∧ blockno x = blockno y ∧ block x = block y ∧ refcnt x = refcnt y ∧ bdata x = bdata y.
Proof. unfold strip. destruct x, y. simpl. naive_solver. Qed.

Lemma buf_ok_strip d P L x y : strip x = strip y → buf_ok d P L y → buf_ok d P L x.
Proof.
  intros (E1 & E2 & E3 & E4 & E5 & E6)%strip_eq []. constructor; rewrite ?E1, ?E2, ?E3, ?E4, ?E5, ?E6; done.
Qed.

Lemma ob_same s s' i b j :
  one_buf s s' i b → j ≠ i → bdev (node j s') = bdev (node j s) ∧ blockno (node j s') = blockno (node j s) ∧
  bdata (node j s') = bdata (node j s).
Proof. intros O Hj. pose proof (strip_eq _ _ (ob_other _ _ _ _ O j Hj)). tauto. Qed.

(** The buffer was the one caching [b], or it was free and [b] was not cached. *)
Definition proper_slot (s : bcache) (i : nat) (b : Z) : Prop :=
  cached s b i ∨ (refcnt (node i s) = 0 ∧ ∀ j, ¬ cached s b j).

Lemma one_buf_other s s' i b c j : one_buf s s' i b → j ≠ i → cached s' c j ↔ cached s c j.
Proof. intros O Hj. unfold cached. by destruct (ob_same _ _ _ _ j O Hj) as (-> & -> & _). Qed.

Lemma one_buf_self s s' i b : one_buf s s' i b → cached s' b i.
Proof. intros O. split; [apply O|]. split; apply O. Qed.

Lemma proper_slot_ne s P L i b j : bio_inv s P L → proper_slot s i b → j ≠ i → ¬ cached s b j.
Proof. intros I [Hc|[_ Hn]] Hj Hcj; [by apply Hj, (bi_uniq _ _ _ I b)|by apply (Hn j)]. Qed.

Lemma bio_inv_one s s' P L P' L' i b :
  bio_inv s P L → one_buf s s' i b → proper_slot s i b →
  buf_ok (disk s') P' L' (node i s') → Z.of_nat (length (disk s' b)) = BSIZE →
  (∀ c, c ≠ b → (c ∈ P' ↔ c ∈ P) ∧ (c ∈ L' ↔ c ∈ L)) → bio_inv s' P' L'.
Proof.
  intros I O Hslot Hok Hlen Hset. constructor.
  - apply O.
  - apply O.
  - intros c. destruct (decide (c = b)) as [->|Hc]; [done|]. rewrite (ob_disk _ _ _ _ O c Hc). apply I.
  - intros j Hj. destruct (decide (j = i)) as [->|Hne]; [done|].
    apply (buf_ok_strip _ _ _ _ (node j s)); [by apply O|].
    pose proof (bi_buf _ _ _ I j Hj) as B. destruct (decide (bdev (node j s) = ROOTDEV)) as [Hd|Hd].
    + assert (blockno (node j s) ≠ b) as Hb.
      { intros E. by apply (proper_slot_ne s P L i b j I Hslot Hne). }
      destruct (Hset _ Hb) as [HP HL]. destruct B. constructor; try done.
      * rewrite bo_held0. apply bool_decide_ext. by rewrite HL.
      * rewrite bo_ref0. unfold mem01. by rewrite (decide_ext _ _ _ _ HP), (decide_ext _ _ _ _ HL).
      * intros _ ? ?. rewrite (ob_disk _ _ _ _ O) by done. apply bo_clean0; [done|by rewrite <- HP|by rewrite <- HL].
    + destruct B. constructor; try done.
      * rewrite bo_held0. rewrite !bool_decide_false; [done|tauto|tauto].
      * rewrite bo_ref0. by rewrite bool_decide_false.
  - intros c j k Hj Hk. destruct (decide (j = i)) as [->|Hji], (decide (k = i)) as [->|Hki]; try done.
    + assert (c = b) as -> by (destruct Hj as (_ & _ & Hb); rewrite <- Hb; apply O).
      rewrite (one_buf_other _ _ _ _ _ _ O Hki) in Hk. by destruct (proper_slot_ne s P L i b k I Hslot Hki).
    + assert (c = b) as -> by (destruct Hk as (_ & _ & Hb); rewrite <- Hb; apply O).
      rewrite (one_buf_other _ _ _ _ _ _ O Hji) in Hj. by destruct (proper_slot_ne s P L i b j I Hslot Hji).
    + rewrite (one_buf_other _ _ _ _ _ _ O Hji) in Hj. rewrite (one_buf_other _ _ _ _ _ _ O Hki) in Hk. by apply (bi_uniq _ _ _ I c).
  - intros c Hc. destruct (decide (c = b)) as [->|Hne]; [exists i; by eapply one_buf_self|].
    destruct (Hset c Hne) as [HP HL]. destruct (bi_used _ _ _ I c) as [j Hj].
    { apply elem_of_union. rewrite <- HP, <- HL. by apply elem_of_union. }
    exists j. destruct (decide (j = i)) as [->|Hji]; [|by rewrite (one_buf_other _ _ _ _ _ _ O)].
    destruct Hslot as [Hcb|[Hr Hnb]].
    + destruct Hj as (_ & _ & E1), Hcb as (_ & _ & E2). congruence.
    + exfalso. destruct Hj as (Hi & Hd & Hb). pose proof (bo_ref _ _ _ _ (bi_buf _ _ _ I i Hi)) as Er.
      rewrite Hr, bool_decide_true in Er by done. rewrite Hb in Er. unfold mem01 in Er.
      apply elem_of_union in Hc. rewrite HP, HL in Hc. destruct (decide (c ∈ P)), (decide (c ∈ L)); try lia; tauto.
Qed.

(** The other blocks look the same. *)
Lemma view_one s s' P L i b c :
  bio_inv s P L → one_buf s s' i b → proper_slot s i b → c ≠ b → view s' c = view s c.
Proof.
  intros I O Hslot Hc. unfold view. destruct (find s' c) as [j|] eqn:E'; destruct (find s c) as [k|] eqn:E.
  - apply find_Some in E', E. assert (j ≠ i) as Hj.
    { intros ->. destruct E' as (_ & _ & Eb). by rewrite (ob_bno _ _ _ _ O) in Eb. }
    rewrite (one_buf_other _ _ _ _ _ _ O Hj) in E'. rewrite (bi_uniq _ _ _ I c k j) by done. by apply (ob_same _ _ _ _ j O).
  - apply find_Some in E'. assert (j ≠ i) as Hj.
    { intros ->. destruct E' as (_ & _ & Eb). by rewrite (ob_bno _ _ _ _ O) in Eb. }
    rewrite (one_buf_other _ _ _ _ _ _ O Hj) in E'. by destruct (proj1 (find_None _ _) E j).
  - apply find_Some in E. destruct (decide (k = i)) as [->|Hk].
    + rewrite (ob_disk _ _ _ _ O c Hc). destruct E as (Hi & Hd & Hb). destruct Hslot as [(_ & _ & Eb)|[Hr _]]; [congruence|].
      pose proof (bi_buf _ _ _ I i Hi) as B. pose proof (bo_ref _ _ _ _ B) as Er.
      rewrite Hr, bool_decide_true in Er by done. unfold mem01 in Er. rewrite Hb in Er.
      rewrite <- Hb. symmetry. apply B; [done| |]; rewrite Hb; destruct (decide (c ∈ P)), (decide (c ∈ L)); lia || done.
    + rewrite <- (one_buf_other _ _ _ _ _ _ O Hk) in E. by destruct (proj1 (find_None _ _) E' k).
  - by apply O.
Qed.

(** * The operations *)

Definition keeps_links (f : buf → buf) : Prop := ∀ x, bprev (f x) = bprev x ∧ bnext (f x) = bnext x.

Lemma ring_same_links s s' l :
  length (nodes s') = length (nodes s) → (∀ i, bprev (node i s') = bprev (node i s) ∧ bnext (node i s') = bnext (node i s)) →
  ring s l → ring s' l.
Proof.
  intros Hl Hn R. constructor.
  - rewrite Hl. apply R.
  - apply R.
  - apply (seg_ext (nx s)); [|apply R]. intros i _. symmetry. apply Hn.
  - apply (seg_ext (pv s)); [|apply R]. intros i _. symmetry. apply Hn.
Qed.

Lemma ring_upd s l i f : keeps_links f → (i < NBUF)%nat → ring s l → ring (upd i f s) l.
Proof.
  intros Hf Hi R. apply (ring_same_links s); [apply length_upd| |done]. intros j.
  rewrite node_upd by (rewrite (rg_len _ _ R); lia). destruct (decide (j = i)) as [->|]; [apply Hf|done].
Qed.

Lemma inv_length s P L : bio_inv s P L → length (nodes s) = S NBUF.
Proof. intros I. destruct (bi_ring _ _ _ I) as [l R]. apply R. Qed.

(** Changing buffer [i] in place. *)
Lemma one_buf_upd s P L i f b :
  bio_inv s P L → (i < NBUF)%nat → keeps_links f → bdev (f (node i s)) = ROOTDEV → blockno (f (node i s)) = b →
  one_buf s (upd i f s) i b ∧ node i (upd i f s) = f (node i s).
Proof.
  intros I Hi Hf Hd Hb. pose proof (inv_length _ _ _ I) as Hlen.
  assert (∀ j, node j (upd i f s) = if decide (j = i) then f (node i s) else node j s) as Hn.
  { intros j. apply node_upd. lia. }
  assert (node i (upd i f s) = f (node i s)) as Ei by (by rewrite Hn, decide_True). split; [|done].
  constructor; try done.
  - apply I.
  - destruct (bi_ring _ _ _ I) as [l R]. exists l. by apply ring_upd.
  - intros j Hj. by rewrite Hn, decide_False.
  - by rewrite Ei.
  - by rewrite Ei.
Qed.

Lemma upd_upd i f g s : upd i f (upd i g s) = upd i (λ x, f (g x)) s.
Proof.
  unfold upd, set_nodes. simpl. f_equal. revert i. induction (nodes s) as [|x l IH]; intros i; [done|].
  destruct i as [|i]; [done|]. unfold alter in *. simpl. f_equal. apply IH.
Qed.

Lemma in_lock_ret {A} i (c : M sleeplock A) s a t : c (block (node i s)) = Ret a t → in_lock i c s = Ret a (upd i (set_block t) s).
Proof. intros E. unfold in_lock, zoom. by rewrite E. Qed.

(** What is cached is found; a free buffer is found unless all are in use. *)
Lemma hit_found s P L l b : bio_inv s P L → ring s l → first (λ i, is_block ROOTDEV b i s) l = find s b.
Proof.
  intros I R. destruct (first _ l) as [i|] eqn:E.
  - apply first_Some in E as [Hi%(elem_of_ring s l i R) Hp%is_block_true].
    destruct (find s b) as [j|] eqn:Ef.
    + apply find_Some in Ef. f_equal. symmetry. by apply (bi_uniq _ _ _ I b).
    + by destruct (proj1 (find_None _ _) Ef i).
  - symmetry. apply find_None. intros i (Hi & Hb). assert (is_block ROOTDEV b i s = false) as Ex.
    { rewrite first_None in E. apply E. by apply (elem_of_ring s l i R). }
    apply is_block_true in Hb. congruence.
Qed.

Lemma mem01_pos P b : 0 ≤ mem01 P b ≤ 1 ∧ (mem01 P b = 1 ↔ b ∈ P).
Proof. unfold mem01. by destruct (decide (b ∈ P)). Qed.

Lemma free_exists s P L l :
  bio_inv s P L → ring s l → (size (P ∪ L) < NBUF)%nat →
  ∃ i, first (λ i, is_free i s) (rev l) = Some i ∧ (i < NBUF)%nat ∧ refcnt (node i s) = 0.
Proof.
  intros I R Hsz. destruct (first _ (rev l)) as [i|] eqn:E.
  - apply first_Some in E as [Hi Hp]. rewrite elem_of_rev, (elem_of_ring s l i R) in Hi.
    exists i. split; [done|]. split; [done|]. by apply Z.eqb_eq.
  - exfalso. rewrite first_None in E.
    assert (∀ i, (i < NBUF)%nat → bdev (node i s) = ROOTDEV ∧ blockno (node i s) ∈ P ∪ L) as Hall.
    { intros i Hi. assert (is_free i s = false) as Ef by (apply E; by rewrite elem_of_rev, (elem_of_ring s l i R)).
      apply Z.eqb_neq in Ef. pose proof (bo_ref _ _ _ _ (bi_buf _ _ _ I i Hi)) as Er. rewrite Er in Ef.
      case_bool_decide as Hd; [|done]. split; [done|]. apply elem_of_union.
      unfold mem01 in Ef. destruct (decide (_ ∈ P)); [by left|]. destruct (decide (_ ∈ L)); [by right|done]. }
    set (bs := (λ i, blockno (node i s)) <$> seq 0 NBUF).
    assert (NoDup bs) as Hnd.
    { apply NoDup_fmap_2_strong; [|apply NoDup_seq]. intros i j Hi%elem_of_seq Hj%elem_of_seq Eb.
      apply (bi_uniq _ _ _ I (blockno (node i s))); (split; [lia|]); split; try done; apply Hall; lia. }
    assert (NBUF ≤ size (P ∪ L))%nat; [|lia].
    replace NBUF with (length bs) by (unfold bs; by rewrite length_fmap, length_seq).
    rewrite <- (size_list_to_set (C := gset Z) bs) by done. apply subseteq_size.
    intros b Hb%elem_of_list_to_set. unfold bs in Hb. apply list_elem_of_fmap in Hb as (i & -> & Hi%elem_of_seq).
    apply Hall. lia.
Qed.

(** Blocks in use stay where they are. *)
Lemma one_buf_keeps s s' P L i b c j :
  bio_inv s P L → one_buf s s' i b → proper_slot s i b → c ∈ P ∪ L → c ≠ b → cached s c j → cached s' c j.
Proof.
  intros I O Hslot Hc Hne Hj. destruct (decide (j = i)) as [->|Hji]; [|by rewrite (one_buf_other _ _ _ _ _ _ O)].
  exfalso. destruct Hj as (Hi & Hd & Hb). destruct Hslot as [(_ & _ & E)|[Hr _]]; [congruence|].
  pose proof (bo_ref _ _ _ _ (bi_buf _ _ _ I i Hi)) as Er. rewrite Hr, bool_decide_true in Er by done.
  rewrite Hb in Er. unfold mem01 in Er. apply elem_of_union in Hc.
  destruct (decide (c ∈ P)), (decide (c ∈ L)); try lia; tauto.
Qed.

(** What a call that works on block [b] through buffer [i] leaves: the sets, the contents
    and the writes to disk. *)
Record outcome (s s' : bcache) (P L P' L' : gset Z) (i : nat) (b : Z) : Prop := {
  oc_inv : bio_inv s' P' L';
  oc_cached : cached s' b i;
  oc_view : ∀ c, c ≠ b → view s' c = view s c;
  oc_keep : ∀ c j, c ∈ P ∪ L → c ≠ b → cached s c j → cached s' c j;
  oc_disk : ∀ c, c ≠ b → disk s' c = disk s c;
}.

Lemma outcome_one s s' P L P' L' i b :
  bio_inv s P L → one_buf s s' i b → proper_slot s i b →
  buf_ok (disk s') P' L' (node i s') → Z.of_nat (length (disk s' b)) = BSIZE →
  (∀ c, c ≠ b → (c ∈ P' ↔ c ∈ P) ∧ (c ∈ L' ↔ c ∈ L)) → outcome s s' P L P' L' i b.
Proof.
  intros I O Hslot Hok Hlen Hset. constructor.
  - by eapply bio_inv_one.
  - by eapply one_buf_self.
  - intros c Hc. by eapply view_one.
  - intros c j. by eapply one_buf_keeps.
  - intros c Hc. by apply O.
Qed.

(** When as many blocks are pinned or held as there are buffers, every buffer is in use. *)
Lemma all_in_use s P L :
  bio_inv s P L → size (P ∪ L) = NBUF →
  ∀ i, (i < NBUF)%nat → bdev (node i s) = ROOTDEV ∧ blockno (node i s) ∈ P ∪ L.
Proof.
  intros I Hsz. set (f := λ b, default 0%nat (find s b)).
  assert (∀ b, b ∈ P ∪ L → cached s b (f b)) as Hf.
  { intros b Hb. unfold f. destruct (find s b) as [i|] eqn:E; [by apply find_Some in E|].
    destruct (bi_used _ _ _ I b Hb) as [i Hi]. by destruct (proj1 (find_None s b) E i). }
  set (ix := f <$> elements (P ∪ L)).
  assert (NoDup ix) as Hnd.
  { apply NoDup_fmap_2_strong; [|apply NoDup_elements]. intros b c Hb Hc E. apply elem_of_elements in Hb, Hc.
    destruct (Hf b Hb) as (_ & _ & <-). destruct (Hf c Hc) as (_ & _ & <-). by rewrite E. }
  assert (ix ⊆ seq 0 NBUF) as Hsub.
  { intros i (b & -> & Hb%elem_of_elements)%list_elem_of_fmap. apply elem_of_seq. destruct (Hf b Hb). lia. }
  assert (ix ≡ₚ seq 0 NBUF) as Hp.
  { apply submseteq_length_Permutation; [by apply NoDup_submseteq|]. unfold ix. rewrite length_fmap, length_seq.
    unfold size, set_size in Hsz. simpl in Hsz. lia. }
  intros i Hi. assert (i ∈ ix) as Hin by (rewrite Hp; apply elem_of_seq; lia).
  apply list_elem_of_fmap in Hin as (b & -> & Hb%elem_of_elements). destruct (Hf b Hb) as (_ & Hd & Eb). by rewrite Eb.
Qed.

Section read.
Context (fuel : nat) (Hfuel : (0 < fuel)%nat).

Lemma bread_hit s P L b i :
  bio_inv s P L → find s b = Some i → b ∉ L →
  ∃ l, bread pid fuel ROOTDEV b s = Ret i (upd i (λ x, set_block l (set_refcnt (u32 (refcnt x + 1)) x)) s) ∧
    lk l = false ∧ slocked l = true ∧ spid l = pid.
Proof.
  intros I Hf Hb. destruct (bi_ring _ _ _ I) as [l R]. pose proof (find_Some _ _ _ Hf) as (Hi & Hd & Hbn).
  pose proof (bi_buf _ _ _ I i Hi) as B. pose proof (inv_length _ _ _ I) as Hlen.
  unfold bread, bget, acquire_bc. msimpl. rewrite (bi_lock _ _ _ I). msimpl.
  assert (ring (set_bc_lock true s) l) as R' by (by apply (ring_same_links s)).
  rewrite (hit_search ROOTDEV b (set_bc_lock true s) l R'). msimpl.
  change (first (λ i, is_block ROOTDEV b i (set_bc_lock true s)) l) with (first (λ i, is_block ROOTDEV b i s) l).
  rewrite (hit_found _ _ _ _ _ I R), Hf. unfold release_bc. simpl.
  set (s1 := upd i (λ x, set_refcnt (u32 (refcnt x + 1)) x) s).
  replace (set_bc_lock false _) with s1 by (unfold s1, upd, set_nodes, set_bc_lock; simpl; by rewrite (bi_lock _ _ _ I)).
  assert (node i s1 = set_refcnt (u32 (refcnt (node i s) + 1)) (node i s)) as E1.
  { unfold s1. rewrite node_upd by lia. by rewrite decide_True. }
  erewrite in_lock_ret.
  2:{ rewrite E1. simpl. apply acquiresleep_free; [apply B| |done]. rewrite (bo_held _ _ _ _ B).
      apply bool_decide_false. rewrite Hbn. tauto. }
  simpl. rewrite node_upd by (unfold s1; rewrite length_upd; lia). rewrite decide_True by done. rewrite E1. simpl.
  rewrite (bo_valid _ _ _ _ B), bool_decide_true by done. simpl. unfold s1. rewrite upd_upd.
  eexists. split; [done|]. done.
Qed.

Lemma bread_miss s P L b :
  bio_inv s P L → find s b = None → (size (P ∪ L) < NBUF)%nat →
  ∃ i l, bread pid fuel ROOTDEV b s =
      Ret i (upd i (λ x, Buf true ROOTDEV b l 1 (bprev x) (bnext x) (disk s b)) s) ∧
    (i < NBUF)%nat ∧ refcnt (node i s) = 0 ∧ lk l = false ∧ slocked l = true ∧ spid l = pid.
Proof.
  intros I Hf Hsz. destruct (bi_ring _ _ _ I) as [l R]. pose proof (inv_length _ _ _ I) as Hlen.
  destruct (free_exists _ _ _ _ I R Hsz) as (i & Hfree & Hi & Hr). pose proof (bi_buf _ _ _ I i Hi) as B.
  unfold bread, bget, acquire_bc. msimpl. rewrite (bi_lock _ _ _ I). msimpl.
  assert (ring (set_bc_lock true s) l) as R' by (by apply (ring_same_links s)).
  rewrite (hit_search ROOTDEV b (set_bc_lock true s) l R'). msimpl.
  change (first (λ i, is_block ROOTDEV b i (set_bc_lock true s)) l) with (first (λ i, is_block ROOTDEV b i s) l).
  rewrite (hit_found _ _ _ _ _ I R), Hf. msimpl.
  rewrite (free_search (set_bc_lock true s) l R'). msimpl.
  change (first (λ i, is_free i (set_bc_lock true s)) (rev l)) with (first (λ i, is_free i s) (rev l)). rewrite Hfree.
  unfold release_bc. simpl. set (f := λ x, Buf false ROOTDEV b (block x) 1 (bprev x) (bnext x) (bdata x)).
  replace (set_bc_lock false _) with (upd i f s) by (unfold upd, set_nodes, set_bc_lock; simpl; by rewrite (bi_lock _ _ _ I)).
  set (s1 := upd i f s).
  assert (node i s1 = f (node i s)) as E1 by (unfold s1; rewrite node_upd by lia; by rewrite decide_True).
  erewrite in_lock_ret.
  2:{ rewrite E1. simpl. apply acquiresleep_free; [apply B| |done]. rewrite (bo_held _ _ _ _ B).
      apply bool_decide_false. intros [Hd HL]. pose proof (bo_ref _ _ _ _ B) as Er.
      rewrite Hr, bool_decide_true in Er by done. unfold mem01 in Er. rewrite (decide_True (P := _ ∈ L)) in Er by done.
      destruct (decide _); lia. }
  simpl. rewrite node_upd by (unfold s1; rewrite length_upd; lia). rewrite decide_True by done. rewrite E1. simpl.
  unfold virtio_disk_rw, modify. simpl. unfold s1. rewrite node_upd by (rewrite length_upd; lia).
  rewrite decide_True by done. rewrite node_upd by lia. rewrite decide_True by done.
  rewrite !upd_upd. unfold f, set_valid, set_data, set_block. simpl. eexists i, _. split; [reflexivity|]. done.
Qed.

Lemma bread_ok s P L b :
  bio_inv s P L → b ∉ L → (b ∈ P ∨ size (P ∪ L) < NBUF)%nat →
  ∃ i s', bread pid fuel ROOTDEV b s = Ret i s' ∧ outcome s s' P L P ({[b]} ∪ L) i b ∧
    view s' b = view s b ∧ disk s' = disk s ∧ dtrace s' = dtrace s.
Proof.
  intros I Hb Hroom. destruct (find s b) as [i|] eqn:Ef.
  - destruct (bread_hit s P L b i I Ef Hb) as (l & E & Hl1 & Hl2 & Hl3). apply find_Some in Ef as Hc.
    pose proof Hc as (Hi & Hd & Hbn). pose proof (bi_buf _ _ _ I i Hi) as B.
    destruct (one_buf_upd s P L i (λ x, set_block l (set_refcnt (u32 (refcnt x + 1)) x)) b) as [O En]; try done.
    eexists i, _. split; [exact E|].
    assert (outcome s (upd i (λ x, set_block l (set_refcnt (u32 (refcnt x + 1)) x)) s) P L P ({[b]} ∪ L) i b) as OC.
    { apply outcome_one; [done|done|by left| |apply I|].
      - rewrite En. simpl. constructor; simpl; try apply B; try done.
        + rewrite Hl2. symmetry. apply bool_decide_true. rewrite Hbn. set_solver.
        + rewrite (bo_ref _ _ _ _ B), !bool_decide_true by done. rewrite Hbn. unfold mem01.
          rewrite (decide_False (P := b ∈ L)), (decide_True (P := b ∈ {[b]} ∪ L)) by set_solver.
          destruct (decide (b ∈ P)); reflexivity.
        + intros _ _ Hn. exfalso. apply Hn. rewrite Hbn. set_solver.
      - intros c Hne. split; [done|]. set_solver. }
    split; [done|]. split; [|done].
    rewrite (view_cached _ _ _ _ _ (oc_inv _ _ _ _ _ _ _ _ OC) (oc_cached _ _ _ _ _ _ _ _ OC)), En.
    by rewrite (view_cached _ _ _ _ _ I Hc).
  - pose proof (proj1 (find_None _ _) Ef) as Hn.
    assert (b ∉ P) as HbP by (intros HP; destruct (bi_used _ _ _ I b) as [i Hi]; [set_solver|by apply (Hn i)]).
    destruct Hroom as [?|Hsz]; [done|].
    destruct (bread_miss s P L b I Ef Hsz) as (i & l & E & Hi & Hr & Hl1 & Hl2 & Hl3).
    set (f := λ x, Buf true ROOTDEV b l 1 (bprev x) (bnext x) (disk s b)) in *.
    destruct (one_buf_upd s P L i f b) as [O En]; try done.
    eexists i, _. split; [exact E|].
    assert (outcome s (upd i f s) P L P ({[b]} ∪ L) i b) as OC.
    { apply outcome_one; [done|done|by right| |apply I|].
      - rewrite En. unfold f. constructor; simpl; try done.
        + by left.
        + rewrite Hl2. symmetry. apply bool_decide_true. set_solver.
        + unfold mem01. rewrite (decide_False (P := b ∈ P)), (decide_True (P := b ∈ {[b]} ∪ L)) by set_solver. done.
        + apply I.
      - intros c Hne. split; [done|]. set_solver. }
    split; [done|]. split; [|done].
    rewrite (view_cached _ _ _ _ _ (oc_inv _ _ _ _ _ _ _ _ OC) (oc_cached _ _ _ _ _ _ _ _ OC)), En.
    by rewrite (view_uncached s b Hn).
Qed.

End read.

Lemma held_buf s P L b i : bio_inv s P L → cached s b i → b ∈ L → holdingsleep pid (block (node i s)) = Ret true (block (node i s)).
Proof.
  intros I (Hi & Hd & Hb) HL. pose proof (bi_buf _ _ _ I i Hi) as B. rewrite holdingsleep_eq by apply B.
  assert (slocked (block (node i s)) = true) as E by (rewrite (bo_held _ _ _ _ B); apply bool_decide_true; by rewrite Hb).
  by rewrite E, (bo_pid _ _ _ _ B E), Z.eqb_refl.
Qed.

Lemma upd_block_id i s : (i < length (nodes s))%nat → upd i (set_block (block (node i s))) s = s.
Proof.
  intros Hi. unfold upd, set_nodes. destruct s as [bl ns d t]. simpl. f_equal. apply list_eq. intros j.
  destruct (decide (i = j)) as [->|Hne]; [|by rewrite list_lookup_alter_ne].
  rewrite list_lookup_alter_eq. simpl in Hi. destruct (lookup_lt_is_Some_2 ns j Hi) as [x E]. rewrite E. simpl. f_equal.
  unfold node. simpl. rewrite (list_lookup_total_correct _ _ _ E). by destruct x.
Qed.

(** Changing the data of a held buffer. *)
Lemma bset_ok s P L b i d :
  bio_inv s P L → cached s b i → b ∈ L → Z.of_nat (length d) = BSIZE →
  outcome s (upd i (set_data d) s) P L P L i b ∧ view (upd i (set_data d) s) b = d.
Proof.
  intros I Hc HL Hlen. pose proof Hc as (Hi & Hd & Hb). pose proof (bi_buf _ _ _ I i Hi) as B.
  destruct (one_buf_upd s P L i (set_data d) b) as [O En]; try done.
  assert (outcome s (upd i (set_data d) s) P L P L i b) as OC.
  { apply outcome_one; [done|done|by left| |apply I|done]. rewrite En. constructor; simpl; try apply B; try done.
    intros _ _ Hn. by rewrite Hb in Hn. }
  split; [done|]. by rewrite (view_cached _ _ _ _ _ (oc_inv _ _ _ _ _ _ _ _ OC) (oc_cached _ _ _ _ _ _ _ _ OC)), En.
Qed.

Lemma bwrite_ok s P L b i :
  bio_inv s P L → cached s b i → b ∈ L →
  ∃ s', bwrite pid i s = Ret tt s' ∧ outcome s s' P L P L i b ∧ view s' b = view s b ∧
    disk s' b = view s b ∧ dtrace s' = dtrace s ++ [(b, view s b)].
Proof.
  intros I Hc HL. pose proof Hc as (Hi & Hd & Hb). pose proof (bi_buf _ _ _ I i Hi) as B.
  pose proof (inv_length _ _ _ I) as Hlen. rewrite (view_cached _ _ _ _ _ I Hc).
  unfold bwrite. msimpl. erewrite in_lock_ret by (by eapply held_buf). cbn [res_bind].
  rewrite upd_block_id by lia. unfold virtio_disk_rw. eexists. split; [done|]. rewrite Hb.
  assert (one_buf s (Bcache (bc_lock s) (nodes s) (λ k, if k =? b then bdata (node i s) else disk s k)
     (dtrace s ++ [(b, bdata (node i s))])) i b) as O.
  { constructor; try done.
    - simpl. apply I.
    - destruct (bi_ring _ _ _ I) as [l R]. exists l. by apply (ring_same_links s).
    - intros c Hne. simpl. by rewrite (proj2 (Z.eqb_neq _ _)). }
  match goal with |- outcome _ ?s' _ _ _ _ _ _ ∧ _ => assert (outcome s s' P L P L i b) as OC end.
  { apply outcome_one; [exact I|exact O|by left| | |done].
    - unfold node. simpl. destruct B. constructor; try done. unfold node in *. intros ? ? Hn. by rewrite Hb in Hn.
    - simpl. rewrite Z.eqb_refl. apply B. }
  split; [done|]. split; [by apply (view_cached _ _ _ _ _ (oc_inv _ _ _ _ _ _ _ _ OC) (oc_cached _ _ _ _ _ _ _ _ OC))|].
  simpl. by rewrite Z.eqb_refl.
Qed.

(** Moving a buffer to the front only changes links. *)
Lemma move_front s l i :
  ring s l → (i < NBUF)%nat →
  ∃ s', (modify (λ s, upd (bnext (node i s)) (set_prev (bprev (node i s))) s);;
         modify (λ s, upd (bprev (node i s)) (set_next (bnext (node i s))) s);;
         insert_front i) s = Ret tt s' ∧ (∃ l', ring s' l') ∧ agree s s'.
Proof.
  intros R Hi. pose proof (proj2 (elem_of_ring s l i R) Hi) as Hin. apply list_elem_of_split in Hin as (l1 & l2 & ->).
  destruct (lring_unlink s l1 i l2 (ring_lring _ _ R)) as [R2 A2].
  msimpl. match goal with |- context [insert_front i ?x] => set (s2 := x) in * end.
  change (lring s2 (l1 ++ l2)) in R2. change (agree s s2) in A2.
  assert (i ∉ l1 ++ l2) as Hni.
  { pose proof (lr_nodup _ _ (ring_lring _ _ R)) as Hnd. apply NoDup_cons in Hnd as [_ Hnd].
    rewrite <- Permutation_middle in Hnd. by apply NoDup_cons in Hnd as [? _]. }
  destruct (lring_insert s2 (l1 ++ l2) i R2 Hni Hi) as (s3 & E3 & R3 & A3). exists s3. split; [done|]. split.
  - exists (i :: l1 ++ l2). apply lring_ring; [done|]. by rewrite Permutation_middle, (rg_perm _ _ R).
  - by etrans.
Qed.

Lemma agree_one_buf s s1 s2 i b : one_buf s s1 i b → agree s1 s2 → (∃ l, ring s2 l) → one_buf s s2 i b.
Proof.
  intros O A R. pose proof (strip_eq _ _ (ag_node _ _ A i)) as (_ & E2 & E3 & _). constructor; try apply O; try done.
  - rewrite (ag_lock _ _ A). apply O.
  - intros j Hj. rewrite (ag_node _ _ A). by apply O.
  - rewrite E2. apply O.
  - rewrite E3. apply O.
  - intros c Hc. rewrite (ag_disk _ _ A). by apply O.
Qed.

Lemma brelse_exec s P L b i :
  bio_inv s P L → cached s b i → b ∈ L →
  ∃ s1 s2 l, brelse pid i s = Ret tt s2 ∧ agree s1 s2 ∧ (∃ l', ring s2 l') ∧
    s1 = upd i (λ x, set_refcnt (u32 (refcnt x - 1)) (set_block l x)) s ∧ lk l = false ∧ slocked l = false.
Proof.
  intros I Hc HL. pose proof Hc as (Hi & Hd & Hb). pose proof (bi_buf _ _ _ I i Hi) as B.
  pose proof (inv_length _ _ _ I) as Hlen. destruct (bi_ring _ _ _ I) as [l R].
  unfold brelse. msimpl. erewrite in_lock_ret by (by eapply held_buf). cbn [res_bind]. rewrite upd_block_id by lia.
  erewrite in_lock_ret by (apply releasesleep_eq, B). cbn [res_bind].
  set (lk' := Sleeplock false false 0 _ _). unfold acquire_bc.
  assert (bc_lock (upd i (set_block lk') s) = false) as El by apply I. rewrite El. cbn [res_bind].
  set (s1 := upd i (λ x, set_refcnt (u32 (refcnt x - 1)) (set_block lk' x)) s).
  assert (upd i (λ x, set_refcnt (u32 (refcnt x - 1)) x) (set_bc_lock true (upd i (set_block lk') s)) = set_bc_lock true s1) as E1.
  { unfold s1. rewrite <- (upd_upd i (λ x, set_refcnt (u32 (refcnt x - 1)) x) (set_block lk')). done. }
  rewrite E1. assert (ring (set_bc_lock true s1) l) as R1.
  { apply (ring_same_links s1); try done. by apply ring_upd. }
  assert (bc_lock s1 = false) as El1 by apply I.
  destruct (refcnt (node i (set_bc_lock true s1)) =? 0).
  - destruct (move_front _ l i R1 Hi) as (s2 & E2 & [l' R2] & A2). msimpl. unfold mbind, M_bind, modify in E2. cbn [res_bind] in E2.
    rewrite E2. cbn [res_bind]. unfold release_bc. rewrite (ag_lock _ _ A2). cbn [bc_lock set_bc_lock].
    exists s1, (set_bc_lock false s2), lk'. split; [done|]. split; [|split; [|done]].
    + destruct A2. constructor; done.
    + exists l'. by apply (ring_same_links s2).
  - exists s1, s1, lk'. split; [|split; [done|split; [|done]]].
    + cbn [res_bind]. unfold mret, M_ret. cbn [res_bind]. unfold release_bc. cbn [bc_lock set_bc_lock].
      f_equal. unfold set_bc_lock. destruct s1. simpl in *. by subst.
    + exists l. by apply ring_upd.
Qed.

Lemma u32_01 x : 0 ≤ x ≤ 2 → u32 x = x.
Proof. intros. apply u32_id. lia. Qed.

Lemma brelse_ok s P L b i :
  bio_inv s P L → cached s b i → b ∈ L → (b ∈ P ∨ view s b = disk s b) →
  ∃ s', brelse pid i s = Ret tt s' ∧ outcome s s' P L P (L ∖ {[b]}) i b ∧ view s' b = view s b ∧
    disk s' = disk s ∧ dtrace s' = dtrace s.
Proof.
  intros I Hc HL Hclean. pose proof Hc as (Hi & Hd & Hb). pose proof (bi_buf _ _ _ I i Hi) as B.
  destruct (brelse_exec s P L b i I Hc HL) as (s1 & s2 & l & E & A & R & Es1 & Hl1 & Hl2).
  destruct (one_buf_upd s P L i (λ x, set_refcnt (u32 (refcnt x - 1)) (set_block l x)) b) as [O En]; try done.
  rewrite <- Es1 in O, En. pose proof (agree_one_buf _ _ _ _ _ O A R) as O2.
  assert (disk s2 = disk s) as Ed by (by rewrite (ag_disk _ _ A), Es1).
  assert (outcome s s2 P L P (L ∖ {[b]}) i b) as OC.
  { apply outcome_one; [done|done|by left| | |].
    - apply (buf_ok_strip _ _ _ _ (node i s1)); [apply A|]. rewrite En, Ed. constructor; simpl; try apply B; try done.
      + rewrite Hl2. symmetry. apply bool_decide_false. rewrite Hb. set_solver.
      + rewrite Hl2. done.
      + rewrite (bo_ref _ _ _ _ B), !bool_decide_true by done. rewrite Hb. unfold mem01.
        rewrite (decide_True (P := b ∈ L)), (decide_False (P := b ∈ L ∖ {[b]})) by set_solver.
        destruct (decide (b ∈ P)); reflexivity.
      + rewrite Hb. intros _ HnP _. destruct Hclean as [?|Hv]; [done|].
        by rewrite <- (view_cached _ _ _ _ _ I Hc).
    - rewrite Ed. apply I.
    - intros c Hne. split; [done|]. set_solver. }
  exists s2. split; [done|]. split; [done|]. split; [|split; [done|by rewrite (ag_trace _ _ A), Es1]].
  rewrite (view_cached _ _ _ _ _ (oc_inv _ _ _ _ _ _ _ _ OC) (oc_cached _ _ _ _ _ _ _ _ OC)), (view_cached _ _ _ _ _ I Hc).
  pose proof (strip_eq _ _ (ag_node _ _ A i)) as (_ & _ & _ & _ & _ & ->). by rewrite En.
Qed.

(** Changing the pin count of a held buffer. *)
Lemma repin_ok s P P' L b i r :
  bio_inv s P L → cached s b i → b ∈ L → (∀ c, c ≠ b → c ∈ P' ↔ c ∈ P) →
  (∀ x, refcnt x = mem01 P b + 1 → r x = mem01 P' b + 1) →
  let s' := upd i (λ x, set_refcnt (r x) x) s in
  outcome s s' P L P' L i b ∧ view s' b = view s b ∧ disk s' = disk s ∧ dtrace s' = dtrace s.
Proof.
  intros I Hc HL HP Hr s'. pose proof Hc as (Hi & Hd & Hb). pose proof (bi_buf _ _ _ I i Hi) as B.
  destruct (one_buf_upd s P L i (λ x, set_refcnt (r x) x) b) as [O En]; try done.
  assert (outcome s s' P L P' L i b) as OC.
  { apply outcome_one; [done|done|by left| |apply I|].
    - unfold s'. rewrite En. constructor; simpl; try apply B; try done.
      + pose proof (bo_ref _ _ _ _ B) as Er. rewrite !bool_decide_true in * by done. rewrite Hb in *.
        unfold mem01 in Er at 2. unfold mem01 at 2. rewrite (decide_True (P := b ∈ L)) in * by done. by apply Hr.
      + intros _ _ Hn. by rewrite Hb in Hn.
    - intros c Hne. split; [by apply HP|done]. }
  split; [done|]. split; [|done].
  rewrite (view_cached _ _ _ _ _ (oc_inv _ _ _ _ _ _ _ _ OC) (oc_cached _ _ _ _ _ _ _ _ OC)), (view_cached _ _ _ _ _ I Hc).
  unfold s'. by rewrite En.
Qed.

Lemma set_bc_lock_upd i f s :
  bc_lock s = false → set_bc_lock false (upd i f (set_bc_lock true s)) = upd i f s.
Proof. destruct s. simpl. by intros ->. Qed.

Lemma bpin_ok s P L b i :
  bio_inv s P L → cached s b i → b ∈ L → b ∉ P →
  ∃ s', bpin i s = Ret tt s' ∧ outcome s s' P L ({[b]} ∪ P) L i b ∧ view s' b = view s b ∧ disk s' = disk s ∧ dtrace s' = dtrace s.
Proof.
  intros I Hc HL HP. unfold bpin, acquire_bc, release_bc. msimpl. rewrite (bi_lock _ _ _ I). simpl.
  rewrite set_bc_lock_upd by apply I. eexists. split; [done|].
  apply repin_ok; [done|done|done|set_solver|]. intros x ->. unfold mem01.
  rewrite (decide_False (P := b ∈ P)), (decide_True (P := b ∈ {[b]} ∪ P)) by set_solver. done.
Qed.

Lemma bunpin_ok s P L b i :
  bio_inv s P L → cached s b i → b ∈ L → b ∈ P →
  ∃ s', bunpin i s = Ret tt s' ∧ outcome s s' P L (P ∖ {[b]}) L i b ∧ view s' b = view s b ∧ disk s' = disk s ∧ dtrace s' = dtrace s.
Proof.
  intros I Hc HL HP. unfold bunpin, acquire_bc, release_bc. msimpl. rewrite (bi_lock _ _ _ I). simpl.
  rewrite set_bc_lock_upd by apply I. eexists. split; [done|].
  apply repin_ok; [done|done|done|set_solver|]. intros x ->. unfold mem01.
  rewrite (decide_True (P := b ∈ P)), (decide_False (P := b ∈ P ∖ {[b]})) by set_solver. done.
Qed.
End inv.

(** * Initialisation *)

(** The cache in zeroed memory. *)
Definition boot_cache (d : Z → list Z) : bcache :=
  Bcache false (replicate (S NBUF) (Buf false 0 0 initsleeplock 0 0 0 (replicate (Z.to_nat BSIZE) 0))) d [].

Lemma binit_body_eq b s :
  (b < length (nodes s))%nat → binit_body b s = insert_front b (upd b (set_block initsleeplock) s).
Proof.
  intros Hb. unfold binit_body, insert_front. msimpl.
  assert (bnext (node bhead (upd b (set_block initsleeplock) s)) = bnext (node bhead s)) as E.
  { rewrite node_upd by done. by destruct (decide (bhead = b)) as [<-|]. }
  rewrite E, !upd_upd. done.
Qed.

Record building (s0 : bcache) (k : nat) (s : bcache) : Prop := {
  bu_k : (k ≤ NBUF)%nat;
  bu_ring : lring s (rev (seq 0 k));
  bu_lock : bc_lock s = false;
  bu_disk : disk s = disk s0;
  bu_trace : dtrace s = dtrace s0;
  bu_node : ∀ i, (i < NBUF)%nat →
    strip (node i s) = strip (if decide (i < k)%nat then set_block initsleeplock (node i s0) else node i s0);
}.

Lemma lring_upd_block s l i t : lring s l → (i < NBUF)%nat → lring (upd i (set_block t) s) l.
Proof.
  intros R Hi. pose proof (lr_len _ _ R) as Hl.
  assert (∀ j, nx (upd i (set_block t) s) j = nx s j ∧ pv (upd i (set_block t) s) j = pv s j) as Hn.
  { intros j. unfold nx, pv. rewrite node_upd by lia. by destruct (decide (j = i)) as [->|]. }
  constructor; try apply R.
  - by rewrite length_upd.
  - apply (seg_ext (nx s)); [|apply R]. intros j _. by destruct (Hn j).
  - apply (seg_ext (pv s)); [|apply R]. intros j _. by destruct (Hn j).
Qed.

Lemma building_step s0 k s :
  building s0 k s → (k < NBUF)%nat → ∃ s', binit_body k s = Ret tt s' ∧ building s0 (S k) s'.
Proof.
  intros B Hk. pose proof (lr_len _ _ (bu_ring _ _ _ B)) as Hl. rewrite binit_body_eq by lia.
  assert (lring (upd k (set_block initsleeplock) s) (rev (seq 0 k))) as R by (apply lring_upd_block; [apply B|done]).
  destruct (lring_insert _ _ k R) as (s' & E & R' & A); [|done|].
  { rewrite elem_of_rev, elem_of_seq. lia. }
  exists s'. split; [done|]. constructor.
  - done.
  - rewrite seq_S, rev_app_distr. done.
  - rewrite (ag_lock _ _ A). apply B.
  - rewrite (ag_disk _ _ A). apply B.
  - rewrite (ag_trace _ _ A). apply B.
  - intros i Hi. rewrite (ag_node _ _ A), node_upd by lia.
    pose proof (bu_node _ _ _ B i Hi) as Hn. destruct (decide (i = k)) as [->|Hne].
    + rewrite decide_False in Hn by lia. rewrite decide_True by lia. apply strip_eq in Hn as (?&?&?&?&?&?).
      unfold strip, set_block, set_next, set_prev. simpl. congruence.
    + rewrite Hn. destruct (decide (i < k)%nat), (decide (i < S k)%nat); lia || done.
Qed.

Lemma building_loop s0 m : ∀ k s fuel, building s0 k s → (NBUF - k = m)%nat → (m < fuel)%nat →
  ∃ s', loop fuel binit_loop k s = Ret tt s' ∧ building s0 NBUF s'.
Proof.
  induction m as [|m IH]; intros k s fuel B Hm Hf; (destruct fuel as [|fuel]; [lia|]); pose proof (bu_k _ _ _ B).
  - exists s. replace k with NBUF in * by lia. split; [|done]. apply loop_done. unfold binit_loop. by rewrite bool_decide_false by lia.
  - destruct (building_step s0 k s B ltac:(lia)) as (s1 & E1 & B1).
    rewrite (loop_next _ _ _ (S k) _ s1); [apply IH; [done|lia|lia]|].
    unfold binit_loop. rewrite bool_decide_true by lia. unfold mbind, M_bind. by rewrite E1.
Qed.

Lemma node_boot d i : (i ≤ NBUF)%nat → node i (boot_cache d) = Buf false 0 0 initsleeplock 0 0 0 (replicate (Z.to_nat BSIZE) 0).
Proof.
  intros Hi. unfold node, boot_cache. cbn [nodes]. apply list_lookup_total_correct. apply lookup_replicate. split; [done|lia].
Qed.

Lemma binit_ok pid d :
  (∀ b, Z.of_nat (length (d b)) = BSIZE) →
  ∃ s, binit (boot_cache d) = Ret tt s ∧ bio_inv pid s ∅ ∅ ∧ disk s = d ∧ dtrace s = [].
Proof.
  intros Hd. unfold binit. msimpl.
  set (s1 := upd bhead (set_next bhead) _).
  assert (building s1 0 s1) as B0.
  { assert (length (nodes (boot_cache d)) = S NBUF) as Hl by (cbn [nodes boot_cache]; apply length_replicate).
    assert (nx s1 bhead = bhead ∧ pv s1 bhead = bhead) as [Hn Hp].
    { unfold s1. rewrite nx_set_next, pv_set_next by (rewrite length_upd; change (nodes (set_bc_lock false (boot_cache d))) with (nodes (boot_cache d)); rewrite Hl; unfold bhead; lia).
      rewrite pv_set_prev by (change (nodes (set_bc_lock false (boot_cache d))) with (nodes (boot_cache d)); rewrite Hl; unfold bhead; lia).
      done. }
    constructor; try done; [lia|]. constructor; try done.
    - by apply NoDup_singleton.
    - intros i Hi. by apply elem_of_nil in Hi. }
  destruct (building_loop s1 NBUF 0 s1 (S NBUF) B0) as (s & E & B); [lia|lia|].
  exists s. split; [done|].
  assert (∀ i, (i < NBUF)%nat → strip (node i s) = Buf false 0 0 initsleeplock 0 0 0 (replicate (Z.to_nat BSIZE) 0)) as Hs.
  { intros i Hi. rewrite (bu_node _ _ _ B i Hi), decide_True by lia.
    assert (node i s1 = node i (boot_cache d)) as ->.
    { unfold s1. rewrite node_upd, decide_False; [|unfold bhead; lia|].
      - rewrite node_upd, decide_False; [done|unfold bhead; lia|]. cbn [nodes set_bc_lock set_nodes boot_cache].
        rewrite length_replicate. unfold bhead. lia.
      - rewrite length_upd. cbn [nodes set_bc_lock set_nodes boot_cache]. rewrite length_replicate. unfold bhead. lia. }
    by rewrite node_boot by lia. }
  split; [|split; [by rewrite (bu_disk _ _ _ B)|by rewrite (bu_trace _ _ _ B)]].
  assert (∀ b i, ¬ cached s b i) as Hnc.
  { intros b i (Hi & Hdev & _). apply Hs in Hi. apply (f_equal bdev) in Hi. cbn [bdev strip set_prev set_next] in Hi.
    rewrite Hdev in Hi. done. }
  constructor.
  - apply B.
  - exists (rev (seq 0 NBUF)). apply lring_ring; [apply B|]. symmetry. apply Permutation_rev.
  - intros b. by rewrite (bu_disk _ _ _ B).
  - intros i Hi. eapply (buf_ok_strip _ _ _ _ _ (Buf false 0 0 initsleeplock 0 0 0 (replicate (Z.to_nat BSIZE) 0))).
    + by rewrite (Hs i Hi).
    + constructor; try done. by right.
  - intros b i j Hc. by destruct (Hnc b i).
  - intros b [Hb|Hb]%elem_of_union; by apply not_elem_of_empty in Hb.
Qed.

(** * The properties of the buffer cache *)

(** C12. The cache is coherent.  With at most 29 other blocks pinned or held (or the block
    itself pinned), [bread] returns a buffer of its own block, locked by the caller and
    holding the block's current contents, and the invariant holds again; recycling the
    least recently used buffer changes the contents of no block and writes nothing to
    disk.  Storing [x] in the buffer, [bwrite] and [brelse] then make [x] the contents of
    that block, in the cache and on disk, and leave every other block alone. *)
Theorem bread_bwrite_coherent pid fuel s P L b x :
  (0 < fuel)%nat → bio_inv pid s P L → b ∉ L → (b ∈ P ∨ size (P ∪ L) < NBUF)%nat → Z.of_nat (length x) = BSIZE →
  ∃ i s1,
    bread pid fuel ROOTDEV b s = Ret i s1 ∧ bio_inv pid s1 P ({[b]} ∪ L) ∧ cached s1 b i ∧
    bdata (node i s1) = view s b ∧ (∀ c, view s1 c = view s c) ∧ disk s1 = disk s ∧
    ∃ s2 s3,
      bwrite pid i (upd i (set_data x) s1) = Ret tt s2 ∧ brelse pid i s2 = Ret tt s3 ∧ bio_inv pid s3 P L ∧
      view s3 b = x ∧ disk s3 b = x ∧ ∀ c, c ≠ b → view s3 c = view s c ∧ disk s3 c = disk s c.
Proof.
  intros Hf I HL Hroom Hx. destruct (bread_ok pid fuel Hf s P L b I HL Hroom) as (i & s1 & E1 & O1 & V1 & D1 & _).
  pose proof (oc_inv _ _ _ _ _ _ _ _ _ O1) as I1. pose proof (oc_cached _ _ _ _ _ _ _ _ _ O1) as C1.
  exists i, s1. split; [done|]. split; [done|]. split; [done|]. split; [|split; [|split; [done|]]].
  { by rewrite <- (view_cached _ _ _ _ _ _ I1 C1). }
  { intros c. destruct (decide (c = b)) as [->|Hc]; [done|by apply O1]. }
  destruct (bset_ok pid s1 _ _ b i x I1 C1 ltac:(set_solver) Hx) as [O2 V2]. set (s1' := upd i (set_data x) s1) in *.
  destruct (bwrite_ok pid s1' _ _ b i (oc_inv _ _ _ _ _ _ _ _ _ O2) (oc_cached _ _ _ _ _ _ _ _ _ O2)) as (s2 & E2 & O3 & V3 & D3 & _); [set_solver|].
  rewrite V2 in V3, D3.
  destruct (brelse_ok pid s2 _ _ b i (oc_inv _ _ _ _ _ _ _ _ _ O3) (oc_cached _ _ _ _ _ _ _ _ _ O3)) as (s3 & E3 & O4 & V4 & D4 & _); [set_solver|right; congruence|].
  exists s2, s3. split; [done|]. split; [done|]. split.
  { replace L with (({[b]} ∪ L) ∖ {[b]}) at 1 by set_solver. apply O4. }
  split; [congruence|]. split; [congruence|]. intros c Hc. split.
  - rewrite (oc_view _ _ _ _ _ _ _ _ _ O4 c Hc), (oc_view _ _ _ _ _ _ _ _ _ O3 c Hc), (oc_view _ _ _ _ _ _ _ _ _ O2 c Hc).
    apply O1. done.
  - rewrite D4, (oc_disk _ _ _ _ _ _ _ _ _ O3 c Hc). by rewrite (oc_disk _ _ _ _ _ _ _ _ _ O2 c Hc), D1.
Qed.

(** Block 7 of a zeroed disk, on a freshly initialised cache. *)
Lemma bread_bwrite_coherent_witness :
  ∃ s i s1 s2 s3, binit (boot_cache (λ _, replicate 1024 0)) = Ret tt s ∧
    bread 1 1 ROOTDEV 7 s = Ret i s1 ∧ bdata (node i s1) = replicate 1024 0 ∧
    bwrite 1 i (upd i (set_data (replicate 1024 9)) s1) = Ret tt s2 ∧ brelse 1 i s2 = Ret tt s3 ∧ disk s3 7 = replicate 1024 9.
Proof.
  destruct (binit_ok 1 (λ _, replicate 1024 0)) as (s & E & I & D & _); [intros b; reflexivity|].
  destruct (bread_bwrite_coherent 1 1 s ∅ ∅ 7 (replicate 1024 9)) as (i & s1 & E1 & _ & _ & Hd & _ & _ & s2 & s3 & E2 & E3 & _ & _ & D3 & _).
  - lia.
  - exact I.
  - apply not_elem_of_empty.
  - right. rewrite union_empty_l_L, size_empty. unfold NBUF. lia.
  - reflexivity.
  - exists s, i, s1, s2, s3. rewrite (view_clean 1 s ∅ ∅ 7 I), D in Hd; [|apply not_elem_of_empty|apply not_elem_of_empty].
    repeat (split; [eassumption|]). exact D3.
Defined.

(** When every buffer is in use and none holds the block, [bget] panics. *)
Theorem bget_exhausted pid fuel s P L b :
  bio_inv pid s P L → size (P ∪ L) = NBUF → b ∉ P ∪ L → bread pid fuel ROOTDEV b s = Panic "bget: no buffers".
Proof.
  intros I Hsz Hb. destruct (bi_ring _ _ _ _ I) as [l R].
  assert (∀ i, (i < NBUF)%nat → bdev (node i s) = ROOTDEV ∧ blockno (node i s) ∈ P ∪ L) as Hall by (by apply (all_in_use pid)).
  assert (find s b = None) as Ef.
  { apply find_None. intros i (Hi & _ & Eb). apply Hb. rewrite <- Eb. by apply Hall. }
  assert (first (λ i, is_free i s) (rev l) = None) as Efree.
  { apply first_None. intros i Hi. rewrite elem_of_rev, (elem_of_ring s l i R) in Hi. apply Z.eqb_neq.
    destruct (Hall i Hi) as [Hd Hin]. rewrite (bo_ref _ _ _ _ _ (bi_buf _ _ _ _ I i Hi)), bool_decide_true by done.
    unfold mem01. apply elem_of_union in Hin. destruct (decide (_ ∈ P)), (decide (_ ∈ L)); try lia; tauto. }
  unfold bread, bget, acquire_bc. msimpl. rewrite (bi_lock _ _ _ _ I). msimpl.
  assert (ring (set_bc_lock true s) l) as R' by (by apply (ring_same_links s)).
  rewrite (hit_search ROOTDEV b (set_bc_lock true s) l R'). msimpl.
  change (first (λ i, is_block ROOTDEV b i (set_bc_lock true s)) l) with (first (λ i, is_block ROOTDEV b i s) l).
  rewrite (hit_found _ _ _ _ _ _ I R), Ef. msimpl. rewrite (free_search (set_bc_lock true s) l R'). msimpl.
  change (first (λ i, is_free i (set_bc_lock true s)) (rev l)) with (first (λ i, is_free i s) (rev l)). by rewrite Efree.
Qed.

Definition first_blocks (k : nat) : list Z := Z.of_nat <$> seq 0 k.

Lemma size_first_blocks k : size (∅ ∪ list_to_set (C := gset Z) (first_blocks k)) = k.
Proof.
  rewrite union_empty_l_L, size_list_to_set; unfold first_blocks.
  - by rewrite length_fmap, length_seq.
  - apply NoDup_fmap_2; [apply _|apply NoDup_seq].
Qed.

Lemma first_blocks_bound k b : b ∈ list_to_set (C := gset Z) (first_blocks k) → 0 ≤ b < Z.of_nat k.
Proof. intros (n & -> & Hn%elem_of_seq)%elem_of_list_to_set%list_elem_of_fmap. lia. Qed.

(** Holding [k] blocks at once. *)
Lemma hold_blocks k : (k ≤ NBUF)%nat → ∃ s, bio_inv 1 s ∅ (list_to_set (first_blocks k)).
Proof.
  induction k as [|k IH]; intros Hk.
  - destruct (binit_ok 1 (λ _, replicate 1024 0)) as (s & _ & I & _); [done|]. by exists s.
  - destruct (IH ltac:(lia)) as [s I].
    destruct (bread_ok 1 1 ltac:(lia) s ∅ (list_to_set (first_blocks k)) (Z.of_nat k) I) as (i & s' & _ & O & _).
    + intros Hin%first_blocks_bound. lia.
    + right. rewrite size_first_blocks. lia.
    + exists s'. replace (list_to_set (C := gset Z) (first_blocks (S k))) with ({[Z.of_nat k]} ∪ list_to_set (C := gset Z) (first_blocks k)); [apply O|].
      unfold first_blocks. rewrite seq_S, fmap_app, list_to_set_app_L. simpl. set_solver.
Qed.

Lemma bget_exhausted_witness :
  ∃ s, bio_inv 1 s ∅ (list_to_set (first_blocks NBUF)) ∧ bread 1 1 ROOTDEV 100 s = Panic "bget: no buffers".
Proof.
  destruct (hold_blocks NBUF ltac:(lia)) as [s I]. exists s. split; [exact I|].
  apply (bget_exhausted 1 1 s ∅ (list_to_set (first_blocks NBUF)) 100 I (size_first_blocks NBUF)).
  intros Hin. rewrite union_empty_l_L in Hin. apply first_blocks_bound in Hin. unfold NBUF in Hin. lia.
Defined.
