(* ===== verification/Log.v ===== *)
(** The write-ahead log, kernel/log.c.

    A transaction's blocks are kept pinned in the buffer cache.  [commit] writes them to the
    log area, writes the header (the commit point), copies them to their home locations, and
    clears the header; [recover_from_log] at boot redoes the copying if the header says so.
    The header block is an integer [n] and up to [LOGSIZE] block numbers, little-endian. *)

From S2P Require Import Prelude Sleeplock Bytes Bio.

Definition MAXOPBLOCKS : Z := 10.
Definition LOGSIZE : Z := MAXOPBLOCKS * 3.

Record log_state := LogState {
  bio : bcache;
  llock : bool;
  lstart : Z;
  lsize : Z;
  outstanding : Z;
  committing : bool;
  ldev : Z;
  lh_n : Z;
  lh_block : list Z;
  lwoken : list chan;
}.

Definition set_bio b s := LogState b (llock s) (lstart s) (lsize s) (outstanding s) (committing s) (ldev s) (lh_n s) (lh_block s) (lwoken s).
Definition set_llock x s := LogState (bio s) x (lstart s) (lsize s) (outstanding s) (committing s) (ldev s) (lh_n s) (lh_block s) (lwoken s).
Definition set_outstanding x s := LogState (bio s) (llock s) (lstart s) (lsize s) x (committing s) (ldev s) (lh_n s) (lh_block s) (lwoken s).
Definition set_committing x s := LogState (bio s) (llock s) (lstart s) (lsize s) (outstanding s) x (ldev s) (lh_n s) (lh_block s) (lwoken s).
Definition set_n x s := LogState (bio s) (llock s) (lstart s) (lsize s) (outstanding s) (committing s) (ldev s) x (lh_block s) (lwoken s).
Definition set_blocks x s := LogState (bio s) (llock s) (lstart s) (lsize s) (outstanding s) (committing s) (ldev s) (lh_n s) x (lwoken s).
Definition set_lwoken x s := LogState (bio s) (llock s) (lstart s) (lsize s) (outstanding s) (committing s) (ldev s) (lh_n s) (lh_block s) x.
Definition set_area st sz dv s := LogState (bio s) (llock s) st sz (outstanding s) (committing s) dv (lh_n s) (lh_block s) (lwoken s).

Definition on_bio {A} (c : M bcache A) : M log_state A := zoom set_bio bio c.

(** [b->data], read and written. *)
Definition buf_data (b : nat) (s : log_state) : list Z := bdata (node b (bio s)).
Definition store_data (b : nat) (d : list Z) (s : log_state) : log_state := set_bio (upd b (set_data d) (bio s)) s.

(** Offsets in the header block. *)
Definition hdr_block (i : Z) : nat := (4 + 4 * Z.to_nat i)%nat.

Definition acquire_l : M log_state unit := λ s, if llock s then Panic "acquire" else Ret tt (set_llock true s).
Definition release_l : M log_state unit := λ s, if llock s then Ret tt (set_llock false s) else Panic "release".
Definition sleep_l : M log_state unit := release_l;; sleep_on ChLog;; acquire_l.
Definition wakeup_l : M log_state unit := modify (λ s, set_lwoken (ChLog :: lwoken s) s).

(** [log.lh.block[i]] *)
Definition block_at (i : Z) (s : log_state) : Z := nth (Z.to_nat i) (lh_block s) 0.

Section log.
Context (pid : Z) (fuel : nat).

Definition lread (b : Z) : M log_state nat := s ← get; on_bio (bread pid fuel (ldev s) (u32 b)).

Definition install_body (recovering : bool) (tail : Z) : M log_state (Z + unit) :=
  s ← get;
  if tail <? lh_n s then
    lbuf ← lread (lstart s + tail + 1);
    dbuf ← lread (block_at tail s);
    modify (λ s, store_data dbuf (buf_data lbuf s) s);;
    on_bio (bwrite pid dbuf);;
    when (negb recovering) (on_bio (bunpin dbuf));;
    on_bio (brelse pid lbuf);;
    on_bio (brelse pid dbuf);;
    mret (inl (tail + 1))
  else mret (inr tt).

Definition install_trans (recovering : bool) : M log_state unit :=
  s ← get;
  loop (S (Z.to_nat (lh_n s))) (install_body recovering) 0.

Definition read_head_body (b : nat) (i : Z) : M log_state (Z + unit) :=
  s ← get;
  if i <? lh_n s then
    if i <? LOGSIZE then
      put (set_blocks (<[Z.to_nat i := i32 (get32 (hdr_block i) (buf_data b s))]> (lh_block s)) s);;
      mret (inl (i + 1))
    else fault "log.lh.block index out of range"
  else mret (inr tt).

Definition read_head : M log_state unit :=
  s ← get;
  b ← lread (lstart s);
  modify (λ s, set_n (i32 (get32 0 (buf_data b s))) s);;
  s ← get;
  loop (S (Z.to_nat (lh_n s))) (read_head_body b) 0;;
  on_bio (brelse pid b).

Definition write_head_body (b : nat) (i : Z) : M log_state (Z + unit) :=
  s ← get;
  if i <? lh_n s then
    put (store_data b (set32 (hdr_block i) (u32 (block_at i s)) (buf_data b s)) s);;
    mret (inl (i + 1))
  else mret (inr tt).

Definition write_head : M log_state unit :=
  s ← get;
  b ← lread (lstart s);
  modify (λ s, store_data b (set32 0 (u32 (lh_n s)) (buf_data b s)) s);;
  s ← get;
  loop (S (Z.to_nat (lh_n s))) (write_head_body b) 0;;
  on_bio (bwrite pid b);;
  on_bio (brelse pid b).

Definition recover_from_log : M log_state unit :=
  read_head;;
  install_trans true;;
  modify (set_n 0);;
  write_head.

Definition initlog (dev logstart nlog : Z) : M log_state unit :=
  modify (set_llock false);;
  modify (set_area (i32 logstart) (i32 nlog) dev);;
  recover_from_log.

Definition begin_op_body (_ : unit) : M log_state (unit + unit) :=
  s ← get;
  if committing s then sleep_l;; mret (inl tt)
  else if LOGSIZE <? lh_n s + (outstanding s + 1) * MAXOPBLOCKS then sleep_l;; mret (inl tt)
  else modify (λ s, set_outstanding (outstanding s + 1) s);; release_l;; mret (inr tt).

Definition begin_op (n : nat) : M log_state unit :=
  acquire_l;; loop n begin_op_body tt.

Definition write_log_body (tail : Z) : M log_state (Z + unit) :=
  s ← get;
  if tail <? lh_n s then
    to ← lread (lstart s + tail + 1);
    from ← lread (block_at tail s);
    modify (λ s, store_data to (buf_data from s) s);;
    on_bio (bwrite pid to);;
    on_bio (brelse pid from);;
    on_bio (brelse pid to);;
    mret (inl (tail + 1))
  else mret (inr tt).

Definition write_log : M log_state unit :=
  s ← get;
  loop (S (Z.to_nat (lh_n s))) write_log_body 0.

Definition commit : M log_state unit :=
  s ← get;
  if 0 <? lh_n s then
    write_log;;
    write_head;;
    install_trans false;;
    modify (set_n 0);;
    write_head
  else mret tt.

Definition end_op : M log_state unit :=
  acquire_l;;
  modify (λ s, set_outstanding (outstanding s - 1) s);;
  s ← get;
  if committing s then panic "log.committing"
  else
    let do_commit := outstanding s =? 0 in
    (if do_commit then modify (set_committing true) else wakeup_l);;
    release_l;;
    when do_commit (
      commit;;
      acquire_l;;
      modify (set_committing false);;
      wakeup_l;;
      release_l).

(** [for (i = 0; i < log.lh.n; i++) if (log.lh.block[i] == b->blockno) break;] *)
Definition log_write_body (bno : Z) (i : Z) : M log_state (Z + Z) :=
  s ← get;
  if i <? lh_n s then
    if u32 (block_at i s) =? bno then mret (inr i) else mret (inl (i + 1))
  else mret (inr i).

Definition log_write (b : nat) : M log_state unit :=
  acquire_l;;
  s ← get;
  if (LOGSIZE <=? lh_n s) || (lsize s - 1 <=? lh_n s) then panic "too big a transaction"
  else if outstanding s <? 1 then panic "log_write outside of trans"
  else
    let bno := blockno (node b (bio s)) in
    i ← loop (S (Z.to_nat (lh_n s))) (log_write_body bno) 0;
    modify (λ s, set_blocks (<[Z.to_nat i := i32 bno]> (lh_block s)) s);;
    s ← get;
    when (i =? lh_n s) (
      on_bio (bpin b);;
      modify (λ s, set_n (lh_n s + 1) s));;
    release_l.

End log.
