(* ===== verification/LogInv.v ===== *)
(** The log's operations on block contents: what the cache shows ([v]), what is on the disk
    ([d]) and the writes made so far ([tr]). *)

From S2P Require Import Prelude Sleeplock Bytes Bio BioInv Log.

Definition fupd (v : Z → list Z) (b : Z) (x : list Z) : Z → list Z := λ c, if c =? b then x else v c.

Lemma fupd_eq v b x : fupd v b x b = x.
Proof. unfold fupd. by rewrite Z.eqb_refl. Qed.
Lemma fupd_ne v b x c : c ≠ b → fupd v b x c = v c.
Proof. intros H. unfold fupd. by rewrite (proj2 (Z.eqb_neq _ _)). Qed.

(** The disk after a sequence of writes. *)
Fixpoint after (d : Z → list Z) (tr : list (Z * list Z)) : Z → list Z :=
  match tr with
  | [] => d
  | (b, x) :: tr => after (fupd d b x) tr
  end.

Lemma after_app d t1 t2 : after d (t1 ++ t2) = after (after d t1) t2.
Proof. revert d. induction t1 as [|[b x] t1 IH]; intros d; simpl; [done|apply IH]. Qed.

(** * Transactions *)

(** The block numbers of the transaction. *)
Definition logged (s : log_state) : list Z := take (Z.to_nat (lh_n s)) (lh_block s).

(** The [t]-th block of the log. *)
Definition slot (start : Z) (t : nat) : Z := start + Z.of_nat t + 1.

(** The writes of [write_log] and of [install_trans]. *)
Definition log_writes (start : Z) (v : Z → list Z) (bs : list Z) : list (Z * list Z) :=
  imap (λ t b, (slot start t, v b)) bs.
Definition home_writes (start : Z) (v : Z → list Z) (bs : list Z) : list (Z * list Z) :=
  imap (λ t b, (b, v (slot start t))) bs.

(** The log area, [LOGSIZE] blocks with the header as mkfs lays it out, and the blocks of a
    transaction, which are outside it and leave room for the header. *)
Definition in_log (start : Z) (b : Z) : Prop := start ≤ b < start + LOGSIZE.

Record trans_ok (start : Z) (bs : list Z) : Prop := {
  to_start : 0 ≤ start < 2 ^ 30;
  to_len : Z.of_nat (length bs) < LOGSIZE;
  to_nodup : NoDup bs;
  to_range : ∀ b, b ∈ bs → 0 ≤ b < 2 ^ 31 ∧ ¬ in_log start b;
}.

Lemma after_ne d tr b : b ∉ tr.*1 → after d tr b = d b.
Proof.
  revert d. induction tr as [|[c x] tr IH]; intros d Hb; simpl; [done|].
  apply not_elem_of_cons in Hb as [Hc Hb]. rewrite IH by done. by rewrite fupd_ne.
Qed.

Lemma after_snoc d tr b x : after d (tr ++ [(b, x)]) = fupd (after d tr) b x.
Proof. by rewrite after_app. Qed.

Lemma log_writes_snoc start v bs b :
  log_writes start v (bs ++ [b]) = log_writes start v bs ++ [(slot start (length bs), v b)].
Proof. unfold log_writes. rewrite imap_app. simpl. by rewrite Nat.add_0_r. Qed.

Lemma home_writes_snoc start v bs b :
  home_writes start v (bs ++ [b]) = home_writes start v bs ++ [(b, v (slot start (length bs)))].
Proof. unfold home_writes. rewrite imap_app. simpl. by rewrite Nat.add_0_r. Qed.

Lemma log_writes_keys start v bs c : c ∈ (log_writes start v bs).*1 → ∃ t, (t < length bs)%nat ∧ c = slot start t.
Proof.
  intros Hc. apply list_elem_of_fmap in Hc as ([c' x] & -> & Hc). unfold log_writes in Hc.
  apply elem_of_lookup_imap in Hc as (t & b & E & Ht). injection E as -> ->. exists t. split; [|done].
  by eapply lookup_lt_Some.
Qed.

Lemma home_writes_keys start v bs : (home_writes start v bs).*1 = bs.
Proof. unfold home_writes. rewrite fmap_imap. simpl. apply list_eq. intros i. rewrite list_lookup_imap. by destruct (bs !! i). Qed.

Lemma slot_in_log start bs t : trans_ok start bs → (t < length bs)%nat → in_log start (slot start t).
Proof. intros T Ht. pose proof (to_len _ _ T). unfold in_log, slot. lia. Qed.

Lemma home_not_written start v bs b : trans_ok start bs → ¬ in_log start b → b ∉ (log_writes start v bs).*1.
Proof. intros T Hb (t & Ht & ->)%log_writes_keys. by apply Hb, (slot_in_log start bs). Qed.

Lemma trans_ok_take start bs t : trans_ok start bs → trans_ok start (take t bs).
Proof.
  intros [? ? Hn Hr]. constructor; try done.
  - rewrite length_take. lia.
  - rewrite <- (take_drop t bs) in Hn. by apply NoDup_app in Hn as [? _].
  - intros b Hb. apply Hr. apply elem_of_take in Hb as (i & Hi & _). by eapply list_elem_of_lookup_2.
Qed.

Lemma logged_lookup s t b :
  (Z.to_nat (lh_n s) ≤ length (lh_block s))%nat → logged s !! t = Some b → block_at (Z.of_nat t) s = b ∧ Z.of_nat t < lh_n s.
Proof.
  intros Hl Ht. unfold logged in Ht. apply lookup_take_Some in Ht as [Ht Hlt]. split; [|lia].
  unfold block_at. rewrite Nat2Z.id. by apply nth_lookup_Some.
Qed.

Lemma logged_set_bio b s : logged (set_bio b s) = logged s.
Proof. done. Qed.

Lemma slot_not_home start v bs t : trans_ok start bs → in_log start (slot start t) → slot start t ∉ (home_writes start v bs).*1.
Proof. intros T Hl. rewrite home_writes_keys. intros Hin. by destruct (to_range _ _ T _ Hin). Qed.

(** Block contents [x] say that the transaction [bs] is committed. *)
Record hdr_is (x : list Z) (bs : list Z) : Prop := {
  hi_n : get32 0 x = Z.of_nat (length bs);
  hi_block : ∀ t b, bs !! t = Some b → get32 (hdr_block (Z.of_nat t)) x = b;
}.

Lemma hdr_is_nil x : get32 0 x = 0 → hdr_is x [].
Proof. intros E. by constructor. Qed.

Section ops.
Context (pid : Z) (fuel : nat) (Hfuel : (0 < fuel)%nat).

Record lst (s : log_state) (P L : gset Z) (v d : Z → list Z) (tr : list (Z * list Z)) : Prop := {
  l_inv : bio_inv pid (bio s) P L;
  l_view : ∀ c, view (bio s) c = v c;
  l_disk : ∀ c, disk (bio s) c = d c;
  l_trace : dtrace (bio s) = tr;
  l_dev : ldev s = ROOTDEV;
}.

(** Only the cache changed, and the held buffers stayed. *)
Record kept (s s' : log_state) (L : gset Z) : Prop := {
  k_mem : s' = set_bio (bio s') s;
  k_cached : ∀ c j, c ∈ L → cached (bio s) c j → cached (bio s') c j;
}.

Lemma on_bio_ret {A} (c : M bcache A) s a b' : c (bio s) = Ret a b' → on_bio c s = Ret a (set_bio b' s).
Proof using Type. clear Hfuel. intros E. unfold on_bio, zoom. by rewrite E. Qed.

Lemma lst_length s P L v d tr c : lst s P L v d tr → Z.of_nat (length (v c)) = BSIZE.
Proof using Type. clear Hfuel. intros I. rewrite <- (l_view _ _ _ _ _ _ I). eapply view_length, I. Qed.

Lemma lread_ok s P L v d tr b :
  lst s P L v d tr → 0 ≤ b < 2 ^ 32 → b ∉ L → (b ∈ P ∨ size (P ∪ L) < NBUF)%nat →
  ∃ i s', lread pid fuel b s = Ret i s' ∧ lst s' P ({[b]} ∪ L) v d tr ∧ cached (bio s') b i ∧ kept s s' L.
Proof.
  intros I Hb HL Hroom. destruct (bread_ok pid fuel Hfuel (bio s) P L b) as (i & b' & E & OC & Hv & Hd & Ht); [apply I|done|done|].
  exists i, (set_bio b' s). split.
  { unfold lread. msimpl. rewrite (l_dev _ _ _ _ _ _ I), u32_id by done. by apply on_bio_ret. }
  split; [|split; [apply OC|]].
  - constructor; simpl.
    + apply OC.
    + intros c. rewrite <- (l_view _ _ _ _ _ _ I). destruct (decide (c = b)) as [->|Hc]; [done|by apply OC].
    + intros c. rewrite Hd. apply I.
    + rewrite Ht. apply I.
    + apply I.
  - constructor; [done|]. simpl. intros c j Hc. apply OC; [set_solver|]. intros ->. done.
Qed.

Lemma store_ok s P L v d tr b i x :
  lst s P L v d tr → cached (bio s) b i → b ∈ L → Z.of_nat (length x) = BSIZE →
  lst (store_data i x s) P L (fupd v b x) d tr ∧ kept s (store_data i x s) L.
Proof using Type. clear Hfuel.
  intros I Hc HL Hx. destruct (bset_ok pid (bio s) P L b i x (l_inv _ _ _ _ _ _ I) Hc HL Hx) as [OC Hv].
  split; constructor; simpl.
  - apply OC.
  - intros c. destruct (decide (c = b)) as [->|Hne]; [by rewrite fupd_eq|].
    rewrite fupd_ne by done. rewrite (oc_view _ _ _ _ _ _ _ _ _ OC c Hne). apply I.
  - intros c. apply I.
  - apply I.
  - apply I.
  - done.
  - intros c j Hcl Hj. destruct (decide (c = b)) as [->|Hne].
    + rewrite (bi_uniq _ _ _ _ (l_inv _ _ _ _ _ _ I) b j i Hj Hc). apply OC.
    + apply OC; [set_solver|done|done].
Qed.

Lemma buf_data_ok s P L v d tr b i : lst s P L v d tr → cached (bio s) b i → buf_data i s = v b.
Proof using Type. clear Hfuel.
  intros I Hc. unfold buf_data. rewrite <- (view_cached _ _ _ _ _ _ (l_inv _ _ _ _ _ _ I) Hc). apply I.
Qed.

Lemma lwrite_ok s P L v d tr b i :
  lst s P L v d tr → cached (bio s) b i → b ∈ L →
  ∃ s', on_bio (bwrite pid i) s = Ret tt s' ∧ lst s' P L v (fupd d b (v b)) (tr ++ [(b, v b)]) ∧ kept s s' L.
Proof using Type. clear Hfuel.
  intros I Hc HL. destruct (bwrite_ok pid (bio s) P L b i (l_inv _ _ _ _ _ _ I) Hc HL) as (b' & E & OC & Hv & Hd & Ht).
  exists (set_bio b' s). split; [by apply on_bio_ret|]. rewrite (l_view _ _ _ _ _ _ I) in Hd, Ht, Hv.
  split; constructor; simpl.
  - apply OC.
  - intros c. destruct (decide (c = b)) as [->|Hne]; [done|]. rewrite (oc_view _ _ _ _ _ _ _ _ _ OC c Hne). apply I.
  - intros c. destruct (decide (c = b)) as [->|Hne]; [by rewrite fupd_eq|]. rewrite fupd_ne by done.
    rewrite (oc_disk _ _ _ _ _ _ _ _ _ OC c Hne). apply I.
  - by rewrite Ht, (l_trace _ _ _ _ _ _ I).
  - apply I.
  - done.
  - intros c j Hcl Hj. destruct (decide (c = b)) as [->|Hne].
    + rewrite (bi_uniq _ _ _ _ (l_inv _ _ _ _ _ _ I) b j i Hj Hc). apply OC.
    + apply OC; [set_solver|done|done].
Qed.

(** [brelse], [bpin] and [bunpin] change neither contents nor disk. *)
Lemma lst_outcome s b' P L P' L' v d tr b i :
  lst s P L v d tr → cached (bio s) b i → outcome pid (bio s) b' P L P' L' i b → view b' b = view (bio s) b →
  disk b' = disk (bio s) → dtrace b' = dtrace (bio s) → lst (set_bio b' s) P' L' v d tr ∧ kept s (set_bio b' s) L.
Proof using Type. clear Hfuel.
  intros I Hc OC Hv Hd Ht. split; constructor; simpl.
  - apply OC.
  - intros c. rewrite <- (l_view _ _ _ _ _ _ I). destruct (decide (c = b)) as [->|Hne]; [done|by apply OC].
  - intros c. rewrite Hd. apply I.
  - rewrite Ht. apply I.
  - apply I.
  - done.
  - intros c j Hcl Hj. destruct (decide (c = b)) as [->|Hne].
    + rewrite (bi_uniq _ _ _ _ (l_inv _ _ _ _ _ _ I) b j i Hj Hc). apply OC.
    + apply OC; [set_solver|done|done].
Qed.

Lemma lrelse_ok s P L v d tr b i :
  lst s P L v d tr → cached (bio s) b i → b ∈ L → (b ∈ P ∨ v b = d b) →
  ∃ s', on_bio (brelse pid i) s = Ret tt s' ∧ lst s' P (L ∖ {[b]}) v d tr ∧ kept s s' L.
Proof using Type. clear Hfuel.
  intros I Hc HL Hcl. destruct (brelse_ok pid (bio s) P L b i) as (b' & E & OC & Hv & Hd & Ht); try done; [apply I| |].
  { rewrite (l_view _ _ _ _ _ _ I), (l_disk _ _ _ _ _ _ I). done. }
  exists (set_bio b' s). split; [by apply on_bio_ret|]. by eapply lst_outcome.
Qed.

Lemma lunpin_ok s P L v d tr b i :
  lst s P L v d tr → cached (bio s) b i → b ∈ L → b ∈ P →
  ∃ s', on_bio (bunpin i) s = Ret tt s' ∧ lst s' (P ∖ {[b]}) L v d tr ∧ kept s s' L.
Proof using Type. clear Hfuel.
  intros I Hc HL HP. destruct (bunpin_ok pid (bio s) P L b i) as (b' & E & OC & Hv & Hd & Ht); try done; [apply I|].
  exists (set_bio b' s). split; [by apply on_bio_ret|]. by eapply lst_outcome.
Qed.

Lemma lpin_ok s P L v d tr b i :
  lst s P L v d tr → cached (bio s) b i → b ∈ L → b ∉ P →
  ∃ s', on_bio (bpin i) s = Ret tt s' ∧ lst s' ({[b]} ∪ P) L v d tr ∧ kept s s' L.
Proof using Type. clear Hfuel.
  intros I Hc HL HP. destruct (bpin_ok pid (bio s) P L b i) as (b' & E & OC & Hv & Hd & Ht); try done; [apply I|].
  exists (set_bio b' s). split; [by apply on_bio_ret|]. by eapply lst_outcome.
Qed.

(** Fields of the log record other than the cache. *)
Lemma lst_mem s s' P L v d tr :
  bio s' = bio s → ldev s' = ldev s → lst s P L v d tr → lst s' P L v d tr.
Proof using Type. clear Hfuel. intros Hb Hd []. constructor; rewrite ?Hb, ?Hd; done. Qed.

Lemma kept_trans s1 s2 s3 L L' : L ⊆ L' → kept s1 s2 L → kept s2 s3 L' → kept s1 s3 L.
Proof using Type. clear Hfuel.
  intros HL [E1 K1] [E2 K2]. constructor.
  - rewrite E2, E1. done.
  - intros c j Hc Hj. apply K2; [set_solver|by apply K1].
Qed.

Lemma lst_ext s P P' L L' v v' d d' tr :
  P ≡ P' → L ≡ L' → (∀ c, v c = v' c) → (∀ c, d c = d' c) → lst s P L v d tr → lst s P' L' v' d' tr.
Proof using Type. clear Hfuel.
  intros HP HL Hv Hd []. apply leibniz_equiv in HP as <-, HL as <-. constructor; try done.
  - intros c. by rewrite <- Hv.
  - intros c. by rewrite <- Hd.
Qed.

(** * The bodies of the two copying loops *)

Ltac known H := erewrite bind_ret_eq by exact H.

Lemma write_log_step s P v d tr t b :
  lst s P ∅ v d tr → 0 ≤ t < lh_n s → block_at t s = b → b ∈ P → 0 ≤ b < 2 ^ 32 →
  0 ≤ lstart s → lstart s + t + 1 < 2 ^ 32 → lstart s + t + 1 ∉ P → (size P < NBUF)%nat →
  let a := lstart s + t + 1 in
  ∃ s', write_log_body pid fuel t s = Ret (inl (t + 1)) s' ∧
    lst s' P ∅ (fupd v a (v b)) (fupd d a (v b)) (tr ++ [(a, v b)]) ∧ s' = set_bio (bio s') s.
Proof.
  intros I Ht Hb HbP Hbr Hst Har HaP Hsz a. unfold write_log_body. msimpl. rewrite (proj2 (Z.ltb_lt _ _)) by lia.
  rewrite Hb. fold a. assert (a ≠ b) as Hne by (intros E; by rewrite <- E in HbP).
  destruct (lread_ok s P ∅ v d tr a I) as (i & s1 & E1 & I1 & C1 & K1); [unfold a; lia|set_solver|right; rewrite union_empty_r_L; lia|].
  cbv beta. rewrite E1. cbn [res_bind].
  destruct (lread_ok s1 P ({[a]} ∪ ∅) v d tr b I1) as (j & s2 & E2 & I2 & C2 & K2); [lia|set_solver|by left|].
  rewrite E2. cbn [res_bind]. pose proof (k_cached _ _ _ K2 a i ltac:(set_solver) C1) as C1'.
  rewrite (buf_data_ok s2 _ _ _ _ _ b j I2 C2).
  destruct (store_ok s2 _ _ _ _ _ a i (v b) I2 C1' ltac:(set_solver) (lst_length _ _ _ _ _ _ b I)) as [I3 K3].
  pose proof (k_cached _ _ _ K3 a i ltac:(set_solver) C1') as C3. pose proof (k_cached _ _ _ K3 b j ltac:(set_solver) C2) as C3'.
  destruct (lwrite_ok _ _ _ _ _ _ a i I3 C3 ltac:(set_solver)) as (s4 & E4 & I4 & K4). rewrite E4. cbn [res_bind].
  rewrite fupd_eq in I4.
  pose proof (k_cached _ _ _ K4 a i ltac:(set_solver) C3) as C4. pose proof (k_cached _ _ _ K4 b j ltac:(set_solver) C3') as C4'.
  destruct (lrelse_ok _ _ _ _ _ _ b j I4 C4' ltac:(set_solver)) as (s5 & E5 & I5 & K5); [by left|]. rewrite E5. cbn [res_bind].
  pose proof (k_cached _ _ _ K5 a i ltac:(set_solver) C4) as C5.
  destruct (lrelse_ok _ _ _ _ _ _ a i I5 C5 ltac:(set_solver)) as (s6 & E6 & I6 & K6); [right; by rewrite !fupd_eq|].
  rewrite E6. cbn [res_bind]. exists s6. split; [done|]. split.
  - eapply lst_ext; [| | | |exact I6]; [done|set_solver|done|done].
  - rewrite (k_mem _ _ _ K6), (k_mem _ _ _ K5), (k_mem _ _ _ K4), (k_mem _ _ _ K3), (k_mem _ _ _ K2), (k_mem _ _ _ K1). done.
Qed.

Lemma install_step recovering s P v d tr t b :
  lst s P ∅ v d tr → 0 ≤ t < lh_n s → block_at t s = b → 0 ≤ b < 2 ^ 32 →
  (if recovering : bool then P = ∅ else b ∈ P) →
  0 ≤ lstart s → lstart s + t + 1 < 2 ^ 32 → lstart s + t + 1 ∉ P → lstart s + t + 1 ≠ b → (size P < NBUF)%nat →
  let a := lstart s + t + 1 in
  v a = d a →
  ∃ s', install_body pid fuel recovering t s = Ret (inl (t + 1)) s' ∧
    lst s' (P ∖ {[b]}) ∅ (fupd v b (v a)) (fupd d b (v a)) (tr ++ [(b, v a)]) ∧ s' = set_bio (bio s') s.
Proof.
  intros I Ht Hb Hbr Hrec Hst Har HaP Hne Hsz a Hclean. unfold install_body. msimpl. rewrite (proj2 (Z.ltb_lt _ _)) by lia.
  rewrite Hb. fold a in HaP, Hne |- *.
  destruct (lread_ok s P ∅ v d tr a I) as (i & s1 & E1 & I1 & C1 & K1); [unfold a; lia|set_solver|right; rewrite union_empty_r_L; lia|].
  cbv beta. rewrite E1. cbn [res_bind].
  destruct (lread_ok s1 P ({[a]} ∪ ∅) v d tr b I1) as (j & s2 & E2 & I2 & C2 & K2); [lia|set_solver| |].
  { destruct recovering; [right|by left]. subst P. rewrite union_empty_l_L, union_empty_r_L, size_singleton. unfold NBUF. lia. }
  rewrite E2. cbn [res_bind]. pose proof (k_cached _ _ _ K2 a i ltac:(set_solver) C1) as C1'.
  rewrite (buf_data_ok s2 _ _ _ _ _ a i I2 C1').
  destruct (store_ok s2 _ _ _ _ _ b j (v a) I2 C2 ltac:(set_solver) (lst_length _ _ _ _ _ _ a I)) as [I3 K3].
  pose proof (k_cached _ _ _ K3 a i ltac:(set_solver) C1') as C3. pose proof (k_cached _ _ _ K3 b j ltac:(set_solver) C2) as C3'.
  destruct (lwrite_ok _ _ _ _ _ _ b j I3 C3' ltac:(set_solver)) as (s4 & E4 & I4 & K4). rewrite E4. cbn [res_bind].
  rewrite fupd_eq in I4.
  pose proof (k_cached _ _ _ K4 a i ltac:(set_solver) C3) as C4. pose proof (k_cached _ _ _ K4 b j ltac:(set_solver) C3') as C4'.
  assert (∃ s5, when (negb recovering) (on_bio (bunpin j)) s4 = Ret tt s5 ∧
    lst s5 (P ∖ {[b]}) ({[b]} ∪ ({[a]} ∪ ∅)) (fupd v b (v a)) (fupd d b (v a)) (tr ++ [(b, v a)]) ∧
    kept s4 s5 ({[b]} ∪ ({[a]} ∪ ∅))) as (s5 & E5 & I5 & K5).
  { destruct recovering; simpl.
    - exists s4. split; [done|]. split; [|by constructor; [by destruct s4|]].
      eapply lst_ext; [| | | |exact I4]; [set_solver|done|done|done].
    - apply (lunpin_ok _ _ _ _ _ _ b j I4 C4'); [set_solver|done]. }
  unfold when in E5. rewrite E5. cbn [res_bind].
  pose proof (k_cached _ _ _ K5 a i ltac:(set_solver) C4) as C5. pose proof (k_cached _ _ _ K5 b j ltac:(set_solver) C4') as C5'.
  destruct (lrelse_ok _ _ _ _ _ _ a i I5 C5 ltac:(set_solver)) as (s6 & E6 & I6 & K6); [right; by rewrite !fupd_ne|].
  rewrite E6. cbn [res_bind]. pose proof (k_cached _ _ _ K6 b j ltac:(set_solver) C5') as C6.
  destruct (lrelse_ok _ _ _ _ _ _ b j I6 C6 ltac:(set_solver)) as (s7 & E7 & I7 & K7); [right; by rewrite !fupd_eq|].
  rewrite E7. cbn [res_bind]. exists s7. split; [done|]. split.
  - eapply lst_ext; [| | | |exact I7]; [done|set_solver|done|done].
  - rewrite (k_mem _ _ _ K7), (k_mem _ _ _ K6), (k_mem _ _ _ K5), (k_mem _ _ _ K4), (k_mem _ _ _ K3), (k_mem _ _ _ K2), (k_mem _ _ _ K1). done.
Qed.

(** * The copying loops *)

Lemma write_log_loop start bs P v d tr m :
  trans_ok start bs → (∀ b, b ∈ bs → b ∈ P) → (∀ b, in_log start b → b ∉ P) → (size P < NBUF)%nat →
  ∀ t s fuel', logged s = bs → (Z.to_nat (lh_n s) = length bs)%nat → lstart s = start →
  length bs = (t + m)%nat → (m < fuel')%nat →
  (let w := log_writes start v (take t bs) in lst s P ∅ (after v w) (after d w) (tr ++ w)) →
  ∃ s', loop fuel' (write_log_body pid fuel) (Z.of_nat t) s = Ret tt s' ∧ s' = set_bio (bio s') s ∧
    let w := log_writes start v bs in lst s' P ∅ (after v w) (after d w) (tr ++ w).
Proof.
  intros T HP HA Hsz. induction m as [|m IH]; intros t s fuel' Hlog Hn Hst Hm Hf I; (destruct fuel' as [|fuel']; [lia|]).
  - exists s. rewrite take_ge in I by lia. split; [|split; [by destruct s|done]].
    apply loop_done. unfold write_log_body. msimpl. by rewrite (proj2 (Z.ltb_ge _ _)) by lia.
  - destruct (lookup_lt_is_Some_2 bs t ltac:(lia)) as [b Hb]. pose proof (list_elem_of_lookup_2 _ _ _ Hb) as Hin.
    destruct (logged_lookup s t b) as [Hbt Htn]; [|by rewrite Hlog|].
    { unfold logged in Hlog. rewrite <- Hlog, length_take in Hn. lia. }
    pose proof (to_start _ _ T) as Hs0. pose proof (to_len _ _ T) as Hl0. destruct (to_range _ _ T b Hin) as [Hbr Hbl].
    assert (in_log start (slot start t)) as Hal by (apply (slot_in_log start bs); [done|lia]).
    unfold LOGSIZE, MAXOPBLOCKS in Hl0.
    destruct (write_log_step _ _ _ _ _ (Z.of_nat t) b I) as (s1 & E1 & I1 & K1); try done; try lia; [by apply HP|rewrite Hst; by apply HA|].
    rewrite (loop_next _ _ _ _ _ _ E1). replace (Z.of_nat t + 1) with (Z.of_nat (S t)) by lia.
    destruct (IH (S t) s1 fuel') as (s' & E' & K' & I'); try lia.
    + rewrite K1. done.
    + rewrite K1. done.
    + rewrite K1. done.
    + rewrite (take_S_r bs t b Hb), log_writes_snoc, length_take, Nat.min_l by lia. cbv zeta.
      rewrite !after_snoc, app_assoc. rewrite Hst in I1. fold (slot start t) in I1.
      rewrite (after_ne v _ b) in I1 by (by apply home_not_written; [apply trans_ok_take|]). done.
    + exists s'. split; [done|]. split; [|done]. rewrite K', K1. done.
Qed.

Lemma write_log_ok s P v d tr :
  trans_ok (lstart s) (logged s) → Z.to_nat (lh_n s) = length (logged s) → (∀ b, b ∈ logged s → b ∈ P) →
  (∀ b, in_log (lstart s) b → b ∉ P) → (size P < NBUF)%nat → lst s P ∅ v d tr →
  ∃ s', write_log pid fuel s = Ret tt s' ∧ s' = set_bio (bio s') s ∧
    let w := log_writes (lstart s) v (logged s) in lst s' P ∅ (after v w) (after d w) (tr ++ w).
Proof.
  intros T Hn HP HA Hsz I. unfold write_log. msimpl.
  apply (write_log_loop (lstart s) (logged s) P v d tr (length (logged s)) T HP HA Hsz 0); try done; try lia.
  simpl. by rewrite app_nil_r.
Qed.


Lemma install_loop recovering start bs P v d tr m :
  trans_ok start bs → (if recovering : bool then P = ∅ else ∀ b, b ∈ bs → b ∈ P) → (∀ b, in_log start b → b ∉ P) →
  (size P < NBUF)%nat → (∀ t, (t < length bs)%nat → v (slot start t) = d (slot start t)) →
  ∀ t s fuel', logged s = bs → (Z.to_nat (lh_n s) = length bs)%nat → lstart s = start →
  length bs = (t + m)%nat → (m < fuel')%nat →
  (let w := home_writes start v (take t bs) in
   lst s (P ∖ list_to_set (take t bs)) ∅ (after v w) (after d w) (tr ++ w)) →
  ∃ s', loop fuel' (install_body pid fuel recovering) (Z.of_nat t) s = Ret tt s' ∧ s' = set_bio (bio s') s ∧
    let w := home_writes start v bs in lst s' (P ∖ list_to_set bs) ∅ (after v w) (after d w) (tr ++ w).
Proof.
  intros T HP HA Hsz Hclean. induction m as [|m IH]; intros t s fuel' Hlog Hn Hst Hm Hf I; (destruct fuel' as [|fuel']; [lia|]).
  - exists s. rewrite take_ge in I by lia. split; [|split; [by destruct s|done]].
    apply loop_done. unfold install_body. msimpl. by rewrite (proj2 (Z.ltb_ge _ _)) by lia.
  - destruct (lookup_lt_is_Some_2 bs t ltac:(lia)) as [b Hb]. pose proof (list_elem_of_lookup_2 _ _ _ Hb) as Hin.
    destruct (logged_lookup s t b) as [Hbt Htn]; [|by rewrite Hlog|].
    { unfold logged in Hlog. rewrite <- Hlog, length_take in Hn. lia. }
    pose proof (to_start _ _ T) as Hs0. pose proof (to_len _ _ T) as Hl0. destruct (to_range _ _ T b Hin) as [Hbr Hbl].
    assert (in_log start (slot start t)) as Hal by (apply (slot_in_log start bs); [done|lia]).
    assert (∀ e, after e (home_writes start v (take t bs)) (slot start t) = e (slot start t)) as Hslot.
    { intros e. apply after_ne, slot_not_home; [by apply trans_ok_take|done]. }
    assert (b ∉ take t bs) as Hbt'.
    { intros Hin'. apply elem_of_take in Hin' as (i & Hi & Hit).
      pose proof (NoDup_lookup _ _ _ _ (to_nodup _ _ T) Hi Hb). lia. }
    unfold LOGSIZE, MAXOPBLOCKS in Hl0.
    destruct (install_step recovering _ _ _ _ _ (Z.of_nat t) b I) as (s1 & E1 & I1 & K1); try done; try lia.
    + destruct recovering; [subst P; set_solver|]. apply elem_of_difference. split; [by apply HP|].
      by rewrite elem_of_list_to_set.
    + rewrite Hst. pose proof (HA _ Hal). set_solver.
    + rewrite Hst. intros E. apply Hbl. by rewrite <- E.
    + eapply Nat.le_lt_trans; [apply subseteq_size|exact Hsz]. set_solver.
    + rewrite Hst. fold (slot start t). rewrite !Hslot. apply Hclean. lia.
    + rewrite (loop_next _ _ _ _ _ _ E1). replace (Z.of_nat t + 1) with (Z.of_nat (S t)) by lia.
      destruct (IH (S t) s1 fuel') as (s' & E' & K' & I'); try lia.
      * rewrite K1. done.
      * rewrite K1. done.
      * rewrite K1. done.
      * rewrite (take_S_r bs t b Hb), home_writes_snoc, length_take, Nat.min_l by lia. cbv zeta.
        rewrite !after_snoc, app_assoc. rewrite Hst in I1. fold (slot start t) in I1. rewrite Hslot in I1.
        eapply lst_ext; [| | | |exact I1]; try done. rewrite list_to_set_app. set_solver.
      * exists s'. split; [done|]. split; [|done]. rewrite K', K1. done.
Qed.

Lemma install_ok recovering s P v d tr :
  trans_ok (lstart s) (logged s) → Z.to_nat (lh_n s) = length (logged s) →
  (if recovering : bool then P = ∅ else ∀ b, b ∈ logged s → b ∈ P) →
  (∀ b, in_log (lstart s) b → b ∉ P) → (size P < NBUF)%nat →
  (∀ t, (t < length (logged s))%nat → v (slot (lstart s) t) = d (slot (lstart s) t)) → lst s P ∅ v d tr →
  ∃ s', install_trans pid fuel recovering s = Ret tt s' ∧ s' = set_bio (bio s') s ∧
    let w := home_writes (lstart s) v (logged s) in
    lst s' (P ∖ list_to_set (logged s)) ∅ (after v w) (after d w) (tr ++ w).
Proof.
  intros T Hn HP HA Hsz Hc I. unfold install_trans. msimpl.
  apply (install_loop recovering (lstart s) (logged s) P v d tr (length (logged s)) T HP HA Hsz Hc 0); try done; try lia.
  simpl. rewrite app_nil_r. eapply lst_ext; [| | | |exact I]; try done. set_solver.
Qed.


(** * The header block *)

Lemma write_head_loop start bs P v d tr m :
  trans_ok start bs → ∀ t s i x fuel', logged s = bs → lh_n s = Z.of_nat (length bs) →
  length bs = (t + m)%nat → (m < fuel')%nat → cached (bio s) start i →
  lst s P {[start]} (fupd v start x) d tr → Z.of_nat (length x) = BSIZE → get32 0 x = Z.of_nat (length bs) →
  (∀ k b, (k < t)%nat → bs !! k = Some b → get32 (hdr_block (Z.of_nat k)) x = b) →
  ∃ s' x', loop fuel' (write_head_body i) (Z.of_nat t) s = Ret tt s' ∧ kept s s' {[start]} ∧
    lst s' P {[start]} (fupd v start x') d tr ∧ hdr_is x' bs ∧ Z.of_nat (length x') = BSIZE.
Proof using Type. clear Hfuel.
  intros T. induction m as [|m IH]; intros t s i x fuel' Hlog Hn Hm Hf Hc I Hx H0 Hk; (destruct fuel' as [|fuel']; [lia|]).
  - exists s, x. split; [|split; [by constructor; [by destruct s|]|split; [done|split; [|done]]]].
    + apply loop_done. unfold write_head_body. msimpl. by rewrite (proj2 (Z.ltb_ge _ _)) by lia.
    + constructor; [done|]. intros k b Hkb. apply Hk; [|done]. apply lookup_lt_Some in Hkb. lia.
  - destruct (lookup_lt_is_Some_2 bs t ltac:(lia)) as [b Hb]. pose proof (list_elem_of_lookup_2 _ _ _ Hb) as Hin.
    destruct (logged_lookup s t b) as [Hbt Htn]; [|by rewrite Hlog|].
    { apply (f_equal length) in Hlog. unfold logged in Hlog. rewrite length_take in Hlog. lia. }
    pose proof (to_len _ _ T) as Hl0. destruct (to_range _ _ T b Hin) as [Hbr _]. unfold LOGSIZE, MAXOPBLOCKS in Hl0.
    unfold BSIZE in *. assert (hdr_block (Z.of_nat t) + 4 ≤ length x)%nat as Ho by (unfold hdr_block; lia).
    set (x1 := set32 (hdr_block (Z.of_nat t)) b x). assert (Z.of_nat (length x1) = 1024) as Hx1 by (unfold x1; by rewrite length_set32).
    destruct (store_ok s _ _ _ _ _ start i x1 I Hc ltac:(set_solver) Hx1) as [I1 K1].
    assert (write_head_body i (Z.of_nat t) s = Ret (inl (Z.of_nat (S t))) (store_data i x1 s)) as E.
    { unfold write_head_body. msimpl. rewrite (proj2 (Z.ltb_lt _ _)) by lia.
      rewrite (buf_data_ok s _ _ _ _ _ start i I Hc), fupd_eq, Hbt, u32_id by lia. unfold x1. do 2 f_equal. f_equal. lia. }
    rewrite (loop_next _ _ _ _ _ _ E).
    destruct (IH (S t) (store_data i x1 s) i x1 fuel') as (s' & x' & E' & K' & I' & H' & L'); try done; try lia.
    + apply (k_cached _ _ _ K1); [set_solver|done].
    + eapply lst_ext; [| | | |exact I1]; try done. intros c. unfold fupd. by destruct (c =? start).
    + unfold x1. rewrite get32_set32_other; [done|done|]. unfold hdr_block. lia.
    + intros k c Hkt Hkc. destruct (decide (k = t)) as [->|Hne].
      * rewrite Hb in Hkc. injection Hkc as <-. unfold x1. apply get32_set32; [done|lia].
      * unfold x1. rewrite get32_set32_other; [apply Hk; [lia|done]|done|unfold hdr_block; lia].
    + exists s', x'. split; [done|]. split; [by eapply kept_trans|]. done.
Qed.

Lemma write_head_ok s P v d tr :
  trans_ok (lstart s) (logged s) → lh_n s = Z.of_nat (length (logged s)) → lstart s ∉ P → (size P < NBUF)%nat →
  lst s P ∅ v d tr →
  ∃ s' x, write_head pid fuel s = Ret tt s' ∧ s' = set_bio (bio s') s ∧ hdr_is x (logged s) ∧
    lst s' P ∅ (fupd v (lstart s) x) (fupd d (lstart s) x) (tr ++ [(lstart s, x)]).
Proof.
  intros T Hn HP Hsz I. pose proof (to_start _ _ T) as Hst. pose proof (to_len _ _ T) as Hl0. unfold LOGSIZE, MAXOPBLOCKS in Hl0.
  unfold write_head. msimpl.
  destruct (lread_ok s P ∅ v d tr (lstart s) I) as (i & s1 & E1 & I1 & C1 & K1); [lia|set_solver|right; by rewrite union_empty_r_L|].
  rewrite E1. cbn [res_bind]. rewrite (buf_data_ok s1 _ _ _ _ _ (lstart s) i I1 C1).
  pose proof (lst_length _ _ _ _ _ _ (lstart s) I) as Hvl. unfold BSIZE in Hvl.
  assert (lh_n s1 = lh_n s) as En by (by rewrite (k_mem _ _ _ K1)). rewrite En, Hn, u32_id by lia.
  set (x := set32 0 (Z.of_nat (length (logged s))) (v (lstart s))).
  assert (Z.of_nat (length x) = BSIZE) as Hx by (unfold x; rewrite length_set32; unfold BSIZE; lia).
  destruct (store_ok s1 _ _ _ _ _ (lstart s) i x I1 C1 ltac:(set_solver) Hx) as [I2 K2].
  assert (logged (store_data i x s1) = logged s) as El by (rewrite (k_mem _ _ _ K2), (k_mem _ _ _ K1); done).
  assert (lh_n (store_data i x s1) = Z.of_nat (length (logged s))) as En2 by (rewrite (k_mem _ _ _ K2), (k_mem _ _ _ K1); done).
  rewrite En2. rewrite Nat2Z.id.
  destruct (write_head_loop (lstart s) (logged s) P v d tr (length (logged s)) T 0 (store_data i x s1) i x (S (length (logged s))))
    as (s3 & x' & E3 & K3 & I3 & H3 & L3); try done; try lia.
  - apply (k_cached _ _ _ K2); [set_solver|done].
  - eapply lst_ext; [| | | |exact I2]; try done. set_solver.
  - unfold x. apply get32_set32; lia.
  - change (Z.of_nat 0) with 0 in E3. rewrite E3. cbn [res_bind].
    assert (cached (bio s3) (lstart s) i) as C3.
    { apply (k_cached _ _ _ K3); [set_solver|]. apply (k_cached _ _ _ K2); [set_solver|done]. }
    destruct (lwrite_ok _ _ _ _ _ _ (lstart s) i I3 C3 ltac:(set_solver)) as (s4 & E4 & I4 & K4). rewrite E4. cbn [res_bind].
    rewrite fupd_eq in I4. pose proof (k_cached _ _ _ K4 (lstart s) i ltac:(set_solver) C3) as C4.
    destruct (lrelse_ok _ _ _ _ _ _ (lstart s) i I4 C4 ltac:(set_solver)) as (s5 & E5 & I5 & K5); [right; by rewrite !fupd_eq|].
    exists s5, x'. split; [done|]. split; [|split; [done|]].
    + rewrite (k_mem _ _ _ K5), (k_mem _ _ _ K4), (k_mem _ _ _ K3), (k_mem _ _ _ K2), (k_mem _ _ _ K1). done.
    + eapply lst_ext; [| | | |exact I5]; try done. set_solver.
Qed.

(** [read_head] leaves everything but the in-memory header. *)
Record hdr_read (s s' : log_state) (bs : list Z) : Prop := {
  hr_log : logged s' = bs;
  hr_n : lh_n s' = Z.of_nat (length bs);
  hr_len : length (lh_block s') = length (lh_block s);
  hr_mem : s' = set_blocks (lh_block s') (set_n (lh_n s') (set_bio (bio s') s));
}.

Lemma read_head_loop x bs m :
  Z.of_nat (length bs) ≤ LOGSIZE → (∀ b, b ∈ bs → 0 ≤ b < 2 ^ 31) → hdr_is x bs →
  ∀ t s i fuel', lh_n s = Z.of_nat (length bs) → length (lh_block s) = Z.to_nat LOGSIZE →
  length bs = (t + m)%nat → (m < fuel')%nat → buf_data i s = x → take t (lh_block s) = take t bs →
  ∃ l, loop fuel' (read_head_body i) (Z.of_nat t) s = Ret tt (set_blocks l s) ∧ length l = Z.to_nat LOGSIZE ∧
    take (length bs) l = bs.
Proof using Type. clear Hfuel.
  intros Hl Hr Hx. unfold LOGSIZE, MAXOPBLOCKS in *. induction m as [|m IH]; intros t s i fuel' Hn Hlen Hm Hf Hi Ht; (destruct fuel' as [|fuel']; [lia|]).
  - exists (lh_block s). split; [|split; [done|]].
    + rewrite (loop_done _ _ _ tt _ s); [by destruct s|]. unfold read_head_body. msimpl. by rewrite (proj2 (Z.ltb_ge _ _)) by lia.
    + replace (length bs) with t by lia. rewrite Ht. by rewrite take_ge by lia.
  - destruct (lookup_lt_is_Some_2 bs t ltac:(lia)) as [b Hb]. pose proof (list_elem_of_lookup_2 _ _ _ Hb) as Hin.
    set (s1 := set_blocks (<[t := b]> (lh_block s)) s).
    assert (read_head_body i (Z.of_nat t) s = Ret (inl (Z.of_nat (S t))) s1) as E.
    { unfold read_head_body. msimpl. rewrite !(proj2 (Z.ltb_lt _ _)) by (unfold LOGSIZE, MAXOPBLOCKS; lia).
      rewrite Hi, (hi_block _ _ Hx t b Hb), i32_id, Nat2Z.id by (pose proof (Hr b Hin); lia). unfold s1. f_equal. f_equal. lia. }
    rewrite (loop_next _ _ _ _ _ _ E).
    destruct (IH (S t) s1 i fuel') as (l & E' & Hl' & Ht'); try done; try lia.
    + simpl. by rewrite length_insert.
    + simpl. rewrite (take_S_r _ t b) by (apply list_lookup_insert_eq; lia). rewrite (take_S_r bs t b Hb).
      rewrite take_insert_ge by lia. by rewrite Ht.
    + exists l. split; [rewrite E'; done|]. done.
Qed.

Lemma read_head_ok s P v d tr bs :
  Z.of_nat (length bs) ≤ LOGSIZE → (∀ b, b ∈ bs → 0 ≤ b < 2 ^ 31) → hdr_is (v (lstart s)) bs →
  0 ≤ lstart s < 2 ^ 30 → length (lh_block s) = Z.to_nat LOGSIZE → v (lstart s) = d (lstart s) → (size P < NBUF)%nat →
  lst s P ∅ v d tr →
  ∃ s', read_head pid fuel s = Ret tt s' ∧ hdr_read s s' bs ∧ lst s' P ∅ v d tr.
Proof.
  intros Hl Hr Hx Hst Hlen Hcl Hsz I. unfold read_head. msimpl.
  destruct (lread_ok s P ∅ v d tr (lstart s) I) as (i & s1 & E1 & I1 & C1 & K1); [lia|set_solver|right; by rewrite union_empty_r_L|].
  rewrite E1. cbn [res_bind]. rewrite (buf_data_ok s1 _ _ _ _ _ (lstart s) i I1 C1), (hi_n _ _ Hx).
  unfold LOGSIZE, MAXOPBLOCKS in *. rewrite i32_id by lia. cbn [lh_n set_n]. rewrite Nat2Z.id.
  destruct (read_head_loop (v (lstart s)) bs (length bs) Hl Hr Hx 0 (set_n (Z.of_nat (length bs)) s1) i (S (length bs)))
    as (l & E2 & Hl2 & Ht2); try done; try lia.
  - rewrite (k_mem _ _ _ K1). done.
  - by apply (buf_data_ok s1 _ _ _ _ _ (lstart s) i I1 C1).
  - change (Z.of_nat 0) with 0 in E2. rewrite E2. cbn [res_bind]. set (s2 := set_blocks l _).
    assert (lst s2 P ({[lstart s]} ∪ ∅) v d tr) as I2 by (by eapply lst_mem; [| |exact I1]).
    destruct (lrelse_ok s2 _ _ _ _ _ (lstart s) i I2) as (s3 & E3 & I3 & K3); [done|set_solver|by right|].
    exists s3. split; [done|]. split.
    + assert (lh_block s3 = l ∧ lh_n s3 = Z.of_nat (length bs)) as [El En] by (rewrite (k_mem _ _ _ K3); done).
      constructor.
      * unfold logged. by rewrite El, En, Nat2Z.id.
      * done.
      * by rewrite El, Hl2.
      * rewrite El, En, (k_mem _ _ _ K3). unfold s2. rewrite (k_mem _ _ _ K1). done.
    + eapply lst_ext; [| | | |exact I3]; try done. set_solver.
Qed.

End ops.
