(* ===== verification/LogCrash.v ===== *)
(** Crash safety of the log: whatever prefix of a commit's disk writes survives a crash,
    recovery leaves the disk as it was before the transaction or as it is after it. *)

From S2P Require Import Prelude Sleeplock Bytes Bio BioInv Log LogInv.

Lemma prefix_app_inv {A} (p l1 l2 : list A) :
  p `prefix_of` l1 ++ l2 → p `prefix_of` l1 ∨ ∃ q, p = l1 ++ q ∧ q `prefix_of` l2.
Proof.
  intros [k Hk]. revert l1 Hk. induction p as [|x p IH]; intros l1 Hk; [left; apply prefix_nil|].
  destruct l1 as [|y l1]; simpl in Hk.
  - right. exists (x :: p). split; [done|]. by exists k.
  - injection Hk as -> Hk. destruct (IH l1 Hk) as [Hp|(q & -> & Hq)].
    + left. by apply prefix_cons.
    + right. by exists q.
Qed.

Lemma prefix_snoc_inv {A} (p l : list A) x : p `prefix_of` l ++ [x] → p `prefix_of` l ∨ p = l ++ [x].
Proof.
  intros [Hp|(q & -> & Hq)]%prefix_app_inv; [by left|]. destruct q as [|y q]; [left; by rewrite app_nil_r|].
  pose proof (prefix_cons_inv_1 _ _ _ _ Hq) as ->. apply prefix_cons_inv_2, prefix_nil_inv in Hq as ->. by right.
Qed.

Section contents.
Context (start : Z) (bs : list Z) (T : trans_ok start bs).

(** Home blocks: outside the log. *)
Definition home (b : Z) : Prop := ¬ in_log start b.

Lemma after_log_slot v d l t b :
  (Z.of_nat (length l) < LOGSIZE) → l !! t = Some b → after d (log_writes start v l) (slot start t) = v b.
Proof.
  induction l as [|c l IH] using rev_ind; intros Hl Ht; [done|]. rewrite log_writes_snoc, after_snoc.
  rewrite length_app in Hl. simpl in Hl. apply lookup_app_Some in Ht as [Ht|[Hge Ht]].
  - rewrite fupd_ne; [apply IH; [lia|done]|]. apply lookup_lt_Some in Ht. unfold slot. lia.
  - apply list_lookup_singleton_Some in Ht as [Ht ->]. replace t with (length l) by lia. apply fupd_eq.
Qed.

Lemma after_home_written v d l t b : NoDup l → l !! t = Some b → after d (home_writes start v l) b = v (slot start t).
Proof.
  induction l as [|c l IH] using rev_ind; intros Hn Ht; [done|]. rewrite home_writes_snoc, after_snoc.
  apply NoDup_app in Hn as (Hn & Hc & _). apply lookup_app_Some in Ht as [Ht|[Hge Ht]].
  - rewrite fupd_ne; [by apply IH|]. intros ->. apply (Hc c); [by eapply list_elem_of_lookup_2|by left].
  - apply list_lookup_singleton_Some in Ht as [Ht ->]. replace t with (length l) by lia. apply fupd_eq.
Qed.

Lemma home_start b : home b → b ≠ start.
Proof. unfold home, in_log, LOGSIZE, MAXOPBLOCKS. lia. Qed.

Lemma start_not_slot t : start ≠ slot start t.
Proof. unfold slot. lia. Qed.

Lemma keys_prefix (w p : list (Z * list Z)) b : p `prefix_of` w → b ∈ p.*1 → b ∈ w.*1.
Proof. intros [k ->] Hb. rewrite fmap_app, elem_of_app. by left. Qed.

Lemma start_not_written v p : p `prefix_of` log_writes start v bs → start ∉ p.*1.
Proof.
  intros Hp Hin. apply (keys_prefix _ _ _ Hp) in Hin. apply log_writes_keys in Hin as (t & _ & E).
  by apply (start_not_slot t).
Qed.

Lemma home_not_in_log_writes v p b : home b → p `prefix_of` log_writes start v bs → b ∉ p.*1.
Proof. intros Hb Hp Hin. apply (keys_prefix _ _ _ Hp) in Hin. by apply (home_not_written start v bs b). Qed.

Lemma not_home_home_writes v p b : (b = start ∨ in_log start b) → p `prefix_of` home_writes start v bs → b ∉ p.*1.
Proof.
  intros Hb Hp Hin. apply (keys_prefix _ _ _ Hp) in Hin. rewrite home_writes_keys in Hin.
  destruct (to_range _ _ T _ Hin) as [_ Hh]. apply Hh. destruct Hb as [->|?]; [|done].
  unfold in_log, LOGSIZE, MAXOPBLOCKS. lia.
Qed.
End contents.

(** * Commit *)

(** Before a commit: the blocks of the transaction are pinned, and the log on disk is empty. *)
Record txn (pid : Z) (s : log_state) (v d : Z → list Z) (tr : list (Z * list Z)) : Prop := {
  tx_lst : lst pid s (list_to_set (logged s)) ∅ v d tr;
  tx_ok : trans_ok (lstart s) (logged s);
  tx_n : lh_n s = Z.of_nat (length (logged s));
  tx_room : lh_n s < Z.of_nat NBUF;
  tx_empty : get32 0 (d (lstart s)) = 0;
}.

Section commit.
Context (pid : Z) (fuel : nat) (Hfuel : (0 < fuel)%nat).

Lemma lst_clean s P L v d tr b : lst pid s P L v d tr → b ∉ P → b ∉ L → v b = d b.
Proof using Type. clear Hfuel.
  intros I HP HL. rewrite <- (l_view _ _ _ _ _ _ _ I), <- (l_disk _ _ _ _ _ _ _ I). by apply (view_clean pid _ P L); [apply I| |].
Qed.

Lemma lst_disk_length s P L v d tr b : lst pid s P L v d tr → Z.of_nat (length (d b)) = BSIZE.
Proof using Type. clear Hfuel. intros I. rewrite <- (l_disk _ _ _ _ _ _ _ I). apply I. Qed.

Lemma trans_ok_nil start bs : trans_ok start bs → trans_ok start [].
Proof using Type. clear Hfuel. intros T. by apply (trans_ok_take start bs 0). Qed.

(** The writes of a commit: log, header, home, empty header. *)
Definition commit_writes (start : Z) (v : Z → list Z) (bs : list Z) (x1 x2 : list Z) : list (Z * list Z) :=
  log_writes start v bs ++ (start, x1) :: ((λ b, (b, v b)) <$> bs) ++ [(start, x2)].

Lemma home_writes_commit start v bs x1 :
  trans_ok start bs →
  home_writes start (fupd (after v (log_writes start v bs)) start x1) bs = (λ b, (b, v b)) <$> bs.
Proof using Type. clear Hfuel.
  intros T. unfold home_writes. apply list_eq. intros t. rewrite list_lookup_imap, list_lookup_fmap.
  destruct (bs !! t) as [b|] eqn:Ht; [|done]. simpl. f_equal. f_equal.
  rewrite fupd_ne by (intros E; by apply (start_not_slot start t)). apply after_log_slot; [apply T|done].
Qed.

Lemma txn_size s v d tr : txn pid s v d tr → (size (list_to_set (C := gset Z) (logged s)) < NBUF)%nat.
Proof using Type. clear Hfuel.
  intros X. rewrite size_list_to_set by apply (tx_ok _ _ _ _ _ X). pose proof (tx_n _ _ _ _ _ X). pose proof (tx_room _ _ _ _ _ X). lia.
Qed.

Lemma txn_disjoint s v d tr b : txn pid s v d tr → in_log (lstart s) b → b ∉ list_to_set (C := gset Z) (logged s).
Proof using Type. clear Hfuel. intros X Hb Hin%elem_of_list_to_set. by destruct (to_range _ _ (tx_ok _ _ _ _ _ X) _ Hin). Qed.

Lemma start_in_log start : in_log start start.
Proof using Type. clear Hfuel. unfold in_log, LOGSIZE, MAXOPBLOCKS. lia. Qed.

Lemma commit_ok s v d tr :
  txn pid s v d tr → 0 < lh_n s →
  ∃ s' x1 x2, commit pid fuel s = Ret tt s' ∧ s' = set_n 0 (set_bio (bio s') s) ∧
    hdr_is x1 (logged s) ∧ hdr_is x2 [] ∧ Z.of_nat (length x1) = BSIZE ∧
    let w := commit_writes (lstart s) v (logged s) x1 x2 in
    lst pid s' ∅ ∅ (after v w) (after d w) (tr ++ w).
Proof.
  intros X Hpos. pose proof (tx_ok _ _ _ _ _ X) as T. pose proof (txn_size _ _ _ _ X) as Hsz.
  pose proof (tx_n _ _ _ _ _ X) as Hn. set (start := lstart s) in *. set (bs := logged s) in *.
  unfold commit. msimpl. rewrite (proj2 (Z.ltb_lt _ _)) by done.
  destruct (write_log_ok pid fuel Hfuel s (list_to_set bs) v d tr) as (s1 & E1 & K1 & I1); try done; [fold bs; lia|intros b Hb; by apply elem_of_list_to_set| |apply X|].
  { intros b. by apply (txn_disjoint s v d tr). }
  rewrite E1. cbn [res_bind]. fold start bs in I1. cbv zeta in I1. set (lw := log_writes start v bs) in *.
  assert (logged s1 = bs ∧ lstart s1 = start ∧ lh_n s1 = lh_n s) as (L1 & S1 & N1) by (by rewrite K1).
  destruct (write_head_ok pid fuel Hfuel s1 (list_to_set bs) (after v lw) (after d lw) (tr ++ lw)) as (s2 & x1 & E2 & K2 & Hx1 & I2);
    rewrite ?L1, ?S1, ?N1; try done.
  { apply (txn_disjoint s v d tr); [done|apply start_in_log]. }
  rewrite E2. cbn [res_bind]. rewrite L1 in Hx1. rewrite S1 in I2.
  pose proof (lst_disk_length _ _ _ _ _ _ start I2) as Hlx. rewrite fupd_eq in Hlx.
  assert (logged s2 = bs ∧ lstart s2 = start ∧ lh_n s2 = lh_n s) as (L2 & S2 & N2) by (by rewrite K2, K1).
  destruct (install_ok pid fuel Hfuel false s2 (list_to_set bs) (fupd (after v lw) start x1) (fupd (after d lw) start x1)
    ((tr ++ lw) ++ [(start, x1)])) as (s3 & E3 & K3 & I3); rewrite ?L2, ?S2, ?N2; try done; [lia|set_solver| | |].
  { intros b. by apply (txn_disjoint s v d tr). }
  { intros t Ht. destruct (lookup_lt_is_Some_2 bs t Ht) as [b Hb].
    rewrite !fupd_ne by (intros E; by apply (start_not_slot start t)). unfold lw.
    by rewrite !(after_log_slot start v _ bs t b) by (done || apply T). }
  rewrite E3. cbn [res_bind]. rewrite L2, S2 in I3. cbv zeta in I3. pose proof (home_writes_commit start v bs x1 T) as Ehw. fold lw in Ehw. rewrite Ehw in I3.
  rewrite difference_diag_L in I3.
  assert (logged (set_n 0 s3) = [] ∧ lstart (set_n 0 s3) = start) as (L3 & S3) by (by rewrite K3, K2, K1).
  assert (lst pid (set_n 0 s3) ∅ ∅ _ _ _) as I3' by (eapply lst_mem; [| |exact I3]; done).
  apply (write_head_ok pid fuel Hfuel) in I3' as (s4 & x2 & E4 & K4 & Hx2 & I4);
    rewrite ?L3, ?S3; try done; [|by eapply trans_ok_nil|rewrite size_empty; unfold NBUF; lia].
  exists s4, x1, x2. rewrite L3 in Hx2. rewrite S3 in I4. split; [done|]. split; [by rewrite K4, K3, K2, K1|].
  split; [done|]. split; [done|]. split; [done|]. unfold commit_writes. fold lw. cbv zeta.
  replace (tr ++ lw ++ (start, x1) :: ((λ b, (b, v b)) <$> bs) ++ [(start, x2)])
    with ((((tr ++ lw) ++ [(start, x1)]) ++ ((λ b, (b, v b)) <$> bs)) ++ [(start, x2)]) by (by rewrite <- !app_assoc).
  eapply lst_ext; [| | | |exact I4]; try done; intros c; rewrite after_app; simpl; by rewrite after_snoc.
Qed.

(** * Recovery *)

(** The log's state in zeroed memory. *)
Definition boot_log (b : bcache) : log_state := LogState b false 0 0 0 false 0 0 (replicate (Z.to_nat LOGSIZE) 0) [].

(** Booting on disk [d]: [binit], then [initlog]. *)
Definition reboot (start nlog : Z) (d : Z → list Z) : res log_state unit :=
  (on_bio binit;; initlog pid fuel ROOTDEV start nlog) (boot_log (boot_cache d)).

Lemma recover_ok s d tr bs :
  lst pid s ∅ ∅ d d tr → trans_ok (lstart s) bs → hdr_is (d (lstart s)) bs → length (lh_block s) = Z.to_nat LOGSIZE →
  ∃ r x, recover_from_log pid fuel s = Ret tt r ∧ hdr_is x [] ∧
    r = set_blocks (lh_block r) (set_n 0 (set_bio (bio r) s)) ∧ length (lh_block r) = Z.to_nat LOGSIZE ∧
    let w := home_writes (lstart s) d bs ++ [(lstart s, x)] in lst pid r ∅ ∅ (after d w) (after d w) (tr ++ w).
Proof.
  intros I T Hh Hlen. unfold recover_from_log. msimpl. pose proof (to_start _ _ T) as Hst.
  assert (size (∅ : gset Z) < NBUF)%nat as Hsz by (rewrite size_empty; unfold NBUF; lia).
  destruct (read_head_ok pid fuel Hfuel s ∅ d d tr bs) as (s1 & E1 & R1 & I1); try done; [apply Z.lt_le_incl, T|apply T|].
  rewrite E1. cbn [res_bind]. pose proof (hr_log _ _ _ R1) as L1. pose proof (hr_n _ _ _ R1) as N1.
  assert (lstart s1 = lstart s) as S1 by (by rewrite (hr_mem _ _ _ R1)).
  destruct (install_ok pid fuel Hfuel true s1 ∅ d d tr) as (s2 & E2 & K2 & I2); rewrite ?L1, ?S1; try done; [lia|].
  rewrite E2. cbn [res_bind]. rewrite L1, S1 in I2. cbv zeta in I2.
  assert (lst pid (set_n 0 s2) ∅ ∅ (after d (home_writes (lstart s) d bs)) (after d (home_writes (lstart s) d bs))
    (tr ++ home_writes (lstart s) d bs)) as I2'.
  { eapply lst_mem; [| |eapply lst_ext; [| | | |exact I2]]; try done. set_solver. }
  assert (logged (set_n 0 s2) = [] ∧ lstart (set_n 0 s2) = lstart s) as (L2 & S2) by (rewrite K2; done).
  apply (write_head_ok pid fuel Hfuel) in I2' as (r & x & E3 & K3 & Hx & I3); rewrite ?L2, ?S2; try done; [|by eapply trans_ok_nil].
  exists r, x. split; [done|]. split; [by rewrite L2 in Hx|].
  split; [rewrite K3, K2, (hr_mem _ _ _ R1); done|]. split.
  { rewrite K3, K2. simpl. by rewrite (hr_len _ _ _ R1). }
  cbv zeta. rewrite S2 in I3. rewrite app_assoc.
  eapply lst_ext; [| | | |exact I3]; try done; intros c; by rewrite after_snoc.
Qed.

(** The log's record after booting. *)
Record idle (start nlog : Z) (r : log_state) : Prop := {
  id_lock : llock r = false;
  id_start : lstart r = start;
  id_size : lsize r = nlog;
  id_out : outstanding r = 0;
  id_comm : committing r = false;
  id_n : lh_n r = 0;
  id_len : length (lh_block r) = Z.to_nat LOGSIZE;
}.

Lemma reboot_ok start nlog d bs :
  (∀ b, Z.of_nat (length (d b)) = BSIZE) → 0 ≤ nlog < 2 ^ 31 → trans_ok start bs → hdr_is (d start) bs →
  ∃ r x, reboot start nlog d = Ret tt r ∧ hdr_is x [] ∧ idle start nlog r ∧
    let w := home_writes start d bs ++ [(start, x)] in lst pid r ∅ ∅ (after d w) (after d w) w.
Proof.
  intros Hlen Hnl T Hh. unfold reboot. destruct (binit_ok pid d Hlen) as (b & E & Ib & Hd & Ht).
  erewrite bind_ret_eq by (apply on_bio_ret; exact E). unfold initlog. msimpl. pose proof (to_start _ _ T) as Hst. rewrite !i32_id by lia.
  set (s0 := set_area start nlog ROOTDEV _).
  assert (lst pid s0 ∅ ∅ d d []) as I0.
  { constructor; try done.
    - intros c. simpl. rewrite <- Hd. apply (view_clean pid _ ∅ ∅); [done|set_solver|set_solver].
    - intros c. simpl. by rewrite Hd. }
  destruct (recover_ok s0 d [] bs I0 T Hh eq_refl) as (r & x & E' & Hx & Km & Kl & I). exists r, x.
  split; [exact E'|]. split; [exact Hx|]. split; [|exact I]. clear E'. constructor; try exact Kl; by rewrite Km.
Qed.

(** What a disk whose header holds [bs] recovers to. *)
Definition recovered (start : Z) (bs : list Z) (d : Z → list Z) : Z → list Z := after d (home_writes start d bs).

Lemma reboot_home start nlog d bs :
  (∀ b, Z.of_nat (length (d b)) = BSIZE) → 0 ≤ nlog < 2 ^ 31 → trans_ok start bs → hdr_is (d start) bs →
  ∃ r, reboot start nlog d = Ret tt r ∧ (∀ b, home start b → disk (bio r) b = recovered start bs d b) ∧
    get32 0 (disk (bio r) start) = 0 ∧
    ∃ x, dtrace (bio r) = home_writes start d bs ++ [(start, x)] ∧ hdr_is x [] ∧ Z.of_nat (length x) = BSIZE.
Proof.
  intros Hlen Hnl T Hh. destruct (reboot_ok start nlog d bs Hlen Hnl T Hh) as (r & x & E & Hx & _ & I). cbv zeta in I.
  exists r. split; [done|]. split; [|split].
  - intros b Hb. rewrite (l_disk _ _ _ _ _ _ _ I), after_snoc, fupd_ne; [done|by apply home_start].
  - rewrite (l_disk _ _ _ _ _ _ _ I), after_snoc, fupd_eq. apply Hx.
  - exists x. split; [apply I|]. split; [done|]. pose proof (lst_disk_length _ _ _ _ _ _ start I) as Hl.
    by rewrite after_snoc, fupd_eq in Hl.
Qed.

Lemma after_length d w :
  (∀ b, Z.of_nat (length (d b)) = BSIZE) → (∀ b x, (b, x) ∈ w → Z.of_nat (length x) = BSIZE) →
  ∀ b, Z.of_nat (length (after d w b)) = BSIZE.
Proof using Type. clear Hfuel.
  revert d. induction w as [|[c x] w IH]; intros d Hd Hw; simpl; [done|]. apply IH.
  - intros b. unfold fupd. destruct (b =? c); [apply (Hw c); by left|done].
  - intros b y Hy. apply (Hw b). by right.
Qed.

Lemma lengths_prefix (w p : list (Z * list Z)) :
  p `prefix_of` w → (∀ b x, (b, x) ∈ w → Z.of_nat (length x) = BSIZE) → ∀ b x, (b, x) ∈ p → Z.of_nat (length x) = BSIZE.
Proof using Type. clear Hfuel. intros [k ->] Hw b x Hp. apply (Hw b). apply elem_of_app. by left. Qed.

(** The three moments of a crash during a commit. *)
Lemma crash_before start v d bs p :
  trans_ok start bs → p `prefix_of` log_writes start v bs →
  after d p start = d start ∧ ∀ b, home start b → recovered start [] (after d p) b = d b.
Proof using Type. clear Hfuel.
  intros T Hp. split.
  - apply after_ne. by apply (start_not_written start bs v).
  - intros b Hb. unfold recovered. simpl. apply after_ne. by apply (home_not_in_log_writes start bs T v).
Qed.

Definition committed (start : Z) (v : Z → list Z) (bs : list Z) (x1 : list Z) (q : list (Z * list Z)) : list (Z * list Z) :=
  log_writes start v bs ++ (start, x1) :: q.

Lemma crash_after start v d bs x1 q :
  trans_ok start bs → (∀ b, home start b → b ∉ bs → v b = d b) → q `prefix_of` ((λ b, (b, v b)) <$> bs) →
  after d (committed start v bs x1 q) start = x1 ∧
  ∀ b, home start b → recovered start bs (after d (committed start v bs x1 q)) b = v b.
Proof using Type. clear Hfuel.
  intros T Hcl Hq. unfold committed. rewrite after_app. cbn [after].
  assert (∀ b, b ∉ bs → b ∉ q.*1) as Hqk.
  { intros b Hb Hin. apply (keys_prefix _ _ _ Hq) in Hin. rewrite <- list_fmap_compose in Hin.
    apply list_elem_of_fmap in Hin as (c & -> & Hc). done. }
  assert (∀ b, in_log start b → b ∉ bs) as Hlog by (intros b Hb Hin; by destruct (to_range _ _ T _ Hin)).
  set (d1 := fupd _ start x1). split.
  - rewrite after_ne; [apply fupd_eq|]. apply Hqk, Hlog, start_in_log.
  - intros b Hb. unfold recovered. destruct (decide (b ∈ bs)) as [Hin|Hin].
    + apply list_elem_of_lookup in Hin as [t Ht]. rewrite (after_home_written start _ _ bs t b) by (done || apply T).
      assert (in_log start (slot start t)) as Hs by (eapply slot_in_log; [done|by eapply lookup_lt_Some]).
      rewrite after_ne by (by apply Hqk, Hlog). unfold d1. rewrite fupd_ne by (intros E; by apply (start_not_slot start t)).
      apply after_log_slot; [apply T|done].
    + rewrite after_ne by (by rewrite home_writes_keys). rewrite after_ne by (by apply Hqk).
      unfold d1. rewrite fupd_ne by (by apply home_start).
      rewrite after_ne by (by apply home_not_written). symmetry. by apply Hcl.
Qed.

Lemma after_map v d l b : after d ((λ b, (b, v b)) <$> l) b = if decide (b ∈ l) then v b else d b.
Proof using Type. clear Hfuel.
  revert d. induction l as [|c l IH]; intros d; simpl; [done|]. rewrite IH. unfold fupd.
  destruct (decide (b ∈ l)) as [Hb|Hb].
  - rewrite decide_True; [done|]. by right.
  - destruct (Z.eqb_spec b c) as [->|Hne].
    + rewrite decide_True; [done|]. by left.
    + rewrite decide_False; [done|]. by intros [?|?]%elem_of_cons.
Qed.

Lemma crash_done start v d bs x1 x2 :
  trans_ok start bs → (∀ b, home start b → b ∉ bs → v b = d b) →
  after d (commit_writes start v bs x1 x2) start = x2 ∧
  ∀ b, home start b → after d (commit_writes start v bs x1 x2) b = v b.
Proof using Type. clear Hfuel.
  intros T Hcl. unfold commit_writes. rewrite after_app. cbn [after]. rewrite after_snoc. split; [apply fupd_eq|].
  intros b Hb. pose proof (home_start start b Hb) as Hne. rewrite fupd_ne, after_map by done.
  destruct (decide (b ∈ bs)) as [Hin|Hin]; [done|]. rewrite fupd_ne by done.
  rewrite after_ne by (by apply home_not_written). symmetry. by apply Hcl.
Qed.

(** Where in a commit a crash can fall. *)
Lemma commit_prefix start v bs x1 x2 p :
  p `prefix_of` commit_writes start v bs x1 x2 →
  p `prefix_of` log_writes start v bs ∨
  (∃ q, q `prefix_of` ((λ b, (b, v b)) <$> bs) ∧ p = committed start v bs x1 q) ∨
  p = commit_writes start v bs x1 x2.
Proof using Type. clear Hfuel.
  unfold commit_writes, committed. intros [Hp|(q & -> & Hq)]%prefix_app_inv; [by left|].
  destruct q as [|c q]; [left; by rewrite app_nil_r|]. pose proof (prefix_cons_inv_1 _ _ _ _ Hq) as ->.
  apply prefix_cons_inv_2, prefix_app_inv in Hq as [Hq|(q' & -> & Hq)]; [right; left; by exists q|].
  destruct q' as [|c q'].
  - right. left. exists ((λ b, (b, v b)) <$> bs). split; [done|]. by rewrite app_nil_r.
  - pose proof (prefix_cons_inv_1 _ _ _ _ Hq) as ->. apply prefix_cons_inv_2, prefix_nil_inv in Hq as ->. by right; right.
Qed.

(** Booting on a disk that recovers to [f]. *)
Lemma reboot_to start nlog d bs f :
  (∀ b, Z.of_nat (length (d b)) = BSIZE) → 0 ≤ nlog < 2 ^ 31 → trans_ok start bs → hdr_is (d start) bs →
  (∀ b, home start b → recovered start bs d b = f b) →
  ∃ r, reboot start nlog d = Ret tt r ∧ (∀ b, home start b → disk (bio r) b = f b) ∧ get32 0 (disk (bio r) start) = 0.
Proof.
  intros Hlen Hnl T Hh Hf. destruct (reboot_home start nlog d bs Hlen Hnl T Hh) as (r & E & Hr & Hz & _).
  exists r. split; [exact E|]. split; [|exact Hz]. intros b Hb. rewrite Hr by exact Hb. by apply Hf.
Qed.
End commit.

#[global] Opaque reboot.
