(* ===== verification/LogProps.v ===== *)
(** The properties of the log: a commit is atomic across crashes, recovery can itself crash,
    and the space reservation of begin_op. *)

From S2P Require Import Prelude Sleeplock Bytes Bio BioInv Log LogInv LogCrash.

Section props.
Context (pid : Z) (fuel : nat) (Hfuel : (0 < fuel)%nat).

Lemma commit_lengths s v d tr x1 x2 s' :
  txn pid s v d tr →
  lst pid s' ∅ ∅ (after v (commit_writes (lstart s) v (logged s) x1 x2))
    (after d (commit_writes (lstart s) v (logged s) x1 x2)) (tr ++ commit_writes (lstart s) v (logged s) x1 x2) →
  Z.of_nat (length x1) = BSIZE → ∀ b x, (b, x) ∈ commit_writes (lstart s) v (logged s) x1 x2 → Z.of_nat (length x) = BSIZE.
Proof.
  intros X I' Hx1 b x Hin. assert (∀ c, Z.of_nat (length (v c)) = BSIZE) as Hv by (intros c; eapply lst_length, X).
  unfold commit_writes in Hin. rewrite elem_of_app, elem_of_cons, elem_of_app, list_elem_of_singleton in Hin.
  destruct Hin as [Hin|[Hin|[Hin|Hin]]].
  - apply elem_of_lookup_imap in Hin as (t & c & E & _). by injection E as _ ->.
  - by injection Hin as _ ->.
  - apply list_elem_of_fmap in Hin as (c & E & _). by injection E as _ ->.
  - injection Hin as _ ->. pose proof (lst_disk_length _ _ _ _ _ _ _ (lstart s) I') as Hl.
    unfold commit_writes in Hl. rewrite after_app in Hl. cbn [after] in Hl. by rewrite after_snoc, fupd_eq in Hl.
Qed.

(** After any prefix of a commit's writes, recovery finds the old state or the new one. *)
Lemma crash_recovers s v d tr x1 x2 nlog p :
  txn pid s v d tr → 0 ≤ nlog < 2 ^ 31 → hdr_is x1 (logged s) → hdr_is x2 [] →
  (∀ b x, (b, x) ∈ commit_writes (lstart s) v (logged s) x1 x2 → Z.of_nat (length x) = BSIZE) →
  p `prefix_of` commit_writes (lstart s) v (logged s) x1 x2 →
  ∃ r, reboot pid fuel (lstart s) nlog (after d p) = Ret tt r ∧
    ((∀ b, home (lstart s) b → disk (bio r) b = d b) ∨ (∀ b, home (lstart s) b → disk (bio r) b = v b)) ∧
    get32 0 (disk (bio r) (lstart s)) = 0.
Proof.
  intros X Hnl Hx1 Hx2 Hlen Hp. pose proof (tx_ok _ _ _ _ _ X) as T. pose proof (trans_ok_nil _ _ T) as T0.
  set (start := lstart s) in *. set (bs := logged s) in *.
  assert (∀ b, home start b → b ∉ bs → v b = d b) as Hcl.
  { intros b _ Hb. apply (lst_clean pid _ _ _ _ _ _ _ (tx_lst _ _ _ _ _ X)); [by rewrite elem_of_list_to_set|set_solver]. }
  assert (∀ b, Z.of_nat (length (after d p b)) = BSIZE) as Hl.
  { apply after_length; [intros b; eapply lst_disk_length, X|by eapply lengths_prefix]. }
  apply commit_prefix in Hp as [Hp|[(q & Hq & ->)| ->]].
  - destruct (crash_before start v d bs p T Hp) as [Es Eh].
    destruct (reboot_to pid fuel Hfuel start nlog (after d p) [] d) as (r & E & Hr & Hz); try assumption.
    { apply hdr_is_nil. rewrite Es. apply X. }
    exists r. split; [exact E|]. split; [by left|exact Hz].
  - destruct (crash_after start v d bs x1 q T Hcl Hq) as [Es Eh].
    destruct (reboot_to pid fuel Hfuel start nlog (after d (committed start v bs x1 q)) bs v) as (r & E & Hr & Hz); try assumption.
    { by rewrite Es. }
    exists r. split; [exact E|]. split; [by right|exact Hz].
  - destruct (crash_done start v d bs x1 x2 T Hcl) as [Es Eh].
    destruct (reboot_to pid fuel Hfuel start nlog (after d (commit_writes start v bs x1 x2)) [] v) as (r & E & Hr & Hz); try assumption.
    { by rewrite Es. }
    exists r. split; [exact E|]. split; [by right|exact Hz].
Qed.

(** * log_write *)

(** The in-memory header describes the transaction [bs]. *)
Record hdr_mem (s : log_state) (bs : list Z) : Prop := {
  hm_log : logged s = bs;
  hm_n : lh_n s = Z.of_nat (length bs);
  hm_len : length (lh_block s) = Z.to_nat LOGSIZE;
  hm_range : ∀ b, b ∈ bs → 0 ≤ b < 2 ^ 31;
}.

Lemma hdr_block_at s bs t b : hdr_mem s bs → bs !! t = Some b → lh_block s !! t = Some b ∧ block_at (Z.of_nat t) s = b.
Proof using Type.
  clear Hfuel. intros H Ht. rewrite <- (hm_log _ _ H) in Ht. unfold logged in Ht. apply lookup_take_Some in Ht as [Ht _].
  split; [done|]. unfold block_at. rewrite Nat2Z.id. by apply nth_lookup_Some.
Qed.

Lemma log_search s bs b m : hdr_mem s bs → ∀ t fuel', length bs = (t + m)%nat → (m < fuel')%nat → b ∉ take t bs →
  ∃ k, loop fuel' (log_write_body b) (Z.of_nat t) s = Ret (Z.of_nat k) s ∧
    (bs !! k = Some b ∨ k = length bs ∧ b ∉ bs).
Proof using Type.
  clear Hfuel. intros H. pose proof (hm_n _ _ H) as Hn. induction m as [|m IH]; intros t fuel' Hm Hf Hb; (destruct fuel' as [|fuel']; [lia|]).
  - exists t. split; [|right; split; [lia|by rewrite take_ge in Hb by lia]]. apply loop_done. unfold log_write_body. msimpl.
    by rewrite (proj2 (Z.ltb_ge _ _)) by lia.
  - destruct (lookup_lt_is_Some_2 bs t ltac:(lia)) as [c Hc]. destruct (hdr_block_at s bs t c H Hc) as [_ Eb].
    assert (log_write_body b (Z.of_nat t) s = if c =? b then Ret (inr (Z.of_nat t)) s else Ret (inl (Z.of_nat (S t))) s) as E.
    { unfold log_write_body. msimpl. rewrite (proj2 (Z.ltb_lt _ _)) by lia. rewrite Eb.
      rewrite u32_id by (pose proof (hm_range _ _ H c (list_elem_of_lookup_2 _ _ _ Hc)); lia).
      destruct (c =? b); [done|]. unfold mret, M_ret. f_equal. f_equal. lia. }
    destruct (Z.eqb_spec c b) as [->|Hne].
    + exists t. split; [by apply loop_done|by left].
    + rewrite (loop_next _ _ _ _ _ _ E). apply IH; [lia|lia|]. rewrite (take_S_r bs t c Hc).
      intros [?|Hin]%elem_of_app; [done|]. apply list_elem_of_singleton in Hin. by apply Hne.
Qed.

(** What the rest of the log's record keeps. *)
Record same_log (s s' : log_state) : Prop := {
  sl_lock : llock s' = false;
  sl_start : lstart s' = lstart s;
  sl_size : lsize s' = lsize s;
  sl_out : outstanding s' = outstanding s;
  sl_comm : committing s' = committing s;
}.

Lemma log_write_ok s P L v d tr bs b i :
  lst pid s P L v d tr → cached (bio s) b i → b ∈ L → hdr_mem s bs → P = list_to_set bs → llock s = false →
  lh_n s < LOGSIZE → lh_n s < lsize s - 1 → 1 ≤ outstanding s → 0 ≤ b < 2 ^ 31 →
  ∃ s' bs', log_write i s = Ret tt s' ∧ bs' = (if decide (b ∈ bs) then bs else bs ++ [b]) ∧
    hdr_mem s' bs' ∧ lst pid s' (list_to_set bs') L v d tr ∧ same_log s s' ∧
    (∀ c j, c ∈ L → cached (bio s) c j → cached (bio s') c j).
Proof using Type.
  clear Hfuel fuel. intros I Hc HL H HP Hlk Hn1 Hn2 Ho Hb. unfold log_write, acquire_l. msimpl. rewrite Hlk. msimpl.
  cbn [lh_n lsize outstanding set_llock].
  rewrite (proj2 (Z.leb_gt _ _)), (proj2 (Z.leb_gt _ _)), (proj2 (Z.ltb_ge _ _)) by lia. cbn [orb].
  pose proof Hc as (_ & _ & Eb). cbn [bio set_llock]. rewrite Eb.
  assert (hdr_mem (set_llock true s) bs) as H1 by (by destruct H; constructor).
  pose proof (hm_n _ _ H) as Hn. rewrite Hn, Nat2Z.id.
  destruct (log_search (set_llock true s) bs b (length bs) H1 0 (S (length bs))) as (k & E & Hk); [lia|lia|simpl; apply not_elem_of_nil|].
  change (Z.of_nat 0) with 0 in E. rewrite E. cbn [res_bind]. cbn [lh_n set_blocks set_llock lh_block]. rewrite Hn, Nat2Z.id, i32_id by lia.
  destruct Hk as [Hk|[-> Hnin]].
  - rewrite (proj2 (Z.eqb_neq _ _)) by (pose proof (lookup_lt_Some _ _ _ Hk); lia). unfold release_l.
    cbn [res_bind llock set_llock set_blocks]. eexists _, _. split; [done|]. split; [done|].
    rewrite decide_True by (by eapply list_elem_of_lookup_2).
    assert (<[k := b]> (lh_block s) = lh_block s) as Eid by (apply list_insert_id; by eapply hdr_block_at).
    split; [|split; [|split; [by constructor|done]]].
    + destruct H. constructor; simpl; rewrite ?Eid; try done.
    + rewrite <- HP. eapply lst_mem; [| |exact I]; done.
  - rewrite Z.eqb_refl. unfold LOGSIZE, MAXOPBLOCKS in *.
    assert (lst pid (set_blocks (<[length bs := b]> (lh_block s)) (set_llock true s)) P L v d tr) as I1 by (eapply lst_mem; [| |exact I]; done).
    destruct (lpin_ok pid _ _ _ _ _ _ b i I1 Hc HL) as (s2 & E2 & I2 & K2); [subst P; by rewrite elem_of_list_to_set|].
    rewrite E2. cbn [res_bind]. unfold release_l. cbn [llock set_n]. rewrite (k_mem _ _ _ K2). cbn [llock set_bio set_llock set_blocks].
    eexists _, _. split; [done|]. split; [done|]. rewrite decide_False by done.
    split; [|split; [|split; [by constructor|]]].
    + assert (length (lh_block s) = 30%nat) as Hlen by apply H.
      constructor; cbn [lh_n set_n set_llock set_bio set_blocks lh_block].
      * unfold logged. cbn [lh_n set_n set_llock set_bio set_blocks lh_block].
        rewrite Hn. replace (Z.to_nat (Z.of_nat (length bs) + 1)) with (S (length bs)) by lia.
        rewrite (take_S_r _ _ b) by (apply list_lookup_insert_eq; lia). rewrite take_insert_ge by lia.
        f_equal. rewrite <- (hm_log _ _ H) at 2. unfold logged. by rewrite Hn, Nat2Z.id.
      * rewrite length_app. simpl. lia.
      * rewrite length_insert. apply H.
      * intros c [Hc'|Hc']%elem_of_app; [by apply H|]. apply list_elem_of_singleton in Hc' as ->. done.
    + eapply lst_mem; [| |eapply lst_ext; [| | | |exact I2]]; try done.
      * simpl. rewrite (k_mem _ _ _ K2). done.
      * subst P. rewrite list_to_set_app. set_solver.
    + intros c j Hcl Hcj. apply (k_cached _ _ _ K2); done.
Qed.
End props.

(** * The claims *)

(** Between operations, with a transaction in memory and the log on disk empty: the cache
    shows the new contents, the disk has the old ones. *)
Definition pending (pid : Z) (s : log_state) : Prop :=
  txn pid s (view (bio s)) (disk (bio s)) (dtrace (bio s)) ∧ llock s = false ∧ committing s = false.

Lemma txn_mem pid s s' v d tr :
  bio s' = bio s → ldev s' = ldev s → lstart s' = lstart s → lh_n s' = lh_n s → lh_block s' = lh_block s →
  txn pid s v d tr → txn pid s' v d tr.
Proof.
  intros Eb Ed Es En El [I T Hn Hr He]. assert (logged s' = logged s) as Elog by (unfold logged; by rewrite En, El).
  constructor; rewrite ?Elog, ?Es, ?En; try done. by eapply lst_mem.
Qed.

(** The last [end_op] of a transaction, and a crash during it. *)
Lemma end_op_ok pid fuel s nlog :
  (0 < fuel)%nat → pending pid s → outstanding s = 1 → 0 < lh_n s → 0 ≤ nlog < 2 ^ 31 →
  ∃ s' w,
    end_op pid fuel s = Ret tt s' ∧ dtrace (bio s') = dtrace (bio s) ++ w ∧
    outstanding s' = 0 ∧ committing s' = false ∧ llock s' = false ∧ lh_n s' = 0 ∧
    (∀ b, home (lstart s) b → disk (bio s') b = view (bio s) b) ∧
    ∀ p, p `prefix_of` w →
      ∃ r, reboot pid fuel (lstart s) nlog (after (disk (bio s)) p) = Ret tt r ∧
        ((∀ b, home (lstart s) b → disk (bio r) b = disk (bio s) b) ∨
         (∀ b, home (lstart s) b → disk (bio r) b = view (bio s) b)) ∧
        get32 0 (disk (bio r) (lstart s)) = 0.
Proof.
  intros Hf (X & Hl & Hc) Ho Hn Hnl. unfold end_op, acquire_l. msimpl. rewrite Hl. msimpl.
  cbn [committing set_llock set_outstanding outstanding]. rewrite Hc, Ho. change (1 - 1) with 0. change (0 =? 0) with true. cbv iota beta.
  unfold release_l. cbn [res_bind llock set_committing set_outstanding set_llock].
  set (s1 := set_llock false _).
  assert (txn pid s1 (view (bio s)) (disk (bio s)) (dtrace (bio s))) as X1 by (by eapply txn_mem; [| | | | |exact X]).
  destruct (commit_ok pid fuel Hf s1 _ _ _ X1 Hn) as (s2 & x1 & x2 & E & K & Hx1 & Hx2 & Hlen & I). rewrite E. clear E.
  cbv zeta in I. change (lstart s1) with (lstart s) in *. change (logged s1) with (logged s) in *.
  cbn [res_bind]. unfold wakeup_l, modify. msimpl.
  assert (llock s2 = false) as Hl2 by (by rewrite K). rewrite Hl2. cbn [llock res_bind set_llock set_committing set_lwoken].
  set (w := commit_writes _ _ _ _ _) in *.
  eexists _, w. split; [reflexivity|]. cbn [bio dtrace set_llock set_lwoken set_committing outstanding committing llock lh_n].
  assert (outstanding s2 = 0 ∧ lh_n s2 = 0) as [Ho2 Hn2] by (by rewrite K).
  split; [apply I|]. split; [done|]. split; [done|]. split; [done|]. split; [done|]. split.
  - intros b Hb. rewrite (l_disk _ _ _ _ _ _ _ I). unfold w. apply crash_done; [apply X| |done].
    intros c _ Hcin. apply (lst_clean pid _ _ _ _ _ _ _ (tx_lst _ _ _ _ _ X)); [by rewrite elem_of_list_to_set|set_solver].
  - intros p Hp. apply (crash_recovers pid fuel Hf s _ _ _ x1 x2 nlog p X); try assumption.
    by apply (commit_lengths pid s _ _ _ x1 x2 s2 X I).
Qed.

(** C3. A transaction is atomic with respect to crashes.  When the last file system call of
    a transaction calls [end_op], the call returns with every block of the transaction at
    its home location and the log empty; and if the machine stops after any prefix of the
    disk writes made on the way, rebooting (the cache is lost, [initlog] recovers) succeeds
    and leaves on disk either everything as before the transaction or everything as after
    it, with the log empty again. *)
Theorem end_op_atomic pid fuel s nlog :
  (0 < fuel)%nat → pending pid s → outstanding s = 1 → 0 < lh_n s → 0 ≤ nlog < 2 ^ 31 →
  ∃ s' w,
    end_op pid fuel s = Ret tt s' ∧ dtrace (bio s') = dtrace (bio s) ++ w ∧
    outstanding s' = 0 ∧ committing s' = false ∧ llock s' = false ∧ lh_n s' = 0 ∧
    (∀ b, home (lstart s) b → disk (bio s') b = view (bio s) b) ∧
    ∀ p, p `prefix_of` w →
      ∃ r, reboot pid fuel (lstart s) nlog (after (disk (bio s)) p) = Ret tt r ∧
        ((∀ b, home (lstart s) b → disk (bio r) b = disk (bio s) b) ∨
         (∀ b, home (lstart s) b → disk (bio r) b = view (bio s) b)) ∧
        get32 0 (disk (bio r) (lstart s)) = 0.
Proof. apply end_op_ok. Qed.

(** C13. Recovery is idempotent.  On a disk whose log header announces the committed
    transaction [bs], booting succeeds; and if the machine stops after any prefix of the
    disk writes of that recovery and boots again, the second recovery ends with the same
    contents outside the log as the first would have. *)
Theorem recovery_idempotent pid fuel start nlog d bs :
  (0 < fuel)%nat → (∀ b, Z.of_nat (length (d b)) = BSIZE) → 0 ≤ nlog < 2 ^ 31 → trans_ok start bs → hdr_is (d start) bs →
  ∃ r, reboot pid fuel start nlog d = Ret tt r ∧
    (∀ t b, bs !! t = Some b → disk (bio r) b = d (slot start t)) ∧
    (∀ b, home start b → b ∉ bs → disk (bio r) b = d b) ∧
    ∀ p, p `prefix_of` dtrace (bio r) →
      ∃ r', reboot pid fuel start nlog (after d p) = Ret tt r' ∧ ∀ b, home start b → disk (bio r') b = disk (bio r) b.
Proof.
  intros Hf Hlen Hnl T Hh. destruct (reboot_home pid fuel Hf start nlog d bs Hlen Hnl T Hh) as (r & E & Hr & Hz & x & Ht & Hx & Hxl).
  exists r. split; [exact E|]. split; [|split].
  - intros t b Hb. assert (home start b) as Hhb by (apply (to_range _ _ T); by eapply list_elem_of_lookup_2).
    rewrite Hr by exact Hhb. unfold recovered. apply after_home_written; [apply T|exact Hb].
  - intros b Hhb Hb. rewrite Hr by exact Hhb. apply after_ne. by rewrite home_writes_keys.
  - clear E. intros p Hp. rewrite Ht in Hp.
    assert (∀ b, Z.of_nat (length (after d p b)) = BSIZE) as Hl.
    { apply after_length; [exact Hlen|]. eapply lengths_prefix; [exact Hp|]. intros b y [Hy|Hy]%elem_of_app.
      - apply elem_of_lookup_imap in Hy as (t & c & Ey & _). injection Ey as _ ->. apply Hlen.
      - apply list_elem_of_singleton in Hy. injection Hy as _ ->. exact Hxl. }
    apply prefix_snoc_inv in Hp as [Hp| ->].
    + destruct (reboot_to pid fuel Hf start nlog (after d p) bs (recovered start bs d)) as (r' & E' & Hr' & _); try assumption.
      * rewrite after_ne; [exact Hh|]. apply (not_home_home_writes start bs T d); [by left|exact Hp].
      * intros b Hb. unfold recovered. destruct (decide (b ∈ bs)) as [Hin|Hin].
        -- apply list_elem_of_lookup in Hin as [t Hbt]. rewrite !(after_home_written start _ _ bs t b) by (exact Hbt || apply T).
           apply after_ne, (not_home_home_writes start bs T d); [|exact Hp]. right.
           eapply slot_in_log; [exact T|by eapply lookup_lt_Some].
        -- rewrite !(after_ne _ (home_writes _ _ _)) by (by rewrite home_writes_keys). apply after_ne. intros Hk.
           apply (keys_prefix _ _ _ Hp) in Hk. by rewrite home_writes_keys in Hk.
      * exists r'. split; [exact E'|]. intros b Hb. rewrite Hr', Hr by exact Hb. reflexivity.
    + destruct (reboot_to pid fuel Hf start nlog (after d (home_writes start d bs ++ [(start, x)])) [] (recovered start bs d)) as (r' & E' & Hr' & _); try assumption.
      * by eapply trans_ok_nil.
      * by rewrite after_snoc, fupd_eq.
      * intros b Hb. unfold recovered at 1. simpl. rewrite after_snoc, fupd_ne; [done|by apply home_start].
      * exists r'. split; [exact E'|]. intros b Hb. rewrite Hr', Hr by exact Hb. reflexivity.
Qed.

(** [begin_op] reserves log space.  It never panics, sleeps only without the log's lock
    and only while a commit is in progress or ten more blocks for one more operation would
    not fit; when it returns no commit is in progress and ten blocks for every outstanding
    operation fit in what is left of the log. *)
Theorem begin_op_reserves n s :
  llock s = false →
  meets (λ c s', c = ChLog ∧ llock s' = false ∧
           (committing s' = true ∨ LOGSIZE < lh_n s' + (outstanding s' + 1) * MAXOPBLOCKS))
    (λ _ s', llock s' = false)
    (λ _ s', llock s' = false ∧ committing s' = false ∧ lh_n s' + outstanding s' * MAXOPBLOCKS ≤ LOGSIZE)
    (begin_op n s).
Proof.
  intros Hl. unfold begin_op, acquire_l. msimpl. rewrite Hl. msimpl.
  apply (meets_loop _ _ (λ _ s', llock s' = true)); [|done]. intros [] s1 Hl1. unfold begin_op_body, sleep_l, release_l, sleep_on, acquire_l.
  msimpl. destruct (committing s1) eqn:Ec; [|destruct (Z.ltb_spec LOGSIZE (lh_n s1 + (outstanding s1 + 1) * MAXOPBLOCKS))];
    msimpl; cbn [llock set_outstanding]; rewrite Hl1; cbn [res_bind meets].
  - split; [by split_and!; [| |left]|]. intros s2 Hl2. by rewrite Hl2.
  - split; [by split_and!; [| |right]|]. intros s2 Hl2. by rewrite Hl2.
  - done.
Qed.

Lemma begin_op_reserves_witness :
  ∃ s', begin_op 1 (boot_log (boot_cache (λ _, []))) = Ret tt s' ∧ lh_n s' + outstanding s' * MAXOPBLOCKS ≤ LOGSIZE.
Proof.
  pose proof (begin_op_reserves 1 (boot_log (boot_cache (λ _, []))) eq_refl) as W.
  eexists. split; [reflexivity|]. apply W.
Defined.

(** C40. The log is one block smaller than what [begin_op] reserves.  mkfs makes the log
    [LOGSIZE] blocks long, header included, so it holds [LOGSIZE - 1] blocks; [begin_op]
    admits a third operation into an empty log, promising ten blocks to each, but the
    thirtieth block makes [log_write] panic. *)
Theorem log_too_small s b :
  llock s = false → committing s = false → lsize s = LOGSIZE →
  (outstanding s = 2 → lh_n s = 0 → begin_op 1 s = Ret tt (set_llock false (set_outstanding 3 (set_llock true s)))) ∧
  (lh_n s = 3 * MAXOPBLOCKS - 1 → log_write b s = Panic "too big a transaction").
Proof.
  intros Hl Hc Hs. split.
  - intros Ho Hn. unfold begin_op, acquire_l. msimpl. rewrite Hl. msimpl. rewrite (loop_done _ _ _ tt _ (set_llock false (set_outstanding 3 (set_llock true s)))); [done|].
    unfold begin_op_body. msimpl. cbn [committing set_llock lh_n outstanding]. rewrite Hc, Hn, Ho. simpl. by rewrite Ho.
  - intros Hn. unfold log_write, acquire_l. msimpl. rewrite Hl. msimpl. cbn [lh_n set_llock lsize]. by rewrite Hn, Hs.
Qed.

(** * A transaction that exists *)

(** What a file system call does to a block. *)
Definition put_block (pid : Z) (fuel : nat) (b : Z) (x : list Z) : M log_state unit :=
  i ← lread pid fuel b; modify (store_data i x);; log_write i;; on_bio (brelse pid i).

Lemma put_block_ok pid fuel s v d tr bs b x :
  (0 < fuel)%nat → lst pid s (list_to_set bs) ∅ v d tr → hdr_mem s bs → trans_ok (lstart s) (bs ++ [b]) →
  Z.of_nat (length x) = BSIZE → llock s = false → Z.of_nat (length bs) < lsize s - 1 → Z.of_nat (length bs) < 29 → 1 ≤ outstanding s →
  ∃ s', put_block pid fuel b x s = Ret tt s' ∧ hdr_mem s' (bs ++ [b]) ∧
    lst pid s' (list_to_set (bs ++ [b])) ∅ (fupd v b x) d tr ∧ same_log s s'.
Proof.
  intros Hf I H T Hx Hl Hn Hn' Ho. pose proof (hm_n _ _ H) as Hbs. destruct (to_range _ _ T b) as [Hb _]; [set_solver|].
  pose proof (to_nodup _ _ T) as Hnd. apply NoDup_app in Hnd as (Hnd & Hnb & _).
  assert (b ∉ bs) as Hbn by (intros Hin; apply (Hnb b Hin); by left).
  unfold put_block. msimpl.
  destruct (lread_ok pid fuel Hf s _ _ _ _ _ b I) as (i & s1 & E1 & I1 & C1 & K1); [lia|set_solver| |].
  { right. rewrite union_empty_r_L, size_list_to_set by done. unfold NBUF. lia. }
  rewrite E1. clear E1. cbn [res_bind].
  destruct (store_ok pid s1 _ _ _ _ _ b i x I1 C1 ltac:(set_solver) Hx) as [I2 K2].
  assert (store_data i x s1 = set_bio (bio (store_data i x s1)) s) as K by (rewrite (k_mem _ _ _ K2), (k_mem _ _ _ K1); done).
  assert (hdr_mem (store_data i x s1) bs) as H2 by (rewrite K; by destruct H; constructor).
  pose proof (k_cached _ _ _ K2 b i ltac:(set_solver) C1) as C2. unfold LOGSIZE, MAXOPBLOCKS.
  destruct (log_write_ok pid (store_data i x s1) _ _ _ _ _ bs b i I2 C2 ltac:(set_solver) H2 eq_refl) as (s3 & bs' & E3 & Ebs & H3 & I3 & S3 & C3);
    try (rewrite K; cbn [llock lh_n lsize outstanding set_bio]; unfold LOGSIZE, MAXOPBLOCKS; lia || done); [lia|].
  rewrite E3. clear E3. cbn [res_bind]. rewrite decide_False in Ebs by done. subst bs'.
  destruct (lrelse_ok pid s3 _ _ _ _ _ b i I3) as (s4 & E4 & I4 & K4); [apply C3; [set_solver|done]|set_solver|left; set_solver|].
  rewrite E4. clear E4. exists s4. split; [done|]. split; [|split].
  - rewrite (k_mem _ _ _ K4). by destruct H3; constructor.
  - eapply lst_ext; [| | | |exact I4]; try done. set_solver.
  - assert (same_log s (store_data i x s1)) as S1 by (rewrite K; by constructor).
    rewrite (k_mem _ _ _ K4). destruct S1, S3. constructor; simpl; congruence.
Qed.

Definition zeros : list Z := replicate (Z.to_nat BSIZE) 0.
Definition ones : list Z := replicate (Z.to_nat BSIZE) 1.

Lemma trans_50 : trans_ok 2 [50].
Proof.
  constructor; try (unfold LOGSIZE, MAXOPBLOCKS; simpl; lia); [apply NoDup_singleton|].
  intros b ->%list_elem_of_singleton. unfold in_log, LOGSIZE, MAXOPBLOCKS. lia.
Qed.

(** Booted on a zeroed disk, with block 50 changed in a transaction that is about to end. *)
Lemma pending_50 : ∃ s, pending 1 s ∧ outstanding s = 1 ∧ 0 < lh_n s ∧ lstart s = 2 ∧
  view (bio s) 50 = ones ∧ disk (bio s) 50 = zeros.
Proof.
  destruct (reboot_ok 1 1 ltac:(lia) 2 30 (λ _, zeros) []) as (r & x & _ & Hx & Id & I); try done.
  { apply (trans_ok_nil 2 [50] trans_50). }
  cbv zeta in I. set (s0 := set_outstanding 1 r). set (d := after (λ _, zeros) _) in I.
  assert (lst 1 s0 (list_to_set []) ∅ d d (home_writes 2 (λ _, zeros) [] ++ [(2, x)])) as I0 by (by eapply lst_mem; [| |exact I]).
  assert (lstart s0 = 2) as Es by apply Id.
  destruct (put_block_ok 1 1 s0 _ _ _ [] 50 ones ltac:(lia) I0) as (s & _ & H & I' & S); try done.
  { constructor; try apply Id; try done. unfold logged. simpl. rewrite (id_n _ _ _ Id). done. intros b Hb. by apply elem_of_nil in Hb. }
  { rewrite Es. apply trans_50. }
  { apply Id. }
  { simpl. rewrite (id_size _ _ _ Id). lia. }
  simpl app in *. exists s. assert (lstart s = 2) as Es' by (by rewrite (sl_start _ _ S)).
  assert (lst 1 s (list_to_set [50]) ∅ (view (bio s)) (disk (bio s)) (dtrace (bio s))) as J.
  { destruct I'. by constructor. }
  split; [split; [|split]|].
  - constructor; rewrite ?(hm_log _ _ H), ?Es', ?(hm_n _ _ H); try done; [apply trans_50|].
    rewrite (l_disk _ _ _ _ _ _ _ I'). unfold d. simpl. rewrite fupd_eq. apply Hx.
  - apply S.
  - rewrite (sl_comm _ _ S). apply Id.
  - rewrite (sl_out _ _ S), (hm_n _ _ H), (l_view _ _ _ _ _ _ _ I'), (l_disk _ _ _ _ _ _ _ I'). split_and!; try done.
Qed.

Lemma end_op_atomic_witness :
  ∃ s s' w, view (bio s) 50 = ones ∧ disk (bio s) 50 = zeros ∧ end_op 1 1 s = Ret tt s' ∧ disk (bio s') 50 = ones ∧
    ∀ p, p `prefix_of` w → ∃ r, reboot 1 1 2 30 (after (disk (bio s)) p) = Ret tt r ∧
      (disk (bio r) 50 = zeros ∨ disk (bio r) 50 = ones).
Proof.
  destruct pending_50 as (s & Hp & Ho & Hn & Es & Hv & Hd).
  destruct (end_op_atomic 1 1 s 30) as (s' & w & E & _ & _ & _ & _ & _ & Hh & Hc); [lia|exact Hp|exact Ho|exact Hn|lia|].
  rewrite Es in Hh, Hc. assert (home 2 50) as H50 by (unfold home, in_log, LOGSIZE, MAXOPBLOCKS; lia).
  exists s, s', w. split; [exact Hv|]. split; [exact Hd|]. split; [exact E|]. split; [by rewrite Hh|].
  intros p Hpre. destruct (Hc p Hpre) as (r & Er & Hr & _). exists r. split; [exact Er|].
  destruct Hr as [Hr|Hr]; rewrite (Hr 50 H50); [left; exact Hd|right; exact Hv].
Defined.

Definition disk_50 : Z → list Z :=
  fupd (fupd (λ _, zeros) 2 (set32 0 1 (set32 4 50 zeros))) 3 ones.

Lemma recovery_idempotent_witness :
  ∃ r, reboot 1 1 2 30 disk_50 = Ret tt r ∧ disk (bio r) 50 = ones ∧
    ∀ p, p `prefix_of` dtrace (bio r) → ∃ r', reboot 1 1 2 30 (after disk_50 p) = Ret tt r' ∧ disk (bio r') 50 = ones.
Proof.
  destruct (recovery_idempotent 1 1 2 30 disk_50 [50]) as (r & E & Hr & _ & Hp).
  - lia.
  - intros b. unfold disk_50, fupd. destruct (b =? 3); [done|]. destruct (b =? 2); reflexivity.
  - lia.
  - apply trans_50.
  - constructor; [reflexivity|]. intros [|t] b Hb; [|done]. injection Hb as <-. reflexivity.
  - assert (disk (bio r) 50 = ones) as E50 by (rewrite (Hr 0%nat 50) by reflexivity; reflexivity).
    exists r. split; [exact E|]. split; [exact E50|]. intros p Hpre. destruct (Hp p Hpre) as (r' & Er' & Hr').
    exists r'. split; [exact Er'|]. rewrite Hr'; [exact E50|]. unfold home, in_log, LOGSIZE, MAXOPBLOCKS. lia.
Defined.

Lemma log_too_small_witness :
  let s := LogState (boot_cache (λ _, [])) false 2 30 2 false 1 0 [] [] in
  begin_op 1 s = Ret tt (set_llock false (set_outstanding 3 (set_llock true s))) ∧
  log_write 0 (set_n 29 s) = Panic "too big a transaction".
Proof.
  intros s. split; [apply (log_too_small s 0)|apply (log_too_small (set_n 29 s) 0)]; reflexivity.
Defined.
