(* ===== verification/Store.v ===== *)
(** What the file system needs of the layers below it: blocks that are read, changed,
    logged and released (bread, b->data, log_write, brelse of bio.c and log.c).

    [Store] is the operations and [StoreSpec] what they promise.  The file system's code and
    theorems are written against this interface; StoreLog.v shows that the buffer cache with
    the log implements it. *)

From S2P Require Import Prelude Bytes Bio.

Class Store (S : Type) := {
  bread : Z → Z → M S nat;
  bdata : nat → S → list Z;
  bstore : nat → list Z → S → S;
  log_write : nat → M S unit;
  brelse : nat → M S unit;
  initlog : Z → Z → Z → M S unit;
}.

(** The blocks a transaction can change: those of the log, less one. *)
Definition LOGCAP : nat := 29.

Class StoreSpec (S : Type) `{!Store S} := {
  (** the contents of a block, as the kernel sees them *)
  blk : S → Z → list Z;
  (** what a crash now would leave of a block *)
  durable : S → Z → list Z;
  (** inside a transaction that has changed the blocks [P], holding the blocks [L] *)
  ready : S → gset Z → gset Z → Prop;
  (** buffer [i] is the one holding block [b] *)
  handle : S → nat → Z → Prop;
  (** a block of the file system, not of the log *)
  usable : Z → Prop;

  spec_length s P L b : ready s P L → Z.of_nat (length (blk s b)) = BSIZE;
  spec_bytes s P L b : ready s P L → usable b → bytes (blk s b);
  spec_read s P L b :
    ready s P L → usable b → b ∉ L → (size (P ∪ L) < NBUF)%nat →
    ∃ i s', bread ROOTDEV b s = Ret i s' ∧ ready s' P ({[b]} ∪ L) ∧ handle s' i b ∧
      (∀ c, blk s' c = blk s c) ∧ (∀ c, durable s' c = durable s c) ∧ (∀ c j, c ∈ L → handle s j c → handle s' j c);
  spec_data s P L i b : ready s P L → handle s i b → bdata i s = blk s b;
  (** changing a held block and logging the change *)
  spec_write s P L i b d :
    ready s P L → usable b → b ∈ L → handle s i b → Z.of_nat (length d) = BSIZE → bytes d → (size P < LOGCAP)%nat →
    ∃ s', log_write i (bstore i d s) = Ret tt s' ∧ ready s' ({[b]} ∪ P) L ∧
      blk s' b = d ∧ (∀ c, c ≠ b → blk s' c = blk s c) ∧ (∀ c, durable s' c = durable s c) ∧
      (∀ c j, c ∈ L → handle s j c → handle s' j c);
  spec_relse s P L i b :
    ready s P L → b ∈ L → handle s i b →
    ∃ s', brelse i s = Ret tt s' ∧ ready s' P (L ∖ {[b]}) ∧
      (∀ c, blk s' c = blk s c) ∧ (∀ c, durable s' c = durable s c) ∧ (∀ c j, c ∈ L → c ≠ b → handle s j c → handle s' j c);
}.
