(* ===== verification/StoreLog.v ===== *)
(** The buffer cache with the log implements the block store of Store.v. *)

From S2P Require Import Prelude Bytes Sleeplock Bio BioInv Log LogInv LogCrash LogProps Store.

Section store.
Context (pid : Z) (fuel : nat) (start out : Z).

(** bread, log_write and brelse as the file system calls them: in process [pid]. *)
Definition store_log : Store log_state := {|
  Store.bread dev b := on_bio (Bio.bread pid fuel dev b);
  Store.bdata := buf_data;
  Store.bstore := store_data;
  Store.log_write := Log.log_write;
  Store.brelse i := on_bio (Bio.brelse pid i);
  Store.initlog := Log.initlog pid fuel;
|}.

Definition log_usable (b : Z) : Prop := 0 ≤ b < 2 ^ 31 ∧ ¬ in_log start b.

(** Inside a transaction, with disk [d] and [out] file system calls outstanding: the blocks [P] are in the log's header, [L] are held. *)
Record in_txn (s : log_state) (P L : gset Z) (bs : list Z) (v d : Z → list Z) (tr : list (Z * list Z)) : Prop := {
  it_P : P = list_to_set bs;
  it_lst : lst pid s P L v d tr;
  it_hdr : hdr_mem s bs;
  it_lock : llock s = false;
  it_out : outstanding s = out;
  it_pos : 1 ≤ out;
  it_comm : committing s = false;
  it_size : lsize s = LOGSIZE;
  it_start : lstart s = start;
  it_trans : trans_ok start bs;
  it_clean : ∀ b, b ∈ L → b ∈ P ∨ v b = d b;
  it_bytes : ∀ b, log_usable b → bytes (v b);
  it_empty : get32 0 (d start) = 0;
}.

Lemma same_view {s P L bs v d tr} b : in_txn s P L bs v d tr → view (bio s) b = v b.
Proof. intros T. apply (l_view _ _ _ _ _ _ _ (it_lst _ _ _ _ _ _ _ T)). Qed.

Lemma same_disk {s P L bs v d tr} b : in_txn s P L bs v d tr → disk (bio s) b = d b.
Proof. intros T. apply (l_disk _ _ _ _ _ _ _ (it_lst _ _ _ _ _ _ _ T)). Qed.

Lemma on_bio_lread s b : ldev s = ROOTDEV → 0 ≤ b < 2 ^ 31 → on_bio (Bio.bread pid fuel ROOTDEV b) s = lread pid fuel b s.
Proof. intros Hd Hb. unfold lread. msimpl. by rewrite Hd, u32_id by lia. Qed.

Lemma kept_txn s s' P L L' bs v d tr :
  in_txn s P L bs v d tr → kept s s' L → lst pid s' P L' v d tr → (∀ b, b ∈ L' → b ∈ P ∨ v b = d b) →
  in_txn s' P L' bs v d tr.
Proof.
  intros [] K I Hcl. constructor; try done; try (rewrite (k_mem _ _ _ K); done).
  rewrite (k_mem _ _ _ K). destruct it_hdr0. by constructor.
Qed.

Lemma txn_read (Hf : (0 < fuel)%nat) s P L bs v d tr b :
  in_txn s P L bs v d tr → log_usable b → b ∉ L → (size (P ∪ L) < NBUF)%nat →
  ∃ i s', on_bio (Bio.bread pid fuel ROOTDEV b) s = Ret i s' ∧ in_txn s' P ({[b]} ∪ L) bs v d tr ∧ cached (bio s') b i ∧
    (∀ c j, c ∈ L → cached (bio s) c j → cached (bio s') c j).
Proof.
  intros T [Hb _] HL Hr. pose proof (it_lst _ _ _ _ _ _ _ T) as I.
  rewrite (on_bio_lread s b (l_dev _ _ _ _ _ _ _ I) Hb).
  destruct (lread_ok pid fuel Hf s P L v d tr b I ltac:(lia) HL (or_intror Hr)) as (i & s' & E & I' & C & K).
  exists i, s'. split; [done|]. split; [|split; [done|apply K]].
  eapply kept_txn; [done|exact K|done|]. intros c [Hc|Hc]%elem_of_union; [|by apply T].
  apply elem_of_singleton in Hc as ->. destruct (decide (b ∈ P)); [by left|right].
  apply (lst_clean pid _ _ _ _ _ _ _ I); done.
Qed.

Lemma txn_relse s P L bs v d tr b i :
  in_txn s P L bs v d tr → b ∈ L → cached (bio s) b i →
  ∃ s', on_bio (Bio.brelse pid i) s = Ret tt s' ∧ in_txn s' P (L ∖ {[b]}) bs v d tr ∧
    (∀ c j, c ∈ L → cached (bio s) c j → cached (bio s') c j).
Proof.
  intros T HL C. destruct (lrelse_ok pid s P L v d tr b i (it_lst _ _ _ _ _ _ _ T) C HL (it_clean _ _ _ _ _ _ _ T b HL))
    as (s' & E & I' & K).
  exists s'. split; [done|]. split; [|apply K]. eapply kept_txn; [done|exact K|done|].
  intros c [Hc _]%elem_of_difference. by apply T.
Qed.

Lemma txn_size_log s P L bs v d tr : in_txn s P L bs v d tr → Z.of_nat (size P) = lh_n s.
Proof.
  intros T. rewrite (it_P _ _ _ _ _ _ _ T), size_list_to_set by apply (it_trans _ _ _ _ _ _ _ T).
  symmetry. apply (it_hdr _ _ _ _ _ _ _ T).
Qed.

Lemma trans_add bs b : trans_ok start bs → log_usable b → Z.of_nat (length bs) + 1 < LOGSIZE → b ∉ bs → trans_ok start (bs ++ [b]).
Proof.
  intros [Hs Hl Hn Hr] [Hb Hu] Hlen Hnin. constructor; [done| | |].
  - rewrite length_app. simpl. lia.
  - apply NoDup_app. split; [done|]. split; [|apply NoDup_singleton]. intros x Hx ->%list_elem_of_singleton. done.
  - intros c [Hc|Hc]%elem_of_app; [by apply Hr|]. by apply list_elem_of_singleton in Hc as ->.
Qed.

Lemma txn_write s P L bs v d tr i b x :
  in_txn s P L bs v d tr → log_usable b → b ∈ L → cached (bio s) b i → Z.of_nat (length x) = BSIZE → bytes x →
  (size P < LOGCAP)%nat →
  ∃ s' bs', Log.log_write i (store_data i x s) = Ret tt s' ∧ in_txn s' ({[b]} ∪ P) L bs' (fupd v b x) d tr ∧
    (∀ c j, c ∈ L → cached (bio s) c j → cached (bio s') c j).
Proof.
  intros T Hu HL C Hx Hby Hsz. pose proof (txn_size_log _ _ _ _ _ _ _ T) as Hn. destruct T. unfold LOGCAP in *.
  destruct (store_ok pid s P L v d tr b i x it_lst0 C HL Hx) as [I1 K1].
  assert (hdr_mem (store_data i x s) bs) as H1' by (destruct it_hdr0; by constructor).
  assert (lh_n s < 29) as Hn29 by lia.
  destruct (log_write_ok pid (store_data i x s) P L _ d tr bs b i I1 (k_cached _ _ _ K1 b i HL C) HL H1' it_P0 it_lock0)
    as (s' & bs' & E & Ebs & H' & I' & S' & C'); try (cbn [lh_n lsize outstanding store_data set_bio]; unfold LOGSIZE, MAXOPBLOCKS in *; lia).
  { apply Hu. }
  exists s', bs'. split; [done|]. destruct S' as [Sl Ss Sz So Sc]. cbn [lstart lsize outstanding committing store_data set_bio] in *.
  assert (list_to_set bs' = {[b]} ∪ P) as EP.
  { rewrite Ebs, it_P0. destruct (decide (b ∈ bs)) as [Hin|Hin]; [set_solver|]. rewrite list_to_set_app_L. set_solver. }
  rewrite EP in I'. split.
  - constructor; try done; try congruence; try lia.
    + rewrite Ebs. destruct (decide (b ∈ bs)); [done|]. apply trans_add; try done.
      pose proof (hm_n _ _ it_hdr0). unfold LOGSIZE, MAXOPBLOCKS. lia.
    + intros c Hc. destruct (decide (c = b)) as [->|Hne]; [left; by apply elem_of_union_l, elem_of_singleton|].
      rewrite fupd_ne by done. destruct (it_clean0 c Hc); [left; by apply elem_of_union_r|by right].
    + intros c Hc. unfold fupd. destruct (c =? b); [done|by apply it_bytes0].
  - intros c j Hc Hj. apply C'; [done|]. by apply (k_cached _ _ _ K1).
Qed.

Definition log_ready (s : log_state) (P L : gset Z) : Prop := ∃ bs v d tr, in_txn s P L bs v d tr.

(** The interface holds. *)
Definition store_log_spec (Hf : (0 < fuel)%nat) : @StoreSpec log_state store_log.
Proof.
  refine {| blk s b := view (bio s) b; durable s b := disk (bio s) b; ready := log_ready; handle s i b := cached (bio s) b i; usable := log_usable |}.
  - intros s P L b (bs & v & d & tr & T). eapply view_length, (l_inv _ _ _ _ _ _ _ (it_lst _ _ _ _ _ _ _ T)).
  - intros s P L b (bs & v & d & tr & T) Hu. rewrite (same_view b T). by apply T.
  - intros s P L b (bs & v & d & tr & T) Hu HL Hr.
    destruct (txn_read Hf s P L bs v d tr b T Hu HL Hr) as (i & s' & E & T' & C & K).
    exists i, s'. split; [exact E|]. split; [by exists bs, v, d, tr|]. split; [done|].
    split; [|split; [intros c; by rewrite (same_disk c T'), (same_disk c T)|done]].
    intros c. by rewrite (same_view c T'), (same_view c T).
  - intros s P L i b (bs & v & d & tr & T) C. rewrite (same_view b T). by eapply buf_data_ok; [apply T|].
  - intros s P L i b x (bs & v & d & tr & T) Hu HL C Hx Hby Hsz.
    destruct (txn_write s P L bs v d tr i b x T Hu HL C Hx Hby Hsz) as (s' & bs' & E & T' & K).
    exists s'. split; [exact E|]. split; [by eexists _, _, _, _|]. split; [by rewrite (same_view b T'), fupd_eq|].
    split; [|split; [intros c; by rewrite (same_disk c T'), (same_disk c T)|done]].
    intros c Hc. by rewrite (same_view c T'), (same_view c T), fupd_ne.
  - intros s P L i b (bs & v & d & tr & T) HL C. destruct (txn_relse s P L bs v d tr b i T HL C) as (s' & E & T' & K).
    exists s'. split; [exact E|]. split; [by eexists _, _, _, _|].
    split; [|split; [intros c; by rewrite (same_disk c T'), (same_disk c T)|intros c j Hc _; by apply K]].
    intros c. by rewrite (same_view c T'), (same_view c T).
Defined.
End store.

(** A transaction that holds no block is what [end_op] commits. *)
Lemma ready_pending pid start out s P :
  log_ready pid start out s P ∅ → (size P < NBUF)%nat →
  pending pid s ∧ lstart s = start ∧ outstanding s = out ∧ lh_n s = Z.of_nat (size P).
Proof.
  intros (bs & v & d & tr & T) Hsz. pose proof (txn_size_log _ _ _ _ _ _ _ _ _ _ T) as Hn. destruct T.
  split; [|done]. split; [|done]. pose proof (hm_log _ _ it_hdr0) as El. constructor; rewrite ?El, ?it_start0.
  - destruct it_lst0. rewrite <- it_P0. by constructor.
  - done.
  - apply it_hdr0.
  - lia.
  - by rewrite (l_disk _ _ _ _ _ _ _ it_lst0).
Qed.

(** The first transaction after booting on a disk whose log is empty. *)
Lemma boot_ready pid fuel start d :
  (0 < fuel)%nat → (∀ b, Z.of_nat (length (d b)) = BSIZE) → (∀ b, bytes (d b)) → trans_ok start [] → get32 0 (d start) = 0 →
  ∃ s0 s, reboot pid fuel start LOGSIZE d = Ret tt s0 ∧ begin_op 1 s0 = Ret tt s ∧
    log_ready pid start 1 s ∅ ∅ ∧ ∀ b, ¬ in_log start b → view (bio s) b = d b.
Proof.
  intros Hf Hlen Hby T H0.
  destruct (reboot_ok pid fuel Hf start LOGSIZE d [] Hlen ltac:(done) T (hdr_is_nil _ H0)) as (r & x & E & Hx & [] & I).
  cbv zeta in I. simpl app in I. exists r, (set_llock false (set_outstanding 1 (set_llock true r))). split; [exact E|]. clear E.
  assert (∀ b, ¬ in_log start b → fupd d start x b = d b) as Hhome.
  { intros b Hb. apply fupd_ne. intros ->. apply Hb, start_in_log. }
  split; [|split].
  - unfold begin_op, acquire_l. msimpl. rewrite id_lock. msimpl. apply loop_done. unfold begin_op_body. msimpl.
    cbn [committing lh_n outstanding set_llock]. rewrite id_comm, id_n, id_out. change (LOGSIZE <? _) with false. cbv iota. unfold release_l. cbn. by rewrite id_out.
  - exists [], (fupd d start x), (fupd d start x), [(start, x)]. constructor; cbn [llock outstanding committing lsize lstart set_llock set_outstanding]; try done.
    + by eapply lst_mem; [| |exact I].
    + constructor; cbn; try done; [unfold logged; cbn; by rewrite id_n|intros b Hb; by apply elem_of_nil in Hb].
    + intros b [_ Hb]. rewrite Hhome by done. apply Hby.
    + rewrite fupd_eq. apply Hx.
  - intros b Hb. cbn [bio set_llock set_outstanding]. rewrite (l_view _ _ _ _ _ _ _ I). by apply Hhome.
Qed.
