(* ===== verification/Fs.v ===== *)
(** The file system, kernel/fs.c: block allocator, inodes, file contents, directories and
    path names, over the block operations of [Store].

    The state [fs S] is the block store together with the super block and the table of
    in-memory inodes; an inode pointer is an index in the table.  A transfer to the caller
    ([either_copyout]) is a list of bytes delivered, one from the caller ([either_copyin]) a
    function giving the bytes at an offset; both can fail. *)

From S2P Require Import Prelude Bytes Sleeplock Bio Store.

Definition ROOTINO : Z := 1.
Definition FSMAGIC : Z := 0x10203040.
Definition NDIRECT : Z := 12.
Definition NINDIRECT : Z := BSIZE / 4.
Definition MAXFILE : Z := NDIRECT + NINDIRECT.
Definition DINODE : Z := 64.
Definition IPB : Z := BSIZE / DINODE.
Definition BPB : Z := BSIZE * 8.
Definition DIRSIZ : Z := 14.
Definition DIRENT : Z := 16.
Definition NINODE : nat := 50.
Definition T_DIR : Z := 1.
Definition T_FILE : Z := 2.
Definition T_DEVICE : Z := 3.

Record superblock := Superblock {
  magic : Z;
  sb_size : Z;
  nblocks : Z;
  ninodes : Z;
  nlog : Z;
  logstart : Z;
  inodestart : Z;
  bmapstart : Z;
}.

(** The part of an inode that is on disk. *)
Record dinode := Dinode {
  d_type : Z;
  d_major : Z;
  d_minor : Z;
  d_nlink : Z;
  d_size : Z;
  d_addrs : list Z;
}.

Record inode := Inode {
  idev : Z;
  inum : Z;
  ref : Z;
  ilk : sleeplock;
  ivalid : bool;
  idata : dinode;
}.

#[export] Instance inode_inhabited : Inhabited inode := populate (Inode 0 0 0 initsleeplock false (Dinode 0 0 0 0 0 [])).

Record stat := Stat { st_dev : Z; st_ino : Z; st_type : Z; st_nlink : Z; st_size : Z }.

Definition IBLOCK (i : Z) (sb : superblock) : Z := i / IPB + inodestart sb.
Definition BBLOCK (b : Z) (sb : superblock) : Z := b / BPB + bmapstart sb.

(** The disk formats. *)
Definition parse_sb (d : list Z) : superblock :=
  Superblock (get32 0 d) (get32 4 d) (get32 8 d) (get32 12 d) (get32 16 d) (get32 20 d) (get32 24 d) (get32 28 d).

(** Offset of inode [i] in its block, and its fields there. *)
Definition dinode_off (i : Z) : nat := Z.to_nat (DINODE * (i mod IPB)).

Definition get_dinode (o : nat) (d : list Z) : dinode :=
  Dinode (i16 (get16 o d)) (i16 (get16 (o + 2) d)) (i16 (get16 (o + 4) d)) (i16 (get16 (o + 6) d)) (get32 (o + 8) d)
    ((λ k, get32 (o + 12 + 4 * k) d) <$> seq 0 13).

Fixpoint put_addrs (o : nat) (l : list Z) (d : list Z) : list Z :=
  match l with
  | [] => d
  | a :: l => put_addrs (o + 4) l (set32 o a d)
  end.

Definition put_dinode (o : nat) (x : dinode) (d : list Z) : list Z :=
  put_addrs (o + 12) (d_addrs x)
    (set32 (o + 8) (d_size x)
      (set16 (o + 6) (u16 (d_nlink x))
        (set16 (o + 4) (u16 (d_minor x))
          (set16 (o + 2) (u16 (d_major x))
            (set16 o (u16 (d_type x)) d))))).

Definition set_size n x := Dinode (d_type x) (d_major x) (d_minor x) (d_nlink x) n (d_addrs x).
Definition set_type t x := Dinode t (d_major x) (d_minor x) (d_nlink x) (d_size x) (d_addrs x).
Definition set_nlink n x := Dinode (d_type x) (d_major x) (d_minor x) n (d_size x) (d_addrs x).
Definition set_dev ma mi x := Dinode (d_type x) ma mi (d_nlink x) (d_size x) (d_addrs x).
Definition set_addr (k : Z) (a : Z) x :=
  Dinode (d_type x) (d_major x) (d_minor x) (d_nlink x) (d_size x) (<[Z.to_nat k := a]> (d_addrs x)).
Definition addr_at (k : Z) (x : dinode) : Z := nth (Z.to_nat k) (d_addrs x) 0.

Record fs (S : Type) := Fs {
  store : S;
  sb : superblock;
  itable_lock : bool;
  inodes : list inode;
}.
Arguments Fs {S}.
Arguments store {S}.
Arguments sb {S}.
Arguments itable_lock {S}.
Arguments inodes {S}.

Section fs.
Context {S : Type} `{!Store S} (pid : Z) (fuel : nat).
Implicit Types s : fs S.

Definition set_store (x : S) s : fs S := Fs x (sb s) (itable_lock s) (inodes s).
Definition set_sb x s : fs S := Fs (store s) x (itable_lock s) (inodes s).
Definition set_itable_lock x s : fs S := Fs (store s) (sb s) x (inodes s).
Definition set_inodes x s : fs S := Fs (store s) (sb s) (itable_lock s) x.

Definition on_store {A} (c : M S A) : M (fs S) A := zoom set_store store c.

(** [*ip], read and written *)
Definition ino (i : nat) s : inode := inodes s !!! i.
Definition iupd (i : nat) (f : inode → inode) s : fs S := set_inodes (alter f i (inodes s)) s.
Definition set_idata d (x : inode) := Inode (idev x) (inum x) (ref x) (ilk x) (ivalid x) d.
Definition set_ref r (x : inode) := Inode (idev x) (inum x) r (ilk x) (ivalid x) (idata x).
Definition set_ilk l (x : inode) := Inode (idev x) (inum x) (ref x) l (ivalid x) (idata x).
Definition set_ivalid v (x : inode) := Inode (idev x) (inum x) (ref x) (ilk x) v (idata x).

(** [bp->data], read and written *)
Definition data (bp : nat) s : list Z := bdata bp (store s).
Definition set_data (bp : nat) (d : list Z) s : fs S := set_store (bstore bp d (store s)) s.
Definition byte_at (k : Z) (d : list Z) : Z := nth (Z.to_nat k) d 0.

Definition readsb (dev : Z) : M (fs S) unit :=
  bp ← on_store (bread dev 1);
  modify (λ s, set_sb (parse_sb (data bp s)) s);;
  on_store (brelse bp).

Definition fsinit (dev : Z) : M (fs S) unit :=
  readsb dev;;
  s ← get;
  if negb (magic (sb s) =? FSMAGIC) then panic "invalid file system"
  else on_store (initlog dev (logstart (sb s)) (nlog (sb s))).

Definition bzero (dev bno : Z) : M (fs S) unit :=
  bp ← on_store (bread dev bno);
  modify (set_data bp (replicate (Z.to_nat BSIZE) 0));;
  on_store (log_write bp);;
  on_store (brelse bp).

(** One round of the inner loop: bit [bi] of the bitmap block of [b]. *)
Definition balloc_bit (dev b : Z) (bp : nat) (bi : Z) : M (fs S) (Z + option Z) :=
  s ← get;
  if (bi <? BPB) && (b + bi <? sb_size (sb s)) then
    let m := Z.shiftl 1 (bi mod 8) in
    let x := byte_at (bi / 8) (data bp s) in
    if Z.land x m =? 0 then
      modify (λ s, set_data bp (<[Z.to_nat (bi / 8) := Z.lor x m]> (data bp s)) s);;
      on_store (log_write bp);;
      on_store (brelse bp);;
      bzero dev (b + bi);;
      mret (inr (Some (b + bi)))
    else mret (inl (bi + 1))
  else mret (inr None).

Definition balloc_block (dev b : Z) : M (fs S) (Z + Z) :=
  s ← get;
  if b <? sb_size (sb s) then
    bp ← on_store (bread dev (BBLOCK b (sb s)));
    r ← loop (Datatypes.S (Z.to_nat BPB)) (balloc_bit dev b bp) 0;
    match r with
    | Some x => mret (inr x)
    | None => on_store (brelse bp);; mret (inl (b + BPB))
    end
  else mret (inr 0).

(** 0 when the disk is full. *)
Definition balloc (dev : Z) : M (fs S) Z :=
  s ← get;
  loop (Z.to_nat (sb_size (sb s) / BPB) + 2) (balloc_block dev) 0.

Definition bfree (dev b : Z) : M (fs S) unit :=
  s ← get;
  bp ← on_store (bread dev (BBLOCK b (sb s)));
  let bi := b mod BPB in
  let m := Z.shiftl 1 (bi mod 8) in
  s ← get;
  let x := byte_at (bi / 8) (data bp s) in
  if Z.land x m =? 0 then panic "freeing free block"
  else
    modify (λ s, set_data bp (<[Z.to_nat (bi / 8) := Z.land x (Z.lnot m)]> (data bp s)) s);;
    on_store (log_write bp);;
    on_store (brelse bp).

(** * Inodes *)

Definition iinit : M (fs S) unit :=
  modify (set_itable_lock false);;
  modify (λ s, set_inodes (set_ilk initsleeplock <$> inodes s) s).

Definition acquire_it : M (fs S) unit := λ s,
  if itable_lock s then Panic "acquire" else Ret tt (set_itable_lock true s).
Definition release_it : M (fs S) unit := λ s,
  if itable_lock s then Ret tt (set_itable_lock false s) else Panic "release".

(** The channel of an inode's lock, apart from those of the buffers' locks. *)
Definition ilk_id (i : nat) : nat := (Datatypes.S NBUF + i)%nat.

(** The sleeping lock of inode [i]. *)
Definition in_ilk {A} (i : nat) (c : M sleeplock A) : M (fs S) A :=
  zoom (λ l s, iupd i (set_ilk l) s) (λ s, ilk (ino i s)) c.

(** One round of the search of [iget]: the slot number and the first empty slot so far. *)
Definition iget_body (dev inum' : Z) (st : nat * option nat) : M (fs S) (nat * option nat + (nat + option nat)) :=
  let '(i, empty) := st in
  s ← get;
  if bool_decide (i < NINODE)%nat then
    let ip := ino i s in
    if (0 <? ref ip) && (idev ip =? dev) && (inum ip =? inum') then mret (inr (inl i))
    else mret (inl (Datatypes.S i, if decide (empty = None ∧ ref ip = 0) then Some i else empty))
  else mret (inr (inr empty)).

Definition iget (dev inum' : Z) : M (fs S) nat :=
  acquire_it;;
  r ← loop (Datatypes.S NINODE) (iget_body dev inum') (0%nat, None);
  match r with
  | inl i =>
      modify (iupd i (λ x, set_ref (ref x + 1) x));;
      release_it;; mret i
  | inr None => panic "iget: no inodes"
  | inr (Some i) =>
      modify (iupd i (λ x, Inode dev inum' 1 (ilk x) false (idata x)));;
      release_it;; mret i
  end.

Definition ialloc_body (dev type : Z) (inum' : Z) : M (fs S) (Z + option nat) :=
  s ← get;
  if inum' <? ninodes (sb s) then
    bp ← on_store (bread dev (IBLOCK inum' (sb s)));
    s ← get;
    let o := dinode_off inum' in
    if d_type (get_dinode o (data bp s)) =? 0 then
      modify (λ s, set_data bp (set16 o (u16 type) (splice o (replicate (Z.to_nat DINODE) 0) (data bp s))) s);;
      on_store (log_write bp);;
      on_store (brelse bp);;
      i ← iget dev inum'; mret (inr (Some i))
    else
      on_store (brelse bp);; mret (inl (inum' + 1))
  else mret (inr None).

Definition ialloc (dev type : Z) : M (fs S) (option nat) :=
  s ← get;
  loop (Datatypes.S (Z.to_nat (ninodes (sb s)))) (ialloc_body dev type) 1.

Definition iupdate (ip : nat) : M (fs S) unit :=
  s ← get;
  bp ← on_store (bread (idev (ino ip s)) (IBLOCK (inum (ino ip s)) (sb s)));
  modify (λ s, set_data bp (put_dinode (dinode_off (inum (ino ip s))) (idata (ino ip s)) (data bp s)) s);;
  on_store (log_write bp);;
  on_store (brelse bp).

Definition idup (ip : nat) : M (fs S) nat :=
  acquire_it;;
  modify (iupd ip (λ x, set_ref (ref x + 1) x));;
  release_it;; mret ip.

Definition ilock (ip : nat) : M (fs S) unit :=
  s ← get;
  if ref (ino ip s) <? 1 then panic "ilock"
  else
    in_ilk ip (acquiresleep (ilk_id ip) pid fuel);;
    s ← get;
    if ivalid (ino ip s) then mret tt
    else
      bp ← on_store (bread (idev (ino ip s)) (IBLOCK (inum (ino ip s)) (sb s)));
      modify (λ s, iupd ip (set_idata (get_dinode (dinode_off (inum (ino ip s))) (data bp s))) s);;
      on_store (brelse bp);;
      modify (iupd ip (set_ivalid true));;
      s ← get;
      when (d_type (idata (ino ip s)) =? 0) (panic "ilock: no type").

Definition iunlock (ip : nat) : M (fs S) unit :=
  h ← in_ilk ip (holdingsleep pid);
  s ← get;
  if negb h || (ref (ino ip s) <? 1) then panic "iunlock"
  else in_ilk ip (releasesleep (ilk_id ip) pid).

(** * File contents *)

Definition bmap (ip : nat) (bn : Z) : M (fs S) Z :=
  s ← get;
  let x := ino ip s in
  if bn <? NDIRECT then
    let addr := addr_at bn (idata x) in
    if addr =? 0 then
      addr ← balloc (idev x);
      if addr =? 0 then mret 0
      else modify (iupd ip (λ x, set_idata (set_addr bn addr (idata x)) x));; mret addr
    else mret addr
  else
    let bn := bn - NDIRECT in
    if bn <? NINDIRECT then
      let a0 := addr_at NDIRECT (idata x) in
      a ← (if a0 =? 0 then
             addr ← balloc (idev x);
             if addr =? 0 then mret 0
             else modify (iupd ip (λ x, set_idata (set_addr NDIRECT addr (idata x)) x));; mret addr
           else mret a0);
      if a =? 0 then mret 0
      else
        bp ← on_store (bread (idev x) a);
        s ← get;
        let addr := get32 (Z.to_nat (4 * bn)) (data bp s) in
        addr' ← (if addr =? 0 then
                   addr ← balloc (idev x);
                   (if addr =? 0 then mret tt
                    else modify (λ s, set_data bp (set32 (Z.to_nat (4 * bn)) addr (data bp s)) s);;
                         on_store (log_write bp));;
                   mret addr
                 else mret addr);
        on_store (brelse bp);; mret addr'
    else panic "bmap: out of range".

Definition itrunc_direct (ip : nat) (i : Z) : M (fs S) (Z + unit) :=
  if i <? NDIRECT then
    s ← get;
    let a := addr_at i (idata (ino ip s)) in
    (if a =? 0 then mret tt
     else bfree (idev (ino ip s)) a;; modify (iupd ip (λ x, set_idata (set_addr i 0 (idata x)) x)));;
    mret (inl (i + 1))
  else mret (inr tt).

Definition itrunc_indirect (dev : Z) (bp : nat) (j : Z) : M (fs S) (Z + unit) :=
  if j <? NINDIRECT then
    s ← get;
    let a := get32 (Z.to_nat (4 * j)) (data bp s) in
    (if a =? 0 then mret tt else bfree dev a);;
    mret (inl (j + 1))
  else mret (inr tt).

Definition itrunc (ip : nat) : M (fs S) unit :=
  loop 13 (itrunc_direct ip) 0;;
  s ← get;
  let dev := idev (ino ip s) in
  let a := addr_at NDIRECT (idata (ino ip s)) in
  (if a =? 0 then mret tt
   else
     bp ← on_store (bread dev a);
     loop (Datatypes.S (Z.to_nat NINDIRECT)) (itrunc_indirect dev bp) 0;;
     on_store (brelse bp);;
     bfree dev a;;
     modify (iupd ip (λ x, set_idata (set_addr NDIRECT 0 (idata x)) x)));;
  modify (iupd ip (λ x, set_idata (set_size 0 (idata x)) x));;
  iupdate ip.

Definition iput (ip : nat) : M (fs S) unit :=
  acquire_it;;
  s ← get;
  let x := ino ip s in
  (if (ref x =? 1) && ivalid x && (d_nlink (idata x) =? 0) then
     in_ilk ip (acquiresleep (ilk_id ip) pid fuel);;
     release_it;;
     itrunc ip;;
     modify (iupd ip (λ x, set_idata (set_type 0 (idata x)) x));;
     iupdate ip;;
     modify (iupd ip (set_ivalid false));;
     in_ilk ip (releasesleep (ilk_id ip) pid);;
     acquire_it
   else mret tt);;
  modify (iupd ip (λ x, set_ref (ref x - 1) x));;
  release_it.

Definition iunlockput (ip : nat) : M (fs S) unit := iunlock ip;; iput ip.

Definition stati (ip : nat) s : stat :=
  let x := ino ip s in
  Stat (idev x) (inum x) (d_type (idata x)) (d_nlink (idata x)) (d_size (idata x)).

(** One round of [readi].  [dst o m] says whether [m] bytes at offset [o] of the
    destination can be written.  The state of the loop is [tot] and the bytes delivered. *)
Definition readi_body (ip : nat) (dst : Z → Z → bool) (off n : Z) (st : Z * list Z) : M (fs S) (Z * list Z + Z * list Z) :=
  let '(tot, out) := st in
  if tot <? n then
    let o := off + tot in
    addr ← bmap ip (o / BSIZE);
    if addr =? 0 then mret (inr (tot, out))
    else
      s ← get;
      bp ← on_store (bread (idev (ino ip s)) addr);
      let m := Z.min (n - tot) (BSIZE - o mod BSIZE) in
      s ← get;
      let bs := sub (Z.to_nat (o mod BSIZE)) (Z.to_nat m) (data bp s) in
      if dst tot m then on_store (brelse bp);; mret (inl (tot + m, out ++ bs))
      else on_store (brelse bp);; mret (inr (-1, out))
  else mret (inr (tot, out)).

Definition readi (ip : nat) (dst : Z → Z → bool) (off n : Z) : M (fs S) (Z * list Z) :=
  s ← get;
  let size := d_size (idata (ino ip s)) in
  if (size <? off) || (u32 (off + n) <? off) then mret (0, [])
  else
    let n := if size <? u32 (off + n) then size - off else n in
    loop (Z.to_nat (n / BSIZE) + 3) (readi_body ip dst off n) (0, []).

(** One round of [writei].  [src o m] is the first bytes of the [m] at offset [o] of the
    source that could be read, and whether all could. *)
Definition writei_body (ip : nat) (src : Z → Z → list Z * bool) (off n : Z) (tot : Z) : M (fs S) (Z + Z) :=
  if tot <? n then
    let o := off + tot in
    addr ← bmap ip (o / BSIZE);
    if addr =? 0 then mret (inr tot)
    else
      s ← get;
      bp ← on_store (bread (idev (ino ip s)) addr);
      let m := Z.min (n - tot) (BSIZE - o mod BSIZE) in
      let '(bs, ok) := src tot m in
      modify (λ s, set_data bp (splice (Z.to_nat (o mod BSIZE)) bs (data bp s)) s);;
      if ok then
        on_store (log_write bp);;
        on_store (brelse bp);; mret (inl (tot + m))
      else on_store (brelse bp);; mret (inr tot)
  else mret (inr tot).

Definition writei (ip : nat) (src : Z → Z → list Z * bool) (off n : Z) : M (fs S) Z :=
  s ← get;
  if (d_size (idata (ino ip s)) <? off) || (u32 (off + n) <? off) then mret (-1)
  else if MAXFILE * BSIZE <? u32 (off + n) then mret (-1)
  else
    tot ← loop (Z.to_nat (n / BSIZE) + 3) (writei_body ip src off n) 0;
    s ← get;
    when (d_size (idata (ino ip s)) <? off + tot)
      (modify (iupd ip (λ x, set_idata (set_size (off + tot) (idata x)) x)));;
    iupdate ip;;
    mret tot.

End fs.
