(* ===== verification/Dir.v ===== *)
(** Directories and path names, the last part of kernel/fs.c.  A directory is a file of
    16-byte entries, an inode number and a name of at most 14 bytes; names and paths are
    lists of bytes without the terminating NUL. *)

From S2P Require Import Prelude Bytes Sleeplock Bio Store Fs.

Definition SLASH : Z := 47.

(** [strncmp] and [strncpy] of string.c on names; reading past the end gives the NUL. *)
Fixpoint strncmp (n : nat) (p q : list Z) : Z :=
  match n with
  | O => 0
  | S n =>
      if negb (hd 0 p =? 0) && (hd 0 p =? hd 0 q) then strncmp n (tl p) (tl q)
      else hd 0 p - hd 0 q
  end.

Fixpoint strncpy (n : nat) (t : list Z) : list Z :=
  match n with
  | O => []
  | S n => if hd 0 t =? 0 then replicate (S n) 0 else hd 0 t :: strncpy n (tl t)
  end.

Definition namecmp (s t : list Z) : Z := strncmp (Z.to_nat DIRSIZ) s t.

(** Skipping slashes, and the characters up to the next slash. *)
Fixpoint skip_slashes (path : list Z) : list Z :=
  match path with
  | c :: rest => if c =? SLASH then skip_slashes rest else path
  | [] => []
  end.

Fixpoint span_elem (path : list Z) : list Z * list Z :=
  match path with
  | c :: rest => if c =? SLASH then ([], path) else let '(e, r) := span_elem rest in (c :: e, r)
  | [] => ([], [])
  end.

(** The element, cut to [DIRSIZ] bytes, and the rest of the path. *)
Definition skipelem (path : list Z) : option (list Z * list Z) :=
  let p := skip_slashes path in
  match p with
  | [] => None
  | _ => let '(e, r) := span_elem p in Some (take (Z.to_nat DIRSIZ) e, skip_slashes r)
  end.

Section dir.
Context {S : Type} `{!Store S} (pid : Z) (fuel : nat).
Implicit Types s : fs S.

(** A kernel destination always accepts the bytes. *)
Definition to_kernel : Z → Z → bool := λ _ _, true.
Definition from_kernel (bs : list Z) : Z → Z → list Z * bool := λ o m, (sub (Z.to_nat o) (Z.to_nat m) bs, true).

Definition dirlookup_body (dp : nat) (name : list Z) (off : Z) : M (fs S) (Z + option (nat * Z)) :=
  s ← get;
  if off <? d_size (idata (ino dp s)) then
    '(r, de) ← readi dp to_kernel off DIRENT;
    if negb (r =? DIRENT) then panic "dirlookup read"
    else
      let inum' := get16 0 de in
      if inum' =? 0 then mret (inl (off + DIRENT))
      else if namecmp name (drop 2 de) =? 0 then
        i ← iget (idev (ino dp s)) inum'; mret (inr (Some (i, off)))
      else mret (inl (off + DIRENT))
  else mret (inr None).

(** The inode found and the offset of its entry. *)
Definition dirlookup (dp : nat) (name : list Z) : M (fs S) (option (nat * Z)) :=
  s ← get;
  if negb (d_type (idata (ino dp s)) =? T_DIR) then panic "dirlookup not DIR"
  else loop (Z.to_nat (d_size (idata (ino dp s)) / DIRENT) + 2) (dirlookup_body dp name) 0.

(** The first free entry, or the end of the directory. *)
Definition dirlink_body (dp : nat) (off : Z) : M (fs S) (Z + Z) :=
  s ← get;
  if off <? d_size (idata (ino dp s)) then
    '(r, de) ← readi dp to_kernel off DIRENT;
    if negb (r =? DIRENT) then panic "dirlink read"
    else if get16 0 de =? 0 then mret (inr off)
    else mret (inl (off + DIRENT))
  else mret (inr off).

Definition dirlink (dp : nat) (name : list Z) (inum' : Z) : M (fs S) Z :=
  r ← dirlookup dp name;
  match r with
  | Some (ip, _) => iput pid fuel ip;; mret (-1)
  | None =>
      s ← get;
      off ← loop (Z.to_nat (d_size (idata (ino dp s)) / DIRENT) + 2) (dirlink_body dp) 0;
      let de := le_enc 2 (u16 inum') ++ strncpy (Z.to_nat DIRSIZ) name in
      n ← writei dp (from_kernel de) off DIRENT;
      if negb (n =? DIRENT) then mret (-1) else mret 0
  end.

(** One round of [namex] at inode [ip]: the path still to go, or the result. *)
Definition namex_body (nameiparent : bool) (st : nat * list Z * list Z) :
    M (fs S) (nat * list Z * list Z + option nat * list Z) :=
  let '(ip, path, name) := st in
  match skipelem path with
  | None =>
      if nameiparent then iput pid fuel ip;; mret (inr (None, name))
      else mret (inr (Some ip, name))
  | Some (name, path) =>
      ilock pid fuel ip;;
      s ← get;
      if negb (d_type (idata (ino ip s)) =? T_DIR) then
        iunlockput pid fuel ip;; mret (inr (None, name))
      else if nameiparent && bool_decide (path = []) then
        iunlock pid ip;; mret (inr (Some ip, name))
      else
        next ← dirlookup ip name;
        match next with
        | None => iunlockput pid fuel ip;; mret (inr (None, name))
        | Some (next, _) => iunlockput pid fuel ip;; mret (inl (next, path, name))
        end
  end.

(** The inode, if any, and the last element copied to [name]. *)
Definition namex (cwd : nat) (path : list Z) (nameiparent : bool) : M (fs S) (option nat * list Z) :=
  ip ← (if hd 0 path =? SLASH then iget ROOTDEV ROOTINO else idup cwd);
  loop (Datatypes.S (Datatypes.S (length path))) (namex_body nameiparent) (ip, path, []).

Definition namei (cwd : nat) (path : list Z) : M (fs S) (option nat) :=
  r ← namex cwd path false; mret r.1.

Definition nameiparent (cwd : nat) (path : list Z) : M (fs S) (option nat * list Z) :=
  namex cwd path true.
End dir.
