(* ===== verification/FsBlock.v ===== *)
(** Reading and changing blocks from the file system: the promises of the block store in
    terms of the whole file system state. *)

From S2P Require Import Prelude Bytes Sleeplock Bio Store Fs.

Lemma in_more (b c : Z) (L : gset Z) : c ∈ L → c ∈ {[b]} ∪ L.
Proof. apply elem_of_union_r. Qed.
Lemma in_self (b : Z) (L : gset Z) : b ∈ {[b]} ∪ L.
Proof. apply elem_of_union_l, elem_of_singleton. done. Qed.
Lemma in_rest (b c : Z) (L : gset Z) : c ∈ L → b ∉ L → c ∈ ({[b]} ∪ L) ∖ {[b]}.
Proof. intros Hc Hb. apply elem_of_difference. split; [by apply in_more|]. apply not_elem_of_singleton. by intros ->. Qed.
Lemma diff_more (b : Z) (L : gset Z) : b ∉ L → ({[b]} ∪ L) ∖ {[b]} = L.
Proof. intros Hb. set_solver. Qed.
#[export] Hint Resolve in_more in_self in_rest : xv6.

Section block.
Context {S : Type} `{!Store S, !StoreSpec S}.
Implicit Types (s : fs S) (P L : gset Z).

(** The file system inside a transaction: [P] changed so far, [L] held. *)
Definition rdy s P L : Prop := ready (store s) P L.

(** The contents of a block. *)
Definition blks s (b : Z) : list Z := blk (store s) b.

(** Nothing but the block store changed, nothing on disk, and the buffers of [L] stayed. *)
Record kept (s s' : fs S) (L : gset Z) : Prop := {
  kp_mem : s' = set_store (store s') s;
  kp_dur : ∀ c, durable (store s') c = durable (store s) c;
  kp_handle : ∀ c j, c ∈ L → handle (store s) j c → handle (store s') j c;
}.

Lemma kept_refl s L : kept s s L.
Proof. constructor; [by destruct s|done|done]. Qed.

Lemma kept_sb s s' L : kept s s' L → sb s' = sb s.
Proof. intros K. by rewrite (kp_mem _ _ _ K). Qed.

Lemma fs_kept_trans s1 s2 s3 L1 L2 : L1 ⊆ L2 → kept s1 s2 L1 → kept s2 s3 L2 → kept s1 s3 L1.
Proof.
  intros HL [E1 D1 H1'] [E2 D2 H2']. constructor; [rewrite E2, E1; done|intros c; by rewrite D2|]. intros c j Hc Hj. apply H2'; [set_solver|by apply H1'].
Qed.

Lemma kept_weaken s1 s2 L1 L2 : L1 ⊆ L2 → kept s1 s2 L2 → kept s1 s2 L1.
Proof. intros HL [E1 D1 H1']. constructor; [done|done|]. intros c j Hc. apply H1'. set_solver. Qed.

Lemma on_store_ret {A} (c : M S A) s a t : c (store s) = Ret a t → on_store c s = Ret a (set_store t s).
Proof. intros E. unfold on_store, zoom. by rewrite E. Qed.

Lemma fread s P L b :
  rdy s P L → usable b → b ∉ L → (size (P ∪ L) < NBUF)%nat →
  ∃ i s', on_store (bread ROOTDEV b) s = Ret i s' ∧ rdy s' P ({[b]} ∪ L) ∧ handle (store s') i b ∧
    (∀ c, blks s' c = blks s c) ∧ kept s s' L ∧ data i s' = blks s b.
Proof.
  intros R Hu HL Hr. destruct (spec_read _ P L b R Hu HL Hr) as (i & t & E & R' & Hh & Hb & Hdu & Hk).
  exists i, (set_store t s). split; [by apply on_store_ret|]. split; [done|]. split; [done|]. split; [done|].
  split; [by constructor|]. unfold data. simpl. rewrite (spec_data t P ({[b]} ∪ L) i b) by done. apply Hb.
Qed.

Lemma fdata s P L i b : rdy s P L → handle (store s) i b → data i s = blks s b.
Proof. intros R Hh. by apply (spec_data _ P L). Qed.

Lemma fwrite s P L i b d :
  rdy s P L → usable b → b ∈ L → handle (store s) i b → Z.of_nat (length d) = BSIZE → bytes d → (size P < LOGCAP)%nat →
  ∃ s', on_store (log_write i) (set_data i d s) = Ret tt s' ∧ rdy s' ({[b]} ∪ P) L ∧
    blks s' b = d ∧ (∀ c, c ≠ b → blks s' c = blks s c) ∧ kept s s' L.
Proof.
  intros R Hu HL Hh Hl Hby Hr. destruct (spec_write _ P L i b d R Hu HL Hh Hl Hby Hr) as (t & E & R' & Hd & Ho & Hdu & Hk).
  exists (set_store t s). split; [by apply (on_store_ret (log_write i) (set_data i d s))|]. split; [done|]. split; [done|].
  split; [done|]. by constructor.
Qed.

Lemma frelse s P L i b :
  rdy s P L → b ∈ L → handle (store s) i b →
  ∃ s', on_store (brelse i) s = Ret tt s' ∧ rdy s' P (L ∖ {[b]}) ∧ (∀ c, blks s' c = blks s c) ∧ kept s s' (L ∖ {[b]}).
Proof.
  intros R HL Hh. destruct (spec_relse _ P L i b R HL Hh) as (t & E & R' & Hb & Hdu & Hk).
  exists (set_store t s). split; [by apply on_store_ret|]. split; [done|]. split; [done|].
  constructor; [done|done|]. intros c j Hc. apply Hk; set_solver.
Qed.

Lemma blks_length s P L b : rdy s P L → Z.of_nat (length (blks s b)) = BSIZE.
Proof. intros R. by apply (spec_length _ P L). Qed.

Lemma blks_bytes s P L b : rdy s P L → usable b → bytes (blks s b).
Proof. intros R Hu. by apply (spec_bytes _ P L). Qed.

Lemma rdy_ext s P P' L L' : P ≡ P' → L ≡ L' → rdy s P L → rdy s P' L'.
Proof. intros HP HL. apply leibniz_equiv in HP as <-, HL as <-. done. Qed.

Lemma rdy_mem s s' P L : store s' = store s → rdy s P L → rdy s' P L.
Proof. unfold rdy. by intros ->. Qed.

(** Read, change, log and release one block. *)
Definition change_block (b : Z) (f : fs S → list Z → list Z) : M (fs S) unit :=
  bp ← on_store (bread ROOTDEV b);
  modify (λ s, set_data bp (f s (data bp s)) s);;
  on_store (log_write bp);;
  on_store (brelse bp).

Lemma change_block_ok s P L b f :
  rdy s P L → usable b → b ∉ L → (size (P ∪ L) < NBUF)%nat → (size P < LOGCAP)%nat →
  (∀ t, f (set_store t s) = f s) → Z.of_nat (length (f s (blks s b))) = BSIZE → bytes (f s (blks s b)) →
  ∃ s', change_block b f s = Ret tt s' ∧ rdy s' ({[b]} ∪ P) L ∧ blks s' b = f s (blks s b) ∧
    (∀ c, c ≠ b → blks s' c = blks s c) ∧ kept s s' L.
Proof.
  intros R Hu HL Hr Hp Hf Hl Hby. unfold change_block. msimpl.
  destruct (fread s P L b R Hu HL Hr) as (i & s1 & E1 & R1 & H1' & B1 & K1 & D1). rewrite E1. cbn [res_bind]. rewrite D1.
  assert (f s1 = f s) as Ef by (rewrite (kp_mem _ _ _ K1); apply Hf). rewrite Ef.
  destruct (fwrite s1 P ({[b]} ∪ L) i b (f s (blks s b)) R1 Hu ltac:(set_solver) H1' Hl Hby Hp) as (s2 & E2 & R2 & D2 & B2 & K2).
  rewrite E2. cbn [res_bind].
  destruct (frelse s2 _ _ i b R2 ltac:(set_solver)) as (s3 & E3 & R3 & B3 & K3); [by apply K2; [set_solver|]|].
  rewrite E3. exists s3. split; [done|]. split; [|split; [|split]].
  - eapply rdy_ext; [| |exact R3]; set_solver.
  - by rewrite B3, D2.
  - intros c Hc. by rewrite B3, B2, B1.
  - constructor.
    + rewrite (kp_mem _ _ _ K3), (kp_mem _ _ _ K2), (kp_mem _ _ _ K1). done.
    + intros c. by rewrite (kp_dur _ _ _ K3), (kp_dur _ _ _ K2), (kp_dur _ _ _ K1).
    + intros c j Hc Hj. apply K3; [by apply in_rest|]. apply K2; [by apply in_more|]. by apply K1.
Qed.
End block.
