(* ===== verification/FsAlloc.v ===== *)
(** The block allocator of kernel/fs.c: the bitmap on disk as a set of used blocks. *)

From S2P Require Import Prelude Bytes Sleeplock Bio Store Fs FsBlock.

(** * Bits *)

Lemma land_bit_zero x k : 0 ≤ k → (Z.land x (Z.shiftl 1 k) =? 0) = negb (Z.testbit x k).
Proof.
  intros Hk. destruct (Z.testbit x k) eqn:E; simpl.
  - apply Z.eqb_neq. intros E0. assert (Z.testbit (Z.land x (Z.shiftl 1 k)) k = true) as Et.
    { rewrite Z.land_spec, E, Z.shiftl_spec by lia. by rewrite Z.sub_diag. }
    rewrite E0, Z.bits_0 in Et. done.
  - apply Z.eqb_eq, Z.bits_inj'. intros n Hn. rewrite Z.land_spec, Z.bits_0, Z.shiftl_spec by lia.
    destruct (decide (n = k)) as [->|Hne]; [by rewrite E|]. rewrite andb_false_iff. right.
    destruct (decide (n < k)); [by rewrite Z.testbit_neg_r by lia|].
    replace 1 with (2 ^ 0) by lia. apply Z.pow2_bits_false. lia.
Qed.

Lemma testbit_one k n : 0 ≤ k → 0 ≤ n → Z.testbit (Z.shiftl 1 k) n = bool_decide (n = k).
Proof.
  intros Hk Hn. rewrite Z.shiftl_1_l. case_bool_decide as E; [subst; apply Z.pow2_bits_true; lia|].
  apply Z.pow2_bits_false. lia.
Qed.

Lemma testbit_lor_bit x k n : 0 ≤ k → 0 ≤ n → Z.testbit (Z.lor x (Z.shiftl 1 k)) n = Z.testbit x n || bool_decide (n = k).
Proof. intros. by rewrite Z.lor_spec, testbit_one. Qed.

Lemma testbit_clear_bit x k n : 0 ≤ k → 0 ≤ n →
  Z.testbit (Z.land x (Z.lnot (Z.shiftl 1 k))) n = Z.testbit x n && negb (bool_decide (n = k)).
Proof. intros. by rewrite Z.land_spec, Z.lnot_spec, testbit_one. Qed.

Lemma byte_lor x k : 0 ≤ x < 256 → 0 ≤ k < 8 → 0 ≤ Z.lor x (Z.shiftl 1 k) < 256.
Proof.
  intros Hx Hk. split; [apply Z.lor_nonneg; split; [lia|apply Z.shiftl_nonneg; lia]|].
  destruct (decide (Z.lor x (Z.shiftl 1 k) = 0)) as [->|Hne]; [lia|].
  assert (0 ≤ Z.lor x (Z.shiftl 1 k)) by (apply Z.lor_nonneg; split; [lia|apply Z.shiftl_nonneg; lia]).
  apply Z.log2_lt_pow2 with (b := 8); [lia|]. rewrite Z.log2_lor by (lia || apply Z.shiftl_nonneg; lia).
  rewrite Z.shiftl_1_l, Z.log2_pow2 by lia. apply Z.max_lub_lt; [|lia].
  destruct (decide (x = 0)) as [->|]; [done|]. apply Z.log2_lt_pow2; lia.
Qed.

Lemma byte_clear x m : 0 ≤ x < 256 → 0 ≤ Z.land x (Z.lnot m) < 256.
Proof.
  intros Hx. replace x with (x mod 2 ^ 8) by (apply Z.mod_small; lia). rewrite <- Z.land_ones by lia.
  rewrite <- Z.land_assoc, (Z.land_comm (Z.ones 8)), Z.land_assoc, Z.land_ones by lia. apply Z.mod_pos_bound. lia.
Qed.

Section alloc.
Context {S : Type} `{!Store S, !StoreSpec S}.
Implicit Types (s : fs S) (P L : gset Z).

(** Block [b] is marked in the bitmap. *)
Definition used s (b : Z) : bool :=
  Z.testbit (byte_at (b mod BPB / 8) (blks s (BBLOCK b (sb s)))) (b mod BPB mod 8).

Definition is_bitmap s (c : Z) : Prop := ∃ b, 0 ≤ b < sb_size (sb s) ∧ c = BBLOCK b (sb s).

(** A disk the allocator can work on: the bitmap blocks are in place, the blocks that are
    free are not those of the bitmap or the log, and block 0 is taken. *)
Record alloc_ok s : Prop := {
  ao_size : 0 < sb_size (sb s) < 2 ^ 31;
  ao_bitmap : ∀ c, is_bitmap s c → usable c;
  ao_free : ∀ b, 0 ≤ b < sb_size (sb s) → used s b = false → usable b ∧ ¬ is_bitmap s b;
  ao_zero : used s 0 = true;
}.

Lemma used_at s k bi :
  0 ≤ bi < BPB → used s (k * BPB + bi) = Z.testbit (byte_at (bi / 8) (blks s (BBLOCK (k * BPB) (sb s)))) (bi mod 8).
Proof.
  intros Hb. unfold used. replace ((k * BPB + bi) mod BPB) with bi by (rewrite Z.add_comm, Z_mod_plus_full, Z.mod_small; lia).
  do 2 f_equal. unfold BBLOCK. rewrite Z.div_add_l, (Z.div_small bi), Z.div_mul by (unfold BPB, BSIZE in *; lia). f_equal. f_equal. lia.
Qed.

Lemma bblock_base b sb : BBLOCK b sb = BBLOCK (b / BPB * BPB) sb.
Proof. unfold BBLOCK. by rewrite Z.div_mul by (unfold BPB, BSIZE; lia). Qed.

Lemma byte_at_insert k j v d : (Z.to_nat j < length d)%nat → 0 ≤ k → 0 ≤ j →
  byte_at k (<[Z.to_nat j := v]> d) = if decide (k = j) then v else byte_at k d.
Proof.
  intros Hj Hk Hj0. unfold byte_at. rewrite !nth_lookup. destruct (decide (k = j)) as [->|Hne].
  - by rewrite list_lookup_insert_eq.
  - rewrite list_lookup_insert_ne by lia. done.
Qed.

(** Changing the bit of [b] in its bitmap block and nothing else on other bitmap blocks. *)
Lemma used_change s s' b v N (x : bool) :
  0 ≤ b → sb s' = sb s → Z.of_nat (length (blks s (BBLOCK b (sb s)))) = BSIZE →
  (∀ n, 0 ≤ n → Z.testbit v n = if decide (n = b mod BPB mod 8) then x
     else Z.testbit (byte_at (b mod BPB / 8) (blks s (BBLOCK b (sb s)))) n) →
  blks s' (BBLOCK b (sb s)) = <[Z.to_nat (b mod BPB / 8) := v]> (blks s (BBLOCK b (sb s))) →
  (∀ c, 0 ≤ c < N → BBLOCK c (sb s) ≠ BBLOCK b (sb s) → blks s' (BBLOCK c (sb s)) = blks s (BBLOCK c (sb s))) →
  ∀ c, 0 ≤ c < N → used s' c = if decide (c = b) then x else used s c.
Proof.
  intros Hb Esb Hlen Hv Hs' Hoth c Hc. unfold used. rewrite Esb.
  change BPB with 8192 in *. change BSIZE with 1024 in *.
  assert (0 ≤ b mod 8192 < 8192) as Hbm by (apply Z.mod_pos_bound; lia).
  assert (0 ≤ c mod 8192 < 8192) as Hcm by (apply Z.mod_pos_bound; lia).
  destruct (decide (BBLOCK c (sb s) = BBLOCK b (sb s))) as [E|E].
  - rewrite E, Hs', byte_at_insert by zdm. assert (c / 8192 = b / 8192) as Ed by (unfold BBLOCK in E; change BPB with 8192 in E; lia).
    destruct (decide (c mod 8192 / 8 = b mod 8192 / 8)) as [E8|E8].
    + rewrite Hv by (apply Z.mod_pos_bound; lia). rewrite E8.
      destruct (decide (c = b)) as [->|Hne]; [by rewrite decide_True|]. rewrite decide_False; [done|].
      intros Em. apply Hne. zdm.
    + rewrite decide_False; [done|]. intros ->. done.
  - rewrite Hoth by done. rewrite decide_False; [done|]. intros ->. done.
Qed.

(** What [balloc] leaves when it has found block [r]. *)
Record allocated s s' P L (r : Z) : Prop := {
  al_range : 0 < r < sb_size (sb s);
  al_was_free : used s r = false;
  al_used : ∀ c, 0 ≤ c < sb_size (sb s) → used s' c = if decide (c = r) then true else used s c;
  al_zero : blks s' r = replicate (Z.to_nat BSIZE) 0;
  al_other : ∀ c, c ≠ r → c ≠ BBLOCK r (sb s) → blks s' c = blks s c;
  al_rdy : rdy s' ({[r]} ∪ ({[BBLOCK r (sb s)]} ∪ P)) L;
  al_kept : kept s s' L;
}.

Lemma bzero_ok s P L b :
  rdy s P L → usable b → b ∉ L → (size (P ∪ L) < NBUF)%nat → (size P < LOGCAP)%nat →
  ∃ s', bzero ROOTDEV b s = Ret tt s' ∧ rdy s' ({[b]} ∪ P) L ∧ blks s' b = replicate (Z.to_nat BSIZE) 0 ∧
    (∀ c, c ≠ b → blks s' c = blks s c) ∧ kept s s' L.
Proof.
  intros R Hu HL Hr Hp. apply (change_block_ok s P L b (λ _ _, replicate (Z.to_nat BSIZE) 0)); try done.
  apply Forall_replicate. lia.
Qed.

(** The blocks held while the allocator runs are neither bitmap blocks nor free. *)
Definition held_ok s L : Prop :=
  ∀ c, c ∈ L → ¬ is_bitmap s c ∧ (0 ≤ c < sb_size (sb s) → used s c = true).

Section run.
Context (s : fs S) (P L : gset Z).
Hypothesis A : alloc_ok s.
Hypothesis R : rdy s P L.
Hypothesis HL : held_ok s L.
Hypothesis Hbuf : (size (P ∪ L) + 1 < NBUF)%nat.
Hypothesis Hlog : (size P + 1 < LOGCAP)%nat.

(** With the bitmap block of [k * BPB] in hand. *)
Record scanning (k : Z) (bp : nat) (s1 : fs S) : Prop := {
  sc_rdy : rdy s1 P ({[BBLOCK (k * BPB) (sb s)]} ∪ L);
  sc_handle : handle (store s1) bp (BBLOCK (k * BPB) (sb s));
  sc_blks : ∀ c, blks s1 c = blks s c;
  sc_kept : kept s s1 L;
}.

Lemma size_insert (x : Z) (X : gset Z) : (size ({[x]} ∪ X) ≤ size X + 1)%nat.
Proof using Type. clear. pose proof (size_union_alt {[x]} X) as E. rewrite size_singleton in E.
  assert (size (X ∖ {[x]}) ≤ size X)%nat by (apply subseteq_size; set_solver). lia. Qed.

(** The branch that takes the free bit. *)
Lemma balloc_take k bp bi s1 :
  0 ≤ k → 0 ≤ bi < BPB → k * BPB + bi < sb_size (sb s) → scanning k bp s1 → used s (k * BPB + bi) = false →
  ∃ s', balloc_bit ROOTDEV (k * BPB) bp bi s1 = Ret (inr (Some (k * BPB + bi))) s' ∧ allocated s s' P L (k * BPB + bi).
Proof.
  intros Hk Hbi Hsz C Hfree. pose proof (sc_rdy _ _ _ C) as R1. pose proof (sc_kept _ _ _ C) as K1.
  set (r := k * BPB + bi) in *. set (bb := BBLOCK (k * BPB) (sb s)) in *.
  assert (bb = BBLOCK r (sb s)) as Ebb.
  { unfold bb, r, BBLOCK. rewrite Z.div_add_l, (Z.div_small bi), Z.div_mul by (unfold BPB, BSIZE in *; lia). lia. }
  assert (0 ≤ r) as Hr0 by (unfold r; unfold BPB, BSIZE in *; lia).
  destruct (ao_free _ A r (conj Hr0 Hsz) Hfree) as [Hru Hrb].
  assert (is_bitmap s bb) as Hbm by (exists r; by rewrite Ebb).
  assert (bb ∉ L) as HbL by (intros Hin; by destruct (HL bb Hin)).
  assert (r ∉ L) as HrL by (intros Hin; destruct (HL r Hin) as [_ Hu]; rewrite Hu in Hfree; [done|lia]).
  assert (r ≠ bb) as Hne by (intros E; apply Hrb; by rewrite E).
  assert (r ≠ 0) as Hnz by (intros E; rewrite E, (ao_zero _ A) in Hfree; done).
  unfold balloc_bit. msimpl. rewrite (kept_sb _ _ _ K1).
  rewrite (proj2 (Z.ltb_lt bi BPB)), (proj2 (Z.ltb_lt (k * BPB + bi) _)) by lia. cbn [andb].
  assert (data bp s1 = blks s bb) as D1 by (rewrite (fdata _ _ _ _ _ R1 (sc_handle _ _ _ C)); apply C).
  rewrite D1. rewrite land_bit_zero by (apply Z.mod_pos_bound; lia).
  unfold r in Hfree. rewrite (used_at s k bi Hbi) in Hfree. fold bb in Hfree. rewrite Hfree. cbn [negb]. fold r.
  set (x := byte_at (bi / 8) (blks s bb)) in *. set (v := Z.lor x (Z.shiftl 1 (bi mod 8))).
  assert (bytes (blks s bb)) as Hby by (rewrite <- (sc_blks _ _ _ C); by eapply blks_bytes, (ao_bitmap _ A bb Hbm)).
  assert (Z.of_nat (length (blks s bb)) = BSIZE) as Hlen by (rewrite <- (sc_blks _ _ _ C); by eapply blks_length).
  assert (0 ≤ x < 256) as Hx.
  { unfold x, byte_at. rewrite nth_lookup. destruct (blks s bb !! Z.to_nat (bi / 8)) as [y|] eqn:E; simpl; [|lia].
    by apply (Forall_lookup_1 _ _ _ _ Hby E). }
  destruct (fwrite s1 P _ bp bb (<[Z.to_nat (bi / 8) := v]> (blks s bb)) R1 (ao_bitmap _ A bb Hbm) (in_self _ _) (sc_handle _ _ _ C))
    as (s2 & E2 & R2 & D2 & B2 & K2).
  { by rewrite length_insert. }
  { apply Forall_insert; [done|]. apply byte_lor; [done|]. apply Z.mod_pos_bound. lia. }
  { lia. }
  rewrite D1, E2. cbn [res_bind].
  destruct (frelse s2 _ _ bp bb R2 (in_self _ _)) as (s3 & E3 & R3 & B3 & K3); [apply K2; [apply in_self|apply C]|].
  rewrite E3. cbn [res_bind]. rewrite diff_more in R3 by done.
  destruct (bzero_ok s3 ({[bb]} ∪ P) L r R3 Hru HrL) as (s4 & E4 & R4 & D4 & B4 & K4).
  { pose proof (size_insert bb (P ∪ L)) as Hs. rewrite union_assoc_L in Hs. lia. }
  { pose proof (size_insert bb P). lia. }
  rewrite E4. cbn [res_bind]. exists s4. split; [done|].
  assert (kept s s4 L) as K.
  { constructor.
    - rewrite (kp_mem _ _ _ K4), (kp_mem _ _ _ K3), (kp_mem _ _ _ K2), (kp_mem _ _ _ K1). done.
    - intros c. by rewrite (kp_dur _ _ _ K4), (kp_dur _ _ _ K3), (kp_dur _ _ _ K2), (kp_dur _ _ _ K1).
    - intros c j Hc Hj. apply K4; [done|]. apply K3; [by apply in_rest|]. apply K2; [by apply in_more|]. by apply K1. }
  assert (∀ c, c ≠ r → c ≠ bb → blks s4 c = blks s c) as Hoth.
  { intros c Hcr Hcb. rewrite B4, B3, B2 by done. apply C. }
  assert (blks s4 bb = <[Z.to_nat (bi / 8) := v]> (blks s bb)) as Hbb by (by rewrite B4, B3, D2).
  assert (r mod BPB = bi) as Erm by (unfold r; rewrite Z.add_comm, Z_mod_plus_full; by apply Z.mod_small).
  constructor; try done.
  - lia.
  - unfold r. by rewrite (used_at s k bi Hbi).
  - apply (used_change s s4 r v (sb_size (sb s)) true); rewrite <- ?Ebb, ?Erm; try done.
    + by rewrite (kp_mem _ _ _ K).
    + intros n Hn. unfold v. rewrite testbit_lor_bit by (lia || apply Z.mod_pos_bound; lia). fold x.
      destruct (decide (n = bi mod 8)) as [->|Hnb].
      * rewrite bool_decide_true by done. apply orb_true_r.
      * rewrite bool_decide_false by done. apply orb_false_r.
    + intros c Hc Hcb. destruct (decide (BBLOCK c (sb s) = r)) as [E|E]; [|by apply Hoth].
      destruct Hrb. by exists c.
  - intros c Hcr Hcb. apply Hoth; [done|]. by rewrite Ebb.
  - eapply rdy_ext; [| |exact R4]; [rewrite Ebb; done|done].
Qed.

Lemma balloc_skip k bp bi s1 :
  0 ≤ bi < BPB → k * BPB + bi < sb_size (sb s) → scanning k bp s1 → used s (k * BPB + bi) = true →
  balloc_bit ROOTDEV (k * BPB) bp bi s1 = Ret (inl (bi + 1)) s1.
Proof.
  intros Hbi Hsz C Hused. unfold balloc_bit. msimpl. rewrite (kept_sb _ _ _ (sc_kept _ _ _ C)).
  rewrite (proj2 (Z.ltb_lt bi BPB)), (proj2 (Z.ltb_lt (k * BPB + bi) _)) by lia. cbn [andb].
  rewrite (fdata _ _ _ _ _ (sc_rdy _ _ _ C) (sc_handle _ _ _ C)), (sc_blks _ _ _ C).
  rewrite land_bit_zero by (apply Z.mod_pos_bound; lia). rewrite (used_at s k bi Hbi) in Hused. by rewrite Hused.
Qed.

(** The inner loop takes the first free bit from [bi] on, if there is one. *)
Lemma balloc_scan k bp s1 m : ∀ bi fuel,
  0 ≤ k → 0 ≤ bi ≤ BPB → Z.to_nat (BPB - bi) = m → (m < fuel)%nat → scanning k bp s1 →
  (∃ r s', loop fuel (balloc_bit ROOTDEV (k * BPB) bp) bi s1 = Ret (Some r) s' ∧ allocated s s' P L r ∧ k * BPB ≤ r) ∨
  (loop fuel (balloc_bit ROOTDEV (k * BPB) bp) bi s1 = Ret None s1 ∧
   ∀ j, bi ≤ j < BPB → k * BPB + j < sb_size (sb s) → used s (k * BPB + j) = true).
Proof.
  induction m as [|m IH]; intros bi fuel Hk Hbi Hm Hf C; (destruct fuel as [|fuel]; [lia|]).
  - right. split; [|lia]. apply loop_done. unfold balloc_bit. msimpl. by rewrite (proj2 (Z.ltb_ge bi BPB)) by lia.
  - destruct (decide (k * BPB + bi < sb_size (sb s))) as [Hsz|Hsz].
    + destruct (used s (k * BPB + bi)) eqn:Hu.
      * rewrite (loop_next _ _ _ _ _ _ (balloc_skip k bp bi s1 ltac:(lia) Hsz C Hu)).
        destruct (IH (bi + 1) fuel Hk ltac:(lia) ltac:(lia) ltac:(lia) C) as [Hl|[El Hl]]; [by left|right].
        split; [done|]. intros j Hj Hjs. destruct (decide (j = bi)) as [->|]; [done|]. apply Hl; lia.
      * destruct (balloc_take k bp bi s1 Hk ltac:(lia) Hsz C Hu) as (s' & E & Al). left. exists (k * BPB + bi), s'.
        split; [by apply loop_done|]. split; [done|lia].
    + right. split; [|lia]. apply loop_done. unfold balloc_bit. msimpl.
      rewrite (kept_sb _ _ _ (sc_kept _ _ _ C)).
      rewrite (proj2 (Z.ltb_ge (k * BPB + bi) _)) by lia. by rewrite andb_false_r.
Qed.

(** Between two iterations of the outer loop. *)
Record searching (s1 : fs S) : Prop := {
  sr_rdy : rdy s1 P L;
  sr_blks : ∀ c, blks s1 c = blks s c;
  sr_kept : kept s s1 L;
}.

Lemma balloc_block_ok k s1 :
  0 ≤ k → k * BPB < sb_size (sb s) → searching s1 →
  (∃ r s', balloc_block ROOTDEV (k * BPB) s1 = Ret (inr r) s' ∧ allocated s s' P L r) ∨
  (∃ s', balloc_block ROOTDEV (k * BPB) s1 = Ret (inl ((k + 1) * BPB)) s' ∧ searching s' ∧
    ∀ j, 0 ≤ j < BPB → k * BPB + j < sb_size (sb s) → used s (k * BPB + j) = true).
Proof.
  intros Hk Hsz [R1 B1 K1]. assert (BPB = 8192) as EB by reflexivity. pose proof (ao_size _ A) as Hsize.
  set (bb := BBLOCK (k * BPB) (sb s)).
  assert (is_bitmap s bb) as Hbm by (exists (k * BPB); split; [lia|done]).
  assert (bb ∉ L) as HbL by (intros Hin; by destruct (HL bb Hin)).
  destruct (fread s1 P L bb R1 (ao_bitmap _ A bb Hbm) HbL ltac:(lia)) as (bp & s2 & E2 & R2 & H2' & B2 & K2 & _).
  assert (scanning k bp s2) as C.
  { constructor; [done|done| |by eapply fs_kept_trans]. intros c. by rewrite B2. }
  unfold balloc_block. msimpl. rewrite (kept_sb _ _ _ K1). rewrite (proj2 (Z.ltb_lt _ _)) by lia. fold bb.
  rewrite E2. cbn [res_bind].
  destruct (balloc_scan k bp s2 (Z.to_nat BPB) 0 (Datatypes.S (Z.to_nat BPB)) Hk ltac:(lia) ltac:(lia) ltac:(lia) C)
    as [(r & s' & El & Al & _)|[El Hused]]; rewrite El; cbn [res_bind].
  - left. by exists r, s'.
  - right. destruct (frelse s2 P _ bp bb R2 (in_self _ _) H2') as (s3 & E3 & R3 & B3 & K3).
    rewrite diff_more in R3, K3 by done. rewrite E3. cbn [res_bind]. exists s3. split; [do 2 f_equal; lia|].
    split; [|done]. constructor; [done| |].
    + intros c. by rewrite B3, B2.
    + eapply fs_kept_trans; [reflexivity|exact K1|]. eapply fs_kept_trans; [reflexivity|exact K2|exact K3].
Qed.

(** The outer loop, over the bitmap blocks. *)
Lemma balloc_loop m : ∀ k s1 fuel,
  0 ≤ k → Z.to_nat (sb_size (sb s) / BPB + 1 - k) = m → (m < fuel)%nat → searching s1 →
  (∀ b, 0 ≤ b < k * BPB → b < sb_size (sb s) → used s b = true) →
  ∃ r s', loop fuel (balloc_block ROOTDEV) (k * BPB) s1 = Ret r s' ∧
    (allocated s s' P L r ∨ r = 0 ∧ searching s' ∧ ∀ b, 0 ≤ b < sb_size (sb s) → used s b = true).
Proof.
  assert (BPB = 8192) as EB by reflexivity. pose proof (ao_size _ A) as Hsize.
  induction m as [|m IH]; intros k s1 fuel Hk Hm Hf C Hall; (destruct fuel as [|fuel]; [lia|]).
  all: destruct (decide (k * BPB < sb_size (sb s))) as [Hsz|Hsz].
  1: exfalso; rewrite EB in *; zdm.
  2: destruct (balloc_block_ok k s1 Hk Hsz C) as [(r & s' & E & Al)|(s' & E & C' & Hused)].
  - exists 0, s1. split; [|right; split; [done|]; split; [done|]; intros b Hb; apply Hall; lia].
    apply loop_done. unfold balloc_block. msimpl. rewrite (kept_sb _ _ _ (sr_kept _ C)).
    by rewrite (proj2 (Z.ltb_ge _ _)) by lia.
  - exists r, s'. split; [by apply loop_done|by left].
  - rewrite (loop_next _ _ _ _ _ _ E). apply IH; [lia|lia|lia|done|].
    intros b Hb Hbs. destruct (decide (b < k * BPB)); [apply Hall; lia|].
    replace b with (k * BPB + (b - k * BPB)) by lia. apply Hused; lia.
  - exists 0, s1. split; [|right; split; [done|]; split; [done|]; intros b Hb; apply Hall; lia].
    apply loop_done. unfold balloc_block. msimpl. rewrite (kept_sb _ _ _ (sr_kept _ C)).
    by rewrite (proj2 (Z.ltb_ge _ _)) by lia.
Qed.

Lemma balloc_ok :
  ∃ r s', balloc ROOTDEV s = Ret r s' ∧
    (allocated s s' P L r ∨ r = 0 ∧ searching s' ∧ ∀ b, 0 ≤ b < sb_size (sb s) → used s b = true).
Proof.
  unfold balloc. msimpl. pose proof (ao_size _ A) as Hsize.
  assert (0 ≤ sb_size (sb s) / BPB) by (apply Z.div_pos; unfold BPB, BSIZE; lia).
  apply (balloc_loop (Z.to_nat (sb_size (sb s) / BPB + 1)) 0 s); try lia. constructor; [done|done|apply kept_refl].
Qed.
End run.

(** What [bfree] leaves. *)
Record freed s s' P L (b : Z) : Prop := {
  fd_used : ∀ c, 0 ≤ c < sb_size (sb s) → used s' c = if decide (c = b) then false else used s c;
  fd_other : ∀ c, c ≠ BBLOCK b (sb s) → blks s' c = blks s c;
  fd_rdy : rdy s' ({[BBLOCK b (sb s)]} ∪ P) L;
  fd_kept : kept s s' L;
}.

Lemma byte_at_range k d : bytes d → 0 ≤ byte_at k d < 256.
Proof.
  intros Hd. unfold byte_at. rewrite nth_lookup. destruct (d !! Z.to_nat k) as [y|] eqn:E; simpl; [|lia].
  by apply (Forall_lookup_1 _ _ _ _ Hd E).
Qed.

Lemma bfree_ok s P L b :
  alloc_ok s → rdy s P L → 0 ≤ b < sb_size (sb s) → BBLOCK b (sb s) ∉ L → (size (P ∪ L) < NBUF)%nat → (size P < LOGCAP)%nat →
  if used s b then ∃ s', bfree ROOTDEV b s = Ret tt s' ∧ freed s s' P L b
  else bfree ROOTDEV b s = Panic "freeing free block".
Proof.
  intros A R Hb HL Hbuf Hlog. set (bb := BBLOCK b (sb s)) in *.
  assert (usable bb) as Hu by (apply (ao_bitmap _ A); by exists b).
  destruct (fread s P L bb R Hu HL Hbuf) as (bp & s1 & E1 & R1 & H1' & B1 & K1 & D1).
  assert (used s b = Z.testbit (byte_at (b mod BPB / 8) (blks s bb)) (b mod BPB mod 8)) as Eu by done.
  unfold bfree. msimpl. fold bb. rewrite E1. cbn [res_bind]. rewrite D1.
  rewrite land_bit_zero by (apply Z.mod_pos_bound; lia). rewrite Eu. set (x := byte_at (b mod BPB / 8) (blks s bb)) in *.
  destruct (Z.testbit x (b mod BPB mod 8)) eqn:Et; cbn [negb]; [|done].
  set (v := Z.land x (Z.lnot (Z.shiftl 1 (b mod BPB mod 8)))).
  pose proof (blks_bytes s P L bb R Hu) as Hby. pose proof (blks_length s P L bb R) as Hlen.
  destruct (fwrite s1 P _ bp bb (<[Z.to_nat (b mod BPB / 8) := v]> (blks s bb)) R1 Hu (in_self _ _) H1')
    as (s2 & E2 & R2 & D2 & B2 & K2); [by rewrite length_insert| |done|].
  { apply Forall_insert; [done|]. by apply byte_clear, byte_at_range. }
  msimpl. rewrite ?D1, E2. cbn [res_bind].
  destruct (frelse s2 _ _ bp bb R2 (in_self _ _)) as (s3 & E3 & R3 & B3 & K3); [by apply K2; [apply in_self|]|].
  rewrite E3. exists s3. split; [done|]. rewrite diff_more in R3, K3 by done.
  assert (kept s s3 L) as K.
  { constructor; [by rewrite (kp_mem _ _ _ K3), (kp_mem _ _ _ K2), (kp_mem _ _ _ K1)| |].
    { intros c. by rewrite (kp_dur _ _ _ K3), (kp_dur _ _ _ K2), (kp_dur _ _ _ K1). }
    intros c j Hc Hj. apply K3; [done|]. apply K2; [by apply in_more|]. by apply K1. }
  constructor; try done.
  - apply (used_change s s3 b v (sb_size (sb s)) false); fold bb; try done.
    + lia.
    + by rewrite (kept_sb _ _ _ K).
    + intros n Hn. unfold v. rewrite testbit_clear_bit by (lia || apply Z.mod_pos_bound; lia). fold x.
      destruct (decide (n = b mod BPB mod 8)) as [->|Hnb].
      * rewrite bool_decide_true by done. apply andb_false_r.
      * rewrite bool_decide_false by done. apply andb_true_r.
    + by rewrite B3, D2.
    + intros c Hc Hcb. by rewrite B3, B2, B1.
  - intros c Hc. by rewrite B3, B2, B1.
Qed.

Lemma alloc_ok_after s s' P L r : alloc_ok s → allocated s s' P L r → alloc_ok s'.
Proof.
  intros [Hs Hbm Hf Hz] Al. pose proof (kept_sb _ _ _ (al_kept _ _ _ _ _ Al)) as Esb.
  assert (∀ c, is_bitmap s' c ↔ is_bitmap s c) as Eb by (intros c; unfold is_bitmap; by rewrite Esb).
  constructor; rewrite ?Esb; try done.
  - intros c Hc%Eb. by apply Hbm.
  - intros b Hb Hu. rewrite (al_used _ _ _ _ _ Al b Hb) in Hu. destruct (decide (b = r)); [done|]. rewrite Eb. by apply Hf.
  - rewrite (al_used _ _ _ _ _ Al) by lia. by destruct (decide (0 = r)).
Qed.
End alloc.
