(* ===== verification/FsProps.v ===== *)
(** The properties of the block allocator against the store's interface, and transactions on
    the buffer cache and the log across a crash. *)

From S2P Require Import Prelude Bytes Sleeplock Bio BioInv Log LogInv LogCrash LogProps Store StoreLog Fs FsBlock FsAlloc.

Section props.
Context {S : Type} `{!Store S, !StoreSpec S}.
Implicit Types (s : fs S) (P L : gset Z).

(** The block allocator.  Inside a transaction with room for two more blocks, [balloc]
    always returns.  Either it returns a block in range that was free, now marked in the
    bitmap and zeroed, with every other mark and every other block as before and nothing
    written to the disk; or it returns 0, nothing has changed and every block of the disk
    is in use. *)
Lemma balloc_allocates s P L :
  alloc_ok s → rdy s P L → held_ok s L → (size (P ∪ L) + 1 < NBUF)%nat → (size P + 1 < LOGCAP)%nat →
  ∃ r s', balloc ROOTDEV s = Ret r s' ∧
    (allocated s s' P L r ∧ alloc_ok s' ∨
     r = 0 ∧ (∀ b, 0 ≤ b < sb_size (sb s) → used s b = true) ∧ rdy s' P L ∧ kept s s' L ∧ ∀ c, blks s' c = blks s c).
Proof.
  intros A R HL Hb Hl. destruct (balloc_ok s P L A R HL Hb Hl) as (r & s' & E & [Al|(-> & [R' B K] & Hu)]).
  - exists r, s'. split; [done|]. left. split; [done|]. by eapply alloc_ok_after.
  - exists 0, s'. split; [done|]. by right.
Qed.

Lemma size_union_grow (X Y : gset Z) x y : (size (({[x]} ∪ ({[y]} ∪ X)) ∪ Y) ≤ size (X ∪ Y) + 2)%nat.
Proof.
  rewrite <- !union_assoc_L. pose proof (size_insert x ({[y]} ∪ (X ∪ Y))). pose proof (size_insert y (X ∪ Y)). lia.
Qed.

(** Allocating a block and freeing it again restores the bitmap, every mark of it;
    freeing the block a second time panics. *)
Lemma bfree_balloc s P L r s1 :
  alloc_ok s → rdy s P L → held_ok s L → (size (P ∪ L) + 2 < NBUF)%nat → (size P + 2 < LOGCAP)%nat →
  balloc ROOTDEV s = Ret r s1 → r ≠ 0 →
  ∃ s2, bfree ROOTDEV r s1 = Ret tt s2 ∧ (∀ b, 0 ≤ b < sb_size (sb s) → used s2 b = used s b) ∧
    (∀ c, c ≠ r → c ≠ BBLOCK r (sb s) → blks s2 c = blks s c) ∧
    bfree ROOTDEV r s2 = Panic "freeing free block".
Proof.
  intros A R HL Hb Hl E Hr. destruct (balloc_ok s P L A R HL ltac:(lia) ltac:(lia)) as (r' & s' & E' & H').
  rewrite E in E'. injection E' as <- <-. destruct H' as [Al|[? _]]; [|done]. clear E.
  pose proof (alloc_ok_after _ _ _ _ _ A Al) as A1. pose proof (kept_sb _ _ _ (al_kept _ _ _ _ _ Al)) as Esb.
  pose proof (al_range _ _ _ _ _ Al) as Hrr. pose proof (al_rdy _ _ _ _ _ Al) as R1.
  set (P1 := {[r]} ∪ ({[BBLOCK r (sb s)]} ∪ P)) in *.
  assert (size (P1 ∪ L) ≤ size (P ∪ L) + 2)%nat as Hs1 by apply size_union_grow.
  assert (size P1 ≤ size P + 2)%nat as Hs2.
  { pose proof (size_union_grow P ∅ r (BBLOCK r (sb s))) as H'. by rewrite !union_empty_r_L in H'. }
  assert (BBLOCK r (sb s) ∉ L) as HnL by (intros Hin; apply (HL _ Hin); exists r; split; [lia|done]).
  pose proof (bfree_ok s1 P1 L r A1 R1) as F. rewrite Esb in F.
  rewrite (al_used _ _ _ _ _ Al) in F by lia. rewrite decide_True in F by done.
  destruct F as (s2 & E2 & Fr); [lia|done|lia|lia|].
  pose proof (kept_sb _ _ _ (fd_kept _ _ _ _ _ Fr)) as Esb2.
  assert (∀ b, 0 ≤ b < sb_size (sb s) → used s2 b = used s b) as Hused.
  { intros b Hbr. rewrite (fd_used _ _ _ _ _ Fr) by (rewrite Esb; lia). rewrite (al_used _ _ _ _ _ Al) by lia.
    destruct (decide (b = r)) as [->|]; [|done]. by rewrite (al_was_free _ _ _ _ _ Al). }
  exists s2. split; [done|]. split; [done|]. split.
  - intros c Hcr Hcb. rewrite (fd_other _ _ _ _ _ Fr) by (by rewrite Esb). by apply (al_other _ _ _ _ _ Al).
  - assert (alloc_ok s2) as A2.
    { destruct A as [Hsz Hbm Hf Hz]. assert (sb s2 = sb s) as Es by (by rewrite Esb2).
      assert (∀ c, is_bitmap s2 c ↔ is_bitmap s c) as Eb by (intros c; unfold is_bitmap; by rewrite Es).
      constructor; rewrite ?Es; try done.
      - intros c Hc%Eb. by apply Hbm.
      - intros b Hbr. rewrite Hused, Eb by done. by apply Hf.
      - rewrite Hused by lia. done. }
    pose proof (bfree_ok s2 _ L r A2 (fd_rdy _ _ _ _ _ Fr)) as F. rewrite Esb2, Esb in F.
    rewrite Hused, (al_was_free _ _ _ _ _ Al) in F by lia.
    assert ({[BBLOCK r (sb s)]} ∪ P1 = P1) as EP by (unfold P1; set_solver). rewrite EP in F. apply F; [lia|done|lia|lia].
Qed.
End props.

(** A transaction on the buffer cache and the log: whatever it changed, when it ends with
    [end_op] the machine can stop after any prefix of the disk writes, and rebooting then
    gives the disk from before the transaction or the one with all of its changes. *)
Lemma txn_crash_atomic pid fuel start (s s1 : log_state) P (Hf : (0 < fuel)%nat) :
  log_ready pid start 1 s ∅ ∅ → log_ready pid start 1 s1 P ∅ → (0 < size P < LOGCAP)%nat →
  (∀ b, disk (bio s1) b = disk (bio s) b) →
  ∃ l w, end_op pid fuel s1 = Ret tt l ∧ dtrace (bio l) = dtrace (bio s1) ++ w ∧
    ∀ p, p `prefix_of` w →
      ∃ q, reboot pid fuel start LOGSIZE (after (disk (bio s1)) p) = Ret tt q ∧
        ((∀ b, ¬ in_log start b → disk (bio q) b = view (bio s) b) ∨
         (∀ b, ¬ in_log start b → disk (bio q) b = view (bio s1) b)).
Proof.
  intros R R1 Hs Hd. destruct (ready_pending pid start 1 s1 P R1) as (Hp & Es & Ho & Hn); [unfold NBUF, LOGCAP in *; lia|].
  assert (0 < lh_n s1) as Hpos by lia.
  destruct (end_op_ok pid fuel s1 LOGSIZE Hf Hp Ho Hpos) as (l & w & E & Ht & _ & _ & _ & _ & _ & Hc); [done|].
  rewrite Es in Hc. exists l, w. split; [exact E|]. split; [exact Ht|]. clear E. intros p Hpre.
  destruct (Hc p Hpre) as (q & Eq & Hq & _). exists q. split; [exact Eq|]. clear Eq.
  destruct Hq as [Hq|Hq]; [left|by right]. intros b Hb. rewrite Hq, Hd by exact Hb. destruct R as (bs & v & d & tr & T).
  rewrite (same_view _ _ _ b T), (same_disk _ _ _ b T).
  symmetry. apply (lst_clean pid _ _ _ _ _ _ _ (it_lst _ _ _ _ _ _ _ _ _ _ T)); set_solver.
Qed.

(** * A disk to allocate on *)

(** Two hundred blocks, the log from block 2, an empty file as inode 1 in block 33, and the
    bitmap in block 45; the blocks up to 46 are in use. *)
Definition small_sb : superblock := Superblock FSMAGIC 200 153 100 LOGSIZE 2 33 45.
Definition small_map : list Z := replicate 5 255 ++ [127] ++ replicate 1018 0.
Definition small_inode : dinode := Dinode 2 0 0 1 0 (replicate 13 0).
Definition small_inodes : list Z := put_dinode (dinode_off 1) small_inode zeros.
Definition small_disk : Z → list Z := fupd (fupd (λ _, zeros) 45 small_map) 33 small_inodes.
Definition small_fs (l : log_state) : fs log_state :=
  Fs l small_sb false [Inode ROOTDEV 1 1 initsleeplock true small_inode].

Lemma small_inodes_bytes : forallb (λ x, (0 <=? x) && (x <? 256)) small_inodes = true.
Proof. vm_compute. reflexivity. Qed.

Lemma small_booted : ∃ l, log_ready 1 2 1 l ∅ ∅ ∧ view (bio l) 45 = small_map ∧ view (bio l) 33 = small_inodes.
Proof.
  destruct (boot_ready 1 1 2 small_disk) as (s0 & l & _ & _ & R & Hv).
  - lia.
  - intros b. unfold small_disk, fupd. destruct (b =? 33); [reflexivity|]. by destruct (b =? 45).
  - intros b. unfold small_disk, fupd. destruct (b =? 33).
    { apply Forall_forall. intros x Hx. pose proof small_inodes_bytes as F. rewrite forallb_forall in F.
      apply list_elem_of_In in Hx. specialize (F x Hx). lia. }
    destruct (b =? 45); [|apply Forall_replicate; lia].
    apply Forall_app. split; [apply Forall_replicate; lia|]. apply Forall_app. split; [|apply Forall_replicate; lia].
    by repeat constructor.
  - apply (trans_ok_nil 2 [50] trans_50).
  - reflexivity.
  - exists l. split; [exact R|]. split; (rewrite Hv; [reflexivity|]; unfold in_log, LOGSIZE, MAXOPBLOCKS; lia).
Qed.

Lemma small_free_above : forallb (λ b, Z.testbit (byte_at (b mod BPB / 8) small_map) (b mod BPB mod 8) || (46 <? b)) (seqZ 0 200) = true.
Proof. vm_compute. reflexivity. Qed.

Lemma small_alloc l (Hf : (0 < 1)%nat) (St := store_log 1 1) (Sp := store_log_spec 1 1 2 1 Hf) :
  view (bio l) 45 = small_map → alloc_ok (small_fs l).
Proof.
  intros Hv.
  assert (∀ b, 0 ≤ b < 200 → BBLOCK b small_sb = 45) as Eb.
  { intros b Hb. unfold BBLOCK. change BPB with 8192. cbn [bmapstart small_sb]. zdm. }
  assert (∀ b, 0 ≤ b < 200 → used (small_fs l) b = Z.testbit (byte_at (b mod BPB / 8) small_map) (b mod BPB mod 8)) as Eu.
  { intros b Hb. unfold used. cbn [sb small_fs]. rewrite Eb by done. unfold blks. cbn [blk Sp store_log_spec store small_fs]. by rewrite Hv. }
  constructor; cbn [sb small_fs sb_size small_sb].
  - lia.
  - intros c (b & Hb & ->). cbn [sb small_fs sb_size small_sb] in *. rewrite Eb by done.
    split; [lia|]. unfold in_log, LOGSIZE, MAXOPBLOCKS. lia.
  - intros b Hb Hu. rewrite Eu in Hu by done. pose proof small_free_above as F. rewrite forallb_forall in F.
    specialize (F b). rewrite Hu in F. assert (46 < b) as Hgt.
    { apply Z.ltb_lt, F. apply list_elem_of_In, elem_of_seqZ. lia. }
    split; [split; [lia|unfold in_log, LOGSIZE, MAXOPBLOCKS; lia]|].
    intros (b' & Hb' & ->). cbn [sb small_fs sb_size small_sb] in *. rewrite Eb in Hgt by done. lia.
  - rewrite Eu by lia. reflexivity.
Qed.

Lemma held_none {S} `{!Store S, !StoreSpec S} (s : fs S) : held_ok s ∅.
Proof. intros c Hc. by apply elem_of_empty in Hc. Qed.


(** The allocator finds a block on this disk: block 47 is free. *)
Lemma small_finds l r s1 (Hf : (0 < 1)%nat) (St := store_log 1 1) (Sp := store_log_spec 1 1 2 1 Hf) :
  view (bio l) 45 = small_map → balloc ROOTDEV (small_fs l) = Ret r s1 → log_ready 1 2 1 l ∅ ∅ → r ≠ 0.
Proof.
  intros Hv E R ->. destruct (balloc_ok (small_fs l) ∅ ∅ (small_alloc l Hf Hv) R (held_none _)) as (r' & s' & E' & H'); [vm_compute; lia|vm_compute; lia|].
  assert (Ret 0 s1 = Ret r' s') as EE by (etrans; [symmetry; exact E|exact E']).
  injection EE as <- <-. clear E E'. destruct H' as [Al|(_ & _ & Hu)].
  - pose proof (al_range _ _ _ _ _ Al). lia.
  - specialize (Hu 47 ltac:(cbn; lia)). unfold used, blks in Hu. cbn [blk Sp store_log_spec store small_fs] in Hu.
    change (BBLOCK 47 (sb (small_fs l))) with 45 in Hu. rewrite Hv in Hu. vm_compute in Hu. done.
Qed.

Lemma bfree_balloc_witness :
  ∃ (l : log_state) r s1 s2, @balloc log_state (store_log 1 1) ROOTDEV (small_fs l) = Ret r s1 ∧
    @bfree log_state (store_log 1 1) ROOTDEV r s1 = Ret tt s2 ∧
    @bfree log_state (store_log 1 1) ROOTDEV r s2 = Panic "freeing free block".
Proof.
  destruct small_booted as (l & R & Hv & _). assert (0 < 1)%nat as Hf by lia.
  pose (St := store_log 1 1). pose (Sp := store_log_spec 1 1 2 1 Hf).
  destruct (balloc_ok (small_fs l) ∅ ∅ (small_alloc l Hf Hv) R (held_none _)) as (r & s1 & E & _); [vm_compute; lia|vm_compute; lia|].
  destruct (bfree_balloc (small_fs l) ∅ ∅ r s1) as (s2 & E2 & _ & _ & E3).
  - by apply small_alloc.
  - exact R.
  - apply held_none.
  - vm_compute. lia.
  - vm_compute. lia.
  - exact E.
  - by apply (small_finds l r s1 Hf).
  - exists l, r, s1, s2. split; [exact E|]. split; [exact E2|exact E3].
Defined.
