(* ===== verification/Dinode.v ===== *)
(** Inodes on disk: what [iupdate] of kernel/fs.c stores in a block, [ilock] reads back, and
    the other inodes of the block stay as they are. *)

From S2P Require Import Prelude Bytes Bio Store Fs.

(** Fields in the range of their C types. *)
Record dinode_ok (x : dinode) : Prop := {
  dk_type : -2 ^ 15 ≤ d_type x < 2 ^ 15;
  dk_major : -2 ^ 15 ≤ d_major x < 2 ^ 15;
  dk_minor : -2 ^ 15 ≤ d_minor x < 2 ^ 15;
  dk_nlink : -2 ^ 15 ≤ d_nlink x < 2 ^ 15;
  dk_size : 0 ≤ d_size x < 2 ^ 32;
  dk_len : length (d_addrs x) = 13%nat;
  dk_addrs : Forall (λ a, 0 ≤ a < 2 ^ 32) (d_addrs x);
}.

Lemma i16_u16 x : -2 ^ 15 ≤ x < 2 ^ 15 → i16 (u16 x) = x.
Proof. intros Hx. unfold i16, u16. change (2 ^ 16) with 65536. change (2 ^ 15) with 32768 in *. repeat case_decide; zdm. Qed.

Lemma length_set16 o v d : (o + 2 ≤ length d)%nat → length (set16 o v d) = length d.
Proof. intros. apply length_splice. by rewrite length_le_enc. Qed.

Lemma get16_set16 o v d : (o + 2 ≤ length d)%nat → get16 o (set16 o (u16 v) d) = u16 v.
Proof.
  intros Hl. unfold get16, set16. rewrite sub_splice_same by (by rewrite length_le_enc).
  rewrite le_dec_enc. apply Z.mod_small. unfold u16. apply Z.mod_pos_bound. lia.
Qed.

Lemma sub_set16_other o v d o' n :
  (o + 2 ≤ length d)%nat → (o' + n ≤ o ∨ o + 2 ≤ o')%nat → sub o' n (set16 o v d) = sub o' n d.
Proof. intros. unfold set16. by rewrite sub_splice_other by (by rewrite length_le_enc). Qed.

Lemma length_put_addrs l : ∀ o d, (o + 4 * length l ≤ length d)%nat → length (put_addrs o l d) = length d.
Proof.
  induction l as [|a l IH]; intros o d Hl; cbn [put_addrs length] in *; [done|].
  rewrite IH by (rewrite length_set32; lia). apply length_set32. lia.
Qed.

Lemma sub_put_addrs_other l : ∀ o d o' n,
  (o + 4 * length l ≤ length d)%nat → (o' + n ≤ o ∨ o + 4 * length l ≤ o')%nat → sub o' n (put_addrs o l d) = sub o' n d.
Proof.
  induction l as [|a l IH]; intros o d o' n Hl Ho; cbn [put_addrs length] in *; [done|].
  rewrite IH by (rewrite ?length_set32; lia). apply sub_set32_other; lia.
Qed.

Lemma get32_put_addrs l : ∀ o d k,
  (o + 4 * length l ≤ length d)%nat → Forall (λ a, 0 ≤ a < 2 ^ 32) l → (k < length l)%nat →
  get32 (o + 4 * k) (put_addrs o l d) = nth k l 0.
Proof.
  induction l as [|a l IH]; intros o d k Hl Hr Hk; cbn [put_addrs length] in *; [lia|]. apply Forall_cons in Hr as [Ha Hr].
  destruct k as [|k].
  - rewrite Nat.mul_0_r, Nat.add_0_r. unfold get32. rewrite sub_put_addrs_other by (rewrite ?length_set32; lia).
    apply (get32_set32 d o); [lia|done].
  - replace (o + 4 * Datatypes.S k)%nat with (o + 4 + 4 * k)%nat by lia. cbn [nth]. apply IH; [rewrite length_set32; lia|done|lia].
Qed.

Section dinode.
Context (o : nat) (x : dinode) (d : list Z).
Hypothesis Ho : (o + 64 ≤ length d)%nat.
Hypothesis Hx : dinode_ok x.

(** The block after each field. *)
Local Definition p1 := set16 o (u16 (d_type x)) d.
Local Definition p2 := set16 (o + 2) (u16 (d_major x)) p1.
Local Definition p3 := set16 (o + 4) (u16 (d_minor x)) p2.
Local Definition p4 := set16 (o + 6) (u16 (d_nlink x)) p3.
Local Definition p5 := set32 (o + 8) (d_size x) p4.

Local Lemma p1_len : length p1 = length d. Proof. apply length_set16. lia. Qed.
Local Lemma p2_len : length p2 = length d. Proof. unfold p2. rewrite length_set16; rewrite p1_len; lia. Qed.
Local Lemma p3_len : length p3 = length d. Proof. unfold p3. rewrite length_set16; rewrite p2_len; lia. Qed.
Local Lemma p4_len : length p4 = length d. Proof. unfold p4. rewrite length_set16; rewrite p3_len; lia. Qed.
Local Lemma p5_len : length p5 = length d. Proof. unfold p5. rewrite length_set32; rewrite p4_len; lia. Qed.

Lemma length_put_dinode : length (put_dinode o x d) = length d.
Proof. change (length (put_addrs (o + 12) (d_addrs x) p5) = length d). rewrite length_put_addrs; rewrite p5_len, ?(dk_len _ Hx); lia. Qed.

Lemma bytes_put_dinode : bytes d → bytes (put_dinode o x d).
Proof.
  intros Hd. change (bytes (put_addrs (o + 12) (d_addrs x) p5)).
  assert (∀ l o d, bytes d → bytes (put_addrs o l d)) as Hp.
  { clear. intros l. induction l as [|a l IH]; intros o d Hd; [done|]. apply IH, bytes_splice; [done|apply bytes_le_enc]. }
  apply Hp. repeat (apply bytes_splice; [|apply bytes_le_enc]). done.
Qed.

(** Bytes outside the inode's 64 are not touched. *)
Lemma sub_put_dinode_other o' n :
  (o' + n ≤ o ∨ o + 64 ≤ o')%nat → sub o' n (put_dinode o x d) = sub o' n d.
Proof.
  intros Hd. change (sub o' n (put_addrs (o + 12) (d_addrs x) p5) = sub o' n d).
  rewrite sub_put_addrs_other; rewrite ?p5_len, ?(dk_len _ Hx); try lia.
  unfold p5. rewrite sub_set32_other; rewrite ?p4_len; try lia. unfold p4. rewrite sub_set16_other; rewrite ?p3_len; try lia.
  unfold p3. rewrite sub_set16_other; rewrite ?p2_len; try lia. unfold p2. rewrite sub_set16_other; rewrite ?p1_len; try lia.
  unfold p1. apply sub_set16_other; lia.
Qed.

Lemma get_put_dinode : get_dinode o (put_dinode o x d) = x.
Proof.
  change (get_dinode o (put_addrs (o + 12) (d_addrs x) p5) = x).
  assert (∀ o' n, (o' + n ≤ o + 12)%nat → sub o' n (put_addrs (o + 12) (d_addrs x) p5) = sub o' n p5) as H5.
  { intros. apply sub_put_addrs_other; rewrite ?p5_len, ?(dk_len _ Hx); lia. }
  assert (∀ o', (o' + 2 ≤ o + 8)%nat → get16 o' (put_addrs (o + 12) (d_addrs x) p5) = get16 o' p4) as H4.
  { intros o' Hl. unfold get16. rewrite H5 by lia. unfold p5. rewrite sub_set32_other; rewrite ?p4_len; (done || lia). }
  assert (∀ o', (o' + 2 ≤ o + 6)%nat → get16 o' p4 = get16 o' p3) as H3.
  { intros o' Hl. unfold get16, p4. rewrite sub_set16_other; rewrite ?p3_len; (done || lia). }
  assert (∀ o', (o' + 2 ≤ o + 4)%nat → get16 o' p3 = get16 o' p2) as H2.
  { intros o' Hl. unfold get16, p3. rewrite sub_set16_other; rewrite ?p2_len; (done || lia). }
  assert (get16 o p2 = get16 o p1) as H1.
  { unfold get16, p2. rewrite sub_set16_other; rewrite ?p1_len; (done || lia). }
  unfold get_dinode. rewrite !H4 by lia. rewrite (H3 o), (H3 (o + 2)%nat), (H3 (o + 4)%nat), (H2 o), (H2 (o + 2)%nat), H1 by lia.
  unfold p1 at 1. rewrite get16_set16 by lia. unfold p2 at 1. rewrite get16_set16 by (rewrite p1_len; lia).
  unfold p3 at 1. rewrite get16_set16 by (rewrite p2_len; lia). unfold p4 at 1. rewrite get16_set16 by (rewrite p3_len; lia).
  rewrite !i16_u16 by apply Hx.
  assert (get32 (o + 8) (put_addrs (o + 12) (d_addrs x) p5) = d_size x) as ->.
  { unfold get32. rewrite H5 by lia. apply get32_set32; [rewrite p4_len; lia|apply Hx]. }
  assert (((λ k, get32 (o + 12 + 4 * k) (put_addrs (o + 12) (d_addrs x) p5)) <$> seq 0 13) = d_addrs x) as ->.
  { pose proof (dk_len _ Hx) as Hl. apply list_eq. intros k. rewrite list_lookup_fmap. destruct (decide (k < 13)%nat) as [Hk|Hk].
    - rewrite lookup_seq_lt by done. cbn [fmap option_fmap option_map Nat.add].
      rewrite get32_put_addrs; rewrite ?p5_len, ?Hl; try lia; [|apply Hx].
      rewrite nth_lookup. by destruct (lookup_lt_is_Some_2 (d_addrs x) k) as [a ->]; [lia|].
    - rewrite lookup_seq_ge, lookup_ge_None_2 by lia. done. }
  by destruct x.
Qed.

(** The other inodes of the block. *)
Lemma get_dinode_other o' :
  (o' + 64 ≤ o ∨ o + 64 ≤ o')%nat → get_dinode o' (put_dinode o x d) = get_dinode o' d.
Proof.
  intros Hd. unfold get_dinode, get16, get32. rewrite !sub_put_dinode_other by lia. f_equal.
  apply list_fmap_ext. intros i k Hk. apply lookup_seq in Hk as [-> Hk]. by rewrite sub_put_dinode_other by lia.
Qed.
End dinode.

(** * A new inode *)

(** The block after [memset] of the inode and the store of its type, in [ialloc]. *)
Definition fresh_dinode (t : Z) : dinode := Dinode t 0 0 0 0 (replicate 13 0).

Section fresh.
Context (o : nat) (t : Z) (d : list Z).
Hypothesis Ho : (o + 64 ≤ length d)%nat.
Local Abbreviation blank := (splice o (replicate 64 0) d).
Local Abbreviation fresh := (set16 o (u16 t) blank).

Local Lemma blank_len : length blank = length d.
Proof. apply length_splice. by rewrite length_replicate. Qed.

Lemma length_fresh : length fresh = length d.
Proof. rewrite length_set16; rewrite blank_len; lia. Qed.

Lemma bytes_fresh : bytes d → bytes fresh.
Proof. intros Hd. apply bytes_splice; [|apply bytes_le_enc]. apply bytes_splice; [done|]. apply Forall_replicate. lia. Qed.

Local Lemma sub_blank o' n : (o ≤ o')%nat → (o' + n ≤ o + 64)%nat → sub o' n blank = replicate n 0.
Proof.
  intros H1 H2. apply list_eq. intros i. destruct (decide (i < n)%nat) as [Hi|Hi].
  - rewrite lookup_sub, lookup_replicate_2, lookup_splice by (rewrite ?length_replicate; lia). rewrite length_replicate, decide_True by lia. apply lookup_replicate_2. lia.
  - rewrite lookup_sub_ge by lia. symmetry. apply lookup_ge_None_2. rewrite length_replicate. lia.
Qed.

Local Lemma le_dec_zeros n : le_dec (replicate n 0) = 0.
Proof. induction n as [|n IH]; [done|]. cbn [replicate le_dec]. lia. Qed.

Lemma get_fresh : -2 ^ 15 ≤ t < 2 ^ 15 → get_dinode o fresh = fresh_dinode t.
Proof.
  intros Ht. pose proof blank_len as Hl. unfold get_dinode. rewrite get16_set16, i16_u16 by (done || lia).
  assert (∀ q n, (o + 2 ≤ q)%nat → (q + n ≤ o + 64)%nat → le_dec (sub q n fresh) = 0) as Hz.
  { intros q n H1 H2. rewrite sub_set16_other, sub_blank by lia. apply le_dec_zeros. }
  unfold get16, get32. rewrite !Hz by lia. unfold fresh_dinode. f_equal.
  apply list_eq. intros k. rewrite list_lookup_fmap. destruct (decide (k < 13)%nat) as [Hk|Hk].
  - rewrite lookup_seq_lt, lookup_replicate_2 by done. cbn [fmap option_fmap option_map]. rewrite Hz by lia. done.
  - rewrite lookup_seq_ge, lookup_ge_None_2 by (rewrite ?length_replicate; lia). done.
Qed.

Lemma get_fresh_other o' : (o' + 64 ≤ o ∨ o + 64 ≤ o')%nat → get_dinode o' fresh = get_dinode o' d.
Proof.
  intros Hd. pose proof blank_len as Hl. assert (∀ q n, (q + n ≤ o ∨ o + 64 ≤ q)%nat → sub q n fresh = sub q n d) as Hs.
  { intros q n Hq. rewrite sub_set16_other by lia. apply sub_splice_other; rewrite ?length_replicate; lia. }
  unfold get_dinode, get16, get32. rewrite !Hs by lia. f_equal. apply list_fmap_ext. intros i k Hk. apply lookup_seq in Hk as [-> Hk]. by rewrite Hs by lia.
Qed.
End fresh.
