(* ===== verification/FsFile.v ===== *)
(** The contents of a file: [bmap], [readi], [writei] and [iupdate] of kernel/fs.c.

    An inode names the blocks of its file: twelve directly and the rest through an indirect
    block.  [faddr] is the block number of each block of the file, [fblock] its contents, a
    block that is missing counting as zeros.  [bmap] adds blocks without changing contents;
    [readi] and [writei] read and change them byte by byte. *)

From S2P Require Import Prelude Bytes Sleeplock Bio Store Fs FsBlock FsAlloc.

Lemma get32_zeros o n : get32 o (replicate n 0) = 0.
Proof.
  unfold get32, sub. rewrite drop_replicate, take_replicate. generalize (4 `min` (n - o))%nat. intros k.
  induction k as [|k IH]; [done|]. simpl. lia.
Qed.

Lemma addr_at_set k j a x :
  length (d_addrs x) = 13%nat → 0 ≤ k ≤ NDIRECT → 0 ≤ j ≤ NDIRECT →
  addr_at j (set_addr k a x) = if decide (j = k) then a else addr_at j x.
Proof.
  intros Hl Hk Hj. change NDIRECT with 12 in *. unfold addr_at, set_addr. cbn [d_addrs]. rewrite !nth_lookup.
  destruct (decide (j = k)) as [->|Hne]; [by rewrite list_lookup_insert_eq by lia|by rewrite list_lookup_insert_ne by lia].
Qed.

Section file.
Context {S : Type} `{!Store S, !StoreSpec S} (ip : nat).
Implicit Types (s : fs S) (P L : gset Z).

Definition meta s : dinode := idata (ino ip s).
Definition iaddr s : Z := addr_at NDIRECT (meta s).

(** Where block [k] of the file is, 0 if nowhere; number MAXFILE is the indirect block. *)
Definition faddr s (k : Z) : Z :=
  if k <? NDIRECT then addr_at k (meta s)
  else if k =? MAXFILE then iaddr s
  else if iaddr s =? 0 then 0
  else get32 (Z.to_nat (4 * (k - NDIRECT))) (blks s (iaddr s)).

Definition fblock s (k : Z) : list Z :=
  if faddr s k =? 0 then replicate (Z.to_nat BSIZE) 0 else blks s (faddr s k).

(** The block that holds the inode. *)
Definition iblock s : Z := IBLOCK (inum (ino ip s)) (sb s).

(** A block the allocator will not give away: in use, and not part of the bitmap. *)
Definition taken s (b : Z) : Prop := 0 < b < sb_size (sb s) ∧ used s b = true ∧ usable b ∧ ¬ is_bitmap s b.

Record file_ok s : Prop := {
  fo_slot : (ip < length (inodes s))%nat;
  fo_dev : idev (ino ip s) = ROOTDEV;
  fo_len : length (d_addrs (meta s)) = 13%nat;
  fo_iblock : taken s (iblock s);
  fo_taken : ∀ k, 0 ≤ k ≤ MAXFILE → faddr s k ≠ 0 → taken s (faddr s k) ∧ faddr s k ≠ iblock s;
  fo_inj : ∀ k j, 0 ≤ k ≤ MAXFILE → 0 ≤ j ≤ MAXFILE → faddr s k ≠ 0 → faddr s k = faddr s j → k = j;
}.

(** From [s] to [s'] only blocks of this file, blocks that were free and the bitmap have
    changed, and of the inodes in memory only the addresses of this one. *)
Record grows_to s s' : Prop := {
  gt_sb : sb s' = sb s;
  gt_len : length (inodes s') = length (inodes s);
  gt_inode : ino ip s' = set_idata (Dinode (d_type (meta s)) (d_major (meta s)) (d_minor (meta s)) (d_nlink (meta s))
    (d_size (meta s)) (d_addrs (meta s'))) (ino ip s);
  gt_others : ∀ j, j ≠ ip → ino j s' = ino j s;
  gt_addr : ∀ k, 0 ≤ k ≤ MAXFILE → faddr s' k = faddr s k ∨ faddr s k = 0 ∧ used s (faddr s' k) = false;
  gt_used : ∀ c, 0 ≤ c < sb_size (sb s) → used s c = true → used s' c = true;
  gt_blks : ∀ c, taken s c → (∀ k, 0 ≤ k ≤ MAXFILE → faddr s k ≠ c) → blks s' c = blks s c;
  gt_dur : ∀ c, durable (store s') c = durable (store s) c;
  gt_table : itable_lock s' = itable_lock s;
}.

Lemma gt_refl s : grows_to s s.
Proof.
  constructor; try done; [|by left]. unfold meta. destruct (ino ip s) as [a b c d e [??????]]. done.
Qed.

Lemma gt_iblock s s' : grows_to s s' → iblock s' = iblock s.
Proof. intros G. unfold iblock. rewrite (gt_sb _ _ G), (gt_inode _ _ G). done. Qed.

Lemma gt_size s s' : grows_to s s' → d_size (meta s') = d_size (meta s).
Proof. intros G. unfold meta at 1. rewrite (gt_inode _ _ G). done. Qed.

Lemma is_bitmap_sb s s' c : sb s' = sb s → is_bitmap s' c ↔ is_bitmap s c.
Proof. intros E. unfold is_bitmap. by rewrite E. Qed.

Lemma gt_taken s s' c : grows_to s s' → taken s c → taken s' c.
Proof.
  intros G (Hr & Hu & Hus & Hb). split; [by rewrite (gt_sb _ _ G)|]. split; [by apply (gt_used _ _ G); [lia|]|].
  split; [done|]. by rewrite (is_bitmap_sb s s' c (gt_sb _ _ G)).
Qed.

Lemma gt_trans s1 s2 s3 : file_ok s3 → grows_to s1 s2 → grows_to s2 s3 → grows_to s1 s3.
Proof.
  intros F G1 G2. assert (∀ k, 0 ≤ k ≤ MAXFILE → faddr s3 k = faddr s1 k ∨ faddr s1 k = 0 ∧ used s1 (faddr s3 k) = false) as Ha.
  { intros k Hk. destruct (gt_addr _ _ G2 k Hk) as [E2|[E2 U2]].
    - rewrite E2. by apply (gt_addr _ _ G1).
    - destruct (gt_addr _ _ G1 k Hk) as [E1|[E1 U1]].
      + destruct (decide (faddr s3 k = 0)) as [E0|E0]; [left; congruence|].
        right. split; [congruence|]. destruct (used s1 (faddr s3 k)) eqn:Eu; [|done].
        destruct (fo_taken _ F k Hk E0) as [(Hr & _) _]. rewrite (gt_sb _ _ G2), (gt_sb _ _ G1) in Hr.
        rewrite (gt_used _ _ G1) in U2; [done|lia|done].
      + destruct (decide (faddr s3 k = 0)) as [E0|E0]; [left; congruence|].
        right. split; [done|]. destruct (used s1 (faddr s3 k)) eqn:Eu; [|done].
        destruct (fo_taken _ F k Hk E0) as [(Hr & _) _]. rewrite (gt_sb _ _ G2), (gt_sb _ _ G1) in Hr.
        rewrite (gt_used _ _ G1) in U2; [done|lia|done]. }
  constructor; [| | | |done| | | |].
  - by rewrite (gt_sb _ _ G2), (gt_sb _ _ G1).
  - by rewrite (gt_len _ _ G2), (gt_len _ _ G1).
  - rewrite (gt_inode _ _ G2). generalize (d_addrs (meta s3)). intros a. unfold meta. rewrite (gt_inode _ _ G1). done.
  - intros j Hj. by rewrite (gt_others _ _ G2), (gt_others _ _ G1).
  - intros c Hc Hu. apply (gt_used _ _ G2); [by rewrite (gt_sb _ _ G1)|by apply (gt_used _ _ G1)].
  - intros c Hc Hn. rewrite (gt_blks _ _ G2), (gt_blks _ _ G1); try done; [by apply (gt_taken s1)|].
    intros k Hk E. destruct (gt_addr _ _ G1 k Hk) as [E1|[E1 U1]]; [by apply (Hn k Hk); congruence|].
    rewrite E in U1. destruct Hc as (_ & Hu & _). congruence.
  - intros c. by rewrite (gt_dur _ _ G2), (gt_dur _ _ G1).
  - by rewrite (gt_table _ _ G2), (gt_table _ _ G1).
Qed.

(** * Adding a block *)

Lemma faddr_ind s : faddr s MAXFILE = iaddr s.
Proof. done. Qed.

Lemma maxfile_val : MAXFILE = 268 ∧ NDIRECT = 12 ∧ NINDIRECT = 256 ∧ BSIZE = 1024.
Proof. done. Qed.

Lemma taken_not_free s P L r s1 c : allocated s s1 P L r → taken s c → c ≠ r.
Proof. intros Al (_ & Hu & _) ->. by rewrite (al_was_free _ _ _ _ _ Al) in Hu. Qed.

Section grow.
Context (s s1 s2 : fs S) (P L : gset Z) (r bn : Z).
Hypothesis F : file_ok s.
Hypothesis A : alloc_ok s.
Hypothesis Al : allocated s s1 P L r.
Hypothesis Hbn : 0 ≤ bn ≤ MAXFILE.
Hypothesis Hz : faddr s bn = 0.

(** [s2] is [s1] with the new block [r] put at place [bn] of the file. *)
Record linked : Prop := {
  lk_sb : sb s2 = sb s1;
  lk_len : length (inodes s2) = length (inodes s1);
  lk_inode : ino ip s2 = set_idata (Dinode (d_type (meta s)) (d_major (meta s)) (d_minor (meta s)) (d_nlink (meta s))
    (d_size (meta s)) (d_addrs (meta s2))) (ino ip s);
  lk_others : ∀ j, j ≠ ip → ino j s2 = ino j s1;
  lk_alen : length (d_addrs (meta s2)) = 13%nat;
  lk_addr : ∀ k, 0 ≤ k ≤ MAXFILE → faddr s2 k = if decide (k = bn) then r else faddr s k;
  lk_blks : ∀ c, iaddr s = 0 ∨ c ≠ iaddr s → blks s2 c = blks s1 c;
  lk_dur : ∀ c, durable (store s2) c = durable (store s1) c;
  lk_table : itable_lock s2 = itable_lock s1;
}.
Hypothesis K : linked.

Local Lemma g_sb : sb s2 = sb s.
Proof. rewrite (lk_sb K). apply (kept_sb _ _ _ (al_kept _ _ _ _ _ Al)). Qed.

Local Lemma g_ind : is_bitmap s (iaddr s) → iaddr s = 0.
Proof.
  intros Hb. destruct (decide (iaddr s = 0)) as [|Hne]; [done|].
  destruct (fo_taken _ F MAXFILE ltac:(lia) Hne) as [(_ & _ & _ & Hn) _]. by rewrite faddr_ind in Hn.
Qed.

Local Lemma g_used c : 0 ≤ c < sb_size (sb s) → used s2 c = if decide (c = r) then true else used s c.
Proof.
  intros Hc. rewrite <- (al_used _ _ _ _ _ Al c Hc). unfold used. rewrite (lk_sb K). f_equal. f_equal.
  apply (lk_blks K). rewrite (kept_sb _ _ _ (al_kept _ _ _ _ _ Al)).
  destruct (decide (BBLOCK c (sb s) = iaddr s)) as [E|E]; [left|by right].
  apply g_ind. exists c. done.
Qed.

Local Lemma g_blks c : taken s c → (iaddr s = 0 ∨ c ≠ iaddr s) → blks s2 c = blks s c.
Proof.
  intros Hc Hi. rewrite (lk_blks K) by done. apply (al_other _ _ _ _ _ Al); [by eapply taken_not_free|].
  intros ->. destruct Hc as (_ & _ & _ & Hn). apply Hn. exists r. pose proof (al_range _ _ _ _ _ Al). split; [lia|done].
Qed.

Local Lemma g_taken c : taken s c → taken s2 c.
Proof.
  intros (Hr & Hu & Hus & Hb). split; [by rewrite g_sb|]. split; [rewrite g_used by lia; by case_decide|].
  split; [done|]. by rewrite (is_bitmap_sb s s2 c g_sb).
Qed.

Local Lemma g_new : taken s2 r ∧ r ≠ iblock s ∧ ∀ k, 0 ≤ k ≤ MAXFILE → faddr s k ≠ r.
Proof.
  pose proof (al_range _ _ _ _ _ Al) as Hr. destruct (ao_free _ A r ltac:(lia) (al_was_free _ _ _ _ _ Al)) as [Hu Hb].
  split; [split; [by rewrite g_sb|]; split; [rewrite g_used by lia; by rewrite decide_True|]; split; [done|by rewrite (is_bitmap_sb s s2 r g_sb)]|].
  split; [intros E; by apply (taken_not_free _ _ _ _ _ (iblock s) Al (fo_iblock _ F))|].
  intros k Hk E. apply (taken_not_free _ _ _ _ _ (faddr s k) Al); [|done].
  apply (fo_taken _ F k Hk). rewrite E. lia.
Qed.

Local Lemma g_iblock : iblock s2 = iblock s.
Proof. unfold iblock. rewrite g_sb, (lk_inode K). done. Qed.

Lemma linked_file_ok : file_ok s2.
Proof.
  destruct g_new as (Ht & Hib & Hn). pose proof (al_range _ _ _ _ _ Al) as Hr. constructor.
  - rewrite (lk_len K). rewrite (kp_mem _ _ _ (al_kept _ _ _ _ _ Al)). apply F.
  - rewrite (lk_inode K). apply F.
  - apply (lk_alen K).
  - rewrite g_iblock. apply g_taken, F.
  - intros k Hk. rewrite (lk_addr K k Hk), g_iblock. case_decide; [done|]. intros Hne.
    destruct (fo_taken _ F k Hk Hne) as [H1 H2]. split; [by apply g_taken|done].
  - intros k j Hk Hj. rewrite (lk_addr K k Hk), (lk_addr K j Hj).
    case_decide as Ek; case_decide as Ej; subst; try done.
    + intros _ E. symmetry in E. by apply Hn in E.
    + intros _ E. by apply Hn in E.
    + by apply F.
Qed.

Lemma linked_grows : grows_to s s2.
Proof.
  constructor.
  - apply g_sb.
  - rewrite (lk_len K). by rewrite (kp_mem _ _ _ (al_kept _ _ _ _ _ Al)).
  - apply (lk_inode K).
  - intros j Hj. rewrite (lk_others K) by done. by rewrite (kp_mem _ _ _ (al_kept _ _ _ _ _ Al)).
  - intros k Hk. rewrite (lk_addr K k Hk). case_decide as E; [right|by left]. subst. split; [done|apply Al].
  - intros c Hc Hu. rewrite g_used by done. by case_decide.
  - intros c Hc Hn. apply g_blks; [done|]. right. intros ->. apply (Hn MAXFILE); [lia|done].
  - intros c. rewrite (lk_dur K). apply (kp_dur _ _ _ (al_kept _ _ _ _ _ Al)).
  - rewrite (lk_table K). by rewrite (kp_mem _ _ _ (al_kept _ _ _ _ _ Al)).
Qed.

Lemma linked_alloc_ok : alloc_ok s2.
Proof.
  destruct A as [Hs Hbm Hf Hz']. constructor; rewrite ?g_sb; try done.
  - intros c Hc%(is_bitmap_sb s s2 c g_sb). by apply Hbm.
  - intros b Hb Hu. rewrite g_used in Hu by done. destruct (decide (b = r)); [done|].
    rewrite (is_bitmap_sb s s2 b g_sb). by apply Hf.
  - rewrite g_used by lia. by case_decide.
Qed.

Lemma linked_block k : 0 ≤ k < MAXFILE → fblock s2 k = fblock s k.
Proof.
  intros Hk. destruct g_new as ((Hr & _) & _ & Hn). unfold fblock. rewrite (lk_addr K k) by lia.
  case_decide as E.
  - subst k. rewrite Hz. cbn [Z.eqb]. rewrite (proj2 (Z.eqb_neq r 0)) by lia. rewrite (lk_blks K).
    + apply Al.
    + right. intros E. apply (Hn MAXFILE ltac:(lia)). by rewrite faddr_ind.
  - destruct (decide (faddr s k = 0)) as [->|Hne]; [done|]. rewrite (proj2 (Z.eqb_neq _ 0)) by done.
    apply g_blks; [by apply F; [lia|]|]. right. intros Ei. rewrite <- faddr_ind in Ei.
    pose proof (fo_inj _ F k MAXFILE ltac:(lia) ltac:(lia) Hne Ei). lia.
Qed.
End grow.

Lemma ino_iupd s f : (ip < length (inodes s))%nat → ino ip (iupd ip f s) = f (ino ip s).
Proof.
  intros Hl. unfold ino, iupd, set_inodes. cbn [inodes]. destruct (lookup_lt_is_Some_2 (inodes s) ip Hl) as [x Hx].
  rewrite (list_lookup_total_correct _ _ _ Hx). apply list_lookup_total_correct. by rewrite list_lookup_alter_eq, Hx.
Qed.

Lemma ino_iupd_ne s f j : j ≠ ip → ino j (iupd ip f s) = ino j s.
Proof. intros Hj. unfold ino, iupd, set_inodes. cbn [inodes]. rewrite !list_lookup_total_alt. by rewrite list_lookup_alter_ne. Qed.

(** The new block goes to a direct address, or becomes the indirect block. *)
Lemma link_direct s s1 P L r bn :
  file_ok s → allocated s s1 P L r → 0 ≤ bn ≤ NDIRECT → addr_at bn (meta s) = 0 →
  linked s s1 (iupd ip (λ x, set_idata (set_addr bn r (idata x)) x) s1) r (if bn =? NDIRECT then MAXFILE else bn).
Proof.
  intros F Al Hbn Hz. pose proof (al_kept _ _ _ _ _ Al) as K. pose proof (al_range _ _ _ _ _ Al) as Hr.
  assert (inodes s1 = inodes s) as Ei by (by rewrite (kp_mem _ _ _ K)).
  assert (ino ip s1 = ino ip s) as Eip by (unfold ino; by rewrite Ei).
  set (s2 := iupd ip _ s1). assert (ino ip s2 = set_idata (set_addr bn r (meta s)) (ino ip s)) as E2.
  { unfold s2. rewrite ino_iupd by (rewrite Ei; apply F). by rewrite Eip. }
  assert (meta s2 = set_addr bn r (meta s)) as Em by (unfold meta at 1; by rewrite E2).
  pose proof (fo_len _ F) as Hlen. assert (NDIRECT = 12) as E12 by done.
  constructor; try done.
  - unfold s2, iupd, set_inodes. cbn [inodes]. apply length_alter.
  - rewrite E2, Em. done.
  - intros j Hj. by apply ino_iupd_ne.
  - rewrite Em. unfold set_addr. cbn [d_addrs]. by rewrite length_insert.
  - intros k Hk. unfold faddr, iaddr. rewrite Em. destruct maxfile_val as (EM & _).
    destruct (Z.ltb_spec k NDIRECT) as [Hlt|Hge].
    + rewrite addr_at_set by lia. destruct (Z.eqb_spec bn NDIRECT); repeat case_decide; (done || lia).
    + rewrite addr_at_set by lia. change (blks s2) with (blks s1). destruct (Z.eqb_spec k MAXFILE) as [->|HkM].
      { destruct (Z.eqb_spec bn NDIRECT) as [->|]; repeat case_decide; (done || lia). }
      destruct (Z.eqb_spec bn NDIRECT) as [->|Hne].
      * rewrite (decide_True (P := NDIRECT = NDIRECT)) by done. rewrite decide_False by done.
        rewrite (proj2 (Z.eqb_neq r 0)) by lia. rewrite (al_zero _ _ _ _ _ Al), get32_zeros.
        fold (iaddr s) in Hz |- *. by rewrite Hz.
      * rewrite (decide_False (P := NDIRECT = bn)) by lia. rewrite decide_False by lia.
        destruct (Z.eqb_spec (addr_at NDIRECT (meta s)) 0) as [|Hi]; [done|]. f_equal.
        destruct (fo_taken _ F MAXFILE ltac:(lia) Hi) as [Ht _]. rewrite faddr_ind in Ht.
        apply (al_other _ _ _ _ _ Al); [by eapply taken_not_free|]. intros E. destruct Ht as (_ & _ & _ & Hn).
        apply Hn. exists r. split; [lia|done].
Qed.

(** The new block goes to an entry of the indirect block. *)
Lemma link_indirect s s1 s2 P L r bn :
  file_ok s → allocated s s1 P L r → NDIRECT ≤ bn < MAXFILE → iaddr s ≠ 0 → sb_size (sb s) < 2 ^ 31 →
  kept s1 s2 L → Z.of_nat (length (blks s (iaddr s))) = BSIZE →
  blks s2 (iaddr s) = set32 (Z.to_nat (4 * (bn - NDIRECT))) r (blks s (iaddr s)) →
  (∀ c, c ≠ iaddr s → blks s2 c = blks s1 c) →
  linked s s1 s2 r bn.
Proof.
  intros F Al Hbn Hi Hsz K2 Hlen Hb Ho. pose proof (al_kept _ _ _ _ _ Al) as K. pose proof (al_range _ _ _ _ _ Al) as Hr.
  assert (inodes s1 = inodes s) as E1 by (by rewrite (kp_mem _ _ _ K)).
  assert (inodes s2 = inodes s) as Ei by (by rewrite (kp_mem _ _ _ K2)).
  assert (ino ip s2 = ino ip s) as Eip by (unfold ino; by rewrite Ei).
  destruct maxfile_val as (EM & E12 & _ & EB).
  constructor.
  - apply (kept_sb _ _ _ K2).
  - by rewrite Ei, E1.
  - unfold meta. rewrite Eip. destruct (ino ip s) as [a b c d e [??????]]. done.
  - intros j _. unfold ino. by rewrite Ei, E1.
  - unfold meta. rewrite Eip. apply F.
  - intros k Hk. unfold faddr, iaddr, meta. rewrite Eip. fold (meta s). fold (iaddr s).
    destruct (Z.ltb_spec k NDIRECT) as [Hlt|Hge]; [by rewrite decide_False by lia|].
    destruct (Z.eqb_spec k MAXFILE) as [->|HkM]; [by rewrite decide_False by lia|].
    rewrite (proj2 (Z.eqb_neq _ 0)) by done. rewrite Hb. case_decide as E.
    + subst k. apply get32_set32; lia.
    + apply get32_set32_other; lia.
  - intros c [Hc|Hc]; [done|by apply Ho].
  - intros c. apply (kp_dur _ _ _ K2).
  - by rewrite (kp_mem _ _ _ K2).
Qed.

(** * States that differ in the cache only *)

Record unseen s s' : Prop := {
  un_mem : s' = set_store (store s') s;
  un_blks : ∀ c, blks s' c = blks s c;
  un_dur : ∀ c, durable (store s') c = durable (store s) c;
}.

Lemma unseen_refl s : unseen s s.
Proof. constructor; [by destruct s|done|done]. Qed.

Lemma unseen_trans s1 s2 s3 : unseen s1 s2 → unseen s2 s3 → unseen s1 s3.
Proof.
  intros [M1 B1 D1] [M2 B2 D2]. constructor; [by rewrite M2, M1|intros c; by rewrite B2|intros c; by rewrite D2].
Qed.

Lemma kept_unseen s s' L : kept s s' L → (∀ c, blks s' c = blks s c) → unseen s s'.
Proof. intros K B. constructor; [apply K|done|apply K]. Qed.

Lemma unseen_addr s s' k : unseen s s' → faddr s' k = faddr s k.
Proof.
  intros [M B D]. assert (meta s' = meta s) as Em by (by rewrite M). unfold faddr, iaddr. rewrite Em, B. done.
Qed.

Lemma unseen_block s s' k : unseen s s' → fblock s' k = fblock s k.
Proof. intros U. unfold fblock. by rewrite (unseen_addr s s' k U), (un_blks _ _ U). Qed.

Lemma unseen_used s s' c : unseen s s' → used s' c = used s c.
Proof. intros [M B D]. unfold used. rewrite B. by rewrite M. Qed.

Lemma unseen_grows s s' : unseen s s' → grows_to s s'.
Proof.
  intros U. pose proof U as [M B D]. assert (meta s' = meta s) as Em by (by rewrite M).
  constructor; try (by rewrite M); try done.
  - rewrite Em. assert (ino ip s' = ino ip s) as -> by (by rewrite M). unfold meta. destruct (ino ip s) as [a b c d e [??????]]. done.
  - intros k _. left. by apply unseen_addr.
  - intros c _. by rewrite (unseen_used s s' c U).
Qed.

Lemma unseen_taken s s' c : unseen s s' → taken s c → taken s' c.
Proof. intros U. by apply gt_taken, unseen_grows. Qed.

Lemma unseen_file_ok s s' : unseen s s' → file_ok s → file_ok s'.
Proof.
  intros U [H1 H2 H3 H4 H5 H6]. pose proof U as [M B D].
  assert (iblock s' = iblock s) as Eib by (by rewrite M).
  constructor; rewrite ?Eib; try (by rewrite M); try (by apply (unseen_taken s)).
  - intros k Hk. rewrite (unseen_addr s s' k U). intros Hne. destruct (H5 k Hk Hne). split; [by apply (unseen_taken s)|done].
  - intros k j Hk Hj. rewrite !(unseen_addr s s' _ U). by apply H6.
Qed.

Lemma unseen_alloc_ok s s' : unseen s s' → alloc_ok s → alloc_ok s'.
Proof.
  intros U [H1 H2 H3 H4]. pose proof U as [M B D]. assert (sb s' = sb s) as Es by (by rewrite M).
  constructor; rewrite ?Es; try done.
  - intros c Hc%(is_bitmap_sb s s' c Es). by apply H2.
  - intros b Hb. rewrite (unseen_used s s' b U), (is_bitmap_sb s s' b Es). by apply H3.
  - by rewrite (unseen_used s s' 0 U).
Qed.

(** * bmap *)

(** The file has been extended without a change of contents, at the cost of [n] blocks of
    the log. *)
Record mapped s s' P (n : nat) : Prop := {
  mp_rdy : ∃ P', rdy s' P' ∅ ∧ (size P' ≤ size P + n)%nat;
  mp_file : file_ok s';
  mp_alloc : alloc_ok s';
  mp_grows : grows_to s s';
  mp_block : ∀ k, 0 ≤ k < MAXFILE → fblock s' k = fblock s k;
}.

Definition full s : Prop := ∀ b, 0 ≤ b < sb_size (sb s) → used s b = true.

Lemma mapped_unseen s s' P n : file_ok s → alloc_ok s → unseen s s' → rdy s' P ∅ → mapped s s' P n.
Proof.
  intros F A U R. constructor.
  - exists P. split; [done|lia].
  - by apply (unseen_file_ok s).
  - by apply (unseen_alloc_ok s).
  - by apply unseen_grows.
  - intros k _. by apply unseen_block.
Qed.

Lemma searching_unseen s P L s' : searching s P L s' → unseen s s'.
Proof. intros [R B K]. by apply (kept_unseen s s' L). Qed.

Lemma full_unseen s s' : unseen s s' → full s → full s'.
Proof.
  intros U Hf b. rewrite (unseen_used s s' b U). assert (sb s' = sb s) as -> by (by rewrite (un_mem _ _ U)). apply Hf.
Qed.

Lemma size_two (x y : Z) P : (size ({[x]} ∪ ({[y]} ∪ P)) ≤ size P + 2)%nat.
Proof. pose proof (size_insert x ({[y]} ∪ P)). pose proof (size_insert y P). lia. Qed.

(** A direct block, or the indirect block, that is missing. *)
Lemma add_direct s P bn :
  file_ok s → alloc_ok s → rdy s P ∅ → (size P + 2 < LOGCAP)%nat → 0 ≤ bn ≤ NDIRECT → addr_at bn (meta s) = 0 →
  ∃ a s', (addr ← balloc (idev (ino ip s));
           if addr =? 0 then mret 0
           else modify (iupd ip (λ x, set_idata (set_addr bn addr (idata x)) x));; mret addr) s = Ret a s' ∧
    mapped s s' P 2 ∧ (a ≠ 0 ∧ addr_at bn (meta s') = a ∨ a = 0 ∧ full s') ∧
    ∀ k, 0 ≤ k ≤ MAXFILE → k ≠ (if bn =? NDIRECT then MAXFILE else bn) → faddr s' k = faddr s k.
Proof.
  intros F A R Hp Hbn Hz. rewrite (fo_dev _ F). assert (LOGCAP = 29%nat) as EL by done. assert (NBUF = 30%nat) as EN by done.
  destruct (balloc_ok s P ∅ A R) as (r & s1 & E & Hcase); [by intros c ?%elem_of_empty|rewrite union_empty_r_L; lia|lia|].
  msimpl. rewrite E. cbn [res_bind]. destruct Hcase as [Al|(-> & Se & Hfull)].
  - pose proof (al_range _ _ _ _ _ Al) as Hr. rewrite (proj2 (Z.eqb_neq r 0)) by lia. cbn [res_bind].
    pose proof (link_direct s s1 P ∅ r bn F Al Hbn Hz) as K. set (s2 := iupd ip _ s1) in *. set (k := if bn =? NDIRECT then MAXFILE else bn) in *.
    destruct maxfile_val as (EM & E12 & _). assert (0 ≤ k ≤ MAXFILE ∧ faddr s k = 0 ∧ faddr s2 k = addr_at bn (meta s2)) as (Hk & Hzk & Ek).
    { unfold k. destruct (Z.eqb_spec bn NDIRECT) as [->|Hne]; [split; [lia|]; split; done|]. split; [lia|].
      unfold faddr. by rewrite !(proj2 (Z.ltb_lt bn NDIRECT)) by lia. }
    exists r, s2. split; [done|]. split; [|split; [left; split; [lia|rewrite <- Ek, (lk_addr _ _ _ _ _ K k Hk); by apply decide_True]|]].
    2:{ intros j Hj Hne. rewrite (lk_addr _ _ _ _ _ K j Hj). by apply decide_False. }
    constructor.
    + eexists. split; [apply (rdy_mem s1); [done|apply Al]|apply size_two].
    + by apply (linked_file_ok s s1 s2 P ∅ r k).
    + by apply (linked_alloc_ok s s1 s2 P ∅ r k).
    + by apply (linked_grows s s1 s2 P ∅ r k).
    + by apply (linked_block s s1 s2 P ∅ r k).
  - exists 0, s1. split; [done|]. pose proof (searching_unseen _ _ _ _ Se) as U.
    split; [apply mapped_unseen; try done; apply Se|]. split; [right; split; [done|by apply (full_unseen s)]|].
    intros j _ _. by apply unseen_addr.
Qed.

(** The part of [bmap] that looks up entry [bn] of the indirect block [a]. *)
Definition entry (a bn : Z) : M (fs S) Z :=
  bp ← on_store (bread ROOTDEV a);
  s ← get;
  let addr := get32 (Z.to_nat (4 * (bn - NDIRECT))) (data bp s) in
  addr' ← (if addr =? 0 then
             addr ← balloc ROOTDEV;
             (if addr =? 0 then mret tt
              else modify (λ s, set_data bp (set32 (Z.to_nat (4 * (bn - NDIRECT))) addr (data bp s)) s);;
                   on_store (log_write bp));;
             mret addr
           else mret addr);
  on_store (brelse bp);; mret addr'.

Section entry.
Context (s : fs S) (P : gset Z) (bn : Z).
Hypothesis F : file_ok s.
Hypothesis A : alloc_ok s.
Hypothesis R : rdy s P ∅.
Hypothesis Hbn : NDIRECT ≤ bn < MAXFILE.
Hypothesis Hi : iaddr s ≠ 0.

Local Lemma e_taken : taken s (iaddr s) ∧ iaddr s ≠ iblock s.
Proof. apply (fo_taken _ F MAXFILE); [destruct maxfile_val; lia|done]. Qed.

Local Lemma e_addr : faddr s bn = get32 (Z.to_nat (4 * (bn - NDIRECT))) (blks s (iaddr s)).
Proof.
  unfold faddr. rewrite (proj2 (Z.ltb_ge bn NDIRECT)), (proj2 (Z.eqb_neq bn MAXFILE)), (proj2 (Z.eqb_neq (iaddr s) 0)) by (done || lia). done.
Qed.

Lemma entry_hit :
  faddr s bn ≠ 0 → (size P < NBUF)%nat →
  ∃ s', entry (iaddr s) bn s = Ret (faddr s bn) s' ∧ rdy s' P ∅ ∧ unseen s s'.
Proof.
  intros Hne Hp. destruct e_taken as [(_ & _ & Hu & _) _].
  destruct (fread s P ∅ (iaddr s) R Hu) as (bp & s1 & E1 & R1 & H1' & B1 & K1 & D1); [by apply not_elem_of_empty|by rewrite union_empty_r_L|].
  unfold entry. msimpl. rewrite E1. cbn [res_bind]. rewrite D1, <- e_addr. rewrite (proj2 (Z.eqb_neq _ 0)) by done. cbn [res_bind].
  destruct (frelse s1 P _ bp (iaddr s) R1 (in_self _ _) H1') as (s2 & E2 & R2 & B2 & K2). rewrite E2. cbn [res_bind].
  rewrite diff_more in R2 by (by apply not_elem_of_empty).
  exists s2. split; [done|]. split; [done|]. apply (unseen_trans s s1); [by apply (kept_unseen s s1 ∅)|by eapply kept_unseen].
Qed.

Lemma entry_add :
  faddr s bn = 0 → (size P + 2 < LOGCAP)%nat →
  ∃ a s', entry (iaddr s) bn s = Ret a s' ∧ mapped s s' P 3 ∧ (a ≠ 0 ∧ faddr s' bn = a ∨ a = 0 ∧ full s').
Proof.
  intros Hz Hp. destruct e_taken as [(Hir & Hiu & Hu & Hib) _].
  assert (LOGCAP = 29%nat) as EL by done. assert (NBUF = 30%nat) as EN by done. destruct maxfile_val as (EM & E12 & _ & EB).
  destruct (fread s P ∅ (iaddr s) R Hu) as (bp & s1 & E1 & R1 & H1' & B1 & K1 & D1); [by apply not_elem_of_empty|rewrite union_empty_r_L; lia|].
  pose proof (kept_unseen s s1 ∅ K1 B1) as U1. set (a := iaddr s) in *. set (o := Z.to_nat (4 * (bn - NDIRECT))).
  pose proof (unseen_file_ok s s1 U1 F) as F1. pose proof (unseen_alloc_ok s s1 U1 A) as A1.
  assert (sb s1 = sb s) as Es1 by (by rewrite (un_mem _ _ U1)).
  assert (held_ok s1 ({[a]} ∪ ∅)) as HL.
  { intros c Hc. rewrite union_empty_r_L, elem_of_singleton in Hc. subst c. split; [by rewrite (is_bitmap_sb s s1 a Es1)|].
    intros _. by rewrite (unseen_used s s1 a U1). }
  unfold entry. msimpl. rewrite E1. cbn [res_bind]. rewrite D1. fold o.
  assert (get32 o (blks s a) = 0) as Eg by (rewrite <- Hz; symmetry; apply e_addr). rewrite Eg. cbn [Z.eqb].
  pose proof (size_insert a P) as Hsz. rewrite (union_comm_L {[a]} P) in Hsz.
  destruct (balloc_ok s1 P ({[a]} ∪ ∅) A1 R1 HL) as (r & s2 & E2 & Hcase); [rewrite union_empty_r_L; lia|lia|].
  rewrite E2. cbn [res_bind]. destruct Hcase as [Al|(-> & Se & Hfull)].
  - pose proof (al_range _ _ _ _ _ Al) as Hr. rewrite (proj2 (Z.eqb_neq r 0)) by lia.
    pose proof (al_kept _ _ _ _ _ Al) as K2. pose proof (al_rdy _ _ _ _ _ Al) as R2.
    assert (iaddr s1 = a) as Ea by (unfold iaddr, meta; by rewrite (un_mem _ _ U1)).
    assert (handle (store s2) bp a) as H2' by (by apply K2; [apply in_self|]).
    assert (blks s2 a = blks s1 a) as Ba.
    { apply (al_other _ _ _ _ _ Al); [apply (taken_not_free _ _ _ _ _ a Al), (unseen_taken s s1); done|].
      rewrite Es1. intros E. apply Hib. exists r. split; [rewrite Es1 in Hr; lia|done]. }
    rewrite (fdata s2 _ _ bp a R2 H2'), Ba.
    pose proof (blks_length s1 P _ a R1) as Hlen. assert (bytes (blks s1 a)) as Hby by (by apply (blks_bytes s1 P _ a R1)).
    assert (o + 4 ≤ length (blks s1 a))%nat as Ho by (unfold o; lia).
    set (PB := {[r]} ∪ ({[BBLOCK r (sb s1)]} ∪ P)) in *.
    pose proof (size_two r (BBLOCK r (sb s1)) P) as HPB. fold PB in HPB.
    destruct (fwrite s2 PB ({[a]} ∪ ∅) bp a (set32 o r (blks s1 a)) R2 Hu (in_self _ _) H2') as (s3 & E3 & R3 & D3 & B3 & K3).
    { by rewrite length_set32. } { apply bytes_splice; [done|apply bytes_le_enc]. } { lia. }
    rewrite E3. cbn [res_bind].
    assert (linked s1 s2 s3 r bn) as K.
    { apply (link_indirect s1 s2 s3 P ({[a]} ∪ ∅) r bn F1 Al Hbn); rewrite ?Ea; try done; [apply A1]. }
    assert (faddr s1 bn = 0) as Hz1 by (by rewrite (unseen_addr s s1 bn U1)).
    destruct (frelse s3 _ _ bp a R3 (in_self _ _)) as (s4 & E4 & R4 & B4 & K4); [by apply K3; [apply in_self|]|].
    rewrite diff_more in R4 by (by apply not_elem_of_empty). rewrite E4. cbn [res_bind].
    pose proof (kept_unseen s3 s4 _ K4 B4) as U4.
    pose proof (linked_file_ok s1 s2 s3 P _ r bn F1 A1 Al ltac:(lia) K) as F3.
    pose proof (unseen_file_ok s3 s4 U4 F3) as F4.
    exists r, s4. split; [done|]. split; [constructor|].
    + eexists. split; [exact R4|]. pose proof (size_insert a PB). lia.
    + exact F4.
    + by apply (unseen_alloc_ok s3 s4 U4), (linked_alloc_ok s1 s2 s3 P _ r bn F1 A1 Al ltac:(lia) K).
    + apply (gt_trans s s1 s4 F4); [by apply unseen_grows|]. apply (gt_trans s1 s3 s4 F4); [|by apply unseen_grows].
      apply (linked_grows s1 s2 s3 P ({[a]} ∪ ∅) r bn); (done || lia).
    + intros k Hk. rewrite (unseen_block s3 s4 k U4), <- (unseen_block s s1 k U1).
      apply (linked_block s1 s2 s3 P ({[a]} ∪ ∅) r bn); (done || lia).
    + left. split; [lia|]. rewrite (unseen_addr s3 s4 bn U4), (lk_addr _ _ _ _ _ K bn ltac:(lia)). by apply decide_True.
  - cbn [Z.eqb res_bind]. pose proof (searching_unseen _ _ _ _ Se) as U2. pose proof Se as [R2 B2 K2].
    destruct (frelse s2 _ _ bp a R2 (in_self _ _)) as (s3 & E3 & R3 & B3 & K3); [by apply K2; [apply in_self|]|].
    rewrite diff_more in R3 by (by apply not_elem_of_empty). rewrite E3. cbn [res_bind].
    assert (unseen s s3) as U by (apply (unseen_trans s s2); [by apply (unseen_trans s s1)|by eapply kept_unseen]).
    exists 0, s3. split; [done|]. split; [by apply mapped_unseen|]. right. split; [done|].
    apply (full_unseen s s3 U). intros b Hb. rewrite <- (unseen_used s s1 b U1). apply Hfull. by rewrite Es1.
Qed.
End entry.

Lemma mapped_trans s s1 s2 P P1 n m :
  (size P1 ≤ size P + n)%nat → mapped s s1 P n → mapped s1 s2 P1 m → mapped s s2 P (n + m).
Proof.
  intros Hs [_ F1 A1 G1 B1] [(P2 & R2 & H2) F2 A2 G2 B2]. constructor; try done.
  - exists P2. split; [done|lia].
  - by apply (gt_trans s s1).
  - intros k Hk. by rewrite B2, B1.
Qed.

Lemma mapped_weaken s s' P n m : (n ≤ m)%nat → mapped s s' P n → mapped s s' P m.
Proof. intros Hn [(P1 & R1 & H1) F1 A1 G1 B1]. constructor; try done. exists P1. split; [done|lia]. Qed.

Lemma bmap_direct s bn : bn < NDIRECT → addr_at bn (meta s) ≠ 0 → bmap ip bn s = Ret (addr_at bn (meta s)) s.
Proof.
  intros Hb Hne. unfold bmap. msimpl. rewrite (proj2 (Z.ltb_lt bn NDIRECT)) by done. fold (meta s).
  by rewrite (proj2 (Z.eqb_neq _ 0)).
Qed.

(** The indirect path, once the indirect block is known. *)
Lemma bmap_indirect s bn :
  file_ok s → NDIRECT ≤ bn < MAXFILE → iaddr s ≠ 0 → bmap ip bn s = entry (iaddr s) bn s.
Proof.
  intros F Hb Hi. destruct maxfile_val as (EM & E12 & EI & _). unfold bmap. msimpl.
  rewrite (proj2 (Z.ltb_ge bn NDIRECT)), (proj2 (Z.ltb_lt (bn - NDIRECT) NINDIRECT)) by lia.
  fold (meta s). fold (iaddr s). rewrite (proj2 (Z.eqb_neq (iaddr s) 0)) by done. cbn [res_bind].
  rewrite (proj2 (Z.eqb_neq (iaddr s) 0)) by done. by rewrite (fo_dev _ F).
Qed.

(** A block that is there. *)
Lemma bmap_hit s P bn :
  file_ok s → rdy s P ∅ → (size P < NBUF)%nat → 0 ≤ bn < MAXFILE → faddr s bn ≠ 0 →
  ∃ s', bmap ip bn s = Ret (faddr s bn) s' ∧ rdy s' P ∅ ∧ unseen s s'.
Proof.
  intros F R Hp Hb Hne. destruct (decide (bn < NDIRECT)) as [Hd|Hd].
  - unfold faddr in *. rewrite (proj2 (Z.ltb_lt bn NDIRECT)) in * by done. exists s.
    split; [by apply bmap_direct|]. split; [done|apply unseen_refl].
  - assert (iaddr s ≠ 0) as Hi.
    { intros E. apply Hne. unfold faddr. rewrite (proj2 (Z.ltb_ge bn NDIRECT)), (proj2 (Z.eqb_neq bn MAXFILE)), E by lia. done. }
    rewrite bmap_indirect by (done || lia). by apply entry_hit; [..|lia| | |].
Qed.

(** A missing block is added, if the disk is not full. *)
Lemma bmap_ok s P bn :
  file_ok s → alloc_ok s → rdy s P ∅ → (size P + 5 < LOGCAP)%nat → 0 ≤ bn < MAXFILE →
  ∃ a s', bmap ip bn s = Ret a s' ∧ mapped s s' P 5 ∧ (a ≠ 0 ∧ faddr s' bn = a ∨ a = 0 ∧ full s') ∧
    (bn < NDIRECT → ∀ k, 0 ≤ k ≤ MAXFILE → k ≠ bn → faddr s' k = faddr s k) ∧ (faddr s bn ≠ 0 → a ≠ 0).
Proof.
  intros F A R Hp Hb. destruct maxfile_val as (EM & E12 & EI & _). assert (LOGCAP = 29%nat) as EL by done. assert (NBUF = 30%nat) as EN by done.
  destruct (decide (faddr s bn = 0)) as [Hz|Hne].
  2:{ destruct (bmap_hit s P bn F R ltac:(lia) Hb Hne) as (s' & E & R' & U). exists (faddr s bn), s'.
      split; [done|]. split; [by apply mapped_unseen|]. split; [left; by rewrite (unseen_addr s s' bn U)|]. split; [|done]. intros _ k _ _. by apply unseen_addr. }
  destruct (decide (bn < NDIRECT)) as [Hd|Hd].
  - assert (∀ s0, faddr s0 bn = addr_at bn (meta s0)) as Ef by (intros s0; unfold faddr; by rewrite (proj2 (Z.ltb_lt bn NDIRECT))).
    rewrite Ef in Hz. destruct (add_direct s P bn F A R ltac:(lia) ltac:(lia) Hz) as (a & s' & E & M & Hc & Hk).
    exists a, s'. rewrite Ef. split; [|split; [by apply (mapped_weaken _ _ _ 2); [lia|]|]].
    2:{ split; [done|]. split; [|by rewrite Ef, Hz]. intros _ k Hk' Hne. apply Hk; [done|]. by rewrite (proj2 (Z.eqb_neq _ _)) by lia. }
    unfold bmap. msimpl. rewrite (proj2 (Z.ltb_lt bn NDIRECT)) by done. fold (meta s). rewrite Hz. cbn [Z.eqb]. exact E.
  - destruct (decide (iaddr s = 0)) as [Hi|Hi].
    + destruct (add_direct s P NDIRECT F A R ltac:(lia) ltac:(lia) Hi) as (a & s1 & E & M & Hc & Hk).
      assert (bmap ip bn s = (if a =? 0 then mret 0 else entry a bn) s1) as Eb.
      { unfold bmap. msimpl. rewrite (proj2 (Z.ltb_ge bn NDIRECT)), (proj2 (Z.ltb_lt (bn - NDIRECT) NINDIRECT)) by lia.
        fold (meta s). fold (iaddr s). rewrite Hi. cbn [Z.eqb]. revert E. msimpl. intros E. rewrite E. cbn [res_bind].
        rewrite (fo_dev _ F). by destruct (a =? 0). }
      rewrite Eb. destruct Hc as [[Ha Hm]|[-> Hf]].
      * rewrite (proj2 (Z.eqb_neq a 0)) by done. fold (iaddr s1) in Hm. pose proof M as [(P1 & R1 & H1) F1 A1 G1 B1].
        assert (faddr s1 bn = 0) as Hz1.
        { rewrite Hk; [done|lia|]. cbn. lia. }
        destruct (entry_add s1 P1 bn F1 A1 R1 ltac:(lia) ltac:(congruence) Hz1 ltac:(lia)) as (b & s2 & E2 & M2 & Hc2).
        rewrite Hm in E2. exists b, s2. split; [done|]. split; [by apply (mapped_trans s s1 s2 P P1 2 3)|]. split; [done|]. by split; [lia|].
      * exists 0, s1. split; [done|]. split; [by apply (mapped_weaken _ _ _ 2); [lia|]|]. split; [by right|]. by split; [lia|].
    + destruct (entry_add s P bn F A R ltac:(lia) Hi Hz ltac:(lia)) as (a & s' & E & M & Hc).
      exists a, s'. rewrite bmap_indirect by (done || lia). split; [done|]. split; [by apply (mapped_weaken _ _ _ 3); [lia|]|]. split; [done|]. by split; [lia|].
Qed.

End file.
