(* ===== verification/FsRead.v ===== *)
(** Reading a file, [readi] of kernel/fs.c, and the bytes of a file. *)

From S2P Require Import Prelude Bytes Sleeplock Bio Store Fs FsBlock FsAlloc FsFile.

(** Blocks of the file touched by [n] bytes from [off]. *)
Definition rounds (off n : Z) : nat :=
  if decide (0 < n) then Z.to_nat ((off + n - 1) / BSIZE - off / BSIZE + 1) else 0%nat.

(** The bytes of one round. *)
Definition chunk (off n : Z) : Z := Z.min n (BSIZE - off mod BSIZE).

Lemma rounds_bound off n : 0 ≤ off → 0 ≤ n → (rounds off n < Z.to_nat (n / BSIZE) + 3)%nat.
Proof. intros Ho Hn. unfold rounds. change BSIZE with 1024. case_decide; zdm. Qed.

Lemma rounds_step off n :
  0 ≤ off → 0 < n → rounds off n = S (rounds (off + chunk off n) (n - chunk off n)) ∧ 0 < chunk off n ≤ n.
Proof.
  intros Ho Hn. unfold rounds, chunk. change BSIZE with 1024. rewrite decide_True by done.
  destruct (decide (n ≤ 1024 - off mod 1024)); [rewrite Z.min_l by lia|rewrite Z.min_r by lia];
    (case_decide; [|]); zdm.
Qed.

Lemma sub_fmap o m d : (o + m ≤ length d)%nat → sub o m d = (λ i, nth (o + i) d 0) <$> seq 0 m.
Proof.
  intros Hl. apply list_eq. intros i. rewrite list_lookup_fmap. destruct (decide (i < m)%nat) as [Hi|Hi].
  - rewrite lookup_sub, lookup_seq_lt by lia. cbn. rewrite nth_lookup.
    by destruct (lookup_lt_is_Some_2 d (o + i)) as [x ->]; [lia|].
  - rewrite lookup_sub_ge, lookup_seq_ge by lia. done.
Qed.

Section read.
Context {S : Type} `{!Store S, !StoreSpec S} (ip : nat).
Implicit Types (s : fs S) (P L : gset Z).

Local Abbreviation fblock := (fblock ip).
Local Abbreviation faddr := (faddr ip).
Local Abbreviation meta := (meta ip).
Local Abbreviation file_ok := (file_ok ip).

(** Byte [j] of the file, and [n] bytes from [off] on. *)
Definition fbyte s (j : Z) : Z := nth (Z.to_nat (j mod BSIZE)) (fblock s (j / BSIZE)) 0.
Definition fbytes s (off : Z) (n : nat) : list Z := (λ i, fbyte s (off + Z.of_nat i)) <$> seq 0 n.

Lemma fbytes_app s off n m : fbytes s off (n + m) = fbytes s off n ++ fbytes s (off + Z.of_nat n) m.
Proof.
  unfold fbytes. rewrite seq_app, fmap_app. f_equal. rewrite Nat.add_0_l, <- (Nat.add_0_r n), <- fmap_add_seq.
  rewrite Nat.add_0_r, <- list_fmap_compose. apply list_fmap_ext. intros i x _. cbn. f_equal. lia.
Qed.

Lemma fblock_length s P L k : rdy s P L → Z.of_nat (length (fblock s k)) = BSIZE.
Proof.
  intros R. unfold FsFile.fblock. destruct (faddr s k =? 0); [by rewrite length_replicate|by apply (blks_length s P L)].
Qed.

Lemma fbytes_sub s P L off m :
  rdy s P L → 0 ≤ off → off mod BSIZE + Z.of_nat m ≤ BSIZE →
  sub (Z.to_nat (off mod BSIZE)) m (fblock s (off / BSIZE)) = fbytes s off m.
Proof.
  intros R Ho Hm. assert (BSIZE = 1024) as EB by done. pose proof (fblock_length s P L (off / BSIZE) R) as Hl.
  rewrite sub_fmap by (rewrite EB in *; zdm). unfold fbytes. apply list_fmap_ext. intros i x Hx.
  apply lookup_seq in Hx as [-> Hi]. unfold fbyte. cbn [Nat.add].
  rewrite EB in *. replace ((off + Z.of_nat i) / 1024) with (off / 1024) by zdm.
  f_equal. zdm.
Qed.

Lemma fbyte_unseen s s' j : unseen s s' → fbyte s' j = fbyte s j.
Proof. intros U. unfold fbyte. by rewrite (unseen_block ip s s' _ U). Qed.

Lemma fbytes_unseen s s' off n : unseen s s' → fbytes s' off n = fbytes s off n.
Proof. intros U. unfold fbytes. apply list_fmap_ext. intros i x _. by apply fbyte_unseen. Qed.

(** Every block below the size is there. *)
Definition dense s : Prop :=
  0 ≤ d_size (meta s) ≤ MAXFILE * BSIZE ∧ ∀ k, 0 ≤ k → k * BSIZE < d_size (meta s) → faddr s k ≠ 0.

Lemma dense_unseen s s' : unseen s s' → dense s → dense s'.
Proof.
  intros U [Hs Hd]. assert (meta s' = meta s) as Em by (unfold FsFile.meta; by rewrite (un_mem _ _ U)).
  split; [by rewrite Em|]. intros k Hk. rewrite Em, (unseen_addr ip s s' k U). by apply Hd.
Qed.

(** One block of [readi]. *)
Lemma readi_step s P dst off n tot out :
  file_ok s → dense s → rdy s P ∅ → (size P < NBUF)%nat → 0 ≤ off → 0 ≤ tot < n → off + n ≤ d_size (meta s) →
  ∃ s', rdy s' P ∅ ∧ unseen s s' ∧
    readi_body ip dst off n (tot, out) s =
      Ret (if dst tot (chunk (off + tot) (n - tot))
           then inl (tot + chunk (off + tot) (n - tot), out ++ fbytes s (off + tot) (Z.to_nat (chunk (off + tot) (n - tot))))
           else inr (-1, out)) s'.
Proof.
  intros F [Hsz D] R Hp Ho Ht Hn. destruct maxfile_val as (EM & _ & _ & EB).
  set (o := off + tot). set (k := o / BSIZE). assert (0 ≤ k < MAXFILE ∧ k * BSIZE < d_size (meta s)) as [Hk Hkd]
    by (unfold k, o; rewrite EB, EM in *; zdm).
  assert (faddr s k ≠ 0) as Hne by (apply D; lia).
  destruct (bmap_hit ip s P k F R Hp Hk Hne) as (s1 & E1 & R1 & U1).
  destruct (fo_taken _ _ F k ltac:(lia) Hne) as [(_ & _ & Hu & _) _].
  destruct (fread s1 P ∅ (faddr s k) R1 Hu) as (bp & s2 & E2 & R2 & H2' & B2 & K2 & D2); [by apply not_elem_of_empty|by rewrite union_empty_r_L|].
  destruct (frelse s2 P _ bp _ R2 (in_self _ _) H2') as (s3 & E3 & R3 & B3 & K3).
  rewrite diff_more in R3 by (by apply not_elem_of_empty).
  exists s3. split; [done|]. split.
  { apply (unseen_trans s s1); [done|]. apply (unseen_trans s1 s2); [by apply (kept_unseen s1 s2 ∅)|by eapply kept_unseen]. }
  unfold readi_body. rewrite (proj2 (Z.ltb_lt tot n)) by lia. fold o. fold k. msimpl. rewrite E1. cbn [res_bind].
  rewrite (proj2 (Z.eqb_neq _ 0)) by done. assert (idev (ino ip s1) = ROOTDEV) as -> by (rewrite (un_mem _ _ U1); apply F).
  rewrite E2. cbn [res_bind]. rewrite D2, (un_blks _ _ U1).
  change (Z.min (n - tot) (BSIZE - o mod BSIZE)) with (chunk o (n - tot)).
  pose proof (rounds_step o (n - tot) ltac:(unfold o; lia) ltac:(lia)) as [_ Hc].
  assert (fblock s k = blks s (faddr s k)) as Ef by (unfold FsFile.fblock; by rewrite (proj2 (Z.eqb_neq _ 0))).
  rewrite <- Ef. unfold k. rewrite (fbytes_sub s P ∅ o) by (done || unfold o, chunk in *; lia).
  destruct (dst tot (chunk o (n - tot))); rewrite E3; done.
Qed.

(** The loop of [readi], from [tot] on. *)
Lemma readi_loop P dst off n fuel : ∀ s tot out,
  file_ok s → dense s → rdy s P ∅ → (size P < NBUF)%nat → 0 ≤ off → 0 ≤ tot ≤ n → off + n ≤ d_size (meta s) →
  (rounds (off + tot) (n - tot) < fuel)%nat → out = fbytes s off (Z.to_nat tot) →
  ∃ r s', loop fuel (readi_body ip dst off n) (tot, out) s = Ret r s' ∧ rdy s' P ∅ ∧ unseen s s' ∧
    (r = (n, fbytes s off (Z.to_nat n)) ∨
     ∃ t c, r = (-1, fbytes s off (Z.to_nat t)) ∧ 0 ≤ t < n ∧ dst t c = false).
Proof.
  induction fuel as [|fuel IH]; intros s tot out F D R Hp Ho Ht Hn Hf Hout; [lia|].
  destruct (decide (tot = n)) as [->|Hne].
  { exists (n, out), s. split; [apply loop_done; unfold readi_body; by rewrite Z.ltb_irrefl|].
    split; [done|]. split; [apply unseen_refl|]. left. by subst. }
  destruct (readi_step s P dst off n tot out F D R Hp Ho ltac:(lia) Hn) as (s1 & R1 & U1 & E1).
  destruct (rounds_step (off + tot) (n - tot) ltac:(lia) ltac:(lia)) as [Er Hc].
  set (m := chunk (off + tot) (n - tot)) in *. destruct (dst tot m) eqn:Ed.
  - rewrite (loop_next _ _ _ _ _ _ E1).
    destruct (IH s1 (tot + m) (out ++ fbytes s (off + tot) (Z.to_nat m))) as (r & s' & E & R' & U & Hr).
    + by apply (unseen_file_ok ip s).
    + by apply (dense_unseen s).
    + done. + done. + done. + lia.
    + assert (meta s1 = meta s) as -> by (unfold FsFile.meta; by rewrite (un_mem _ _ U1)). done.
    + rewrite Er in Hf. replace (off + (tot + m)) with (off + tot + m) by lia. replace (n - (tot + m)) with (n - tot - m) by lia. lia.
    + rewrite (fbytes_unseen s s1) by done. subst out. replace (Z.to_nat (tot + m)) with (Z.to_nat tot + Z.to_nat m)%nat by lia.
      rewrite fbytes_app. by rewrite Z2Nat.id by lia.
    + exists r, s'. split; [done|]. split; [done|]. split; [by apply (unseen_trans s s1)|].
      rewrite (fbytes_unseen s s1) in Hr by done. destruct Hr as [Hr|(t & c & Hr)]; [by left|right].
      exists t, c. by rewrite (fbytes_unseen s s1) in Hr by done.
  - exists (-1, out), s1. split; [by apply loop_done|]. split; [done|]. split; [done|]. right. exists tot, m. subst. split; [done|]. split; [lia|done].
Qed.

(** What [readi] delivers of a request for [n] bytes at [off]. *)
Definition readable s (off n : Z) : Z :=
  if (d_size (meta s) <? off) || (2 ^ 32 <=? off + n) then 0 else Z.min n (d_size (meta s) - off).

Lemma readi_ok s P dst off n :
  file_ok s → dense s → rdy s P ∅ → (size P < NBUF)%nat → 0 ≤ off < 2 ^ 32 → 0 ≤ n < 2 ^ 32 →
  ∃ r s', readi ip dst off n s = Ret r s' ∧ rdy s' P ∅ ∧ unseen s s' ∧
    (r = (readable s off n, fbytes s off (Z.to_nat (readable s off n))) ∨
     ∃ t c, r = (-1, fbytes s off (Z.to_nat t)) ∧ 0 ≤ t < readable s off n ∧ dst t c = false).
Proof.
  intros F D R Hp Ho Hn. destruct maxfile_val as (EM & _ & _ & EB). pose proof D as [Hsz _].
  unfold readi, readable. msimpl. fold (meta s).
  assert ((u32 (off + n) <? off) = (2 ^ 32 <=? off + n)) as ->.
  { unfold u32. destruct (Z.leb_spec (2 ^ 32) (off + n)).
    - apply Z.ltb_lt. rewrite <- (Z.mod_unique_pos (off + n) (2 ^ 32) 1 (off + n - 2 ^ 32)) by lia. lia.
    - apply Z.ltb_ge. rewrite Z.mod_small by lia. lia. }
  destruct ((d_size (meta s) <? off) || (2 ^ 32 <=? off + n)) eqn:Eb.
  { exists (0, []), s. split; [done|]. split; [done|]. split; [apply unseen_refl|by left]. }
  apply orb_false_elim in Eb as [Eo%Z.ltb_ge Ew%Z.leb_gt]. rewrite u32_id by lia.
  assert ((if d_size (meta s) <? off + n then d_size (meta s) - off else n) = Z.min n (d_size (meta s) - off)) as ->
    by (destruct (Z.ltb_spec (d_size (meta s)) (off + n)); lia).
  set (m := Z.min n (d_size (meta s) - off)). assert (0 ≤ m) as Hm by lia.
  pose proof (rounds_bound off m ltac:(lia) Hm) as Hr.
  destruct (readi_loop P dst off m (Z.to_nat (m / BSIZE) + 3) s 0 []) as (r & s' & E & R' & U & Hc); try done; try lia.
  { by rewrite Z.add_0_r, Z.sub_0_r. }
  exists r, s'. done.
Qed.
End read.
