(* ===== verification/FsWrite.v ===== *)
(** Writing a file, [writei] and [iupdate] of kernel/fs.c. *)

From S2P Require Import Prelude Bytes Sleeplock Bio Store Fs FsBlock FsAlloc Dinode FsFile FsRead.

Section write.
Context {S : Type} `{!Store S, !StoreSpec S} (ip : nat).
Implicit Types (s : fs S) (P L : gset Z).

Local Abbreviation fblock := (fblock ip).
Local Abbreviation faddr := (faddr ip).
Local Abbreviation meta := (meta ip).
Local Abbreviation iaddr := (iaddr ip).
Local Abbreviation iblock := (iblock ip).
Local Abbreviation file_ok := (file_ok ip).
Local Abbreviation fbyte := (fbyte ip).
Local Abbreviation grows_to := (grows_to ip).

(** * Storing one block of the file *)

Section poke.
Context (s s' : fs S) (k : Z) (d : list Z).
Hypothesis F : file_ok s.
Hypothesis A : alloc_ok s.
Hypothesis Hk : 0 ≤ k < MAXFILE.
Hypothesis Hne : faddr s k ≠ 0.
Hypothesis Hmem : s' = set_store (store s') s.
Hypothesis Hdur : ∀ c, durable (store s') c = durable (store s) c.
Hypothesis Hd : blks s' (faddr s k) = d.
Hypothesis Ho : ∀ c, c ≠ faddr s k → blks s' c = blks s c.

Local Lemma k_taken : taken s (faddr s k).
Proof. by apply (fo_taken _ _ F k); [lia|]. Qed.

Local Lemma k_meta : meta s' = meta s.
Proof. by rewrite Hmem. Qed.

Local Lemma k_used c : 0 ≤ c < sb_size (sb s) → used s' c = used s c.
Proof.
  intros Hc. unfold used. assert (sb s' = sb s) as -> by (by rewrite Hmem). rewrite Ho; [done|].
  intros E. destruct k_taken as (_ & _ & _ & Hn). apply Hn. exists c. done.
Qed.

Lemma poke_addr j : 0 ≤ j ≤ MAXFILE → faddr s' j = faddr s j.
Proof.
  intros Hj. unfold FsFile.faddr, FsFile.iaddr. rewrite k_meta. fold (iaddr s).
  destruct (j <? NDIRECT); [done|]. destruct (j =? MAXFILE); [done|]. destruct (Z.eqb_spec (iaddr s) 0); [done|].
  rewrite Ho; [done|]. intros E. pose proof (fo_inj _ _ F MAXFILE k ltac:(lia) ltac:(lia)) as Hi. rewrite faddr_ind in Hi.
  specialize (Hi ltac:(done) E). lia.
Qed.

Lemma poke_block j : 0 ≤ j < MAXFILE → fblock s' j = if decide (j = k) then d else fblock s j.
Proof.
  intros Hj. unfold FsFile.fblock. rewrite poke_addr by lia. destruct (decide (j = k)) as [->|Hn].
  - by rewrite (proj2 (Z.eqb_neq _ 0)).
  - destruct (Z.eqb_spec (faddr s j) 0) as [|Hnj]; [done|]. apply Ho. intros E. apply Hn. apply (fo_inj _ _ F); (done || lia).
Qed.

Lemma poke_grows : grows_to s s'.
Proof.
  assert (∀ j, ino j s' = ino j s) as Ei by (intros j; by rewrite Hmem). constructor; try (by rewrite Hmem); try done.
  - rewrite Ei, k_meta. unfold FsFile.meta. destruct (ino ip s) as [a b c e f [??????]]. done.
  - intros j Hj. left. by apply poke_addr.
  - intros c Hc Hu. by rewrite k_used.
  - intros c Hc Hn. apply Ho. intros E. by apply (Hn k); [lia|].
Qed.

Lemma poke_file_ok : file_ok s'.
Proof.
  pose proof poke_grows as G. pose proof F as [H1 H2 H3 H4 H5 H6].
  assert (ino ip s' = ino ip s) as Ei by (by rewrite Hmem).
  constructor; rewrite ?Ei, ?(gt_iblock _ _ _ G), ?k_meta; try done.
  - by rewrite Hmem.
  - by apply (gt_taken ip s).
  - intros j Hj. rewrite poke_addr by done. intros Hn. destruct (H5 j Hj Hn). split; [by apply (gt_taken ip s)|done].
  - intros i j Hi Hj. rewrite !poke_addr by done. by apply H6.
Qed.

Lemma poke_alloc_ok : alloc_ok s'.
Proof.
  assert (sb s' = sb s) as Es by (by rewrite Hmem). destruct A as [H1 H2 H3 H4]. constructor; rewrite ?Es; try done.
  - intros c Hc%(is_bitmap_sb s s' c Es). by apply H2.
  - intros b Hb. rewrite k_used, (is_bitmap_sb s s' b Es) by done. by apply H3.
  - by rewrite k_used by lia.
Qed.
End poke.

Lemma fblock_bytes s P k : file_ok s → rdy s P ∅ → 0 ≤ k ≤ MAXFILE → bytes (fblock s k).
Proof.
  intros F R Hk. unfold FsFile.fblock. destruct (Z.eqb_spec (faddr s k) 0) as [|Hne]; [apply Forall_replicate; lia|].
  apply (blks_bytes s P ∅); [done|]. by apply (fo_taken _ _ F k).
Qed.

(** Reading block [k] of the file, storing [d] in it and logging it. *)
Lemma store_block s P k d :
  file_ok s → alloc_ok s → rdy s P ∅ → (size P < LOGCAP)%nat → 0 ≤ k < MAXFILE → faddr s k ≠ 0 →
  Z.of_nat (length d) = BSIZE → bytes d →
  ∃ bp s1 s2 s', on_store (bread ROOTDEV (faddr s k)) s = Ret bp s1 ∧ data bp s1 = fblock s k ∧
    on_store (log_write bp) (set_data bp d s1) = Ret tt s2 ∧ on_store (brelse bp) s2 = Ret tt s' ∧
    rdy s' ({[faddr s k]} ∪ P) ∅ ∧ file_ok s' ∧ alloc_ok s' ∧ grows_to s s' ∧
    (∀ j, 0 ≤ j < MAXFILE → fblock s' j = if decide (j = k) then d else fblock s j) ∧
    ∀ j, 0 ≤ j ≤ MAXFILE → faddr s' j = faddr s j.
Proof.
  intros F A R Hlog Hk Hne Hl Hb. assert (LOGCAP = 29%nat) as EL by done. assert (NBUF = 30%nat) as EN by done.
  destruct (fo_taken _ _ F k ltac:(lia) Hne) as [(_ & _ & Hu & _) _]. set (a := faddr s k) in *.
  destruct (fread s P ∅ a R Hu) as (bp & s1 & E1 & R1 & H1' & B1 & K1 & D1); [by apply not_elem_of_empty|rewrite union_empty_r_L; lia|].
  destruct (fwrite s1 P ({[a]} ∪ ∅) bp a d R1 Hu (in_self _ _) H1' Hl Hb Hlog) as (s2 & E2 & R2 & D2 & B2 & K2).
  destruct (frelse s2 _ _ bp a R2 (in_self _ _)) as (s' & E3 & R3 & B3 & K3); [by apply K2; [apply in_self|]|].
  rewrite diff_more in R3 by (by apply not_elem_of_empty).
  assert (s' = set_store (store s') s) as Hmem by (by rewrite (kp_mem _ _ _ K3), (kp_mem _ _ _ K2), (kp_mem _ _ _ K1)).
  assert (∀ c, durable (store s') c = durable (store s) c) as Hdur
    by (intros c; by rewrite (kp_dur _ _ _ K3), (kp_dur _ _ _ K2), (kp_dur _ _ _ K1)).
  assert (blks s' (faddr s k) = d) as Hd by (by rewrite B3).
  assert (∀ c, c ≠ faddr s k → blks s' c = blks s c) as Ho by (intros c Hc; by rewrite B3, B2, B1).
  exists bp, s1, s2, s'. split; [done|]. split; [rewrite D1; unfold FsFile.fblock; by rewrite (proj2 (Z.eqb_neq (faddr s k) 0))|].
  split_and!; try done.
  - by apply (poke_file_ok s s' k).
  - by apply (poke_alloc_ok s s' k).
  - by apply (poke_grows s s' k).
  - by apply poke_block.
  - by apply (poke_addr s s' k).
Qed.

(** * One round of writei *)

Section bytes.
Context (bs : list Z) (src : Z → Z → list Z * bool) (off n : Z).
Hypothesis Hbs : Z.of_nat (length bs) = n ∧ bytes bs.
Hypothesis Hsrc : ∀ o m, 0 ≤ o → 0 ≤ m → o + m ≤ n → src o m = (sub (Z.to_nat o) (Z.to_nat m) bs, true).
Hypothesis Hoff : 0 ≤ off ∧ off + n ≤ MAXFILE * BSIZE.

(** The file [s] with the first [tot] bytes of [bs] stored at [off]. *)
Definition written_upto s (tot : Z) (j : Z) : Z :=
  if decide (off ≤ j < off + tot) then nth (Z.to_nat (j - off)) bs 0 else fbyte s j.

Record writing s P (tot : Z) (st : fs S) (cost : nat) : Prop := {
  wr_rdy : ∃ P', rdy st P' ∅ ∧ (size P' ≤ size P + cost)%nat;
  wr_file : file_ok st;
  wr_alloc : alloc_ok st;
  wr_grows : grows_to s st;
  wr_bytes : ∀ j, 0 ≤ j < MAXFILE * BSIZE → fbyte st j = written_upto s tot j;
  wr_dense : ∀ k, off / BSIZE ≤ k → k * BSIZE < off + tot → faddr st k ≠ 0;
  wr_near : off + n ≤ NDIRECT * BSIZE → ∀ k, 0 ≤ k ≤ MAXFILE → ¬ (off / BSIZE ≤ k ∧ k * BSIZE < off + n) → faddr st k = faddr s k;
}.

Lemma splice_nth o b d i :
  (o + length b ≤ length d)%nat →
  nth i (splice o b d) 0 = if decide (o ≤ i < o + length b)%nat then nth (i - o) b 0 else nth i d 0.
Proof. intros Hl. rewrite !nth_lookup, lookup_splice by done. by case_decide. Qed.

Lemma sub_nth o m d i : (i < m)%nat → nth i (sub o m d) 0 = nth (o + i) d 0.
Proof. intros Hi. by rewrite !nth_lookup, lookup_sub. Qed.

(** The bytes after storing a chunk in its block. *)
Lemma chunk_bytes s st s' P tot k :
  let o := off + tot in let m := chunk o (n - tot) in
  k = o / BSIZE → 0 ≤ tot < n → rdy st P ∅ →
  (∀ j, 0 ≤ j < MAXFILE * BSIZE → fbyte st j = written_upto s tot j) →
  (∀ j, 0 ≤ j < MAXFILE → fblock s' j =
     if decide (j = k) then splice (Z.to_nat (o mod BSIZE)) (sub (Z.to_nat tot) (Z.to_nat m) bs) (fblock st k) else fblock st j) →
  ∀ j, 0 ≤ j < MAXFILE * BSIZE → fbyte s' j = written_upto s (tot + m) j.
Proof.
  intros o m -> Ht R Hw Hb j Hj. assert (BSIZE = 1024) as EB by done. destruct Hbs as [Hlen _].
  destruct (rounds_step o (n - tot) ltac:(unfold o; lia) ltac:(lia)) as [_ Hm]. fold m in Hm.
  assert (m ≤ BSIZE - o mod BSIZE) as Hmb by (unfold m, chunk; lia).
  pose proof (fblock_length ip st P ∅ (o / BSIZE) R) as Hl.
  assert (length (sub (Z.to_nat tot) (Z.to_nat m) bs) = Z.to_nat m) as Hsl by (apply length_sub; lia).
  assert (0 ≤ j / BSIZE < MAXFILE) as Hjk by (rewrite EB in *; destruct maxfile_val as (EM & _); rewrite EM in *; zdm).
  unfold FsRead.fbyte. rewrite Hb by done. destruct (decide (j / BSIZE = o / BSIZE)) as [E|E].
  - rewrite splice_nth by (rewrite Hsl; rewrite EB in *; zdm). rewrite Hsl. rewrite <- E.
    case_decide as Hin.
    + rewrite sub_nth by lia. unfold written_upto. rewrite decide_True by (rewrite EB in *; zdm).
      f_equal. rewrite EB in *. zdm.
    + change (fbyte st j = written_upto s (tot + m) j). rewrite Hw by done. unfold written_upto.
      assert (¬ (o ≤ j < o + m)) as Hn by (rewrite EB in *; zdm).
      destruct (decide (off ≤ j < off + tot)); destruct (decide (off ≤ j < off + (tot + m))); (done || lia).
  - change (fbyte st j = written_upto s (tot + m) j). rewrite Hw by done. unfold written_upto.
    assert (¬ (o ≤ j < o + m)) as Hn by (rewrite EB in *; zdm).
    destruct (decide (off ≤ j < off + tot)); destruct (decide (off ≤ j < off + (tot + m))); (done || lia).
Qed.

(** One block of [writei]: it stores a chunk, or the disk is full. *)
Lemma writei_step s P st tot cost :
  writing s P tot st cost → 0 ≤ tot < n → (size P + cost + 6 < LOGCAP)%nat →
  let m := chunk (off + tot) (n - tot) in
  ∃ s', (writei_body ip src off n tot st = Ret (inl (tot + m)) s' ∧ writing s P (tot + m) s' (cost + 6)) ∨
        (writei_body ip src off n tot st = Ret (inr tot) s' ∧ writing s P tot s' (cost + 6) ∧ full s' ∧ faddr s ((off + tot) / BSIZE) = 0).
Proof.
  intros [(P0 & R & HP0) F A G Hw Hdn Hnr] Ht Hlog m. assert (LOGCAP = 29%nat) as EL by done. assert (NBUF = 30%nat) as EN by done.
  destruct maxfile_val as (EM & _ & _ & EB). set (o := off + tot) in *. set (k := o / BSIZE).
  destruct (rounds_step o (n - tot) ltac:(unfold o; lia) ltac:(lia)) as [_ Hm]. fold m in Hm.
  assert (m ≤ BSIZE - o mod BSIZE) as Hmb by (unfold m, chunk; lia).
  assert (0 ≤ k < MAXFILE) as Hk by (unfold k, o; rewrite EM, EB in *; zdm).
  destruct (bmap_ok ip st P0 k F A R ltac:(lia) Hk) as (a & s1 & E1 & [(P1 & R1 & HP1) F1 A1 G1 B1] & Hc & Hk1 & Hz1).
  assert (∀ j, 0 ≤ j < MAXFILE * BSIZE → fbyte s1 j = written_upto s tot j) as Hw1.
  { intros j Hj. rewrite <- Hw by done. unfold FsRead.fbyte. rewrite B1; [done|]. rewrite EM, EB in *. zdm. }
  assert (∀ k', off / BSIZE ≤ k' → k' * BSIZE < off + tot → faddr s1 k' ≠ 0) as Hdn1.
  { intros k' H1 H2. destruct (gt_addr _ _ _ G1 k') as [->|[Hz _]]; [rewrite EM, EB in *; zdm|by apply Hdn|by destruct (Hdn k' H1 H2)]. }
  assert (off + n ≤ NDIRECT * BSIZE → ∀ k, 0 ≤ k ≤ MAXFILE → ¬ (off / BSIZE ≤ k ∧ k * BSIZE < off + n) → faddr s1 k = faddr s k) as Hnr1.
  { intros Hd k' Hk' Hn'. rewrite Hk1; [by apply Hnr| |done|]; unfold k, o in *; change NDIRECT with 12 in *; rewrite EB in *; zdm. }
  pose proof (gt_trans ip s st s1 F1 G G1) as G01.
  unfold writei_body. rewrite (proj2 (Z.ltb_lt tot n)) by lia. fold o k. msimpl. rewrite E1. cbn [res_bind].
  destruct Hc as [[Ha Ek]|[-> Hfull]].
  2:{ exists s1. right. split; [done|]. split; [constructor; try done; exists P1; split; [done|lia]|]. split; [done|]. fold o k.
      destruct (gt_addr _ _ _ G k ltac:(lia)) as [<-|[? _]]; [|done]. destruct (decide (faddr st k = 0)) as [|Hne]; [done|]. by destruct (Hz1 Hne). }
  rewrite (proj2 (Z.eqb_neq a 0)) by done. rewrite (fo_dev _ _ F1), <- Ek. assert (faddr s1 k ≠ 0) as Hne by congruence.
  set (d := splice (Z.to_nat (o mod BSIZE)) (sub (Z.to_nat tot) (Z.to_nat m) bs) (fblock s1 k)).
  pose proof (fblock_length ip s1 P1 ∅ k R1) as Hl. destruct Hbs as [Hlen Hby].
  assert (length (sub (Z.to_nat tot) (Z.to_nat m) bs) = Z.to_nat m) as Hsl by (apply length_sub; lia).
  destruct (store_block s1 P1 k d F1 A1 R1 ltac:(lia) Hk Hne) as (bp & s2 & s3 & s4 & E2 & D2 & E3 & E4 & R4 & F4 & A4 & G4 & B4 & Ad4).
  { unfold d. rewrite length_splice; [done|]. rewrite Hsl. rewrite EB in *. zdm. }
  { apply bytes_splice; [|by apply bytes_sub]. apply (fblock_bytes s1 P1); (done || lia). }
  rewrite E2. cbn [res_bind]. change (Z.min (n - tot) (BSIZE - o mod BSIZE)) with m. rewrite Hsrc by lia. cbn [res_bind].
  rewrite D2. fold d. rewrite E3. cbn [res_bind]. rewrite E4. cbn [res_bind]. exists s4. left. split; [done|]. constructor; try done.
  - eexists. split; [exact R4|]. pose proof (size_insert (faddr s1 k) P1). lia.
  - by apply (gt_trans ip s s1 s4).
  - by apply (chunk_bytes s s1 s4 P1 tot k).
  - intros k' H1 H2. rewrite Ad4 by (rewrite EM, EB in *; zdm).
    destruct (decide (k' = k)) as [->|Hn]; [done|]. apply Hdn1; [done|]. unfold k, o in *. rewrite EB in *. zdm.
  - intros Hd k' Hk' Hn'. rewrite Ad4 by done. by apply Hnr1.
Qed.

Lemma writei_loop s P fuel : ∀ st tot cost,
  writing s P tot st cost → 0 ≤ tot ≤ n → (rounds (off + tot) (n - tot) < fuel)%nat →
  (size P + cost + 6 * rounds (off + tot) (n - tot) < LOGCAP)%nat →
  ∃ tot' s', loop fuel (writei_body ip src off n) tot st = Ret tot' s' ∧
    (0 ≤ tot' ≤ n ∧ (tot' = tot ∨ tot' = n ∨ (off + tot') mod BSIZE = 0)) ∧
    writing s P tot' s' (cost + 6 * rounds (off + tot) (n - tot)) ∧ (tot' < n → full s' ∧ faddr s ((off + tot') / BSIZE) = 0).
Proof.
  induction fuel as [|fuel IH]; intros st tot cost W Ht Hf Hlog; [lia|].
  destruct (decide (tot = n)) as [->|Hne].
  { exists n, st. split; [apply loop_done; unfold writei_body; by rewrite Z.ltb_irrefl|]. split; [tauto|].
    split; [|lia]. destruct W as [(P' & R & HP) ??????]. constructor; try done. exists P'. split; [done|lia]. }
  destruct (rounds_step (off + tot) (n - tot) ltac:(lia) ltac:(lia)) as [Er Hc].
  set (m := chunk (off + tot) (n - tot)) in *.
  assert (rounds (off + tot + m) (n - tot - m) = rounds (off + (tot + m)) (n - (tot + m))) as Ea by (f_equal; lia).
  rewrite Er, Ea in *. set (q := rounds (off + (tot + m)) (n - (tot + m))) in *.
  destruct (writei_step s P st tot cost W ltac:(lia) ltac:(lia)) as (s1 & [[E1 W1]|(E1 & W1 & Hfull & Hz)]).
  - fold m in E1, W1. rewrite (loop_next _ _ _ _ _ _ E1).
    destruct (IH s1 (tot + m) (cost + 6)%nat W1) as (t & s' & E & Ht' & W' & Hx); [lia|fold q; lia|fold q; lia|].
    fold q in W'. exists t, s'. split; [done|]. split; [|split; [|done]].
    { split; [lia|]. right. destruct Ht' as [_ [->|[->|Hb]]]; [|by left|by right]. unfold m, chunk. destruct (decide (n - tot ≤ BSIZE - (off + tot) mod BSIZE)).
      - left. rewrite Z.min_l by done. lia.
      - right. rewrite Z.min_r by lia. change BSIZE with 1024. clear. zdm. }
    by replace (cost + 6 * Datatypes.S q)%nat with (cost + 6 + 6 * q)%nat by lia.
  - exists tot, s1. split; [by apply loop_done|]. split; [split; [lia|by left]|]. split; [|done].
    destruct W1 as [(P' & R & HP) ??????]. constructor; try done. exists P'. split; [done|lia].
Qed.

End bytes.
(** * The inode itself *)

(** A change of the inode's block and of fields other than the addresses does not touch
    the file's blocks. *)
Section frame.
Context (s s' : fs S).
Hypothesis F : file_ok s.
Hypothesis A : alloc_ok s.
Hypothesis Hsb : sb s' = sb s.
Hypothesis Hlen : length (inodes s') = length (inodes s).
Hypothesis Hino : idev (ino ip s') = idev (ino ip s) ∧ inum (ino ip s') = inum (ino ip s) ∧ d_addrs (meta s') = d_addrs (meta s).
Hypothesis Ho : ∀ c, c ≠ iblock s → blks s' c = blks s c.

Lemma frame_used c : 0 ≤ c < sb_size (sb s) → used s' c = used s c.
Proof.
  intros Hc. unfold used. rewrite Hsb, Ho; [done|]. intros E. destruct (fo_iblock _ _ F) as (_ & _ & _ & Hn). apply Hn. by exists c.
Qed.

Lemma frame_addr k : 0 ≤ k ≤ MAXFILE → faddr s' k = faddr s k.
Proof.
  intros Hk. destruct Hino as (_ & _ & Ea). unfold FsFile.faddr, FsFile.iaddr, addr_at. rewrite Ea. fold (addr_at NDIRECT (meta s)). fold (iaddr s).
  destruct (k <? NDIRECT); [done|]. destruct (k =? MAXFILE); [done|]. destruct (Z.eqb_spec (iaddr s) 0) as [|Hi]; [done|].
  rewrite Ho; [done|]. apply (fo_taken _ _ F MAXFILE); [destruct maxfile_val; lia|done].
Qed.

Lemma frame_block k : 0 ≤ k ≤ MAXFILE → fblock s' k = fblock s k.
Proof.
  intros Hk. unfold FsFile.fblock. rewrite frame_addr by done. destruct (Z.eqb_spec (faddr s k) 0) as [|Hne]; [done|].
  apply Ho. by apply (fo_taken _ _ F k).
Qed.

Local Lemma frame_taken c : taken s c → taken s' c.
Proof.
  intros (Hr & Hu & Hus & Hb). split; [by rewrite Hsb|]. split; [rewrite frame_used by lia; done|].
  split; [done|]. by rewrite (is_bitmap_sb s s' c Hsb).
Qed.

Lemma frame_file_ok : file_ok s'.
Proof.
  destruct Hino as (Ed & En & Ea). assert (iblock s' = iblock s) as Eb by (unfold FsFile.iblock; by rewrite En, Hsb).
  pose proof F as [H1 H2 H3 H4 H5 H6]. constructor; rewrite ?Eb, ?Ea, ?Hlen; try done.
  - by rewrite Ed.
  - by apply frame_taken.
  - intros k Hk. rewrite frame_addr by done. intros Hne. destruct (H5 k Hk Hne). split; [by apply frame_taken|done].
  - intros k j Hk Hj. rewrite !frame_addr by done. by apply H6.
Qed.

Lemma frame_alloc_ok : alloc_ok s'.
Proof.
  destruct A as [H1 H2 H3 H4]. constructor; rewrite ?Hsb; try done.
  - intros c Hc%(is_bitmap_sb s s' c Hsb). by apply H2.
  - intros b Hb. rewrite frame_used, (is_bitmap_sb s s' b Hsb) by done. by apply H3.
  - by rewrite frame_used by lia.
Qed.
End frame.

Lemma dinode_off_bound i : (dinode_off i + 64 ≤ 1024)%nat.
Proof. unfold dinode_off. change DINODE with 64. change IPB with 16. zdm. Qed.

Lemma iupdate_ok s P :
  file_ok s → rdy s P ∅ → (size P < LOGCAP)%nat → dinode_ok (meta s) →
  ∃ s', iupdate ip s = Ret tt s' ∧ rdy s' ({[iblock s]} ∪ P) ∅ ∧ kept s s' ∅ ∧
    blks s' (iblock s) = put_dinode (dinode_off (inum (ino ip s))) (meta s) (blks s (iblock s)) ∧
    ∀ c, c ≠ iblock s → blks s' c = blks s c.
Proof.
  intros F R Hp Hd. assert (LOGCAP = 29%nat) as EL by done. assert (NBUF = 30%nat) as EN by done.
  destruct (fo_iblock _ _ F) as (_ & _ & Hu & _). pose proof (blks_length s P ∅ (iblock s) R) as Hl.
  assert (dinode_off (inum (ino ip s)) + 64 ≤ length (blks s (iblock s)))%nat as Ho
    by (pose proof (dinode_off_bound (inum (ino ip s))); change BSIZE with 1024 in Hl; lia).
  destruct (change_block_ok s P ∅ (iblock s) (λ s, put_dinode (dinode_off (inum (ino ip s))) (meta s)))
    as (s' & E & R' & Hb & Hoth & K); try done.
  - rewrite union_empty_r_L. lia.
  - by rewrite length_put_dinode.
  - apply bytes_put_dinode. by apply (blks_bytes s P ∅).
  - exists s'. split_and!; try done. unfold iupdate. rewrite <- E. unfold change_block. msimpl. by rewrite (fo_dev _ _ F).
Qed.

End write.
