(* ===== verification/FsFileProps.v ===== *)
(** The contents of files: [writei] and [readi] as writes and reads of a sequence of bytes,
    and a write across a crash. *)

From S2P Require Import Prelude Bytes Sleeplock Bio BioInv Log LogInv LogCrash LogProps Store StoreLog Fs FsBlock FsAlloc FsProps Dinode.
From S2P Require Import FsFile FsRead FsWrite.

Section file_props.
Context {S : Type} `{!Store S, !StoreSpec S} (ip : nat).
Implicit Types (s : fs S) (P : gset Z).

Local Abbreviation meta := (meta ip).
Local Abbreviation faddr := (faddr ip).
Local Abbreviation iblock := (iblock ip).
Local Abbreviation file_ok := (file_ok ip).
Local Abbreviation fbyte := (fbyte ip).
Local Abbreviation fbytes := (fbytes ip).
Local Abbreviation dense := (dense ip).
Local Abbreviation readable := (readable ip).

(** The file system around one open inode: the allocator's and the file's invariants. *)
Record sound s : Prop := {
  sd_file : file_ok s;
  sd_alloc : alloc_ok s;
  sd_dense : dense s;
  sd_dinode : dinode_ok (meta s);
}.

(** The file as its reader sees it, and a write into a sequence of bytes. *)
Definition contents s : list Z := fbytes s 0 (Z.to_nat (d_size (meta s))).
Definition overwrite (off : nat) (b c : list Z) : list Z := take off c ++ b ++ drop (off + length b) c.

Lemma lookup_fbytes s off m i : fbytes s off m !! i = if decide (i < m)%nat then Some (fbyte s (off + Z.of_nat i)) else None.
Proof.
  unfold FsRead.fbytes. rewrite list_lookup_fmap. case_decide.
  - by rewrite lookup_seq_lt.
  - by rewrite lookup_seq_ge by lia.
Qed.

Lemma length_contents s : length (contents s) = Z.to_nat (d_size (meta s)).
Proof. unfold contents, FsRead.fbytes. by rewrite length_fmap, length_seq. Qed.

Lemma fbytes_contents s off m :
  0 ≤ off → off + Z.of_nat m ≤ d_size (meta s) → fbytes s off m = sub (Z.to_nat off) m (contents s).
Proof.
  intros Ho Hm. apply list_eq. intros i. rewrite lookup_fbytes. case_decide as Hi.
  - unfold sub. rewrite lookup_take_lt, lookup_drop by done. unfold contents. rewrite lookup_fbytes, decide_True by lia.
    do 2 f_equal. lia.
  - symmetry. apply lookup_ge_None_2. rewrite length_sub by (rewrite length_contents; lia). lia.
Qed.

(** What a call of [writei] at offset [off] that stored the first [tot] bytes of [bs]
    leaves: the file, its inode in memory and on the disk, and everything else. *)
Record wrote (bs : list Z) (off : Z) s (tot : Z) s' : Prop := {
  wt_sound : sound s';
  wt_contents : contents s' = overwrite (Z.to_nat off) (take (Z.to_nat tot) bs) (contents s);
  wt_meta : meta s' = Dinode (d_type (meta s)) (d_major (meta s)) (d_minor (meta s)) (d_nlink (meta s))
    (Z.max (d_size (meta s)) (off + tot)) (d_addrs (meta s'));
  wt_ino : sb s' = sb s ∧ ino ip s' = set_idata (meta s') (ino ip s);
  wt_inode : get_dinode (dinode_off (inum (ino ip s))) (blks s' (iblock s)) = meta s';
  wt_inodes : ∀ i, i mod IPB ≠ inum (ino ip s) mod IPB →
    get_dinode (dinode_off i) (blks s' (iblock s)) = get_dinode (dinode_off i) (blks s (iblock s));
  wt_blks : ∀ c, taken s c → (∀ k, 0 ≤ k ≤ MAXFILE → faddr s k ≠ c) → c ≠ iblock s → blks s' c = blks s c;
  wt_mem : ∀ j, j ≠ ip → ino j s' = ino j s;
  wt_dur : ∀ c, durable (store s') c = durable (store s) c;
  wt_addr : ∀ k, 0 ≤ k ≤ MAXFILE → faddr s' k = faddr s k ∨ faddr s k = 0 ∧ used s (faddr s' k) = false;
  wt_used : ∀ c, 0 ≤ c < sb_size (sb s) → used s c = true → used s' c = true;
  wt_table : itable_lock s' = itable_lock s ∧ length (inodes s') = length (inodes s);
  wt_near : let e := off + Z.of_nat (length bs) in
    e ≤ NDIRECT * BSIZE → ∀ k, 0 ≤ k ≤ MAXFILE → ¬ (off / BSIZE ≤ k ∧ k * BSIZE < e) → faddr s' k = faddr s k;
}.

Lemma gt_dinode_ok s s' : grows_to ip s s' → file_ok s' → alloc_ok s' → dinode_ok (meta s) → dinode_ok (meta s').
Proof.
  intros G F A [H1 H2 H3 H4 H5 H6 H7].
  assert (meta s' = Dinode (d_type (meta s)) (d_major (meta s)) (d_minor (meta s)) (d_nlink (meta s))
    (d_size (meta s)) (d_addrs (meta s'))) as E by (unfold FsFile.meta at 1; by rewrite (gt_inode _ _ _ G)).
  pose proof (fo_len _ _ F) as Hl. destruct (ao_size _ A) as [_ Hsz]. destruct maxfile_val as (EM & EN & _).
  constructor; try (rewrite E; cbn [d_type d_major d_minor d_nlink d_size]; done).
  apply Forall_lookup. intros i a Hi. assert (i < 13)%nat as Hb by (rewrite <- Hl; by eapply lookup_lt_Some).
  assert (∃ k, 0 ≤ k ≤ MAXFILE ∧ faddr s' k = a) as (k & Hk & Ek).
  { assert (a = addr_at (Z.of_nat i) (meta s')) as -> by (unfold addr_at; by rewrite Nat2Z.id, nth_lookup, Hi).
    destruct (decide (i = 12%nat)) as [->|Hne].
    - exists MAXFILE. split; [lia|]. unfold FsFile.faddr. rewrite (proj2 (Z.ltb_ge _ _)), Z.eqb_refl by lia. done.
    - exists (Z.of_nat i). split; [lia|]. unfold FsFile.faddr. by rewrite (proj2 (Z.ltb_lt _ _)) by lia. }
  destruct (decide (a = 0)) as [->|Hne]; [lia|].
  destruct (fo_taken _ _ F k Hk) as [(Hr & _) _]; [by rewrite Ek|]. rewrite Ek in Hr. lia.
Qed.

Lemma dinode_off_apart i j :
  i mod IPB ≠ j mod IPB → (dinode_off i + 64 ≤ dinode_off j ∨ dinode_off j + 64 ≤ dinode_off i)%nat.
Proof. unfold dinode_off. change DINODE with 64. change IPB with 16. intros Hn. zdm. Qed.

Section bytes.
Context (bs : list Z) (src : Z → Z → list Z * bool) (off n : Z).
Hypothesis Hbs : Z.of_nat (length bs) = n ∧ bytes bs.
Hypothesis Hsrc : ∀ t m, 0 ≤ t → 0 ≤ m → t + m ≤ n → src t m = (sub (Z.to_nat t) (Z.to_nat m) bs, true).
Hypothesis Hoff : 0 ≤ off ∧ off + n ≤ MAXFILE * BSIZE.

(** The size update of [writei]. *)
Definition sized (e : Z) s : fs S :=
  if d_size (meta s) <? e then iupd ip (λ x, set_idata (set_size e (idata x)) x) s else s.

Lemma sized_ok e s :
  (ip < length (inodes s))%nat →
  sb (sized e s) = sb s ∧ (itable_lock (sized e s) = itable_lock s ∧ length (inodes (sized e s)) = length (inodes s)) ∧ store (sized e s) = store s ∧
  ino ip (sized e s) = set_idata (set_size (Z.max (d_size (meta s)) e) (meta s)) (ino ip s) ∧
  ∀ j, j ≠ ip → ino j (sized e s) = ino j s.
Proof.
  intros Hl. unfold sized. destruct (Z.ltb_spec (d_size (meta s)) e) as [H|H].
  - split; [done|]. split; [split; [done|]; unfold iupd, set_inodes; cbn [inodes]; apply length_alter|]. split; [done|].
    split; [|intros j Hj; by apply ino_iupd_ne]. rewrite ino_iupd by done. by rewrite Z.max_r by lia.
  - do 3 (split; [done|]). split; [|done]. rewrite Z.max_l by lia. unfold FsFile.meta.
    by destruct (ino ip s) as [? ? ? ? ? [? ? ? ? ? ?]].
Qed.

Lemma overwritten s s' tot :
  0 ≤ tot ≤ n → off ≤ d_size (meta s) ≤ MAXFILE * BSIZE → d_size (meta s') = Z.max (d_size (meta s)) (off + tot) →
  (∀ j, 0 ≤ j < MAXFILE * BSIZE → fbyte s' j = written_upto ip bs off s tot j) →
  contents s' = overwrite (Z.to_nat off) (take (Z.to_nat tot) bs) (contents s).
Proof.
  intros Ht Hsz Es Hw. destruct Hbs as [Hlen _]. pose proof (length_contents s) as Hc.
  apply list_eq. intros i. unfold overwrite, contents at 1. rewrite lookup_fbytes, Es, Z.add_0_l.
  assert (length (take (Z.to_nat off) (contents s)) = Z.to_nat off) as H1 by (rewrite length_take, Hc; lia).
  assert (length (take (Z.to_nat tot) bs) = Z.to_nat tot) as H2 by (rewrite length_take; lia).
  destruct (decide (i < Z.to_nat off)%nat) as [Ha|Ha]; [|destruct (decide (i < Z.to_nat (off + tot))%nat) as [Hb|Hb]].
  - rewrite decide_True, Hw by lia. unfold written_upto. rewrite decide_False by lia.
    rewrite lookup_app_l, lookup_take_lt by lia. unfold contents. by rewrite lookup_fbytes, decide_True by lia.
  - rewrite decide_True, Hw by lia. unfold written_upto. rewrite decide_True by lia.
    rewrite lookup_app_r, lookup_app_l, lookup_take_lt by lia. rewrite nth_lookup, H1.
    replace (Z.to_nat (Z.of_nat i - off)) with (i - Z.to_nat off)%nat by lia.
    by destruct (lookup_lt_is_Some_2 bs (i - Z.to_nat off)) as [x ->]; [lia|].
  - rewrite !lookup_app_r, lookup_drop, H1, H2 by lia. unfold contents. rewrite lookup_fbytes.
    destruct (decide (i < Z.to_nat (d_size (meta s)))%nat) as [Hd|Hd].
    + rewrite !decide_True, Hw by lia. unfold written_upto. rewrite decide_False by lia. f_equal. f_equal. lia.
    + by rewrite !decide_False by lia.
Qed.

(** The file after the loop ([st]) and after the inode is stored ([s']). *)
Lemma wrote_intro s P tot st cost s' :
  file_ok s → dense s → dinode_ok (meta s') → writing ip bs off n s P tot st cost → 0 ≤ tot ≤ n → off ≤ d_size (meta s) →
  sb s' = sb st → itable_lock s' = itable_lock st ∧ length (inodes s') = length (inodes st) →
  ino ip s' = set_idata (set_size (Z.max (d_size (meta st)) (off + tot)) (meta st)) (ino ip st) →
  (∀ j, j ≠ ip → ino j s' = ino j st) →
  Z.of_nat (length (blks st (iblock s))) = BSIZE →
  blks s' (iblock s) = put_dinode (dinode_off (inum (ino ip s))) (meta s') (blks st (iblock s)) →
  (∀ c, c ≠ iblock s → blks s' c = blks st c) → (∀ c, durable (store s') c = durable (store st) c) →
  wrote bs off s tot s'.
Proof.
  intros F0 [Dn1 Dn2] D [_ F A G Hw Hdn Hnr] Ht Hsz Esb [Etl El] Ei Eo Hl Hb Ho Hd. destruct maxfile_val as (EM & _ & _ & EB).
  pose proof (gt_iblock _ _ _ G) as Eib. pose proof (gt_size _ _ _ G) as Egs.
  assert (meta s' = set_size (Z.max (d_size (meta st)) (off + tot)) (meta st)) as Em.
  { transitivity (idata (ino ip s')); [done|]. by rewrite Ei. }
  assert (idev (ino ip s') = idev (ino ip st) ∧ inum (ino ip s') = inum (ino ip st) ∧ d_addrs (meta s') = d_addrs (meta st)) as Hino
    by (rewrite Em, Ei; done).
  assert (∀ c, c ≠ iblock st → blks s' c = blks st c) as Ho' by (intros c; rewrite Eib; apply Ho).
  assert (dinode_off (inum (ino ip s)) + 64 ≤ length (blks st (iblock s)))%nat as Hoff'
    by (pose proof (dinode_off_bound (inum (ino ip s))); rewrite EB in Hl; lia).
  assert (blks st (iblock s) = blks s (iblock s)) as Hi.
  { apply (gt_blks _ _ _ G); [apply F0|]. intros k Hk Ek. destruct (fo_iblock _ _ F0) as (Hr & _).
    destruct (fo_taken _ _ F0 k Hk) as [_ Hne]; [lia|done]. }
  constructor.
  - constructor; [by apply (frame_file_ok ip st s')|by apply (frame_alloc_ok ip st s')| |done].
    split; [rewrite Em; cbn [d_size set_size]; lia|]. rewrite Em. cbn [d_size set_size]. intros k Hk Hks.
    rewrite (frame_addr ip st s') by (done || lia). destruct (decide (off / BSIZE ≤ k ∧ k * BSIZE < off + tot)) as [[]|Hn]; [by apply Hdn|].
    assert (faddr s k ≠ 0) as Hne by (apply Dn2; [done|]; rewrite EB in *; zdm).
    destruct (gt_addr _ _ _ G k) as [->|[Hz _]]; [lia|done|done].
  - apply (overwritten s s' tot); try lia; [rewrite Em; cbn [d_size set_size]; lia|]. intros j Hj. etrans; [|by apply Hw; lia].
    unfold FsRead.fbyte. rewrite (frame_block ip st s'); try done. rewrite EM, EB in *. zdm.
  - rewrite Em, Egs. pose proof (gt_inode _ _ _ G) as Gi. unfold FsFile.meta. rewrite Gi. done.
  - split; [by rewrite Esb, (gt_sb _ _ _ G)|]. rewrite Em, Ei. by rewrite (gt_inode _ _ _ G).
  - rewrite Hb. by apply get_put_dinode.
  - intros i Hne. rewrite Hb, get_dinode_other, Hi; [done|done|done|]. by apply dinode_off_apart.
  - intros c Hc Hk Hne. rewrite Ho by done. by apply (gt_blks _ _ _ G).
  - intros j Hj. rewrite Eo by done. by apply (gt_others _ _ _ G).
  - intros c. rewrite Hd. apply (gt_dur _ _ _ G).
  - intros k Hk. rewrite (frame_addr ip st s') by done. by apply (gt_addr _ _ _ G).
  - intros c Hc Hu. rewrite (frame_used ip st s'); try done; [by apply (gt_used _ _ _ G)|by rewrite (gt_sb _ _ _ G)].
  - by rewrite Etl, El, (gt_len _ _ _ G), (gt_table _ _ _ G).
  - intros e He k Hk Hn. rewrite (frame_addr ip st s') by done. destruct Hbs as [Hlen _]. unfold e in *. rewrite Hlen in *. by apply Hnr.
Qed.

(** The end of [writei]: the size, and the inode to its block. *)
Lemma writei_inode s P tot st cost :
  file_ok s → dense s → dinode_ok (meta s) → writing ip bs off n s P tot st cost → 0 ≤ tot ≤ n → off ≤ d_size (meta s) →
  (size P + cost < LOGCAP)%nat →
  ∃ s' P', iupdate ip (sized (off + tot) st) = Ret tt s' ∧ rdy s' P' ∅ ∧ (0 < size P' ≤ size P + cost + 1)%nat ∧
    wrote bs off s tot s' ∧ (full st → full s').
Proof.
  intros F0 Dn D0 W Ht Hsz Hlog. pose proof W as [(P1 & R & HP) F A G _ _]. destruct maxfile_val as (EM & _ & _ & EB).
  destruct (sized_ok (off + tot) st (fo_slot _ _ F)) as (Esb & [Etl El] & Est & Ei & Eo). set (s1 := sized (off + tot) st) in *.
  assert (meta s1 = set_size (Z.max (d_size (meta st)) (off + tot)) (meta st)) as Em.
  { transitivity (idata (ino ip s1)); [done|]. by rewrite Ei. }
  assert (inum (ino ip s1) = inum (ino ip s)) as En by (rewrite Ei; cbn [inum set_idata]; by rewrite (gt_inode _ _ _ G)).
  assert (∀ c, blks s1 c = blks st c) as Eb by (intros c; unfold blks; by rewrite Est).
  assert (file_ok s1) as F1 by (apply (frame_file_ok ip st s1); [done..| |done]; rewrite Em, Ei; done).
  assert (rdy s1 P1 ∅) as R1 by (unfold rdy; by rewrite Est).
  assert (iblock s1 = iblock s) as Eib1 by (unfold FsFile.iblock; rewrite En, Esb; by rewrite (gt_sb _ _ _ G)).
  assert (dinode_ok (meta s1)) as D1.
  { destruct (gt_dinode_ok s st G F A D0) as [H1 H2 H3 H4 H5 H6 H7]. rewrite Em. constructor; try done.
    cbn [d_size set_size]. rewrite EM, EB in Hoff. lia. }
  destruct (iupdate_ok ip s1 P1 F1 R1 ltac:(lia) D1) as (s' & E & R' & K & Hb & Ho). rewrite Eib1 in R', Hb, Ho. rewrite En, Eb in Hb.
  exists s', ({[iblock s]} ∪ P1). split; [exact E|]. split; [exact R'|]. split.
  { pose proof (size_insert (iblock s) P1). split; [|lia]. assert (size ({[iblock s]} ∪ P1) ≠ 0%nat); [|lia].
    intros E0%size_empty_inv. set_solver. }
  pose proof (kp_mem _ _ _ K) as Ek. assert (∀ j, ino j s' = ino j s1) as Ej by (intros j; by rewrite Ek).
  assert (meta s' = meta s1) as Ems by (unfold FsFile.meta; by rewrite Ej).
  assert (∀ c, c ≠ iblock s → blks s' c = blks st c) as Ho' by (intros c Hc; rewrite Ho by done; apply Eb).
  split; [apply (wrote_intro s P tot st cost s'); try done|].
  - by rewrite Ems.
  - by rewrite Ek.
  - by rewrite Ek.
  - rewrite Ej. exact Ei.
  - intros j Hj. rewrite Ej. by apply Eo.
  - by apply (blks_length st P1 ∅).
  - rewrite Ems. exact Hb.
  - intros c. rewrite (kp_dur _ _ _ K), Est. done.
  - intros Hf b Hb'. rewrite Ek in Hb'. cbn [sb set_store] in Hb'. rewrite Esb in Hb'. rewrite (frame_used ip st s'); try done; try (by rewrite Ek).
    + by apply Hf.
    + intros c. rewrite (gt_iblock _ _ _ G). apply Ho'.
Qed.

Lemma writei_ok s P :
  rdy s P ∅ → sound s → off ≤ d_size (meta s) →
  (size P + 6 * rounds off n + 1 < LOGCAP)%nat →
  ∃ tot s' P', writei ip src off n s = Ret tot s' ∧ (0 ≤ tot ≤ n ∧ (tot = 0 ∨ tot = n ∨ (off + tot) mod BSIZE = 0)) ∧ (tot < n → full s' ∧ d_size (meta s) < off + n) ∧
    rdy s' P' ∅ ∧ (0 < size P' ≤ size P + 6 * rounds off n + 1)%nat ∧ wrote bs off s tot s'.
Proof.
  intros R [F A Dn D] Hsz Hlog. destruct maxfile_val as (EM & _ & _ & EB).
  assert (writing ip bs off n s P 0 s 0) as W0.
  { constructor; try done.
    - exists P. split; [done|lia].
    - apply gt_refl.
    - intros j Hj. unfold written_upto. by rewrite decide_False by lia.
    - intros k H1 H2. apply Dn; [rewrite EB in *; zdm|lia]. }
  unfold writei. msimpl. fold (meta s). rewrite (proj2 (Z.ltb_ge _ _)), u32_id, !(proj2 (Z.ltb_ge _ _)) by (rewrite ?EM, ?EB in *; lia). cbn [orb].
  destruct (writei_loop ip bs src off n Hbs Hsrc Hoff s P (Z.to_nat (n / BSIZE) + 3) s 0 0) as (tot & st & E & Ht & W & Hfull); try done.
  - lia.
  - rewrite Z.add_0_r, Z.sub_0_r. pose proof (rounds_bound off n). lia.
  - rewrite Z.add_0_r, Z.sub_0_r. lia.
  - rewrite Z.add_0_r, Z.sub_0_r in W. rewrite E. cbn [res_bind].
    destruct (writei_inode s P tot st _ F Dn D W (proj1 Ht) Hsz) as (s' & P' & E' & R' & HP' & Wr & Hfl); [lia|].
    exists tot, s', P'. split.
    { unfold sized in E'. fold (meta st). unfold when. destruct (d_size (meta st) <? off + tot); msimpl; by rewrite E'. }
    split; [done|]. split; [|split; [done|split; [lia|done]]]. intros H'. destruct (Hfull H') as [Hff Hz]. split; [by apply Hfl|].
    apply Z.nle_gt. intros Hin. revert Hz. apply Dn; rewrite EB in *; zdm.
Qed.
End bytes.

Lemma writei_refuses s src off n :
  0 ≤ off < 2 ^ 32 → 0 ≤ n < 2 ^ 32 → ¬ (off ≤ d_size (meta s) ∧ off + n ≤ MAXFILE * BSIZE) → writei ip src off n s = Ret (-1) s.
Proof.
  intros Ho Hn Hd. destruct maxfile_val as (EM & _ & _ & EB). unfold writei. msimpl. fold (meta s).
  destruct (Z.ltb_spec (d_size (meta s)) off) as [|Hs]; [done|]. cbn [orb]. destruct (decide (2 ^ 32 ≤ off + n)) as [Hw|Hw].
  - assert (u32 (off + n) = off + n - 2 ^ 32) as -> by (unfold u32; symmetry; apply (Z.mod_unique_pos _ _ 1); lia).
    by rewrite (proj2 (Z.ltb_lt _ _)) by lia.
  - rewrite u32_id by lia. rewrite (proj2 (Z.ltb_ge _ _)), (proj2 (Z.ltb_lt _ _)) by lia. done.
Qed.


(** C17. Reading a file.  When the destination takes every byte, [readi] returns the bytes of
    the contents from the offset on, at most as many as asked for, and how many they are;
    nothing changes.  An offset past the end, or one that overflows with the length, reads
    nothing. *)
Theorem readi_reads s P dst off n :
  (∀ t c, dst t c = true) → 0 ≤ off < 2 ^ 32 → 0 ≤ n < 2 ^ 32 → rdy s P ∅ → (size P < NBUF)%nat → sound s →
  ∃ s', readi ip dst off n s =
    Ret (let x := if decide (off + n < 2 ^ 32) then take (Z.to_nat n) (drop (Z.to_nat off) (contents s)) else [] in
         (Z.of_nat (length x), x)) s' ∧
    rdy s' P ∅ ∧ unseen s s'.
Proof.
  intros Hdst Ho Hn R Hp [F A Dn D]. destruct (readi_ok ip s P dst off n F Dn R Hp Ho Hn) as (r & s' & E & R' & U & [->|(t & c & _ & _ & Hc)]).
  2:{ by rewrite Hdst in Hc. }
  exists s'. split; [|done]. rewrite E. f_equal. clear E. unfold FsRead.readable. pose proof (dk_size _ D).
  destruct (Z.ltb_spec (d_size (meta s)) off) as [Hs|Hs]; cbn [orb].
  { rewrite drop_ge by (rewrite length_contents; lia). rewrite take_nil. by case_decide. }
  destruct (Z.leb_spec (2 ^ 32) (off + n)).
  { by rewrite decide_False by lia. }
  rewrite decide_True by lia. rewrite fbytes_contents by lia. cbv zeta.
  assert (sub (Z.to_nat off) (Z.to_nat (Z.min n (d_size (meta s) - off))) (contents s) = take (Z.to_nat n) (drop (Z.to_nat off) (contents s))) as ->.
  { unfold sub. destruct (decide (n ≤ d_size (meta s) - off)); [by rewrite Z.min_l|].
    rewrite !take_ge; rewrite ?length_drop, ?length_contents; (done || lia). }
  f_equal. rewrite length_take, length_drop, length_contents. lia.
Qed.

(** * The file on a disk *)

(** The contents of the file with inode [x] on a disk that holds the blocks [d]. *)
Definition disk_addr (d : Z → list Z) (x : dinode) (k : Z) : Z :=
  if k <? NDIRECT then addr_at k x
  else if addr_at NDIRECT x =? 0 then 0
  else get32 (Z.to_nat (4 * (k - NDIRECT))) (d (addr_at NDIRECT x)).
Definition disk_byte (d : Z → list Z) (x : dinode) (j : Z) : Z :=
  let a := disk_addr d x (j / BSIZE) in
  if a =? 0 then 0 else nth (Z.to_nat (j mod BSIZE)) (d a) 0.
Definition disk_file (b : superblock) (d : Z → list Z) (i : Z) : list Z :=
  let x := get_dinode (dinode_off i) (d (IBLOCK i b)) in
  (λ k, disk_byte d x (Z.of_nat k)) <$> seq 0 (Z.to_nat (d_size x)).

Lemma disk_file_contents s d :
  sound s → get_dinode (dinode_off (inum (ino ip s))) (blks s (iblock s)) = meta s → (∀ b, usable b → d b = blks s b) →
  disk_file (sb s) d (inum (ino ip s)) = contents s.
Proof.
  intros [F A [Dn _] D] Hi Hd. destruct maxfile_val as (EM & EN & _ & EB). unfold disk_file. fold (iblock s).
  rewrite Hd by apply (fo_iblock _ _ F). rewrite Hi. unfold contents, FsRead.fbytes.
  apply list_fmap_ext. intros i k Hk. apply lookup_seq in Hk as [-> Hk]. cbn [Nat.add]. rewrite Z.add_0_l.
  set (j := Z.of_nat i). unfold disk_byte, FsRead.fbyte, FsFile.fblock.
  assert (0 ≤ j / BSIZE < MAXFILE) as Hj by (unfold j; rewrite EM, EB in *; clear -Hk Dn; zdm).
  assert (disk_addr d (meta s) (j / BSIZE) = faddr s (j / BSIZE)) as ->.
  { unfold disk_addr, FsFile.faddr, FsFile.iaddr. destruct (j / BSIZE <? NDIRECT); [done|].
    rewrite (proj2 (Z.eqb_neq _ MAXFILE)) by lia. destruct (Z.eqb_spec (addr_at NDIRECT (meta s)) 0) as [|Hn]; [done|].
    rewrite Hd; [done|]. apply (fo_taken _ _ F MAXFILE); [lia|done]. }
  cbv zeta. destruct (Z.eqb_spec (faddr s (j / BSIZE)) 0) as [|Hn].
  - rewrite nth_lookup, lookup_replicate_2; [done|]. rewrite EB in *. unfold j in *. zdm.
  - rewrite Hd; [done|]. apply (fo_taken _ _ F (j / BSIZE)); [lia|done].
Qed.
End file_props.

(** C14. A write is atomic across crashes.  On the buffer cache and the log, in a transaction
    that has changed nothing yet, with the open inode as it is on the disk: when [writei]
    returns and the call ends with [end_op], the machine can stop after any prefix of the
    disk writes; after rebooting, the file read from the disk has either its old contents
    or the old contents overwritten, every block in use by something else is as before, and
    so are the other inodes in the block of the file's inode. *)
Theorem writei_crash_atomic pid fuel start (s : fs log_state) ip bs src off (Hf : (0 < fuel)%nat)
    (St := store_log pid fuel) (Sp := store_log_spec pid fuel start 1 Hf) (n := Z.of_nat (length bs)) :
  bytes bs → (∀ t m, 0 ≤ t → 0 ≤ m → t + m ≤ n → src t m = (sub (Z.to_nat t) (Z.to_nat m) bs, true)) →
  log_ready pid start 1 (store s) ∅ ∅ → sound ip s →
  get_dinode (dinode_off (inum (ino ip s))) (view (bio (store s)) (iblock ip s)) = meta ip s →
  0 ≤ off ≤ d_size (meta ip s) → off + n ≤ MAXFILE * BSIZE → (6 * rounds off n + 2 < LOGCAP)%nat →
  ∃ tot s1 l w, writei ip src off n s = Ret tot s1 ∧ 0 ≤ tot ≤ n ∧ (tot < n → full s1) ∧
    end_op pid fuel (store s1) = Ret tt l ∧ dtrace (bio l) = dtrace (bio (store s1)) ++ w ∧
    ∀ p, p `prefix_of` w →
      ∃ q, reboot pid fuel start LOGSIZE (after (disk (bio (store s1))) p) = Ret tt q ∧
        (let c := disk_file (sb s) (disk (bio q)) (inum (ino ip s)) in
         c = contents ip s ∨ c = overwrite (Z.to_nat off) (take (Z.to_nat tot) bs) (contents ip s)) ∧
        (∀ b, taken s b → (∀ k, 0 ≤ k ≤ MAXFILE → faddr ip s k ≠ b) → b ≠ iblock ip s → disk (bio q) b = view (bio (store s)) b) ∧
        ∀ i, i mod IPB ≠ inum (ino ip s) mod IPB →
          get_dinode (dinode_off i) (disk (bio q) (iblock ip s)) = get_dinode (dinode_off i) (view (bio (store s)) (iblock ip s)).
Proof.
  intros Hby Hsrc R Sd Hi Ho Hn Hlog.
  destruct (@writei_ok log_state St Sp ip bs src off n (conj eq_refl Hby) Hsrc ltac:(lia) s ∅ R Sd ltac:(lia)) as (tot & s1 & P & E & [Ht _] & Hfl & R1 & HP & W);
    [rewrite size_empty; lia|].
  destruct (txn_crash_atomic pid fuel start (store s) (store s1) P Hf R R1) as (l & w & El & Et & Hc).
  { rewrite size_empty in HP. lia. }
  { apply (wt_dur _ _ _ _ _ _ W). }
  assert (tot < n → full s1) as Hfl' by (intros H'; exact (proj1 (Hfl H'))).
  exists tot, s1, l, w. do 5 (split; [assumption|]). clear E El. intros p Hp. destruct (Hc p Hp) as (q & Eq & Hq).
  exists q. split; [exact Eq|]. clear Eq. destruct (fo_iblock _ _ (sd_file _ _ Sd)) as (_ & _ & Hib & _). destruct Hq as [Hq|Hq].
  - split; [left|split; [intros b (_ & _ & Hu & _) _ _; apply Hq, Hu|]].
    2:{ intros i _. f_equal. apply Hq, Hib. }
    apply (disk_file_contents ip s); [exact Sd|exact Hi|]. intros b [_ Hb]. by apply Hq.
  - split; [right|split].
    + rewrite <- (wt_contents _ _ _ _ _ _ W). destruct (wt_ino _ _ _ _ _ _ W) as [Esb Ei].
      assert (inum (ino ip s1) = inum (ino ip s)) as En by (by rewrite Ei).
      rewrite <- Esb, <- En. apply (disk_file_contents ip s1); [apply W| |].
      * unfold iblock. rewrite En, Esb. apply W.
      * intros b [_ Hb]. by apply Hq.
    + intros b Hb Hk Hne. rewrite Hq by apply Hb. by apply (wt_blks _ _ _ _ _ _ W).
    + intros i Hne. rewrite Hq by apply Hib. by apply (wt_inodes _ _ _ _ _ _ W).
Qed.

(** * A file on the small disk *)

Section small.
Context (l : log_state) (Hf : (0 < 1)%nat).
Let St := store_log 1 1.
Let Sp := store_log_spec 1 1 2 1 Hf.
Existing Instance St.
Existing Instance Sp.
Hypothesis Hmap : view (bio l) 45 = small_map.

Lemma small_faddr k : 0 ≤ k ≤ MAXFILE → faddr 0 (small_fs l) k = 0.
Proof.
  intros Hk. unfold faddr, iaddr. change (meta 0 (small_fs l)) with small_inode. destruct (Z.ltb_spec k NDIRECT) as [Hd|Hd].
  - unfold addr_at. change (d_addrs small_inode) with (replicate 13 0). rewrite nth_lookup. destruct (replicate 13 0 !! Z.to_nat k) as [a|] eqn:E; [|done].
    apply lookup_replicate in E as [-> _]. done.
  - by destruct (k =? MAXFILE).
Qed.

Lemma small_sound : sound 0 (small_fs l).
Proof.
  constructor.
  - constructor; try (intros; rewrite small_faddr in * by done; done).
    + cbn. lia.
    + done.
    + done.
    + change (iblock 0 (small_fs l)) with 33. split; [cbn; lia|]. split; [|split].
      * unfold used, blks. cbn [blk Sp store_log_spec store small_fs]. change (BBLOCK 33 _) with 45. rewrite Hmap. vm_compute. done.
      * split; [lia|]. unfold in_log, LOGSIZE, MAXOPBLOCKS. lia.
      * intros (b & Hb & E). cbn [sb small_fs sb_size small_sb] in *. unfold BBLOCK in E. change BPB with 8192 in E. change (bmapstart small_sb) with 45 in E. zdm.
  - by apply small_alloc.
  - split; [vm_compute; split; congruence|]. intros k Hk. cbn. change BSIZE with 1024. lia.
  - constructor; cbn; try lia. by repeat constructor.
Qed.
End small.

(** The source of a write that hands out the bytes of a list. *)
Definition from_list (bs : list Z) (t m : Z) : list Z * bool := (sub (Z.to_nat t) (Z.to_nat m) bs, true).
Definition hello : list Z := [104; 101; 108; 108; 111].

Lemma hello_bytes : bytes hello.
Proof. repeat constructor; lia. Qed.


(** What has been written is read back. *)
Lemma readi_reads_witness :
  ∃ (l : log_state) tot s1 s', @writei log_state (store_log 1 1) 0 (from_list hello) 0 5 (small_fs l) = Ret tot s1 ∧
    @readi log_state (store_log 1 1) 0 (λ _ _, true) 0 5 s1 = Ret (tot, take (Z.to_nat tot) hello) s'.
Proof.
  destruct small_booted as (l & R & Hv & _). assert (0 < 1)%nat as Hf by lia.
  set (St := store_log 1 1). set (Sp := store_log_spec 1 1 2 1 Hf).
  destruct (@writei_ok log_state St Sp 0 hello (from_list hello) 0 5 (conj eq_refl hello_bytes) ltac:(done) ltac:(split; [lia|vm_compute; congruence]) (small_fs l) ∅)
    as (tot & s1 & P' & E & [Ht _] & _ & R1 & HP & W); [exact R|by apply small_sound|vm_compute; congruence|vm_compute; lia|].
  assert (size P' ≤ 7)%nat as HP7 by (destruct HP as [_ HP]; by vm_compute in HP |- *).
  assert (contents 0 s1 = take (Z.to_nat tot) hello) as Ec.
  { etrans; [exact (wt_contents _ _ _ _ _ _ W)|]. unfold overwrite. change (contents 0 (small_fs l)) with (@nil Z). rewrite take_nil, drop_nil. apply app_nil_r. }
  destruct (@readi_reads log_state St Sp 0 s1 P' (λ _ _, true) 0 5) as (s' & E' & _).
  - done.
  - lia.
  - lia.
  - exact R1.
  - unfold NBUF. lia.
  - apply W.
  - exists l, tot, s1, s'. split; [exact E|].
    etrans; [exact E'|]. cbv zeta. rewrite decide_True by lia. change (Z.to_nat 0) with 0%nat. rewrite drop_0, Ec, take_take.
    rewrite Nat.min_r by lia. rewrite length_take. change (length hello) with 5%nat. f_equal. f_equal. lia.
Defined.

Lemma writei_crash_atomic_witness :
  ∃ (l l' : log_state) tot s1 w, @writei log_state (store_log 1 1) 0 (from_list hello) 0 5 (small_fs l) = Ret tot s1 ∧
    end_op 1 1 (store s1) = Ret tt l' ∧
    ∀ p, p `prefix_of` w → ∃ q, reboot 1 1 2 LOGSIZE (after (disk (bio (store s1))) p) = Ret tt q ∧
      (disk_file small_sb (disk (bio q)) 1 = [] ∨ disk_file small_sb (disk (bio q)) 1 = take (Z.to_nat tot) hello).
Proof.
  destruct small_booted as (l & R & Hv & Hi). assert (0 < 1)%nat as Hf by lia.
  destruct (writei_crash_atomic 1 1 2 (small_fs l) 0 hello (from_list hello) 0 Hf) as (tot & s1 & l' & w & E & _ & _ & E' & Ht & Hc).
  - apply hello_bytes.
  - done.
  - exact R.
  - by apply small_sound.
  - change (view (bio (store (small_fs l))) (iblock 0 (small_fs l))) with (view (bio l) 33). rewrite Hi. vm_compute. reflexivity.
  - vm_compute. split; congruence.
  - vm_compute. congruence.
  - vm_compute. lia.
  - exists l, l', tot, s1, w. split; [exact E|]. split; [exact E'|]. intros p Hp. destruct (Hc p Hp) as (q & Eq & Hq & _).
    exists q. split; [exact Eq|]. clear E E' Eq. destruct Hq as [Hq|Hq]; [left; exact Hq|right]. etrans; [exact Hq|].
    unfold overwrite. change (contents 0 (small_fs l)) with (@nil Z). rewrite take_nil, drop_nil. apply app_nil_r.
Defined.
