(* ===== verification/FsInode.v ===== *)
(** The table of inodes in memory: [iget], [idup], [ilock], [iunlock] and [iput] of
    kernel/fs.c.

    The abstract state of the table is the references that the kernel holds: for each slot
    in use the number of its inode and how often it is referred to.  What a slot caches of
    an inode is never seen, since it is what the disk has. *)

From S2P Require Import Prelude Bytes Sleeplock Bio Store Fs FsBlock FsAlloc Dinode FsFile FsRead FsWrite FsFileProps.

(** * The lock of an inode *)

Definition lock_free (l : sleeplock) : Prop := slocked l = false ∧ lk l = false.
Definition lock_held (pid : Z) (l : sleeplock) : Prop := slocked l = true ∧ lk l = false ∧ spid l = pid.

Lemma acquiresleep_takes me pid fuel l :
  (0 < fuel)%nat → lock_free l → ∃ l', acquiresleep me pid fuel l = Ret tt l' ∧ lock_held pid l'.
Proof.
  intros Hf [Hs Hl]. destruct fuel as [|fuel]; [lia|]. unfold acquiresleep, acquire_lk, release_lk. msimpl. rewrite Hl. cbn [res_bind].
  erewrite loop_done; [|unfold acquiresleep_wait; msimpl; cbn [slocked set_lk]; by rewrite Hs]. cbn [res_bind lk set_lk].
  eexists. split; [done|]. by repeat split.
Qed.

Lemma holdingsleep_held pid l : lock_held pid l → holdingsleep pid l = Ret true l.
Proof.
  intros (Hs & Hl & Hp). destruct l as [a b p w g]. cbn in *. subst. unfold holdingsleep, acquire_lk, release_lk. msimpl.
  cbn. by rewrite Z.eqb_refl.
Qed.

Lemma releasesleep_held me pid l : lock_held pid l → ∃ l', releasesleep me pid l = Ret tt l' ∧ lock_free l'.
Proof.
  intros (Hs & Hl & Hp). unfold releasesleep, acquire_lk, release_lk, wakeup_lk. msimpl. rewrite Hl. cbn [res_bind lk set_lk].
  eexists. split; [done|]. by repeat split.
Qed.

Section inode.
Context {S : Type} `{!Store S, !StoreSpec S} (pid : Z) (fuel : nat).
Implicit Types (s : fs S) (P : gset Z) (h : gset nat).

(** Inode [i] on the disk, as the kernel sees the disk. *)
Definition disk_inode s (i : Z) : dinode := get_dinode (dinode_off i) (blks s (IBLOCK i (sb s))).

(** The references: for a slot in use, its inode and their number. *)
Definition refs s (j : nat) : option (Z * Z) :=
  if 0 <? ref (ino j s) then Some (inum (ino j s), ref (ino j s)) else None.

Definition add_ref (j : nat) (i : Z) (r : nat → option (Z * Z)) (k : nat) : option (Z * Z) :=
  if decide (k = j) then Some (i, 1 + from_option snd 0 (r j)) else r k.
Definition drop_ref (j : nat) (r : nat → option (Z * Z)) (k : nat) : option (Z * Z) :=
  if decide (k = j) then match r j with Some (i, n) => if 1 <? n then Some (i, n - 1) else None | None => None end else r k.

(** The table when the inodes in the slots [h] are locked, by [pid], and no others. *)
Record cache_ok s h : Prop := {
  ic_lock : itable_lock s = false;
  ic_len : length (inodes s) = NINODE;
  ic_ref : ∀ j, 0 ≤ ref (ino j s);
  ic_dev : ∀ j, 0 < ref (ino j s) → idev (ino j s) = ROOTDEV;
  ic_inj : ∀ i j, 0 < ref (ino i s) → 0 < ref (ino j s) → inum (ino i s) = inum (ino j s) → i = j;
  ic_lk : ∀ j, if decide (j ∈ h) then lock_held pid (ilk (ino j s)) else lock_free (ilk (ino j s));
  ic_data : ∀ j, 0 < ref (ino j s) → ivalid (ino j s) = true → idata (ino j s) = disk_inode s (inum (ino j s));
  ic_held : ∀ j, j ∈ h → 0 < ref (ino j s);
}.

(** The disk as the kernel sees it is the same. *)
Record looks s s' : Prop := {
  lo_sb : sb s' = sb s;
  lo_blks : ∀ c, blks s' c = blks s c;
  lo_dur : ∀ c, durable (store s') c = durable (store s) c;
}.

Lemma looks_refl s : looks s s.
Proof. by constructor. Qed.
Lemma looks_trans s1 s2 s3 : looks s1 s2 → looks s2 s3 → looks s1 s3.
Proof. intros [A1 B1 C1] [A2 B2 C2]. constructor; intros; congruence. Qed.
Lemma looks_store s s' : sb s' = sb s → store s' = store s → looks s s'.
Proof. intros E1 E2. constructor; [done| |]; intros c; [unfold blks|]; by rewrite E2. Qed.
Lemma unseen_looks s s' : unseen s s' → looks s s'.
Proof. intros [M B D]. constructor; [by rewrite M|done|done]. Qed.
Lemma looks_inode s s' i : looks s s' → disk_inode s' i = disk_inode s i.
Proof. intros [A B C]. unfold disk_inode. by rewrite A, B. Qed.

Lemma refs_in s j i n : refs s j = Some (i, n) → inum (ino j s) = i ∧ ref (ino j s) = n ∧ 0 < n.
Proof. unfold refs. destruct (Z.ltb_spec 0 (ref (ino j s))); [|done]. intros [= <- <-]. done. Qed.

Lemma ino_out s j : (length (inodes s) ≤ j)%nat → ino j s = inhabitant.
Proof. intros Hj. unfold ino. rewrite list_lookup_total_alt, lookup_ge_None_2 by done. done. Qed.

Lemma ref_slot s j : 0 < ref (ino j s) → (j < length (inodes s))%nat.
Proof. intros Hr. destruct (decide (j < length (inodes s))%nat); [done|]. rewrite ino_out in Hr by lia. done. Qed.

(** A change of one slot. *)
Lemma slot_changed s h h' j f :
  cache_ok s h → (j < length (inodes s))%nat → let s' := iupd j f s in let x := f (ino j s) in
  0 ≤ ref x → (0 < ref x → idev x = ROOTDEV ∧ (∀ k, k ≠ j → 0 < ref (ino k s) → inum (ino k s) ≠ inum x) ∧
    (ivalid x = true → idata x = disk_inode s (inum x))) →
  (∀ k, k ≠ j → k ∈ h' ↔ k ∈ h) → (if decide (j ∈ h') then lock_held pid (ilk x) else lock_free (ilk x)) →
  (j ∈ h' → 0 < ref x) → cache_ok s' h'.
Proof.
  intros [C1 C2 C3 C4 C5 C6 C7 C8] Hj s' x Hr Hx Hh Hl Hl'.
  assert (∀ k, ino k s' = if decide (k = j) then x else ino k s) as E.
  { intros k. destruct (decide (k = j)) as [->|Hk]; [by apply ino_iupd|by apply ino_iupd_ne]. }
  constructor; try done.
  - unfold s', iupd, set_inodes. cbn [inodes]. by rewrite length_alter.
  - intros k. rewrite E. by destruct (decide (k = j)).
  - intros k. rewrite E. destruct (decide (k = j)); [intros H'; by apply Hx|apply C4].
  - intros a b. rewrite !E. destruct (decide (a = j)) as [Ha|Ha], (decide (b = j)) as [Hb|Hb]; try congruence; intros Hra Hrb Hn.
    + destruct (Hx Hra) as (_ & H' & _). by destruct (H' b Hb Hrb).
    + destruct (Hx Hrb) as (_ & H' & _). by destruct (H' a Ha Hra).
    + by apply C5.
  - intros k. rewrite E. destruct (decide (k = j)) as [->|Hk]; [done|]. specialize (C6 k). specialize (Hh k Hk).
    destruct (decide (k ∈ h')), (decide (k ∈ h)); tauto.
  - intros k. rewrite E. destruct (decide (k = j)); [intros H'; by apply Hx|apply C7].
  - intros k Hk. rewrite E. destruct (decide (k = j)) as [->|Hne]; [auto|]. by apply C8, Hh.
Qed.

Lemma refs_iupd s j f k : (j < length (inodes s))%nat →
  refs (iupd j f s) k = if decide (k = j) then (if 0 <? ref (f (ino j s)) then Some (inum (f (ino j s)), ref (f (ino j s))) else None) else refs s k.
Proof.
  intros Hj. unfold refs. case_decide as Hk; [rewrite Hk; by rewrite ino_iupd|by rewrite ino_iupd_ne].
Qed.

Lemma cache_ok_store s s' h : cache_ok s h → looks s s' → itable_lock s' = itable_lock s → inodes s' = inodes s → cache_ok s' h.
Proof.
  intros [C1 C2 C3 C4 C5 C6 C7 C8] L E1 E2. assert (∀ j, ino j s' = ino j s) as E by (intros j; unfold ino; by rewrite E2).
  constructor; rewrite ?E1, ?E2; try done.
  - intros j. by rewrite E.
  - intros j. rewrite E. apply C4.
  - intros a b. rewrite !E. apply C5.
  - intros j. rewrite E. apply C6.
  - intros j. rewrite !E, (looks_inode _ _ _ L). apply C7.
  - intros j. rewrite E. apply C8.
Qed.

(** A change of the disk that is not to the inodes in the table. *)
Lemma cache_disk s s' h :
  cache_ok s h → itable_lock s' = itable_lock s → inodes s' = inodes s →
  (∀ j, 0 < ref (ino j s) → disk_inode s' (inum (ino j s)) = disk_inode s (inum (ino j s))) → cache_ok s' h.
Proof.
  intros [C1 C2 C3 C4 C5 C6 C7 C8] E1 E2 Ed. assert (∀ j, ino j s' = ino j s) as E by (intros j; unfold ino; by rewrite E2).
  constructor; rewrite ?E1, ?E2; try done.
  - intros j. by rewrite E.
  - intros j. rewrite E. apply C4.
  - intros a b. rewrite !E. apply C5.
  - intros j. rewrite E. apply C6.
  - intros j. rewrite !E. intros Hj. rewrite Ed by done. by apply C7.
  - intros j. rewrite E. apply C8.
Qed.

(** A change of one inode, in memory and on the disk. *)
Lemma cache_after s s' h ip i n x :
  cache_ok s h → refs s ip = Some (i, n) → itable_lock s' = itable_lock s → length (inodes s') = length (inodes s) →
  (∀ j, j ≠ ip → ino j s' = ino j s) → ino ip s' = set_idata x (ino ip s) → x = disk_inode s' i →
  (∀ j, 0 < ref (ino j s) → inum (ino j s) ≠ i → disk_inode s' (inum (ino j s)) = disk_inode s (inum (ino j s))) →
  cache_ok s' h ∧ ∀ k, refs s' k = refs s k.
Proof.
  intros [C1 C2 C3 C4 C5 C6 C7 C8] (Hi & Hn & Hp)%refs_in Et El Eo Ei Ex Ed.
  assert (∀ j, ref (ino j s') = ref (ino j s) ∧ inum (ino j s') = inum (ino j s) ∧ idev (ino j s') = idev (ino j s) ∧ ilk (ino j s') = ilk (ino j s)) as Hall
    by (intros j; destruct (decide (j = ip)) as [-> | Hj]; [by rewrite Ei|by rewrite Eo]).
  split; [constructor|].
  - by rewrite Et.
  - by rewrite El.
  - intros j. destruct (Hall j) as (-> & _). done.
  - intros j. destruct (Hall j) as (-> & _ & -> & _). apply C4.
  - intros k j. destruct (Hall j) as (-> & -> & _), (Hall k) as (-> & -> & _). apply C5.
  - intros j. destruct (Hall j) as (_ & _ & _ & ->). apply C6.
  - intros j Hj Hv. destruct (decide (j = ip)) as [-> | Hne]; [rewrite Ei; cbn [idata inum set_idata]; by rewrite Hi|].
    rewrite Eo in * by done. rewrite C7 by done. rewrite Ed; [done|done|]. rewrite <- Hi. intros E. apply Hne, C5; (done || lia).
  - intros j. destruct (Hall j) as (-> & _). apply C8.
  - intros k. unfold refs. by destruct (Hall k) as (-> & -> & _).
Qed.

(** * iget *)

(** Slot [j] refers to inode [i]. *)
Definition names s (i : Z) (j : nat) : Prop := 0 < ref (ino j s) ∧ idev (ino j s) = ROOTDEV ∧ inum (ino j s) = i.

Lemma iget_loop s i : length (inodes s) = NINODE → ∀ n k empty, (k + n = NINODE)%nat →
  (∀ j, (j < k)%nat → ¬ names s i j) → (∀ e, empty = Some e → (e < k)%nat ∧ ref (ino e s) = 0) →
  (empty = None → ∀ j, (j < k)%nat → ref (ino j s) ≠ 0) →
  ∃ r, loop (Datatypes.S n) (iget_body ROOTDEV i) (k, empty) s = Ret r s ∧
    match r with
    | inl j => names s i j
    | inr e => (∀ j, (j < NINODE)%nat → ¬ names s i j) ∧
        match e with
        | Some e => (e < NINODE)%nat ∧ ref (ino e s) = 0
        | None => ∀ j, (j < NINODE)%nat → ref (ino j s) ≠ 0
        end
    end.
Proof.
  intros Hlen. induction n as [|n IH]; intros k empty Hk Hno He Hn.
  - assert (k = NINODE) as -> by lia. eexists. split; [apply loop_done; unfold iget_body; msimpl; by rewrite bool_decide_false by lia|].
    cbn. split; [done|]. destruct empty as [e|]; [by apply He|by apply Hn].
  - destruct (decide (names s i k)) as [Hm|Hm].
    { pose proof Hm as (H1 & H2 & H3). exists (inl k). split; [|done]. apply loop_done. unfold iget_body. msimpl.
      rewrite bool_decide_true by lia. by rewrite (proj2 (Z.ltb_lt _ _)), (proj2 (Z.eqb_eq _ _)), (proj2 (Z.eqb_eq _ _)) by done. }
    set (e' := if decide (empty = None ∧ ref (ino k s) = 0) then Some k else empty).
    destruct (IH (Datatypes.S k) e' ltac:(lia)) as (r & E & Hr).
    + intros j Hj. destruct (decide (j = k)) as [->|]; [done|]. apply Hno. lia.
    + intros e. unfold e'. case_decide as Hd; [intros [= <-]; split; [lia|by destruct Hd]|]. intros ->. destruct (He e eq_refl). split; [lia|done].
    + unfold e'. case_decide as Hd; [done|]. intros -> j Hj. destruct (decide (j = k)) as [->|]; [tauto|]. apply Hn; [done|lia].
    + exists r. split; [|done]. erewrite loop_next; [exact E|]. unfold iget_body. msimpl. rewrite bool_decide_true by lia.
      destruct (Z.ltb_spec 0 (ref (ino k s))); [|done]. destruct (Z.eqb_spec (idev (ino k s)) ROOTDEV); [|done].
      destruct (Z.eqb_spec (inum (ino k s)) i); [|done]. by destruct Hm.
Qed.

Lemma iget_ok s h i :
  cache_ok s h → (∃ j, (j < NINODE)%nat ∧ refs s j = None) →
  ∃ ip s', iget ROOTDEV i s = Ret ip s' ∧ store s' = store s ∧ sb s' = sb s ∧ cache_ok s' h ∧ (∀ k, 0 < ref (ino k s) → ivalid (ino k s') = ivalid (ino k s)) ∧
    (∀ k, refs s' k = add_ref ip i (refs s) k) ∧ (∀ j n, refs s ip = Some (j, n) → j = i).
Proof.
  intros C (e & He & Hfree). pose proof C as [C1 C2 C3 C4 C5 C6 C7 C8]. unfold iget, acquire_it, release_it. msimpl. rewrite C1. cbn [res_bind].
  set (s1 := set_itable_lock true s).
  destruct (iget_loop s1 i C2 NINODE 0 None) as (r & E & Hr); [done|intros; lia|done|intros; lia|]. rewrite E. cbn [res_bind].
  change (ino) with (@ino S) in *. destruct r as [j|[j|]].
  - destruct Hr as (H1 & H2 & H3). change (ino j s1) with (ino j s) in *. pose proof (ref_slot s j H1) as Hj. cbn [res_bind itable_lock iupd set_inodes].
    set (f := λ x : inode, set_ref (ref x + 1) x). exists j, (iupd j f s). split; [unfold iupd, set_inodes; by rewrite C1|]. do 2 (split; [done|]). split; [|split; [|split]].
    + apply (slot_changed s h h j f C Hj); cbn; [lia| |done|apply C6|lia]. intros _. split; [done|]. split; [|by apply C7].
      intros k Hk Hrk Hn. by apply Hk, C5.
    + intros k Hk. destruct (decide (k = j)) as [->|]; [by rewrite ino_iupd|by rewrite ino_iupd_ne].
    + intros k. rewrite refs_iupd by done. unfold add_ref. case_decide; [|done]. cbn. rewrite (proj2 (Z.ltb_lt _ _)) by lia.
      unfold refs. rewrite (proj2 (Z.ltb_lt _ _)) by lia. cbn. rewrite H3. do 2 f_equal. lia.
    + intros i' n Hi'%refs_in. destruct Hi' as (<- & _). done.
  - destruct Hr as (Hno & Hj & Hz). change (ino j s1) with (ino j s) in *. assert (j < length (inodes s))%nat as Hj' by lia. cbn [res_bind itable_lock iupd set_inodes].
    set (f := λ x : inode, Inode ROOTDEV i 1 (ilk x) false (idata x)). exists j, (iupd j f s). split; [unfold iupd, set_inodes; by rewrite C1|]. do 2 (split; [done|]). split; [|split; [|split]].
    + apply (slot_changed s h h j f C Hj'); cbn; [lia| |done|apply C6|lia]. intros _. split; [done|]. split; [|done].
      intros k Hk Hrk Hn. apply (Hno k); [rewrite <- C2; by apply ref_slot|]. split; [done|]. split; [by apply C4|done].
    + intros k Hk. rewrite ino_iupd_ne; [done|]. intros ->. lia.
    + intros k. rewrite refs_iupd by done. unfold add_ref. case_decide; [|done]. cbn. unfold refs. by rewrite Hz.
    + intros i' n Hi'%refs_in. destruct Hi' as (_ & Hn & Hp). rewrite Hz in Hn. lia.
  - exfalso. destruct Hr as (_ & Hr). apply (Hr e He). change (ino e s1) with (ino e s).
    unfold refs in Hfree. destruct (Z.ltb_spec 0 (ref (ino e s))); [done|]. specialize (C3 e). lia.
Qed.

Lemma idup_ok s h j i n :
  cache_ok s h → refs s j = Some (i, n) →
  ∃ s', idup j s = Ret j s' ∧ store s' = store s ∧ sb s' = sb s ∧ cache_ok s' h ∧ (∀ k, refs s' k = add_ref j i (refs s) k).
Proof.
  intros C Hj. pose proof C as [C1 C2 C3 C4 C5 C6 C7 C8]. destruct (refs_in _ _ _ _ Hj) as (Hi & Hn & Hp). pose proof (ref_slot s j ltac:(lia)) as Hl.
  unfold idup, acquire_it, release_it. msimpl. rewrite C1. cbn [res_bind itable_lock iupd set_inodes set_itable_lock].
  set (f := λ x : inode, set_ref (ref x + 1) x). exists (iupd j f s). split; [unfold iupd, set_inodes; by rewrite C1|]. do 2 (split; [done|]). split.
  - apply (slot_changed s h h j f C Hl); cbn; [lia| |done|apply C6|lia]. intros _. split; [apply C4; lia|]. split; [|apply C7; lia].
    intros k Hk Hrk Hn'. apply Hk, C5; [done|lia|done].
  - intros k. rewrite refs_iupd by done. unfold add_ref. case_decide; [|done]. cbn. rewrite (proj2 (Z.ltb_lt _ _)) by lia.
    rewrite Hj. cbn. rewrite Hi, Hn. do 2 f_equal. lia.
Qed.

(** * Locking *)

Lemma in_ilk_ret {A} j (c : M sleeplock A) s a l : c (ilk (ino j s)) = Ret a l → in_ilk j c s = Ret a (iupd j (set_ilk l) s).
Proof. intros E. unfold in_ilk, zoom. by rewrite E. Qed.

Lemma refs_same s j f k : (j < length (inodes s))%nat → ref (f (ino j s)) = ref (ino j s) → inum (f (ino j s)) = inum (ino j s) →
  refs (iupd j f s) k = refs s k.
Proof. intros Hj E1 E2. rewrite refs_iupd, E1, E2 by done. by case_decide as Hk; [rewrite Hk|]. Qed.

(** A change of a slot that is not to its reference. *)
Lemma slot_touched s h h' j f i n :
  cache_ok s h → refs s j = Some (i, n) → let x := f (ino j s) in
  ref x = ref (ino j s) → inum x = inum (ino j s) → idev x = idev (ino j s) → (ivalid x = true → idata x = disk_inode s i) →
  (∀ k, k ≠ j → k ∈ h' ↔ k ∈ h) → (if decide (j ∈ h') then lock_held pid (ilk x) else lock_free (ilk x)) →
  cache_ok (iupd j f s) h' ∧ looks s (iupd j f s) ∧ ∀ k, refs (iupd j f s) k = refs s k.
Proof.
  intros C Hj x Er En Ed Hv Hh Hl. destruct (refs_in _ _ _ _ Hj) as (Hi & Hn & Hp). pose proof (ref_slot s j ltac:(lia)) as Hlen. split; [|split].
  - apply (slot_changed s h h' j f C Hlen); [fold x; lia| |done|done|fold x; lia]. intros _. fold x. rewrite En, Ed, Hi. split; [apply C; lia|]. split; [|done].
    intros k Hk Hr E. apply Hk, (ic_inj _ _ C); [done|lia|congruence].
  - by apply looks_store.
  - intros k. by apply refs_same.
Qed.

Lemma slot_unseen s s' h : cache_ok s h → unseen s s' → cache_ok s' h ∧ looks s s' ∧ ∀ k, refs s' k = refs s k.
Proof.
  intros C U. pose proof (unseen_looks _ _ U) as L. destruct U as [M _ _]. split; [|split; [done|]].
  - apply (cache_ok_store s s' h C L); by rewrite M.
  - intros k. by rewrite M.
Qed.

(** The locked inode is in memory as it is on the disk. *)
Definition loaded s j (i : Z) : Prop := idev (ino j s) = ROOTDEV ∧ inum (ino j s) = i ∧ idata (ino j s) = disk_inode s i ∧ ivalid (ino j s) = true.

Lemma loaded_intro s h j i n : cache_ok s h → refs s j = Some (i, n) → ivalid (ino j s) = true → loaded s j i.
Proof.
  intros C (Hi & Hn & Hp)%refs_in Hv. split; [apply C; lia|]. split; [done|]. split; [|done]. rewrite <- Hi. apply C; [lia|done].
Qed.

(** Inodes that are in memory stay there. *)
Definition stays s s' : Prop := ∀ k, ivalid (ino k s) = true → ivalid (ino k s') = true.

Lemma stays_trans s1 s2 s3 : stays s1 s2 → stays s2 s3 → stays s1 s3.
Proof. intros H1 H2 k Hk. by apply H2, H1. Qed.
Lemma stays_others s s' j : (∀ k, k ≠ j → ino k s' = ino k s) → ivalid (ino j s') = true → stays s s'.
Proof. intros Ho Hj k Hk. destruct (decide (k = j)) as [->|Hne]; [done|by rewrite Ho]. Qed.
Lemma stays_touched s j f : (j < length (inodes s))%nat → (ivalid (ino j s) = true → ivalid (f (ino j s)) = true) → stays s (iupd j f s).
Proof. intros Hl Hf k Hk. destruct (decide (k = j)) as [->|Hne]; [rewrite ino_iupd by done; auto|by rewrite ino_iupd_ne]. Qed.
Lemma stays_unseen s s' : unseen s s' → stays s s'.
Proof. intros U k Hk. by rewrite (un_mem _ _ U). Qed.

Lemma loaded_unseen s s' j i : unseen s s' → loaded s j i → loaded s' j i.
Proof.
  intros U (H1 & H2 & H3 & H4). pose proof (looks_inode _ _ i (unseen_looks _ _ U)) as E. destruct U as [M _ _].
  assert (ino j s' = ino j s) as Ei by (by rewrite M). unfold loaded. by rewrite Ei, E.
Qed.

(** [ilock] once it has the lock, when the inode is not in memory. *)
Definition iload (j : nat) : M (fs S) unit :=
  s ← get;
  bp ← on_store (bread (idev (ino j s)) (IBLOCK (inum (ino j s)) (sb s)));
  modify (λ s, iupd j (set_idata (get_dinode (dinode_off (inum (ino j s))) (data bp s))) s);;
  on_store (brelse bp);;
  modify (iupd j (set_ivalid true));;
  s ← get;
  when (d_type (idata (ino j s)) =? 0) (panic "ilock: no type").

Lemma iload_ok s P h j i n :
  cache_ok s h → refs s j = Some (i, n) → ivalid (ino j s) = false →
  rdy s P ∅ → (size P < NBUF)%nat → usable (IBLOCK i (sb s)) → d_type (disk_inode s i) ≠ 0 →
  ∃ s', iload j s = Ret tt s' ∧ rdy s' P ∅ ∧ cache_ok s' h ∧ looks s s' ∧ (∀ k, refs s' k = refs s k) ∧ loaded s' j i ∧ stays s s'.
Proof.
  intros C Hj Ev R Hsz Hu Ht. destruct (refs_in _ _ _ _ Hj) as (Hi & Hn & Hp). pose proof (ic_dev _ _ C j ltac:(lia)) as Hd.
  unfold iload. msimpl. rewrite Hd, Hi.
  destruct (fread s P ∅ (IBLOCK i (sb s)) R Hu) as (bp & s2 & E2 & R2 & H2 & B2 & K2 & D2); [set_solver|by rewrite union_empty_r_L|].
  rewrite E2. cbn [res_bind]. pose proof (kept_unseen _ _ _ K2 B2) as U2. destruct (slot_unseen s s2 h C U2) as (C2 & L2 & F2).
  assert (ino j s2 = ino j s) as Ei2 by (by rewrite (un_mem _ _ U2)). rewrite Ei2, Hi, D2.
  change (get_dinode (dinode_off i) (blks s (IBLOCK i (sb s)))) with (disk_inode s i). set (f := set_idata (disk_inode s i)).
  assert (refs s2 j = Some (i, n)) as Hj2 by (by rewrite F2).
  destruct (slot_touched s2 h h j f i n C2 Hj2) as (C3 & L3 & F3); try done.
  { cbn. by rewrite Ei2, Ev. }
  { exact (ic_lk _ _ C2 j). }
  set (s3 := iupd j f s2) in *.
  destruct (frelse s3 P ({[IBLOCK i (sb s)]} ∪ ∅) bp (IBLOCK i (sb s)) R2 ltac:(set_solver) H2) as (s4 & E4 & R4 & B4 & K4).
  rewrite E4. cbn [res_bind]. pose proof (kept_unseen _ _ _ K4 B4) as U4. destruct (slot_unseen s3 s4 h C3 U4) as (C4 & L4 & F4).
  assert (ino j s4 = f (ino j s)) as Ei4.
  { transitivity (ino j s3); [by rewrite (un_mem _ _ U4)|]. unfold s3. rewrite ino_iupd; [by rewrite Ei2|]. apply ref_slot. rewrite Ei2. lia. }
  assert (refs s4 j = Some (i, n)) as Hj4 by (by rewrite F4, F3).
  assert (looks s s4) as L by (repeat (eapply looks_trans; [eassumption|]); apply looks_refl).
  destruct (slot_touched s4 h h j (set_ivalid true) i n C4 Hj4) as (C5 & L5 & F5); try done.
  { intros _. rewrite (looks_inode s s4 i L), Ei4. done. }
  { exact (ic_lk _ _ C4 j). }
  set (s5 := iupd j (set_ivalid true) s4) in *.
  assert (ino j s5 = set_ivalid true (f (ino j s))) as Ei5 by (rewrite <- Ei4; apply ino_iupd, ref_slot; rewrite Ei4; cbn; lia).
  rewrite Ei5. cbn [idata set_ivalid f set_idata]. rewrite (proj2 (Z.eqb_neq _ _)) by done.
  exists s5. split; [done|]. split; [|split; [done|split; [by eapply looks_trans|split]]].
  - eapply rdy_ext; [reflexivity| |exact R4]. set_solver.
  - intros k. by rewrite F5, F4, F3, F2.
  - split; [unfold loaded; rewrite Ei5, (looks_inode s s5 i) by (by eapply looks_trans); done|]. apply (stays_others s s5 j); [|by rewrite Ei5].
    intros k Hk. unfold s5. rewrite ino_iupd_ne by done. transitivity (ino k s3); [by rewrite (un_mem _ _ U4)|]. unfold s3. rewrite ino_iupd_ne by done. by rewrite (un_mem _ _ U2).
Qed.

Lemma ilock_ok s P h j i n :
  (0 < fuel)%nat → cache_ok s h → j ∉ h → refs s j = Some (i, n) → rdy s P ∅ → (size P < NBUF)%nat → usable (IBLOCK i (sb s)) → d_type (disk_inode s i) ≠ 0 →
  ∃ s', ilock pid fuel j s = Ret tt s' ∧ rdy s' P ∅ ∧ cache_ok s' ({[j]} ∪ h) ∧ looks s s' ∧ (∀ k, refs s' k = refs s k) ∧ loaded s' j i ∧ stays s s'.
Proof.
  intros Hfuel C Hh Hj R Hsz Hu Ht. destruct (refs_in _ _ _ _ Hj) as (Hi & Hn & Hp). pose proof (ref_slot s j ltac:(lia)) as Hl.
  pose proof (ic_lk _ _ C j) as Hlk. rewrite decide_False in Hlk by done. destruct (acquiresleep_takes (ilk_id j) pid fuel _ Hfuel Hlk) as (l & El & Hheld).
  unfold ilock. msimpl. rewrite (proj2 (Z.ltb_ge _ _)) by lia. rewrite (in_ilk_ret _ _ _ _ _ El). cbn [res_bind].
  set (s1 := iupd j (set_ilk l) s). assert (ino j s1 = set_ilk l (ino j s)) as E1 by by apply ino_iupd.
  destruct (slot_touched s h ({[j]} ∪ h) j (set_ilk l) i n C Hj) as (C1 & L1 & F1); try done.
  { intros Hv. rewrite <- Hi. apply C; [lia|done]. }
  { set_solver. }
  { by rewrite decide_True by set_solver. }
  fold s1 in C1, L1, F1. assert (stays s s1) as St1 by by apply stays_touched. destruct (ivalid (ino j s1)) eqn:Ev.
  - exists s1. do 5 (split; [done|]). split; [|done]. split; [rewrite E1; apply (ic_dev _ _ C); lia|]. split; [by rewrite E1|]. split; [|done].
    rewrite (ic_data _ _ C1 j); [by rewrite E1, <- Hi|rewrite E1; cbn; lia|done].
  - destruct (iload_ok s1 P _ j i n C1) as (s' & E & R' & C' & L' & F' & Ld & St); try done; [by rewrite F1|].
    exists s'. split; [exact E|]. do 2 (split; [done|]). split; [by eapply looks_trans|]. split; [intros k; by rewrite F', F1|]. split; [done|by apply (stays_trans s s1)].
Qed.

Lemma iunlock_ok s P h j i n :
  cache_ok s h → j ∈ h → refs s j = Some (i, n) → loaded s j i → rdy s P ∅ →
  ∃ s', iunlock pid j s = Ret tt s' ∧ rdy s' P ∅ ∧ cache_ok s' (h ∖ {[j]}) ∧ looks s s' ∧ (∀ k, refs s' k = refs s k) ∧ loaded s' j i ∧ stays s s'.
Proof.
  intros C Hh Hj Ld R. destruct (refs_in _ _ _ _ Hj) as (Hi & Hn & Hp). pose proof (ref_slot s j ltac:(lia)) as Hl.
  pose proof (ic_lk _ _ C j) as Hlk. rewrite decide_True in Hlk by done. unfold iunlock. msimpl.
  rewrite (in_ilk_ret _ _ _ _ _ (holdingsleep_held _ _ Hlk)). cbn [res_bind negb orb].
  assert (iupd j (set_ilk (ilk (ino j s))) s = s) as Es.
  { unfold iupd, set_inodes. assert (alter (set_ilk (ilk (ino j s))) j (inodes s) = inodes s) as ->; [|by destruct s].
    apply list_eq. intros k. destruct (decide (k = j)) as [->|Hk]; [|by rewrite list_lookup_alter_ne].
    rewrite list_lookup_alter_eq. unfold ino. destruct (lookup_lt_is_Some_2 _ _ Hl) as [x Hx]. rewrite (list_lookup_total_correct _ _ _ Hx), Hx. by destruct x. }
  rewrite Es, (proj2 (Z.ltb_ge _ _)) by lia.
  destruct (releasesleep_held (ilk_id j) pid _ Hlk) as (l & El & Hfree). rewrite (in_ilk_ret _ _ _ _ _ El).
  destruct (slot_touched s h (h ∖ {[j]}) j (set_ilk l) i n C Hj) as (C1 & L1 & R1); try done.
  { intros _. by apply Ld. }
  { set_solver. }
  { by rewrite decide_False by set_solver. }
  exists (iupd j (set_ilk l) s). do 5 (split; [done|]). split; [|by apply stays_touched].
  unfold loaded. rewrite ino_iupd by done. rewrite (looks_inode _ _ i L1). exact Ld.
Qed.

(** * iput, when the inode stays on the disk *)

Lemma iput_ok s P h j i n :
  cache_ok s h → (j ∈ h → 1 < n) → refs s j = Some (i, n) → 1 < n ∨ d_nlink (disk_inode s i) ≠ 0 → rdy s P ∅ →
  ∃ s', iput pid fuel j s = Ret tt s' ∧ rdy s' P ∅ ∧ cache_ok s' h ∧ looks s s' ∧ (∀ k, ivalid (ino k s') = ivalid (ino k s)) ∧
    ∀ k, refs s' k = drop_ref j (refs s) k.
Proof.
  intros C Hh Hj Hk R. pose proof C as [C1 C2 C3 C4 C5 C6 C7 C8]. destruct (refs_in _ _ _ _ Hj) as (Hi & Hn & Hp). pose proof (ref_slot s j ltac:(lia)) as Hl.
  unfold iput, acquire_it, release_it. msimpl. rewrite C1. cbn [res_bind]. change (ino j (set_itable_lock true s)) with (ino j s).
  assert ((ref (ino j s) =? 1) && ivalid (ino j s) && (d_nlink (idata (ino j s)) =? 0) = false) as ->.
  { destruct (Z.eqb_spec (ref (ino j s)) 1) as [E|E]; [|done]. destruct (ivalid (ino j s)) eqn:Ev; [|done].
    apply Z.eqb_neq. rewrite C7, Hi by (done || lia). destruct Hk; [lia|done]. }
  cbn [res_bind itable_lock iupd set_inodes set_itable_lock]. set (f := λ x : inode, set_ref (ref x - 1) x). exists (iupd j f s).
  split; [unfold iupd, set_inodes; by rewrite C1|]. split; [done|]. split; [|split; [by apply looks_store|split]].
  - apply (slot_changed s h h j f C Hl); cbn; [lia| |done|apply C6|intros H'%Hh; lia]. intros _. split; [apply C4; lia|]. split; [|apply C7; lia].
    intros k Hkj Hr E. apply Hkj, C5; [done|lia|done].
  - intros k. destruct (decide (k = j)) as [->|Hkj]; [by rewrite ino_iupd|by rewrite ino_iupd_ne].
  - intros k. rewrite refs_iupd by done. unfold drop_ref. case_decide; [|done]. cbn. rewrite Hj, Hi, Hn.
    destruct (Z.ltb_spec 0 (n - 1)), (Z.ltb_spec 1 n); (done || lia).
Qed.

Lemma iunlockput_ok s P h j i n :
  cache_ok s h → j ∈ h → refs s j = Some (i, n) → loaded s j i → 1 < n ∨ d_nlink (disk_inode s i) ≠ 0 → rdy s P ∅ →
  ∃ s', iunlockput pid fuel j s = Ret tt s' ∧ rdy s' P ∅ ∧ cache_ok s' (h ∖ {[j]}) ∧ looks s s' ∧ (∀ k, refs s' k = drop_ref j (refs s) k) ∧ stays s s'.
Proof.
  intros C Hh Hj Ld Hk R. destruct (iunlock_ok s P h j i n C Hh Hj Ld R) as (s1 & E1 & R1 & C1 & L1 & F1 & _ & St1).
  destruct (iput_ok s1 P _ j i n C1) as (s2 & E2 & R2 & C2 & L2 & Hv2 & F2); [set_solver|by rewrite F1| |done|].
  { by rewrite (looks_inode _ _ i L1). }
  exists s2. split; [unfold iunlockput; by rewrite (bind_ret_eq _ _ _ _ _ E1)|]. do 2 (split; [done|]). split; [by eapply looks_trans|].
  split; [intros k; rewrite F2; unfold drop_ref; by rewrite !F1|]. intros k Hk'. rewrite Hv2. by apply St1.
Qed.
End inode.
