(* ===== verification/FsDir.v ===== *)
(** Directories: [dirlookup] and [dirlink] of kernel/fs.c on the contents of a directory as
    a sequence of entries. *)

From S2P Require Import Prelude Bytes Sleeplock Bio Store Fs Dir FsBlock FsAlloc Dinode FsFile FsRead FsWrite FsFileProps FsInode.

(** * Names *)

(** A name in a field of [n] bytes: up to the first NUL. *)
Fixpoint cname (n : nat) (l : list Z) : list Z :=
  match n with
  | O => []
  | S n => if hd 0 l =? 0 then [] else hd 0 l :: cname n (tl l)
  end.

Lemma strncmp_cname n p q : strncmp n p q = 0 ↔ cname n p = cname n q.
Proof.
  revert p q. induction n as [|n IH]; intros p q; cbn; [done|].
  destruct (Z.eqb_spec (hd 0 p) 0) as [Ep|Ep]; cbn [negb andb].
  - rewrite Ep. destruct (Z.eqb_spec (hd 0 q) 0); [split; [done|lia]|]. split; [lia|done].
  - destruct (Z.eqb_spec (hd 0 p) (hd 0 q)) as [Eq|Eq].
    + rewrite <- Eq. rewrite (proj2 (Z.eqb_neq _ _)), IH by done. split; [by intros ->|by intros [=]].
    + split; [lia|]. destruct (Z.eqb_spec (hd 0 q) 0); [done|]. by intros [=].
Qed.

Lemma cname_strncpy n t : cname n (strncpy n t) = cname n t.
Proof.
  revert t. induction n as [|n IH]; intros t; [done|]. cbn [strncpy cname]. destruct (Z.eqb_spec (hd 0 t) 0); [done|].
  cbn [hd tl]. rewrite (proj2 (Z.eqb_neq _ _)) by done. by rewrite IH.
Qed.

Lemma length_strncpy n t : length (strncpy n t) = n.
Proof. revert t. induction n as [|n IH]; intros t; [done|]. cbn [strncpy]. destruct (hd 0 t =? 0); [by rewrite length_replicate|]. cbn. by rewrite IH. Qed.

Lemma bytes_strncpy n t : bytes t → bytes (strncpy n t).
Proof.
  revert t. induction n as [|n IH]; intros t Ht; [constructor|]. cbn [strncpy]. destruct (hd 0 t =? 0); [apply Forall_replicate; lia|].
  constructor; [destruct Ht; [cbn; lia|done]|]. apply IH. destruct Ht; [constructor|done].
Qed.

Lemma cname_id n l : (length l ≤ n)%nat → Forall (λ c, c ≠ 0) l → cname n l = l.
Proof.
  revert l. induction n as [|n IH]; intros [|c l] Hl Hz; cbn in *; try done; [lia|]. inversion Hz; subst.
  rewrite (proj2 (Z.eqb_neq _ _)) by done. f_equal. apply IH; [lia|done].
Qed.

(** * Entries *)

(** Entry [k] of a directory: inode number and name. *)
Definition dent (c : list Z) (k : nat) : Z * list Z := (get16 (16 * k) c, cname 14 (sub (16 * k + 2) 14 c)).
Definition dents (c : list Z) : list (Z * list Z) := dent c <$> seq 0 (length c / 16).

Definition dmatch (name : list Z) (e : Z * list Z) : Prop := e.1 ≠ 0 ∧ e.2 = cname 14 name.
#[export] Instance dmatch_dec name e : Decision (dmatch name e) := ltac:(unfold dmatch; apply _).

(** The first entry with the name. *)
Definition dfind (name : list Z) (c : list Z) : option (nat * (Z * list Z)) := list_find (dmatch name) (dents c).

Lemma lookup_dents c k : (k < length c / 16)%nat → dents c !! k = Some (dent c k).
Proof. intros Hk. unfold dents. rewrite list_lookup_fmap, lookup_seq_lt by done. done. Qed.

Lemma length_dents c : length (dents c) = (length c / 16)%nat.
Proof. unfold dents. by rewrite length_fmap, length_seq. Qed.

Lemma dent_bytes c k : (16 * k + 16 ≤ length c)%nat →
  dent c k = (get16 0 (sub (16 * k) 16 c), cname 14 (drop 2 (sub (16 * k) 16 c))).
Proof.
  intros Hk. unfold dent, get16, sub. f_equal.
  - by rewrite drop_0, take_take.
  - f_equal. rewrite skipn_firstn_comm, drop_drop. done.
Qed.

Lemma dent_app_l c d k : (16 * k + 16 ≤ length c)%nat → dent (c ++ d) k = dent c k.
Proof.
  intros Hk. unfold dent, get16, sub. rewrite !drop_app_le by lia. by rewrite !take_app_le by (rewrite length_drop; lia).
Qed.

Lemma dent_app_r c d q k : (length c = 16 * q)%nat → dent (c ++ d) (q + k) = dent d k.
Proof.
  intros Hc. unfold dent, get16, sub. rewrite !drop_app_ge, Hc by lia.
  replace (16 * (q + k) - 16 * q)%nat with (16 * k)%nat by lia. by replace (16 * (q + k) + 2 - 16 * q)%nat with (16 * k + 2)%nat by lia.
Qed.

Lemma dents_app c d : (length c mod 16 = 0)%nat → dents (c ++ d) = dents c ++ dents d.
Proof.
  intros Hm. pose proof (Nat.div_mod_eq (length c) 16) as Hc. rewrite Hm, Nat.add_0_r in Hc. remember (length c / 16)%nat as q eqn:Eq. clear Eq.
  unfold dents. replace (length c / 16)%nat with q by (rewrite Hc, (Nat.mul_comm 16), Nat.div_mul by lia; done).
  rewrite length_app, Hc, (Nat.mul_comm 16), Nat.div_add_l by lia. generalize (length d / 16)%nat. intros m. apply list_eq. intros k. rewrite lookup_app, !list_lookup_fmap.
  destruct (decide (k < q)%nat) as [Hk|Hk].
  - rewrite (lookup_seq_lt 0 q), (lookup_seq_lt 0 (q + _)) by lia. cbn. by rewrite dent_app_l by lia.
  - rewrite (lookup_seq_ge 0 q) by lia. cbn. rewrite length_fmap, length_seq.
    destruct (decide (k < q + m)%nat); [rewrite (lookup_seq_lt 0 (q + m)), (lookup_seq_lt 0 m) by lia|by rewrite (lookup_seq_ge 0 (q + m)), (lookup_seq_ge 0 m) by lia].
    cbn. f_equal. rewrite <- (dent_app_r c d q) by done. f_equal. lia.
Qed.

(** The bytes of an entry. *)
Lemma dents_entry n t : 0 ≤ n < 65536 → dents (le_enc 2 (u16 n) ++ strncpy (Z.to_nat DIRSIZ) t) = [(n, cname 14 t)].
Proof.
  intros Hn. unfold dents. rewrite length_app, length_le_enc, length_strncpy. change ((2 + Z.to_nat DIRSIZ) / 16)%nat with 1%nat.
  cbn [seq fmap list_fmap]. unfold dent, get16, sub. f_equal. f_equal.
  - rewrite drop_0, take_app_length' by done. rewrite le_dec_enc. unfold u16. rewrite Z.mod_mod by lia. by apply Z.mod_small.
  - rewrite drop_app_length' by done. rewrite take_ge by (rewrite length_strncpy; done). apply cname_strncpy.
Qed.

Section dir.
Context {S : Type} `{!Store S, !StoreSpec S} (pid : Z) (fuel : nat) (dp : nat).
Implicit Types (s : fs S) (P : gset Z).

Lemma sound_unseen s s' : unseen s s' → sound dp s → sound dp s' ∧ contents dp s' = contents dp s.
Proof.
  intros U [F A D Dk]. assert (meta dp s' = meta dp s) as Em by (unfold meta; by rewrite (un_mem _ _ U)). split.
  - constructor; [by apply (unseen_file_ok dp s)|by apply (unseen_alloc_ok s)|by apply (dense_unseen dp s)|by rewrite Em].
  - unfold contents. by rewrite Em, (fbytes_unseen dp s s' _ _ U).
Qed.

(** Reading all of a file. *)
Lemma sound_read s P : sound dp s → rdy s P ∅ → (size P < NBUF)%nat →
  ∃ s', readi dp to_kernel 0 (MAXFILE * BSIZE) s = Ret (Z.of_nat (length (contents dp s)), contents dp s) s'.
Proof.
  intros [F A D Dk] R HP. destruct maxfile_val as (EM & _ & _ & EB). pose proof D as [Hs _].
  destruct (readi_ok dp s P to_kernel 0 (MAXFILE * BSIZE) F D R HP ltac:(lia) ltac:(rewrite EM, EB; lia)) as (r & s' & E & _ & _ & [->|(t & c & _ & _ & Hc)]); [|done].
  exists s'. rewrite E. f_equal. assert (readable dp s 0 (MAXFILE * BSIZE) = d_size (meta dp s)) as ->.
  { unfold readable. rewrite (proj2 (Z.ltb_ge _ _)), (proj2 (Z.leb_gt _ _)) by (rewrite EM, EB in *; lia). cbn [orb]. lia. }
  fold (contents dp s). rewrite length_contents. f_equal. lia.
Qed.

(** A directory: its size is a number of entries. *)
Record is_dir s : Prop := {
  di_sound : sound dp s;
  di_type : d_type (meta dp s) = T_DIR;
  di_size : d_size (meta dp s) mod DIRENT = 0;
}.

Lemma is_dir_unseen s s' : unseen s s' → is_dir s → is_dir s'.
Proof.
  intros U [H1 H2 H3]. assert (meta dp s' = meta dp s) as Em by (unfold meta; by rewrite (un_mem _ _ U)).
  constructor; rewrite ?Em; try done. by apply (sound_unseen s).
Qed.

(** Reading one entry. *)
Lemma entry_read s P k :
  is_dir s → rdy s P ∅ → (size P < NBUF)%nat → (k < length (contents dp s) / 16)%nat →
  ∃ s' de, readi dp to_kernel (DIRENT * Z.of_nat k) DIRENT s = Ret (DIRENT, de) s' ∧ rdy s' P ∅ ∧ unseen s s' ∧
    dent (contents dp s) k = (get16 0 de, cname 14 (drop 2 de)).
Proof.
  intros [Sd Ht Hsz] R Hp Hk. pose proof Sd as [F A [Hs _] D]. destruct maxfile_val as (EM & _ & _ & EB). rewrite EM, EB in Hs.
  change DIRENT with 16 in *. rewrite length_contents in Hk.
  assert (16 * k + 16 ≤ Z.to_nat (d_size (meta dp s)))%nat as Hb by (pose proof (Nat.Div0.mul_div_le (Z.to_nat (d_size (meta dp s))) 16); lia).
  destruct (readi_ok dp s P to_kernel (16 * Z.of_nat k) 16 F (sd_dense _ _ Sd) R Hp ltac:(lia) ltac:(lia)) as (r & s' & E & R' & U & [->|(t & c & _ & _ & Hc)]); [|done].
  assert (readable dp s (16 * Z.of_nat k) 16 = 16) as Er.
  { unfold readable. rewrite (proj2 (Z.ltb_ge _ _)), (proj2 (Z.leb_gt _ _)) by lia. cbn [orb]. lia. }
  rewrite Er, fbytes_contents in E by lia. exists s', (sub (16 * k) 16 (contents dp s)). split.
  { rewrite E. do 3 f_equal. lia. }
  split; [done|]. split; [done|]. apply dent_bytes. rewrite length_contents. lia.
Qed.

Lemma dir_size s : is_dir s → d_size (meta dp s) = DIRENT * Z.of_nat (length (dents (contents dp s))).
Proof.
  intros [Sd _ Hm]. destruct (sd_dense _ _ Sd) as [Hs _]. rewrite length_dents, length_contents. change DIRENT with 16 in *.
  rewrite Nat2Z.inj_div, Z2Nat.id by lia. change (Z.of_nat 16) with 16. zdm.
Qed.

(** The search reaches entry [k] when none before it matches. *)
Definition none_before (name : list Z) (c : list Z) (k : nat) : Prop := ∀ j e, (j < k)%nat → dents c !! j = Some e → ¬ dmatch name e.

Lemma dirlookup_skip name s P k :
  is_dir s → rdy s P ∅ → (size P < NBUF)%nat → (k < length (dents (contents dp s)))%nat → ¬ dmatch name (dent (contents dp s) k) →
  ∃ s', dirlookup_body dp name (DIRENT * Z.of_nat k) s = Ret (inl (DIRENT * Z.of_nat (k + 1))) s' ∧ rdy s' P ∅ ∧ unseen s s'.
Proof.
  intros D R Hp Hk Hm. pose proof Hk as Hk'. rewrite length_dents in Hk'. destruct (entry_read s P k D R Hp Hk') as (s' & de & E & R' & U & Ed).
  exists s'. split; [|done]. unfold dirlookup_body. msimpl. fold (meta dp s). rewrite (dir_size s D), (proj2 (Z.ltb_lt _ _)) by (change DIRENT with 16; lia).
  rewrite E. cbn [res_bind]. rewrite Z.eqb_refl. cbn [negb]. rewrite Ed in Hm. unfold dmatch in Hm. cbn [fst snd] in Hm.
  assert (DIRENT * Z.of_nat k + DIRENT = DIRENT * Z.of_nat (k + 1)) as Eo by (change DIRENT with 16; lia). rewrite Eo.
  destruct (Z.eqb_spec (get16 0 de) 0); [done|]. destruct (Z.eqb_spec (namecmp name (drop 2 de)) 0) as [En|]; [|done].
  unfold namecmp in En. rewrite strncmp_cname in En. by destruct Hm.
Qed.

Lemma dirlookup_hit name s P k :
  is_dir s → rdy s P ∅ → (size P < NBUF)%nat → (k < length (dents (contents dp s)))%nat → dmatch name (dent (contents dp s) k) →
  ∃ s', rdy s' P ∅ ∧ unseen s s' ∧ dirlookup_body dp name (DIRENT * Z.of_nat k) s =
    (i ← iget (idev (ino dp s)) (dent (contents dp s) k).1; mret (inr (Some (i, DIRENT * Z.of_nat k)))) s'.
Proof.
  intros D R Hp Hk Hm. pose proof Hk as Hk'. rewrite length_dents in Hk'. destruct (entry_read s P k D R Hp Hk') as (s' & de & E & R' & U & Ed).
  exists s'. do 2 (split; [done|]). unfold dirlookup_body. msimpl. fold (meta dp s). rewrite (dir_size s D), (proj2 (Z.ltb_lt _ _)) by (change DIRENT with 16; lia).
  rewrite E. cbn [res_bind]. rewrite Z.eqb_refl. cbn [negb]. rewrite Ed in *. destruct Hm as [Hn Hm]. cbn [fst snd] in *.
  rewrite (proj2 (Z.eqb_neq _ _)) by done. unfold namecmp. by rewrite (proj2 (Z.eqb_eq _ _)) by (by apply strncmp_cname).
Qed.

Lemma dirlookup_loop name P : ∀ n k s fuel', (k + n = length (dents (contents dp s)))%nat → (n < fuel')%nat →
  is_dir s → rdy s P ∅ → (size P < NBUF)%nat → none_before name (contents dp s) k →
  ∃ s', rdy s' P ∅ ∧ unseen s s' ∧
    match dfind name (contents dp s) with
    | Some (j, e) => ∃ m, loop fuel' (dirlookup_body dp name) (DIRENT * Z.of_nat k) s =
        (r ← (i ← iget (idev (ino dp s)) e.1; mret (inr (Some (i, DIRENT * Z.of_nat j)))); match r with inl a => loop m (dirlookup_body dp name) a | inr b => mret b end) s'
    | None => loop fuel' (dirlookup_body dp name) (DIRENT * Z.of_nat k) s = Ret None s'
    end.
Proof.
  induction n as [|n IH]; intros k s fuel' Hk Hf D R Hp Hno; (destruct fuel' as [|fuel']; [lia|]).
  - exists s. split; [done|]. split; [apply unseen_refl|]. assert (dfind name (contents dp s) = None) as ->.
    { apply list_find_None, Forall_lookup. intros j e Hj. apply (Hno j e); [|done]. apply lookup_lt_Some in Hj. lia. }
    apply loop_done. unfold dirlookup_body. msimpl. fold (meta dp s). rewrite (dir_size s D), (proj2 (Z.ltb_ge _ _)) by (change DIRENT with 16; lia). done.
  - assert (dents (contents dp s) !! k = Some (dent (contents dp s) k)) as Hl by (apply lookup_dents; rewrite <- length_dents; lia).
    destruct (decide (dmatch name (dent (contents dp s) k))) as [Hm|Hm].
    + destruct (dirlookup_hit name s P k D R Hp ltac:(lia) Hm) as (s' & R' & U & E). exists s'. do 2 (split; [done|]).
      assert (dfind name (contents dp s) = Some (k, dent (contents dp s) k)) as ->.
      { apply list_find_Some. split; [done|]. split; [done|]. intros j e Hj Hlt. by apply (Hno j e). }
      exists fuel'. rewrite loop_unfold. unfold mbind at 1, M_bind at 1. rewrite E. done.
    + destruct (dirlookup_skip name s P k D R Hp ltac:(lia) Hm) as (s1 & E & R1 & U1).
      destruct (sound_unseen s s1 U1 (di_sound _ D)) as [_ Ec].
      destruct (IH (k + 1)%nat s1 fuel') as (s' & R' & U' & H'); rewrite ?Ec; try done; try lia; [by apply (is_dir_unseen s)| |].
      { intros j e Hj He. destruct (decide (j = k)) as [->|]; [rewrite Hl in He; by injection He as <-|]. apply (Hno j e); [lia|done]. }
      exists s'. split; [done|]. split; [by apply (unseen_trans s s1)|]. rewrite (loop_next _ _ _ _ _ _ E). rewrite Ec in H'.
      assert (ino dp s1 = ino dp s) as Ei by (by rewrite (un_mem _ _ U1)). by rewrite Ei in H'.
Qed.

(** [dirlookup] finds the first entry with the name. *)
Lemma dirlookup_ok name s P h i n :
  is_dir s → rdy s P ∅ → (size P < NBUF)%nat → cache_ok pid s h → refs s dp = Some (i, n) → loaded s dp i →
  (∃ j, (j < NINODE)%nat ∧ refs s j = None) →
  match dfind name (contents dp s) with
  | Some (k, (i', _)) => ∃ j s', dirlookup dp name s = Ret (Some (j, DIRENT * Z.of_nat k)) s' ∧ rdy s' P ∅ ∧ cache_ok pid s' h ∧
      looks s s' ∧ (∀ k, refs s' k = add_ref j i' (refs s) k) ∧ (∀ a b, refs s j = Some (a, b) → a = i') ∧ loaded s' dp i
  | None => ∃ s', dirlookup dp name s = Ret None s' ∧ rdy s' P ∅ ∧ unseen s s'
  end.
Proof.
  intros D R Hp C Hr Ld Hfree. destruct (refs_in _ _ _ _ Hr) as (Hi & Hn & Hpos).
  destruct (dirlookup_loop name P (length (dents (contents dp s))) 0 s (Z.to_nat (d_size (meta dp s) / DIRENT) + 2)) as (s1 & R1 & U1 & H1); try done.
  { rewrite (dir_size s D). change DIRENT with 16. zdm. }
  { intros j e Hj. lia. }
  unfold dirlookup. msimpl. fold (meta dp s). rewrite (di_type _ D), Z.eqb_refl. cbn [negb]. change (DIRENT * Z.of_nat 0) with 0 in H1.
  destruct (slot_unseen pid s s1 h C U1) as (C1 & L1 & F1).
  destruct (dfind name (contents dp s)) as [[k [i' nm]]|]; [|by exists s1].
  destruct H1 as (m & E). rewrite (ic_dev _ _ _ C dp ltac:(lia)) in E. cbn [fst] in E.
  destruct (iget_ok pid s1 h i' C1) as (j & s' & E' & Est & Esb & C' & Hv & F' & Hj).
  { destruct Hfree as (j & ? & ?). exists j. by rewrite F1. }
  exists j, s'. split.
  { etrans; [exact E|]. clear E. msimpl. by rewrite E'. }
  clear E. split; [unfold rdy; by rewrite Est|]. split; [done|]. split; [apply (looks_trans s s1 s' L1); by apply looks_store|].
  split; [intros k'; rewrite F'; unfold add_ref; by rewrite !F1|]. split; [intros a b; rewrite <- F1; by apply Hj|].
  destruct (loaded_unseen s s1 dp i U1 Ld) as (_ & _ & _ & Hv1). assert (0 < ref (ino dp s1)) as Hp1 by (destruct (refs_in s1 dp i n) as (_ & -> & ?); [by rewrite F1|done]).
  destruct (decide (dp = j)) as [->|Hne].
  - apply (loaded_intro pid s' h j i (1 + n)); [done| |by rewrite Hv]. rewrite F'. unfold add_ref. rewrite decide_True, F1, Hr by done.
    rewrite F1 in Hj. by rewrite (Hj i n Hr).
  - apply (loaded_intro pid s' h dp i n); [done| |by rewrite Hv]. rewrite F'. unfold add_ref. by rewrite decide_False, F1.
Qed.
End dir.
