(* ===== verification/FsPath.v ===== *)
(** Path names: [skipelem] and [namex] of kernel/fs.c as the resolution of a path in the
    tree of directories. *)

From S2P Require Import Prelude Bytes Sleeplock Bio Store Fs Dir FsBlock FsAlloc Dinode FsFile FsRead FsWrite FsFileProps FsInode FsDir.

(** * The elements of a path *)

Fixpoint split_path (path : list Z) : list (list Z) :=
  match path with
  | [] => [[]]
  | c :: path =>
      if c =? SLASH then [] :: split_path path
      else match split_path path with e :: es => (c :: e) :: es | [] => [[c]] end
  end.

(** What is between the slashes, cut to the length of a name. *)
Definition elems (path : list Z) : list (list Z) := take 14 <$> filter (λ e, e ≠ []) (split_path path).

Lemma split_skip p : filter (λ e : list Z, e ≠ []) (split_path (skip_slashes p)) = filter (λ e, e ≠ []) (split_path p).
Proof. induction p as [|c p IH]; [done|]. cbn [skip_slashes]. destruct (c =? SLASH) eqn:Ec; [|done]. rewrite IH. cbn [split_path]. rewrite Ec. done. Qed.

Lemma split_span p e r : span_elem p = (e, r) →
  split_path p = e :: match r with [] => [] | _ :: r => split_path r end ∧ (length r ≤ length p)%nat ∧ (∀ c r', r = c :: r' → c = SLASH).
Proof.
  revert e r. induction p as [|c p IH]; intros e r; cbn [span_elem].
  - by intros [= <- <-].
  - cbn [split_path]. destruct (Z.eqb_spec c SLASH) as [->|Hc].
    + intros [= <- <-]. split; [done|]. split; [done|]. by intros c r' [= <- <-].
    + destruct (span_elem p) as [e' r'] eqn:Es. intros [= <- <-]. destruct (IH e' r' eq_refl) as (-> & Hl & Hr). split; [done|]. split; [cbn; lia|done].
Qed.

Lemma split_slashed r : (∀ c r', r = c :: r' → c = SLASH) →
  filter (λ e : list Z, e ≠ []) (match r with [] => [] | _ :: r => split_path r end) = filter (λ e, e ≠ []) (split_path r).
Proof. intros Hr. destruct r as [|c r]; [done|]. rewrite (Hr c r eq_refl). done. Qed.

Lemma skip_first p c q : skip_slashes p = c :: q → c ≠ SLASH.
Proof. induction p as [|d p IH]; [done|]. cbn. destruct (Z.eqb_spec d SLASH); [apply IH|]. by intros [= <- _]. Qed.

Lemma skip_skip p : skip_slashes (skip_slashes p) = skip_slashes p.
Proof. induction p as [|c p IH]; [done|]. cbn. destruct (c =? SLASH) eqn:E; [done|]. cbn. by rewrite E. Qed.

Lemma length_skip p : (length (skip_slashes p) ≤ length p)%nat.
Proof. induction p as [|c p IH]; [done|]. cbn. destruct (c =? SLASH); cbn; lia. Qed.

Lemma skipelem_elems path :
  match skipelem path with
  | None => elems path = []
  | Some (n, p) => elems path = n :: elems p ∧ (length p < length path)%nat ∧ skip_slashes p = p
  end.
Proof.
  unfold skipelem, elems. pose proof (split_skip path) as Hs. pose proof (length_skip path) as Hl.
  destruct (skip_slashes path) as [|c q] eqn:Eq; [by rewrite <- Hs|]. pose proof (skip_first _ _ _ Eq) as Hc.
  destruct (span_elem (c :: q)) as [e r] eqn:Es. destruct (split_span _ _ _ Es) as (E1 & E2 & E3). rewrite <- Hs, E1. clear Hs.
  cbn [span_elem] in Es. rewrite (proj2 (Z.eqb_neq _ _)) in Es by done. destruct (span_elem q) as [e' r'] eqn:Eq'. injection Es as <- <-.
  rewrite filter_cons_True by done. cbn [fmap list_fmap]. rewrite split_slashed, split_skip by done. split; [done|].
  destruct (split_span _ _ _ Eq') as (_ & H' & _). pose proof (length_skip r'). cbn in Hl. split; [lia|apply skip_skip].
Qed.

Lemma elems_nil p : skip_slashes p = p → elems p = [] → p = [].
Proof.
  intros Hp He. pose proof (skipelem_elems p) as H. unfold skipelem in H. rewrite Hp in H. destruct p as [|c p]; [done|].
  destruct (span_elem (c :: p)). rewrite He in H. by destruct H.
Qed.

(** * Files by their inode number *)

Section path.
Context {S : Type} `{!Store S, !StoreSpec S}.
Implicit Types (s : fs S) (P : gset Z) (r : nat → option (Z * Z)).

(** The file system with inode [i] open and no other. *)
Definition probe s (i : Z) : fs S := Fs (store s) (sb s) false [Inode ROOTDEV i 1 initsleeplock true (disk_inode s i)].

(** The file with inode [i] is well formed, and its contents. *)
Definition wf_file s (i : Z) : Prop := sound 0 (probe s i).
Definition file_data s (i : Z) : list Z := contents 0 (probe s i).

Section same.
Context (s s' : fs S) (j j' : nat).
Hypothesis Hsb : sb s' = sb s.
Hypothesis Hb : ∀ c, blks s' c = blks s c.
Hypothesis Hj : (j' < length (inodes s'))%nat.
Hypothesis Hi : idev (ino j' s') = idev (ino j s) ∧ inum (ino j' s') = inum (ino j s) ∧ idata (ino j' s') = idata (ino j s).

Lemma same_addr k : faddr j' s' k = faddr j s k.
Proof using Hb Hi. destruct Hi as (_ & _ & E). unfold faddr, iaddr, meta. by rewrite E, Hb. Qed.

Lemma same_taken c : taken s c → taken s' c.
Proof using Hb Hsb.
  intros (H1 & H2 & H3 & H4). split; [by rewrite Hsb|]. split; [unfold used in *; by rewrite Hsb, Hb|]. split; [done|]. by rewrite (is_bitmap_sb s s' c Hsb).
Qed.

Lemma same_contents : contents j' s' = contents j s.
Proof using Hb Hi.
  unfold contents, meta. destruct Hi as (_ & _ & ->). unfold fbytes. apply list_fmap_ext. intros i x _. unfold fbyte, fblock. rewrite same_addr. by rewrite Hb.
Qed.

Lemma same_sound : sound j s → sound j' s'.
Proof using All.
  intros [[F1 F2 F3 F4 F5 F6] [A1 A2 A3 A4] [D1 D2] Dk]. pose proof Hi as (E1 & E2 & E3). assert (meta j' s' = meta j s) as Em by exact E3.
  assert (iblock j' s' = iblock j s) as Eb by (unfold iblock; by rewrite E2, Hsb).
  assert (∀ b, used s' b = used s b) as Eu by (intros b; unfold used; by rewrite Hsb, Hb).
  constructor; [constructor|constructor| |]; rewrite ?Em, ?Eb, ?Hsb; try done.
  - by rewrite E1.
  - by apply same_taken.
  - intros k Hk. rewrite same_addr. intros Hne. destruct (F5 k Hk Hne). split; [by apply same_taken|done].
  - intros k l. rewrite !same_addr. apply F6.
  - intros c Hc%(is_bitmap_sb s s' c Hsb). by apply A2.
  - intros b Hb'. rewrite Eu, (is_bitmap_sb s s' b Hsb). by apply A3.
  - by rewrite Eu.
  - split; [by rewrite Em|]. intros k. rewrite Em, same_addr. apply D2.
Qed.
End same.

Lemma probe_looks s s' i : looks s s' → (wf_file s i → wf_file s' i) ∧ file_data s' i = file_data s i.
Proof.
  intros L. pose proof (looks_inode _ _ i L) as E. split.
  - apply (same_sound (probe s i) (probe s' i) 0 0); [apply L|apply L|cbn; lia|]. cbn. by rewrite E.
  - apply (same_contents (probe s i) (probe s' i) 0 0); [apply L|]. cbn. by rewrite E.
Qed.

Lemma probe_loaded s j i n : loaded s j i → refs s j = Some (i, n) → (wf_file s i → sound j s) ∧ contents j s = file_data s i.
Proof using Type.
  intros (H1 & H2 & H3 & H4) (Hi & Hn & Hp)%refs_in. split.
  - apply (same_sound (probe s i) s 0 j); [done|done|apply ref_slot; lia|done].
  - by apply (same_contents (probe s i) s 0 j).
Qed.

(** * The tree *)

(** A set of files that is closed under the entries of its directories. *)
Record tree_ok s (T : Z → Prop) : Prop := {
  tr_file : ∀ i, T i → wf_file s i ∧ d_type (disk_inode s i) ≠ 0 ∧ d_nlink (disk_inode s i) ≠ 0;
  tr_dir : ∀ i, T i → d_type (disk_inode s i) = T_DIR →
    d_size (disk_inode s i) mod DIRENT = 0 ∧ ∀ e, e ∈ dents (file_data s i) → e.1 ≠ 0 → T e.1;
}.

Lemma tree_looks s s' T : looks s s' → tree_ok s T → tree_ok s' T.
Proof.
  intros L [H1 H2]. constructor; intros i Hi; rewrite (looks_inode _ _ i L); destruct (probe_looks s s' i L) as [Hw E].
  - destruct (H1 i Hi) as (? & ? & ?). auto.
  - rewrite E. by apply H2.
Qed.

(** The inode of an entry of directory [i]. *)
Definition child s (i : Z) (name : list Z) : option Z :=
  if d_type (disk_inode s i) =? T_DIR then (λ x, x.2.1) <$> dfind name (file_data s i) else None.

(** The inode at the end of a path from [i]. *)
Fixpoint walk s (i : Z) (names : list (list Z)) : option Z :=
  match names with
  | [] => Some i
  | n :: names => match child s i n with Some i => walk s i names | None => None end
  end.

(** The directory that a path leads to but for its last element, and that element. *)
Fixpoint walk_parent s (i : Z) (names : list (list Z)) : option (Z * list Z) :=
  match names with
  | [] => None
  | n :: names =>
      match names with
      | [] => if d_type (disk_inode s i) =? T_DIR then Some (i, n) else None
      | _ => match child s i n with Some i => walk_parent s i names | None => None end
      end
  end.

Lemma child_looks s s' i name : looks s s' → child s' i name = child s i name.
Proof. intros L. unfold child. rewrite (looks_inode _ _ i L). by destruct (probe_looks s s' i L) as [_ ->]. Qed.

Lemma walk_looks s s' names : looks s s' → ∀ i, walk s' i names = walk s i names.
Proof. intros L. induction names as [|n names IH]; intros i; [done|]. cbn. rewrite (child_looks s s' i n L). by destruct (child s i n). Qed.

Lemma walk_parent_looks s s' names : looks s s' → ∀ i, walk_parent s' i names = walk_parent s i names.
Proof.
  intros L. induction names as [|n names IH]; intros i; [done|]. cbn [walk_parent]. rewrite (child_looks s s' i n L), (looks_inode _ _ i L).
  destruct names; [done|]. destruct (child s i n); [apply IH|done].
Qed.

Lemma walk_parent_last s names : ∀ i i' n, walk_parent s i names = Some (i', n) → last names = Some n.
Proof.
  induction names as [|e names IH]; intros i i' n; [done|]. cbn [walk_parent]. destruct names as [|e' names].
  - destruct (_ =? _); [|done]. by intros [= <- <-].
  - destruct (child s i e) as [i2|]; [|done]. rewrite last_cons_cons. apply IH.
Qed.

Lemma child_tree s T i name i' : tree_ok s T → T i → child s i name = Some i' → T i'.
Proof.
  intros [_ H2] Hi. unfold child. destruct (Z.eqb_spec (d_type (disk_inode s i)) T_DIR) as [Ht|]; [|done].
  destruct (dfind name (file_data s i)) as [[k e]|] eqn:Ed; [|done]. intros [= <-]. apply list_find_Some in Ed as (Hk & [Hm _] & _).
  apply (H2 i Hi Ht); [by eapply list_elem_of_lookup_2|done].
Qed.

(** * References along the way *)

(** A reference to inode [i] in slot [j] fits with those there are. *)
Definition fits_ref r (j : nat) (i : Z) : Prop := ∀ a n, r j = Some (a, n) → a = i ∧ 0 < n.

Lemma drop_add r j i k : fits_ref r j i → drop_ref j (add_ref j i r) k = r k.
Proof.
  intros Hf. unfold drop_ref, add_ref. destruct (decide (k = j)) as [->|]; [|done]. rewrite decide_True by done. unfold fits_ref in Hf.
  destruct (r j) as [[a n]|] eqn:E; cbn; [|done]. destruct (Hf a n eq_refl) as [-> Hn].
  rewrite (proj2 (Z.ltb_lt _ _)) by lia. do 2 f_equal. lia.
Qed.

Lemma drop_add_add r j i j' i' k : fits_ref r j i → fits_ref (add_ref j i r) j' i' →
  drop_ref j (add_ref j' i' (add_ref j i r)) k = add_ref j' i' r k.
Proof.
  intros Hf Hf'. destruct (decide (j' = j)) as [->|Hne].
  - destruct (Hf' i (1 + from_option snd 0 (r j))) as [-> Hp]; [unfold add_ref; by rewrite decide_True|].
    unfold drop_ref, add_ref. destruct (decide (k = j)); [|done]. rewrite !decide_True by done. cbn. rewrite (proj2 (Z.ltb_lt _ _)) by lia. do 2 f_equal. lia.
  - pose proof (drop_add r j i j Hf) as Hd. unfold drop_ref, add_ref in *. rewrite !decide_True in Hd by done.
    destruct (decide (k = j)) as [->|Hk].
    + rewrite !(decide_False (P := j = j')), (decide_True (P := j = j)) by congruence. exact Hd.
    + destruct (decide (k = j')) as [->|Hk']; [|done]. by rewrite decide_False.
Qed.

(** * namex *)

Context (pid : Z) (fuel : nat).

Section walk.
Context (s0 : fs S) (P : gset Z) (T : Z → Prop).
Hypothesis Hfuel : (0 < fuel)%nat.
Hypothesis HP : (size P < NBUF)%nat.
Hypothesis HT : tree_ok s0 T.
Hypothesis Hslots : ∃ a b, a ≠ b ∧ (a < NINODE)%nat ∧ (b < NINODE)%nat ∧ refs s0 a = None ∧ refs s0 b = None.

(** Back in a state like [s0]; with one more reference to inode [i], in slot [j]. *)
Record back s : Prop := {
  bk_looks : looks s0 s;
  bk_cache : cache_ok pid s ∅;
  bk_rdy : rdy s P ∅;
  bk_refs : ∀ k, refs s k = refs s0 k;
}.
Record holding s (j : nat) (i : Z) : Prop := {
  ho_looks : looks s0 s;
  ho_cache : cache_ok pid s ∅;
  ho_rdy : rdy s P ∅;
  ho_refs : ∀ k, refs s k = add_ref j i (refs s0) k;
  ho_fits : fits_ref (refs s0) j i;
}.

Lemma holding_ref s j i : holding s j i → ∃ n, refs s j = Some (i, n).
Proof using Type. intros H. rewrite (ho_refs _ _ _ H). unfold add_ref. rewrite decide_True by done. by eexists. Qed.

Lemma usable_iblock i : T i → usable (IBLOCK i (sb s0)).
Proof using HT. intros Hi. destruct (tr_file _ _ HT i Hi) as ([F _ _ _] & _). destruct (fo_iblock _ _ F) as (_ & _ & Hu & _). exact Hu. Qed.

(** The inode is locked, in the middle of a round. *)
Record locked s (j : nat) (i : Z) : Prop := {
  lo_looks : looks s0 s;
  lo_cache : cache_ok pid s {[j]};
  lo_rdy : rdy s P ∅;
  lo_refs : ∀ k, refs s k = add_ref j i (refs s0) k;
  lo_fits : fits_ref (refs s0) j i;
  lo_loaded : loaded s j i;
}.

Lemma lock_walk s j i : holding s j i → T i → ∃ s', ilock pid fuel j s = Ret tt s' ∧ locked s' j i.
Proof using Hfuel HP HT.
  intros H Hi. destruct (holding_ref s j i H) as [n Hn]. destruct H as [L C R F Hf]. destruct (tr_file _ _ HT i Hi) as (_ & Ht & _).
  destruct (ilock_ok pid fuel s P ∅ j i n Hfuel C (not_elem_of_empty j) Hn R HP) as (s' & E & R' & C' & L' & F' & Ld & _).
  { rewrite (lo_sb _ _ L). by apply usable_iblock. }
  { by rewrite (looks_inode _ _ i L). }
  exists s'. split; [done|]. rewrite ?union_empty_r_L, ?difference_diag_L in C'. constructor; try done; [by eapply looks_trans|]. intros k. by rewrite F', F.
Qed.

Lemma unlock_walk s j i : locked s j i → ∃ s', iunlock pid j s = Ret tt s' ∧ holding s' j i.
Proof using Type.
  intros [L C R F Hf Ld]. assert (∃ n, refs s j = Some (i, n)) as [n Hn] by (rewrite F; unfold add_ref; rewrite decide_True by done; by eexists).
  destruct (iunlock_ok pid s P {[j]} j i n C (elem_of_singleton_2 j j eq_refl) Hn Ld R) as (s' & E & R' & C' & L' & F' & _). exists s'. split; [done|].
  rewrite difference_diag_L in C'. constructor; try done; [by eapply looks_trans|]. intros k. by rewrite F', F.
Qed.

Lemma put_walk s j i : locked s j i → T i → ∃ s', iunlockput pid fuel j s = Ret tt s' ∧ back s'.
Proof using HT.
  intros [L C R F Hf Ld] Hi. assert (∃ n, refs s j = Some (i, n)) as [n Hn] by (rewrite F; unfold add_ref; rewrite decide_True by done; by eexists).
  destruct (iunlockput_ok pid fuel s P {[j]} j i n C (elem_of_singleton_2 j j eq_refl) Hn Ld) as (s' & E & R' & C' & L' & F' & _); [|done|].
  { right. rewrite (looks_inode _ _ i L). by apply (tr_file _ _ HT). }
  exists s'. split; [done|]. rewrite ?union_empty_r_L, ?difference_diag_L in C'. constructor; try done; [by eapply looks_trans|]. intros k. rewrite F', <- (drop_add (refs s0) j i k Hf).
  unfold drop_ref. by rewrite !F.
Qed.

Lemma iput_walk s j i : holding s j i → T i → ∃ s', iput pid fuel j s = Ret tt s' ∧ back s'.
Proof using HT.
  intros H Hi. destruct (holding_ref s j i H) as [n Hn]. destruct H as [L C R F Hf].
  destruct (iput_ok pid fuel s P ∅ j i n C ltac:(done) Hn) as (s' & E & R' & C' & L' & _ & F'); [|done|].
  { right. rewrite (looks_inode _ _ i L). by apply (tr_file _ _ HT). }
  exists s'. split; [done|]. constructor; try done; [by eapply looks_trans|]. intros k. rewrite F', <- (drop_add (refs s0) j i k Hf).
  unfold drop_ref. by rewrite !F.
Qed.

Lemma free_slot j i : ∃ a, (a < NINODE)%nat ∧ add_ref j i (refs s0) a = None.
Proof using Hslots.
  destruct Hslots as (a & b & Hab & Ha & Hb & Ra & Rb). unfold add_ref.
  destruct (decide (a = j)) as [->|Hne]; [exists b|exists a]; by rewrite decide_False by congruence.
Qed.

(** Looking up a name in the locked directory. *)
Lemma lookup_walk s j i name :
  locked s j i → T i → d_type (disk_inode s0 i) = T_DIR →
  match child s0 i name with
  | Some i' => ∃ j' o s1 s', dirlookup j name s = Ret (Some (j', o)) s1 ∧ iunlockput pid fuel j s1 = Ret tt s' ∧ holding s' j' i'
  | None => ∃ s1 s', dirlookup j name s = Ret None s1 ∧ iunlockput pid fuel j s1 = Ret tt s' ∧ back s'
  end.
Proof using HT HP Hslots.
  intros Lk Hi Ht. pose proof Lk as [L C R F Hf Ld]. destruct (tr_file _ _ HT i Hi) as (W & _ & Hl).
  destruct (tr_dir _ _ HT i Hi Ht) as [Hsz _]. assert (refs s j = Some (i, 1 + from_option snd 0 (refs s0 j))) as Hn by (rewrite F; unfold add_ref; by rewrite decide_True).
  destruct (probe_loaded s j i _ Ld Hn) as [Hw Hc]. destruct (probe_looks s0 s i L) as [W' Ed]. destruct Ld as (Hd & Hi' & Hm & Hv).
  assert (is_dir j s) as D by (constructor; [by apply Hw, W'|unfold meta; rewrite Hm, (looks_inode _ _ i L)..]; done).
  pose proof (dirlookup_ok pid j name s P {[j]} i _ D R HP C Hn (conj Hd (conj Hi' (conj Hm Hv)))) as HD.
  rewrite Hc, Ed in HD. unfold child. rewrite Ht, Z.eqb_refl. assert (∃ a, (a < NINODE)%nat ∧ refs s a = None) as Hfree.
  { destruct (free_slot j i) as (a & ? & ?). exists a. by rewrite F. }
  destruct (dfind name (file_data s0 i)) as [[k [i' nm]]|]; cbn [fmap option_fmap option_map fst snd].
  - destruct HD as (j' & s1 & E1 & R1 & C1 & L1 & F1 & Hj & Ld1); [done|].
    assert (fits_ref (add_ref j i (refs s0)) j' i') as Hf'.
    { intros a n Ha. rewrite <- F in Ha. split; [by apply (Hj a n)|by apply refs_in in Ha as (_ & _ & ?)]. }
    assert (∃ n, refs s1 j = Some (i, n)) as [n Hn1].
    { rewrite F1. unfold add_ref. destruct (decide (j = j')) as [->|]; [|by eexists]. rewrite Hn. cbn. by rewrite (Hj i _ Hn); eexists. }
    destruct (iunlockput_ok pid fuel s1 P {[j]} j i n C1 (elem_of_singleton_2 j j eq_refl) Hn1 Ld1) as (s' & E & R' & C' & L' & F' & _); [|done|].
    { right. by rewrite (looks_inode _ _ i L1), (looks_inode _ _ i L). }
    exists j', (DIRENT * Z.of_nat k), s1, s'. do 2 (split; [done|]). rewrite difference_diag_L in C'. constructor; try done.
    + apply (looks_trans s0 s s' L), (looks_trans s s1 s' L1 L').
    + intros k'. rewrite F', <- (drop_add_add (refs s0) j i j' i' k' Hf Hf'). unfold drop_ref. rewrite !F1. unfold add_ref. by rewrite !F.
    + intros a n' Ha. destruct (decide (j' = j)) as [->|Hne]; [|apply Hf'; unfold add_ref; by rewrite decide_False].
      destruct (Hf a n' Ha) as [-> ?]. split; [|done]. by apply (Hj i _ Hn).
  - destruct HD as (s1 & E1 & R1 & U1); [done|]. destruct (slot_unseen pid s s1 {[j]} C U1) as (C1 & L1 & F1).
    destruct (put_walk s1 j i) as (s' & E' & B); [|done|by exists s1, s'].
    constructor; try done; [by eapply looks_trans|intros k'; by rewrite F1, F|by apply (loaded_unseen s s1 j i U1)].
Qed.

(** One round. *)
Lemma namex_step b s j i path name e path' :
  holding s j i → T i → skipelem path = Some (e, path') →
  ∃ o s', namex_body pid fuel b (j, path, name) s = Ret o s' ∧
    if b && bool_decide (path' = [])
    then (if d_type (disk_inode s0 i) =? T_DIR then o = inr (Some j, e) ∧ holding s' j i else o = inr (None, e) ∧ back s')
    else match child s0 i e with
         | Some i' => ∃ j', o = inl (j', path', e) ∧ holding s' j' i'
         | None => o = inr (None, e) ∧ back s'
         end.
Proof using All.
  intros H Hi Hs. destruct (lock_walk s j i H Hi) as (s1 & E1 & Lk). unfold namex_body. rewrite Hs. msimpl. rewrite E1. cbn [res_bind].
  destruct (lo_loaded _ _ _ Lk) as (_ & _ & Em & _). rewrite Em, (looks_inode _ _ i (lo_looks _ _ _ Lk)).
  destruct (Z.eqb_spec (d_type (disk_inode s0 i)) T_DIR) as [Ht|Ht]; cbn [negb].
  - destruct (b && bool_decide (path' = [])).
    + destruct (unlock_walk s1 j i Lk) as (s' & E & Hh). rewrite E. by exists (inr (Some j, e)), s'.
    + pose proof (lookup_walk s1 j i e Lk Hi Ht) as HL. destruct (child s0 i e) as [i'|].
      * destruct HL as (j' & o & s2 & s' & E2 & E & Hh). rewrite E2. cbn [res_bind]. rewrite E. exists (inl (j', path', e)), s'. split; [done|]. by exists j'.
      * destruct HL as (s2 & s' & E2 & E & Hh). rewrite E2. cbn [res_bind]. rewrite E. by exists (inr (None, e)), s'.
  - destruct (put_walk s1 j i Lk Hi) as (s' & E & B). rewrite E. exists (inr (None, e)), s'. split; [done|].
    destruct (b && bool_decide (path' = [])); [done|]. unfold child. by rewrite (proj2 (Z.eqb_neq _ _)).
Qed.

(** The inode that the path leads to; with [b] the directory of its last element. *)
Definition target (b : bool) (i : Z) (names : list (list Z)) : option Z :=
  if b then fst <$> walk_parent s0 i names else walk s0 i names.

Lemma target_step b i e names :
  target b i (e :: names) = if b && bool_decide (names = []) then (if d_type (disk_inode s0 i) =? T_DIR then Some i else None)
    else match child s0 i e with Some i' => target b i' names | None => None end.
Proof using Type.
  unfold target. destruct b; [|done]. cbn [andb walk_parent]. destruct names as [|n names]; [cbn; by destruct (_ =? _)|].
  rewrite bool_decide_false by done. by destruct (child s0 i e).
Qed.

Lemma namex_loop b : ∀ n s j i path name, (length path < n)%nat → holding s j i → T i →
  ∃ o nm s', loop n (namex_body pid fuel b) (j, path, name) s = Ret (o, nm) s' ∧
    match target b i (elems path) with
    | Some i' => ∃ j', o = Some j' ∧ holding s' j' i' ∧ nm = default name (last (elems path))
    | None => o = None ∧ back s'
    end.
Proof using All.
  induction n as [|n IH]; intros s j i path name Hn H Hi; [lia|]. pose proof (skipelem_elems path) as He.
  destruct (skipelem path) as [[e path']|] eqn:Es.
  - destruct He as (-> & Hlen & Hsk). destruct (namex_step b s j i path name e path' H Hi Es) as (o & s1 & E & Ho). rewrite target_step.
    assert (bool_decide (path' = []) = bool_decide (elems path' = [])) as Eb.
    { apply bool_decide_ext. split; [by intros ->|by apply elems_nil]. }
    rewrite Eb in Ho. destruct (b && bool_decide (elems path' = [])) eqn:Ebb.
    + apply andb_true_iff in Ebb as [_ En%bool_decide_eq_true]. destruct (_ =? _); destruct Ho as [-> Ho]; do 3 eexists; (split; [by apply loop_done|]); [|done].
      exists j. by rewrite En.
    + destruct (child s0 i e) as [i'|] eqn:Ec; [|destruct Ho as [-> Ho]; do 3 eexists; (split; [by apply loop_done|done])].
      destruct Ho as (j' & -> & Ho). rewrite (loop_next _ _ _ _ _ _ E).
      destruct (IH s1 j' i' path' e ltac:(lia) Ho (child_tree s0 T i e i' HT Hi Ec)) as (o & nm & s' & E' & Hr). exists o, nm, s'. split; [done|].
      destruct (target b i' (elems path')); [|done]. destruct Hr as (j2 & -> & Hh & ->). exists j2. do 2 (split; [done|]).
      rewrite last_cons. by destruct (last (elems path')).
  - rewrite He. destruct b.
    + destruct (iput_walk s j i H Hi) as (s' & E & B). exists None, name, s'. split; [|done]. apply loop_done. unfold namex_body. rewrite Es. msimpl. by rewrite E.
    + exists (Some j), name, s. split; [apply loop_done; unfold namex_body; by rewrite Es|]. by exists j.
Qed.

(** Where the path starts. *)
Definition start_inode (cwd : nat) (path : list Z) : Z := if hd 0 path =? SLASH then ROOTINO else inum (ino cwd s0).

Lemma namex_ok b cwd path :
  cache_ok pid s0 ∅ → rdy s0 P ∅ → (hd 0 path ≠ SLASH → refs s0 cwd ≠ None) → T (start_inode cwd path) →
  ∃ o nm s', namex pid fuel cwd path b s0 = Ret (o, nm) s' ∧
    match target b (start_inode cwd path) (elems path) with
    | Some i' => ∃ j', o = Some j' ∧ holding s' j' i' ∧ nm = default [] (last (elems path))
    | None => o = None ∧ back s'
    end.
Proof using All.
  intros C R Hcwd Hi. unfold namex, start_inode in *. destruct (Z.eqb_spec (hd 0 path) SLASH) as [Hr|Hr].
  - destruct Hslots as (a & _ & _ & Ha & _ & Ra & _). destruct (iget_ok pid s0 ∅ ROOTINO C) as (j & s1 & E & Est & Esb & C1 & _ & F1 & Hf); [by exists a|].
    rewrite (bind_ret_eq _ _ _ _ _ E). apply namex_loop; [lia| |done]. constructor; try done; [by apply looks_store|unfold rdy; by rewrite Est|].
    intros i n Hn. split; [by eapply Hf|by apply refs_in in Hn as (_ & _ & ?)].
  - destruct (refs s0 cwd) as [[i n]|] eqn:Hn; [|by specialize (Hcwd Hr)]. destruct (refs_in _ _ _ _ Hn) as (Ei & _ & Hp). rewrite Ei in *.
    destruct (idup_ok pid s0 ∅ cwd i n C Hn) as (s1 & E & Est & Esb & C1 & F1).
    rewrite (bind_ret_eq _ _ _ _ _ E). apply namex_loop; [lia| |done]. constructor; try done; [by apply looks_store|unfold rdy; by rewrite Est|].
    intros a m Ha. rewrite Hn in Ha. by injection Ha as <- <-.
Qed.
End walk.
End path.

(** C19. Path names.  Let the files of a set be well formed and the set closed under the
    entries of its directories.  With no inode locked, two free slots in the table of inodes,
    and a start (the root for a path that begins with a slash, else the current directory)
    in the set, [namei] and [nameiparent] return.  [namei] gives an inode exactly when each
    element of the path names an entry of the directory before it, and then the inode at the
    end, with one more reference.  [nameiparent] gives the directory of the last element and
    that element.  Otherwise the result is null and the references are as before.  In every
    case no inode stays locked and no block changes. *)
Theorem namei_resolves {S} `{!Store S, !StoreSpec S} pid fuel (s : fs S) P T cwd path (i := start_inode s cwd path) :
  (0 < fuel)%nat → (size P < NBUF)%nat → tree_ok s T → cache_ok pid s ∅ → rdy s P ∅ →
  (∃ a b, a ≠ b ∧ (a < NINODE)%nat ∧ (b < NINODE)%nat ∧ refs s a = None ∧ refs s b = None) →
  (hd 0 path ≠ SLASH → refs s cwd ≠ None) → T i →
  (∃ o s', namei pid fuel cwd path s = Ret o s' ∧
    match walk s i (elems path) with
    | Some i' => ∃ j, o = Some j ∧ holding pid s P s' j i'
    | None => o = None ∧ back pid s P s'
    end) ∧
  ∃ o nm s', nameiparent pid fuel cwd path s = Ret (o, nm) s' ∧
    match walk_parent s i (elems path) with
    | Some (i', n) => ∃ j, o = Some j ∧ nm = n ∧ holding pid s P s' j i'
    | None => o = None ∧ back pid s P s'
    end.
Proof.
  intros Hf HP HT C R Hs Hc Hi. split.
  - destruct (namex_ok pid fuel s P T Hf HP HT Hs false cwd path C R Hc Hi) as (o & nm & s' & E & H). exists o, s'. split.
    + unfold namei. by rewrite (bind_ret_eq _ _ _ _ _ E).
    + unfold target in H. fold i in H. destruct (walk s i (elems path)); [|done]. destruct H as (j & -> & Hh & _). by exists j.
  - destruct (namex_ok pid fuel s P T Hf HP HT Hs true cwd path C R Hc Hi) as (o & nm & s' & E & H). exists o, nm, s'. split; [exact E|].
    unfold target in H. fold i in H. destruct (walk_parent s i (elems path)) as [[i' n]|] eqn:Ew; [|done]. cbn in H. destruct H as (j & -> & Hh & ->). exists j.
    split; [done|]. split; [|done]. by rewrite (walk_parent_last s _ _ _ _ Ew).
Qed.
