(* ===== verification/FsLink.v ===== *)
(** [dirlink] of kernel/fs.c: a directory as a map from names to inodes, and adding to it. *)

From S2P Require Import Prelude Bytes Sleeplock Bio Store Fs Dir FsBlock FsAlloc Dinode FsFile FsRead FsWrite FsFileProps FsInode FsDir FsPath.

(** The inode that a directory has under a name. *)
Definition dlook (name : list Z) (c : list Z) : option Z := (λ x, x.2.1) <$> dfind name c.

(** The first entry that is not in use, or the end. *)
Definition free_entry (l : list (Z * list Z)) : nat :=
  match list_find (λ e, e.1 = 0) l with Some (k, _) => k | None => length l end.

Definition put_entry (k : nat) (e : Z * list Z) (l : list (Z * list Z)) : list (Z * list Z) := take k l ++ e :: drop (S k) l.

Lemma find_filter {A} (Q : A → Prop) `{∀ x, Decision (Q x)} l : snd <$> list_find Q l = head (filter Q l).
Proof.
  induction l as [|x l IH]; [done|]. cbn [list_find]. destruct (decide (Q x)).
  - by rewrite filter_cons_True.
  - rewrite filter_cons_False, <- IH by done. by destruct (list_find Q l) as [[? ?]|].
Qed.

Lemma dlook_filter name c : dlook name c = fst <$> head (filter (dmatch name) (dents c)).
Proof. unfold dlook, dfind. rewrite <- find_filter. by destruct (list_find _ _) as [[? ?]|]. Qed.

Lemma filter_none {A} (Q : A → Prop) `{∀ x, Decision (Q x)} l : head (filter Q l) = None → filter Q l = [].
Proof. by destruct (filter Q l). Qed.

Lemma free_entry_split l : ∃ r, drop (free_entry l) l = r ++ drop (S (free_entry l)) l ∧ Forall (λ e, e.1 = 0) r.
Proof.
  unfold free_entry. destruct (list_find _ l) as [[k e]|] eqn:E.
  - apply list_find_Some in E as (Hk & He & _). exists [e]. split; [by apply drop_S|]. by constructor.
  - exists []. split; [|constructor]. by rewrite !drop_ge by lia.
Qed.

(** An entry for a new name changes the map at that name. *)
Lemma look_put l name m i : i ≠ 0 → head (filter (dmatch name) l) = None →
  fst <$> head (filter (dmatch m) (put_entry (free_entry l) (i, cname 14 name) l)) =
    if decide (cname 14 m = cname 14 name) then Some i else fst <$> head (filter (dmatch m) l).
Proof.
  intros Hi Hn%filter_none. destruct (free_entry_split l) as (r & Er & Hr). set (k := free_entry l) in *.
  assert (∀ n, filter (dmatch n) l = filter (dmatch n) (take k l) ++ filter (dmatch n) (drop (S k) l)) as El.
  { intros n. rewrite <- (take_drop k l) at 1. rewrite Er, !filter_app. f_equal. assert (filter (dmatch n) r = []) as ->; [|done].
    clear -Hr. induction Hr as [|e r He _ IH]; [done|]. rewrite filter_cons_False; [done|]. unfold dmatch. lia. }
  rewrite El in Hn |- *. unfold put_entry. rewrite filter_app. case_decide as Hm.
  - assert (filter (dmatch m) (take k l) = []) as ->.
    { apply app_nil in Hn as [Hn _]. rewrite <- Hn. apply list_filter_iff. intros e. unfold dmatch. by rewrite Hm. }
    rewrite app_nil_l, filter_cons_True; [done|]. by split.
  - rewrite filter_cons_False; [done|]. intros [_ H']. cbn [snd] in H'. congruence.
Qed.

(** * Contents *)

Lemma length_dents_take c k : (16 * k ≤ length c)%nat → dents (take (16 * k) c) = take k (dents c).
Proof.
  intros Hk. assert (length (take (16 * k) c) = 16 * k)%nat as Hl by (rewrite length_take; lia).
  rewrite <- (take_drop (16 * k) c) at 2. rewrite dents_app by (rewrite Hl, Nat.mul_comm; apply Nat.Div0.mod_mul).
  rewrite take_app_length'; [done|]. rewrite length_dents, Hl, Nat.mul_comm, Nat.div_mul by lia. done.
Qed.

Lemma length_dents_drop c k : dents (drop (16 * k) c) = drop k (dents c).
Proof.
  destruct (decide (16 * k ≤ length c)%nat) as [Hk|Hk].
  - assert (length (take (16 * k) c) = 16 * k)%nat as Hl by (rewrite length_take; lia).
    rewrite <- (take_drop (16 * k) c) at 2. rewrite dents_app by (rewrite Hl, Nat.mul_comm; apply Nat.Div0.mod_mul).
    rewrite drop_app_length'; [done|]. rewrite length_dents, Hl, Nat.mul_comm, Nat.div_mul by lia. done.
  - rewrite !drop_ge; [done| |lia]. rewrite length_dents. apply Nat.lt_le_incl, Nat.Div0.div_lt_upper_bound. lia.
Qed.

Lemma dents_overwrite c k de e : (16 * k ≤ length c)%nat → length de = 16%nat → dents de = [e] →
  dents (overwrite (16 * k) de c) = put_entry k e (dents c).
Proof.
  intros Hk Hl He. unfold overwrite, put_entry. rewrite Hl. replace (16 * k + 16)%nat with (16 * S k)%nat by lia.
  rewrite dents_app by (rewrite length_take, Nat.min_l, Nat.mul_comm by lia; apply Nat.Div0.mod_mul).
  rewrite dents_app by (by rewrite Hl). by rewrite length_dents_take, length_dents_drop, He.
Qed.

Section link.
Context {S : Type} `{!Store S, !StoreSpec S} (pid : Z) (fuel : nat) (dp : nat).
Implicit Types (s : fs S) (P : gset Z).

Local Abbreviation ents s := (dents (contents dp s)).

(** The search for a free entry. *)
Lemma dirlink_search P : ∀ n k s fuel', (k + n = length (ents s))%nat → (n < fuel')%nat →
  is_dir dp s → rdy s P ∅ → (size P < NBUF)%nat → (∀ j e, (j < k)%nat → ents s !! j = Some e → e.1 ≠ 0) →
  ∃ s', loop fuel' (dirlink_body dp) (DIRENT * Z.of_nat k) s = Ret (DIRENT * Z.of_nat (free_entry (ents s))) s' ∧ rdy s' P ∅ ∧ unseen s s'.
Proof.
  induction n as [|n IH]; intros k s fuel' Hk Hf D R Hp Hno; (destruct fuel' as [|fuel']; [lia|]).
  - exists s. split; [|split; [done|apply unseen_refl]].
    assert (free_entry (ents s) = k) as ->.
    { unfold free_entry. destruct (list_find _ _) as [[j e]|] eqn:E; [|lia]. apply list_find_Some in E as (Hj & He & _).
      exfalso. apply (Hno j e); [|done|done]. apply lookup_lt_Some in Hj. lia. }
    apply loop_done. unfold dirlink_body. msimpl. fold (meta dp s). rewrite (dir_size dp s D), (proj2 (Z.ltb_ge _ _)) by (change DIRENT with 16; lia). done.
  - assert (k < length (contents dp s) / 16)%nat as Hk' by (rewrite <- length_dents; lia).
    destruct (entry_read dp s P k D R Hp Hk') as (s1 & de & E & R1 & U1 & Ed). pose proof (lookup_dents _ _ Hk') as Hl.
    assert (dirlink_body dp (DIRENT * Z.of_nat k) s = Ret (if get16 0 de =? 0 then inr (DIRENT * Z.of_nat k) else inl (DIRENT * Z.of_nat (k + 1))) s1) as Eb.
    { unfold dirlink_body. msimpl. fold (meta dp s). rewrite (dir_size dp s D), (proj2 (Z.ltb_lt _ _)) by (change DIRENT with 16; lia). rewrite E. cbn [res_bind].
      rewrite Z.eqb_refl. cbn [negb]. replace (DIRENT * Z.of_nat (k + 1)) with (DIRENT * Z.of_nat k + DIRENT) by (change DIRENT with 16; lia). by destruct (_ =? 0). }
    rewrite Ed in Hl. destruct (Z.eqb_spec (get16 0 de) 0) as [Hz|Hz].
    + exists s1. split; [|done]. assert (free_entry (ents s) = k) as ->; [|by apply loop_done]. unfold free_entry.
      assert (list_find (λ e, e.1 = 0) (ents s) = Some (k, (get16 0 de, cname 14 (drop 2 de)))) as ->; [|done].
      apply list_find_Some. split; [done|]. split; [done|]. intros j e Hj Hlt. by apply (Hno j e).
    + destruct (sound_unseen dp s s1 U1 (di_sound _ _ D)) as [_ Ec].
      destruct (IH (k + 1)%nat s1 fuel') as (s' & E' & R' & U'); rewrite ?Ec; try done; try lia; [by apply (is_dir_unseen dp s)| |].
      { intros j e Hj He. destruct (decide (j = k)) as [->|]; [rewrite Hl in He; by injection He as <-|]. apply (Hno j e); [lia|done]. }
      exists s'. split; [|split; [done|by apply (unseen_trans s s1)]]. rewrite (loop_next _ _ _ _ _ _ Eb). rewrite Ec in E'. exact E'.
Qed.

Lemma free_entry_bound s : is_dir dp s → (16 * free_entry (ents s) ≤ length (contents dp s))%nat.
Proof.
  intros D. assert (free_entry (ents s) ≤ length (ents s))%nat as H.
  { unfold free_entry. destruct (list_find _ _) as [[j e]|] eqn:E; [|done]. apply list_find_Some in E as (Hj & _). apply lookup_lt_Some in Hj. lia. }
  rewrite length_dents in H. pose proof (Nat.Div0.mul_div_le (length (contents dp s)) 16). lia.
Qed.

(** The entry is written, *)
Record linked_in (name : list Z) (i : Z) s s' : Prop := {
  li_dir : is_dir dp s';
  li_ents : ents s' = put_entry (free_entry (ents s)) (i, cname 14 name) (ents s);
  li_look : ∀ m, dlook m (contents dp s') = if decide (cname 14 m = cname 14 name) then Some i else dlook m (contents dp s);
  li_wrote : wrote dp (le_enc 2 (u16 i) ++ strncpy (Z.to_nat DIRSIZ) name) (DIRENT * Z.of_nat (free_entry (ents s))) s DIRENT s';
}.

(** or nothing changes: the disk is full, or the directory as large as a file can be. *)
Record not_linked s s' : Prop := {
  nl_dir : is_dir dp s';
  nl_contents : contents dp s' = contents dp s;
  nl_full : full s' ∨ d_size (meta dp s) = MAXFILE * BSIZE;
  nl_wrote : ∃ bs, length bs = 16%nat ∧ wrote dp bs (DIRENT * Z.of_nat (free_entry (ents s))) s 0 s';
}.

Lemma wrote_nothing bs off s i : sound dp s → loaded s dp i → 0 ≤ off ≤ d_size (meta dp s) → wrote dp bs off s 0 s.
Proof.
  intros Sd (Hd & Hi & Hm & _) Ho. constructor; try done.
  - unfold overwrite. change (take (Z.to_nat 0) bs) with (@nil Z). cbn [length app]. by rewrite Nat.add_0_r, take_drop.
  - rewrite Z.max_l by lia. by destruct (meta dp s).
  - split; [done|]. unfold meta. by destruct (ino dp s).
  - unfold meta, iblock. by rewrite Hm, Hi.
  - intros k Hk. by left.
Qed.

Lemma wrote_unseen bs off s s1 tot s' : unseen s s1 → wrote dp bs off s1 tot s' → wrote dp bs off s tot s'.
Proof.
  intros U W. pose proof (un_blks _ _ U) as B. pose proof (un_dur _ _ U) as Du. destruct W as [W1 W2 W3 W4 W5 W6 W7 W8 W9 W10 W11 W12 W13].
  assert (∀ j, ino j s1 = ino j s) as Ei by (intros j; by rewrite (un_mem _ _ U)).
  assert (sb s1 = sb s) as Es by (by rewrite (un_mem _ _ U)).
  assert (contents dp s1 = contents dp s) as Ec by (unfold contents, meta; rewrite Ei; apply (fbytes_unseen dp s s1 _ _ U)).
  unfold meta, iblock in *. rewrite !Ei, ?Es, ?Ec, ?B in *. constructor; unfold meta, iblock; try done.
  - intros c Hc Hk Hne. rewrite W7; [apply B|by apply (unseen_taken dp s)| |done]. intros k Hk'. rewrite (unseen_addr dp s s1 k U). by apply Hk.
  - intros j Hj. rewrite W8 by done. apply Ei.
  - intros c. by rewrite W9.
  - intros k Hk. rewrite <- (unseen_addr dp s s1 k U). assert (∀ c, used s c = used s1 c) as Eu by (intros c; unfold used; by rewrite Es, B). rewrite Eu. by apply W10.
  - intros c Hc Hu. apply W11; [done|]. unfold used. rewrite Es, B. exact Hu.
  - by rewrite (un_mem _ _ U) in W12.
  - intros He k Hk Hn. rewrite <- (unseen_addr dp s s1 k U). by apply W13.
Qed.

(** The end of [dirlink]: the entry goes to the place found. *)
Lemma write_entry s P name i d :
  is_dir dp s → rdy s P ∅ → (size P + 7 < LOGCAP)%nat → bytes name → 0 < i < 65536 → dlook name (contents dp s) = None → loaded s dp d →
  let de := le_enc 2 (u16 i) ++ strncpy (Z.to_nat DIRSIZ) name in let off := DIRENT * Z.of_nat (free_entry (ents s)) in
  ∃ n s' P', writei dp (from_kernel de) off DIRENT s = Ret n s' ∧ rdy s' P' ∅ ∧ (size P' ≤ size P + 7)%nat ∧
    (n = DIRENT ∧ linked_in name i s s' ∨ n ≠ DIRENT ∧ not_linked s s').
Proof.
  intros D R Hlog Hby Hi Hnone Ld de off. destruct maxfile_val as (EM & EN & _ & EB). change LOGCAP with 29%nat in *.
  assert (length de = 16%nat) as Hde by (unfold de; by rewrite length_app, length_le_enc, length_strncpy).
  assert (bytes de) as Hdb by (apply Forall_app; split; [apply bytes_le_enc|by apply bytes_strncpy]).
  pose proof (free_entry_bound s D) as Hfe. rewrite length_contents in Hfe. pose proof (di_sound _ _ D) as Sd. destruct (sd_dense _ _ Sd) as [Hs _].
  change DIRENT with 16 in *. assert (0 ≤ off ≤ d_size (meta dp s)) as Ho by (unfold off; lia).
  destruct (decide (off + 16 ≤ MAXFILE * BSIZE)) as [Hfit|Hfit].
  2:{ exists (-1), s, P. split; [apply writei_refuses; rewrite ?EM, ?EB in *; lia|]. split; [done|]. split; [lia|]. right. split; [done|]. constructor; [done|done|right|exists de; split; [done|by apply (wrote_nothing _ _ _ d)]].
    rewrite EM, EB in *. pose proof (dir_size dp s D) as Hds. change DIRENT with 16 in Hds. unfold off in *. lia. }
  assert (rounds off 16 = 1)%nat as Er.
  { unfold rounds. rewrite decide_True by lia. rewrite EB. unfold off. clear. zdm. }
  assert (Z.of_nat (length de) = 16 ∧ bytes de) as H1 by (by rewrite Hde).
  assert (0 ≤ off ∧ off + 16 ≤ MAXFILE * BSIZE) as H2 by (split; [apply Ho|done]).
  destruct (writei_ok dp de (from_kernel de) off 16 H1 ltac:(done) H2 s P R Sd (proj2 Ho)) as (tot & s' & P' & E & Ht & Hfull & R' & HP' & W); [rewrite Er; unfold LOGCAP; lia|].
  rewrite Er in HP'. exists tot, s', P'. split; [exact E|]. split; [done|]. split; [lia|].
  assert (tot = 16 ∨ tot = 0) as [-> | ->].
  { destruct Ht as [Ht [H'|[H'|H']]]; [by right|by left|]. rewrite EB in H'. unfold off in H'. clear -H' Ht. zdm. }
  - left. split; [done|]. assert (contents dp s' = overwrite (16 * free_entry (ents s)) de (contents dp s)) as Ec.
    { rewrite (wt_contents _ _ _ _ _ _ W), (take_ge de) by (rewrite Hde; done). f_equal. unfold off. lia. }
    assert (ents s' = put_entry (free_entry (ents s)) (i, cname 14 name) (ents s)) as Ee.
    { rewrite Ec. apply dents_overwrite; [by apply free_entry_bound|done|]. apply dents_entry. lia. }
    constructor; [|done| |done].
    + pose proof (wt_meta _ _ _ _ _ _ W) as Em. constructor; [exact (wt_sound _ _ _ _ _ _ W)|rewrite Em; exact (di_type _ _ D)|]. rewrite Em. cbn [d_size]. change DIRENT with 16.
      pose proof (di_size _ _ D) as Hm. change DIRENT with 16 in Hm. unfold off.
      destruct (Z.max_spec (d_size (meta dp s)) (16 * Z.of_nat (free_entry (ents s)) + 16)) as [[_ ->]|[_ ->]]; [|done].
      rewrite <- Z.mul_succ_r, Z.mul_comm. by apply Z.mod_mul.
    + intros m. rewrite !dlook_filter, Ee, <- look_put with (i := i) (name := name); [done|lia|]. rewrite dlook_filter in Hnone. by destruct (head _).
  - right. split; [done|]. constructor; [| |left; apply (proj1 (Hfull ltac:(lia)))|by exists de].
    + pose proof (wt_meta _ _ _ _ _ _ W) as Em. constructor; [exact (wt_sound _ _ _ _ _ _ W)|rewrite Em; exact (di_type _ _ D)|]. rewrite Em. cbn [d_size]. rewrite Z.max_l by lia. exact (di_size _ _ D).
    + rewrite (wt_contents _ _ _ _ _ _ W). unfold overwrite. change (take (Z.to_nat 0) de) with (@nil Z). cbn [length app]. rewrite Nat.add_0_r. apply take_drop.
Qed.

Lemma linked_unseen name i s s1 s' : unseen s s1 → is_dir dp s → linked_in name i s1 s' → linked_in name i s s'.
Proof.
  intros U D [L1 L2 L3 W]. destruct (sound_unseen dp s s1 U (di_sound _ _ D)) as [_ Ec]. rewrite Ec in *.
  constructor; try done. by apply (wrote_unseen _ _ s s1).
Qed.

Lemma not_linked_unseen s s1 s' : unseen s s1 → is_dir dp s → not_linked s1 s' → not_linked s s'.
Proof.
  intros U D [L1 L2 L3 (bs & Ho & W)]. destruct (sound_unseen dp s s1 U (di_sound _ _ D)) as [_ Ec].
  assert (meta dp s1 = meta dp s) as Em by (unfold meta; by rewrite (un_mem _ _ U)). rewrite Em, Ec in *.
  constructor; [done|done|done|]. exists bs. split; [done|]. by apply (wrote_unseen _ _ s s1).
Qed.

Lemma dlook_find name c : dlook name c = match dfind name c with Some (_, (i, _)) => Some i | None => None end.
Proof. unfold dlook. by destruct (dfind name c) as [[k [i nm]]|]. Qed.

(** The name is new. *)
Lemma dirlink_new s P h name i' i n :
  is_dir dp s → rdy s P ∅ → (size P + 7 < LOGCAP)%nat → cache_ok pid s h → refs s dp = Some (i, n) → loaded s dp i →
  (∃ j, (j < NINODE)%nat ∧ refs s j = None) → bytes name → 0 < i' < 65536 → dlook name (contents dp s) = None →
  ∃ r s' P', dirlink pid fuel dp name i' s = Ret r s' ∧ rdy s' P' ∅ ∧ (size P' ≤ size P + 7)%nat ∧
    (r = 0 ∧ linked_in name i' s s' ∨ r = -1 ∧ not_linked s s').
Proof.
  intros D R Hlog C Hr Ld Hfree Hby Hi' Hnone. assert (size P < NBUF)%nat as Hp by (unfold LOGCAP, NBUF in *; lia).
  pose proof (dirlookup_ok pid dp name s P h i n D R Hp C Hr Ld Hfree) as HD. pose proof Hnone as Hf. rewrite dlook_find in Hf.
  destruct (dfind name (contents dp s)) as [[k [i2 nm]]|]; [done|]. destruct HD as (s1 & E1 & R1 & U1).
  pose proof (is_dir_unseen dp s s1 U1 D) as D1. destruct (sound_unseen dp s s1 U1 (di_sound _ _ D)) as [_ Ec1].
  destruct (dirlink_search P (length (ents s1)) 0 s1 (Z.to_nat (d_size (meta dp s1) / DIRENT) + 2)) as (s2 & E2 & R2 & U2); try done.
  { rewrite (dir_size dp s1 D1). change DIRENT with 16. zdm. }
  { intros j e Hj. lia. }
  pose proof (is_dir_unseen dp s1 s2 U2 D1) as D2. destruct (sound_unseen dp s1 s2 U2 (di_sound _ _ D1)) as [_ Ec2].
  destruct (write_entry s2 P name i' i D2 R2 Hlog Hby Hi') as (w & s' & P' & E3 & R' & HP' & Hres); [by rewrite Ec2, Ec1|apply (loaded_unseen s1 s2 dp i U2), (loaded_unseen s s1 dp i U1 Ld)|].
  pose proof (unseen_trans s s1 s2 U1 U2) as U. exists (if w =? DIRENT then 0 else -1), s', P'. split.
  { unfold dirlink. msimpl. rewrite E1. cbn [res_bind]. change (DIRENT * Z.of_nat 0) with 0 in E2. fold (meta dp s1). rewrite E2. cbn [res_bind].
    rewrite Ec2 in E3. rewrite E3. cbn [res_bind]. by destruct (w =? DIRENT). }
  split; [done|]. split; [done|]. destruct Hres as [[-> Hl]|(Hw & Hl)].
  - left. split; [done|]. by apply (linked_unseen name i' s s2).
  - right. rewrite (proj2 (Z.eqb_neq _ _)) by done. split; [done|]. by apply (not_linked_unseen s s2).
Qed.

(** The name is there. *)
Lemma dirlink_old s P h name i' i n i2 :
  is_dir dp s → rdy s P ∅ → (size P < NBUF)%nat → cache_ok pid s h → refs s dp = Some (i, n) → loaded s dp i →
  (∃ j, (j < NINODE)%nat ∧ refs s j = None) → dlook name (contents dp s) = Some i2 → i2 = i ∨ d_nlink (disk_inode s i2) ≠ 0 →
  ∃ s', dirlink pid fuel dp name i' s = Ret (-1) s' ∧ rdy s' P ∅ ∧ looks s s' ∧ cache_ok pid s' h ∧ (∀ k, refs s' k = refs s k) ∧ loaded s' dp i.
Proof.
  intros D R Hp C Hr Ld Hfree Hf Hnl. pose proof (dirlookup_ok pid dp name s P h i n D R Hp C Hr Ld Hfree) as HD. rewrite dlook_find in Hf.
  destruct (dfind name (contents dp s)) as [[k [i3 nm]]|]; [|done]. injection Hf as ->. destruct HD as (j & s1 & E1 & R1 & C1 & L1 & F1 & Hj & Ld1).
  assert (refs s1 j = Some (i2, 1 + from_option snd 0 (refs s j))) as Hj1 by (rewrite F1; unfold add_ref; by rewrite decide_True).
  assert (fits_ref (refs s) j i2) as Hfit by (intros a b Hab; split; [by apply (Hj a b)|by apply refs_in in Hab as (_ & _ & ?)]).
  destruct (iput_ok pid fuel s1 P h j i2 (1 + from_option snd 0 (refs s j)) C1) as (s' & E' & R' & C' & L' & Hv' & F'); [|exact Hj1| |done|].
  { intros Hjh%(ic_held _ _ _ C). unfold refs. rewrite (proj2 (Z.ltb_lt _ _)) by done. cbn. lia. }
  { destruct Hnl as [->|Hnl]; [left|right; by rewrite (looks_inode _ _ i2 L1)]. assert (j = dp) as ->.
    { destruct (refs_in _ _ _ _ Hj1) as (Ei & Er & Hp1). destruct (refs_in s1 dp i (if decide (dp = j) then 1 + n else n)) as (Ei' & Er' & Hp2).
      - rewrite F1. unfold add_ref. destruct (decide (dp = j)) as [<-|]; [by rewrite Hr|done].
      - apply (ic_inj _ _ _ C1); [lia|lia|congruence]. }
    rewrite Hr. cbn. destruct (refs_in _ _ _ _ Hr) as (_ & _ & ?). lia. }
  exists s'. split; [unfold dirlink; rewrite (bind_ret_eq _ _ _ _ _ E1); by rewrite (bind_ret_eq _ _ _ _ _ E')|]. split; [done|]. split; [by eapply looks_trans|]. split; [done|].
  assert (∀ k, refs s' k = refs s k) as F by (intros k'; rewrite F', <- (drop_add (refs s) j i2 k' Hfit); unfold drop_ref; by rewrite !F1).
  split; [done|]. apply (loaded_intro pid s' h dp i n C'); [by rewrite F|]. rewrite Hv'. apply Ld1.
Qed.
End link.
