(* ===== verification/FsTrunc.v ===== *)
(** [itrunc] of kernel/fs.c, and [iput] of the last reference to a file without names: all
    blocks of the file go back to the allocator. *)

From S2P Require Import Prelude Bytes Sleeplock Bio Store Fs FsBlock FsAlloc Dinode FsFile FsRead FsWrite FsFileProps FsInode FsDir FsPath.

Lemma nth_replicate_zero n k : nth k (replicate n 0) 0 = 0.
Proof. revert k. induction n as [|n IH]; intros [|k]; cbn; done. Qed.

Section trunc.
Context {S : Type} `{!Store S, !StoreSpec S} (ip : nat).
Implicit Types (s : fs S) (P L X : gset Z).

Context (s0 : fs S) (P B : gset Z).
Hypothesis F0 : file_ok ip s0.
Hypothesis A0 : alloc_ok s0.

(** The blocks of the file, the indirect block included. *)
Definition owns (b : Z) : Prop := b ≠ 0 ∧ ∃ k, 0 ≤ k ≤ MAXFILE ∧ faddr ip s0 k = b.

Hypothesis HB : ∀ b, owns b → BBLOCK b (sb s0) ∈ B.
Hypothesis Hlog : (size (P ∪ B) + 1 < LOGCAP)%nat.

(** The blocks [X] of the file are free, and [L] held. *)
Record trunc X L s : Prop := {
  tc_rdy : ∃ P', rdy s P' L ∧ P' ⊆ P ∪ B;
  tc_sb : sb s = sb s0;
  tc_used : ∀ c, 0 ≤ c < sb_size (sb s0) → used s c = if decide (c ∈ X) then false else used s0 c;
  tc_blks : ∀ c, ¬ is_bitmap s0 c → blks s c = blks s0 c;
  tc_dur : ∀ c, durable (store s) c = durable (store s0) c;
  tc_owns : ∀ b, b ∈ X → owns b;
}.

Lemma owns_taken b : owns b → taken s0 b ∧ b ≠ iblock ip s0.
Proof. intros (Hb & k & Hk & Ek). rewrite <- Ek. apply (fo_taken _ _ F0); [done|congruence]. Qed.

Lemma trunc_alloc X L s : trunc X L s → alloc_ok s.
Proof.
  intros [_ Es Hu _ _ Ho]. destruct A0 as [A1 A2 A3 A4]. assert (∀ c, is_bitmap s c ↔ is_bitmap s0 c) as Eb by (intros c; apply is_bitmap_sb, Es).
  constructor; rewrite ?Es; try done.
  - intros c Hc%Eb. by apply A2.
  - intros b Hb. rewrite Hu, Eb by done. case_decide as Hx; [|by apply A3]. intros _. destruct (owns_taken b (Ho b Hx)) as [(_ & _ & ? & ?) _]. done.
  - rewrite Hu by lia. case_decide as Hx; [|done]. destruct (Ho _ Hx) as [? _]. done.
Qed.

Lemma trunc_free X L s b :
  trunc X L s → owns b → b ∉ X → (size L ≤ 1)%nat → (∀ c, c ∈ L → ¬ is_bitmap s0 c) →
  ∃ s', bfree ROOTDEV b s = Ret tt s' ∧ trunc ({[b]} ∪ X) L s' ∧ kept s s' L.
Proof.
  intros T Hb Hx HL Hbm. pose proof T as [(P' & R & HP) Es Hu Hbl Hd Ho]. destruct (owns_taken b Hb) as [(Hr & Hub & _ & Hnb) _].
  pose proof (subseteq_size _ _ HP) as Hsz. pose proof (size_union_alt P' L) as Hpl. pose proof (subseteq_size (L ∖ P') L ltac:(set_solver)) as Hld. unfold LOGCAP, NBUF in *.
  assert (is_bitmap s0 (BBLOCK b (sb s0))) as Hbb by (exists b; split; [lia|done]).
  pose proof (bfree_ok s P' L b (trunc_alloc X L s T) R) as H. rewrite Es, Hu, decide_False, Hub in H by (done || lia).
  destruct H as (s' & E & [Fu Fo Fr Fk]); [lia|intros Hin; by apply (Hbm _ Hin)|unfold NBUF; lia|unfold LOGCAP; lia|].
  exists s'. split; [done|]. split; [|done]. rewrite Es in Fu, Fo, Fr. constructor.
  - eexists. split; [exact Fr|]. specialize (HB b Hb). set_solver.
  - by rewrite (kept_sb _ _ _ Fk).
  - intros c Hc. rewrite Fu by done. destruct (decide (c = b)) as [->|Hne]; [by rewrite decide_True by set_solver|]. rewrite Hu by done.
    destruct (decide (c ∈ X)); [by rewrite decide_True by set_solver|by rewrite decide_False by set_solver].
  - intros c Hc. rewrite Fo; [by apply Hbl|]. by intros ->.
  - intros c. by rewrite (kp_dur _ _ _ Fk).
  - intros c [->%elem_of_singleton|Hc]%elem_of_union; [done|by apply Ho].
Qed.

(** * The blocks in order *)

Definition covers X (n : Z) : Prop := ∀ b, b ∈ X ↔ b ≠ 0 ∧ ∃ k, 0 ≤ k < n ∧ faddr ip s0 k = b.

Lemma covers_nil : covers ∅ 0.
Proof. intros b. split; [set_solver|]. intros (_ & k & Hk & _). lia. Qed.

Lemma covers_zero X n m : covers X n → n ≤ m → (∀ k, n ≤ k < m → faddr ip s0 k = 0) → covers X m.
Proof.
  intros C Hm Hz b. rewrite (C b). split; intros (Hb & k & Hk & Ek); (split; [done|]; exists k; split; [|done]); [lia|].
  destruct (decide (k < n)); [lia|]. rewrite Hz in Ek by lia. congruence.
Qed.

Lemma covers_next X n : covers X n → 0 ≤ n ≤ MAXFILE → faddr ip s0 n ≠ 0 → (faddr ip s0 n ∉ X) ∧ covers ({[faddr ip s0 n]} ∪ X) (n + 1) ∧ owns (faddr ip s0 n).
Proof.
  intros C Hn Hne. split; [|split].
  - rewrite (C _). intros (_ & k & Hk & Ek). pose proof (fo_inj _ _ F0 n k Hn ltac:(lia) Hne (eq_sym Ek)). lia.
  - intros b. rewrite elem_of_union, elem_of_singleton, (C b). split.
    + intros [->|(Hb & k & Hk & Ek)]; (split; [done|]); [exists n|exists k]; (split; [lia|done]).
    + intros (Hb & k & Hk & Ek). destruct (decide (k = n)) as [->|]; [by left|right]. split; [done|]. exists k. split; [lia|done].
  - split; [done|]. by exists n.
Qed.

(** The inode in memory: the addresses [z] are gone, the rest is as it was. *)
Record shape (z : Z → bool) s : Prop := {
  sh_len : length (inodes s) = length (inodes s0);
  sh_others : ∀ j, j ≠ ip → ino j s = ino j s0;
  sh_ino : ino ip s = set_idata (Dinode (d_type (meta ip s0)) (d_major (meta ip s0)) (d_minor (meta ip s0)) (d_nlink (meta ip s0))
    (d_size (meta ip s0)) (d_addrs (meta ip s))) (ino ip s0);
  sh_alen : length (d_addrs (meta ip s)) = 13%nat;
  sh_addr : ∀ k, 0 ≤ k ≤ NDIRECT → addr_at k (meta ip s) = if z k then 0 else addr_at k (meta ip s0);
  sh_lock : itable_lock s = itable_lock s0;
}.

Lemma shape_start : shape (λ _, false) s0.
Proof. constructor; try done; [|apply F0]. unfold meta. by destruct (ino ip s0) as [? ? ? ? ? [??????]]. Qed.

Lemma shape_kept z s s' L : shape z s → kept s s' L → shape z s'.
Proof.
  intros [H1 H2 H3 H4 H5 H6] K. assert (∀ j, ino j s' = ino j s) as E by (intros j; by rewrite (kp_mem _ _ _ K)).
  constructor; unfold meta in *; rewrite ?E; try done; [by rewrite (kp_mem _ _ _ K)| |by rewrite (kp_mem _ _ _ K)]. intros j Hj. rewrite E. by apply H2.
Qed.

Lemma shape_ext z z' s : (∀ k, 0 ≤ k ≤ NDIRECT → addr_at k (meta ip s0) ≠ 0 → z k = z' k) → shape z s → shape z' s.
Proof.
  intros Hz [H1 H2 H3 H4 H5 H6]. constructor; try done. intros k Hk. rewrite H5 by done.
  destruct (decide (addr_at k (meta ip s0) = 0)) as [->|Hne]; [by destruct (z k), (z' k)|]. by rewrite (Hz k Hk Hne).
Qed.

Definition clear_addr (i : Z) s : fs S := iupd ip (λ x, set_idata (set_addr i 0 (idata x)) x) s.

Lemma shape_clear z s i : shape z s → 0 ≤ i ≤ NDIRECT → shape (λ k, (k =? i) || z k) (clear_addr i s).
Proof.
  intros [H1 H2 H3 H4 H5 H6] Hi. assert (ip < length (inodes s))%nat as Hl by (rewrite H1; apply F0).
  assert (ino ip (clear_addr i s) = set_idata (set_addr i 0 (idata (ino ip s))) (ino ip s)) as E by exact (ino_iupd ip s _ Hl).
  assert (meta ip (clear_addr i s) = set_addr i 0 (meta ip s)) as Em by (unfold meta; by rewrite E).
  constructor.
  - unfold clear_addr, iupd, set_inodes. cbn [inodes]. by rewrite length_alter.
  - intros j Hj. unfold clear_addr. rewrite ino_iupd_ne by done. by apply H2.
  - rewrite E, Em. unfold meta at 6. rewrite H3. done.
  - rewrite Em. cbn [d_addrs set_addr]. by rewrite length_insert.
  - intros k Hk. rewrite Em, addr_at_set by done. destruct (Z.eqb_spec k i) as [->|Hne]; [by rewrite decide_True|]. rewrite decide_False by done. by apply H5.
  - done.
Qed.

Lemma shape_dev z s : shape z s → idev (ino ip s) = ROOTDEV.
Proof. intros H. rewrite (sh_ino _ _ H). apply F0. Qed.

(** A state that differs in what is held. *)
Lemma trunc_held X L L' s s' P' :
  trunc X L s → rdy s' P' L' → P' ⊆ P ∪ B → kept s s' ∅ → (∀ c, blks s' c = blks s c) → trunc X L' s'.
Proof.
  intros [_ Es Hus Hbl Hd Hox] R HP K Hb. constructor; try done.
  - by exists P'.
  - by rewrite (kept_sb _ _ _ K).
  - intros c Hc. rewrite <- Hus by done. unfold used. by rewrite (kept_sb _ _ _ K), Hb.
  - intros c Hc. rewrite Hb. by apply Hbl.
  - intros c. by rewrite (kp_dur _ _ _ K).
Qed.

Lemma trunc_mem X L s s' : store s' = store s → sb s' = sb s → trunc X L s → trunc X L s'.
Proof.
  intros E1 E2 [H1 H2 H3 H4 H5 H6]. assert (∀ c, blks s' c = blks s c) as Eb by (intros c; unfold blks; by rewrite E1).
  constructor; try done.
  - unfold rdy. by rewrite E1.
  - by rewrite E2.
  - intros c Hc. rewrite <- H3 by done. unfold used. by rewrite Eb, E2.
  - intros c. rewrite Eb. apply H4.
  - intros c. by rewrite E1.
Qed.

(** * The direct blocks *)

Lemma direct_step s X i :
  trunc X ∅ s → covers X i → shape (λ k, k <? i) s → 0 ≤ i < NDIRECT →
  ∃ s' X', itrunc_direct ip i s = Ret (inl (i + 1)) s' ∧ trunc X' ∅ s' ∧ covers X' (i + 1) ∧ shape (λ k, k <? i + 1) s'.
Proof.
  intros T C Sh Hi. destruct maxfile_val as (EM & EN & _ & _). unfold itrunc_direct. msimpl. rewrite (proj2 (Z.ltb_lt i NDIRECT)) by lia.
  fold (meta ip s). rewrite (sh_addr _ _ Sh i) by lia. rewrite Z.ltb_irrefl.
  assert (faddr ip s0 i = addr_at i (meta ip s0)) as Ef by (unfold faddr; by rewrite (proj2 (Z.ltb_lt _ _)) by lia).
  destruct (Z.eqb_spec (addr_at i (meta ip s0)) 0) as [Hz|Hz].
  - exists s, X. split; [done|]. split; [done|]. split; [apply (covers_zero X i (i + 1) C ltac:(lia)); intros k Hk; by replace k with i by lia; rewrite Ef|].
    apply (shape_ext (λ k, k <? i)); [|done]. intros k Hk Hne. destruct (Z.ltb_spec k i), (Z.ltb_spec k (i + 1)); try done; [lia|].
    replace k with i in Hne by lia. done.
  - rewrite <- Ef in *. destruct (covers_next X i C ltac:(lia) Hz) as (Hx & C' & Ho). rewrite (shape_dev _ _ Sh).
    destruct (trunc_free X ∅ s _ T Ho Hx) as (s1 & E1 & T1 & K1); [rewrite size_empty; lia|set_solver|].
    rewrite E1. cbn [res_bind]. eexists _, _. split; [done|]. split; [by apply (trunc_mem _ _ s1)|]. split; [done|].
    apply (shape_ext (λ k, (k =? i) || (k <? i))); [|apply (shape_clear _ s1); [by eapply shape_kept|lia]].
    intros k Hk _. destruct (Z.eqb_spec k i), (Z.ltb_spec k i), (Z.ltb_spec k (i + 1)); (done || lia).
Qed.

Lemma direct_loop : ∀ n s X i fuel, (n < fuel)%nat → i + Z.of_nat n = NDIRECT → 0 ≤ i → trunc X ∅ s → covers X i → shape (λ k, k <? i) s →
  ∃ s' X', loop fuel (itrunc_direct ip) i s = Ret tt s' ∧ trunc X' ∅ s' ∧ covers X' NDIRECT ∧ shape (λ k, k <? NDIRECT) s'.
Proof.
  induction n as [|n IH]; intros s X i fuel Hf Hi H0 T C Sh; (destruct fuel as [|fuel]; [lia|]).
  - replace i with NDIRECT in * by lia. exists s, X. split; [|done]. apply loop_done. unfold itrunc_direct. by rewrite Z.ltb_irrefl.
  - destruct (direct_step s X i T C Sh ltac:(lia)) as (s1 & X1 & E1 & T1 & C1 & Sh1). rewrite (loop_next _ _ _ _ _ _ E1). apply (IH s1 X1 (i + 1)); (done || lia).
Qed.

(** * The indirect block *)

Local Abbreviation ib := (iaddr ip s0).

Lemma ind_addr j : ib ≠ 0 → 0 ≤ j < NINDIRECT → faddr ip s0 (NDIRECT + j) = get32 (Z.to_nat (4 * j)) (blks s0 ib).
Proof.
  intros Hi Hj. destruct maxfile_val as (EM & EN & EI & _). unfold faddr. rewrite (proj2 (Z.ltb_ge _ _)), (proj2 (Z.eqb_neq _ MAXFILE)), (proj2 (Z.eqb_neq _ 0)) by (done || lia).
  by replace (NDIRECT + j - NDIRECT) with j by lia.
Qed.

Lemma ind_owned : ib ≠ 0 → owns ib ∧ ¬ is_bitmap s0 ib ∧ usable ib.
Proof.
  intros Hi. assert (owns ib) as Ho by (split; [done|]; exists MAXFILE; split; [destruct maxfile_val; lia|apply faddr_ind]).
  destruct (owns_taken ib Ho) as [(_ & _ & ? & ?) _]. done.
Qed.

Lemma indirect_step s X bp j z :
  ib ≠ 0 → trunc X {[ib]} s → covers X (NDIRECT + j) → shape z s → handle (store s) bp ib → 0 ≤ j < NINDIRECT →
  ∃ s' X', itrunc_indirect ROOTDEV bp j s = Ret (inl (j + 1)) s' ∧ trunc X' {[ib]} s' ∧ covers X' (NDIRECT + (j + 1)) ∧ shape z s' ∧ handle (store s') bp ib.
Proof.
  intros Hi T C Sh Hh Hj. destruct (ind_owned Hi) as (_ & Hnb & _). destruct maxfile_val as (EM & EN & EI & _).
  pose proof (tc_rdy _ _ _ T) as (P' & R & _). pose proof (fdata s P' {[ib]} bp ib R Hh) as Ed. rewrite (tc_blks _ _ _ T ib Hnb) in Ed.
  unfold itrunc_indirect. msimpl. rewrite (proj2 (Z.ltb_lt _ _)), Ed, <- ind_addr by (done || lia).
  destruct (Z.eqb_spec (faddr ip s0 (NDIRECT + j)) 0) as [Hz|Hz].
  - exists s, X. split; [done|]. split; [done|]. split; [|done]. apply (covers_zero X _ _ C); [lia|]. intros k Hk. by replace k with (NDIRECT + j) by lia.
  - destruct (covers_next X _ C ltac:(lia) Hz) as (Hx & C' & Ho).
    destruct (trunc_free X {[ib]} s _ T Ho Hx) as (s1 & E1 & T1 & K1); [by rewrite size_singleton|by intros c ->%elem_of_singleton|].
    rewrite E1. eexists _, _. split; [done|]. split; [done|]. split; [by rewrite Z.add_assoc|]. split; [by eapply shape_kept|]. apply K1; [set_solver|done].
Qed.

Lemma indirect_loop bp z : ib ≠ 0 → ∀ n s X j fuel, (n < fuel)%nat → j + Z.of_nat n = NINDIRECT → 0 ≤ j →
  trunc X {[ib]} s → covers X (NDIRECT + j) → shape z s → handle (store s) bp ib →
  ∃ s' X', loop fuel (itrunc_indirect ROOTDEV bp) j s = Ret tt s' ∧ trunc X' {[ib]} s' ∧ covers X' MAXFILE ∧ shape z s' ∧ handle (store s') bp ib.
Proof.
  intros Hi. induction n as [|n IH]; intros s X j fuel Hf Hj H0 T C Sh Hh; (destruct fuel as [|fuel]; [lia|]).
  - replace j with NINDIRECT in * by lia. exists s, X. split; [|done]. apply loop_done. unfold itrunc_indirect. by rewrite Z.ltb_irrefl.
  - destruct (indirect_step s X bp j z Hi T C Sh Hh ltac:(lia)) as (s1 & X1 & E1 & T1 & C1 & Sh1 & Hh1). rewrite (loop_next _ _ _ _ _ _ E1). apply (IH s1 X1 (j + 1)); (done || lia).
Qed.

(** The part of [itrunc] for the indirect block. *)
Definition itrunc_ind : M (fs S) unit :=
  s ← get;
  let dev := idev (ino ip s) in
  let a := addr_at NDIRECT (idata (ino ip s)) in
  if a =? 0 then mret tt
  else
    bp ← on_store (bread dev a);
    loop (Datatypes.S (Z.to_nat NINDIRECT)) (itrunc_indirect dev bp) 0;;
    on_store (brelse bp);;
    bfree dev a;;
    modify (clear_addr NDIRECT).

Lemma indirect_ok s X :
  trunc X ∅ s → covers X NDIRECT → shape (λ k, k <? NDIRECT) s →
  ∃ s' X', itrunc_ind s = Ret tt s' ∧ trunc X' ∅ s' ∧ (∀ b, b ∈ X' ↔ owns b) ∧ shape (λ _, true) s'.
Proof.
  intros T C Sh. destruct maxfile_val as (EM & EN & EI & _). unfold itrunc_ind. msimpl. fold (meta ip s). rewrite (sh_addr _ _ Sh NDIRECT), Z.ltb_irrefl by lia.
  fold ib. assert (∀ X, covers X (MAXFILE + 1) → ∀ b, b ∈ X ↔ owns b) as Hall.
  { intros Y CY b. rewrite (CY b). unfold owns. split; intros (Hb & k & Hk & Ek); (split; [done|]; exists k; split; [lia|done]). }
  destruct (Z.eqb_spec ib 0) as [Hz|Hz].
  { exists s, X. split; [done|]. split; [done|]. split.
    - apply Hall, (covers_zero X _ _ C); [lia|]. intros k Hk. unfold faddr. rewrite (proj2 (Z.ltb_ge _ _)), Hz by lia. by destruct (k =? MAXFILE).
    - apply (shape_ext (λ k, k <? NDIRECT)); [|done]. intros k Hk Hne. destruct (Z.ltb_spec k NDIRECT); [done|]. replace k with NDIRECT in Hne by lia. done. }
  destruct (ind_owned Hz) as (Ho & Hnb & Hu). rewrite (shape_dev _ _ Sh). pose proof T as [(P' & R & HP) Es Hus Hbl Hd Hox].
  pose proof (subseteq_size _ _ HP) as Hsz. assert (size P' < NBUF)%nat as Hnb' by (unfold LOGCAP, NBUF in *; lia).
  destruct (fread s P' ∅ ib R Hu) as (bp & s1 & E1 & R1 & Hh1 & B1 & K1 & _); [set_solver|by rewrite union_empty_r_L|]. rewrite E1. cbn [res_bind].
  assert (trunc X {[ib]} s1) as T1 by (rewrite union_empty_r_L in R1; by apply (trunc_held X ∅ {[ib]} s s1 P')).
  assert (shape (λ k, k <? NDIRECT) s1) as Sh1 by by eapply shape_kept.
  destruct (indirect_loop bp (λ k, k <? NDIRECT) Hz (Z.to_nat NINDIRECT) s1 X 0 (Datatypes.S (Z.to_nat NINDIRECT))) as (s2 & X2 & E2 & T2 & C2 & Sh2 & Hh2); [lia|lia|lia|done|by rewrite Z.add_0_r|done|done|].
  rewrite E2. cbn [res_bind]. pose proof (tc_rdy _ _ _ T2) as (P2 & R2 & HP2).
  destruct (frelse s2 P2 {[ib]} bp ib R2 ltac:(set_solver) Hh2) as (s3 & E3 & R3 & B3 & K3). rewrite E3. cbn [res_bind].
  rewrite difference_diag_L in R3, K3. pose proof (trunc_held X2 _ ∅ s2 s3 P2 T2 R3 HP2 K3 B3) as T3.
  destruct (covers_next X2 MAXFILE C2 ltac:(lia)) as (Hx & C3 & _); [by rewrite faddr_ind|]. rewrite faddr_ind in Hx, C3.
  destruct (trunc_free X2 ∅ s3 ib T3 Ho Hx) as (s4 & E4 & T4 & K4); [rewrite size_empty; lia|set_solver|]. rewrite E4. cbn [res_bind].
  eexists _, _. split; [done|]. split; [by apply (trunc_mem _ _ s4)|]. split; [by apply Hall|].
  apply (shape_ext (λ k, (k =? NDIRECT) || (k <? NDIRECT))); [|apply (shape_clear _ s4); [|lia]].
  - intros k Hk _. destruct (Z.eqb_spec k NDIRECT), (Z.ltb_spec k NDIRECT); (done || lia).
  - by eapply shape_kept; [eapply shape_kept|].
Qed.

(** * The end *)

Record truncated s : Prop := {
  tn_sound : sound ip s;
  tn_contents : contents ip s = [];
  tn_meta : meta ip s = Dinode (d_type (meta ip s0)) (d_major (meta ip s0)) (d_minor (meta ip s0)) (d_nlink (meta ip s0)) 0 (replicate 13 0);
  tn_ino : sb s = sb s0 ∧ ino ip s = set_idata (meta ip s) (ino ip s0) ∧ length (inodes s) = length (inodes s0);
  tn_lock : itable_lock s = itable_lock s0;
  tn_free : ∀ c, owns c → used s c = false;
  tn_used : ∀ c, 0 ≤ c < sb_size (sb s0) → ¬ owns c → used s c = used s0 c;
  tn_inode : get_dinode (dinode_off (inum (ino ip s0))) (blks s (iblock ip s0)) = meta ip s;
  tn_inodes : ∀ i, i mod IPB ≠ inum (ino ip s0) mod IPB →
    get_dinode (dinode_off i) (blks s (iblock ip s0)) = get_dinode (dinode_off i) (blks s0 (iblock ip s0));
  tn_blks : ∀ c, ¬ is_bitmap s0 c → c ≠ iblock ip s0 → blks s c = blks s0 c;
  tn_mem : ∀ j, j ≠ ip → ino j s = ino j s0;
  tn_dur : ∀ c, durable (store s) c = durable (store s0) c;
}.

Definition empty_size s : fs S := iupd ip (λ x, set_idata (set_size 0 (idata x)) x) s.

Lemma shape_all s (s1 := empty_size s) : shape (λ _, true) s →
  meta ip s1 = Dinode (d_type (meta ip s0)) (d_major (meta ip s0)) (d_minor (meta ip s0)) (d_nlink (meta ip s0)) 0 (replicate 13 0) ∧
  ino ip s1 = set_idata (meta ip s1) (ino ip s0) ∧ length (inodes s1) = length (inodes s0) ∧ itable_lock s1 = itable_lock s0 ∧ ∀ j, j ≠ ip → ino j s1 = ino j s0.
Proof.
  intros [H1 H2 H3 H4 H5 H6]. assert (ip < length (inodes s))%nat as Hl by (rewrite H1; apply F0).
  assert (ino ip s1 = set_idata (set_size 0 (idata (ino ip s))) (ino ip s)) as E by exact (ino_iupd ip s _ Hl).
  assert (d_addrs (meta ip s) = replicate 13 0) as Ea.
  { apply (nth_ext _ _ 0 0); [by rewrite H4|]. intros n Hn. rewrite H4 in Hn. rewrite nth_replicate_zero.
    pose proof (H5 (Z.of_nat n) ltac:(destruct maxfile_val; lia)) as Hx. unfold addr_at in Hx. by rewrite Nat2Z.id in Hx. }
  assert (meta ip s1 = set_size 0 (meta ip s)) as Em by (unfold meta; by rewrite E). split; [|split; [|split; [|split]]].
  - rewrite Em. unfold set_size. rewrite Ea. unfold meta at 1 2 3 4. rewrite H3. done.
  - assert (∀ d, set_idata d (ino ip s) = set_idata d (ino ip s0)) as Hs by (intros d; by rewrite H3). rewrite E, Em. apply Hs.
  - unfold s1, empty_size, iupd, set_inodes. cbn [inodes]. by rewrite length_alter.
  - exact H6.
  - intros j Hj. unfold s1, empty_size. rewrite ino_iupd_ne by done. by apply H2.
Qed.

(** The state before ([s3]) and after ([s4]) the inode is stored. *)
Lemma truncated_intro X s3 s4 :
  trunc X ∅ s3 → (∀ b, b ∈ X ↔ owns b) →
  meta ip s3 = Dinode (d_type (meta ip s0)) (d_major (meta ip s0)) (d_minor (meta ip s0)) (d_nlink (meta ip s0)) 0 (replicate 13 0) →
  ino ip s3 = set_idata (meta ip s3) (ino ip s0) → length (inodes s3) = length (inodes s0) → itable_lock s3 = itable_lock s0 → (∀ j, j ≠ ip → ino j s3 = ino j s0) →
  file_ok ip s3 → alloc_ok s3 → dinode_ok (meta ip s3) → (∀ k, 0 ≤ k ≤ MAXFILE → faddr ip s3 k = 0) → kept s3 s4 ∅ →
  Z.of_nat (length (blks s3 (iblock ip s0))) = BSIZE →
  blks s4 (iblock ip s0) = put_dinode (dinode_off (inum (ino ip s3))) (meta ip s3) (blks s3 (iblock ip s0)) →
  (∀ c, c ≠ iblock ip s0 → blks s4 c = blks s3 c) → truncated s4.
Proof.
  intros [_ Es Hu Hbl Hd Hox] HX Em Ei Hl Hlk Ho F3 A3 D3 Hfz K Hlen Hb4 Ho4. pose proof (kp_mem _ _ _ K) as Ek.
  assert (∀ j, ino j s4 = ino j s3) as Ej by (intros j; by rewrite Ek). assert (meta ip s4 = meta ip s3) as Em4 by (unfold meta; by rewrite Ej).
  assert (sb s4 = sb s3) as Es4 by (by rewrite Ek). assert (inum (ino ip s3) = inum (ino ip s0)) as En by (by rewrite Ei).
  assert (iblock ip s3 = iblock ip s0) as Eib by (unfold iblock; by rewrite En, Es). destruct maxfile_val as (EM & EN & _ & EB).
  assert (∀ c, c ≠ iblock ip s3 → blks s4 c = blks s3 c) as Ho4' by (by rewrite Eib).
  assert (idev (ino ip s4) = idev (ino ip s3) ∧ inum (ino ip s4) = inum (ino ip s3) ∧ d_addrs (meta ip s4) = d_addrs (meta ip s3)) as Hino by (by rewrite Ej, Em4).
  assert (length (inodes s4) = length (inodes s3)) as El4 by (by rewrite Ek).
  assert (∀ c, 0 ≤ c < sb_size (sb s0) → used s4 c = if decide (c ∈ X) then false else used s0 c) as Hu4.
  { intros c Hc. rewrite <- Hu by done. apply (frame_used ip s3 s4); try done. by rewrite Es. }
  pose proof (fo_iblock _ _ F0) as (_ & _ & _ & Hnb).
  assert (dinode_off (inum (ino ip s0)) + 64 ≤ length (blks s3 (iblock ip s0)))%nat as Hoff
    by (pose proof (dinode_off_bound (inum (ino ip s0))); rewrite EB in Hlen; lia).
  constructor; try done.
  - constructor; [by apply (frame_file_ok ip s3 s4)|by apply (frame_alloc_ok ip s3 s4)| |by rewrite Em4].
    split; [rewrite Em4, Em; cbn [d_size]; rewrite EM, EB; lia|]. intros k Hk. rewrite Em4, Em. cbn [d_size]. rewrite EB. lia.
  - unfold contents. by rewrite Em4, Em.
  - by rewrite Em4.
  - split; [by rewrite Es4|]. split; [by rewrite Ej, Em4|by rewrite El4].
  - by rewrite Ek.
  - intros c Hc. destruct (owns_taken c Hc) as [(Hr & _) _]. rewrite Hu4 by lia. by rewrite decide_True by (by apply HX).
  - intros c Hc Hno. rewrite Hu4 by done. rewrite decide_False; [done|]. by rewrite HX.
  - rewrite Hb4, Em4, En. by apply get_put_dinode.
  - intros i Hne. rewrite Hb4, En, get_dinode_other, (Hbl _ Hnb); [done|done|done|]. by apply dinode_off_apart.
  - intros c Hc Hne. rewrite Ho4 by done. by apply Hbl.
  - intros j Hj. rewrite Ej. by apply Ho.
  - intros c. by rewrite (kp_dur _ _ _ K).
Qed.

Lemma itrunc_ok :
  rdy s0 P ∅ → dinode_ok (meta ip s0) →
  ∃ s P', itrunc ip s0 = Ret tt s ∧ rdy s P' ∅ ∧ P' ⊆ {[iblock ip s0]} ∪ (P ∪ B) ∧ truncated s.
Proof.
  intros R D. destruct maxfile_val as (EM & EN & EI & EB). assert (trunc ∅ ∅ s0) as T0.
  { constructor; [exists P; split; [done|set_solver]|done|intros c _; by rewrite decide_False by set_solver|done|done|set_solver]. }
  destruct (direct_loop 12 s0 ∅ 0 13) as (s1 & X1 & E1 & T1 & C1 & Sh1); [lia|done|done|done|apply covers_nil| |].
  { apply (shape_ext (λ _, false)); [|apply shape_start]. intros k Hk _. symmetry. apply Z.ltb_ge. lia. }
  destruct (indirect_ok s1 X1 T1 C1 Sh1) as (s2 & X2 & E2 & T2 & HX & Sh2). set (s3 := empty_size s2).
  destruct (shape_all s2 Sh2) as (Em & Ei & Hl & Hlk & Ho). fold s3 in Em, Ei, Hl, Hlk, Ho. pose proof (trunc_mem X2 ∅ s2 s3 eq_refl eq_refl T2) as T3.
  pose proof (trunc_alloc _ _ _ T3) as A3. pose proof T3 as [(P' & R3 & HP) Es Hu Hbl Hd Hox]. pose proof (fo_iblock _ _ F0) as Hib.
  assert (inum (ino ip s3) = inum (ino ip s0)) as En by (by rewrite Ei). assert (iblock ip s3 = iblock ip s0) as Eib by (unfold iblock; by rewrite En, Es).
  assert (∀ k, 0 ≤ k ≤ MAXFILE → faddr ip s3 k = 0) as Hfz.
  { intros k Hk. unfold faddr, iaddr. rewrite Em. unfold addr_at. cbn [d_addrs]. rewrite !nth_replicate_zero. by destruct (k <? NDIRECT), (k =? MAXFILE). }
  assert (taken s3 (iblock ip s0)) as Ht3.
  { destruct Hib as (H1 & H2 & H3 & H4). split; [by rewrite Es|]. split; [|split; [done|by rewrite (is_bitmap_sb s0 s3)]].
    rewrite Hu, decide_False by (lia || (intros Hx%HX; by destruct (owns_taken _ Hx))). done. }
  assert (file_ok ip s3) as F3.
  { constructor; [rewrite Hl; apply F0|rewrite Ei; apply F0|by rewrite Em|by rewrite Eib| |]; [intros k Hk|intros k j Hk _]; by rewrite Hfz by done. }
  assert (dinode_ok (meta ip s3)) as D3.
  { destruct D as [H1 H2 H3 H4 H5 H6 H7]. rewrite Em. constructor; try done. apply Forall_replicate. lia. }
  destruct (iupdate_ok ip s3 P' F3 R3) as (s4 & E4 & R4 & K4 & Hb4 & Ho4); [pose proof (subseteq_size _ _ HP); unfold LOGCAP in *; lia|done|]. rewrite Eib in R4, Hb4, Ho4.
  exists s4, ({[iblock ip s0]} ∪ P'). split.
  { unfold itrunc. rewrite (bind_ret_eq _ _ _ _ _ E1). transitivity (res_bind (itrunc_ind s1) (λ _ s, iupdate ip (empty_size s))); [reflexivity|].
    rewrite E2. exact E4. }
  split; [done|]. split; [set_solver|]. apply (truncated_intro X2 s3 s4); try done. by apply (blks_length s3 P' ∅).
Qed.
End trunc.

(** * The last reference *)

Section last.
Context {S : Type} `{!Store S, !StoreSpec S} (pid : Z) (fuel : nat) (ip : nat).
Implicit Types (s : fs S) (P B : gset Z).

(** [iput] of inode [i], that has no names, from slot [ip]: the blocks of the file and the
    inode are free, and nothing else has changed. *)
Record reclaimed s h (i : Z) s' : Prop := {
  rc_cache : cache_ok pid s' h;
  rc_refs : ∀ k, refs s' k = if decide (k = ip) then None else refs s k;
  rc_type : d_type (disk_inode s' i) = 0;
  rc_free : ∀ c, owns ip s c → used s' c = false;
  rc_used : ∀ c, 0 ≤ c < sb_size (sb s) → ¬ owns ip s c → used s' c = used s c;
  rc_inodes : ∀ j, j ≠ i → ¬ is_bitmap s (IBLOCK j (sb s)) → disk_inode s' j = disk_inode s j;
  rc_blks : ∀ c, ¬ is_bitmap s c → c ≠ IBLOCK i (sb s) → blks s' c = blks s c;
  rc_dur : sb s' = sb s ∧ ∀ c, durable (store s') c = durable (store s) c;
  rc_mem : ∀ j, j ≠ ip → ino j s' = ino j s;
}.

(** Inodes in the same block. *)
Lemma same_iblock i j b : IBLOCK i b = IBLOCK j b → i mod IPB = j mod IPB → i = j.
Proof. unfold IBLOCK. change IPB with 16. intros H1 H2. zdm. Qed.

Record freed_inode s s' : Prop := {
  fr_ino : ∃ d, ino ip s' = Inode (idev (ino ip s)) (inum (ino ip s)) (ref (ino ip s)) (ilk (ino ip s)) false d;
  fr_others : ∀ j, j ≠ ip → ino j s' = ino j s;
  fr_len : length (inodes s') = length (inodes s) ∧ itable_lock s' = itable_lock s ∧ sb s' = sb s;
  fr_type : d_type (disk_inode s' (inum (ino ip s))) = 0;
  fr_free : ∀ c, owns ip s c → used s' c = false;
  fr_used : ∀ c, 0 ≤ c < sb_size (sb s) → ¬ owns ip s c → used s' c = used s c;
  fr_inodes : ∀ j, j ≠ inum (ino ip s) → ¬ is_bitmap s (IBLOCK j (sb s)) → disk_inode s' j = disk_inode s j;
  fr_blks : ∀ c, ¬ is_bitmap s c → c ≠ iblock ip s → blks s' c = blks s c;
  fr_dur : ∀ c, durable (store s') c = durable (store s) c;
}.

(** From a file that is empty ([s1]) and its inode stored with type 0 ([s3]). *)
Lemma freed_intro s s1 s3 x :
  file_ok ip s → truncated ip s s1 → d_type x = 0 → dinode_ok x → Z.of_nat (length (blks s1 (iblock ip s))) = BSIZE →
  blks s3 (iblock ip s) = put_dinode (dinode_off (inum (ino ip s))) x (blks s1 (iblock ip s)) → (∀ c, c ≠ iblock ip s → blks s3 c = blks s1 c) →
  sb s3 = sb s1 → length (inodes s3) = length (inodes s1) → itable_lock s3 = itable_lock s1 →
  ino ip s3 = set_idata x (ino ip s1) → (∀ j, j ≠ ip → ino j s3 = ino j s1) → (∀ c, durable (store s3) c = durable (store s1) c) →
  freed_inode s (iupd ip (set_ivalid false) s3).
Proof.
  intros F T Hx Dx Hlen Hb3 Ho3 Es3 Hl3 Hk3 Ei3 Hj3 Hd3. pose proof T as [[F1 _ _ _] _ _ (Es & Ei & Hl) Hk Tf Tu _ Tis Tb Tm Td].
  pose proof (fo_iblock _ _ F) as (Hir & _ & _ & Hnb). pose proof (fo_slot _ _ F1) as Hsl. set (s' := iupd ip (set_ivalid false) s3).
  assert (∀ c, blks s' c = blks s3 c) as Eb by done. assert (sb s' = sb s) as Esb by (etrans; [exact Es3|exact Es]).
  assert (dinode_off (inum (ino ip s)) + 64 ≤ length (blks s1 (iblock ip s)))%nat as Hoff
    by (pose proof (dinode_off_bound (inum (ino ip s))); change BSIZE with 1024 in Hlen; lia).
  assert (∀ c, 0 ≤ c < sb_size (sb s) → used s' c = used s1 c) as Hu.
  { intros c Hc. unfold used. rewrite Esb, Es, Eb, Ho3; [done|]. intros E. apply Hnb. exists c. by rewrite <- E. }
  constructor.
  - exists x. unfold s'. rewrite ino_iupd, Ei3, Ei by (by rewrite Hl3). done.
  - intros j Hj. unfold s'. rewrite ino_iupd_ne, Hj3 by done. by apply Tm.
  - split; [unfold s', iupd, set_inodes; cbn [inodes]; by rewrite length_alter, Hl3|]. split; [exact (eq_trans Hk3 Hk)|done].
  - unfold disk_inode. rewrite Esb, Eb. fold (iblock ip s). by rewrite Hb3, get_put_dinode.
  - intros c Hc. destruct (owns_taken ip s F c Hc) as [(Hr & _) _]. rewrite Hu by lia. by apply Tf.
  - intros c Hc Hno. rewrite Hu by done. by apply Tu.
  - intros j Hj Hjb. unfold disk_inode. rewrite Esb, Eb. destruct (decide (IBLOCK j (sb s) = iblock ip s)) as [E|E].
    + rewrite E, Hb3. assert (j mod IPB ≠ inum (ino ip s) mod IPB) as Hne by (intros Hm; by apply Hj, (same_iblock _ _ (sb s))).
      rewrite get_dinode_other; [by apply Tis|done|done|by apply dinode_off_apart].
    + rewrite Ho3 by done. by rewrite Tb.
  - intros c Hc Hne. rewrite Eb, Ho3 by done. by apply Tb.
  - intros c. etrans; [exact (Hd3 c)|apply Td].
Qed.

(** What [iput] does between the locks of the table. *)
Lemma ifree_ok s P B :
  sound ip s → rdy s P ∅ → (∀ b, owns ip s b → BBLOCK b (sb s) ∈ B) → (size (P ∪ B) + 1 < LOGCAP)%nat →
  ∃ s1 s2 P', itrunc ip s = Ret tt s1 ∧ iupdate ip (iupd ip (λ x, set_idata (set_type 0 (idata x)) x) s1) = Ret tt s2 ∧
    let s' := iupd ip (set_ivalid false) s2 in rdy s' P' ∅ ∧ P' ⊆ {[iblock ip s]} ∪ (P ∪ B) ∧ freed_inode s s'.
Proof.
  intros [F A Dn D] R HB Hlog. destruct (itrunc_ok ip s P B F A HB Hlog R D) as (s1 & P1 & E1 & R1 & HP1 & T).
  destruct (tn_sound _ _ _ T) as [F1 A1 _ D1]. pose proof (tn_ino _ _ _ T) as (Es & Ei & Hl). set (f := λ x : inode, set_idata (set_type 0 (idata x)) x).
  set (s2 := iupd ip f s1). pose proof (fo_slot _ _ F1) as Hsl. assert (ino ip s2 = f (ino ip s1)) as Ei2 by exact (ino_iupd ip s1 f Hsl).
  assert (meta ip s2 = set_type 0 (meta ip s1)) as Em2 by (unfold meta; by rewrite Ei2). assert (inum (ino ip s2) = inum (ino ip s)) as En2 by (by rewrite Ei2, Ei).
  assert (length (inodes s2) = length (inodes s1)) as Hl2 by (unfold s2, iupd, set_inodes; cbn [inodes]; apply length_alter).
  assert (file_ok ip s2) as F2 by (apply (frame_file_ok ip s1 s2); try done; rewrite Ei2, Em2; done).
  assert (iblock ip s2 = iblock ip s) as Eib by (unfold iblock; rewrite En2; by rewrite <- Es).
  assert (dinode_ok (meta ip s2)) as D2 by (destruct D1; rewrite Em2; by constructor).
  destruct (iupdate_ok ip s2 P1 F2 R1) as (s3 & E3 & R3 & K3 & Hb3 & Ho3).
  { pose proof (subseteq_size _ _ HP1). pose proof (size_insert (iblock ip s) (P ∪ B)). lia. }
  { done. }
  rewrite Eib in R3, Hb3, Ho3. rewrite En2 in Hb3. pose proof (kp_mem _ _ _ K3) as Ek. assert (∀ j, ino j s3 = ino j s2) as Ej by (intros j; by rewrite Ek).
  change (blks s2) with (blks s1) in *. exists s1, s3, ({[iblock ip s]} ∪ P1). split; [done|]. split; [exact E3|]. split; [done|]. split; [set_solver|]. apply (freed_intro s s1 s3 (set_type 0 (meta ip s1))); try done.
  - by destruct D1; constructor.
  - by apply (blks_length s1 P1 ∅).
  - by rewrite Hb3, Em2.
  - by rewrite Ek.
  - rewrite Ek. exact Hl2.
  - by rewrite Ek.
  - rewrite Ej, Ei2. unfold f, meta. done.
  - intros j Hj. rewrite Ej. unfold s2. by rewrite ino_iupd_ne.
  - intros c. by rewrite (kp_dur _ _ _ K3).
Qed.

Lemma owns_lock s l b : (ip < length (inodes s))%nat → owns ip (iupd ip (set_ilk l) s) b ↔ owns ip s b.
Proof.
  intros Hl. unfold owns, faddr, iaddr, meta, blks. rewrite ino_iupd by done. done.
Qed.

(** Dropping the reference once the inode is free. *)
Lemma reclaimed_intro h s s1 s2 i l :
  cache_ok pid s h → ip ∉ h → refs s ip = Some (i, 1) → (∀ j, 0 < ref (ino j s) → ¬ is_bitmap s (IBLOCK (inum (ino j s)) (sb s))) →
  s1 = iupd ip (set_ilk l) s → freed_inode s1 s2 → ∀ l', lock_free l' →
  reclaimed s h i (iupd ip (λ x, set_ref (ref x - 1) x) (iupd ip (set_ilk l') s2)).
Proof.
  intros C Hh Hr Hbm -> Fr l' Hl'. destruct (refs_in _ _ _ _ Hr) as (Hi & Hn & _). pose proof C as [C1 C2 C3 C4 C5 C6 C7 C8].
  pose proof (ref_slot s ip ltac:(lia)) as Hsl. assert (ino ip (iupd ip (set_ilk l) s) = set_ilk l (ino ip s)) as E1 by by apply ino_iupd.
  destruct Fr as [(d & Fi) Fo (Fl & Fk & Fs) Ft Ff Fu Fis Fb Fd]. rewrite E1 in *. cbn [idev inum ref ilk set_ilk] in *. rewrite Hi in *.
  assert (length (inodes s2) = NINODE) as Hl2 by (rewrite Fl; unfold iupd, set_inodes; cbn [inodes]; by rewrite length_alter).
  set (s' := iupd ip (λ x, set_ref (ref x - 1) x) (iupd ip (set_ilk l') s2)).
  assert (length (inodes s') = NINODE) as Hlen by (unfold s', iupd, set_inodes; cbn [inodes]; by rewrite !length_alter).
  assert (ino ip s' = Inode (idev (ino ip s)) i 0 l' false d) as Ei.
  { unfold s'. rewrite ino_iupd by (unfold iupd, set_inodes; cbn [inodes]; rewrite length_alter; lia). rewrite ino_iupd by lia. rewrite Fi. cbn. by rewrite Hn. }
  assert (∀ j, j ≠ ip → ino j s' = ino j s) as Ej.
  { intros j Hj. unfold s'. rewrite !ino_iupd_ne, Fo by done. by rewrite ino_iupd_ne. }
  assert (∀ j, 0 < ref (ino j s') → j ≠ ip) as Hne by (intros j Hp ->; rewrite Ei in Hp; cbn in Hp; lia).
  constructor; [constructor| | | | | | |split|]; try done.
  - transitivity (itable_lock s); [exact Fk|done].
  - intros j. destruct (decide (j = ip)) as [-> | Hj]; [by rewrite Ei|by rewrite Ej].
  - intros j Hp. pose proof (Hne _ Hp) as Hj. rewrite (Ej _ Hj) in *. by apply C4.
  - intros k j Hk Hp. pose proof (Hne _ Hp) as Hj. pose proof (Hne _ Hk) as Hk'. rewrite (Ej _ Hj), (Ej _ Hk') in *. by apply C5.
  - intros j. destruct (decide (j = ip)) as [-> | Hj]; [by rewrite decide_False, Ei|]. rewrite Ej by done. apply C6.
  - intros j Hp Hv. pose proof (Hne _ Hp) as Hj. rewrite (Ej _ Hj) in *. rewrite C7 by done. symmetry. apply Fis; [|by apply Hbm].
    rewrite <- Hi. intros E. apply Hj, C5; (done || lia).
  - intros j Hj. rewrite Ej; [by apply C8|]. by intros ->.
  - intros k. unfold refs. case_decide as Hk; [by rewrite Hk, Ei|by rewrite Ej].
  - intros c Hc. apply Ff. by apply owns_lock.
  - intros c Hc Ho. apply Fu; [done|]. by rewrite owns_lock.
  - intros c Hc Hx. apply Fb; [done|]. unfold iblock. rewrite E1. cbn [inum set_ilk]. by rewrite Hi.
Qed.
End last.

(** * Links *)

(** Writing inode [i] leaves the others of its block. *)
Lemma disk_inode_other {S : Type} `{!Store S, !StoreSpec S} (s s' : fs S) i j x :
  sb s' = sb s → j ≠ i → dinode_ok x → (dinode_off i + 64 ≤ length (blks s (IBLOCK i (sb s))))%nat →
  blks s' (IBLOCK i (sb s)) = put_dinode (dinode_off i) x (blks s (IBLOCK i (sb s))) → (∀ c, c ≠ IBLOCK i (sb s) → blks s' c = blks s c) →
  disk_inode s' j = disk_inode s j.
Proof.
  intros Es Hj Hx Hl Hb Ho. unfold disk_inode. rewrite Es. destruct (decide (IBLOCK j (sb s) = IBLOCK i (sb s))) as [E|E]; [|by rewrite Ho].
  rewrite E, Hb. apply get_dinode_other; [done|done|]. apply dinode_off_apart. intros Hm. by apply Hj, (same_iblock _ _ (sb s)).
Qed.

(** [iupdate] after a change of what is not the size or the addresses, as [sys_link], [sys_unlink]
    and [create] make it. *)
Lemma iupdate_meta {S : Type} `{!Store S, !StoreSpec S} pid ip g h i n (s : fs S) (P : gset Z) :
  cache_ok pid s h → refs s ip = Some (i, n) → loaded s ip i → sound ip s → rdy s P ∅ → (size P < LOGCAP)%nat →
  d_size (g (meta ip s)) = d_size (meta ip s) ∧ d_addrs (g (meta ip s)) = d_addrs (meta ip s) → dinode_ok (g (meta ip s)) →
  ∃ s', iupdate ip (iupd ip (λ x, set_idata (g (idata x)) x) s) = Ret tt s' ∧ rdy s' ({[iblock ip s]} ∪ P) ∅ ∧ cache_ok pid s' h ∧
    (∀ k, refs s' k = refs s k) ∧ loaded s' ip i ∧ sound ip s' ∧ disk_inode s' i = g (disk_inode s i) ∧ sb s' = sb s ∧
    (∀ c, c ≠ iblock ip s → blks s' c = blks s c) ∧ (∀ j, j ≠ i → disk_inode s' j = disk_inode s j) ∧
    ∀ j, j ≠ ip → ino j s' = ino j s.
Proof.
  intros C Hr (Hdv & Hin & Hdat & Hv) [F A Dn D] R Hp [Gs Ga] Hd. destruct (refs_in _ _ _ _ Hr) as (Hi & Hn & Hpos). pose proof (fo_slot _ _ F) as Hsl.
  set (f := λ x : inode, set_idata (g (idata x)) x). set (s1 := iupd ip f s). assert (ino ip s1 = f (ino ip s)) as E1 by by apply ino_iupd.
  assert (length (inodes s1) = length (inodes s)) as Hl1 by (unfold s1, iupd, set_inodes; cbn [inodes]; apply length_alter).
  assert (iblock ip s1 = iblock ip s) as Eb by (unfold iblock; by rewrite E1). assert (meta ip s1 = g (meta ip s)) as Em by (unfold meta; by rewrite E1).
  assert (file_ok ip s1) as F1 by (apply (frame_file_ok ip s s1); try done; rewrite E1, Em; done).
  destruct (iupdate_ok ip s1 P F1 R) as (s2 & E2 & R2 & K & Hb & Ho); [done|by rewrite Em|]. rewrite Eb in R2, Hb, Ho. change (blks s1) with (blks s) in *.
  pose proof (kp_mem _ _ _ K) as Ek. assert (∀ j, ino j s2 = ino j s1) as Ej by (intros j; by rewrite Ek). assert (sb s2 = sb s) as Es by (by rewrite Ek).
  assert (length (inodes s2) = length (inodes s)) as Hl2 by (by rewrite Ek).
  assert (∀ j, j ≠ ip → ino j s2 = ino j s) as Ejo by (intros j Hj; rewrite Ej; unfold s1; by rewrite ino_iupd_ne).
  assert (ino ip s2 = f (ino ip s)) as Ei by (by rewrite Ej). pose proof (blks_length s P ∅ (iblock ip s) R) as Hlen.
  assert (dinode_off i + 64 ≤ length (blks s (iblock ip s)))%nat as Hoff by (pose proof (dinode_off_bound i); change BSIZE with 1024 in Hlen; lia).
  rewrite E1 in Hb. cbn [inum f set_idata] in Hb. rewrite Hi, Em in Hb. assert (iblock ip s = IBLOCK i (sb s)) as Eib by (unfold iblock; by rewrite Hi).
  assert (disk_inode s2 i = g (disk_inode s i)) as Ed.
  { unfold disk_inode at 1. rewrite Es, <- Eib, Hb, get_put_dinode by done. unfold meta. by rewrite Hdat. }
  assert (∀ j, j ≠ i → disk_inode s2 j = disk_inode s j) as Edo
    by (intros j Hj; apply (disk_inode_other s s2 i j (g (meta ip s))); rewrite <- ?Eib; done).
  assert (meta ip s2 = g (meta ip s)) as Em2 by (unfold meta; by rewrite Ei).
  assert (loaded s2 ip i) as Ld by (unfold loaded; rewrite Ei, Ed, <- Hdat; done).
  assert (idev (ino ip s2) = idev (ino ip s) ∧ inum (ino ip s2) = inum (ino ip s) ∧ d_addrs (meta ip s2) = d_addrs (meta ip s)) as Hino by (rewrite Ei, Em2; done).
  destruct (cache_after pid s s2 h ip i n (g (meta ip s)) C Hr) as [C2 F2]; try done; [by rewrite Ek|by rewrite Ed, <- Hdat|intros j _; apply Edo|].
  exists s2. do 4 (split; [done|]). split; [done|]. split; [|done].
  constructor; [by apply (frame_file_ok ip s s2)|by apply (frame_alloc_ok ip s s2)| |by rewrite Em2].
  destruct Dn as [Dn1 Dn2]. split; rewrite Em2, Gs; [done|]. intros k Hk Hs. rewrite (frame_addr ip s s2) by (done || (destruct maxfile_val as (EM & _ & _ & EB); nia)).
  by apply Dn2.
Qed.

Lemma iput_last {S : Type} `{!Store S, !StoreSpec S} pid fuel ip i h (s : fs S) (P B : gset Z) :
  (0 < fuel)%nat → cache_ok pid s h → ip ∉ h → refs s ip = Some (i, 1) → ivalid (ino ip s) = true → d_nlink (disk_inode s i) = 0 → sound ip s →
  (∀ j, 0 < ref (ino j s) → ¬ is_bitmap s (IBLOCK (inum (ino j s)) (sb s))) →
  rdy s P ∅ → (∀ b, owns ip s b → BBLOCK b (sb s) ∈ B) → (size (P ∪ B) + 1 < LOGCAP)%nat →
  ∃ s' P', iput pid fuel ip s = Ret tt s' ∧ rdy s' P' ∅ ∧ P' ⊆ {[iblock ip s]} ∪ (P ∪ B) ∧ reclaimed pid ip s h i s'.
Proof.
  intros Hf C Hout Hr Hv Hn Sd Hbm R HB Hlog. destruct (refs_in _ _ _ _ Hr) as (Hi & Hn1 & _). pose proof C as [C1 C2 C3 C4 C5 C6 C7 C8].
  pose proof (ref_slot s ip ltac:(lia)) as Hsl. pose proof (C6 ip) as Hlk. rewrite decide_False in Hlk by done.
  destruct (acquiresleep_takes (ilk_id ip) pid fuel _ Hf Hlk) as (l & El & Hh). set (s1 := iupd ip (set_ilk l) s).
  assert (ino ip s1 = set_ilk l (ino ip s)) as E1 by by apply ino_iupd.
  assert (sound ip s1) as Sd1.
  { apply (same_sound s s1 ip ip); try done; [|by rewrite E1]. unfold s1, iupd, set_inodes. cbn [inodes]. by rewrite length_alter. }
  destruct (ifree_ok ip s1 P B Sd1 R) as (s2 & s3 & P' & E2 & E3 & R' & HP & Fr); [|done|].
  { intros b Hb. apply HB. exact (proj1 (owns_lock ip s l b Hsl) Hb). }
  cbv zeta in R', Fr. set (s4 := iupd ip (set_ivalid false) s3) in *. destruct (fr_ino _ _ _ Fr) as (d & Fi). pose proof (fr_len _ _ _ Fr) as (_ & Ft & _).
  assert (lock_held pid (ilk (ino ip s4))) as Hh4 by (by rewrite Fi, E1).
  destruct (releasesleep_held (ilk_id ip) pid _ Hh4) as (l' & El' & Hl').
  exists (iupd ip (λ x, set_ref (ref x - 1) x) (iupd ip (set_ilk l') s4)), P'. split; [|split; [done|]].
  - unfold iput, acquire_it, release_it. msimpl. rewrite C1. cbn [res_bind]. change (ino ip (set_itable_lock true s)) with (ino ip s).
    rewrite Hn1, Hv, (C7 ip ltac:(lia) Hv), Hi, Hn. cbn [Z.eqb andb Pos.eqb].
    rewrite (in_ilk_ret ip (acquiresleep (ilk_id ip) pid fuel) (set_itable_lock true s) _ _ El). cbn [res_bind]. change (itable_lock (iupd ip (set_ilk l) (set_itable_lock true s))) with true.
    assert (set_itable_lock false (iupd ip (set_ilk l) (set_itable_lock true s)) = s1) as Es1 by (unfold s1; destruct s; cbn in C1; by subst).
    cbn iota. cbn [res_bind]. rewrite Es1, E2. cbn [res_bind]. rewrite E3. cbn [res_bind]. fold s4. rewrite (in_ilk_ret _ _ _ _ _ El'). cbn [res_bind].
    assert (itable_lock s4 = false) as Hf4 by (rewrite Ft; exact C1). change (itable_lock (iupd ip (set_ilk l') s4)) with (itable_lock s4). rewrite Hf4.
    cbn [res_bind]. unfold iupd, set_inodes, set_itable_lock. cbn. change (itable_lock s3) with (itable_lock s4). by rewrite Hf4.
  - split; [|exact (reclaimed_intro pid ip h s s1 s4 i l C Hout Hr Hbm eq_refl Fr l' Hl')]. by assert (iblock ip s1 = iblock ip s) as <- by (unfold iblock; by rewrite E1).
Qed.

(** C22. [iput] of the last reference to a file that no directory entry names gives everything back: the
    inode is free on disk, every block of the file is clear in the bitmap and no other block of the bitmap
    changes, the slot of the inode table can be used again, and the inodes of other files are as they were. *)
Theorem iput_frees {S : Type} `{!Store S, !StoreSpec S} pid fuel ip i h (s : fs S) (P B : gset Z) :
  (0 < fuel)%nat → cache_ok pid s h → ip ∉ h → refs s ip = Some (i, 1) → ivalid (ino ip s) = true → d_nlink (disk_inode s i) = 0 → sound ip s →
  (∀ j, 0 < ref (ino j s) → ¬ is_bitmap s (IBLOCK (inum (ino j s)) (sb s))) →
  rdy s P ∅ → (∀ b, owns ip s b → BBLOCK b (sb s) ∈ B) → (size (P ∪ B) + 1 < LOGCAP)%nat →
  ∃ s' P', iput pid fuel ip s = Ret tt s' ∧ rdy s' P' ∅ ∧ P' ⊆ {[iblock ip s]} ∪ (P ∪ B) ∧ reclaimed pid ip s h i s'.
Proof. apply iput_last. Qed.
