(* ===== verification/FsVol.v ===== *)
(** All files of a disk together.

    A volume is consistent when every inode in use is a well formed file, no block belongs to
    two of them or holds inodes, and the entries of directories that have a name lead to
    inodes with a name.  A change of one file, in place or by blocks that were free, leaves
    every other file as it is; so a volume stays consistent when that file does. *)

From S2P Require Import Prelude Bytes Sleeplock Bio Store Fs Dir FsBlock FsAlloc Dinode FsFile FsRead FsWrite FsFileProps.
From S2P Require Import FsInode FsDir FsPath FsLink FsTrunc.

Section volume.
Context {S : Type} `{!Store S, !StoreSpec S}.
Implicit Types (s : fs S) (P : gset Z).

(** Inode numbers, those in use, and those that a directory entry can refer to. *)
Definition inum_ok s (i : Z) : Prop := 0 < i < ninodes (sb s).
Definition live s (i : Z) : Prop := inum_ok s i ∧ d_type (disk_inode s i) ≠ 0.
Definition named s (i : Z) : Prop := live s i ∧ d_nlink (disk_inode s i) ≠ 0.

(** The blocks of the file with inode [i]. *)
Definition has s (i c : Z) : Prop := owns 0 (probe s i) c.

Record volume s : Prop := {
  vo_count : ninodes (sb s) ≤ 65536;
  vo_alloc : alloc_ok s;
  vo_iblock : ∀ i, inum_ok s i → taken s (IBLOCK i (sb s));
  vo_file : ∀ i, live s i → wf_file s i;
  vo_inode : ∀ i c j, live s i → has s i c → inum_ok s j → c ≠ IBLOCK j (sb s);
  vo_apart : ∀ i j c, live s i → live s j → has s i c → has s j c → i = j;
  vo_dir : ∀ i, named s i → d_type (disk_inode s i) = T_DIR →
    d_size (disk_inode s i) mod DIRENT = 0 ∧ ∀ e, e ∈ dents (file_data s i) → e.1 ≠ 0 → named s e.1;
}.

Lemma volume_tree s : volume s → tree_ok s (named s).
Proof.
  intros V. constructor; [|apply (vo_dir _ V)]. intros i [L N]. split; [by apply (vo_file _ V)|]. split; [apply L|done].
Qed.

Lemma live_looks s s' i : looks s s' → live s' i ↔ live s i.
Proof. intros L. unfold live, inum_ok. by rewrite (lo_sb _ _ L), (looks_inode _ _ i L). Qed.
Lemma named_looks s s' i : looks s s' → named s' i ↔ named s i.
Proof. intros L. unfold named. by rewrite (live_looks s s' i L), (looks_inode _ _ i L). Qed.

Lemma probe_addr s s' i k : (∀ c, blks s' c = blks s c) → disk_inode s' i = disk_inode s i → faddr 0 (probe s' i) k = faddr 0 (probe s i) k.
Proof. intros Hb Hi. apply (same_addr (probe s i) (probe s' i)); [done|]. cbn. by rewrite Hi. Qed.

Lemma has_looks s s' i c : looks s s' → has s' i c ↔ has s i c.
Proof.
  intros L. unfold has, owns. by setoid_rewrite (probe_addr s s' i _ (lo_blks _ _ L) (looks_inode _ _ i L)).
Qed.

Lemma taken_used s s' c : sb s' = sb s → (∀ c, 0 ≤ c < sb_size (sb s) → used s c = true → used s' c = true) → taken s c → taken s' c.
Proof.
  intros E Hu (H1 & H2 & H3 & H4). split; [by rewrite E|]. split; [by apply Hu; [lia|]|]. split; [done|]. by rewrite (is_bitmap_sb s s' c E).
Qed.

Lemma volume_looks s s' : looks s s' → volume s → volume s'.
Proof.
  intros L [V0 V1 V2 V3 V4 V5 V6]. assert (sb s' = sb s) as E by apply L. assert (∀ c, used s' c = used s c) as Eu by (intros c; unfold used; by rewrite E, (lo_blks _ _ L)).
  assert (∀ c, taken s c → taken s' c) as Ht by (intros c; apply taken_used; [done|intros; by rewrite Eu]).
  constructor.
  - by rewrite E.
  - destruct V1 as [A1 A2 A3 A4]. constructor; rewrite ?E; try done.
    + intros c Hc%(is_bitmap_sb s s' c E). by apply A2.
    + intros b Hb. rewrite Eu, (is_bitmap_sb s s' b E). by apply A3.
    + by rewrite Eu.
  - intros i. unfold inum_ok. rewrite E. intros Hi. by apply Ht, V2.
  - intros i Hi%(live_looks s s' i L). apply (probe_looks s s' i L). by apply V3.
  - intros i c j Hi%(live_looks s s' i L) Hc%(has_looks s s' i c L). unfold inum_ok. rewrite E. by apply (V4 i).
  - intros i j c Hi%(live_looks s s' i L) Hj%(live_looks s s' j L) Hc%(has_looks s s' i c L) Hd%(has_looks s s' j c L). by apply (V5 i j c).
  - intros i Hi%(named_looks s s' i L). rewrite (looks_inode _ _ i L). destruct (probe_looks s s' i L) as [_ ->]. intros Ht'. destruct (V6 i Hi Ht') as [? He].
    split; [done|]. intros e H1 H2. apply (named_looks s s' _ L). by apply He.
Qed.

Lemma alloc_probe s i : alloc_ok (probe s i) ↔ alloc_ok s.
Proof. split; intros [H1 H2 H3 H4]; by constructor. Qed.

(** * A change of one file *)

(** Only the file with inode [i] changes: its inode, its blocks, and blocks that were free. *)
Record changes s (i : Z) s' : Prop := {
  ch_sb : sb s' = sb s;
  ch_used : ∀ c, 0 ≤ c < sb_size (sb s) → used s c = true → used s' c = true;
  ch_blks : ∀ c, taken s c → (live s i → ¬ has s i c) → c ≠ IBLOCK i (sb s) → blks s' c = blks s c;
  ch_inodes : ∀ j, inum_ok s j → j ≠ i → disk_inode s' j = disk_inode s j;
  ch_new : ∀ c, has s' i c → live s i ∧ has s i c ∨ used s c = false;
  ch_wf : wf_file s' i;
}.

(** A file [j] whose inode and blocks are as they were. *)
Section kept.
Context (s s' : fs S) (j : Z).
Hypothesis Hwf : wf_file s j.
Hypothesis Hsb : sb s' = sb s.
Hypothesis Hinode : disk_inode s' j = disk_inode s j.
Hypothesis Hblk : ∀ c, has s j c → blks s' c = blks s c.

Lemma kept_addr k : 0 ≤ k ≤ MAXFILE → faddr 0 (probe s' j) k = faddr 0 (probe s j) k.
Proof using Hinode Hblk.
  intros Hk. unfold faddr, iaddr, meta, probe, ino. cbn [inodes lookup_total list_lookup_total idata]. rewrite Hinode.
  destruct (k <? NDIRECT); [done|]. destruct (k =? MAXFILE); [done|]. destruct (Z.eqb_spec (addr_at NDIRECT (disk_inode s j)) 0) as [|Ha]; [done|].
  f_equal. apply Hblk. split; [done|]. exists MAXFILE. split; [by destruct maxfile_val; lia|done].
Qed.

Lemma kept_has c : has s' j c ↔ has s j c.
Proof using Hinode Hblk.
  unfold has, owns. split; intros (Hc & k & Hk & E); (split; [done|]); exists k; (split; [done|]); [by rewrite <- kept_addr|by rewrite kept_addr].
Qed.

Lemma kept_data : file_data s' j = file_data s j.
Proof using Hwf Hinode Hblk.
  assert (meta 0 (probe s' j) = meta 0 (probe s j)) as Em by exact Hinode. unfold file_data, contents. rewrite Em. unfold fbytes.
  pose proof (sd_dense _ _ Hwf) as [Hsz _]. apply list_fmap_ext. intros a b Ha. apply lookup_seq in Ha as [-> Ha]. cbn [Nat.add].
  assert (0 ≤ (0 + Z.of_nat a) / BSIZE < MAXFILE) as Hk by (destruct maxfile_val as (EM & _ & _ & EB); rewrite EM, EB in *; zdm).
  unfold fbyte, fblock. rewrite kept_addr by lia. destruct (Z.eqb_spec (faddr 0 (probe s j) ((0 + Z.of_nat a) / BSIZE)) 0) as [|Hn]; [done|].
  change (blks (probe s' j)) with (blks s'). change (blks (probe s j)) with (blks s). rewrite Hblk; [done|]. split; [done|]. eexists. split; [|done]. lia.
Qed.

Lemma kept_wf : alloc_ok s' → (∀ c, taken s c → has s j c ∨ c = IBLOCK j (sb s) → used s' c = true) → wf_file s' j.
Proof using All.
  intros A' Hu. pose proof Hwf as [[F1 F2 F3 F4 F5 F6] A [D1 D2] Dk]. assert (meta 0 (probe s' j) = meta 0 (probe s j)) as Em by exact Hinode.
  assert (iblock 0 (probe s' j) = iblock 0 (probe s j)) as Eb by (unfold iblock; cbn; by rewrite Hsb).
  assert (∀ c, taken (probe s j) c → has s j c ∨ c = IBLOCK j (sb s) → taken (probe s' j) c) as Ht.
  { intros c Hc Ho. pose proof (Hu c Hc Ho) as Hc'. destruct Hc as (H1 & H2 & H3 & H4). split; [by cbn; rewrite Hsb|]. split; [exact Hc'|]. split; [done|]. intros Hb. apply H4. by apply (is_bitmap_sb s s' c Hsb). }
  constructor; [constructor|by apply alloc_probe|split|]; rewrite ?Em, ?Eb; try done.
  - apply Ht; [done|]. by right.
  - intros k Hk. rewrite kept_addr by done. intros Hn. destruct (F5 k Hk Hn). split; [|done]. apply Ht; [done|]. left. split; [done|]. by exists k.
  - intros k l Hk Hl. rewrite !kept_addr by done. by apply F6.
  - intros k Hk Hs. rewrite kept_addr; [by apply D2|]. destruct maxfile_val as (EM & _ & _ & EB). rewrite EM, EB in *. lia.
Qed.
End kept.

Section other.
Context (s s' : fs S) (i j : Z).
Hypothesis V : volume s.
Hypothesis Hi : inum_ok s i.
Hypothesis Ch : changes s i s'.
Hypothesis Hj : live s j.
Hypothesis Hne : j ≠ i.

Lemma other_inode : disk_inode s' j = disk_inode s j.
Proof using Ch Hj Hne. apply (ch_inodes _ _ _ Ch); [apply Hj|done]. Qed.

Lemma other_block c : has s j c → blks s' c = blks s c.
Proof using All.
  intros Hc. apply (ch_blks _ _ _ Ch).
  - destruct Hc as (Hc & k & Hk & <-). by apply (fo_taken _ _ (sd_file _ _ (vo_file _ V j Hj)) k).
  - intros Hl Hh. by apply Hne, (vo_apart _ V j i c).
  - by apply (vo_inode _ V j).
Qed.

Lemma other_has c : has s' j c ↔ has s j c.
Proof using All. apply (kept_has s s' j other_inode other_block). Qed.
Lemma other_data : file_data s' j = file_data s j.
Proof using All. apply (kept_data s s' j (vo_file _ V j Hj) other_inode other_block). Qed.

Lemma other_wf : wf_file s' j.
Proof using All.
  apply (kept_wf s s' j (vo_file _ V j Hj) (ch_sb _ _ _ Ch) other_inode other_block); [exact (proj1 (alloc_probe _ _) (sd_alloc _ _ (ch_wf _ _ _ Ch)))|].
  intros c (Hc & Hu & _) _. apply (ch_used _ _ _ Ch); [lia|done].
Qed.

Lemma other_live : live s' j.
Proof using All. destruct Hj as [H1 H2]. split; [unfold inum_ok; by rewrite (ch_sb _ _ _ Ch)|]. by rewrite other_inode. Qed.
End other.

Lemma live_dec s i : Decision (live s i).
Proof. unfold live, inum_ok. apply _. Qed.
#[local] Existing Instance live_dec.

(** What is in use after the change, other than the file itself. *)
Lemma live_back s i s' j : volume s → inum_ok s i → changes s i s' → live s' j → j ≠ i → live s j.
Proof.
  intros V Hi Ch [H1 H2] Hne. unfold inum_ok in H1. rewrite (ch_sb _ _ _ Ch) in H1. rewrite (ch_inodes _ _ _ Ch) in H2 by done. done.
Qed.

(** No entry in another directory refers to [i]. *)
Definition unlisted s (i : Z) : Prop :=
  ∀ d e, named s d → d ≠ i → d_type (disk_inode s d) = T_DIR → e ∈ dents (file_data s d) → e.1 ≠ 0 → e.1 ≠ i.

Lemma named_other s i s' j : volume s → inum_ok s i → changes s i s' → named s j → (j = i → named s' i) → named s' j.
Proof.
  intros V Hi Ch Hj He. destruct (decide (j = i)) as [Ej|Hne]; [rewrite Ej; by apply He|]. destruct Hj as [Hj Hl].
  split; [by apply (other_live s s' i)|]. by rewrite (other_inode s s' i).
Qed.

Lemma volume_changes s i s' :
  volume s → inum_ok s i → changes s i s' → (named s i → named s' i) ∨ unlisted s i →
  (named s' i → d_type (disk_inode s' i) = T_DIR →
    d_size (disk_inode s' i) mod DIRENT = 0 ∧ ∀ e, e ∈ dents (file_data s' i) → e.1 ≠ 0 → named s' e.1) →
  volume s'.
Proof.
  intros V Hi Ch Hn Hd. pose proof (ch_sb _ _ _ Ch) as E. pose proof (live_back s i s') as Hb.
  assert (∀ j, live s' j → wf_file s' j) as Hwf.
  { intros j Hj. destruct (decide (j = i)) as [-> | Hne]; [apply Ch|]. apply (other_wf s s' i j); try done. by eapply Hb. }
  assert (∀ c, has s' i c → ∀ j, live s j → has s j c → live s i ∧ has s i c) as Hold.
  { intros c Hc j Hj Hjc. destruct (ch_new _ _ _ Ch c Hc) as [?|Hu]; [done|]. destruct Hjc as (H0 & k & Hk & <-).
    destruct (fo_taken _ _ (sd_file _ _ (vo_file _ V j Hj)) k Hk H0) as [(_ & Hu' & _) _]. change (used s (faddr 0 (probe s j) k) = true) in Hu'. congruence. }
  constructor.
  - rewrite E. apply V.
  - exact (proj1 (alloc_probe _ _) (sd_alloc _ _ (ch_wf _ _ _ Ch))).
  - intros j. unfold inum_ok. rewrite E. intros Hj. apply (taken_used s s'); [done|apply Ch|by apply (vo_iblock _ V)].
  - done.
  - intros a c j Ha Hc. unfold inum_ok. rewrite E. intros Hj ->. destruct (decide (a = i)) as [-> | Hne].
    + destruct (ch_new _ _ _ Ch _ Hc) as [[Hl Hh]|Hu]; [by apply (vo_inode _ V i _ j Hl Hh)|].
      destruct (vo_iblock _ V j Hj) as (_ & Hu' & _). congruence.
    + pose proof (Hb a V Hi Ch Ha Hne) as Hl. apply (other_has s s' i a) in Hc; try done. by apply (vo_inode _ V a _ j Hl Hc).
  - intros a b c Ha Hb' Hc Hd'. destruct (decide (a = i)) as [-> | Hai], (decide (b = i)) as [-> | Hbi]; try done.
    + pose proof (Hb b V Hi Ch Hb' Hbi) as Hl. apply (other_has s s' i b) in Hd'; try done. destruct (Hold c Hc b Hl Hd') as [Hli Hh]. by apply (vo_apart _ V i b c).
    + pose proof (Hb a V Hi Ch Ha Hai) as Hl. apply (other_has s s' i a) in Hc; try done. destruct (Hold c Hd' a Hl Hc) as [Hli Hh]. by apply (vo_apart _ V a i c).
    + pose proof (Hb a V Hi Ch Ha Hai) as Hla. pose proof (Hb b V Hi Ch Hb' Hbi) as Hlb.
      apply (other_has s s' i a) in Hc; try done. apply (other_has s s' i b) in Hd'; try done. by apply (vo_apart _ V a b c).
  - intros j Hj Ht. destruct (decide (j = i)) as [-> | Hne]; [by apply Hd|]. destruct Hj as [Hj Hl]. pose proof (Hb j V Hi Ch Hj Hne) as Hlj.
    pose proof (other_inode s s' i j Ch Hlj Hne) as Ei. rewrite Ei in *. rewrite (other_data s s' i j) by done.
    destruct (vo_dir _ V j (conj Hlj Hl) Ht) as [? He]. split; [done|]. intros e H1 H2. apply (named_other s i s'); try done; [by apply He|].
    intros Ee. destruct Hn as [Hn|Hn]; [apply Hn; rewrite <- Ee; by apply He|]. by destruct (Hn j e (conj Hlj Hl) Hne Ht H1 H2).
Qed.

Lemma changes_looks s i s1 s' : changes s i s1 → looks s1 s' → changes s i s'.
Proof.
  intros [C1 C2 C3 C4 C5 C6] L. assert (sb s' = sb s1) as E by apply L. constructor.
  - congruence.
  - intros c Hc Hu. unfold used. rewrite E, (lo_blks _ _ L). by apply C2.
  - intros c H1 H2 H3. rewrite (lo_blks _ _ L). by apply C3.
  - intros j H1 H2. rewrite (looks_inode _ _ j L). by apply C4.
  - intros c Hc%(has_looks s1 s' i c L). by apply C5.
  - by apply (probe_looks s1 s' i L).
Qed.

Lemma changes_before s s1 i s' : looks s s1 → changes s1 i s' → changes s i s'.
Proof.
  intros L [C1 C2 C3 C4 C5 C6]. assert (sb s1 = sb s) as E by apply L. assert (∀ c, used s1 c = used s c) as Eu by (intros c; unfold used; by rewrite E, (lo_blks _ _ L)).
  rewrite E in *. assert (∀ c, taken s c → taken s1 c) as Ht by (intros c; apply taken_used; [done|intros; by rewrite Eu]). constructor.
  - congruence.
  - intros c Hc. rewrite <- Eu. by apply C2.
  - intros c H1 H2 H3. rewrite <- (lo_blks _ _ L). apply C3; [by apply Ht| |done]. intros Hl%(live_looks s s1 i L) Hh%(has_looks s s1 i c L). by apply H2.
  - intros j H1 H2. rewrite <- (looks_inode _ _ j L). apply C4; [|done]. unfold inum_ok. by rewrite E.
  - intros c Hc. destruct (C5 c Hc) as [[Hl%(live_looks s s1 i L) Hh%(has_looks s s1 i c L)]|Hu]; [by left|right]. by rewrite <- Eu.
  - done.
Qed.

Lemma changes_trans s i s1 s2 : (live s i → live s1 i) → changes s i s1 → changes s1 i s2 → changes s i s2.
Proof.
  intros Hl C1 C2. pose proof (ch_sb _ _ _ C1) as E1. assert (∀ c, taken s c → taken s1 c) as Ht by (intros c; apply (taken_used s s1 c E1 (ch_used _ _ _ C1))). constructor.
  - by rewrite (ch_sb _ _ _ C2).
  - intros c Hc Hu. apply (ch_used _ _ _ C2); [by rewrite E1|]. by apply (ch_used _ _ _ C1).
  - intros c Hc Hn Hb. rewrite (ch_blks _ _ _ C2 c); [by apply (ch_blks _ _ _ C1)|by apply Ht| |by rewrite E1].
    intros _ Hh. destruct (ch_new _ _ _ C1 c Hh) as [[Hi Hh']|Hu]; [by apply Hn|]. destruct Hc as (_ & Hu' & _). congruence.
  - intros j Hj Hne. rewrite (ch_inodes _ _ _ C2); [by apply (ch_inodes _ _ _ C1)| |done]. unfold inum_ok. by rewrite E1.
  - intros c Hc. destruct (ch_new _ _ _ C2 c Hc) as [[_ Hh]|Hu]; [by apply (ch_new _ _ _ C1)|]. right.
    destruct (used s c) eqn:E; [|done]. assert (used s1 c = true) as Hu'; [|congruence]. apply (ch_used _ _ _ C1); [|done]. 
    pose proof (ch_wf _ _ _ C2) as W. destruct Hc as (H0 & k & Hk & <-). destruct (fo_taken _ _ (sd_file _ _ W) k Hk H0) as [(Hr & _) _]. cbn in Hr. rewrite (ch_sb _ _ _ C2), E1 in Hr. lia.
  - apply C2.
Qed.

(** * Writing a file, and its inode *)

Lemma loaded_addr s ip i k : loaded s ip i → faddr ip s k = faddr 0 (probe s i) k.
Proof. intros (H1 & H2 & H3 & _). apply (same_addr (probe s i) s 0 ip); [done|]. by rewrite H1, H2, H3. Qed.

Lemma loaded_data s ip i : loaded s ip i → contents ip s = file_data s i.
Proof. intros (H1 & H2 & H3 & _). apply (same_contents (probe s i) s 0 ip); [done|]. by rewrite H1, H2, H3. Qed.

Lemma loaded_sound s ip i : loaded s ip i → (ip < length (inodes s))%nat → sound ip s ↔ wf_file s i.
Proof.
  intros (H1 & H2 & H3 & _) Hl. split.
  - apply (same_sound s (probe s i) ip 0); [done|done|cbn; lia|]. by rewrite H1, H2, H3.
  - apply (same_sound (probe s i) s 0 ip); [done|done|done|]. by rewrite H1, H2, H3.
Qed.

Lemma wrote_changes s s' ip i bs off tot :
  volume s → live s i → loaded s ip i → wrote ip bs off s tot s' →
  changes s i s' ∧ loaded s' ip i ∧ file_data s' i = overwrite (Z.to_nat off) (take (Z.to_nat tot) bs) (file_data s i).
Proof.
  intros V [Hi Ht] Ld [W1 W2 W3 [W4 W4'] W5 W6 W7 W8 W9 W10 W11 W12 W13]. pose proof Ld as (H1 & H2 & H3 & H4).
  assert (iblock ip s = IBLOCK i (sb s)) as Eb by (unfold iblock; by rewrite H2). rewrite Eb, H2 in *.
  assert (disk_inode s' i = meta ip s') as Ed by (unfold disk_inode; by rewrite W4).
  assert (loaded s' ip i) as Ld'. { unfold loaded. rewrite Ed, W4'. cbn. by rewrite H1, H2, H4. }
  split; [|split; [done|by rewrite <- (loaded_data s' ip i Ld'), W2, (loaded_data s ip i Ld)]].
  assert (∀ c, taken s c → ¬ has s i c → c ≠ IBLOCK i (sb s) → blks s' c = blks s c) as Hb.
  { intros c Hc Hn Hne. apply W7; [done| |done]. intros k Hk E. apply Hn. split; [destruct Hc; lia|]. exists k. by rewrite <- (loaded_addr s ip i k Ld). }
  constructor; try done.
  - intros c Hc Hn. apply Hb; [done|]. by apply Hn.
  - intros j Hj Hne. unfold disk_inode. rewrite W4. destruct (decide (IBLOCK j (sb s) = IBLOCK i (sb s))) as [E|E].
    + rewrite E. apply W6. intros Hm. by apply Hne, (same_iblock _ _ (sb s)).
    + rewrite Hb; [done|by apply (vo_iblock _ V)| |done]. intros Hc. by apply (vo_inode _ V i _ j (conj Hi Ht) Hc).
  - intros c (Hc & k & Hk & E). rewrite <- (loaded_addr s' ip i k Ld') in E. destruct (W10 k Hk) as [E'|[E' Hu]].
    + left. split; [done|]. split; [done|]. exists k. split; [done|]. by rewrite <- (loaded_addr s ip i k Ld), <- E'.
    + right. by rewrite <- E.
  - apply (loaded_sound s' ip i Ld'); [|done]. apply W1.
Qed.

(** The inode changes in what is not its size or its addresses. *)
Lemma meta_changes s s' ip i g :
  volume s → live s i → loaded s ip i → sound ip s → loaded s' ip i → sound ip s' → sb s' = sb s → length (inodes s') = length (inodes s) →
  disk_inode s' i = g (disk_inode s i) → d_size (g (disk_inode s i)) = d_size (disk_inode s i) → d_addrs (g (disk_inode s i)) = d_addrs (disk_inode s i) →
  (∀ c, c ≠ IBLOCK i (sb s) → blks s' c = blks s c) → (∀ j, j ≠ i → disk_inode s' j = disk_inode s j) →
  changes s i s' ∧ file_data s' i = file_data s i ∧ ∀ k, 0 ≤ k ≤ MAXFILE → faddr 0 (probe s' i) k = faddr 0 (probe s i) k.
Proof.
  intros V [Hi Ht] Ld Sd Ld' Sd' Es El Ed Gs Ga Hb Ho. pose proof Ld as (H1 & H2 & H3 & H4). pose proof Ld' as (H1' & H2' & H3' & H4').
  assert (iblock ip s = IBLOCK i (sb s)) as Eb by (unfold iblock; by rewrite H2).
  assert (idev (ino ip s') = idev (ino ip s) ∧ inum (ino ip s') = inum (ino ip s) ∧ d_addrs (meta ip s') = d_addrs (meta ip s)) as Hino.
  { unfold meta. by rewrite H1, H2, H3, H1', H2', H3', Ed, Ga. }
  assert (∀ c, c ≠ iblock ip s → blks s' c = blks s c) as Hb' by (by rewrite Eb). pose proof (sd_file _ _ Sd) as F.
  assert (∀ k, 0 ≤ k ≤ MAXFILE → faddr 0 (probe s' i) k = faddr 0 (probe s i) k) as Had.
  { intros k Hk. rewrite <- (loaded_addr s ip i k Ld), <- (loaded_addr s' ip i k Ld'). by apply (frame_addr ip s s'). }
  split; [|split; [|done]].
  - constructor; try done.
    + intros c Hc Hu. by rewrite (frame_used ip s s').
    + intros c _ _ Hc. by apply Hb.
    + intros j _. apply Ho.
    + intros c (Hc & k & Hk & E). left. split; [done|]. split; [done|]. exists k. split; [done|].
      by rewrite <- Had.
    + apply (loaded_sound s' ip i Ld'); [apply Sd'|done].
  - rewrite <- (loaded_data s ip i Ld), <- (loaded_data s' ip i Ld'). unfold contents, meta. rewrite H3, H3', Ed, Gs. unfold fbytes.
    pose proof (sd_dense _ _ Sd) as [Hsz _]. unfold meta in Hsz. rewrite H3 in Hsz. apply list_fmap_ext. intros a b Ha. apply lookup_seq in Ha as [-> Ha].
    unfold fbyte. rewrite (frame_block ip s s'); [done..|]. destruct maxfile_val as (EM & _ & _ & EB). rewrite EM, EB in *. zdm.
Qed.
End volume.

(** * The kernel on a volume *)

(** [n] free slots in the table of inodes. *)
Definition slots {S} (n : nat) (s : fs S) : Prop := ∃ l, NoDup l ∧ length l = n ∧ Forall (λ j, (j < NINODE)%nat ∧ refs s j = None) l.

Lemma slots_refs {S} n (s s' : fs S) : (∀ k, refs s' k = refs s k) → slots n s → slots n s'.
Proof. intros F (l & H1 & H2 & H3). exists l. do 2 (split; [done|]). eapply Forall_impl; [exact H3|]. intros j. by rewrite F. Qed.

Lemma slots_less {S} n m (s : fs S) : (m ≤ n)%nat → slots n s → slots m s.
Proof.
  intros Hm (l & H1 & H2 & H3). exists (take m l). split; [by apply (sublist_NoDup _ l); [|apply sublist_take]|]. split; [rewrite length_take; lia|]. by apply Forall_take.
Qed.

Lemma slots_add {S} n j i (s s' : fs S) : (∀ k, refs s' k = add_ref j i (refs s) k) → slots (Datatypes.S n) s → slots n s'.
Proof.
  intros F (l & H1 & H2 & H3). assert (∃ l', sublist l' l ∧ length l' = n ∧ j ∉ l') as (l' & Hs & Hn & Hj).
  { destruct (decide (j ∈ l)) as [(l1 & l2 & ->)%list_elem_of_split|Hj].
    - exists (l1 ++ l2). split; [by apply sublist_app; [|apply sublist_cons]|]. rewrite length_app in *. cbn in H2. split; [lia|].
      apply NoDup_app in H1 as (_ & H1 & H4%NoDup_cons). rewrite elem_of_app. set_solver.
    - destruct l as [|x l]; [done|]. exists l. split; [by apply sublist_cons|]. split; [cbn in H2; lia|]. set_solver. }
  exists l'. split; [by apply (sublist_NoDup _ l)|]. split; [done|]. apply Forall_forall. intros k Hk. rewrite Forall_forall in H3.
  destruct (H3 k) as [? Hr]; [by apply (elem_of_submseteq l' l k Hk), sublist_submseteq|]. split; [done|]. rewrite F. unfold add_ref. rewrite decide_False; [done|]. by intros ->.
Qed.

Lemma slots_one {S} (s : fs S) : slots 1 s → ∃ j, (j < NINODE)%nat ∧ refs s j = None.
Proof. intros (l & _ & Hl & H). destruct l as [|j [|]]; try done. apply Forall_cons in H as [? _]. by exists j. Qed.
Lemma slots_two {S} (s : fs S) : slots 2 s → ∃ a b, a ≠ b ∧ (a < NINODE)%nat ∧ (b < NINODE)%nat ∧ refs s a = None ∧ refs s b = None.
Proof.
  intros (l & Hd & Hl & H). destruct l as [|a [|b [|]]]; try done. apply Forall_cons in H as [[] [[] _]%Forall_cons].
  exists a, b. apply NoDup_cons in Hd as [Hd _]. split; [set_solver|done].
Qed.

Section kernel.
Context {S : Type} `{!Store S, !StoreSpec S} (pid : Z) (fuel : nat).
Implicit Types (s : fs S) (P : gset Z) (h : gset nat).
Hypothesis Hfuel : (0 < fuel)%nat.

(** Between two operations: the volume is consistent, the slots [h] are locked by [pid], the
    transaction has written the blocks [P], and references are to inodes in use. *)
Record kstate s h P : Prop := {
  ks_vol : volume s;
  ks_cache : cache_ok pid s h;
  ks_rdy : rdy s P ∅;
  ks_refs : ∀ j i n, refs s j = Some (i, n) → live s i;
}.

Lemma kstate_looks s s' h h' P : kstate s h P → looks s s' → cache_ok pid s' h' → rdy s' P ∅ →
  (∀ j i n, refs s' j = Some (i, n) → live s i) → kstate s' h' P.
Proof using Type.
  intros [V C R F] L C' R' F'. constructor; [by apply (volume_looks s)|done|done|]. intros j i n Hj. apply (live_looks s s' i L). by apply (F' j i n).
Qed.

Lemma lock_k s h P j i n : kstate s h P → (size P < NBUF)%nat → j ∉ h → refs s j = Some (i, n) →
  ∃ s', ilock pid fuel j s = Ret tt s' ∧ kstate s' ({[j]} ∪ h) P ∧ looks s s' ∧ (∀ k, refs s' k = refs s k) ∧ loaded s' j i ∧ stays s s'.
Proof using Hfuel.
  intros K HP Hh Hj. pose proof K as [V C R F]. destruct (F _ _ _ Hj) as [Hi Ht].
  destruct (ilock_ok pid fuel s P h j i n Hfuel C Hh Hj R HP) as (s' & E & R' & C' & L' & F' & Ld & St); [by apply (vo_iblock _ V i Hi)|done|].
  exists s'. split; [done|]. split; [|done]. apply (kstate_looks s s' h); try done. intros k l m. rewrite F'. by apply F.
Qed.

Lemma unlock_k s h P j i n : kstate s h P → j ∈ h → refs s j = Some (i, n) → loaded s j i →
  ∃ s', iunlock pid j s = Ret tt s' ∧ kstate s' (h ∖ {[j]}) P ∧ looks s s' ∧ (∀ k, refs s' k = refs s k) ∧ loaded s' j i ∧ stays s s'.
Proof using Type.
  intros K Hh Hj Ld. pose proof K as [V C R F]. destruct (iunlock_ok pid s P h j i n C Hh Hj Ld R) as (s' & E & R' & C' & L' & F' & Ld' & St).
  exists s'. split; [done|]. split; [|done]. apply (kstate_looks s s' h); try done. intros k l m. rewrite F'. by apply F.
Qed.

Lemma drop_live s j s' : (∀ j i n, refs s j = Some (i, n) → live s i) → (∀ k, refs s' k = drop_ref j (refs s) k) →
  ∀ k i n, refs s' k = Some (i, n) → live s i.
Proof using Type.
  intros F F' k i n. rewrite F'. unfold drop_ref. case_decide; [|by apply F]. destruct (refs s j) as [[a b]|] eqn:E; [|done].
  destruct (1 <? b); [|done]. intros [= <- _]. by apply (F j a b).
Qed.

(** Giving up a reference that is not the last one to an inode without names. *)
Lemma put_k s h P j i n : kstate s h P → (j ∈ h → 1 < n) → refs s j = Some (i, n) → 1 < n ∨ named s i →
  ∃ s', iput pid fuel j s = Ret tt s' ∧ kstate s' h P ∧ looks s s' ∧ ∀ k, refs s' k = drop_ref j (refs s) k.
Proof using Type.
  intros K Hh Hj Hn. pose proof K as [V C R F].
  destruct (iput_ok pid fuel s P h j i n C Hh Hj) as (s' & E & R' & C' & L' & _ & F'); [destruct Hn as [|[_ ?]]; auto|done|].
  exists s'. split; [done|]. split; [|done]. apply (kstate_looks s s' h); try done. by apply (drop_live s j s').
Qed.

Lemma unlockput_k s h P j i n : kstate s h P → j ∈ h → refs s j = Some (i, n) → loaded s j i → 1 < n ∨ named s i →
  ∃ s', iunlockput pid fuel j s = Ret tt s' ∧ kstate s' (h ∖ {[j]}) P ∧ looks s s' ∧ (∀ k, refs s' k = drop_ref j (refs s) k) ∧ stays s s'.
Proof using Type.
  intros K Hh Hj Ld Hn. pose proof K as [V C R F].
  destruct (iunlockput_ok pid fuel s P h j i n C Hh Hj Ld) as (s' & E & R' & C' & L' & F' & St); [destruct Hn as [|[_ ?]]; auto|done|].
  exists s'. split; [done|]. split; [|done]. apply (kstate_looks s s' h); try done. by apply (drop_live s j s').
Qed.

Lemma kstate_loaded s s' h P j i n : kstate s' h P → refs s' j = Some (i, n) → loaded s j i → stays s s' → loaded s' j i.
Proof using Type. intros K Hr Ld St. apply (loaded_intro pid s' h j i n (ks_cache _ _ _ K) Hr), St, Ld. Qed.

(** ** Paths *)

Lemma target_tree s T b names : tree_ok s T → ∀ i i', T i → target s b i names = Some i' → T i'.
Proof using Type.
  intros HT. induction names as [|e names IH]; intros i i' Hi.
  - unfold target. destruct b; [done|]. by intros [= <-].
  - rewrite target_step. destruct (b && bool_decide (names = [])).
    + destruct (_ =? _); [|done]. by intros [= <-].
    + destruct (child s i e) as [i2|] eqn:E; [|done]. apply IH. by apply (child_tree s T i e).
Qed.

Lemma path_k b s P cwd path (i := start_inode s cwd path) :
  kstate s ∅ P → (size P < NBUF)%nat → slots 2 s → (hd 0 path ≠ SLASH → refs s cwd ≠ None) → named s i →
  ∃ o nm s', namex pid fuel cwd path b s = Ret (o, nm) s' ∧ kstate s' ∅ P ∧ looks s s' ∧
    match target s b i (elems path) with
    | Some i' => ∃ j, o = Some j ∧ nm = default [] (last (elems path)) ∧ named s i' ∧ fits_ref (refs s) j i' ∧ ∀ k, refs s' k = add_ref j i' (refs s) k
    | None => o = None ∧ ∀ k, refs s' k = refs s k
    end.
Proof using Hfuel.
  intros K HP Hs Hc Hi. pose proof K as [V C R F]. pose proof (volume_tree s V) as HT.
  destruct (namex_ok pid fuel s P (named s) Hfuel HP HT (slots_two s Hs) b cwd path C R Hc Hi) as (o & nm & s' & E & H). exists o, nm, s'. split; [done|].
  fold i in H. destruct (target s b i (elems path)) as [i'|] eqn:Et.
  - destruct H as (j & -> & [L C' R' F' Hf] & ->). pose proof (target_tree s (named s) b (elems path) HT i i' Hi Et) as Hn.
    split; [|split; [done|by exists j]]. apply (kstate_looks s s' ∅); try done. intros k l m. rewrite F'. unfold add_ref. case_decide; [|by apply F].
    intros [= <- _]. apply Hn.
  - destruct H as (-> & [L C' R' F']). split; [|done]. apply (kstate_looks s s' ∅); try done. intros k l m. rewrite F'. by apply F.
Qed.

(** ** Changes *)

Lemma kstate_changes s s' h P P' i :
  kstate s h P → live s i → changes s i s' → d_type (disk_inode s' i) = d_type (disk_inode s i) → (named s i → d_nlink (disk_inode s' i) ≠ 0) ∨ unlisted s i →
  (named s' i → d_type (disk_inode s' i) = T_DIR →
    d_size (disk_inode s' i) mod DIRENT = 0 ∧ ∀ e, e ∈ dents (file_data s' i) → e.1 ≠ 0 → named s' e.1) →
  cache_ok pid s' h → rdy s' P' ∅ → (∀ k, refs s' k = refs s k) → kstate s' h P'.
Proof using Type.
  intros [V C R F] Hi Ch Ht Hn Hd C' R' F'. assert (∀ j, live s j → live s' j) as Hl.
  { intros j Hj. destruct (decide (j = i)) as [-> | Hne]; [|apply (other_live s s' i j); try done; apply Hi]. destruct Hi as [H1 H2]. split; [unfold inum_ok; by rewrite (ch_sb _ _ _ Ch)|congruence]. }
  constructor; try done.
  - apply (volume_changes s i s'); try done; [apply Hi|]. destruct Hn as [Hn|]; [left|by right]. intros Hni. split; [by apply Hl|by apply Hn].
  - intros j k n. rewrite F'. intros Hj. by apply Hl, (F j k n).
Qed.

(** An inode's entry in memory, changed and written. *)
Lemma update_k g s h P j i n :
  kstate s h P → refs s j = Some (i, n) → loaded s j i → (size P < LOGCAP)%nat → let x := disk_inode s i in
  d_type (g x) = d_type x → d_size (g x) = d_size x → d_addrs (g x) = d_addrs x → dinode_ok (g x) →
  (named s i → d_nlink (g x) ≠ 0) ∨ unlisted s i → (named s i ∨ d_size x = 0) →
  ∃ s', iupdate j (iupd j (λ x, set_idata (g (idata x)) x) s) = Ret tt s' ∧ kstate s' h ({[IBLOCK i (sb s)]} ∪ P) ∧ (∀ k, refs s' k = refs s k) ∧
    loaded s' j i ∧ changes s i s' ∧ disk_inode s' i = g x ∧ file_data s' i = file_data s i ∧
    (∀ k, 0 ≤ k ≤ MAXFILE → faddr 0 (probe s' i) k = faddr 0 (probe s i) k) ∧ stays s s'.
Proof using Type.
  clear Hfuel. intros K Hj Ld HP x Gt Gs Ga Gd Hn Hz. pose proof K as [V C R F]. destruct (refs_in _ _ _ _ Hj) as (_ & Hr & Hp). pose proof (ref_slot s j ltac:(lia)) as Hl.
  pose proof (F _ _ _ Hj) as Hi. assert (meta j s = x) as Em by apply Ld. pose proof (proj2 (loaded_sound s j i Ld Hl) (vo_file _ V i Hi)) as Sd.
  assert (iblock j s = IBLOCK i (sb s)) as Eb by (unfold iblock; by destruct Ld as (_ & -> & _)).
  destruct (iupdate_meta pid j g h i n s P C Hj Ld Sd R HP) as (s' & E & R' & C' & F' & Ld' & Sd' & Ed & Es & Hb & Ho & Hm); [by rewrite Em|by rewrite Em|].
  rewrite Eb in *. destruct (meta_changes s s' j i g V Hi Ld Sd Ld' Sd') as (Ch & Hdat & Ha); try done; [by rewrite (ic_len _ _ _ C'), (ic_len _ _ _ C)|].
  exists s'. split; [done|]. split; [|do 6 (split; [done|]); apply (stays_others s s' j Hm), Ld']. apply (kstate_changes s s' h P _ i); try done; rewrite ?Ed; fold x; rewrite ?Gs, ?Gt, ?Hdat.
  - done.
  - done.
  - intros Hn' Ht. destruct Hz as [Hni|Hz].
    + destruct (vo_dir _ V i Hni Ht) as [? He]. split; [done|]. intros e H1 H2. apply (named_other s i s'); try done; [apply Hi|by apply He].
    + rewrite Hz. split; [done|]. assert (file_data s i = []) as ->; [|by intros e ?%not_elem_of_nil].
      apply length_zero_iff_nil. unfold file_data. rewrite length_contents. change (meta 0 (probe s i)) with x. by rewrite Hz.
Qed.

(** All of an inode but its size and addresses. *)
Definition same_meta (x y : dinode) : Prop := d_type y = d_type x ∧ d_major y = d_major x ∧ d_minor y = d_minor x ∧ d_nlink y = d_nlink x.

Lemma dir_loaded s dp d : volume s → named s d → d_type (disk_inode s d) = T_DIR → loaded s dp d → (dp < length (inodes s))%nat → is_dir dp s.
Proof using Type.
  intros V Hd Ht Ld Hl. assert (meta dp s = disk_inode s d) as Em by apply Ld. destruct (vo_dir _ V d Hd Ht) as [Hs _].
  constructor; [apply (loaded_sound s dp d Ld Hl), (vo_file _ V), Hd|by rewrite Em..].
Qed.

(** A write to a directory that leaves it one. *)
Lemma wrote_k s s' h P P' dp d n bs off tot :
  kstate s h P → refs s dp = Some (d, n) → loaded s dp d → named s d → wrote dp bs off s tot s' → is_dir dp s' →
  (∀ e, e ∈ dents (contents dp s') → e.1 ≠ 0 → named s e.1) → rdy s' P' ∅ →
  kstate s' h P' ∧ (∀ k, refs s' k = refs s k) ∧ loaded s' dp d ∧ changes s d s' ∧ same_meta (disk_inode s d) (disk_inode s' d) ∧
  (∀ j, j ≠ dp → ino j s' = ino j s) ∧ file_data s' d = overwrite (Z.to_nat off) (take (Z.to_nat tot) bs) (file_data s d) ∧
  (0 ≤ off → off + Z.of_nat (length bs) ≤ BSIZE → ∀ k, 0 < k ≤ MAXFILE → faddr 0 (probe s' d) k = faddr 0 (probe s d) k).
Proof using Type.
  clear Hfuel. intros K Hr Ld [Hd Hl] W D He R'. pose proof K as [V C R F]. destruct (wrote_changes s s' dp d bs off tot V Hd Ld W) as (Ch & Ld' & Hdat).
  assert (meta dp s = disk_inode s d) as Em by apply Ld. assert (meta dp s' = disk_inode s' d) as Em' by apply Ld'. pose proof W as [W1 W2 W3 [W4 W4'] W5 W6 W7 W8 W9 W10 W11 [W12 W13] W14].
  assert (same_meta (disk_inode s d) (disk_inode s' d)) as Hsm by (rewrite <- Em, <- Em', W3; done). pose proof Hsm as (Ht & _ & _ & Hn).
  destruct (cache_after pid s s' h dp d n (meta dp s') C Hr W12 W13 W8 W4' Em') as [C' F'].
  { intros j Hj Hne. apply (ch_inodes _ _ _ Ch); [|done]. apply (F j _ (ref (ino j s))). unfold refs. by rewrite (proj2 (Z.ltb_lt _ _)). }
  split.
  2:{ do 6 (split; [done|]). intros Ho Hf k Hk. rewrite <- (loaded_addr s' dp d k Ld'), <- (loaded_addr s dp d k Ld).
      apply W14; change NDIRECT with 12; change BSIZE with 1024 in *; lia. }
  apply (kstate_changes s s' h P P' d); try done; [by left; intros _; rewrite Hn|]. intros Hnd _. rewrite <- Em', <- (loaded_data s' dp d Ld'). split; [exact (di_size _ _ D)|].
  intros e H1 H2. apply (named_other s d s'); try done; [apply Hd|by apply He].
Qed.

Lemma dlook_named s d name i : volume s → named s d → d_type (disk_inode s d) = T_DIR → dlook name (file_data s d) = Some i → named s i.
Proof using Type.
  intros V Hd Ht E. apply (child_tree s (named s) d name i (volume_tree s V) Hd). unfold child. by rewrite Ht.
Qed.

Lemma put_entry_elem k e l x : x ∈ put_entry k e l → x = e ∨ x ∈ l.
Proof using Type.
  unfold put_entry. rewrite elem_of_app, elem_of_cons. intros [Hx|[Hx|Hx]]; [right|by left|right].
  - apply (elem_of_submseteq (take k l)); [done|]. apply sublist_submseteq, sublist_take.
  - apply (elem_of_submseteq (drop (Datatypes.S k) l)); [done|]. apply sublist_submseteq, sublist_drop.
Qed.

(** [dirlink] of an inode that has a name. *)
Lemma dirlink_k s h P dp d n name i :
  kstate s h P → refs s dp = Some (d, n) → loaded s dp d → named s d → d_type (disk_inode s d) = T_DIR → slots 1 s → bytes name → named s i →
  (size P + 7 < LOGCAP)%nat →
  ∃ r s' P', dirlink pid fuel dp name i s = Ret r s' ∧ kstate s' h P' ∧ (size P' ≤ size P + 7)%nat ∧ (∀ k, refs s' k = refs s k) ∧ loaded s' dp d ∧
    match dlook name (file_data s d) with
    | Some _ => r = -1 ∧ looks s s'
    | None => changes s d s' ∧ same_meta (disk_inode s d) (disk_inode s' d) ∧ (∀ j, j ≠ dp → ino j s' = ino j s) ∧
        (d_size (disk_inode s d) < BSIZE → ∀ k, 0 < k ≤ MAXFILE → faddr 0 (probe s' d) k = faddr 0 (probe s d) k) ∧
        (r = 0 ∧ file_data s' d = overwrite (16 * free_entry (dents (file_data s d))) (le_enc 2 i ++ strncpy 14 name) (file_data s d) ∨
         r = -1 ∧ file_data s' d = file_data s d ∧ (full s' ∨ d_size (disk_inode s d) = MAXFILE * BSIZE))
    end.
Proof using Type.
  clear Hfuel. intros K Hr Ld Hd Ht Hs Hb Hi HP. pose proof K as [V C R F]. destruct (refs_in _ _ _ _ Hr) as (_ & Hrn & Hp). pose proof (ref_slot s dp ltac:(lia)) as Hl.
  pose proof (dir_loaded s dp d V Hd Ht Ld Hl) as D. assert (meta dp s = disk_inode s d) as Em by apply Ld. pose proof (loaded_data s dp d Ld) as Hc.
  assert (0 < i < 65536) as Hi' by (destruct Hi as [[Hi _] _]; unfold inum_ok in Hi; pose proof (vo_count _ V); lia).
  destruct (dlook name (file_data s d)) as [i2|] eqn:El.
  - destruct (dirlink_old pid fuel dp s P h name i d n i2) as (s' & E & R' & L' & C' & F' & Ld'); try done;
      [unfold LOGCAP, NBUF in *; lia|by apply slots_one|by rewrite Hc|right; apply (dlook_named s d name i2 V Hd Ht El)|].
    exists (-1), s', P. split; [done|]. split; [|split; [lia|done]]. apply (kstate_looks s s' h); try done. intros k l m. rewrite F'. by apply F.
  - destruct (dirlink_new pid fuel dp s P h name i d n) as (r & s' & P' & E & R' & HP' & Hres); try done; [by apply slots_one|by rewrite Hc|].
    assert (∀ e, e ∈ dents (contents dp s) → e.1 ≠ 0 → named s e.1) as Hold by (rewrite Hc; apply (vo_dir _ V d Hd Ht)).
    assert (d_size (disk_inode s d) < BSIZE → DIRENT * Z.of_nat (free_entry (dents (contents dp s))) + 16 ≤ BSIZE) as Hnear.
    { pose proof (free_entry_bound dp s D) as Hfe. pose proof (di_size _ _ D) as Hm. rewrite length_contents, Em in *. change DIRENT with 16 in *. change BSIZE with 1024. zdm. }
    exists r, s', P'. split; [done|]. destruct Hres as [[-> [L1 L2 L3 W]]|[-> [L1 L2 L3 (bs & Ho & W)]]].
    + destruct (wrote_k s s' h P P' dp d n _ _ _ K Hr Ld Hd W L1) as (K' & F' & Ld' & Ch & Hsm & Hin & Hdat & Hnr); [|done|].
      { rewrite L2. intros e [-> | He]%put_entry_elem Hne; [done|by apply Hold]. }
      do 7 (split; [done|]). split; [intros Hz; apply Hnr; [change DIRENT with 16; lia|]; rewrite length_app, length_le_enc, length_strncpy; by apply Hnear|]. left. split; [done|]. rewrite Hdat, Hc. rewrite (take_ge (_ ++ _)) by (rewrite length_app, length_le_enc, length_strncpy; done).
      assert (u16 i = i) as -> by (unfold u16; apply Z.mod_small; change (2 ^ 16) with 65536; lia). f_equal. change DIRENT with 16. lia.
    + destruct (wrote_k s s' h P P' dp d n _ _ _ K Hr Ld Hd W L1) as (K' & F' & Ld' & Ch & Hsm & Hin & Hdat & Hnr); [by rewrite L2|done|].
      do 7 (split; [done|]). split; [intros Hz; apply Hnr; [change DIRENT with 16; lia|]; rewrite Ho; by apply Hnear|]. right. rewrite <- (loaded_data s' dp d Ld'), L2, Em in *. done.
Qed.

Lemma dirlookup_k s h P dp d n name :
  kstate s h P → refs s dp = Some (d, n) → loaded s dp d → named s d → d_type (disk_inode s d) = T_DIR → slots 1 s → (size P < NBUF)%nat →
  ∃ o s', dirlookup dp name s = Ret o s' ∧ kstate s' h P ∧ looks s s' ∧ loaded s' dp d ∧
    match dlook name (file_data s d) with
    | Some i => named s i ∧ ∃ j k nm, dfind name (file_data s d) = Some (k, (i, nm)) ∧ o = Some (j, DIRENT * Z.of_nat k) ∧ fits_ref (refs s) j i ∧ ∀ k, refs s' k = add_ref j i (refs s) k
    | None => o = None ∧ ∀ k, refs s' k = refs s k
    end.
Proof using Type.
  clear Hfuel. intros K Hr Ld Hd Ht Hsl HP. pose proof K as [V C R F]. destruct (refs_in _ _ _ _ Hr) as (_ & Hrn & Hp). pose proof (ref_slot s dp ltac:(lia)) as Hl.
  pose proof (dir_loaded s dp d V Hd Ht Ld Hl) as D. pose proof (dirlookup_ok pid dp name s P h d n D R HP C Hr Ld (slots_one s Hsl)) as HD.
  rewrite (loaded_data s dp d Ld) in HD. destruct (dlook name (file_data s d)) as [i|] eqn:El; pose proof El as Ef; rewrite dlook_find in Ef;
    destruct (dfind name (file_data s d)) as [[k [i' nm]]|] eqn:Ed; try done.
  - injection Ef as ->. destruct HD as (j & s' & E & R' & C' & L' & F' & Hj & Ld'). pose proof (dlook_named s d name i V Hd Ht El) as Hi.
    exists (Some (j, DIRENT * Z.of_nat k)), s'. split; [done|]. split.
    { apply (kstate_looks s s' h h P K L' C' R'). intros k' l m. rewrite F'. unfold add_ref. case_decide; [intros [= <- _]; apply Hi|by apply F]. }
    do 2 (split; [done|]). split; [done|]. exists j, k, nm. do 2 (split; [done|]). split; [|done]. intros a b Hab. split; [by apply (Hj a b)|by apply refs_in in Hab as (_ & _ & ?)].
  - destruct HD as (s' & E & R' & U). pose proof (unseen_looks s s' U) as L. destruct (slot_unseen pid s s' h C U) as (C' & _ & F').
    exists None, s'. split; [done|]. split; [|split; [done|split; [by apply (loaded_unseen s s')|done]]]. apply (kstate_looks s s' h h P K L C' R'). intros k l m. rewrite F'. by apply F.
Qed.

End kernel.
