(* ===== verification/FsNew.v ===== *)
(** Inodes taken and given back on a volume: [ialloc], and [iput] of the last reference to an
    inode without names. *)

From S2P Require Import Prelude Bytes Sleeplock Bio Store Fs Dir FsBlock FsAlloc Dinode FsFile FsRead FsWrite FsFileProps.
From S2P Require Import FsInode FsDir FsPath FsLink FsTrunc FsVol.

Section new.
Context {S : Type} `{!Store S, !StoreSpec S} (pid : Z).
Implicit Types (s : fs S) (P : gset Z) (h : gset nat).

(** * An inode is written as new *)

Lemma fresh_inode_addr s i type : disk_inode s i = fresh_dinode type → ∀ k, 0 ≤ k ≤ MAXFILE → faddr 0 (probe s i) k = 0.
Proof.
  intros E k Hk. destruct maxfile_val as (EM & EN & _). unfold faddr, iaddr. change (meta 0 (probe s i)) with (disk_inode s i). rewrite E.
  assert (∀ k, 0 ≤ k → addr_at k (fresh_dinode type) = 0) as Ha.
  { intros k' Hk'. unfold addr_at, fresh_dinode. cbn [d_addrs]. apply nth_replicate_zero. }
  rewrite !Ha by lia. destruct (k <? NDIRECT), (k =? MAXFILE); done.
Qed.

Section fresh.
Context (s s' : fs S) (i type : Z).
Hypothesis V : volume s.
Hypothesis Hi : inum_ok s i.
Hypothesis Hfree : d_type (disk_inode s i) = 0.
Hypothesis Htype : 0 < type < 2 ^ 15.
Hypothesis Hlen : Z.of_nat (length (blks s (IBLOCK i (sb s)))) = BSIZE.
Hypothesis Hmem : s' = set_store (store s') s.
Hypothesis Hblk : let o := dinode_off i in
  blks s' (IBLOCK i (sb s)) = set16 o (u16 type) (splice o (replicate (Z.to_nat DINODE) 0) (blks s (IBLOCK i (sb s)))).
Hypothesis Hoth : ∀ c, c ≠ IBLOCK i (sb s) → blks s' c = blks s c.

Lemma fresh_sb : sb s' = sb s.
Proof using Hmem. by rewrite Hmem. Qed.

Lemma fresh_room : (dinode_off i + 64 ≤ length (blks s (IBLOCK i (sb s))))%nat.
Proof using Hlen. pose proof (dinode_off_bound i). change BSIZE with 1024 in Hlen. lia. Qed.

Lemma fresh_inode : disk_inode s' i = fresh_dinode type.
Proof using V Hi Hfree Htype Hlen Hmem Hblk Hoth. unfold disk_inode. rewrite fresh_sb, Hblk. apply get_fresh; [apply fresh_room|]. change (2 ^ 15) with 32768 in *. lia. Qed.

Lemma fresh_others j : j ≠ i → disk_inode s' j = disk_inode s j.
Proof using V Hi Hfree Htype Hlen Hmem Hblk Hoth.
  intros Hj. unfold disk_inode. rewrite fresh_sb. destruct (decide (IBLOCK j (sb s) = IBLOCK i (sb s))) as [E|E]; [|by rewrite Hoth].
  rewrite E, Hblk. apply get_fresh_other; [apply fresh_room|]. apply dinode_off_apart. intros Hm. by apply Hj, (same_iblock _ _ (sb s)).
Qed.

Lemma fresh_used c : 0 ≤ c < sb_size (sb s) → used s' c = used s c.
Proof using V Hi Hfree Htype Hlen Hmem Hblk Hoth.
  intros Hc. unfold used. rewrite fresh_sb, Hoth; [done|]. intros E. destruct (vo_iblock _ V i Hi) as (_ & _ & _ & Hb). apply Hb. by exists c.
Qed.

Lemma fresh_addr k : 0 ≤ k ≤ MAXFILE → faddr 0 (probe s' i) k = 0.
Proof using V Hi Hfree Htype Hlen Hmem Hblk Hoth. exact (fresh_inode_addr s' i type fresh_inode k). Qed.

Lemma fresh_wf : wf_file s' i.
Proof using V Hi Hfree Htype Hlen Hmem Hblk Hoth.
  pose proof fresh_sb as Es. assert (meta 0 (probe s' i) = fresh_dinode type) as Em by exact fresh_inode.
  constructor; [constructor| |split|]; rewrite ?Em; try done.
  - cbn. lia.
  - apply (taken_used s s' _ Es); [intros c Hc; by rewrite fresh_used|]. unfold iblock. cbn [probe sb ino inum]. rewrite Es. by apply (vo_iblock _ V i Hi).
  - intros k Hk. by rewrite fresh_addr.
  - intros k j Hk. by rewrite fresh_addr.
  - apply alloc_probe. destruct (vo_alloc _ V) as [A1 A2 A3 A4]. constructor; rewrite ?Es; try done.
    + intros c Hc%(is_bitmap_sb s s' c Es). by apply A2.
    + intros b Hb. rewrite fresh_used, (is_bitmap_sb s s' b Es) by done. by apply A3.
    + by rewrite fresh_used by lia.
  - intros k Hk. cbn [fresh_dinode d_size]. change BSIZE with 1024. lia.
  - constructor; cbn [fresh_dinode d_type d_major d_minor d_nlink d_size d_addrs]; change (2 ^ 15) with 32768 in *; change (2 ^ 32) with 4294967296; try lia; [done|].
    apply Forall_replicate. lia.
Qed.

Lemma fresh_changes : changes s i s'.
Proof using V Hi Hfree Htype Hlen Hmem Hblk Hoth.
  constructor.
  - exact fresh_sb.
  - intros c Hc. by rewrite fresh_used.
  - intros c _ _. apply Hoth.
  - intros j _. apply fresh_others.
  - intros c (Hc & k & Hk & E). by rewrite fresh_addr in E.
  - exact fresh_wf.
Qed.

Lemma fresh_volume : volume s'.
Proof using V Hi Hfree Htype Hlen Hmem Hblk Hoth.
  apply (volume_changes s i s' V Hi fresh_changes).
  - left. intros [[_ Ht] _]. done.
  - intros [_ Hn]. by rewrite fresh_inode in Hn.
Qed.
End fresh.

(** * ialloc *)

(** Inode [i] is taken. *)
Record took s h P (i type : Z) (ip : nat) s' : Prop := {
  tk_state : kstate pid s' h ({[IBLOCK i (sb s)]} ∪ P);
  tk_slot : refs s ip = None;
  tk_refs : ∀ k, refs s' k = add_ref ip i (refs s) k;
  tk_changes : changes s i s';
  tk_inode : disk_inode s' i = fresh_dinode type;
  tk_loaded : ∀ j d n, refs s j = Some (d, n) → loaded s j d → loaded s' j d;
}.

Lemma ialloc_take s h P i type : 
  kstate pid s h P → slots 1 s → (size P < LOGCAP)%nat → inum_ok s i → d_type (disk_inode s i) = 0 → 0 < type < 2 ^ 15 →
  ∃ ip s', ialloc_body ROOTDEV type i s = Ret (inr (Some ip)) s' ∧ took s h P i type ip s'.
Proof.
  intros K Hsl HP Hi Hfree Ht. pose proof K as [V C R F]. set (b := IBLOCK i (sb s)). pose proof (vo_iblock _ V i Hi) as (_ & _ & Hu & _). fold b in Hu.
  destruct (fread s P ∅ b R Hu ltac:(set_solver)) as (bp & s1 & E1 & R1 & H1 & B1 & K1 & D1); [rewrite union_empty_r_L; unfold LOGCAP, NBUF in *; lia|].
  pose proof (blks_length s P ∅ b R) as Hlen. pose proof (blks_bytes s P ∅ b R Hu) as Hby. pose proof (fresh_room s i Hlen) as Hroom.
  set (d := set16 (dinode_off i) (u16 type) (splice (dinode_off i) (replicate (Z.to_nat DINODE) 0) (blks s b))).
  destruct (fwrite s1 P ({[b]} ∪ ∅) bp b d R1 Hu ltac:(set_solver) H1) as (s2 & E2 & R2 & D2 & B2 & K2);
    [unfold d; by rewrite length_fresh|by apply bytes_fresh|done|].
  destruct (frelse s2 _ _ bp b R2 ltac:(set_solver)) as (s3 & E3 & R3 & B3 & K3); [by apply K2; [set_solver|]|].
  assert (s3 = set_store (store s3) s) as Hmem by (rewrite (kp_mem _ _ _ K3), (kp_mem _ _ _ K2), (kp_mem _ _ _ K1); done).
  assert (rdy s3 ({[b]} ∪ P) ∅) as R3' by (eapply rdy_ext; [| |exact R3]; set_solver).
  assert (blks s3 b = d) as Hb by (by rewrite B3). assert (∀ c, c ≠ b → blks s3 c = blks s c) as Ho by (intros c Hc; by rewrite B3, B2, B1).
  pose proof (fresh_changes s s3 i type V Hi Hfree Ht Hlen Hmem Hb Ho) as Ch. pose proof (fresh_volume s s3 i type V Hi Hfree Ht Hlen Hmem Hb Ho) as V3.
  pose proof (fresh_inode s s3 i type V Hi Hfree Ht Hlen Hmem Hb Ho) as Ed. assert (∀ j, ino j s3 = ino j s) as Ei by (intros j; by rewrite Hmem).
  assert (∀ k, refs s3 k = refs s k) as F3 by (intros k; unfold refs; by rewrite Ei).
  assert (∀ j l n, refs s j = Some (l, n) → l ≠ i) as Hni by (intros j l n Hj ->; by destruct (F _ _ _ Hj)).
  assert (kstate pid s3 h ({[b]} ∪ P)) as K3'.
  { constructor; [done| |done|].
    - apply (cache_disk pid s s3 h C); [by rewrite Hmem|by rewrite Hmem|]. intros j Hj. assert (refs s j = Some (inum (ino j s), ref (ino j s))) as Hr by (unfold refs; by rewrite (proj2 (Z.ltb_lt _ _))).
      apply (ch_inodes _ _ _ Ch); [by apply (F _ _ _ Hr)|by apply (Hni _ _ _ Hr)].
    - intros j l n. rewrite F3. intros Hj. apply (other_live s s3 i l); try done; [by apply (F j l n)|by apply (Hni j l n)]. }
  destruct (iget_ok pid s3 h i (ks_cache _ _ _ _ K3')) as (ip & s4 & E4 & Est & Esb & C4 & Hv4 & F4 & Hip); [apply slots_one; by apply (slots_refs 1 s)|].
  assert (refs s ip = None) as Hnone. { destruct (refs s ip) as [[l n]|] eqn:E; [|done]. destruct (Hni _ _ _ E). apply (Hip l n). by rewrite F3. }
  assert (looks s3 s4) as L4 by by apply looks_store. assert (live s3 i) as Hl3 by (split; [unfold inum_ok; by rewrite (ch_sb _ _ _ Ch)|rewrite Ed; cbn; lia]).
  exists ip, s4. split.
  { unfold ialloc_body. msimpl. destruct Hi as [_ Hi2]. rewrite (proj2 (Z.ltb_lt _ _)) by done. fold b. rewrite E1. cbn [res_bind]. rewrite D1. change (get_dinode (dinode_off i) (blks s b)) with (disk_inode s i).
    rewrite Hfree. cbn [Z.eqb]. msimpl. rewrite D1. fold d. rewrite E2. cbn [res_bind]. rewrite E3. cbn [res_bind]. rewrite E4. done. }
  constructor; try done.
  - apply (kstate_looks pid s3 s4 h); try done; [unfold rdy; by rewrite Est|]. intros k l n. rewrite F4. unfold add_ref. case_decide; [intros [= <- _]; done|]. apply (ks_refs _ _ _ _ K3').
  - intros k. rewrite F4. unfold add_ref. by rewrite !F3.
  - apply (changes_looks s i s3); done.
  - by rewrite (looks_inode _ _ i L4).
  - intros j l n Hj Hld. assert (j ≠ ip) as Hne by (intros ->; congruence). apply (loaded_intro pid s4 h j l n C4); [rewrite F4; unfold add_ref; by rewrite decide_False, F3|].
    rewrite Hv4; [rewrite Ei; apply Hld|]. rewrite Ei. apply refs_in in Hj. lia.
Qed.

Lemma took_unseen s s1 h P i type ip s' : unseen s s1 → took s1 h P i type ip s' → took s h P i type ip s'.
Proof.
  intros U [T1 T2 T3 T4 T5 T6]. assert (∀ k, refs s1 k = refs s k) as F by (intros k; unfold refs, ino; by rewrite (un_mem _ _ U)).
  pose proof (unseen_looks s s1 U) as L. assert (sb s1 = sb s) as E by apply L. constructor; try done.
  - by rewrite <- E.
  - by rewrite <- F.
  - intros k. rewrite T3. unfold add_ref. by rewrite !F.
  - by apply (changes_before s s1).
  - intros j d n Hj Hd. apply (T6 j d n); [by rewrite F|]. by apply (loaded_unseen s s1).
Qed.

Lemma ialloc_skip s h P i type :
  kstate pid s h P → (size P < NBUF)%nat → live s i →
  ∃ s', ialloc_body ROOTDEV type i s = Ret (inl (i + 1)) s' ∧ unseen s s' ∧ kstate pid s' h P.
Proof.
  intros K HP [Hi Ht]. pose proof K as [V C R F]. destruct (vo_iblock _ V i Hi) as (_ & _ & Hu & _).
  destruct (fread s P ∅ (IBLOCK i (sb s)) R Hu ltac:(set_solver)) as (bp & s1 & E1 & R1 & H1 & B1 & K1 & D1); [by rewrite union_empty_r_L|].
  destruct (frelse s1 _ _ bp _ R1 (in_self _ _) H1) as (s2 & E2 & R2 & B2 & K2). rewrite diff_more in R2 by (by apply not_elem_of_empty).
  assert (unseen s s2) as U by (apply (unseen_trans s s1); [by apply (kept_unseen s s1 ∅)|by eapply kept_unseen]).
  exists s2. split; [|split; [done|]].
  - unfold ialloc_body. msimpl. destruct Hi as [_ Hi2]. rewrite (proj2 (Z.ltb_lt _ _)) by done. rewrite E1. cbn [res_bind]. rewrite D1.
    change (get_dinode (dinode_off i) (blks s (IBLOCK i (sb s)))) with (disk_inode s i). rewrite (proj2 (Z.eqb_neq _ _)) by done. msimpl. rewrite E2. done.
  - pose proof (unseen_looks s s2 U) as L. apply (kstate_looks pid s s2 h h P K L); [|done|].
    + apply (cache_ok_store pid s s2 h C L); by rewrite (un_mem _ _ U).
    + intros j l n. unfold refs, ino. rewrite (un_mem _ _ U). apply (F j l n).
Qed.

Lemma ialloc_loop h P type fuel : 0 < type < 2 ^ 15 → (size P < LOGCAP)%nat → ∀ s i,
  kstate pid s h P → slots 1 s → 0 < i → (∀ j, 0 < j < i → live s j) → (Z.to_nat (ninodes (sb s) - i) < fuel)%nat →
  ∃ o s', loop fuel (ialloc_body ROOTDEV type) i s = Ret o s' ∧
    match o with
    | None => kstate pid s' h P ∧ unseen s s' ∧ ∀ j, inum_ok s j → live s j
    | Some ip => ∃ j, inum_ok s j ∧ ¬ live s j ∧ (∀ k, 0 < k < j → live s k) ∧ took s h P j type ip s'
    end.
Proof.
  intros Ht HP. induction fuel as [|fuel IH]; intros s i K Hs Hi Hl Hf; [lia|]. destruct (decide (i < ninodes (sb s))) as [Hlt|Hlt].
  2:{ exists None, s. split; [apply loop_done; unfold ialloc_body; msimpl; by rewrite (proj2 (Z.ltb_ge _ _)) by lia|]. split; [done|]. split; [apply unseen_refl|].
      intros j [H1 H2]. apply Hl. lia. }
  destruct (decide (d_type (disk_inode s i) = 0)) as [Hz|Hz].
  - destruct (ialloc_take s h P i type K Hs HP (conj Hi Hlt) Hz Ht) as (ip & s' & E & T). exists (Some ip), s'. split; [by apply loop_done|].
    exists i. split; [done|]. split; [intros [_ ?]; done|done].
  - destruct (ialloc_skip s h P i type K) as (s1 & E1 & U & K1); [unfold LOGCAP, NBUF in *; lia|done|]. rewrite (loop_next _ _ _ _ _ _ E1).
    pose proof (unseen_looks s s1 U) as L. assert (sb s1 = sb s) as Es by apply L.
    destruct (IH s1 (i + 1) K1) as (o & s' & E & Ho).
    + apply (slots_refs 1 s); [|done]. intros k. unfold refs, ino. by rewrite (un_mem _ _ U).
    + lia.
    + intros j Hj. apply (live_looks s s1 j L). destruct (decide (j = i)) as [-> | Hne]; [done|]. apply Hl. lia.
    + rewrite Es. lia.
    + exists o, s'. split; [done|]. destruct o as [ip|].
      * destruct Ho as (j & H1 & H2 & H3 & T). exists j. unfold inum_ok in H1. rewrite Es in H1. split; [done|]. rewrite (live_looks s s1 j L) in H2. split; [done|].
        split; [intros k Hk; by apply (live_looks s s1 k L), H3|by apply (took_unseen s s1)].
      * destruct Ho as (K' & U' & Ha). split; [done|]. split; [by apply (unseen_trans s s1)|]. intros j Hj. apply (live_looks s s1 j L), Ha. unfold inum_ok. by rewrite Es.
Qed.

Lemma ialloc_k s h P type :
  kstate pid s h P → slots 1 s → (size P < LOGCAP)%nat → 0 < type < 2 ^ 15 →
  ∃ o s', ialloc ROOTDEV type s = Ret o s' ∧
    match o with
    | None => kstate pid s' h P ∧ unseen s s' ∧ ∀ j, inum_ok s j → live s j
    | Some ip => ∃ j, inum_ok s j ∧ ¬ live s j ∧ (∀ k, 0 < k < j → live s k) ∧ took s h P j type ip s'
    end.
Proof. intros K Hs HP Ht. unfold ialloc. msimpl. apply ialloc_loop; try done; lia. Qed.

(** * An inode without names is given back *)

(** Inode [i] and its blocks are free. *)
Record forgets s (i : Z) s' : Prop := {
  fg_sb : sb s' = sb s;
  fg_type : d_type (disk_inode s' i) = 0;
  fg_inodes : ∀ j, inum_ok s j → j ≠ i → disk_inode s' j = disk_inode s j;
  fg_blks : ∀ c, taken s c → c ≠ IBLOCK i (sb s) → blks s' c = blks s c;
  fg_free : ∀ c, has s i c → used s' c = false;
  fg_used : ∀ c, 0 ≤ c < sb_size (sb s) → ¬ has s i c → used s' c = used s c;
}.

Lemma has_dec s i c : Decision (has s i c).
Proof.
  destruct (decide (c ≠ 0 ∧ Exists (λ k, faddr 0 (probe s i) k = c) (seqZ 0 (MAXFILE + 1)))) as [H|H].
  - left. destruct H as [Hc (k & Hk%elem_of_seqZ & E)%Exists_exists]. split; [done|]. exists k. split; [lia|done].
  - right. intros (Hc & k & Hk & E). apply H. split; [done|]. apply Exists_exists. exists k. split; [|done]. apply elem_of_seqZ. lia.
Qed.
#[local] Existing Instance has_dec.

Section forgotten.
Context (s s' : fs S) (i : Z).
Hypothesis V : volume s.
Hypothesis Hi : live s i.
Hypothesis Fg : forgets s i s'.

Lemma has_taken j c : live s j → has s j c → taken s c.
Proof using V. intros Hj (Hc & k & Hk & <-). by apply (fo_taken _ _ (sd_file _ _ (vo_file _ V j Hj)) k). Qed.

Lemma forgets_live j : live s' j ↔ live s j ∧ j ≠ i.
Proof using Hi Fg.
  unfold live, inum_ok. rewrite (fg_sb _ _ _ Fg). destruct (decide (j = i)) as [-> | Hne].
  - split; [intros [_ Hn]; by rewrite (fg_type _ _ _ Fg) in Hn|by intros [_ ?]].
  - split; [intros [H1 H2]|intros [[H1 H2] _]]; rewrite (fg_inodes _ _ _ Fg j H1 Hne) in *; done.
Qed.

Section file.
Context (j : Z).
Hypothesis Hj : live s j.
Hypothesis Hne : j ≠ i.

Lemma forgets_inode : disk_inode s' j = disk_inode s j.
Proof using Fg Hj Hne. apply (fg_inodes _ _ _ Fg); [apply Hj|done]. Qed.

Lemma forgets_block c : has s j c → blks s' c = blks s c.
Proof using V Hi Fg Hj Hne.
  intros Hc. apply (fg_blks _ _ _ Fg); [by apply (has_taken j)|]. apply (vo_inode _ V j c i Hj Hc), Hi.
Qed.

Lemma forgets_data : file_data s' j = file_data s j.
Proof using V Hi Fg Hj Hne. apply (kept_data s s' j (vo_file _ V j Hj) forgets_inode forgets_block). Qed.
Lemma forgets_has c : has s' j c ↔ has s j c.
Proof using V Hi Fg Hj Hne. apply (kept_has s s' j forgets_inode forgets_block). Qed.
End file.

Lemma forgets_iblock j : inum_ok s j → used s' (IBLOCK j (sb s)) = true.
Proof using V Hi Fg.
  intros Hj. destruct (vo_iblock _ V j Hj) as (Hr & Hu & _). rewrite (fg_used _ _ _ Fg); [done|lia|]. intros Hh. by apply (vo_inode _ V i _ j Hi Hh Hj).
Qed.

Lemma forgets_alloc : alloc_ok s'.
Proof using V Hi Fg.
  pose proof (fg_sb _ _ _ Fg) as E. destruct (vo_alloc _ V) as [A1 A2 A3 A4]. constructor; rewrite ?E; try done.
  - intros c Hc%(is_bitmap_sb s s' c E). by apply A2.
  - intros b Hb Hu. rewrite (is_bitmap_sb s s' b E). destruct (decide (has s i b)) as [Hh|Hh]; [by destruct (has_taken i b Hi Hh) as (_ & _ & ? & ?)|].
    apply A3; [done|]. by rewrite <- (fg_used _ _ _ Fg).
  - rewrite (fg_used _ _ _ Fg); [done|lia|]. by intros [? _].
Qed.

Lemma forgets_volume : d_nlink (disk_inode s i) = 0 → volume s'.
Proof using V Hi Fg.
  intros Hn. pose proof (fg_sb _ _ _ Fg) as E. pose proof forgets_live as Hl. constructor.
  - rewrite E. apply V.
  - exact forgets_alloc.
  - intros j. unfold inum_ok. rewrite E. intros Hj. pose proof (vo_iblock _ V j Hj) as (H1 & _ & H3 & H4). split; [by rewrite E|]. split; [by apply forgets_iblock|]. split; [done|].
    by rewrite (is_bitmap_sb s s' _ E).
  - intros j [Hj Hne]%Hl. apply (kept_wf s s' j (vo_file _ V j Hj) E (forgets_inode j Hj Hne) (forgets_block j Hj Hne)); [exact forgets_alloc|].
    intros c Hc [Hh| -> ]; [|apply forgets_iblock, Hj]. destruct Hc as (Hr & Hu & _). rewrite (fg_used _ _ _ Fg); [done|lia|]. intros Hh'. by apply Hne, (vo_apart _ V j i c).
  - intros a c j [Ha Hne]%Hl Hc%(forgets_has a Ha Hne). unfold inum_ok. rewrite E. by apply (vo_inode _ V a c j Ha Hc).
  - intros a b c [Ha Hna]%Hl [Hb Hnb]%Hl Hc%(forgets_has a Ha Hna) Hd%(forgets_has b Hb Hnb). by apply (vo_apart _ V a b c).
  - intros j [[Hj Hne]%Hl Hnl] Ht. rewrite (forgets_inode j Hj Hne) in *. rewrite (forgets_data j Hj Hne). destruct (vo_dir _ V j (conj Hj Hnl) Ht) as [? He].
    split; [done|]. intros e H1 H2. destruct (He e H1 H2) as [H3 H4]. assert (e.1 ≠ i) as H5 by congruence. split; [by apply Hl|]. by rewrite (forgets_inode e.1 H3 H5).
Qed.
End forgotten.

Lemma reclaimed_forgets s h i ip s' : volume s → live s i → loaded s ip i → reclaimed pid ip s h i s' → forgets s i s'.
Proof.
  intros V Hi Ld [R1 R2 R3 R4 R5 R6 R7 [R8 _] _]. assert (∀ c, owns ip s c ↔ has s i c) as Ho.
  { intros c. unfold has, owns. by setoid_rewrite (loaded_addr s ip i _ Ld). }
  constructor; try done.
  - intros j Hj Hne. apply R6; [done|]. by apply (vo_iblock _ V j Hj).
  - intros c Hc Hne. apply R7; [apply Hc|done].
  - intros c Hc. by apply R4, Ho.
  - intros c Hc Hn. apply R5; [done|]. by rewrite Ho.
Qed.

(** The last reference to an inode without names; its blocks are in one part of the bitmap. *)
Lemma forget_k fuel s h P ip i b0 : (0 < fuel)%nat →
  kstate pid s h P → ip ∉ h → refs s ip = Some (i, 1) → loaded s ip i → d_nlink (disk_inode s i) = 0 →
  (∀ b, has s i b → BBLOCK b (sb s) = b0) → (size P + 2 < LOGCAP)%nat →
  ∃ s' P', iput pid fuel ip s = Ret tt s' ∧ kstate pid s' h P' ∧ (size P' ≤ size P + 2)%nat ∧ (∀ k, refs s' k = if decide (k = ip) then None else refs s k) ∧ forgets s i s' ∧
    ∀ j, j ≠ ip → ino j s' = ino j s.
Proof.
  intros Hf K Hh Hr Ld Hn Hone HP. pose proof K as [V C R F]. pose proof (F _ _ _ Hr) as Hi. destruct (refs_in _ _ _ _ Hr) as (_ & Hr1 & Hp). pose proof (ref_slot s ip ltac:(lia)) as Hl.
  pose proof (size_insert b0 P) as HB. rewrite (union_comm_L _ P) in HB.
  destruct (iput_last pid fuel ip i h s P {[b0]} Hf C Hh Hr) as (s' & P' & E & R' & HP' & Rc); try done.
  - apply Ld.
  - apply (loaded_sound s ip i Ld Hl). by apply (vo_file _ V).
  - intros j Hj. apply (vo_iblock _ V). apply (F j _ (ref (ino j s))). unfold refs. by rewrite (proj2 (Z.ltb_lt _ _)).
  - intros b (Hb & k & Hk & Ek). rewrite (loaded_addr s ip i k Ld) in Ek. rewrite (Hone b); [set_solver|]. split; [done|]. by exists k.
  - lia.
  - pose proof (reclaimed_forgets s h i ip s' V Hi Ld Rc) as Fg. exists s', P'. split; [done|]. split; [|split; [|split; [apply Rc|split; [done|apply Rc]]]].
    + constructor; [by apply (forgets_volume s s' i)|apply Rc|done|]. intros k l n. rewrite (rc_refs _ _ _ _ _ _ Rc). case_decide as Hk; [done|]. intros Hkl.
      apply (forgets_live s s' i Hi Fg). split; [by apply (F k l n)|]. intros ->. apply Hk. destruct (refs_in _ _ _ _ Hkl) as (? & ? & ?). destruct (refs_in _ _ _ _ Hr) as (? & ? & ?).
      apply (ic_inj _ _ _ C); (lia || congruence).
    + apply subseteq_size in HP'. pose proof (size_insert (iblock ip s) (P ∪ {[b0]})). lia.
Qed.
End new.
