(* ===== verification/VirtioDisk.v ===== *)
(** The disk driver (kernel/virtio_disk.c, virtio.h): the descriptor table and the two rings
    it shares with the device, [virtio_disk_rw] with the points where it sleeps, the
    interrupt handler, and the initialisation.

    The memory the driver and the device share is a record.  Arrays of NUM entries are
    functions whose index is checked, addresses the driver hands to the device say what they
    point to, and the disk is an array of sectors.  [seen] and [pending] are the device's
    own: how far it has read the ring of available requests, and what it has taken from it
    and not finished. *)

From stdpp Require Import functions.
From S2P Require Import Prelude Mem Riscv Kalloc Bytes.

Definition NUM : Z := 8.
Definition BSIZE : Z := 1024.
Definition VRING_DESC_F_NEXT : Z := 1.
Definition VRING_DESC_F_WRITE : Z := 2.
Definition VIRTIO_BLK_T_IN : Z := 0.
Definition VIRTIO_BLK_T_OUT : Z := 1.

(** What an address given to the device points to. *)
Inductive vptr :=
| PNull
| POp (i : Z)
| PData (b : nat)
| PStatus (i : Z).

Record virtq_desc := Desc { d_addr : vptr; d_len : Z; d_flags : Z; d_next : Z }.
Record virtio_blk_req := Req { q_type : Z; q_reserved : Z; q_sector : Z }.
Record vinfo := Info { i_b : option nat; i_status : Z }.

(** The fields of [struct buf] that the driver uses. *)
Record vbuf := Vbuf { b_disk : bool; b_blockno : Z; b_data : list Z }.

Record vdisk := Vdisk {
  desc : Z → virtq_desc;
  avail_idx : Z;
  avail_ring : Z → Z;
  used_dev : Z;
  used_ring : Z → Z;
  free : Z → bool;
  used_idx : Z;
  info : Z → vinfo;
  ops : Z → virtio_blk_req;
  vdisk_lock : bool;
  vwoken : list chan;
  bufs : nat → vbuf;
  mmio : list (Z * Z);
  img : Z → list Z;
  seen : Z;
  pending : list Z;
}.

Definition set_desc f s := Vdisk (f (desc s)) (avail_idx s) (avail_ring s) (used_dev s) (used_ring s) (free s) (used_idx s) (info s) (ops s) (vdisk_lock s) (vwoken s) (bufs s) (mmio s) (img s) (seen s) (pending s).
Definition set_avail i r s := Vdisk (desc s) i r (used_dev s) (used_ring s) (free s) (used_idx s) (info s) (ops s) (vdisk_lock s) (vwoken s) (bufs s) (mmio s) (img s) (seen s) (pending s).
Definition set_used i r s := Vdisk (desc s) (avail_idx s) (avail_ring s) i r (free s) (used_idx s) (info s) (ops s) (vdisk_lock s) (vwoken s) (bufs s) (mmio s) (img s) (seen s) (pending s).
Definition set_free f s := Vdisk (desc s) (avail_idx s) (avail_ring s) (used_dev s) (used_ring s) (f (free s)) (used_idx s) (info s) (ops s) (vdisk_lock s) (vwoken s) (bufs s) (mmio s) (img s) (seen s) (pending s).
Definition set_used_idx i s := Vdisk (desc s) (avail_idx s) (avail_ring s) (used_dev s) (used_ring s) (free s) i (info s) (ops s) (vdisk_lock s) (vwoken s) (bufs s) (mmio s) (img s) (seen s) (pending s).
Definition set_info f s := Vdisk (desc s) (avail_idx s) (avail_ring s) (used_dev s) (used_ring s) (free s) (used_idx s) (f (info s)) (ops s) (vdisk_lock s) (vwoken s) (bufs s) (mmio s) (img s) (seen s) (pending s).
Definition set_ops f s := Vdisk (desc s) (avail_idx s) (avail_ring s) (used_dev s) (used_ring s) (free s) (used_idx s) (info s) (f (ops s)) (vdisk_lock s) (vwoken s) (bufs s) (mmio s) (img s) (seen s) (pending s).
Definition set_vlock b s := Vdisk (desc s) (avail_idx s) (avail_ring s) (used_dev s) (used_ring s) (free s) (used_idx s) (info s) (ops s) b (vwoken s) (bufs s) (mmio s) (img s) (seen s) (pending s).
Definition set_vwoken w s := Vdisk (desc s) (avail_idx s) (avail_ring s) (used_dev s) (used_ring s) (free s) (used_idx s) (info s) (ops s) (vdisk_lock s) w (bufs s) (mmio s) (img s) (seen s) (pending s).
Definition set_bufs f s := Vdisk (desc s) (avail_idx s) (avail_ring s) (used_dev s) (used_ring s) (free s) (used_idx s) (info s) (ops s) (vdisk_lock s) (vwoken s) (f (bufs s)) (mmio s) (img s) (seen s) (pending s).
Definition set_mmio l s := Vdisk (desc s) (avail_idx s) (avail_ring s) (used_dev s) (used_ring s) (free s) (used_idx s) (info s) (ops s) (vdisk_lock s) (vwoken s) (bufs s) l (img s) (seen s) (pending s).
Definition set_dev i k q s := Vdisk (desc s) (avail_idx s) (avail_ring s) (used_dev s) (used_ring s) (free s) (used_idx s) (info s) (ops s) (vdisk_lock s) (vwoken s) (bufs s) (mmio s) i k q.

Definition set_b_disk x b := Vbuf x (b_blockno b) (b_data b).
Definition set_b_data d b := Vbuf (b_disk b) (b_blockno b) d.

(** * Registers *)

(** The registers, and where they are mapped. *)
Inductive vreg :=
| VIRTIO_MMIO_MAGIC_VALUE
| VIRTIO_MMIO_VERSION
| VIRTIO_MMIO_DEVICE_ID
| VIRTIO_MMIO_VENDOR_ID
| VIRTIO_MMIO_DEVICE_FEATURES
| VIRTIO_MMIO_DRIVER_FEATURES
| VIRTIO_MMIO_QUEUE_SEL
| VIRTIO_MMIO_QUEUE_NUM_MAX
| VIRTIO_MMIO_QUEUE_NUM
| VIRTIO_MMIO_QUEUE_READY
| VIRTIO_MMIO_QUEUE_NOTIFY
| VIRTIO_MMIO_INTERRUPT_STATUS
| VIRTIO_MMIO_INTERRUPT_ACK
| VIRTIO_MMIO_STATUS
| VIRTIO_MMIO_QUEUE_DESC_LOW
| VIRTIO_MMIO_QUEUE_DESC_HIGH
| VIRTIO_MMIO_DRIVER_DESC_LOW
| VIRTIO_MMIO_DRIVER_DESC_HIGH
| VIRTIO_MMIO_DEVICE_DESC_LOW
| VIRTIO_MMIO_DEVICE_DESC_HIGH.

Definition reg_offset (r : vreg) : Z :=
  match r with
  | VIRTIO_MMIO_MAGIC_VALUE => 0x000
  | VIRTIO_MMIO_VERSION => 0x004
  | VIRTIO_MMIO_DEVICE_ID => 0x008
  | VIRTIO_MMIO_VENDOR_ID => 0x00c
  | VIRTIO_MMIO_DEVICE_FEATURES => 0x010
  | VIRTIO_MMIO_DRIVER_FEATURES => 0x020
  | VIRTIO_MMIO_QUEUE_SEL => 0x030
  | VIRTIO_MMIO_QUEUE_NUM_MAX => 0x034
  | VIRTIO_MMIO_QUEUE_NUM => 0x038
  | VIRTIO_MMIO_QUEUE_READY => 0x044
  | VIRTIO_MMIO_QUEUE_NOTIFY => 0x050
  | VIRTIO_MMIO_INTERRUPT_STATUS => 0x060
  | VIRTIO_MMIO_INTERRUPT_ACK => 0x064
  | VIRTIO_MMIO_STATUS => 0x070
  | VIRTIO_MMIO_QUEUE_DESC_LOW => 0x080
  | VIRTIO_MMIO_QUEUE_DESC_HIGH => 0x084
  | VIRTIO_MMIO_DRIVER_DESC_LOW => 0x090
  | VIRTIO_MMIO_DRIVER_DESC_HIGH => 0x094
  | VIRTIO_MMIO_DEVICE_DESC_LOW => 0x0a0
  | VIRTIO_MMIO_DEVICE_DESC_HIGH => 0x0a4
  end.
Coercion reg_offset : vreg >-> Z.

Definition write_reg (r v : Z) : M vdisk unit := modify (λ s, set_mmio (mmio s ++ [(r, u32 v)]) s).

(** * Lock, sleep and wakeup *)

Definition acquire_vd : M vdisk unit := λ s, if vdisk_lock s then Panic "acquire" else Ret tt (set_vlock true s).
Definition release_vd : M vdisk unit := λ s, if vdisk_lock s then Ret tt (set_vlock false s) else Panic "release".
Definition sleep_vd (c : chan) : M vdisk unit := release_vd;; sleep_on c;; acquire_vd.
Definition wakeup_vd (c : chan) : M vdisk unit := modify (λ s, set_vwoken (c :: vwoken s) s).

(** An index into an array of NUM entries. *)
Definition in_num (i : Z) : bool := (0 <=? i) && (i <? NUM).
Definition index (i : Z) : M vdisk unit := if in_num i then mret tt else fault "index".

(** * Descriptors *)

Fixpoint alloc_desc_from (n : nat) (i : Z) : M vdisk Z :=
  match n with
  | O => mret (-1)
  | S n =>
      s ← get;
      if free s i then modify (set_free <[i := false]>);; mret i
      else alloc_desc_from n (i + 1)
  end.
Definition alloc_desc : M vdisk Z := alloc_desc_from (Z.to_nat NUM) 0.

Definition free_desc (i : Z) : M vdisk unit :=
  if NUM <=? i then panic "free_desc 1"
  else
    index i;;
    s ← get;
    if free s i then panic "free_desc 2"
    else
      modify (set_desc <[i := Desc PNull 0 0 0]>);;
      modify (set_free <[i := true]>);;
      wakeup_vd ChDiskFree.

Definition free_chain_body (i : Z) : M vdisk (Z + unit) :=
  index i;;
  s ← get;
  let flag := d_flags (desc s i) in
  let nxt := d_next (desc s i) in
  free_desc i;;
  mret (if Z.land flag VRING_DESC_F_NEXT =? 0 then inr tt else inl nxt).
Definition free_chain (i : Z) : M vdisk unit := loop (Z.to_nat NUM + 1) free_chain_body i.

Definition alloc3_desc : M vdisk (option (Z * Z * Z)) :=
  i0 ← alloc_desc;
  if i0 <? 0 then mret None
  else
    i1 ← alloc_desc;
    if i1 <? 0 then free_desc i0;; mret None
    else
      i2 ← alloc_desc;
      if i2 <? 0 then free_desc i0;; free_desc i1;; mret None
      else mret (Some (i0, i1, i2)).

(** * Requests *)

(** Format the three descriptors, and record the buffer for the interrupt handler. *)
Definition format (b : nat) (write : bool) (sector i0 i1 i2 : Z) : M vdisk unit :=
  modify (set_ops <[i0 := Req (if write then VIRTIO_BLK_T_OUT else VIRTIO_BLK_T_IN) 0 sector]>);;
  modify (set_desc <[i0 := Desc (POp i0) 16 VRING_DESC_F_NEXT i1]>);;
  modify (set_desc <[i1 := Desc (PData b) BSIZE (Z.lor (if write then 0 else VRING_DESC_F_WRITE) VRING_DESC_F_NEXT) i2]>);;
  modify (set_info (λ f, <[i0 := Info (i_b (f i0)) 255]> f));;
  modify (set_desc <[i2 := Desc (PStatus i0) 1 VRING_DESC_F_WRITE 0]>);;
  modify (set_bufs (λ f, <[b := set_b_disk true (f b)]> f));;
  modify (set_info (λ f, <[i0 := Info (Some b) (i_status (f i0))]> f)).

(** Put the chain into the ring of available requests, and tell the device. *)
Definition submit (i0 : Z) : M vdisk unit :=
  modify (λ s, set_avail (avail_idx s) (<[avail_idx s mod NUM := i0]> (avail_ring s)) s);;
  modify (λ s, set_avail (u16 (avail_idx s + 1)) (avail_ring s) s);;
  write_reg VIRTIO_MMIO_QUEUE_NOTIFY 0.

Definition rw_alloc (_ : unit) : M vdisk (unit + Z * Z * Z) :=
  r ← alloc3_desc;
  match r with
  | Some idx => mret (inr idx)
  | None => sleep_vd ChDiskFree;; mret (inl tt)
  end.

Definition rw_wait (b : nat) (_ : unit) : M vdisk (unit + unit) :=
  s ← get;
  if b_disk (bufs s b) then sleep_vd (ChBuf b);; mret (inl tt) else mret (inr tt).

Definition rw_finish (i0 : Z) : M vdisk unit :=
  modify (set_info (λ f, <[i0 := Info None (i_status (f i0))]> f));;
  free_chain i0;;
  release_vd.

Definition virtio_disk_rw (fuel : nat) (b : nat) (write : bool) : M vdisk unit :=
  s ← get;
  let sector := u32 (b_blockno (bufs s b) * (BSIZE / 512)) in
  acquire_vd;;
  idx ← loop fuel rw_alloc tt;
  let '(i0, i1, i2) := idx in
  format b write sector i0 i1 i2;;
  submit i0;;
  loop fuel (rw_wait b) tt;;
  rw_finish i0.

(** * The interrupt *)

Definition intr_body (_ : unit) : M vdisk (unit + unit) :=
  s ← get;
  if used_idx s =? used_dev s then mret (inr tt)
  else
    let id := used_ring s (used_idx s mod NUM) in
    index id;;
    if negb (i_status (info s id) =? 0) then panic "virtio_disk_intr status"
    else
      match i_b (info s id) with
      | None => fault "null buf"
      | Some b =>
          modify (set_bufs (λ f, <[b := set_b_disk false (f b)]> f));;
          wakeup_vd (ChBuf b);;
          modify (λ s, set_used_idx (u16 (used_idx s + 1)) s);;
          mret (inl tt)
      end.

(** [isr] is what the device has in its interrupt status register. *)
Definition virtio_disk_intr (isr : Z) : M vdisk unit :=
  acquire_vd;;
  write_reg VIRTIO_MMIO_INTERRUPT_ACK (Z.land isr 3);;
  loop (Z.to_nat NUM + 1) intr_body tt;;
  release_vd.

(** * Initialisation *)

(** Bits of the status register. *)
Inductive vstatus :=
| VIRTIO_CONFIG_S_ACKNOWLEDGE
| VIRTIO_CONFIG_S_DRIVER
| VIRTIO_CONFIG_S_DRIVER_OK
| VIRTIO_CONFIG_S_FEATURES_OK.

Definition status_bit (r : vstatus) : Z :=
  match r with
  | VIRTIO_CONFIG_S_ACKNOWLEDGE => 1
  | VIRTIO_CONFIG_S_DRIVER => 2
  | VIRTIO_CONFIG_S_DRIVER_OK => 4
  | VIRTIO_CONFIG_S_FEATURES_OK => 8
  end.
Coercion status_bit : vstatus >-> Z.

(** Features of the device, by the number of their bits. *)
Inductive vfeature :=
| VIRTIO_BLK_F_RO
| VIRTIO_BLK_F_SCSI
| VIRTIO_BLK_F_CONFIG_WCE
| VIRTIO_BLK_F_MQ
| VIRTIO_F_ANY_LAYOUT
| VIRTIO_RING_F_INDIRECT_DESC
| VIRTIO_RING_F_EVENT_IDX.

Definition feature_bit (r : vfeature) : Z :=
  match r with
  | VIRTIO_BLK_F_RO => 5
  | VIRTIO_BLK_F_SCSI => 7
  | VIRTIO_BLK_F_CONFIG_WCE => 11
  | VIRTIO_BLK_F_MQ => 12
  | VIRTIO_F_ANY_LAYOUT => 27
  | VIRTIO_RING_F_INDIRECT_DESC => 28
  | VIRTIO_RING_F_EVENT_IDX => 29
  end.
Coercion feature_bit : vfeature >-> Z.

(** The driver's state and the page allocator's. *)
Record vboot := Vboot { vb_vd : vdisk; vb_km : kmem }.
Definition on_vd {A} (c : M vdisk A) : M vboot A := zoom (λ v s, Vboot v (vb_km s)) vb_vd c.
Definition on_km {A} (c : M kmem A) : M vboot A := zoom (λ k s, Vboot (vb_vd s) k) vb_km c.

(** [rd l r] is what the device answers in register [r] after the writes [l]. *)
Section init.
Context `{KernelImage} (rd : list (Z * Z) → Z → Z).

Definition read_reg (r : Z) : M vboot Z := gets (λ s, rd (mmio (vb_vd s)) r).
Definition reg (r v : Z) : M vboot unit := on_vd (write_reg r v).
Definition without (k f : Z) : Z := Z.land f (Z.lnot (Z.shiftl 1 k)).

Definition find_disk : M vboot bool :=
  m ← read_reg VIRTIO_MMIO_MAGIC_VALUE;
  ver ← read_reg VIRTIO_MMIO_VERSION;
  dev ← read_reg VIRTIO_MMIO_DEVICE_ID;
  ven ← read_reg VIRTIO_MMIO_VENDOR_ID;
  mret ((m =? 0x74726976) && (ver =? 2) && (dev =? 2) && (ven =? 0x554d4551)).

Definition negotiate : M vboot unit :=
  features ← read_reg VIRTIO_MMIO_DEVICE_FEATURES;
  let features := without VIRTIO_BLK_F_RO features in
  let features := without VIRTIO_BLK_F_SCSI features in
  let features := without VIRTIO_BLK_F_CONFIG_WCE features in
  let features := without VIRTIO_BLK_F_MQ features in
  let features := without VIRTIO_F_ANY_LAYOUT features in
  let features := without VIRTIO_RING_F_EVENT_IDX features in
  let features := without VIRTIO_RING_F_INDIRECT_DESC features in
  reg VIRTIO_MMIO_DRIVER_FEATURES features.

(** The pages of the descriptor table and the rings, cleared; what the driver and the device
    read in them is then zero. *)
Definition queue_memory : M vboot (Z * Z * Z) :=
  desc ← on_km kalloc;
  avail ← on_km kalloc;
  used ← on_km kalloc;
  if (desc =? 0) || (avail =? 0) || (used =? 0) then panic "virtio disk kalloc"
  else
    on_km (mset desc 0 PGSIZE);;
    on_km (mset avail 0 PGSIZE);;
    on_km (mset used 0 PGSIZE);;
    on_vd (modify (λ s, set_used 0 (λ _, 0) (set_avail 0 (λ _, 0) (set_desc (λ _ _, Desc PNull 0 0 0) s))));;
    mret (desc, avail, used).

Definition queue_addresses (desc avail used : Z) : M vboot unit :=
  reg VIRTIO_MMIO_QUEUE_NUM NUM;;
  reg VIRTIO_MMIO_QUEUE_DESC_LOW desc;;
  reg VIRTIO_MMIO_QUEUE_DESC_HIGH (Z.shiftr desc 32);;
  reg VIRTIO_MMIO_DRIVER_DESC_LOW avail;;
  reg VIRTIO_MMIO_DRIVER_DESC_HIGH (Z.shiftr avail 32);;
  reg VIRTIO_MMIO_DEVICE_DESC_LOW used;;
  reg VIRTIO_MMIO_DEVICE_DESC_HIGH (Z.shiftr used 32);;
  reg VIRTIO_MMIO_QUEUE_READY 1.

Definition virtio_disk_init : M vboot unit :=
  on_vd (modify (set_vlock false));;
  ok ← find_disk;
  if negb ok then panic "could not find virtio disk"
  else
    reg VIRTIO_MMIO_STATUS 0;;
    let status := VIRTIO_CONFIG_S_ACKNOWLEDGE in
    reg VIRTIO_MMIO_STATUS status;;
    let status := Z.lor status VIRTIO_CONFIG_S_DRIVER in
    reg VIRTIO_MMIO_STATUS status;;
    negotiate;;
    let status := Z.lor status VIRTIO_CONFIG_S_FEATURES_OK in
    reg VIRTIO_MMIO_STATUS status;;
    status ← read_reg VIRTIO_MMIO_STATUS;
    if Z.land status VIRTIO_CONFIG_S_FEATURES_OK =? 0 then panic "virtio disk FEATURES_OK unset"
    else
      reg VIRTIO_MMIO_QUEUE_SEL 0;;
      ready ← read_reg VIRTIO_MMIO_QUEUE_READY;
      if negb (ready =? 0) then panic "virtio disk should not be ready"
      else
        max ← read_reg VIRTIO_MMIO_QUEUE_NUM_MAX;
        if max =? 0 then panic "virtio disk has no queue 0"
        else if max <? NUM then panic "virtio disk max queue too short"
        else
          pages ← queue_memory;
          let '(desc, avail, used) := pages in
          queue_addresses desc avail used;;
          on_vd (modify (set_free (λ f i, in_num i || f i)));;
          reg VIRTIO_MMIO_STATUS (Z.lor status VIRTIO_CONFIG_S_DRIVER_OK).
End init.
