(* ===== verification/VirtioInv.v ===== *)
(** The driver and the device together.

    [Device] says what the driver may expect of a disk that follows the virtio
    specification (sections 2.6 and 5.2): it takes requests from the ring of available ones
    in order, finishes them in any order, and for a chain of descriptors that is a
    well-formed request either moves exactly the sectors asked for and reports success, or
    reports an error, when what it has done to those sectors or to the buffer is left open.
    What it does with any other chain is left open.

    [step] interleaves any number of callers of [virtio_disk_rw] (one for each buffer, as
    the buffer's lock ensures), interrupts, steps of the device, and changes that the owner
    makes to a buffer.  A caller runs from one sleep to the next; a sleeping caller may be
    resumed at any time.  [astep] is the contract: a disk that does one block operation for
    each call, at some moment between the call and its return, or fails it, and then the call
    does not return.

    Then the invariant of driver and device: which descriptors belong to which request, where
    each request is on its way through the rings, and that every step keeps it so. *)

From stdpp Require Import functions.
From S2P Require Import Prelude Bytes VirtioDisk.

(** * The device *)

Record request := Request { rq_write : bool; rq_sector : Z; rq_len : Z; rq_buf : nat; rq_status : Z }.

Definition has_next (d : virtq_desc) : bool := Z.testbit (d_flags d) 0.
Definition writable (d : virtq_desc) : bool := Z.testbit (d_flags d) 1.

(** The request at the head [h] of a chain on a disk of [cap] sectors: a header, the data,
    and a byte for the status. *)
Definition parse (cap : Z) (v : vdisk) (h : Z) : option request :=
  let d0 := desc v h in let d1 := desc v (d_next d0) in let d2 := desc v (d_next d1) in
  match d_addr d0, d_addr d1, d_addr d2 with
  | POp j, PData b, PStatus i =>
      let q := ops v j in
      if in_num h && in_num (d_next d0) && in_num (d_next d1) &&
         has_next d0 && negb (writable d0) && (d_len d0 =? 16) &&
         has_next d1 && eqb (writable d1) (q_type q =? VIRTIO_BLK_T_IN) && (d_len d1 mod 512 =? 0) && (0 <=? d_len d1) &&
         negb (has_next d2) && writable d2 && (d_len d2 =? 1) &&
         ((q_type q =? VIRTIO_BLK_T_IN) || (q_type q =? VIRTIO_BLK_T_OUT)) &&
         (0 <=? q_sector q) && (q_sector q + d_len d1 / 512 <=? cap)
      then Some (Request (q_type q =? VIRTIO_BLK_T_OUT) (q_sector q) (d_len d1) b i)
      else None
  | _, _, _ => None
  end.

Definition read_sectors (sector len : Z) (m : Z → list Z) : list Z :=
  concat ((λ k, m (sector + Z.of_nat k)) <$> seq 0 (Z.to_nat (len / 512))).
Definition write_sectors (sector len : Z) (d : list Z) (m : Z → list Z) : Z → list Z := λ k,
  if decide (sector ≤ k < sector + len / 512) then sub (Z.to_nat (512 * (k - sector))) 512 d else m k.

Definition fetch (v : vdisk) : vdisk :=
  set_dev (img v) (u16 (seen v + 1)) (pending v ++ [avail_ring v (seen v mod NUM)]) v.

(** The device puts the request on the ring of used ones with a status; [d] is what it has
    written to the sectors, or read into the buffer. *)
Definition finish (h : Z) (r : request) (status : Z) (d : list Z) (v : vdisk) : vdisk :=
  let v := if rq_write r then set_dev (write_sectors (rq_sector r) (rq_len r) d (img v)) (seen v) (pending v) v
           else set_bufs (λ f, <[rq_buf r := set_b_data d (f (rq_buf r))]> f) v in
  let v := set_info (λ f, <[rq_status r := Info (i_b (f (rq_status r))) status]> f) v in
  let v := set_used (u16 (used_dev v + 1)) (<[used_dev v mod NUM := h]> (used_ring v)) v in
  set_dev (img v) (seen v) (filter (λ k, k ≠ h) (pending v)) v.

(** What a request moves. *)
Definition payload (r : request) (v : vdisk) : list Z :=
  if rq_write r then b_data (bufs v (rq_buf r)) else read_sectors (rq_sector r) (rq_len r) (img v).

Definition serve (h : Z) (r : request) (v : vdisk) : vdisk := finish h r 0 (payload r v) v.

(** [dev v (Some b) v']: the device reports an error for the request on buffer [b]. *)
Class Device (cap : Z) (dev : vdisk → option nat → vdisk → Prop) : Prop := {
  dev_ok v o v' : dev v o v' →
    (o = None ∧ seen v ≠ avail_idx v ∧ v' = fetch v) ∨
    ∃ h, h ∈ pending v ∧
      (parse cap v h = None ∨
       ∃ r, parse cap v h = Some r ∧
         (o = None ∧ v' = serve h r v ∨
          ∃ e d, o = Some (rq_buf r) ∧ e ≠ 0 ∧ Z.of_nat (length d) = rq_len r ∧ v' = finish h r e d v));
}.

(** * The system *)

Inductive label :=
| LCall (b : nat) (w : bool)
| LRet (b : nat) (d : list Z)
| LFail (b : nat)
| LOwn (b : nat) (n : Z) (d : list Z).

Record thread := Thread { t_write : bool; t_chan : chan; t_cont : vdisk → res vdisk unit }.
Record sys := Sys { vd : vdisk; threads : gmap nat thread }.

(** A caller has run to its next sleep, or returned. *)
Inductive settles (b : nat) (w : bool) (ts : gmap nat thread) : res vdisk unit → list label → sys → Prop :=
| se_sleep c v k : settles b w ts (Sleep c v k) [] (Sys v (<[b := Thread w c k]> ts))
| se_ret v : settles b w ts (Ret tt v) [LRet b (b_data (bufs v b))] (Sys v (delete b ts)).

Section system.
Context (cap : Z) (dev : vdisk → option nat → vdisk → Prop).

(** A block number of the disk, and a buffer of the right size. *)
Definition on_disk (n : Z) : Prop := 0 ≤ n ∧ 2 * n + 2 ≤ cap.
Definition block_sized (d : list Z) : Prop := Z.of_nat (length d) = BSIZE.

Inductive step : sys → list label → sys → Prop :=
| st_call b w fuel s l s' :
    threads s !! b = None → settles b w (threads s) (virtio_disk_rw fuel b w (vd s)) l s' →
    step s (LCall b w :: l) s'
| st_wake b t s l s' :
    threads s !! b = Some t → settles b (t_write t) (threads s) (t_cont t (vd s)) l s' →
    step s l s'
| st_intr isr v s :
    virtio_disk_intr isr (vd s) = Ret tt v → step s [] (Sys v (threads s))
| st_dev o v s :
    dev (vd s) o v → step s (match o with Some b => [LFail b] | None => [] end) (Sys v (threads s))
| st_own b n d s :
    threads s !! b = None → on_disk n → block_sized d →
    step s [LOwn b n d] (Sys (set_bufs (λ f, <[b := Vbuf (b_disk (f b)) n d]> f) (vd s)) (threads s)).
End system.

(** Finite runs with what they show. *)
Inductive execs {S L} (R : S → list L → S → Prop) : S → list L → S → Prop :=
| ex_nil s : execs R s [] s
| ex_snoc s t s' l s'' : execs R s t s' → R s' l s'' → execs R s (t ++ l) s''.

(** * The contract *)

(** How far a call has come. *)
Inductive progress := Asked | Performed | Failed.

Record ablk := Abs { a_disk : Z → list Z; a_buf : nat → Z * list Z; a_req : gmap nat (bool * progress) }.

(** The block of buffer [b] on the disk, or the buffer, becomes [d]. *)
Definition put_block (b : nat) (w : bool) (d : list Z) (a : ablk) : ablk :=
  let n := (a_buf a b).1 in
  if w then Abs (<[n := d]> (a_disk a)) (a_buf a) (a_req a)
  else Abs (a_disk a) (<[b := (n, d)]> (a_buf a)) (a_req a).

(** One block operation. *)
Definition perform (b : nat) (w : bool) (a : ablk) : ablk :=
  put_block b w (if w then (a_buf a b).2 else a_disk a (a_buf a b).1) a.
Definition set_req f (a : ablk) := Abs (a_disk a) (a_buf a) (f (a_req a)).

Inductive astep : ablk → list label → ablk → Prop :=
| a_call b w a : a_req a !! b = None → astep a [LCall b w] (set_req <[b := (w, Asked)]> a)
| a_perform b w a : a_req a !! b = Some (w, Asked) → astep a [] (set_req <[b := (w, Performed)]> (perform b w a))
| a_fail b w d a : a_req a !! b = Some (w, Asked) → astep a [LFail b] (set_req <[b := (w, Failed)]> (put_block b w d a))
| a_return b w a : a_req a !! b = Some (w, Performed) → astep a [LRet b (snd (a_buf a b))] (set_req (delete b) a)
| a_own b n d a : a_req a !! b = None → astep a [LOwn b n d] (Abs (a_disk a) (<[b := (n, d)]> (a_buf a)) (a_req a)).

(** * The invariant *)

(** Where a request is: given to the device, finished by it, seen by the interrupt handler, or
    finished with the error [e].  A caller waits for descriptors, or has three of them. *)
Inductive stage := Sub | Comp | Fin | Bad (e : Z).
Inductive phase := Alloc | Wait (i0 i1 i2 : Z) (st : stage).

#[export] Instance stage_eq_dec : EqDecision stage.
Proof. solve_decision. Defined.

(** The status byte. *)
Definition status_of (st : stage) : Z := match st with Sub => 255 | Comp | Fin => 0 | Bad e => e end.
(** On the ring of used requests. *)
Definition in_used (st : stage) : bool := match st with Comp | Bad _ => true | _ => false end.

Abbreviation calls := (gmap nat (bool * phase)).
Implicit Types (φ : calls) (v : vdisk).

Definition owns φ (b : nat) (i : Z) : Prop :=
  ∃ w i0 i1 i2 st, φ !! b = Some (w, Wait i0 i1 i2 st) ∧ (i = i0 ∨ i = i1 ∨ i = i2).
Definition heads φ (h : Z) (st : stage) : Prop := ∃ b w i1 i2, φ !! b = Some (w, Wait h i1 i2 st).

(** A ring that holds [q] from counter [from] on. *)
Definition holds (ring : Z → Z) (from : Z) (q : list Z) : Prop :=
  ∀ k, (k < length q)%nat → ring ((from + Z.of_nat k) mod NUM) = nth k q 0.

Record inflight v (b : nat) (w : bool) (i0 i1 i2 : Z) (st : stage) : Prop := {
  if_num : in_num i0 = true ∧ in_num i1 = true ∧ in_num i2 = true;
  if_ne : i0 ≠ i1 ∧ i0 ≠ i2 ∧ i1 ≠ i2;
  if_free : free v i0 = false ∧ free v i1 = false ∧ free v i2 = false;
  if_d0 : desc v i0 = Desc (POp i0) 16 VRING_DESC_F_NEXT i1;
  if_d1 : desc v i1 = Desc (PData b) BSIZE (Z.lor (if w then 0 else VRING_DESC_F_WRITE) VRING_DESC_F_NEXT) i2;
  if_d2 : desc v i2 = Desc (PStatus i0) 1 VRING_DESC_F_WRITE 0;
  if_op : ops v i0 = Req (if w then VIRTIO_BLK_T_OUT else VIRTIO_BLK_T_IN) 0 (2 * b_blockno (bufs v b));
  if_info : info v i0 = Info (Some b) (status_of st);
  if_bad : ∀ e, st = Bad e → e ≠ 0;
  if_disk : b_disk (bufs v b) = bool_decide (st ≠ Fin);
}.

Record queue φ v (q1 q3 : list Z) : Prop := {
  qu_avail : holds (avail_ring v) (seen v) q1;
  qu_avail_idx : avail_idx v = u16 (seen v + Z.of_nat (length q1));
  qu_used : holds (used_ring v) (used_idx v) q3;
  qu_used_idx : used_dev v = u16 (used_idx v + Z.of_nat (length q3));
  qu_range : 0 ≤ seen v < 2 ^ 16 ∧ 0 ≤ used_idx v < 2 ^ 16;
  qu_nodup : NoDup (q1 ++ pending v ++ q3);
  qu_sub : ∀ h, h ∈ q1 ++ pending v ↔ heads φ h Sub;
  qu_comp : ∀ h, h ∈ q3 ↔ ∃ st, in_used st = true ∧ heads φ h st;
}.

Section inv.
Context (cap : Z).

Record core φ v : Prop := {
  co_bufs : ∀ b, on_disk cap (b_blockno (bufs v b)) ∧ block_sized (b_data (bufs v b));
  co_img : ∀ k, length (img v k) = 512%nat;
  co_req : ∀ b w i0 i1 i2 st, φ !! b = Some (w, Wait i0 i1 i2 st) → inflight v b w i0 i1 i2 st;
  co_disj : ∀ b b' i, owns φ b i → owns φ b' i → b = b';
  co_free : ∀ i, in_num i = true → free v i = false → ∃ b, owns φ b i;
  co_queue : ∃ q1 q3, queue φ v q1 q3;
}.

(** * Rings and lists of heads *)

Lemma in_num_spec i : in_num i = true ↔ 0 ≤ i < 8.
Proof. unfold in_num, NUM. lia. Qed.

Lemma u16_mod_num x : u16 x mod NUM = x mod NUM.
Proof. unfold u16, NUM. zdm. Qed.

Lemma holds_push ring from q h :
  (length q < 8)%nat → holds ring from q → holds (<[(from + Z.of_nat (length q)) mod NUM := h]> ring) from (q ++ [h]).
Proof.
  intros Hl Hq k Hk. rewrite length_app in Hk. cbn in Hk. destruct (decide (k = length q)) as [->|Hne].
  - rewrite fn_lookup_insert. by rewrite app_nth2, Nat.sub_diag by lia.
  - rewrite fn_lookup_insert_ne by (unfold NUM; zdm). rewrite app_nth1 by lia. apply Hq. lia.
Qed.

Lemma holds_pop ring from h q : holds ring from (h :: q) → ring (from mod NUM) = h ∧ holds ring (u16 (from + 1)) q.
Proof.
  intros Hq. split; [specialize (Hq O ltac:(cbn; lia)); by rewrite Z.add_0_r in Hq|].
  intros k Hk. specialize (Hq (S k) ltac:(cbn; lia)). cbn [nth] in Hq. rewrite <- Hq. f_equal.
  rewrite Zplus_mod, u16_mod_num, <- Zplus_mod. f_equal. lia.
Qed.

Lemma holds_ext ring ring' from q : (∀ i, ring' i = ring i) → holds ring from q → holds ring' from q.
Proof. intros E Hq k Hk. rewrite E. by apply Hq. Qed.

Lemma heads_length (l : list Z) : NoDup l → (∀ h, h ∈ l → in_num h = true) → (length l ≤ 8)%nat.
Proof.
  intros Hn Hl. change 8%nat with (length (seqZ 0 8)). apply submseteq_length, NoDup_submseteq; [done|].
  intros h Hh. apply elem_of_seqZ. apply Hl, in_num_spec in Hh. lia.
Qed.

Lemma u16_step a q : 0 ≤ a < 2 ^ 16 → (0 < q ≤ 8)%nat → u16 (a + Z.of_nat q) ≠ a.
Proof. unfold u16. intros Ha Hq E. zdm. Qed.

Lemma heads_num φ v h st : core φ v → heads φ h st → in_num h = true.
Proof. intros C (b & w & i1 & i2 & E). apply (co_req _ _ C _ _ _ _ _ _ E). Qed.

Lemma queue_length φ v q1 q3 : core φ v → queue φ v q1 q3 → (length (q1 ++ pending v ++ q3) ≤ 8)%nat.
Proof.
  intros C Q. apply heads_length; [apply Q|]. intros h. rewrite app_assoc, elem_of_app.
  intros [Hh%(qu_sub _ _ _ _ Q)|(st & _ & Hh)%(qu_comp _ _ _ _ Q)]; by eapply heads_num.
Qed.

(** * Allocation *)

(** Nothing that a request uses has changed. *)
Record quiet v v' : Prop := {
  qt_avail : avail_idx v' = avail_idx v ∧ avail_ring v' = avail_ring v;
  qt_used : used_dev v' = used_dev v ∧ used_ring v' = used_ring v ∧ used_idx v' = used_idx v;
  qt_info : info v' = info v ∧ ops v' = ops v;
  qt_bufs : bufs v' = bufs v;
  qt_dev : img v' = img v ∧ seen v' = seen v ∧ pending v' = pending v;
  qt_free : ∀ i, free v' i = free v i;
  qt_desc : ∀ i, free v i = false → desc v' i = desc v i;
}.

Lemma quiet_refl v : quiet v v.
Proof. by constructor. Qed.

Lemma quiet_trans v1 v2 v3 : quiet v1 v2 → quiet v2 v3 → quiet v1 v3.
Proof.
  intros [A1 B1 C1 D1 E1 F1 G1] [A2 B2 C2 D2 E2 F2 G2].
  constructor; try (destruct_and?; repeat split; congruence).
  intros i Hi. rewrite G2, G1; [done|done|]. by rewrite F1.
Qed.

Lemma queue_same φ v v' q1 q3 :
  avail_idx v' = avail_idx v ∧ avail_ring v' = avail_ring v → used_dev v' = used_dev v ∧ used_ring v' = used_ring v ∧ used_idx v' = used_idx v →
  seen v' = seen v ∧ pending v' = pending v → queue φ v q1 q3 → queue φ v' q1 q3.
Proof. intros [E1 E2] (E3 & E4 & E5) [E6 E7] [H1 H2 H3 H4 H5 H6 H7 H8]. constructor; rewrite ?E1, ?E2, ?E3, ?E4, ?E5, ?E6, ?E7; done. Qed.

Lemma core_quiet φ v v' : quiet v v' → core φ v → core φ v'.
Proof.
  intros [A B [C1 C2] D (E1 & E2 & E3) F G] [H1 H2 H3 H4 H5 (q1 & q3 & Q)]. constructor.
  - by rewrite D.
  - by rewrite E1.
  - intros b w i0 i1 i2 st E. destruct (H3 _ _ _ _ _ _ E) as [K1 K2 (f0 & f1 & f2) K4 K5 K6 K7 K8 K10 K9].
    constructor; rewrite ?C1, ?C2, ?D, ?F, ?G by done; done.
  - done.
  - intros i Hi. rewrite F. by apply H5.
  - exists q1, q3. by apply (queue_same φ v).
Qed.

Lemma alloc_desc_ok v :
  (alloc_desc v = Ret (-1) v) ∨
  ∃ i, alloc_desc v = Ret i (set_free <[i := false]> v) ∧ in_num i = true ∧ free v i = true.
Proof.
  unfold alloc_desc. assert (∀ n i, 0 ≤ i → i + Z.of_nat n = 8 → alloc_desc_from n i v = Ret (-1) v ∨
    ∃ j, alloc_desc_from n i v = Ret j (set_free <[j := false]> v) ∧ in_num j = true ∧ free v j = true) as H; [|by apply H].
  intros n. induction n as [|n IH]; intros i H0 Hi; cbn [alloc_desc_from]; [by left|]. msimpl.
  destruct (free v i) eqn:Ef; [|apply IH; lia].
  right. exists i. split; [done|]. split; [apply in_num_spec; lia|done].
Qed.

Definition freed i v : vdisk :=
  set_vwoken (ChDiskFree :: vwoken v) (set_free <[i := true]> (set_desc <[i := Desc PNull 0 0 0]> v)).

Lemma free_desc_ok v i :
  in_num i = true → free v i = false →
  free_desc i v = Ret tt (freed i v).
Proof.
  intros Hi Hf. apply in_num_spec in Hi as Hr. unfold free_desc. rewrite (proj2 (Z.leb_gt NUM i)) by (unfold NUM; lia).
  unfold index. rewrite Hi. msimpl. by rewrite Hf.
Qed.

(** A descriptor taken and given back. *)
Lemma quiet_back i v u u' :
  in_num i = true → free v i = true → quiet (set_free <[i := false]> v) u → free_desc i u = Ret tt u' → quiet v u' ∧ vdisk_lock u' = vdisk_lock u.
Proof.
  intros Hi Hv [A B C D E F G]. cbn [free set_free desc avail_idx avail_ring used_dev used_ring used_idx info ops bufs img seen pending] in *.
  rewrite free_desc_ok by (try done; by rewrite F, fn_lookup_insert). intros [= <-]. split; [|done].
  constructor; try done; cbn [freed free set_free set_desc set_vwoken desc].
  - intros j. destruct (decide (j = i)) as [->|Hn]; [by rewrite fn_lookup_insert|]. by rewrite fn_lookup_insert_ne, F, fn_lookup_insert_ne by done.
  - intros j Hj. assert (i ≠ j) by congruence. rewrite fn_lookup_insert_ne by done. apply G. by rewrite fn_lookup_insert_ne by done.
Qed.

Lemma quiet_lock i v u : quiet (set_free <[i := false]> v) u → free u i = false.
Proof. intros Q. rewrite (qt_free _ _ Q). cbn [free set_free]. apply fn_lookup_insert. Qed.

(** The three descriptors, or the state with nothing taken. *)
Lemma alloc3_desc_ok v :
  ∃ r v', alloc3_desc v = Ret r v' ∧
    match r with
    | Some (i0, i1, i2) => v' = set_free <[i2 := false]> (set_free <[i1 := false]> (set_free <[i0 := false]> v)) ∧
        (in_num i0 = true ∧ in_num i1 = true ∧ in_num i2 = true) ∧ (i0 ≠ i1 ∧ i0 ≠ i2 ∧ i1 ≠ i2) ∧
        (free v i0 = true ∧ free v i1 = true ∧ free v i2 = true)
    | None => quiet v v' ∧ vdisk_lock v' = vdisk_lock v
    end.
Proof.
  assert (∀ i, in_num i = true → (i <? 0) = false) as Hpos by (intros i Hi%in_num_spec; lia).
  unfold alloc3_desc. msimpl. destruct (alloc_desc_ok v) as [->|(i0 & -> & Hi0 & Hf0)]; cbn [res_bind].
  { exists None, v. split; [done|]. split; [apply quiet_refl|done]. }
  rewrite Hpos by done. set (v0 := set_free <[i0 := false]> v).
  destruct (alloc_desc_ok v0) as [->|(i1 & -> & Hi1 & Hf1)]; cbn [res_bind].
  { change (-1 <? 0) with true. cbv beta iota. pose proof (free_desc_ok v0 i0 Hi0 (fn_lookup_insert _ _ _)) as E. rewrite E. cbn [res_bind].
    eexists None, _. split; [done|]. apply (quiet_back i0 v v0) in E; [done|done|done|apply quiet_refl]. }
  rewrite Hpos by done. set (v1 := set_free <[i1 := false]> v0).
  assert (i0 ≠ i1 ∧ free v i1 = true) as [Hn01 Hf1'].
  { cbn [free v0 set_free] in Hf1. destruct (decide (i0 = i1)) as [->|Hn]; [by rewrite fn_lookup_insert in Hf1|].
    by rewrite fn_lookup_insert_ne in Hf1. }
  destruct (alloc_desc_ok v1) as [->|(i2 & -> & Hi2 & Hf2)]; cbn [res_bind].
  - change (-1 <? 0) with true. cbv beta iota.
    assert (quiet (set_free <[i0 := false]> (set_free <[i1 := false]> v)) v1) as Q1.
    { constructor; try done. intros j. cbn [free v1 v0 set_free]. destruct (decide (j = i0)) as [->|]; [|destruct (decide (j = i1)) as [->|]];
        rewrite ?fn_lookup_insert, ?(fn_lookup_insert_ne) by done; rewrite ?fn_lookup_insert; done. }
    pose proof (free_desc_ok v1 i0 Hi0 (quiet_lock _ _ _ Q1)) as E0. rewrite E0. cbn [res_bind].
    apply (quiet_back i0 (set_free <[i1 := false]> v) v1) in E0 as [Q2 L2]; [|done| |done].
    2:{ cbn [free set_free]. by rewrite fn_lookup_insert_ne. }
    set (u := freed _ _) in *. pose proof (free_desc_ok u i1 Hi1 (quiet_lock _ _ _ Q2)) as E1. rewrite E1. cbn [res_bind].
    apply (quiet_back i1 v u) in E1 as [Q3 L3]; [|done..]. eexists None, _. split; [done|]. split; [done|]. by rewrite L3.
  - rewrite Hpos by done. eexists (Some (i0, i1, i2)), _. split; [done|]. split; [done|]. split; [done|].
    cbn [free v1 v0 set_free] in Hf2. assert (i1 ≠ i2) as Hn12 by (intros ->; by rewrite fn_lookup_insert in Hf2).
    rewrite fn_lookup_insert_ne in Hf2 by done. assert (i0 ≠ i2) as Hn02 by (intros ->; by rewrite fn_lookup_insert in Hf2).
    by rewrite fn_lookup_insert_ne in Hf2 by done.
Qed.

(** * Submission *)

Definition idle φ (b : nat) : Prop := ∀ w i0 i1 i2 st, φ !! b ≠ Some (w, Wait i0 i1 i2 st).

Lemma owns_insert φ b w i0 i1 i2 st c i :
  owns (<[b := (w, Wait i0 i1 i2 st)]> φ) c i ↔ c = b ∧ (i = i0 ∨ i = i1 ∨ i = i2) ∨ c ≠ b ∧ owns φ c i.
Proof.
  unfold owns. destruct (decide (c = b)) as [->|Hn].
  - rewrite lookup_insert_eq. naive_solver.
  - rewrite lookup_insert_ne by done. naive_solver.
Qed.

Lemma heads_insert φ b w i0 i1 i2 st h st' :
  idle φ b → heads (<[b := (w, Wait i0 i1 i2 st)]> φ) h st' ↔ h = i0 ∧ st' = st ∨ heads φ h st'.
Proof.
  intros Hb. unfold heads. split.
  - intros (c & w' & j1 & j2 & E). destruct (decide (c = b)) as [->|Hn].
    + rewrite lookup_insert_eq in E. naive_solver.
    + rewrite lookup_insert_ne in E by done. naive_solver.
  - intros [[-> ->]|(c & w' & j1 & j2 & E)].
    + exists b, w, i1, i2. by rewrite lookup_insert_eq.
    + exists c, w', j1, j2. rewrite lookup_insert_ne; [done|]. intros ->. by apply Hb in E.
Qed.

Lemma inflight_frame v v' b w i0 i1 i2 st :
  (∀ i, i = i0 ∨ i = i1 ∨ i = i2 → free v' i = free v i ∧ desc v' i = desc v i) →
  ops v' i0 = ops v i0 → info v' i0 = info v i0 → b_blockno (bufs v' b) = b_blockno (bufs v b) → b_disk (bufs v' b) = b_disk (bufs v b) →
  inflight v b w i0 i1 i2 st → inflight v' b w i0 i1 i2 st.
Proof.
  intros Hd Ho Hi Hb Hk [K1 K2 K3 K4 K5 K6 K7 K8 K10 K9].
  destruct (Hd i0) as [F0 D0]; [by left|]. destruct (Hd i1) as [F1 D1]; [by right; left|]. destruct (Hd i2) as [F2 D2]; [by right; right|].
  constructor; rewrite ?F0, ?F1, ?F2, ?D0, ?D1, ?D2, ?Ho, ?Hi, ?Hb, ?Hk; done.
Qed.

Lemma owned_not_free φ v b i : core φ v → owns φ b i → free v i = false.
Proof. intros C (w & i0 & i1 & i2 & st & E & Hi). destruct (if_free _ _ _ _ _ _ _ (co_req _ _ C _ _ _ _ _ _ E)) as (? & ? & ?). naive_solver. Qed.

Lemma head_not_free φ v h st : core φ v → heads φ h st → free v h = false.
Proof. intros C (b & w & i1 & i2 & E). apply (owned_not_free φ v b h C). exists w, h, i1, i2, st. split; [done|by left]. Qed.

(** The state after the descriptors are formatted and the chain is in the ring. *)
Definition submitted (b : nat) (w : bool) (i0 i1 i2 : Z) v : vdisk :=
  set_mmio (mmio v ++ [(reg_offset VIRTIO_MMIO_QUEUE_NOTIFY, 0)])
  (set_avail (u16 (avail_idx v + 1)) (<[avail_idx v mod NUM := i0]> (avail_ring v))
  (set_info (λ f, <[i0 := Info (Some b) (i_status (<[i0 := Info (i_b (f i0)) 255]> f i0))]> (<[i0 := Info (i_b (f i0)) 255]> f))
  (set_bufs (λ f, <[b := set_b_disk true (f b)]> f)
  (set_desc (λ f, <[i2 := Desc (PStatus i0) 1 VRING_DESC_F_WRITE 0]>
     (<[i1 := Desc (PData b) BSIZE (Z.lor (if w then 0 else VRING_DESC_F_WRITE) VRING_DESC_F_NEXT) i2]>
        (<[i0 := Desc (POp i0) 16 VRING_DESC_F_NEXT i1]> f)))
  (set_ops <[i0 := Req (if w then VIRTIO_BLK_T_OUT else VIRTIO_BLK_T_IN) 0 (2 * b_blockno (bufs v b))]> v))))).

Lemma format_submit v b w i0 i1 i2 :
  (format b w (2 * b_blockno (bufs v b)) i0 i1 i2;; submit i0) v = Ret tt (submitted b w i0 i1 i2 v).
Proof. reflexivity. Qed.

Lemma submitted_inflight v b w i0 i1 i2 :
  in_num i0 = true ∧ in_num i1 = true ∧ in_num i2 = true → i0 ≠ i1 ∧ i0 ≠ i2 ∧ i1 ≠ i2 →
  free v i0 = false ∧ free v i1 = false ∧ free v i2 = false → inflight (submitted b w i0 i1 i2 v) b w i0 i1 i2 Sub.
Proof.
  intros Hn (N1 & N2 & N3) Hf. constructor; try done; cbn [desc free ops info bufs submitted set_mmio set_avail set_info set_bufs set_desc set_ops].
  - rewrite !fn_lookup_insert_ne by done. apply fn_lookup_insert.
  - rewrite fn_lookup_insert_ne by done. apply fn_lookup_insert.
  - apply fn_lookup_insert.
  - by rewrite !fn_lookup_insert.
  - by rewrite !fn_lookup_insert.
  - by rewrite fn_lookup_insert.
Qed.

Definition taken3 (i0 i1 i2 : Z) v : vdisk := set_free <[i2 := false]> (set_free <[i1 := false]> (set_free <[i0 := false]> v)).

Lemma free_taken3 i0 i1 i2 v i : free (taken3 i0 i1 i2 v) i = if decide (i = i0 ∨ i = i1 ∨ i = i2) then false else free v i.
Proof.
  unfold taken3. cbn [free set_free]. unfold insert, fn_insert. case_decide as H; repeat case_decide; naive_solver.
Qed.

Lemma u16_add x k : u16 (u16 x + k) = u16 (x + k).
Proof. unfold u16. apply Zplus_mod_idemp_l. Qed.

Lemma queue_push φ v v' q1 q3 b w i0 i1 i2 :
  core φ v → queue φ v q1 q3 → idle φ b → in_num i0 = true → free v i0 = true →
  avail_idx v' = u16 (avail_idx v + 1) → avail_ring v' = <[avail_idx v mod NUM := i0]> (avail_ring v) →
  used_dev v' = used_dev v → used_ring v' = used_ring v → used_idx v' = used_idx v → seen v' = seen v → pending v' = pending v →
  queue (<[b := (w, Wait i0 i1 i2 Sub)]> φ) v' (q1 ++ [i0]) q3.
Proof.
  intros C Q Hb Hn Hf E1 E2 E3 E4 E5 E6 E7. pose proof Q as [H1 H2 H3 H4 H5 H6 H7 H8].
  assert (i0 ∉ q1 ++ pending v ++ q3) as Hni.
  { rewrite app_assoc, elem_of_app, H7, H8. intros [Hh|(st & _ & Hh)]; apply (head_not_free _ _ _ _ C) in Hh; congruence. }
  assert (length q1 < 8)%nat as Hl.
  { assert (length (i0 :: q1 ++ pending v ++ q3) ≤ 8)%nat as Hl; [|cbn [length] in Hl; rewrite length_app in Hl; lia].
    apply heads_length; [by constructor|]. intros h [->|Hh]%elem_of_cons; [done|].
    rewrite app_assoc, elem_of_app, H7, H8 in Hh. destruct Hh as [Hh|(st & _ & Hh)]; by apply (heads_num _ _ _ _ C) in Hh. }
  constructor; rewrite ?E3, ?E4, ?E5, ?E6, ?E7; try done.
  - rewrite E2, H2, u16_mod_num. by apply holds_push.
  - rewrite E1, H2, u16_add, length_app. f_equal. cbn. lia.
  - rewrite <- app_assoc. cbn. rewrite <- Permutation_middle. by constructor.
  - intros h. rewrite heads_insert, !elem_of_app, list_elem_of_singleton by done. rewrite <- H7, elem_of_app. naive_solver.
  - intros h. rewrite H8. split; intros (st & Hst & Hh); exists st; (split; [done|]).
    + apply heads_insert; [done|]. by right.
    + apply heads_insert in Hh as [[_ ->]|?]; done.
Qed.

Lemma submitted_core φ v b w i0 i1 i2 :
  core φ v → idle φ b → in_num i0 = true ∧ in_num i1 = true ∧ in_num i2 = true → i0 ≠ i1 ∧ i0 ≠ i2 ∧ i1 ≠ i2 →
  free v i0 = true ∧ free v i1 = true ∧ free v i2 = true →
  core (<[b := (w, Wait i0 i1 i2 Sub)]> φ) (submitted b w i0 i1 i2 (taken3 i0 i1 i2 v)).
Proof.
  intros C Hb Hn Hne (F0 & F1 & F2). set (v1 := taken3 i0 i1 i2 v).
  assert (∀ c i, owns φ c i → i ≠ i0 ∧ i ≠ i1 ∧ i ≠ i2) as Hown.
  { intros c i Hi%(owned_not_free φ v c i C). split_and!; congruence. }
  constructor.
  - intros c. cbn [bufs submitted set_mmio set_avail set_info set_bufs set_desc set_ops]. unfold insert, fn_insert.
    destruct (decide (b = c)) as [<-|]; apply (co_bufs _ _ C).
  - apply (co_img _ _ C).
  - intros c w' j0 j1 j2 st. destruct (decide (c = b)) as [->|Hc].
    + rewrite lookup_insert_eq. intros [= <- <- <- <- <-]. apply submitted_inflight; try done. unfold v1. rewrite !free_taken3.
      split_and!; apply decide_True; naive_solver.
    + rewrite lookup_insert_ne by done. intros E.
      assert (∀ i, i = j0 ∨ i = j1 ∨ i = j2 → i ≠ i0 ∧ i ≠ i1 ∧ i ≠ i2) as Hi by (intros i Hi; apply (Hown c); by exists w', j0, j1, j2, st).
      assert (j0 ≠ i0) by (apply Hi; by left).
      apply (inflight_frame v); cbn [desc free ops info bufs submitted set_mmio set_avail set_info set_bufs set_desc set_ops].
      * intros i Hij. destruct (Hi i Hij) as (? & ? & ?). rewrite !fn_lookup_insert_ne by done. split; [|done].
        change (free v1 i = free v i). unfold v1. rewrite free_taken3. apply decide_False. naive_solver.
      * by rewrite fn_lookup_insert_ne.
      * by rewrite !fn_lookup_insert_ne.
      * by rewrite fn_lookup_insert_ne.
      * by rewrite fn_lookup_insert_ne.
      * by apply (co_req _ _ C).
  - intros c c' i. rewrite !owns_insert. intros [[-> Hi]|[Hc Ho]] [[-> Hi']|[Hc' Ho']]; [done| | |].
    + apply Hown in Ho'. naive_solver.
    + apply Hown in Ho. naive_solver.
    + by apply (co_disj _ _ C c c' i).
  - intros i Hi. change (free v1 i = false → ∃ b0, owns (<[b:=(w, Wait i0 i1 i2 Sub)]> φ) b0 i). unfold v1. rewrite free_taken3. case_decide as Hd.
    + intros _. exists b. apply owns_insert. by left.
    + intros Hf. destruct (co_free _ _ C i Hi Hf) as [c Hc]. exists c. apply owns_insert. right. split; [|done].
      intros ->. destruct Hc as (w' & j0 & j1 & j2 & st & E & _). by apply Hb in E.
  - destruct (co_queue _ _ C) as (q1 & q3 & Q). exists (q1 ++ [i0]), q3.
    apply (queue_push φ v); try done; apply Hn.
Qed.

(** * A request moves on *)

Section moves.
Context φ v (b : nat) (w : bool) (i0 i1 i2 : Z) (st : stage).
Hypothesis C : core φ v.
Hypothesis Eb : φ !! b = Some (w, Wait i0 i1 i2 st).

Lemma owned_by h st' : heads φ h st' → h = i0 → st' = st.
Proof.
  intros (c & w' & j1 & j2 & E) ->. assert (c = b) as ->.
  { apply (co_disj _ _ C c b i0); [by exists w', i0, j1, j2, st'; auto|by exists w, i0, i1, i2, st; auto]. }
  rewrite Eb in E. by injection E.
Qed.

Lemma head_here : heads φ i0 st.
Proof. by exists b, w, i1, i2. Qed.

Lemma heads_move st' h s : heads (<[b := (w, Wait i0 i1 i2 st')]> φ) h s ↔ h = i0 ∧ s = st' ∨ h ≠ i0 ∧ heads φ h s.
Proof.
  unfold heads. split.
  - intros (c & w' & j1 & j2 & E). destruct (decide (c = b)) as [->|Hn].
    + rewrite lookup_insert_eq in E. naive_solver.
    + rewrite lookup_insert_ne in E by done. right. split; [|by eauto]. intros ->. apply Hn.
      apply (co_disj _ _ C c b i0); [by exists w', i0, j1, j2, s; auto|by exists w, i0, i1, i2, st; auto].
  - intros [[-> ->]|[Hh (c & w' & j1 & j2 & E)]].
    + exists b, w, i1, i2. by rewrite lookup_insert_eq.
    + exists c, w', j1, j2. rewrite lookup_insert_ne; [done|]. intros ->. rewrite Eb in E. by injection E.
Qed.

Lemma owns_move st' c i : owns (<[b := (w, Wait i0 i1 i2 st')]> φ) c i ↔ owns φ c i.
Proof.
  rewrite owns_insert. split.
  - intros [[-> Hi]|[_ Ho]]; [|done]. by exists w, i0, i1, i2, st.
  - intros Ho. destruct (decide (c = b)) as [->|]; [left|by right]. split; [done|].
    destruct Ho as (w' & j0 & j1 & j2 & s & E & Hi). rewrite Eb in E. by injection E as <- <- <- <- <-.
Qed.

Lemma core_move st' v' :
  (∀ c, on_disk cap (b_blockno (bufs v' c)) ∧ block_sized (b_data (bufs v' c))) → (∀ k, length (img v' k) = 512%nat) →
  free v' = free v → desc v' = desc v → ops v' = ops v → (∀ i, i ≠ i0 → info v' i = info v i) →
  info v' i0 = Info (Some b) (status_of st') → (∀ e, st' = Bad e → e ≠ 0) →
  (∀ c, c ≠ b → bufs v' c = bufs v c) → b_blockno (bufs v' b) = b_blockno (bufs v b) → b_disk (bufs v' b) = bool_decide (st' ≠ Fin) →
  (∃ q1 q3, queue (<[b := (w, Wait i0 i1 i2 st')]> φ) v' q1 q3) →
  core (<[b := (w, Wait i0 i1 i2 st')]> φ) v'.
Proof.
  intros H1 H2 Ef Ed Eo Ei Ei0 Hbad Ec Ebn Ebd Hq. constructor; try done.
  - intros c w' j0 j1 j2 s. destruct (decide (c = b)) as [->|Hn].
    + rewrite lookup_insert_eq. intros [= <- <- <- <- <-]. destruct (co_req _ _ C _ _ _ _ _ _ Eb) as [K1 K2 K3 K4 K5 K6 K7 K8 K10 K9].
      constructor; rewrite ?Ef, ?Ed, ?Eo, ?Ebn; done.
    + rewrite lookup_insert_ne by done. intros E. apply (inflight_frame v); rewrite ?Ef, ?Ed, ?Eo, ?Ec by done; try done; [|by apply (co_req _ _ C)].
      apply Ei. intros ->. apply Hn. apply (co_disj _ _ C c b i0); [by exists w', i0, j1, j2, s; auto|by exists w, i0, i1, i2, st; auto].
  - intros c c' i. rewrite !owns_move. apply (co_disj _ _ C).
  - intros i Hi. rewrite Ef. intros Hf. destruct (co_free _ _ C i Hi Hf) as [c Hc]. exists c. by apply owns_move.
Qed.
End moves.

(** The device takes a request. *)
Lemma fetch_core φ v : core φ v → seen v ≠ avail_idx v → core φ (fetch v).
Proof.
  intros C Hne. destruct (co_queue _ _ C) as (q1 & q3 & Q). pose proof Q as [H1 H2 H3 H4 H5 H6 H7 H8].
  destruct q1 as [|h q1].
  { exfalso. apply Hne. rewrite H2. cbn. unfold u16. rewrite Z.add_0_r, Z.mod_small; [done|apply H5]. }
  destruct (holds_pop _ _ _ _ H1) as [Eh H1'].
  assert (q1 ++ (pending v ++ [h]) ++ q3 ≡ₚ (h :: q1) ++ pending v ++ q3) as Hp.
  { rewrite (Permutation_app_comm (pending v) [h]). cbn. symmetry. apply Permutation_middle. }
  constructor; try apply C.
  - intros b w i0 i1 i2 st E. apply (inflight_frame v); try done. by apply (co_req _ _ C).
  - exists q1, q3. constructor; cbn [fetch set_dev avail_ring avail_idx used_ring used_idx used_dev seen pending]; try done.
    + rewrite H2, u16_add. f_equal. cbn [length]. lia.
    + split; [|apply H5]. unfold u16. apply Z.mod_pos_bound. lia.
    + by rewrite Eh, Hp.
    + intros k. rewrite <- H7, Eh. clear. set_solver.
Qed.

(** The device finishes a request. *)
Lemma lor_write_next (w : bool) (f := Z.lor (if w then 0 else VRING_DESC_F_WRITE) VRING_DESC_F_NEXT) :
  Z.testbit f 0 = true ∧ Z.testbit f 1 = negb w.
Proof. by destruct w. Qed.

Lemma parse_inflight φ v b w i0 i1 i2 st :
  core φ v → φ !! b = Some (w, Wait i0 i1 i2 st) →
  parse cap v i0 = Some (Request w (2 * b_blockno (bufs v b)) BSIZE b i0).
Proof.
  intros C E. destruct (co_req _ _ C _ _ _ _ _ _ E) as [(N0 & N1 & N2) K2 K3 K4 K5 K6 K7 K8 K10 K9].
  destruct (co_bufs _ _ C b) as [[B1 B2] _].
  unfold parse. rewrite K4. cbn [d_next d_addr]. rewrite K5. cbn [d_next d_addr]. rewrite K6. cbn [d_addr]. rewrite K7.
  unfold has_next, writable. rewrite ?K4, ?K5, ?K6. cbn [d_flags d_next d_len q_type q_sector]. rewrite N0, N1, N2.
  destruct (lor_write_next w) as [-> ->]. assert ((2 * b_blockno (bufs v b) + BSIZE / 512 <=? cap) = true) as -> by (change (BSIZE / 512) with 2; lia).
  rewrite (proj2 (Z.leb_le 0 (2 * _))) by lia. by destruct w.
Qed.

Lemma queue_serve φ v v' q1 q3 b w i0 i1 i2 st :
  in_used st = true → core φ v → queue φ v q1 q3 → φ !! b = Some (w, Wait i0 i1 i2 Sub) → i0 ∈ pending v →
  avail_idx v' = avail_idx v → avail_ring v' = avail_ring v →
  used_dev v' = u16 (used_dev v + 1) → used_ring v' = <[used_dev v mod NUM := i0]> (used_ring v) → used_idx v' = used_idx v →
  seen v' = seen v → pending v' = filter (λ k, k ≠ i0) (pending v) →
  queue (<[b := (w, Wait i0 i1 i2 st)]> φ) v' q1 (q3 ++ [i0]).
Proof.
  intros Hst C Q Eb Hin E1 E2 E3 E4 E5 E6 E7. pose proof Q as [H1 H2 H3 H4 H5 H6 H7 H8].
  pose proof (queue_length φ v q1 q3 C Q) as Hl. rewrite !length_app in Hl.
  assert (0 < length (pending v))%nat as Hlp by (destruct (pending v); [by apply not_elem_of_nil in Hin|cbn; lia]).
  apply NoDup_app in H6 as (Hn1 & Hd1 & H6). apply NoDup_app in H6 as (Hn2 & Hd2 & Hn3).
  assert (i0 ∉ q1) as Hq1 by (intros Hi; apply (Hd1 i0 Hi); set_solver).
  assert (i0 ∉ q3) as Hq3 by (by apply Hd2).
  constructor; rewrite ?E1, ?E2, ?E5, ?E6, ?E7; try done.
  - rewrite E4, H4, u16_mod_num. apply holds_push; [lia|done].
  - rewrite E3, H4, u16_add, length_app. f_equal. cbn. lia.
  - apply NoDup_app. split; [done|]. split.
    { intros k Hk. rewrite !elem_of_app, list_elem_of_filter, list_elem_of_singleton. intros [[_ Hp]|[Hp| ->]]; [| |done]; apply (Hd1 k Hk); set_solver. }
    apply NoDup_app. split; [by apply NoDup_filter|]. split.
    { intros k [Hne Hk]%list_elem_of_filter. rewrite elem_of_app, list_elem_of_singleton. intros [Hp|Hp]; [by apply (Hd2 k)|done]. }
    rewrite Permutation_app_comm. by constructor.
  - intros h. rewrite (heads_move φ v b w i0 i1 i2 Sub C Eb), <- H7, !elem_of_app, list_elem_of_filter. split.
    + intros [Hh|[Hne Hh]]; right; (split; [|by auto]); congruence.
    + intros [[_ <-]|[Hne [Hh|Hh]]]; [done|by left|by right].
  - intros h. setoid_rewrite (heads_move φ v b w i0 i1 i2 Sub C Eb). rewrite elem_of_app, list_elem_of_singleton, H8. split.
    + intros [Hh| ->]; [|exists st; split; [done|by left]]. pose proof (proj2 (H8 h) Hh). destruct Hh as (s & Hs & Hh). exists s.
      split; [done|]. right. split; [congruence|done].
    + intros (s & Hs & [[-> _]|[_ Hh]]); [by right|left; by exists s].
Qed.

Lemma length_read_sectors v n : (∀ k, length (img v k) = 512%nat) → read_sectors n BSIZE (img v) = img v n ++ img v (n + 1).
Proof. intros Hl. unfold read_sectors. change (Z.to_nat (BSIZE / 512)) with 2%nat. cbn. by rewrite Z.add_0_r, app_nil_r. Qed.

Lemma bufs_finish h (w : bool) n l b i e d v :
  bufs (finish h (Request w n l b i) e d v) = if w then bufs v else <[b := set_b_data d (bufs v b)]> (bufs v).
Proof. by destruct w. Qed.
Lemma img_finish h (w : bool) n l b i e d v : img (finish h (Request w n l b i) e d v) = if w then write_sectors n l d (img v) else img v.
Proof. by destruct w. Qed.
Lemma info_finish h (w : bool) n l b i e d v : info (finish h (Request w n l b i) e d v) = <[i := Info (i_b (info v i)) e]> (info v).
Proof. by destruct w. Qed.

(** The request that the head of a pending chain stands for. *)
Lemma pending_request φ v h r : core φ v → h ∈ pending v → parse cap v h = Some r →
  ∃ b w i1 i2, φ !! b = Some (w, Wait h i1 i2 Sub) ∧ r = Request w (2 * b_blockno (bufs v b)) BSIZE b h.
Proof.
  intros C Hin Hp. destruct (co_queue _ _ C) as (q1 & q3 & Q).
  destruct (proj1 (qu_sub _ _ _ _ Q h)) as (b & w & i1 & i2 & Eb); [set_solver|].
  exists b, w, i1, i2. split; [done|]. rewrite (parse_inflight _ _ _ _ _ _ _ _ C Eb) in Hp. by injection Hp as <-.
Qed.

Lemma payload_length φ v b w h : core φ v → Z.of_nat (length (payload (Request w (2 * b_blockno (bufs v b)) BSIZE b h) v)) = BSIZE.
Proof.
  intros C. pose proof (co_img _ _ C) as Himg. unfold payload. cbn [rq_write rq_buf rq_sector rq_len]. destruct w; [apply (co_bufs _ _ C)|].
  rewrite length_read_sectors, length_app, !Himg by done. done.
Qed.

Lemma finish_core φ v b w h i1 i2 d st :
  core φ v → φ !! b = Some (w, Wait h i1 i2 Sub) → h ∈ pending v → in_used st = true → (∀ e, st = Bad e → e ≠ 0) →
  Z.of_nat (length d) = BSIZE →
  core (<[b := (w, Wait h i1 i2 st)]> φ) (finish h (Request w (2 * b_blockno (bufs v b)) BSIZE b h) (status_of st) d v).
Proof.
  intros C Eb Hin Hst Hbad Hd. destruct (co_queue _ _ C) as (q1 & q3 & Q).
  pose proof (co_img _ _ C) as Himg. destruct (co_bufs _ _ C b) as [B1 B2]. pose proof (co_req _ _ C _ _ _ _ _ _ Eb) as K.
  apply (core_move φ v b w h i1 i2 Sub C Eb).
  - intros c. rewrite bufs_finish. destruct w; [apply (co_bufs _ _ C)|]. destruct (decide (c = b)) as [->|Hn].
    + by rewrite fn_lookup_insert.
    + rewrite fn_lookup_insert_ne by done. apply (co_bufs _ _ C).
  - intros k. rewrite img_finish. destruct w; [|apply Himg].
    unfold write_sectors. change (BSIZE / 512) with 2. case_decide; [|apply Himg]. apply length_sub. unfold BSIZE in Hd. lia.
  - by destruct w.
  - by destruct w.
  - by destruct w.
  - intros i Hi. rewrite info_finish. by rewrite fn_lookup_insert_ne.
  - rewrite info_finish, fn_lookup_insert. by rewrite (if_info _ _ _ _ _ _ _ K).
  - done.
  - intros c Hc. rewrite bufs_finish. destruct w; [done|]. by rewrite fn_lookup_insert_ne.
  - rewrite bufs_finish. destruct w; [done|]. by rewrite fn_lookup_insert.
  - assert (bool_decide (st ≠ Fin) = true) as -> by (apply bool_decide_eq_true; by destruct st).
    rewrite bufs_finish. destruct w; [|rewrite fn_lookup_insert]; apply (if_disk _ _ _ _ _ _ _ K).
  - exists q1, (q3 ++ [h]). by apply (queue_serve φ v); destruct w.
Qed.

(** The interrupt handler takes one finished request off the ring. *)
Definition handled b v : vdisk :=
  set_used_idx (u16 (used_idx v + 1)) (set_vwoken (ChBuf b :: vwoken v) (set_bufs (λ f, <[b := set_b_disk false (f b)]> f) v)).

Lemma handled_queue φ v q1 q3 h b w i1 i2 :
  core φ v → queue φ v q1 (h :: q3) → φ !! b = Some (w, Wait h i1 i2 Comp) → queue (<[b := (w, Wait h i1 i2 Fin)]> φ) (handled b v) q1 q3.
Proof.
  intros C Q Eb. pose proof Q as [H1 H2 H3 H4 H5 H6 H7 H8]. destruct (holds_pop _ _ _ _ H3) as [Eh H3'].
  apply NoDup_app in H6 as (Hn1 & Hd1 & H6). apply NoDup_app in H6 as (Hn2 & Hd2 & [Hh Hn3]%NoDup_cons).
  constructor; cbn [handled set_used_idx set_vwoken set_bufs avail_ring avail_idx used_ring used_idx used_dev seen pending]; try done.
  - rewrite H4, u16_add. f_equal. cbn [length]. lia.
  - split; [apply H5|]. unfold u16. apply Z.mod_pos_bound. lia.
  - apply NoDup_app. split; [done|]. split; [intros k Hk; specialize (Hd1 k Hk); set_solver|].
    apply NoDup_app. split; [done|]. split; [intros k Hk; specialize (Hd2 k Hk); set_solver|done].
  - intros k. rewrite (heads_move φ v b w h i1 i2 Comp C Eb), <- H7. split; [|by intros [[_ ?]|[_ ?]]].
    intros Hk. right. split; [|done]. intros ->. apply H7 in Hk.
    by apply (owned_by φ v b w h i1 i2 Comp C Eb) in Hk.
  - intros k. setoid_rewrite (heads_move φ v b w h i1 i2 Comp C Eb). split.
    + intros Hk. destruct (proj1 (H8 k)) as (s & Hs & Hsk); [by right|]. exists s. split; [done|]. right. split; [congruence|done].
    + intros (s & Hs & [[_ ->]|[Hne Hk]]); [done|]. assert (k ∈ h :: q3) as Hin by (apply H8; by exists s). set_solver.
Qed.

(** A finished request at the head of the ring: its buffer is handed back, or the handler
    stops because the device has reported an error. *)
Lemma handled_core φ v q1 q3 h :
  core φ v → queue φ v q1 (h :: q3) →
  ∃ b w i1 i2 st, φ !! b = Some (w, Wait h i1 i2 st) ∧
    ((∃ e, st = Bad e) ∧ intr_body tt v = Panic "virtio_disk_intr status" ∨
     st = Comp ∧ intr_body tt v = Ret (inl tt) (handled b v) ∧
     core (<[b := (w, Wait h i1 i2 Fin)]> φ) (handled b v) ∧ queue (<[b := (w, Wait h i1 i2 Fin)]> φ) (handled b v) q1 q3).
Proof.
  intros C Q. pose proof Q as [H1 H2 H3 H4 H5 H6 H7 H8].
  destruct (proj1 (H8 h)) as (st & Hst & b & w & i1 & i2 & Eb); [set_solver|]. exists b, w, i1, i2, st. split; [done|].
  pose proof (co_req _ _ C _ _ _ _ _ _ Eb) as K. destruct (if_num _ _ _ _ _ _ _ K) as (N0 & _).
  pose proof (queue_length φ v _ _ C Q) as Hl. rewrite !length_app in Hl. cbn [length] in Hl.
  destruct (holds_pop _ _ _ _ H3) as [Eh H3']. assert (used_idx v ≠ used_dev v) as Hne.
  { rewrite H4. apply not_eq_sym, u16_step; [apply H5|cbn [length]; lia]. }
  destruct st as [| | |e]; try done; [right|left].
  2:{ split; [by exists e|]. unfold intr_body. msimpl. rewrite (proj2 (Z.eqb_neq _ _)) by done. rewrite Eh. unfold index. rewrite N0. msimpl.
    rewrite (if_info _ _ _ _ _ _ _ K). cbn [i_status status_of]. by rewrite (proj2 (Z.eqb_neq _ _)) by (by apply (if_bad _ _ _ _ _ _ _ K)). }
  assert (queue (<[b := (w, Wait h i1 i2 Fin)]> φ) (handled b v) q1 q3) as Q' by (by eapply handled_queue).
  split; [done|]. split; [|split; [|exact Q']].
  - unfold intr_body. msimpl. rewrite (proj2 (Z.eqb_neq _ _)) by done.
    rewrite Eh. unfold index. rewrite N0. msimpl. rewrite (if_info _ _ _ _ _ _ _ K). done.
  - apply (core_move φ v b w h i1 i2 Comp C Eb); try done.
    + intros c. destruct (co_bufs _ _ C c). cbn. unfold insert, fn_insert. by destruct (decide (b = c)) as [<-|].
    + apply (co_img _ _ C).
    + cbn. apply (if_info _ _ _ _ _ _ _ K).
    + intros c Hc. cbn. by rewrite fn_lookup_insert_ne by done.
    + cbn. by rewrite fn_lookup_insert.
    + cbn. by rewrite fn_lookup_insert.
    + by exists q1, q3.
Qed.

(** * The end of a call *)

Lemma free_chain_next v i nxt :
  in_num i = true → free v i = false → d_next (desc v i) = nxt →
  free_chain_body i v = Ret (if Z.land (d_flags (desc v i)) VRING_DESC_F_NEXT =? 0 then inr tt else inl nxt) (freed i v).
Proof. intros Hi Hf <-. unfold free_chain_body, index. rewrite Hi. msimpl. by rewrite free_desc_ok. Qed.

Definition finished i0 i1 i2 v : vdisk :=
  freed i2 (freed i1 (freed i0 (set_info (λ f, <[i0 := Info None (i_status (f i0))]> f) v))).

Lemma rw_finish_ok v b w i0 i1 i2 st :
  inflight v b w i0 i1 i2 st → vdisk_lock v = true → rw_finish i0 v = Ret tt (set_vlock false (finished i0 i1 i2 v)).
Proof.
  intros [(N0 & N1 & N2) (E01 & E02 & E12) (F0 & F1 & F2) D0 D1 D2 _ _ _ _] Hl. unfold rw_finish, finished. msimpl.
  set (v0 := set_info _ v). set (v1 := freed i0 v0). set (v2 := freed i1 v1).
  assert (free_chain i0 v0 = Ret tt (freed i2 v2)) as ->.
  { unfold free_chain. change (Z.to_nat NUM + 1)%nat with 9%nat.
    assert (desc v1 i1 = desc v i1 ∧ free v1 i1 = false) as [G1 G1'].
    { unfold v1. cbn [freed desc free set_vwoken set_free set_desc v0 set_info]. by rewrite !fn_lookup_insert_ne. }
    assert (desc v2 i2 = desc v i2 ∧ free v2 i2 = false) as [G2 G2'].
    { unfold v2, v1. cbn [freed desc free set_vwoken set_free set_desc v0 set_info]. by rewrite !fn_lookup_insert_ne. }
    rewrite (loop_next _ _ _ i1 v0 v1).
    2:{ rewrite (free_chain_next v0 i0 i1); [|done|done|cbn; by rewrite D0]. cbn [desc v0 set_info]. by rewrite D0. }
    rewrite (loop_next _ _ _ i2 v1 v2).
    2:{ rewrite (free_chain_next v1 i1 i2); [|done|done|by rewrite G1, D1]. rewrite G1, D1. by destruct w. }
    apply loop_done. rewrite (free_chain_next v2 i2 0); [|done|done|by rewrite G2, D2]. by rewrite G2, D2. }
  cbn [res_bind]. unfold release_vd. cbn. by rewrite Hl.
Qed.

Lemma owns_delete φ b c i : owns (delete b φ) c i ↔ c ≠ b ∧ owns φ c i.
Proof.
  unfold owns. destruct (decide (c = b)) as [->|Hn].
  - rewrite lookup_delete_eq. naive_solver.
  - rewrite lookup_delete_ne by done. naive_solver.
Qed.

Lemma heads_delete φ b w i0 i1 i2 st h s : φ !! b = Some (w, Wait i0 i1 i2 st) → s ≠ st → heads (delete b φ) h s ↔ heads φ h s.
Proof.
  intros Eb Hs. unfold heads. split.
  - intros (c & w' & j1 & j2 & E). destruct (decide (c = b)) as [->|Hn]; [by rewrite lookup_delete_eq in E|].
    rewrite lookup_delete_ne in E by done. eauto.
  - intros (c & w' & j1 & j2 & E). exists c, w', j1, j2. rewrite lookup_delete_ne; [done|]. intros ->. rewrite Eb in E. by injection E.
Qed.

Lemma finished_core φ v b w i0 i1 i2 :
  core φ v → φ !! b = Some (w, Wait i0 i1 i2 Fin) → core (delete b φ) (finished i0 i1 i2 v).
Proof.
  intros C Eb. pose proof (co_req _ _ C _ _ _ _ _ _ Eb) as K.
  assert (∀ i, i = i0 ∨ i = i1 ∨ i = i2 → owns φ b i) as Hob by (intros i Hi; by exists w, i0, i1, i2, Fin).
  assert (∀ c i, owns φ c i → c ≠ b → i0 ≠ i ∧ i1 ≠ i ∧ i2 ≠ i) as Hown.
  { intros c i Hc Hn. split_and!; intros <-; apply Hn; (eapply (co_disj _ _ C c b); [done|]; apply Hob; auto). }
  constructor; try apply C.
  - intros c w' j0 j1 j2 st E. destruct (decide (c = b)) as [->|Hn]; [by rewrite lookup_delete_eq in E|].
    rewrite lookup_delete_ne in E by done.
    assert (∀ i, i = j0 ∨ i = j1 ∨ i = j2 → i0 ≠ i ∧ i1 ≠ i ∧ i2 ≠ i) as Hi by (intros i Hi; apply (Hown c); [by exists w', j0, j1, j2, st|done]).
    apply (inflight_frame v); try done; [| |by apply (co_req _ _ C)].
    + intros i Hij. destruct (Hi i Hij) as (? & ? & ?). unfold finished. cbn [freed desc free set_vwoken set_free set_desc set_info].
      by rewrite !fn_lookup_insert_ne.
    + destruct (Hi j0) as (? & _); [by left|]. unfold finished. cbn [freed info set_vwoken set_free set_desc set_info]. by rewrite fn_lookup_insert_ne.
  - intros c c' i [Hc Ho]%owns_delete [Hc' Ho']%owns_delete. by apply (co_disj _ _ C c c' i).
  - intros i Hi Hf. unfold finished in Hf. cbn [freed free set_vwoken set_free set_desc set_info] in Hf.
    assert (i2 ≠ i) by (intros ->; by rewrite fn_lookup_insert in Hf). rewrite fn_lookup_insert_ne in Hf by done.
    assert (i1 ≠ i) by (intros ->; by rewrite fn_lookup_insert in Hf). rewrite fn_lookup_insert_ne in Hf by done.
    assert (i0 ≠ i) by (intros ->; by rewrite fn_lookup_insert in Hf). rewrite fn_lookup_insert_ne in Hf by done.
    destruct (co_free _ _ C i Hi Hf) as [c Hc]. exists c. apply owns_delete. split; [|done]. intros ->.
    destruct Hc as (w' & j0 & j1 & j2 & st & E & Hij). rewrite Eb in E. injection E as <- <- <- <- <-. naive_solver.
  - destruct (co_queue _ _ C) as (q1 & q3 & [H1 H2 H3 H4 H5 H6 H7 H8]). exists q1, q3. constructor; try done.
    + intros h. by rewrite (heads_delete φ b w i0 i1 i2 Fin h Sub).
    + intros h. rewrite H8. split; intros (s & Hs & Hh); exists s; (split; [done|]); [|revert Hh];
        rewrite (heads_delete φ b w i0 i1 i2 Fin h s); try done; by intros ->.
Qed.
End inv.
