(* ===== verification/VirtioProps.v ===== *)
(** The disk driver keeps its contract: with any device that follows the specification, and
    any interleaving of callers, interrupts and device, each call is one block operation, or
    the device has reported an error for it and it does not return. *)

From stdpp Require Import functions.
From S2P Require Import Prelude Mem Riscv Kalloc Bytes VirtioDisk VirtioInv.

Implicit Types (φ : calls) (v : vdisk).

(** What a sleeping caller does when it is resumed. *)
Definition rest (fuel : nat) (b : nat) (w : bool) (sector : Z) (idx : Z * Z * Z) : M vdisk unit :=
  let '(i0, i1, i2) := idx in
  format b w sector i0 i1 i2;; submit i0;; loop fuel (rw_wait b) tt;; rw_finish i0.
Definition alloc_code (fuel n : nat) b w sector : M vdisk unit := idx ← loop n rw_alloc tt; rest fuel b w sector idx.
Definition wait_code (n : nat) b i0 : M vdisk unit := loop n (rw_wait b) tt;; rw_finish i0.
Definition woken_alloc fuel n b w sector : M vdisk unit := acquire_vd;; alloc_code fuel n b w sector.
Definition woken_wait n b i0 : M vdisk unit := acquire_vd;; wait_code n b i0.

(** The part of the state the contract speaks of is the same. *)
Definition visible v v' : Prop :=
  img v' = img v ∧ ∀ b, b_blockno (bufs v' b) = b_blockno (bufs v b) ∧ b_data (bufs v' b) = b_data (bufs v b).

Lemma visible_refl v : visible v v.
Proof. by split. Qed.

Lemma visible_lock x v : visible v (set_vlock x v).
Proof. by split. Qed.

Lemma visible_trans v1 v2 v3 : visible v1 v2 → visible v2 v3 → visible v1 v3.
Proof. intros [E1 B1] [E2 B2]. split; [congruence|]. intros b. destruct (B1 b), (B2 b). split; congruence. Qed.

Section props.
Context (cap : Z).

Abbreviation core := (core cap).

Lemma core_lock φ v x : core φ v → core φ (set_vlock x v).
Proof. apply core_quiet. by constructor. Qed.

Lemma core_phase φ v b w : idle φ b → core φ v → core (<[b := (w, Alloc)]> φ) v.
Proof.
  intros Hb [H1 H2 H3 H4 H5 (q1 & q3 & Q)].
  assert (∀ c w' i0 i1 i2 st, <[b := (w, Alloc)]> φ !! c = Some (w', Wait i0 i1 i2 st) ↔ φ !! c = Some (w', Wait i0 i1 i2 st)) as Hl.
  { intros c w' i0 i1 i2 st. destruct (decide (c = b)) as [->|Hn]; [|by rewrite lookup_insert_ne].
    rewrite lookup_insert_eq. split; [done|]. intros E. by apply Hb in E. }
  assert (∀ c i, owns (<[b := (w, Alloc)]> φ) c i ↔ owns φ c i) as Ho by (intros; unfold owns; by setoid_rewrite Hl).
  assert (∀ h st, heads (<[b := (w, Alloc)]> φ) h st ↔ heads φ h st) as Hh by (intros; unfold heads; by setoid_rewrite Hl).
  constructor; try done.
  - intros c w' i0 i1 i2 st E%Hl. by apply H3.
  - intros c c' i. rewrite !Ho. apply H4.
  - intros i Hi Hf. destruct (H5 i Hi Hf) as [c Hc]. exists c. by apply Ho.
  - exists q1, q3. destruct Q. constructor; try done; intros h; [by rewrite Hh|by setoid_rewrite Hh].
Qed.

(** A caller that runs until it sleeps: still without descriptors, or with its request on
    the way. *)
Inductive parked φ v b w : res vdisk unit → Prop :=
| pk_fuel : parked φ v b w NoFuel
| pk_alloc v' k fuel n :
    (∀ u, k u = woken_alloc fuel n b w (2 * b_blockno (bufs v b)) u) → core φ v' → vdisk_lock v' = false → visible v v' →
    parked φ v b w (Sleep ChDiskFree v' k)
| pk_wait v' k n i0 i1 i2 :
    (∀ u, k u = woken_wait n b i0 u) → core (<[b := (w, Wait i0 i1 i2 Sub)]> φ) v' → vdisk_lock v' = false → visible v v' →
    parked φ v b w (Sleep (ChBuf b) v' k).

Lemma visible_submitted b w i0 i1 i2 v : visible v (submitted b w i0 i1 i2 v).
Proof.
  split; [done|]. intros c. unfold submitted. cbn [bufs set_mmio set_avail set_info set_bufs set_desc set_ops].
  unfold insert, fn_insert. by destruct (decide (b = c)) as [<-|].
Qed.

Lemma rest_submitted fuel b w i0 i1 i2 v :
  rest fuel b w (2 * b_blockno (bufs v b)) (i0, i1, i2) v = wait_code fuel b i0 (submitted b w i0 i1 i2 v).
Proof. reflexivity. Qed.

(** Waiting for the device: asleep again, if the request is not done. *)
Lemma wait_sleeps b i0 n v :
  b_disk (bufs v b) = true → vdisk_lock v = true →
  wait_code n b i0 v = NoFuel ∨
  ∃ k m, wait_code n b i0 v = Sleep (ChBuf b) (set_vlock false v) k ∧ ∀ u, k u = woken_wait m b i0 u.
Proof.
  intros Hb Hl. destruct n as [|n]; [by left|]. right. unfold wait_code, mbind, M_bind. rewrite loop_unfold.
  unfold rw_wait at 1, sleep_vd, release_vd. msimpl. rewrite Hb, Hl. cbn [res_bind sleep_on].
  do 2 eexists. split; [reflexivity|]. intros u. unfold woken_wait, wait_code, acquire_vd. msimpl.
  by destruct (vdisk_lock u).
Qed.

Lemma alloc_parks φ v b w fuel n :
  core φ v → idle φ b → vdisk_lock v = true → parked φ v b w (alloc_code fuel n b w (2 * b_blockno (bufs v b)) v).
Proof.
  intros C Hb Hl. unfold alloc_code. destruct n as [|n]; [constructor|]. unfold mbind, M_bind. rewrite loop_unfold.
  unfold rw_alloc at 1. unfold mbind, M_bind. destruct (alloc3_desc_ok v) as (r & v1 & -> & Hr). cbn [res_bind]. destruct r as [[[i0 i1] i2]|].
  - destruct Hr as (-> & Hn & Hne & Hf). unfold mret, M_ret. cbn [res_bind].
    change (set_free _ (set_free _ (set_free _ v))) with (taken3 i0 i1 i2 v).
    pose proof (submitted_core cap φ v b w i0 i1 i2 C Hb Hn Hne Hf) as C'.
    set (v1 := taken3 i0 i1 i2 v) in *. change (bufs v) with (bufs v1). rewrite rest_submitted.
    destruct (wait_sleeps b i0 fuel (submitted b w i0 i1 i2 v1)) as [->|(k & m & -> & Hk)].
    { apply (if_disk _ _ _ _ _ _ _ (co_req _ _ _ C' _ _ _ _ _ _ (lookup_insert_eq _ _ _))). }
    { exact Hl. }
    { constructor. }
    econstructor; [done|by apply core_lock|done|]. apply (visible_trans v v1); [done|]. eapply visible_trans; [apply visible_submitted|apply visible_lock].
  - destruct Hr as [Q Hq]. unfold sleep_vd, release_vd. msimpl. rewrite Hq, Hl. cbn [res_bind sleep_on].
    apply (pk_alloc _ _ _ _ _ _ fuel n).
    + intros u. unfold woken_alloc, alloc_code, acquire_vd. msimpl. by destruct (vdisk_lock u).
    + apply core_lock. by apply (core_quiet cap φ v).
    + done.
    + destruct Q as [_ _ _ Eb (Ei & _) _ _]. split; [done|]. intros c. cbn. by rewrite Eb.
Qed.
(** * The interrupt *)

(** Requests have been seen by the handler; nothing else has changed. *)
Definition later φ φ' : Prop := ∀ b,
  φ' !! b = φ !! b ∨ ∃ w i0 i1 i2, φ !! b = Some (w, Wait i0 i1 i2 Comp) ∧ φ' !! b = Some (w, Wait i0 i1 i2 Fin).

Lemma later_trans φ1 φ2 φ3 : later φ1 φ2 → later φ2 φ3 → later φ1 φ3.
Proof.
  intros L1 L2 b. destruct (L2 b) as [E|(w & i0 & i1 & i2 & E & E')].
  - rewrite E. apply L1.
  - destruct (L1 b) as [E1|(w' & j0 & j1 & j2 & _ & E1)]; [|congruence]. right. exists w, i0, i1, i2. by rewrite <- E1.
Qed.

(** The device has reported an error that the handler has not seen. *)
Definition failing φ : Prop := ∃ b w i0 i1 i2 e, φ !! b = Some (w, Wait i0 i1 i2 (Bad e)).

Lemma failing_later φ φ' : later φ φ' → failing φ' → failing φ.
Proof.
  intros L (b & w & i0 & i1 & i2 & e & E). exists b, w, i0, i1, i2, e.
  destruct (L b) as [<-|(w' & j0 & j1 & j2 & _ & E')]; congruence.
Qed.

(** The handler has gone through the ring, or has stopped at an error. *)
Definition intr_done φ v (r : res vdisk unit) : Prop :=
  (∃ v' φ', r = Ret tt v' ∧ core φ' v' ∧ later φ φ' ∧ visible v v' ∧ vdisk_lock v' = vdisk_lock v) ∨
  r = Panic "virtio_disk_intr status" ∧ failing φ.

Lemma intr_loop q3 : ∀ φ v q1 n, core φ v → queue φ v q1 q3 → (length q3 < n)%nat → intr_done φ v (loop n intr_body tt v).
Proof.
  induction q3 as [|h q3 IH]; intros φ v q1 n C Q Hn; (destruct n as [|n]; [cbn in Hn; lia|]).
  - left. exists v, φ. split; [|split_and!; [done|by left|apply visible_refl|done]]. apply loop_done. unfold intr_body. msimpl.
    rewrite (qu_used_idx _ _ _ _ Q). cbn [length]. rewrite Z.add_0_r. unfold u16. rewrite Z.mod_small by apply Q. by rewrite Z.eqb_refl.
  - destruct (handled_core cap φ v q1 q3 h C Q) as (b & w & i1 & i2 & st & Eb & [[[e ->] E]|(-> & E & C' & Q')]).
    { right. split; [rewrite loop_unfold; by rewrite E|]. by exists b, w, h, i1, i2, e. }
    assert (later φ (<[b := (w, Wait h i1 i2 Fin)]> φ)) as L1.
    { intros c. destruct (decide (c = b)) as [->|Hc]; [right; exists w, h, i1, i2; by rewrite lookup_insert_eq|left; by rewrite lookup_insert_ne]. }
    rewrite (loop_next _ _ _ _ _ _ E). destruct (IH _ _ q1 n C' Q') as [(v' & φ' & E' & C2 & L & V & Hl)|[E' Hf]]; [cbn in Hn; lia| |].
    + left. exists v', φ'. split; [done|]. split; [done|]. split; [by eapply later_trans|]. split; [|by rewrite Hl].
      eapply visible_trans; [|exact V]. split; [done|]. intros c. cbn. unfold insert, fn_insert. by destruct (decide (b = c)) as [<-|].
    + right. split; [done|]. by eapply failing_later.
Qed.

Lemma intr_returns φ v isr : core φ v → vdisk_lock v = false → intr_done φ v (virtio_disk_intr isr v).
Proof.
  intros C Hl. destruct (co_queue _ _ _ C) as (q1 & q3 & Q). pose proof (queue_length cap φ v q1 q3 C Q) as Hq. rewrite !length_app in Hq.
  unfold virtio_disk_intr, acquire_vd. msimpl. rewrite Hl. cbn [res_bind write_reg modify].
  match goal with |- context [loop _ _ _ ?x] => set (v1 := x) end.
  assert (core φ v1) as C1 by (apply (core_quiet cap φ v); [by constructor|done]).
  assert (queue φ v1 q1 q3) as Q1 by (by apply (queue_same φ v)).
  destruct (intr_loop q3 φ v1 q1 (Z.to_nat NUM + 1) C1 Q1) as [(v2 & φ2 & -> & C2 & L & V & Hl2)|[-> Hf]]; [change (Z.to_nat NUM) with 8%nat; lia| |by right].
  left. cbn [res_bind]. unfold release_vd. rewrite Hl2. change (vdisk_lock v1) with true.
  exists (set_vlock false v2), φ2. split; [done|]. split; [by apply core_lock|]. split; [done|]. split; [|by rewrite Hl]. done.
Qed.

(** * The system *)

(** What a sleeping caller will do fits the phase of its call. *)
Definition cont_ok v (b : nat) (t : thread) (p : bool * phase) : Prop :=
  t_write t = p.1 ∧
  match p.2 with
  | Alloc => ∃ fuel n, ∀ u, t_cont t u = woken_alloc fuel n b p.1 (2 * b_blockno (bufs v b)) u
  | Wait i0 _ _ _ => ∃ n, ∀ u, t_cont t u = woken_wait n b i0 u
  end.

Record sysinv φ (s : sys) : Prop := {
  si_core : core φ (vd s);
  si_lock : vdisk_lock (vd s) = false;
  si_none : ∀ b, threads s !! b = None ↔ φ !! b = None;
  si_cont : ∀ b t p, threads s !! b = Some t → φ !! b = Some p → cont_ok (vd s) b t p;
}.

Lemma cont_visible v v' b t p : visible v v' → cont_ok v b t p → cont_ok v' b t p.
Proof. intros [_ V] [E H]. split; [done|]. destruct p as [w [|i0 i1 i2 st]]; cbn in *; [|done]. by rewrite (proj1 (V b)). Qed.

(** The state of the contract that the state of the system stands for. *)
Definition areq (p : bool * phase) : bool * progress :=
  (p.1, match p.2 with Alloc | Wait _ _ _ Sub => Asked | Wait _ _ _ (Bad _) => Failed | _ => Performed end).

Record sim (a : ablk) φ v : Prop := {
  sm_disk : ∀ n, a_disk a n = img v (2 * n) ++ img v (2 * n + 1);
  sm_buf : ∀ b, a_buf a b = (b_blockno (bufs v b), b_data (bufs v b));
  sm_req : ∀ b, a_req a !! b = areq <$> φ !! b;
}.

Lemma sim_visible a φ φ' v v' : visible v v' → (∀ b, areq <$> φ' !! b = areq <$> φ !! b) → sim a φ v → sim a φ' v'.
Proof.
  intros [Ei Eb] Er [H1 H2 H3]. constructor.
  - intros n. by rewrite Ei.
  - intros b. destruct (Eb b) as [-> ->]. apply H2.
  - intros b. by rewrite Er.
Qed.

(** The callers other than [b]. *)
Definition others φ (s : sys) (b : nat) : Prop := ∀ c, c ≠ b →
  (threads s !! c = None ↔ φ !! c = None) ∧ ∀ t p, threads s !! c = Some t → φ !! c = Some p → cont_ok (vd s) c t p.

Lemma sysinv_others φ s b : sysinv φ s → others φ s b.
Proof. intros [_ _ H1 H2] c _. split; [apply H1|apply H2]. Qed.

Lemma sysinv_insert φ φ' s b t p v' :
  others φ s b → core φ' v' → vdisk_lock v' = false → visible (vd s) v' → (∀ c, c ≠ b → φ' !! c = φ !! c) →
  φ' !! b = Some p → cont_ok v' b t p → sysinv φ' (Sys v' (<[b := t]> (threads s))).
Proof.
  intros Ho C Hl V Hφ Hb Hc. constructor; try done; cbn [threads vd].
  - intros c. destruct (decide (c = b)) as [->|Hn]; [by rewrite lookup_insert_eq, Hb|].
    rewrite lookup_insert_ne, Hφ by done. by apply Ho.
  - intros c t' p'. destruct (decide (c = b)) as [->|Hn].
    + rewrite lookup_insert_eq, Hb. by intros [= <-] [= <-].
    + rewrite lookup_insert_ne, Hφ by done. intros E1 E2. apply (cont_visible (vd s)); [done|]. by apply (Ho c Hn).
Qed.

(** A call, or a caller resumed before it has descriptors, settles. *)
Lemma parked_settles φ s b w r l s' a :
  others φ s b → φ !! b = Some (w, Alloc) → sim a φ (vd s) → parked φ (vd s) b w r → settles b w (threads s) r l s' →
  ∃ φ', sysinv φ' s' ∧ sim a φ' (vd s') ∧ l = [].
Proof.
  intros Ho Hb Hs Hp Hse. destruct Hse as [c v k|v]; inversion Hp as [|v' k' fuel n Hk C Hl V|v' k' n i0 i1 i2 Hk C Hl V]; subst.
  - exists φ. split; [|split; [by apply (sim_visible a φ φ (vd s))|done]].
    eapply sysinv_insert; try done. split; [done|]. cbn. exists fuel, n. by rewrite (proj1 (proj2 V b)).
  - exists (<[b := (w, Wait i0 i1 i2 Sub)]> φ). split; [|split; [|done]].
    + eapply sysinv_insert; try done; [intros c Hn; by apply lookup_insert_ne|apply lookup_insert_eq|]. split; [done|]. by exists n.
    + apply (sim_visible a φ _ (vd s)); [done| |done]. intros c.
      destruct (decide (c = b)) as [->|Hn]; [by rewrite lookup_insert_eq, Hb|by rewrite lookup_insert_ne].
Qed.

Lemma woken_parks φ v b w fuel n :
  core φ v → vdisk_lock v = false → φ !! b = Some (w, Alloc) → parked φ v b w (woken_alloc fuel n b w (2 * b_blockno (bufs v b)) v).
Proof.
  intros C Hl Hb. unfold woken_alloc, acquire_vd. msimpl. rewrite Hl. cbn [res_bind].
  assert (idle φ b) as Hi by (intros ?????; by rewrite Hb).
  pose proof (alloc_parks φ (set_vlock true v) b w fuel n (core_lock _ _ true C) Hi eq_refl) as Hp.
  change (bufs (set_vlock true v)) with (bufs v) in Hp. destruct Hp as [|v' k fuel' n' Hk C' Hl' V|v' k n' i0 i1 i2 Hk C' Hl' V].
  - constructor.
  - by apply (pk_alloc _ _ _ _ _ _ fuel' n').
  - by apply (pk_wait _ _ _ _ _ _ n' i0 i1 i2).
Qed.

Lemma call_woken φ v b w fuel :
  cap ≤ 2 ^ 32 → core φ v → virtio_disk_rw fuel b w v = woken_alloc fuel fuel b w (2 * b_blockno (bufs v b)) v.
Proof.
  intros Hcap C. destruct (co_bufs _ _ _ C b) as [[B1 B2] _]. unfold virtio_disk_rw, woken_alloc. msimpl.
  change (BSIZE / 512) with 2. replace (u32 (b_blockno (bufs v b) * 2)) with (2 * b_blockno (bufs v b)) by (rewrite u32_id; lia). done.
Qed.

(** A caller resumed while it waits for the device. *)
Lemma woken_waits φ v b w i0 i1 i2 st n :
  core φ v → vdisk_lock v = false → φ !! b = Some (w, Wait i0 i1 i2 st) →
  woken_wait n b i0 v = NoFuel ∨
  (∃ k m, woken_wait n b i0 v = Sleep (ChBuf b) (set_vlock false (set_vlock true v)) k ∧ ∀ u, k u = woken_wait m b i0 u) ∨
  (st = Fin ∧ woken_wait n b i0 v = Ret tt (set_vlock false (finished i0 i1 i2 (set_vlock true v)))).
Proof.
  intros C Hl Hb. unfold woken_wait, acquire_vd. msimpl. rewrite Hl. cbn [res_bind]. set (v1 := set_vlock true v).
  pose proof (co_req _ _ _ (core_lock φ v true C) _ _ _ _ _ _ Hb) as K. fold v1 in K. pose proof (if_disk _ _ _ _ _ _ _ K) as Hd.
  destruct (decide (st = Fin)) as [->|Hst].
  - rewrite bool_decide_eq_false_2 in Hd by auto. destruct n as [|n]; [by left|]. right; right. split; [done|].
    unfold wait_code, mbind, M_bind. rewrite (loop_done _ _ _ tt v1 v1).
    + cbn [res_bind]. by apply (rw_finish_ok v1 b w i0 i1 i2 Fin).
    + unfold rw_wait. msimpl. by rewrite Hd.
  - rewrite bool_decide_eq_true_2 in Hd by done. destruct (wait_sleeps b i0 n v1 Hd eq_refl) as [->|(k & m & E & Hk)]; [by left|].
    right; left. by exists k, m.
Qed.

Lemma waiting_settles φ s b w i0 i1 i2 st n l s' a :
  sysinv φ s → φ !! b = Some (w, Wait i0 i1 i2 st) → sim a φ (vd s) → settles b w (threads s) (woken_wait n b i0 (vd s)) l s' →
  ∃ φ' a', sysinv φ' s' ∧ sim a' φ' (vd s') ∧ execs astep a l a'.
Proof.
  intros I Hb Hs Hse. destruct (woken_waits φ (vd s) b w i0 i1 i2 st n (si_core _ _ I) (si_lock _ _ I) Hb) as [E|[(k & m & E & Hk)|[-> E]]];
    rewrite E in Hse; inversion Hse; subst; clear Hse.
  - exists φ, a. split; [|split; [|constructor]].
    + apply (sysinv_insert φ φ s b _ (w, Wait i0 i1 i2 st)); try done; [by apply sysinv_others|apply core_lock, core_lock, I|]. split; [done|]. by exists m.
    + by apply (sim_visible a φ φ (vd s)).
  - exists (delete b φ), (set_req (delete b) a). set (v' := set_vlock false (finished i0 i1 i2 (set_vlock true (vd s)))).
    assert (core (delete b φ) v') as C'.
    { apply core_lock. apply (finished_core cap φ _ b w); [apply core_lock, I|done]. }
    assert (visible (vd s) v') as V by done.
    split; [|split].
    + destruct I as [_ _ H1 H2]. constructor; cbn [threads vd]; try done.
      * intros c. destruct (decide (c = b)) as [->|Hn]; [by rewrite !lookup_delete_eq|]. by rewrite !lookup_delete_ne.
      * intros c t p. destruct (decide (c = b)) as [->|Hn]; [by rewrite lookup_delete_eq|]. rewrite !lookup_delete_ne by done.
        intros E1 E2. apply (cont_visible (vd s)); [done|]. by apply H2.
    + destruct (sim_visible a φ φ (vd s) v' V (λ _, eq_refl) Hs) as [S1 S2 S3]. constructor; try done. intros c. cbn [a_req set_req].
      destruct (decide (c = b)) as [->|Hn]; [by rewrite !lookup_delete_eq|]. by rewrite !lookup_delete_ne.
    + change [LRet b (b_data (bufs v' b))] with ([] ++ [LRet b (b_data (bufs v' b))]). apply (ex_snoc _ _ _ a); [constructor|].
      assert (b_data (bufs v' b) = (a_buf a b).2) as -> by (rewrite (sm_buf _ _ _ Hs); apply V).
      apply (a_return b w). by rewrite (sm_req _ _ _ Hs), Hb.
Qed.

(** The device's work, on the contract's disk. *)
Lemma finish_puts a φ v b w h i1 i2 d st :
  core φ v → φ !! b = Some (w, Wait h i1 i2 Sub) → Z.of_nat (length d) = BSIZE → sim a φ v →
  sim (set_req <[b := areq (w, Wait h i1 i2 st)]> (put_block b w d a)) (<[b := (w, Wait h i1 i2 st)]> φ)
    (finish h (Request w (2 * b_blockno (bufs v b)) BSIZE b h) (status_of st) d v).
Proof.
  intros C Hb Hd [S1 S2 S3]. unfold BSIZE in Hd.
  assert (∀ c, <[b := areq (w, Wait h i1 i2 st)]> (a_req a) !! c = areq <$> <[b := (w, Wait h i1 i2 st)]> φ !! c) as Hr.
  { intros c. destruct (decide (c = b)) as [->|Hn]; [by rewrite !lookup_insert_eq|]. by rewrite !lookup_insert_ne. }
  unfold put_block. rewrite S2. cbn [fst]. set (n := b_blockno (bufs v b)) in *.
  constructor; rewrite ?bufs_finish, ?img_finish; destruct w; cbn [a_disk a_buf a_req set_req]; try done.
  - intros m. unfold write_sectors. change (BSIZE / 512) with 2. destruct (decide (m = n)) as [->|Hn].
    + rewrite fn_lookup_insert, !decide_True by lia. unfold sub.
      replace (Z.to_nat (512 * (2 * n - 2 * n))) with O by lia. replace (Z.to_nat (512 * (2 * n + 1 - 2 * n))) with 512%nat by lia.
      rewrite drop_0, (take_ge (drop 512 _)) by (rewrite length_drop; lia). by rewrite take_drop.
    + rewrite fn_lookup_insert_ne, !decide_False by lia. apply S1.
  - intros c. destruct (decide (c = b)) as [->|Hn].
    + by rewrite !fn_lookup_insert.
    + rewrite !fn_lookup_insert_ne by done. apply S2.
Qed.

(** The block operation of the contract. *)
Lemma perform_payload a φ v b w h : core φ v → sim a φ v →
  perform b w a = put_block b w (payload (Request w (2 * b_blockno (bufs v b)) BSIZE b h) v) a.
Proof.
  intros C [S1 S2 _]. unfold perform, payload. cbn [rq_write rq_buf rq_sector rq_len]. rewrite S2. cbn [fst snd]. destruct w; [done|].
  by rewrite S1, length_read_sectors by apply C.
Qed.

Lemma execs_one {S L} (R : S → list L → S → Prop) s l s' : R s l s' → execs R s l s'.
Proof. intros H. change l with ([] ++ l). apply (ex_snoc _ _ _ s); [constructor|done]. Qed.

Lemma execs_app {S L} (R : S → list L → S → Prop) s t s' t' s'' : execs R s t s' → execs R s' t' s'' → execs R s (t ++ t') s''.
Proof.
  intros H1 H2. revert H1. induction H2 as [|s' t' s2 l s3 _ IH HR]; intros H1; [by rewrite app_nil_r|].
  rewrite app_assoc. econstructor; [by apply IH|done].
Qed.

(** The same callers sleep; requests may have moved on in the rings. *)
Lemma sysinv_same φ φ' s v' :
  sysinv φ s → core φ' v' → vdisk_lock v' = false →
  (∀ b, b_blockno (bufs v' b) = b_blockno (bufs (vd s) b)) →
  (∀ b, φ' !! b = φ !! b ∨ ∃ w i0 i1 i2 st st', φ !! b = Some (w, Wait i0 i1 i2 st) ∧ φ' !! b = Some (w, Wait i0 i1 i2 st')) →
  sysinv φ' (Sys v' (threads s)).
Proof.
  intros [_ _ H1 H2] C Hl Hbn Hφ. constructor; cbn [vd threads]; try done.
  - intros b. rewrite H1. destruct (Hφ b) as [->|(w & i0 & i1 & i2 & st & st' & -> & ->)]; done.
  - intros b t p Et Ep. assert (∃ p', φ !! b = Some p' ∧ cont_ok (vd s) b t p' ∧
      (p = p' ∨ ∃ w i0 i1 i2 st st', p' = (w, Wait i0 i1 i2 st) ∧ p = (w, Wait i0 i1 i2 st'))) as (p' & _ & [Hw Hc] & Hp).
    { destruct (Hφ b) as [E|(w & i0 & i1 & i2 & st & st' & E & E')].
      - exists p. rewrite <- E. split; [done|]. split; [|by left]. apply (H2 b); [done|by rewrite <- E].
      - rewrite E' in Ep. injection Ep as <-. exists (w, Wait i0 i1 i2 st). split; [done|]. split; [by apply (H2 b)|]. right. naive_solver. }
    destruct Hp as [->|(w & i0 & i1 & i2 & st & st' & -> & ->)]; [|done].
    split; [done|]. destruct p' as [w [|]]; [|done]. cbn in *. by rewrite Hbn.
Qed.

(** Every step of the system is a step of the contract, or invisible in it. *)
Definition simulated a (l : list label) s' : Prop := ∃ φ' a', sysinv φ' s' ∧ sim a' φ' (vd s') ∧ execs astep a l a'.

Lemma call_simulates φ s a b w fuel l s' :
  cap ≤ 2 ^ 32 → sysinv φ s → sim a φ (vd s) → threads s !! b = None →
  settles b w (threads s) (virtio_disk_rw fuel b w (vd s)) l s' → simulated a (LCall b w :: l) s'.
Proof.
  intros Hcap I Hs Ht Hse. apply (si_none _ _ I) in Ht as Hb. assert (idle φ b) as Hi by (intros ?????; by rewrite Hb).
  pose proof (si_core _ _ I) as C. set (φ1 := <[b := (w, Alloc)]> φ). set (a1 := set_req <[b := (w, Asked)]> a).
  assert (sim a1 φ1 (vd s)) as Hs1.
  { destruct Hs as [S1 S2 S3]. constructor; try done. intros c. cbn [a_req a1 set_req]. unfold φ1.
    destruct (decide (c = b)) as [->|Hc]; [by rewrite !lookup_insert_eq|]. by rewrite !lookup_insert_ne. }
  assert (φ1 !! b = Some (w, Alloc)) as Hb1 by apply lookup_insert_eq.
  rewrite (call_woken φ) in Hse by done.
  assert (others φ1 s b) as Ho.
  { intros c Hc. unfold φ1. rewrite lookup_insert_ne by done. by apply (sysinv_others φ s b). }
  pose proof (woken_parks φ1 (vd s) b w fuel fuel (core_phase _ _ _ _ Hi C) (si_lock _ _ I) Hb1) as Hp.
  destruct (parked_settles φ1 s b w _ l s' a1 Ho Hb1 Hs1 Hp Hse) as (φ' & I' & S' & ->).
  exists φ', a1. split; [done|]. split; [done|]. apply execs_one, a_call. by rewrite (sm_req _ _ _ Hs), Hb.
Qed.

Lemma wake_simulates φ s a b t l s' :
  sysinv φ s → sim a φ (vd s) → threads s !! b = Some t →
  settles b (t_write t) (threads s) (t_cont t (vd s)) l s' → simulated a l s'.
Proof.
  intros I Hs Ht Hse. destruct (φ !! b) as [p|] eqn:Hb; [|apply (si_none _ _ I) in Hb; congruence].
  destruct (si_cont _ _ I b t p Ht Hb) as [Hw Hc]. destruct p as [w [|i0 i1 i2 st]]; cbn in Hw, Hc; rewrite Hw in Hse.
  - destruct Hc as (fuel & n & Hc). rewrite Hc in Hse.
    pose proof (woken_parks φ (vd s) b w fuel n (si_core _ _ I) (si_lock _ _ I) Hb) as Hp.
    destruct (parked_settles φ s b w _ l s' a (sysinv_others _ _ _ I) Hb Hs Hp Hse) as (φ' & I' & S' & ->).
    exists φ', a. split; [done|]. split; [done|constructor].
  - destruct Hc as (n & Hc). rewrite Hc in Hse. by apply (waiting_settles φ s b w i0 i1 i2 st n).
Qed.

Lemma intr_simulates φ s a isr v :
  sysinv φ s → sim a φ (vd s) → virtio_disk_intr isr (vd s) = Ret tt v → simulated a [] (Sys v (threads s)).
Proof.
  intros I Hs E. destruct (intr_returns φ (vd s) isr (si_core _ _ I) (si_lock _ _ I)) as [(v' & φ' & E' & C' & L & V & Hl')|[E' _]];
    [|by rewrite E in E'].
  rewrite E in E'. injection E' as <-. exists φ', a. split; [|split; [|constructor]].
  - apply (sysinv_same φ); try done; [by rewrite Hl', (si_lock _ _ I)|apply V|].
    intros b. destruct (L b) as [->|(w & i0 & i1 & i2 & E1 & E2)]; [by left|right]. by exists w, i0, i1, i2, Comp, Fin.
  - apply (sim_visible a φ φ' (vd s)); [done| |done]. intros b. destruct (L b) as [->|(w & i0 & i1 & i2 & -> & ->)]; done.
Qed.

(** The device finishes a request, with or without success. *)
Lemma finish_simulates φ s a b w h i1 i2 d st l :
  sysinv φ s → sim a φ (vd s) → φ !! b = Some (w, Wait h i1 i2 Sub) → h ∈ pending (vd s) → in_used st = true →
  (∀ e, st = Bad e → e ≠ 0) → Z.of_nat (length d) = BSIZE →
  astep a l (set_req <[b := areq (w, Wait h i1 i2 st)]> (put_block b w d a)) →
  simulated a l (Sys (finish h (Request w (2 * b_blockno (bufs (vd s) b)) BSIZE b h) (status_of st) d (vd s)) (threads s)).
Proof.
  intros I Hs Eb Hh Hst Hbad Hd Ha. pose proof (si_core _ _ I) as C. pose proof (si_lock _ _ I) as Hl.
  exists (<[b := (w, Wait h i1 i2 st)]> φ), (set_req <[b := areq (w, Wait h i1 i2 st)]> (put_block b w d a)). split; [|split].
  - apply (sysinv_same φ); try done; [by apply finish_core|by destruct w| |].
    + intros c. rewrite bufs_finish. destruct w; [done|]. unfold insert, fn_insert. by destruct (decide (b = c)) as [<-|].
    + intros c. destruct (decide (c = b)) as [->|Hc]; [right|left; by apply lookup_insert_ne].
      exists w, h, i1, i2, Sub, st. by rewrite lookup_insert_eq.
  - by apply finish_puts.
  - by apply execs_one.
Qed.

Lemma dev_simulates φ s a o v dev `{!Device cap dev} :
  sysinv φ s → sim a φ (vd s) → dev (vd s) o v → simulated a (match o with Some b => [LFail b] | None => [] end) (Sys v (threads s)).
Proof.
  intros I Hs Hd. pose proof (si_core _ _ I) as C.
  destruct (dev_ok _ _ _ Hd) as [(-> & Hne & ->)|(h & Hh & [Hp|(r & Hp & Hr)])].
  - exists φ, a. split; [|split; [|constructor]].
    + apply (sysinv_same φ); try done; [by apply fetch_core|apply I|by left].
    + by apply (sim_visible a φ φ (vd s)).
  - destruct (co_queue _ _ _ C) as (q1 & q3 & Q). destruct (proj1 (qu_sub _ _ _ _ Q h)) as (b & w & i1 & i2 & Eb); [set_solver|].
    by rewrite (parse_inflight _ _ _ _ _ _ _ _ _ C Eb) in Hp.
  - destruct (pending_request cap φ (vd s) h r C Hh Hp) as (b & w & i1 & i2 & Eb & ->).
    assert (a_req a !! b = Some (w, Asked)) as Ha by (by rewrite (sm_req _ _ _ Hs), Eb).
    destruct Hr as [[-> ->]|(e & d & -> & He & Hd' & ->)].
    + apply (finish_simulates φ s a b w h i1 i2 _ Comp); try done; [by eapply payload_length|].
      rewrite <- (perform_payload a φ) by done. by apply a_perform.
    + cbn [rq_buf]. apply (finish_simulates φ s a b w h i1 i2 d (Bad e)); try done; [by intros ? [= <-]|]. by apply a_fail.
Qed.

Lemma own_simulates φ s a b n d :
  sysinv φ s → sim a φ (vd s) → threads s !! b = None → on_disk cap n → block_sized d →
  simulated a [LOwn b n d] (Sys (set_bufs (λ f, <[b := Vbuf (b_disk (f b)) n d]> f) (vd s)) (threads s)).
Proof.
  intros I Hs Ht Hn Hd. apply (si_none _ _ I) in Ht as Hb. pose proof (si_core _ _ I) as C. set (v' := set_bufs _ (vd s)).
  assert (∀ c, c ≠ b → bufs v' c = bufs (vd s) c) as Hc by (intros c Hc; by apply fn_lookup_insert_ne).
  exists φ, (Abs (a_disk a) (<[b := (n, d)]> (a_buf a)) (a_req a)). split; [|split].
  - destruct I as [_ Hl H1 H2]. constructor; try done; cbn [vd threads].
    + destruct C as [C1 C2 C3 C4 C5 C6]. constructor; try done.
      * intros c. destruct (decide (c = b)) as [->|Hcb]; [|rewrite Hc by done; apply C1]. unfold v'. cbn. by rewrite fn_lookup_insert.
      * intros c w i0 i1 i2 st E. assert (c ≠ b) by congruence. apply (inflight_frame (vd s)); rewrite ?Hc by done; try done. by apply C3.
      * destruct C6 as (q1 & q3 & Q). exists q1, q3. by apply (queue_same φ (vd s)).
    + intros c t p E1 E2. assert (c ≠ b) as Hcb by congruence. destruct (H2 c t p E1 E2) as [G1 G2]. split; [done|].
      rewrite Hc by done. done.
  - destruct Hs as [S1 S2 S3]. constructor; try done; cbn [a_buf vd]. intros c. destruct (decide (c = b)) as [->|Hcb].
    + unfold v'. cbn. by rewrite !fn_lookup_insert.
    + rewrite Hc, fn_lookup_insert_ne by done. apply S2.
  - apply execs_one, a_own. by rewrite (sm_req _ _ _ Hs), Hb.
Qed.

Lemma step_simulates φ s l s' a dev `{!Device cap dev} :
  cap ≤ 2 ^ 32 → sysinv φ s → sim a φ (vd s) → step cap dev s l s' → simulated a l s'.
Proof.
  intros Hcap I Hs Hst. destruct Hst.
  - by eapply call_simulates.
  - by eapply wake_simulates.
  - by eapply intr_simulates.
  - by eapply dev_simulates.
  - by eapply own_simulates.
Qed.

(** The state that [virtio_disk_init] leaves, on a disk of [cap] sectors. *)
Record fresh v : Prop := {
  fr_free : ∀ i, in_num i = true → free v i = true;
  fr_rings : avail_idx v = 0 ∧ used_dev v = 0 ∧ used_idx v = 0 ∧ seen v = 0 ∧ pending v = [];
  fr_lock : vdisk_lock v = false;
  fr_bufs : ∀ b, on_disk cap (b_blockno (bufs v b)) ∧ block_sized (b_data (bufs v b));
  fr_img : ∀ k, length (img v k) = 512%nat;
}.

(** The contract's state for it: the blocks of the disk, no request. *)
Definition blocks v : ablk := Abs (λ n, img v (2 * n) ++ img v (2 * n + 1)) (λ b, (b_blockno (bufs v b), b_data (bufs v b))) ∅.

Lemma fresh_sysinv v : fresh v → sysinv ∅ (Sys v ∅) ∧ sim (blocks v) ∅ v.
Proof.
  intros [F1 (E1 & E2 & E3 & E4 & E5) F3 F4 F5].
  assert (∀ b w i0 i1 i2 st, (∅ : calls) !! b ≠ Some (w, Wait i0 i1 i2 st)) as Hn by (intros; by rewrite lookup_empty).
  split; [constructor; try done|constructor; try done].
  - constructor; cbn [vd]; try done.
    + intros b b' i (w & i0 & i1 & i2 & st & E & _). by apply Hn in E.
    + intros i Hi. by rewrite F1.
    + assert (∀ h st, h ∈ @nil Z ↔ heads ∅ h st) as Hh.
      { intros h st. split; [by intros ?%not_elem_of_nil|]. intros (b & w & i1 & i2 & E). by apply Hn in E. }
      exists [], []. constructor; rewrite ?E1, ?E2, ?E3, ?E4, ?E5; try done; [intros k Hk; cbn in Hk; lia..|constructor|].
      intros h. setoid_rewrite <- Hh. split; [by intros ?%not_elem_of_nil|by intros (? & _ & ?%not_elem_of_nil)].
Qed.

Lemma runs_simulate v tr s dev `{!Device cap dev} :
  cap ≤ 2 ^ 32 → fresh v → execs (step cap dev) (Sys v ∅) tr s →
  ∃ φ a, sysinv φ s ∧ sim a φ (vd s) ∧ execs astep (blocks v) tr a.
Proof.
  intros Hcap F Hx. destruct (fresh_sysinv v F) as [I0 S0]. remember (Sys v ∅) as s0 eqn:Es.
  induction Hx as [s|s t s' l s'' Hx IH HR]; subst.
  - exists ∅, (blocks v). split; [done|]. split; [done|constructor].
  - destruct IH as (φ & a & I & Hs & Ha); [done..|].
    destruct (step_simulates φ s' l s'' a dev Hcap I Hs HR) as (φ' & a' & I' & S' & Ha').
    exists φ', a'. split; [done|]. split; [done|]. by eapply execs_app.
Qed.
End props.

(** * Initialisation *)

Section init.
Context `{KernelImage} (rd : list (Z * Z) → Z → Z) (cap : Z).

(** Only registers have been written. *)
Definition regs_only (s s' : vboot) : Prop := ∃ l, vb_vd s' = set_mmio l (vb_vd s).

Lemma regs_refl s : regs_only s s.
Proof. exists (mmio (vb_vd s)). by destruct s as [[] ?]. Qed.

Lemma regs_trans s1 s2 s3 : regs_only s1 s2 → regs_only s2 s3 → regs_only s1 s3.
Proof. intros [l1 E1] [l2 E2]. exists l2. by rewrite E2, E1. Qed.

Lemma regs_reg r x s u s' : reg r x s = Ret u s' → regs_only s s'.
Proof. intros [= _ <-]. by eexists. Qed.

Lemma regs_read r s x s' : read_reg rd r s = Ret x s' → regs_only s s'.
Proof. intros [= _ <-]. apply regs_refl. Qed.

Lemma regs_km {A} (c : M kmem A) s a s' : on_km c s = Ret a s' → regs_only s s'.
Proof.
  unfold on_km, zoom. destruct (c (vb_km s)); cbn; intros E; try discriminate. injection E as _ <-.
  exists (mmio (vb_vd s)). by destruct s as [[] ?].
Qed.

Lemma regs_bind {A B} (c : M vboot A) (f : A → M vboot B) s b s' :
  (∀ a s1, c s = Ret a s1 → regs_only s s1) → (∀ a s1 s2 b, f a s1 = Ret b s2 → regs_only s1 s2) →
  (c ≫= f) s = Ret b s' → regs_only s s'.
Proof. intros Hc Hf E. apply bind_inv_ret in E as (a & s1 & E1 & E2). eapply regs_trans; [by eapply Hc|by eapply Hf]. Qed.

(** Go past the next statement, which only writes or reads registers. *)
Ltac past lem :=
  match goal with
  | G : regs_only ?a ?b, E : (_ ≫= _) ?b = Ret _ _ |- _ =>
      let R := fresh "R" in
      apply bind_inv_ret in E as (? & ? & R & E); apply lem in R; apply (regs_trans _ _ _ G) in R; clear G
  end.

Ltac regs := repeat first
  [ apply regs_refl
  | match goal with E : reg _ _ _ = Ret _ _ |- _ => exact (regs_reg _ _ _ _ _ E) end
  | match goal with E : read_reg _ _ _ = Ret _ _ |- _ => exact (regs_read _ _ _ _ E) end
  | match goal with E : (_ ≫= _) _ = Ret _ _ |- regs_only _ _ => refine (regs_bind _ _ _ _ _ _ _ E); clear E; intros end ].

Lemma regs_negotiate s u s' : negotiate rd s = Ret u s' → regs_only s s'.
Proof. unfold negotiate. intros E. regs. Qed.

Lemma regs_addresses d a x s u s' : queue_addresses d a x s = Ret u s' → regs_only s s'.
Proof. unfold queue_addresses. intros E. regs. Qed.
Lemma queue_memory_zeroes s x s' :
  queue_memory s = Ret x s' →
  ∃ l, vb_vd s' = set_mmio l (set_used 0 (λ _, 0) (set_avail 0 (λ _, 0) (set_desc (λ _ _, Desc PNull 0 0 0) (vb_vd s)))).
Proof.
  unfold queue_memory. intros E. apply bind_inv_ret in E as (d & s1 & E1%regs_km & E). apply bind_inv_ret in E as (a & s2 & E2%regs_km & E).
  apply bind_inv_ret in E as (u & s3 & E3%regs_km & E). destruct ((d =? 0) || (a =? 0) || (u =? 0)); [discriminate|].
  apply bind_inv_ret in E as (? & s4 & E4%regs_km & E). apply bind_inv_ret in E as (? & s5 & E5%regs_km & E).
  apply bind_inv_ret in E as (? & s6 & E6%regs_km & E). injection E as _ <-.
  destruct (regs_trans _ _ _ (regs_trans _ _ _ (regs_trans _ _ _ E1 E2) (regs_trans _ _ _ E3 E4)) (regs_trans _ _ _ E5 E6)) as [l El].
  exists l. cbn [vb_vd]. by rewrite El.
Qed.

(** [virtio_disk_init], when it returns, leaves a fresh driver. *)
Lemma init_fresh v k u s' :
  (∀ b, on_disk cap (b_blockno (bufs v b)) ∧ block_sized (b_data (bufs v b))) → (∀ i, length (img v i) = 512%nat) →
  used_idx v = 0 ∧ seen v = 0 ∧ pending v = [] →
  virtio_disk_init rd (Vboot v k) = Ret u s' → fresh cap (vb_vd s').
Proof.
  intros Hb Hi (E1 & E2 & E3) E. unfold virtio_disk_init in E. apply bind_inv_ret in E as (? & s0 & E0 & E). injection E0 as _ <-.
  apply bind_inv_ret in E as (ok & s1 & R1 & E). injection R1 as Eok <-. destruct ok; [|discriminate]. cbn [negb] in E. clear Eok.
  pose proof (regs_refl (Vboot (set_vlock false v) k)) as G. do 3 past (@regs_reg). past (@regs_negotiate). past (@regs_reg).
  apply bind_inv_ret in E as (st & ? & E0 & E). injection E0 as _ <-. destruct (Z.land st VIRTIO_CONFIG_S_FEATURES_OK =? 0); [discriminate|].
  past (@regs_reg). apply bind_inv_ret in E as (rdy & ? & E0 & E). injection E0 as _ <-. destruct (negb (rdy =? 0)); [discriminate|].
  apply bind_inv_ret in E as (mx & s2 & E0 & E). injection E0 as _ <-. destruct (mx =? 0); [discriminate|]. destruct (mx <? NUM); [discriminate|].
  apply bind_inv_ret in E as ([[d a] us] & s3 & (l3 & G3)%queue_memory_zeroes & E).
  apply bind_inv_ret in E as (? & s4 & [l4 G4]%regs_addresses & E). apply bind_inv_ret in E as (? & s5 & G5 & E). injection G5 as _ <-.
  apply regs_reg in E as [l5 G6]. cbn [vb_vd] in G6.
  match goal with G : regs_only _ _ |- _ => destruct G as [l1 G1] end. cbn [vb_vd] in G1. rewrite G6, G4, G3, G1.
  constructor; try done. intros i Hn. cbn. by rewrite Hn.
Qed.
End init.

(** Neither a panic nor undefined behaviour. *)
Definition safe {S A} (r : res S A) : Prop := match r with Panic _ | Fault _ => False | _ => True end.

Lemma parked_safe cap φ v b w r : parked cap φ v b w r → safe r.
Proof. by intros []. Qed.

(** A call that has failed in the contract has failed in view. *)
Lemma failed_seen a0 tr a b w : execs astep a0 tr a → a_req a0 = ∅ → a_req a !! b = Some (w, Failed) → LFail b ∈ tr.
Proof.
  intros Hx H0. revert b w. induction Hx as [s|s t s' l s'' Hx IH HR]; intros b w Hb; [by rewrite H0 in Hb|]. apply elem_of_app.
  destruct HR as [c x a Hc|c x a Hc|c x d a Hc|c x a Hc|c n d a Hc]; cbn [a_req set_req perform put_block] in Hb.
  - left. apply (IH H0 b w). destruct (decide (b = c)) as [->|]; [by rewrite lookup_insert_eq in Hb|by rewrite lookup_insert_ne in Hb].
  - left. apply (IH H0 b w). destruct (decide (b = c)) as [->|]; [by rewrite lookup_insert_eq in Hb|]. rewrite lookup_insert_ne in Hb by done. by destruct x.
  - destruct (decide (b = c)) as [->|]; [right; by left|]. left. apply (IH H0 b w). rewrite lookup_insert_ne in Hb by done. by destruct x.
  - left. apply (IH H0 b w). destruct (decide (b = c)) as [->|]; [by rewrite lookup_delete_eq in Hb|by rewrite lookup_delete_ne in Hb].
  - left. by apply (IH H0 b w).
Qed.

(** C15. The disk driver refines the contract.  Whatever callers, interrupts, device and
    owners of buffers do, what can be seen of the system (calls, what they return, requests
    for which the device reports an error, changes to buffers by their owners) can be seen of
    a disk that does one block operation for each call between the call and its return; the
    sectors of the disk and the data of the buffers are those of that disk.  A call whose
    request fails does not return, and only its own block or buffer is affected. *)
Theorem virtio_refines cap dev v tr s `{!Device cap dev} :
  cap ≤ 2 ^ 32 → fresh cap v → execs (step cap dev) (Sys v ∅) tr s →
  ∃ a, execs astep (blocks v) tr a ∧
    (∀ n, a_disk a n = img (vd s) (2 * n) ++ img (vd s) (2 * n + 1)) ∧
    ∀ b, a_buf a b = (b_blockno (bufs (vd s) b), b_data (bufs (vd s) b)).
Proof.
  intros Hcap F Hx. destruct (runs_simulate cap v tr s dev Hcap F Hx) as (φ & a & _ & [S1 S2 _] & Ha).
  by exists a.
Qed.

(** C25. The disk driver is safe.  In every state the system reaches, a new call and every
    caller that is resumed run to their next sleep or return without a panic (no
    descriptor is freed twice or outside the table) and without touching memory out of
    range or a null buffer.  The interrupt handler returns, unless the device has reported
    an error for a request, and then its only other outcome is the driver's panic for a
    status that is not zero.  When no call is under way all descriptors are free. *)
Theorem virtio_safe cap dev v tr s `{!Device cap dev} :
  cap ≤ 2 ^ 32 → fresh cap v → execs (step cap dev) (Sys v ∅) tr s →
  (∀ b w fuel, threads s !! b = None → safe (virtio_disk_rw fuel b w (vd s))) ∧
  (∀ b t, threads s !! b = Some t → safe (t_cont t (vd s))) ∧
  (∀ isr, (∃ v', virtio_disk_intr isr (vd s) = Ret tt v') ∨
    virtio_disk_intr isr (vd s) = Panic "virtio_disk_intr status" ∧ ∃ b, LFail b ∈ tr) ∧
  (threads s = ∅ → ∀ i, in_num i = true → free (vd s) i = true).
Proof.
  intros Hcap F Hx. destruct (runs_simulate cap v tr s dev Hcap F Hx) as (φ & a & [C Hl H1 H2] & Hs & Ha). split_and!.
  - intros b w fuel Hb%H1. rewrite (call_woken cap φ) by done. assert (idle φ b) as Hi by (intros ?????; by rewrite Hb).
    eapply parked_safe, (woken_parks cap (<[b := (w, Alloc)]> φ)); [by apply core_phase|done|apply lookup_insert_eq].
  - intros b t Ht. destruct (φ !! b) as [p|] eqn:Hb; [|apply H1 in Hb; congruence].
    destruct (H2 b t p Ht Hb) as [_ Hc]. destruct p as [w [|i0 i1 i2 st]]; cbn in Hc.
    + destruct Hc as (fuel & n & ->). by eapply parked_safe, woken_parks.
    + destruct Hc as (n & ->). destruct (woken_waits cap φ (vd s) b w i0 i1 i2 st n C Hl Hb) as [->|[(k & m & -> & _)|[_ ->]]]; done.
  - intros isr. destruct (intr_returns cap φ (vd s) isr C Hl) as [(v' & _ & E & _)|[E (b & w & i0 & i1 & i2 & e & Eb)]]; [left; by exists v'|right].
    split; [done|]. exists b. apply (failed_seen (blocks v) tr a b w Ha); [done|]. by rewrite (sm_req _ _ _ Hs), Eb.
  - intros Ht i Hi. destruct (free (vd s) i) eqn:Ef; [done|]. destruct (co_free _ _ _ C i Hi Ef) as [b (w & i0 & i1 & i2 & st & E & _)].
    assert (φ !! b = None) as E0 by (apply H1; rewrite Ht; apply lookup_empty). congruence.
Qed.

(** * A run *)

(** A device that does nothing but what the specification asks of it. *)
Definition plain_dev (cap : Z) (v : vdisk) (o : option nat) (v' : vdisk) : Prop :=
  (o = None ∧ seen v ≠ avail_idx v ∧ v' = fetch v) ∨
  ∃ h r, h ∈ pending v ∧ parse cap v h = Some r ∧
    (o = None ∧ v' = serve h r v ∨ ∃ e d, o = Some (rq_buf r) ∧ e ≠ 0 ∧ Z.of_nat (length d) = rq_len r ∧ v' = finish h r e d v).

#[export] Instance plain_device cap : Device cap (plain_dev cap).
Proof. constructor. intros v o v' [H|(h & r & Hh & Hp & H)]; [by left|]. right. exists h. split; [done|]. right. by exists r. Qed.

Definition disk0 : vdisk :=
  Vdisk (λ _, Desc PNull 0 0 0) 0 (λ _, 0) 0 (λ _, 0) (λ _, true) 0 (λ _, Info None 0) (λ _, Req 0 0 0) false []
    (λ _, Vbuf false 3 (replicate 1024 7)) [] (λ _, replicate 512 0) 0 [].

Lemma disk0_fresh : fresh 400 disk0.
Proof. by constructor. Qed.

Definition settle (b : nat) (w : bool) (ts : gmap nat thread) (r : res vdisk unit) : list label * sys :=
  match r with
  | Ret _ v => ([LRet b (b_data (bufs v b))], Sys v (delete b ts))
  | Sleep c v k => ([], Sys v (<[b := Thread w c k]> ts))
  | _ => ([], Sys disk0 ts)
  end.
Definition settled (r : res vdisk unit) : bool := match r with Ret _ _ | Sleep _ _ _ => true | _ => false end.

Lemma settle_ok b w ts r : settled r = true → settles b w ts r (settle b w ts r).1 (settle b w ts r).2.
Proof. destruct r as [[] v| | | |]; cbn; try done; intros _; constructor. Qed.

(** Buffer 0 is written to block 3: the call, the device twice, the interrupt, the return. *)
Definition run1 : sys := (settle 0 true ∅ (virtio_disk_rw 3 0 true disk0)).2.
Definition run2 : sys := Sys (fetch (vd run1)) (threads run1).
Definition run3 : sys := Sys (serve 0 (default (Request false 0 0 0 0) (parse 400 (vd run2) 0)) (vd run2)) (threads run2).
Definition handled3 : vdisk := match virtio_disk_intr 1 (vd run3) with Ret _ v => v | _ => disk0 end.
Definition run4 : sys := Sys handled3 (threads run3).
Definition caller : thread := default (Thread false ChNone (λ _, NoFuel)) (threads run4 !! 0%nat).
Definition run5 : sys := (settle 0 true (threads run4) (t_cont caller (vd run4))).2.

Definition returned (r : res vdisk unit) : bool := match r with Ret _ _ => true | _ => false end.

Lemma returned_ok r d : returned r = true → r = Ret tt (match r with Ret _ v => v | _ => d end).
Proof. by destruct r as [[] v| | | |]. Qed.

Lemma default_some {A} (d : A) (o : option A) : is_Some o → o = Some (default d o).
Proof. by intros [x ->]. Qed.

Abbreviation ran := (execs (step 400 (plain_dev 400)) (Sys disk0 ∅)).

Lemma ran1 : ran [LCall 0 true] run1.
Proof.
  change [LCall 0 true] with ([] ++ [LCall 0 true]). econstructor; [constructor|].
  pose proof (settle_ok 0 true ∅ (virtio_disk_rw 3 0 true disk0) ltac:(vm_compute; reflexivity)) as H.
  replace (settle 0 true ∅ (virtio_disk_rw 3 0 true disk0)).1 with (@nil label) in H by (vm_compute; reflexivity).
  by apply (st_call _ _ 0 true 3 (Sys disk0 ∅) []).
Qed.

Lemma ran2 : ran [LCall 0 true] run2.
Proof.
  change [LCall 0 true] with ([LCall 0 true] ++ @nil label). econstructor; [exact ran1|].
  apply (st_dev _ _ None (vd run2) run1). left. split; [done|]. split; [|reflexivity]. vm_compute. congruence.
Qed.

Lemma parsed2 : parse 400 (vd run2) 0 = Some (default (Request false 0 0 0 0) (parse 400 (vd run2) 0)).
Proof. apply default_some. vm_compute. by eexists. Qed.

Lemma ran3 : ran [LCall 0 true] run3.
Proof.
  change [LCall 0 true] with ([LCall 0 true] ++ @nil label). econstructor; [exact ran2|].
  apply (st_dev _ _ None (vd run3) run2). right. eexists 0, _. split; [vm_compute; left|]. split; [exact parsed2|by left].
Qed.

(** Or the device reports an error. *)
Definition run3_fails : sys :=
  Sys (finish 0 (default (Request false 0 0 0 0) (parse 400 (vd run2) 0)) 1 (replicate 1024 0) (vd run2)) (threads run2).

Lemma ran3_fails : ran [LCall 0 true; LFail 0] run3_fails.
Proof.
  change [LCall 0 true; LFail 0] with ([LCall 0 true] ++ [LFail 0]). econstructor; [exact ran2|].
  apply (st_dev _ _ (Some 0%nat) (vd run3_fails) run2). right. eexists 0, _. split; [vm_compute; left|]. split; [exact parsed2|].
  right. exists 1, (replicate 1024 0). split_and!; [vm_compute; reflexivity|lia|vm_compute; reflexivity|reflexivity].
Qed.

Lemma ran4 : ran [LCall 0 true] run4.
Proof.
  change [LCall 0 true] with ([LCall 0 true] ++ @nil label). econstructor; [exact ran3|]. apply (st_intr _ _ 1 handled3 run3).
  apply returned_ok. vm_compute. reflexivity.
Qed.

Lemma run_execs : ran [LCall 0 true; LRet 0 (replicate 1024 7)] run5.
Proof.
  change [LCall 0 true; LRet 0 (replicate 1024 7)] with ([LCall 0 true] ++ [LRet 0 (replicate 1024 7)]). econstructor; [exact ran4|].
  assert (threads run4 !! 0%nat = Some caller) as Hc by (apply default_some; vm_compute; by eexists).
  assert (t_write caller = true) as Hw by (vm_compute; reflexivity).
  apply (st_wake _ _ 0 caller run4 _ _ Hc). rewrite Hw.
  pose proof (settle_ok 0 true (threads run4) (t_cont caller (vd run4)) ltac:(vm_compute; reflexivity)) as H.
  replace (settle 0 true (threads run4) (t_cont caller (vd run4))).1 with [LRet 0 (replicate 1024 7)] in H by (vm_compute; reflexivity).
  exact H.
Qed.

Lemma virtio_refines_witness :
  ∃ a, execs astep (blocks disk0) [LCall 0 true; LRet 0 (replicate 1024 7)] a ∧ a_disk a 3 = replicate 1024 7.
Proof.
  destruct (virtio_refines 400 (plain_dev 400) disk0 _ run5 ltac:(lia) disk0_fresh run_execs) as (a & Ha & Hd & _).
  exists a. split; [exact Ha|]. rewrite Hd. vm_compute. reflexivity.
Defined.

Lemma virtio_safe_witness : free (vd run5) 0 = true ∧ virtio_disk_intr 1 (vd run3_fails) = Panic "virtio_disk_intr status".
Proof.
  split.
  - destruct (virtio_safe 400 (plain_dev 400) disk0 _ run5 ltac:(lia) disk0_fresh run_execs) as (_ & _ & _ & H).
    apply H; reflexivity.
  - destruct (virtio_safe 400 (plain_dev 400) disk0 _ run3_fails ltac:(lia) disk0_fresh ran3_fails) as (_ & _ & H & _).
    destruct (H 1) as [[v' E]|[E _]]; [vm_compute in E; discriminate E|exact E].
Defined.
