(* ===== verification/Mkfs.v ===== *)
(** The image builder, mkfs/mkfs.c: it lays out an empty disk, appends the files given on the
    command line, and writes the bitmap.

    The image file is a sequence of blocks; reading past its end makes mkfs die, as a failed
    assertion does ([Panic]).  A structure in memory is a record of values; the byte order
    that [xint] and [xshort] establish is the one of [put_dinode] and [le_enc].  A file of
    the host is its path and, if it can be opened, the pieces in which [read] delivers it
    until it reports the end. *)

From stdpp Require Import functions.
From S2P Require Import Prelude Bytes Sleeplock Bio Log Store Fs Dir.

Definition NINODES : Z := 200.
Definition FSSIZE : Z := 2000.

Definition nbitmap : Z := FSSIZE / BPB + 1.
Definition ninodeblocks : Z := NINODES / IPB + 1.
Definition nlog : Z := LOGSIZE.
Definition nmeta : Z := 2 + nlog + ninodeblocks + nbitmap.

Definition the_sb : superblock :=
  Superblock FSMAGIC FSSIZE (FSSIZE - nmeta) NINODES nlog 2 (2 + nlog) (2 + nlog + ninodeblocks).

Record mkfs := Mk { m_img : Z → list Z; m_nsec : Z; freeinode : Z; freeblock : Z }.

Definition set_freeinode x s := Mk (m_img s) (m_nsec s) x (freeblock s).
Definition set_freeblock x s := Mk (m_img s) (m_nsec s) (freeinode s) x.

Definition zeroes : list Z := replicate (Z.to_nat BSIZE) 0.
Definition assert_ (b : bool) : M mkfs unit := if b then mret tt else panic "assert".

(** * Sectors *)

(** Where [lseek(fsfd, sec * BSIZE, 0)] puts the file offset, in blocks. *)
Definition seek (sec : Z) : Z := u32 (sec * BSIZE) / BSIZE.

Definition wsect (sec : Z) (buf : list Z) : M mkfs unit :=
  modify (λ s, Mk (<[seek sec := buf]> (m_img s)) (Z.max (m_nsec s) (seek sec + 1)) (freeinode s) (freeblock s)).

Definition rsect (sec : Z) : M mkfs (list Z) :=
  s ← get;
  if seek sec <? m_nsec s then mret (m_img s (seek sec)) else panic "read".

(** * Inodes *)

Definition winode (inum : Z) (ip : dinode) : M mkfs unit :=
  let bn := IBLOCK inum the_sb in
  buf ← rsect bn;
  wsect bn (put_dinode (dinode_off inum) ip buf).

Definition rinode (inum : Z) : M mkfs dinode :=
  buf ← rsect (IBLOCK inum the_sb);
  mret (get_dinode (dinode_off inum) buf).

Definition ialloc (type : Z) : M mkfs Z :=
  inum ← gets freeinode;
  modify (set_freeinode (u32 (inum + 1)));;
  winode inum (Dinode type 0 0 1 0 (replicate 13 0));;
  mret inum.

(** * Blocks *)

Definition mark (buf : list Z) (i : nat) : list Z :=
  <[(i / 8)%nat := Z.lor (nth (i / 8) buf 0) (Z.shiftl 1 (Z.of_nat (i mod 8)))]> buf.

Definition balloc (used : Z) : M mkfs unit :=
  assert_ (used <? BPB);;
  wsect (bmapstart the_sb) (foldl mark zeroes (seq 0 (Z.to_nat used))).

(** [freeblock++] *)
Definition take_block : M mkfs Z :=
  b ← gets freeblock;
  modify (set_freeblock (u32 (b + 1)));;
  mret b.

(** The block of the file at index [fbn], allocated if there is none. *)
Definition find_block (din : dinode) (fbn : Z) : M mkfs (dinode * Z) :=
  if fbn <? NDIRECT then
    din ← (if addr_at fbn din =? 0 then b ← take_block; mret (set_addr fbn b din) else mret din);
    mret (din, addr_at fbn din)
  else
    din ← (if addr_at NDIRECT din =? 0 then b ← take_block; mret (set_addr NDIRECT b din) else mret din);
    indirect ← rsect (addr_at NDIRECT din);
    let o := Z.to_nat (4 * (fbn - NDIRECT)) in
    indirect ← (if get32 o indirect =? 0 then
                  b ← take_block;
                  let indirect := set32 o b indirect in
                  wsect (addr_at NDIRECT din) indirect;; mret indirect
                else mret indirect);
    mret (din, get32 o indirect).

(** The loop of [iappend]: the inode, the offset and the bytes still to write. *)
Definition iappend_body (st : dinode * Z * list Z) : M mkfs (dinode * Z * list Z + dinode * Z) :=
  let '(din, off, p) := st in
  if Z.of_nat (length p) <=? 0 then mret (inr (din, off))
  else
    let fbn := off / BSIZE in
    assert_ (fbn <? MAXFILE);;
    '(din, x) ← find_block din fbn;
    let n1 := Z.min (Z.of_nat (length p)) ((fbn + 1) * BSIZE - off) in
    buf ← rsect x;
    wsect x (splice (Z.to_nat (off - fbn * BSIZE)) (take (Z.to_nat n1) p) buf);;
    mret (inl (din, u32 (off + n1), drop (Z.to_nat n1) p)).

Definition iappend (inum : Z) (p : list Z) : M mkfs unit :=
  din ← rinode inum;
  '(din, off) ← loop (length p / 1024 + 3) iappend_body (din, d_size din, p);
  winode inum (set_size off din).

(** * main *)

Record host_file := Host { h_path : list Z; h_chunks : option (list (list Z)) }.

Definition USER_ : list Z := [117; 115; 101; 114; 47].
Definition UNDERSCORE : Z := 95.
Definition dirent (inum : Z) (name : list Z) : list Z := le_enc 2 (u16 inum) ++ strncpy (Z.to_nat DIRSIZ) name.

Definition basename (path : list Z) : list Z := if strncmp 5 path USER_ =? 0 then drop 5 path else path.
Definition strip_ (name : list Z) : list Z := if hd 0 name =? UNDERSCORE then tl name else name.

Fixpoint iappend_all (inum : Z) (chunks : list (list Z)) : M mkfs unit :=
  match chunks with
  | [] => mret tt
  | c :: chunks => iappend inum c;; iappend_all inum chunks
  end.

Definition add_file (rootino : Z) (f : host_file) : M mkfs unit :=
  let shortname := basename (h_path f) in
  assert_ (negb (existsb (Z.eqb SLASH) shortname));;
  match h_chunks f with
  | None => panic "open"
  | Some chunks =>
      let shortname := strip_ shortname in
      assert_ (Z.of_nat (length shortname) <=? DIRSIZ);;
      inum ← ialloc T_FILE;
      iappend rootino (dirent inum shortname);;
      iappend_all inum chunks
  end.

Fixpoint add_files (rootino : Z) (fs : list host_file) : M mkfs unit :=
  match fs with
  | [] => mret tt
  | f :: fs => add_file rootino f;; add_files rootino fs
  end.

Definition zero_body (i : Z) : M mkfs (Z + unit) :=
  if i <? FSSIZE then wsect i zeroes;; mret (inl (i + 1)) else mret (inr tt).

Definition sb_block : list Z :=
  le_enc 4 (magic the_sb) ++ le_enc 4 (sb_size the_sb) ++ le_enc 4 (nblocks the_sb) ++ le_enc 4 (ninodes the_sb) ++
  le_enc 4 (Fs.nlog the_sb) ++ le_enc 4 (logstart the_sb) ++ le_enc 4 (inodestart the_sb) ++ le_enc 4 (bmapstart the_sb) ++
  replicate 992 0.

Definition fix_root (rootino : Z) : M mkfs unit :=
  din ← rinode rootino;
  let off := d_size din in
  winode rootino (set_size (u32 ((off / BSIZE + 1) * BSIZE)) din).

(** On an image file that is empty. *)
Definition main (fs : list host_file) : M mkfs unit :=
  modify (set_freeblock nmeta);;
  loop (Z.to_nat FSSIZE + 1) zero_body 0;;
  wsect 1 sb_block;;
  rootino ← ialloc T_DIR;
  assert_ (rootino =? ROOTINO);;
  iappend rootino (dirent rootino [46]);;
  iappend rootino (dirent rootino [46; 46]);;
  add_files rootino fs;;
  fix_root rootino;;
  used ← gets freeblock;
  balloc used.

Definition empty_image : mkfs := Mk (λ _, []) 0 1 0.
