(* ===== verification/MkfsInv.v ===== *)
(** Files on the image that mkfs builds: where their blocks are, and what [iappend] does to
    them. *)

From stdpp Require Import functions.
From S2P Require Import Prelude Bytes Sleeplock Bio Log Store Fs Dir Dinode FsFile FsRead FsWrite FsFileProps Mkfs.

Implicit Types (d : Z → list Z) (x : dinode).

(** The block of index [k] of the file with inode [x]; number MAXFILE is the indirect block. *)
Definition own d x (k : Z) : Z := if k =? MAXFILE then addr_at NDIRECT x else disk_addr d x k.
Definition blk_at d x (k : Z) : list Z := if own d x k =? 0 then zeroes else d (own d x k).

Record placed (fb : Z) d x : Prop := {
  pl_len : length (d_addrs x) = 13%nat;
  pl_own : ∀ k, 0 ≤ k ≤ MAXFILE → own d x k = 0 ∨ nmeta ≤ own d x k < fb;
  pl_inj : ∀ k j, 0 ≤ k ≤ MAXFILE → 0 ≤ j ≤ MAXFILE → own d x k ≠ 0 → own d x k = own d x j → k = j;
}.

Lemma own_dir d x k : 0 ≤ k < NDIRECT → own d x k = addr_at k x.
Proof.
  intros Hk. destruct maxfile_val as (EM & EN & _). unfold own, disk_addr.
  rewrite (proj2 (Z.eqb_neq k MAXFILE)), (proj2 (Z.ltb_lt k NDIRECT)) by lia. done.
Qed.

Lemma own_ind d x : own d x MAXFILE = addr_at NDIRECT x.
Proof. unfold own. by rewrite Z.eqb_refl. Qed.

Lemma own_entry d x k : NDIRECT ≤ k < MAXFILE →
  own d x k = if addr_at NDIRECT x =? 0 then 0 else get32 (Z.to_nat (4 * (k - NDIRECT))) (d (addr_at NDIRECT x)).
Proof. intros Hk. unfold own, disk_addr. by rewrite (proj2 (Z.eqb_neq k MAXFILE)), (proj2 (Z.ltb_ge k NDIRECT)) by lia. Qed.

(** A place in the inode: a direct address, or the indirect block. *)
Definition slot (k : Z) : Z := if k =? NDIRECT then MAXFILE else k.

Section attach.
Context (fb : Z) d x.
Hypothesis P : placed fb d x.
Hypothesis Hfb : nmeta ≤ fb.

(** A change after which one more block is owned. *)
Lemma placed_attach d' x' k0 :
  length (d_addrs x') = 13%nat → 0 ≤ k0 ≤ MAXFILE → (∀ k, 0 ≤ k ≤ MAXFILE → own d' x' k = if decide (k = k0) then fb else own d x k) →
  placed (fb + 1) d' x'.
Proof.
  intros Hl Hk0 Ho. assert (0 < nmeta) as Hm by done. destruct P as [P1 P2 P3]. constructor; [done| |].
  - intros k Hk. rewrite Ho by done. case_decide; [lia|]. destruct (P2 k Hk); lia.
  - intros k j Hk Hj. rewrite !Ho by done. destruct (decide (k = k0)) as [->|], (decide (j = k0)) as [->|]; try done.
    + destruct (P2 j Hj); lia.
    + destruct (P2 k Hk); lia.
    + by apply P3.
Qed.

Lemma attach_direct k :
  0 ≤ k ≤ NDIRECT → addr_at k x = 0 → d fb = zeroes →
  ∀ j, 0 ≤ j ≤ MAXFILE → own d (set_addr k fb x) j = if decide (j = slot k) then fb else own d x j.
Proof.
  intros Hk Ha Hz j Hj. destruct maxfile_val as (EM & EN & _). pose proof (pl_len _ _ _ P) as Hl.
  assert (∀ i, 0 ≤ i ≤ NDIRECT → addr_at i (set_addr k fb x) = if decide (i = k) then fb else addr_at i x) as Hs.
  { intros i Hi. apply addr_at_set; lia. }
  unfold slot. destruct (decide (0 ≤ j < NDIRECT)) as [Hd|Hd].
  { rewrite !own_dir, Hs by lia. destruct (Z.eqb_spec k NDIRECT); repeat case_decide; (done || lia). }
  destruct (decide (j = MAXFILE)) as [->|Hm].
  { rewrite !own_ind, Hs by lia. destruct (Z.eqb_spec k NDIRECT); repeat case_decide; (done || lia). }
  rewrite !own_entry, Hs by lia. destruct (Z.eqb_spec k NDIRECT) as [->|Hne].
  - rewrite decide_True, decide_False, Ha by lia. change (0 =? 0) with true. cbv iota.
    destruct (Z.eqb_spec fb 0); [done|]. rewrite Hz. apply get32_zeros.
  - rewrite decide_False, decide_False by lia. done.
Qed.

Lemma attach_entry k :
  NDIRECT ≤ k < MAXFILE → addr_at NDIRECT x ≠ 0 → Z.of_nat (length (d (addr_at NDIRECT x))) = BSIZE → fb < 2 ^ 32 →
  let a := addr_at NDIRECT x in
  ∀ j, 0 ≤ j ≤ MAXFILE → own (<[a := set32 (Z.to_nat (4 * (k - NDIRECT))) fb (d a)]> d) x j = if decide (j = k) then fb else own d x j.
Proof.
  intros Hk Ha Hl Hfb2 a j Hj. fold a in Hl. destruct maxfile_val as (EM & EN & _ & EB). assert (0 < nmeta) as Hm0 by done.
  destruct (decide (0 ≤ j < NDIRECT)) as [Hd|Hd].
  { rewrite !own_dir by lia. by rewrite decide_False by lia. }
  destruct (decide (j = MAXFILE)) as [->|Hm].
  { rewrite !own_ind. by rewrite decide_False by lia. }
  rewrite !own_entry by lia. fold a. rewrite (proj2 (Z.eqb_neq a 0)) by done. rewrite fn_lookup_insert.
  case_decide as Hjk; [subst j|].
  - apply get32_set32; lia.
  - apply get32_set32_other; lia.
Qed.

Lemma own_poke k blk :
  0 ≤ k < MAXFILE → own d x k ≠ 0 → ∀ j, 0 ≤ j ≤ MAXFILE → own (<[own d x k := blk]> d) x j = own d x j.
Proof.
  intros Hk Hne j Hj. destruct maxfile_val as (EM & EN & _ & EB).
  destruct (decide (0 ≤ j < NDIRECT)) as [Hd|Hd]; [by rewrite !own_dir by lia|].
  destruct (decide (j = MAXFILE)) as [->|Hm]; [by rewrite !own_ind|]. rewrite (own_entry _ x j), (own_entry d x j) by lia.
  destruct (Z.eqb_spec (addr_at NDIRECT x) 0) as [|Hi]; [done|]. rewrite fn_lookup_insert_ne; [done|]. intros E.
  assert (k = MAXFILE); [|lia]. apply (pl_inj _ _ _ P); rewrite ?own_ind; (done || lia).
Qed.
End attach.

(** * The image while it is built *)

Record mk_ok (s : mkfs) : Prop := {
  mk_nsec : m_nsec s = FSSIZE;
  mk_fb : nmeta ≤ freeblock s ≤ FSSIZE;
  mk_zero : ∀ b, freeblock s ≤ b < FSSIZE → m_img s b = zeroes;
  mk_blk : ∀ b, 0 ≤ b < FSSIZE → Z.of_nat (length (m_img s b)) = BSIZE ∧ bytes (m_img s b);
}.

Lemma fssize_val : FSSIZE = 2000 ∧ nmeta = 46.
Proof. done. Qed.

Lemma seek_id sec : 0 ≤ sec < FSSIZE → seek sec = sec.
Proof. intros Hs. destruct fssize_val as [E _]. unfold seek. change BSIZE with 1024. rewrite u32_id by lia. apply Z.div_mul. lia. Qed.

Lemma rsect_ok s sec : mk_ok s → 0 ≤ sec < FSSIZE → rsect sec s = Ret (m_img s sec) s.
Proof.
  intros K Hs. unfold rsect. msimpl. rewrite seek_id by done. rewrite (mk_nsec _ K).
  by rewrite (proj2 (Z.ltb_lt _ _)) by lia.
Qed.

Definition put_block (b : Z) (x : list Z) (s : mkfs) : mkfs := Mk (<[b := x]> (m_img s)) (m_nsec s) (freeinode s) (freeblock s).

Lemma wsect_ok s sec buf : mk_ok s → 0 ≤ sec < FSSIZE → wsect sec buf s = Ret tt (put_block sec buf s).
Proof.
  intros K Hs. unfold wsect. msimpl. rewrite seek_id by done. unfold put_block. rewrite Z.max_l; [done|]. rewrite (mk_nsec _ K). lia.
Qed.

Lemma img_put_ok s b l :
  mk_ok s → 0 ≤ b < freeblock s → Z.of_nat (length l) = BSIZE ∧ bytes l → mk_ok (put_block b l s).
Proof.
  intros [K1 K2 K3 K4] Hb Hx. constructor; try done; cbn [put_block m_img freeblock].
  - intros c Hc. rewrite fn_lookup_insert_ne by lia. by apply K3.
  - intros c Hc. destruct (decide (c = b)) as [->|]; [by rewrite fn_lookup_insert|]. rewrite fn_lookup_insert_ne by done. by apply K4.
Qed.

Lemma take_block_ok s : mk_ok s → freeblock s < FSSIZE →
  take_block s = Ret (freeblock s) (set_freeblock (freeblock s + 1) s) ∧ mk_ok (set_freeblock (freeblock s + 1) s).
Proof.
  intros [K1 K2 K3 K4] Hf. destruct fssize_val as [EF EN]. split.
  - unfold take_block. msimpl. rewrite u32_id by lia. done.
  - constructor; try done; cbn; [lia|]. intros b Hb. apply K3. lia.
Qed.

(** From [s] to [s'] only the file has changed, and blocks that were free. *)
Record moved s x s' x' : Prop := {
  mv_ok : mk_ok s';
  mv_placed : placed (freeblock s') (m_img s') x';
  mv_same : x' = Dinode (d_type x) (d_major x) (d_minor x) (d_nlink x) (d_size x) (d_addrs x');
  mv_ino : freeinode s' = freeinode s ∧ freeblock s ≤ freeblock s';
  mv_frame : ∀ b, 0 ≤ b < freeblock s → (∀ j, 0 ≤ j ≤ MAXFILE → own (m_img s) x j ≠ b) → m_img s' b = m_img s b;
  mv_own : ∀ j, 0 ≤ j ≤ MAXFILE → own (m_img s') x' j = own (m_img s) x j ∨ own (m_img s) x j = 0 ∧ freeblock s ≤ own (m_img s') x' j;
}.

(** Only blocks have been added to the file; no byte of it has changed. *)
Record grown s x s' x' : Prop := {
  gw_moved : moved s x s' x';
  gw_blk : ∀ j, 0 ≤ j < MAXFILE → blk_at (m_img s') x' j = blk_at (m_img s) x j;
}.

Lemma moved_refl s x : mk_ok s → placed (freeblock s) (m_img s) x → moved s x s x.
Proof. intros K P. constructor; try done; [by destruct x|by left]. Qed.

Lemma moved_trans s1 x1 s2 x2 s3 x3 : moved s1 x1 s2 x2 → moved s2 x2 s3 x3 → moved s1 x1 s3 x3.
Proof.
  intros G1 G2. pose proof (mk_fb _ (mv_ok _ _ _ _ G1)) as Hfb. destruct G1 as [A1 B1 C1 D1 F1 H1], G2 as [A2 B2 C2 D2 F2 H2].
  assert (0 < nmeta) as Hm by done. constructor; try done.
  - rewrite C2, C1. done.
  - destruct D1, D2. split; [congruence|lia].
  - intros b Hb Ho. rewrite F2; [by apply F1|lia|]. intros j Hj E. destruct (H1 j Hj) as [E'|[_ Hge]]; [|lia]. apply (Ho j Hj). congruence.
  - intros j Hj. destruct (H2 j Hj) as [->|[E Hge]]; [by apply H1|]. destruct (H1 j Hj) as [<-|[? ?]]; [right; split; [done|lia]|right; split; [done|lia]].
Qed.

Lemma grown_refl s x : mk_ok s → placed (freeblock s) (m_img s) x → grown s x s x.
Proof. intros K P. constructor; [by apply moved_refl|done]. Qed.

Lemma grown_trans s1 x1 s2 x2 s3 x3 : grown s1 x1 s2 x2 → grown s2 x2 s3 x3 → grown s1 x1 s3 x3.
Proof. intros [M1 E1] [M2 E2]. constructor; [by eapply moved_trans|]. intros j Hj. by rewrite E2, E1. Qed.

Lemma grow_direct s x k :
  mk_ok s → placed (freeblock s) (m_img s) x → 0 ≤ k ≤ NDIRECT → addr_at k x = 0 → freeblock s < FSSIZE →
  let s' := set_freeblock (freeblock s + 1) s in let x' := set_addr k (freeblock s) x in
  grown s x s' x' ∧ ∀ j, 0 ≤ j ≤ MAXFILE → own (m_img s') x' j = if decide (j = slot k) then freeblock s else own (m_img s) x j.
Proof.
  intros K P Hk Ha Hf s' x'. destruct maxfile_val as (EM & EN & _). pose proof (mk_fb _ K) as Hfb. assert (0 < nmeta) as Hm by done.
  assert (∀ j, 0 ≤ j ≤ MAXFILE → own (m_img s') x' j = if decide (j = slot k) then freeblock s else own (m_img s) x j) as Ho.
  { apply attach_direct; try done; try lia. apply K. lia. }
  assert (0 ≤ slot k ≤ MAXFILE) as Hsl by (unfold slot; destruct (Z.eqb_spec k NDIRECT); lia).
  assert (own (m_img s) x (slot k) = 0) as H0.
  { unfold slot. destruct (Z.eqb_spec k NDIRECT) as [->|]; [by rewrite own_ind|by rewrite own_dir by lia]. }
  split; [|done]. constructor.
  - constructor; try done.
    + by apply take_block_ok.
    + apply (placed_attach (freeblock s) (m_img s) x P ltac:(lia) _ _ (slot k)); try done.
      unfold x', set_addr. cbn [d_addrs]. rewrite length_insert. apply P.
    + split; [done|]. cbn. lia.
    + intros j Hj. rewrite Ho by done. case_decide as E; [right; subst j; split; [done|lia]|by left].
  - intros j Hj. unfold blk_at. rewrite Ho by lia. case_decide as E; [|done]. subst j. rewrite H0.
    rewrite (proj2 (Z.eqb_neq (freeblock s) 0)) by lia. apply K. lia.
Qed.

Lemma grow_entry s x k :
  mk_ok s → placed (freeblock s) (m_img s) x → NDIRECT ≤ k < MAXFILE → addr_at NDIRECT x ≠ 0 → own (m_img s) x k = 0 → freeblock s < FSSIZE →
  let a := addr_at NDIRECT x in
  let s' := put_block a (set32 (Z.to_nat (4 * (k - NDIRECT))) (freeblock s) (m_img s a)) (set_freeblock (freeblock s + 1) s) in
  grown s x s' x ∧ ∀ j, 0 ≤ j ≤ MAXFILE → own (m_img s') x j = if decide (j = k) then freeblock s else own (m_img s) x j.
Proof.
  intros K P Hk Ha H0 Hf a s'. destruct maxfile_val as (EM & EN & _ & EB). pose proof (mk_fb _ K) as Hfb. assert (0 < nmeta) as Hm by done.
  destruct fssize_val as [EF _].
  assert (nmeta ≤ a < freeblock s) as Har.
  { destruct (pl_own _ _ _ P MAXFILE ltac:(lia)) as [E|E]; rewrite own_ind in E; [done|exact E]. }
  destruct (mk_blk _ K a ltac:(lia)) as [Hl Hby].
  assert (∀ j, 0 ≤ j ≤ MAXFILE → own (m_img s') x j = if decide (j = k) then freeblock s else own (m_img s) x j) as Ho.
  { intros j Hj. apply (attach_entry (freeblock s)); (done || lia). }
  split; [|done]. constructor; [constructor|].
  - apply img_put_ok; [by apply take_block_ok|cbn; lia|]. split; [rewrite length_set32; [done|lia]|]. apply bytes_splice; [done|apply bytes_le_enc].
  - apply (placed_attach (freeblock s) (m_img s) x P ltac:(lia) _ _ k); [apply P|lia|done].
  - by destruct x.
  - split; [done|]. cbn. lia.
  - intros b Hb Hn. cbn. rewrite fn_lookup_insert_ne; [done|]. intros <-. apply (Hn MAXFILE); [lia|apply own_ind].
  - intros j Hj. rewrite Ho by done. case_decide as E; [right; subst j; split; [done|lia]|by left].
  - intros j Hj. unfold blk_at. rewrite Ho by lia. case_decide as E.
    + subst j. rewrite H0. rewrite (proj2 (Z.eqb_neq (freeblock s) 0)) by lia. cbn. rewrite fn_lookup_insert_ne by lia. apply K. lia.
    + destruct (Z.eqb_spec (own (m_img s) x j) 0) as [|Hne]; [done|]. cbn. rewrite fn_lookup_insert_ne; [done|]. intros E'.
      assert (j = MAXFILE); [|lia]. apply (pl_inj _ _ _ P); [lia|lia|done|]. by rewrite own_ind.
Qed.

(** Blocks that [find_block] takes. *)
Definition takes d x (k : Z) : Z :=
  (if own d x k =? 0 then 1 else 0) + (if (NDIRECT <=? k) && (addr_at NDIRECT x =? 0) then 1 else 0).

Record found s x s' x' (k : Z) : Prop := {
  fd_grown : grown s x s' x';
  fd_here : own (m_img s') x' k ≠ 0;
  fd_count : freeblock s' = freeblock s + takes (m_img s) x k;
  fd_else : ∀ j, 0 ≤ j < MAXFILE → j ≠ k → own (m_img s') x' j = own (m_img s) x j;
  fd_ind : addr_at NDIRECT x' = 0 ↔ addr_at NDIRECT x = 0 ∧ k < NDIRECT;
}.

Lemma find_direct s x k :
  mk_ok s → placed (freeblock s) (m_img s) x → 0 ≤ k < NDIRECT → freeblock s + takes (m_img s) x k ≤ FSSIZE →
  ∃ x' s', find_block x k s = Ret (x', own (m_img s') x' k) s' ∧ found s x s' x' k.
Proof.
  intros K P Hk Hr. destruct maxfile_val as (EM & EN & _). assert (0 < nmeta) as Hm by done. pose proof (mk_fb _ K) as Hfb.
  unfold takes in Hr. rewrite own_dir in Hr by done. rewrite (proj2 (Z.leb_gt NDIRECT k)) in Hr by lia.
  unfold find_block. rewrite (proj2 (Z.ltb_lt k NDIRECT)) by lia. msimpl. destruct (Z.eqb_spec (addr_at k x) 0) as [E|E]; cbn [andb] in Hr.
  - destruct (take_block_ok s K ltac:(lia)) as [Et _]. rewrite Et. cbn [res_bind].
    destruct (grow_direct s x k K P ltac:(lia) E ltac:(lia)) as [G Ho]. set (s' := set_freeblock _ s) in *. set (x' := set_addr _ _ x) in *.
    assert (slot k = k) as Es by (unfold slot; by rewrite (proj2 (Z.eqb_neq k NDIRECT)) by lia). rewrite Es in Ho.
    exists x', s'. rewrite own_dir by lia. split; [done|]. constructor; [done| | | |].
    + rewrite Ho, decide_True by lia. lia.
    + unfold takes. rewrite own_dir, E, (proj2 (Z.leb_gt NDIRECT k)) by lia. cbn. lia.
    + intros j Hj Hn. rewrite Ho by lia. by rewrite decide_False by lia.
    + specialize (Ho MAXFILE ltac:(lia)). rewrite !own_ind, decide_False in Ho by lia. rewrite Ho. naive_solver lia.
  - exists x, s. rewrite own_dir by lia. split; [done|]. constructor; try done.
    + by apply grown_refl.
    + by rewrite own_dir by lia.
    + unfold takes. rewrite own_dir, (proj2 (Z.eqb_neq _ _)), (proj2 (Z.leb_gt NDIRECT k)) by (done || lia). cbn. lia.
    + naive_solver lia.
Qed.

(** With the indirect block there. *)
Lemma find_entry s x k :
  mk_ok s → placed (freeblock s) (m_img s) x → NDIRECT ≤ k < MAXFILE → addr_at NDIRECT x ≠ 0 → freeblock s + takes (m_img s) x k ≤ FSSIZE →
  ∃ s', find_block x k s = Ret (x, own (m_img s') x k) s' ∧ found s x s' x k.
Proof.
  intros K P Hk Ha Hr. destruct maxfile_val as (EM & EN & _ & EB). assert (0 < nmeta) as Hm by done. pose proof (mk_fb _ K) as Hfb.
  set (a := addr_at NDIRECT x) in *.
  assert (nmeta ≤ a < freeblock s) as Har.
  { destruct (pl_own _ _ _ P MAXFILE ltac:(lia)) as [E|E]; rewrite own_ind in E; [done|exact E]. }
  assert (own (m_img s) x k = get32 (Z.to_nat (4 * (k - NDIRECT))) (m_img s a)) as Ek.
  { rewrite own_entry by lia. fold a. by rewrite (proj2 (Z.eqb_neq a 0)). }
  unfold takes in Hr. fold a in Hr. rewrite (proj2 (Z.eqb_neq a 0)), andb_false_r in Hr by done.
  unfold find_block. rewrite (proj2 (Z.ltb_ge k NDIRECT)) by lia. msimpl. fold a. rewrite (proj2 (Z.eqb_neq a 0)) by done. cbn [res_bind].
  fold a. rewrite rsect_ok by (done || lia). cbn [res_bind]. rewrite <- Ek. destruct (Z.eqb_spec (own (m_img s) x k) 0) as [E|E].
  - destruct (take_block_ok s K ltac:(lia)) as [Et K1]. rewrite Et. cbn [res_bind]. rewrite (wsect_ok _ a) by (done || lia). cbn [res_bind].
    destruct (grow_entry s x k K P Hk Ha E ltac:(lia)) as [G Ho]. fold a in G, Ho. set (s' := put_block _ _ _) in *.
    exists s'. split.
    { f_equal. f_equal. rewrite own_entry by lia. fold a. rewrite (proj2 (Z.eqb_neq a 0)) by done. cbn. by rewrite fn_lookup_insert. }
    constructor; [done| | | |].
    + rewrite Ho, decide_True by lia. lia.
    + unfold takes. fold a. rewrite E, (proj2 (Z.eqb_neq a 0)), andb_false_r by done. cbn. lia.
    + intros j Hj Hn. rewrite Ho by lia. by rewrite decide_False by lia.
    + naive_solver lia.
  - exists s. split; [cbn [res_bind]; by rewrite <- Ek|]. constructor; try done.
    + by apply grown_refl.
    + unfold takes. fold a. rewrite (proj2 (Z.eqb_neq a 0)), andb_false_r, (proj2 (Z.eqb_neq _ 0)) by done. lia.
    + naive_solver lia.
Qed.

Lemma find_block_ok s x k :
  mk_ok s → placed (freeblock s) (m_img s) x → 0 ≤ k < MAXFILE → freeblock s + takes (m_img s) x k ≤ FSSIZE →
  ∃ x' s', find_block x k s = Ret (x', own (m_img s') x' k) s' ∧ found s x s' x' k.
Proof.
  intros K P Hk Hr. destruct (decide (k < NDIRECT)); [apply find_direct; (done || lia)|].
  destruct (decide (addr_at NDIRECT x = 0)) as [E|E].
  2:{ destruct (find_entry s x k) as (s' & ? & ?); [done|done|lia|done|done|]. by exists x, s'. }
  destruct maxfile_val as (EM & EN & _ & EB). assert (0 < nmeta) as Hm by done. pose proof (mk_fb _ K) as Hfb.
  assert (own (m_img s) x k = 0) as Hk0 by (rewrite own_entry by lia; by rewrite E).
  unfold takes in Hr. rewrite Hk0, E, (proj2 (Z.leb_le NDIRECT k)) in Hr by lia. change (0 =? 0) with true in Hr. cbn [andb] in Hr.
  destruct (grow_direct s x NDIRECT K P ltac:(lia) E ltac:(lia)) as [G Ho]. set (s1 := set_freeblock _ s) in *. set (x1 := set_addr _ _ x) in *.
  change (slot NDIRECT) with MAXFILE in Ho.
  assert (addr_at NDIRECT x1 = freeblock s) as Ha1 by (rewrite <- (own_ind (m_img s1)), Ho, decide_True by (done || lia); done).
  assert (own (m_img s1) x1 k = 0) as Hk1 by (rewrite Ho, decide_False by lia; done).
  assert (takes (m_img s1) x1 k = 1) as Ht1.
  { unfold takes. rewrite Hk1, Ha1, (proj2 (Z.eqb_neq (freeblock s) 0)), andb_false_r by lia. done. }
  destruct (find_entry s1 x1 k (mv_ok _ _ _ _ (gw_moved _ _ _ _ G)) (mv_placed _ _ _ _ (gw_moved _ _ _ _ G)) ltac:(lia)) as (s' & E' & Fd); [lia|rewrite Ht1; cbn; lia|].
  exists x1, s'. split.
  - rewrite <- E'. unfold find_block. rewrite (proj2 (Z.ltb_ge k NDIRECT)) by lia. msimpl. rewrite E. change (0 =? 0) with true. cbv iota.
    destruct (take_block_ok s K ltac:(lia)) as [-> _]. cbn [res_bind]. fold s1 x1. rewrite (proj2 (Z.eqb_neq (addr_at NDIRECT x1) 0)) by lia. done.
  - destruct Fd as [F1 F2 F3 F4 F5]. constructor; [by eapply grown_trans|done| | |].
    + rewrite F3, Ht1. unfold takes. rewrite Hk0, E, (proj2 (Z.leb_le NDIRECT k)) by lia. cbn. lia.
    + intros j Hj Hn. rewrite F4, Ho by lia. by rewrite decide_False by lia.
    + rewrite Ha1. naive_solver lia.
Qed.

(** * Contents *)

(** Blocks of a file of [n] bytes, with the indirect one. *)
Definition need (n : Z) : Z := (n + BSIZE - 1) / BSIZE + (if NDIRECT * BSIZE <? n then 1 else 0).

(** The file with inode [x] has the contents [c] and zeros after them. *)
Record holds_file (fb : Z) d x (c : list Z) : Prop := {
  hf_placed : placed fb d x;
  hf_size : d_size x = Z.of_nat (length c) ∧ Z.of_nat (length c) ≤ MAXFILE * BSIZE;
  hf_exact : ∀ k, 0 ≤ k < MAXFILE → own d x k = 0 ↔ Z.of_nat (length c) ≤ k * BSIZE;
  hf_ind : addr_at NDIRECT x = 0 ↔ Z.of_nat (length c) ≤ NDIRECT * BSIZE;
  hf_bytes : ∀ j, 0 ≤ j < MAXFILE * BSIZE → nth (Z.to_nat (j mod BSIZE)) (blk_at d x (j / BSIZE)) 0 = nth (Z.to_nat j) c 0;
}.

Lemma takes_need d x fb c n1 :
  holds_file fb d x c → 0 < n1 ≤ BSIZE - Z.of_nat (length c) mod BSIZE → Z.of_nat (length c) / BSIZE < MAXFILE →
  takes d x (Z.of_nat (length c) / BSIZE) = need (Z.of_nat (length c) + n1) - need (Z.of_nat (length c)).
Proof.
  intros [P _ He Hi _] Hn Hk. destruct maxfile_val as (EM & EN & _ & EB). set (l := Z.of_nat (length c)) in *.
  assert (0 ≤ l) as Hl by lia. unfold takes, need. rewrite EN, EM, EB in *.
  destruct (Z.eqb_spec (own d x (l / 1024)) 0) as [E|E].
  - rewrite He in E by zdm. destruct (Z.eqb_spec (addr_at 12 x) 0) as [E'|E']; rewrite Hi in E'.
    + destruct (Z.leb_spec 12 (l / 1024)), (Z.ltb_spec (12 * 1024) (l + n1)), (Z.ltb_spec (12 * 1024) l); cbn [andb]; zdm.
    + rewrite andb_false_r. destruct (Z.ltb_spec (12 * 1024) (l + n1)), (Z.ltb_spec (12 * 1024) l); zdm.
  - rewrite He in E by zdm. destruct (Z.eqb_spec (addr_at 12 x) 0) as [E'|E']; rewrite Hi in E'.
    + destruct (Z.leb_spec 12 (l / 1024)), (Z.ltb_spec (12 * 1024) (l + n1)), (Z.ltb_spec (12 * 1024) l); cbn [andb]; zdm.
    + rewrite andb_false_r. destruct (Z.ltb_spec (12 * 1024) (l + n1)), (Z.ltb_spec (12 * 1024) l); zdm.
Qed.

Lemma need_mono n m : 0 ≤ n ≤ m → need n ≤ need m.
Proof.
  intros Hn. unfold need. change BSIZE with 1024. change NDIRECT with 12.
  destruct (Z.ltb_spec (12 * 1024) n), (Z.ltb_spec (12 * 1024) m); zdm.
Qed.

(** A write into a block of the file. *)
Lemma poke_moved s x k blk :
  mk_ok s → placed (freeblock s) (m_img s) x → 0 ≤ k < MAXFILE → own (m_img s) x k ≠ 0 → Z.of_nat (length blk) = BSIZE ∧ bytes blk →
  let s' := put_block (own (m_img s) x k) blk s in
  moved s x s' x ∧ (∀ j, 0 ≤ j ≤ MAXFILE → own (m_img s') x j = own (m_img s) x j) ∧
  ∀ j, 0 ≤ j < MAXFILE → blk_at (m_img s') x j = if decide (j = k) then blk else blk_at (m_img s) x j.
Proof.
  intros K P Hk Hne Hb s'. pose proof (own_poke (freeblock s) (m_img s) x P k blk Hk Hne) as Ho. assert (0 < nmeta) as Hm by done.
  change (<[own (m_img s) x k := blk]> (m_img s)) with (m_img s') in Ho.
  assert (nmeta ≤ own (m_img s) x k < freeblock s) as Hr by (destruct (pl_own _ _ _ P k); [lia|done|done]).
  split; [|split; [done|]].
  - constructor; try done.
    + apply img_put_ok; (done || lia).
    + destruct P as [P1 P2 P3]. constructor; [done| |].
      * intros j Hj. rewrite Ho by done. by apply P2.
      * intros i j Hi Hj. rewrite !Ho by done. by apply P3.
    + by destruct x.
    + intros b Hbr Hn. cbn. apply fn_lookup_insert_ne. apply Hn. lia.
    + intros j Hj. left. by apply Ho.
  - intros j Hj. unfold blk_at. rewrite Ho by lia. cbn. case_decide as E.
    + subst j. rewrite (proj2 (Z.eqb_neq _ 0)) by done. by rewrite fn_lookup_insert.
    + destruct (Z.eqb_spec (own (m_img s) x j) 0) as [|Hj0]; [done|]. rewrite fn_lookup_insert_ne; [done|]. intros E'.
      apply E. apply (pl_inj _ _ _ P); (done || lia).
Qed.

Lemma blk_at_ok s x k : mk_ok s → placed (freeblock s) (m_img s) x → 0 ≤ k < MAXFILE →
  Z.of_nat (length (blk_at (m_img s) x k)) = BSIZE ∧ bytes (blk_at (m_img s) x k).
Proof.
  intros K P Hk. assert (0 < nmeta) as Hm by done. unfold blk_at. destruct (Z.eqb_spec (own (m_img s) x k) 0).
  - split; [done|]. apply Forall_replicate. lia.
  - apply K. pose proof (mk_fb _ K). destruct (pl_own _ _ _ P k); lia.
Qed.

(** The bytes after a piece is stored at the end. *)
Lemma append_bytes d x d' x' c t :
  let l := Z.of_nat (length c) in let k := l / BSIZE in
  (∀ j, 0 ≤ j < MAXFILE * BSIZE → nth (Z.to_nat (j mod BSIZE)) (blk_at d x (j / BSIZE)) 0 = nth (Z.to_nat j) c 0) →
  Z.of_nat (length (blk_at d x k)) = BSIZE → Z.of_nat (length t) ≤ BSIZE - l mod BSIZE →
  (∀ j, 0 ≤ j < MAXFILE → blk_at d' x' j = if decide (j = k) then splice (Z.to_nat (l mod BSIZE)) t (blk_at d x k) else blk_at d x j) →
  ∀ j, 0 ≤ j < MAXFILE * BSIZE → nth (Z.to_nat (j mod BSIZE)) (blk_at d' x' (j / BSIZE)) 0 = nth (Z.to_nat j) (c ++ t) 0.
Proof.
  intros l k Hc Hl Ht Hb j Hj. destruct maxfile_val as (EM & EN & _ & EB).
  assert (0 ≤ j / BSIZE < MAXFILE) as Hjk by (rewrite EM, EB in *; zdm).
  assert (¬ (l ≤ j < l + Z.of_nat (length t)) → nth (Z.to_nat j) (c ++ t) 0 = nth (Z.to_nat j) c 0) as Hout.
  { intros Hn. destruct (decide (j < l)); [by rewrite app_nth1 by lia|]. rewrite !nth_overflow; [done|lia|]. rewrite length_app. lia. }
  rewrite Hb by done. case_decide as E.
  - rewrite splice_nth by (unfold l in *; rewrite EB in *; zdm). case_decide as Hi.
    + rewrite app_nth2 by (unfold k, l in *; rewrite EB in *; zdm). f_equal. unfold k, l in *. rewrite EB in *. zdm.
    + rewrite <- E, Hc, Hout; [done| |done]. unfold k, l in *. rewrite EB in *. zdm.
  - rewrite Hc, Hout; [done| |done]. unfold k, l in *. rewrite EB in *. zdm.
Qed.

Lemma iappend_step s x c p :
  let l := Z.of_nat (length c) in let n1 := chunk l (Z.of_nat (length p)) in let t := take (Z.to_nat n1) p in
  mk_ok s → holds_file (freeblock s) (m_img s) (set_size l x) c → p ≠ [] → bytes p → l + Z.of_nat (length p) ≤ MAXFILE * BSIZE →
  freeblock s + need (l + n1) - need l ≤ FSSIZE →
  ∃ x' s', iappend_body (x, l, p) s = Ret (inl (x', l + n1, drop (Z.to_nat n1) p)) s' ∧ moved s x s' x' ∧
    holds_file (freeblock s') (m_img s') (set_size (l + n1) x') (c ++ t) ∧ freeblock s' = freeblock s + need (l + n1) - need l.
Proof.
  intros l n1 t K Hf Hp Hby Hlen Hroom. destruct maxfile_val as (EM & EN & _ & EB). set (k := l / BSIZE).
  assert (0 < length p)%nat as Hpl by (destruct p; [done|cbn; lia]).
  assert (0 < n1 ≤ Z.of_nat (length p) ∧ n1 ≤ BSIZE - l mod BSIZE) as Hn1 by (unfold n1, chunk; rewrite EB; zdm).
  assert (0 ≤ k < MAXFILE) as Hk by (unfold k, l in *; rewrite EM, EB in *; zdm).
  assert (takes (m_img s) x k = need (l + n1) - need l) as Ht.
  { apply (takes_need (m_img s) (set_size l x) (freeblock s) c n1 Hf); [exact (conj (proj1 (proj1 Hn1)) (proj2 Hn1))|apply Hk]. }
  destruct Hf as [P Hsz He Hi Hb]. assert (placed (freeblock s) (m_img s) x) as P' by (destruct P; by constructor).
  destruct (find_block_ok s x k K P' Hk ltac:(lia)) as (x' & s1 & E1 & [[M1 B1] Hne Hct Hel Hin]).
  pose proof (mv_ok _ _ _ _ M1) as K1. pose proof (mv_placed _ _ _ _ M1) as P1. destruct (blk_at_ok s1 x' k K1 P1 Hk) as [Hbl Hbb].
  assert (m_img s1 (own (m_img s1) x' k) = blk_at (m_img s1) x' k) as Eb by (unfold blk_at; by rewrite (proj2 (Z.eqb_neq _ 0))).
  assert (length t = Z.to_nat n1) as Htl by (apply length_take_le; lia).
  set (blk := splice (Z.to_nat (l mod BSIZE)) t (blk_at (m_img s1) x' k)).
  destruct (poke_moved s1 x' k blk K1 P1 Hk Hne) as (M2 & Ho2 & B2).
  { unfold blk. split; [rewrite length_splice; [done|rewrite Htl; rewrite EB in *; zdm]|]. apply bytes_splice; [done|by apply Forall_take]. }
  set (s2 := put_block (own (m_img s1) x' k) blk s1) in *. exists x', s2.
  assert (nmeta ≤ own (m_img s1) x' k < freeblock s1) as Hr by (destruct (pl_own _ _ _ P1 k); [lia|done|done]).
  assert (0 < nmeta) as Hm by done. pose proof (mk_fb _ K1) as Hfb1. split; [|split; [by eapply moved_trans|split]].
  - unfold iappend_body. rewrite (proj2 (Z.leb_gt _ 0)) by lia. fold k. unfold assert_. rewrite (proj2 (Z.ltb_lt k MAXFILE)) by lia. msimpl.
    rewrite E1. cbn [res_bind]. rewrite rsect_ok by (done || lia). cbn [res_bind]. rewrite wsect_ok by (done || lia). cbn [res_bind].
    assert ((k + 1) * BSIZE - l = BSIZE - l mod BSIZE) as -> by (unfold k; rewrite EB; zdm). fold (chunk l (Z.of_nat (length p))). fold n1.
    rewrite Eb, u32_id by (unfold l in *; rewrite EM, EB in *; lia).
    assert (l - k * BSIZE = l mod BSIZE) as -> by (unfold k; rewrite EB; zdm). done.
  - assert (Z.of_nat (length (c ++ t)) = l + n1) as Hl by (rewrite length_app, Htl; unfold l; lia).
    constructor; rewrite ?Hl.
    + pose proof (mv_placed _ _ _ _ M2) as []. by constructor.
    + split; [done|]. lia.
    + intros j Hj. change (own (m_img s2) (set_size (l + n1) x') j) with (own (m_img s2) x' j). rewrite Ho2 by lia.
      destruct (decide (j = k)) as [->|Hjk].
      * split; [done|]. unfold k. rewrite EB in *. zdm.
      * rewrite Hel by done. change (own (m_img s) x j) with (own (m_img s) (set_size l x) j). rewrite He by done. fold l.
        unfold k in Hjk. rewrite EB in *. zdm.
    + change (addr_at NDIRECT (set_size (l + n1) x')) with (addr_at NDIRECT x'). rewrite Hin.
      change (addr_at NDIRECT x) with (addr_at NDIRECT (set_size l x)). rewrite Hi. fold l. unfold k. rewrite EN, EB in *. zdm.
    + apply (append_bytes (m_img s1) x' (m_img s2) (set_size (l + n1) x') c t); fold l k; [|done|lia|exact B2].
      intros j Hj. rewrite B1 by (rewrite EM, EB in *; zdm). by apply Hb.
  - cbn. lia.
Qed.

Lemma iappend_loop fuel : ∀ s x c p, let l := Z.of_nat (length c) in let e := l + Z.of_nat (length p) in
  mk_ok s → holds_file (freeblock s) (m_img s) (set_size l x) c → bytes p → e ≤ MAXFILE * BSIZE →
  freeblock s + need e - need l ≤ FSSIZE → (rounds l (Z.of_nat (length p)) < fuel)%nat →
  ∃ x' s', loop fuel iappend_body (x, l, p) s = Ret (x', e) s' ∧ moved s x s' x' ∧
    holds_file (freeblock s') (m_img s') (set_size e x') (c ++ p) ∧ freeblock s' = freeblock s + need e - need l.
Proof.
  induction fuel as [|fuel IH]; intros s x c p l e K Hf Hby He Hr Hfu; [lia|]. destruct (decide (p = [])) as [->|Hp].
  { exists x, s. assert (e = l) as Ee by (unfold e; cbn; lia). rewrite Ee, app_nil_r. split; [by apply loop_done|].
    split; [apply moved_refl; [done|]; destruct (hf_placed _ _ _ _ Hf); by constructor|]. split; [done|lia]. }
  assert (0 < length p)%nat as Hpl by (destruct p; [done|cbn; lia]).
  destruct (rounds_step l (Z.of_nat (length p)) ltac:(lia) ltac:(lia)) as [Er Hc]. set (n1 := chunk l (Z.of_nat (length p))) in *.
  assert (length (drop (Z.to_nat n1) p) = (length p - Z.to_nat n1)%nat) as Hdl by apply length_drop.
  assert (Z.of_nat (length (c ++ take (Z.to_nat n1) p)) = l + n1) as Hl1 by (rewrite length_app, length_take_le; unfold l; lia).
  assert (l + n1 + Z.of_nat (length (drop (Z.to_nat n1) p)) = e) as He1 by (unfold e; lia).
  pose proof (need_mono (l + n1) e ltac:(unfold e; lia)) as Hn.
  destruct (iappend_step s x c p K Hf Hp Hby He) as (x1 & s1 & E1 & M1 & F1 & C1).
  { fold l n1. lia. }
  fold l n1 in E1, F1, C1.
  rewrite (loop_next _ _ _ _ _ _ E1).
  destruct (IH s1 x1 (c ++ take (Z.to_nat n1) p) (drop (Z.to_nat n1) p)) as (x' & s' & E' & M' & F' & C').
  - apply M1.
  - by rewrite Hl1.
  - by apply Forall_drop.
  - rewrite Hl1, He1. done.
  - rewrite Hl1, He1. lia.
  - rewrite Hl1, Hdl, Nat2Z.inj_sub, Z2Nat.id by lia. lia.
  - rewrite Hl1, He1 in *. exists x', s'. split; [done|]. split; [by eapply moved_trans|]. rewrite <- app_assoc, take_drop in F'. split; [done|lia].
Qed.
