(* ===== verification/MkfsProps.v ===== *)
(** The image that mkfs builds: every file given on the command line is in it with its
    contents, no block is used twice, and the bitmap marks exactly the blocks in use. *)

From stdpp Require Import functions.
From S2P Require Import Prelude Bytes Sleeplock Bio BioInv Log LogInv LogCrash LogProps Store StoreLog Fs Dir FsBlock FsAlloc Dinode FsFile FsRead FsWrite FsFileProps FsInode FsDir Mkfs MkfsInv.

Implicit Types (d : Z → list Z) (x : dinode).

(** Inode [i] on an image. *)
Definition dinode_at d (i : Z) : dinode := get_dinode (dinode_off i) (d (IBLOCK i the_sb)).

(** Blocks of all files. *)
Definition total (fs : list (Z * list Z)) : Z := foldr (λ f n, need (Z.of_nat (length f.2)) + n) 0 fs.

(** The files of the image in the order of their inodes, from 1 on: type and contents. *)
Record image (s : mkfs) (fs : list (Z * list Z)) : Prop := {
  im_ok : mk_ok s;
  im_ino : freeinode s = Z.of_nat (length fs) + 1 ∧ Z.of_nat (length fs) < NINODES;
  im_file : ∀ i t c, fs !! i = Some (t, c) → let x := dinode_at (m_img s) (Z.of_nat i + 1) in
    holds_file (freeblock s) (m_img s) x c ∧ dinode_ok x ∧ d_type x = t ∧ d_nlink x = 1;
  im_disj : ∀ i j k l, (i < length fs)%nat → (j < length fs)%nat → i ≠ j → 0 ≤ k ≤ MAXFILE → 0 ≤ l ≤ MAXFILE →
    let own i := own (m_img s) (dinode_at (m_img s) (Z.of_nat i + 1)) in own i k ≠ 0 → own i k ≠ own j l;
  im_count : freeblock s = nmeta + total fs;
  im_unused : ∀ i, Z.of_nat (length fs) < i < 208 → d_type (dinode_at (m_img s) i) = 0;
  im_meta : ∀ b, 0 < b < 32 ∨ b = 45 → m_img s b = if b =? 1 then sb_block else zeroes;
}.

Lemma total_cons f fs : total (f :: fs) = need (Z.of_nat (length f.2)) + total fs.
Proof. done. Qed.

Lemma total_app fs gs : total (fs ++ gs) = total fs + total gs.
Proof. induction fs as [|f fs IH]; [done|]. cbn [app]. rewrite !total_cons. lia. Qed.

Lemma total_insert fs i f g : fs !! i = Some f → total (<[i := g]> fs) = total fs + need (Z.of_nat (length g.2)) - need (Z.of_nat (length f.2)).
Proof.
  revert i. induction fs as [|h fs IH]; intros [|i] E; try done.
  - injection E as ->. change (<[0%nat := g]> (f :: fs)) with (g :: fs). rewrite !total_cons. lia.
  - change (<[S i := g]> (h :: fs)) with (h :: <[i := g]> fs). rewrite !total_cons, (IH i E). lia.
Qed.

Lemma need_nonneg n : 0 ≤ n → 0 ≤ need n.
Proof. intros Hn. unfold need. change BSIZE with 1024. destruct (_ <? _); zdm. Qed.

(** * Inodes *)

Lemma iblock_range i : 0 ≤ i < 208 → 32 ≤ IBLOCK i the_sb < 45.
Proof. intros Hi. unfold IBLOCK. change IPB with 16. change (inodestart the_sb) with 32. zdm. Qed.

Lemma rinode_ok s i : mk_ok s → 0 ≤ i < 208 → rinode i s = Ret (dinode_at (m_img s) i) s.
Proof.
  intros K Hi. pose proof (iblock_range i Hi). destruct fssize_val. unfold rinode. msimpl. rewrite rsect_ok by (done || lia). done.
Qed.

Definition put_inode (i : Z) x (s : mkfs) : mkfs :=
  put_block (IBLOCK i the_sb) (put_dinode (dinode_off i) x (m_img s (IBLOCK i the_sb))) s.

Lemma winode_ok s i x : mk_ok s → 0 ≤ i < 208 → dinode_ok x → winode i x s = Ret tt (put_inode i x s) ∧ mk_ok (put_inode i x s).
Proof.
  intros K Hi Hx. pose proof (iblock_range i Hi). destruct fssize_val as [EF EN]. pose proof (mk_fb _ K).
  destruct (mk_blk _ K (IBLOCK i the_sb) ltac:(lia)) as [Hl Hb]. pose proof (dinode_off_bound i). change BSIZE with 1024 in Hl. split.
  - unfold winode. msimpl. rewrite rsect_ok by (done || lia). cbn [res_bind]. by rewrite wsect_ok by (done || lia).
  - apply img_put_ok; [done|lia|]. split; [by rewrite length_put_dinode by (done || lia)|by apply bytes_put_dinode].
Qed.

Lemma dinode_at_put s i x j : mk_ok s → 0 ≤ i < 208 → 0 ≤ j < 208 → dinode_ok x →
  dinode_at (m_img (put_inode i x s)) j = if decide (j = i) then x else dinode_at (m_img s) j.
Proof.
  intros K Hi Hj Hx. pose proof (iblock_range i Hi). destruct fssize_val as [EF EN]. pose proof (dinode_off_bound i).
  destruct (mk_blk _ K (IBLOCK i the_sb) ltac:(lia)) as [Hl _]. change BSIZE with 1024 in Hl.
  unfold dinode_at, put_inode. cbn [m_img put_block]. case_decide as E.
  - subst j. rewrite fn_lookup_insert. apply get_put_dinode; (done || lia).
  - destruct (decide (IBLOCK j the_sb = IBLOCK i the_sb)) as [Eb|Eb]; [|by rewrite fn_lookup_insert_ne by congruence].
    rewrite Eb, fn_lookup_insert. apply get_dinode_other; [lia|done|]. apply dinode_off_apart.
    unfold IBLOCK in Eb. change IPB with 16 in *. zdm.
Qed.

(** A file whose blocks have not changed. *)
Lemma holds_file_frame fb fb' d d' x c :
  fb ≤ fb' → (∀ k, 0 ≤ k ≤ MAXFILE → own d x k ≠ 0 → d' (own d x k) = d (own d x k)) → holds_file fb d x c →
  holds_file fb' d' x c ∧ ∀ k, 0 ≤ k ≤ MAXFILE → own d' x k = own d x k.
Proof.
  intros Hfb Hd [P H1 H2 H3 H4]. destruct maxfile_val as (EM & EN & _ & EB).
  assert (∀ k, 0 ≤ k ≤ MAXFILE → own d' x k = own d x k) as Ho.
  { intros k Hk. destruct (decide (0 ≤ k < NDIRECT)); [by rewrite !own_dir by lia|]. destruct (decide (k = MAXFILE)) as [->|]; [by rewrite !own_ind|].
    rewrite (own_entry d'), (own_entry d) by lia. destruct (Z.eqb_spec (addr_at NDIRECT x) 0) as [|Hne]; [done|].
    specialize (Hd MAXFILE). rewrite own_ind in Hd. by rewrite Hd by (done || lia). }
  split; [|done]. constructor; try done.
  - destruct P as [P1 P2 P3]. constructor; [done| |].
    + intros k Hk. rewrite Ho by done. destruct (P2 k Hk); [by left|right; lia].
    + intros k j Hk Hj. rewrite !Ho by done. by apply P3.
  - intros k Hk. rewrite Ho by lia. by apply H2.
  - intros j Hj. rewrite <- H4 by done. assert (0 ≤ j / BSIZE < MAXFILE) as Hk by (rewrite EM, EB in *; zdm).
    unfold blk_at. rewrite Ho by lia. destruct (Z.eqb_spec (own d x (j / BSIZE)) 0); [done|]. by rewrite Hd by (done || lia).
Qed.

(** * One file changes, the others do not *)

Section change.
Context (s s1 : mkfs) (fs : list (Z * list Z)) (i : nat) (x x2 : dinode).
Hypothesis I : image s fs.
Hypothesis Hi : 0 ≤ Z.of_nat i + 1 < 208.
Hypothesis K1 : mk_ok s1.
Hypothesis Hx2 : dinode_ok x2.
Hypothesis Hfb : freeblock s ≤ freeblock s1.
Hypothesis Hfr : ∀ b, 0 < b < freeblock s → (∀ j, 0 ≤ j ≤ MAXFILE → own (m_img s) x j ≠ b) → m_img s1 b = m_img s b.
Hypothesis Hx : ∀ k, 0 ≤ k ≤ MAXFILE → own (m_img s) x k = 0 ∨ nmeta ≤ own (m_img s) x k < freeblock s.
Hypothesis Hdis : ∀ j k l, (j < length fs)%nat → j ≠ i → 0 ≤ k ≤ MAXFILE → 0 ≤ l ≤ MAXFILE →
  let o := own (m_img s) (dinode_at (m_img s) (Z.of_nat j + 1)) k in o ≠ 0 → o ≠ own (m_img s) x l.

Let s2 := put_inode (Z.of_nat i + 1) x2 s1.

Lemma change_low b : 0 < b < nmeta → m_img s1 b = m_img s b.
Proof.
  intros Hb. pose proof (mk_fb _ (im_ok _ _ I)). apply Hfr; [lia|]. intros j Hj. destruct (Hx j Hj); lia.
Qed.

Lemma change_dinode j : 0 ≤ j < 208 → j ≠ Z.of_nat i + 1 → dinode_at (m_img s2) j = dinode_at (m_img s) j.
Proof.
  intros Hj Hn. unfold s2. rewrite dinode_at_put, decide_False by done. unfold dinode_at. rewrite change_low; [done|].
  pose proof (iblock_range j Hj). destruct fssize_val. lia.
Qed.

Lemma change_other j t c : fs !! j = Some (t, c) → j ≠ i → let y := dinode_at (m_img s) (Z.of_nat j + 1) in
  dinode_at (m_img s2) (Z.of_nat j + 1) = y ∧ holds_file (freeblock s2) (m_img s2) y c ∧
  ∀ k, 0 ≤ k ≤ MAXFILE → own (m_img s2) y k = own (m_img s) y k.
Proof.
  intros E Hn y. pose proof (lookup_lt_Some _ _ _ E) as Hj. destruct (im_ino _ _ I) as [_ Hni]. change NINODES with 200 in Hni.
  destruct (im_file _ _ I _ _ _ E) as (Hf & _). fold y in Hf. destruct fssize_val as [EF EN]. pose proof (iblock_range _ Hi).
  split; [apply change_dinode; lia|]. apply (holds_file_frame (freeblock s) _ (m_img s)); [done| |done]. intros k Hk Hne.
  destruct (pl_own _ _ _ (hf_placed _ _ _ _ Hf) k Hk) as [|Hr]; [done|]. unfold s2, put_inode. cbn [m_img put_block].
  rewrite fn_lookup_insert_ne by lia. apply Hfr; [lia|]. intros l Hl E'. by apply (Hdis j k l Hj Hn Hk Hl Hne).
Qed.

Lemma change_meta b : 0 < b < 32 ∨ b = 45 → m_img s2 b = m_img s b.
Proof.
  intros Hb. pose proof (iblock_range _ Hi). unfold s2, put_inode. cbn [m_img put_block]. rewrite fn_lookup_insert_ne by lia.
  apply change_low. destruct fssize_val. lia.
Qed.
End change.

Lemma set_size_id x : set_size (d_size x) x = x.
Proof. by destruct x. Qed.

Lemma moved_dinode_ok s x s' x' n : moved s x s' x' → dinode_ok x → 0 ≤ n < 2 ^ 32 → dinode_ok (set_size n x').
Proof.
  intros M [H1 H2 H3 H4 H5 H6 H7] Hn. pose proof (mv_same _ _ _ _ M) as E. pose proof (mv_placed _ _ _ _ M) as [P1 P2 P3].
  pose proof (mk_fb _ (mv_ok _ _ _ _ M)) as Hfb. destruct fssize_val as [EF EM0]. destruct maxfile_val as (EM & EN & _).
  constructor; try (rewrite E; done). cbn [d_addrs set_size].
  apply Forall_lookup. intros i a Hi. assert (i < 13)%nat as Hb by (rewrite <- P1; by eapply lookup_lt_Some).
  assert (a = addr_at (Z.of_nat i) x') as Ea by (unfold addr_at; by rewrite Nat2Z.id, nth_lookup, Hi).
  assert (∃ k, 0 ≤ k ≤ MAXFILE ∧ own (m_img s') x' k = a) as (k & Hk & Ek).
  { destruct (decide (i = 12%nat)) as [->|Hne].
    - exists MAXFILE. split; [lia|]. rewrite own_ind, Ea. done.
    - exists (Z.of_nat i). split; [lia|]. by rewrite own_dir by lia. }
  destruct (P2 k Hk); lia.
Qed.

(** The changed file in its place, new ([i] is the number of files) or old. *)
Lemma image_change s s1 fs gs i x x2 t c :
  image s fs → 0 ≤ Z.of_nat i + 1 < 201 → mk_ok s1 → dinode_ok x2 → freeblock s ≤ freeblock s1 →
  (∀ b, 0 < b < freeblock s → (∀ j, 0 ≤ j ≤ MAXFILE → own (m_img s) x j ≠ b) → m_img s1 b = m_img s b) →
  (∀ k, 0 ≤ k ≤ MAXFILE → own (m_img s) x k = 0 ∨ nmeta ≤ own (m_img s) x k < freeblock s) →
  (∀ j k l, (j < length fs)%nat → j ≠ i → 0 ≤ k ≤ MAXFILE → 0 ≤ l ≤ MAXFILE →
     let o := own (m_img s) (dinode_at (m_img s) (Z.of_nat j + 1)) k in o ≠ 0 → o ≠ own (m_img s) x l) →
  (∀ k, 0 ≤ k ≤ MAXFILE → own (m_img s1) x2 k = own (m_img s) x k ∨ own (m_img s) x k = 0 ∧ freeblock s ≤ own (m_img s1) x2 k) →
  holds_file (freeblock s1) (m_img s1) x2 c → d_type x2 = t → d_nlink x2 = 1 →
  gs !! i = Some (t, c) → (∀ j, j ≠ i → gs !! j = fs !! j) → (length fs ≤ length gs)%nat →
  freeinode s1 = Z.of_nat (length gs) + 1 → Z.of_nat (length gs) < NINODES → freeblock s1 = nmeta + total gs →
  image (put_inode (Z.of_nat i + 1) x2 s1) gs.
Proof.
  intros I Hi K1 Hx2 Hfb Hfr Hx Hdis Ho Hf Ht Hl Gi Gj Hlen E1 Hn E2. change NINODES with 200 in Hn. set (s2 := put_inode _ _ _).
  pose proof (mk_fb _ (im_ok _ _ I)) as Hfb0. destruct fssize_val as [EF EN]. pose proof (iblock_range (Z.of_nat i + 1) ltac:(lia)) as Hib.
  assert (dinode_at (m_img s2) (Z.of_nat i + 1) = x2) as Di by (unfold s2; rewrite dinode_at_put, decide_True by (done || lia); done).
  pose proof (change_other s s1 fs i x x2 I ltac:(lia) K1 Hx2 Hfb Hfr Hx Hdis) as Hch. cbv zeta in Hch. fold s2 in Hch.
  destruct (holds_file_frame (freeblock s1) (freeblock s2) (m_img s1) (m_img s2) x2 c) as [Hf2 Ho2]; [done| |done|].
  { intros k Hk Hne. destruct (pl_own _ _ _ (hf_placed _ _ _ _ Hf) k Hk) as [|Hr]; [done|]. unfold s2, put_inode. cbn [m_img put_block].
    by rewrite fn_lookup_insert_ne by lia. }
  assert (∀ k, 0 ≤ k ≤ MAXFILE → own (m_img s2) x2 k = own (m_img s) x k ∨ own (m_img s) x k = 0 ∧ freeblock s ≤ own (m_img s2) x2 k) as Ho'.
  { intros k Hk. rewrite Ho2 by done. by apply Ho. }
  constructor.
  - unfold s2. apply winode_ok; (done || lia).
  - split; [done|]. change NINODES with 200. lia.
  - intros j t' c' Ej. destruct (decide (j = i)) as [->|Hji].
    + rewrite Gi in Ej. injection Ej as <- <-. cbv zeta. rewrite Di. done.
    + rewrite Gj in Ej by done. destruct (Hch j t' c' Ej Hji) as (-> & Hfj & _). destruct (im_file _ _ I _ _ _ Ej) as (_ & ?). done.
  - intros a b k l Ha Hb Hab Hk Hl'. cbv zeta. destruct (lookup_lt_is_Some_2 gs a Ha) as [[ta ca] Ea]. destruct (lookup_lt_is_Some_2 gs b Hb) as [[tb cb] Eb].
    assert (∀ j tj cj, gs !! j = Some (tj, cj) → j ≠ i → (j < length fs)%nat ∧ fs !! j = Some (tj, cj)) as Hg.
    { intros j tj cj Ej Hj. rewrite Gj in Ej by done. split; [by eapply lookup_lt_Some|done]. }
    assert (∀ j tj cj k, gs !! j = Some (tj, cj) → 0 ≤ k ≤ MAXFILE → j ≠ i → own (m_img s) (dinode_at (m_img s) (Z.of_nat j + 1)) k < freeblock s) as Hlt.
    { intros j tj cj k' Ej Hk' Hj. destruct (Hg _ _ _ Ej Hj) as [_ Ej']. destruct (im_file _ _ I _ _ _ Ej') as (Hfj & _).
      destruct (pl_own _ _ _ (hf_placed _ _ _ _ Hfj) k' Hk'); lia. }
    destruct (decide (a = i)) as [->|Hai], (decide (b = i)) as [->|Hbi]; [done| | |].
    + destruct (Hg _ _ _ Eb Hbi) as [Hb' Eb']. destruct (Hch _ _ _ Eb' Hbi) as (Db & _ & Ob). rewrite Db, Ob by done. rewrite Di. specialize (Hlt _ _ _ l Eb Hl' Hbi).
      destruct (Ho' k Hk) as [->|[_ Hge]]; [|lia]. intros Hne E. eapply (Hdis b l k); [done..| |done]. congruence.
    + destruct (Hg _ _ _ Ea Hai) as [Ha' Ea']. destruct (Hch _ _ _ Ea' Hai) as (Da & _ & Oa). rewrite Da, Oa by done. rewrite Di. specialize (Hlt _ _ _ k Ea Hk Hai).
      intros Hne. destruct (Ho' l Hl') as [->|[_ Hge]]; [by apply Hdis|lia].
    + destruct (Hg _ _ _ Ea Hai) as [Ha' Ea']. destruct (Hch _ _ _ Ea' Hai) as (Da & _ & Oa). rewrite Da, Oa by done.
      destruct (Hg _ _ _ Eb Hbi) as [Hb' Eb']. destruct (Hch _ _ _ Eb' Hbi) as (Db & _ & Ob). rewrite Db, Ob by done. by apply (im_disj _ _ I).
  - done.
  - intros j Hj. rewrite (change_dinode s s1 fs i x x2); try done; try lia; [apply (im_unused _ _ I); lia|].
    intros ->. assert (i < length gs)%nat by (by eapply lookup_lt_Some). lia.
  - intros b Hb. rewrite (change_meta s s1 fs i x x2); try done; try lia. by apply (im_meta _ _ I).
Qed.

(** * Appending and new inodes *)

Lemma iappend_image s fs i t c p (e := Z.of_nat (length c) + Z.of_nat (length p)) :
  image s fs → fs !! i = Some (t, c) → bytes p → e ≤ MAXFILE * BSIZE →
  freeblock s + need e - need (Z.of_nat (length c)) ≤ FSSIZE →
  ∃ s', iappend (Z.of_nat i + 1) p s = Ret tt s' ∧ image s' (<[i := (t, c ++ p)]> fs).
Proof.
  intros I Ei Hby He Hr. pose proof (im_ok _ _ I) as K. destruct (im_ino _ _ I) as [En Hn]. change NINODES with 200 in Hn.
  pose proof (lookup_lt_Some _ _ _ Ei) as Hi. destruct (im_file _ _ I _ _ _ Ei) as (Hf & Hd & Hty & Hnl). destruct maxfile_val as (EM & _ & _ & EB).
  set (x := dinode_at (m_img s) (Z.of_nat i + 1)) in *. pose proof (proj1 (hf_size _ _ _ _ Hf)) as Hsz.
  unfold iappend. msimpl. rewrite rinode_ok by (done || lia). cbn [res_bind]. fold x. rewrite Hsz.
  destruct (iappend_loop (length p / 1024 + 3) s x c p) as (x1 & s1 & E1 & M1 & F1 & C1); try done.
  { rewrite <- Hsz, set_size_id. done. }
  { pose proof (rounds_bound (Z.of_nat (length c)) (Z.of_nat (length p)) ltac:(lia) ltac:(lia)). change BSIZE with 1024 in *.
    pose proof (Nat2Z.inj_div (length p) 1024) as Hdv. change (Z.of_nat 1024) with 1024 in Hdv. lia. }
  fold e in E1, F1, C1. rewrite E1. cbn [res_bind].
  assert (dinode_ok (set_size e x1)) as Hd1 by (apply (moved_dinode_ok s x s1); [done|done|rewrite EM, EB in He; unfold e in *; lia]).
  destruct (winode_ok s1 (Z.of_nat i + 1) (set_size e x1) (mv_ok _ _ _ _ M1) ltac:(lia) Hd1) as [-> _].
  eexists. split; [done|]. pose proof (hf_placed _ _ _ _ Hf) as Hp. pose proof (mv_same _ _ _ _ M1) as Es.
  apply (image_change s s1 fs _ i x (set_size e x1) t (c ++ p)); try done.
  - lia.
  - apply M1.
  - apply M1.
  - intros b Hb. apply (mv_frame _ _ _ _ M1). lia.
  - apply Hp.
  - intros j k l Hj Hji Hk Hl. apply (im_disj _ _ I); done.
  - apply M1.
  - rewrite Es. done.
  - rewrite Es. done.
  - by apply list_lookup_insert_eq.
  - intros j Hj. by apply list_lookup_insert_ne.
  - by rewrite length_insert.
  - rewrite length_insert. by rewrite (proj1 (mv_ino _ _ _ _ M1)).
  - by rewrite length_insert.
  - rewrite (total_insert _ _ _ _ Ei), C1, (im_count _ _ I). cbn [snd]. rewrite length_app, Nat2Z.inj_add. fold e. lia.
Qed.

Lemma nth_zeros n k : nth k (replicate n 0) 0 = 0.
Proof. rewrite nth_lookup. destruct (replicate n 0 !! k) eqn:E; [|done]. by apply lookup_replicate in E as [-> _]. Qed.

Lemma ialloc_image s fs t :
  image s fs → Z.of_nat (length fs) + 1 < NINODES → - 2 ^ 15 ≤ t < 2 ^ 15 →
  ∃ s', ialloc t s = Ret (Z.of_nat (length fs) + 1) s' ∧ image s' (fs ++ [(t, [])]).
Proof.
  intros I Hn Ht. pose proof (im_ok _ _ I) as K. destruct (im_ino _ _ I) as [En _]. change NINODES with 200 in Hn.
  destruct maxfile_val as (EM & EN & _ & EB). pose proof (mk_fb _ K) as Hfb.
  set (x := Dinode t 0 0 1 0 (replicate 13 0)). set (s1 := set_freeinode (Z.of_nat (length fs) + 1 + 1) s).
  assert (mk_ok s1) as K1 by (destruct K; by constructor).
  assert (dinode_ok x) as Hx by (constructor; cbn; try lia; by repeat constructor).
  assert (∀ k, addr_at k x = 0) as Ha by (intros k; unfold addr_at; cbn [d_addrs x]; apply nth_zeros).
  assert (∀ d k, 0 ≤ k ≤ MAXFILE → own d x k = 0) as Ho.
  { intros d k Hk. destruct (decide (0 ≤ k < NDIRECT)); [by rewrite own_dir, Ha by lia|]. destruct (decide (k = MAXFILE)) as [->|]; [by rewrite own_ind, Ha|].
    rewrite own_entry, Ha by lia. done. }
  unfold ialloc. msimpl. rewrite En, u32_id by lia. fold s1 x.
  destruct (winode_ok s1 (Z.of_nat (length fs) + 1) x K1 ltac:(lia) Hx) as [-> _]. cbn [res_bind]. eexists. split; [done|].
  apply (image_change s s1 fs _ (length fs) x x t []); try done.
  - lia.
  - intros k Hk. left. by apply Ho.
  - intros j k l Hj Hji Hk Hl. cbv zeta. rewrite (Ho _ l) by done. done.
  - intros k Hk. left. by rewrite !Ho.
  - constructor; cbn [length]; try done.
    + constructor; [done| |]; intros k; intros; rewrite Ho in *; (done || by left).
    + intros k Hk. rewrite Ho by lia. rewrite EB. lia.
    + intros j Hj. unfold blk_at. rewrite Ho by (rewrite EM, EB in *; zdm). change (0 =? 0) with true. cbv iota. unfold zeroes. rewrite nth_zeros. by destruct (Z.to_nat j).
  - rewrite lookup_app_r, Nat.sub_diag by lia. done.
  - intros j Hj. destruct (decide (j < length fs)%nat); [by rewrite lookup_app_l|]. rewrite lookup_app_r by lia. rewrite lookup_ge_None_2 by (cbn; lia). symmetry. apply lookup_ge_None_2. lia.
  - rewrite length_app. lia.
  - cbn. rewrite length_app. cbn. lia.
  - rewrite length_app. cbn. change NINODES with 200. lia.
  - rewrite total_app. cbn. rewrite (im_count _ _ I). change (need (Z.of_nat 0)) with 0. lia.
Qed.

(** * The files on the command line *)

Definition host_data (h : host_file) : list Z := concat (default [] (h_chunks h)).
Definition host_name (h : host_file) : list Z := strip_ (basename (h_path h)).

(** A file that mkfs accepts: it can be opened, its name has no slash and fits a directory
    entry, and it is not larger than a file can be. *)
Record host_ok (h : host_file) : Prop := {
  ho_path : bytes (h_path h) ∧ existsb (Z.eqb SLASH) (basename (h_path h)) = false;
  ho_name : Z.of_nat (length (host_name h)) ≤ DIRSIZ;
  ho_open : is_Some (h_chunks h);
  ho_data : bytes (host_data h) ∧ Z.of_nat (length (host_data h)) ≤ MAXFILE * BSIZE;
}.

(** The directory: an entry for each file, the inodes in order. *)
Fixpoint entries (n : Z) (hs : list host_file) : list Z :=
  match hs with
  | [] => []
  | h :: hs => dirent n (host_name h) ++ entries (n + 1) hs
  end.
Definition root_dir (hs : list host_file) : list Z := dirent 1 [46] ++ dirent 1 [46; 46] ++ entries 2 hs.
Definition host_files (hs : list host_file) : list (Z * list Z) := (λ h, (T_FILE, host_data h)) <$> hs.
Definition tree (hs : list host_file) : list (Z * list Z) := (T_DIR, root_dir hs) :: host_files hs.

Lemma bytes_dirent n t : bytes t → bytes (dirent n t) ∧ length (dirent n t) = 16%nat.
Proof.
  intros Ht. pose proof (bytes_strncpy (Z.to_nat DIRSIZ) t Ht) as Hb. pose proof (length_strncpy (Z.to_nat DIRSIZ) t) as Hl. unfold dirent. split; [apply Forall_app; split; [apply bytes_le_enc|done]|].
  rewrite length_app, Hl, length_le_enc. done.
Qed.

Lemma bytes_host_name h : host_ok h → bytes (host_name h).
Proof.
  intros [[Hp _] _ _ _]. unfold host_name, strip_, basename. assert (bytes (if strncmp 5 (h_path h) USER_ =? 0 then drop 5 (h_path h) else h_path h)) as Hb.
  { destruct (_ =? 0); [by apply Forall_drop|done]. }
  destruct (hd 0 _ =? UNDERSCORE); [|done]. destruct Hb; [constructor|done].
Qed.

Lemma length_entries n hs : Forall host_ok hs → length (entries n hs) = (16 * length hs)%nat.
Proof.
  intros H. revert n. induction H as [|h hs Hh _ IH]; intros n; [done|]. cbn [entries length]. rewrite length_app, IH.
  rewrite (proj2 (bytes_dirent n _ (bytes_host_name h Hh))). lia.
Qed.

Lemma total_nonneg fs : 0 ≤ total fs.
Proof. induction fs as [|f fs IH]; [done|]. rewrite total_cons. pose proof (need_nonneg (Z.of_nat (length f.2)) ltac:(lia)). lia. Qed.

Lemma iappend_all_image chunks : ∀ s fs i t c,
  image s fs → fs !! i = Some (t, c) → bytes (concat chunks) → Z.of_nat (length (c ++ concat chunks)) ≤ MAXFILE * BSIZE →
  nmeta + total (<[i := (t, c ++ concat chunks)]> fs) ≤ FSSIZE →
  ∃ s', iappend_all (Z.of_nat i + 1) chunks s = Ret tt s' ∧ image s' (<[i := (t, c ++ concat chunks)]> fs).
Proof.
  induction chunks as [|p chunks IH]; intros s fs i t c I Ei Hby Hl Hr; cbn [iappend_all concat] in *.
  { exists s. split; [done|]. by rewrite app_nil_r, list_insert_id. }
  apply Forall_app in Hby as [Hb1 Hb2]. rewrite !length_app in Hl. rewrite (total_insert _ _ _ _ Ei) in Hr. cbn [snd] in Hr. rewrite !length_app in Hr.
  pose proof (need_mono (Z.of_nat (length c) + Z.of_nat (length p)) (Z.of_nat (length c + (length p + length (concat chunks)))) ltac:(lia)) as Hn.
  pose proof (lookup_lt_Some _ _ _ Ei) as Hi.
  destruct (iappend_image s fs i t c p I Ei Hb1) as (s1 & E1 & I1); [lia|rewrite (im_count _ _ I); lia|]. msimpl. rewrite E1. cbn [res_bind].
  destruct (IH s1 (<[i := (t, c ++ p)]> fs) i t (c ++ p) I1) as (s' & E' & I').
  - by apply list_lookup_insert_eq.
  - done.
  - rewrite !length_app. lia.
  - rewrite list_insert_insert_eq, (total_insert _ _ _ _ Ei). cbn [snd]. rewrite !length_app.
    replace (length c + length p + length (concat chunks))%nat with (length c + (length p + length (concat chunks)))%nat by lia. lia.
  - exists s'. split; [done|]. by rewrite list_insert_insert_eq, <- app_assoc in I'.
Qed.

Lemma add_file_image s root fs h (n := Z.of_nat (length fs) + 2) :
  let gs := (T_DIR, root ++ dirent n (host_name h)) :: fs ++ [(T_FILE, host_data h)] in
  image s ((T_DIR, root) :: fs) → host_ok h → n < NINODES → Z.of_nat (length root) + 16 ≤ MAXFILE * BSIZE → nmeta + total gs ≤ FSSIZE →
  ∃ s', add_file ROOTINO h s = Ret tt s' ∧ image s' gs.
Proof.
  intros gs I Hh Hn Hroot Hr. destruct (bytes_dirent n _ (bytes_host_name h Hh)) as [Hdb Hdl]. destruct Hh as [[_ Hsl] Hnm [chunks Hc] [Hby Hlen]].
  assert (host_data h = concat chunks) as Ed by (unfold host_data; by rewrite Hc). rewrite Ed in *.
  unfold gs in Hr. rewrite total_cons, total_app, total_cons in Hr. cbn [snd] in Hr. rewrite length_app, Hdl, Ed in Hr.
  pose proof (need_nonneg (Z.of_nat (length (concat chunks))) ltac:(lia)) as Hnn. change (total []) with 0 in Hr.
  unfold add_file, assert_. rewrite Hsl. cbn [negb]. msimpl. rewrite Hc. fold (host_name h). rewrite (proj2 (Z.leb_le _ _)) by done. cbn [res_bind].
  destruct (ialloc_image s _ T_FILE I) as (s1 & -> & I1); [cbn [length]; lia|unfold T_FILE; lia|]. cbn [res_bind length].
  replace (Z.of_nat (S (length fs)) + 1) with n by lia. cbn [app] in I1.
  destruct (iappend_image s1 _ 0 T_DIR root (dirent n (host_name h)) I1 eq_refl Hdb) as (s2 & E2 & I2).
  { rewrite Hdl. lia. }
  { rewrite (im_count _ _ I1), total_cons, total_app, Hdl. cbn [snd]. change (total [(T_FILE, [])]) with 0.
    replace (Z.of_nat (length root + 16)) with (Z.of_nat (length root) + 16) in Hr by lia. change (Z.of_nat 16) with 16. lia. }
  change ROOTINO with (Z.of_nat 0 + 1). rewrite E2. cbn [res_bind].
  change (<[0%nat := (T_DIR, root ++ dirent n (host_name h))]> ((T_DIR, root) :: fs ++ [(T_FILE, [])]))
    with ((T_DIR, root ++ dirent n (host_name h)) :: fs ++ [(T_FILE, [])]) in I2.
  assert (<[S (length fs) := (T_FILE, [] ++ concat chunks)]> ((T_DIR, root ++ dirent n (host_name h)) :: fs ++ [(T_FILE, [])]) = gs) as Eg.
  { transitivity ((T_DIR, root ++ dirent n (host_name h)) :: <[length fs := (T_FILE, concat chunks)]> (fs ++ [(T_FILE, [])])); [done|].
    unfold gs. f_equal. rewrite insert_app_r_alt, Nat.sub_diag, Ed by lia. done. }
  destruct (iappend_all_image chunks s2 _ (S (length fs)) T_FILE [] I2) as (s3 & E3 & I3).
  - change ((fs ++ [(T_FILE, @nil Z)]) !! length fs = Some (T_FILE, [])). by rewrite lookup_app_r, Nat.sub_diag by lia.
  - done.
  - done.
  - rewrite Eg. unfold gs. rewrite total_cons, total_app, total_cons, Ed. cbn [snd]. rewrite length_app, Hdl. change (total []) with 0. lia.
  - rewrite Eg in I3. exists s3. split; [|done]. by replace (Z.of_nat (S (length fs)) + 1) with n in E3 by lia.
Qed.

Lemma add_files_image hs : ∀ s root fs (n := Z.of_nat (length fs) + 2),
  let gs := (T_DIR, root ++ entries n hs) :: fs ++ host_files hs in
  image s ((T_DIR, root) :: fs) → Forall host_ok hs → Z.of_nat (length fs + length hs) + 1 < NINODES →
  Z.of_nat (length root + 16 * length hs) ≤ MAXFILE * BSIZE → nmeta + total gs ≤ FSSIZE →
  ∃ s', add_files ROOTINO hs s = Ret tt s' ∧ image s' gs.
Proof.
  induction hs as [|h hs IH]; intros s root fs n gs I Hh Hn Hroot Hr; cbn [add_files].
  { exists s. split; [done|]. unfold gs. cbn. by rewrite !app_nil_r. }
  inversion Hh as [|? ? Hh1 Hh2]; subst. destruct (bytes_dirent n _ (bytes_host_name h Hh1)) as [_ Hdl]. pose proof (length_entries (n + 1) hs Hh2) as Hel.
  assert (gs = (T_DIR, (root ++ dirent n (host_name h)) ++ entries (n + 1) hs) :: (fs ++ [(T_FILE, host_data h)]) ++ host_files hs) as Eg.
  { unfold gs, host_files. cbn [entries fmap list_fmap]. by rewrite <- !app_assoc. }
  rewrite Eg in Hr. rewrite !total_cons, !total_app in Hr. cbn [snd] in Hr. rewrite !length_app, Hdl, Hel in Hr. cbn [length] in *.
  pose proof (total_nonneg (host_files hs)) as Hp1.
  pose proof (need_mono (Z.of_nat (length root + 16)) (Z.of_nat (length root + 16 + 16 * length hs)) ltac:(lia)) as Hp2.
  destruct (add_file_image s root fs h I Hh1) as (s1 & E1 & I1); [fold n; lia|lia|rewrite total_cons, total_app; fold n; cbn [snd]; rewrite length_app, Hdl; lia|].
  msimpl. rewrite E1. cbn [res_bind]. fold n in I1.
  assert (Z.of_nat (length (fs ++ [(T_FILE, host_data h)])) + 2 = n + 1) as En by (rewrite length_app; unfold n; cbn; lia).
  destruct (IH s1 (root ++ dirent n (host_name h)) (fs ++ [(T_FILE, host_data h)])) as (s' & E' & I'); rewrite ?En; try done.
  - rewrite length_app. cbn. lia.
  - rewrite length_app, Hdl. lia.
  - rewrite !total_cons, !total_app. cbn [snd]. rewrite !length_app, Hdl, Hel. lia.
  - rewrite En in I'. exists s'. split; [done|]. by rewrite Eg.
Qed.

(** * The empty image *)

Lemma zero_loop n : ∀ i s, 0 ≤ i → i + Z.of_nat n = FSSIZE → m_nsec s ≤ FSSIZE →
  ∃ s', loop (S n) zero_body i s = Ret tt s' ∧ freeinode s' = freeinode s ∧ freeblock s' = freeblock s ∧
    m_nsec s' = (if decide (i < FSSIZE) then FSSIZE else m_nsec s) ∧ ∀ b, m_img s' b = if decide (i ≤ b < FSSIZE) then zeroes else m_img s b.
Proof.
  induction n as [|n IH]; intros i s H0 Hi Hs.
  - exists s. rewrite decide_False by lia. split; [apply loop_done; unfold zero_body; by rewrite (proj2 (Z.ltb_ge _ _)) by lia|].
    split_and!; try done. intros b. by rewrite decide_False by lia.
  - unfold zero_body at 1. set (s1 := Mk (<[i := zeroes]> (m_img s)) (Z.max (m_nsec s) (i + 1)) (freeinode s) (freeblock s)).
    rewrite (loop_next _ _ i (i + 1) s s1).
    2:{ rewrite (proj2 (Z.ltb_lt _ _)) by lia. unfold wsect. msimpl. by rewrite seek_id by lia. }
    destruct (IH (i + 1) s1) as (s' & E & E1 & E2 & E3 & E4); [lia|lia|cbn; lia|]. exists s'. split; [done|]. split; [done|]. split; [done|]. split.
    + rewrite E3, (decide_True (P := i < FSSIZE)) by lia. case_decide; [done|]. cbn. lia.
    + intros b. rewrite E4. cbn. destruct (decide (b = i)) as [->|Hb].
      * rewrite decide_False, decide_True, fn_lookup_insert by lia. done.
      * rewrite fn_lookup_insert_ne by done. destruct (decide (i + 1 ≤ b < FSSIZE)), (decide (i ≤ b < FSSIZE)); (done || lia).
Qed.

Lemma start_image (c : M mkfs unit) :
  ∃ s, (modify (set_freeblock nmeta);; (loop (Z.to_nat FSSIZE + 1) zero_body 0;; (wsect 1 sb_block;; c))) empty_image = c s ∧ image s [].
Proof.
  destruct fssize_val as [EF EN]. set (s0 := set_freeblock nmeta empty_image).
  destruct (zero_loop (Z.to_nat FSSIZE) 0 s0) as (s1 & E & E1 & E2 & E3 & E4); [lia|lia|cbn; lia|].
  exists (put_block 1 sb_block s1). assert (mk_ok s1) as K1.
  { clear E. constructor; rewrite ?E2.
    - rewrite E3. by rewrite decide_True by lia.
    - cbn. lia.
    - intros b Hb. cbn in Hb. by rewrite E4, decide_True by lia.
    - intros b Hb. rewrite E4, decide_True by lia. split; [done|]. apply Forall_replicate. lia. }
  split.
  { msimpl. fold s0. replace (Z.to_nat FSSIZE + 1)%nat with (S (Z.to_nat FSSIZE)) by lia. rewrite E. cbn [res_bind]. clear E. rewrite wsect_ok; [reflexivity|exact K1|lia]. }
  clear E. assert (∀ i, 0 ≤ i < 208 → dinode_at (m_img (put_block 1 sb_block s1)) i = get_dinode (dinode_off i) zeroes) as Hd.
  { intros i Hi. pose proof (iblock_range i Hi). unfold dinode_at. cbn [m_img put_block]. rewrite fn_lookup_insert_ne, E4, decide_True by lia. done. }
  constructor; try done.
  - apply img_put_ok; [done|rewrite E2; cbn; lia|]. split; [done|]. unfold sb_block. repeat (apply Forall_app; split; [apply bytes_le_enc|]). apply Forall_replicate. lia.
  - intros a b k l Ha. cbn in Ha. lia.
  - intros i Hi. rewrite Hd by (cbn in Hi; lia). unfold get_dinode. cbn [d_type]. unfold zeroes, get16, sub. rewrite drop_replicate, take_replicate.
    generalize (2 `min` (Z.to_nat BSIZE - dinode_off i))%nat. intros m. assert (le_dec (replicate m 0) = 0) as ->; [|done].
    induction m as [|m IHm]; [done|]. cbn. lia.
  - intros b Hb. cbn [m_img put_block]. destruct (Z.eqb_spec b 1) as [->|Hn]; [by rewrite fn_lookup_insert|].
    rewrite fn_lookup_insert_ne, E4, decide_True by lia. done.
Qed.

(** * The bitmap *)

Definition bit_of (buf : list Z) (b : nat) : bool := Z.testbit (nth (b / 8) buf 0) (Z.of_nat (b mod 8)).

Lemma mark_bit buf i b : (i / 8 < length buf)%nat → bit_of (mark buf i) b = bool_decide (b = i) || bit_of buf b.
Proof.
  intros Hi. unfold bit_of, mark. rewrite (nth_lookup (<[_ := _]> _)). destruct (decide (b / 8 = i / 8)%nat) as [E|E].
  - rewrite E, list_lookup_insert_eq by done. change (default 0 (Some ?x)) with x. rewrite testbit_lor_bit, orb_comm by lia. f_equal.
    apply bool_decide_ext. pose proof (Nat.div_mod_eq b 8). pose proof (Nat.div_mod_eq i 8). split; [lia|by intros ->].
  - rewrite list_lookup_insert_ne by congruence. rewrite <- nth_lookup, bool_decide_eq_false_2; [done|]. by intros ->.
Qed.

Lemma marks_bits n : Z.of_nat n ≤ 8192 → let buf := foldl mark zeroes (seq 0 n) in
  length buf = 1024%nat ∧ bytes buf ∧ ∀ b, bit_of buf b = bool_decide (b < n)%nat.
Proof.
  induction n as [|n IH]; intros Hn buf.
  - split; [done|]. split; [apply Forall_replicate; lia|]. intros b. rewrite bool_decide_eq_false_2 by lia.
    unfold bit_of, buf, zeroes. cbn [foldl seq]. rewrite nth_zeros. apply Z.testbit_0_l.
  - destruct IH as (Hl & Hb & Ht); [lia|]. unfold buf. rewrite seq_S, foldl_app. cbn [foldl Nat.add]. set (o := foldl mark zeroes (seq 0 n)) in *.
    assert (n / 8 < length o)%nat as Hd by (rewrite Hl; pose proof (Nat.div_mod_eq n 8); lia). split; [|split].
    + unfold mark. by rewrite length_insert.
    + unfold mark. apply Forall_insert; [done|]. assert (0 ≤ nth (n / 8) o 0 < 256) as Hx.
      { rewrite nth_lookup. destruct (o !! (n / 8)%nat) eqn:E; [|cbn; lia]. by apply (proj1 (Forall_lookup _ _) Hb _ _ E). }
      pose proof (Nat.mod_upper_bound n 8 ltac:(lia)) as Hm. apply byte_lor; [done|lia].
    + intros b. rewrite mark_bit, Ht by done. destruct (decide (b = n)) as [->|].
      * rewrite bool_decide_eq_true_2, (bool_decide_eq_true_2 (n < S n)%nat) by lia. done.
      * rewrite (bool_decide_eq_false_2 (b = n)) by done. cbn [orb]. apply bool_decide_ext. lia.
Qed.

(** * main *)

(** What mkfs accepts: good files, as many inodes, as many blocks as there are. *)
Record fits (hs : list host_file) : Prop := {
  ft_files : Forall host_ok hs;
  ft_inodes : Z.of_nat (length hs) + 1 < NINODES;
  ft_blocks : nmeta + total (tree hs) ≤ FSSIZE;
}.

Definition rounded (n : Z) : Z := (n / BSIZE + 1) * BSIZE.

Definition finish (s : mkfs) : mkfs :=
  let x := dinode_at (m_img s) 1 in
  put_block 45 (foldl mark zeroes (seq 0 (Z.to_nat (freeblock s)))) (put_inode 1 (set_size (rounded (d_size x)) x) s).

Lemma length_root hs : Forall host_ok hs → length (root_dir hs) = (16 * (length hs + 2))%nat.
Proof.
  intros Hh. unfold root_dir. rewrite !length_app, length_entries by done.
  rewrite (proj2 (bytes_dirent 1 [46] ltac:(repeat constructor; lia))), (proj2 (bytes_dirent 1 [46; 46] ltac:(repeat constructor; lia))). lia.
Qed.

Lemma root_dinode s hs (x := dinode_at (m_img s) 1) : image s (tree hs) → Forall host_ok hs → Z.of_nat (length hs) + 1 < NINODES →
  holds_file (freeblock s) (m_img s) x (root_dir hs) ∧ d_type x = T_DIR ∧ d_size x = Z.of_nat (length (root_dir hs)) ∧
  0 ≤ d_size x < 4096 ∧ dinode_ok (set_size (rounded (d_size x)) x).
Proof.
  intros I Hh Hn. change NINODES with 200 in Hn. destruct (im_file _ _ I 0%nat T_DIR (root_dir hs) eq_refl) as (Hf & Hd & Ht & _).
  change (Z.of_nat 0 + 1) with 1 in *. fold x in Hf, Hd, Ht. pose proof (proj1 (hf_size _ _ _ _ Hf)) as Hs. pose proof (length_root hs Hh) as Hl.
  assert (0 ≤ d_size x < 4096) as Hr by lia. split; [done|]. split; [done|]. split; [done|]. split; [done|].
  destruct Hd as [H1 H2 H3 H4 H5 H6 H7]. constructor; try done. cbn [d_size set_size]. unfold rounded. change BSIZE with 1024. zdm.
Qed.

Lemma main_image hs : fits hs → ∃ s, image s (tree hs) ∧ main hs empty_image = Ret tt (finish s).
Proof.
  intros [Hh Hn Hr]. destruct maxfile_val as (EM & EN & _ & EB). destruct fssize_val as [EF Em]. unfold main.
  match goal with |- context [wsect 1 sb_block;; ?k] => destruct (start_image k) as (s0 & -> & I0) end. msimpl.
  destruct (ialloc_image s0 [] T_DIR I0) as (s1 & -> & I1); [done|done|]. cbn [res_bind]. change (assert_ _ s1) with (Ret (S := mkfs) tt s1). cbn [res_bind].
  unfold tree, root_dir in Hr. rewrite total_cons in Hr. cbn [snd] in Hr. rewrite app_assoc, length_app in Hr. pose proof (total_nonneg (host_files hs)) as Hp.
  assert (length (dirent 1 [46]) = 16%nat) as L1 by done. assert (length (dirent 1 [46; 46]) = 16%nat) as L2 by done.
  change (Z.of_nat (length []) + 1) with (Z.of_nat 0 + 1). change (dirent (Z.of_nat 0 + 1)) with (dirent 1).
  destruct (iappend_image s1 _ 0 T_DIR [] (dirent 1 [46]) I1 eq_refl) as (s2 & -> & I2); [apply bytes_dirent; repeat constructor; lia|rewrite L1, EM, EB; cbn; lia| |].
  { rewrite (im_count _ _ I1), L1. vm_compute. congruence. }
  cbn [res_bind app] in *. change (<[0%nat := _]> [(T_DIR, [])]) with [(T_DIR, dirent 1 [46])] in I2.
  destruct (iappend_image s2 _ 0 T_DIR (dirent 1 [46]) (dirent 1 [46; 46]) I2 eq_refl) as (s3 & -> & I3); [apply bytes_dirent; repeat constructor; lia|rewrite L1, L2, EM, EB; lia| |].
  { rewrite (im_count _ _ I2), L1, L2. vm_compute. congruence. }
  cbn [res_bind]. change (<[0%nat := _]> [_]) with [(T_DIR, dirent 1 [46] ++ dirent 1 [46; 46])] in I3.
  destruct (add_files_image hs s3 (dirent 1 [46] ++ dirent 1 [46; 46]) [] I3 Hh) as (s4 & E4 & I4).
  { cbn. lia. }
  { rewrite length_app, L1, L2, EM, EB. change NINODES with 200 in Hn. lia. }
  { rewrite total_cons. cbn [snd length Z.of_nat Z.add app]. rewrite length_app. exact Hr. }
  change ROOTINO with (Z.of_nat 0 + 1) in E4. rewrite E4. cbn [res_bind].
  assert (image s4 (tree hs)) as I by (unfold tree, root_dir; by rewrite app_assoc).
  exists s4. split; [done|]. destruct (root_dinode s4 hs I Hh Hn) as (_ & _ & _ & Hsz & Hd). pose proof (mk_fb _ (im_ok _ _ I)) as Hfb.
  unfold fix_root. msimpl. rewrite rinode_ok by (apply I || lia). cbn [res_bind]. change (Z.of_nat 0 + 1) with 1.
  set (x := dinode_at (m_img s4) 1) in *. fold (rounded (d_size x)).
  rewrite u32_id by (unfold rounded; change BSIZE with 1024; zdm).
  destruct (winode_ok s4 1 _ (im_ok _ _ I) ltac:(lia) Hd) as [-> K5]. cbn [res_bind]. unfold balloc, assert_. msimpl. change (freeblock (put_inode _ _ s4)) with (freeblock s4).
  rewrite (proj2 (Z.ltb_lt _ BPB)) by (change BPB with 8192; lia). cbn [res_bind]. change (bmapstart the_sb) with 45. by rewrite wsect_ok by (done || lia).
Qed.

(** * The finished image *)

Lemma finish_data s b : 46 ≤ b → m_img (finish s) b = m_img s b.
Proof.
  intros Hb. pose proof (iblock_range 1 ltac:(lia)). unfold finish, put_inode. cbn [m_img put_block]. by rewrite !fn_lookup_insert_ne by lia.
Qed.

Lemma finish_inode s hs j (x := dinode_at (m_img s) 1) : image s (tree hs) → Forall host_ok hs → Z.of_nat (length hs) + 1 < NINODES → 0 ≤ j < 208 →
  dinode_at (m_img (finish s)) j = if decide (j = 1) then set_size (rounded (d_size x)) x else dinode_at (m_img s) j.
Proof.
  intros I Hh Hn Hj. destruct (root_dinode s hs I Hh Hn) as (_ & _ & _ & _ & Hd). rewrite <- (dinode_at_put s 1) by (apply I || done || lia).
  unfold dinode_at at 1, finish. fold x. cbn [m_img put_block]. pose proof (iblock_range j Hj). by rewrite fn_lookup_insert_ne by lia.
Qed.

Lemma finish_holds s x c : mk_ok s → holds_file (freeblock s) (m_img s) x c → holds_file (freeblock s) (m_img (finish s)) x c.
Proof.
  intros K Hf. apply (holds_file_frame (freeblock s) (freeblock s) (m_img s)); [done| |done]. intros k Hk Hne.
  apply finish_data. destruct (pl_own _ _ _ (hf_placed _ _ _ _ Hf) k Hk) as [|Hr]; [done|]. destruct fssize_val. lia.
Qed.

Lemma disk_bytes fb d x c n : holds_file fb d x c → (length c ≤ n)%nat → Z.of_nat n ≤ MAXFILE * BSIZE →
  (λ k, disk_byte d x (Z.of_nat k)) <$> seq 0 n = c ++ replicate (n - length c) 0.
Proof.
  intros Hf Hl Hn. destruct maxfile_val as (EM & EN & _ & EB). apply list_eq. intros i. rewrite list_lookup_fmap.
  destruct (decide (i < n)%nat) as [Hi|Hi].
  2:{ rewrite lookup_seq_ge by lia. symmetry. apply lookup_ge_None_2. rewrite length_app, length_replicate. lia. }
  rewrite lookup_seq_lt by done. cbn [Nat.add fmap option_fmap option_map].
  assert (disk_byte d x (Z.of_nat i) = nth i c 0) as ->.
  { pose proof (hf_bytes _ _ _ _ Hf (Z.of_nat i) ltac:(lia)) as E. rewrite Nat2Z.id in E. rewrite <- E. unfold disk_byte, blk_at.
    assert (own d x (Z.of_nat i / BSIZE) = disk_addr d x (Z.of_nat i / BSIZE)) as ->.
    { unfold own. rewrite (proj2 (Z.eqb_neq _ _)); [done|]. rewrite EM, EB in *. zdm. }
    cbv zeta. destruct (disk_addr d x (Z.of_nat i / BSIZE) =? 0); [|done]. unfold zeroes. by rewrite nth_zeros. }
  destruct (decide (i < length c)%nat).
  - rewrite lookup_app_l by done. rewrite nth_lookup. by destruct (lookup_lt_is_Some_2 c i) as [y ->].
  - rewrite nth_overflow, lookup_app_r, lookup_replicate_2 by lia. done.
Qed.

Lemma finish_file s hs i h : image s (tree hs) → fits hs → hs !! i = Some h →
  let d := m_img (finish s) in let x := dinode_at d (Z.of_nat i + 2) in
  holds_file (freeblock s) d x (host_data h) ∧ dinode_ok x ∧ d_type x = T_FILE ∧ d_nlink x = 1 ∧ x = dinode_at (m_img s) (Z.of_nat i + 2).
Proof.
  intros I [Hh Hn _] Ei d x. pose proof (lookup_lt_Some _ _ _ Ei) as Hi. change NINODES with 200 in Hn.
  assert (x = dinode_at (m_img s) (Z.of_nat i + 2)) as Ex.
  { unfold x, d. rewrite (finish_inode s hs), decide_False by (done || lia). done. }
  destruct (im_file _ _ I (S i) T_FILE (host_data h)) as (Hf & Hd & Ht & Hl).
  { change (host_files hs !! i = Some (T_FILE, host_data h)). unfold host_files. by rewrite list_lookup_fmap, Ei. }
  replace (Z.of_nat (S i) + 1) with (Z.of_nat i + 2) in * by lia. rewrite <- Ex in *. split; [|done]. apply finish_holds; [apply I|done].
Qed.

(** C24. The image.  For files that can be opened, whose names fit, and that fit on the disk,
    mkfs ends normally, and its image has: the super block; each file, read from the image
    as the kernel lays files out, with the contents it has on the host; the root directory
    with an entry for itself, its parent and each file under its name, and zeros up to a
    block; and the bitmap, which marks the blocks below the first free one and no others. *)
Theorem mkfs_image hs : fits hs →
  ∃ s, main hs empty_image = Ret tt s ∧ let d := m_img s in
    parse_sb (d 1) = the_sb ∧
    (∀ i h, hs !! i = Some h → disk_file the_sb d (Z.of_nat i + 2) = host_data h ∧ d_type (dinode_at d (Z.of_nat i + 2)) = T_FILE) ∧
    d_type (dinode_at d ROOTINO) = T_DIR ∧
    (∃ n, disk_file the_sb d ROOTINO = root_dir hs ++ replicate n 0 ∧ Z.of_nat (length (root_dir hs) + n) = rounded (Z.of_nat (length (root_dir hs)))) ∧
    freeblock s = nmeta + total (tree hs) ∧ ∀ b, bit_of (d 45) b = bool_decide (Z.of_nat b < freeblock s).
Proof.
  intros Hft. pose proof Hft as [Hh Hn Hr]. destruct (main_image hs Hft) as (s & I & E). exists (finish s). split; [exact E|]. clear E.
  pose proof (im_ok _ _ I) as K. pose proof (mk_fb _ K) as Hfb. destruct fssize_val as [EF Em]. cbv zeta. destruct maxfile_val as (EM & EN & _ & EB).
  destruct (root_dinode s hs I Hh Hn) as (Hf0 & Ht0 & Hs0 & Hsz0 & _). set (x := dinode_at (m_img s) 1) in *.
  assert (dinode_at (m_img (finish s)) ROOTINO = set_size (rounded (d_size x)) x) as E1 by (rewrite (finish_inode s hs) by (done || (unfold ROOTINO; lia)); done).
  split; [|split; [|split; [|split; [|split]]]].
  - assert (m_img (finish s) 1 = sb_block) as ->; [|vm_compute; reflexivity].
    pose proof (iblock_range 1 ltac:(lia)). unfold finish, put_inode. cbn [m_img put_block]. rewrite !fn_lookup_insert_ne by lia.
    by rewrite (im_meta _ _ I) by lia.
  - intros i h Ei. destruct (finish_file s hs i h I Hft Ei) as (Hf & _ & Ht & _). split; [|done].
    unfold disk_file. fold (dinode_at (m_img (finish s)) (Z.of_nat i + 2)). destruct (hf_size _ _ _ _ Hf) as [-> Hl]. rewrite Nat2Z.id.
    rewrite (disk_bytes _ _ _ _ _ Hf) by lia. by rewrite Nat.sub_diag, app_nil_r.
  - by rewrite E1.
  - exists (Z.to_nat (rounded (d_size x)) - length (root_dir hs))%nat. unfold rounded in *. rewrite EB in *. split; [|zdm].
    unfold disk_file. fold (dinode_at (m_img (finish s)) ROOTINO). rewrite E1. cbn [d_size set_size].
    apply (disk_bytes (freeblock s) (m_img (finish s)) x); [by apply finish_holds| |rewrite EM, EB]; zdm.
  - apply (im_count _ _ I).
  - intros b. change (freeblock (finish s)) with (freeblock s). destruct (marks_bits (Z.to_nat (freeblock s)) ltac:(lia)) as (_ & _ & Hb).
    unfold finish. cbn [m_img put_block]. rewrite fn_lookup_insert, Hb. apply bool_decide_ext. lia.
Qed.

(** * The kernel on the image *)

Section mount.
Context {S : Type} `{!Store S, !StoreSpec S} (hs : list host_file) (s : mkfs) (st : Fs.fs S).
Hypothesis Hft : fits hs.
Hypothesis I : image s (tree hs).
Hypothesis Hsb : sb st = the_sb.
Hypothesis Hus : ∀ b, 32 ≤ b < FSSIZE → usable b.
Hypothesis Hblk : ∀ b, 32 ≤ b < FSSIZE → blks st b = m_img (finish s) b.

Lemma mount_used b : 0 ≤ b < FSSIZE → used st b = bool_decide (b < freeblock s).
Proof.
  intros Hb. destruct fssize_val as [EF Em]. pose proof (mk_fb _ (im_ok _ _ I)) as Hfb. unfold used. rewrite Hsb.
  assert (BBLOCK b the_sb = 45) as -> by (unfold BBLOCK; change (bmapstart the_sb) with 45; change BPB with 8192; zdm).
  change BPB with 8192. rewrite Z.mod_small by lia. rewrite Hblk by lia.
  destruct (marks_bits (Z.to_nat (freeblock s)) ltac:(lia)) as (_ & _ & Hm). unfold finish. cbn [m_img put_block]. rewrite fn_lookup_insert.
  specialize (Hm (Z.to_nat b)). unfold bit_of in Hm. unfold byte_at. rewrite Z2Nat.inj_div by lia. change (Z.to_nat 8) with 8%nat.
  rewrite Nat2Z.inj_mod, Z2Nat.id in Hm by lia. change (Z.of_nat 8) with 8 in Hm. rewrite Hm. apply bool_decide_ext. lia.
Qed.

Lemma mount_bitmap b : is_bitmap st b → b = 45.
Proof.
  intros (c & Hc & ->). rewrite Hsb in *. change (sb_size the_sb) with 2000 in Hc. unfold BBLOCK.
  change (bmapstart the_sb) with 45. change BPB with 8192. zdm.
Qed.

Lemma mount_alloc : alloc_ok st.
Proof.
  destruct fssize_val as [EF Em]. pose proof (mk_fb _ (im_ok _ _ I)) as Hfb. constructor; rewrite ?Hsb; change (sb_size the_sb) with 2000.
  - lia.
  - intros b ->%mount_bitmap. apply Hus. lia.
  - intros b Hb. rewrite mount_used by lia. intros Hu%bool_decide_eq_false_1. split; [apply Hus; lia|]. intros ->%mount_bitmap. lia.
  - rewrite mount_used by lia. apply bool_decide_eq_true_2. lia.
Qed.

Lemma mount_taken b : 32 ≤ b < freeblock s → b ≠ 45 → taken st b.
Proof.
  intros Hb Hn. destruct fssize_val as [EF Em]. pose proof (mk_fb _ (im_ok _ _ I)) as Hfb. split; [rewrite Hsb; change (sb_size the_sb) with 2000; lia|].
  split; [rewrite mount_used by lia; apply bool_decide_eq_true_2; lia|]. split; [apply Hus; lia|]. by intros ?%mount_bitmap.
Qed.

(** An inode on the image that holds blocks up to its size satisfies the invariant of open
    files. *)
Lemma mount_sound ip n (x := dinode_at (m_img (finish s)) n) :
  (ip < length (inodes st))%nat → idev (ino ip st) = ROOTDEV ∧ inum (ino ip st) = n ∧ idata (ino ip st) = x → 0 ≤ n < 208 →
  placed (freeblock s) (m_img (finish s)) x → dinode_ok x → 0 ≤ d_size x ≤ MAXFILE * BSIZE →
  (∀ k, 0 ≤ k < MAXFILE → k * BSIZE < d_size x → own (m_img (finish s)) x k ≠ 0) → sound ip st.
Proof.
  intros Hip (Ed & En & Em) Hn P Hd Hs He. destruct fssize_val as [EF E46]. destruct maxfile_val as (EM & EN & _ & EB).
  pose proof (mk_fb _ (im_ok _ _ I)) as Hfb. assert (meta ip st = x) as Ex by exact Em.
  assert (∀ k, 0 ≤ k ≤ MAXFILE → faddr ip st k = own (m_img (finish s)) x k) as Hfa.
  { intros k Hk. unfold faddr, iaddr, own, disk_addr. rewrite Ex. destruct (Z.ltb_spec k NDIRECT), (Z.eqb_spec k MAXFILE); try done; [lia|].
    destruct (Z.eqb_spec (addr_at NDIRECT x) 0); [done|]. rewrite Hblk; [done|].
    destruct (pl_own _ _ _ P MAXFILE ltac:(lia)) as [E|E]; rewrite own_ind in E; lia. }
  assert (iblock ip st = IBLOCK n the_sb) as Eib by (unfold iblock; by rewrite En, Hsb). pose proof (iblock_range n Hn) as Hib.
  constructor; [constructor| | |by rewrite Ex].
  - done.
  - done.
  - rewrite Ex. apply P.
  - rewrite Eib. apply mount_taken; lia.
  - intros k Hk. rewrite Hfa, Eib by done. intros Hne. destruct (pl_own _ _ _ P k Hk) as [|Hr]; [done|]. split; [apply mount_taken; lia|lia].
  - intros k j Hk Hj. rewrite !Hfa by done. by apply (pl_inj _ _ _ P).
  - apply mount_alloc.
  - unfold dense. rewrite Ex. split; [lia|]. intros k Hk Hks. rewrite Hfa by (rewrite EM, EB in *; lia). apply He; [rewrite EM, EB in *; lia|done].
Qed.
End mount.

(** * A file to start from *)

(** "_hi" on the host, with the bytes of "hello". *)
Definition one_file : list host_file := [Host [95; 104; 105] (Some [hello])].

Lemma one_file_fits : fits one_file.
Proof.
  constructor; [|done|vm_compute; congruence]. constructor; [|constructor]. constructor.
  - split; [repeat constructor; lia|done].
  - vm_compute. congruence.
  - by eexists.
  - split; [apply hello_bytes|vm_compute; congruence].
Qed.

Lemma mkfs_image_witness : ∃ s, main one_file empty_image = Ret tt s ∧ disk_file the_sb (m_img s) 2 = hello.
Proof.
  destruct (mkfs_image one_file one_file_fits) as (s & E & _ & Hf & _). exists s. split; [exact E|]. clear E.
  destruct (Hf 0%nat _ eq_refl) as [H _]. exact H.
Defined.

Lemma finish_ok s hs : image s (tree hs) → Forall host_ok hs → Z.of_nat (length hs) + 1 < NINODES → mk_ok (finish s).
Proof.
  intros I Hh Hn. pose proof (im_ok _ _ I) as K. pose proof (mk_fb _ K) as Hfb. destruct fssize_val as [EF Em].
  destruct (root_dinode s hs I Hh Hn) as (_ & _ & _ & _ & Hd). destruct (marks_bits (Z.to_nat (freeblock s)) ltac:(lia)) as (Hl & Hb & _).
  apply img_put_ok; [apply winode_ok; (done || lia)|cbn; lia|]. split; [by rewrite Hl|done].
Qed.

(** The disk of the image, started. *)
Lemma image_booted hs : fits hs → ∃ s l, main hs empty_image = Ret tt s ∧ log_ready 1 2 1 l ∅ ∅ ∧ ∀ b, 32 ≤ b < FSSIZE → view (bio l) b = m_img s b.
Proof.
  intros Hft. pose proof Hft as [Hh Hn _]. destruct (main_image hs Hft) as (s & I & E). exists (finish s).
  pose proof (finish_ok s hs I Hh Hn) as K. destruct fssize_val as [EF Em].
  set (d := λ b, if decide (0 ≤ b < FSSIZE) then m_img (finish s) b else zeroes).
  destruct (boot_ready 1 1 2 d) as (s0 & l & _ & _ & R & Hv).
  - lia.
  - intros b. unfold d. case_decide; [by apply K|done].
  - intros b. unfold d. case_decide; [by apply K|apply Forall_replicate; lia].
  - apply (trans_ok_nil 2 [50] trans_50).
  - unfold d. rewrite decide_True by lia. assert (m_img (finish s) 2 = zeroes) as ->; [|apply get32_zeros].
    pose proof (iblock_range 1 ltac:(lia)). unfold finish, put_inode. cbn [m_img put_block]. rewrite !fn_lookup_insert_ne by lia.
    by rewrite (im_meta _ _ I) by lia.
  - exists l. split; [exact E|]. split; [exact R|]. intros b Hb. rewrite Hv; [|unfold in_log, LOGSIZE, MAXOPBLOCKS; lia].
    unfold d. by rewrite decide_True by lia.
Qed.
