(* ===== verification/MkfsBoot.v ===== *)
(** The kernel started on an image of mkfs: the files are a well formed tree, a path leads
    to each of them, and reading it gives the bytes of the host's file. *)

From stdpp Require Import functions.
From S2P Require Import Prelude Bytes Sleeplock Bio BioInv Log LogInv LogCrash LogProps Store StoreLog Fs Dir FsBlock FsAlloc Dinode FsFile FsRead FsWrite FsFileProps.
From S2P Require Import FsInode FsDir FsPath FsLink FsTrunc FsVol Mkfs MkfsInv MkfsProps.

(** * The entries of the root directory *)

Lemma dents_dirent n t : 0 ≤ n < 65536 → dents (dirent n t) = [(n, cname 14 t)].
Proof. apply dents_entry. Qed.

Lemma dents_zeros n e : e ∈ dents (replicate n 0) → e.1 = 0.
Proof.
  intros (k & -> & Hk)%list_elem_of_fmap. cbn [fst dent]. unfold get16, sub. rewrite drop_replicate, take_replicate.
  generalize (2 `min` (n - 16 * k))%nat. intros m. induction m as [|m IH]; [done|]. cbn [replicate le_dec]. lia.
Qed.

(** The entries of the files. *)
Fixpoint file_dents (n : Z) (hs : list host_file) : list (Z * list Z) :=
  match hs with
  | [] => []
  | h :: hs => (n, cname 14 (host_name h)) :: file_dents (n + 1) hs
  end.

Lemma dents_entries hs n : Forall host_ok hs → 0 ≤ n → n + Z.of_nat (length hs) ≤ 65536 → dents (entries n hs) = file_dents n hs.
Proof.
  intros H. revert n. induction H as [|h hs Hh H IH]; intros n Hn Hl; [done|]. cbn [entries file_dents length] in *.
  destruct (bytes_dirent n _ (bytes_host_name h Hh)) as [_ Hd]. rewrite dents_app by (by rewrite Hd). rewrite dents_dirent, IH by lia. done.
Qed.

Lemma lookup_file_dents hs n k : file_dents n hs !! k = (λ h, (n + Z.of_nat k, cname 14 (host_name h))) <$> hs !! k.
Proof.
  revert n k. induction hs as [|h hs IH]; intros n [|k]; cbn [file_dents lookup list_lookup fmap option_fmap option_map]; try done.
  - by rewrite Z.add_0_r.
  - setoid_rewrite IH. destruct (hs !! k); [|done]. cbn. do 2 f_equal. lia.
Qed.

Lemma length_file_dents hs n : length (file_dents n hs) = length hs.
Proof. revert n. induction hs as [|h hs IH]; intros n; [done|]. cbn. by rewrite IH. Qed.

Lemma dents_root hs m : Forall host_ok hs → Z.of_nat (length hs) < 1000 →
  dents (root_dir hs ++ replicate m 0) = (1, [46]) :: (1, [46; 46]) :: file_dents 2 hs ++ dents (replicate m 0).
Proof.
  intros Hh Hn. pose proof (length_root hs Hh) as Hl. rewrite dents_app by (rewrite Hl, Nat.mul_comm; apply Nat.Div0.mod_mul).
  unfold root_dir. rewrite !dents_app by done. rewrite dents_entries by (done || lia). rewrite !dents_dirent by lia. done.
Qed.

(** * The tree *)

Section boot.
Context {S : Type} `{!Store S, !StoreSpec S} (hs : list host_file) (s : mkfs) (st : Fs.fs S).
Hypothesis Hft : fits hs.
Hypothesis I : image s (tree hs).
Hypothesis Hsb : sb st = the_sb.
Hypothesis Hus : ∀ b, 32 ≤ b < FSSIZE → usable b.
Hypothesis Hblk : ∀ b, 32 ≤ b < FSSIZE → blks st b = m_img (finish s) b.

Local Abbreviation img := (m_img (finish s)).

Lemma boot_inode n : 0 ≤ n < 208 → disk_inode st n = dinode_at img n.
Proof using Hsb Hblk.
  intros Hn. pose proof (iblock_range n Hn). destruct fssize_val. unfold disk_inode, dinode_at. rewrite Hsb, Hblk by lia. done.
Qed.

(** A file of the image, with [c] and then zeros up to its size. *)
Lemma boot_file n x c : 0 ≤ n < 208 → dinode_at img n = x → holds_file (freeblock s) img (set_size (Z.of_nat (length c)) x) c → dinode_ok x →
  Z.of_nat (length c) ≤ d_size x ≤ MAXFILE * BSIZE → (d_size x - 1) / BSIZE = (Z.of_nat (length c) - 1) / BSIZE →
  wf_file st n ∧ file_data st n = c ++ replicate (Z.to_nat (d_size x) - length c) 0.
Proof using Hft I Hsb Hus Hblk.
  intros Hn Ex Hf Hd Hsz Heq. destruct maxfile_val as (EM & EN & _ & EB). pose proof (boot_inode n Hn) as Ei. rewrite Ex in Ei.
  assert (wf_file st n) as W.
  { apply (mount_sound hs s (probe st n) I Hsb Hus Hblk 0 n); try done.
    - cbn. lia.
    - split; [done|]. split; [done|]. exact (eq_trans Ei (eq_sym Ex)).
    - rewrite Ex. destruct (hf_placed _ _ _ _ Hf). by constructor.
    - by rewrite Ex.
    - rewrite Ex. lia.
    - rewrite Ex. intros k Hk Hks E. destruct (hf_exact _ _ _ _ Hf k Hk) as [H1 _]. specialize (H1 E). rewrite EB in *. clear -H1 Hks Heq Hsz Hk. zdm. }
  split; [done|]. unfold file_data. rewrite <- (disk_file_contents 0 (probe st n) (blks st) W); [|done|done].
  cbn [sb probe inum ino inodes]. change (inum (ino 0 (probe st n))) with n. unfold disk_file. fold (disk_inode st n). rewrite Ei.
  destruct (holds_file_frame (freeblock s) (freeblock s) img (blks st) (set_size (Z.of_nat (length c)) x) c) as [Hf' _]; [done| |done|].
  { intros k Hk Hne. apply Hblk. pose proof (mk_fb _ (im_ok _ _ I)). destruct fssize_val. destruct (pl_own _ _ _ (hf_placed _ _ _ _ Hf) k Hk); [done|lia]. }
  apply (disk_bytes (freeblock s) (blks st) (set_size (Z.of_nat (length c)) x) c _ Hf'); lia.
Qed.

Lemma boot_host i h : hs !! i = Some h → let n := Z.of_nat i + 2 in
  wf_file st n ∧ file_data st n = host_data h ∧ d_type (disk_inode st n) = T_FILE ∧ d_nlink (disk_inode st n) = 1.
Proof using Hft I Hsb Hus Hblk.
  intros Hi n. destruct (finish_file s hs i h I Hft Hi) as (Hf & Hd & Ht & Hl & _). pose proof Hft as [_ Hn _]. change NINODES with 200 in Hn.
  pose proof (lookup_lt_Some _ _ _ Hi) as Hil. fold n in Hf, Hd, Ht, Hl. assert (0 ≤ n < 208) as Hr by lia. rewrite (boot_inode n Hr).
  destruct (hf_size _ _ _ _ Hf) as [Hs Hm]. destruct (boot_file n _ (host_data h) Hr eq_refl) as [W E]; try done.
  - rewrite <- Hs. by destruct (dinode_at img n).
  - lia.
  - by rewrite Hs.
  - split; [done|]. split; [|done]. rewrite E. replace (Z.to_nat _ - _)%nat with 0%nat by lia. by rewrite app_nil_r.
Qed.

(** The root directory, unless it ends with a block. *)
Hypothesis Hwhole : Z.of_nat (length hs + 2) mod 64 ≠ 0.

Lemma boot_root : wf_file st 1 ∧ (∃ m, file_data st 1 = root_dir hs ++ replicate m 0) ∧
  d_type (disk_inode st 1) = T_DIR ∧ d_nlink (disk_inode st 1) = 1 ∧ d_size (disk_inode st 1) mod DIRENT = 0.
Proof using All.
  pose proof Hft as [Hh Hn _]. destruct (root_dinode s hs I Hh Hn) as (Hf & Ht & Hs & Hr & Hd). pose proof (length_root hs Hh) as Hl.
  destruct (im_file _ _ I 0%nat T_DIR (root_dir hs) eq_refl) as (_ & _ & _ & Hnl). change (Z.of_nat 0 + 1) with 1 in Hnl.
  rewrite (boot_inode 1) by lia. pose proof (finish_inode s hs 1 I Hh Hn ltac:(lia)) as Ex. rewrite decide_True in Ex by done.
  set (y := dinode_at (m_img s) 1) in *. destruct maxfile_val as (EM & EN & _ & EB).
  destruct (boot_file 1 _ (root_dir hs) ltac:(lia) Ex) as [W E].
  - assert (set_size (Z.of_nat (length (root_dir hs))) (set_size (rounded (d_size y)) y) = y) as -> by (rewrite <- Hs; by destruct y).
    apply finish_holds; [apply I|done].
  - done.
  - cbn [d_size set_size]. unfold rounded. rewrite EM, EB in *. zdm.
  - cbn [d_size set_size]. unfold rounded. rewrite EB, Hs, Hl in *. clear -Hwhole. zdm.
  - split; [done|]. split; [by eexists|]. rewrite Ex. cbn [d_type d_nlink d_size set_size]. do 2 (split; [done|]).
    unfold rounded. rewrite EB. change DIRENT with 16. zdm.
Qed.

Lemma boot_tree : tree_ok st (λ i, 1 ≤ i ≤ Z.of_nat (length hs) + 1).
Proof using All.
  destruct boot_root as (W & (m & E) & Ht & Hl & Hsz). pose proof Hft as [Hh Hn _]. change NINODES with 200 in Hn.
  assert (∀ i, 1 ≤ i ≤ Z.of_nat (length hs) + 1 → i = 1 ∨ ∃ k h, hs !! k = Some h ∧ i = Z.of_nat k + 2) as Hc.
  { intros i Hi. destruct (decide (i = 1)) as [->|]; [by left|right]. destruct (lookup_lt_is_Some_2 hs (Z.to_nat (i - 2))) as [h Hh']; [lia|].
    exists (Z.to_nat (i - 2)), h. split; [done|lia]. }
  constructor.
  - intros i [->|(k & h & Hk & ->)]%Hc; [rewrite Ht, Hl; done|]. destruct (boot_host k h Hk) as (Wk & _ & -> & ->). done.
  - intros i [->|(k & h & Hk & ->)]%Hc; [|destruct (boot_host k h Hk) as (_ & _ & -> & _); done]. intros _. split; [done|].
    rewrite E, dents_root by (done || lia). intros e He Hne. rewrite !elem_of_cons, elem_of_app in He.
    destruct He as [->|[->|[(k & Hk)%list_elem_of_lookup_1|He%dents_zeros]]]; [cbn; lia|cbn; lia| |done].
    rewrite lookup_file_dents in Hk. apply fmap_Some in Hk as (h & Ek & ->). apply lookup_lt_Some in Ek. cbn [fst]. lia.
Qed.

(** Where the blocks of the files are. *)
Lemma boot_own i : 1 ≤ i ≤ Z.of_nat (length hs) + 1 → let x := dinode_at (m_img s) i in
  (∀ k, 0 ≤ k ≤ MAXFILE → own (m_img s) x k = 0 ∨ nmeta ≤ own (m_img s) x k < freeblock s) ∧
  ∀ k, 0 ≤ k ≤ MAXFILE → faddr 0 (probe st i) k = own (m_img s) x k.
Proof using Hft I Hsb Hblk.
  clear Hwhole. intros Hi x. pose proof Hft as [Hh Hn _]. destruct fssize_val as [EF Em]. destruct maxfile_val as (EM & EN & _). pose proof (mk_fb _ (im_ok _ _ I)) as Hfb.
  assert (∃ t c, tree hs !! Z.to_nat (i - 1) = Some (t, c)) as (t & c & Et).
  { destruct (lookup_lt_is_Some_2 (tree hs) (Z.to_nat (i - 1))) as [[t c] E]; [|by eexists _, _]. unfold tree, host_files. cbn [length]. rewrite length_fmap. lia. }
  destruct (im_file _ _ I _ t c Et) as (Hf & _). replace (Z.of_nat (Z.to_nat (i - 1)) + 1) with i in Hf by lia. fold x in Hf.
  pose proof (pl_own _ _ _ (hf_placed _ _ _ _ Hf)) as Ho. split; [done|]. change NINODES with 200 in Hn. assert (d_addrs (disk_inode st i) = d_addrs x) as Ea.
  { rewrite boot_inode, (finish_inode s hs) by (done || lia). by case_decide as Ei; [rewrite <- Ei|]. }
  intros k Hk. unfold faddr, iaddr, addr_at. change (meta 0 (probe st i)) with (disk_inode st i). rewrite Ea. fold (addr_at k x). fold (addr_at NDIRECT x).
  unfold own, disk_addr. destruct (Z.ltb_spec k NDIRECT), (Z.eqb_spec k MAXFILE); try done; [lia|].
  destruct (Z.eqb_spec (addr_at NDIRECT x) 0) as [|Hne]; [done|]. f_equal. destruct (Ho MAXFILE ltac:(lia)) as [E|E]; rewrite own_ind in E; [done|].
  change (blks (probe st i)) with (blks st). rewrite Hblk, finish_data by lia. done.
Qed.

Lemma boot_live i : live st i ↔ 1 ≤ i ≤ Z.of_nat (length hs) + 1.
Proof using Hft I Hsb Hus Hblk Hwhole.
  pose proof Hft as [Hh Hn _]. unfold live, inum_ok. rewrite Hsb. change (ninodes the_sb) with 200. change NINODES with 200 in Hn. split.
  - intros [Hi Ht]. destruct (decide (i ≤ Z.of_nat (length hs) + 1)); [lia|]. destruct Ht. rewrite boot_inode, (finish_inode s hs), decide_False by (done || lia).
    apply (im_unused _ _ I). unfold tree, host_files. cbn [length]. rewrite length_fmap. lia.
  - intros Hi. split; [lia|]. by destruct (tr_file _ _ boot_tree i Hi) as (_ & ? & _).
Qed.

Lemma boot_volume : volume st.
Proof using All.
  pose proof boot_live as Hl. pose proof boot_tree as HT. destruct fssize_val as [EF Em]. pose proof (mk_fb _ (im_ok _ _ I)) as Hfb. pose proof Hft as [_ Hn _]. change NINODES with 200 in Hn.
  assert (∀ i c, live st i → has st i c → ∃ k, 0 ≤ k ≤ MAXFILE ∧ c ≠ 0 ∧ own (m_img s) (dinode_at (m_img s) i) k = c ∧ nmeta ≤ c) as Hown.
  { intros i c Hi%Hl (Hc & k & Hk & E). destruct (boot_own i Hi) as [Ho Ha]. rewrite Ha in E by done. exists k. split; [done|]. split; [done|]. split; [done|].
    destruct (Ho k Hk) as [E0|E0]; [congruence|]. rewrite E in E0. lia. }
  assert (∀ j, inum_ok st j → 32 ≤ IBLOCK j (sb st) < 45) as Hib.
  { intros j Hj. unfold inum_ok in Hj. rewrite Hsb in *. change (ninodes the_sb) with 200 in Hj. apply iblock_range. lia. }
  constructor.
  - by rewrite Hsb.
  - by apply (mount_alloc hs s).
  - intros i Hi%Hib. apply (mount_taken hs s); lia || done.
  - intros i Hi%Hl. by apply (tr_file _ _ HT i).
  - intros i c j Hi Hc Hj%Hib. destruct (Hown i c Hi Hc) as (_ & _ & _ & _ & H). lia.
  - intros i j c Hi Hj Hci Hcj. destruct (Hown i c Hi Hci) as (k & Hk & Hc & Ek & _). destruct (Hown j c Hj Hcj) as (l & Hl' & _ & El & _).
    apply Hl in Hi, Hj. destruct (decide (i = j)) as [|Hne]; [done|]. exfalso. assert (length (tree hs) = length hs + 1)%nat as Htl by (unfold tree, host_files; cbn [length]; rewrite length_fmap; lia).
    apply (im_disj _ _ I (Z.to_nat (i - 1)) (Z.to_nat (j - 1)) k l); try lia;
      replace (Z.of_nat (Z.to_nat (i - 1)) + 1) with i by lia; replace (Z.of_nat (Z.to_nat (j - 1)) + 1) with j by lia; congruence.
  - intros i [Hi _]%(λ H, conj (proj1 (Hl i) (proj1 H)) I) Ht. destruct (tr_dir _ _ HT i Hi Ht) as [? He]. split; [done|].
    intros e H1 H2. specialize (He e H1 H2). split; [by apply Hl|]. by apply (tr_file _ _ HT).
Qed.
End boot.

(** * Opening a file *)

(** Names the kernel can tell apart: no NUL, not empty, no two the same. *)
Record named (hs : list host_file) : Prop := {
  nm_name : ∀ h, h ∈ hs → host_name h ≠ [] ∧ Forall (λ c, c ≠ 0) (host_name h);
  nm_distinct : NoDup ([46] :: [46; 46] :: (host_name <$> hs));
}.

Lemma host_cname h : host_ok h → Forall (λ c, c ≠ 0) (host_name h) → cname 14 (host_name h) = host_name h.
Proof. intros [_ Hl _ _] Hz. apply cname_id; [|done]. change DIRSIZ with 14 in Hl. lia. Qed.

Lemma split_none l : existsb (Z.eqb SLASH) l = false → split_path l = [l].
Proof.
  induction l as [|c l IH]; [done|]. cbn [existsb split_path]. intros [Hc Hl]%orb_false_iff. rewrite Z.eqb_sym, Hc, IH by done. done.
Qed.

Lemma host_elems h : host_ok h → host_name h ≠ [] → elems (SLASH :: host_name h) = [host_name h].
Proof.
  intros [[_ Hs] Hl _ _] Hne. unfold elems. cbn [split_path]. rewrite Z.eqb_refl.
  assert (existsb (Z.eqb SLASH) (host_name h) = false) as Hn.
  { unfold host_name, strip_. destruct (basename (h_path h)) as [|c l]; [done|]. cbn [hd tl]. destruct (c =? UNDERSCORE); [|done].
    cbn [existsb] in Hs. by apply orb_false_iff in Hs as [_ ?]. }
  rewrite split_none by done. rewrite filter_cons_False, filter_cons_True by (done || tauto). cbn [fmap list_fmap]. change DIRSIZ with 14 in Hl. by rewrite take_ge by lia.
Qed.

(** The root directory finds each file under its name. *)
Lemma find_host hs m i h : Forall host_ok hs → Z.of_nat (length hs) < 1000 → named hs → hs !! i = Some h →
  dfind (host_name h) (root_dir hs ++ replicate m 0) = Some ((i + 2)%nat, (Z.of_nat i + 2, host_name h)).
Proof.
  intros Hh Hn [Hnm Hd] Hi. assert (∀ k g, hs !! k = Some g → cname 14 (host_name g) = host_name g) as Hc.
  { intros k g Hk. rewrite Forall_lookup in Hh. apply host_cname; [by eapply Hh|]. apply Hnm. by eapply list_elem_of_lookup_2. }
  unfold dfind. rewrite dents_root by done. apply list_find_Some. unfold dmatch. rewrite (Hc i h Hi). split; [|split; [split; [cbn; lia|done]|]].
  - change (?a :: ?b :: ?l) with ([a; b] ++ l). rewrite lookup_app_r by (cbn; lia). cbn [length]. replace (i + 2 - 2)%nat with i by lia.
    rewrite lookup_app_l_Some with (x := (2 + Z.of_nat i, cname 14 (host_name h))); [rewrite (Hc i h Hi); do 2 f_equal; lia|]. by rewrite lookup_file_dents, Hi.
  - intros k e Hk Hlt [_ He]. assert (([46] :: [46; 46] :: (host_name <$> hs)) !! k = Some (host_name h)) as H1.
    { destruct k as [|[|k]]; [injection Hk as <-; by rewrite <- He..|]. change ((file_dents 2 hs ++ dents (replicate m 0)) !! k = Some e) in Hk.
      change ((host_name <$> hs) !! k = Some (host_name h)). rewrite lookup_app_l in Hk.
      - rewrite lookup_file_dents in Hk. apply fmap_Some in Hk as (g & Hg & ->). cbn [snd] in He. rewrite (Hc k g Hg) in He. by rewrite list_lookup_fmap, Hg, <- He.
      - apply lookup_lt_Some in Hi. rewrite length_file_dents. lia. }
    assert (([46] :: [46; 46] :: (host_name <$> hs)) !! (i + 2)%nat = Some (host_name h)) as H2
      by (rewrite Nat.add_comm; change ((host_name <$> hs) !! i = Some (host_name h)); by rewrite list_lookup_fmap, Hi).
    pose proof (NoDup_lookup _ _ _ _ Hd H1 H2). lia.
Qed.

Section open.
Context {S : Type} `{!Store S, !StoreSpec S} (hs : list host_file) (s : mkfs) (st : Fs.fs S).
Hypothesis Hft : fits hs.
Hypothesis Hwhole : Z.of_nat (length hs + 2) mod 64 ≠ 0.
Hypothesis Hmain : main hs empty_image = Ret tt s.
Hypothesis Hsb : sb st = the_sb.
Hypothesis Hblk : ∀ b, 32 ≤ b < FSSIZE → usable b ∧ blks st b = m_img s b.

(** What the kernel has in front of it. *)
Lemma mounted_tree : tree_ok st (λ i, 1 ≤ i ≤ Z.of_nat (length hs) + 1) ∧ alloc_ok st ∧
  (∀ i h, hs !! i = Some h → file_data st (Z.of_nat i + 2) = host_data h ∧ d_type (disk_inode st (Z.of_nat i + 2)) = T_FILE) ∧
  d_type (disk_inode st ROOTINO) = T_DIR ∧ ∃ m, file_data st ROOTINO = root_dir hs ++ replicate m 0.
Proof using All.
  destruct (main_image hs Hft) as (s0 & I & E). rewrite Hmain in E. clear Hmain. injection E as ->.
  assert (∀ b, 32 ≤ b < FSSIZE → usable b) as Hu by (intros; by apply Hblk). assert (∀ b, 32 ≤ b < FSSIZE → blks st b = m_img (finish s0) b) as Hb by (intros; by apply Hblk).
  split; [by apply (boot_tree hs s0)|]. split; [by apply (mount_alloc hs s0)|]. split.
  - intros i h Hi. by destruct (boot_host hs s0 st Hft I Hsb Hu Hb i h Hi) as (_ & ? & ? & _).
  - by destruct (boot_root hs s0 st Hft I Hsb Hu Hb Hwhole) as (_ & ? & ? & _).
Qed.

Lemma mounted_volume : volume st ∧ (∀ i, live st i ↔ 1 ≤ i ≤ Z.of_nat (length hs) + 1) ∧ ∀ i, live st i → d_nlink (disk_inode st i) = 1.
Proof using All.
  destruct (main_image hs Hft) as (s0 & I & E). rewrite Hmain in E. clear Hmain. injection E as ->.
  assert (∀ b, 32 ≤ b < FSSIZE → usable b) as Hu by (intros; by apply Hblk). assert (∀ b, 32 ≤ b < FSSIZE → blks st b = m_img (finish s0) b) as Hb by (intros; by apply Hblk).
  pose proof (boot_live hs s0 st Hft I Hsb Hu Hb Hwhole) as Hl. split; [by apply (boot_volume hs s0)|]. split; [done|].
  intros i Hi%Hl. destruct (decide (i = 1)) as [-> | Hne]; [by destruct (boot_root hs s0 st Hft I Hsb Hu Hb Hwhole) as (_ & _ & _ & ? & _)|].
  destruct (lookup_lt_is_Some_2 hs (Z.to_nat (i - 2))) as [h Hh]; [lia|]. destruct (boot_host hs s0 st Hft I Hsb Hu Hb _ h Hh) as (_ & _ & _ & H).
  by replace (Z.of_nat (Z.to_nat (i - 2)) + 2) with i in H by lia.
Qed.

Lemma mounted_child i h : named hs → hs !! i = Some h → child st ROOTINO (host_name h) = Some (Z.of_nat i + 2).
Proof using All.
  intros Hnm Hi. destruct mounted_tree as (_ & _ & _ & Ht & (m & E)). clear Hmain. pose proof Hft as [Hh Hn _]. change NINODES with 200 in Hn.
  unfold child. rewrite Ht, E, (find_host hs m i h) by (done || lia). done.
Qed.
End open.

(** C23. The image is consistent for the kernel.  On a block store that shows the image of
    mkfs, the inodes in use are the root and one for each file of the host.  Each has its
    blocks in place up to its size, marked in the bitmap, apart from those of the other
    files, from the inodes and from the bitmap; and every entry of the root leads to one of
    them.  The root is a directory with the entries of the files, and the contents of each
    file are those it has on the host.  (The size that mkfs gives the root covers
    one block too many when its entries fill whole blocks, hence the condition on their
    number.) *)
Theorem mkfs_mounts {S} `{!Store S, !StoreSpec S} hs s (st : Fs.fs S) :
  fits hs → Z.of_nat (length hs + 2) mod 64 ≠ 0 → main hs empty_image = Ret tt s →
  sb st = the_sb → (∀ b, 32 ≤ b < FSSIZE → usable b ∧ blks st b = m_img s b) →
  volume st ∧ (∀ i, live st i ↔ 1 ≤ i ≤ Z.of_nat (length hs) + 1) ∧
  (∀ i h, hs !! i = Some h → file_data st (Z.of_nat i + 2) = host_data h ∧ d_type (disk_inode st (Z.of_nat i + 2)) = T_FILE) ∧
  d_type (disk_inode st ROOTINO) = T_DIR ∧ ∃ m, file_data st ROOTINO = root_dir hs ++ replicate m 0.
Proof.
  intros H1 H2 H3 H4 H5. destruct (mounted_volume hs s st H1 H2 H3 H4 H5) as (V & Hl & _). split; [exact V|]. split; [exact Hl|].
  exact (proj2 (proj2 (mounted_tree hs s st H1 H2 H3 H4 H5))).
Qed.

(** C18. From the host's file to the kernel's read.  Let mkfs have built the image from files
    with different names, and the kernel be in a transaction on a disk that shows it, with no
    inode locked and two free slots in the table of inodes.  Then [namei] of a slash and the
    name of a file returns its inode, [ilock] locks it, and [readi] of the whole of it
    returns exactly the bytes the file has on the host.  The entries of the root, the files
    and two more, must not fill whole blocks: mkfs then gives the root a size that covers a
    block that is not there. *)
Theorem boot_reads_file {S} `{!Store S, !StoreSpec S} pid fuel hs s (st : Fs.fs S) P cwd i h :
  fits hs → Z.of_nat (length hs + 2) mod 64 ≠ 0 → named hs → main hs empty_image = Ret tt s →
  sb st = the_sb → (∀ b, 32 ≤ b < FSSIZE → usable b ∧ blks st b = m_img s b) →
  cache_ok pid st ∅ → (∃ a b, a ≠ b ∧ (a < NINODE)%nat ∧ (b < NINODE)%nat ∧ refs st a = None ∧ refs st b = None) →
  rdy st P ∅ → (size P < NBUF)%nat → (0 < fuel)%nat → hs !! i = Some h →
  ∃ ip s1 s2 s3, namei pid fuel cwd (SLASH :: host_name h) st = Ret (Some ip) s1 ∧ ilock pid fuel ip s1 = Ret tt s2 ∧
    readi ip to_kernel 0 (MAXFILE * BSIZE) s2 = Ret (Z.of_nat (length (host_data h)), host_data h) s3.
Proof.
  intros Hft Hwh Hnm Hmain Hsb Hblk C Hslots R HP Hfuel Hi. destruct (mounted_tree hs s st Hft Hwh Hmain Hsb Hblk) as (HT & _ & Hdata & _).
  pose proof (mounted_child hs s st Hft Hwh Hmain Hsb Hblk i h Hnm Hi) as Hch. clear Hmain. pose proof Hft as [Hh Hn _]. change NINODES with 200 in Hn.
  assert (host_ok h) as Ho by (rewrite Forall_lookup in Hh; by eapply Hh). destruct (nm_name _ Hnm h) as [Hne _]; [by eapply list_elem_of_lookup_2|].
  pose proof (lookup_lt_Some _ _ _ Hi) as Hil. set (T := λ i, 1 ≤ i ≤ Z.of_nat (length hs) + 1) in *. assert (T (Z.of_nat i + 2)) as HTi by (unfold T; lia).
  destruct (namex_ok pid fuel st P T Hfuel HP HT Hslots false cwd (SLASH :: host_name h) C R) as (o & nm & s1 & E1 & H1); [done|change (1 ≤ 1 ≤ Z.of_nat (length hs) + 1); lia|].
  rewrite (host_elems h Ho Hne) in H1. change (start_inode st cwd (SLASH :: host_name h)) with ROOTINO in H1. unfold target in H1. cbn [walk] in H1. rewrite Hch in H1.
  destruct H1 as (ip & -> & Hold & _). destruct (lock_walk pid fuel st P T Hfuel HP HT s1 ip (Z.of_nat i + 2) Hold HTi) as (s2 & E2 & Lk).
  destruct (probe_loaded s2 ip (Z.of_nat i + 2) (1 + from_option snd 0 (refs st ip)) (lo_loaded _ _ _ _ _ _ Lk)) as [Hw Hc].
  { rewrite (lo_refs _ _ _ _ _ _ Lk). unfold add_ref. by rewrite decide_True. }
  destruct (probe_looks st s2 (Z.of_nat i + 2) (lo_looks _ _ _ _ _ _ Lk)) as [Hw' Hd]. rewrite Hd, (proj1 (Hdata i h Hi)) in Hc.
  destruct (sound_read ip s2 P (Hw (Hw' (proj1 (tr_file _ _ HT _ HTi)))) (lo_rdy _ _ _ _ _ _ Lk) HP) as (s3 & E3). rewrite Hc in E3.
  exists ip, s1, s2, s3. split; [|done]. unfold namei. by rewrite (bind_ret_eq _ _ _ _ _ E1).
Qed.

(** * One file, booted *)

(** The kernel with an empty table of inodes on the log [l]. *)
Definition booted (l : log_state) : Fs.fs log_state := Fs.Fs l the_sb false (replicate NINODE inhabitant).

Lemma ino_booted l j : ino j (booted l) = inhabitant.
Proof.
  unfold ino. cbn [inodes booted]. rewrite list_lookup_total_alt. destruct (decide (j < NINODE)%nat).
  - by rewrite lookup_replicate_2.
  - by rewrite lookup_ge_None_2 by (rewrite length_replicate; lia).
Qed.

Lemma booted_cache l (St := store_log 1 1) (Sp := store_log_spec 1 1 2 1 (Nat.lt_0_succ 0)) : cache_ok 1 (booted l) ∅.
Proof.
  constructor; try done.
  - intros j. by rewrite ino_booted.
  - intros j. by rewrite ino_booted.
  - intros i j. by rewrite !ino_booted.
  - intros j. rewrite ino_booted. by rewrite decide_False.
  - intros j. by rewrite ino_booted.
Qed.

Lemma booted_slots l : ∃ a b, a ≠ b ∧ (a < NINODE)%nat ∧ (b < NINODE)%nat ∧ refs (booted l) a = None ∧ refs (booted l) b = None.
Proof. exists 0%nat, 1%nat. unfold refs, NINODE. rewrite !ino_booted. split_and!; (done || lia). Qed.

Lemma booted_shows l s (St := store_log 1 1) (Sp := store_log_spec 1 1 2 1 (Nat.lt_0_succ 0)) :
  (∀ b, 32 ≤ b < FSSIZE → view (bio l) b = m_img s b) → ∀ b, 32 ≤ b < FSSIZE → usable b ∧ blks (booted l) b = m_img s b.
Proof.
  intros Hv b Hb. split; [|exact (Hv b Hb)]. destruct fssize_val. split; [lia|]. unfold in_log, LOGSIZE, MAXOPBLOCKS. lia.
Qed.

Lemma one_file_named : named one_file.
Proof.
  constructor.
  - intros h ->%list_elem_of_singleton. split; [done|]. vm_compute. repeat constructor; lia.
  - vm_compute. repeat (constructor; [set_solver|]). constructor.
Qed.

Lemma one_file_whole : Z.of_nat (length one_file + 2) mod 64 ≠ 0.
Proof. vm_compute. congruence. Qed.

Lemma one_file_start : 1 ≤ 1 ≤ Z.of_nat (length one_file) + 1.
Proof. vm_compute. split; congruence. Qed.

Lemma mkfs_mounts_witness :
  ∃ (l : log_state) (s : mkfs), main one_file empty_image = Ret tt s ∧
    @file_data log_state (store_log 1 1) (store_log_spec 1 1 2 1 (Nat.lt_0_succ 0)) (booted l) 2 = hello.
Proof.
  destruct (image_booted one_file one_file_fits) as (s & l & E & R & Hv). exists l, s. split; [exact E|].
  destruct (@mkfs_mounts log_state (store_log 1 1) (store_log_spec 1 1 2 1 (Nat.lt_0_succ 0)) one_file s (booted l)) as (_ & _ & H & _).
  - exact one_file_fits.
  - exact one_file_whole.
  - exact E.
  - reflexivity.
  - exact (booted_shows l s Hv).
  - exact (proj1 (H 0%nat (Host [95; 104; 105] (Some [hello])) eq_refl)).
Defined.

Lemma boot_reads_file_witness :
  ∃ (l : log_state) ip s1 s2 s3, @namei log_state (store_log 1 1) 1 1 0 [47; 104; 105] (booted l) = Ret (Some ip) s1 ∧
    @ilock log_state (store_log 1 1) 1 1 ip s1 = Ret tt s2 ∧
    @readi log_state (store_log 1 1) ip to_kernel 0 (MAXFILE * BSIZE) s2 = Ret (5, hello) s3.
Proof.
  destruct (image_booted one_file one_file_fits) as (s & l & E & R & Hv). exists l.
  apply (@boot_reads_file log_state (store_log 1 1) (store_log_spec 1 1 2 1 (Nat.lt_0_succ 0)) 1 1 one_file s (booted l) ∅ 0 0
    (Host [95; 104; 105] (Some [hello])) one_file_fits).
  - exact one_file_whole.
  - exact one_file_named.
  - exact E.
  - reflexivity.
  - exact (booted_shows l s Hv).
  - exact (booted_cache l).
  - exact (booted_slots l).
  - exact R.
  - vm_compute. lia.
  - apply Nat.lt_0_succ.
  - reflexivity.
Defined.

Lemma namei_resolves_witness :
  ∃ (l : log_state) j s', @namei log_state (store_log 1 1) 1 1 0 [47; 104; 105] (booted l) = Ret (Some j) s' ∧ inum (ino j s') = 2.
Proof.
  destruct (image_booted one_file one_file_fits) as (s & l & E & R & Hv). exists l.
  destruct (@mounted_tree log_state (store_log 1 1) (store_log_spec 1 1 2 1 (Nat.lt_0_succ 0)) one_file s (booted l) one_file_fits) as (HT & _);
    [exact one_file_whole|exact E|reflexivity|exact (booted_shows l s Hv)|].
  destruct (@namei_resolves log_state (store_log 1 1) (store_log_spec 1 1 2 1 (Nat.lt_0_succ 0)) 1 1 (booted l) ∅
    (λ i, 1 ≤ i ≤ Z.of_nat (length one_file) + 1) 0 [47; 104; 105] (Nat.lt_0_succ 0)) as [(o & s' & E' & H) _];
    [vm_compute; lia|exact HT|exact (booted_cache l)|exact R|exact (booted_slots l)|intros Hx; by destruct (Hx eq_refl)|exact one_file_start|].
  change (elems [47; 104; 105]) with [host_name (Host [95; 104; 105] (Some [hello]))] in H. change (start_inode (booted l) 0 [47; 104; 105]) with ROOTINO in H. cbn [walk] in H.
  rewrite (@mounted_child log_state (store_log 1 1) (store_log_spec 1 1 2 1 (Nat.lt_0_succ 0)) one_file s (booted l) one_file_fits
    one_file_whole E eq_refl (booted_shows l s Hv) 0%nat _ one_file_named eq_refl) in H.
  destruct H as (j & -> & Hh). exists j, s'. split; [exact E'|]. destruct (holding_ref _ _ _ _ _ _ Hh) as [n Hn].
  exact (proj1 (refs_in _ _ _ _ Hn)).
Defined.

Lemma one_file_new m : dlook [97] (root_dir one_file ++ replicate m 0) = None.
Proof.
  rewrite dlook_filter, dents_root by (apply one_file_fits || (vm_compute; lia)).
  assert (filter (dmatch [97]) (dents (replicate m 0)) = []) as Ez.
  { assert (Forall (λ e, ¬ dmatch [97] e) (dents (replicate m 0))) as H.
    { apply Forall_forall. intros e He%dents_zeros [Hne _]. done. }
    induction H as [|e l He _ IH]; [done|]. by rewrite filter_cons_False. }
  cbn [file_dents one_file app]. rewrite !filter_cons_False by (intros [_ [=]]). by rewrite Ez.
Qed.

(** The store these examples run on. *)
#[local] Instance boot_store : Store log_state := store_log 1 1.
#[local] Instance boot_spec : StoreSpec log_state := store_log_spec 1 1 2 1 (Nat.lt_0_succ 0).

(** The file of the booted image, locked. *)
Lemma booted_file :
  ∃ l j s2, sb s2 = the_sb ∧ locked 1 (booted l) ∅ s2 j 2 ∧ sound j s2 ∧ refs s2 j = Some (2, 1) ∧ ∀ k, k ≠ j → refs s2 k = None.
Proof.
  destruct (image_booted one_file one_file_fits) as (s & l & E & R & Hv). exists l.
  destruct (mounted_tree one_file s (booted l) one_file_fits one_file_whole E eq_refl (booted_shows l s Hv)) as (HT & _).
  pose proof (mounted_child one_file s (booted l) one_file_fits one_file_whole E eq_refl (booted_shows l s Hv) 0%nat _ one_file_named eq_refl) as Hch. clear E.
  set (T := λ i, 1 ≤ i ≤ Z.of_nat (length one_file) + 1) in *. assert (size (∅ : gset Z) < NBUF)%nat as HP by (vm_compute; lia).
  destruct (namex_ok 1 1 (booted l) ∅ T (Nat.lt_0_succ 0) HP HT (booted_slots l) false 0 [47; 104; 105] (booted_cache l) R) as (o & nm & s1 & _ & H1); [intros Hx; by destruct (Hx eq_refl)|exact one_file_start|].
  change (elems [47; 104; 105]) with [host_name (Host [95; 104; 105] (Some [hello]))] in H1. change (start_inode (booted l) 0 [47; 104; 105]) with ROOTINO in H1.
  unfold target in H1. cbn [walk] in H1. rewrite Hch in H1. destruct H1 as (j & _ & Hold & _). assert (T 2) as HT2 by (vm_compute; split; congruence).
  destruct (lock_walk 1 1 (booted l) ∅ T (Nat.lt_0_succ 0) HP HT s1 j 2 Hold HT2) as (s2 & _ & Lk). exists j, s2.
  assert (∀ k, refs (booted l) k = None) as Hno by (intros k; unfold refs; by rewrite ino_booted). pose proof Lk as [L C R2 F Hf Ld].
  assert (refs s2 j = Some (2, 1)) as Hn by (rewrite F; unfold add_ref; by rewrite decide_True, Hno).
  split; [by rewrite (lo_sb _ _ L)|]. split; [exact Lk|]. split; [|split; [done|]].
  - destruct (probe_loaded s2 j 2 1 Ld Hn) as [Hw _]. apply Hw, (probe_looks (booted l) s2 2 L). exact (proj1 (tr_file _ _ HT 2 HT2)).
  - intros k Hk. rewrite F. unfold add_ref. by rewrite decide_False, Hno.
Qed.

(** The file unlinked while it is open. *)
Lemma booted_unlinked :
  ∃ s P j, sb s = the_sb ∧ (size P ≤ 1)%nat ∧ rdy s P ∅ ∧ cache_ok 1 s ∅ ∧ sound j s ∧ refs s j = Some (2, 1) ∧ ivalid (ino j s) = true ∧
    d_nlink (disk_inode s 2) = 0 ∧ ∀ k, k ≠ j → refs s k = None.
Proof.
  destruct booted_file as (l & j & s2 & Es2 & [L C R F Hf Ld] & Sd & Hr & Hno).
  destruct (iupdate_meta 1 j (set_nlink 0) {[j]} 2 1 s2 ∅ C Hr Ld Sd R) as (s3 & E3 & R3 & C3 & F3 & Ld3 & Sd3 & Hd & Es & _).
  { vm_compute. lia. }
  { done. }
  { destruct (sd_dinode _ _ Sd). by constructor. }
  destruct (iunlock_ok 1 s3 _ {[j]} j 2 1 C3 (elem_of_singleton_2 j j eq_refl) ltac:(by rewrite F3) Ld3 R3) as (s4 & E4 & R4 & C4 & L4 & F4 & Ld4 & _).
  rewrite difference_diag_L in C4. exists s4, ({[iblock j s2]} ∪ ∅), j. split; [by rewrite (lo_sb _ _ L4), Es|]. split; [rewrite union_empty_r_L, size_singleton; lia|].
  do 2 (split; [assumption|]). destruct (probe_loaded s4 j 2 1 Ld4 ltac:(by rewrite F4, F3)) as [Hw _]. destruct (probe_looks s3 s4 2 L4) as [Hp _].
  assert (disk_inode s4 2 = set_nlink 0 (disk_inode s2 2)) as Ed by (rewrite <- Hd; exact (looks_inode _ _ 2 L4)).
  split; [|split; [by rewrite F4, F3|split; [apply Ld4|split; [by rewrite Ed|intros k Hk; rewrite F4, F3; by apply Hno]]]].
  destruct (sd_file _ _ Sd3) as [Hsl _ _ _ _ _]. apply (same_sound s3 s4 j j); try assumption; [apply L4|exact (lo_blks _ _ L4)| |].
  - rewrite (ic_len _ _ _ C4), <- (ic_len _ _ _ C3). exact Hsl.
  - destruct Ld3 as (-> & -> & -> & _), Ld4 as (-> & -> & -> & _). rewrite Ed, Hd. done.
Qed.

Lemma iput_frees_witness : ∃ j s s', iput 1 1 j s = Ret tt s' ∧ refs s j = Some (2, 1) ∧ d_type (disk_inode s' 2) = 0.
Proof.
  destruct booted_unlinked as (s & P & j & Es & HP & R & C & Sd & Hr & Hv & Hn & Hno). exists j, s.
  destruct (iput_frees 1 1 j 2 ∅ s P {[bmapstart the_sb]}) as (s' & P' & E & _ & _ & Rc); try assumption.
  - apply Nat.lt_0_succ.
  - apply not_elem_of_empty.
  - intros k Hk. destruct (decide (k = j)) as [-> | Hkj]; [exact (proj2 (proj2 (proj2 (fo_iblock _ _ (sd_file _ _ Sd)))))|].
    specialize (Hno k Hkj). unfold refs in Hno. rewrite (proj2 (Z.ltb_lt _ _) Hk) in Hno. discriminate Hno.
  - intros b Hb. destruct (owns_taken j s (sd_file _ _ Sd) b Hb) as [(Hrg & _) _]. rewrite Es in *. change (sb_size the_sb) with 2000 in Hrg.
    apply elem_of_singleton. unfold BBLOCK. rewrite Z.div_small; [reflexivity|]. change BPB with 8192. lia.
  - pose proof (size_union_alt P {[bmapstart the_sb]}). pose proof (subseteq_size ({[bmapstart the_sb]} ∖ P) {[bmapstart the_sb]}) as H1.
    rewrite size_singleton in H1. specialize (H1 ltac:(set_solver)). unfold LOGCAP. lia.
  - exists s'. split; [exact E|]. split; [exact Hr|exact (rc_type _ _ _ _ _ _ Rc)].
Defined.
