(* ===== verification/Umalloc.v ===== *)
(** The user-level memory allocator, user/umalloc.c.

    A header (the union [header]) sits in front of every block and counts its size in
    headers, itself included.  [hdr] maps the address of a header to its two fields.  The
    free blocks form a ring through the headers, in address order, that starts at the static
    header [base].  [sbrk] is the system call: it moves the end of the process's memory and
    returns the old end, or -1; for a negative argument it does what growproc (proc.c) does. *)

From S2P Require Import Prelude.

Definition HEADER : Z := 16.

Record header := Header { hptr : Z; hsize : Z }.

Record heap := Heap {
  hdr : Z → header;
  freep : Z;
  brk : Z;
}.

Definition hupd (h : Z → header) (a : Z) (x : header) : Z → header := λ b, if b =? a then x else h b.

Lemma hupd_eq h a x : hupd h a x a = x.
Proof. unfold hupd. by rewrite Z.eqb_refl. Qed.
Lemma hupd_ne h a x b : b ≠ a → hupd h a x b = h b.
Proof. unfold hupd. intros Hne. by rewrite (proj2 (Z.eqb_neq _ _) Hne). Qed.

Definition set_hdr h s := Heap h (freep s) (brk s).
Definition set_freep p s := Heap (hdr s) p (brk s).
Definition set_brk b s := Heap (hdr s) (freep s) b.

Section umalloc.
(** Where [base] is, where the heap starts, and when the kernel grants memory. *)
Context (base heap0 : Z) (grant : heap → Z → bool).

(** An access to the header at [a]; a page past the end of memory faults. *)
Definition mapped (a : Z) (s : heap) : bool :=
  (a =? base) || ((heap0 <=? a) && (a + HEADER <=? (brk s + 4095) / 4096 * 4096)).

Definition rd (a : Z) : M heap header := λ s, if mapped a s then Ret (hdr s a) s else Fault "load page fault".
Definition wr_ptr (a p : Z) : M heap unit := λ s,
  if mapped a s then Ret tt (set_hdr (hupd (hdr s) a (Header p (hsize (hdr s a)))) s) else Fault "store page fault".
Definition wr_size (a n : Z) : M heap unit := λ s,
  if mapped a s then Ret tt (set_hdr (hupd (hdr s) a (Header (hptr (hdr s a)) (u32 n))) s) else Fault "store page fault".

(** sbrk(n) *)
Definition sbrk (n : Z) : M heap Z := λ s,
  if 0 <? n then if grant s n then Ret (brk s) (set_brk (brk s + n) s) else Ret (-1) s
  else if n <? 0 then Ret (brk s) (set_brk (if brk s <=? u64 (brk s + n) then brk s else u64 (brk s + n)) s)
  else Ret (brk s) s.

(** * The operations *)

(** The loop of [free] that looks for the place of [bp]. *)
Definition free_body (bp p : Z) : M heap (Z + Z) :=
  h ← rd p;
  if (p <? bp) && (bp <? hptr h) then mret (inr p)
  else if (hptr h <=? p) && ((p <? bp) || (bp <? hptr h)) then mret (inr p)
  else mret (inl (hptr h)).

(** Joining [bp] with the block after it. *)
Definition free_right (bp p : Z) : M heap unit :=
  hb ← rd bp; hp ← rd p;
  if bp + HEADER * hsize hb =? hptr hp then
    hn ← rd (hptr hp);
    wr_size bp (hsize hb + hsize hn);;
    wr_ptr bp (hptr hn)
  else wr_ptr bp (hptr hp).

(** Joining the block before it with [bp]. *)
Definition free_left (bp p : Z) : M heap unit :=
  hp ← rd p; hb ← rd bp;
  if p + HEADER * hsize hp =? bp then
    wr_size p (hsize hp + hsize hb);;
    wr_ptr p (hptr hb)
  else wr_ptr p bp.

Definition free (fuel : nat) (ap : Z) : M heap unit :=
  let bp := ap - HEADER in
  s ← get;
  p ← loop fuel (free_body bp) (freep s);
  free_right bp p;;
  free_left bp p;;
  modify (set_freep p).

Definition morecore (fuel : nat) (nu : Z) : M heap Z :=
  let nu := if nu <? 4096 then 4096 else nu in
  p ← sbrk (i32 (nu * HEADER));
  if p =? -1 then mret 0
  else
    wr_size p nu;;
    free fuel (p + HEADER);;
    s ← get; mret (freep s).

Definition malloc_body (fuel : nat) (nunits : Z) (st : Z * Z) : M heap ((Z * Z) + Z) :=
  let '(prevp, p) := st in
  h ← rd p;
  if nunits <=? hsize h then
    p' ← (if hsize h =? nunits then wr_ptr prevp (hptr h);; mret p
          else
            wr_size p (hsize h - nunits);;
            let p' := p + HEADER * u32 (hsize h - nunits) in
            wr_size p' nunits;; mret p');
    modify (set_freep prevp);;
    mret (inr (p' + HEADER))
  else
    s ← get;
    if p =? freep s then
      p ← morecore fuel nunits;
      if p =? 0 then mret (inr 0)
      else h ← rd p; mret (inl (p, hptr h))
    else mret (inl (p, hptr h)).

(** [nunits], a [uint], from the 64-bit expression in [nbytes] *)
Definition units (nbytes : Z) : Z := u32 ((nbytes + HEADER - 1) / HEADER + 1).

Definition malloc (fuel : nat) (nbytes : Z) : M heap Z :=
  s ← get;
  (if freep s =? 0 then wr_ptr base base;; modify (set_freep base);; wr_size base 0 else mret tt);;
  s ← get;
  h ← rd (freep s);
  loop fuel (malloc_body fuel (units nbytes)) (freep s, hptr h).

(** * The ring *)

(** A block: the address of its header and its size. *)
Abbreviation blk := (Z * Z)%type.
Definition bend (x : blk) : Z := x.1 + HEADER * x.2.

Definition hd_addr (l : list blk) (e : Z) : Z := match l with [] => e | y :: _ => y.1 end.

(** The headers of [l] hold their sizes and point each to the next, the last one to [e]. *)
Fixpoint chain (h : Z → header) (l : list blk) (e : Z) : Prop :=
  match l with
  | [] => True
  | x :: r => h x.1 = Header (hd_addr r e) x.2 ∧ chain h r e
  end.

(** In address order, with a gap between each block and the next. *)
Fixpoint ascending (a : Z) (l : list blk) : Prop :=
  match l with
  | [] => True
  | x :: r => a < x.1 ∧ ascending (bend x) r
  end.

Definition apart (x y : blk) : Prop := bend x ≤ y.1 ∨ bend y ≤ x.1.

(** [l] the free blocks, [A] the blocks in use. *)
Record heap_inv (s : heap) (l A : list blk) : Prop := {
  hi_chain : chain (hdr s) ((base, 0) :: l) base;
  hi_asc : ascending base l;
  hi_freep : freep s ∈ base :: l.*1;
  hi_block : ∀ x, x ∈ l ∨ x ∈ A → heap0 ≤ x.1 ∧ 1 ≤ x.2 ∧ bend x ≤ brk s;
  hi_nodup : NoDup A;
  hi_alloc : ∀ x y, x ∈ A → y ∈ A → x ≠ y → apart x y;
  hi_sep : ∀ x y, x ∈ l → y ∈ A → apart x y;
  hi_size : ∀ x, x ∈ A → hsize (hdr s x.1) = x.2;
  hi_brk : heap0 ≤ brk s ≤ 2 ^ 36;
}.

(** * Lists of blocks *)

Lemma chain_app h l1 l2 e : chain h (l1 ++ l2) e ↔ chain h l1 (hd_addr l2 e) ∧ chain h l2 e.
Proof.
  induction l1 as [|x l1 IH]; simpl; [tauto|]. rewrite IH. destruct l1; simpl; tauto.
Qed.

Lemma chain_ext h h' l e : (∀ x, x ∈ l → h' x.1 = h x.1) → chain h l e → chain h' l e.
Proof.
  induction l as [|x l IH]; simpl; [done|]. intros Hx [H0 Hc]. split; [rewrite Hx by left; done|].
  apply IH; [|done]. intros y Hy. apply Hx. by right.
Qed.

Lemma chain_hupd h l e a v : a ∉ l.*1 → chain h l e → chain (hupd h a v) l e.
Proof.
  intros Ha. apply chain_ext. intros x Hx. apply hupd_ne. intros <-. apply Ha, list_elem_of_fmap. by exists x.
Qed.

Definition last_end (a : Z) (l : list blk) : Z := match last l with Some x => bend x | None => a end.

Lemma ascending_app a l1 l2 : ascending a (l1 ++ l2) ↔ ascending a l1 ∧ ascending (last_end a l1) l2.
Proof.
  revert a. induction l1 as [|x l1 IH]; intros a; simpl; [unfold last_end; simpl; tauto|].
  rewrite IH. assert (last_end (bend x) l1 = last_end a (x :: l1)) as ->; [|tauto].
  unfold last_end. rewrite last_cons. by destruct (last l1).
Qed.

Lemma ascending_weaken a b l : b ≤ a → ascending a l → ascending b l.
Proof. destruct l; simpl; [done|]. intros ? []. split; [lia|done]. Qed.

Lemma ascending_lb a l x : (∀ y, y ∈ l → 0 ≤ y.2) → ascending a l → x ∈ l → a < x.1.
Proof.
  revert a. induction l as [|y l IH]; intros a Hp Ha Hx; [by apply elem_of_nil in Hx|].
  destruct Ha as [Hy Ha]. apply elem_of_cons in Hx as [->|Hx]; [done|].
  specialize (IH (bend y) (λ z Hz, Hp z (proj2 (elem_of_cons _ _ _) (or_intror Hz))) Ha Hx).
  pose proof (Hp y (proj2 (elem_of_cons _ _ _) (or_introl eq_refl))). unfold bend, HEADER in *. lia.
Qed.

(** Blocks on either side of a point of an ascending list. *)
Lemma ascending_split a l1 l2 : (∀ y, y ∈ l1 ++ l2 → 0 ≤ y.2) → ascending a (l1 ++ l2) →
  ∀ x y, x ∈ l1 → y ∈ l2 → bend x < y.1.
Proof.
  intros Hp Ha x y Hx Hy. apply list_elem_of_split in Hx as (u & v & ->).
  rewrite <- app_assoc in Ha. apply ascending_app in Ha as [_ Ha]. simpl in Ha. destruct Ha as [_ Ha].
  apply (ascending_lb (bend x) (v ++ l2)); [|done|apply elem_of_app; by right].
  intros z Hz. apply Hp. rewrite <- app_assoc. apply elem_of_app. right. right. done.
Qed.

(** The bytes of the blocks of [l]. *)
Definition in_blocks (l : list blk) (a : Z) : Prop := ∃ y, y ∈ l ∧ y.1 ≤ a < bend y.

Lemma in_blocks_app l1 l2 a : in_blocks (l1 ++ l2) a ↔ in_blocks l1 a ∨ in_blocks l2 a.
Proof. unfold in_blocks. set_solver. Qed.

Lemma in_blocks_cons x l a : in_blocks (x :: l) a ↔ x.1 ≤ a < bend x ∨ in_blocks l a.
Proof. unfold in_blocks. set_solver. Qed.

Lemma in_blocks_base l a : in_blocks ((base, 0) :: l) a ↔ in_blocks l a.
Proof. rewrite in_blocks_cons. unfold bend. simpl. split; [intros [?|?]; [lia|done]|by right]. Qed.

Lemma bend_base : bend (base, 0) = base.
Proof. unfold bend. simpl. lia. Qed.

(** In a ring in address order only the first block is [base]. *)
Lemma ring_members L l (G : blk → Prop) :
  L = (base, 0) :: l → ascending (base - 1) L → (∀ y, y ∈ L → y = (base, 0) ∨ 1 ≤ y.2 ∧ G y) → ∀ y, y ∈ l → 1 ≤ y.2 ∧ G y.
Proof.
  intros -> [_ Ha] HG y Hy. rewrite bend_base in Ha. destruct (HG y) as [->|?]; [by right| |done].
  assert (base < (base, 0).1); [|simpl in *; lia]. apply (ascending_lb base l); [|done|done].
  intros z Hz. destruct (HG z) as [->|[? _]]; [by right|done|lia].
Qed.

(** * Accesses *)

Hypothesis Hbase : 0 < base ∧ base + HEADER ≤ heap0.

Section run.
Context (s : heap) (l A : list blk).
Hypothesis I : heap_inv s l A.

Lemma mapped_block x : x ∈ l ∨ x ∈ A → mapped x.1 s = true.
Proof.
  intros Hx. destruct (hi_block _ _ _ I x Hx) as (? & ? & ?). unfold mapped, bend, HEADER in *.
  rewrite (proj2 (Z.leb_le heap0 x.1)) by done. apply orb_true_iff. right. apply Z.leb_le. zdm.
Qed.

Lemma mapped_base : mapped base s = true.
Proof. clear. unfold mapped. by rewrite Z.eqb_refl. Qed.

Lemma ring_mapped a : a ∈ base :: l.*1 → mapped a s = true.
Proof.
  intros [->|Ha]%elem_of_cons; [apply mapped_base|]. apply list_elem_of_fmap in Ha as (x & -> & Hx). apply mapped_block. by left.
Qed.

Lemma ring_pos y : y ∈ (base, 0) :: l → 0 ≤ y.2.
Proof.
  intros [->|Hy]%elem_of_cons; [done|]. destruct (hi_block _ _ _ I y (or_introl Hy)) as (? & ? & ?). lia.
Qed.

Lemma ring_ascending : ascending (base - 1) ((base, 0) :: l).
Proof. split; simpl; [lia|]. unfold bend. simpl. rewrite Z.mul_0_r, Z.add_0_r. apply I. Qed.

Lemma base_below x : x ∈ l ∨ x ∈ A → base + HEADER ≤ x.1.
Proof. intros Hx. destruct (hi_block _ _ _ I x Hx) as (? & _). lia. Qed.

Lemma ring_lookup u q v : (base, 0) :: l = u ++ q :: v → hdr s q.1 = Header (hd_addr v base) q.2.
Proof. intros E. pose proof (hi_chain _ _ _ I) as Hc. rewrite E in Hc. apply chain_app in Hc as [_ [Hq _]]. done. Qed.

Lemma ring_rd u q v : (base, 0) :: l = u ++ q :: v → rd q.1 s = Ret (Header (hd_addr v base) q.2) s.
Proof.
  intros E. unfold rd. rewrite ring_mapped, (ring_lookup u q v E); [done|].
  change (base :: l.*1) with (((base, 0) :: l).*1). rewrite E, fmap_app. apply elem_of_app. right. left.
Qed.

Lemma ring_order u v : (base, 0) :: l = u ++ v → ∀ x y, x ∈ u → y ∈ v → bend x < y.1.
Proof.
  intros E. apply (ascending_split (base - 1)); rewrite <- E; [apply ring_pos|apply ring_ascending].
Qed.

Lemma ring_base x : x ∈ (base, 0) :: l → base ≤ x.1.
Proof. intros [->|Hx]%elem_of_cons; [done|]. pose proof (base_below x (or_introl Hx)). unfold HEADER in *. lia. Qed.

(** * Where a block belongs *)

Lemma place_exists bp : ∀ r p a,
  p.1 < bp → ascending a (p :: r) → (∀ y, y ∈ p :: r → 0 ≤ y.2) → (∀ y, y ∈ r → y.1 ≠ bp) →
  ∃ l1 q l2, p :: r = l1 ++ q :: l2 ∧ q.1 < bp ∧ (∀ y, y ∈ l2 → bp < y.1).
Proof.
  induction r as [|y r IH]; intros p a Hp Ha Hpos Hne.
  - exists [], p, []. split; [done|]. split; [done|]. intros y Hy. by apply elem_of_nil in Hy.
  - destruct Ha as [_ Ha]. destruct (decide (y.1 < bp)) as [Hy|Hy].
    + destruct (IH y (bend p) Hy Ha) as (l1 & q & l2 & E & Hq & H2).
      * intros z Hz. apply Hpos. by right.
      * intros z Hz. apply Hne. by right.
      * exists (p :: l1), q, l2. split; [by rewrite E|done].
    + exists [], p, (y :: r). split; [done|]. split; [done|].
      assert (bp < y.1) as Hlt by (assert (y.1 ≠ bp) by (apply Hne; left); lia).
      intros z [->|Hz]%elem_of_cons; [done|]. destruct Ha as [_ Ha].
      assert (bend y < z.1) by (apply (ascending_lb (bend y) r); [intros w Hw; apply Hpos; by right; right|done|done]).
      assert (0 ≤ y.2) by (apply Hpos; right; left). unfold bend, HEADER in *. lia.
Qed.

Section place.
Context (bp : Z) (l1 : list blk) (p : blk) (l2 : list blk).
Hypothesis Hbp : base < bp.
Hypothesis E : (base, 0) :: l = l1 ++ p :: l2.
Hypothesis Hp : p.1 < bp.
Hypothesis Hl2 : ∀ y, y ∈ l2 → bp < y.1.

Lemma free_stop : free_body bp p.1 s = Ret (inr p.1) s.
Proof.
  unfold free_body, mbind, M_bind. rewrite (ring_rd l1 p l2 E). cbn [res_bind hptr].
  rewrite (proj2 (Z.ltb_lt p.1 bp)) by done. destruct l2 as [|y r]; cbn [hd_addr].
  - rewrite (proj2 (Z.ltb_ge bp base)) by lia. rewrite (proj2 (Z.leb_le base p.1)); [done|].
    apply ring_base. rewrite E. apply elem_of_app. right. left.
  - by rewrite (proj2 (Z.ltb_lt bp y.1)) by (apply Hl2; left).
Qed.

Lemma free_before u q v : l1 = u ++ q :: v → free_body bp q.1 s = Ret (inl (hd_addr (v ++ [p]) base)) s.
Proof.
  intros El1. unfold free_body, mbind, M_bind.
  assert ((base, 0) :: l = u ++ q :: (v ++ p :: l2)) as E' by (rewrite E, El1, <- app_assoc; done).
  rewrite (ring_rd u q _ E'). cbn [res_bind hptr].
  assert (hd_addr (v ++ p :: l2) base = hd_addr (v ++ [p]) base) as -> by (by destruct v).
  assert (q.1 < hd_addr (v ++ [p]) base ≤ p.1) as [Hq Hn].
  { assert (∀ y, y ∈ v ++ p :: l2 → bend q < y.1) as Hlt.
    { intros y Hy. apply (ring_order (u ++ [q]) (v ++ p :: l2)); [by rewrite <- app_assoc| |done]. apply elem_of_app. right. left. }
    assert (q.1 ≤ bend q) as Hqq.
    { pose proof (ring_pos q). assert (0 ≤ q.2) by (apply ring_pos; rewrite E'; apply elem_of_app; right; left).
      unfold bend, HEADER. lia. }
    destruct v as [|y v]; cbn [hd_addr app].
    - specialize (Hlt p ltac:(left)). lia.
    - pose proof (Hlt y ltac:(left)). split; [lia|].
      assert (bend y < p.1); [|assert (0 ≤ y.2); [|unfold bend, HEADER in *; lia]].
      + apply (ring_order (u ++ q :: y :: v) (p :: l2)); [by rewrite E', <- app_assoc| |left].
        apply elem_of_app. right. right. left.
      + apply ring_pos. rewrite E'. apply elem_of_app. right. right. left. }
  rewrite (proj2 (Z.ltb_ge bp _)) by lia. rewrite andb_false_r. by rewrite (proj2 (Z.leb_gt _ q.1)) by lia.
Qed.

Lemma free_after u q v : l2 = u ++ q :: v → free_body bp q.1 s = Ret (inl (hd_addr v base)) s.
Proof.
  intros El2. unfold free_body, mbind, M_bind.
  assert ((base, 0) :: l = (l1 ++ p :: u) ++ q :: v) as E' by (rewrite E, El2, <- app_assoc; done).
  rewrite (ring_rd _ q v E'). cbn [res_bind hptr].
  assert (bp < q.1) as Hq by (apply Hl2; rewrite El2; apply elem_of_app; right; left).
  rewrite (proj2 (Z.ltb_ge q.1 bp)) by lia. cbn [andb orb]. destruct v as [|y v]; cbn [hd_addr].
  - by rewrite (proj2 (Z.ltb_ge bp base)), andb_false_r by lia.
  - assert (bend q < y.1).
    { apply (ring_order ((l1 ++ p :: u) ++ [q]) (y :: v)); [by rewrite E', <- !app_assoc| |left]. apply elem_of_app. right. left. }
    assert (0 ≤ q.2) by (apply ring_pos; rewrite E'; apply elem_of_app; right; left).
    rewrite (proj2 (Z.leb_gt y.1 q.1)) by (unfold bend, HEADER in *; lia). done.
Qed.

(** The search ends at [p] from wherever it starts. *)
Lemma free_from_before m : ∀ u fuel, l1 = u ++ m → (length m < fuel)%nat →
  loop fuel (free_body bp) (hd_addr (m ++ [p]) base) s = Ret p.1 s.
Proof.
  induction m as [|q m IH]; intros u fuel El1 Hf; (destruct fuel as [|fuel]; [simpl in Hf; lia|]); cbn [hd_addr app].
  - apply loop_done, free_stop.
  - rewrite (loop_next _ _ _ _ _ _ (free_before u q m El1)). apply (IH (u ++ [q])); [by rewrite <- app_assoc|simpl in Hf; lia].
Qed.

Lemma free_from_after m : ∀ u fuel, l2 = u ++ m → (length m + length l1 < fuel)%nat →
  loop fuel (free_body bp) (hd_addr m base) s = Ret p.1 s.
Proof.
  induction m as [|q m IH]; intros u fuel El2 Hf.
  - assert (hd_addr (l1 ++ [p]) base = base) as Eb.
    { destruct l1 as [|y r]; cbn [hd_addr app] in *; by injection E as <- _. }
    cbn [hd_addr]. rewrite <- Eb at 1. apply (free_from_before l1 []); [done|simpl in Hf; lia].
  - destruct fuel as [|fuel]; [simpl in Hf; lia|]. cbn [hd_addr].
    rewrite (loop_next _ _ _ _ _ _ (free_after u q m El2)). apply (IH (u ++ [q])); [by rewrite <- app_assoc|simpl in Hf; lia].
Qed.

Lemma ring_search fuel : (length l + 1 < fuel)%nat → loop fuel (free_body bp) (freep s) s = Ret p.1 s.
Proof.
  intros Hf. assert (length l1 + length l2 = length l)%nat as Hlen.
  { pose proof (f_equal length E) as El. rewrite length_app in El. simpl in El. lia. }
  pose proof (hi_freep _ _ _ I) as Hfp. change (base :: l.*1) with (((base, 0) :: l).*1) in Hfp. rewrite E in Hfp.
  rewrite fmap_app, elem_of_app, fmap_cons, elem_of_cons in Hfp. destruct Hfp as [Hfp|[Hfp|Hfp]].
  - apply list_elem_of_fmap in Hfp as (q & -> & (u & v & El1)%list_elem_of_split).
    apply (free_from_before (q :: v) u); [done|]. rewrite El1, length_app in Hlen. simpl in *. lia.
  - rewrite Hfp. apply (free_from_before [] l1); [by rewrite app_nil_r|simpl; lia].
  - apply list_elem_of_fmap in Hfp as (q & -> & (u & v & El2)%list_elem_of_split).
    apply (free_from_after (q :: v) u); [done|]. rewrite El2, length_app in Hlen. simpl in *. lia.
Qed.

(** * Putting a block back *)

Context (n : Z) (A' : list blk).
Hypothesis HA : A ≡ₚ (bp, n) :: A'.

(** The block merged with its right neighbour, and the blocks after it. *)
Definition join_right : blk * list blk :=
  match l2 with
  | y :: r => if bend (bp, n) =? y.1 then ((bp, n + y.2), r) else ((bp, n), l2)
  | [] => ((bp, n), l2)
  end.

(** The ring with the block in it. *)
Definition join : list blk :=
  let '(x, r) := join_right in
  if bend p =? bp then l1 ++ (p.1, p.2 + x.2) :: r else l1 ++ p :: x :: r.

Lemma in_A : (bp, n) ∈ A.
Proof. rewrite HA. left. Qed.

Lemma own_block : heap0 ≤ bp ∧ 1 ≤ n ∧ bend (bp, n) ≤ brk s.
Proof. apply (hi_block _ _ _ I (bp, n)). right. apply in_A. Qed.

Lemma p_pos : 0 ≤ p.2.
Proof. apply ring_pos. rewrite E. apply elem_of_app. right. left. Qed.

Lemma l2_free y : y ∈ l2 → y ∈ l.
Proof.
  intros Hy. assert (y ∈ (base, 0) :: l) as [->|?]%elem_of_cons by (rewrite E; apply elem_of_app; right; right; done); [|done].
  apply Hl2 in Hy. simpl in Hy. lia.
Qed.

Lemma p_before : bend p ≤ bp.
Proof.
  assert (p ∈ (base, 0) :: l) as [->|Hpl]%elem_of_cons by (rewrite E; apply elem_of_app; right; left).
  - unfold bend. simpl. lia.
  - destruct (hi_sep _ _ _ I p (bp, n) Hpl in_A) as [?|Hb]; [done|].
    pose proof own_block. unfold bend, HEADER in *. simpl in *. lia.
Qed.

Lemma l2_after y : y ∈ l2 → bend (bp, n) ≤ y.1.
Proof.
  intros Hy. destruct (hi_sep _ _ _ I y (bp, n) (l2_free y Hy) in_A) as [Hb|?]; [|done].
  pose proof (Hl2 y Hy). destruct (hi_block _ _ _ I y (or_introl (l2_free y Hy))) as (_ & ? & _). unfold bend, HEADER in *. simpl in *. lia.
Qed.

Lemma l2_ascending : ascending (last_end (base - 1) l1) (p :: l2) ∧ ascending (base - 1) l1.
Proof. pose proof ring_ascending as Ha. rewrite E in Ha. apply ascending_app in Ha as [? ?]. done. Qed.

(** What the merge on the right gives. *)
Lemma join_right_spec : let '(x, r) := join_right in
  x.1 = bp ∧ n ≤ x.2 ∧ bend x ≤ brk s ∧ ascending (bend x) r ∧ (∀ y, y ∈ r → y ∈ l2) ∧ (length r ≤ length l2)%nat ∧
  (∀ a, a ∈ A' → apart (bp, n) a → apart x a) ∧
  (x.2 = n ∧ r = l2 ∨ ∃ y, l2 = y :: r ∧ y.1 = bend (bp, n) ∧ x.2 = n + y.2).
Proof.
  destruct l2_ascending as [[_ Ha] _]. pose proof own_block as (? & ? & ?).
  pose proof l2_free as Hfree. pose proof l2_after as Hafter. unfold join_right.
  destruct l2 as [|y r]; [by split_and!; try (left; done)|].
  destruct (Z.eqb_spec (bend (bp, n)) y.1) as [Ey|Ey].
  - pose proof (Hfree y ltac:(left)) as Hyl.
    destruct (hi_block _ _ _ I y (or_introl Hyl)) as (_ & ? & ?). destruct Ha as [_ Ha].
    assert (bend (bp, n + y.2) = bend y) as Eb by (unfold bend, HEADER in *; simpl in *; lia).
    rewrite Eb. simpl. split_and!; try done; try lia.
    + intros z Hz. by right.
    + intros a HaA Hap. assert (a ∈ A) as HaA' by (rewrite HA; by right).
      pose proof (hi_sep _ _ _ I y a Hyl HaA') as Hya.
      destruct (hi_block _ _ _ I a (or_intror HaA')) as (_ & ? & _). unfold apart in *. rewrite Eb.
      unfold bend, HEADER in *. simpl in *. lia.
    + right. by exists y.
  - pose proof (Hafter y ltac:(left)). destruct Ha as [_ Ha]. simpl. split_and!; try done; try lia. by left.
Qed.

Lemma mapped_bp : mapped bp s = true.
Proof. apply (mapped_block (bp, n)). right. apply in_A. Qed.

Lemma size_small x : heap0 ≤ x.1 → bend x ≤ brk s → 0 ≤ x.2 → u32 x.2 = x.2.
Proof. pose proof (hi_brk _ _ _ I). intros. apply u32_id. unfold bend, HEADER in *. lia. Qed.

Lemma mapped_hdr a h t : mapped a (set_hdr h t) = mapped a t.
Proof. done. Qed.

Lemma run_right : let '(x, r) := join_right in
  ∃ h, free_right bp p.1 s = Ret tt (set_hdr h s) ∧ h bp = Header (hd_addr r base) x.2 ∧ ∀ b, b ≠ bp → h b = hdr s b.
Proof.
  pose proof join_right_spec as J. pose proof own_block as (Hb1 & Hb2 & _). pose proof mapped_bp as Hm.
  pose proof (hi_size _ _ _ I _ in_A) as Hn. simpl in Hn. unfold free_right, mbind, M_bind. unfold rd at 1. rewrite Hm. cbn [res_bind].
  rewrite (ring_rd l1 p l2 E). cbn [res_bind hptr]. rewrite Hn.
  destruct join_right as [x r] eqn:Ej. destruct J as (Ex & Hx & Hxb & _ & _ & _ & _ & J).
  destruct J as [[Ex2 ->]|(y & El2 & Hy & Ex2)].
  - assert (bp + HEADER * n ≠ hd_addr l2 base) as Hne.
    { unfold join_right in Ej. destruct l2 as [|y r']; cbn [hd_addr]; [unfold HEADER; lia|].
      destruct (Z.eqb_spec (bend (bp, n)) y.1) as [Ey|Ey]; [|done].
      injection Ej as _ Er. apply (f_equal length) in Er. simpl in Er. lia. }
    rewrite (proj2 (Z.eqb_neq _ _) Hne). unfold wr_ptr. rewrite Hm, Hn. eexists. split; [done|].
    rewrite hupd_eq, Ex2. split; [done|]. intros b Hb. by apply hupd_ne.
  - rewrite El2. cbn [hd_addr]. assert (bp + HEADER * n = y.1) as Eq by (rewrite Hy; done). rewrite (proj2 (Z.eqb_eq _ _) Eq).
    assert ((base, 0) :: l = (l1 ++ [p]) ++ y :: r) as E2 by (rewrite <- app_assoc; cbn; by rewrite E, El2).
    rewrite (ring_rd _ y r E2). cbn [res_bind hptr hsize]. unfold wr_size, wr_ptr. rewrite Hm. cbn [res_bind].
    change (mapped bp (set_hdr _ s)) with (mapped bp s). rewrite Hm.
    assert (u32 (n + y.2) = x.2) as Eu.
    { rewrite <- Ex2. apply size_small; [by rewrite Ex|done|lia]. }
    rewrite Eu. eexists. split; [done|]. cbn [hdr set_hdr]. rewrite !hupd_eq. split; [done|].
    intros b Hb. by rewrite !hupd_ne.
Qed.

Lemma run_left h x r :
  join_right = (x, r) → h bp = Header (hd_addr r base) x.2 → (∀ b, b ≠ bp → h b = hdr s b) →
  ∃ h', free_left bp p.1 (set_hdr h s) = Ret tt (set_hdr h' s) ∧
    (if bend p =? bp then h' p.1 = Header (hd_addr r base) (p.2 + x.2) else h' p.1 = Header bp p.2 ∧ h' bp = h bp) ∧
    ∀ b, b ≠ bp → b ≠ p.1 → h' b = hdr s b.
Proof.
  intros Ej Hbp' Hoth. pose proof join_right_spec as J. rewrite Ej in J. destruct J as (Ex & Hx & Hxb & _).
  pose proof own_block as (? & ? & _). pose proof mapped_bp as Hm. pose proof p_pos.
  assert (p.1 ≠ bp) as Hne by lia. assert (mapped p.1 s = true) as Hmp.
  { apply ring_mapped. change (base :: l.*1) with (((base, 0) :: l).*1). rewrite E, fmap_app. apply elem_of_app. right. left. }
  unfold free_left, mbind, M_bind, rd. change (mapped _ (set_hdr h s)) with (mapped p.1 s). rewrite Hmp. cbn [res_bind].
  change (mapped bp (set_hdr h s)) with (mapped bp s). rewrite Hm. cbn [res_bind hdr set_hdr].
  rewrite (Hoth p.1 Hne), (ring_lookup l1 p l2 E), Hbp'. cbn [hptr hsize]. change (p.1 + HEADER * p.2) with (bend p).
  unfold wr_size, wr_ptr.
  destruct (Z.eqb_spec (bend p) bp) as [Ep|Ep]; cbv beta; rewrite mapped_hdr, Hmp; cbn [res_bind].
  - rewrite !mapped_hdr, Hmp. eexists. split; [done|]. cbn [hdr set_hdr].
    rewrite !hupd_eq. cbn [hsize]. split.
    + f_equal. apply (size_small (p.1, p.2 + x.2)); simpl; [| |lia].
      * assert (p ∈ (base, 0) :: l) as [Hpb|Hpl]%elem_of_cons by (rewrite E; apply elem_of_app; right; left).
        -- subst p. unfold bend in Ep. simpl in Ep. lia.
        -- apply (hi_block _ _ _ I p). by left.
      * unfold bend, HEADER in *. simpl in *. lia.
    + intros b Hb1 Hb2. rewrite !hupd_ne by done. by apply Hoth.
  - eexists. split; [done|]. cbn [hdr set_hdr]. rewrite hupd_eq, hupd_ne by done.
    rewrite (Hoth p.1 Hne), (ring_lookup l1 p l2 E). split; [done|].
    intros b Hb1 Hb2. rewrite hupd_ne by done. by apply Hoth.
Qed.

(** A block that may be in the free list beside the blocks of [A']. *)
Definition good (y : blk) : Prop := heap0 ≤ y.1 ∧ 1 ≤ y.2 ∧ bend y ≤ brk s ∧ ∀ a, a ∈ A' → apart y a.

Lemma A'_in a : a ∈ A' → a ∈ A.
Proof. intros Ha. rewrite HA. by right. Qed.

Lemma A'_apart a : a ∈ A' → apart (bp, n) a.
Proof.
  intros Ha. apply (hi_alloc _ _ _ I); [apply in_A|by apply A'_in|]. intros <-.
  pose proof (hi_nodup _ _ _ I) as Hn. rewrite HA in Hn. apply NoDup_cons in Hn as [? _]. done.
Qed.

Lemma free_good y : y ∈ l → good y.
Proof.
  intros Hy. destruct (hi_block _ _ _ I y (or_introl Hy)) as (? & ? & ?). split_and!; try done.
  intros a Ha. apply (hi_sep _ _ _ I); [done|by apply A'_in].
Qed.

Lemma ring_good y : y ∈ l1 ++ p :: l2 → y = (base, 0) ∨ good y.
Proof. rewrite <- E. intros [->|Hy]%elem_of_cons; [by left|right; by apply free_good]. Qed.

Lemma join_good y : y ∈ join → y = (base, 0) ∨ good y.
Proof.
  pose proof join_right_spec as J. unfold join. destruct join_right as [x r]. destruct J as (Ex & Hx & Hxb & _ & Hr & _ & Hxa & _).
  pose proof own_block as (? & ? & _).
  assert (good x) as Gx.
  { split_and!; [by rewrite Ex|lia|done|]. intros a Ha. apply Hxa; [done|by apply A'_apart]. }
  assert (∀ z, z ∈ r → good z) as Gr by (intros z Hz; by apply free_good, l2_free, Hr).
  destruct (Z.eqb_spec (bend p) bp) as [Ep|Ep]; intros [Hy|Hy]%elem_of_app.
  - apply ring_good, elem_of_app. by left.
  - apply elem_of_cons in Hy as [->|Hy]; [right|right; by apply Gr].
    destruct (ring_good p) as [Epb|(? & ? & ? & Hpa)]; [apply elem_of_app; right; left| |].
    { subst p. unfold bend in Ep. simpl in Ep. lia. }
    assert (bend (p.1, p.2 + x.2) = bend x) as Eb by (unfold bend, HEADER in *; simpl in *; lia).
    split_and!; simpl; [done|lia|by rewrite Eb|]. intros a Ha. specialize (Hpa a Ha). destruct Gx as (_ & _ & _ & Gx). specialize (Gx a Ha).
    destruct (hi_block _ _ _ I a (or_intror (A'_in a Ha))) as (_ & ? & _). unfold apart in *. rewrite Eb.
    unfold bend, HEADER in *. simpl in *. lia.
  - apply ring_good, elem_of_app. by left.
  - apply elem_of_cons in Hy as [->|Hy]; [apply ring_good, elem_of_app; right; left|].
    right. apply elem_of_cons in Hy as [->|Hy]; [done|by apply Gr].
Qed.

Lemma join_ascending : ascending (base - 1) join.
Proof.
  pose proof join_right_spec as J. unfold join. destruct join_right as [x r]. destruct J as (Ex & Hx & Hxb & Ha & _).
  destruct l2_ascending as [[Hp1 _] Ha1]. pose proof p_before as Hpb.
  destruct (Z.eqb_spec (bend p) bp) as [Ep|Ep]; apply ascending_app; (split; [done|]).
  - split; [done|]. assert (bend (p.1, p.2 + x.2) = bend x) as -> by (unfold bend, HEADER in *; simpl in *; lia). done.
  - split; [done|]. split; [rewrite Ex; lia|done].
Qed.

Lemma join_head : ∃ l', join = (base, 0) :: l' ∧ (length l' ≤ length l + 1)%nat.
Proof.
  pose proof join_right_spec as J. unfold join. destruct join_right as [x r]. destruct J as (_ & _ & _ & _ & _ & Hr & _).
  pose proof (f_equal length E) as Hlen. rewrite length_app in Hlen. simpl in Hlen.
  destruct (Z.eqb_spec (bend p) bp) as [Ep|Ep]; destruct l1 as [|c l1']; cbn in E; injection E as E0 E1; rewrite <- ?E0 in *.
  - unfold bend in Ep. simpl in Ep. lia.
  - eexists. split; [done|]. rewrite length_app. simpl in *. lia.
  - eexists. split; [done|]. simpl in *. lia.
  - eexists. split; [done|]. rewrite length_app. simpl in *. lia.
Qed.

Lemma join_chain h x r :
  join_right = (x, r) →
  (if bend p =? bp then h p.1 = Header (hd_addr r base) (p.2 + x.2) else h p.1 = Header bp p.2 ∧ h bp = Header (hd_addr r base) x.2) →
  (∀ b, b ≠ bp → b ≠ p.1 → h b = hdr s b) → chain h join base.
Proof.
  intros Ej Hh Hoth. pose proof join_right_spec as J. unfold join. rewrite Ej in *. destruct J as (Ex & _ & _ & _ & Hr & _ & _ & J).
  pose proof (hi_chain _ _ _ I) as Hc. rewrite E in Hc. apply chain_app in Hc as [Hc1 [_ Hc2]]. cbn [hd_addr] in Hc1.
  assert (chain h l1 p.1) as C1.
  { eapply chain_ext; [|exact Hc1]. intros y Hy.
    assert (bend y < p.1) by (apply (ring_order l1 (p :: l2) E); [done|left]).
    assert (0 ≤ y.2) by (apply ring_pos; rewrite E; apply elem_of_app; by left).
    apply Hoth; unfold bend, HEADER in *; lia. }
  assert (chain h r base) as Cr.
  { eapply chain_ext; [intros y Hy; pose proof (Hl2 y (Hr y Hy)); apply Hoth; lia|].
    destruct J as [[_ ->]|(y & El2 & _)]; [done|]. rewrite El2 in Hc2. apply Hc2. }
  destruct (bend p =? bp); apply chain_app; (split; [done|]).
  - by split.
  - destruct Hh as [Hp' Hb']. split; [cbn [hd_addr]; by rewrite Ex|]. split; [by rewrite Ex|done].
Qed.

Lemma free_ok fuel : (length l + 1 < fuel)%nat →
  ∃ s' l', free fuel (bp + HEADER) s = Ret tt s' ∧ heap_inv s' l' A' ∧ (base, 0) :: l' = join ∧
    (length l' ≤ length l + 1)%nat ∧ freep s' = p.1 ∧ brk s' = brk s.
Proof.
  intros Hf. unfold free, mbind, M_bind, get. cbn [res_bind]. replace (bp + HEADER - HEADER) with bp by lia.
  rewrite (ring_search fuel Hf). cbn [res_bind].
  pose proof run_right as R. destruct join_right as [x r] eqn:Ej. destruct R as (h & E1 & Hb & Ho). rewrite E1. cbn [res_bind].
  destruct (run_left h x r Ej Hb Ho) as (h' & E2 & Hh & Ho'). rewrite E2. cbn [res_bind]. unfold modify.
  destruct join_head as (l' & El' & Hlen). exists (set_freep p.1 (set_hdr h' s)), l'.
  split; [done|]. split; [|split; [done|done]].
  pose proof join_good as G. pose proof join_ascending as Ha. rewrite El' in G, Ha. destruct Ha as [_ Ha].
  unfold bend in Ha. simpl in Ha. rewrite Z.mul_0_r, Z.add_0_r in Ha.
  assert (∀ y, y ∈ l' → good y) as Gl.
  { intros y Hy. destruct (G y) as [->|?]; [by right| |done].
    assert (base < (base, 0).1); [|simpl in *; lia]. apply (ascending_lb base l'); [|done|done].
    intros z Hz. destruct (G z) as [->|(_ & ? & _)]; [by right|done|lia]. }
  constructor; cbn [hdr freep brk set_freep set_hdr].
  - rewrite <- El'. apply (join_chain h' x r Ej); [|done]. destruct (bend p =? bp); [done|]. by rewrite <- Hb.
  - done.
  - change (base :: l'.*1) with (((base, 0) :: l').*1). rewrite <- El'. unfold join. rewrite Ej.
    destruct (bend p =? bp); rewrite fmap_app; apply elem_of_app; right; left.
  - intros y [Hy|Hy]; [destruct (Gl y Hy) as (? & ? & ? & _); done|]. apply (hi_block _ _ _ I). right. by apply A'_in.
  - pose proof (hi_nodup _ _ _ I) as Hn. rewrite HA in Hn. by apply NoDup_cons in Hn as [_ ?].
  - intros y z Hy Hz. apply (hi_alloc _ _ _ I); by apply A'_in.
  - intros y a Hy Ha'. by apply (Gl y Hy).
  - intros y Hy. rewrite Ho'; [apply (hi_size _ _ _ I); by apply A'_in| |].
    + pose proof (A'_apart y Hy) as Hap. intros Eb. destruct (hi_block _ _ _ I y (or_intror (A'_in y Hy))) as (_ & ? & _).
      pose proof own_block. unfold apart, bend, HEADER in *. simpl in *. lia.
    + intros Ep. pose proof (base_below y (or_intror (A'_in y Hy))) as Hby.
      assert (p ∈ (base, 0) :: l) as [Hpb|Hpl]%elem_of_cons by (rewrite E; apply elem_of_app; right; left).
      { rewrite Hpb in Ep. simpl in Ep. unfold HEADER in *. lia. }
      pose proof (hi_sep _ _ _ I p y Hpl (A'_in y Hy)) as Hap.
      destruct (hi_block _ _ _ I y (or_intror (A'_in y Hy))) as (_ & ? & _).
      destruct (hi_block _ _ _ I p (or_introl Hpl)) as (_ & ? & _). unfold apart, bend, HEADER in *. lia.
  - apply I.
Qed.

Lemma join_right_bytes : let '(x, r) := join_right in
  ∀ a, in_blocks (x :: r) a ↔ bp ≤ a < bend (bp, n) ∨ in_blocks l2 a.
Proof.
  pose proof join_right_spec as J. destruct join_right as [[x1 x2] r]. destruct J as (Ex & _ & _ & _ & _ & _ & _ & J).
  pose proof own_block as (_ & ? & _). intros a. simpl in Ex, J. subst x1.
  destruct J as [[-> ->]|(y & El2 & Ey & ->)]; [by rewrite in_blocks_cons|].
  rewrite El2, !in_blocks_cons. assert (y ∈ l2) as Hy by (rewrite El2; left).
  destruct (hi_block _ _ _ I y (or_introl (l2_free y Hy))) as (_ & ? & _).
  assert (bend (bp, n + y.2) = bend y) as -> by (unfold bend, HEADER in *; simpl in *; lia).
  assert (bp ≤ a < bend y ↔ bp ≤ a < bend (bp, n) ∨ y.1 ≤ a < bend y) as Hiff.
  { rewrite Ey. unfold bend, HEADER in *. simpl in *. lia. }
  simpl. tauto.
Qed.

Lemma join_bytes a : in_blocks join a ↔ in_blocks (l1 ++ p :: l2) a ∨ bp ≤ a < bend (bp, n).
Proof.
  pose proof join_right_bytes as Hxr. pose proof join_right_spec as J. pose proof p_pos as Hp0. unfold join.
  destruct join_right as [[x1 x2] r]. destruct J as (Ex & Hx & _). simpl in Ex, Hx. subst x1. pose proof own_block as (_ & ? & _).
  specialize (Hxr a). rewrite in_blocks_cons in Hxr. simpl in Hxr.
  destruct (Z.eqb_spec (bend p) bp) as [Ep|Ep]; rewrite !in_blocks_app, !in_blocks_cons; simpl; [|tauto].
  assert (p.1 ≤ a < bend (p.1, p.2 + x2) ↔ p.1 ≤ a < bend p ∨ bp ≤ a < bend (bp, x2)) as ->; [|tauto].
  unfold bend, HEADER in *. simpl in *. lia.
Qed.

Lemma join_fits : ∃ y, y ∈ join ∧ n ≤ y.2.
Proof.
  pose proof join_right_spec as J. pose proof p_pos as Hp0. unfold join.
  destruct join_right as [x r]. destruct J as (_ & Hx & _).
  destruct (bend p =? bp); eexists; (split; [apply elem_of_app; right|]); [left|simpl; lia|right; left|done].
Qed.
End place.
End run.

(** What [free] does to a block in use. *)
Lemma free_block s l A A' x fuel :
  heap_inv s l A → A ≡ₚ x :: A' → (length l + 1 < fuel)%nat →
  ∃ s' l', free fuel (x.1 + HEADER) s = Ret tt s' ∧ heap_inv s' l' A' ∧ (length l' ≤ length l + 1)%nat ∧ brk s' = brk s ∧
    (∀ a, in_blocks l' a ↔ in_blocks l a ∨ x.1 ≤ a < bend x) ∧
    ∃ y, y ∈ l' ∧ x.2 ≤ y.2.
Proof.
  intros I HA Hf. destruct x as [bp n]. cbn [fst snd].
  assert ((bp, n) ∈ A) as Hin by (rewrite HA; left).
  pose proof (base_below s l A I (bp, n) (or_intror Hin)) as Hb. unfold HEADER in Hb. simpl in Hb.
  destruct (hi_block _ _ _ I (bp, n) (or_intror Hin)) as (Hb1 & Hb2 & Hb3). simpl in Hb1, Hb2.
  destruct (place_exists bp l (base, 0) (base - 1)) as (l1 & p & l2 & E & Hp & Hl2).
  - simpl. lia.
  - by apply (ring_ascending s l A).
  - by apply (ring_pos s l A).
  - intros y Hy Ey. destruct (hi_sep _ _ _ I y (bp, n) Hy Hin) as [Ha|Ha];
      destruct (hi_block _ _ _ I y (or_introl Hy)) as (_ & ? & _); unfold bend, HEADER in Ha; simpl in Ha; lia.
  - assert (base < bp) as Hlt by lia.
    destruct (free_ok s l A I bp l1 p l2 Hlt E Hp Hl2 n A' HA fuel Hf) as (s' & l' & Ef & I' & Ej & Hlen & _ & Hbrk).
    exists s', l'. split; [done|]. split; [done|]. split; [done|]. split; [done|].
    split.
    + intros a. rewrite <- (in_blocks_base l' a), Ej, <- (in_blocks_base l a), E. by apply (join_bytes s l A I bp l1 p l2 Hlt E Hp Hl2 n A').
    + destruct (join_fits s l A I bp l1 p l2 Hlt E Hl2 n A' HA) as (y & Hy & Hyn). exists y. split; [|done].
      rewrite <- Ej in Hy. apply elem_of_cons in Hy as [->|?]; [simpl in Hyn; lia|done].
Qed.

(** * malloc *)

Section take.
Context (s : heap) (l A : list blk) (n : Z).
Hypothesis I : heap_inv s l A.
Hypothesis Hn : 1 ≤ n.

Lemma ring_ne u x v y : (base, 0) :: l = u ++ x :: v → y ∈ u ∨ y ∈ v → y.1 ≠ x.1.
Proof.
  intros E Hy. assert (0 ≤ x.2) by (apply (ring_pos s l A I); rewrite E; apply elem_of_app; right; left).
  destruct Hy as [Hy|Hy].
  - assert (bend y < x.1) by (apply (ring_order s l A I u (x :: v) E); [done|left]).
    assert (0 ≤ y.2) by (apply (ring_pos s l A I); rewrite E; apply elem_of_app; by left). unfold bend, HEADER in *. lia.
  - assert (bend x < y.1).
    { apply (ring_order s l A I (u ++ [x]) v); [by rewrite <- app_assoc| |done]. apply elem_of_app. right. left. }
    unfold bend, HEADER in *. lia.
Qed.

Lemma alloc_ne y a : y ∈ (base, 0) :: l → a ∈ A → a.1 ≠ y.1.
Proof.
  intros [->|Hy]%elem_of_cons Ha; [pose proof (base_below s l A I a (or_intror Ha)); simpl; unfold HEADER in *; lia|].
  pose proof (hi_sep _ _ _ I y a Hy Ha). destruct (hi_block _ _ _ I a (or_intror Ha)) as (_ & ? & _).
  destruct (hi_block _ _ _ I y (or_introl Hy)) as (_ & ? & _). unfold apart, bend, HEADER in *. lia.
Qed.

Context (u : list blk) (q x : blk) (v : list blk).
Hypothesis E : (base, 0) :: l = u ++ q :: x :: v.
Hypothesis Hx : n ≤ x.2.

Lemma E_right : (base, 0) :: l = (u ++ [q]) ++ x :: v.
Proof. by rewrite <- app_assoc. Qed.

Lemma q_in : q ∈ (base, 0) :: l.
Proof. rewrite E. apply elem_of_app. right. left. Qed.

Lemma x_free : x ∈ l.
Proof.
  assert (x ∈ (base, 0) :: l) as [Ex|?]%elem_of_cons by (rewrite E_right; apply elem_of_app; right; left); [|done].
  rewrite Ex in Hx. simpl in Hx. lia.
Qed.

(** The part of [x] that is handed out. *)
Definition cut : blk := (x.1 + HEADER * (x.2 - n), n).

Lemma cut_end : bend cut = bend x.
Proof. unfold bend, cut, HEADER. simpl. lia. Qed.

Lemma apart_cut a : apart x a → apart cut a.
Proof. unfold apart. rewrite cut_end. unfold cut, bend, HEADER. simpl. lia. Qed.

Lemma tail_of l0 : u ++ q :: l0 = (base, 0) :: (match u with [] => l0 | _ :: u' => u' ++ q :: l0 end).
Proof. pose proof E as E'. destruct u as [|c u']; cbn in E' |- *; by injection E' as <- _. Qed.

Lemma x_rd : rd x.1 s = Ret (Header (hd_addr v base) x.2) s.
Proof. apply (ring_rd s l A I _ x v E_right). Qed.

Section replaced.
(** The ring when [x] is replaced by [xs]. *)
Context (xs : list blk).
Hypothesis Hxs : xs = [] ∧ x.2 = n ∨ xs = [(x.1, x.2 - n)] ∧ n < x.2.

Lemma xs_part y : y ∈ xs → y.1 = x.1 ∧ 1 ≤ y.2 ∧ bend y ≤ bend x ∧ bend y = cut.1.
Proof.
  intros Hy. destruct Hxs as [[-> _]|[-> Hlt]]; [by apply elem_of_nil in Hy|]. apply list_elem_of_singleton in Hy as ->.
  unfold bend, cut, HEADER. simpl. lia.
Qed.

Lemma take_ascending : ascending (base - 1) (u ++ q :: xs ++ v).
Proof.
  pose proof (ring_ascending s l A I) as Ha. rewrite E in Ha. apply ascending_app in Ha as [Ha1 (Hq & Hqx & Hv)].
  apply ascending_app. split; [done|]. split; [done|]. destruct Hxs as [[-> _]|[-> Hlt]]; cbn [app].
  - eapply ascending_weaken; [|exact Hv]. unfold bend, HEADER in *. lia.
  - split; [done|]. eapply ascending_weaken; [|exact Hv]. unfold bend, HEADER. simpl. lia.
Qed.

Lemma take_good y : y ∈ u ++ q :: xs ++ v →
  y = (base, 0) ∨ 1 ≤ y.2 ∧ heap0 ≤ y.1 ∧ bend y ≤ brk s ∧ (∀ a, a ∈ A → apart y a) ∧ apart y cut.
Proof.
  pose proof x_free as Hxl. destruct (hi_block _ _ _ I x (or_introl Hxl)) as (Hx1 & Hx2 & Hx3).
  intros Hy. assert (y ∈ xs ∨ y ∈ (u ++ [q]) ∨ y ∈ v) as [Hy'|Hy'] by set_solver.
  - right. destruct (xs_part y Hy') as (Ey & Hy1 & Hye & Hyc). split; [done|]. rewrite Ey. split; [done|]. split; [lia|]. split.
    + intros a Ha. pose proof (hi_sep _ _ _ I x a Hxl Ha). unfold apart in *. lia.
    + left. lia.
  - assert (y ∈ (base, 0) :: l) as [?|Hyl]%elem_of_cons by (rewrite E_right; set_solver); [by left|right].
    destruct (hi_block _ _ _ I y (or_introl Hyl)) as (? & ? & ?). split_and!; try done.
    + intros a Ha. by apply (hi_sep _ _ _ I).
    + unfold apart. rewrite cut_end. destruct Hy' as [Hy'|Hy'].
      * left. assert (bend y < x.1); [|unfold cut, HEADER; simpl; lia].
        apply (ring_order s l A I (u ++ [q]) (x :: v) E_right); [done|left].
      * right. assert (bend x < y.1); [|lia]. apply (ring_order s l A I ((u ++ [q]) ++ [x]) v); [rewrite <- (app_assoc (u ++ [q])); apply E_right| |done].
        apply elem_of_app. right. left.
Qed.

Lemma take_chain h :
  h q.1 = Header (hd_addr (xs ++ v) base) q.2 → (∀ z, z ∈ xs → h z.1 = Header (hd_addr v base) z.2) →
  (∀ b, b ≠ q.1 → b ≠ x.1 → b ≠ cut.1 → h b = hdr s b) → chain h (u ++ q :: xs ++ v) base.
Proof.
  intros Hq Hz Ho. pose proof (hi_chain _ _ _ I) as Hch. rewrite E in Hch. apply chain_app in Hch as [Hc1 [_ [_ Hcv]]].
  pose proof x_free as Hxl. destruct (hi_block _ _ _ I x (or_introl Hxl)) as (Hx1 & Hx2 & Hx3).
  assert (∀ y, y ∈ u ∨ y ∈ v → h y.1 = hdr s y.1) as Hsame.
  { intros y Hy. assert (y.1 ≠ x.1) as Hne1 by (apply (ring_ne (u ++ [q]) x v y E_right); set_solver).
    assert (y.1 ≠ q.1) as Hne2 by (apply (ring_ne u q (x :: v) y E); set_solver).
    apply Ho; [done|done|]. intros Ec. destruct (take_good y) as [->|(? & _ & _ & _ & Hap)]; [set_solver| |].
    - unfold cut, HEADER in Ec. simpl in Ec. unfold HEADER in *. lia.
    - unfold apart in Hap. rewrite cut_end in Hap. unfold cut, bend, HEADER in *. simpl in *. lia. }
  apply chain_app. split; [eapply chain_ext; [|exact Hc1]; auto|]. split; [done|].
  assert (chain h v base) as Cv by (eapply chain_ext; [|exact Hcv]; auto).
  destruct Hxs as [[-> _]|[-> _]]; cbn [app]; [done|]. split; [|done]. apply (Hz (x.1, x.2 - n)). left.
Qed.

Lemma take_inv s' :
  hdr s' q.1 = Header (hd_addr (xs ++ v) base) q.2 → (∀ z, z ∈ xs → hdr s' z.1 = Header (hd_addr v base) z.2) →
  hsize (hdr s' cut.1) = n → (∀ b, b ≠ q.1 → b ≠ x.1 → b ≠ cut.1 → hdr s' b = hdr s b) →
  freep s' = q.1 → brk s' = brk s →
  ∃ l', heap_inv s' l' (cut :: A) ∧ (length l' ≤ length l)%nat ∧ (base, 0) :: l' = u ++ q :: xs ++ v.
Proof.
  intros Hq Hz Hc Ho Hf Hbrk. pose proof x_free as Hxl. destruct (hi_block _ _ _ I x (or_introl Hxl)) as (Hx1 & Hx2 & Hx3).
  pose proof (tail_of (xs ++ v)) as El'. set (l' := match u with [] => _ | _ => _ end) in El'. exists l'.
  pose proof (ring_members _ l' _ El' take_ascending take_good) as G.
  pose proof take_ascending as Ha. rewrite El' in Ha. destruct Ha as [_ Ha]. rewrite bend_base in Ha.
  split; [|split; [|done]].
  - constructor; rewrite ?Hbrk.
    + rewrite <- El'. by apply take_chain.
    + done.
    + rewrite Hf. change (base :: l'.*1) with (((base, 0) :: l').*1). rewrite <- El', fmap_app. apply elem_of_app. right. left.
    + intros y [Hy|[->|Hy]%elem_of_cons].
      * destruct (G y Hy) as (? & ? & ? & _). done.
      * rewrite cut_end. unfold cut, HEADER. simpl. lia.
      * apply (hi_block _ _ _ I). by right.
    + apply NoDup_cons. split; [|apply I]. intros Hin. pose proof (apart_cut cut) as Hap.
      pose proof (hi_sep _ _ _ I x cut Hxl Hin) as Hs. unfold apart in Hs. rewrite cut_end in Hs. unfold cut, bend, HEADER in *. simpl in *. lia.
    + intros y z [->|Hy]%elem_of_cons [->|Hz']%elem_of_cons Hne; [done| | |by apply (hi_alloc _ _ _ I)].
      * apply apart_cut. by apply (hi_sep _ _ _ I).
      * pose proof (apart_cut y (hi_sep _ _ _ I x y Hxl Hy)). unfold apart in *. tauto.
    + intros y a Hy [->|Ha']%elem_of_cons; by apply (G y Hy).
    + intros a [->|Ha']%elem_of_cons; [done|]. rewrite Ho; [by apply (hi_size _ _ _ I)|apply alloc_ne; [apply q_in|done]|apply alloc_ne; [by right|done]|].
      pose proof (hi_sep _ _ _ I x a Hxl Ha') as Hs. destruct (hi_block _ _ _ I a (or_intror Ha')) as (_ & ? & _).
      unfold apart in Hs. unfold cut, bend, HEADER in *. simpl in *. lia.
    + apply I.
  - pose proof (f_equal length El') as H1. pose proof (f_equal length E) as H2. rewrite !length_app in H1, H2. simpl in H1, H2.
    rewrite length_app in H1. assert (length xs ≤ 1)%nat by (destruct Hxs as [[-> _]|[-> _]]; simpl; lia). lia.
Qed.
End replaced.

(** The body of the loop when [x] is large enough. *)
Lemma take_ok fuel :
  ∃ s' l', malloc_body fuel n (q.1, x.1) s = Ret (inr (cut.1 + HEADER)) s' ∧ heap_inv s' l' (cut :: A) ∧
    (length l' ≤ length l)%nat ∧ brk s' = brk s.
Proof.
  pose proof x_free as Hxl. destruct (hi_block _ _ _ I x (or_introl Hxl)) as (Hx1 & Hx2 & Hx3).
  pose proof (hi_brk _ _ _ I) as Hbrk. pose proof (mapped_block s l A I x (or_introl Hxl)) as Hmx.
  assert (mapped q.1 s = true) as Hmq.
  { apply (ring_mapped s l A I). change (base :: l.*1) with (((base, 0) :: l).*1). apply list_elem_of_fmap. exists q. split; [done|apply q_in]. }
  assert (q.1 ≠ x.1) as Hqx by (apply (ring_ne (u ++ [q]) x v q E_right); left; apply elem_of_app; right; left).
  pose proof (ring_lookup s l A I u q (x :: v) E) as Hhq. pose proof (ring_lookup s l A I _ x v E_right) as Hhx.
  unfold malloc_body, mbind, M_bind. rewrite x_rd. cbn [res_bind hsize]. rewrite (proj2 (Z.leb_le n x.2)) by done.
  destruct (Z.eqb_spec x.2 n) as [Ex|Ex].
  - assert (cut = x) as Ec by (unfold cut; rewrite Ex, Z.sub_diag, Z.mul_0_r, Z.add_0_r; destruct x; simpl in *; by subst).
    unfold wr_ptr. rewrite Hmq. cbn [res_bind hptr]. unfold mret, M_ret, modify. cbn [res_bind]. rewrite Ec. cbn [fst].
    set (s' := set_freep q.1 _). destruct (take_inv [] (or_introl (conj eq_refl Ex)) s') as (l' & I' & Hl' & _);
      unfold s'; cbn [hdr freep brk set_freep set_hdr]; try done.
    + by rewrite hupd_eq, Hhq.
    + intros z Hz. by apply elem_of_nil in Hz.
    + rewrite Ec, hupd_ne by done. by rewrite Hhx.
    + intros b Hb _ _. by apply hupd_ne.
    + rewrite Ec in I'. exists s', l'. done.
  - assert (n < x.2) as Hlt by lia. assert (u32 (x.2 - n) = x.2 - n) as E1 by (apply u32_id; unfold bend, HEADER in *; lia).
    assert (u32 n = n) as E2 by (apply u32_id; unfold bend, HEADER in *; lia).
    assert (x.1 + HEADER * (x.2 - n) = cut.1) as Ec by done. assert (cut.1 ≠ x.1) as Hcx by (unfold cut, HEADER; simpl; lia).
    assert (mapped cut.1 s = true) as Hmc.
    { unfold mapped. apply orb_true_iff. right. apply andb_true_iff. pose proof cut_end as Hce. unfold bend, cut, HEADER in *. simpl in *.
      split; [apply Z.leb_le; lia|]. apply Z.leb_le. zdm. }
    assert (q.1 ≠ cut.1) as Hqc.
    { destruct (take_good [(x.1, x.2 - n)] (or_intror (conj eq_refl Hlt)) q) as [Eq|(? & _ & _ & _ & Hap)].
      - apply elem_of_app. right. left.
      - rewrite Eq. simpl. unfold cut, HEADER in *. simpl. lia.
      - unfold apart in Hap. rewrite cut_end in Hap. unfold cut, bend, HEADER in *. simpl in *. lia. }
    unfold wr_size. rewrite Hmx. cbn [res_bind]. rewrite E1, Ec, mapped_hdr, Hmc. cbn [res_bind]. unfold mret, M_ret, modify. cbn [res_bind].
    set (s' := set_freep q.1 _).
    destruct (take_inv [(x.1, x.2 - n)] (or_intror (conj eq_refl Hlt)) s') as (l' & I' & Hl' & _);
      unfold s'; cbn [hdr freep brk set_freep set_hdr]; try done.
    + rewrite !hupd_ne by done. by rewrite Hhq.
    + intros z Hz. apply list_elem_of_singleton in Hz as ->. cbn [fst snd]. rewrite hupd_ne, hupd_eq by done. by rewrite Hhx, ?E1.
    + rewrite hupd_eq. cbn [hsize]. by rewrite ?E2.
    + intros b _ Hb1 Hb2. by rewrite !hupd_ne.
    + exists s', l'. done.
Qed.
End take.

Section scan.
Context (s : heap) (l A : list blk) (n : Z) (mf : nat).
Hypothesis I : heap_inv s l A.
Hypothesis Hn : 1 ≤ n.

Abbreviation body := (malloc_body mf n).

(** The loop goes past a block that is too small. *)
Lemma scan_step f a x v : (base, 0) :: l = a ++ x :: v → x.2 < n → x.1 ≠ freep s →
  ∀ prev, loop (S f) body (prev, x.1) s = loop f body (x.1, hd_addr v base) s.
Proof.
  intros E Hx Hf prev. apply loop_next. unfold malloc_body, mbind, M_bind. rewrite (ring_rd s l A I a x v E). cbn [res_bind hsize hptr].
  rewrite (proj2 (Z.leb_gt n x.2)) by lia. unfold get. cbn [res_bind]. by rewrite (proj2 (Z.eqb_neq _ _) Hf).
Qed.

(** The search has come to a block that is large enough. *)
Definition found (r : res heap Z) : Prop :=
  ∃ u q x v f, (base, 0) :: l = u ++ q :: x :: v ∧ n ≤ x.2 ∧ r = loop (S f) body (q.1, x.1) s.

(** Scanning the stretch [m] of the ring, which does not contain [freep]. *)
Lemma scan_stretch b : ∀ m a q f, (base, 0) :: l = a ++ q :: m ++ b → freep s ∉ m.*1 →
  found (loop (length m + S f) body (q.1, hd_addr (m ++ b) base) s) ∨
  (∀ y, y ∈ m → y.2 < n) ∧ ∃ a' q', (base, 0) :: l = a' ++ q' :: b ∧
    loop (length m + S f) body (q.1, hd_addr (m ++ b) base) s = loop (S f) body (q'.1, hd_addr b base) s.
Proof.
  induction m as [|x m IH]; intros a q f E Hf.
  - right. split; [intros y Hy; by apply elem_of_nil in Hy|]. exists a, q. done.
  - cbn [length Nat.add hd_addr app]. destruct (decide (n ≤ x.2)) as [Hx|Hx].
    { left. by exists a, q, x, (m ++ b), (length m + S f)%nat. }
    cbn [fmap list_fmap] in Hf. apply not_elem_of_cons in Hf as [Hf1 Hf2].
    rewrite (scan_step _ (a ++ [q]) x (m ++ b)) by (by rewrite <- ?app_assoc || lia || auto).
    destruct (IH (a ++ [q]) x f) as [Hfd|[Hm Hend]]; [by rewrite <- app_assoc|done|by left|right].
    split; [|done]. intros y [->|Hy]%elem_of_cons; [lia|by apply Hm].
Qed.

(** One round of the ring from [freep]. *)
Lemma search f : ∀ h, h = hdr s (freep s) →
  found (loop (length l + S f) body (freep s, hptr h) s) ∨
  (∀ y, y ∈ l → y.2 < n) ∧ ∃ prev, loop (length l + S f) body (freep s, hptr h) s = loop (S f) body (prev, freep s) s.
Proof.
  intros h ->. pose proof (hi_freep _ _ _ I) as Hfp. change (base :: l.*1) with (((base, 0) :: l).*1) in Hfp.
  apply list_elem_of_fmap in Hfp as (x & Ex & (l1 & l2 & E)%list_elem_of_split).
  assert (∀ y, y ∈ l1 ∨ y ∈ l2 → y.1 ≠ x.1) as Hne by (intros y; by apply (ring_ne s l A I l1 x l2 y E)).
  rewrite Ex, (ring_lookup s l A I l1 x l2 E). cbn [hptr].
  assert (∀ m, (∀ y, y ∈ m → y ∈ l1 ∨ y ∈ l2) → freep s ∉ m.*1) as Hnot.
  { intros m Hm (y & Ey & Hy)%list_elem_of_fmap. apply (Hne y (Hm y Hy)). by rewrite <- Ey. }
  pose proof (f_equal length E) as Hlen. rewrite length_app in Hlen. simpl in Hlen.
  destruct l1 as [|c l1'].
  - assert (x = (base, 0) ∧ l = l2) as [-> El] by (by injection E). cbn [fst] in *. rewrite !El.
    pose proof (scan_stretch [] l2 [] (base, 0) f) as Hs. rewrite app_nil_r in Hs.
    destruct Hs as [?|[Hm (a' & q' & _ & Hl)]]; [done|apply Hnot; auto|by left|].
    right. split; [done|]. exists q'.1. exact Hl.
  - assert (c = (base, 0)) as -> by (by injection E). assert (l = l1' ++ x :: l2) as El by (by injection E).
    replace (length l + S f)%nat with (length l2 + S (length l1' + S f))%nat by (simpl in Hlen; lia).
    pose proof (scan_stretch [] l2 ((base, 0) :: l1') x (length l1' + S f)) as Hs. rewrite app_nil_r in Hs.
    destruct Hs as [?|[Hm2 (a' & q' & _ & Hl)]]; [done|apply Hnot; auto|by left|]. cbn [hd_addr] in Hl. rewrite Hl.
    rewrite (scan_step _ [] (base, 0) l) by (done || simpl; lia || (rewrite Ex; apply (Hne (base, 0)); left; left)). rewrite El. cbn [fst].
    destruct (scan_stretch (x :: l2) l1' [] (base, 0) f) as [?|[Hm1 (a2 & q2 & E2 & Hl2)]];
      [by rewrite E|apply Hnot; intros y Hy; left; by right|by left|]. cbn [fst] in Hl2. rewrite Hl2. cbn [hd_addr].
    destruct (decide (n ≤ x.2)) as [Hx|Hx]; [left; by exists a2, q2, x, l2, f|right].
    split; [|by exists q2.1]. intros y [Hy|[->|Hy]%elem_of_cons]%elem_of_app; [by apply Hm1|lia|by apply Hm2].
Qed.

Definition served (s' : heap) (l' : list blk) (r : Z) : Prop :=
  ∃ y, r = y.1 + HEADER ∧ y.2 = n ∧ heap_inv s' l' (y :: A).

Lemma found_ok r : found r → ∃ s' l' p, r = Ret p s' ∧ served s' l' p ∧ (length l' ≤ length l)%nat ∧ brk s' = brk s.
Proof.
  intros (u & q & x & v & f & E & Hx & ->). destruct (take_ok s l A n I Hn u q x v E Hx mf) as (s' & l' & Eb & I' & Hl & Hb).
  exists s', l', (((cut n x).1) + HEADER). split; [by apply loop_done|]. split; [|done]. by exists (cut n x).
Qed.

(** A block that is large enough is found. *)
Lemma fits_ok f h : h = hdr s (freep s) → (∃ y, y ∈ l ∧ n ≤ y.2) →
  ∃ s' l' p, loop (length l + S f) body (freep s, hptr h) s = Ret p s' ∧ served s' l' p ∧ (length l' ≤ length l)%nat ∧ brk s' = brk s.
Proof.
  intros Hh (y & Hy & Hyn). destruct (search f h Hh) as [Hf|[Hno _]]; [by apply found_ok|].
  specialize (Hno y Hy). lia.
Qed.
End scan.

(** * Growing the heap *)

(** The machine has far less memory than 2^36 bytes, so the kernel grants no more. *)
Hypothesis grant_ram : ∀ s n, grant s n = true → brk s + n ≤ 2 ^ 36.

Definition core_units (n : Z) : Z := if n <? 4096 then 4096 else n.

(** The heap with the fresh block, its header written. *)
Lemma fresh_inv s l A nu :
  heap_inv s l A → 1 ≤ nu < 2 ^ 27 → grant s (nu * HEADER) = true →
  let s1 := set_brk (brk s + nu * HEADER) s in
  ∃ s2, wr_size (brk s) nu s1 = Ret tt s2 ∧ heap_inv s2 l ((brk s, nu) :: A) ∧ brk s2 = brk s + nu * HEADER.
Proof.
  intros I Hnu Hg s1. pose proof (grant_ram s _ Hg) as Hram. pose proof (hi_brk _ _ _ I) as Hbrk.
  assert (∀ x, x ∈ l ∨ x ∈ A → bend x ≤ brk s ∧ x.1 ≠ brk s) as Hbelow.
  { intros x Hx. destruct (hi_block _ _ _ I x Hx) as (? & ? & ?). unfold bend, HEADER in *. lia. }
  unfold wr_size. assert (mapped (brk s) s1 = true) as ->.
  { unfold mapped. apply orb_true_iff. right. apply andb_true_iff. unfold s1, HEADER. cbn [brk set_brk].
    split; [apply Z.leb_le; lia|]. apply Z.leb_le. zdm. }
  eexists. split; [done|]. split; [|done]. rewrite u32_id by lia.
  constructor; cbn [hdr freep brk set_hdr set_brk s1]; try apply I.
  - eapply chain_ext; [|apply I]. intros x Hx. apply hupd_ne. apply elem_of_cons in Hx as [->|Hx]; [simpl; unfold HEADER in *; lia|].
    apply Hbelow. by left.
  - intros x [Hx|[->|Hx]%elem_of_cons].
    + destruct (hi_block _ _ _ I x (or_introl Hx)) as (? & ? & ?). unfold HEADER in *. lia.
    + unfold bend, HEADER. simpl. lia.
    + destruct (hi_block _ _ _ I x (or_intror Hx)) as (? & ? & ?). unfold HEADER in *. lia.
  - apply NoDup_cons. split; [|apply I]. intros Hin. by destruct (Hbelow _ (or_intror Hin)).
  - intros x y [->|Hx]%elem_of_cons [->|Hy]%elem_of_cons Hne; [done| | |by apply (hi_alloc _ _ _ I)].
    + right. apply Hbelow. by right.
    + left. apply Hbelow. by right.
  - intros x y Hx [->|Hy]%elem_of_cons; [left; apply Hbelow; by left|by apply (hi_sep _ _ _ I)].
  - intros x [->|Hx]%elem_of_cons; [cbn [fst snd]; by rewrite hupd_eq|]. rewrite hupd_ne by (apply Hbelow; by right). by apply I.
  - unfold HEADER in *. lia.
Qed.

Lemma freep_pos s l A : heap_inv s l A → 0 < freep s.
Proof.
  intros I. pose proof (hi_freep _ _ _ I) as Hf. apply elem_of_cons in Hf as [->|Hf]; [lia|].
  apply list_elem_of_fmap in Hf as (x & -> & Hx). destruct (hi_block _ _ _ I x (or_introl Hx)) as (? & _). unfold HEADER in *. lia.
Qed.

Lemma morecore_ok s l A n fuel :
  heap_inv s l A → 1 ≤ n < 2 ^ 27 → (length l + 1 < fuel)%nat →
  if grant s (core_units n * HEADER) then
    ∃ s' l', morecore fuel n s = Ret (freep s') s' ∧ heap_inv s' l' A ∧ (length l' ≤ length l + 1)%nat ∧ ∃ y, y ∈ l' ∧ n ≤ y.2
  else morecore fuel n s = Ret 0 s.
Proof.
  intros I Hn Hf. assert (n ≤ core_units n ∧ 1 ≤ core_units n < 2 ^ 27) as [Hcn Hc].
  { unfold core_units. destruct (Z.ltb_spec n 4096); lia. }
  pose proof (hi_brk _ _ _ I) as Hbrk. unfold morecore. fold (core_units n). unfold mbind, M_bind, sbrk.
  rewrite i32_id by (unfold HEADER; lia). rewrite (proj2 (Z.ltb_lt 0 _)) by (unfold HEADER; lia).
  destruct (grant s (core_units n * HEADER)) eqn:Hg; cbn [res_bind]; [|done].
  rewrite (proj2 (Z.eqb_neq (brk s) (-1))) by (unfold HEADER in *; lia).
  destruct (fresh_inv s l A (core_units n) I Hc Hg) as (s2 & E2 & I2 & _). rewrite E2. cbn [res_bind].
  destruct (free_block s2 l ((brk s, core_units n) :: A) A (brk s, core_units n) fuel I2) as (s3 & l' & E3 & I3 & Hl & _ & _ & y & Hy & Hyn); [done|done|].
  cbn [fst snd] in *. rewrite E3. exists s3, l'. split; [done|]. split; [done|]. split; [done|]. exists y. split; [done|lia].
Qed.

(** Back at [freep] with nothing found. *)
Lemma body_more s l A n mf prev : heap_inv s l A → hsize (hdr s (freep s)) < n →
  malloc_body mf n (prev, freep s) s =
    (p ← morecore mf n; if p =? 0 then mret (inr 0) else h ← rd p; mret (inl (p, hptr h)) : M heap (Z * Z + Z)) s.
Proof.
  intros I Hs. unfold malloc_body, mbind, M_bind. unfold rd at 1. rewrite (ring_mapped s l A I) by apply I. cbn [res_bind].
  rewrite (proj2 (Z.leb_gt n _)) by lia. unfold get. cbn [res_bind]. by rewrite Z.eqb_refl.
Qed.

(** From a heap in order, [malloc]'s loop. *)
Lemma malloc_loop_ok s l A n fuel :
  heap_inv s l A → 1 ≤ n < 2 ^ 27 → (2 * length l + 3 ≤ fuel)%nat →
  ∃ r s' l', loop fuel (malloc_body fuel n) (freep s, hptr (hdr s (freep s))) s = Ret r s' ∧
    (served A n s' l' r ∨ r = 0 ∧ s' = s ∧ grant s (core_units n * HEADER) = false).
Proof.
  intros I Hn Hf. set (mf := fuel) at 2. assert (length l + 1 < mf)%nat as Hmf by (unfold mf; lia). clearbody mf.
  destruct (search s l A n mf I ltac:(lia) (fuel - length l - 1) _ eq_refl) as [Hfd|[Hno [prev El]]];
    replace (length l + S (fuel - length l - 1))%nat with fuel in * by lia.
  { destruct (found_ok s l A n mf I ltac:(lia) _ Hfd) as (s' & l' & r & E & Hs & _). exists r, s', l'. split; [exact E|by left]. }
  rewrite El. destruct (Nat.lt_exists_pred 0 (fuel - length l - 1) ltac:(lia)) as (f & Ef & _). rewrite Ef.
  assert (hsize (hdr s (freep s)) < n) as Hsmall.
  { pose proof (hi_freep _ _ _ I) as Hfp. change (base :: l.*1) with (((base, 0) :: l).*1) in Hfp.
    apply list_elem_of_fmap in Hfp as (x & Ex & Hx). pose proof Hx as (u & v & E)%list_elem_of_split. rewrite Ex, (ring_lookup s l A I u x v E).
    apply elem_of_cons in Hx as [->|Hx]; cbn [hsize snd]; [lia|by apply Hno]. }
  pose proof (body_more s l A n mf prev I Hsmall) as Eb. unfold mbind, M_bind in Eb.
  pose proof (morecore_ok s l A n mf I Hn Hmf) as Hm. destruct (grant s (core_units n * HEADER)).
  - destruct Hm as (s1 & l1 & Em & I1 & Hl1 & Hfit). rewrite Em in Eb. cbn [res_bind] in Eb.
    pose proof (freep_pos _ _ _ I1). rewrite (proj2 (Z.eqb_neq (freep s1) 0)) in Eb by lia.
    unfold mbind, M_bind, rd in Eb. rewrite (ring_mapped s1 l1 A I1) in Eb by apply I1. cbn [res_bind] in Eb. rewrite (loop_next _ _ _ _ _ _ Eb).
    destruct (fits_ok s1 l1 A n mf I1 ltac:(lia) (S f - length l1 - 1) _ eq_refl Hfit) as (s' & l' & r & E & Hs & _).
    replace (length l1 + S (S f - length l1 - 1))%nat with (S f) in E by lia. exists r, s', l'. split; [exact E|by left].
  - rewrite Hm in Eb. cbn [res_bind] in Eb. exists 0, s, l. split; [by apply loop_done|by right].
Qed.

(** * The claims *)

Lemma units_spec nbytes : 0 ≤ nbytes ≤ 2 ^ 31 - 32 → 1 ≤ units nbytes < 2 ^ 27 ∧ nbytes ≤ HEADER * (units nbytes - 1).
Proof. intros Hb. unfold units, u32, HEADER. zdm. Qed.

(** Before the first call. *)
Definition heap_fresh (s : heap) : Prop := freep s = 0 ∧ heap0 ≤ brk s ≤ 2 ^ 36.

(** The ring of one header that the first call makes. *)
Lemma first_call s : heap_fresh s →
  ∃ s1, (wr_ptr base base;; modify (set_freep base);; wr_size base 0) s = Ret tt s1 ∧ heap_inv s1 [] [] ∧ brk s1 = brk s.
Proof.
  intros [Hf Hb]. unfold mbind, M_bind, wr_ptr, wr_size, modify, mapped. rewrite Z.eqb_refl. cbn [orb res_bind]. eexists. split; [done|].
  split; [|done]. constructor; cbn [hdr freep brk set_hdr set_freep]; try done.
  - split; [|done]. cbn [fst]. by rewrite hupd_eq, hupd_eq.
  - left.
  - intros x [Hx|Hx]; by apply elem_of_nil in Hx.
  - constructor.
  - intros x y Hx. by apply elem_of_nil in Hx.
  - intros x y Hx. by apply elem_of_nil in Hx.
  - intros x Hx. by apply elem_of_nil in Hx.
Qed.

Lemma malloc_ok s l A nbytes fuel :
  heap_inv s l A → 0 ≤ nbytes ≤ 2 ^ 31 - 32 → (2 * length l + 3 ≤ fuel)%nat →
  ∃ r s' l', (s ← get; h ← rd (freep s); loop fuel (malloc_body fuel (units nbytes)) (freep s, hptr h)) s = Ret r s' ∧
    (served A (units nbytes) s' l' r ∨ r = 0 ∧ s' = s ∧ grant s (core_units (units nbytes) * HEADER) = false).
Proof.
  intros I Hb Hf. destruct (units_spec nbytes Hb) as [Hu _].
  destruct (malloc_loop_ok s l A (units nbytes) fuel I Hu Hf) as (r & s' & l' & E & Hr). exists r, s', l'. split; [|done].
  unfold mbind, M_bind, get. cbn [res_bind]. unfold rd. rewrite (ring_mapped s l A I) by apply I. exact E.
Qed.

(** C26. malloc, for requests of at most 2^31 - 32 bytes, those whose units are a number of
    bytes that the [int] argument of sbrk can hold; [malloc_huge] is about larger ones.  From
    a heap in order with blocks [A] in use, or before the first call, the allocator returns
    (the two searches of the ring terminate).  Either it returns a
    block with room for [nbytes] bytes behind its header, disjoint from every block in use,
    inside the memory of the process, and the heap is in order with the block in use as
    well; or the kernel has refused more memory, it returns 0 and nothing has changed for
    the blocks in use. *)
Theorem malloc_serves s l A nbytes fuel :
  heap_inv s l A ∨ heap_fresh s ∧ l = [] ∧ A = [] → 0 ≤ nbytes ≤ 2 ^ 31 - 32 → (2 * length l + 3 ≤ fuel)%nat →
  ∃ r s' l', malloc fuel nbytes s = Ret r s' ∧
    ((∃ n, heap_inv s' l' ((r - HEADER, n) :: A) ∧ r + nbytes ≤ r - HEADER + HEADER * n ≤ brk s' ∧ heap0 < r ∧
        ∀ x, x ∈ A → bend x ≤ r - HEADER ∨ r + nbytes ≤ x.1) ∨
     r = 0 ∧ heap_inv s' l' A ∧ grant s' (core_units (units nbytes) * HEADER) = false).
Proof.
  intros HI Hb Hf. assert (∃ s1, (if freep s =? 0 then wr_ptr base base;; modify (set_freep base);; wr_size base 0 else mret tt) s = Ret tt s1 ∧
    heap_inv s1 l A) as (s1 & E1 & I).
  { destruct HI as [I|(Hfr & -> & ->)].
    - pose proof (freep_pos s l A I). rewrite (proj2 (Z.eqb_neq _ _)) by lia. by exists s.
    - destruct (first_call s Hfr) as (s1 & E1 & I & _). exists s1. destruct Hfr as [-> _]. done. }
  destruct (malloc_ok s1 l A nbytes fuel I Hb Hf) as (r & s' & l' & E & Hr).
  assert (malloc fuel nbytes s = Ret r s') as Em.
  { unfold malloc. unfold mbind at 1 2, M_bind at 1 2. unfold get at 1. cbn [res_bind]. rewrite E1. cbn [res_bind]. exact E. }
  clear E E1. destruct (units_spec nbytes Hb) as [_ Hroom]. destruct Hr as [(y & -> & Hy & I')|(-> & -> & Hg)].
  - eexists _, s', l'. split; [exact Em|]. left. exists y.2. replace (y.1 + HEADER - HEADER) with y.1 by lia. rewrite <- surjective_pairing. split; [done|].
    destruct (hi_block _ _ _ I' y) as (? & ? & ?); [right; left|]. rewrite Hy in *. unfold bend, HEADER in *.
    split; [lia|]. split; [lia|]. intros x Hx. assert (y ≠ x) as Hne.
    { intros ->. pose proof (hi_nodup _ _ _ I') as Hnd. by apply NoDup_cons in Hnd as [? _]. }
    assert (apart y x) as Ha by (apply (hi_alloc _ _ _ I'); [left|by right|done]). unfold apart, bend, HEADER in Ha. lia.
  - exists 0, s1, l. split; [exact Em|]. by right.
Qed.

(** C27. free.  Given any block in use, [free] returns with the heap in order and the block
    no longer in use: the bytes of the free list are those from before and the bytes of the
    block, and no two free blocks touch (they have been merged). *)
Theorem free_returns s l A A' x fuel :
  heap_inv s l A → A ≡ₚ x :: A' → (length l + 1 < fuel)%nat →
  ∃ s' l', free fuel (x.1 + HEADER) s = Ret tt s' ∧ heap_inv s' l' A' ∧ brk s' = brk s ∧
    (∀ a, in_blocks l' a ↔ in_blocks l a ∨ x.1 ≤ a < bend x) ∧
    (∀ y z, y ∈ l' → z ∈ l' → bend y ≠ z.1).
Proof.
  intros I HA Hf. destruct (free_block s l A A' x fuel I HA Hf) as (s' & l' & E & I' & _ & Hb & Hin & _).
  exists s', l'. split; [done|]. split; [done|]. split; [done|]. split; [done|].
  intros y z Hy Hz Eyz. apply list_elem_of_split in Hy as (u & v & ->).
  destruct (hi_block _ _ _ I' y) as (_ & ? & _); [left; apply elem_of_app; right; left|].
  apply elem_of_app in Hz as [Hz|[->|Hz]%elem_of_cons].
  - assert (bend z < y.1) as Hlt by (apply (ring_order s' _ A' I' ((base, 0) :: u) (y :: v)); [done|by right|left]).
    destruct (hi_block _ _ _ I' z) as (_ & ? & _); [left; apply elem_of_app; by left|]. unfold bend, HEADER in *. lia.
  - unfold bend, HEADER in *. lia.
  - assert (bend y < z.1) as Hlt; [|lia].
    apply (ring_order s' _ A' I' ((base, 0) :: u ++ [y]) v); [by rewrite <- app_comm_cons, <- app_assoc| |done].
    right. apply elem_of_app. right. left.
Qed.

(** C31. A request above what sbrk can be asked for, up to 2^32 - 16 bytes, is not refused.  The
    number of bytes passed to [sbrk], an [int], comes out negative or zero; the
    kernel takes it as a request to shrink, or as none, and reports success; and writing the
    header of the block that is not there faults, so the process is killed instead of
    getting 0 back.  The end of memory is at a page boundary here, and below one gigabyte. *)
Theorem malloc_huge s l A nbytes fuel :
  heap_inv s l A → brk s mod 4096 = 0 → brk s < 2 ^ 30 → 2 ^ 31 - 32 < nbytes ≤ 2 ^ 32 - 16 → (length l < fuel)%nat →
  malloc fuel nbytes s = Fault "store page fault".
Proof.
  intros I Hal Hsmall Hb Hf. pose proof (freep_pos s l A I) as Hp. pose proof (hi_brk _ _ _ I) as Hbrk.
  assert (2 ^ 27 ≤ units nbytes ≤ 2 ^ 28) as Hn by (unfold units, u32, HEADER; zdm).
  unfold malloc. unfold mbind at 1 2 3 4, M_bind at 1 2 3 4. unfold get. cbn [res_bind].
  rewrite (proj2 (Z.eqb_neq _ 0)) by lia. cbn [res_bind mret M_ret]. unfold rd. rewrite (ring_mapped s l A I) by apply I. cbn [res_bind].
  set (n := units nbytes) in *. clearbody n.
  assert (∀ y, y ∈ (base, 0) :: l → y.2 < n) as Hno.
  { intros y [->|Hy]%elem_of_cons; [cbn; lia|]. destruct (hi_block _ _ _ I y (or_introl Hy)) as (? & ? & ?). unfold bend, HEADER in *. lia. }
  destruct (search s l A n fuel I ltac:(lia) (fuel - length l - 1) _ eq_refl) as [(u & q & x & v & f & E & Hx & _)|[_ [prev El]]];
    replace (length l + S (fuel - length l - 1))%nat with fuel in * by lia.
  { specialize (Hno x). rewrite E in Hno. assert (x.2 < n); [|lia]. apply Hno, elem_of_app. right. right. left. }
  rewrite El. rewrite loop_unfold. rewrite (body_more s l A n fuel prev I).
  2: { pose proof (hi_freep _ _ _ I) as Hfp. change (base :: l.*1) with (((base, 0) :: l).*1) in Hfp.
       apply list_elem_of_fmap in Hfp as (x & Ex & Hx). pose proof Hx as (u & v & E)%list_elem_of_split. rewrite Ex, (ring_lookup s l A I u x v E).
       by apply Hno. }
  unfold morecore. rewrite (proj2 (Z.ltb_ge n 4096)) by lia. unfold mbind, M_bind.
  assert (∃ s', sbrk (i32 (n * HEADER)) s = Ret (brk s) s' ∧ brk s' ≤ brk s) as (s' & -> & Hs').
  { assert (i32 (n * HEADER) ≤ 0) as Hneg by (unfold i32, HEADER; zdm). unfold sbrk. rewrite (proj2 (Z.ltb_ge 0 _)) by lia.
    destruct (_ <? 0); eexists; (split; [reflexivity|]); [|done]. cbn [brk set_brk]. destruct (Z.leb_spec (brk s) (u64 (brk s + i32 (n * HEADER)))); lia. }
  cbn [res_bind]. rewrite (proj2 (Z.eqb_neq (brk s) (-1))) by (unfold HEADER in *; lia). unfold wr_size.
  assert (mapped (brk s) s' = false) as ->; [|done].
  unfold mapped, HEADER in *. rewrite (proj2 (Z.eqb_neq (brk s) base)) by lia. apply andb_false_iff. right.
  apply Z.leb_gt. zdm.
Qed.
End umalloc.

(** * A heap *)

(** A process whose memory ends at 0x6000, on a machine with 128 megabytes. *)
Definition small_heap : heap := Heap (λ _, Header 0 0) 0 0x6000.
Definition small_grant (s : heap) (n : Z) : bool := brk s + n <=? 0x8000000.

Lemma small_base : 0 < 0x1000 ∧ 0x1000 + HEADER ≤ 0x6000.
Proof. done. Qed.

Lemma small_ram s n : small_grant s n = true → brk s + n ≤ 2 ^ 36.
Proof. intros H%Z.leb_le. lia. Qed.

Lemma small_fresh : heap_fresh 0x6000 small_heap.
Proof. split; [done|]. simpl. lia. Qed.

Lemma small_returns : ∃ t, malloc 0x1000 0x6000 small_grant 3 100 small_heap = Ret 0x15f90 t.
Proof. eexists. vm_compute. reflexivity. Qed.

Lemma malloc_serves_witness :
  ∃ s' l' n, malloc 0x1000 0x6000 small_grant 3 100 small_heap = Ret 0x15f90 s' ∧
    heap_inv 0x1000 0x6000 s' l' [(0x15f80, n)] ∧ 0x15f90 + 100 ≤ 0x15f80 + HEADER * n.
Proof.
  destruct (malloc_serves 0x1000 0x6000 small_grant small_base small_ram small_heap [] [] 100 3) as (r & s' & l' & E & H').
  - right. split; [apply small_fresh|done].
  - lia.
  - simpl. lia.
  - destruct small_returns as [t Et]. rewrite Et in E. injection E as <- <-.
    destruct H' as [(n & I & Hn & _)|[H0 _]]; [|done]. exists t, l', n. split; [exact Et|]. split; [exact I|unfold HEADER in *; lia].
Defined.

(** The heap after one allocation. *)
Lemma small_served : ∃ s l y, heap_inv 0x1000 0x6000 s l [y] ∧ brk s mod 4096 = 0 ∧ brk s < 2 ^ 30.
Proof.
  destruct (first_call 0x1000 0x6000 small_heap small_fresh) as (s1 & _ & I & Hb).
  assert (1 ≤ 1 < 2 ^ 27) as H1 by lia. assert (small_grant s1 (4096 * HEADER) = true) as Hg by (unfold small_grant; by rewrite Hb).
  assert (1 ≤ 4096 < 2 ^ 27) as H4 by lia.
  destruct (fresh_inv 0x1000 0x6000 small_grant small_base small_ram s1 [] [] 4096 I H4 Hg) as (s2 & _ & I2 & Hb2).
  exists s2, [], (brk s1, 4096). split; [exact I2|]. rewrite Hb2, Hb. vm_compute. done.
Qed.

Lemma free_returns_witness :
  ∃ s s' (l : list (Z * Z)) (y : Z * Z), free 0x1000 0x6000 (length l + 2) (y.1 + HEADER) s = Ret tt s' ∧ ∃ l', heap_inv 0x1000 0x6000 s' l' [].
Proof.
  destruct small_served as (s & l & y & I & _).
  destruct (free_returns 0x1000 0x6000 small_grant small_base s l [y] [] y (length l + 2)) as (s' & l' & E & I' & _).
  - exact I.
  - reflexivity.
  - lia.
  - exists s, s', l, y. split; [exact E|]. exists l'. exact I'.
Defined.

Lemma malloc_huge_witness :
  ∃ s (l : list (Z * Z)), malloc 0x1000 0x6000 small_grant (length l + 1) (2 ^ 31) s = Fault "store page fault".
Proof.
  destruct small_served as (s & l & y & I & Ha & Hb). exists s, l.
  apply (malloc_huge 0x1000 0x6000 small_grant small_base s l [y]); [exact I|exact Ha|exact Hb|lia|lia].
Defined.
