(* ===== verification/Printf.v ===== *)
(** Formatted output: kernel/printf.c and user/printf.c.

    Output is the list of characters handed to [consputc] (or written to a file
    descriptor), in order.  Both versions convert numbers in a buffer of sixteen characters;
    [None] is a write past its end, or an argument the format asks for that is not there. *)

From S2P Require Import Prelude.

Definition i64 (x : Z) : Z := (x + 2 ^ 63) mod 2 ^ 64 - 2 ^ 63.

Lemma i64_id x : - 2 ^ 63 ≤ x < 2 ^ 63 → i64 x = x.
Proof. intros. unfold i64. rewrite Z.mod_small; lia. Qed.

Definition ch_pct : Z := 37.
Definition ch_minus : Z := 45.
Definition ch_0 : Z := 48.
Definition ch_d : Z := 100.
Definition ch_l : Z := 108.
Definition ch_p : Z := 112.
Definition ch_s : Z := 115.
Definition ch_u : Z := 117.
Definition ch_x : Z := 120.

(** [digits[v]]; the kernel's are in lower case, the user library's in upper case. *)
Definition digit (a v : Z) : Z := if v <? 10 then ch_0 + v else a + (v - 10).
Definition lower : Z := 97.
Definition upper : Z := 65.

Definition BUF : nat := 16.

(** [buf[i++] = c], which is in range only while [i] is below 16. *)
Definition push (buf : list Z) (c : Z) : option (list Z) :=
  if decide (length buf < BUF)%nat then Some (buf ++ [c]) else None.

(** The loop that converts [x], its least significant digit first. *)
Fixpoint digit_loop (fuel : nat) (a base x : Z) (buf : list Z) : option (list Z) :=
  match fuel with
  | O => None
  | S fuel =>
      buf ← push buf (digit a (x mod base));
      let x := x / base in
      if x =? 0 then Some buf else digit_loop fuel a base x buf
  end.

(** Both versions, once the magnitude [x] is known; the last loop prints [buf] backwards. *)
Definition print_number (a base x : Z) (neg : bool) : option (list Z) :=
  buf ← digit_loop 17 a base x [];
  buf ← (if neg then push buf ch_minus else Some buf);
  Some (rev buf).

(** The arguments of a call: numbers and strings. *)
Inductive arg := Num (v : Z) | Str (s : option (list Z)).

(** The string "(null)" *)
Definition null_str : list Z := [40; 110; 117; 108; 108; 41].

Fixpoint hex_loop (a : Z) (n : nat) (x : Z) : list Z :=
  match n with
  | O => []
  | S n => digit a (Z.shiftr x 60) :: hex_loop a n (u64 (Z.shiftl x 4))
  end.

(** [printptr]: sixteen hexadecimal digits *)
Definition printptr (a x : Z) : list Z := [ch_0; ch_x] ++ hex_loop a 16 (u64 x).

(** * The kernel's *)

Definition printint (xx base : Z) (sign : bool) : option (list Z) :=
  let neg := sign && (xx <? 0) in
  print_number lower base (u64 (if neg then - xx else xx)) neg.

(** What follows a '%': how many characters it takes and what it prints. *)
Definition directive (c0 c1 c2 : Z) (args : list arg) : option (nat * list Z * list arg) :=
  let num (n : nat) (conv : Z → Z) (base : Z) (sign : bool) :=
    match args with
    | Num v :: r => o ← printint (conv v) base sign; Some (n, o, r)
    | _ => None
    end in
  let long v := i64 (u64 v) in
  if c0 =? ch_d then num 1%nat i32 10 true
  else if (c0 =? ch_l) && (c1 =? ch_d) then num 2%nat long 10 true
  else if (c0 =? ch_l) && (c1 =? ch_l) && (c2 =? ch_d) then num 3%nat long 10 true
  else if c0 =? ch_u then num 1%nat i32 10 false
  else if (c0 =? ch_l) && (c1 =? ch_u) then num 2%nat long 10 false
  else if (c0 =? ch_l) && (c1 =? ch_l) && (c2 =? ch_u) then num 3%nat long 10 false
  else if c0 =? ch_x then num 1%nat i32 16 false
  else if (c0 =? ch_l) && (c1 =? ch_x) then num 2%nat long 16 false
  else if (c0 =? ch_l) && (c1 =? ch_l) && (c2 =? ch_x) then num 3%nat long 16 false
  else if c0 =? ch_p then
    match args with Num v :: r => Some (1%nat, printptr lower v, r) | _ => None end
  else if c0 =? ch_s then
    match args with Str s :: r => Some (1%nat, default null_str s, r) | _ => None end
  else if c0 =? ch_pct then Some (1%nat, [ch_pct], args)
  else Some (1%nat, [ch_pct; c0], args).

Definition char_at (n : nat) (fmt : list Z) : Z := nth n fmt 0.

Fixpoint printf_loop (fuel : nat) (fmt : list Z) (args : list arg) : option (list Z) :=
  match fuel, fmt with
  | _, [] => Some []
  | O, _ => None
  | S fuel, cx :: fmt =>
      if negb (cx =? ch_pct) then o ← printf_loop fuel fmt args; Some (cx :: o)
      else if char_at 0 fmt =? 0 then Some []
      else
        '(n, o, args) ← directive (char_at 0 fmt) (char_at 1 fmt) (char_at 2 fmt) args;
        o' ← printf_loop fuel (drop n fmt) args;
        Some (o ++ o')
  end.

Definition printf (fmt : list Z) (args : list arg) : option (list Z) := printf_loop (length fmt) fmt args.

(** [panic(s)] prints this and stops. *)
Definition panic_output (s : list Z) : option (list Z) :=
  a ← printf [112; 97; 110; 105; 99; 58; 32] [];
  b ← printf [ch_pct; ch_s; 10] [Str (Some s)];
  Some (a ++ b).

(** * The user library's *)

(** [printint] here takes an [int]. *)
Definition uprintint (xx base : Z) (sgn : bool) : option (list Z) :=
  let neg := sgn && (xx <? 0) in
  print_number upper base (u32 (if neg then - xx else xx)) neg.

Definition udirective (c0 c1 c2 : Z) (args : list arg) : option (nat * list Z * list arg) :=
  let num (n : nat) (base : Z) (sgn : bool) :=
    match args with
    | Num v :: r => o ← uprintint (i32 v) base sgn; Some (n, o, r)
    | _ => None
    end in
  if c0 =? ch_d then num 1%nat 10 true
  else if (c0 =? ch_l) && (c1 =? ch_d) then num 2%nat 10 true
  else if (c0 =? ch_l) && (c1 =? ch_l) && (c2 =? ch_d) then num 3%nat 10 true
  else if c0 =? ch_u then num 1%nat 10 false
  else if (c0 =? ch_l) && (c1 =? ch_u) then num 2%nat 10 false
  else if (c0 =? ch_l) && (c1 =? ch_l) && (c2 =? ch_u) then num 3%nat 10 false
  else if c0 =? ch_x then num 1%nat 16 false
  else if (c0 =? ch_l) && (c1 =? ch_x) then num 2%nat 16 false
  else if (c0 =? ch_l) && (c1 =? ch_l) && (c2 =? ch_x) then num 3%nat 16 false
  else if c0 =? ch_p then
    match args with Num v :: r => Some (1%nat, printptr upper v, r) | _ => None end
  else if c0 =? ch_s then
    match args with Str s :: r => Some (1%nat, default null_str s, r) | _ => None end
  else if c0 =? ch_pct then Some (1%nat, [ch_pct], args)
  else Some (1%nat, [ch_pct; c0], args).

(** [state] is true after a '%'. *)
Fixpoint vprintf_loop (fuel : nat) (state : bool) (fmt : list Z) (args : list arg) : option (list Z) :=
  match fuel, fmt with
  | _, [] => Some []
  | O, _ => None
  | S fuel, c0 :: fmt' =>
      if negb state then
        if c0 =? ch_pct then vprintf_loop fuel true fmt' args
        else o ← vprintf_loop fuel false fmt' args; Some (c0 :: o)
      else
        '(n, o, args) ← udirective c0 (char_at 1 fmt) (char_at 2 fmt) args;
        o' ← vprintf_loop fuel false (drop n fmt) args;
        Some (o ++ o')
  end.

Definition vprintf (fmt : list Z) (args : list arg) : option (list Z) := vprintf_loop (length fmt) false fmt args.

(** * Numerals *)

(** What a digit, and a row of digits, stands for. *)
Definition digit_value (c : Z) : Z := if c <? 58 then c - 48 else if c <? 97 then c - 55 else c - 87.
Definition numeral (base : Z) (l : list Z) : Z := foldl (λ n c, n * base + digit_value c) 0 l.

Definition proper_case (a : Z) : Prop := a = lower ∨ a = upper.

Lemma digit_value_digit a v : proper_case a → 0 ≤ v < 16 → digit_value (digit a v) = v.
Proof.
  intros Ha Hv. unfold digit_value, digit, ch_0. destruct (Z.ltb_spec v 10); [rewrite (proj2 (Z.ltb_lt _ 58)); lia|].
  destruct Ha as [-> | ->]; unfold lower, upper in *; rewrite (proj2 (Z.ltb_ge _ 58)) by lia.
  - rewrite (proj2 (Z.ltb_ge _ 97)); lia.
  - rewrite (proj2 (Z.ltb_lt _ 97)); lia.
Qed.

Lemma numeral_snoc base l c : numeral base (l ++ [c]) = numeral base l * base + digit_value c.
Proof. unfold numeral. by rewrite foldl_app. Qed.

Section digits.
Context (a base : Z) (Ha : proper_case a) (Hbase : 2 ≤ base ≤ 16).

(** [ds] is the digits of [x], the last one first. *)
Record digits_of (x : Z) (ds : list Z) : Prop := {
  do_value : numeral base (rev ds) = x;
  do_digit : Forall (λ c, ∃ v, 0 ≤ v < base ∧ c = digit a v) ds;
  do_least : (length ds = 1)%nat ∨ base ^ (Z.of_nat (length ds) - 1) ≤ x;
  do_len : (0 < length ds)%nat ∧ x < base ^ Z.of_nat (length ds);
}.

Lemma digits_one x : 0 ≤ x → x / base = 0 → digits_of x [digit a (x mod base)].
Proof.
  intros Hx E0. assert (0 ≤ x mod base < base) as Hm by (apply Z.mod_pos_bound; lia). pose proof (Z_div_mod_eq_full x base) as Hdm.
  constructor; simpl.
  - unfold numeral. simpl. rewrite digit_value_digit by (done || lia). lia.
  - apply Forall_singleton. by exists (x mod base).
  - by left.
  - split; [lia|]. rewrite Z.pow_1_r. lia.
Qed.

Lemma digits_cons x ds : 0 ≤ x → x / base ≠ 0 → digits_of (x / base) ds → digits_of x (digit a (x mod base) :: ds).
Proof.
  intros Hx E0 [Hv Hd Hl [Hlen Hlt]]. assert (0 ≤ x mod base < base) as Hm by (apply Z.mod_pos_bound; lia).
  pose proof (Z_div_mod_eq_full x base) as Hdm. assert (0 ≤ x / base) by (apply Z.div_pos; lia). constructor.
  - cbn [rev]. rewrite numeral_snoc, Hv, digit_value_digit by (done || lia). lia.
  - constructor; [by exists (x mod base)|done].
  - right. simpl length. rewrite Nat2Z.inj_succ. replace (Z.succ (Z.of_nat (length ds)) - 1) with (Z.succ (Z.of_nat (length ds) - 1)) by lia.
    rewrite Z.pow_succ_r by lia. destruct Hl as [Hl|Hl]; [rewrite Hl; simpl; nia|nia].
  - split; [simpl; lia|]. simpl length. rewrite Nat2Z.inj_succ, Z.pow_succ_r by lia. nia.
Qed.

(** The loop fills the rest of the buffer with the digits of [x] when they fit. *)
Lemma digit_loop_fits k : ∀ fuel x buf, (length buf + k = BUF)%nat → (k < fuel)%nat → 0 ≤ x < base ^ Z.of_nat k → (0 < k)%nat →
  ∃ ds, digit_loop fuel a base x buf = Some (buf ++ ds) ∧ digits_of x ds.
Proof.
  induction k as [|k IH]; intros fuel x buf Hlen Hf Hx Hk; [lia|]. destruct fuel as [|fuel]; [lia|]. cbn [digit_loop].
  unfold push. rewrite decide_True by lia. cbn [mbind option_bind].
  destruct (Z.eqb_spec (x / base) 0) as [E0|E0].
  - exists [digit a (x mod base)]. split; [done|]. apply digits_one; [lia|done].
  - assert (0 ≤ x / base < base ^ Z.of_nat k) as Hx'.
    { split; [apply Z.div_pos; lia|]. apply Z.div_lt_upper_bound; [lia|]. rewrite <- Z.pow_succ_r by lia. rewrite <- Nat2Z.inj_succ. lia. }
    assert (0 < k)%nat as Hk'. { destruct k; [|lia]. simpl in Hx'. lia. }
    destruct (IH fuel (x / base) (buf ++ [digit a (x mod base)])) as (ds & E & D); [rewrite length_app; simpl; lia|lia|done|done|].
    exists (digit a (x mod base) :: ds). rewrite E, <- app_assoc. split; [done|]. apply digits_cons; [lia|done|done].
Qed.

(** ... and runs over its end when they do not. *)
Lemma digit_loop_overflows k : ∀ fuel x buf, (length buf + k = BUF)%nat → base ^ Z.of_nat k ≤ x → digit_loop fuel a base x buf = None.
Proof using Hbase.
  clear Ha. induction k as [|k IH]; intros fuel x buf Hlen Hx; destruct fuel as [|fuel]; [done| |done|]; cbn [digit_loop]; unfold push.
  - rewrite decide_False by lia. done.
  - rewrite decide_True by lia. cbn [mbind option_bind].
    assert (base ^ Z.of_nat k ≤ x / base) as Hx'.
    { apply Z.div_le_lower_bound; [lia|]. rewrite <- Z.pow_succ_r by lia. by rewrite <- Nat2Z.inj_succ. }
    assert (0 < base ^ Z.of_nat k) by (apply Z.pow_pos_nonneg; lia).
    rewrite (proj2 (Z.eqb_neq (x / base) 0)) by lia. apply IH; [rewrite length_app; simpl; lia|done].
Qed.

Lemma digits_bound x ds k : digits_of x ds → (0 < k)%nat → (length ds ≤ k)%nat ↔ x < base ^ Z.of_nat k.
Proof.
  intros [_ _ Hl [Hlen Hlt]] Hk. split; intros Hle.
  - eapply Z.lt_le_trans; [exact Hlt|]. apply Z.pow_le_mono_r; lia.
  - destruct Hl as [->|Hl]; [lia|]. assert (Z.of_nat (length ds) - 1 < Z.of_nat k); [|lia].
    apply (Z.pow_lt_mono_r_iff base); lia.
Qed.

(** A number with its sign: the buffer holds sixteen characters. *)
Lemma print_number_spec x (neg : bool) : 0 ≤ x →
  let room := if neg then 15 else 16 in
  (x < base ^ room → ∃ ds, print_number a base x neg = Some ((if neg then [ch_minus] else []) ++ rev ds) ∧ digits_of x ds) ∧
  (base ^ room ≤ x → print_number a base x neg = None).
Proof.
  intros Hx room. unfold print_number. assert (base ^ 15 < base ^ 16) as Hpow by (apply Z.pow_lt_mono_r; lia).
  destruct (decide (x < base ^ 16)) as [H16|H16].
  - destruct (digit_loop_fits 16 17 x []) as (ds & E & D); [done|lia|done|lia|]. rewrite E. cbn [mbind option_bind app].
    pose proof (digits_bound x ds 15 D ltac:(lia)) as B. change (Z.of_nat 15) with 15 in B.
    destruct neg; unfold room, push; cbn [mbind option_bind]; split; intros Hr.
    + exists ds. rewrite decide_True by (unfold BUF; lia). cbn [mbind option_bind]. by rewrite rev_app_distr.
    + rewrite decide_False by (unfold BUF; lia). done.
    + exists ds. done.
    + lia.
  - rewrite (digit_loop_overflows 16 17 x []) by (done || lia). split; intros Hr; [|done]. unfold room in Hr. destruct neg; lia.
Qed.
End digits.

(** * The claims *)

Lemma u64_neg x : - 2 ^ 63 ≤ x < 0 → u64 (- x) = - x.
Proof. intros. apply u64_id. lia. Qed.

(** C39. The kernel's numbers.  For a 64-bit number, [printint] in base 10 or 16 prints the
    sign, when asked to and the number is negative, and the numeral of the magnitude, which
    reads back as that number, without leading zeros; or it writes past its buffer of
    sixteen characters, which happens exactly when sign and digits are more than sixteen. *)
Theorem printint_prints xx base (sign : bool) :
  base = 10 ∨ base = 16 → - 2 ^ 63 ≤ xx < 2 ^ 63 →
  let neg := sign && (xx <? 0) in
  let x := if neg then - xx else u64 xx in
  (∃ ds, printint xx base sign = Some ((if neg then [ch_minus] else []) ++ ds) ∧ numeral base ds = x ∧
     (0 < length ds)%nat ∧ ((length ds = 1)%nat ∨ base ^ (Z.of_nat (length ds) - 1) ≤ x)) ∧ x < base ^ (if neg then 15 else 16) ∨
  printint xx base sign = None ∧ base ^ (if neg then 15 else 16) ≤ x.
Proof.
  intros Hb Hx neg x. assert (2 ≤ base ≤ 16) as Hbase by (destruct Hb as [-> | ->]; lia).
  assert (u64 (if neg then - xx else xx) = x) as Ex.
  { unfold x. destruct neg eqn:En; [|done]. apply u64_neg. unfold neg in En. apply andb_true_iff in En as [_ ?%Z.ltb_lt]. lia. }
  assert (0 ≤ x) as H0 by (rewrite <- Ex; apply u64_bound).
  unfold printint. fold neg. rewrite Ex. destruct (print_number_spec lower base (or_introl eq_refl) Hbase x neg H0) as [Hfit Hover].
  destruct (decide (x < base ^ (if neg then 15 else 16))) as [Hlt|Hge].
  - left. split; [|done]. destruct (Hfit Hlt) as (ds & E & [Hv _ Hl [Hlen _]]). exists (rev ds). rewrite length_rev. done.
  - right. split; [apply Hover; lia|lia].
Qed.

(** The user library's numbers never overflow the buffer. *)
Lemma uprintint_ok xx :
  - 2 ^ 31 ≤ xx < 2 ^ 31 →
  ∃ ds, uprintint xx 10 true = Some ((if xx <? 0 then [ch_minus] else []) ++ ds) ∧ numeral 10 ds = Z.abs xx ∧
    (0 < length ds ≤ 10)%nat ∧ Forall (λ c, ch_0 ≤ c < ch_0 + 10) ds.
Proof.
  intros Hx. unfold uprintint. cbn [andb].
  assert (u32 (if xx <? 0 then - xx else xx) = Z.abs xx) as ->.
  { destruct (Z.ltb_spec xx 0); rewrite u32_id; lia. }
  destruct (print_number_spec upper 10 (or_intror eq_refl) ltac:(lia) (Z.abs xx) (xx <? 0) ltac:(lia)) as [Hfit _].
  destruct Hfit as (ds & E & D). { destruct (xx <? 0); simpl; lia. }
  exists (rev ds). rewrite E. split; [done|]. pose proof D as [Hv Hd _ [Hlen _]]. rewrite length_rev. split; [done|].
  split; [split; [done|]; apply (digits_bound upper 10 ltac:(lia) _ _ 10 D); simpl; lia|].
  apply Forall_rev. eapply Forall_impl; [exact Hd|]. intros c (v & Hv' & ->). unfold digit. rewrite (proj2 (Z.ltb_lt v 10)) by lia. lia.
Qed.

Lemma printint_prints_witness : printint (-42) 10 true = Some [45; 52; 50] ∧ printint (10 ^ 17) 10 false = None.
Proof.
  split.
  - destruct (printint_prints (-42) 10 true) as [[(ds & E & _) _]|[E _]]; [left; reflexivity|lia| |]; vm_compute in E |- *; [reflexivity|discriminate E].
  - destruct (printint_prints (10 ^ 17) 10 false) as [[_ H]|[E _]]; [left; reflexivity|lia| |exact E]. vm_compute in H. discriminate H.
Defined.
