(* ===== verification/Ulib.v ===== *)
(** The user library, user/ulib.c: strings and bytes in the memory of a process.

    Functions that run until a NUL take a bound on the bytes they look at; [None] means the
    bound was too small.  [read] of standard input takes its bytes from a list. *)

From S2P Require Import Prelude Mem Printf.

Fixpoint strcpy (fuel : nat) (m : mem) (s t : Z) : option mem :=
  match fuel with
  | O => None
  | S fuel =>
      let c := rd m t in
      let m := wr m s c in
      if c =? 0 then Some m else strcpy fuel m (s + 1) (t + 1)
  end.

Fixpoint strcmp (fuel : nat) (m : mem) (p q : Z) : option Z :=
  match fuel with
  | O => None
  | S fuel =>
      if negb (rd m p =? 0) && (rd m p =? rd m q) then strcmp fuel m (p + 1) (q + 1)
      else Some (rd m p - rd m q)
  end.

Fixpoint ustrlen (fuel : nat) (m : mem) (s n : Z) : option Z :=
  match fuel with
  | O => None
  | S fuel => if rd m (s + n) =? 0 then Some n else ustrlen fuel m s (n + 1)
  end.

(** 0 when the character is not there *)
Fixpoint strchr (fuel : nat) (m : mem) (s c : Z) : option Z :=
  match fuel with
  | O => None
  | S fuel =>
      if rd m s =? 0 then Some 0
      else if rd m s =? c then Some s
      else strchr fuel m (s + 1) c
  end.

Definition umemset (m : mem) (dst c n : Z) : mem := set_loop (Z.to_nat n) m dst c.

(** The loop of [gets]: what is left of the input, and the index after the last byte. *)
Fixpoint gets_loop (fuel : nat) (m : mem) (buf max i : Z) (input : list Z) : mem * Z * list Z :=
  match fuel, input with
  | S fuel, c :: input =>
      if i + 1 <? max then
        let m := wr m (buf + i) c in
        if (c =? 10) || (c =? 13) then (m, i + 1, input)
        else gets_loop fuel m buf max (i + 1) input
      else (m, i, c :: input)
  | _, _ => (m, i, input)
  end.

Definition gets (m : mem) (buf max : Z) (input : list Z) : mem * list Z :=
  let '(m, i, input) := gets_loop (length input) m buf max 0 input in
  (wr m (buf + i) 0, input).

Fixpoint atoi_loop (fuel : nat) (m : mem) (s n : Z) : option Z :=
  match fuel with
  | O => None
  | S fuel =>
      let c := rd m s in
      if (48 <=? c) && (c <=? 57) then atoi_loop fuel m (s + 1) (i32 (n * 10 + c - 48)) else Some n
  end.

Definition atoi (fuel : nat) (m : mem) (s : Z) : option Z := atoi_loop fuel m s 0.

Definition umemmove (m : mem) (vdst vsrc n : Z) : mem :=
  if vdst <? vsrc then copy_fwd (Z.to_nat n) m vdst vsrc
  else copy_bwd (Z.to_nat n) m (vdst + Z.max n 0) (vsrc + Z.max n 0).

(** A [char] is signed on some machines and not on others; the difference of two of them *)
Fixpoint umemcmp (k : nat) (m : mem) (s1 s2 : Z) : Z :=
  match k with
  | O => 0
  | S k => if rd m s1 =? rd m s2 then umemcmp k m (s1 + 1) (s2 + 1) else rd m s1 - rd m s2
  end.

Definition umemcpy (m : mem) (dst src n : Z) : mem := umemmove m dst src n.

(** * Strings *)

Lemma cstr_rd_bytes m a l : cstr m a l → rd_bytes m a (length l) = l ∧ rd m (a + Z.of_nat (length l)) = 0.
Proof.
  revert a. induction l as [|b l IH]; intros a Hc; simpl in *; [by rewrite Z.add_0_r|].
  destruct Hc as (_ & Hb & Hc). destruct (IH _ Hc) as [-> Hz]. rewrite Hb. split; [done|]. rewrite <- Hz. f_equal. lia.
Qed.

Lemma strlen_cstr l : ∀ m s n, cstr m (s + n) l → ustrlen (length l + 1) m s n = Some (n + Z.of_nat (length l)).
Proof.
  induction l as [|b l IH]; intros m s n Hc; simpl in *.
  - rewrite Hc. simpl. f_equal. lia.
  - destruct Hc as (Hnz & -> & Hc). rewrite (proj2 (Z.eqb_neq b 0)) by done. rewrite IH; [f_equal; lia|].
    by rewrite Z.add_assoc.
Qed.

(** Copying to either side of the source, overlapping or not. *)
Lemma rd_umemmove m d s n a : 0 ≤ n →
  rd (umemmove m d s n) a = if decide (d ≤ a < d + n) then rd m (s + (a - d)) else rd m a.
Proof.
  intros Hn. unfold umemmove. rewrite Z.max_l by done. destruct (Z.ltb_spec d s) as [Hlt|Hge].
  - rewrite rd_copy_fwd by lia. rewrite Z2Nat.id by done. done.
  - rewrite rd_copy_bwd by lia. rewrite Z2Nat.id by done. do 2 case_decide; try lia; f_equal; lia.
Qed.

(** * Reading numbers *)

Lemma atoi_numeral l : ∀ m s n v, cstr m s l → Forall (λ c, ch_0 ≤ c < ch_0 + 10) l →
  foldl (λ n c, n * 10 + digit_value c) n l = v → 0 ≤ n → v < 2 ^ 31 →
  atoi_loop (length l + 1) m s n = Some v.
Proof.
  induction l as [|c l IH]; intros m s n v Hc Hd Hv Hn Hlt; cbn [length Nat.add atoi_loop].
  - simpl in *. by rewrite Hc, Hv.
  - destruct Hc as (_ & -> & Hc). apply Forall_cons in Hd as [Hc10 Hd]. unfold ch_0 in Hc10.
    rewrite (proj2 (Z.leb_le 48 c)), (proj2 (Z.leb_le c 57)) by lia. cbn [andb]. simpl in Hv.
    assert (digit_value c = c - 48) as Edv by (unfold digit_value; rewrite (proj2 (Z.ltb_lt c 58)); lia).
    assert (∀ k n', 0 ≤ n' → Forall (λ c, ch_0 ≤ c < ch_0 + 10) k → n' ≤ foldl (λ n c, n * 10 + digit_value c) n' k) as Hmono.
    { clear. induction k as [|x k IHk]; intros n' H0 Hk; simpl; [lia|]. apply Forall_cons in Hk as [Hx Hk]. unfold ch_0 in Hx.
      assert (digit_value x = x - 48) as E by (unfold digit_value; rewrite (proj2 (Z.ltb_lt x 58)); lia).
      etrans; [|apply IHk; [lia|done]]. lia. }
    pose proof (Hmono l (n * 10 + digit_value c) ltac:(lia) Hd) as Hle.
    rewrite i32_id by lia. apply IH; try done; [|lia]. rewrite <- Hv. f_equal. lia.
Qed.

(** Numbers survive a round trip through text.  Any [int] printed by the user library's
    printf with %d fits the conversion buffer and comes out as its sign and the numeral of
    its magnitude, at most eleven characters in all; and the digits of a number that is not
    negative, stored as a string anywhere in memory, are read back by [atoi] as the number. *)
Lemma printf_atoi xx m a :
  - 2 ^ 31 ≤ xx < 2 ^ 31 →
  ∃ ds, vprintf [ch_pct; ch_d] [Num xx] = Some ((if xx <? 0 then [ch_minus] else []) ++ ds) ∧ numeral 10 ds = Z.abs xx ∧
    (0 < length ds ≤ 10)%nat ∧
    (0 ≤ xx → cstr m a ds → atoi (length ds + 1) m a = Some xx).
Proof.
  intros Hx. destruct (uprintint_ok xx Hx) as (ds & E & Hv & Hl & Hd). exists ds. split.
  - unfold vprintf. cbn [length vprintf_loop negb]. cbn [Z.eqb ch_pct Pos.eqb]. unfold udirective, char_at. cbn [Z.eqb ch_d Pos.eqb].
    rewrite i32_id by lia. rewrite E. cbn [mbind option_bind drop]. by rewrite app_nil_r.
  - split; [done|]. split; [done|]. intros Hpos Hc. apply (atoi_numeral ds m a 0 xx); try done; try lia. unfold numeral in Hv. lia.
Qed.

Lemma printf_atoi_witness :
  let m := wr (wr (wr (wr ∅ 0x100 52) 0x101 50) 0x102 51) 0x103 0 in
  vprintf [ch_pct; ch_d] [Num 423] = Some [52; 50; 51] ∧ atoi 4 m 0x100 = Some 423.
Proof.
  intros m. destruct (printf_atoi 423 m 0x100) as (ds & E & _ & _ & Ha); [lia|].
  assert (ds = [52; 50; 51]) as -> by (vm_compute in E; injection E as <-; reflexivity).
  split; [exact E|]. apply Ha; [lia|]. vm_compute. split_and!; done.
Defined.
