(* ===== verification/Console.v ===== *)
(** The console, kernel/console.c: line editing of what is typed, and reads of whole lines.

    Input sits in a ring of 128 characters between three 32-bit counters: [r] the next one
    to be read, [w] the end of the finished lines, [e] the end of the line being edited.
    [cout] is what has been sent to the screen.  A read delivers its bytes to the caller one
    at a time ([either_copyout]); [dst k] says whether the [k]-th can be written. *)

From S2P Require Import Prelude.

Definition BACKSPACE : Z := 0x100.
Definition INPUT_BUF_SIZE : Z := 128.

(** [C(x)] *)
Definition Ctrl (x : Z) : Z := x - 64.
Definition CtrlD : Z := Ctrl 68.
Definition CtrlH : Z := Ctrl 72.
Definition CtrlP : Z := Ctrl 80.
Definition CtrlU : Z := Ctrl 85.
Definition DEL : Z := 127.
Definition NL : Z := 10.
Definition CR : Z := 13.

Record console := Console {
  clock : bool;
  cbuf : list Z;
  rd_i : Z;
  wr_i : Z;
  ed_i : Z;
  cout : list Z;
  cwoken : list chan;
  ckilled : bool;
}.

Definition set_clock b s := Console b (cbuf s) (rd_i s) (wr_i s) (ed_i s) (cout s) (cwoken s) (ckilled s).
Definition set_r x s := Console (clock s) (cbuf s) x (wr_i s) (ed_i s) (cout s) (cwoken s) (ckilled s).
Definition set_w x s := Console (clock s) (cbuf s) (rd_i s) x (ed_i s) (cout s) (cwoken s) (ckilled s).
Definition set_e x s := Console (clock s) (cbuf s) (rd_i s) (wr_i s) x (cout s) (cwoken s) (ckilled s).
Definition set_cbuf x s := Console (clock s) x (rd_i s) (wr_i s) (ed_i s) (cout s) (cwoken s) (ckilled s).
Definition set_cout x s := Console (clock s) (cbuf s) (rd_i s) (wr_i s) (ed_i s) x (cwoken s) (ckilled s).
Definition set_cwoken x s := Console (clock s) (cbuf s) (rd_i s) (wr_i s) (ed_i s) (cout s) x (ckilled s).

Definition acquire_c : M console unit := λ s, if clock s then Panic "acquire" else Ret tt (set_clock true s).
Definition release_c : M console unit := λ s, if clock s then Ret tt (set_clock false s) else Panic "release".
Definition wakeup_c : M console unit := modify (λ s, set_cwoken (ChCons :: cwoken s) s).
Definition sleep_c : M console unit := release_c;; sleep_on ChCons;; acquire_c.

(** [cons.buf[i % INPUT_BUF_SIZE]] *)
Definition at_ (i : Z) (s : console) : Z := nth (Z.to_nat (i mod INPUT_BUF_SIZE)) (cbuf s) 0.

Definition consputc (c : Z) : M console unit :=
  modify (λ s, set_cout (cout s ++ (if c =? BACKSPACE then [8; 32; 8] else [c])) s).

(** The bytes of a user [write]; [src k] is the [k]-th, if it can be read. *)
Fixpoint consolewrite_loop (fuel : nat) (src : Z → option Z) (n i : Z) : M console Z :=
  match fuel with
  | O => mret i
  | S fuel =>
      if i <? n then
        match src i with
        | None => mret i
        | Some c => modify (λ s, set_cout (cout s ++ [c]) s);; consolewrite_loop fuel src n (i + 1)
        end
      else mret i
  end.

Definition consolewrite (src : Z → option Z) (n : Z) : M console Z :=
  consolewrite_loop (Z.to_nat n) src n 0.

(** The waiting loop of [consoleread]; true if the process was killed. *)
Definition consoleread_wait (_ : unit) : M console (unit + bool) :=
  s ← get;
  if rd_i s =? wr_i s then
    if ckilled s then release_c;; mret (inr true)
    else sleep_c;; mret (inl tt)
  else mret (inr false).

(** One round of [consoleread]: [None] is the return of -1, [Some] the end of the loop. *)
Definition consoleread_body (fuel : nat) (dst : Z → bool) (target : Z) (st : Z * list Z) :
    M console ((Z * list Z) + option (Z * list Z)) :=
  let '(n, out) := st in
  if 0 <? n then
    dead ← loop fuel consoleread_wait tt;
    if (dead : bool) then mret (inr None)
    else
      s ← get;
      let c := at_ (rd_i s) s in
      modify (λ s, set_r (u32 (rd_i s + 1)) s);;
      if c =? CtrlD then
        when (n <? target) (modify (λ s, set_r (u32 (rd_i s - 1)) s));;
        mret (inr (Some (n, out)))
      else if negb (dst (target - n)) then mret (inr (Some (n, out)))
      else if c =? NL then mret (inr (Some (n - 1, out ++ [c])))
      else mret (inl (n - 1, out ++ [c]))
  else mret (inr (Some (n, out))).

Definition consoleread (fuel : nat) (dst : Z → bool) (n : Z) : M console (Z * list Z) :=
  acquire_c;;
  r ← loop (S (Z.to_nat n)) (consoleread_body fuel dst n) (n, []);
  match r with
  | None => mret (-1, [])
  | Some (rest, out) => release_c;; mret (n - rest, out)
  end.

(** ^U: the loop that takes back the line. *)
Definition kill_line (_ : unit) : M console (unit + unit) :=
  s ← get;
  if negb (ed_i s =? wr_i s) && negb (at_ (u32 (ed_i s - 1)) s =? NL) then
    modify (λ s, set_e (u32 (ed_i s - 1)) s);; consputc BACKSPACE;; mret (inl tt)
  else mret (inr tt).

Definition consoleintr (c : Z) : M console unit :=
  acquire_c;;
  (if c =? CtrlP then mret tt
   else if c =? CtrlU then loop (S (Z.to_nat INPUT_BUF_SIZE)) kill_line tt
   else if (c =? CtrlH) || (c =? DEL) then
     s ← get;
     when (negb (ed_i s =? wr_i s)) (modify (λ s, set_e (u32 (ed_i s - 1)) s);; consputc BACKSPACE)
   else
     s ← get;
     when (negb (c =? 0) && (u32 (ed_i s - rd_i s) <? INPUT_BUF_SIZE))
       (let c := if c =? CR then NL else c in
        consputc c;;
        modify (λ s, set_e (u32 (ed_i s + 1)) (set_cbuf (<[Z.to_nat (ed_i s mod INPUT_BUF_SIZE) := u8 c]> (cbuf s)) s));;
        s ← get;
        when ((c =? NL) || (c =? CtrlD) || (u32 (ed_i s - rd_i s) =? INPUT_BUF_SIZE))
          (modify (λ s, set_w (ed_i s) s);; wakeup_c)));;
  release_c.

(** * What the ring holds *)

Definition window (s : console) (i : Z) (n : nat) : list Z := (λ k, at_ (i + Z.of_nat k) s) <$> seq 0 n.

Definition nread (s : console) : Z := u32 (wr_i s - rd_i s).
Definition nall (s : console) : Z := u32 (ed_i s - rd_i s).

(** The finished input, and the line being edited. *)
Definition ready (s : console) : list Z := window s (rd_i s) (Z.to_nat (nread s)).
Definition editing (s : console) : list Z := window s (wr_i s) (Z.to_nat (nall s - nread s)).

Record console_inv (s : console) : Prop := {
  ci_len : length (cbuf s) = Z.to_nat INPUT_BUF_SIZE;
  ci_r : 0 ≤ rd_i s < 2 ^ 32;
  ci_w : 0 ≤ wr_i s < 2 ^ 32;
  ci_e : 0 ≤ ed_i s < 2 ^ 32;
  ci_order : nread s ≤ nall s ≤ INPUT_BUF_SIZE;
  ci_line : NL ∉ editing s;
}.

(** * The line editor *)

(** The state of the editor: finished input and current line; a key. *)
Definition edit (st : list Z * list Z) (c : Z) : list Z * list Z :=
  let '(done, line) := st in
  if c =? CtrlP then st
  else if c =? CtrlU then (done, [])
  else if (c =? CtrlH) || (c =? DEL) then (done, take (length line - 1) line)
  else if (c =? 0) || bool_decide (128 ≤ length done + length line)%nat then st
  else
    let c := if c =? CR then NL else c in
    let line := line ++ [c] in
    if (c =? NL) || (c =? CtrlD) || bool_decide (length done + length line = 128)%nat then (done ++ line, [])
    else (done, line).

(** * The ring refines the editor *)

Lemma at_u32 x s : at_ (u32 x) s = at_ x s.
Proof. unfold at_, u32, INPUT_BUF_SIZE. do 2 f_equal. zdm. Qed.

Lemma at_mod x y s : x mod INPUT_BUF_SIZE = y mod INPUT_BUF_SIZE → at_ x s = at_ y s.
Proof. unfold at_. by intros ->. Qed.

Lemma length_window s i n : length (window s i n) = n.
Proof. unfold window. by rewrite length_fmap, length_seq. Qed.

Lemma window_snoc s i n : window s i (S n) = window s i n ++ [at_ (i + Z.of_nat n) s].
Proof. unfold window. rewrite seq_S, fmap_app. done. Qed.

Lemma window_cons s i n : window s i (S n) = at_ i s :: window s (i + 1) n.
Proof.
  unfold window. rewrite <- cons_seq, <- fmap_S_seq. simpl. rewrite Z.add_0_r. f_equal. rewrite <- list_fmap_compose.
  apply list_fmap_ext. intros k x _. simpl. f_equal. lia.
Qed.

Lemma window_app s i n m : window s i (n + m) = window s i n ++ window s (i + Z.of_nat n) m.
Proof.
  revert i. induction n as [|n IH]; intros i; [simpl; by rewrite Z.add_0_r|]. cbn [Nat.add]. rewrite !window_cons, IH. simpl. do 3 f_equal. lia.
Qed.

Lemma window_take s i n m : (m ≤ n)%nat → take m (window s i n) = window s i m.
Proof. intros Hm. replace n with (m + (n - m))%nat by lia. rewrite window_app. apply take_app_length'. by rewrite length_window. Qed.

Lemma window_ext s s' i i' n : (∀ k, 0 ≤ k < Z.of_nat n → at_ (i' + k) s' = at_ (i + k) s) → window s' i' n = window s i n.
Proof.
  intros Hk. unfold window. apply list_fmap_ext. intros k x Hx. apply lookup_seq in Hx as [-> Hlt]. simpl. apply Hk. lia.
Qed.

Section inv.
Context (s : console).
Hypothesis I : console_inv s.

Lemma counts : 0 ≤ nread s ∧ nread s ≤ nall s ≤ 128 ∧ length (ready s) = Z.to_nat (nread s) ∧
  length (editing s) = Z.to_nat (nall s - nread s).
Proof.
  pose proof (ci_order _ I) as Ho. unfold INPUT_BUF_SIZE in Ho. assert (0 ≤ nread s) by apply u32_bound.
  split_and!; try lia; apply length_window.
Qed.

Lemma edit_empty : (ed_i s =? wr_i s) = bool_decide (editing s = []).
Proof.
  destruct counts as (H0 & Ho & _ & Hl). destruct (ci_w _ I), (ci_e _ I), (ci_r _ I). unfold nall, nread, u32 in *.
  case_bool_decide as E.
  - rewrite E in Hl. simpl in Hl. apply Z.eqb_eq. zdm.
  - apply Z.eqb_neq. intros Ee. apply E, length_zero_iff_nil. rewrite Hl, Ee. lia.
Qed.

(** The line with its last character. *)
Lemma edit_last : editing s ≠ [] →
  editing s = window s (wr_i s) (Z.to_nat (nall s - nread s) - 1) ++ [at_ (u32 (ed_i s - 1)) s] ∧
  nall (set_e (u32 (ed_i s - 1)) s) = nall s - 1.
Proof.
  intros Hne. destruct counts as (H0 & Ho & _ & Hl).
  assert (0 < nall s - nread s) as Hpos. { destruct (editing s); [done|]. simpl in Hl. lia. }
  destruct (ci_w _ I), (ci_e _ I), (ci_r _ I). split.
  - unfold editing at 1. replace (Z.to_nat (nall s - nread s)) with (S (Z.to_nat (nall s - nread s) - 1)) at 1 by lia.
    rewrite window_snoc. do 2 f_equal. rewrite at_u32. apply at_mod. rewrite Nat2Z.inj_sub, Z2Nat.id by lia.
    unfold nall, nread, u32, INPUT_BUF_SIZE in *. zdm.
  - unfold nall, nread, u32 in *. cbn [ed_i rd_i set_e]. zdm.
Qed.

(** Taking back the last character. *)
Lemma back_inv out : editing s ≠ [] → let s' := set_cout out (set_e (u32 (ed_i s - 1)) s) in
  console_inv s' ∧ ready s' = ready s ∧ editing s' = take (length (editing s) - 1) (editing s).
Proof.
  intros Hne s'. destruct counts as (H0 & Ho & _ & Hl). destruct (edit_last Hne) as [_ En].
  assert (nall s' = nall s - 1) as En' by done. assert (nread s' = nread s) as Er by done.
  assert (0 < nall s - nread s) as Hpos. { destruct (editing s); [done|]. simpl in Hl. lia. }
  assert (editing s' = take (length (editing s) - 1) (editing s)) as Ee.
  { rewrite Hl. unfold editing. rewrite window_take by lia. rewrite En', Er. replace (Z.to_nat (nall s - 1 - nread s)) with (Z.to_nat (nall s - nread s) - 1)%nat by lia. done. }
  split; [|done]. constructor; try apply I.
  - apply u32_bound.
  - rewrite En', Er. unfold INPUT_BUF_SIZE. lia.
  - rewrite Ee. intros Hin. apply (ci_line _ I). apply elem_of_take in Hin as (k & Hk & _). by eapply list_elem_of_lookup_2.
Qed.

(** Adding a character to the line. *)
Definition put_char (c : Z) (out : list Z) : console :=
  set_e (u32 (ed_i s + 1)) (set_cbuf (<[Z.to_nat (ed_i s mod INPUT_BUF_SIZE) := u8 c]> (cbuf s)) (set_cout out s)).

Lemma put_at c out x : at_ x (put_char c out) = if decide (x mod INPUT_BUF_SIZE = ed_i s mod INPUT_BUF_SIZE) then u8 c else at_ x s.
Proof.
  unfold at_, put_char. cbn [cbuf set_e set_cbuf]. rewrite !nth_lookup. pose proof (ci_len _ I) as Hl.
  assert (0 ≤ x mod INPUT_BUF_SIZE < 128) by (apply Z.mod_pos_bound; done).
  assert (0 ≤ ed_i s mod INPUT_BUF_SIZE < 128) by (apply Z.mod_pos_bound; done).
  case_decide as E; [rewrite E, list_lookup_insert_eq; [done|]|by rewrite list_lookup_insert_ne by lia].
  rewrite Hl. unfold INPUT_BUF_SIZE in *. lia.
Qed.

Lemma put_windows c out : nall s < 128 → 0 ≤ c < 256 → let s' := put_char c out in
  nread s' = nread s ∧ nall s' = nall s + 1 ∧ ready s' = ready s ∧ editing s' = editing s ++ [c].
Proof.
  intros Hroom Hc s'. destruct counts as (H0 & Ho & _ & _). destruct (ci_w _ I), (ci_e _ I), (ci_r _ I).
  assert (nread s' = nread s) as Er by done.
  assert (nall s' = nall s + 1) as Ea by (unfold nall; cbn [ed_i rd_i s' put_char set_e set_cbuf set_cout]; unfold nall, u32 in *; zdm).
  split; [done|]. split; [done|]. split.
  - unfold ready. rewrite Er. apply window_ext. intros k Hk. unfold s'. rewrite put_at. cbn [rd_i put_char set_e set_cbuf set_cout].
    rewrite decide_False; [done|]. unfold nall, nread, u32, INPUT_BUF_SIZE in *. zdm.
  - unfold editing. rewrite Er, Ea. replace (Z.to_nat (nall s + 1 - nread s)) with (S (Z.to_nat (nall s - nread s))) by lia.
    rewrite window_snoc. f_equal.
    + apply window_ext. intros k Hk. unfold s'. rewrite put_at. cbn [wr_i put_char set_e set_cbuf set_cout].
      rewrite decide_False; [done|]. unfold nall, nread, u32, INPUT_BUF_SIZE in *. zdm.
    + f_equal. unfold s'. rewrite put_at. cbn [wr_i put_char set_e set_cbuf set_cout]. rewrite decide_True; [by apply u8_id|].
      rewrite Z2Nat.id by lia. unfold nall, nread, u32, INPUT_BUF_SIZE in *. zdm.
Qed.

Lemma put_inv c out : nall s < 128 → 0 ≤ c < 256 → c ≠ NL → console_inv (put_char c out).
Proof.
  intros Hroom Hc Hnl. destruct (put_windows c out Hroom Hc) as (Er & Ea & _ & Ee). destruct counts as (H0 & Ho & _ & _).
  constructor; try apply I.
  - cbn. rewrite length_insert. apply I.
  - apply u32_bound.
  - rewrite Er, Ea. unfold INPUT_BUF_SIZE. lia.
  - rewrite Ee. intros [Hin|Hin]%elem_of_app; [by apply (ci_line _ I)|]. apply list_elem_of_singleton in Hin. by subst.
Qed.

(** Finishing the line. *)
Lemma commit_inv c out wk : nall s < 128 → 0 ≤ c < 256 → let s' := put_char c out in let t := set_cwoken wk (set_w (ed_i s') s') in
  console_inv t ∧ ready t = ready s ++ editing s ++ [c] ∧ editing t = [].
Proof.
  intros Hroom Hc s' t. destruct (put_windows c out Hroom Hc) as (Er & Ea & Ey & Ee). destruct counts as (H0 & Ho & _ & _).
  assert (nread t = nall s') as Ert by done. assert (nall t = nall s') as Eat by done.
  assert (editing t = []) as Eet by (unfold editing; rewrite Ert, Eat, Z.sub_diag; done).
  split; [|split; [|done]].
  - constructor; try apply I.
    + cbn. rewrite length_insert. apply I.
    + apply u32_bound.
    + apply u32_bound.
    + rewrite Ert, Eat. fold s' in Ea. rewrite Ea. unfold INPUT_BUF_SIZE. lia.
    + rewrite Eet. apply not_elem_of_nil.
  - fold s' in Er, Ea, Ey, Ee. rewrite <- Ey, <- Ee. unfold ready at 1. rewrite Ert.
    replace (Z.to_nat (nall s')) with (Z.to_nat (nread s') + Z.to_nat (nall s' - nread s'))%nat by lia. rewrite window_app. f_equal.
    unfold editing. apply window_ext. intros k Hk. change (at_ ?x t) with (at_ x s'). apply at_mod.
    cbn [rd_i wr_i t s' put_char set_cwoken set_w set_e set_cbuf set_cout]. destruct (ci_w _ I), (ci_e _ I), (ci_r _ I).
    rewrite Z2Nat.id by lia. rewrite Er. unfold nread, u32, INPUT_BUF_SIZE in *. zdm.
Qed.
End inv.

Lemma kill_ok m : ∀ s fuel, console_inv s → length (editing s) = m → (m < fuel)%nat →
  ∃ s', loop fuel kill_line tt s = Ret tt s' ∧ console_inv s' ∧ ready s' = ready s ∧ editing s' = [] ∧ clock s' = clock s.
Proof.
  induction m as [|m IH]; intros s fuel I Hm Hf; (destruct fuel as [|fuel]; [lia|]).
  - apply length_zero_iff_nil in Hm. exists s. split; [|done]. apply loop_done. unfold kill_line. msimpl.
    rewrite edit_empty by done. by rewrite bool_decide_true.
  - assert (editing s ≠ []) as Hne by (intros E; rewrite E in Hm; done).
    destruct (edit_last s I Hne) as [El _].
    set (s' := set_cout (cout s ++ [8; 32; 8]) (set_e (u32 (ed_i s - 1)) s)).
    destruct (back_inv s I (cout s ++ [8; 32; 8]) Hne) as (I' & Er & Ee). fold s' in I', Er, Ee.
    assert (kill_line tt s = Ret (inl tt) s') as E.
    { unfold kill_line. msimpl. rewrite edit_empty by done. rewrite bool_decide_false by done.
      rewrite (proj2 (Z.eqb_neq _ NL)); [done|]. intros Enl. apply (ci_line _ I). rewrite El, Enl. apply elem_of_app. right. left. }
    destruct (IH s' fuel I') as (t & Et & It & Ert & Eet & Elk); [rewrite Ee, length_take; lia|lia|].
    exists t. rewrite (loop_next _ _ _ _ _ _ E). split; [done|]. split; [done|]. split; [by rewrite Ert|]. done.
Qed.

(** * Reading *)

Lemma advance s c l : console_inv s → ready s = c :: l → let s' := set_r (u32 (rd_i s + 1)) s in
  at_ (rd_i s) s = c ∧ (rd_i s =? wr_i s) = false ∧ console_inv s' ∧ ready s' = l ∧ editing s' = editing s.
Proof.
  intros I Er s'. destruct (counts s I) as (H0 & Ho & Hl & _). rewrite Er in Hl. simpl in Hl. destruct (ci_w _ I), (ci_e _ I), (ci_r _ I).
  assert (0 < nread s) as Hpos by lia.
  assert (nread s' = nread s - 1 ∧ nall s' = nall s - 1) as [E1 E2].
  { unfold nread, nall. cbn [rd_i wr_i ed_i s' set_r]. unfold nread, nall, u32 in *. zdm. }
  unfold ready in Er. replace (Z.to_nat (nread s)) with (S (Z.to_nat (nread s'))) in Er by lia. rewrite window_cons in Er.
  assert (at_ (rd_i s) s = c ∧ window s (rd_i s + 1) (Z.to_nat (nread s')) = l) as [Ec El] by (by injection Er). clear Er.
  assert (ready s' = l) as Ey.
  { rewrite <- El. unfold ready. apply window_ext. intros k Hk. change (at_ ?x s') with (at_ x s). apply at_mod.
    cbn [rd_i s' set_r]. unfold u32, INPUT_BUF_SIZE. zdm. }
  assert (editing s' = editing s) as Ee.
  { unfold editing. rewrite E1, E2. replace (nall s - 1 - (nread s - 1)) with (nall s - nread s) by lia. done. }
  split; [done|]. split; [|split; [|done]].
  - apply Z.eqb_neq. intros E. unfold nread, u32 in Hpos. rewrite E, Z.sub_diag in Hpos. done.
  - constructor; try apply I.
    + apply u32_bound.
    + rewrite E1, E2. unfold INPUT_BUF_SIZE. lia.
    + rewrite Ee. apply I.
Qed.

(** Reading a finished line, the rest of which is [l]. *)
Lemma read_line dst target fuel rest l : ∀ s n out lf, console_inv s → (0 < fuel)%nat →
  ready s = l ++ NL :: rest → CtrlD ∉ l → NL ∉ l → Z.of_nat (length l) < n → (∀ k, 0 ≤ k → dst k = true) → n ≤ target →
  (length l < lf)%nat →
  ∃ s', loop lf (consoleread_body fuel dst target) (n, out) s = Ret (Some (n - Z.of_nat (length l) - 1, out ++ l ++ [NL])) s' ∧
    console_inv s' ∧ ready s' = rest ∧ editing s' = editing s ∧ clock s' = clock s.
Proof.
  induction l as [|c l IH]; intros s n out lf I Hf Er Hd Hnl Hn Hdst Ht Hlf; (destruct lf as [|lf]; [simpl in Hlf; lia|]).
  - destruct (advance s NL rest I Er) as (Ec & Ene & I' & Er' & Ee'). eexists. split; [|done]. apply loop_done.
    unfold consoleread_body. simpl in Hn. rewrite (proj2 (Z.ltb_lt 0 n)) by lia. destruct fuel as [|fuel]; [lia|]. msimpl.
    erewrite loop_done; [|unfold consoleread_wait; msimpl; rewrite Ene; reflexivity]. cbn [res_bind]. rewrite Ec. msimpl.
    rewrite Hdst by lia. change (NL =? CtrlD) with false. change (NL =? NL) with true. cbn [negb]. cbv iota. cbn [length].
    change (Z.of_nat 0) with 0. rewrite Z.sub_0_r. done.
  - cbn [app] in Er. destruct (advance s c (l ++ NL :: rest) I Er) as (Ec & Ene & I' & Er' & Ee').
    apply not_elem_of_cons in Hd as [Hd1 Hd2]. apply not_elem_of_cons in Hnl as [Hn1 Hn2]. cbn [length] in *.
    assert (consoleread_body fuel dst target (n, out) s = Ret (inl (n - 1, out ++ [c])) (set_r (u32 (rd_i s + 1)) s)) as E.
    { unfold consoleread_body. rewrite (proj2 (Z.ltb_lt 0 n)) by lia. destruct fuel as [|fuel]; [lia|]. msimpl.
      erewrite loop_done; [|unfold consoleread_wait; msimpl; rewrite Ene; reflexivity]. cbn [res_bind]. rewrite Ec. msimpl.
      rewrite Hdst by lia. rewrite (proj2 (Z.eqb_neq c CtrlD)), (proj2 (Z.eqb_neq c NL)) by auto. done. }
    destruct (IH _ (n - 1) (out ++ [c]) lf I' Hf Er' Hd2 Hn2) as (t & Et & It & Hrt & Het & Hct); [lia|done|lia|lia|].
    exists t. rewrite (loop_next _ _ _ _ _ _ E), Et. split; [|by rewrite Het].
    f_equal. f_equal. f_equal; [lia|]. by rewrite <- !app_assoc.
Qed.

(** One key. *)
Lemma consoleintr_ok s c : console_inv s → clock s = false → 0 ≤ c < 256 →
  ∃ s', consoleintr c s = Ret tt s' ∧ console_inv s' ∧ clock s' = false ∧ (ready s', editing s') = edit (ready s, editing s) c.
Proof.
  intros I0 Hlk Hc. destruct (counts s I0) as (H0 & Ho & Hlr & Hle). unfold consoleintr, acquire_c. msimpl. rewrite Hlk. cbn [res_bind].
  set (s1 := set_clock true s). assert (console_inv s1) as I by (by destruct I0; constructor).
  assert (ready s1 = ready s ∧ editing s1 = editing s) as [Er1 Ee1] by done.
  unfold edit. destruct (Z.eqb_spec c CtrlP) as [->|HP]; [|destruct (Z.eqb_spec c CtrlU) as [->|HU]; [|destruct ((c =? CtrlH) || (c =? DEL)) eqn:EH]].
  - cbn [res_bind]. eexists. split; [done|]. split; [by destruct I0; constructor|]. done.
  - destruct (kill_ok (length (editing s1)) s1 (S (Z.to_nat INPUT_BUF_SIZE)) I eq_refl) as (t & -> & It & Hr & He & Hl).
    { rewrite Ee1, Hle. unfold INPUT_BUF_SIZE. lia. }
    cbn [res_bind]. unfold release_c. rewrite Hl. cbn [clock s1 set_clock]. eexists. split; [done|]. split; [by destruct It; constructor|].
    split; [done|]. change (ready (set_clock false t)) with (ready t). change (editing (set_clock false t)) with (editing t). by rewrite Hr, He.
  - msimpl. rewrite (edit_empty s1 I). case_bool_decide as En; cbn [negb when]; msimpl.
    + eexists. split; [done|]. split; [by destruct I0; constructor|]. split; [done|].
      change ((ready s, editing s) = (ready s, take (length (editing s) - 1) (editing s))). rewrite Ee1 in En. by rewrite En.
    + destruct (back_inv s1 I (cout s1 ++ [8; 32; 8]) En) as (I' & Hr & He). unfold consputc, modify, mbind, M_bind. cbn [res_bind].
      change (BACKSPACE =? BACKSPACE) with true. cbv iota. unfold release_c. cbn [clock set_cout set_e s1 set_clock].
      eexists. split; [done|]. split; [by destruct I'; constructor|]. split; [done|]. exact (f_equal2 pair Hr He).
  - msimpl. change (u32 (ed_i s1 - rd_i s1)) with (nall s). destruct (Z.eqb_spec c 0) as [E0|E0]; cbn [negb andb orb when].
    { eexists. split; [done|]. split; [by destruct I0; constructor|]. done. }
    rewrite Hlr, Hle. destruct (Z.ltb_spec (nall s) INPUT_BUF_SIZE) as [Hroom|Hroom]; unfold INPUT_BUF_SIZE in Hroom.
    2: { rewrite bool_decide_true by lia. cbn [when]. eexists. split; [done|]. split; [by destruct I0; constructor|]. done. }
    rewrite bool_decide_false by lia. cbn [when]. set (c' := if c =? CR then NL else c).
    assert (0 ≤ c' < 256) as Hc' by (unfold c'; destruct (c =? CR); [done|lia]).
    unfold consputc. msimpl. assert ((c' =? BACKSPACE) = false) as -> by (apply Z.eqb_neq; unfold BACKSPACE; lia).
    set (t := set_e (u32 (ed_i (set_cout (cout s1 ++ [c']) s1) + 1)) _). change (u32 (ed_i t - rd_i t)) with (nall t).
    assert (t = put_char s1 c' (cout s1 ++ [c'])) as Et by reflexivity. clearbody t. subst t.
    destruct (put_windows s1 I c' (cout s1 ++ [c']) Hroom Hc') as (_ & Ea & Er' & Ee').
    rewrite Ea, length_app, Hle. change (nall s1) with (nall s). cbn [length].
    assert ((nall s + 1 =? INPUT_BUF_SIZE) = bool_decide (Z.to_nat (nread s) + (Z.to_nat (nall s - nread s) + 1) = 128)%nat) as ->.
    { case_bool_decide; [apply Z.eqb_eq|apply Z.eqb_neq]; unfold INPUT_BUF_SIZE; lia. }
    destruct ((c' =? NL) || (c' =? CtrlD) || bool_decide _) eqn:Ecm; cbn [when]; unfold wakeup_c; msimpl.
    + destruct (commit_inv s1 I c' (cout s1 ++ [c']) (ChCons :: cwoken s) Hroom Hc') as (I' & Hr & He).
      eexists. split; [done|]. split; [by destruct I'; constructor|]. split; [done|]. exact (f_equal2 pair Hr He).
    + apply orb_false_iff in Ecm as [[Enl _]%orb_false_iff _]. apply Z.eqb_neq in Enl.
      pose proof (put_inv s1 I c' (cout s1 ++ [c']) Hroom Hc' Enl) as I'.
      eexists. split; [done|]. split; [by destruct I'; constructor|]. split; [done|]. exact (f_equal2 pair Er' Ee').
Qed.

(** * The claim *)

(** The interrupts of a row of keys. *)
Fixpoint type_keys (ks : list Z) : M console unit :=
  match ks with
  | [] => mret tt
  | k :: ks => consoleintr k;; type_keys ks
  end.

Lemma type_keys_ok ks : ∀ s, console_inv s → clock s = false → Forall (λ k, 0 ≤ k < 256) ks →
  ∃ s', type_keys ks s = Ret tt s' ∧ console_inv s' ∧ clock s' = false ∧ (ready s', editing s') = foldl edit (ready s, editing s) ks.
Proof.
  induction ks as [|k ks IH]; intros s I Hl Hk; [by exists s|]. apply Forall_cons in Hk as [Hk Hks].
  destruct (consoleintr_ok s k I Hl Hk) as (s1 & E1 & I1 & Hl1 & R1). destruct (IH s1 I1 Hl1 Hks) as (s2 & E2 & I2 & Hl2 & R2).
  exists s2. cbn [type_keys]. unfold mbind, M_bind. rewrite E1. cbn [res_bind]. rewrite E2. split; [done|]. split; [done|].
  split; [done|]. rewrite R2, R1. done.
Qed.

(** C37. The console delivers what was typed, as edited.  Any row of keys leaves the ring of
    characters in the state of the line editor [edit]: characters are added to the line,
    backspace takes back one and ^U all of the unfinished line, newline and ^D finish it,
    and keys are dropped when 128 characters are waiting.  When the finished input starts
    with a line [l], a read with room for it returns, without sleeping, that line with its
    newline and leaves the rest. *)
Theorem console_delivers s ks l rest n fuel :
  console_inv s → clock s = false → Forall (λ k, 0 ≤ k < 256) ks →
  (foldl edit (ready s, editing s) ks).1 = l ++ NL :: rest → CtrlD ∉ l → NL ∉ l → Z.of_nat (length l) < n → (0 < fuel)%nat →
  ∃ s1 s2, type_keys ks s = Ret tt s1 ∧ consoleread fuel (λ _, true) n s1 = Ret (Z.of_nat (length l) + 1, l ++ [NL]) s2 ∧
    console_inv s2 ∧ clock s2 = false ∧ ready s2 = rest ∧ editing s2 = (foldl edit (ready s, editing s) ks).2.
Proof.
  intros I Hl Hk Hdone Hd Hnl Hn Hf. destruct (type_keys_ok ks s I Hl Hk) as (s1 & E1 & I1 & Hl1 & R1).
  rewrite <- R1 in Hdone |- *. cbn [fst snd] in *.
  assert (console_inv (set_clock true s1)) as I1' by (by destruct I1; constructor).
  destruct (read_line (λ _, true) n fuel rest l (set_clock true s1) n [] (S (Z.to_nat n)) I1' Hf Hdone Hd Hnl Hn) as (s2 & E2 & I2 & Hr & He & Hc);
    [done|lia|lia|].
  exists s1, (set_clock false s2). split; [done|]. split; [|split; [by destruct I2; constructor|split; [done|split; [exact Hr|exact He]]]].
  unfold consoleread, acquire_c. msimpl. rewrite Hl1. cbn [res_bind]. rewrite E2. cbn [res_bind]. unfold release_c. rewrite Hc.
  cbn [clock set_clock]. unfold mbind, M_bind. cbn [res_bind]. unfold mret, M_ret. f_equal. f_equal. lia.
Qed.

Definition empty_console : console := Console false (replicate 128 0) 0 0 0 [] [] false.

Lemma empty_inv : console_inv empty_console.
Proof. constructor; try done. apply not_elem_of_nil. Qed.

(** The keys l, x, backspace, s, return. *)
Lemma console_delivers_witness :
  ∃ s1 s2, type_keys [108; 120; 8; 115; 13] empty_console = Ret tt s1 ∧
    consoleread 1 (λ _, true) 100 s1 = Ret (3, [108; 115; 10]) s2 ∧ ready s2 = [].
Proof.
  destruct (console_delivers empty_console [108; 120; 8; 115; 13] [108; 115] [] 100 1) as (s1 & s2 & E1 & E2 & _ & _ & Hr & _).
  - apply empty_inv.
  - reflexivity.
  - repeat constructor; lia.
  - reflexivity.
  - vm_compute. intros H. inversion H as [|? ? ? H1]; subst. inversion H1 as [|? ? ? H2]; subst. inversion H2.
  - vm_compute. intros H. inversion H as [|? ? ? H1]; subst. inversion H1 as [|? ? ? H2]; subst. inversion H2.
  - simpl. lia.
  - lia.
  - exists s1, s2. split; [exact E1|]. split; [exact E2|exact Hr].
Defined.
