(* ===== verification/Fdtable.v ===== *)
(** A process's table of open files: [ofile] of kernel/proc.h and [fdalloc] of
    kernel/sysfile.c, with the lemmas on descriptors that the kernel's system calls and the
    shell both rest on.  The entries are kept abstract. *)

From S2P Require Import Prelude.

Definition NOFILE : nat := 16.

(** The modes of [open], kernel/fcntl.h. *)
Abbreviation O_RDONLY := (0x000 : Z).
Abbreviation O_WRONLY := (0x001 : Z).
Abbreviation O_RDWR := (0x002 : Z).
Abbreviation O_CREATE := (0x200 : Z).
Abbreviation O_TRUNC := (0x400 : Z).

Section table.
Context {F : Type}.
Implicit Types (t : list (option F)) (f : F).

(** The scan of [fdalloc] from descriptor [fd]; [None] is its -1. *)
Fixpoint fdscan (fd : nat) t f : option (nat * list (option F)) :=
  match t with
  | [] => None
  | None :: t => Some (fd, Some f :: t)
  | Some g :: t => '(n, t') ← fdscan (S fd) t f; Some (n, Some g :: t')
  end.

Definition fdalloc t f : option (nat * list (option F)) := fdscan 0 t f.

(** [fd] is the lowest descriptor that is free. *)
Definition lowest t (fd : nat) : Prop := t !! fd = Some None ∧ ∀ j, (j < fd)%nat → ∃ g, t !! j = Some (Some g).

Lemma fdscan_lowest t f : ∀ k fd, lowest t fd → fdscan k t f = Some ((k + fd)%nat, <[fd := Some f]> t).
Proof.
  induction t as [|[g|] t IH]; intros k fd [Hfd Hlow]; [done| |].
  - destruct fd as [|fd]; [done|]. simpl. rewrite (IH (S k) fd).
    + simpl. by rewrite Nat.add_succ_r.
    + split; [done|]. intros j Hj. by apply (Hlow (S j)); lia.
  - destruct fd as [|fd]; [by rewrite Nat.add_0_r|]. destruct (Hlow 0%nat ltac:(lia)) as [g Hg]. done.
Qed.

Lemma fdalloc_lowest t f fd : lowest t fd → fdalloc t f = Some (fd, <[fd := Some f]> t).
Proof. intros H. unfold fdalloc. by rewrite (fdscan_lowest t f 0 fd H). Qed.

Lemma fdscan_full t f : ∀ k, (∀ j, t !! j ≠ Some None) → fdscan k t f = None.
Proof.
  induction t as [|[g|] t IH]; intros k H; simpl; [done| |by destruct (H 0%nat)].
  rewrite IH; [done|]. intros j. apply (H (S j)).
Qed.

Lemma fdalloc_full t f : (∀ j, t !! j ≠ Some None) → fdalloc t f = None.
Proof. apply fdscan_full. Qed.

Lemma lowest_ex t : (∃ j, t !! j = Some None) → ∃ fd, lowest t fd.
Proof.
  induction t as [|[g|] t IH]; intros [j Hj]; [done| |].
  - destruct j as [|j]; [done|]. destruct IH as [fd [H1 H2]]; [by exists j|]. exists (S fd). split; [done|].
    intros [|i] Hi; [by exists g|]. apply H2. lia.
  - exists 0%nat. split; [done|]. lia.
Qed.

(** Whatever [fdalloc] answers. *)
Lemma fdalloc_cases t f :
  (fdalloc t f = None ∧ ∀ j, t !! j ≠ Some None) ∨
  (∃ fd, lowest t fd ∧ fdalloc t f = Some (fd, <[fd := Some f]> t)).
Proof.
  destruct (decide (Exists (λ o, o = None) t)) as [Hin|Hin].
  - right. apply Exists_exists in Hin as (o & Hin & ->). apply list_elem_of_lookup in Hin. destruct (lowest_ex t Hin) as [fd Hfd]. exists fd. split; [done|]. by apply fdalloc_lowest.
  - left. assert (∀ j, t !! j ≠ Some None) as H by (intros j Hj; apply Hin, Exists_exists; exists None; split; [by eapply list_elem_of_lookup_2|done]). split; [|done]. by apply fdalloc_full.
Qed.

Lemma lowest_lt t fd : lowest t fd → (fd < length t)%nat.
Proof. intros [H _]. by eapply lookup_lt_Some. Qed.

Lemma lowest_closed t fd : (∀ j, (j < fd)%nat → ∃ g, t !! j = Some (Some g)) → (fd < length t)%nat → lowest (<[fd := None]> t) fd.
Proof.
  intros Hj Hfd. split; [by apply list_lookup_insert_eq|]. intros j Hlt. rewrite list_lookup_insert_ne by lia. by apply Hj.
Qed.

End table.
