(* ===== verification/Kernel.v ===== *)
(** The state of the whole kernel: physical memory, the file system, pipes, the console, the
    table of open files (kernel/file.h) and the table of processes (kernel/proc.h); and how
    the code of one component runs inside it.

    A component's wakeups make the sleeping processes of the table runnable, and its sleeps
    put the calling process to sleep in the table.  Spin locks are flags: taking one twice
    panics.  A process gives up its processor only in [sched]. *)

From S2P Require Import Prelude Mem Riscv Kalloc Vm Bytes Sleeplock Bio Log Store StoreLog Fs Console Pipe Fdtable.

Definition NFILE : nat := 100.
Definition NDEV : Z := 10.
Definition CONSOLE : Z := 1.

Inductive ftype := FD_NONE | FD_PIPE | FD_INODE | FD_DEVICE.

#[export] Instance ftype_eq_dec : EqDecision ftype.
Proof. solve_decision. Defined.

Record file := File {
  f_type : ftype;
  f_ref : Z;
  f_readable : bool;
  f_writable : bool;
  f_pipe : Z;
  f_ip : nat;
  f_off : Z;
  f_major : Z;
}.

Inductive procstate := UNUSED | USED | SLEEPING | RUNNABLE | RUNNING | ZOMBIE.

#[export] Instance procstate_eq_dec : EqDecision procstate.
Proof. solve_decision. Defined.

(** [trapframe] and [pagetable] are physical addresses, 0 for a null pointer; the saved
    context is only whether it will start in [forkret]. *)
Record proc := Proc {
  p_locked : bool;
  p_state : procstate;
  p_chan : option chan;
  p_killed : bool;
  p_xstate : Z;
  p_pid : Z;
  p_parent : option nat;
  p_kstack : Z;
  p_sz : Z;
  p_pagetable : Z;
  p_trapframe : Z;
  p_forkret : bool;
  p_ofile : list (option nat);
  p_cwd : option nat;
  p_name : list Z;
}.

Record kernel := Kernel {
  km : kmem;
  fsys : fs log_state;
  cons : console;
  pipes : gmap Z pipe;
  files : list file;
  ft_locked : bool;
  procs : list proc;
  nextpid : Z;
  pid_locked : bool;
  wait_locked : bool;
  initproc : option nat;
  ticks : Z;
  ticks_locked : bool;
}.

Definition set_km x s := Kernel x (fsys s) (cons s) (pipes s) (files s) (ft_locked s) (procs s) (nextpid s) (pid_locked s) (wait_locked s) (initproc s) (ticks s) (ticks_locked s).
Definition set_fsys x s := Kernel (km s) x (cons s) (pipes s) (files s) (ft_locked s) (procs s) (nextpid s) (pid_locked s) (wait_locked s) (initproc s) (ticks s) (ticks_locked s).
Definition set_cons x s := Kernel (km s) (fsys s) x (pipes s) (files s) (ft_locked s) (procs s) (nextpid s) (pid_locked s) (wait_locked s) (initproc s) (ticks s) (ticks_locked s).
Definition set_pipes x s := Kernel (km s) (fsys s) (cons s) x (files s) (ft_locked s) (procs s) (nextpid s) (pid_locked s) (wait_locked s) (initproc s) (ticks s) (ticks_locked s).
Definition set_files x s := Kernel (km s) (fsys s) (cons s) (pipes s) x (ft_locked s) (procs s) (nextpid s) (pid_locked s) (wait_locked s) (initproc s) (ticks s) (ticks_locked s).
Definition set_ft_locked x s := Kernel (km s) (fsys s) (cons s) (pipes s) (files s) x (procs s) (nextpid s) (pid_locked s) (wait_locked s) (initproc s) (ticks s) (ticks_locked s).
Definition set_procs x s := Kernel (km s) (fsys s) (cons s) (pipes s) (files s) (ft_locked s) x (nextpid s) (pid_locked s) (wait_locked s) (initproc s) (ticks s) (ticks_locked s).
Definition set_nextpid x s := Kernel (km s) (fsys s) (cons s) (pipes s) (files s) (ft_locked s) (procs s) x (pid_locked s) (wait_locked s) (initproc s) (ticks s) (ticks_locked s).
Definition set_pid_locked x s := Kernel (km s) (fsys s) (cons s) (pipes s) (files s) (ft_locked s) (procs s) (nextpid s) x (wait_locked s) (initproc s) (ticks s) (ticks_locked s).
Definition set_wait_locked x s := Kernel (km s) (fsys s) (cons s) (pipes s) (files s) (ft_locked s) (procs s) (nextpid s) (pid_locked s) x (initproc s) (ticks s) (ticks_locked s).
Definition set_initproc x s := Kernel (km s) (fsys s) (cons s) (pipes s) (files s) (ft_locked s) (procs s) (nextpid s) (pid_locked s) (wait_locked s) x (ticks s) (ticks_locked s).
Definition set_ticks x s := Kernel (km s) (fsys s) (cons s) (pipes s) (files s) (ft_locked s) (procs s) (nextpid s) (pid_locked s) (wait_locked s) (initproc s) x (ticks_locked s).
Definition set_ticks_locked x s := Kernel (km s) (fsys s) (cons s) (pipes s) (files s) (ft_locked s) (procs s) (nextpid s) (pid_locked s) (wait_locked s) (initproc s) (ticks s) x.

(** Fields of a process *)
Definition set_plocked x p := Proc x (p_state p) (p_chan p) (p_killed p) (p_xstate p) (p_pid p) (p_parent p) (p_kstack p) (p_sz p) (p_pagetable p) (p_trapframe p) (p_forkret p) (p_ofile p) (p_cwd p) (p_name p).
Definition set_state x p := Proc (p_locked p) x (p_chan p) (p_killed p) (p_xstate p) (p_pid p) (p_parent p) (p_kstack p) (p_sz p) (p_pagetable p) (p_trapframe p) (p_forkret p) (p_ofile p) (p_cwd p) (p_name p).
Definition set_chan x p := Proc (p_locked p) (p_state p) x (p_killed p) (p_xstate p) (p_pid p) (p_parent p) (p_kstack p) (p_sz p) (p_pagetable p) (p_trapframe p) (p_forkret p) (p_ofile p) (p_cwd p) (p_name p).
Definition set_killed x p := Proc (p_locked p) (p_state p) (p_chan p) x (p_xstate p) (p_pid p) (p_parent p) (p_kstack p) (p_sz p) (p_pagetable p) (p_trapframe p) (p_forkret p) (p_ofile p) (p_cwd p) (p_name p).
Definition set_xstate x p := Proc (p_locked p) (p_state p) (p_chan p) (p_killed p) x (p_pid p) (p_parent p) (p_kstack p) (p_sz p) (p_pagetable p) (p_trapframe p) (p_forkret p) (p_ofile p) (p_cwd p) (p_name p).
Definition set_pid x p := Proc (p_locked p) (p_state p) (p_chan p) (p_killed p) (p_xstate p) x (p_parent p) (p_kstack p) (p_sz p) (p_pagetable p) (p_trapframe p) (p_forkret p) (p_ofile p) (p_cwd p) (p_name p).
Definition set_parent x p := Proc (p_locked p) (p_state p) (p_chan p) (p_killed p) (p_xstate p) (p_pid p) x (p_kstack p) (p_sz p) (p_pagetable p) (p_trapframe p) (p_forkret p) (p_ofile p) (p_cwd p) (p_name p).
Definition set_kstack x p := Proc (p_locked p) (p_state p) (p_chan p) (p_killed p) (p_xstate p) (p_pid p) (p_parent p) x (p_sz p) (p_pagetable p) (p_trapframe p) (p_forkret p) (p_ofile p) (p_cwd p) (p_name p).
Definition set_sz x p := Proc (p_locked p) (p_state p) (p_chan p) (p_killed p) (p_xstate p) (p_pid p) (p_parent p) (p_kstack p) x (p_pagetable p) (p_trapframe p) (p_forkret p) (p_ofile p) (p_cwd p) (p_name p).
Definition set_pagetable x p := Proc (p_locked p) (p_state p) (p_chan p) (p_killed p) (p_xstate p) (p_pid p) (p_parent p) (p_kstack p) (p_sz p) x (p_trapframe p) (p_forkret p) (p_ofile p) (p_cwd p) (p_name p).
Definition set_trapframe x p := Proc (p_locked p) (p_state p) (p_chan p) (p_killed p) (p_xstate p) (p_pid p) (p_parent p) (p_kstack p) (p_sz p) (p_pagetable p) x (p_forkret p) (p_ofile p) (p_cwd p) (p_name p).
Definition set_forkret x p := Proc (p_locked p) (p_state p) (p_chan p) (p_killed p) (p_xstate p) (p_pid p) (p_parent p) (p_kstack p) (p_sz p) (p_pagetable p) (p_trapframe p) x (p_ofile p) (p_cwd p) (p_name p).
Definition set_ofile x p := Proc (p_locked p) (p_state p) (p_chan p) (p_killed p) (p_xstate p) (p_pid p) (p_parent p) (p_kstack p) (p_sz p) (p_pagetable p) (p_trapframe p) (p_forkret p) x (p_cwd p) (p_name p).
Definition set_cwd x p := Proc (p_locked p) (p_state p) (p_chan p) (p_killed p) (p_xstate p) (p_pid p) (p_parent p) (p_kstack p) (p_sz p) (p_pagetable p) (p_trapframe p) (p_forkret p) (p_ofile p) x (p_name p).
Definition set_name x p := Proc (p_locked p) (p_state p) (p_chan p) (p_killed p) (p_xstate p) (p_pid p) (p_parent p) (p_kstack p) (p_sz p) (p_pagetable p) (p_trapframe p) (p_forkret p) (p_ofile p) (p_cwd p) x.

Definition no_proc : proc := Proc false UNUSED None false 0 0 None 0 0 0 0 false (replicate NOFILE None) None (replicate 16 0).
Definition no_file : file := File FD_NONE 0 false false 0 0%nat 0 0.

#[export] Instance proc_inhabited : Inhabited proc := populate no_proc.
#[export] Instance file_inhabited : Inhabited file := populate no_file.

Definition pr (i : nat) (s : kernel) : proc := procs s !!! i.
Definition pupd (i : nat) (f : proc → proc) (s : kernel) : kernel := set_procs (alter f i (procs s)) s.
Definition fl (i : nat) (s : kernel) : file := files s !!! i.
Definition fupd (i : nat) (f : file → file) (s : kernel) : kernel := set_files (alter f i (files s)) s.

(** * Locks *)

Section lock.
Context (held : kernel → bool) (set_held : bool → kernel → kernel).
Definition acquire_flag : M kernel unit := λ s, if held s then Panic "acquire" else Ret tt (set_held true s).
Definition release_flag : M kernel unit := λ s, if held s then Ret tt (set_held false s) else Panic "release".
End lock.

Definition acquire_ft := acquire_flag ft_locked set_ft_locked.
Definition release_ft := release_flag ft_locked set_ft_locked.
Definition acquire_pid := acquire_flag pid_locked set_pid_locked.
Definition release_pid := release_flag pid_locked set_pid_locked.
Definition acquire_wait := acquire_flag wait_locked set_wait_locked.
Definition release_wait := release_flag wait_locked set_wait_locked.
Definition acquire_ticks := acquire_flag ticks_locked set_ticks_locked.
Definition release_ticks := release_flag ticks_locked set_ticks_locked.
Definition acquire_proc (i : nat) := acquire_flag (λ s, p_locked (pr i s)) (λ b, pupd i (set_plocked b)).
Definition release_proc (i : nat) := release_flag (λ s, p_locked (pr i s)) (λ b, pupd i (set_plocked b)).

(** * Wakeups of the file system's layers *)

Definition quiet_lock (l : sleeplock) : sleeplock := Sleeplock (slocked l) (lk l) (spid l) [] (log l).

(** The channels woken by the log and by the sleeping locks of buffers and inodes. *)
Definition fs_woken (f : fs log_state) : list chan :=
  lwoken (store f) ++ concat ((λ b, swoken (block b)) <$> nodes (bio (store f))) ++ concat ((λ x, swoken (ilk x)) <$> inodes f).

Definition fs_quiet (f : fs log_state) : fs log_state :=
  let l := store f in
  let b := set_nodes ((λ x, set_block (quiet_lock (block x)) x) <$> nodes (bio l)) (bio l) in
  Fs (set_lwoken [] (set_bio b l)) (sb f) (itable_lock f) ((λ x, set_ilk (quiet_lock (ilk x)) x) <$> inodes f).

(** * Components inside the kernel, called by process [me] *)

Section inside.
Context (me fuel : nat).

(** [wakeup(c)] on the table, once it has the locks; the caller is not woken. *)
Definition woken_by (c : chan) (i : nat) (p : proc) : proc :=
  if decide (i ≠ me ∧ p_state p = SLEEPING ∧ p_chan p = Some c) then set_state RUNNABLE p else p.
Definition wake (c : chan) (s : kernel) : kernel := set_procs (imap (woken_by c) (procs s)) s.
Definition wakes (cs : list chan) (s : kernel) : kernel := foldr wake s cs.

(** What [sleep] leaves of the calling process when it gives up the processor, and what it
    does once it is back. *)
Definition to_sleep (c : chan) (s : kernel) : kernel :=
  pupd me (λ p, set_plocked true (set_state SLEEPING (set_chan (Some c) p))) s.
Definition from_sleep (s : kernel) : kernel := pupd me (λ p, set_plocked false (set_chan None p)) s.

Fixpoint inside {T A} (put : T → kernel → kernel) (get : kernel → T) (s : kernel) (r : res T A) : res kernel A :=
  match r with
  | Ret a t => Ret a (put t s)
  | Panic m => Panic m
  | Fault w => Fault w
  | NoFuel => NoFuel
  | Sleep c t k => Sleep c (to_sleep c (put t s)) (λ s', let s' := from_sleep s' in inside put get s' (k (get s')))
  end.

Definition run_in {T A} (put : T → kernel → kernel) (get : kernel → T) (c : M T A) : M kernel A :=
  λ s, inside put get s (c (get s)).

Definition mypid (s : kernel) : Z := p_pid (pr me s).

Definition on_mem {A} (c : M kmem A) : M kernel A := zoom set_km km c.

Definition put_fs (f : fs log_state) (s : kernel) : kernel := wakes (fs_woken f) (set_fsys (fs_quiet f) s).

Definition on_fs {A} (c : Store log_state → Z → nat → M (fs log_state) A) : M kernel A := λ s,
  run_in put_fs fsys (c (store_log (mypid s) fuel) (mypid s) fuel) s.

(** The log, under the file system. *)
Definition on_log {A} (c : M log_state A) : M kernel A :=
  run_in put_fs fsys (Fs.on_store c).
Definition begin_op : M kernel unit := λ s, on_log (Log.begin_op fuel) s.
Definition end_op : M kernel unit := λ s, on_log (Log.end_op (mypid s) fuel) s.

Definition set_pr_killed b p := Pipe (Pipe.data p) (Pipe.nread p) (nwrite p) (readopen p) (writeopen p) (plocked p) b (woken p) (umem p) (pfreed p) (hist p).
Definition no_pipe : pipe := Pipe (replicate 512 0) 0 0 false false false false [] ∅ true [].

(** Pipe [pi]; the threads it has woken are woken in the table. *)
Definition on_pipe {A} (pi : Z) (c : M pipe A) : M kernel A :=
  run_in (λ t s, wakes (woken t) (set_pipes (<[pi := set_woken [] t]> (pipes s)) s))
    (λ s, set_pr_killed (p_killed (pr me s)) (default no_pipe (pipes s !! pi))) c.

Definition set_ckilled b c := Console (clock c) (cbuf c) (rd_i c) (wr_i c) (ed_i c) (cout c) (cwoken c) b.

Definition on_cons {A} (c : M console A) : M kernel A :=
  run_in (λ t s, wakes (cwoken t) (set_cons (set_cwoken [] t) s)) (λ s, set_ckilled (p_killed (pr me s)) (cons s)) c.

End inside.
