(* ===== verification/File.v ===== *)
(** Open files, kernel/file.c, and [pipealloc] of kernel/pipe.c.

    The code runs in process [me].  Its user memory is seen through [uread], the byte at an
    address if the process may read it, and [uwrite], whether it may write there (copyin
    and copyout of vm.c); what a read delivers is returned as a list of bytes. *)

From S2P Require Import Prelude Mem Riscv Kalloc Vm Bytes Bio Log Store Fs Dir Console Pipe Fdtable Kernel.

Section file.
Context `{KernelImage} (me fuel : nat) (uread : Z → option Z) (uwrite : Z → bool).

Definition fileinit : M kernel unit := modify (set_ft_locked false).

(** The scan of [filealloc] for a file with no references. *)
Definition filealloc_body (i : nat) : M kernel (nat + option nat) :=
  s ← get;
  if bool_decide (i < NFILE)%nat then
    if f_ref (fl i s) =? 0 then
      modify (fupd i (λ f, File (f_type f) 1 (f_readable f) (f_writable f) (f_pipe f) (f_ip f) (f_off f) (f_major f)));;
      release_ft;; mret (inr (Some i))
    else mret (inl (S i))
  else release_ft;; mret (inr None).

Definition filealloc : M kernel (option nat) :=
  acquire_ft;; loop (S NFILE) filealloc_body 0%nat.

Definition set_fref (r : Z) (f : file) : file :=
  File (f_type f) r (f_readable f) (f_writable f) (f_pipe f) (f_ip f) (f_off f) (f_major f).
Definition set_foff (o : Z) (f : file) : file :=
  File (f_type f) (f_ref f) (f_readable f) (f_writable f) (f_pipe f) (f_ip f) o (f_major f).

Definition filedup (i : nat) : M kernel nat :=
  acquire_ft;;
  s ← get;
  if f_ref (fl i s) <? 1 then panic "filedup"
  else modify (fupd i (λ f, set_fref (f_ref f + 1) f));; release_ft;; mret i.

(** [pipeclose], with the page of the pipe given back when both ends are closed. *)
Definition close_pipe (pi : Z) (writable : bool) : M kernel unit :=
  on_pipe me pi (pipeclose pi writable);;
  s ← get;
  if pfreed (default no_pipe (pipes s !! pi)) then
    modify (λ s, set_pipes (delete pi (pipes s)) s);; on_mem (kfree pi)
  else mret tt.

(** What [fileclose] does with the object of a file whose last reference is gone. *)
Definition close_object (ff : file) : M kernel unit :=
  match f_type ff with
  | FD_PIPE => close_pipe (f_pipe ff) (f_writable ff)
  | FD_INODE | FD_DEVICE =>
      begin_op me fuel;;
      on_fs me fuel (λ st pid fuel, @iput _ st pid fuel (f_ip ff));;
      end_op me fuel
  | FD_NONE => mret tt
  end.

Definition fileclose (i : nat) : M kernel unit :=
  acquire_ft;;
  s ← get;
  if f_ref (fl i s) <? 1 then panic "fileclose"
  else
    modify (fupd i (λ f, set_fref (f_ref f - 1) f));;
    s ← get;
    if 0 <? f_ref (fl i s) then release_ft
    else
      let ff := fl i s in
      modify (fupd i (λ f, File FD_NONE 0 (f_readable f) (f_writable f) (f_pipe f) (f_ip f) (f_off f) (f_major f)));;
      release_ft;;
      close_object ff.

(** Whether copyout of [n] bytes at [a] succeeds; the bytes of copyin, up to the first that
    cannot be read. *)
Definition can_write (a n : Z) : bool := forallb (λ k, uwrite (u64 (a + Z.of_nat k))) (seq 0 (Z.to_nat n)).

Fixpoint ubytes (a : Z) (n : nat) : list Z * bool :=
  match n with
  | O => ([], true)
  | S n =>
      match uread a with
      | None => ([], false)
      | Some b => let '(bs, ok) := ubytes (u64 (a + 1)) n in (b :: bs, ok)
      end
  end.

(** [sizeof(struct stat)] *)
Definition STAT : Z := 24.

Definition filestat (i : nat) (addr : Z) : M kernel (Z * option stat) :=
  f ← gets (fl i);
  if bool_decide (f_type f = FD_INODE ∨ f_type f = FD_DEVICE) then
    on_fs me fuel (λ st pid fuel, @ilock _ st pid fuel (f_ip f));;
    s ← get;
    let x := stati (f_ip f) (fsys s) in
    on_fs me fuel (λ st pid _, iunlock pid (f_ip f));;
    if can_write addr STAT then mret (0, Some x) else mret (-1, None)
  else mret (-1, None).

(** The bytes a read of a pipe has left in user memory. *)
Definition piped_bytes (pi addr n : Z) (s : kernel) : list Z :=
  omap (λ k, umem (default no_pipe (pipes s !! pi)) !! u64 (addr + Z.of_nat k)) (seq 0 (Z.to_nat n)).

Definition fileread (i : nat) (addr n : Z) : M kernel (Z * list Z) :=
  f ← gets (fl i);
  if negb (f_readable f) then mret (-1, [])
  else
    match f_type f with
    | FD_PIPE =>
        r ← on_pipe me (f_pipe f) (piperead (f_pipe f) (Z.of_nat me) uwrite fuel addr n);
        s ← get; mret (r, piped_bytes (f_pipe f) addr r s)
    | FD_DEVICE =>
        if (f_major f <? 0) || (NDEV <=? f_major f) || negb (f_major f =? CONSOLE) then mret (-1, [])
        else on_cons me (consoleread fuel (λ k, uwrite (u64 (addr + k))) n)
    | FD_INODE =>
        on_fs me fuel (λ st pid fuel, @ilock _ st pid fuel (f_ip f));;
        s ← get;
        r ← on_fs me fuel (λ st _ _, @readi _ st (f_ip f) (λ o m, can_write (u64 (addr + o)) m) (f_off (fl i s)) (u32 n));
        when (0 <? r.1) (modify (fupd i (λ f, set_foff (u32 (f_off f + r.1)) f)));;
        on_fs me fuel (λ st pid _, iunlock pid (f_ip f));;
        mret r
    | FD_NONE => panic "fileread"
    end.

(** The bytes written by one transaction at most. *)
Definition write_max : Z := (MAXOPBLOCKS - 1 - 1 - 2) / 2 * BSIZE.

(** One round of the loop of [filewrite]: [inl] goes on, [inr] has left the loop at [i]. *)
Definition filewrite_body (i : nat) (addr n : Z) (k : Z) : M kernel (Z + Z) :=
  if k <? n then
    let n1 := Z.min (n - k) write_max in
    f ← gets (fl i);
    begin_op me fuel;;
    on_fs me fuel (λ st pid fuel, @ilock _ st pid fuel (f_ip f));;
    s ← get;
    r ← on_fs me fuel (λ st _ _, @writei _ st (f_ip f) (λ o m, ubytes (u64 (addr + k + o)) (Z.to_nat m)) (f_off (fl i s)) n1);
    when (0 <? r) (modify (fupd i (λ f, set_foff (u32 (f_off f + r)) f)));;
    on_fs me fuel (λ st pid _, iunlock pid (f_ip f));;
    end_op me fuel;;
    if negb (r =? n1) then mret (inr k) else mret (inl (k + r))
  else mret (inr k).

Definition filewrite (i : nat) (addr n : Z) : M kernel Z :=
  f ← gets (fl i);
  if negb (f_writable f) then mret (-1)
  else
    match f_type f with
    | FD_PIPE => on_pipe me (f_pipe f) (pipewrite (f_pipe f) (Z.of_nat me) uread fuel addr n)
    | FD_DEVICE =>
        if (f_major f <? 0) || (NDEV <=? f_major f) || negb (f_major f =? CONSOLE) then mret (-1)
        else on_cons me (consolewrite (λ k, uread (u64 (addr + k))) n)
    | FD_INODE =>
        k ← loop (S (Z.to_nat (n / write_max + 1))) (filewrite_body i addr n) 0;
        mret (if k =? n then n else -1)
    | FD_NONE => panic "filewrite"
    end.

(** A pipe in a page fresh from [kalloc], which fills it with 5s. *)
Definition new_pipe : pipe := Pipe (replicate (Z.to_nat PIPESIZE) 5) 0 0 true true false false [] ∅ false [].

Definition pipe_end (pi : Z) (r w : bool) (f : file) : file := File FD_PIPE (f_ref f) r w pi (f_ip f) (f_off f) (f_major f).

(** [bad:] is reached only while [pi] is 0. *)
Definition pipealloc : M kernel (option (nat * nat)) :=
  r0 ← filealloc;
  match r0 with
  | None => mret None
  | Some f0 =>
      r1 ← filealloc;
      match r1 with
      | None => fileclose f0;; mret None
      | Some f1 =>
          pi ← on_mem kalloc;
          if pi =? 0 then fileclose f0;; fileclose f1;; mret None
          else
            modify (λ s, set_pipes (<[pi := new_pipe]> (pipes s)) s);;
            modify (fupd f0 (pipe_end pi true false));;
            modify (fupd f1 (pipe_end pi false true));;
            mret (Some (f0, f1))
      end
  end.

End file.
