(* ===== verification/Proc.v ===== *)
(** Processes, kernel/proc.c.

    Functions that use [myproc()] take the index [me] of the current process.  [sched]
    suspends the thread; the scheduler resumes it when it has made the process running.
    What the processors' [noff] counts is the number of spin locks held. *)

From S2P Require Import Prelude Mem Riscv Kalloc Vm Bytes Sleeplock Bio Log Store Fs Dir Console Pipe Fdtable Kernel File.

(** Offsets in a trap frame *)
Definition tf_kernel_satp : Z := 0.
Definition tf_kernel_sp : Z := 8.
Definition tf_kernel_trap : Z := 16.
Definition tf_epc : Z := 24.
Definition tf_kernel_hartid : Z := 32.
Definition tf_sp : Z := 48.
Definition tf_a (n : Z) : Z := 112 + 8 * n.
Definition TRAPFRAME_SIZE : Z := 288.

Definition nproc : nat := Z.to_nat NPROC.

(** [safestrcpy] on the bytes of the destination *)
Fixpoint safestrcpy (n : nat) (dst src : list Z) : list Z :=
  match n with
  | O => dst
  | S O => 0 :: tail dst
  | S n => if hd 0 src =? 0 then 0 :: 0 :: drop 2 dst else hd 0 src :: safestrcpy n (tail dst) (tail src)
  end.

Section proc.
Context `{KernelImage} (fuel : nat).

Definition procinit : M kernel unit :=
  modify (set_pid_locked false);;
  modify (set_wait_locked false);;
  modify (λ s, set_procs (imap (λ i p, set_kstack (KSTACK (Z.of_nat i)) (set_state UNUSED (set_plocked false p))) (procs s)) s).

Definition allocpid : M kernel Z :=
  acquire_pid;;
  pid ← gets nextpid;
  modify (set_nextpid (i32 (pid + 1)));;
  release_pid;;
  mret pid.

(** * Page tables of processes *)

Definition proc_pagetable (tf : Z) : M kmem Z :=
  pagetable ← uvmcreate;
  if pagetable =? 0 then mret 0
  else
    r ← mappages pagetable TRAMPOLINE PGSIZE trampoline (Z.lor PTE_R PTE_X);
    if r <? 0 then uvmfree pagetable 0;; mret 0
    else
      r ← mappages pagetable TRAPFRAME PGSIZE tf (Z.lor PTE_R PTE_W);
      if r <? 0 then uvmunmap pagetable TRAMPOLINE 1 false;; uvmfree pagetable 0;; mret 0
      else mret pagetable.

Definition proc_freepagetable (pagetable sz : Z) : M kmem unit :=
  uvmunmap pagetable TRAMPOLINE 1 false;;
  uvmunmap pagetable TRAPFRAME 1 false;;
  uvmfree pagetable sz.

(** * Creating and destroying processes *)

(** The fields [freeproc] clears. *)
Definition cleared_proc (p : proc) : proc :=
  Proc (p_locked p) UNUSED None false 0 0 None (p_kstack p) 0 0 0 (p_forkret p) (p_ofile p) (p_cwd p) (0 :: tail (p_name p)).

Definition freeproc (i : nat) : M kernel unit :=
  p ← gets (pr i);
  when (negb (p_trapframe p =? 0)) (on_mem (kfree (p_trapframe p)));;
  when (negb (p_pagetable p =? 0)) (on_mem (proc_freepagetable (p_pagetable p) (p_sz p)));;
  modify (pupd i cleared_proc).

(** The scan for an unused slot; it returns with the slot's lock held. *)
Definition allocproc_scan (i : nat) : M kernel (nat + option nat) :=
  if bool_decide (i < nproc)%nat then
    acquire_proc i;;
    s ← get;
    if bool_decide (p_state (pr i s) = UNUSED) then mret (inr (Some i))
    else release_proc i;; mret (inl (S i))
  else mret (inr None).

Definition allocproc : M kernel (option nat) :=
  r ← loop (S nproc) allocproc_scan 0%nat;
  match r with
  | None => mret None
  | Some i =>
      pid ← allocpid;
      modify (pupd i (λ p, set_state USED (set_pid pid p)));;
      tf ← on_mem kalloc;
      modify (pupd i (set_trapframe tf));;
      if tf =? 0 then freeproc i;; release_proc i;; mret None
      else
        pt ← on_mem (proc_pagetable tf);
        modify (pupd i (set_pagetable pt));;
        if pt =? 0 then freeproc i;; release_proc i;; mret None
        else modify (pupd i (set_forkret true));; mret (Some i)
  end.

Definition initcode : list Z :=
  [0x17; 0x05; 0x00; 0x00; 0x13; 0x05; 0x45; 0x02;
   0x97; 0x05; 0x00; 0x00; 0x93; 0x85; 0x35; 0x02;
   0x93; 0x08; 0x70; 0x00; 0x73; 0x00; 0x00; 0x00;
   0x93; 0x08; 0x20; 0x00; 0x73; 0x00; 0x00; 0x00;
   0xef; 0xf0; 0x9f; 0xff; 0x2f; 0x69; 0x6e; 0x69;
   0x74; 0x00; 0x00; 0x24; 0x00; 0x00; 0x00; 0x00;
   0x00; 0x00; 0x00; 0x00].

(** "initcode" *)
Definition initcode_name : list Z := [105; 110; 105; 116; 99; 111; 100; 101].

Definition userinit : M kernel unit :=
  r ← allocproc;
  modify (set_initproc r);;
  match r with
  | None => fault "null process"
  | Some i =>
      p ← gets (pr i);
      on_mem (uvmfirst (p_pagetable p) initcode);;
      modify (pupd i (set_sz PGSIZE));;
      on_mem (store64 (p_trapframe p + tf_epc) 0);;
      on_mem (store64 (p_trapframe p + tf_sp) PGSIZE);;
      modify (pupd i (λ p, set_name (safestrcpy 16 (p_name p) initcode_name) p));;
      cwd ← on_fs i fuel (λ st pid fuel, @namei _ st pid fuel 0%nat [SLASH]);
      modify (pupd i (set_cwd cwd));;
      modify (pupd i (set_state RUNNABLE));;
      release_proc i
  end.

(** * The scheduler *)

Definition count_true (l : list bool) : nat := length (filter (λ b, b = true) l).

(** Spin locks held: [mycpu()->noff]. *)
Definition noff (s : kernel) : nat :=
  count_true ([ft_locked s; pid_locked s; wait_locked s; ticks_locked s; kmem_locked (km s); clock (cons s);
               itable_lock (fsys s); llock (store (fsys s)); bc_lock (bio (store (fsys s)))] ++
    (p_locked <$> procs s) ++ ((λ x, plocked x.2) <$> map_to_list (pipes s)) ++
    ((λ x, lk (ilk x)) <$> inodes (fsys s)) ++ ((λ b, lk (block b)) <$> nodes (bio (store (fsys s))))).

(** Interrupts are off while a lock is held, so the last of the checks is the second. *)
Definition sched (me : nat) : M kernel unit := λ s,
  if negb (p_locked (pr me s)) then Panic "sched p->lock"
  else if negb (noff s =? 1)%nat then Panic "sched locks"
  else if bool_decide (p_state (pr me s) = RUNNING) then Panic "sched running"
  else Sleep (default ChNone (p_chan (pr me s))) s (λ s', Ret tt s').

Definition yield (me : nat) : M kernel unit :=
  acquire_proc me;;
  modify (pupd me (set_state RUNNABLE));;
  sched me;;
  release_proc me.

(** [sleep], given the lock it takes over. *)
Definition sleep (me : nat) (c : chan) (acquire_lk release_lk : M kernel unit) : M kernel unit :=
  acquire_proc me;;
  release_lk;;
  modify (pupd me (λ p, set_state SLEEPING (set_chan (Some c) p)));;
  sched me;;
  modify (pupd me (set_chan None));;
  release_proc me;;
  acquire_lk.

Definition wakeup_body (me : nat) (c : option chan) (i : nat) : M kernel (nat + unit) :=
  if bool_decide (i < nproc)%nat then
    (if bool_decide (i ≠ me) then
       acquire_proc i;;
       s ← get;
       when (bool_decide (p_state (pr i s) = SLEEPING ∧ p_chan (pr i s) = c)) (modify (pupd i (set_state RUNNABLE)));;
       release_proc i
     else mret tt);;
    mret (inl (S i))
  else mret (inr tt).

Definition wakeup (me : nat) (c : option chan) : M kernel unit :=
  loop (S nproc) (wakeup_body me c) 0%nat.

(** The saved kernel thread of each process is what it does when it is switched to.
    [scheduler_body i] is one round of the loop of [scheduler]: [None] if the thread ended
    in a panic. *)
Record system := System {
  kern : kernel;
  contexts : nat → kernel → res kernel unit;
  on_cpu : option nat;
}.

Definition scheduler_body (i : nat) (y : system) : option system :=
  if p_locked (pr i (kern y)) then None
  else if bool_decide (p_state (pr i (kern y)) = RUNNABLE) then
    let s := pupd i (λ p, set_state RUNNING (set_plocked true p)) (kern y) in
    match contexts y i s with
    | Sleep _ s' k =>
        Some (System (pupd i (set_plocked false) s') (λ j, if decide (j = i) then k else contexts y j) None)
    | _ => None
    end
  else Some (System (kern y) (contexts y) None).

(** * The life of a process *)

Definition killed (i : nat) : M kernel bool :=
  acquire_proc i;;
  k ← gets (λ s, p_killed (pr i s));
  release_proc i;;
  mret k.

Definition setkilled (i : nat) : M kernel unit :=
  acquire_proc i;;
  modify (pupd i (set_killed true));;
  release_proc i.

Definition kill_body (pid : Z) (i : nat) : M kernel (nat + Z) :=
  if bool_decide (i < nproc)%nat then
    acquire_proc i;;
    s ← get;
    if p_pid (pr i s) =? pid then
      modify (pupd i (set_killed true));;
      when (bool_decide (p_state (pr i s) = SLEEPING)) (modify (pupd i (set_state RUNNABLE)));;
      release_proc i;;
      mret (inr 0)
    else release_proc i;; mret (inl (S i))
  else mret (inr (-1)).

Definition kill (pid : Z) : M kernel Z := loop (S nproc) (kill_body pid) 0%nat.

Section me.
Context (me : nat).

Definition growproc (n : Z) : M kernel Z :=
  p ← gets (pr me);
  let sz := p_sz p in
  if 0 <? n then
    sz' ← on_mem (uvmalloc (p_pagetable p) sz (u64 (sz + n)) PTE_W);
    if sz' =? 0 then mret (-1)
    else modify (pupd me (set_sz sz'));; mret 0
  else if n <? 0 then
    sz' ← on_mem (uvmdealloc (p_pagetable p) sz (u64 (sz + n)));
    modify (pupd me (set_sz sz'));; mret 0
  else modify (pupd me (set_sz sz));; mret 0.

(** The loop of [fork] over the open files. *)
Definition fork_files_body (np : nat) (i : nat) : M kernel (nat + unit) :=
  if bool_decide (i < NOFILE)%nat then
    s ← get;
    match p_ofile (pr me s) !! i with
    | Some (Some f) => f' ← filedup f; modify (pupd np (λ p, set_ofile (<[i := Some f']> (p_ofile p)) p))
    | _ => mret tt
    end;;
    mret (inl (S i))
  else mret (inr tt).

Definition fork_files (np : nat) : M kernel unit := loop (S NOFILE) (fork_files_body np) 0%nat.

Definition fork : M kernel Z :=
  r ← allocproc;
  match r with
  | None => mret (-1)
  | Some np =>
      s ← get;
      let p := pr me s in
      r ← on_mem (uvmcopy (p_pagetable p) (p_pagetable (pr np s)) (p_sz p));
      if r <? 0 then freeproc np;; release_proc np;; mret (-1)
      else
        modify (pupd np (set_sz (p_sz p)));;
        on_mem (mmove (p_trapframe (pr np s)) (p_trapframe p) TRAPFRAME_SIZE);;
        on_mem (store64 (p_trapframe (pr np s) + tf_a 0) 0);;
        fork_files np;;
        match p_cwd p with
        | None => fault "null inode"
        | Some ip =>
            cwd ← on_fs me fuel (λ _ _ _, idup ip);
            modify (pupd np (set_cwd (Some cwd)));;
            modify (λ s, pupd np (λ q, set_name (safestrcpy 16 (p_name q) (p_name p)) q) s);;
            pid ← gets (λ s, p_pid (pr np s));
            release_proc np;;
            acquire_wait;;
            modify (pupd np (set_parent (Some me)));;
            release_wait;;
            acquire_proc np;;
            modify (pupd np (set_state RUNNABLE));;
            release_proc np;;
            mret pid
        end
  end.

Definition reparent_body (i : nat) : M kernel (nat + unit) :=
  if bool_decide (i < nproc)%nat then
    s ← get;
    when (bool_decide (p_parent (pr i s) = Some me))
      (modify (pupd i (set_parent (initproc s)));; wakeup me (ChProc <$> initproc s));;
    mret (inl (S i))
  else mret (inr tt).

Definition reparent : M kernel unit := loop (S nproc) reparent_body 0%nat.

(** The loop of [exit] over the open files. *)
Definition exit_files_body (fd : nat) : M kernel (nat + unit) :=
  if bool_decide (fd < NOFILE)%nat then
    s ← get;
    match p_ofile (pr me s) !! fd with
    | Some (Some f) => fileclose me fuel f;; modify (pupd me (λ p, set_ofile (<[fd := None]> (p_ofile p)) p))
    | _ => mret tt
    end;;
    mret (inl (S fd))
  else mret (inr tt).

(** [exit] from where it takes [wait_lock]. *)
Definition exit_end (status : Z) : M kernel unit :=
  acquire_wait;;
  reparent;;
  s ← get;
  wakeup me (ChProc <$> p_parent (pr me s));;
  acquire_proc me;;
  modify (pupd me (λ p, set_state ZOMBIE (set_xstate status p)));;
  release_wait;;
  sched me;;
  panic "zombie exit".

Definition exit (status : Z) : M kernel unit :=
  s ← get;
  if bool_decide (initproc s = Some me) then panic "init exiting"
  else
    loop (S NOFILE) exit_files_body 0%nat;;
    begin_op me fuel;;
    s ← get;
    match p_cwd (pr me s) with
    | None => fault "null inode"
    | Some ip => on_fs me fuel (λ st pid fuel, @iput _ st pid fuel ip)
    end;;
    end_op me fuel;;
    modify (pupd me (set_cwd None));;
    exit_end status.

(** One child in the scan of [wait]: the result if it has exited. *)
Definition wait_scan (addr : Z) (st : nat * bool) : M kernel (nat * bool + option Z * bool) :=
  let '(i, havekids) := st in
  if bool_decide (i < nproc)%nat then
    s ← get;
    if bool_decide (p_parent (pr i s) = Some me) then
      acquire_proc i;;
      s ← get;
      if bool_decide (p_state (pr i s) = ZOMBIE) then
        let pid := p_pid (pr i s) in
        r ← (if negb (addr =? 0) then on_mem (copyout 8 (p_pagetable (pr me s)) addr (le_enc 4 (u32 (p_xstate (pr i s))))) else mret 0);
        if r <? 0 then release_proc i;; release_wait;; mret (inr (Some (-1), true))
        else freeproc i;; release_proc i;; release_wait;; mret (inr (Some pid, true))
      else release_proc i;; mret (inl (S i, true))
    else mret (inl (S i, havekids))
  else mret (inr (None, havekids)).

Definition wait_body (addr : Z) (_ : unit) : M kernel (unit + Z) :=
  r ← loop (S nproc) (wait_scan addr) (0%nat, false);
  match r.1 with
  | Some pid => mret (inr pid)
  | None =>
      k ← (if r.2 : bool then killed me else mret true);
      if (k : bool) then release_wait;; mret (inr (-1))
      else sleep me (ChProc me) acquire_wait release_wait;; mret (inl tt)
  end.

Definition wait (addr : Z) : M kernel Z :=
  acquire_wait;; loop fuel (wait_body addr) tt.

(** * Copies to and from a user or a kernel address; [scause] as in [copyout] *)

Definition either_copyout (scause : Z) (user_dst : bool) (dst : Z) (src : list Z) : M kernel Z :=
  if user_dst then
    p ← gets (pr me);
    on_mem (copyout scause (p_pagetable p) dst src)
  else on_mem (mwrite dst src);; mret 0.

Definition either_copyin (user_src : bool) (src len : Z) : M kernel (Z * list Z) :=
  if user_src then
    p ← gets (pr me);
    on_mem (copyin (p_pagetable p) src len)
  else bs ← on_mem (mread src (Z.to_nat len)); mret (0, bs).

End me.

(** The lines of [procdump]: pid, state, name. *)
Definition state_name (st : procstate) : string :=
  match st with
  | UNUSED => "unused" | USED => "used" | SLEEPING => "sleep " | RUNNABLE => "runble" | RUNNING => "run   " | ZOMBIE => "zombie"
  end.

Definition procdump (s : kernel) : list (Z * string * list Z) :=
  (λ p, (p_pid p, state_name (p_state p), p_name p)) <$> filter (λ p, p_state p ≠ UNUSED) (procs s).

End proc.
