(* ===== verification/Exec.v ===== *)
(** The arguments of system calls, kernel/syscall.c; and [exec], kernel/exec.c: load an ELF
    file into a new address space, push the arguments on its stack, and only then replace
    the old one. *)

From S2P Require Import Prelude Mem Riscv Kalloc Vm Bytes Bio Log Store Fs Dir Console Pipe Fdtable Kernel File Proc.

(** * Arguments of system calls: registers of the trap frame, addresses and strings fetched
    from user memory *)

Section syscall.
Context `{KernelImage} (me : nat).

(** The value fetched, and 0 or -1. *)
Definition fetchaddr (addr : Z) : M kernel (Z * Z) :=
  p ← gets (pr me);
  if (p_sz p <=? addr) || (p_sz p <? u64 (addr + 8)) then mret (-1, 0)
  else
    r ← on_mem (copyin (p_pagetable p) addr 8);
    if negb (r.1 =? 0) then mret (-1, le_dec r.2) else mret (0, le_dec r.2).

(** [strlen] of a buffer *)
Fixpoint buf_strlen (buf : list Z) : Z :=
  match buf with
  | [] => 0
  | c :: buf => if c =? 0 then 0 else 1 + buf_strlen buf
  end.

(** The length of the string or -1, and what has been stored in the buffer. *)
Definition fetchstr (addr max : Z) : M kernel (Z * list Z) :=
  p ← gets (pr me);
  r ← on_mem (copyinstr (p_pagetable p) addr max);
  if r.1 <? 0 then mret (-1, r.2) else mret (buf_strlen r.2, r.2).

Definition argraw (n : Z) : M kernel Z :=
  p ← gets (pr me);
  if (0 <=? n) && (n <=? 5) then on_mem (load64 (p_trapframe p + tf_a n)) else panic "argraw".

Definition argint (n : Z) : M kernel Z := x ← argraw n; mret (i32 x).
Definition argaddr (n : Z) : M kernel Z := argraw n.

Definition argstr (n max : Z) : M kernel (Z * list Z) :=
  addr ← argaddr n; fetchstr addr max.

(** The bytes of the string, without its NUL. *)
Definition str_of (r : Z * list Z) : list Z := take (Z.to_nat r.1) r.2.

End syscall.

(** * exec *)

Definition ELF_MAGIC : Z := 0x464C457F.
Definition ELF_PROG_LOAD : Z := 1.
Definition MAXARG : nat := 32.
Definition USERSTACK : Z := 1.
Definition ELFHDR : Z := 64.
Definition PROGHDR : Z := 56.

Definition get64 (o : nat) (d : list Z) : Z := le_dec (sub o 8 d).

Record elfhdr := Elfhdr { e_magic : Z; e_entry : Z; e_phoff : Z; e_phnum : Z }.
Definition parse_elf (d : list Z) : elfhdr := Elfhdr (get32 0 d) (get64 24 d) (get64 32 d) (get16 56 d).

Record proghdr := Proghdr { ph_type : Z; ph_flags : Z; ph_off : Z; ph_vaddr : Z; ph_filesz : Z; ph_memsz : Z }.
Definition parse_ph (d : list Z) : proghdr :=
  Proghdr (get32 0 d) (get32 4 d) (get64 8 d) (get64 16 d) (get64 32 d) (get64 40 d).

Definition flags2perm (flags : Z) : Z :=
  let perm := if Z.land flags 1 =? 0 then 0 else PTE_X in
  if Z.land flags 2 =? 0 then perm else Z.lor perm PTE_W.

(** The program's name: what follows the last '/'. *)
Fixpoint base_name (last path : list Z) : list Z :=
  match path with
  | [] => last
  | c :: path => base_name (if c =? SLASH then path else last) path
  end.

Section exec.
Context `{KernelImage} (me fuel : nat).

Definition read_file (ip : nat) (off n : Z) : M kernel (Z * list Z) :=
  on_fs me fuel (λ st _ _, @readi _ st ip to_kernel (u32 off) (u32 n)).

(** One page of a segment. *)
Definition loadseg_body (pagetable va : Z) (ip : nat) (offset sz : Z) (i : Z) : M kernel (Z + Z) :=
  if i <? sz then
    pa ← on_mem (walkaddr pagetable (u64 (va + i)));
    if pa =? 0 then panic "loadseg: address should exist"
    else
      let n := if u32 (sz - i) <? PGSIZE then u32 (sz - i) else PGSIZE in
      r ← read_file ip (offset + i) n;
      on_mem (mwrite pa r.2);;
      if negb (r.1 =? n) then mret (inr (-1)) else mret (inl (u32 (i + PGSIZE)))
  else mret (inr 0).

Definition loadseg (pagetable va : Z) (ip : nat) (offset sz : Z) : M kernel Z :=
  loop (S (Z.to_nat ((sz + PGSIZE - 1) / PGSIZE))) (loadseg_body pagetable va ip offset sz) 0.

(** One program header.  The state is [i] and [sz]; the loop is left with [sz] and whether
    all went well. *)
Definition exec_load_body (pagetable : Z) (ip : nat) (elf : elfhdr) (st : Z * Z) : M kernel (Z * Z + bool * Z) :=
  let '(i, sz) := st in
  if i <? e_phnum elf then
    r ← read_file ip (e_phoff elf + i * PROGHDR) PROGHDR;
    if negb (r.1 =? PROGHDR) then mret (inr (false, sz))
    else
      let ph := parse_ph r.2 in
      if negb (ph_type ph =? ELF_PROG_LOAD) then mret (inl (i + 1, sz))
      else if ph_memsz ph <? ph_filesz ph then mret (inr (false, sz))
      else if u64 (ph_vaddr ph + ph_memsz ph) <? ph_vaddr ph then mret (inr (false, sz))
      else if negb (ph_vaddr ph mod PGSIZE =? 0) then mret (inr (false, sz))
      else
        sz1 ← on_mem (uvmalloc pagetable sz (u64 (ph_vaddr ph + ph_memsz ph)) (flags2perm (ph_flags ph)));
        if sz1 =? 0 then mret (inr (false, sz))
        else
          r ← loadseg pagetable (ph_vaddr ph) ip (u32 (ph_off ph)) (u32 (ph_filesz ph));
          if r <? 0 then mret (inr (false, sz1)) else mret (inl (i + 1, sz1))
  else mret (inr (true, sz)).

(** From the file's header to the last segment: the page table, 0 if there is none yet, with
    [sz], whether all went well, and the entry point. *)
Definition exec_load (ip : nat) : M kernel (Z * Z * bool * Z) :=
  r ← read_file ip 0 ELFHDR;
  if negb (r.1 =? ELFHDR) then mret (0, 0, false, 0)
  else
    let elf := parse_elf r.2 in
    if negb (e_magic elf =? ELF_MAGIC) then mret (0, 0, false, 0)
    else
      p ← gets (pr me);
      pagetable ← on_mem (proc_pagetable (p_trapframe p));
      if pagetable =? 0 then mret (0, 0, false, 0)
      else
        l ← loop (S (Z.to_nat (e_phnum elf))) (exec_load_body pagetable ip elf) (0, 0);
        mret (pagetable, l.2, l.1, e_entry elf).

(** One argument string: the state is the arguments left, [sp] and the pointers pushed. *)
Definition push_arg_body (pagetable stackbase : Z) (st : list (list Z) * Z * list Z) :
    M kmem (list (list Z) * Z * list Z + option (Z * list Z)) :=
  let '(argv, sp, ustack) := st in
  match argv with
  | [] => mret (inr (Some (sp, ustack)))
  | arg :: argv =>
      if bool_decide (MAXARG ≤ length ustack)%nat then mret (inr None)
      else
        let sp := u64 (sp - (Z.of_nat (length arg) + 1)) in
        let sp := sp - sp mod 16 in
        if sp <? stackbase then mret (inr None)
        else
          r ← copyout 8 pagetable sp (arg ++ [0]);
          if r <? 0 then mret (inr None) else mret (inl (argv, sp, ustack ++ [sp]))
  end.

(** The strings, then the array of pointers to them: the stack pointer and [argc]. *)
Definition push_args (pagetable sp stackbase : Z) (argv : list (list Z)) : M kmem (option (Z * Z)) :=
  r ← loop (S (length argv)) (push_arg_body pagetable stackbase) (argv, sp, []);
  match r with
  | None => mret None
  | Some (sp, ustack) =>
      if bool_decide (length ustack = MAXARG) then fault "ustack[argc] past the end" else
      let argc := Z.of_nat (length ustack) in
      let sp := u64 (sp - (argc + 1) * 8) in
      let sp := sp - sp mod 16 in
      if sp <? stackbase then mret None
      else
        r ← copyout 8 pagetable sp (concat (le_enc 8 <$> (ustack ++ [0])));
        if r <? 0 then mret None else mret (Some (sp, argc))
  end.

(** [bad:] *)
Definition exec_bad (pagetable sz : Z) (ip : option nat) : M kernel Z :=
  when (negb (pagetable =? 0)) (on_mem (proc_freepagetable pagetable sz));;
  match ip with
  | Some ip => on_fs me fuel (λ st pid fuel, @iunlockput _ st pid fuel ip);; end_op me fuel
  | None => mret tt
  end;;
  mret (-1).

(** The new image takes the place of the old one. *)
Definition exec_commit (path : list Z) (pagetable sz entry sp argc oldsz : Z) : M kernel Z :=
  p ← gets (pr me);
  on_mem (store64 (p_trapframe p + tf_a 1) sp);;
  modify (pupd me (λ p, set_name (safestrcpy 16 (p_name p) (base_name path path)) p));;
  let oldpagetable := p_pagetable p in
  modify (pupd me (set_pagetable pagetable));;
  modify (pupd me (set_sz sz));;
  on_mem (store64 (p_trapframe p + tf_epc) entry);;
  on_mem (store64 (p_trapframe p + tf_sp) sp);;
  on_mem (proc_freepagetable oldpagetable oldsz);;
  mret argc.

Definition exec (path : list Z) (argv : list (list Z)) : M kernel Z :=
  begin_op me fuel;;
  p ← gets (pr me);
  r ← on_fs me fuel (λ st pid fuel, @namei _ st pid fuel (default 0%nat (p_cwd p)) path);
  match r with
  | None => end_op me fuel;; mret (-1)
  | Some ip =>
      on_fs me fuel (λ st pid fuel, @ilock _ st pid fuel ip);;
      l ← exec_load ip;
      let '(pagetable, sz, ok, entry) := l in
      if negb ok then exec_bad pagetable sz (Some ip)
      else
        on_fs me fuel (λ st pid fuel, @iunlockput _ st pid fuel ip);;
        end_op me fuel;;
        p ← gets (pr me);
        let oldsz := p_sz p in
        let sz := PGROUNDUP sz in
        sz1 ← on_mem (uvmalloc pagetable sz (u64 (sz + (USERSTACK + 1) * PGSIZE)) PTE_W);
        if sz1 =? 0 then exec_bad pagetable sz None
        else
          on_mem (uvmclear pagetable (u64 (sz1 - (USERSTACK + 1) * PGSIZE)));;
          r ← on_mem (push_args pagetable sz1 (u64 (sz1 - USERSTACK * PGSIZE)) argv);
          match r with
          | None => exec_bad pagetable sz1 None
          | Some (sp, argc) => exec_commit path pagetable sz1 entry sp argc oldsz
          end
  end.

End exec.
