(* ===== verification/ExecArgs.v ===== *)
(** The stack [exec] gives a new program: where its arguments lie and what the memory of the
    process holds there. *)

From S2P Require Import Prelude Mem Riscv Kalloc Vm PageTable AddrSpace Cow CowFault CowInv CopyOut Uvm Boot Bytes Exec.

(** * The layout *)

Definition align16 (sp : Z) : Z := sp - sp mod 16.

(** The address of a string pushed below [sp]. *)
Definition below (sp : Z) (arg : list Z) : Z := align16 (sp - (Z.of_nat (length arg) + 1)).

Fixpoint slots (sp : Z) (argv : list (list Z)) : list Z :=
  match argv with
  | [] => []
  | arg :: argv => below sp arg :: slots (below sp arg) argv
  end.

Definition bottom (sp : Z) (argv : list (list Z)) : Z := foldl below sp argv.

(** The address of the array of pointers, which is the initial stack pointer. *)
Definition args_sp (sp : Z) (argv : list (list Z)) : Z :=
  align16 (bottom sp argv - (Z.of_nat (length argv) + 1) * 8).

Lemma align16_bounds sp : sp - 16 < align16 sp ≤ sp ∧ align16 sp mod 16 = 0.
Proof. unfold align16. zdm. Qed.

Lemma below_bounds sp arg : sp - Z.of_nat (length arg) - 17 < below sp arg < sp - Z.of_nat (length arg).
Proof. unfold below. pose proof (align16_bounds (sp - (Z.of_nat (length arg) + 1))). lia. Qed.

Lemma bottom_le argv : ∀ sp, bottom sp argv ≤ sp.
Proof.
  induction argv as [|arg argv IH]; intros sp; [done|]. change (bottom (below sp arg) argv ≤ sp).
  pose proof (IH (below sp arg)). pose proof (below_bounds sp arg). lia.
Qed.

Lemma length_slots argv : ∀ sp, length (slots sp argv) = length argv.
Proof. induction argv as [|arg argv IH]; intros sp; simpl; [done|]. by rewrite IH. Qed.

(** Each string lies above the strings pushed after it. *)
Lemma slots_range argv : ∀ sp k p arg,
  slots sp argv !! k = Some p → argv !! k = Some arg → bottom sp argv ≤ p ∧ p + Z.of_nat (length arg) + 1 ≤ sp.
Proof.
  induction argv as [|a argv IH]; intros sp k p arg Hp Ha; [done|].
  change (bottom sp (a :: argv)) with (bottom (below sp a) argv).
  pose proof (below_bounds sp a). pose proof (bottom_le argv (below sp a)).
  destruct k as [|k]; cbn in Hp, Ha; [injection Hp as <-; injection Ha as <-; lia|].
  destruct (IH _ _ _ _ Hp Ha). lia.
Qed.

Section stack.
Context `{KernelImageOk} (As : list aspace) (i : nat) (A : aspace) (l : list Z) (base : Z).
Hypothesis HA : As !! i = Some A.
Hypothesis Hbase : PGSIZE ≤ base ∧ base + PGSIZE ≤ MAXVA ∧ base mod PGSIZE = 0.

Definition short (arg : list Z) : Prop := Z.of_nat (length arg) < PGSIZE.

(** The page at [base] is the process's own, and writable. *)
Record stack_page (s : kmem) : Prop := {
  sk_inv : cow_inv s As l;
  sk_write : uwritable (pte_of s (as_pt A) base) = true;
  sk_own : bit (pte_of s (as_pt A) base) 8 = false;
}.

(** Only bytes from [lo] up to [hi] of process [i] have changed. *)
Definition changed_in (s s' : kmem) (lo hi : Z) : Prop :=
  ∀ j B va, As !! j = Some B → 0 ≤ va → upage B (PGROUNDDOWN va) → (j = i → va < lo ∨ hi ≤ va) →
    ubyte s' (as_pt B) va = ubyte s (as_pt B) va.

Lemma changed_none s lo hi : changed_in s s lo hi.
Proof. intros ???? _ _ _. done. Qed.

Lemma changed_trans s1 s2 s3 lo mid hi :
  lo ≤ mid ≤ hi → changed_in s1 s2 mid hi → changed_in s2 s3 lo mid → changed_in s1 s3 lo hi.
Proof.
  intros Hm H1 H2 j B va HB Hva Hu Hout. rewrite (H2 j B va), (H1 j B va); try done; intros E; specialize (Hout E); lia.
Qed.

Lemma changed_wider s s' lo hi lo' hi' : lo' ≤ lo → hi ≤ hi' → changed_in s s' lo hi → changed_in s s' lo' hi'.
Proof. intros Hl Hh C j B va HB Hva Hu Hout. apply (C j B va HB Hva Hu). intros E. specialize (Hout E). lia. Qed.

Lemma stack_pte s va : base ≤ va < base + PGSIZE → pte_of s (as_pt A) va = pte_of s (as_pt A) base.
Proof. intros Hv. destruct Hbase as (Hb & _ & Hal). apply pte_of_same_page; unfold PGSIZE in *; (lia || zdm). Qed.

Lemma stack_upage s va : stack_page s → base ≤ va < base + PGSIZE → upage A (PGROUNDDOWN va).
Proof.
  intros K Hv. destruct Hbase as (Hb & Hmax & _). assert (0 < PGSIZE) by (unfold PGSIZE; lia).
  apply (ci_user _ _ _ (sk_inv _ K) i A va HA); [lia|]. rewrite stack_pte by done.
  pose proof (sk_write _ K) as Hw. unfold uwritable in Hw. by apply andb_prop in Hw as [? _].
Qed.

(** One [copyout] to the stack page. *)
Lemma push_bytes s sp bs :
  stack_page s → base ≤ sp → sp + Z.of_nat (length bs) ≤ base + PGSIZE → bs ≠ [] →
  ∃ s', copyout 8 (as_root A) sp bs s = Ret 0 s' ∧ stack_page s' ∧
    ubytes s' (as_pt A) sp (length bs) = u8 <$> bs ∧ changed_in s s' sp (sp + Z.of_nat (length bs)).
Proof.
  intros K Hlo Hhi Hne. destruct Hbase as (Hb & Hmax & Hal).
  assert (0 < Z.of_nat (length bs)) as Hpos by (destruct bs; [done|simpl; lia]).
  assert (0 < PGSIZE) as HP by (unfold PGSIZE; lia).
  destruct (copyout_private As i A 8 HA s l sp bs) as (s' & E & I' & W & Hp).
  { apply K. } { lia. } { unfold PGSIZE in *. zdm. } { rewrite stack_pte by lia. apply K. } { rewrite stack_pte by lia. apply K. }
  exists s'. split; [exact E|]. split; [|split].
  - constructor; [exact I'|rewrite Hp by lia; apply K..].
  - apply list_eq. intros k. unfold ubytes. rewrite !list_lookup_fmap.
    destruct (bs !! k) as [b|] eqn:Ek.
    + pose proof (lookup_lt_Some _ _ _ Ek) as Hk. rewrite lookup_seq_lt by done. cbn [Nat.add fmap option_fmap option_map]. f_equal.
      destruct (W i A (sp + Z.of_nat k) HA) as [-> _]; [lia|apply (stack_upage s); [done|lia]|].
      rewrite decide_True by lia. replace (Z.to_nat (sp + Z.of_nat k - sp)) with k by lia. by rewrite Ek.
    + apply lookup_ge_None in Ek. by rewrite lookup_seq_ge by lia.
  - intros j B va HB Hva Hu Hout. destruct (W j B va HB Hva Hu) as [-> _].
    case_decide as Hd; [|done]. destruct Hd as [-> Hle]. specialize (Hout eq_refl).
    by rewrite lookup_ge_None_2 by lia.
Qed.

Lemma ubytes_kept s s' lo hi va n :
  stack_page s → changed_in s s' lo hi → hi ≤ va → base ≤ va → va + Z.of_nat n ≤ base + PGSIZE →
  ubytes s' (as_pt A) va n = ubytes s (as_pt A) va n.
Proof.
  intros K C Hhi Hlo Hn. destruct Hbase as (Hb & _ & _). unfold ubytes. apply list_fmap_ext. intros k x Hx.
  apply lookup_seq in Hx as [-> Hk]. apply (C i A); [done|unfold PGSIZE in *; lia|apply (stack_upage s); [done|lia]|]. lia.
Qed.

(** The strings [argv] lie at [ps]. *)
Definition strings_at (s : kmem) (ps : list Z) (argv : list (list Z)) : Prop :=
  ∀ k p arg, ps !! k = Some p → argv !! k = Some arg →
    ubytes s (as_pt A) p (S (length arg)) = u8 <$> (arg ++ [0]).

(** The loop over the arguments stops at the first that does not fit. *)
Lemma push_loop argv : ∀ s sp ustack fuel,
  stack_page s → base ≤ sp ≤ base + PGSIZE → Forall short argv → (length argv < fuel)%nat →
  (length ustack + length argv < MAXARG)%nat →
  ∃ s', stack_page s' ∧ changed_in s s' base sp ∧
    if decide (base ≤ bottom sp argv) then
      loop fuel (push_arg_body (as_root A) base) (argv, sp, ustack) s = Ret (Some (bottom sp argv, ustack ++ slots sp argv)) s' ∧
      strings_at s' (slots sp argv) argv ∧ changed_in s s' (bottom sp argv) sp
    else loop fuel (push_arg_body (as_root A) base) (argv, sp, ustack) s = Ret None s'.
Proof.
  induction argv as [|arg argv IH]; intros s sp ustack fuel K Hsp Hsh Hf Hmax; (destruct fuel as [|fuel]; [simpl in Hf; lia|]).
  { exists s. split; [done|]. split; [apply changed_none|]. rewrite decide_True by (simpl; lia).
    rewrite (loop_done _ _ _ (Some (sp, ustack)) s s) by done. simpl. rewrite app_nil_r.
    split; [done|]. split; [by intros [|]|apply changed_none]. }
  destruct Hbase as (Hb & Hm & Hal). apply Forall_cons in Hsh as [Harg Hsh]. unfold short in Harg.
  cbn [length] in Hf, Hmax.
  change (bottom sp (arg :: argv)) with (bottom (below sp arg) argv).
  change (slots sp (arg :: argv)) with (below sp arg :: slots (below sp arg) argv).
  pose proof (below_bounds sp arg) as Hbb. pose proof (bottom_le argv (below sp arg)) as Hbot.
  assert (push_arg_body (as_root A) base (arg :: argv, sp, ustack) =
    (if below sp arg <? base then mret (inr None)
     else r ← copyout 8 (as_root A) (below sp arg) (arg ++ [0]);
       if r <? 0 then mret (inr None) else mret (inl (argv, below sp arg, ustack ++ [below sp arg])))) as Eb.
  { unfold push_arg_body. rewrite bool_decide_eq_false_2 by lia.
    rewrite u64_id by (rewrite MAXVA_val in *; unfold PGSIZE in *; lia). done. }
  destruct (decide (base ≤ below sp arg)) as [Hfit|Hno].
  - destruct (push_bytes s (below sp arg) (arg ++ [0])) as (s1 & E1 & S1 & U1 & C1);
      [done|done|rewrite length_app; simpl; lia|by destruct arg|].
    rewrite length_app in U1, C1. cbn [length] in U1, C1.
    replace (length arg + 1)%nat with (S (length arg)) in U1 by lia.
    destruct (IH s1 (below sp arg) (ustack ++ [below sp arg]) fuel) as (s' & S' & C' & R); try done; try lia.
    { rewrite length_app. simpl. lia. }
    rewrite (loop_next _ _ _ (argv, below sp arg, ustack ++ [below sp arg]) s s1).
    2:{ rewrite Eb, (proj2 (Z.ltb_ge _ _)) by lia. msimpl. rewrite E1. done. }
    exists s'. split; [done|]. split.
    { apply (changed_trans s s1 s' base (below sp arg) sp); [lia| |done].
      apply (changed_wider s s1 (below sp arg) (below sp arg + Z.of_nat (length arg + 1))); [lia|lia|done]. }
    case_decide; [|exact R]. destruct R as (R & St & Cb). rewrite R, <- app_assoc. split; [done|]. split.
    + intros [|k] p a Hp Ha; cbn in Hp, Ha; [|by apply (St k)]. injection Hp as <-. injection Ha as <-.
      rewrite (ubytes_kept s1 s' (bottom (below sp arg) argv) (below sp arg)); try done; lia.
    + apply (changed_trans s s1 s' _ (below sp arg) sp); [lia| |done].
      apply (changed_wider s s1 (below sp arg) (below sp arg + Z.of_nat (length arg + 1))); [lia|lia|done].
  - exists s. split; [done|]. split; [apply changed_none|]. rewrite decide_False by lia.
    apply loop_done. rewrite Eb, (proj2 (Z.ltb_lt _ _)) by lia. done.
Qed.

Lemma length_pointers ps : length (concat (le_enc 8 <$> ps)) = (length ps * 8)%nat.
Proof. induction ps as [|p ps IH]; [done|]. change (length (le_enc 8 p ++ concat (le_enc 8 <$> ps)) = (S (length ps) * 8)%nat). rewrite length_app, length_le_enc, IH. lia. Qed.

(** C9. The stack of a new program.  With fewer than MAXARG arguments, each shorter than a
    page, and the page at [base] the process's own, the argument-passing part of [exec]
    returns a stack pointer exactly if strings and pointers fit in that page; then the
    pointer is 16-byte aligned and inside the page, the memory at it holds the array of
    pointers closed by 0, each pointer leads to its NUL-terminated string, and nothing below
    the stack pointer has changed.  If they do not fit it refuses.  In both cases no byte
    outside the stack page changes, in this or any other process, and no page is taken. *)
Theorem exec_args_on_stack s argv :
  stack_page s → Forall short argv → (length argv < MAXARG)%nat →
  let sp := args_sp (base + PGSIZE) argv in
  let ps := slots (base + PGSIZE) argv in
  ∃ s', cow_inv s' As l ∧ changed_in s s' base (base + PGSIZE) ∧
    if decide (base ≤ sp) then
      push_args (as_root A) (base + PGSIZE) base argv s = Ret (Some (sp, Z.of_nat (length argv))) s' ∧
      sp mod 16 = 0 ∧ sp < base + PGSIZE ∧ changed_in s s' sp (base + PGSIZE) ∧ strings_at s' ps argv ∧
      ubytes s' (as_pt A) sp ((length argv + 1) * 8) = u8 <$> concat (le_enc 8 <$> (ps ++ [0]))
    else push_args (as_root A) (base + PGSIZE) base argv s = Ret None s'.
Proof.
  intros K Hsh Hn sp ps. assert (0 < PGSIZE) as HP by (unfold PGSIZE; lia).
  destruct (push_loop argv s (base + PGSIZE) [] (S (length argv))) as (s1 & K1 & C1 & R); try done; [lia..|].
  pose proof (bottom_le argv (base + PGSIZE)) as Hbot. set (b := bottom (base + PGSIZE) argv) in *.
  assert (sp = align16 (b - (Z.of_nat (length argv) + 1) * 8)) as Esp by done.
  pose proof (align16_bounds (b - (Z.of_nat (length argv) + 1) * 8)) as Hal. rewrite <- Esp in Hal.
  unfold push_args. destruct (decide (base ≤ b)) as [Hb|Hb].
  2:{ exists s1. split; [apply K1|]. split; [done|]. rewrite decide_False by lia. msimpl. by rewrite R. }
  destruct R as (R & St & Cb). fold ps in R, St. rewrite app_nil_l in R.
  assert (length ps = length argv) as El by apply length_slots.
  assert (u64 (b - (Z.of_nat (length argv) + 1) * 8) = b - (Z.of_nat (length argv) + 1) * 8) as Eu.
  { apply u64_id. destruct Hbase as (? & ? & _). rewrite MAXVA_val in *. unfold PGSIZE, MAXARG in *. lia. }
  destruct (decide (base ≤ sp)) as [Hfit|Hno].
  - destruct (push_bytes s1 sp (concat (le_enc 8 <$> (ps ++ [0])))) as (s' & E & K' & U & C'); try done;
      [rewrite length_pointers, length_app, El; simpl; lia|by rewrite <- length_zero_iff_nil, length_pointers, length_app; simpl; lia|].
    rewrite length_pointers, length_app, El in U, C'. cbn [length] in U, C'.
    assert (changed_in s1 s' sp b) as Cb' by (eapply changed_wider; [..|exact C']; lia).
    assert (changed_in s s' sp (base + PGSIZE)) as Cs by (apply (changed_trans s s1 s' sp b); [lia|done|done]).
    exists s'. split; [apply K'|]. split; [eapply changed_wider; [..|exact Cs]; lia|]. split.
    { msimpl. rewrite R. msimpl. rewrite bool_decide_eq_false_2 by lia. rewrite El, Eu. fold (align16 (b - (Z.of_nat (length argv) + 1) * 8)).
      rewrite <- Esp, (proj2 (Z.ltb_ge _ _)) by lia. msimpl. by rewrite E. }
    split; [apply Hal|]. split; [lia|]. split; [exact Cs|]. split; [|exact U].
    intros k p arg Hp Ha. destruct (slots_range _ _ _ _ _ Hp Ha).
    rewrite (ubytes_kept s1 s' sp b); [by apply (St k)|done|done|lia..].
  - exists s1. split; [apply K1|]. split; [done|]. msimpl. rewrite R. msimpl.
    rewrite bool_decide_eq_false_2 by lia. rewrite El, Eu. fold (align16 (b - (Z.of_nat (length argv) + 1) * 8)).
    rewrite <- Esp, (proj2 (Z.ltb_lt _ _)) by lia. done.
Qed.

End stack.

(** A page from [uvmalloc] with PTE_W. *)
Lemma alloc_W_bits x :
  is_page x → uwritable (alloc_pte PTE_W x) = true ∧ bit (alloc_pte PTE_W x) 8 = false.
Proof.
  intros Hx. pose proof (is_page_u64 x Hx). destruct Hx as [Hal _].
  assert (0 ≤ Z.lor (Z.lor (Z.lor PTE_R PTE_U) PTE_W) PTE_V < 1024) by (vm_compute; split; [done|reflexivity]).
  unfold uwritable, uvalid, alloc_pte. rewrite !bit_pte_of_page by (done || lia). split; reflexivity.
Qed.

Lemma exec_args_on_stack_witness :
  ∃ s A s', push_args (as_root A) 8192 4096 [[104; 105]] s = Ret (Some (8160, 1)) s' ∧
    ubytes s' (as_pt A) 8176 3 = [104; 105; 0].
Proof.
  destruct one_process as (s & A & l & xs & _ & F & Hsz & _).
  pose proof (fresh_cow_inv s A l PTE_W xs F) as I.
  assert (upage A 4096) as Hu by (split; [rewrite Hsz; unfold PGSIZE; lia|reflexivity]).
  destruct (fresh_lookup s A l PTE_W xs F 4096 Hu) as (x & _ & Ep & Hx & _).
  destruct (fs_pages _ _ _ _ _ F x Hx) as (Hpg & _ & _).
  destruct (exec_args_on_stack [A] 0 A l 4096 eq_refl ltac:(rewrite MAXVA_val; unfold PGSIZE; split_and!; (lia || reflexivity)) s [[104; 105]])
    as (s' & _ & _ & E & _ & _ & _ & St & _).
  - constructor; [exact I| |]; rewrite Ep.
    + apply alloc_W_bits, Hpg.
    + apply alloc_W_bits, Hpg.
  - repeat constructor.
  - unfold MAXARG. simpl. lia.
  - exists s, A, s'. split; [exact E|]. exact (St 0%nat 8176 [104; 105] eq_refl eq_refl).
Defined.
