(* ===== verification/Sysfile.v ===== *)
(** System calls on files, kernel/sysfile.c.

    The part of a call that works on the file system, between [begin_op] and [end_op], is
    written against the block store; the calls themselves run in the kernel's state, for
    process [me], with arguments fetched from its trap frame.  Bytes go to and from the
    memory of the process through the page table it has. *)

From S2P Require Import Prelude Mem Riscv Kalloc Vm Bytes Bio Log Store Fs Dir Console Pipe Fdtable Kernel File Proc Exec.

Definition MAXPATH : Z := 128.

(** "." and ".." *)
Definition dot : list Z := [46].
Definition dotdot : list Z := [46; 46].

(** * On the file system *)

Section ops.
Context {S : Type} `{!Store S} (pid : Z) (fuel : nat) (cwd : nat).
Implicit Types s : fs S.

Definition link_count (ip : nat) (d : Z) : M (fs S) unit :=
  modify (iupd ip (λ x, set_idata (set_nlink (i16 (d_nlink (idata x) + d)) (idata x)) x)).

(** The end of [sys_link] at [bad:]. *)
Definition link_bad (ip : nat) : M (fs S) Z :=
  ilock pid fuel ip;;
  link_count ip (-1);;
  iupdate ip;;
  iunlockput pid fuel ip;;
  mret (-1).

Definition link_op (old new : list Z) : M (fs S) Z :=
  r ← namei pid fuel cwd old;
  match r with
  | None => mret (-1)
  | Some ip =>
      ilock pid fuel ip;;
      s ← get;
      if d_type (idata (ino ip s)) =? T_DIR then iunlockput pid fuel ip;; mret (-1)
      else
        link_count ip 1;;
        iupdate ip;;
        iunlock pid ip;;
        r ← nameiparent pid fuel cwd new;
        match r with
        | (None, _) => link_bad ip
        | (Some dp, name) =>
            ilock pid fuel dp;;
            s ← get;
            r ← (if negb (idev (ino dp s) =? idev (ino ip s)) then mret (-1) else dirlink pid fuel dp name (inum (ino ip s)));
            if r <? 0 then iunlockput pid fuel dp;; link_bad ip
            else iunlockput pid fuel dp;; iput pid fuel ip;; mret 0
        end
  end.

Definition isdirempty_body (dp : nat) (off : Z) : M (fs S) (Z + bool) :=
  s ← get;
  if off <? d_size (idata (ino dp s)) then
    '(r, de) ← readi dp to_kernel off DIRENT;
    if negb (r =? DIRENT) then panic "isdirempty: readi"
    else if negb (get16 0 de =? 0) then mret (inr false)
    else mret (inl (off + DIRENT))
  else mret (inr true).

Definition isdirempty (dp : nat) : M (fs S) bool :=
  s ← get;
  loop (Z.to_nat (d_size (idata (ino dp s)) / DIRENT) + 2) (isdirempty_body dp) (2 * DIRENT).

Definition unlink_op (path : list Z) : M (fs S) Z :=
  r ← nameiparent pid fuel cwd path;
  match r with
  | (None, _) => mret (-1)
  | (Some dp, name) =>
      ilock pid fuel dp;;
      if (namecmp name dot =? 0) || (namecmp name dotdot =? 0) then iunlockput pid fuel dp;; mret (-1)
      else
        r ← dirlookup dp name;
        match r with
        | None => iunlockput pid fuel dp;; mret (-1)
        | Some (ip, off) =>
            ilock pid fuel ip;;
            s ← get;
            if d_nlink (idata (ino ip s)) <? 1 then panic "unlink: nlink < 1"
            else
              let isdir := d_type (idata (ino ip s)) =? T_DIR in
              e ← (if isdir then isdirempty ip else mret true);
              if negb e then iunlockput pid fuel ip;; iunlockput pid fuel dp;; mret (-1)
              else
                n ← writei dp (from_kernel (replicate (Z.to_nat DIRENT) 0)) off DIRENT;
                if negb (n =? DIRENT) then panic "unlink: writei"
                else
                  when isdir (link_count dp (-1);; iupdate dp);;
                  iunlockput pid fuel dp;;
                  link_count ip (-1);;
                  iupdate ip;;
                  iunlockput pid fuel ip;;
                  mret 0
        end
  end.

(** [fail:] of [create]. *)
Definition create_fail (ip dp : nat) : M (fs S) (option nat) :=
  modify (iupd ip (λ x, set_idata (set_nlink 0 (idata x)) x));;
  iupdate ip;;
  iunlockput pid fuel ip;;
  iunlockput pid fuel dp;;
  mret None.

(** The entries "." and ".." of a new directory. *)
Definition create_dots (ip dp : nat) : M (fs S) bool :=
  s ← get;
  r ← dirlink pid fuel ip dot (inum (ino ip s));
  if r <? 0 then mret false
  else r ← dirlink pid fuel ip dotdot (inum (ino dp s)); mret (negb (r <? 0)).

Definition create (path : list Z) (type major minor : Z) : M (fs S) (option nat) :=
  r ← nameiparent pid fuel cwd path;
  match r with
  | (None, _) => mret None
  | (Some dp, name) =>
      ilock pid fuel dp;;
      r ← dirlookup dp name;
      match r with
      | Some (ip, _) =>
          iunlockput pid fuel dp;;
          ilock pid fuel ip;;
          s ← get;
          let t := d_type (idata (ino ip s)) in
          if (type =? T_FILE) && ((t =? T_FILE) || (t =? T_DEVICE)) then mret (Some ip)
          else iunlockput pid fuel ip;; mret None
      | None =>
          s ← get;
          r ← ialloc (idev (ino dp s)) type;
          match r with
          | None => iunlockput pid fuel dp;; mret None
          | Some ip =>
              ilock pid fuel ip;;
              modify (iupd ip (λ x, set_idata (set_nlink 1 (set_dev (i16 major) (i16 minor) (idata x))) x));;
              iupdate ip;;
              dots ← (if type =? T_DIR then create_dots ip dp else mret true);
              if negb dots then create_fail ip dp
              else
                s ← get;
                r ← dirlink pid fuel dp name (inum (ino ip s));
                if r <? 0 then create_fail ip dp
                else
                  when (type =? T_DIR) (link_count dp 1;; iupdate dp);;
                  iunlockput pid fuel dp;;
                  mret (Some ip)
          end
      end
  end.

(** The inode [sys_open] works on, locked. *)
Definition open_inode (path : list Z) (omode : Z) : M (fs S) (option nat) :=
  r ← (if negb (Z.land omode O_CREATE =? 0) then create path T_FILE 0 0
       else
         r ← namei pid fuel cwd path;
         match r with
         | None => mret None
         | Some ip =>
             ilock pid fuel ip;;
             s ← get;
             if (d_type (idata (ino ip s)) =? T_DIR) && negb (omode =? O_RDONLY) then iunlockput pid fuel ip;; mret None
             else mret (Some ip)
         end);
  match r with
  | None => mret None
  | Some ip =>
      s ← get;
      let x := idata (ino ip s) in
      if (d_type x =? T_DEVICE) && ((d_major x <? 0) || (NDEV <=? d_major x)) then iunlockput pid fuel ip;; mret None
      else mret (Some ip)
  end.

(** [sys_mkdir] and [sys_mknod] once the path is known. *)
Definition mknod_op (path : list Z) (type major minor : Z) : M (fs S) Z :=
  r ← create path type major minor;
  match r with
  | None => mret (-1)
  | Some ip => iunlockput pid fuel ip;; mret 0
  end.

(** The directory [sys_chdir] moves to. *)
Definition chdir_op (path : list Z) : M (fs S) (option nat) :=
  r ← namei pid fuel cwd path;
  match r with
  | None => mret None
  | Some ip =>
      ilock pid fuel ip;;
      s ← get;
      if negb (d_type (idata (ino ip s)) =? T_DIR) then iunlockput pid fuel ip;; mret None
      else
        iunlock pid ip;;
        iput pid fuel cwd;;
        mret (Some ip)
  end.

End ops.

(** * The system calls *)

Section sys.
Context `{KernelImage} (me fuel : nat).

(** The memory of the process, as copyin and copyout see it when the call starts.  An address
    on which copyout itself faults is taken for accessible: the copy of the bytes at the end
    of the call then faults. *)
Definition user_reads (s : kernel) (a : Z) : option Z :=
  match copyin (p_pagetable (pr me s)) a 1 (km s) with
  | Ret (0, [b]) _ => Some b
  | _ => None
  end.
Definition user_writes (s : kernel) (a : Z) : bool :=
  match copyout 8 (p_pagetable (pr me s)) a [0] (km s) with
  | Ret r _ => r =? 0
  | _ => true
  end.

Definition to_user (addr : Z) (bs : list Z) : M kernel Z :=
  p ← gets (pr me); on_mem (copyout 8 (p_pagetable p) addr bs).

Definition mycwd (s : kernel) : nat := default 0%nat (p_cwd (pr me s)).

(** The descriptor and its file. *)
Definition argfd (n : Z) : M kernel (option (nat * nat)) :=
  fd ← argint me n;
  s ← get;
  if (fd <? 0) || (Z.of_nat NOFILE <=? fd) then mret None
  else
    match p_ofile (pr me s) !! Z.to_nat fd with
    | Some (Some f) => mret (Some (Z.to_nat fd, f))
    | _ => mret None
    end.

(** [fdalloc] in the table of the process; -1 when it is full. *)
Definition fdalloc_me (f : nat) : M kernel Z :=
  s ← get;
  match fdalloc (p_ofile (pr me s)) f with
  | Some (fd, t) => modify (pupd me (set_ofile t));; mret (Z.of_nat fd)
  | None => mret (-1)
  end.

Definition close_fd (fd : nat) : M kernel unit := modify (pupd me (λ p, set_ofile (<[fd := None]> (p_ofile p)) p)).

Definition sys_dup : M kernel Z :=
  r ← argfd 0;
  match r with
  | None => mret (-1)
  | Some (_, f) =>
      fd ← fdalloc_me f;
      if fd <? 0 then mret (-1) else filedup f;; mret fd
  end.

Definition sys_read : M kernel Z :=
  p ← argaddr me 1;
  n ← argint me 2;
  r ← argfd 0;
  match r with
  | None => mret (-1)
  | Some (_, f) =>
      s ← get;
      r ← fileread me fuel (user_writes s) f p n;
      to_user p r.2;;
      mret r.1
  end.

Definition sys_write : M kernel Z :=
  p ← argaddr me 1;
  n ← argint me 2;
  r ← argfd 0;
  match r with
  | None => mret (-1)
  | Some (_, f) => s ← get; filewrite me fuel (user_reads s) f p n
  end.

Definition sys_close : M kernel Z :=
  r ← argfd 0;
  match r with
  | None => mret (-1)
  | Some (fd, f) => close_fd fd;; fileclose me fuel f;; mret 0
  end.

(** The bytes of a [struct stat]; its padding is taken to be zero. *)
Definition stat_bytes (x : stat) : list Z :=
  le_enc 4 (u32 (st_dev x)) ++ le_enc 4 (st_ino x) ++ le_enc 2 (u16 (st_type x)) ++ le_enc 2 (u16 (st_nlink x)) ++
  replicate 4 0 ++ le_enc 8 (st_size x).

Definition sys_fstat : M kernel Z :=
  st ← argaddr me 1;
  r ← argfd 0;
  match r with
  | None => mret (-1)
  | Some (_, f) =>
      s ← get;
      r ← filestat me fuel (user_writes s) f st;
      match r.2 with
      | Some x => to_user st (stat_bytes x);; mret r.1
      | None => mret r.1
      end
  end.

(** A file system operation inside a transaction. *)
Definition in_op {A} (c : Store log_state → Z → nat → M (fs log_state) A) : M kernel A :=
  begin_op me fuel;; r ← on_fs me fuel c; end_op me fuel;; mret r.

Definition sys_link : M kernel Z :=
  old ← argstr me 0 MAXPATH;
  if old.1 <? 0 then mret (-1)
  else
    new ← argstr me 1 MAXPATH;
    if new.1 <? 0 then mret (-1)
    else
      cwd ← gets mycwd;
      in_op (λ st pid fuel, @link_op _ st pid fuel cwd (str_of old) (str_of new)).

Definition sys_unlink : M kernel Z :=
  path ← argstr me 0 MAXPATH;
  if path.1 <? 0 then mret (-1)
  else cwd ← gets mycwd; in_op (λ st pid fuel, @unlink_op _ st pid fuel cwd (str_of path)).

(** What [sys_open] makes of a new file. *)
Definition opened (ip : nat) (x : dinode) (omode : Z) (f : file) : file :=
  let dev := d_type x =? T_DEVICE in
  File (if dev then FD_DEVICE else FD_INODE) (f_ref f) (Z.land omode O_WRONLY =? 0)
    (negb (Z.land omode O_WRONLY =? 0) || negb (Z.land omode O_RDWR =? 0)) (f_pipe f) ip
    (if dev then f_off f else 0) (if dev then d_major x else f_major f).

Definition sys_open : M kernel Z :=
  omode ← argint me 1;
  path ← argstr me 0 MAXPATH;
  if path.1 <? 0 then mret (-1)
  else
    begin_op me fuel;;
    cwd ← gets mycwd;
    r ← on_fs me fuel (λ st pid fuel, @open_inode _ st pid fuel cwd (str_of path) omode);
    match r with
    | None => end_op me fuel;; mret (-1)
    | Some ip =>
        let bad := on_fs me fuel (λ st pid fuel, @iunlockput _ st pid fuel ip);; end_op me fuel;; mret (-1) in
        r ← filealloc;
        match r with
        | None => bad
        | Some f =>
            fd ← fdalloc_me f;
            if fd <? 0 then fileclose me fuel f;; bad
            else
              s ← get;
              let x := idata (ino ip (fsys s)) in
              modify (fupd f (opened ip x omode));;
              when (negb (Z.land omode O_TRUNC =? 0) && (d_type x =? T_FILE)) (on_fs me fuel (λ st _ _, @itrunc _ st ip));;
              on_fs me fuel (λ _ pid _, iunlock pid ip);;
              end_op me fuel;;
              mret fd
        end
    end.

Definition sys_mkdir : M kernel Z :=
  begin_op me fuel;;
  path ← argstr me 0 MAXPATH;
  r ← (if path.1 <? 0 then mret (-1)
       else cwd ← gets mycwd; on_fs me fuel (λ st pid fuel, @mknod_op _ st pid fuel cwd (str_of path) T_DIR 0 0));
  end_op me fuel;;
  mret r.

Definition sys_mknod : M kernel Z :=
  begin_op me fuel;;
  major ← argint me 1;
  minor ← argint me 2;
  path ← argstr me 0 MAXPATH;
  r ← (if path.1 <? 0 then mret (-1)
       else cwd ← gets mycwd; on_fs me fuel (λ st pid fuel, @mknod_op _ st pid fuel cwd (str_of path) T_DEVICE (i16 major) (i16 minor)));
  end_op me fuel;;
  mret r.

Definition sys_chdir : M kernel Z :=
  begin_op me fuel;;
  path ← argstr me 0 MAXPATH;
  r ← (if path.1 <? 0 then mret None
       else cwd ← gets mycwd; on_fs me fuel (λ st pid fuel, @chdir_op _ st pid fuel cwd (str_of path)));
  end_op me fuel;;
  match r with
  | None => mret (-1)
  | Some ip => modify (pupd me (set_cwd (Some ip)));; mret 0
  end.

(** One argument of [sys_exec]: the state is the pages and the strings so far; the loop is
    left with whether all went well. *)
Definition sys_exec_body (uargv : Z) (st : list (Z * list Z)) : M kernel (list (Z * list Z) + bool * list (Z * list Z)) :=
  let i := Z.of_nat (length st) in
  if Z.of_nat MAXARG <=? i then mret (inr (false, st))
  else
    r ← fetchaddr me (u64 (uargv + 8 * i));
    if r.1 <? 0 then mret (inr (false, st))
    else if r.2 =? 0 then mret (inr (true, st))
    else
      page ← on_mem kalloc;
      if page =? 0 then mret (inr (false, st))
      else
        str ← fetchstr me r.2 PGSIZE;
        on_mem (mwrite page str.2);;
        if str.1 <? 0 then mret (inr (false, st ++ [(page, [])]))
        else mret (inl (st ++ [(page, str_of str)])).

Fixpoint free_pages (l : list (Z * list Z)) : M kernel unit :=
  match l with
  | [] => mret tt
  | (page, _) :: l => on_mem (kfree page);; free_pages l
  end.

Definition sys_exec : M kernel Z :=
  uargv ← argaddr me 1;
  path ← argstr me 0 MAXPATH;
  if path.1 <? 0 then mret (-1)
  else
    r ← loop (S (S MAXARG)) (sys_exec_body uargv) [];
    ret ← (if r.1 : bool then exec me fuel (str_of path) (snd <$> r.2) else mret (-1));
    free_pages r.2;;
    mret ret.

Definition sys_pipe : M kernel Z :=
  fdarray ← argaddr me 0;
  r ← pipealloc me fuel;
  match r with
  | None => mret (-1)
  | Some (rf, wf) =>
      let close_both := fileclose me fuel rf;; fileclose me fuel wf;; mret (-1) in
      fd0 ← fdalloc_me rf;
      if fd0 <? 0 then close_both
      else
        fd1 ← fdalloc_me wf;
        if fd1 <? 0 then close_fd (Z.to_nat fd0);; close_both
        else
          r ← to_user fdarray (le_enc 4 fd0);
          r ← (if r <? 0 then mret r else to_user (u64 (fdarray + 4)) (le_enc 4 fd1));
          if r <? 0 then close_fd (Z.to_nat fd0);; close_fd (Z.to_nat fd1);; close_both
          else mret 0
  end.

End sys.
