(* ===== verification/Trap.v ===== *)
(** System calls about processes (kernel/sysproc.c), the dispatch of system calls
    (kernel/syscall.c), traps (kernel/trap.c) and the serial port driver (kernel/uart.c).

    The state of a hart in the kernel is the kernel's state, its control registers, and the
    serial port.  Registers are read and written as C does with the accessors of riscv.h.
    The addresses of code in assembly files, the interrupt controller's answer and what
    telling it of completion does, and the disk driver's interrupt routine are parameters. *)

From S2P Require Import Prelude Mem Riscv Kalloc Vm Bytes Bio Log Store Fs Dir Console Pipe Fdtable Kernel File Proc Exec Sysfile.

(** * The serial port

    A ring of 32 bytes between [write] and the device.  The device: [credit] bytes can be
    given to it now (while it is positive the transmit register is idle), [sent] is what it
    has been given, [rx] the input it holds.  [accepted] is a history variable: the bytes
    [uartputc] has taken, in order. *)

Definition UART_TX_BUF_SIZE : Z := 32.

Record uart := Uart {
  tx_lock : bool;
  tx_buf : list Z;
  tx_w : Z;
  tx_r : Z;
  credit : nat;
  sent : list Z;
  rx : list Z;
  uwoken : list chan;
  accepted : list Z;
}.

Definition set_tx_lock x s := Uart x (tx_buf s) (tx_w s) (tx_r s) (credit s) (sent s) (rx s) (uwoken s) (accepted s).

Definition acquire_u : M uart unit := λ s, if tx_lock s then Panic "acquire" else Ret tt (set_tx_lock true s).
Definition release_u : M uart unit := λ s, if tx_lock s then Ret tt (set_tx_lock false s) else Panic "release".
Definition sleep_u : M uart unit := release_u;; sleep_on ChUartTx;; acquire_u.

Definition slot (i : Z) : nat := Z.to_nat (i mod UART_TX_BUF_SIZE).

(** One round of [uartstart]: a byte from the ring to the device. *)
Definition uartstart_body (_ : unit) : M uart (unit + unit) := λ s,
  if tx_w s =? tx_r s then Ret (inr tt) s
  else
    match credit s with
    | O => Ret (inr tt) s
    | S k =>
        let c := nth (slot (tx_r s)) (tx_buf s) 0 in
        Ret (inl tt) (Uart (tx_lock s) (tx_buf s) (tx_w s) (u64 (tx_r s + 1)) k (sent s ++ [c]) (rx s) (ChUartTx :: uwoken s) (accepted s))
    end.

Definition uartstart : M uart unit := s ← get; loop (S (credit s)) uartstart_body tt.

(** [uart_tx_buf[uart_tx_w % UART_TX_BUF_SIZE] = c; uart_tx_w += 1] *)
Definition tx_put (c : Z) (s : uart) : uart :=
  Uart (tx_lock s) (<[slot (tx_w s) := u8 c]> (tx_buf s)) (u64 (tx_w s + 1)) (tx_r s) (credit s) (sent s) (rx s) (uwoken s) (accepted s ++ [u8 c]).

Definition uartputc_wait (_ : unit) : M uart (unit + unit) :=
  s ← get;
  if tx_w s =? u64 (tx_r s + UART_TX_BUF_SIZE) then sleep_u;; mret (inl tt) else mret (inr tt).

(** [panicked] is false: after a panic nothing runs. *)
Definition uartputc (fuel : nat) (c : Z) : M uart unit :=
  acquire_u;;
  loop fuel uartputc_wait tt;;
  modify (tx_put c);;
  uartstart;;
  release_u.

(** It waits for the device to be idle. *)
Definition uartputc_sync (c : Z) : M uart unit := λ s,
  Ret tt (Uart (tx_lock s) (tx_buf s) (tx_w s) (tx_r s) (credit s - 1) (sent s ++ [u8 c]) (rx s) (uwoken s) (accepted s)).

Definition uartgetc : M uart Z := λ s,
  match rx s with
  | c :: l => Ret c (Uart (tx_lock s) (tx_buf s) (tx_w s) (tx_r s) (credit s) (sent s) l (uwoken s) (accepted s))
  | [] => Ret (-1) s
  end.

(** * The bytes arrive in order *)

Definition tx_count (s : uart) : Z := u64 (tx_w s - tx_r s).
Definition waiting (s : uart) : list Z := (λ k, nth (slot (tx_r s + Z.of_nat k)) (tx_buf s) 0) <$> seq 0 (Z.to_nat (tx_count s)).

(** What has been accepted is what has been sent and what waits in the ring. *)
Record uart_inv (s : uart) : Prop := {
  ui_buf : length (tx_buf s) = Z.to_nat UART_TX_BUF_SIZE;
  ui_w : 0 ≤ tx_w s < 2 ^ 64;
  ui_r : 0 ≤ tx_r s < 2 ^ 64;
  ui_count : tx_count s ≤ UART_TX_BUF_SIZE;
  ui_fifo : accepted s = sent s ++ waiting s;
}.

(** * Traps *)

(** * System calls about processes *)

Section sysproc.
Context `{KernelImage} (me fuel : nat).

Definition sys_exit : M kernel Z := n ← argint me 0; exit fuel me n;; mret 0.
Definition sys_getpid : M kernel Z := gets (λ s, p_pid (pr me s)).
Definition sys_fork : M kernel Z := fork fuel me.
Definition sys_wait : M kernel Z := p ← argaddr me 0; wait fuel me p.

Definition sys_sbrk : M kernel Z :=
  n ← argint me 0;
  addr ← gets (λ s, p_sz (pr me s));
  r ← growproc me n;
  if r <? 0 then mret (-1) else mret addr.

Definition sys_sleep_body (ticks0 n : Z) (_ : unit) : M kernel (unit + Z) :=
  s ← get;
  if u32 (ticks s - ticks0) <? n then
    k ← killed me;
    if (k : bool) then release_ticks;; mret (inr (-1))
    else sleep me ChTicks acquire_ticks release_ticks;; mret (inl tt)
  else release_ticks;; mret (inr 0).

Definition sys_sleep : M kernel Z :=
  n ← argint me 0;
  let n := if n <? 0 then 0 else n in
  acquire_ticks;;
  ticks0 ← gets ticks;
  loop fuel (sys_sleep_body ticks0 n) tt.

Definition sys_kill : M kernel Z := pid ← argint me 0; kill pid.

Definition sys_uptime : M kernel Z :=
  acquire_ticks;;
  x ← gets ticks;
  release_ticks;;
  mret x.

(** The table [syscalls]. *)
Definition syscalls (num : Z) : option (M kernel Z) :=
  match num with
  | 1 => Some sys_fork
  | 2 => Some sys_exit
  | 3 => Some sys_wait
  | 4 => Some (sys_pipe me fuel)
  | 5 => Some (sys_read me fuel)
  | 6 => Some sys_kill
  | 7 => Some (sys_exec me fuel)
  | 8 => Some (sys_fstat me fuel)
  | 9 => Some (sys_chdir me fuel)
  | 10 => Some (sys_dup me)
  | 11 => Some sys_getpid
  | 12 => Some sys_sbrk
  | 13 => Some sys_sleep
  | 14 => Some sys_uptime
  | 15 => Some (sys_open me fuel)
  | 16 => Some (sys_write me fuel)
  | 17 => Some (sys_mknod me fuel)
  | 18 => Some (sys_unlink me fuel)
  | 19 => Some (sys_link me fuel)
  | 20 => Some (sys_mkdir me fuel)
  | 21 => Some (sys_close me fuel)
  | _ => None
  end.

(** The message for an unknown number is left out. *)
Definition syscall : M kernel unit :=
  p ← gets (pr me);
  a7 ← on_mem (load64 (p_trapframe p + tf_a 7));
  match syscalls (i32 a7) with
  | Some f => r ← f; on_mem (store64 (p_trapframe p + tf_a 0) (u64 r))
  | None => on_mem (store64 (p_trapframe p + tf_a 0) (u64 (-1)))
  end.

End sysproc.

(** * Traps *)

Record csrs := Csrs {
  sstatus : Z;
  sepc : Z;
  scause : Z;
  stval : Z;
  stvec : Z;
  satp : Z;
  tp : Z;
  time : Z;
  stimecmp : Z;
}.

Definition w_sstatus x c := Csrs x (sepc c) (scause c) (stval c) (stvec c) (satp c) (tp c) (time c) (stimecmp c).
Definition w_sepc x c := Csrs (sstatus c) x (scause c) (stval c) (stvec c) (satp c) (tp c) (time c) (stimecmp c).
Definition w_stvec x c := Csrs (sstatus c) (sepc c) (scause c) (stval c) x (satp c) (tp c) (time c) (stimecmp c).
Definition w_stimecmp x c := Csrs (sstatus c) (sepc c) (scause c) (stval c) (stvec c) (satp c) (tp c) (time c) x.

Definition intr_on (c : csrs) : csrs := w_sstatus (Z.lor (sstatus c) SSTATUS_SIE) c.
Definition intr_off (c : csrs) : csrs := w_sstatus (Z.land (sstatus c) (Z.lnot SSTATUS_SIE)) c.
Definition intr_get (c : csrs) : bool := negb (Z.land (sstatus c) SSTATUS_SIE =? 0).

Record hart := Hart { hk : kernel; hc : csrs; hu : uart }.

Definition on_k {A} (c : M kernel A) : M hart A := zoom (λ k h, Hart k (hc h) (hu h)) hk c.
Definition on_u {A} (c : M uart A) : M hart A := zoom (λ u h, Hart (hk h) (hc h) u) hu c.
Definition csr_mod (f : csrs → csrs) : M hart unit := modify (λ h, Hart (hk h) (f (hc h)) (hu h)).
Definition csr {A} (f : csrs → A) : M hart A := gets (λ h, f (hc h)).

Section trap.
Context `{KernelImage} (me : nat) (running : bool) (fuel : nat).
Context (kernelvec uservec userret usertrap_addr : Z).
Context (plic_claim : Z) (plic_complete : Z → M hart unit) (virtio_disk_intr : M hart unit).

Definition trapinit : M hart unit := on_k (modify (set_ticks_locked false)).
Definition trapinithart : M hart unit := csr_mod (w_stvec kernelvec).

Definition clockintr : M hart unit :=
  id ← csr tp;
  (if id =? 0 then
     on_k (acquire_ticks;;
           modify (λ s, set_ticks (u32 (ticks s + 1)) s);;
           wakeup (if running then me else nproc) (Some ChTicks);;
           release_ticks)
   else mret tt);;
  csr_mod (λ c, w_stimecmp (u64 (time c + 1000000)) c).

(** One character of input. *)
Definition uartintr_body (_ : unit) : M hart (unit + unit) :=
  c ← on_u uartgetc;
  if c =? -1 then mret (inr tt)
  else on_k (on_cons (if running then me else nproc) (consoleintr c));; mret (inl tt).

Definition uartintr : M hart unit :=
  h ← get;
  loop (S (length (rx (hu h)))) uartintr_body tt;;
  on_u (acquire_u;; uartstart;; release_u).

(** The message on an unexpected interrupt is left out. *)
Definition devintr : M hart Z :=
  cause ← csr scause;
  if cause =? 0x8000000000000009 then
    (if plic_claim =? UART0_IRQ then uartintr
     else if plic_claim =? VIRTIO0_IRQ then virtio_disk_intr
     else mret tt);;
    (if negb (plic_claim =? 0) then plic_complete plic_claim else mret tt);;
    mret 1
  else if cause =? 0x8000000000000005 then clockintr;; mret 2
  else mret 0.

(** The return to user space: where to jump and the page table to switch to. *)
Definition usertrapret : M hart (Z * Z) :=
  csr_mod intr_off;;
  csr_mod (w_stvec (u64 (TRAMPOLINE + (uservec - trampoline))));;
  p ← on_k (gets (pr me));
  v ← csr satp;
  on_k (on_mem (store64 (p_trapframe p + tf_kernel_satp) v));;
  on_k (on_mem (store64 (p_trapframe p + tf_kernel_sp) (u64 (p_kstack p + PGSIZE))));;
  on_k (on_mem (store64 (p_trapframe p + tf_kernel_trap) usertrap_addr));;
  id ← csr tp;
  on_k (on_mem (store64 (p_trapframe p + tf_kernel_hartid) id));;
  csr_mod (λ c, w_sstatus (Z.lor (Z.land (sstatus c) (Z.lnot SSTATUS_SPP)) SSTATUS_SPIE) c);;
  epc ← on_k (on_mem (load64 (p_trapframe p + tf_epc)));
  csr_mod (w_sepc epc);;
  mret (u64 (TRAMPOLINE + (userret - trampoline)), MAKE_SATP (p_pagetable p)).

(** The end of [usertrap]: killed processes exit, and a clock tick gives up the processor. *)
Definition usertrap_end (which_dev : Z) : M hart (Z * Z) :=
  k ← on_k (killed me);
  (if (k : bool) then on_k (exit fuel me (-1)) else mret tt);;
  (if which_dev =? 2 then on_k (yield me) else mret tt);;
  usertrapret.

(** The messages before a panic are left out. *)
Definition usertrap : M hart (Z * Z) :=
  st ← csr sstatus;
  if negb (Z.land st SSTATUS_SPP =? 0) then panic "usertrap: not from user mode"
  else
    csr_mod (w_stvec kernelvec);;
    p ← on_k (gets (pr me));
    epc ← csr sepc;
    on_k (on_mem (store64 (p_trapframe p + tf_epc) epc));;
    cause ← csr scause;
    if cause =? 8 then
      k ← on_k (killed me);
      (if (k : bool) then on_k (exit fuel me (-1)) else mret tt);;
      e ← on_k (on_mem (load64 (p_trapframe p + tf_epc)));
      on_k (on_mem (store64 (p_trapframe p + tf_epc) (u64 (e + 4))));;
      csr_mod intr_on;;
      on_k (syscall me fuel);;
      usertrap_end 0
    else
      which_dev ← devintr;
      if negb (which_dev =? 0) then usertrap_end which_dev
      else if cause =? 15 then
        va ← csr stval;
        r ← on_k (on_mem (cow_fault_handler cause (p_pagetable p) va));
        if r =? -1 then panic "cow1" else usertrap_end which_dev
      else panic "cow2".

Definition kerneltrap : M hart unit :=
  pc ← csr sepc;
  st ← csr sstatus;
  if Z.land st SSTATUS_SPP =? 0 then panic "kerneltrap: not from supervisor mode"
  else
    on ← csr intr_get;
    if (on : bool) then panic "kerneltrap: interrupts enabled"
    else
      which_dev ← devintr;
      if which_dev =? 0 then panic "kerneltrap"
      else
        (if (which_dev =? 2) && running then on_k (yield me) else mret tt);;
        csr_mod (w_sepc pc);;
        csr_mod (w_sstatus st).

(** The first thing a forked process does in the kernel; [first] in the very first one. *)
Definition forkret (first : bool) : M hart (Z * Z) :=
  on_k (release_proc me);;
  (if first then on_k (on_fs me fuel (λ st _ _, @fsinit _ st ROOTDEV)) else mret tt);;
  usertrapret.

End trap.
