(* ===== verification/Wakeup.v ===== *)
(** Sleeping and waking, statement by statement: [sleep], [wakeup], [yield], [sched] and the
    [scheduler] of kernel/proc.c on any number of processors.

    Threads use them the way the rest of the kernel does.  A consumer takes a lock, and
    while its condition is false it sleeps on the channel; a producer takes the lock, makes
    the condition true and wakes the channel.  One lock, condition and channel are followed;
    every thread may consume or produce, again and again, and be preempted in between. *)

From S2P Require Import Prelude Kernel.

(** Where a thread is: the next statement it will execute. *)
Inductive pc :=
| Start
| Test                          (* while(!cond) *)
| SlAcquire                     (* acquire(&p->lock) *)
| SlRelease                     (* release(lk) *)
| SlChan                        (* p->chan = chan *)
| SlState                       (* p->state = SLEEPING *)
| SlSwitch                      (* sched() *)
| SlSaved                       (* switched out in sleep *)
| SlTidy                        (* p->chan = 0 *)
| SlUnlock                      (* release(&p->lock) *)
| SlReacquire                   (* acquire(lk) *)
| Consumed                      (* release(lk), after the loop *)
| YAcquire | YState | YSwitch   (* yield *)
| YSaved | YUnlock
| WCond                         (* cond = 1 *)
| WAcquire (i : nat)            (* acquire(&p->lock), p = &proc[i] *)
| WTest (i : nat)               (* if(p->state == SLEEPING && p->chan == chan) p->state = RUNNABLE *)
| WRelease (i : nat)            (* release(&p->lock) *)
| WDone.                        (* release(lk), after wakeup *)

(** A processor runs a thread, or its scheduler holds the lock of a process: to look at it,
    or just switched back from it. *)
Inductive cpu := Idle | Look (p : nat) | Run (p : nat) | Back (p : nat).

Inductive owner := Thr (t : nat) | Cpu (h : nat).

Record sys := Sys {
  lk : option nat;
  plk : nat → option owner;
  st : nat → procstate;
  ch : nat → bool;
  pcs : nat → pc;
  cpus : nat → cpu;
  cond : bool;
}.

Definition fset {A} (i : nat) (x : A) (f : nat → A) : nat → A := λ j, if decide (j = i) then x else f j.

Definition w_lk x s := Sys x (plk s) (st s) (ch s) (pcs s) (cpus s) (cond s).
Definition w_plk i x s := Sys (lk s) (fset i x (plk s)) (st s) (ch s) (pcs s) (cpus s) (cond s).
Definition w_st i x s := Sys (lk s) (plk s) (fset i x (st s)) (ch s) (pcs s) (cpus s) (cond s).
Definition w_ch i x s := Sys (lk s) (plk s) (st s) (fset i x (ch s)) (pcs s) (cpus s) (cond s).
Definition w_pc i x s := Sys (lk s) (plk s) (st s) (ch s) (fset i x (pcs s)) (cpus s) (cond s).
Definition w_cpu i x s := Sys (lk s) (plk s) (st s) (ch s) (pcs s) (fset i x (cpus s)) (cond s).
Definition w_cond x s := Sys (lk s) (plk s) (st s) (ch s) (pcs s) (cpus s) x.

Section sys.
Context (N : nat).

(** One statement of thread [t]. *)
Inductive thread_step (t : nat) (s : sys) : sys → Prop :=
| t_consume : pcs s t = Start → lk s = None → thread_step t s (w_lk (Some t) (w_pc t Test s))
| t_produce : pcs s t = Start → lk s = None → thread_step t s (w_lk (Some t) (w_pc t WCond s))
| t_preempt : pcs s t = Start → thread_step t s (w_pc t YAcquire s)
| t_true b : pcs s t = Test → cond s = true → thread_step t s (w_cond b (w_pc t Consumed s))
| t_false : pcs s t = Test → cond s = false → thread_step t s (w_pc t SlAcquire s)
| t_sl_acquire : pcs s t = SlAcquire → plk s t = None → thread_step t s (w_plk t (Some (Thr t)) (w_pc t SlRelease s))
| t_sl_release : pcs s t = SlRelease → thread_step t s (w_lk None (w_pc t SlChan s))
| t_sl_chan : pcs s t = SlChan → thread_step t s (w_ch t true (w_pc t SlState s))
| t_sl_state : pcs s t = SlState → thread_step t s (w_st t SLEEPING (w_pc t SlSwitch s))
| t_sl_tidy : pcs s t = SlTidy → thread_step t s (w_ch t false (w_pc t SlUnlock s))
| t_sl_unlock : pcs s t = SlUnlock → thread_step t s (w_plk t None (w_pc t SlReacquire s))
| t_sl_reacquire : pcs s t = SlReacquire → lk s = None → thread_step t s (w_lk (Some t) (w_pc t Test s))
| t_consumed : pcs s t = Consumed → thread_step t s (w_lk None (w_pc t Start s))
| t_y_acquire : pcs s t = YAcquire → plk s t = None → thread_step t s (w_plk t (Some (Thr t)) (w_pc t YState s))
| t_y_state : pcs s t = YState → thread_step t s (w_st t RUNNABLE (w_pc t YSwitch s))
| t_y_unlock : pcs s t = YUnlock → thread_step t s (w_plk t None (w_pc t Start s))
| t_w_cond : pcs s t = WCond → thread_step t s (w_cond true (w_pc t (WAcquire 0) s))
| t_w_acquire i : pcs s t = WAcquire i → (i < N)%nat → i ≠ t → plk s i = None →
    thread_step t s (w_plk i (Some (Thr t)) (w_pc t (WTest i) s))
| t_w_skip : pcs s t = WAcquire t → thread_step t s (w_pc t (WAcquire (S t)) s)
| t_w_end i : pcs s t = WAcquire i → (N ≤ i)%nat → thread_step t s (w_pc t WDone s)
| t_w_wake i : pcs s t = WTest i → st s i = SLEEPING → ch s i = true →
    thread_step t s (w_st i RUNNABLE (w_pc t (WRelease i) s))
| t_w_not i : pcs s t = WTest i → ¬ (st s i = SLEEPING ∧ ch s i = true) → thread_step t s (w_pc t (WRelease i) s)
| t_w_release i : pcs s t = WRelease i → thread_step t s (w_plk i None (w_pc t (WAcquire (S i)) s))
| t_w_done : pcs s t = WDone → thread_step t s (w_lk None (w_pc t Start s)).

(** One step of processor [h]: of the thread it runs, or of its scheduler.  A switch hands
    the lock of the process over between the thread and the scheduler. *)
Inductive step (s : sys) : sys → Prop :=
| s_thread h t s' : cpus s h = Run t → thread_step t s s' → step s s'
| s_switch h t : cpus s h = Run t → pcs s t = SlSwitch → step s (w_cpu h (Back t) (w_plk t (Some (Cpu h)) (w_pc t SlSaved s)))
| s_yswitch h t : cpus s h = Run t → pcs s t = YSwitch → step s (w_cpu h (Back t) (w_plk t (Some (Cpu h)) (w_pc t YSaved s)))
| s_back h p : cpus s h = Back p → step s (w_cpu h Idle (w_plk p None s))
| s_look h p : cpus s h = Idle → (p < N)%nat → plk s p = None → step s (w_cpu h (Look p) (w_plk p (Some (Cpu h)) s))
| s_pass h p : cpus s h = Look p → st s p ≠ RUNNABLE → step s (w_cpu h Idle (w_plk p None s))
| s_run h p : cpus s h = Look p → st s p = RUNNABLE → pcs s p = SlSaved →
    step s (w_cpu h (Run p) (w_plk p (Some (Thr p)) (w_st p RUNNING (w_pc p SlTidy s))))
| s_yrun h p : cpus s h = Look p → st s p = RUNNABLE → pcs s p = YSaved →
    step s (w_cpu h (Run p) (w_plk p (Some (Thr p)) (w_st p RUNNING (w_pc p YUnlock s)))).

(** At first every process is ready to run and no lock is held. *)
Definition initial (s : sys) : Prop :=
  lk s = None ∧ (∀ p, plk s p = None) ∧ (∀ p, st s p = RUNNABLE) ∧ (∀ p, pcs s p = YSaved) ∧ (∀ h, cpus s h = Idle).

Inductive reachable : sys → Prop :=
| r_init s : initial s → reachable s
| r_step s s' : reachable s → step s s' → reachable s'.

Inductive steps : nat → sys → sys → Prop :=
| steps_0 s : steps 0 s s
| steps_S n s s1 s2 : step s s1 → steps n s1 s2 → steps (S n) s s2.

(** * The invariant *)

(** Threads that hold the lock of the condition. *)
Definition crit (p : pc) : bool :=
  match p with
  | Test | SlAcquire | SlRelease | Consumed | WCond | WAcquire _ | WTest _ | WRelease _ | WDone => true
  | _ => false
  end.

(** The process whose lock a thread [t] holds. *)
Definition owns (t : nat) (p : pc) : option nat :=
  match p with
  | SlRelease | SlChan | SlState | SlSwitch | SlTidy | SlUnlock | YState | YSwitch | YUnlock => Some t
  | WTest i | WRelease i => Some i
  | _ => None
  end.

Definition cpu_owns (c : cpu) : option nat := match c with Look p | Back p => Some p | _ => None end.

(** A wakeup that has yet to look at process [p]. *)
Definition will_visit (p : nat) (x : pc) : Prop :=
  match x with
  | WAcquire i | WTest i => (i ≤ p)%nat
  | WRelease i => (i < p)%nat
  | _ => False
  end.

(** Between giving up the lock in [sleep] and being woken. *)
Definition asleep (s : sys) (p : nat) : Prop :=
  pcs s p = SlChan ∨ pcs s p = SlState ∨ pcs s p = SlSwitch ∨ (pcs s p = SlSaved ∧ st s p = SLEEPING).

Record inv (s : sys) : Prop := {
  i_lk : ∀ t, crit (pcs s t) = true → lk s = Some t;
  i_plk : ∀ t i, owns t (pcs s t) = Some i → plk s i = Some (Thr t);
  i_cpu : ∀ h i, cpu_owns (cpus s h) = Some i → plk s i = Some (Cpu h);
  i_st : ∀ p, st s p = SLEEPING → pcs s p = SlSwitch ∨ pcs s p = SlSaved;
  i_saved : ∀ p, pcs s p = SlSaved → st s p = RUNNABLE ∨ (st s p = SLEEPING ∧ ch s p = true);
  i_ch : ∀ p, pcs s p = SlState ∨ pcs s p = SlSwitch → ch s p = true;
  i_sw : ∀ p, pcs s p = SlSwitch → st s p = SLEEPING;
  i_false : ∀ p, pcs s p = SlAcquire ∨ pcs s p = SlRelease → cond s = false;
  i_wake : ∀ p, asleep s p → cond s = false ∨ ∃ w, lk s = Some w ∧ will_visit p (pcs s w);
  i_look : ∀ h p, cpus s h = Look p → (p < N)%nat;
  i_N : ∀ p, pcs s p ≠ YSaved → (p < N)%nat;
}.

Lemma inv_init s : initial s → inv s.
Proof.
  intros (Hlk & Hplk & Hst & Hpc & Hcpu).
  split; intros *; unfold asleep; rewrite ?Hpc, ?Hcpu, ?Hst; try done; try (by intros [?|?]); try naive_solver.
Qed.

Ltac upd := unfold w_lk, w_plk, w_st, w_ch, w_pc, w_cpu, w_cond, fset in *;
  cbn [lk plk st ch pcs cpus cond] in *; repeat (case_decide; subst); cbn [crit owns cpu_owns] in *.

Ltac cases E := inversion E as [h t s1 Hc Ht|h t Hc Hpc|h t Hc Hpc|h t Hc|h t Hc Hp Hl|h t Hc Hs|h t Hc Hs Hpc|h t Hc Hs Hpc]; subst; [inversion Ht; subst|..].

Ltac pcs_in := repeat match goal with H : pcs ?s _ = _, H' : context [pcs ?s _] |- _ => rewrite H in H' end; cbn [crit owns cpu_owns] in *.

Section preserved.
Context (s s' : sys) (I : inv s) (E : step s s').

Lemma step_lk : ∀ t, crit (pcs s' t) = true → lk s' = Some t.
Proof using I E.
  pose proof (i_lk s I) as Hlk. intros t0. cases E; pose proof (Hlk t) as K1; pose proof (Hlk t0) as K2; upd; intros Hcr; try done;
    pcs_in; naive_solver congruence.
Qed.

Lemma step_plk : ∀ t i, owns t (pcs s' t) = Some i → plk s' i = Some (Thr t).
Proof using I E.
  pose proof (i_plk s I) as Hlk. pose proof (i_cpu s I) as Hcp. intros t0 i0. cases E; pose proof (Hlk t) as K1; pose proof (Hlk t0) as K2; pose proof (Hcp h) as K3; upd; intros Hcr; try done;
    rewrite ?Hc in K3; pcs_in; naive_solver congruence.
Qed.

Lemma step_cpu : ∀ h i, cpu_owns (cpus s' h) = Some i → plk s' i = Some (Cpu h).
Proof using I E.
  pose proof (i_plk s I) as Hlk. pose proof (i_cpu s I) as Hcp. intros h0 i0. cases E; pose proof (Hlk t) as K1; pose proof (Hcp h) as K3; pose proof (Hcp h0) as K4; upd; intros Hcr; try done;
    rewrite ?Hc in K3; pcs_in; naive_solver congruence.
Qed.

Lemma step_st : ∀ p, st s' p = SLEEPING → pcs s' p = SlSwitch ∨ pcs s' p = SlSaved.
Proof using I E.
  pose proof (i_st s I) as Hst. intros p0. cases E; pose proof (Hst p0) as K1; upd; intros Hcr; try done;
    pcs_in; naive_solver congruence.
Qed.

Lemma step_saved : ∀ p, pcs s' p = SlSaved → st s' p = RUNNABLE ∨ (st s' p = SLEEPING ∧ ch s' p = true).
Proof using I E.
  pose proof (i_saved s I) as Hst. pose proof (i_sw s I) as Hsw. pose proof (i_ch s I) as Hch. intros p0. cases E; pose proof (Hst p0) as K1; pose proof (Hsw p0) as K2; pose proof (Hch p0) as K3; upd; intros Hcr; try done;
    pcs_in; naive_solver congruence.
Qed.

Lemma step_ch : ∀ p, pcs s' p = SlState ∨ pcs s' p = SlSwitch → ch s' p = true.
Proof using I E.
  pose proof (i_ch s I) as Hch. intros p0. cases E; pose proof (Hch p0) as K3; upd; intros Hcr; try done;
    pcs_in; naive_solver congruence.
Qed.

Lemma step_sw : ∀ p, pcs s' p = SlSwitch → st s' p = SLEEPING.
Proof using I E.
  pose proof (i_sw s I) as Hch. pose proof (i_plk s I) as Hlk. pose proof (i_cpu s I) as Hcp. intros p0. cases E; pose proof (Hch p0) as K3; pose proof (Hlk p0) as K1; pose proof (Hlk t) as K2; pose proof (Hcp h) as K4; upd; intros Hcr; try done;
    rewrite ?Hc in K4; pcs_in; naive_solver congruence.
Qed.

(** Two threads are not in the critical section at once. *)
Lemma crit_one t p : crit (pcs s t) = true → crit (pcs s p) = true → p = t.
Proof using I. intros H1 H2. apply (i_lk s I) in H1, H2. congruence. Qed.

Lemma step_false : ∀ p, pcs s' p = SlAcquire ∨ pcs s' p = SlRelease → cond s' = false.
Proof using I E.
  pose proof (i_false s I) as Hf. intros p0.
  assert (∀ t, crit (pcs s t) = true → pcs s p0 = SlAcquire ∨ pcs s p0 = SlRelease → p0 = t) as K.
  { intros t Ht Hp. apply crit_one; [done|]. by destruct Hp as [-> | ->]. }
  cases E; pose proof (Hf p0) as K3; pose proof (K t) as K4; upd; intros Hcr; try (by apply K3); try done; try (by destruct Hcr);
    pcs_in; try (by apply K3; left); try (by specialize (K4 eq_refl Hcr)).
Qed.

Lemma step_look : ∀ h p, cpus s' h = Look p → (p < N)%nat.
Proof using I E. pose proof (i_look s I) as Hf. intros h0 p0. cases E; upd; naive_solver. Qed.

Lemma step_N : ∀ p, pcs s' p ≠ YSaved → (p < N)%nat.
Proof using I E.
  pose proof (i_N s I) as Hf. pose proof (i_look s I) as Hk. intros p0.
  cases E; upd; intros Hne; try (by apply Hf; congruence); by eapply Hk.
Qed.

(** A process that is asleep after a step was so before, or has just given up the lock. *)
Lemma asleep_back p : asleep s' p → asleep s p ∨ (pcs s p = SlRelease ∧ cond s' = cond s).
Proof using E.
  unfold asleep. cases E; upd; intros Ha; try (by left); try (left; by intuition congruence); right; done.
Qed.

(** A thread that holds the lock of another process finds it asleep only when it is marked so. *)
Lemma asleep_owns p w : asleep s p → owns w (pcs s w) = Some p → w ≠ p → st s p = SLEEPING ∧ ch s p = true ∧ pcs s p = SlSaved.
Proof using I.
  intros Ha Hw Hne. apply (i_plk s I) in Hw as Hp.
  assert (∀ x, pcs s p = x → owns p x ≠ Some p) as Hown.
  { intros x Hx Ho. rewrite <- Hx in Ho. apply (i_plk s I) in Ho. congruence. }
  destruct Ha as [E1|[E1|[E1|[E1 E2]]]]; try by destruct (Hown _ E1).
  destruct (i_saved s I p E1) as [?|[_ Hch]]; [congruence|done].
Qed.

Definition visited (s : sys) (p : nat) : Prop := cond s = false ∨ ∃ w, lk s = Some w ∧ will_visit p (pcs s w).

(** A step of the thread that is waking the others. *)
Lemma wake_own p w s1 : asleep s p → asleep s1 p → thread_step w s s1 → will_visit p (pcs s w) → visited s1 p.
Proof using I.
  intros Ha Ha1 Ht Hv. assert (w ≠ p) as Hne by (intros ->; destruct Ha as [E1|[E1|[E1|[E1 _]]]]; by rewrite E1 in Hv).
  assert (p < N)%nat as HpN by (apply (i_N s I); destruct Ha as [-> |[-> |[-> |[-> _]]]]; done).
  assert (∀ i, pcs s w = WTest i → lk s = Some w) as Hlk by (intros i Hi; apply (i_lk s I); by rewrite Hi).
  assert (∀ i, pcs s w = WAcquire i → lk s = Some w) as Hlk2 by (intros i Hi; apply (i_lk s I); by rewrite Hi).
  assert (∀ i, pcs s w = WRelease i → lk s = Some w) as Hlk3 by (intros i Hi; apply (i_lk s I); by rewrite Hi).
  inversion Ht; subst; match goal with H : pcs s w = _ |- _ => rewrite H in Hv end; try done;
    right; exists w; upd; (split; [by eauto|]); simpl in *; try lia; try done.
  - destruct (decide (i = p)) as [->|]; [exfalso|lia].
    destruct Ha1 as [E1|[E1|[E1|[E1 E2]]]]; upd; try done; destruct (asleep_owns p w) as (? & ? & ?); try done; try congruence; by rewrite H.
  - destruct (decide (i = p)) as [->|]; [exfalso|lia]. destruct (asleep_owns p w) as (? & ? & ?); [done|by rewrite H|done|naive_solver].
Qed.

(** A step of another thread leaves it the lock. *)
Lemma wake_other t w s1 : t ≠ w → thread_step t s s1 → lk s = Some w → lk s1 = Some w ∧ pcs s1 w = pcs s w.
Proof using I.
  intros Hne Ht Hw. assert (crit (pcs s t) ≠ true) as Hcr by (intros Hc; apply (i_lk s I) in Hc; congruence).
  inversion Ht; subst; try (match goal with H : pcs s t = _ |- _ => rewrite H in Hcr end; done); upd; try done; congruence.
Qed.

Lemma step_wake p : asleep s' p → visited s' p.
Proof using I E.
  intros Ha1. destruct (asleep_back p Ha1) as [Ha|[Hr Hcd]].
  2: { left. rewrite Hcd. apply (i_false s I p). by right. }
  destruct (i_wake s I p Ha) as [Hf|(w & Hw & Hv)].
  - cases E; try (by left; upd); try congruence.
    right. exists t. upd; [|done]. split; [|simpl; lia]. apply (i_lk s I). by rewrite H.
  - inversion E as [h t s1 Hc Ht|h t Hc Hpc|h t Hc Hpc|h t Hc|h t Hc Hp Hl|h t Hc Hs|h t Hc Hs Hpc|h t Hc Hs Hpc]; subst.
    { destruct (decide (t = w)) as [->|Hne]; [by eapply wake_own|]. right. exists w.
      destruct (wake_other t w s' Hne Ht Hw) as [-> ->]. done. }
    all: right; exists w; upd; (split; [done|]); try done; by rewrite Hpc in Hv.
Qed.

End preserved.

Lemma wakeup_inv s : reachable s → inv s.
Proof.
  induction 1 as [s Hs|s s' _ I E]; [by apply inv_init|]. split.
  - by apply (step_lk s).
  - by apply (step_plk s).
  - by apply (step_cpu s).
  - by apply (step_st s).
  - by apply (step_saved s).
  - by apply (step_ch s).
  - by apply (step_sw s).
  - by apply (step_false s).
  - by apply (step_wake s).
  - by apply (step_look s).
  - by apply (step_N s).
Qed.

(** C4. No wakeup is lost.  On any number of processors, with any interleaving of the
    statements of [sleep], [wakeup], [yield] and the schedulers: whenever the condition is
    true and its lock is free, a process that went to sleep waiting for it is runnable, not
    sleeping.  And it does get out: a processor that is idle, with the process's own lock
    free, has six steps that take it through the end of [sleep] and its test, past its loop. *)
Theorem wakeup_not_lost s p : reachable s → cond s = true → lk s = None → pcs s p = SlSaved →
  st s p = RUNNABLE ∧
  (∀ h, cpus s h = Idle → plk s p = None → ∃ s', steps 6 s s' ∧ pcs s' p = Consumed ∧ lk s' = Some p).
Proof.
  intros Hr Hc Hlk Hpc. pose proof (wakeup_inv s Hr) as I.
  assert (st s p = RUNNABLE) as Hst.
  { destruct (i_saved s I p Hpc) as [?|[Hs _]]; [done|]. destruct (i_wake s I p) as [?|(w & ? & _)]; [by do 3 right|congruence..]. }
  split; [done|]. intros h Hh Hp. assert (p < N)%nat as HN by (apply (i_N s I); by rewrite Hpc).
  assert (∀ A (x : A) f i, fset i x f i = x) as Hf by (intros; unfold fset; by rewrite decide_True).
  eexists. split.
  - eapply steps_S; [by apply (s_look s h p)|]. eapply steps_S; [by apply s_run; cbn; rewrite ?Hf|].
    eapply steps_S; [eapply (s_thread _ h p); [by cbn; rewrite ?Hf|]; by apply t_sl_tidy; cbn; rewrite ?Hf|].
    eapply steps_S; [eapply (s_thread _ h p); [by cbn; rewrite ?Hf|]; by apply t_sl_unlock; cbn; rewrite ?Hf|].
    eapply steps_S; [eapply (s_thread _ h p); [by cbn; rewrite ?Hf|]; by apply t_sl_reacquire; cbn; rewrite ?Hf|].
    eapply steps_S; [eapply (s_thread _ h p); [by cbn; rewrite ?Hf|]; by apply (t_true _ _ true); cbn; rewrite ?Hf|].
    apply steps_0.
  - cbn. by rewrite Hf.
Qed.
End sys.

Ltac solve_side := first [reflexivity | lia].

Definition two_procs : sys := Sys None (λ _, None) (λ _, RUNNABLE) (λ _, false) (λ _, YSaved) (λ _, Idle) false.

(** Process 0 goes to sleep; process 1 makes the condition true and wakes it. *)
Lemma woken_reachable : ∃ s, reachable 2 s ∧ cond s = true ∧ lk s = None ∧ pcs s 0%nat = SlSaved ∧ cpus s 1%nat = Idle ∧ plk s 0%nat = None.
Proof.
  assert (reachable 2 two_procs) as R by (apply r_init; done).
  eassert (reachable 2 _) as R1 by (eapply r_step; [exact R|eapply (s_look 2 _ 0 0); solve_side]).
  eassert (reachable 2 _) as R2 by (eapply r_step; [exact R1|eapply (s_yrun 2 _ 0 0); solve_side]).
  eassert (reachable 2 _) as R3 by (eapply r_step; [exact R2|eapply (s_thread 2 _ 0 0); [reflexivity|eapply t_y_unlock; solve_side]]).
  eassert (reachable 2 _) as R4 by (eapply r_step; [exact R3|eapply (s_thread 2 _ 0 0); [reflexivity|eapply t_consume; solve_side]]).
  eassert (reachable 2 _) as R5 by (eapply r_step; [exact R4|eapply (s_thread 2 _ 0 0); [reflexivity|eapply t_false; solve_side]]).
  eassert (reachable 2 _) as R6 by (eapply r_step; [exact R5|eapply (s_thread 2 _ 0 0); [reflexivity|eapply t_sl_acquire; solve_side]]).
  eassert (reachable 2 _) as R7 by (eapply r_step; [exact R6|eapply (s_thread 2 _ 0 0); [reflexivity|eapply t_sl_release; solve_side]]).
  eassert (reachable 2 _) as R8 by (eapply r_step; [exact R7|eapply (s_thread 2 _ 0 0); [reflexivity|eapply t_sl_chan; solve_side]]).
  eassert (reachable 2 _) as R9 by (eapply r_step; [exact R8|eapply (s_thread 2 _ 0 0); [reflexivity|eapply t_sl_state; solve_side]]).
  eassert (reachable 2 _) as R10 by (eapply r_step; [exact R9|eapply (s_switch 2 _ 0 0); solve_side]).
  eassert (reachable 2 _) as R11 by (eapply r_step; [exact R10|eapply (s_back 2 _ 0 0); solve_side]).
  eassert (reachable 2 _) as R12 by (eapply r_step; [exact R11|eapply (s_look 2 _ 0 1); solve_side]).
  eassert (reachable 2 _) as R13 by (eapply r_step; [exact R12|eapply (s_yrun 2 _ 0 1); solve_side]).
  eassert (reachable 2 _) as R14 by (eapply r_step; [exact R13|eapply (s_thread 2 _ 0 1); [reflexivity|eapply t_y_unlock; solve_side]]).
  eassert (reachable 2 _) as R15 by (eapply r_step; [exact R14|eapply (s_thread 2 _ 0 1); [reflexivity|eapply t_produce; solve_side]]).
  eassert (reachable 2 _) as R16 by (eapply r_step; [exact R15|eapply (s_thread 2 _ 0 1); [reflexivity|eapply t_w_cond; solve_side]]).
  eassert (reachable 2 _) as R17 by (eapply r_step; [exact R16|eapply (s_thread 2 _ 0 1); [reflexivity|eapply t_w_acquire; solve_side]]).
  eassert (reachable 2 _) as R18 by (eapply r_step; [exact R17|eapply (s_thread 2 _ 0 1); [reflexivity|eapply t_w_wake; solve_side]]).
  eassert (reachable 2 _) as R19 by (eapply r_step; [exact R18|eapply (s_thread 2 _ 0 1); [reflexivity|eapply t_w_release; solve_side]]).
  eassert (reachable 2 _) as R20 by (eapply r_step; [exact R19|eapply (s_thread 2 _ 0 1); [reflexivity|eapply t_w_skip; solve_side]]).
  eassert (reachable 2 _) as R21 by (eapply r_step; [exact R20|eapply (s_thread 2 _ 0 1); [reflexivity|eapply t_w_end; solve_side]]).
  eassert (reachable 2 _) as R22 by (eapply r_step; [exact R21|eapply (s_thread 2 _ 0 1); [reflexivity|eapply t_w_done; solve_side]]).
  eexists. split; [exact R22|]. by split_and!.
Qed.

Lemma wakeup_not_lost_witness : ∃ s s', reachable 2 s ∧ st s 0%nat = RUNNABLE ∧ steps 2 6 s s' ∧ pcs s' 0%nat = Consumed.
Proof.
  destruct woken_reachable as (s & Hr & Hc & Hlk & Hpc & Hcpu & Hp).
  destruct (wakeup_not_lost 2 s 0%nat Hr Hc Hlk Hpc) as [Hst Hgo]. destruct (Hgo 1%nat Hcpu Hp) as (s' & Hs & Hd & _).
  by exists s, s'.
Defined.
