(* ===== verification/NoSleep.v ===== *)
(** The code below the file table: what of it sleeps, and that none of it raises the panics of
    the file table.

    The memory code never sleeps: what runs between two sleeps of a thread (kernel/kalloc.c,
    kernel/vm.c, the page tables of kernel/proc.c) is atomic for the other threads.  The file
    system may sleep.  The panics of filedup and fileclose, which check the reference count
    of an open file (kernel/file.c), are raised by neither. *)

From S2P Require Import Prelude Mem Riscv Kalloc Vm Bytes Sleeplock Bio Log Store StoreLog Fs Dir Fdtable Kernel Proc Sysfile.

(** The checks of the reference counts of open files. *)
Definition file_panic (m : string) : bool := bool_decide (m = "filedup" ∨ m = "fileclose").

(** A computation that neither sleeps nor fails a check of the file table. *)
Definition nosleep {S A} (r : res S A) : Prop :=
  match r with Sleep _ _ _ => False | Panic m => file_panic m = false | _ => True end.
Definition atomic {S A} (c : M S A) : Prop := ∀ s, nosleep (c s).

(** One that may sleep, and does not fail a check of the file table however it is resumed. *)
Fixpoint tidy_res {S A} (r : res S A) : Prop :=
  match r with Sleep _ _ k => ∀ s, tidy_res (k s) | Panic m => file_panic m = false | _ => True end.
Definition tidy {S A} (c : M S A) : Prop := ∀ s, tidy_res (c s).

Create HintDb atomic discriminated.
Create HintDb tidy discriminated.

Section generic.
Context {S : Type}.

Lemma nosleep_bind {A B} (r : res S A) (f : A → M S B) : nosleep r → (∀ a, atomic (f a)) → nosleep (res_bind r f).
Proof. destruct r; simpl; auto. intros _ H. apply H. Qed.

Lemma atomic_bind {A B} (c : M S A) (f : A → M S B) : atomic c → (∀ a, atomic (f a)) → atomic (c ≫= f).
Proof. intros Hc Hf s. by apply nosleep_bind. Qed.

Lemma atomic_ret {A} (a : A) : atomic (mret a : M S A).
Proof. done. Qed.
Lemma atomic_panic {A} m : file_panic m = false → atomic (panic m : M S A).
Proof. by intros Hm s. Qed.
Lemma atomic_fault {A} m : atomic (fault m : M S A).
Proof. done. Qed.
Lemma atomic_nofuel {A} : atomic ((λ _, NoFuel) : M S A).
Proof. done. Qed.
Lemma atomic_gets {A} (f : S → A) : atomic (gets f).
Proof. done. Qed.
Lemma atomic_get : atomic (get : M S S).
Proof. done. Qed.
Lemma atomic_modify (f : S → S) : atomic (modify f).
Proof. done. Qed.
Lemma atomic_when b (c : M S unit) : atomic c → atomic (when b c).
Proof. by destruct b. Qed.

Lemma atomic_loop {A B} (body : A → M S (A + B)) : (∀ a, atomic (body a)) → ∀ n a, atomic (loop n body a).
Proof.
  intros Hb n. induction n as [|n IH]; intros a; [done|]. intros s. rewrite loop_unfold.
  apply nosleep_bind; [apply Hb|]. intros [a'|b]; [apply IH|done].
Qed.

Lemma tidy_res_bind {A B} (r : res S A) (f : A → M S B) : tidy_res r → (∀ a, tidy (f a)) → tidy_res (res_bind r f).
Proof. intros Hr Hf. induction r; simpl in *; auto. apply Hf. Qed.

Lemma tidy_bind {A B} (c : M S A) (f : A → M S B) : tidy c → (∀ a, tidy (f a)) → tidy (c ≫= f).
Proof. intros Hc Hf s. by apply tidy_res_bind. Qed.

Lemma tidy_atomic {A} (c : M S A) : atomic c → tidy c.
Proof. intros Hc s. specialize (Hc s). by destruct (c s). Qed.

Lemma tidy_sleep_on c : tidy (sleep_on c : M S unit).
Proof. done. Qed.
Lemma tidy_when b (c : M S unit) : tidy c → tidy (when b c).
Proof. by destruct b. Qed.

Lemma tidy_loop {A B} (body : A → M S (A + B)) : (∀ a, tidy (body a)) → ∀ n a, tidy (loop n body a).
Proof.
  intros Hb n. induction n as [|n IH]; intros a; [done|]. intros s. rewrite loop_unfold.
  apply tidy_res_bind; [apply Hb|]. intros [a'|b]; [apply IH|done].
Qed.

Lemma tidy_zoom {T A} (put : T → S → S) (get : S → T) (c : M T A) : tidy c → tidy (zoom put get c).
Proof. intros Hc s. unfold zoom. generalize (Hc (get s)). generalize (c (get s)). intros r. revert s. induction r; simpl; auto. Qed.
End generic.

#[export] Hint Resolve atomic_bind atomic_ret atomic_fault atomic_nofuel atomic_gets atomic_get atomic_modify atomic_when atomic_loop : atomic.
#[export] Hint Extern 1 (atomic (panic _)) => apply atomic_panic; reflexivity : atomic.
#[export] Hint Resolve tidy_sleep_on : tidy.
#[export] Hint Extern 2 (tidy _) => apply tidy_atomic; solve [eauto with atomic nocore] : tidy.

(** Go through the code of a function. *)
Ltac atomic := repeat first
  [ match goal with |- forall _, _ => intro end | progress cbv beta zeta
  | match goal with
    | |- atomic (match ?x with _ => _ end) => destruct x
    | |- atomic (mbind _ _) => apply atomic_bind
    | |- atomic (when _ _) => apply atomic_when
    | |- atomic (loop _ _ _) => apply atomic_loop
    end
  | solve [eauto with atomic] ].

Ltac tidy := repeat first
  [ match goal with |- forall _, _ => intro end | progress cbv beta zeta
  | match goal with
    | |- tidy (match ?x with _ => _ end) => destruct x
    | |- tidy (mbind _ _) => apply tidy_bind
    | |- tidy (when _ _) => apply tidy_when
    | |- tidy (loop _ _ _) => apply tidy_loop
    | |- tidy (zoom _ _ _) => apply tidy_zoom
    end
  | solve [eauto with tidy nocore] ].

Section vm.
Context `{KernelImage}.

Lemma atomic_load64 a : atomic (load64 a).
Proof. intros s. unfold load64. by destruct (readable a 8). Qed.
Lemma atomic_store64 a v : atomic (store64 a v).
Proof. intros s. unfold store64. by destruct (writable a 8). Qed.
Lemma atomic_mset d c n : atomic (mset d c n).
Proof. intros s. unfold mset. by destruct (writable d n). Qed.
Lemma atomic_mmove d c n : atomic (mmove d c n).
Proof. intros s. unfold mmove. destruct (n =? 0); [done|]. by destruct (_ && _). Qed.
Lemma atomic_mread a n : atomic (mread a n).
Proof. intros s. unfold mread. by destruct (readable _ _). Qed.
Lemma atomic_mwrite a l : atomic (mwrite a l).
Proof. intros s. unfold mwrite. by destruct (writable _ _). Qed.
Lemma atomic_load8 a : atomic (load8 a).
Proof. intros s. unfold load8. by destruct (readable _ _). Qed.
Lemma atomic_acquire : atomic acquire_kmem.
Proof. intros s. unfold acquire_kmem. by destruct (kmem_locked s). Qed.
Lemma atomic_release : atomic release_kmem.
Proof. intros s. unfold release_kmem. by destruct (kmem_locked s). Qed.
Lemma atomic_ref_get i : atomic (ref_get i).
Proof. intros s. unfold ref_get. by destruct (_ && _). Qed.
Lemma atomic_ref_set i v : atomic (ref_set i v).
Proof. intros s. unfold ref_set. by destruct (_ && _). Qed.

#[local] Hint Resolve atomic_load64 atomic_store64 atomic_mset atomic_mmove atomic_mread atomic_mwrite atomic_load8
  atomic_acquire atomic_release atomic_ref_get atomic_ref_set : atomic.

Lemma atomic_kfree pa : atomic (kfree pa).
Proof. unfold kfree, update_ref_count, push_if_unreferenced. atomic. Qed.
Lemma atomic_kalloc : atomic kalloc.
Proof. unfold kalloc. atomic. Qed.
Lemma atomic_kalloc_no_lock : atomic kalloc_no_lock.
Proof. unfold kalloc_no_lock. atomic. Qed.
Lemma atomic_kfree_no_lock pa : atomic (kfree_no_lock pa).
Proof. unfold kfree_no_lock, update_ref_count, push_if_unreferenced. atomic. Qed.
Lemma atomic_lock_update pa n : atomic (lock_update_ref_count pa n).
Proof. unfold lock_update_ref_count, update_ref_count. atomic. Qed.
#[local] Hint Resolve atomic_kfree atomic_kalloc atomic_kalloc_no_lock atomic_kfree_no_lock atomic_lock_update : atomic.

Lemma atomic_walk_from va al level : ∀ pt, atomic (walk_from va al level pt).
Proof. induction level as [|level IH]; intros pt; cbn [walk_from]; atomic. Qed.
#[local] Hint Resolve atomic_walk_from : atomic.
Lemma atomic_walk pt va al : atomic (walk pt va al).
Proof. unfold walk. atomic. Qed.
#[local] Hint Resolve atomic_walk : atomic.
Lemma atomic_walkaddr pt va : atomic (walkaddr pt va).
Proof. unfold walkaddr. atomic. Qed.
Lemma atomic_mappages pt va sz pa perm : atomic (mappages pt va sz pa perm).
Proof. unfold mappages, mappages_body. atomic. Qed.
Lemma atomic_uvmunmap pt va n f : atomic (uvmunmap pt va n f).
Proof. unfold uvmunmap, uvmunmap_body. atomic. Qed.
#[local] Hint Resolve atomic_walkaddr atomic_mappages atomic_uvmunmap : atomic.
Lemma atomic_freewalk d : ∀ pt, atomic (freewalk d pt).
Proof.
  induction d as [|d IH]; intros pt; cbn [freewalk]; [done|]. apply atomic_bind; [|atomic]. apply atomic_loop. intros i. unfold freewalk_body. atomic.
Qed.
#[local] Hint Resolve atomic_freewalk : atomic.
Lemma atomic_uvmfree pt sz : atomic (uvmfree pt sz).
Proof. unfold uvmfree. atomic. Qed.
Lemma atomic_uvmcreate : atomic uvmcreate.
Proof. unfold uvmcreate. atomic. Qed.
Lemma atomic_update pt va pa f : atomic (update pt va pa f).
Proof. unfold update, get_ref_count. atomic. Qed.
#[local] Hint Resolve atomic_uvmfree atomic_uvmcreate atomic_update : atomic.
Lemma atomic_cow_fault_handler c pt va : atomic (cow_fault_handler c pt va).
Proof. unfold cow_fault_handler. atomic. Qed.
#[local] Hint Resolve atomic_cow_fault_handler : atomic.
Lemma atomic_uvmcopy o n sz : atomic (uvmcopy o n sz).
Proof. unfold uvmcopy. apply atomic_loop. intros i. unfold uvmcopy_body, uvmcopy_err. atomic. Qed.
Lemma atomic_copyout c pt va l : atomic (copyout c pt va l).
Proof. unfold copyout. apply atomic_loop. intros [a x]. unfold copyout_body. atomic. Qed.
Lemma atomic_copyin pt va n : atomic (copyin pt va n).
Proof. unfold copyin. apply atomic_loop. intros [[a x] y]. unfold copyin_body. atomic. Qed.
Lemma atomic_copyinstr_page n : ∀ p d, atomic (copyinstr_page n p d).
Proof. induction n as [|n IH]; intros p d; cbn [copyinstr_page]; atomic. Qed.
#[local] Hint Resolve atomic_copyinstr_page : atomic.
Lemma atomic_copyinstr pt va n : atomic (copyinstr pt va n).
Proof. unfold copyinstr. apply atomic_loop. intros [[a x] y]. unfold copyinstr_body. atomic. Qed.
Lemma atomic_proc_pagetable tf : atomic (proc_pagetable tf).
Proof. unfold proc_pagetable. atomic. Qed.
Lemma atomic_proc_freepagetable pt sz : atomic (proc_freepagetable pt sz).
Proof. unfold proc_freepagetable. atomic. Qed.

End vm.

#[export] Hint Resolve atomic_load64 atomic_store64 atomic_mset atomic_mmove atomic_mread atomic_mwrite atomic_load8
  atomic_kfree atomic_kalloc atomic_walkaddr atomic_mappages atomic_uvmunmap atomic_uvmfree atomic_uvmcreate
  atomic_uvmcopy atomic_copyout atomic_copyin atomic_copyinstr atomic_proc_pagetable atomic_proc_freepagetable : atomic.

(** * The file system *)

Section locks.
Context (me : nat) (pid : Z) (fuel : nat).

Lemma atomic_acquire_lk : atomic acquire_lk.
Proof. intros s. unfold acquire_lk. by destruct (lk s). Qed.
Lemma atomic_release_lk : atomic release_lk.
Proof. intros s. unfold release_lk. by destruct (lk s). Qed.
#[local] Hint Resolve atomic_acquire_lk atomic_release_lk : atomic.
Lemma tidy_acquiresleep : tidy (acquiresleep me pid fuel).
Proof. unfold acquiresleep, acquiresleep_wait, sleep_lk. tidy. Qed.
Lemma tidy_releasesleep : tidy (releasesleep me pid).
Proof. unfold releasesleep, wakeup_lk. tidy. Qed.
Lemma tidy_holdingsleep : tidy (holdingsleep pid).
Proof. unfold holdingsleep. tidy. Qed.
End locks.

#[export] Hint Resolve tidy_acquiresleep tidy_releasesleep tidy_holdingsleep : tidy.

Section bio.
Context (pid : Z) (fuel : nat).

Lemma atomic_acquire_bc : atomic acquire_bc.
Proof. intros s. unfold acquire_bc. by destruct (bc_lock s). Qed.
Lemma atomic_release_bc : atomic release_bc.
Proof. intros s. unfold release_bc. by destruct (bc_lock s). Qed.
Lemma atomic_virtio_disk_rw b w : atomic (virtio_disk_rw b w).
Proof. intros s. unfold virtio_disk_rw. by destruct w. Qed.
#[local] Hint Resolve atomic_acquire_bc atomic_release_bc atomic_virtio_disk_rw : atomic.
Lemma tidy_bio_bread dev bno : tidy (Bio.bread pid fuel dev bno).
Proof. unfold Bio.bread, bget, bget_hit, bget_free, in_lock. tidy. Qed.
Lemma tidy_bwrite b : tidy (bwrite pid b).
Proof. unfold bwrite, in_lock. tidy. Qed.
Lemma tidy_bio_brelse b : tidy (Bio.brelse pid b).
Proof. unfold Bio.brelse, in_lock, insert_front. tidy. Qed.
Lemma tidy_bpin b : tidy (bpin b).
Proof. unfold bpin. tidy. Qed.
Lemma tidy_bunpin b : tidy (bunpin b).
Proof. unfold bunpin. tidy. Qed.
End bio.

#[export] Hint Resolve tidy_bio_bread tidy_bwrite tidy_bio_brelse tidy_bpin tidy_bunpin : tidy.

Section log.
Context (pid : Z) (fuel : nat).

Lemma atomic_acquire_l : atomic acquire_l.
Proof. intros s. unfold acquire_l. by destruct (llock s). Qed.
Lemma atomic_release_l : atomic release_l.
Proof. intros s. unfold release_l. by destruct (llock s). Qed.
Lemma atomic_put {S} (s : S) : atomic (put s).
Proof. done. Qed.
#[local] Hint Resolve atomic_acquire_l atomic_release_l atomic_put : atomic.
Lemma tidy_lread b : tidy (lread pid fuel b).
Proof. unfold lread, on_bio. tidy. Qed.
#[local] Hint Resolve tidy_lread : tidy.
Lemma tidy_write_head : tidy (write_head pid fuel).
Proof. unfold write_head, write_head_body, on_bio. tidy. Qed.
Lemma tidy_install_trans r : tidy (install_trans pid fuel r).
Proof. unfold install_trans, install_body, on_bio. tidy. Qed.
#[local] Hint Resolve tidy_write_head tidy_install_trans : tidy.
Lemma tidy_initlog dev start n : tidy (Log.initlog pid fuel dev start n).
Proof. unfold Log.initlog, recover_from_log, read_head, read_head_body, on_bio. tidy. Qed.
Lemma tidy_begin_op : tidy (Log.begin_op fuel).
Proof. unfold Log.begin_op, begin_op_body, sleep_l. tidy. Qed.
Lemma tidy_end_op : tidy (Log.end_op pid fuel).
Proof. unfold Log.end_op, commit, write_log, write_log_body, wakeup_l, on_bio. tidy. Qed.
Lemma tidy_log_log_write b : tidy (Log.log_write b).
Proof. unfold Log.log_write, log_write_body, on_bio. tidy. Qed.
End log.

#[export] Hint Resolve tidy_begin_op tidy_end_op : tidy.

(** A block store whose operations do not fail the checks, and the file system on it. *)
Class TidyStore (S : Type) `{!Store S} : Prop := {
  tidy_bread dev b : tidy (bread dev b);
  tidy_log_write b : tidy (log_write b);
  tidy_brelse b : tidy (brelse b);
}.

#[export] Instance store_log_tidy pid fuel : @TidyStore log_state (store_log pid fuel).
Proof.
  split; intros; cbn; [|apply tidy_log_log_write|]; unfold on_bio; apply tidy_zoom; [apply tidy_bio_bread|apply tidy_bio_brelse].
Qed.

#[export] Hint Resolve tidy_bread tidy_log_write tidy_brelse : tidy.

Section fs.
Context {S : Type} `{!Store S, !TidyStore S}.
Implicit Types s : fs S.

Lemma atomic_acquire_it : atomic (@acquire_it S).
Proof. intros s. unfold acquire_it. by destruct (itable_lock s). Qed.
Lemma atomic_release_it : atomic (@release_it S).
Proof. intros s. unfold release_it. by destruct (itable_lock s). Qed.
#[local] Hint Resolve atomic_acquire_it atomic_release_it : atomic.
Lemma atomic_idup ip : atomic (@idup S ip).
Proof. unfold idup. atomic. Qed.
Lemma tidy_balloc dev : tidy (balloc dev).
Proof using All. unfold balloc, balloc_block, balloc_bit, bzero, on_store. tidy. Qed.
Lemma tidy_bfree dev b : tidy (bfree dev b).
Proof using All. unfold bfree, on_store. tidy. Qed.
Lemma tidy_iget dev i : tidy (@iget S dev i).
Proof. unfold iget, iget_body. tidy. Qed.
#[local] Hint Resolve tidy_balloc tidy_bfree tidy_iget : tidy.
Lemma tidy_ialloc dev type : tidy (ialloc dev type).
Proof using All. unfold ialloc, ialloc_body, on_store. tidy. Qed.
Lemma tidy_iupdate ip : tidy (iupdate ip).
Proof using All. unfold iupdate, on_store. tidy. Qed.
Lemma tidy_bmap ip bn : tidy (bmap ip bn).
Proof using All. unfold bmap, on_store. tidy. Qed.
#[local] Hint Resolve tidy_ialloc tidy_iupdate tidy_bmap : tidy.
Lemma tidy_itrunc ip : tidy (itrunc ip).
Proof using All. unfold itrunc, itrunc_direct, itrunc_indirect, on_store. tidy. Qed.
Lemma tidy_readi ip dst off n : tidy (readi ip dst off n).
Proof using All. unfold readi, readi_body, on_store. tidy. Qed.
Lemma tidy_writei ip src off n : tidy (writei ip src off n).
Proof using All. unfold writei, writei_body, on_store. tidy. Qed.
#[local] Hint Resolve tidy_itrunc tidy_readi tidy_writei : tidy.
Lemma tidy_dirlookup dp name : tidy (dirlookup dp name).
Proof using All. unfold dirlookup, dirlookup_body. tidy. Qed.
#[local] Hint Resolve tidy_dirlookup : tidy.

Context (pid : Z) (fuel : nat).
Lemma tidy_ilock ip : tidy (ilock pid fuel ip).
Proof using All. unfold ilock, in_ilk, on_store. tidy. Qed.
Lemma tidy_iunlock ip : tidy (@iunlock S pid ip).
Proof. unfold iunlock, in_ilk. tidy. Qed.
#[local] Hint Resolve tidy_ilock tidy_iunlock : tidy.
Lemma tidy_iput ip : tidy (iput pid fuel ip).
Proof using All. unfold iput, in_ilk. tidy. Qed.
#[local] Hint Resolve tidy_iput : tidy.
Lemma tidy_iunlockput ip : tidy (iunlockput pid fuel ip).
Proof using All. unfold iunlockput. tidy. Qed.
#[local] Hint Resolve tidy_iunlockput : tidy.
Lemma tidy_dirlink dp name i : tidy (dirlink pid fuel dp name i).
Proof using All. unfold dirlink, dirlink_body. tidy. Qed.
Lemma tidy_namex cwd path parent : tidy (namex pid fuel cwd path parent).
Proof using All. unfold namex, namex_body. tidy. Qed.
#[local] Hint Resolve tidy_dirlink tidy_namex : tidy.
Lemma tidy_create cwd path type major minor : tidy (create pid fuel cwd path type major minor).
Proof using All. unfold create, create_dots, create_fail, link_count, nameiparent. tidy. Qed.
#[local] Hint Resolve tidy_create : tidy.
Lemma tidy_open_inode cwd path omode : tidy (open_inode pid fuel cwd path omode).
Proof using All. unfold open_inode, namei. tidy. Qed.
End fs.

#[export] Hint Resolve atomic_idup : atomic.
