(* ===== verification/FileRefs.v ===== *)
(** Reference counts of open files: what [ref] of a [struct file] counts (kernel/file.c) is
    the descriptors of all processes that refer to it.

    The invariant is kept by every call that makes or removes descriptors: dup, close, pipe,
    open, fork, exit and wait.  Closing a file may sleep, so it is stated for threads that
    sleep: [keeps] asks for it wherever a thread gives up the processor, and grants it when
    the thread comes back, others having run in between.  A process that exits closes a file
    before it clears the descriptor; such a stale descriptor no longer counts. *)

From S2P Require Import Prelude Mem Riscv Kalloc Vm Bytes Sleeplock Bio Log Store StoreLog Fs Dir Console Pipe Fdtable Kernel File Proc Exec Sysfile NoSleep.

Definition slot : Type := nat * nat.

#[export] Instance slot_eq_dec : EqDecision slot := prod_eq_dec.
#[export] Instance slot_countable : Countable slot := prod_countable.

Definition entry (s : kernel) (x : slot) : option nat := mjoin (p_ofile (pr x.1 s) !! x.2).

Definition all_slots : list slot := list_prod (seq 0 nproc) (seq 0 NOFILE).

(** The descriptors that count as references to file [i]: all but the stale ones [X]. *)
Definition live (X : gset slot) (s : kernel) (i : nat) : nat :=
  length (filter (λ x, (x ∉ X) ∧ entry s x = Some i) all_slots).

Definition dead (p : proc) : Prop := p_state p = UNUSED ∨ p_state p = ZOMBIE.

(** [d] is the references a call in progress holds or has given away: zero between calls. *)
Record fd_inv (X : gset slot) (d : nat → Z) (s : kernel) : Prop := {
  fi_files : length (files s) = NFILE;
  fi_procs : length (procs s) = nproc;
  fi_ofile : ∀ p, (p < nproc)%nat → length (p_ofile (pr p s)) = NOFILE;
  fi_count : ∀ i, (i < NFILE)%nat → f_ref (fl i s) = Z.of_nat (live X s i) + d i;
  fi_range : ∀ x i, entry s x = Some i → (i < NFILE)%nat;
  fi_none : ∀ i, (i < NFILE)%nat → f_ref (fl i s) = 0 → f_type (fl i s) = FD_NONE;
  fi_dead : ∀ p fd, dead (pr p s) → entry s (p, fd) = None;
  fi_stale : ∀ p fd, (p, fd) ∈ X → (p < nproc)%nat ∧ ¬ dead (pr p s);
}.

Definition none : nat → Z := λ _, 0.
Definition bump (i : nat) (e : Z) (d : nat → Z) : nat → Z := λ j, if decide (j = i) then d j + e else d j.

(** * Counting *)

Lemma filter_same {A} (P Q : A → Prop) `{!∀ x, Decision (P x), !∀ x, Decision (Q x)} (l : list A) :
  (∀ x, x ∈ l → P x ↔ Q x) → filter P l = filter Q l.
Proof.
  induction l as [|b l IH]; intros Heq; [done|]. rewrite !filter_cons, IH by (intros x Hx; apply Heq; by right).
  pose proof (Heq b ltac:(left)) as Hb. by destruct (decide (P b)), (decide (Q b)); try tauto.
Qed.

Lemma count_step {A} (P Q : A → Prop) `{!∀ x, Decision (P x), !∀ x, Decision (Q x)} (l : list A) (a : A) :
  NoDup l → a ∈ l → (∀ x, x ≠ a → P x ↔ Q x) → ¬ P a → Q a →
  length (filter Q l) = S (length (filter P l)).
Proof.
  induction 1 as [|b l Hb Hl IH]; intros Ha Heq HP HQ; [by apply elem_of_nil in Ha|].
  rewrite !filter_cons. apply elem_of_cons in Ha as [<-|Ha].
  - rewrite decide_True by done. rewrite decide_False by done. simpl. do 2 f_equal. symmetry. apply filter_same.
    intros x Hx. apply Heq. by intros ->.
  - assert (b ≠ a) as Hne by (by intros ->). pose proof (Heq b Hne). specialize (IH Ha Heq HP HQ).
    destruct (decide (P b)), (decide (Q b)); try tauto; simpl; lia.
Qed.

Lemma all_slots_nodup : NoDup all_slots.
Proof. apply (bool_decide_eq_true_1 (NoDup all_slots)). vm_compute. reflexivity. Qed.

Lemma elem_slots p fd : (p, fd) ∈ all_slots ↔ (p < nproc)%nat ∧ (fd < NOFILE)%nat.
Proof. unfold all_slots. rewrite list_elem_of_In, in_prod_iff, !in_seq. lia. Qed.

(** One descriptor more, or one less. *)
Lemma live_set X s s' x i j : x ∈ all_slots → x ∉ X → entry s x = None → entry s' x = Some i →
  (∀ y, y ≠ x → entry s' y = entry s y) → Z.of_nat (live X s' j) = Z.of_nat (live X s j) + (if decide (j = i) then 1 else 0).
Proof.
  intros Hx HX H0 H1 Hy. unfold live. case_decide as Hj.
  - subst j. rewrite (count_step (λ x, (x ∉ X) ∧ entry s x = Some i) (λ x, (x ∉ X) ∧ entry s' x = Some i) all_slots x);
      [lia|apply all_slots_nodup|done|..].
    + intros y Hne. by rewrite Hy.
    + intros [_ ?]. congruence.
    + done.
  - rewrite Z.add_0_r. do 2 f_equal. apply filter_same. intros y _. destruct (decide (y = x)) as [->|Hne]; [|by rewrite Hy].
    split; intros [_ ?]; congruence.
Qed.

(** * What the invariant looks at *)

Record same_view (s s' : kernel) : Prop := {
  sv_files : files s' = files s;
  sv_lock : ft_locked s' = ft_locked s;
  sv_length : length (procs s') = length (procs s);
  sv_ofile : ∀ p, p_ofile (pr p s') = p_ofile (pr p s);
  sv_dead : ∀ p, dead (pr p s') → dead (pr p s);
}.

Lemma same_view_refl s : same_view s s.
Proof. by split. Qed.

Lemma same_view_trans s1 s2 s3 : same_view s1 s2 → same_view s2 s3 → same_view s1 s3.
Proof. intros [] []. split; try congruence; auto. Qed.

Lemma fd_inv_view X d s s' : same_view s s' → fd_inv X d s → fd_inv X d s'.
Proof.
  intros V I. assert (∀ x, entry s' x = entry s x) as He by (intros x; unfold entry; by rewrite (sv_ofile _ _ V)).
  assert (∀ i, fl i s' = fl i s) as Hf by (intros i; unfold fl; by rewrite (sv_files _ _ V)).
  destruct I as [I1 I2 I3 I4 I5 I6 I7 I8]. split.
  - by rewrite (sv_files _ _ V).
  - by rewrite (sv_length _ _ V).
  - intros p Hp. rewrite (sv_ofile _ _ V). by apply I3.
  - intros i Hi. rewrite Hf, I4 by done. do 2 f_equal. unfold live. f_equal. apply filter_same. intros x _. by rewrite He.
  - intros x i. rewrite He. apply I5.
  - intros i Hi. rewrite Hf. by apply I6.
  - intros p fd Hd. rewrite He. by apply I7, (sv_dead _ _ V).
  - intros p fd Hx. destruct (I8 p fd Hx) as [? Hn]. split; [done|]. intros Hd. by apply Hn, (sv_dead _ _ V).
Qed.

Lemma pr_pupd i f s p : pr p (pupd i f s) = pr p s ∨ (p = i ∧ pr p (pupd i f s) = f (pr p s) ∧ (p < length (procs s))%nat).
Proof.
  unfold pr, pupd, set_procs. cbn [procs]. rewrite !list_lookup_total_alt. destruct (decide (p = i)) as [->|Hne].
  - rewrite list_lookup_alter_eq. destruct (procs s !! i) as [x|] eqn:E; [right|by left].
    split; [done|]. split; [done|]. by eapply lookup_lt_Some.
  - left. by rewrite list_lookup_alter_ne.
Qed.

Lemma pr_pupd_eq i f s : (i < length (procs s))%nat → pr i (pupd i f s) = f (pr i s).
Proof.
  intros Hi. unfold pr, pupd, set_procs. cbn [procs]. rewrite !list_lookup_total_alt, list_lookup_alter_eq.
  by destruct (lookup_lt_is_Some_2 _ _ Hi) as [x ->].
Qed.

Lemma pr_pupd_ne i f s p : p ≠ i → pr p (pupd i f s) = pr p s.
Proof. intros Hne. by destruct (pr_pupd i f s p) as [?|[? _]]. Qed.

Lemma length_pupd i f s : length (procs (pupd i f s)) = length (procs s).
Proof. apply length_alter. Qed.

Lemma view_pupd i f s : (∀ p, p_ofile (f p) = p_ofile p) → (∀ p, dead (f p) → dead p) → same_view s (pupd i f s).
Proof.
  intros Ho Hd. split; [done|done|apply length_pupd|..]; intros p; destruct (pr_pupd i f s p) as [->|(_ & -> & _)]; auto.
Qed.

Lemma view_wake me c s : same_view s (wake me c s).
Proof.
  assert (∀ p, pr p (wake me c s) = pr p s ∨ pr p (wake me c s) = set_state RUNNABLE (pr p s) ∧ p_state (pr p s) = SLEEPING) as H.
  { intros p. unfold pr, wake, set_procs. cbn [procs]. rewrite !list_lookup_total_alt, list_lookup_imap.
    destruct (procs s !! p) as [x|]; simpl; [|by left]. unfold woken_by. case_decide; [right; naive_solver|by left]. }
  split; [done|done|apply length_imap|..]; intros p; destruct (H p) as [->|[-> Hs]]; auto. by intros [|].
Qed.

Lemma view_wakes me cs s : same_view s (wakes me cs s).
Proof. induction cs as [|c cs IH]; simpl; [apply same_view_refl|]. eapply same_view_trans; [exact IH|apply view_wake]. Qed.

Lemma view_to_sleep me c s : same_view s (to_sleep me c s).
Proof. apply view_pupd; [done|]. intros p. by intros [|]. Qed.

Lemma view_from_sleep me s : same_view s (from_sleep me s).
Proof. by apply view_pupd. Qed.

Lemma view_frame s s' : files s' = files s → ft_locked s' = ft_locked s → procs s' = procs s → same_view s s'.
Proof. intros Hf Hl Hp. split; [done|done|by rewrite Hp|..]; intros p; unfold pr; by rewrite Hp. Qed.

(** * Threads that keep the invariant *)

#[export] Instance dead_dec p : Decision (dead p).
Proof. unfold dead. apply _. Defined.

(** What a thread starts a step from, a step being what it does between two sleeps: the
    descriptors of other processes that are stale, and the state of the kernel. *)
Record scene := Scene { stale : gset slot; since : kernel }.

(** What a step of [me] leaves of the other processes that live: their descriptors, and that
    they live. *)
Definition others (me : nat) (s s' : kernel) : Prop :=
  ∀ q, q ≠ me → ¬ dead (pr q s) → p_ofile (pr q s') = p_ofile (pr q s) ∧ ¬ dead (pr q s').

(** What is shared between the threads, in the middle of a step of process [me]: the counts
    are right, but for the descriptors that were stale when the step began and those of its
    own in [Y]. *)
Definition shared (me : nat) (g : scene) (Y : gset slot) (s : kernel) : Prop :=
  ft_locked s = false ∧ (∀ fd, (me, fd) ∉ stale g) ∧ fd_inv (stale g ∪ Y) none s ∧ others me (since g) s.

(** What no other process changes of [me]: its descriptors, and that it lives. *)
Definition same_me (me : nat) (s s' : kernel) : Prop :=
  p_ofile (pr me s') = p_ofile (pr me s) ∧ (dead (pr me s') → dead (pr me s)).

(** The descriptors that [me] may leave stale when it sleeps: none, or when it exits ([ex])
    the one it is closing. *)
Definition own_stale (me : nat) (ex : bool) (Y : gset slot) : Prop := Y = ∅ ∨ ex = true ∧ ∃ fd, Y = {[(me, fd)]}.

(** Every step of the thread keeps the counts, leaves no more descriptors stale than it may and
    leaves the other processes alone, whatever the others have done, within the same limits,
    before the step; and none fails a check of the file table.  [Q] is what holds of the last
    step. *)
Fixpoint keeps {A} (me : nat) (ex : bool) (g : scene) (Q : A → scene → kernel → Prop) (r : res kernel A) : Prop :=
  match r with
  | Ret a s => Q a g s
  | Sleep _ s k => ∃ Y, own_stale me ex Y ∧ shared me g Y s ∧
      ∀ X' s', shared me (Scene X' s') Y s' → same_me me s s' → keeps me ex (Scene X' s') Q (k s')
  | Panic m => file_panic m = false
  | Fault _ | NoFuel => True
  end.

Lemma others_refl me s : others me s s.
Proof. by intros q _ Hq. Qed.

Lemma others_view me b s s' : same_view s s' → others me b s → others me b s'.
Proof.
  intros V Ho q Hq Hl. destruct (Ho q Hq Hl) as [H1 H2]. split; [by rewrite (sv_ofile _ _ V)|]. intros Hd. by apply H2, (sv_dead _ _ V).
Qed.

(** A step that changes processes only where the step owns them. *)
Lemma others_step me b s s' : (∀ q, q ≠ me → ¬ dead (pr q b) → pr q s' = pr q s) → others me b s → others me b s'.
Proof. intros Hs Ho q Hq Hl. rewrite (Hs q Hq Hl). by apply Ho. Qed.

Lemma others_procs me b s s' : procs s' = procs s → others me b s → others me b s'.
Proof. intros Hp. apply others_step. intros q _ _. unfold pr. by rewrite Hp. Qed.

Section keeps.
Context (me : nat) (ex : bool).

Lemma keeps_mono {A} (Q R : A → scene → kernel → Prop) r : ∀ g, keeps me ex g Q r → (∀ a g s, Q a g s → R a g s) → keeps me ex g R r.
Proof. induction r as [| | | |c s k IH]; intros g H HQ; simpl in *; auto. destruct H as (Y & Ho & HY & Hk). exists Y. auto 6. Qed.

Lemma keeps_bind {A B} (Q : A → scene → kernel → Prop) (R : B → scene → kernel → Prop) r f : ∀ g,
  keeps me ex g Q r → (∀ a g s, Q a g s → keeps me ex g R (f a s)) → keeps me ex g R (res_bind r f).
Proof. induction r as [| | | |c s k IH]; intros g H HQ; simpl in *; auto. destruct H as (Y & Ho & HY & Hk). exists Y. auto 6. Qed.

Lemma keeps_loop {A B} (I : A → scene → kernel → Prop) (Q : B → scene → kernel → Prop) (body : A → M kernel (A + B)) :
  (∀ a g s, I a g s → keeps me ex g (λ x g s', match x with inl a' => I a' g s' | inr b => Q b g s' end) (body a s)) →
  ∀ fuel a g s, I a g s → keeps me ex g Q (loop fuel body a s).
Proof.
  intros Hb fuel. induction fuel as [|fuel IH]; intros a g s HI; [done|]. rewrite loop_unfold.
  eapply keeps_bind; [by apply Hb|]. intros [a'|b] g' s'; simpl; auto.
Qed.

(** Code of a component that keeps to its own part of the state. *)
Definition framed {T} (put : T → kernel → kernel) : Prop := ∀ t s, same_view s (put t s).

(** [post Y s]: the invariant, and [me] as it was in [s]. *)
Definition post (Y : gset slot) (s : kernel) (g : scene) (s' : kernel) : Prop := shared me g Y s' ∧ same_me me s s'.

Lemma shared_view g Y s s' : same_view s s' → shared me g Y s → shared me g Y s'.
Proof.
  intros V (Hl & HX & I & Ho). split; [by rewrite (sv_lock _ _ V)|]. split; [done|]. split; [by eapply fd_inv_view|by eapply others_view].
Qed.

Lemma post_view Y s g s1 s2 : same_view s1 s2 → post Y s g s1 → post Y s g s2.
Proof.
  intros V [H1 [H2 H3]]. split; [by eapply shared_view|]. split; [by rewrite (sv_ofile _ _ V)|]. intros Hd. by apply H3, (sv_dead _ _ V).
Qed.

Lemma inside_keeps {T A} (put : T → kernel → kernel) (get : kernel → T) (r : res T A) Y s0 :
  framed put → own_stale me ex Y → tidy_res r → ∀ g s, post Y s0 g s → keeps me ex g (λ _ g' s', post Y s0 g' s') (inside me put get s r).
Proof.
  intros Hput HY. induction r as [a t|m|w| |c t k IH]; intros Ht g s Hs; simpl; try done.
  - by eapply post_view.
  - assert (post Y s0 g (to_sleep me c (put t s))) as Hp by (eapply post_view; [apply view_to_sleep|]; by eapply post_view).
    exists Y. split; [done|]. split; [apply Hp|]. intros X' s' Hs' [Ho Hd]. apply IH; [apply Ht|]. eapply post_view; [apply view_from_sleep|].
    destruct Hp as [_ [Hp1 Hp2]]. split; [done|]. split; [by rewrite Ho|auto].
Qed.

Lemma run_in_keeps {T A} (put : T → kernel → kernel) (get : kernel → T) (c : M T A) Y s0 g s :
  framed put → own_stale me ex Y → tidy c → post Y s0 g s → keeps me ex g (λ _ g' s', post Y s0 g' s') (run_in me put get c s).
Proof. intros Hp HY Hc Hs. apply inside_keeps; [done|done|apply Hc|done]. Qed.

Lemma inside_nosleep {T A} (put : T → kernel → kernel) (get : kernel → T) (r : res T A) g s (Q : A → scene → kernel → Prop) :
  nosleep r → (∀ a t, Q a g (put t s)) → keeps me ex g Q (inside me put get s r).
Proof. destruct r; simpl; auto; done. Qed.

Lemma framed_fs : framed (put_fs me).
Proof. intros t s. eapply same_view_trans; [|apply view_wakes]. by apply view_frame. Qed.

Lemma framed_pipe pi : framed (λ t s, wakes me (woken t) (set_pipes (<[pi := set_woken [] t]> (pipes s)) s)).
Proof. intros t s. eapply same_view_trans; [|apply view_wakes]. by apply view_frame. Qed.

Lemma on_fs_keeps {A} fuel (c : Store log_state → Z → nat → M (fs log_state) A) Y s0 g s :
  (∀ pid, tidy (c (store_log pid fuel) pid fuel)) → own_stale me ex Y → post Y s0 g s →
  keeps me ex g (λ _ g' s', post Y s0 g' s') (on_fs me fuel c s).
Proof. intros Hc HY Hs. unfold on_fs. apply run_in_keeps; [apply framed_fs|done|apply Hc|done]. Qed.

Lemma begin_op_keeps fuel Y s0 g s : own_stale me ex Y → post Y s0 g s → keeps me ex g (λ _ g' s', post Y s0 g' s') (begin_op me fuel s).
Proof. intros HY Hs. apply run_in_keeps; [apply framed_fs|done|apply tidy_zoom, tidy_begin_op|done]. Qed.

Lemma end_op_keeps fuel Y s0 g s : own_stale me ex Y → post Y s0 g s → keeps me ex g (λ _ g' s', post Y s0 g' s') (end_op me fuel s).
Proof. intros HY Hs. unfold end_op, on_log. apply run_in_keeps; [apply framed_fs|done|apply tidy_zoom, tidy_end_op|done]. Qed.

(** Memory. *)
Lemma on_mem_view {A} (c : M kmem A) g s (Q : A → scene → kernel → Prop) :
  atomic c → (∀ a s', same_view s s' → procs s' = procs s → Q a g s') → keeps me ex g Q (on_mem c s).
Proof.
  unfold on_mem, zoom. intros Hn HQ. specialize (Hn (km s)). destruct (c (km s)); simpl; try done. apply HQ; [by apply view_frame|done].
Qed.

End keeps.

(** * Operations on files *)

Lemma fl_fupd i g s j : (i < length (files s))%nat → fl j (fupd i g s) = if decide (j = i) then g (fl i s) else fl j s.
Proof.
  intros Hi. unfold fl, fupd, set_files. cbn [files]. rewrite !list_lookup_total_alt. case_decide as Hj.
  - subst j. rewrite list_lookup_alter_eq. by destruct (lookup_lt_is_Some_2 _ _ Hi) as [x ->].
  - by rewrite list_lookup_alter_ne.
Qed.

(** A change of one file. *)
Lemma fd_inv_file X d s s' i g e : fd_inv X d s → (i < NFILE)%nat → files s' = alter g i (files s) → procs s' = procs s →
  f_ref (g (fl i s)) = f_ref (fl i s) + e → (f_ref (g (fl i s)) = 0 → f_type (g (fl i s)) = FD_NONE) →
  fd_inv X (bump i e d) s'.
Proof.
  intros [I1 I2 I3 I4 I5 I6 I7 I8] Hi Hf Hp Hr Ht.
  assert (∀ p, pr p s' = pr p s) as Hpr by (intros p; unfold pr; by rewrite Hp).
  assert (∀ x, entry s' x = entry s x) as He by (intros x; unfold entry; by rewrite Hpr).
  assert (∀ j, fl j s' = if decide (j = i) then g (fl i s) else fl j s) as Hfl.
  { intros j. rewrite <- (fl_fupd i g s j) by lia. unfold fl, fupd, set_files. cbn [files]. by rewrite Hf. }
  split.
  - by rewrite Hf, length_alter.
  - by rewrite Hp.
  - intros p. rewrite Hpr. apply I3.
  - intros j Hj. unfold live. rewrite (filter_same _ (λ x, (x ∉ X) ∧ entry s x = Some j)) by (intros x _; by rewrite He).
    fold (live X s j). rewrite Hfl. unfold bump. case_decide; [subst j; rewrite Hr, I4 by done; lia|by apply I4].
  - intros x j. rewrite He. apply I5.
  - intros j Hj. rewrite Hfl. case_decide; [done|by apply I6].
  - intros p fd. rewrite Hpr, He. apply I7.
  - intros p fd. rewrite Hpr. apply I8.
Qed.

Lemma bump_0 i d : ∀ j, bump i 1 (bump i (-1) d) j = d j.
Proof. intros j. unfold bump. case_decide; lia. Qed.

Lemma fd_inv_ext X d d' s : (∀ j, d j = d' j) → fd_inv X d s → fd_inv X d' s.
Proof. intros Hd [I1 I2 I3 I4 I5 I6 I7 I8]. split; auto. intros j Hj. by rewrite <- Hd, I4. Qed.

Lemma filedup_ok X d s i : fd_inv X d s → ft_locked s = false → (i < NFILE)%nat → 1 ≤ f_ref (fl i s) →
  ∃ s', filedup i s = Ret i s' ∧ fd_inv X (bump i 1 d) s' ∧ ft_locked s' = false ∧ procs s' = procs s.
Proof.
  intros I Hl Hi Hr. unfold filedup, acquire_ft, release_ft, acquire_flag, release_flag. msimpl. rewrite Hl. cbn [res_bind].
  change (fl i (set_ft_locked true s)) with (fl i s). rewrite (proj2 (Z.ltb_ge _ _)) by lia. cbn. eexists. split; [done|].
  split; [|done]. eapply (fd_inv_file X d s); [done|done|done|done|done|]. simpl. lia.
Qed.

Lemma filealloc_ok X d s : fd_inv X d s → ft_locked s = false → (∀ i, 0 ≤ d i) →
  ∃ r s', filealloc s = Ret r s' ∧ ft_locked s' = false ∧ procs s' = procs s ∧
    match r with
    | None => files s' = files s
    | Some i => (i < NFILE)%nat ∧ fd_inv X (bump i 1 d) s' ∧ live X s i = 0%nat ∧ d i = 0 ∧ f_ref (fl i s') = 1 ∧ f_type (fl i s') = FD_NONE ∧
        ∀ j, j ≠ i → fl j s' = fl j s
    end.
Proof.
  intros I Hl Hd. unfold filealloc, acquire_ft, acquire_flag. msimpl. rewrite Hl. cbn [res_bind].
  set (s1 := set_ft_locked true s).
  assert (∀ n k, (k + n = NFILE)%nat → ∃ r s', loop (S n) filealloc_body k s1 = Ret r s' ∧ ft_locked s' = false ∧ procs s' = procs s ∧
    match r with
    | None => files s' = files s
    | Some i => (i < NFILE)%nat ∧ f_ref (fl i s) = 0 ∧ files s' = alter (λ f, set_fref 1 f) i (files s)
    end) as Hloop.
  { induction n as [|n IH]; intros k Hk; rewrite loop_unfold; unfold filealloc_body at 1, release_ft, release_flag; msimpl.
    - rewrite bool_decide_eq_false_2 by lia. cbn. eexists None, _. done.
    - rewrite bool_decide_eq_true_2 by lia. change (fl k s1) with (fl k s). destruct (Z.eqb_spec (f_ref (fl k s)) 0) as [E0|E0].
      + cbn. eexists (Some k), _. split; [done|]. split; [done|]. split; [done|]. split; [lia|]. done.
      + apply IH. lia. }
  destruct (Hloop NFILE 0%nat eq_refl) as (r & s' & E & Hl' & Hp & Hr). exists r, s'. split; [exact E|]. split; [done|]. split; [done|].
  destruct r as [i|]; [|done]. destruct Hr as (Hi & H0 & Hf). split; [done|].
  assert (∀ j, fl j s' = if decide (j = i) then set_fref 1 (fl i s) else fl j s) as Hfl.
  { intros j. rewrite <- (fl_fupd i (λ f, set_fref 1 f) s j) by (rewrite (fi_files _ _ _ I); lia). unfold fl, fupd, set_files. cbn [files]. by rewrite Hf. }
  pose proof (fi_count _ _ _ I i Hi) as Hc. specialize (Hd i). split_and!.
  - eapply (fd_inv_file X d s); [done|done|exact Hf|done|simpl; lia|simpl; lia].
  - lia.
  - lia.
  - rewrite Hfl, decide_True; done.
  - rewrite Hfl, decide_True by done. simpl. by apply (fi_none _ _ _ I).
  - intros j Hj. by rewrite Hfl, decide_False.
Qed.

Lemma list_alter_twice {A} (f g h : A → A) (l : list A) i : (∀ x, g (f x) = h x) → alter g i (alter f i l) = alter h i l.
Proof. intros Hh. revert i. induction l as [|x l IH]; intros [|i]; simpl; [done|done|by rewrite Hh|]. f_equal. apply IH. Qed.

Section close.
Context `{KernelImage} (me fuel : nat) (ex : bool).

(** The file table's part of [fileclose]; the rest is [close_object], for the last reference. *)
Lemma fileclose_ok X d s i : fd_inv X d s → ft_locked s = false → (i < NFILE)%nat → 1 ≤ f_ref (fl i s) →
  ∃ s' ff, f_type ff = f_type (fl i s) ∧ fd_inv X (bump i (-1) d) s' ∧ ft_locked s' = false ∧ procs s' = procs s ∧
    (∀ j, j ≠ i → fl j s' = fl j s) ∧
    fileclose me fuel i s = if 1 <? f_ref (fl i s) then Ret tt s' else close_object me fuel ff s'.
Proof.
  intros I Hl Hi Hr. pose proof (fi_files _ _ _ I) as Hlen.
  unfold fileclose, acquire_ft, release_ft, acquire_flag, release_flag. msimpl. rewrite Hl. cbn [res_bind].
  change (fl i (set_ft_locked true s)) with (fl i s). rewrite (proj2 (Z.ltb_ge _ _)) by lia. cbn [res_bind].
  rewrite fl_fupd, decide_True by (simpl; lia || done). cbn [set_fref f_ref].
  change (fl i (set_ft_locked true s)) with (fl i s).
  replace (0 <? f_ref (fl i s) - 1) with (1 <? f_ref (fl i s)) by (destruct (Z.ltb_spec 1 (f_ref (fl i s))), (Z.ltb_spec 0 (f_ref (fl i s) - 1)); lia).
  destruct (Z.ltb_spec 1 (f_ref (fl i s))) as [Hgt|Hle]; cbn.
  - eexists _, (fl i s). split; [done|]. split_and!; [..|done]; try done.
    + eapply (fd_inv_file X d s); [done|done|done|done|simpl; lia|simpl; lia].
    + intros j Hj. unfold fl. cbn [files set_ft_locked fupd set_files]. rewrite !list_lookup_total_alt. by rewrite list_lookup_alter_ne.
  - eexists _, _. split_and!; [..|reflexivity]; try done.
    + eapply (fd_inv_file X d s _ i (λ f, File FD_NONE 0 (f_readable f) (f_writable f) (f_pipe f) (f_ip f) (f_off f) (f_major f)));
        [done|done| |done|simpl; lia|done]. cbn [files set_ft_locked fupd set_files]. by apply list_alter_twice.
    + intros j Hj. unfold fl. cbn [files set_ft_locked fupd set_files]. rewrite !list_lookup_total_alt. by rewrite !list_lookup_alter_ne.
Qed.

Lemma atomic_pipeclose pi w : atomic (pipeclose pi w).
Proof.
  unfold pipeclose. assert (atomic acquire_p) by (intros s; unfold acquire_p; by destruct (plocked s)).
  assert (atomic release_p) by (intros s; unfold release_p; by destruct (plocked s)). atomic.
Qed.

(** Closing an end of a pipe does not sleep. *)
Lemma close_pipe_view pi w g s (Q : unit → scene → kernel → Prop) :
  (∀ s', same_view s s' → Q tt g s') → keeps me ex g Q (close_pipe me pi w s).
Proof.
  intros HQ. unfold close_pipe, mbind, M_bind.
  apply (keeps_bind me ex (λ _ g' s', g' = g ∧ same_view s s')).
  { apply inside_nosleep; [apply atomic_pipeclose|]. intros _ t. split; [done|]. apply framed_pipe. }
  intros _ ? s1 [-> V]. unfold get. cbn [res_bind]. destruct (pfreed _); [|by apply HQ]. unfold modify. cbn [res_bind].
  apply on_mem_view; [apply atomic_kfree|]. intros [] s' V' _. apply HQ.
  eapply same_view_trans; [exact V|]. eapply same_view_trans; [|exact V']. by apply view_frame.
Qed.

(** An inode given up, in a transaction of its own. *)
Lemma put_inode_keeps Y s0 g ip s : own_stale me ex Y → post me Y s0 g s →
  keeps me ex g (λ _ g' s', post me Y s0 g' s')
    ((begin_op me fuel;; on_fs me fuel (λ st pid fuel, @iput _ st pid fuel ip);; end_op me fuel) s).
Proof.
  intros HY Hp. unfold mbind, M_bind. apply (keeps_bind _ _ _ _ _ _ _ (begin_op_keeps me ex fuel Y s0 g s HY Hp)). intros _ g1 s1 H1.
  eapply keeps_bind; [apply (on_fs_keeps me ex fuel _ Y s0 g1 s1); [intros; apply tidy_iput|done|done]|].
  intros ? g2 s2 H2. by apply end_op_keeps.
Qed.

Lemma close_object_keeps Y s0 g ff s : own_stale me ex Y → post me Y s0 g s → keeps me ex g (λ _ g' s', post me Y s0 g' s') (close_object me fuel ff s).
Proof.
  intros HY Hp. unfold close_object. destruct (f_type ff); [done| |by apply put_inode_keeps..].
  apply close_pipe_view. intros s' V. by eapply post_view.
Qed.
End close.

(** * Descriptors *)

(** Descriptor [x] becomes [o], and nothing else that matters here changes. *)
Record slot_set (x : slot) (o : option nat) (s s' : kernel) : Prop := {
  ss_files : files s' = files s;
  ss_lock : ft_locked s' = ft_locked s;
  ss_length : length (procs s') = length (procs s);
  ss_other : ∀ q, q ≠ x.1 → pr q s' = pr q s;
  ss_state : p_state (pr x.1 s') = p_state (pr x.1 s);
  ss_ofile : p_ofile (pr x.1 s') = <[x.2 := o]> (p_ofile (pr x.1 s));
}.

Lemma slot_set_pupd p fd o s : (p < length (procs s))%nat →
  slot_set (p, fd) o s (pupd p (λ q, set_ofile (<[fd := o]> (p_ofile q)) q) s).
Proof.
  intros Hp. split; try done; cbn [fst snd]; rewrite ?pr_pupd_eq by done; try done; [apply length_pupd|]. intros q Hq. by apply pr_pupd_ne.
Qed.

Lemma slot_set_table p fd o s : (p < length (procs s))%nat →
  slot_set (p, fd) o s (pupd p (set_ofile (<[fd := o]> (p_ofile (pr p s)))) s).
Proof.
  intros Hp. split; try done; cbn [fst snd]; rewrite ?pr_pupd_eq by done; try done; [apply length_pupd|]. intros q Hq. by apply pr_pupd_ne.
Qed.

Lemma slot_bounds x : x ∈ all_slots → (x.1 < nproc)%nat ∧ (x.2 < NOFILE)%nat.
Proof. destruct x as [p fd]. apply elem_slots. Qed.

Section slots.
Context (X : gset slot) (d : nat → Z) (s s' : kernel) (x : slot) (o : option nat).
Context (I : fd_inv X d s) (V : slot_set x o s s') (Hx : x ∈ all_slots).

Lemma entry_set y : entry s' y = if decide (y = x) then o else entry s y.
Proof using I V Hx.
  destruct (slot_bounds x Hx) as [Hp Hfd]. destruct x as [p fd], y as [q fd']. unfold entry. cbn [fst snd] in *.
  destruct (decide (q = p)) as [->|Hq].
  - pose proof (ss_ofile _ _ _ _ V) as Ho. cbn [fst snd] in Ho. rewrite Ho.
    destruct (decide (fd' = fd)) as [->|Hfd'].
    + rewrite decide_True by done. rewrite list_lookup_insert_eq by (rewrite (fi_ofile _ _ _ I) by done; done). by destruct o.
    + rewrite decide_False by congruence. by rewrite list_lookup_insert_ne.
  - rewrite decide_False by congruence. by rewrite (ss_other _ _ _ _ V).
Qed.

Lemma state_set q : p_state (pr q s') = p_state (pr q s).
Proof using V.
  destruct (decide (q = x.1)) as [->|Hq]; [apply V|]. by rewrite (ss_other _ _ _ _ V).
Qed.

(** The parts of the invariant that do not count. *)
Lemma fd_inv_slot X' d' :
  (∀ i, (i < NFILE)%nat → Z.of_nat (live X' s' i) + d' i = Z.of_nat (live X s i) + d i) →
  (∀ i, o = Some i → (i < NFILE)%nat ∧ ¬ dead (pr x.1 s)) → (∀ p fd, (p, fd) ∈ X' → (p < nproc)%nat ∧ ¬ dead (pr p s)) →
  fd_inv X' d' s'.
Proof using I V Hx.
  intros Hcnt Ho HX. assert (∀ i, fl i s' = fl i s) as Hfl by (intros i; unfold fl; by rewrite (ss_files _ _ _ _ V)).
  assert (∀ q, dead (pr q s') ↔ dead (pr q s)) as Hd by (intros q; unfold dead; by rewrite state_set).
  destruct I as [I1 I2 I3 I4 I5 I6 I7 I8]. split.
  - by rewrite (ss_files _ _ _ _ V).
  - by rewrite (ss_length _ _ _ _ V).
  - intros q Hq. destruct (decide (q = x.1)) as [->|Hne].
    + rewrite (ss_ofile _ _ _ _ V), length_insert. by apply I3.
    + rewrite (ss_other _ _ _ _ V) by done. by apply I3.
  - intros i Hi. rewrite Hfl, I4 by done. by rewrite Hcnt.
  - intros y i. rewrite entry_set. case_decide; [|apply I5]. intros ->. by apply Ho.
  - intros i Hi. rewrite Hfl. by apply I6.
  - intros q fd Hdd. apply Hd in Hdd. rewrite entry_set. case_decide as E; [|by apply I7]. subst x. destruct o as [i|]; [|done].
    by destruct (Ho i eq_refl) as [_ Hn].
  - intros q fd Hq. rewrite Hd. by apply HX with fd.
Qed.

(** A new descriptor takes a reference. *)
Lemma fd_inv_open i : o = Some i → x ∉ X → entry s x = None → (i < NFILE)%nat → ¬ dead (pr x.1 s) → fd_inv X (bump i (-1) d) s'.
Proof using I V Hx.
  intros Ho HX H0 Hi Hd. apply fd_inv_slot.
  - intros j Hj. rewrite (live_set X s s' x i j Hx HX H0); [unfold bump; case_decide; lia|by rewrite entry_set, decide_True|].
    intros y Hy. by rewrite entry_set, decide_False.
  - intros j Hj. split; [congruence|done].
  - apply I.
Qed.

(** Closing one gives it back. *)
Lemma fd_inv_close i : o = None → x ∉ X → entry s x = Some i → fd_inv X (bump i 1 d) s'.
Proof using I V Hx.
  intros Ho HX H0. apply fd_inv_slot.
  - intros j Hj. rewrite (live_set X s' s x i j Hx HX); [unfold bump; case_decide; lia|by rewrite entry_set, decide_True|done|].
    intros y Hy. by rewrite entry_set, decide_False.
  - congruence.
  - apply I.
Qed.

(** Clearing a stale one changes nothing. *)
Lemma fd_inv_clear X' : o = None → (∀ y, y ∈ X ↔ y = x ∨ y ∈ X') → fd_inv X' d s'.
Proof using I V Hx.
  intros Ho HX. apply fd_inv_slot.
  - intros j Hj. do 2 f_equal. unfold live. f_equal. apply filter_same. intros y _. rewrite entry_set. case_decide as E.
    + subst y o. split; [by intros [_ ?]|]. intros [Hn _]. exfalso. apply Hn, HX. by left.
    + split; intros [Hn ?]; split; try done; intros Hy; apply Hn; [|by apply HX; right]. by apply HX in Hy as [?|?].
  - congruence.
  - intros q fd Hq. apply (fi_stale _ _ _ I q fd). apply HX. by right.
Qed.
End slots.

(** A descriptor whose reference has been given back is stale. *)
Lemma fd_inv_stale X d s x i : fd_inv X d s → x ∈ all_slots → x ∉ X → entry s x = Some i → ¬ dead (pr x.1 s) →
  fd_inv ({[x]} ∪ X) (bump i 1 d) s.
Proof.
  intros I Hx HX He Hd. destruct (slot_bounds x Hx) as [Hp _].
  assert (∀ j, (j < NFILE)%nat → Z.of_nat (live X s j) = Z.of_nat (live ({[x]} ∪ X) s j) + (if decide (j = i) then 1 else 0)) as Hl.
  { intros j Hj. unfold live. case_decide as Hji.
    - subst j. rewrite (count_step (λ y, (y ∉ {[x]} ∪ X) ∧ entry s y = Some i) (λ y, (y ∉ X) ∧ entry s y = Some i) all_slots x);
        [lia|apply all_slots_nodup|done|..].
      + intros y Hy. rewrite not_elem_of_union, not_elem_of_singleton. naive_solver.
      + intros [Hn _]. apply Hn, elem_of_union. left. by apply elem_of_singleton.
      + done.
    - rewrite Z.add_0_r. do 2 f_equal. apply filter_same. intros y _. rewrite not_elem_of_union, not_elem_of_singleton.
      split; [intros [? ?]; split; [|done]; split; [|done]; congruence|naive_solver]. }
  destruct I as [I1 I2 I3 I4 I5 I6 I7 I8]. split; auto.
  - intros j Hj. rewrite I4, (Hl j) by done. unfold bump. case_decide; lia.
  - intros p fd [Hin|Hin]%elem_of_union; [|by apply I8 with fd]. apply elem_of_singleton in Hin. by subst x.
Qed.
