(* ===== verification/FdCalls.v ===== *)
(** The calls that make and remove descriptors keep the reference counts of open files:
    dup, close, pipe and open of kernel/sysfile.c. *)

From S2P Require Import Prelude Mem Riscv Kalloc Vm Bytes Sleeplock Bio Log Store StoreLog Fs Dir Console Pipe Fdtable Kernel File Proc Exec Sysfile NoSleep FileRefs.

(** Code that does not sleep, leaves files, descriptors and lives alone, and does not fail a
    check of the file table. *)
Definition calm {A} (c : M kernel A) : Prop :=
  ∀ s, match c s with Ret _ s' => same_view s s' | Sleep _ _ _ => False | Panic m => file_panic m = false | _ => True end.

Create HintDb calm discriminated.

Lemma calm_bind {A B} (c : M kernel A) (f : A → M kernel B) : calm c → (∀ a, calm (f a)) → calm (c ≫= f).
Proof.
  intros Hc Hf s. unfold mbind, M_bind. specialize (Hc s). destruct (c s) as [a s1| | | |]; simpl; try done.
  specialize (Hf a s1). destruct (f a s1); try done. by eapply same_view_trans.
Qed.

Lemma calm_loop {A B} (body : A → M kernel (A + B)) : (∀ a, calm (body a)) → ∀ n a, calm (loop n body a).
Proof.
  intros Hb n. induction n as [|n IH]; intros a s; [done|]. rewrite loop_unfold. pose proof (Hb a s) as H.
  destruct (body a s) as [[a'|b] s1| | | |]; simpl; try done. specialize (IH a' s1). destruct (loop n body a' s1); try done.
  by eapply same_view_trans.
Qed.

Lemma calm_ret {A} (a : A) : calm (mret a : M kernel A).
Proof. intros s. apply same_view_refl. Qed.
Lemma calm_get : calm (get : M kernel kernel).
Proof. intros s. apply same_view_refl. Qed.
Lemma calm_gets {A} (f : kernel → A) : calm (gets f).
Proof. intros s. apply same_view_refl. Qed.
Lemma calm_panic {A} m : file_panic m = false → calm (panic m : M kernel A).
Proof. by intros Hm s. Qed.
Lemma calm_fault {A} m : calm (fault m : M kernel A).
Proof. done. Qed.
Lemma calm_when b (c : M kernel unit) : calm c → calm (when b c).
Proof. destruct b; [done|]. intros _. apply calm_ret. Qed.
Lemma calm_modify f : (∀ s, same_view s (f s)) → calm (modify f).
Proof. intros Hf s. apply Hf. Qed.
Lemma calm_acquire held set_held : (∀ b s, same_view s (set_held b s)) → calm (acquire_flag held set_held).
Proof. intros Hf s. unfold acquire_flag. destruct (held s); [done|apply Hf]. Qed.
Lemma calm_release held set_held : (∀ b s, same_view s (set_held b s)) → calm (release_flag held set_held).
Proof. intros Hf s. unfold release_flag. destruct (held s); [apply Hf|done]. Qed.
Lemma calm_on_mem {A} (c : M kmem A) : atomic c → calm (on_mem c).
Proof. intros Hc s. unfold on_mem, zoom. specialize (Hc (km s)). by destruct (c (km s)); simpl; try done. Qed.

Lemma calm_acquire_proc i : calm (acquire_proc i).
Proof. apply calm_acquire. intros b s. by apply view_pupd. Qed.
Lemma calm_release_proc i : calm (release_proc i).
Proof. apply calm_release. intros b s. by apply view_pupd. Qed.
Lemma calm_acquire_wait : calm acquire_wait.
Proof. apply calm_acquire. intros b s. by apply view_frame. Qed.
Lemma calm_release_wait : calm release_wait.
Proof. apply calm_release. intros b s. by apply view_frame. Qed.
Lemma calm_allocpid : calm allocpid.
Proof.
  unfold allocpid, acquire_pid, release_pid.
  apply calm_bind; [apply calm_acquire; intros; by apply view_frame|intros _]. apply calm_bind; [apply calm_gets|intros pid].
  apply calm_bind; [apply calm_modify; intros; by apply view_frame|intros _].
  apply calm_bind; [apply calm_release; intros; by apply view_frame|intros _]. apply calm_ret.
Qed.

#[export] Hint Resolve calm_ret calm_get calm_gets calm_fault calm_acquire_proc calm_release_proc
  calm_acquire_wait calm_release_wait calm_allocpid : calm.
#[export] Hint Extern 1 (calm (panic _)) => apply calm_panic; reflexivity : calm.

Ltac calm := repeat first
  [ match goal with
    | |- forall _, _ => intro
    | |- calm (match ?x with _ => _ end) => destruct x
    | |- calm (mbind _ _) => apply calm_bind
    | |- calm (when _ _) => apply calm_when
    | |- calm (loop _ _ _) => apply calm_loop
    | |- calm (on_mem _) => apply calm_on_mem; auto with atomic
    end
  | progress cbv beta zeta | solve [eauto with calm] ].

Lemma live_pos X s x i : x ∈ all_slots → x ∉ X → entry s x = Some i → (1 ≤ live X s i)%nat.
Proof.
  intros Hx HX He. unfold live. assert (x ∈ filter (λ x, (x ∉ X) ∧ entry s x = Some i) all_slots) as Hin by (by apply list_elem_of_filter).
  destruct (filter _ _); [by apply elem_of_nil in Hin|simpl; lia].
Qed.

(** A descriptor in use refers to a file with references. *)
Lemma entry_ref X s x i : fd_inv X none s → x ∈ all_slots → x ∉ X → entry s x = Some i → (i < NFILE)%nat ∧ 1 ≤ f_ref (fl i s).
Proof.
  intros I Hx HX He. pose proof (fi_range _ _ _ I _ _ He) as Hi. split; [done|].
  rewrite (fi_count _ _ _ I i Hi). pose proof (live_pos X s x i Hx HX He). unfold none. lia.
Qed.

Section calls.
Context `{KernelImage} (me fuel : nat) (ex : bool) (Hme : (me < nproc)%nat).

Lemma keeps_calm {A} (c : M kernel A) g s (Q : A → scene → kernel → Prop) :
  calm c → (∀ a s', same_view s s' → Q a g s') → keeps me ex g Q (c s).
Proof. intros Hc HQ. specialize (Hc s). destruct (c s); simpl; auto; done. Qed.

Lemma keeps_calm_bind {A B} (c : M kernel A) (f : A → M kernel B) g s (Q : B → scene → kernel → Prop) :
  calm c → (∀ a s', same_view s s' → keeps me ex g Q (f a s')) → keeps me ex g Q (res_bind (c s) f).
Proof. intros Hc HQ. specialize (Hc s). destruct (c s); simpl; auto; done. Qed.

Lemma calm_argint n : calm (argint me n).
Proof. unfold argint, argraw. calm. Qed.
Lemma calm_argaddr n : calm (argaddr me n).
Proof. unfold argaddr, argraw. calm. Qed.
Lemma calm_argstr n m : calm (argstr me n m).
Proof. unfold argstr, fetchstr. calm. apply calm_argaddr. Qed.

(** Between sleeps a thread has the counts to itself. *)
Definition quiet (g : scene) (d : nat → Z) (s : kernel) : Prop :=
  (∀ fd, (me, fd) ∉ stale g) ∧ ft_locked s = false ∧ fd_inv (stale g) d s ∧ others me (since g) s.

Lemma shared_quiet g s : shared me g ∅ s ↔ quiet g none s.
Proof. unfold shared, quiet. rewrite union_empty_r_L. tauto. Qed.

Lemma quiet_view g d s s' : same_view s s' → quiet g d s → quiet g d s'.
Proof.
  intros V (HX & Hl & I & Ho). split; [done|]. split; [by rewrite (sv_lock _ _ V)|]. split; [by eapply fd_inv_view|by eapply others_view].
Qed.

Lemma quiet_ext g d d' s : (∀ j, d j = d' j) → quiet g d s → quiet g d' s.
Proof. intros Hd (? & ? & ? & ?). split; [done|]. split; [done|]. split; [by eapply fd_inv_ext|done]. Qed.

(** Changes of files, and of the thread's own descriptors. *)
Lemma quiet_procs g d d' s s' : quiet g d s → procs s' = procs s → ft_locked s' = false → fd_inv (stale g) d' s' → quiet g d' s'.
Proof. intros (HX & _ & _ & Ho) Hp Hl I. split; [done|]. split; [done|]. split; [done|]. by eapply others_procs. Qed.

Lemma quiet_slot g d d' s s' fd o : quiet g d s → slot_set (me, fd) o s s' → fd_inv (stale g) d' s' → quiet g d' s'.
Proof.
  intros (HX & Hl & _ & Ho) V I. split; [done|]. split; [by rewrite (ss_lock _ _ _ _ V)|]. split; [done|].
  eapply others_step; [|exact Ho]. intros q Hq _. by apply (ss_other _ _ _ _ V).
Qed.

Lemma own_none : own_stale me ex ∅.
Proof. by left. Qed.

Lemma my_slot fd : (fd < NOFILE)%nat → (me, fd) ∈ all_slots.
Proof using Hme. intros Hfd. by apply elem_slots. Qed.

Lemma argfd_bind {B} n (f : option (nat * nat) → M kernel B) g s (Q : B → scene → kernel → Prop) :
  (∀ r s', same_view s s' → (∀ fd f, r = Some (fd, f) → (fd < NOFILE)%nat ∧ entry s' (me, fd) = Some f) → keeps me ex g Q (f r s')) →
  keeps me ex g Q (res_bind (argfd me n s) f).
Proof.
  intros HQ. apply (keeps_bind me ex (λ r g' s', g' = g ∧ same_view s s' ∧ ∀ fd f, r = Some (fd, f) → (fd < NOFILE)%nat ∧ entry s' (me, fd) = Some f)).
  2: { intros r ? s' (-> & V & Hr). by apply HQ. }
  unfold argfd, mbind, M_bind. apply keeps_calm_bind; [apply calm_argint|]. intros fd s' V. unfold get. cbn [res_bind].
  destruct ((fd <? 0) || (Z.of_nat NOFILE <=? fd)) eqn:Efd; [done|]. apply orb_false_iff in Efd as [E1 E2].
  apply Z.ltb_ge in E1. apply Z.leb_gt in E2.
  destruct (p_ofile (pr me s') !! Z.to_nat fd) as [[f'|]|] eqn:Ef; [|done..]. cbn. split; [done|]. split; [done|].
  intros ? ? [= <- <-]. split; [lia|]. unfold entry. cbn [fst snd]. by rewrite Ef.
Qed.

Lemma entry_none s fd : p_ofile (pr me s) !! fd = Some None → entry s (me, fd) = None.
Proof. intros E. unfold entry. cbn [fst snd]. by rewrite E. Qed.

(** [fdalloc] takes over the caller's reference, or the table is full. *)
Lemma fdalloc_me_bind {B} g d f s (k : Z → M kernel B) (Q : B → scene → kernel → Prop) :
  quiet g d s → (f < NFILE)%nat → ¬ dead (pr me s) → keeps me ex g Q (k (-1) s) →
  (∀ fd s', (fd < NOFILE)%nat → quiet g (bump f (-1) d) s' → slot_set (me, fd) (Some f) s s' → entry s (me, fd) = None →
    keeps me ex g Q (k (Z.of_nat fd) s')) →
  keeps me ex g Q (res_bind (fdalloc_me me f s) k).
Proof using Hme.
  intros Hq Hf Hd H1 H2. destruct Hq as (HX & Hl & I & Ho) eqn:Eq. clear Eq.
  unfold fdalloc_me. msimpl. destruct (fdalloc_cases (p_ofile (pr me s)) f) as [[-> _]|(fd & Hlow & ->)]; [done|].
  cbn [res_bind]. assert (fd < NOFILE)%nat as Hfd by (rewrite <- (fi_ofile _ _ _ I me) by done; by apply lowest_lt).
  assert (me < length (procs s))%nat as Hlen by (rewrite (fi_procs _ _ _ I); done).
  pose proof (slot_set_table me fd (Some f) s Hlen) as V. pose proof (entry_none s fd (proj1 Hlow)) as He.
  apply H2; [done| |done|done]. eapply quiet_slot; [exact Hq|exact V|].
  eapply fd_inv_open; [exact I|exact V|by apply my_slot|done|apply HX|done|done|done].
Qed.

Lemma sys_dup_keeps g s : shared me g ∅ s → ¬ dead (pr me s) → keeps me ex g (λ _ g s', shared me g ∅ s') (sys_dup me s).
Proof using Hme.
  intros Hs Hd. unfold sys_dup, mbind, M_bind. apply argfd_bind. intros r s1 V Hr.
  assert (shared me g ∅ s1) as Hs1 by (by eapply shared_view). destruct r as [[fd f]|]; [|done].
  destruct (Hr fd f eq_refl) as [Hfd He]. pose proof (proj1 (shared_quiet _ _) Hs1) as Hq. pose proof Hq as (HX & Hl & I & _).
  destruct (entry_ref (stale g) s1 (me, fd) f I (my_slot fd Hfd) (HX fd) He) as [Hf Href].
  eapply fdalloc_me_bind; [exact Hq|done|intros Hdd; by apply Hd, (sv_dead _ _ V)|done|]. intros fd' s2 _ Hq2 V2 _.
  rewrite (proj2 (Z.ltb_ge _ _)) by lia. cbn [res_bind]. pose proof Hq2 as (_ & Hl2 & I2 & _).
  destruct (filedup_ok (stale g) _ s2 f I2 Hl2 Hf) as (s3 & E & I3 & Hl3 & Hp3); [unfold fl; by rewrite (ss_files _ _ _ _ V2)|]. rewrite E. cbn.
  apply shared_quiet. eapply quiet_procs; [exact Hq2|done|done|]. eapply fd_inv_ext; [|exact I3]. apply bump_0.
Qed.

Lemma post_refl Y g s : shared me g Y s → post me Y s g s.
Proof. intros Hs. by split. Qed.

(** [fileclose] of a file with a reference in flight. *)
Lemma fileclose_keeps g s f : quiet g (bump f 1 none) s → (f < NFILE)%nat →
  keeps me ex g (λ _ g s', shared me g ∅ s') (fileclose me fuel f s).
Proof.
  intros Hq Hf. pose proof Hq as (HX & Hl & I & _).
  assert (1 ≤ f_ref (fl f s)) as Href by (rewrite (fi_count _ _ _ I f Hf); unfold bump, none; rewrite decide_True by done; lia).
  destruct (fileclose_ok me fuel (stale g) _ s f I Hl Hf Href) as (s2 & ff & _ & I2 & Hl2 & Hp2 & _ & E). rewrite E.
  assert (shared me g ∅ s2) as Hs2.
  { apply shared_quiet. eapply quiet_procs; [exact Hq|done|done|]. eapply fd_inv_ext; [|exact I2]. intros j. unfold bump, none. case_decide; lia. }
  destruct (1 <? f_ref (fl f s)); [done|].
  eapply keeps_mono; [apply (close_object_keeps me fuel ex ∅ s2); [apply own_none|by apply post_refl]|]. by intros a g' s' [? _].
Qed.

Lemma sys_close_keeps g s : shared me g ∅ s → keeps me ex g (λ _ g s', shared me g ∅ s') (sys_close me fuel s).
Proof using Hme.
  intros Hs. unfold sys_close, mbind, M_bind. apply argfd_bind. intros r s1 V Hr.
  assert (shared me g ∅ s1) as Hs1 by (by eapply shared_view). destruct r as [[fd f]|]; [|done].
  destruct (Hr fd f eq_refl) as [Hfd He]. apply shared_quiet in Hs1. pose proof Hs1 as (HX & Hl & I & _).
  destruct (entry_ref (stale g) s1 (me, fd) f I (my_slot fd Hfd) (HX fd) He) as [Hf Href].
  assert (me < length (procs s1))%nat as Hlen by (rewrite (fi_procs _ _ _ I); done).
  pose proof (slot_set_pupd me fd None s1 Hlen) as V1. unfold close_fd, modify. cbn [res_bind].
  eapply keeps_bind; [apply fileclose_keeps; [|done]|by intros ? ? s'; cbn]. eapply quiet_slot; [exact Hs1|exact V1|].
  eapply fd_inv_close; [exact I|exact V1|by apply my_slot|done|apply HX|done].
Qed.

(** Leaving [sys_open] without a file. *)
Lemma open_bad_keeps ip g s : shared me g ∅ s →
  keeps me ex g (λ _ g s', shared me g ∅ s') ((on_fs me fuel (λ st pid fuel, @iunlockput _ st pid fuel ip);; end_op me fuel;; mret (-1)) s).
Proof.
  intros Hs. unfold mbind, M_bind.
  eapply keeps_bind; [apply (on_fs_keeps me ex fuel _ ∅ s g s); [intros; apply tidy_iunlockput|apply own_none|by apply post_refl]|]. intros ? g1 s1 H1.
  apply (keeps_bind _ _ _ _ _ _ _ (end_op_keeps me ex fuel ∅ s g1 s1 own_none H1)). intros _ g2 s2 [H2 _]. done.
Qed.

Lemma quiet_shared g s d : (∀ j, d j = 0) → quiet g d s → shared me g ∅ s.
Proof. intros Hd Hq. apply shared_quiet. by eapply quiet_ext. Qed.

Lemma open_file_keeps ip omode g s : shared me g ∅ s → ¬ dead (pr me s) →
  keeps me ex g (λ _ g s', shared me g ∅ s')
    ((r ← filealloc;
      match r with
      | None => on_fs me fuel (λ st pid fuel, @iunlockput _ st pid fuel ip);; end_op me fuel;; mret (-1)
      | Some f =>
          fd ← fdalloc_me me f;
          if fd <? 0 then fileclose me fuel f;; (on_fs me fuel (λ st pid fuel, @iunlockput _ st pid fuel ip);; end_op me fuel;; mret (-1))
          else
            s ← get;
            let x := idata (ino ip (fsys s)) in
            modify (fupd f (opened ip x omode));;
            when (negb (Z.land omode O_TRUNC =? 0) && (d_type x =? T_FILE)) (on_fs me fuel (λ st _ _, @itrunc _ st ip));;
            on_fs me fuel (λ _ pid _, iunlock pid ip);;
            end_op me fuel;;
            mret fd
      end) s).
Proof using Hme.
  intros Hs Hd. apply shared_quiet in Hs. pose proof Hs as (HX & Hl & I & _). unfold mbind at 1, M_bind at 1.
  destruct (filealloc_ok (stale g) none s I Hl) as (r & s1 & E & Hl1 & Hp1 & Hr); [by intros j|]. rewrite E. cbn [res_bind]. destruct r as [f|].
  2: { apply open_bad_keeps, shared_quiet. apply (quiet_view g none s); [apply view_frame; congruence|done]. }
  destruct Hr as (Hf & I1 & _ & _ & Hr1 & _ & _). unfold mbind at 1, M_bind at 1.
  assert (quiet g (bump f 1 none) s1) as Hq1 by (by eapply quiet_procs).
  eapply fdalloc_me_bind; [exact Hq1|done|by unfold pr; rewrite Hp1| |].
  { cbn [Z.ltb Z.compare]. unfold mbind at 1, M_bind at 1. eapply keeps_bind; [by apply fileclose_keeps|]. intros ? g3 s3 Hs3. by apply open_bad_keeps. }
  intros fd s2 _ Hq2 V2 _. rewrite (proj2 (Z.ltb_ge _ _)) by lia. unfold mbind, M_bind, get, modify. cbn [res_bind].
  set (s3 := fupd f _ s2). assert (shared me g ∅ s3) as Hs3.
  { pose proof Hq2 as (_ & Hl2 & I2 & _). apply (quiet_shared g _ (bump f 0 (bump f (-1) (bump f 1 none)))).
    - intros j. unfold bump, none. by case_decide.
    - eapply quiet_procs; [exact Hq2|done|done|]. eapply (fd_inv_file (stale g) _ s2 s3 f); [done|done|reflexivity|done|simpl; lia|]. unfold opened. simpl.
      unfold fl in *. rewrite (ss_files _ _ _ _ V2). lia. }
  apply (keeps_bind me ex (λ _ g' s', post me ∅ s3 g' s')).
  { unfold when. destruct (_ && _); [|by apply post_refl]. apply on_fs_keeps; [intros; apply tidy_itrunc|apply own_none|by apply post_refl]. }
  intros _ g4 s4 H4. eapply keeps_bind; [apply (on_fs_keeps me ex fuel _ ∅ s3 g4 s4); [intros; apply tidy_iunlock|apply own_none|done]|]. intros ? g5 s5 H5.
  apply (keeps_bind _ _ _ _ _ _ _ (end_op_keeps me ex fuel ∅ s3 g5 s5 own_none H5)). intros _ g6 s6 [H6 _]. done.
Qed.

Lemma sys_open_keeps g s : shared me g ∅ s → ¬ dead (pr me s) → keeps me ex g (λ _ g s', shared me g ∅ s') (sys_open me fuel s).
Proof using Hme.
  intros Hs Hd. unfold sys_open. unfold mbind at 1, M_bind at 1. apply keeps_calm_bind; [apply calm_argint|]. intros omode s1 V1.
  unfold mbind at 1, M_bind at 1. apply keeps_calm_bind; [apply calm_argstr|]. intros path s2 V2.
  assert (post me ∅ s g s2) as H2 by (apply (post_view me ∅ s g s s2); [by eapply same_view_trans|by apply post_refl]).
  destruct (path.1 <? 0); [apply H2|]. unfold mbind at 1, M_bind at 1.
  apply (keeps_bind _ _ _ _ _ _ _ (begin_op_keeps me ex fuel ∅ s g s2 own_none H2)). intros _ g3 s3 H3. unfold mbind at 1, M_bind at 1, gets. cbn [res_bind].
  unfold mbind at 1, M_bind at 1. eapply keeps_bind; [apply (on_fs_keeps me ex fuel _ ∅ s g3 s3); [intros; apply tidy_open_inode|apply own_none|done]|].
  intros [ip|] g4 s4 H4.
  - destruct H4 as [Hs4 [_ Hd4]]. apply open_file_keeps; [done|auto].
  - unfold mbind, M_bind. apply (keeps_bind _ _ _ _ _ _ _ (end_op_keeps me ex fuel ∅ s g4 s4 own_none H4)). intros _ g5 s5 [H5 _]. done.
Qed.

(** ** Pipes *)

(** Closing a file that has no inode does not sleep. *)
Lemma close_inflight g d f s (Q : unit → scene → kernel → Prop) :
  quiet g d s → (f < NFILE)%nat → 1 ≤ d f → f_type (fl f s) = FD_NONE ∨ f_type (fl f s) = FD_PIPE →
  (∀ s', quiet g (bump f (-1) d) s' → (∀ j, j ≠ f → fl j s' = fl j s) → Q tt g s') →
  keeps me ex g Q (fileclose me fuel f s).
Proof.
  intros Hq Hf Hdf Ht HQ. pose proof Hq as (HX & Hl & I & _).
  assert (1 ≤ f_ref (fl f s)) as Href by (rewrite (fi_count _ _ _ I f Hf); lia).
  destruct (fileclose_ok me fuel (stale g) _ s f I Hl Hf Href) as (s2 & ff & Hff & I2 & Hl2 & Hp2 & Hfl2 & E). rewrite E.
  assert (∀ s', same_view s2 s' → Q tt g s') as HQ2.
  { intros s' V. apply HQ.
    - eapply quiet_view; [exact V|]. by eapply quiet_procs.
    - intros j Hj. unfold fl. rewrite (sv_files _ _ V). by apply Hfl2. }
  destruct (1 <? f_ref (fl f s)); [apply HQ2, same_view_refl|]. unfold close_object. rewrite Hff.
  destruct Ht as [-> | ->]; [apply HQ2, same_view_refl|]. by apply close_pipe_view.
Qed.

(** Both ends are given back. *)
Lemma close_both_keeps {A} (a : A) g f0 f1 s : quiet g (bump f1 1 (bump f0 1 none)) s → (f0 < NFILE)%nat → (f1 < NFILE)%nat → f0 ≠ f1 →
  f_type (fl f0 s) = FD_NONE ∨ f_type (fl f0 s) = FD_PIPE → f_type (fl f1 s) = FD_NONE ∨ f_type (fl f1 s) = FD_PIPE →
  keeps me ex g (λ x g s', x = a ∧ shared me g ∅ s') ((fileclose me fuel f0;; fileclose me fuel f1;; mret a) s).
Proof.
  intros Hq H0 H1 Hne Ht0 Ht1. unfold mbind, M_bind.
  eapply (keeps_bind me ex (λ _ g' s', g' = g ∧ quiet g (bump f0 (-1) (bump f1 1 (bump f0 1 none))) s' ∧ fl f1 s' = fl f1 s)).
  - eapply close_inflight; [exact Hq|done| |done|].
    + unfold bump, none. repeat case_decide; subst; done || lia.
    + intros s' Hq' Hfl. split; [done|]. split; [done|]. by apply Hfl.
  - intros _ ? s1 (-> & Hq1 & Hf1). eapply (keeps_bind me ex (λ _ g s', shared me g ∅ s')); [|by intros _ ? s'].
    eapply close_inflight; [exact Hq1|done| |by rewrite Hf1|].
    + unfold bump, none. repeat case_decide; subst; done || lia.
    + intros s' Hq' _. eapply quiet_shared; [|exact Hq']. intros j. unfold bump, none.
      repeat case_decide; subst; lia || done.
Qed.

(** Two new files, the ends of a pipe, each with its reference in flight; or nothing. *)
Definition pipe_made (g : scene) (s : kernel) (r : option (nat * nat)) (g' : scene) (s' : kernel) : Prop :=
  match r with
  | None => shared me g' ∅ s'
  | Some (f0, f1) => g' = g ∧ quiet g (bump f1 1 (bump f0 1 none)) s' ∧ (f0 < NFILE)%nat ∧ (f1 < NFILE)%nat ∧ f0 ≠ f1 ∧
      f_type (fl f0 s') = FD_PIPE ∧ f_type (fl f1 s') = FD_PIPE ∧ procs s' = procs s
  end.

(** The two files become the ends of pipe [pi]. *)
Lemma pipe_ends_made g f0 f1 pi s s3 : quiet g (bump f1 1 (bump f0 1 none)) s3 → (f0 < NFILE)%nat → (f1 < NFILE)%nat → f0 ≠ f1 →
  f_ref (fl f0 s3) = 1 → f_ref (fl f1 s3) = 1 → procs s3 = procs s →
  pipe_made g s (Some (f0, f1)) g (fupd f1 (pipe_end pi false true) (fupd f0 (pipe_end pi true false) s3)).
Proof.
  intros Hq3 Hf0 Hf1 Hne Hr0 Hr1 Hp. pose proof Hq3 as (_ & Hl3 & I3 & _). pose proof (fi_files _ _ _ I3) as Hlen.
  set (s5 := fupd f0 _ s3). assert (quiet g (bump f0 0 (bump f1 1 (bump f0 1 none))) s5) as Hq5.
  { eapply quiet_procs; [exact Hq3|done|done|]. eapply (fd_inv_file (stale g) _ s3 _ f0); [done|done|reflexivity|done|simpl; lia|]. simpl. lia. }
  pose proof Hq5 as (_ & Hl5 & I5 & _).
  assert (∀ j, fl j s5 = if decide (j = f0) then pipe_end pi true false (fl f0 s3) else fl j s3) as Hfl5 by (intros j; apply fl_fupd; lia).
  assert (∀ j, fl j (fupd f1 (pipe_end pi false true) s5) = if decide (j = f1) then pipe_end pi false true (fl f1 s5) else fl j s5) as Hfl6.
  { intros j. apply fl_fupd. rewrite (fi_files _ _ _ I5). lia. }
  unfold pipe_made. split_and!; try done.
  - eapply quiet_procs; [exact Hq5|done|done|].
    eapply fd_inv_ext; [|eapply (fd_inv_file (stale g) _ s5 _ f1 (pipe_end pi false true) 0); [exact I5|done|reflexivity|done|simpl; lia|]].
    + intros j. unfold bump, none. repeat case_decide; subst; lia || done.
    + simpl. rewrite Hfl5, decide_False by done. lia.
  - by rewrite Hfl6, decide_False, Hfl5, decide_True.
  - by rewrite Hfl6, decide_True.
Qed.

Lemma pipealloc_keeps g s : quiet g none s → keeps me ex g (pipe_made g s) (pipealloc me fuel s).
Proof.
  intros Hq. pose proof Hq as (HX & Hl & I & _). unfold pipealloc. unfold mbind at 1, M_bind at 1.
  destruct (filealloc_ok (stale g) none s I Hl) as (r & s1 & E & Hl1 & Hp1 & Hr); [by intros j|]. rewrite E. cbn [res_bind]. clear E. destruct r as [f0|].
  2: { cbn. apply shared_quiet. apply (quiet_view g none s); [apply view_frame; congruence|done]. }
  destruct Hr as (Hf0 & I1 & _ & _ & Hr1 & Ht1 & _). unfold mbind at 1, M_bind at 1. assert (quiet g (bump f0 1 none) s1) as Hq1 by (by eapply quiet_procs).
  destruct (filealloc_ok (stale g) _ s1 I1 Hl1) as (r & s2 & E & Hl2 & Hp2 & Hr); [intros j; unfold bump, none; case_decide; lia|].
  rewrite E. cbn [res_bind]. clear E. destruct r as [f1|].
  2: { unfold mbind, M_bind. eapply (keeps_bind me ex (λ _ g s', shared me g ∅ s')); [|by intros _ ? s' Hs'].
    apply fileclose_keeps; [|done]. apply (quiet_view g _ s1); [apply view_frame; congruence|done]. }
  destruct Hr as (Hf1 & I2 & _ & Hd1 & Hr2 & Ht2 & Hfl2). assert (f0 ≠ f1) as Hne.
  { intros ->. unfold bump, none in Hd1. rewrite decide_True in Hd1; done. }
  assert (f_type (fl f0 s2) = FD_NONE ∧ f_ref (fl f0 s2) = 1) as [Ht02 Hr02] by (by rewrite Hfl2).
  assert (quiet g (bump f1 1 (bump f0 1 none)) s2) as Hq2 by (by eapply quiet_procs).
  unfold mbind at 1, M_bind at 1. eapply (keeps_bind me ex (λ _ g' s', g' = g ∧ same_view s2 s' ∧ procs s' = procs s2)).
  { apply on_mem_view; [apply atomic_kalloc|]. intros a s' V Hp. done. }
  intros pi ? s3 (-> & V3 & Hp3). assert (quiet g (bump f1 1 (bump f0 1 none)) s3) as Hq3 by (eapply quiet_view; [exact V3|done]).
  assert (∀ j, fl j s3 = fl j s2) as Hfl3 by (intros j; unfold fl; by rewrite (sv_files _ _ V3)).
  destruct (Z.eqb_spec pi 0) as [->|Hpi].
  { eapply keeps_mono; [apply (close_both_keeps (A := option (nat * nat)) None g); try done; rewrite Hfl3; by left|]. by intros ? ? s' [-> ?]. }
  unfold mbind, M_bind, modify. cbn [res_bind mret M_ret]. set (s4 := set_pipes _ s3).
  change (pipe_made g s (Some (f0, f1)) g (fupd f1 (pipe_end pi false true) (fupd f0 (pipe_end pi true false) s4))).
  apply pipe_ends_made; try done.
  - eapply quiet_view; [|exact Hq3]. by apply view_frame.
  - change (fl f0 s4) with (fl f0 s3). by rewrite Hfl3.
  - change (fl f1 s4) with (fl f1 s3). by rewrite Hfl3.
  - change (procs s3 = procs s). congruence.
Qed.

Lemma quiet_inv g d s : quiet g d s → fd_inv (stale g) d s.
Proof. by intros (_ & _ & I & _). Qed.

Lemma calm_to_user a l : calm (to_user me a l).
Proof. unfold to_user. calm. Qed.

Lemma close_fd_quiet g d s fd f : quiet g d s → (fd < NOFILE)%nat → entry s (me, fd) = Some f →
  ∃ s', close_fd me fd s = Ret tt s' ∧ quiet g (bump f 1 d) s' ∧ files s' = files s ∧ slot_set (me, fd) None s s'.
Proof using Hme.
  intros Hq Hfd He. pose proof Hq as (HX & Hl & I & _). assert (me < length (procs s))%nat as Hlen by (rewrite (fi_procs _ _ _ I); done).
  pose proof (slot_set_pupd me fd None s Hlen) as V. eexists. split; [done|]. split; [|by split; [apply V|]].
  eapply quiet_slot; [exact Hq|exact V|]. eapply fd_inv_close; [exact I|exact V|by apply my_slot|done|apply HX|done].
Qed.

Lemma slot_entry X d s s' fd o : fd_inv X d s → (fd < NOFILE)%nat → slot_set (me, fd) o s s' →
  ∀ fd', entry s' (me, fd') = if decide (fd' = fd) then o else entry s (me, fd').
Proof using Hme.
  intros I Hfd V fd'. rewrite (entry_set X d s s' (me, fd) o I V (my_slot fd Hfd)). do 2 case_decide; try done; congruence.
Qed.

(** The two descriptors of [sys_pipe], or both files closed again. *)
Lemma pipe_fds_keeps g f0 f1 s addr : quiet g (bump f1 1 (bump f0 1 none)) s → (f0 < NFILE)%nat → (f1 < NFILE)%nat → f0 ≠ f1 →
  f_type (fl f0 s) = FD_PIPE → f_type (fl f1 s) = FD_PIPE → ¬ dead (pr me s) →
  keeps me ex g (λ _ g s', shared me g ∅ s')
    ((fd0 ← fdalloc_me me f0;
      if fd0 <? 0 then fileclose me fuel f0;; fileclose me fuel f1;; mret (-1)
      else
        fd1 ← fdalloc_me me f1;
        if fd1 <? 0 then close_fd me (Z.to_nat fd0);; (fileclose me fuel f0;; fileclose me fuel f1;; mret (-1))
        else
          r ← to_user me addr (le_enc 4 fd0);
          r ← (if r <? 0 then mret r else to_user me (u64 (addr + 4)) (le_enc 4 fd1));
          if r <? 0 then close_fd me (Z.to_nat fd0);; close_fd me (Z.to_nat fd1);; (fileclose me fuel f0;; fileclose me fuel f1;; mret (-1))
          else mret 0) s).
Proof using Hme.
  intros Hq Hf0 Hf1 Hne Ht0 Ht1 Hd.
  assert (∀ s' d, quiet g d s' → (∀ j, d j = bump f1 1 (bump f0 1 none) j) → files s' = files s →
    keeps me ex g (λ _ g s', shared me g ∅ s') ((fileclose me fuel f0;; fileclose me fuel f1;; mret (-1)) s')) as Hboth.
  { intros s' d Hq' Hdd Hfl. eapply keeps_mono; [apply (close_both_keeps (-1) g f0 f1)|by intros ? ? ? [_ ?]]; try done;
      [by eapply quiet_ext|right; unfold fl in *; by rewrite Hfl..]. }
  unfold mbind at 1, M_bind at 1. eapply fdalloc_me_bind; [exact Hq|done|done|by eapply Hboth|]. intros fd0 s1 Hfd0 Hq1 V1 _.
  rewrite (proj2 (Z.ltb_ge _ _)) by lia. unfold mbind at 1, M_bind at 1.
  assert (¬ dead (pr me s1)) as Hd1 by (pose proof (ss_state _ _ _ _ V1) as Est; cbn [fst] in Est; unfold dead; by rewrite Est).
  assert (entry s1 (me, fd0) = Some f0) as He1
    by (pose proof (slot_entry (stale g) _ s s1 fd0 _ (quiet_inv _ _ _ Hq) Hfd0 V1 fd0) as ->; by rewrite decide_True).
  eapply fdalloc_me_bind; [exact Hq1|done|done| |].
  { cbn [Z.ltb Z.compare]. rewrite Nat2Z.id. destruct (close_fd_quiet g _ s1 fd0 f0 Hq1 Hfd0 He1) as (s3 & E & Hq3 & Hfl3 & _).
    unfold mbind at 1, M_bind at 1. rewrite E. cbn [res_bind]. eapply Hboth; [exact Hq3| |by rewrite Hfl3, (ss_files _ _ _ _ V1)].
    intros j. unfold bump, none. repeat case_decide; subst; lia || done. }
  intros fd1 s2 Hfd1 Hq2 V2 He2.
  rewrite (proj2 (Z.ltb_ge _ _)) by lia. assert (fd0 ≠ fd1) as Hfdne by (intros ->; congruence).
  assert (∀ fd', entry s2 (me, fd') = if decide (fd' = fd1) then Some f1 else entry s1 (me, fd')) as He3
    by (apply (slot_entry (stale g) _ s1 s2 fd1 _ (quiet_inv _ _ _ Hq1) Hfd1 V2)).
  unfold mbind at 1, M_bind at 1. apply keeps_calm_bind; [apply calm_to_user|]. intros r s3 V3. unfold mbind at 1, M_bind at 1.
  apply keeps_calm_bind; [destruct (r <? 0); [apply calm_ret|apply calm_to_user]|]. intros r' s4 V4.
  assert (quiet g (bump f1 (-1) (bump f0 (-1) (bump f1 1 (bump f0 1 none)))) s4) as Hq4 by (eapply quiet_view; [|exact Hq2]; by eapply same_view_trans).
  assert (∀ x, entry s4 x = entry s2 x) as He4 by (intros x; unfold entry; by rewrite (sv_ofile _ _ V4), (sv_ofile _ _ V3)).
  destruct (r' <? 0).
  2: { cbn. eapply quiet_shared; [|exact Hq4]. intros j. unfold bump, none. repeat case_decide; subst; lia || done. }
  rewrite !Nat2Z.id. destruct (close_fd_quiet g _ s4 fd0 f0 Hq4 Hfd0) as (s5 & E5 & Hq5 & Hfl5 & V5).
  { by rewrite He4, He3, decide_False. }
  unfold mbind at 1, M_bind at 1. rewrite E5. cbn [res_bind].
  destruct (close_fd_quiet g _ s5 fd1 f1 Hq5 Hfd1) as (s6 & E6 & Hq6 & Hfl6 & _).
  { pose proof (slot_entry (stale g) _ s4 s5 fd0 _ (quiet_inv _ _ _ Hq4) Hfd0 V5 fd1) as ->. by rewrite decide_False, He4, He3, decide_True. }
  unfold mbind at 1, M_bind at 1. rewrite E6. cbn [res_bind]. eapply Hboth; [exact Hq6| |].
  - intros j. unfold bump, none. repeat case_decide; subst; lia || done.
  - by rewrite Hfl6, Hfl5, (sv_files _ _ V4), (sv_files _ _ V3), (ss_files _ _ _ _ V2), (ss_files _ _ _ _ V1).
Qed.

Lemma sys_pipe_keeps g s : shared me g ∅ s → ¬ dead (pr me s) → keeps me ex g (λ _ g s', shared me g ∅ s') (sys_pipe me fuel s).
Proof using Hme.
  intros Hs Hd. unfold sys_pipe. unfold mbind at 1, M_bind at 1. apply keeps_calm_bind; [apply calm_argaddr|]. intros addr s1 V1.
  assert (shared me g ∅ s1) as Hs1 by (by eapply shared_view). apply shared_quiet in Hs1 as Hq.
  unfold mbind at 1, M_bind at 1. apply (keeps_bind _ _ _ _ _ _ _ (pipealloc_keeps g s1 Hq)). intros [[f0 f1]|] g2 s2 H2; [|done].
  destruct H2 as (-> & Hq2 & Hf0 & Hf1 & Hne & Ht0 & Ht1 & Hp). apply pipe_fds_keeps; try done.
  unfold pr. rewrite Hp. intros Hdd. by apply Hd, (sv_dead _ _ V1).
Qed.
End calls.
