(* ===== verification/FdProc.v ===== *)
(** fork, exit and wait keep the reference counts of open files (kernel/proc.c), and the
    theorem on all the calls that make or remove descriptors.  [wakeup], lock by lock, is one
    step on the process table. *)

From S2P Require Import Prelude Mem Riscv Kalloc Vm Bytes Sleeplock Bio Log Store StoreLog Fs Dir Console Pipe Fdtable Kernel File Proc Exec Sysfile Trap NoSleep FileRefs FdCalls Boot.

Lemma calm_wakeup me c : calm (wakeup me c).
Proof.
  unfold wakeup, wakeup_body. calm. apply calm_modify. intros s'. apply view_pupd; [done|]. intros p. by intros [|].
Qed.

Lemma calm_killed i : calm (killed i).
Proof. unfold killed. calm. Qed.

Lemma calm_reparent me : calm (reparent me).
Proof.
  unfold reparent, reparent_body. calm; [|apply calm_wakeup]. apply calm_modify. intros s'. by apply view_pupd.
Qed.

Lemma view_dead i f s : (∀ p, p_ofile (f p) = p_ofile p) → dead (pr i s) → same_view s (pupd i f s).
Proof.
  intros Ho Hd. split; [done|done|apply length_pupd|..]; intros p; destruct (pr_pupd i f s p) as [->|(-> & -> & _)]; auto.
Qed.

(** A process without descriptors may die. *)
Lemma fd_inv_die X d s i f : fd_inv X d s → (∀ p, p_ofile (f p) = p_ofile p) → (∀ fd, entry s (i, fd) = None) → (∀ fd, (i, fd) ∉ X) →
  fd_inv X d (pupd i f s).
Proof.
  intros [I1 I2 I3 I4 I5 I6 I7 I8] Ho He HX.
  assert (∀ p, p_ofile (pr p (pupd i f s)) = p_ofile (pr p s)) as Hof by (intros p; destruct (pr_pupd i f s p) as [->|(_ & -> & _)]; auto).
  assert (∀ x, entry (pupd i f s) x = entry s x) as Hen by (intros x; unfold entry; by rewrite Hof). split.
  - done.
  - by rewrite length_pupd.
  - intros p. rewrite Hof. apply I3.
  - intros j Hj. change (fl j (pupd i f s)) with (fl j s). rewrite I4 by done. do 2 f_equal. unfold live. f_equal. apply filter_same. intros x _. by rewrite Hen.
  - intros x j. rewrite Hen. apply I5.
  - done.
  - intros p fd Hd. rewrite Hen. destruct (decide (p = i)) as [->|Hne]; [done|]. rewrite pr_pupd_ne in Hd by done. by apply I7.
  - intros p fd Hin. assert (p ≠ i) as Hne by (intros ->; by apply (HX fd)). rewrite pr_pupd_ne by done. by apply I8 with fd.
Qed.

Section calls.
Context `{KernelImage} (me fuel : nat) (ex : bool) (Hme : (me < nproc)%nat).

Lemma quiet_die g d s i f : quiet me g d s → i = me ∨ dead (pr i (since g)) →
  (∀ p, p_ofile (f p) = p_ofile p) → (∀ fd, entry s (i, fd) = None) → (∀ fd, (i, fd) ∉ stale g) → quiet me g d (pupd i f s).
Proof.
  intros (HX & Hl & I & Ho) Hi Hf He HiX. split; [done|]. split; [done|]. split; [by apply fd_inv_die|].
  eapply others_step; [|exact Ho]. intros q Hq Hd. apply pr_pupd_ne. intros ->. by destruct Hi.
Qed.

(** A slot of the table that has just been found unused. *)
Record fresh (g : scene) (i : nat) (s : kernel) : Prop := {
  fr_lt : (i < nproc)%nat;
  fr_me : i ≠ me;
  fr_entry : ∀ fd, entry s (i, fd) = None;
  fr_X : ∀ fd, (i, fd) ∉ stale g;
  fr_since : dead (pr i (since g));
}.

Lemma fresh_view g i s s' : same_view s s' → fresh g i s → fresh g i s'.
Proof. intros V [H1 H2 H3 H4 H5]. split; try done. intros fd. unfold entry. rewrite (sv_ofile _ _ V). apply H3. Qed.

Lemma calm_kfree pa : calm (on_mem (kfree pa)).
Proof. apply calm_on_mem, atomic_kfree. Qed.

Lemma freeproc_fresh g i s : quiet me g none s → fresh g i s →
  keeps me ex g (λ _ g' s', g' = g ∧ quiet me g none s') (freeproc i s).
Proof.
  intros Hq Hf. unfold freeproc. unfold mbind at 1, M_bind at 1, gets. cbn [res_bind].
  unfold mbind at 1, M_bind at 1. apply keeps_calm_bind; [apply calm_when, calm_kfree|]. intros _ s1 V1.
  unfold mbind at 1, M_bind at 1. apply keeps_calm_bind; [apply calm_when, calm_on_mem, atomic_proc_freepagetable|]. intros _ s2 V2.
  assert (same_view s s2) as V by (by eapply same_view_trans). apply (fresh_view g i s s2 V) in Hf.
  split; [done|]. apply quiet_die; [by eapply quiet_view|right; apply Hf|done|apply Hf|apply Hf].
Qed.

Lemma allocproc_scan_keeps g s :
  keeps me ex g (λ r g' s', g' = g ∧ same_view s s' ∧ ∀ i, r = Some i → (i < nproc)%nat ∧ p_state (pr i s') = UNUSED)
    (loop (S nproc) allocproc_scan 0%nat s).
Proof.
  apply (keeps_loop me ex (λ _ g' s', g' = g ∧ same_view s s')); [|by split; [|apply same_view_refl]]. intros i ? s1 [-> V1]. unfold allocproc_scan.
  destruct (bool_decide (i < nproc)%nat) eqn:Ei; [|done]. apply bool_decide_eq_true in Ei. unfold mbind at 1, M_bind at 1.
  apply keeps_calm_bind; [apply calm_acquire_proc|]. intros _ s2 V2. unfold mbind at 1, M_bind at 1, get. cbn [res_bind].
  assert (same_view s s2) as V by (by eapply same_view_trans).
  destruct (bool_decide (p_state (pr i s2) = UNUSED)) eqn:Es.
  - apply bool_decide_eq_true in Es. cbn. split; [done|]. split; [done|]. by intros ? [= <-].
  - unfold mbind, M_bind. apply keeps_calm_bind; [apply calm_release_proc|]. intros _ s3 V3. cbn. split; [done|]. by eapply same_view_trans.
Qed.

(** A new process that has no descriptors yet, or nothing. *)
Definition proc_made (g : scene) (s : kernel) (r : option nat) (g' : scene) (s' : kernel) : Prop :=
  match r with
  | None => shared me g' ∅ s'
  | Some i => g' = g ∧ quiet me g none s' ∧ fresh g i s' ∧ ¬ dead (pr i s') ∧ (dead (pr me s') → dead (pr me s))
  end.

Lemma allocproc_fail g i s0 s : quiet me g none s → fresh g i s →
  keeps me ex g (proc_made g s0) ((freeproc i;; release_proc i;; mret None) s).
Proof.
  intros Hq Hf. unfold mbind, M_bind. apply (keeps_bind _ _ _ _ _ _ _ (freeproc_fresh g i s Hq Hf)). intros _ ? s1 [-> Hq1].
  apply keeps_calm_bind; [apply calm_release_proc|]. intros _ s2 V. cbn. apply shared_quiet. by eapply quiet_view.
Qed.

(** What a thread knows of a new process between two calm pieces of code. *)
Definition making (g : scene) (i : nat) (s0 s : kernel) : Prop :=
  quiet me g none s ∧ fresh g i s ∧ ¬ dead (pr i s) ∧ (dead (pr me s) → dead (pr me s0)).

Lemma making_view g i s0 s s' : same_view s s' → making g i s0 s → making g i s0 s'.
Proof.
  intros V (H1 & H2 & H3 & H4). split; [by eapply quiet_view|]. split; [by eapply fresh_view|].
  split; [intros Hd; by apply H3, (sv_dead _ _ V)|]. intros Hd. by apply H4, (sv_dead _ _ V).
Qed.

(** Making a process live. *)
Lemma making_start g i s0 s f : quiet me g none s → fresh g i s → (dead (pr me s) → dead (pr me s0)) →
  (∀ p, p_ofile (f p) = p_ofile p) → (∀ p, ¬ dead (f p)) → making g i s0 (pupd i f s).
Proof.
  intros Hq Hf Hd Ho Hn. assert (same_view s (pupd i f s)) as V by (apply view_pupd; [done|]; intros p Hp; by apply Hn in Hp).
  split; [by eapply quiet_view|]. split; [by eapply fresh_view|]. split.
  - rewrite pr_pupd_eq; [apply Hn|]. rewrite (fi_procs _ _ _ (quiet_inv _ _ _ _ Hq)). apply Hf.
  - rewrite pr_pupd_ne by (intros ->; by apply (fr_me _ _ _ Hf)). done.
Qed.

Lemma allocproc_keeps g s : quiet me g none s → ¬ dead (pr me s) → keeps me ex g (proc_made g s) (allocproc s).
Proof.
  intros Hq Hd. unfold allocproc. unfold mbind at 1, M_bind at 1. apply (keeps_bind _ _ _ _ _ _ _ (allocproc_scan_keeps g s)).
  intros r ? s1 (-> & V1 & Hr). assert (quiet me g none s1) as Hq1 by (by eapply quiet_view).
  destruct r as [i|]; [|cbn; by apply shared_quiet]. destruct (Hr i eq_refl) as [Hi Hst]. assert (dead (pr i s1)) as Hdi by (by left).
  assert (fresh g i s1) as Hf1.
  { pose proof (quiet_inv _ _ _ _ Hq1) as I. destruct Hq1 as (_ & _ & _ & Ho). split; [done| |intros fd; by apply (fi_dead _ _ _ I)|..].
    - intros ->. by apply Hd, (sv_dead _ _ V1).
    - intros fd Hin. by destruct (fi_stale _ _ _ I i fd Hin).
    - destruct (decide (dead (pr i (since g)))) as [|Hn]; [done|]. destruct (Ho i) as [_ Hn']; [|done|done]. intros ->. by apply Hd, (sv_dead _ _ V1). }
  unfold mbind at 1, M_bind at 1. apply keeps_calm_bind; [apply calm_allocpid|]. intros pid s2 V2.
  unfold mbind at 1, M_bind at 1, modify. cbn [res_bind]. set (s3 := pupd i _ s2).
  assert (making g i s s3) as Hm.
  { apply making_start; [by eapply quiet_view|by eapply fresh_view| |done|by intros p [|]].
    intros Hdd. by apply (sv_dead _ _ V1), (sv_dead _ _ V2). }
  assert (∀ s' f, making g i s s' → (∀ p, p_ofile (f p) = p_ofile p) → (∀ p, p_state (f p) = p_state p) → making g i s (pupd i f s')) as Hupd.
  { intros s' f Hm' Ho Hs. eapply making_view; [|exact Hm']. apply view_pupd; [done|]. intros p. unfold dead. by rewrite Hs. }
  clearbody s3. unfold mbind at 1, M_bind at 1. apply keeps_calm_bind; [apply calm_on_mem, atomic_kalloc|]. intros tf s4 V4.
  apply (making_view _ _ _ _ _ V4) in Hm. unfold mbind at 1, M_bind at 1, modify. cbn [res_bind].
  apply (Hupd _ (set_trapframe tf)) in Hm; [|done..]. destruct (tf =? 0).
  { apply allocproc_fail; apply Hm. }
  unfold mbind at 1, M_bind at 1. apply keeps_calm_bind; [apply calm_on_mem, atomic_proc_pagetable|]. intros pt s5 V5.
  apply (making_view _ _ _ _ _ V5) in Hm. unfold mbind at 1, M_bind at 1, modify. cbn [res_bind].
  apply (Hupd _ (set_pagetable pt)) in Hm; [|done..]. destruct (pt =? 0).
  { apply allocproc_fail; apply Hm. }
  unfold mbind at 1, M_bind at 1, modify. cbn [res_bind]. apply (Hupd _ (set_forkret true)) in Hm; [|done..]. by split.
Qed.

(** ** fork *)

Record forking (g : scene) (np k : nat) (s : kernel) : Prop := {
  fk_quiet : quiet me g none s;
  fk_lt : (np < nproc)%nat;
  fk_me : np ≠ me;
  fk_entry : ∀ fd, (k ≤ fd)%nat → entry s (np, fd) = None;
  fk_X : ∀ fd, (np, fd) ∉ stale g;
  fk_since : dead (pr np (since g));
  fk_live : ¬ dead (pr np s);
}.

Lemma forking_view g np k s s' : same_view s s' → forking g np k s → forking g np k s'.
Proof.
  intros V [H1 H2 H3 H4 H5 H6 H7]. split; try done; [by eapply quiet_view| |intros Hd; by apply H7, (sv_dead _ _ V)].
  intros fd. unfold entry. rewrite (sv_ofile _ _ V). apply H4.
Qed.

Lemma fork_files_keeps g np s : forking g np 0 s → keeps me ex g (λ _ g' s', g' = g ∧ forking g np NOFILE s') (fork_files me np s).
Proof using Hme.
  intros Hf. unfold fork_files.
  apply (keeps_loop me ex (λ k g' s', g' = g ∧ (k ≤ NOFILE)%nat ∧ forking g np k s')); [|by split_and!; [|lia|]]. clear Hf s. intros k ? s (-> & Hk & Hf). unfold fork_files_body.
  destruct (bool_decide (k < NOFILE)%nat) eqn:Ek.
  2: { apply bool_decide_eq_false in Ek. assert (k = NOFILE) as -> by lia. done. }
  apply bool_decide_eq_true in Ek. unfold mbind at 1, M_bind at 1, get. cbn [res_bind].
  assert (forking g np (S k) s) as Hskip by (destruct Hf; split; try done; intros fd Hfd; apply fk_entry0; lia).
  destruct (p_ofile (pr me s) !! k) as [[f|]|] eqn:Ef; [|by split_and!; [|lia|]..].
  assert (entry s (me, k) = Some f) as He by (unfold entry; cbn [fst snd]; by rewrite Ef).
  destruct (fk_quiet _ _ _ _ Hf) as (HX & Hl & I & Hoth).
  destruct (entry_ref (stale g) s (me, k) f I (my_slot me Hme k Ek) (HX k) He) as [Hfl Href].
  unfold mbind at 1 2, M_bind at 1 2. destruct (filedup_ok (stale g) _ s f I Hl Hfl Href) as (s1 & E1 & I1 & Hl1 & Hp1). rewrite E1. cbn [res_bind].
  unfold modify. cbn [res_bind]. set (s2 := pupd np _ s1).
  assert (np < length (procs s1))%nat as Hlen by (rewrite Hp1, (fi_procs _ _ _ I); apply Hf).
  pose proof (slot_set_pupd np k (Some f) s1 Hlen) as V2. fold s2 in V2.
  assert (∀ p, pr p s1 = pr p s) as Hpr by (intros p; unfold pr; by rewrite Hp1).
  cbn. split; [done|]. split; [lia|]. destruct Hf as [Hq H2 H3 H4 H5 Hsince H6].
  assert ((np, k) ∈ all_slots) as Hin by (by apply elem_slots).
  split; try done.
  - split; [done|]. split; [by rewrite (ss_lock _ _ _ _ V2)|]. split.
    2: { eapply others_step; [|exact Hoth]. intros q Hq' Hl'. rewrite (ss_other _ _ _ _ V2), Hpr; [done|]. cbn [fst]. by intros ->. }
    eapply fd_inv_ext; [|eapply (fd_inv_open (stale g) _ s1 s2 (np, k) _ I1 V2 Hin f)]; try done.
    + intros j. unfold bump, none. case_decide; lia.
    + unfold entry. cbn [fst snd]. rewrite Hpr. apply H4. lia.
    + cbn [fst]. by rewrite Hpr.
  - intros fd Hfd. unfold entry. cbn [fst snd]. pose proof (ss_ofile _ _ _ _ V2) as Ho. cbn [fst snd] in Ho. rewrite Ho, Hpr.
    rewrite list_lookup_insert_ne by lia. apply H4. lia.
  - pose proof (ss_state _ _ _ _ V2) as Hst. cbn [fst] in Hst. unfold dead. rewrite Hst, Hpr. done.
Qed.

Lemma idup_view ip g s (Q : nat → scene → kernel → Prop) :
  (∀ a s', same_view s s' → Q a g s') → keeps me ex g Q (on_fs me fuel (λ _ _ _, idup ip) s).
Proof. intros HQ. unfold on_fs, run_in. apply inside_nosleep; [apply atomic_idup|]. intros; apply HQ, framed_fs. Qed.

Lemma fork_keeps g s : shared me g ∅ s → ¬ dead (pr me s) → keeps me ex g (λ _ g s', shared me g ∅ s') (fork fuel me s).
Proof using Hme.
  intros Hs Hd. apply shared_quiet in Hs as Hq. unfold fork. unfold mbind at 1, M_bind at 1.
  apply (keeps_bind _ _ _ _ _ _ _ (allocproc_keeps g s Hq Hd)). intros [np|] ? s1 Hm; [|done]. destruct Hm as (-> & Hm).
  unfold mbind at 1, M_bind at 1, get. cbn [res_bind]. unfold mbind at 1, M_bind at 1.
  apply keeps_calm_bind; [apply calm_on_mem, atomic_uvmcopy|]. intros r s2 V2.
  assert (making g np s s1) as Hm' by exact Hm. apply (making_view _ _ _ _ _ V2) in Hm'. destruct (r <? 0).
  { unfold mbind, M_bind. apply (keeps_bind _ _ _ _ _ _ _ (freeproc_fresh g np s2 (proj1 Hm') (proj1 (proj2 Hm')))). intros _ ? s3 [-> Hq3].
    apply keeps_calm_bind; [apply calm_release_proc|]. intros _ s4 V. cbn. apply shared_quiet. by eapply quiet_view. }
  unfold mbind at 1, M_bind at 1, modify. cbn [res_bind].
  assert (forking g np 0 (pupd np (set_sz (p_sz (pr me s1))) s2)) as Hf.
  { apply (forking_view g np 0 s2); [by apply view_pupd|]. destruct Hm' as (H1 & H2 & H3 & _). split; try done; try apply H2. intros fd _. apply H2. }
  generalize dependent (pupd np (set_sz (p_sz (pr me s1))) s2). intros s3 Hf.
  unfold mbind at 1, M_bind at 1. apply keeps_calm_bind; [apply calm_on_mem, atomic_mmove|]. intros _ s4 V4.
  unfold mbind at 1, M_bind at 1. apply keeps_calm_bind; [apply calm_on_mem, atomic_store64|]. intros _ s5 V5.
  assert (forking g np 0 s5) as Hf5 by (eapply forking_view; [|exact Hf]; by eapply same_view_trans).
  unfold mbind at 1, M_bind at 1. apply (keeps_bind _ _ _ _ _ _ _ (fork_files_keeps g np s5 Hf5)). intros _ ? s6 [-> Hf6].
  destruct (p_cwd (pr me s1)) as [ip|]; [|done]. unfold mbind at 1, M_bind at 1.
  apply (keeps_bind me ex (λ _ g' s', g' = g ∧ same_view s6 s')); [by apply idup_view|]. intros cwd ? s7 [-> V7].
  eapply keeps_calm; [|intros a s' V; apply shared_quiet; eapply quiet_view; [exact (same_view_trans _ _ _ V7 V)|apply Hf6]].
  calm; apply calm_modify; intros ?; first [by apply view_pupd|apply view_pupd; [done|by intros p [|]]].
Qed.

(** ** exit *)

(** The descriptors below [fd] have been closed. *)
Definition closing (fd : nat) (g : scene) (s : kernel) : Prop :=
  (fd ≤ NOFILE)%nat ∧ shared me g ∅ s ∧ ¬ dead (pr me s) ∧ ∀ fd', (fd' < fd)%nat → entry s (me, fd') = None.

(** Clearing the descriptor of a file that has been closed. *)
Lemma clear_stale fd g s : shared me g {[(me, fd)]} s → (fd < NOFILE)%nat →
  shared me g ∅ (pupd me (λ p, set_ofile (<[fd := None]> (p_ofile p)) p) s).
Proof using Hme.
  intros (Hl & HX & I & Ho) Hfd. assert (me < length (procs s))%nat as Hlen by (rewrite (fi_procs _ _ _ I); done).
  pose proof (slot_set_pupd me fd None s Hlen) as V. apply shared_quiet. split; [done|]. split; [by rewrite (ss_lock _ _ _ _ V)|]. split.
  - eapply (fd_inv_clear _ _ s _ (me, fd) None I V); [by apply elem_slots|done|].
    intros y. rewrite elem_of_union, elem_of_singleton. naive_solver.
  - eapply others_step; [|exact Ho]. intros q Hq _. by apply (ss_other _ _ _ _ V).
Qed.

(** A file closed whose descriptor is not cleared yet. *)
Lemma close_stale fd f g s : quiet me g none s → (fd < NOFILE)%nat → entry s (me, fd) = Some f → ¬ dead (pr me s) →
  ∃ s1, procs s1 = procs s ∧ shared me g {[(me, fd)]} s1 ∧ keeps me true g (λ _ g' s', post me {[(me, fd)]} s1 g' s') (fileclose me fuel f s).
Proof using Hme.
  intros Hq Ef He Hd. pose proof Hq as (HX & Hl & I & Ho).
  destruct (entry_ref (stale g) s (me, fd) f I (my_slot me Hme fd Ef) (HX fd) He) as [Hfl Href].
  destruct (fileclose_ok me fuel (stale g) _ s f I Hl Hfl Href) as (s1 & ff & _ & I1 & Hl1 & Hp1 & _ & E1).
  assert (∀ p, pr p s1 = pr p s) as Hpr by (intros p; unfold pr; by rewrite Hp1).
  assert (shared me g {[(me, fd)]} s1) as Hs1.
  { split; [done|]. split; [done|]. split; [|by eapply others_procs]. rewrite union_comm_L.
    eapply fd_inv_ext; [|apply (fd_inv_stale (stale g) _ s1 (me, fd) f I1)].
    - intros j. unfold bump, none. case_decide; lia.
    - by apply elem_slots.
    - apply HX.
    - unfold entry. by rewrite Hpr.
    - cbn [fst]. by rewrite Hpr. }
  exists s1. split; [done|]. split; [done|]. rewrite E1. destruct (1 <? f_ref (fl f s)); [by apply post_refl|].
  apply close_object_keeps; [right; split; [done|by exists fd]|by apply post_refl].
Qed.

Lemma exit_files_keeps fd g s : closing fd g s →
  keeps me true g (λ x g' s', match x with inl fd' => closing fd' g' s' | inr _ => closing NOFILE g' s' end) (exit_files_body fuel me fd s).
Proof using Hme.
  intros (Hle & Hs & Hd & Hc). unfold exit_files_body. destruct (bool_decide (fd < NOFILE)%nat) eqn:Ef.
  2: { apply bool_decide_eq_false in Ef. assert (fd = NOFILE) as -> by lia. done. }
  apply bool_decide_eq_true in Ef. unfold mbind at 1, M_bind at 1, get. cbn [res_bind].
  assert (entry s (me, fd) = None → closing (S fd) g s) as Hnext.
  { intros He. split; [lia|]. split; [done|]. split; [done|]. intros fd' Hfd'. destruct (decide (fd' = fd)) as [->|]; [done|]. apply Hc. lia. }
  destruct (p_ofile (pr me s) !! fd) as [[f|]|] eqn:Eo; [|by apply Hnext; unfold entry; cbn [fst snd]; rewrite Eo..]. clear Hnext.
  assert (entry s (me, fd) = Some f) as He by (unfold entry; cbn [fst snd]; by rewrite Eo).
  destruct (close_stale fd f g s (proj1 (shared_quiet me _ _) Hs) Ef He Hd) as (s1 & Hp1 & Hs1 & Hk).
  assert (pr me s1 = pr me s) as Hpr by (unfold pr; by rewrite Hp1).
  unfold mbind at 1 2, M_bind at 1 2. eapply (keeps_bind me true (λ _ g' s', closing (S fd) g' s')); [|by intros _ ? s' Hs'].
  apply (keeps_bind _ _ _ _ _ _ _ Hk). intros _ g2 s2 [Hs2 [Ho Hdd]]. unfold modify. cbn. split; [lia|]. split; [by apply clear_stale|].
  assert (me < length (procs s2))%nat as Hlen by (destruct Hs2 as (_ & _ & I2 & _); by rewrite (fi_procs _ _ _ I2)).
  rewrite pr_pupd_eq by done. split; [rewrite <- Hpr in Hd; intros Hd2; by apply Hd, Hdd|].
  intros fd' Hfd'. unfold entry. cbn [fst snd]. rewrite pr_pupd_eq by done. cbn [p_ofile set_ofile]. rewrite Ho, Hpr.
  destruct (decide (fd' = fd)) as [->|Hne].
  - by rewrite list_lookup_insert_eq by (by eapply lookup_lt_Some).
  - rewrite list_lookup_insert_ne by done. apply Hc. lia.
Qed.

Lemma exit_end_keeps st g s (Q : unit → scene → kernel → Prop) :
  shared me g ∅ s → (∀ fd, entry s (me, fd) = None) → keeps me true g Q (exit_end me st s).
Proof.
  intros Hs He. unfold exit_end. unfold mbind at 1, M_bind at 1. apply keeps_calm_bind; [apply calm_acquire_wait|]. intros _ s1 V1.
  unfold mbind at 1, M_bind at 1. apply keeps_calm_bind; [apply calm_reparent|]. intros _ s2 V2.
  unfold mbind at 1, M_bind at 1, get. cbn [res_bind].
  unfold mbind at 1, M_bind at 1. apply keeps_calm_bind; [apply calm_wakeup|]. intros _ s3 V3.
  unfold mbind at 1, M_bind at 1. apply keeps_calm_bind; [apply calm_acquire_proc|]. intros _ s4 V4.
  assert (same_view s s4) as V by (do 3 (eapply same_view_trans; [eassumption|]); done).
  unfold mbind at 1, M_bind at 1, modify. cbn [res_bind].
  assert (shared me g ∅ (pupd me (λ p, set_state ZOMBIE (set_xstate st p)) s4)) as Hs4.
  { apply shared_quiet in Hs as Hq. apply shared_quiet. apply quiet_die; [by eapply quiet_view|by left|done| |apply Hq].
    intros fd. unfold entry. rewrite (sv_ofile _ _ V). apply He. }
  unfold mbind at 1, M_bind at 1. apply keeps_calm_bind; [apply calm_release_wait|]. intros _ s5 V5.
  unfold mbind, M_bind, sched. destruct (negb _); [done|]. destruct (negb _); [done|]. destruct (bool_decide _); [done|].
  cbn. exists ∅. split; [apply own_none|]. split; [by eapply shared_view|]. done.
Qed.

Lemma exit_keeps st g s (Q : unit → scene → kernel → Prop) : shared me g ∅ s → ¬ dead (pr me s) → keeps me true g Q (exit fuel me st s).
Proof using Hme.
  intros Hs Hd. unfold exit. unfold mbind at 1, M_bind at 1, get. cbn [res_bind]. destruct (bool_decide _); [done|].
  unfold mbind at 1, M_bind at 1. apply (keeps_bind me true (λ _ g' s', closing NOFILE g' s')).
  { apply (keeps_loop me true closing); [apply exit_files_keeps|]. split; [lia|]. split; [done|]. split; [done|]. lia. }
  intros _ g1 s1 (_ & Hs1 & _ & Hc). assert (post me ∅ s1 g1 s1) as H1 by (by apply post_refl).
  assert (∀ g' s', post me ∅ s1 g' s' → ∀ fd, entry s' (me, fd) = None) as Hclosed.
  { intros g' s' [Hs' [Ho _]] fd. destruct (decide (fd < NOFILE)%nat) as [Hfd|Hfd].
    - unfold entry. cbn [fst snd]. rewrite Ho. by apply (Hc fd).
    - unfold entry. cbn [fst snd]. rewrite lookup_ge_None_2; [done|]. destruct Hs' as (_ & _ & I & _). rewrite (fi_ofile _ _ _ I); [lia|done]. }
  pose proof (own_none me true) as Hown.
  unfold mbind at 1, M_bind at 1. apply (keeps_bind _ _ _ _ _ _ _ (begin_op_keeps me true fuel ∅ s1 g1 s1 Hown H1)). intros _ g2 s2 H2.
  unfold mbind at 1, M_bind at 1, get. cbn [res_bind]. destruct (p_cwd (pr me s2)) as [ip|]; [|done].
  unfold mbind at 1, M_bind at 1. eapply keeps_bind; [apply (on_fs_keeps me true fuel _ ∅ s1 g2 s2); [intros; apply tidy_iput|done|done]|]. intros ? g3 s3 H3.
  unfold mbind at 1, M_bind at 1. apply (keeps_bind _ _ _ _ _ _ _ (end_op_keeps me true fuel ∅ s1 g3 s3 Hown H3)). intros _ g4 s4 H4.
  unfold mbind at 1, M_bind at 1, modify. cbn [res_bind].
  assert (post me ∅ s1 g4 (pupd me (set_cwd None) s4)) as H5 by (eapply post_view; [|exact H4]; by apply view_pupd).
  apply exit_end_keeps; [apply H5|by eapply Hclosed].
Qed.

(** ** wait *)

(** Freeing the slot of a dead process. *)
Lemma freeproc_dead g i s : dead (pr i s) → keeps me ex g (λ _ g' s', g' = g ∧ same_view s s') (freeproc i s).
Proof.
  intros Hd. unfold freeproc. unfold mbind at 1, M_bind at 1, gets. cbn [res_bind].
  assert (∀ s' b c, same_view s s' → procs s' = procs s → atomic c →
    keeps me ex g (λ _ g' s'', g' = g ∧ same_view s s'' ∧ procs s'' = procs s) (when b (on_mem c) s')) as Hw.
  { intros s' b c V Hp Hc. destruct b; [|done]. apply on_mem_view; [apply Hc|]. intros a s'' V' Hp'. split; [done|]. split; [by eapply same_view_trans|congruence]. }
  unfold mbind at 1, M_bind at 1. eapply keeps_bind; [apply Hw; [apply same_view_refl|done|apply atomic_kfree]|]. intros ? ? s1 (-> & V1 & P1).
  unfold mbind at 1, M_bind at 1. eapply keeps_bind; [apply Hw; [done|done|apply atomic_proc_freepagetable]|]. intros ? ? s2 (-> & V2 & P2).
  unfold modify. cbn. split; [done|]. eapply same_view_trans; [exact V2|]. apply view_dead; [done|]. unfold pr. by rewrite P2.
Qed.

Lemma wait_scan_keeps addr st g s0 s : same_view s0 s →
  keeps me ex g (λ x g' s', g' = g ∧ same_view s0 s') (wait_scan me addr st s).
Proof.
  destruct st as [i kids]. intros V0. unfold wait_scan. destruct (bool_decide (i < nproc)%nat); [|done].
  unfold mbind at 1, M_bind at 1, get. cbn [res_bind]. destruct (bool_decide _); [|done].
  unfold mbind at 1, M_bind at 1. apply keeps_calm_bind; [apply calm_acquire_proc|]. intros _ s1 V1.
  assert (same_view s0 s1) as V by (by eapply same_view_trans).
  unfold mbind at 1, M_bind at 1, get. cbn [res_bind]. destruct (bool_decide (p_state (pr i s1) = ZOMBIE)) eqn:Ez.
  2: { unfold mbind, M_bind. apply keeps_calm_bind; [apply calm_release_proc|]. intros _ s2 V2. cbn. split; [done|]. by eapply same_view_trans. }
  apply bool_decide_eq_true in Ez. unfold mbind at 1, M_bind at 1.
  apply (keeps_bind me ex (λ _ g' s', g' = g ∧ same_view s1 s' ∧ procs s' = procs s1)).
  { destruct (negb (addr =? 0)); [|by split_and!; [|apply same_view_refl|]]. apply on_mem_view; [apply atomic_copyout|done]. }
  intros r ? s2 (-> & V2 & P2). assert (dead (pr i s2)) as Hd by (right; unfold pr; by rewrite P2).
  assert (∀ s' (a : nat * bool + option Z * bool), same_view s0 s' →
    keeps me ex g (λ x g' s', g' = g ∧ same_view s0 s') ((release_proc i;; release_wait;; mret a) s')) as Hrel.
  { intros s' a V'. eapply keeps_calm; [calm|]. intros ? ? ?. split; [done|]. by eapply same_view_trans. }
  assert (same_view s0 s2) as V02 by (by eapply same_view_trans).
  destruct (r <? 0); [by apply Hrel|]. unfold mbind at 1, M_bind at 1. apply (keeps_bind _ _ _ _ _ _ _ (freeproc_dead g i s2 Hd)). intros ? ? s3 [-> V3].
  apply Hrel. by eapply same_view_trans.
Qed.

Lemma wait_keeps addr g s : shared me g ∅ s → keeps me ex g (λ _ g s', shared me g ∅ s') (wait fuel me addr s).
Proof.
  intros Hs. unfold wait, mbind, M_bind. apply keeps_calm_bind; [apply calm_acquire_wait|]. intros _ s1 V1.
  apply (keeps_loop me ex (λ _ g s', shared me g ∅ s')); [|by eapply shared_view]. clear V1 Hs s s1 g. intros [] g s Hs. unfold wait_body.
  unfold mbind at 1, M_bind at 1. apply (keeps_bind me ex (λ _ g' s', g' = g ∧ same_view s s')).
  { apply (keeps_loop me ex (λ _ g' s', g' = g ∧ same_view s s')); [|by split; [|apply same_view_refl]].
    intros st ? s1 [-> V1]. eapply keeps_mono; [by apply wait_scan_keeps|]. by intros [?|?]. }
  intros [r kids] ? s1 [-> V1]. cbn [fst snd]. assert (shared me g ∅ s1) as Hs1 by (by eapply shared_view). destruct r as [pid|]; [done|].
  unfold mbind at 1, M_bind at 1. apply keeps_calm_bind; [destruct kids; [apply calm_killed|apply calm_ret]|]. intros k s2 V2.
  assert (shared me g ∅ s2) as Hs2 by (by eapply shared_view). destruct k.
  { unfold mbind, M_bind. apply keeps_calm_bind; [apply calm_release_wait|]. intros _ s3 V3. cbn. by eapply shared_view. }
  unfold mbind at 1, M_bind at 1. apply (keeps_bind me ex (λ _ g s', shared me g ∅ s')); [|by intros _ ? s']. unfold sleep.
  unfold mbind at 1, M_bind at 1. apply keeps_calm_bind; [apply calm_acquire_proc|]. intros _ s3 V3.
  unfold mbind at 1, M_bind at 1. apply keeps_calm_bind; [apply calm_release_wait|]. intros _ s4 V4.
  unfold mbind at 1, M_bind at 1, modify. cbn [res_bind].
  assert (shared me g ∅ (pupd me (λ p, set_state SLEEPING (set_chan (Some (ChProc me)) p)) s4)) as Hs4.
  { eapply shared_view; [|exact Hs2]. eapply same_view_trans; [exact V3|]. eapply same_view_trans; [exact V4|].
    apply view_pupd; [done|]. intros p. by intros [|]. }
  unfold mbind at 1, M_bind at 1, sched at 1. destruct (negb _); [done|]. destruct (negb _); [done|]. destruct (bool_decide _); [done|].
  cbn [keeps res_bind]. exists ∅. split; [apply own_none|]. split; [done|]. intros X' s5 Hs5 _.
  eapply keeps_calm; [|intros a s6 V6; by eapply shared_view]. calm. apply calm_modify. intros ?. by apply view_pupd.
Qed.
End calls.

(** * All processes together *)

(** The ways into the kernel that make or remove descriptors: system calls of the table
    [syscalls], and the exit of a process that was killed, from [usertrap]. *)
Inductive fdcall := CDup | CClose | CPipe | COpen | CFork | CWait | CExit | CKilled.

Definition call_code `{KernelImage} (me fuel : nat) (c : fdcall) : M kernel Z :=
  match c with
  | CDup => sys_dup me
  | CClose => sys_close me fuel
  | CPipe => sys_pipe me fuel
  | COpen => sys_open me fuel
  | CFork => sys_fork me fuel
  | CWait => sys_wait me fuel
  | CExit => sys_exit me fuel
  | CKilled => exit fuel me (-1);; mret 0
  end.

Definition is_exit (c : fdcall) : bool := match c with CExit | CKilled => true | _ => false end.

(** What a process is at: elsewhere, or asleep in a call with the rest of it to do. *)
Inductive thread := Away | Asleep (c : fdcall) (k : kernel → res kernel Z).

Definition in_exit (t : thread) : bool := match t with Asleep c _ => is_exit c | Away => false end.

Definition threads : Type := nat → thread.

(** The threads after a step of [me] from [s] to [s']: a process that has come to life starts
    outside of the calls. *)
Definition next_threads (me : nat) (t : thread) (T : threads) (s s' : kernel) : threads := λ q,
  if decide (q = me) then t else if decide (dead (pr q s) ∧ ¬ dead (pr q s')) then Away else T q.

(** A step of [me] in call [c] up to its next sleep or its return; none if the kernel stops. *)
Definition after_step (me : nat) (c : fdcall) (s : kernel) (T : threads) (r : res kernel Z) : option (kernel * threads) :=
  match r with
  | Ret _ s' => Some (s', next_threads me Away T s s')
  | Sleep _ s' k => Some (s', next_threads me (Asleep c k) T s s')
  | _ => None
  end.

(** Everything else: it may change all but what this is about. *)
Record elsewhere (s s' : kernel) : Prop := {
  el_lock : ft_locked s' = ft_locked s;
  el_files : length (files s') = length (files s);
  el_file : ∀ i, f_ref (fl i s') = f_ref (fl i s) ∧ f_type (fl i s') = f_type (fl i s);
  el_procs : length (procs s') = length (procs s);
  el_ofile : ∀ p, p_ofile (pr p s') = p_ofile (pr p s);
  el_dead : ∀ p, dead (pr p s') ↔ dead (pr p s);
}.

(** The code [r] that [me] runs next, in call [c]: a new call, or the rest of one. *)
Inductive runs_next `{KernelImage} (s : kernel) (T : threads) (me : nat) : fdcall → res kernel Z → Prop :=
| next_call fuel c : T me = Away → runs_next s T me c (call_code me fuel c s)
| next_rest c k : T me = Asleep c k → runs_next s T me c (k s).

Inductive step `{KernelImage} : kernel * threads → kernel * threads → Prop :=
| step_me me c r s T x : (me < nproc)%nat → ¬ dead (pr me s) → runs_next s T me c r → after_step me c s T r = Some x → step (s, T) x
| step_else s s' T : elsewhere s s' → step (s, T) (s', T).

Section system.
Context `{KernelImage}.

Lemma call_keeps me fuel c g s : (me < nproc)%nat → shared me g ∅ s → ¬ dead (pr me s) →
  keeps me (is_exit c) g (λ _ g s', shared me g ∅ s') (call_code me fuel c s).
Proof.
  intros Hme Hs Hd. destruct c; cbn [is_exit call_code].
  - by apply sys_dup_keeps.
  - by apply sys_close_keeps.
  - by apply sys_pipe_keeps.
  - by apply sys_open_keeps.
  - unfold sys_fork. by apply fork_keeps.
  - unfold sys_wait, mbind, M_bind. apply keeps_calm_bind; [apply calm_argaddr|]. intros p s' V. apply wait_keeps. by eapply shared_view.
  - unfold sys_exit, mbind, M_bind. apply keeps_calm_bind; [apply calm_argint|]. intros n s' V.
    apply (keeps_bind me true (λ _ _ _, False)); [|done]. apply exit_keeps; [done|by eapply shared_view|]. intros Hd'. by apply Hd, (sv_dead _ _ V).
  - apply (keeps_bind me true (λ _ _ _, False)); [|done]. by apply exit_keeps.
Qed.

(** The stale descriptors of all processes. *)
Definition stales (Y : nat → gset slot) : gset slot := ⋃ (Y <$> seq 0 nproc).

Lemma elem_stales Y x : x ∈ stales Y ↔ ∃ p, (p < nproc)%nat ∧ x ∈ Y p.
Proof.
  unfold stales. rewrite elem_of_union_list. setoid_rewrite list_elem_of_fmap. setoid_rewrite list_elem_of_In. setoid_rewrite in_seq.
  split; [intros (? & (p & -> & ?) & ?); exists p; split; [lia|done]|intros (p & ? & ?); exists (Y p); split; [exists p; split; [done|lia]|done]].
Qed.

(** Process [p], asleep since [s0], will keep the counts when it is resumed. *)
Definition resumable (p : nat) (c : fdcall) (k : kernel → res kernel Z) (Y : gset slot) (s0 : kernel) : Prop :=
  ∀ X' s', shared p (Scene X' s') Y s' → same_me p s0 s' → keeps p (is_exit c) (Scene X' s') (λ _ g s', shared p g ∅ s') (k s').

(** The invariant of the system: [Y p] is the stale descriptors of process [p]. *)
Record sys_inv (Y : nat → gset slot) (s : kernel) (T : threads) : Prop := {
  si_own : ∀ p, (p < nproc)%nat → own_stale p (in_exit (T p)) (Y p);
  si_lock : ft_locked s = false;
  si_count : fd_inv (stales Y) none s;
  si_rest : ∀ p c k, (p < nproc)%nat → ¬ dead (pr p s) → T p = Asleep c k → ∃ s0, same_me p s0 s ∧ resumable p c k (Y p) s0;
}.

Lemma own_slots me ex Y p fd : own_stale me ex Y → (p, fd) ∈ Y → p = me.
Proof. intros [->|(_ & fd' & ->)] Hin; [by apply elem_of_empty in Hin|]. apply elem_of_singleton in Hin. congruence. Qed.

(** The stale descriptors when those of [me] are [Y']. *)
Definition set_stale (me : nat) (Y' : gset slot) (Y : nat → gset slot) : nat → gset slot := λ q, if decide (q = me) then Y' else Y q.

Lemma stales_set me Y' Y : (me < nproc)%nat → stales (set_stale me Y' Y) = stales (set_stale me ∅ Y) ∪ Y'.
Proof.
  intros Hme. apply set_eq. intros x. rewrite elem_of_union, !elem_stales. unfold set_stale. split.
  - intros (p & Hp & Hin). case_decide; [by right|]. left. exists p. split; [done|]. by rewrite decide_False.
  - intros [(p & Hp & Hin)|Hin]; [|exists me; split; [done|]; by rewrite decide_True].
    case_decide; [by apply elem_of_empty in Hin|]. exists p. split; [done|]. by rewrite decide_False.
Qed.

Lemma stales_same me Y : stales (set_stale me (Y me) Y) = stales Y.
Proof. apply set_eq. intros x. rewrite !elem_stales. unfold set_stale. split; intros (p & Hp & Hin); exists p; case_decide; subst; done. Qed.

(** What a process starts a step from. *)
Lemma sys_shared Y s T p : sys_inv Y s T → (p < nproc)%nat → shared p (Scene (stales (set_stale p ∅ Y)) s) (Y p) s.
Proof.
  intros I Hp. split; [apply I|]. split; [|split; [|apply others_refl]]; cbn [stale since].
  - intros fd (q & Hq & Hin)%elem_stales. unfold set_stale in Hin. case_decide as Hqp; [by apply elem_of_empty in Hin|].
    pose proof (own_slots _ _ _ _ _ (si_own _ _ _ I q Hq) Hin). congruence.
  - rewrite <- stales_set, stales_same by done. apply I.
Qed.

(** What it does next keeps the counts. *)
Lemma next_keeps Y s T me c r : sys_inv Y s T → (me < nproc)%nat → ¬ dead (pr me s) → runs_next s T me c r →
  keeps me (is_exit c) (Scene (stales (set_stale me ∅ Y)) s) (λ _ g s', shared me g ∅ s') r.
Proof.
  intros I Hme Hd Hr. pose proof (sys_shared Y s T me I Hme) as Hs. pose proof (si_own _ _ _ I me Hme) as Hown. destruct Hr as [fuel c E|c k E].
  - rewrite E in Hown. destruct Hown as [Hown|[? _]]; [|done]. rewrite Hown in Hs. by apply call_keeps.
  - destruct (si_rest _ _ _ I me c k Hme Hd E) as (s0 & Hsame & Hk). by apply Hk.
Qed.

(** The state a step ends in. *)
Lemma step_inv Y Y' s T me t s' : sys_inv Y s T → (me < nproc)%nat →
  shared me (Scene (stales (set_stale me ∅ Y)) s) Y' s' → own_stale me (in_exit t) Y' →
  (∀ c k, t = Asleep c k → resumable me c k Y' s') → sys_inv (set_stale me Y' Y) s' (next_threads me t T s s').
Proof.
  intros I Hme (Hl & _ & Hc & Ho) Hown Hres. cbn [stale since] in *.
  assert (∀ p, (p < nproc)%nat → dead (pr p s) → Y p = ∅) as Hdead.
  { intros p Hp Hd. destruct (si_own _ _ _ I p Hp) as [->|(_ & fd & E)]; [done|]. exfalso.
    destruct (fi_stale _ _ _ (si_count _ _ _ I) p fd) as [_ Hn]; [|done]. apply elem_stales. exists p. split; [done|]. rewrite E. by apply elem_of_singleton. }
  split.
  - intros p Hp. unfold set_stale, next_threads. destruct (decide (p = me)) as [->|Hne]; [done|].
    case_decide as Hnew; [|by apply I]. left. by apply Hdead, Hnew.
  - done.
  - by rewrite stales_set.
  - intros p c k Hp Hd. unfold next_threads, set_stale. case_decide as Hpm; [subst p; intros Ht; exists s'; split; [by split|by apply Hres]|].
    case_decide as Hnew; [done|]. intros HT. assert (¬ dead (pr p s)) as Hds by tauto.
    destruct (si_rest _ _ _ I p c k Hp Hds HT) as (s0 & [H1 H2] & Hk). exists s0. split; [|done].
    destruct (Ho p Hpm Hds) as [H3 H4]. split; [by rewrite H3|done].
Qed.

Lemma fd_inv_elsewhere X d s s' : elsewhere s s' → fd_inv X d s → fd_inv X d s'.
Proof.
  intros V I. assert (∀ x, entry s' x = entry s x) as He by (intros x; unfold entry; by rewrite (el_ofile _ _ V)).
  destruct I as [I1 I2 I3 I4 I5 I6 I7 I8]. split.
  - by rewrite (el_files _ _ V).
  - by rewrite (el_procs _ _ V).
  - intros p Hp. rewrite (el_ofile _ _ V). by apply I3.
  - intros i Hi. rewrite (proj1 (el_file _ _ V i)), I4 by done. do 2 f_equal. unfold live. f_equal. apply filter_same. intros x _. by rewrite He.
  - intros x i. rewrite He. apply I5.
  - intros i Hi. rewrite (proj1 (el_file _ _ V i)), (proj2 (el_file _ _ V i)). by apply I6.
  - intros p fd Hd. rewrite He. by apply I7, (el_dead _ _ V).
  - intros p fd Hx. destruct (I8 p fd Hx) as [? Hn]. split; [done|]. intros Hd. by apply Hn, (el_dead _ _ V).
Qed.

(** The system's invariant is inductive. *)
Lemma sys_step Y x x' : sys_inv Y x.1 x.2 → step x x' → ∃ Y', sys_inv Y' x'.1 x'.2.
Proof.
  intros I Hstep. destruct Hstep as [me c r s T x Hme Hd Hr Hx|s s' T V]; cbn [fst snd] in *.
  - pose proof (next_keeps Y s T me c r I Hme Hd Hr) as Hk. destruct r as [a s'| | | |ch s' k]; try done; injection Hx as <-; cbn [fst snd].
    + exists (set_stale me ∅ Y). apply step_inv; [done|done|done|by left|done].
    + destruct Hk as (Y' & Hown & Hs & Hk). exists (set_stale me Y' Y). apply step_inv; [done|done|done|done|]. by intros ? ? [= <- <-].
  - exists Y. destruct I as [I1 I2 I3 I4]. split; [done|by rewrite (el_lock _ _ V)|by eapply fd_inv_elsewhere|].
    intros p c k Hp Hd HT. rewrite (el_dead _ _ V) in Hd. destruct (I4 p c k Hp Hd HT) as (s0 & [H1 H2] & Hk). exists s0. split; [|done].
    split; [by rewrite (el_ofile _ _ V)|]. intros Hd'. by apply H2, (el_dead _ _ V).
Qed.

Lemma sys_start s : ft_locked s = false → fd_inv ∅ none s → sys_inv (λ _, ∅) s (λ _, Away).
Proof.
  intros Hl I. split; [by left|done| |done]. replace (stales (λ _, ∅)) with (∅ : gset slot); [done|].
  symmetry. apply elem_of_equiv_empty_L. intros x (p & _ & Hin)%elem_stales. by apply elem_of_empty in Hin.
Qed.

Lemma sys_reach s T s' T' : rtc step (s, T) (s', T') → (∃ Y, sys_inv Y s T) → ∃ Y, sys_inv Y s' T'.
Proof.
  intros Hr. change (∃ Y, sys_inv Y s' T') with ((λ x, ∃ Y, sys_inv Y x.1 x.2) (s', T')). change (∃ Y, sys_inv Y s T) with ((λ x, ∃ Y, sys_inv Y x.1 x.2) (s, T)).
  induction Hr as [|x y z Hxy _ IH]; [done|]. intros [Y I]. apply IH. by eapply sys_step.
Qed.
End system.

(** C6. Reference counts of open files are right, whatever processes do.  From a state in
    which they are, let processes run in any order, each step up to a sleep or a return, in
    the calls that make or remove descriptors (dup, close, pipe, open, fork, wait, exit), and
    anything happen in between that leaves the tables of files and descriptors as they are
    ([elsewhere]).  In every state reached the file table is unlocked, and
    [ref] of every file is the number of descriptors that refer to it, not counting a set of
    stale ones; only a process asleep in exit has a stale descriptor, and at most one, the
    one it is closing.  So when no process is asleep in exit, every count is exactly the
    number of descriptors.  A file without references has no object; the file of a descriptor
    of a process that is not exiting has a reference; and no step of the calls fails the
    checks of the counts in filedup and fileclose.  Steps end where the kernel panics
    otherwise, faults, or exceeds the bound on rounds of a wait; the bound is arbitrary. *)
Theorem files_counted `{KernelImage} (s0 s : kernel) (T : threads) :
  ft_locked s0 = false → fd_inv ∅ none s0 → rtc step (s0, λ _, Away) (s, T) →
  ft_locked s = false ∧
  (∃ X : gset slot,
    (∀ p fd, (p, fd) ∈ X → in_exit (T p) = true) ∧ (∀ p fd fd', (p, fd) ∈ X → (p, fd') ∈ X → fd = fd') ∧
    ∀ i, (i < NFILE)%nat → f_ref (fl i s) = Z.of_nat (live X s i)) ∧
  ((∀ p, in_exit (T p) = false) → ∀ i, (i < NFILE)%nat → f_ref (fl i s) = Z.of_nat (live ∅ s i)) ∧
  (∀ i, (i < NFILE)%nat → f_ref (fl i s) = 0 → f_type (fl i s) = FD_NONE) ∧
  (∀ p fd f, (p < nproc)%nat → (fd < NOFILE)%nat → in_exit (T p) = false → entry s (p, fd) = Some f →
    (f < NFILE)%nat ∧ 1 ≤ f_ref (fl f s)) ∧
  (∀ me c r, (me < nproc)%nat → ¬ dead (pr me s) → runs_next s T me c r → r ≠ Panic "filedup" ∧ r ≠ Panic "fileclose").
Proof.
  intros Hl I0 Hr. destruct (sys_reach _ _ _ _ Hr (ex_intro _ _ (sys_start s0 Hl I0))) as [Y I].
  assert (∀ p fd, (p, fd) ∈ stales Y → in_exit (T p) = true ∧ Y p = {[(p, fd)]}) as HX.
  { intros p fd (q & Hq & Hin)%elem_stales. pose proof (own_slots _ _ _ _ _ (si_own _ _ _ I q Hq) Hin) as ->.
    destruct (si_own _ _ _ I q Hq) as [E|(E & fd' & EY)]; [rewrite E in Hin; by apply elem_of_empty in Hin|].
    split; [done|]. rewrite EY in Hin |- *. apply elem_of_singleton in Hin. congruence. }
  assert (∀ i, (i < NFILE)%nat → f_ref (fl i s) = Z.of_nat (live (stales Y) s i)) as Hcnt.
  { intros i Hi. rewrite (fi_count _ _ _ (si_count _ _ _ I) i Hi). unfold none. lia. }
  split_and!.
  - apply I.
  - exists (stales Y). split_and!; [intros p fd Hin; by apply (HX p fd)| |done]. intros p fd fd' H1 H2.
    destruct (HX _ _ H1) as [_ E1], (HX _ _ H2) as [_ E2]. rewrite E1 in E2. apply singleton_inj in E2. congruence.
  - intros Hno. replace (∅ : gset slot) with (stales Y); [done|]. apply elem_of_equiv_empty_L. intros [p fd] [E _]%HX. congruence.
  - apply (fi_none _ _ _ (si_count _ _ _ I)).
  - intros p fd f Hp Hfd Hno He. apply (entry_ref (stales Y) s (p, fd)); [apply I|by apply elem_slots| |done]. intros [E _]%HX. congruence.
  - intros me c r Hme Hd Hn. pose proof (next_keeps Y s T me c r I Hme Hd Hn) as Hk. by split; intros ->.
Qed.

(** One process with the console open three times. *)
Definition one_file : list file := File FD_DEVICE 3 true true 0 0 0 1 :: replicate 99 no_file.
Definition one_proc : list proc :=
  set_ofile ([Some 0%nat; Some 0%nat; Some 0%nat] ++ replicate 13 None) (set_state RUNNING no_proc) :: replicate 63 no_proc.
Definition one_running : kernel :=
  Kernel (KMem ∅ 0 ∅ false)
    (Fs (LogState (Bcache false [] (λ _, []) []) false 0 0 0 false 0 0 [] []) (Superblock 0 0 0 0 0 0 0 0) false [])
    (Console false [] 0 0 0 [] [] false) ∅ one_file false one_proc 2 false false (Some 1%nat) 0 false.

(** A second process that shares it, in a directory with an inode in memory. *)
Definition two_running : kernel :=
  set_fsys (Fs (store (fsys one_running)) (sb (fsys one_running)) false [Inode 1 1 2 initsleeplock false (Dinode 0 0 0 0 0 [])])
    (fupd 0 (set_fref 4) (pupd 1 (λ p, set_state RUNNING (set_ofile (Some 0%nat :: replicate 15 None) p)) (pupd 0 (set_cwd (Some 0%nat)) one_running))).

(** The invariant with no stale descriptors, as a check of the tables. *)
Definition fd_check (s : kernel) : bool :=
  bool_decide (length (files s) = NFILE) && bool_decide (length (procs s) = nproc) &&
  forallb (λ p, bool_decide (length (p_ofile (pr p s)) = NOFILE)) (seq 0 nproc) &&
  forallb (λ i, bool_decide (f_ref (fl i s) = Z.of_nat (live ∅ s i)) && bool_decide (f_ref (fl i s) = 0 → f_type (fl i s) = FD_NONE)) (seq 0 NFILE) &&
  forallb (λ x, match entry s x with Some i => bool_decide (i < NFILE)%nat && bool_decide (¬ dead (pr x.1 s)) | None => true end) all_slots.

Lemma fd_check_inv s : fd_check s = true → fd_inv ∅ none s.
Proof.
  unfold fd_check. rewrite !andb_true_iff, !forallb_forall. setoid_rewrite andb_true_iff. setoid_rewrite bool_decide_eq_true. setoid_rewrite in_seq.
  intros ((((H1 & H2) & H3) & H4) & H5).
  assert (∀ x i, entry s x = Some i → (i < NFILE)%nat ∧ ¬ dead (pr x.1 s)) as Hent.
  { intros [p fd] i He. specialize (H5 (p, fd)). rewrite He in H5. rewrite andb_true_iff, !bool_decide_eq_true in H5. apply H5.
    apply list_elem_of_In, elem_slots. unfold entry in He. cbn [fst snd] in He.
    destruct (decide (p < nproc)%nat) as [Hp|Hp].
    - split; [done|]. rewrite <- (H3 p) by lia. destruct (p_ofile (pr p s) !! fd) eqn:E; [|done]. by eapply lookup_lt_Some.
    - unfold pr in He. rewrite list_lookup_total_alt, (lookup_ge_None_2 (procs s)) in He by lia.
      change (mjoin (replicate NOFILE (@None nat) !! fd) = Some i) in He.
      destruct (replicate NOFILE (@None nat) !! fd) as [o|] eqn:E; [|done]. by apply lookup_replicate in E as [-> _]. }
  split; [done|done|intros p Hp; apply H3; lia| | | | |].
  - intros i Hi. rewrite (proj1 (H4 i ltac:(lia))). unfold none. lia.
  - intros x i He. by apply (Hent x).
  - intros i Hi. apply H4. lia.
  - intros p fd Hd. destruct (entry s (p, fd)) as [i|] eqn:E; [|done]. by destruct (Hent _ _ E) as [_ Hn].
  - intros p fd Hin. by apply elem_of_empty in Hin.
Qed.

(** Process 0 is killed: it closes its three descriptors and sleeps for good. *)
Definition one_exited : kernel := match @call_code Boot.small_machine 0 3 CKilled two_running with Sleep _ s _ => s | _ => two_running end.

Lemma one_exit_step : ∃ T, rtc (@step Boot.small_machine) (two_running, λ _, Away) (one_exited, T).
Proof.
  assert (match @call_code Boot.small_machine 0 3 CKilled two_running with Sleep _ _ _ => true | _ => false end = true) as Hs by (vm_compute; reflexivity).
  pose proof (@next_call Boot.small_machine two_running (λ _, Away) 0 3 CKilled eq_refl) as Hn. unfold one_exited.
  destruct (call_code 0 3 CKilled two_running) as [| | | |c s k]; try discriminate Hs. eexists. apply rtc_once.
  eapply step_me; [| |exact Hn|reflexivity]; [unfold nproc, NPROC; lia|]. vm_compute. by intros [|].
Qed.

Lemma files_counted_witness : f_ref (fl 0 one_exited) = 1 ∧ f_type (fl 1 one_exited) = FD_NONE.
Proof.
  destruct one_exit_step as [T Hr].
  destruct (@files_counted Boot.small_machine two_running one_exited T eq_refl ltac:(apply fd_check_inv; vm_compute; reflexivity) Hr) as (_ & _ & _ & Hnone & _).
  split; [vm_compute; reflexivity|]. apply Hnone; [unfold NFILE; lia|vm_compute; reflexivity].
Defined.

(** * wakeup

    Lock by lock, against its effect on the whole process table, which is what the layers
    below the process table are embedded with. *)

Lemma pupd_pupd i f g s : pupd i f (pupd i g s) = pupd i (f ∘ g) s.
Proof. unfold pupd, set_procs. cbn. by rewrite list_alter_alter_eq. Qed.

Lemma pupd_same i f s : f (pr i s) = pr i s → pupd i f s = s.
Proof.
  intros E. unfold pupd. replace (alter f i (procs s)) with (procs s); [by destruct s|].
  apply list_eq. intros j. destruct (decide (i = j)) as [<-|Hne]; [|by rewrite list_lookup_alter_ne].
  rewrite list_lookup_alter_eq. destruct (procs s !! i) as [p|] eqn:Hp; [|done].
  unfold pr in E. rewrite (list_lookup_total_correct _ _ _ Hp) in E. simpl. by rewrite E.
Qed.

Lemma pupd_ext i f g s : f (pr i s) = g (pr i s) → pupd i f s = pupd i g s.
Proof.
  intros E. unfold pupd. f_equal. apply list_eq. intros j.
  destruct (decide (i = j)) as [<-|Hne]; [|by rewrite !list_lookup_alter_ne].
  rewrite !list_lookup_alter_eq. destruct (procs s !! i) as [p|] eqn:Hp; [|done].
  unfold pr in E. rewrite (list_lookup_total_correct _ _ _ Hp) in E. simpl. by rewrite E.
Qed.

Section wakeup.
Context (me : nat) (c : chan).

(** The locks of the whole table are free, except perhaps the caller's. *)
Definition unlocked (s : kernel) : Prop :=
  length (procs s) = nproc ∧ ∀ i p, procs s !! i = Some p → i ≠ me → p_locked p = false.

Lemma wakeup_one s i :
  unlocked s → (i < nproc)%nat → wakeup_body me (Some c) i s = Ret (inl (S i)) (pupd i (woken_by me c i) s).
Proof.
  intros [Hlen Hun] Hi. unfold wakeup_body. rewrite bool_decide_eq_true_2 by done.
  destruct (decide (i = me)) as [->|Hne].
  { rewrite bool_decide_eq_false_2 by (intros E; by apply E). msimpl.
    rewrite pupd_same; [done|]. unfold woken_by. rewrite decide_False; [done|]. by intros [? _]. }
  rewrite bool_decide_eq_true_2 by done. msimpl.
  assert (p_locked (pr i s) = false) as Hl.
  { destruct (lookup_lt_is_Some_2 (procs s) i) as [p Hp]; [lia|]. unfold pr.
    rewrite (list_lookup_total_correct _ _ _ Hp). by apply (Hun i). }
  unfold acquire_proc, acquire_flag. rewrite Hl. msimpl. rewrite !pr_pupd_eq by lia.
  change (p_state (set_plocked true (pr i s))) with (p_state (pr i s)).
  change (p_chan (set_plocked true (pr i s))) with (p_chan (pr i s)).
  assert (∀ p, p_locked p = false → set_plocked false (set_plocked true p) = p) as Hback by (by intros [] [=->]).
  unfold release_proc, release_flag. destruct (decide (p_state (pr i s) = SLEEPING ∧ p_chan (pr i s) = Some c)) as [Hs|Hs].
  - rewrite bool_decide_eq_true_2 by done. cbn [when]. msimpl. rewrite !pupd_pupd, pr_pupd_eq by lia. cbn [compose p_locked set_state set_plocked res_bind].
    f_equal. apply pupd_ext. unfold woken_by. rewrite decide_True by (split; [done|exact Hs]).
    destruct (pr i s); simpl in *; by subst.
  - rewrite bool_decide_eq_false_2 by done. cbn [when]. msimpl. rewrite pupd_pupd, pr_pupd_eq by lia. cbn [compose p_locked set_state set_plocked res_bind].
    f_equal. apply pupd_ext. unfold woken_by. rewrite decide_False by (by intros [_ ?]). by apply Hback.
Qed.

Lemma unlocked_pupd i s : unlocked s → unlocked (pupd i (woken_by me c i) s).
Proof.
  intros [Hlen Hun]. split; [by etransitivity; [apply length_alter|]|]. intros j p Hp Hne.
  change (alter (woken_by me c i) i (procs s) !! j = Some p) in Hp. destruct (decide (i = j)) as [<-|Hj]; [|rewrite list_lookup_alter_ne in Hp by done; by apply (Hun j)].
  rewrite list_lookup_alter_eq in Hp. apply fmap_Some in Hp as (q & Hq & ->).
  pose proof (Hun i q Hq Hne). unfold woken_by. by case_decide.
Qed.

Lemma wakeup_from n : ∀ k s, (k + n = nproc)%nat → unlocked s →
  loop (S n) (wakeup_body me (Some c)) k s =
    Ret tt (set_procs (imap (λ i p, if decide (k ≤ i)%nat then woken_by me c i p else p) (procs s)) s).
Proof.
  induction n as [|n IH]; intros k s Hk Hun; pose proof Hun as [Hlen _].
  - rewrite (loop_done _ _ _ tt s s) by (unfold wakeup_body; by rewrite bool_decide_eq_false_2 by lia).
    f_equal. replace (imap _ (procs s)) with (procs s); [by destruct s|].
    apply list_eq. intros j. rewrite list_lookup_imap. destruct (procs s !! j) as [p|] eqn:Hp; [|done].
    apply lookup_lt_Some in Hp. simpl. rewrite decide_False by lia. done.
  - rewrite (loop_next _ _ _ _ _ _ (wakeup_one s k Hun ltac:(lia))).
    rewrite IH by (lia || by apply unlocked_pupd). f_equal. unfold pupd, set_procs. cbn.
    f_equal. apply list_eq. intros j. rewrite !list_lookup_imap. destruct (decide (k = j)) as [<-|Hj].
    + rewrite list_lookup_alter_eq. destruct (_ !! k); [|done]. simpl. by rewrite decide_False, decide_True by lia.
    + rewrite list_lookup_alter_ne by done. destruct (_ !! j); [|done]. simpl. f_equal.
      by destruct (decide (S k ≤ j)%nat), (decide (k ≤ j)%nat); (lia || done).
Qed.

(** [wakeup], which goes through the process table taking and releasing one lock at a
    time, has the effect of one step on the table: exactly the processes other than the
    caller that sleep on the channel become runnable, every other entry and every lock is as
    before.  It always terminates and never panics when the locks are free. *)
Lemma wakeup_is_wake s : unlocked s → wakeup me (Some c) s = Ret tt (wake me c s).
Proof. intros Hun. unfold wakeup. by rewrite (wakeup_from nproc 0) by done. Qed.

End wakeup.

(** Process 3 sleeps on the channel of process 0, process 5 on another. *)
Definition two_asleep : kernel :=
  pupd 5 (λ p, set_state SLEEPING (set_chan (Some (ChProc 1)) p))
    (pupd 3 (λ p, set_state SLEEPING (set_chan (Some (ChProc 0)) p)) one_running).

Lemma wakeup_is_wake_witness : ∃ s', wakeup 0 (Some (ChProc 0)) two_asleep = Ret tt s' ∧
  p_state (pr 3 s') = RUNNABLE ∧ p_state (pr 5 s') = SLEEPING.
Proof.
  eexists. split; [apply (wakeup_is_wake 0 (ChProc 0) two_asleep)|vm_compute; split; reflexivity].
  split; [vm_compute; reflexivity|]. intros i p Hp _.
  assert (forallb (λ p, negb (p_locked p)) (procs two_asleep) = true) as Hall by (vm_compute; reflexivity).
  rewrite forallb_forall in Hall. apply negb_true_iff, Hall, list_elem_of_In, (list_elem_of_lookup_2 _ i), Hp.
Defined.
