(* ===== verification/TrapProps.v ===== *)
(** [usertrap] of kernel/trap.c on page faults of user programs: a store to a copy-on-write
    page is resolved and the program goes on; any other fault stops the kernel. *)

From S2P Require Import Prelude Mem Riscv Kalloc Vm PageTable AddrSpace Cow CowFault CowInv Uvm ForkInv CopyOut Boot Kernel Proc Trap FileRefs FdProc.

(** * Pages of the kernel *)

Section kpage.
Context `{KernelImageOk}.

(** A page in use that is neither a page of a table nor a page of user memory, like the page
    of a trap frame. *)
Definition kernel_page (s : kmem) (As : list aspace) (x : Z) : Prop :=
  is_page x ∧ 0 < refs s x ∧ (∀ j B, As !! j = Some B → ¬ pt_page (as_pt B) x) ∧ ∀ ia, ¬ maps s As x ia.

(** What processes see is the same. *)
Definition same_user (s s' : kmem) (As : list aspace) : Prop :=
  ∀ j B va, As !! j = Some B → 0 ≤ va < MAXVA → upage B (PGROUNDDOWN va) → ubyte s' (as_pt B) va = ubyte s (as_pt B) va.

Section write.
Context (s : kmem) (As : list aspace) (l : list Z) (x : Z) (m' : mem).
Hypothesis I : cow_inv s As l.
Hypothesis K : kernel_page s As x.
Hypothesis Hm : same_outside x (ram s) m'.

Lemma kpage_pt j B : As !! j = Some B →
  pt_ok (set_ram m' s) (as_root B) (as_pt B) ∧ ∀ va, 0 ≤ va → pte_of (set_ram m' s) (as_pt B) va = pte_of s (as_pt B) va.
Proof.
  intros HB. pose proof (ci_pt _ _ _ I j B HB) as Hok. destruct K as (Hx & _ & Hn & _).
  assert (∀ a, in_pages (as_pt B) a → rd (ram (set_ram m' s)) a = rd (ram s) a) as Ha.
  { intros a (p & Hp & Hpa). apply Hm. pose proof (pt_page_is_page _ _ _ _ Hok Hp) as Hpp.
    destruct (decide (p = x)) as [->|Hne]; [by destruct (Hn j B HB)|]. destruct (is_page_disjoint p x Hpp Hx Hne); lia. }
  split; [by apply (pt_ok_frame s)|]. intros. by eapply pte_of_frame.
Qed.

Lemma kpage_maps y ia : maps (set_ram m' s) As y ia → maps s As y ia.
Proof.
  intros (B & HB & Hb & E). exists B. split; [done|]. split; [done|].
  destruct (kpage_pt ia.1 B HB) as [_ Hp]. rewrite <- Hp; [done|apply Hb].
Qed.

Lemma kpage_inv : cow_inv (set_ram m' s) As l.
Proof.
  assert (∀ j B va, As !! j = Some B → 0 ≤ va → pte_of (set_ram m' s) (as_pt B) va = pte_of s (as_pt B) va) as Hpte
    by (intros j B va HB; by apply (kpage_pt j)).
  destruct K as (Hx & Hr & _). constructor; try apply I.
  - split; [|apply (ci_inv _ _ _ I)]. destruct (ci_inv _ _ _ I) as [Hf _].
    apply free_ok_set_ram; [done|]. intros q Hq a Ha. apply Hm.
    pose proof (inv_pages _ _ Hf) as Hp. rewrite Forall_forall in Hp.
    destruct (is_page_disjoint q x (Hp _ Hq) Hx); [|lia..]. intros ->. by apply (in_use_not_free s l x); [|lia|].
  - intros j B HB. by apply (kpage_pt j).
  - intros j B va HB Hb. rewrite (Hpte j) by (done || apply Hb). by apply (ci_leaf _ _ _ I j).
  - intros y ia Hy. apply (ci_page _ _ _ I y ia). by apply kpage_maps.
  - intros j B va HB Hva. rewrite (Hpte j) by (done || lia). by apply (ci_user _ _ _ I j).
  - intros y ia L Hnd HL. apply (ci_count _ _ _ I y ia L Hnd). intros ib Hib. by apply kpage_maps, HL.
  - intros y j B va kb HB Hy Hk Hw. apply kpage_maps in Hy, Hk. apply (ci_priv _ _ _ I y j B va); try done.
    rewrite <- (Hpte j); [done|done|]. destruct Hy as (? & _ & Hb & _). apply Hb.
Qed.

Lemma kpage_stays : kernel_page (set_ram m' s) As x.
Proof. destruct K as (Hx & Hr & Hn & Hu). split_and!; try done. intros ia Hi. by apply (Hu ia), kpage_maps. Qed.

Lemma kpage_same_user : same_user s (set_ram m' s) As.
Proof.
  intros j B va HB Hva Hu. unfold ubyte. destruct (kpage_pt j B HB) as [_ ->]; [|lia]. apply Hm.
  pose proof (PGROUNDDOWN_props va ltac:(lia)) as (? & ? & ?). destruct K as (Hx & _ & _ & Hun).
  rewrite (pte_of_same_page s (as_pt B) va (PGROUNDDOWN va)) by (unfold PGSIZE in *; (lia || zdm)).
  assert (maps s As (PTE2PA (pte_of s (as_pt B) (PGROUNDDOWN va))) (j, PGROUNDDOWN va)) as Hmp by (by exists B).
  destruct (ci_page _ _ _ I _ _ Hmp) as (Hpg & _ & _).
  destruct (is_page_disjoint _ x Hpg Hx); [intros E; rewrite E in Hmp; by apply (Hun _ Hmp)|unfold PGSIZE in *; zdm..].
Qed.

End write.
End kpage.

(** * The trap *)

Section trap.
Context `{KernelImageOk} (me : nat) (running : bool) (fuel : nat).
Context (kernelvec uservec userret usertrap_addr plic_claim : Z) (plic_complete : Z → M hart unit) (virtio_disk_intr : M hart unit).

Local Abbreviation usertrap := (usertrap me running fuel kernelvec uservec userret usertrap_addr plic_claim plic_complete virtio_disk_intr).

(** A trap from the user program of process [me], whose address space is [A]. *)
Record from_user (h : hart) (As : list aspace) (l : list Z) (i : nat) (A : aspace) : Prop := {
  fu_proc : (me < length (procs (hk h)))%nat;
  fu_free : p_locked (pr me (hk h)) = false;
  fu_space : As !! i = Some A;
  fu_root : p_pagetable (pr me (hk h)) = as_root A;
  fu_inv : cow_inv (km (hk h)) As l;
  fu_frame : kernel_page (km (hk h)) As (p_trapframe (pr me (hk h)));
  fu_mode : Z.land (sstatus (hc h)) SSTATUS_SPP = 0;
  fu_sepc : 0 ≤ sepc (hc h) < 2 ^ 64;
}.

Definition with_km (m : kmem) (h : hart) : hart := Hart (set_km m (hk h)) (hc h) (hu h).

Lemma on_kmem_ret {A} (c : M kmem A) h a m :
  c (km (hk h)) = Ret a m → on_k (on_mem c) h = Ret a (with_km m h).
Proof. intros E. unfold on_k, on_mem, zoom. by rewrite E. Qed.

(** A field of the trap frame. *)
Lemma frame_store h As x o v :
  kernel_page (km (hk h)) As x → 0 ≤ o → o + 8 ≤ PGSIZE →
  on_k (on_mem (store64 (x + o) v)) h = Ret tt (with_km (set_ram (write64 (ram (km (hk h))) (x + o) v) (km (hk h))) h) ∧
  same_outside x (ram (km (hk h))) (write64 (ram (km (hk h))) (x + o) v).
Proof.
  intros (Hx & _) Ho Ho'. pose proof (is_page_range _ Hx) as (? & ? & ?). split.
  - apply on_kmem_ret, store64_ok; lia.
  - apply same_outside_write64; lia.
Qed.

Lemma killed_ret s : (me < length (procs s))%nat → p_locked (pr me s) = false → killed me s = Ret (p_killed (pr me s)) s.
Proof.
  intros Hme Hl. unfold killed. msimpl. unfold acquire_proc, release_proc, acquire_flag, release_flag. rewrite Hl. msimpl.
  rewrite pr_pupd_eq by done. cbn [p_locked set_plocked p_killed res_bind]. rewrite pupd_pupd, pupd_same; [done|].
  destruct (pr me s); simpl in *; by subst.
Qed.

(** The state when the cause is looked at: the program counter is saved. *)
Definition saved (h : hart) : hart :=
  Hart (set_km (set_ram (write64 (ram (km (hk h))) (p_trapframe (pr me (hk h)) + tf_epc) (sepc (hc h))) (km (hk h))) (hk h))
    (w_stvec kernelvec (hc h)) (hu h).

Lemma saved_from_user h As l i A : from_user h As l i A → from_user (saved h) As l i A.
Proof.
  intros [Hme Hl HA Hr I K Hm Hs].
  destruct (frame_store h As _ tf_epc (sepc (hc h)) K) as [_ Ho]; [unfold tf_epc, PGSIZE; lia..|].
  constructor; try done; [by apply (kpage_inv _ _ _ _ _ I K Ho)|by apply (kpage_stays _ _ _ _ _ I K Ho)].
Qed.

(** An exception that is not a system call. *)
Definition exception (c : Z) : Prop := c ≠ 8 ∧ c ≠ 0x8000000000000009 ∧ c ≠ 0x8000000000000005.

Lemma usertrap_exception h As l i A :
  from_user h As l i A → exception (scause (hc h)) →
  usertrap h =
    (if scause (hc h) =? 15 then
       r ← on_k (on_mem (cow_fault_handler (scause (hc h)) (as_root A) (stval (hc h))));
       if r =? -1 then panic "cow1" else usertrap_end me fuel uservec userret usertrap_addr 0
     else panic "cow2") (saved h).
Proof.
  intros [Hme Hl HA Hr I K Hm Hs] (H8 & H9 & H5). unfold Trap.usertrap, csr. msimpl.
  rewrite Hm. cbn [Z.eqb negb]. unfold csr_mod. msimpl.
  change (on_k (λ s : kernel, Ret (pr me s) s) ?x) with (Ret (pr me (hk x)) x). cbn [res_bind hk].
  destruct (frame_store (Hart (hk h) (w_stvec kernelvec (hc h)) (hu h)) As _ tf_epc (sepc (hc h)) K) as [E _];
    [unfold tf_epc, PGSIZE; lia..|].
  cbn [hc w_stvec sepc]. rewrite E. cbn [res_bind].
  change (with_km _ (Hart (hk h) (w_stvec kernelvec (hc h)) (hu h))) with (saved h).
  change (scause (hc (saved h))) with (scause (hc h)). change (stval (hc (saved h))) with (stval (hc h)).
  rewrite (proj2 (Z.eqb_neq _ 8)) by done. unfold devintr, csr. msimpl.
  change (scause (hc (saved h))) with (scause (hc h)).
  rewrite (proj2 (Z.eqb_neq _ 0x8000000000000009)), (proj2 (Z.eqb_neq _ 0x8000000000000005)) by done.
  cbn [res_bind Z.eqb negb]. rewrite Hr. destruct (scause (hc h) =? 15) eqn:E15; [|done].
  reflexivity.
Qed.

(** The return to user space writes only to the trap frame and resumes at the saved counter. *)
Lemma usertrapret_ok h As e :
  kernel_page (km (hk h)) As (p_trapframe (pr me (hk h))) →
  read64 (ram (km (hk h))) (p_trapframe (pr me (hk h)) + tf_epc) = e →
  ∃ mm c', usertrapret me uservec userret usertrap_addr h =
      Ret (u64 (TRAMPOLINE + (userret - trampoline)), MAKE_SATP (p_pagetable (pr me (hk h))))
        (Hart (set_km (set_ram mm (km (hk h))) (hk h)) c' (hu h)) ∧
    sepc c' = e ∧ same_outside (p_trapframe (pr me (hk h))) (ram (km (hk h))) mm.
Proof.
  intros (Hx & _) He. pose proof (is_page_range _ Hx) as (Hr0 & Hr1 & Hr2).
  unfold usertrapret, csr_mod, csr. msimpl.
  change (on_k (λ s : kernel, Ret (pr me s) s) ?x) with (Ret (pr me (hk x)) x). cbn [res_bind hk hc].
  set (x := p_trapframe (pr me (hk h))) in *.
  assert (∀ hh o v, 0 ≤ o → o + 8 ≤ PGSIZE → on_k (on_mem (store64 (x + o) v)) hh =
    Ret tt (with_km (set_ram (write64 (ram (km (hk hh))) (x + o) v) (km (hk hh))) hh)) as Hst.
  { intros hh o v Ho Ho'. apply on_kmem_ret, store64_ok; lia. }
  rewrite Hst by (unfold tf_kernel_satp, PGSIZE; lia). cbn [res_bind].
  rewrite Hst by (unfold tf_kernel_sp, PGSIZE; lia). cbn [res_bind].
  rewrite Hst by (unfold tf_kernel_trap, PGSIZE; lia). cbn [res_bind].
  rewrite Hst by (unfold tf_kernel_hartid, PGSIZE; lia). cbn [res_bind with_km hk hc hu km set_km set_ram ram].
  erewrite (on_kmem_ret (load64 (x + tf_epc))).
  2:{ apply load64_ok; unfold tf_epc, PGSIZE in *; lia. }
  cbn [res_bind with_km hk hc hu km set_km set_ram ram].
  eexists _, _. split; [reflexivity|]. split.
  - cbn [sepc w_sepc]. rewrite !read64_write64_ne by (unfold tf_epc, tf_kernel_satp, tf_kernel_sp, tf_kernel_trap, tf_kernel_hartid; lia). done.
  - intros a Ha. unfold tf_kernel_satp, tf_kernel_sp, tf_kernel_trap, tf_kernel_hartid, PGSIZE in *.
    rewrite !rd_write64_out by lia. done.
Qed.

(** C38. A page fault that is the program's own fault stops the whole kernel.  A store to a
    page that is mapped but not copy-on-write, such as a page of the program text, makes
    [usertrap] panic with cow1, and every exception other than a system call or a store
    fault (a load from an unmapped address, an illegal instruction) with cow2; the process
    is not killed and the others do not go on. *)
Theorem user_fault_panics h As l i A :
  from_user h As l i A →
  (scause (hc h) = 15 → 0 ≤ stval (hc h) < MAXVA → is_Some (pt_lookup (as_pt A) (PGROUNDDOWN (stval (hc h)))) →
   ¬ is_cow (pte_of (km (hk h)) (as_pt A) (PGROUNDDOWN (stval (hc h)))) → usertrap h = Panic "cow1") ∧
  (exception (scause (hc h)) → scause (hc h) ≠ 15 → usertrap h = Panic "cow2").
Proof.
  intros U. split.
  - intros E15 Hva Hs Hn. rewrite (usertrap_exception h As l i A U) by (rewrite E15; split_and!; done).
    rewrite E15. cbn [Z.eqb Pos.eqb]. pose proof (saved_from_user h As l i A U) as U1. pose proof U as [_ _ HA _ I K _ _].
    destruct (frame_store h As _ tf_epc (sepc (hc h)) K) as [_ Ho]; [unfold tf_epc, PGSIZE; lia..|].
    erewrite bind_ret_eq; [|apply on_kmem_ret, (cow_fault_handler_refuses _ _ (as_pt A)); [|done..|right]].
    + done.
    + apply (ci_pt _ _ _ (fu_inv _ _ _ _ _ U1) i A HA).
    + destruct (kpage_pt _ _ _ _ _ I K Ho i A HA) as [_ Hp].
      change (km (hk (saved h))) with (set_ram (write64 (ram (km (hk h))) (p_trapframe (pr me (hk h)) + tf_epc) (sepc (hc h))) (km (hk h))).
      rewrite Hp; [done|]. pose proof (PGROUNDDOWN_props (stval (hc h)) ltac:(lia)) as (? & ? & ?). unfold PGSIZE in *; zdm.
  - intros He Hne. rewrite (usertrap_exception h As l i A U He). by rewrite (proj2 (Z.eqb_neq _ 15)).
Qed.

(** The handler leaves a page of the kernel alone. *)
Lemma handler_kpage s As l i A va0 x s' l' y :
  cow_inv s As l → As !! i = Some A → upage A va0 → cow_resolved s (as_root A) (as_pt A) va0 x s' l' →
  kernel_page s As y →
  kernel_page s' As y ∧ ∀ a, y ≤ a < y + PGSIZE → rd (ram s') a = rd (ram s) a.
Proof.
  intros I HA Hu C (Hy & Hr & Hn & Hm).
  assert (maps s As (PTE2PA (pte_of s (as_pt A) va0)) (i, va0)) as Hmp by (by exists A).
  assert (y ≠ PTE2PA (pte_of s (as_pt A) va0)) as Hyp by (intros ->; by apply (Hm (i, va0))).
  assert (y ≠ x) as Hyx by (intros ->; destruct (cr_case _ _ _ _ _ _ _ C) as [[? _]|[? _]]; [done|lia]).
  split; [split_and!; try done|].
  - rewrite (cr_refs _ _ _ _ _ _ _ C y Hy Hyx), decide_False by done. lia.
  - intros ia Hi. destruct (fault_maps s As l i A va0 x s' l' I HA Hu C y ia Hi) as [[_ ?]|[_ ?]]; [done|by apply (Hm ia)].
  - intros a Ha. apply (cr_mem _ _ _ _ _ _ _ C).
    + apply (page_not_in_pages s (as_root A) (as_pt A) y); [by apply (ci_pt _ _ _ I i)|done|by apply (Hn i)|done].
    + destruct (is_page_disjoint y x Hy (cr_page _ _ _ _ _ _ _ C) Hyx); lia.
Qed.

(** The handler called by process [i] for a copy-on-write page at [va]. *)
Lemma handler_resolves s As l i A va scause y :
  cow_inv s As l → As !! i = Some A → 0 ≤ va < MAXVA → scause ≠ 13 → is_cow (pte_of s (as_pt A) va) → l ≠ [] →
  kernel_page s As y →
  ∃ s' l', cow_fault_handler scause (as_root A) va s = Ret 0 s' ∧ cow_inv s' As l' ∧
    uwritable (pte_of s' (as_pt A) va) = true ∧ bit (pte_of s' (as_pt A) va) 8 = false ∧ same_user s s' As ∧
    kernel_page s' As y ∧ ∀ a, y ≤ a < y + PGSIZE → rd (ram s') a = rd (ram s) a.
Proof.
  intros I HA Hva Hsc Hc Hl K. pose proof (PGROUNDDOWN_props va ltac:(lia)) as (? & ? & ?).
  assert (∀ s0, pte_of s0 (as_pt A) va = pte_of s0 (as_pt A) (PGROUNDDOWN va)) as Ep.
  { intros s0. apply pte_of_same_page; unfold PGSIZE in *; (lia || zdm). }
  assert (uvalid (pte_of s (as_pt A) va) = true) as Huv by (unfold uvalid; by destruct Hc as (_ & -> & ->)).
  pose proof (ci_user _ _ _ I i A va HA Hva Huv) as Hu. rewrite Ep in Hc.
  destruct (cow_fault_handler_ok s (as_root A) (as_pt A) l va scause) as (x & s' & l' & E & C & _); try done.
  { by apply (ci_pt _ _ _ I i). } { apply (ci_inv _ _ _ I). }
  { apply (upage_user_page s As l i A); try done. intros T ->%list_elem_of_singleton. eauto. }
  pose proof (fault_bits s As l i A _ x s' l' I HA Hu C) as Hb. destruct Hc as (Hc8 & Hc0 & Hc4).
  destruct (handler_kpage s As l i A _ x s' l' y I HA Hu C K) as [K' Hk].
  exists s', l'. rewrite Ep. unfold uwritable, uvalid. rewrite !Hb, Hc4 by lia.
  split; [done|]. split; [by apply (fault_inv s As l i A (PGROUNDDOWN va) x)|]. split_and!; try done.
  intros j B w HB Hw HuB. by apply (fault_view s As l i A _ x s' l' I HA Hu C j B w).
Qed.

(** C5. A store to a copy-on-write page, from the trap to the return.  When a user program
    that has not been killed writes to such a page and memory is left, [usertrap] returns
    to user space at the same instruction with the same page table; the page is now
    writable and the process's own, the process table is as before, no byte that any
    process sees has changed and the copy-on-write invariant of all processes holds. *)
Theorem usertrap_cow_store h As l i A :
  from_user h As l i A → scause (hc h) = 15 → 0 ≤ stval (hc h) < MAXVA → p_killed (pr me (hk h)) = false →
  is_cow (pte_of (km (hk h)) (as_pt A) (stval (hc h))) → l ≠ [] →
  ∃ h' l', usertrap h = Ret (u64 (TRAMPOLINE + (userret - trampoline)), MAKE_SATP (as_root A)) h' ∧
    sepc (hc h') = sepc (hc h) ∧ procs (hk h') = procs (hk h) ∧ cow_inv (km (hk h')) As l' ∧
    uwritable (pte_of (km (hk h')) (as_pt A) (stval (hc h))) = true ∧
    bit (pte_of (km (hk h')) (as_pt A) (stval (hc h))) 8 = false ∧ same_user (km (hk h)) (km (hk h')) As.
Proof.
  intros U E15 Hva Hk Hc Hl. rewrite (usertrap_exception h As l i A U) by (rewrite E15; split_and!; done).
  rewrite E15. cbn [Z.eqb Pos.eqb]. pose proof (saved_from_user h As l i A U) as U1.
  pose proof U as [_ _ HA Hroot I K _ Hs]. pose proof U1 as [Hme Hlk _ _ I1 K1 _ _].
  destruct (frame_store h As _ tf_epc (sepc (hc h)) K) as [_ Ho]; [unfold tf_epc, PGSIZE; lia..|].
  destruct (kpage_pt _ _ _ _ _ I K Ho i A HA) as [_ Hp].
  pose proof (kpage_same_user _ _ _ _ _ I K Ho) as Hsu. set (x := p_trapframe (pr me (hk h))) in *.
  change (p_trapframe (pr me (hk (saved h)))) with x in K1.
  change (set_ram (write64 (ram (km (hk h))) (x + tf_epc) (sepc (hc h))) (km (hk h))) with (km (hk (saved h))) in Hp, Hsu.
  rewrite <- Hp in Hc by lia.
  destruct (handler_resolves (km (hk (saved h))) As l i A (stval (hc h)) 15 x I1 HA Hva ltac:(done) Hc Hl K1)
    as (m2 & l2 & E2 & I2 & Hw2 & H82 & Hsu2 & K2 & Hin).
  erewrite bind_ret_eq; [|by apply on_kmem_ret]. cbn [Z.eqb]. unfold usertrap_end. msimpl.
  unfold on_k at 1, zoom. rewrite killed_ret by done. cbn [zoom_res res_bind].
  change (p_killed (pr me (hk (with_km m2 (saved h))))) with (p_killed (pr me (hk h))). rewrite Hk. cbn [res_bind Z.eqb].
  match goal with |- context [usertrapret _ _ _ _ ?hh] => destruct (usertrapret_ok hh As (sepc (hc h))) as (mm & c' & E3 & Ec & Ho3) end.
  { exact K2. }
  { cbn [hk km set_km with_km]. change (p_trapframe (pr me _)) with x. rewrite (read64_ext (ram (km (hk (saved h))))).
    - cbn. by apply read64_write64_eq.
    - intros a Ha. apply Hin. unfold tf_epc, PGSIZE in *. lia. }
  rewrite E3. eexists _, l2. split; [by rewrite <- Hroot|]. split; [exact Ec|]. split; [done|].
  destruct (kpage_pt _ _ _ _ _ I2 K2 Ho3 i A HA) as [_ Hp3]. cbn [hk km set_km].
  split; [apply (kpage_inv _ _ _ _ _ I2 K2 Ho3)|].
  split; [by etransitivity; [|exact Hw2]; f_equal; apply Hp3; lia|].
  split; [by etransitivity; [|exact H82]; f_equal; apply Hp3; lia|].
  pose proof (kpage_same_user _ _ _ _ _ I2 K2 Ho3) as Hsu3. intros j B va HB Hv Hu.
  etransitivity; [apply (Hsu3 j B va HB Hv Hu)|]. etransitivity; [apply (Hsu2 j B va HB Hv Hu)|apply (Hsu j B va HB Hv Hu)].
Qed.

End trap.

(** * A trap on the small machine *)

(** Process 0 runs in the address space at [root]; the store to address 0 faults. *)
Definition trap_hart (s : kmem) (root tf cause : Z) : hart :=
  Hart (set_km s (pupd 0 (λ p, set_pagetable root (set_trapframe tf p)) one_running))
    (Csrs 0 4096 cause 0 0 0 0 0 0) (Uart false [] 0 0 0 [] [] [] []).

Lemma trapped : ∃ s A B x l, (∀ c, from_user 0 (trap_hart s (as_root B) x c) [A; B] l 1 B) ∧
  is_cow (pte_of s (as_pt B) 0) ∧ l ≠ [].
Proof.
  destruct two_processes_room as (s & A & B & l & (I & _ & _ & _ & Hc & _) & Hl).
  destruct l as [|x [|y l]]; [simpl in Hl; lia..|].
  destruct (uvmcreate_cons s x (y :: l)) as (s1 & _ & Hz); [apply I|].
  destruct (child_fresh s [A; B] (y :: l) x s1 I Hz) as (I1 & Hch & Hmaps & Hpte & Hr).
  exists s1, A, B, x, (y :: l). split; [|split; [by rewrite (Hpte 1%nat B 0 eq_refl)|done]].
  intros c. constructor; try done.
  - simpl. lia.
  - change (kernel_page s1 [A; B] x). split; [apply Hz|]. split.
    + rewrite (z_ref _ _ _ _ Hz). lia.
    + split; [intros j C HC Hp; apply (ch_disj _ _ _ _ Hch j C HC x Hp)|intros ia Hm; apply (ch_page _ _ _ _ Hch x ia Hm)];
        by apply pt_page_empty.
Qed.

Lemma user_fault_panics_witness :
  ∃ h, scause (hc h) = 13 ∧ usertrap 0 false 1 0 0 0 0 0 (λ _, mret tt) (mret tt) h = Panic "cow2".
Proof.
  destruct trapped as (s & A & B & x & l & U & _). exists (trap_hart s (as_root B) x 13). split; [reflexivity|].
  apply (user_fault_panics 0 false 1 0 0 0 0 0 (λ _, mret tt) (mret tt) _ [A; B] l 1 B (U 13)); [|done].
  split; [done|]. split; done.
Defined.

Lemma usertrap_cow_store_witness :
  ∃ h h' B, usertrap 0 false 1 0 0 0 0 0 (λ _, mret tt) (mret tt) h = Ret (u64 (TRAMPOLINE + (0 - trampoline)), MAKE_SATP (as_root B)) h' ∧
    sepc (hc h') = 4096 ∧ uwritable (pte_of (km (hk h')) (as_pt B) 0) = true.
Proof.
  destruct trapped as (s & A & B & x & l & U & Hc & Hl).
  destruct (usertrap_cow_store 0 false 1 0 0 0 0 0 (λ _, mret tt) (mret tt) (trap_hart s (as_root B) x 15) [A; B] l 1 B (U 15))
    as (h' & l' & E & Es & _ & _ & Hw & _); [reflexivity|rewrite MAXVA_val; simpl; lia|reflexivity|exact Hc|exact Hl|].
  exists (trap_hart s (as_root B) x 15), h', B. split; [exact E|]. split; [exact Es|exact Hw].
Defined.
