(* ===== verification/Sh.v ===== *)
(** The shell, user/sh.c: the parser and the execution of commands.

    The parser walks over a line of text; its state is the text that is left (from [*ps] up
    to [es], where the NUL is).  A word is a pair of pointers into the line, [q] and [eq]:
    here the text from each of them on.  [Panic] is the shell's own [panic]: a message, and
    the child that parses the line exits.  [malloc] is taken to succeed. *)

From S2P Require Import Prelude Fdtable.

Definition MAXARGS : nat := 10.

(** * Characters *)

Definition c_lt : Z := 60.
Definition c_gt : Z := 62.
Definition c_bar : Z := 124.
Definition c_amp : Z := 38.
Definition c_semi : Z := 59.
Definition c_lp : Z := 40.
Definition c_rp : Z := 41.
Definition c_plus : Z := 43.
Definition c_a : Z := 97.

Definition whitespace : list Z := [32; 9; 13; 10; 11].
Definition symbols : list Z := [c_lt; c_bar; c_gt; c_amp; c_semi; c_lp; c_rp].

(** [strchr(l, c)], for a character that is not NUL *)
Definition mem_chr (c : Z) (l : list Z) : bool := bool_decide (c ∈ l).

(** * Commands *)

Record word := Word { wq : list Z; weq : list Z }.

Inductive cmd :=
| Exec (argv : list word)
| Redir (c : cmd) (file : word) (mode : Z) (fd : Z)
| PipeC (l r : cmd)
| ListC (l r : cmd)
| Back (c : cmd).


(** * Tokens *)

Fixpoint skip_ws (l : list Z) : list Z :=
  match l with
  | c :: r => if mem_chr c whitespace then skip_ws r else l
  | [] => []
  end.

(** The loop over the characters of a word. *)
Fixpoint skip_word (l : list Z) : list Z :=
  match l with
  | c :: r => if negb (mem_chr c whitespace) && negb (mem_chr c symbols) then skip_word r else l
  | [] => []
  end.

Definition gettoken : M (list Z) (Z * word) := λ l,
  let q := skip_ws l in
  let '(ret, s) :=
    match q with
    | [] => (0, [])
    | c :: r =>
        if mem_chr c [c_bar; c_lp; c_rp; c_semi; c_amp; c_lt] then (c, r)
        else if c =? c_gt then
          match r with
          | c' :: r' => if c' =? c_gt then (c_plus, r') else (c_gt, r)
          | [] => (c_gt, r)
          end
        else (c_a, skip_word q)
    end in
  Ret (ret, Word q s) (skip_ws s).

Definition peek (toks : list Z) : M (list Z) bool := λ l,
  let s := skip_ws l in
  Ret (match s with c :: _ => mem_chr c toks | [] => false end) s.

(** * The parser *)

(** A redirection, as wrapped around a command by [redircmd]. *)
Record redir := RedirTo { rfile : word; rmode : Z; rfd : Z }.

Definition redircmd (c : cmd) (r : redir) : cmd := Redir c (rfile r) (rmode r) (rfd r).

(** One round of [parseredirs]; the redirections found so far, in order. *)
Definition parseredirs_body (rs : list redir) : M (list Z) (list redir + list redir) :=
  b ← peek [c_lt; c_gt];
  if (b : bool) then
    t ← gettoken;
    f ← gettoken;
    if negb (f.1 =? c_a) then panic "missing file for redirection"
    else if t.1 =? c_lt then mret (inl (rs ++ [RedirTo f.2 O_RDONLY 0]))
    else if t.1 =? c_gt then mret (inl (rs ++ [RedirTo f.2 (Z.lor (Z.lor O_WRONLY O_CREATE) O_TRUNC) 1]))
    else mret (inl (rs ++ [RedirTo f.2 (Z.lor O_WRONLY O_CREATE) 1]))
  else mret (inr rs).

Definition parseredirs : M (list Z) (list redir) :=
  l ← get; loop (S (length l)) parseredirs_body [].

(** One round of the loop of [parseexec]: the arguments and the redirections so far. *)
Definition parseexec_body (st : list word * list redir) : M (list Z) (list word * list redir + list word * list redir) :=
  let '(argv, rs) := st in
  stop ← peek [c_bar; c_rp; c_amp; c_semi];
  if (stop : bool) then mret (inr (argv, rs))
  else
    t ← gettoken;
    if t.1 =? 0 then mret (inr (argv, rs))
    else if negb (t.1 =? c_a) then panic "syntax"
    else
      let argv := argv ++ [t.2] in
      if bool_decide (MAXARGS ≤ length argv)%nat then panic "too many args"
      else rs' ← parseredirs; mret (inl (argv, rs ++ rs')).

Definition parseargs : M (list Z) cmd :=
  rs ← parseredirs;
  l ← get;
  r ← loop (S (length l)) parseexec_body ([], rs);
  mret (foldl redircmd (Exec r.1) r.2).

(** The loop over '&'. *)
Definition back_body (c : cmd) : M (list Z) (cmd + cmd) :=
  b ← peek [c_amp];
  if (b : bool) then gettoken;; mret (inl (Back c)) else mret (inr c).

Fixpoint parseline (fuel : nat) : M (list Z) cmd :=
  match fuel with
  | O => λ _, NoFuel
  | S fuel =>
      c ← parsepipe fuel;
      l ← get;
      c ← loop (S (length l)) back_body c;
      b ← peek [c_semi];
      if (b : bool) then gettoken;; c' ← parseline fuel; mret (ListC c c') else mret c
  end
with parsepipe (fuel : nat) : M (list Z) cmd :=
  match fuel with
  | O => λ _, NoFuel
  | S fuel =>
      c ← parseexec fuel;
      b ← peek [c_bar];
      if (b : bool) then gettoken;; c' ← parsepipe fuel; mret (PipeC c c') else mret c
  end
with parseexec (fuel : nat) : M (list Z) cmd :=
  match fuel with
  | O => λ _, NoFuel
  | S fuel =>
      b ← peek [c_lp];
      if (b : bool) then parseblock fuel else parseargs
  end
with parseblock (fuel : nat) : M (list Z) cmd :=
  match fuel with
  | O => λ _, NoFuel
  | S fuel =>
      b ← peek [c_lp];
      if negb b then panic "parseblock"
      else
        gettoken;;
        c ← parseline fuel;
        b ← peek [c_rp];
        if negb b then panic "syntax - missing )"
        else gettoken;; rs ← parseredirs; mret (foldl redircmd c rs)
  end.

(** [parsecmd], up to the NULs; a depth of four calls per character is enough. *)
Definition parsecmd (line : list Z) : res (list Z) cmd :=
  (c ← parseline (4 * length line + 4);
   peek [];;
   l ← get;
   if bool_decide (l = []) then mret c else panic "syntax") line.

(** [nulterminate]: a NUL at the end of every word; [n] is the length of the line. *)
Definition nul_at (n : nat) (w : word) (buf : list Z) : list Z := <[(n - length (weq w))%nat := 0]> buf.

Fixpoint nulterminate (n : nat) (c : cmd) (buf : list Z) : list Z :=
  match c with
  | Exec argv => foldl (λ b w, nul_at n w b) buf argv
  | Redir c f _ _ => nul_at n f (nulterminate n c buf)
  | PipeC l r => nulterminate n r (nulterminate n l buf)
  | ListC l r => nulterminate n r (nulterminate n l buf)
  | Back c => nulterminate n c buf
  end.

(** * The parser always ends *)

(** The computation returns, with [Q], or panics. *)
Definition ends {S A} (Q : A → S → Prop) (r : res S A) : Prop :=
  match r with
  | Ret a s => Q a s
  | Panic _ => True
  | _ => False
  end.

Lemma ends_bind {S A B} (Q : A → S → Prop) (R : B → S → Prop) r (f : A → M S B) :
  ends Q r → (∀ a s, Q a s → ends R (f a s)) → ends R (res_bind r f).
Proof. destruct r; simpl; auto; done. Qed.

Lemma ends_mono {S A} (Q R : A → S → Prop) r : ends Q r → (∀ a s, Q a s → R a s) → ends R r.
Proof. destruct r; simpl; auto. Qed.

Lemma ends_loop {S A B} (I : A → S → Prop) (Q : B → S → Prop) (size : S → nat) (body : A → M S (A + B)) :
  (∀ a s, I a s → ends (λ r s', match r with inl a' => I a' s' ∧ (size s' < size s)%nat | inr b => Q b s' end) (body a s)) →
  ∀ fuel a s, I a s → (size s < fuel)%nat → ends Q (loop fuel body a s).
Proof.
  intros Hb fuel. induction fuel as [|fuel IH]; intros a s Ha Hs; [lia|]. rewrite loop_unfold.
  apply (ends_bind _ _ _ _ (Hb a s Ha)). intros [a'|b] s' Hr; [|done]. destruct Hr as [Ha' Hlt]. apply IH; [done|lia].
Qed.

Definition word_char (c : Z) : bool := negb (mem_chr c whitespace) && negb (mem_chr c symbols).

(** The text of a word. *)
Definition text (w : word) : list Z := take (length (wq w) - length (weq w)) (wq w).

Definition at_delim (l : list Z) : Prop := match l with [] => True | c :: _ => word_char c = false end.

(** A word of the line: characters of words from [q] up to a delimiter at [eq]. *)
Record word_ok (line : list Z) (w : word) : Prop := {
  wo_sfx : wq w `suffix_of` line;
  wo_split : wq w = text w ++ weq w;
  wo_chars : Forall (λ c, word_char c = true) (text w);
  wo_nonempty : text w ≠ [];
  wo_delim : at_delim (weq w);
}.

Fixpoint words (c : cmd) : list word :=
  match c with
  | Exec argv => argv
  | Redir c f _ _ => words c ++ [f]
  | PipeC l r => words l ++ words r
  | ListC l r => words l ++ words r
  | Back c => words c
  end.

(** The redirections are of standard input and output. *)
Fixpoint fds_ok (c : cmd) : Prop :=
  match c with
  | Exec _ => True
  | Redir c _ _ fd => fds_ok c ∧ 0 ≤ fd < 2
  | PipeC l r | ListC l r => fds_ok l ∧ fds_ok r
  | Back c => fds_ok c
  end.

Lemma skip_ws_sfx l : skip_ws l `suffix_of` l.
Proof. induction l as [|c l IH]; simpl; [done|]. destruct (mem_chr c whitespace); [by apply suffix_cons_r|done]. Qed.

Lemma skip_word_split l : ∃ ws, l = ws ++ skip_word l ∧ Forall (λ c, word_char c = true) ws ∧ at_delim (skip_word l).
Proof.
  induction l as [|c l IH]; simpl; [by exists []|]. destruct IH as (ws & E & Hw & Hd). fold (word_char c).
  destruct (word_char c) eqn:Ec; [|exists []; by split_and!].
  exists (c :: ws). simpl. rewrite <- E. split; [done|]. split; [by constructor|done].
Qed.

Lemma skip_ws_head l c r : skip_ws l = c :: r → mem_chr c whitespace = false.
Proof.
  induction l as [|d l IH]; simpl; [done|]. destruct (mem_chr d whitespace) eqn:E; [done|]. by intros [= <- <-].
Qed.

Lemma suffix_le {A} (l1 l2 : list A) : l1 `suffix_of` l2 → (length l1 ≤ length l2)%nat.
Proof. apply suffix_length. Qed.

(** What [gettoken] gives. *)
Lemma gettoken_ok line l : l `suffix_of` line → 0 ∉ line →
  ends (λ t l', l' `suffix_of` l ∧ (skip_ws l ≠ [] → (length l' < length l)%nat) ∧ (t.1 = c_a → word_ok line t.2) ∧ (t.1 = 0 ↔ skip_ws l = []))
    (gettoken l).
Proof.
  intros Hl H0. unfold gettoken. pose proof (skip_ws_sfx l) as Hq. destruct (skip_ws l) as [|c r] eqn:Eq.
  { simpl. split; [apply suffix_nil|]. split; [done|]. split; [|done]. done. }
  assert (∀ s', s' `suffix_of` r → skip_ws s' `suffix_of` l ∧ (length (skip_ws s') < length l)%nat) as Hs.
  { intros s' Hs'. assert (skip_ws s' `suffix_of` r) as Hr by (etrans; [apply skip_ws_sfx|done]). split.
    - etrans; [exact Hr|]. etrans; [|exact Hq]. by apply suffix_cons_r.
    - apply suffix_le in Hr, Hq. simpl in Hq. lia. }
  assert (c ≠ 0) as Hc0.
  { intros ->. apply H0. assert (0 :: r `suffix_of` line) as [k ->] by (by etrans). apply elem_of_app. right. left. }
  destruct (mem_chr c [c_bar; c_lp; c_rp; c_semi; c_amp; c_lt]) eqn:Esym; cbn [ends fst snd].
  { apply bool_decide_eq_true in Esym. destruct (Hs r ltac:(done)) as [? ?]. split_and!; try done. intros ->. exfalso. set_solver. }
  destruct (Z.eqb_spec c c_gt) as [->|Hgt].
  { destruct r as [|c' r']; [|destruct (c' =? c_gt)]; cbn [ends fst snd];
      (match goal with |- _ `suffix_of` _ ∧ _ => idtac end);
      [destruct (Hs [] ltac:(done)) as [? ?]|destruct (Hs r' ltac:(by apply suffix_cons_r)) as [? ?]|destruct (Hs (c' :: r') ltac:(done)) as [? ?]];
      split_and!; done. }
  destruct (skip_word_split (c :: r)) as (ws & Ews & Hw & Hd).
  assert (word_char c = true) as Ewc.
  { unfold word_char. rewrite (skip_ws_head _ _ _ Eq). simpl. apply negb_true_iff, bool_decide_eq_false. apply bool_decide_eq_false in Esym.
    unfold symbols. rewrite !not_elem_of_cons in Esym |- *. destruct_and! Esym. split_and!; try assumption. by rewrite list_elem_of_singleton. }
  destruct ws as [|c0 ws]; [exfalso; simpl in Ews, Hd; rewrite <- Ews in Hd; simpl in Hd; congruence|].
  assert (c0 = c ∧ r = ws ++ skip_word (c :: r)) as [-> Er]
    by (split; [symmetry; exact (f_equal (hd 0) Ews)|exact (f_equal (@tail Z) Ews)]).
  destruct (Hs (skip_word (c :: r))) as [Hs1 Hs2]; [exists ws; exact Er|].
  split; [done|]. split; [done|]. split; [|done]. intros _.
  assert (text (Word (c :: r) (skip_word (c :: r))) = c :: ws) as Et.
  { unfold text. cbn [wq weq]. rewrite Ews at 1 3. rewrite length_app, Nat.add_sub. by apply take_app_length'. }
  cbn [snd]. constructor; rewrite ?Et; cbn [wq weq]; try done. by etrans.
Qed.

Section total.
Context (line : list Z) (H0 : 0 ∉ line).

(** What every part of the parser keeps: it moves forward in the line. *)
Definition fwd (l l' : list Z) : Prop := l' `suffix_of` l.

Lemma peek_ok toks l (Q : bool → list Z → Prop) :
  (∀ b, (b = true → skip_ws l ≠ []) → Q b (skip_ws l)) → ends Q (peek toks l).
Proof. intros HQ. unfold peek. simpl. apply HQ. by destruct (skip_ws l). Qed.

Lemma skip_ws_idem l : skip_ws (skip_ws l) = skip_ws l.
Proof.
  destruct (skip_ws l) as [|c r] eqn:E; [done|]. simpl. by rewrite (skip_ws_head l c r E).
Qed.

(** A token that [peek] has seen. *)
Lemma token_ok l : l `suffix_of` line → skip_ws l ≠ [] →
  ends (λ t l', l' `suffix_of` line ∧ (length l' < length l)%nat ∧ l' `suffix_of` l ∧ (t.1 = c_a → word_ok line t.2)) (gettoken l).
Proof using H0.
  intros Hl Hne. apply (ends_mono _ _ _ (gettoken_ok line l Hl H0)). intros t l' (H1 & H2 & H3 & _). split_and!; auto. by etrans.
Qed.

Definition redirs_ok (rs : list redir) : Prop := Forall (λ r, word_ok line (rfile r) ∧ 0 ≤ rfd r < 2) rs.

Lemma parseredirs_ok l : l `suffix_of` line →
  ends (λ rs l', redirs_ok rs ∧ l' `suffix_of` line ∧ (length l' ≤ length l)%nat) (parseredirs l).
Proof using H0.
  intros Hl. unfold parseredirs. msimpl.
  apply (ends_loop (λ rs l', redirs_ok rs ∧ l' `suffix_of` line ∧ (length l' ≤ length l)%nat) _ length); [|by split_and!; [constructor| |]|lia].
  clear Hl. intros rs l1 (Hrs & Hl & Hle). unfold parseredirs_body, mbind, M_bind. pose proof (suffix_le _ _ (skip_ws_sfx l1)) as Hsk.
  assert (skip_ws l1 `suffix_of` line) as Hl1 by (etrans; [apply skip_ws_sfx|done]).
  apply (ends_bind (λ b l', l' = skip_ws l1 ∧ (b = true → l' ≠ []))); [by apply peek_ok|]. intros [|] l2 [-> Hne]; cbn [ends mret M_ret].
  - assert (skip_ws (skip_ws l1) ≠ []) as Hne' by (rewrite skip_ws_idem; by apply Hne).
    apply (ends_bind _ _ _ _ (token_ok (skip_ws l1) Hl1 Hne')). intros t l3 (Hl3 & Hlt & _ & _).
    apply (ends_bind _ _ _ _ (gettoken_ok line l3 Hl3 H0)). intros f l4 (Hl4 & _ & Hw & _).
    pose proof (suffix_le _ _ Hl4). assert (l4 `suffix_of` line) by (by etrans).
    destruct (Z.eqb_spec f.1 c_a) as [Ef|Ef]; cbn [negb]; [|done].
    assert (∀ m fd, 0 ≤ fd < 2 → redirs_ok (rs ++ [RedirTo f.2 m fd])) as Hrs' by (intros m fd Hfd; apply Forall_app; split; [done|]; apply Forall_singleton; split; [by apply Hw|done]).
    destruct (t.1 =? c_lt); [|destruct (t.1 =? c_gt)]; cbn; (split; [split_and!; [apply Hrs'; lia|done|lia]|lia]).
  - split_and!; [done|done|lia].
Qed.

Definition args_ok (ws : list word) : Prop := Forall (word_ok line) ws.

Lemma words_redirs rs : ∀ c, words (foldl redircmd c rs) = words c ++ (rfile <$> rs).
Proof. induction rs as [|r rs IH]; intros c; simpl; [by rewrite app_nil_r|]. rewrite IH. simpl. by rewrite <- app_assoc. Qed.

Lemma fds_redirs rs : redirs_ok rs → ∀ c, fds_ok c → fds_ok (foldl redircmd c rs).
Proof. induction 1 as [|r rs [_ Hr] _ IH]; intros c Hc; simpl; [done|]. by apply IH. Qed.

Definition cmd_ok (c : cmd) : Prop := args_ok (words c) ∧ fds_ok c.

(** The parsed part of the line. *)
Definition parsed (l : list Z) (c : cmd) (l' : list Z) : Prop :=
  cmd_ok c ∧ l' `suffix_of` line ∧ (length l' ≤ length l)%nat.

Lemma cmd_ok_2 l r : cmd_ok l → cmd_ok r → args_ok (words l ++ words r) ∧ fds_ok l ∧ fds_ok r.
Proof. intros [? ?] [? ?]. split; [by apply Forall_app|done]. Qed.

Lemma parsed_redirs l c rs l' : cmd_ok c → redirs_ok rs → l' `suffix_of` line → (length l' ≤ length l)%nat →
  parsed l (foldl redircmd c rs) l'.
Proof.
  intros [Hc Hf] Hrs Hl Hle. split; [|done]. split; [|by apply fds_redirs]. unfold args_ok. rewrite words_redirs. apply Forall_app.
  split; [done|]. apply Forall_fmap. apply (Forall_impl _ _ _ Hrs). by intros r [? ?].
Qed.

Lemma parseargs_ok l : l `suffix_of` line → ends (parsed l) (parseargs l).
Proof using H0.
  intros Hl. unfold parseargs, mbind, M_bind. apply (ends_bind _ _ _ _ (parseredirs_ok l Hl)). intros rs l1 (Hrs & Hl1 & Hle1).
  unfold get. cbn [res_bind].
  apply (ends_bind (λ r l', args_ok r.1 ∧ redirs_ok r.2 ∧ l' `suffix_of` line ∧ (length l' ≤ length l)%nat)).
  2: { intros [argv rs'] l2 (Ha & Hr & Hs & Hle). cbn. by apply parsed_redirs. }
  apply (ends_loop (λ r l', args_ok r.1 ∧ redirs_ok r.2 ∧ l' `suffix_of` line ∧ (length l' ≤ length l)%nat) _ length);
    [|by split_and!; [constructor| | |]|lia].
  clear Hl1 Hle1 Hrs rs l1. intros [argv rs] l1 (Ha & Hr & Hl1 & Hle). cbn [fst snd] in *. unfold parseexec_body, mbind, M_bind.
  pose proof (suffix_le _ _ (skip_ws_sfx l1)) as Hsk. assert (skip_ws l1 `suffix_of` line) as Hs1 by (etrans; [apply skip_ws_sfx|done]).
  apply (ends_bind (λ b l', l' = skip_ws l1)); [by apply peek_ok|]. intros [|] l2 ->; cbn [ends mret M_ret]; [split_and!; (done || lia)|].
  apply (ends_bind _ _ _ _ (gettoken_ok line (skip_ws l1) Hs1 H0)). intros t l3 (Hl3 & Hlt & Hw & Hz). rewrite skip_ws_idem in Hlt, Hz.
  pose proof (suffix_le _ _ Hl3). assert (l3 `suffix_of` line) as Hs3 by (by etrans).
  destruct (Z.eqb_spec t.1 0) as [Et|Et]; cbn [ends mret M_ret]; [split_and!; (done || lia)|].
  destruct (Z.eqb_spec t.1 c_a) as [Ea|Ea]; cbn [negb]; [|done]. case_bool_decide; [done|].
  assert (length l3 < length l1)%nat as Hshort by (assert (skip_ws l1 ≠ []) by tauto; specialize (Hlt ltac:(done)); lia).
  apply (ends_bind _ _ _ _ (parseredirs_ok l3 Hs3)). intros rs' l4 (Hrs' & Hl4 & Hle4). cbn.
  split; [|lia]. split_and!; [apply Forall_app; split; [done|]; apply Forall_singleton; by apply Hw|by apply Forall_app|done|lia].
Qed.

Lemma back_ok c l : cmd_ok c → l `suffix_of` line → ends (parsed l) (loop (S (length l)) back_body c l).
Proof using H0.
  intros Hc Hl. apply (ends_loop (λ c l', parsed l c l') _ length); [|by split_and!|lia]. clear Hc Hl c.
  intros c l1 (Hc & Hl1 & Hle). unfold back_body, mbind, M_bind. pose proof (suffix_le _ _ (skip_ws_sfx l1)) as Hsk.
  assert (skip_ws l1 `suffix_of` line) as Hs1 by (etrans; [apply skip_ws_sfx|done]).
  apply (ends_bind (λ b l', l' = skip_ws l1 ∧ (b = true → l' ≠ []))); [by apply peek_ok|]. intros [|] l2 [-> Hne]; cbn [ends mret M_ret].
  - assert (skip_ws (skip_ws l1) ≠ []) as Hne' by (rewrite skip_ws_idem; by apply Hne).
    apply (ends_bind _ _ _ _ (token_ok (skip_ws l1) Hs1 Hne')). intros t l3 (Hl3 & Hlt & _ & _). cbn. split; [|lia]. split_and!; [done..|lia].
  - split_and!; [done..|lia].
Qed.

(** A token that [peek] has just found, and what comes after it. *)
Lemma peek_token_ok {A} toks l (f : M (list Z) A) (g : M (list Z) A) (Q : A → list Z → Prop) : l `suffix_of` line →
  (∀ l', l' `suffix_of` line → (length l' < length l)%nat → ends Q (f l')) →
  (∀ l', l' `suffix_of` line → (length l' ≤ length l)%nat → ends Q (g l')) →
  ends Q (res_bind (peek toks l) (λ b, if (b : bool) then gettoken ;; f else g)).
Proof using H0.
  intros Hl Hf Hg. pose proof (suffix_le _ _ (skip_ws_sfx l)) as Hsk.
  assert (skip_ws l `suffix_of` line) as Hs1 by (etrans; [apply skip_ws_sfx|done]).
  apply (ends_bind (λ b l', l' = skip_ws l ∧ (b = true → l' ≠ []))); [by apply peek_ok|]. intros [|] l2 [-> Hne]; [|by apply Hg].
  assert (skip_ws (skip_ws l) ≠ []) as Hne' by (rewrite skip_ws_idem; by apply Hne).
  apply (ends_bind _ _ _ _ (token_ok (skip_ws l) Hs1 Hne')). intros t l3 (Hl3 & Hlt & _ & _). apply Hf; [done|lia].
Qed.

(** Each of the four parsers, with enough fuel for [n] characters. *)
Definition parses (p : nat → M (list Z) cmd) (extra n : nat) : Prop :=
  ∀ fuel l, l `suffix_of` line → (length l ≤ n)%nat → (4 * n + extra ≤ fuel)%nat → ends (parsed l) (p fuel l).

Lemma parsed_trans l l1 c l' : (length l1 ≤ length l)%nat → parsed l1 c l' → parsed l c l'.
Proof. intros ? (? & ? & ?). split_and!; [done..|lia]. Qed.

Lemma parseblock_ok n : (∀ m, (m < n)%nat → parses parseline 4 m) → parses parseblock 1 n.
Proof using H0.
  intros IH [|fuel] l Hl Hn Hfuel; [lia|]. cbn [parseblock]. unfold mbind, M_bind.
  pose proof (suffix_le _ _ (skip_ws_sfx l)) as Hsk. assert (skip_ws l `suffix_of` line) as Hs1 by (etrans; [apply skip_ws_sfx|done]).
  apply (ends_bind (λ b l', l' = skip_ws l ∧ (b = true → l' ≠ []))); [by apply peek_ok|]. intros [|] l2 [-> Hne]; [|done]. cbn [negb].
  assert (skip_ws (skip_ws l) ≠ []) as Hne' by (rewrite skip_ws_idem; by apply Hne).
  apply (ends_bind _ _ _ _ (token_ok (skip_ws l) Hs1 Hne')). intros t l3 (Hl3 & Hlt & _ & _).
  apply (ends_bind _ _ _ _ (IH (n - 1)%nat ltac:(lia) fuel l3 Hl3 ltac:(lia) ltac:(lia))). intros c l4 (Hc & Hl4 & Hle4).
  pose proof (suffix_le _ _ (skip_ws_sfx l4)) as Hsk4. assert (skip_ws l4 `suffix_of` line) as Hs4 by (etrans; [apply skip_ws_sfx|done]).
  apply (ends_bind (λ b l', l' = skip_ws l4 ∧ (b = true → l' ≠ []))); [by apply peek_ok|]. intros [|] l5 [-> Hne4]; [|done]. cbn [negb].
  assert (skip_ws (skip_ws l4) ≠ []) as Hne5 by (rewrite skip_ws_idem; by apply Hne4).
  apply (ends_bind _ _ _ _ (token_ok (skip_ws l4) Hs4 Hne5)). intros t' l6 (Hl6 & Hlt6 & _ & _).
  apply (ends_bind _ _ _ _ (parseredirs_ok l6 Hl6)). intros rs l7 (Hrs & Hl7 & Hle7). cbn. apply parsed_redirs; [done..|lia].
Qed.

Lemma parseexec_ok n : parses parseblock 1 n → parses parseexec 2 n.
Proof using H0.
  intros IH [|fuel] l Hl Hn Hfuel; [lia|]. cbn [parseexec]. unfold mbind, M_bind.
  pose proof (suffix_le _ _ (skip_ws_sfx l)) as Hsk. assert (skip_ws l `suffix_of` line) as Hs1 by (etrans; [apply skip_ws_sfx|done]).
  apply (ends_bind (λ b l', l' = skip_ws l)); [by apply peek_ok|]. intros [|] l2 ->.
  - apply (ends_mono (parsed (skip_ws l))); [apply IH; [done|lia..]|]. intros c l'. by apply parsed_trans.
  - apply (ends_mono (parsed (skip_ws l))); [by apply parseargs_ok|]. intros c l'. by apply parsed_trans.
Qed.

Lemma parsepipe_ok n : (∀ m, (m < n)%nat → parses parsepipe 3 m) → parses parseexec 2 n → parses parsepipe 3 n.
Proof using H0.
  intros IH Hx [|fuel] l Hl Hn Hfuel; [lia|]. cbn [parsepipe]. unfold mbind at 1, M_bind at 1.
  apply (ends_bind _ _ _ _ (Hx fuel l Hl Hn ltac:(lia))). intros c l1 (Hc & Hl1 & Hle1).
  apply (peek_token_ok [c_bar] l1 (c' ← parsepipe fuel; mret (PipeC c c')) (mret c)); [done| |].
  - intros l2 Hl2 Hlt. unfold mbind, M_bind.
    apply (ends_bind _ _ _ _ (IH (n - 1)%nat ltac:(lia) fuel l2 Hl2 ltac:(lia) ltac:(lia))). intros c' l3 (Hc' & Hl3 & Hle3).
    split_and!; [by apply cmd_ok_2|done|lia].
  - intros l2 Hl2 Hle2. split_and!; [done..|lia].
Qed.

Lemma parseline_step n : (∀ m, (m < n)%nat → parses parseline 4 m) → parses parsepipe 3 n → parses parseline 4 n.
Proof using H0.
  intros IH Hx [|fuel] l Hl Hn Hfuel; [lia|]. cbn [parseline]. unfold mbind at 1, M_bind at 1.
  apply (ends_bind _ _ _ _ (Hx fuel l Hl Hn ltac:(lia))). intros c l1 (Hc & Hl1 & Hle1).
  unfold mbind at 1, M_bind at 1. unfold get. cbn [res_bind]. unfold mbind at 1, M_bind at 1.
  apply (ends_bind _ _ _ _ (back_ok c l1 Hc Hl1)). intros c1 l2 (Hc1 & Hl2 & Hle2).
  apply (peek_token_ok [c_semi] l2 (c' ← parseline fuel; mret (ListC c1 c')) (mret c1)); [done| |].
  - intros l3 Hl3 Hlt. unfold mbind, M_bind.
    apply (ends_bind _ _ _ _ (IH (n - 1)%nat ltac:(lia) fuel l3 Hl3 ltac:(lia) ltac:(lia))). intros c' l4 (Hc' & Hl4 & Hle4).
    split_and!; [by apply cmd_ok_2|done|lia].
  - intros l3 Hl3 Hle3. split_and!; [done..|lia].
Qed.

Lemma parsers_ok n : parses parseline 4 n ∧ parses parsepipe 3 n.
Proof using H0.
  induction n as [n IH] using lt_wf_ind.
  assert (parses parsepipe 3 n) as Hp.
  { apply parsepipe_ok; [by intros m Hm; apply IH|]. apply parseexec_ok, parseblock_ok. intros m Hm. by apply IH. }
  split; [|done]. apply parseline_step; [|done]. intros m Hm. by apply IH.
Qed.

(** ** [nulterminate] *)

Lemma nulterminate_words n c : ∀ buf, nulterminate n c buf = foldl (λ b w, nul_at n w b) buf (words c).
Proof.
  induction c as [argv|c IH f md fd|l IHl r IHr|l IHl r IHr|c IH]; intros buf; simpl; [done| | | |done].
  - by rewrite IH, foldl_app.
  - by rewrite IHr, IHl, foldl_app.
  - by rewrite IHr, IHl, foldl_app.
Qed.

(** The NULs land on delimiters or at the end of the line, so the characters of every word
    stay, and each word is followed by a NUL: with [buf] the line and its own NUL, what is
    at a word afterwards is its text and then 0. *)
Definition termd (buf : list Z) (w : word) : Prop :=
  let k := (length line - length (wq w))%nat in
  take (length (text w)) (drop k buf) = text w ∧ buf !! (k + length (text w))%nat = Some 0.

Lemma word_place w : word_ok line w →
  ∃ pre, line = pre ++ text w ++ weq w ∧ length pre = (length line - length (wq w))%nat ∧
    (length line - length (weq w))%nat = (length pre + length (text w))%nat.
Proof.
  intros Hw. destruct (wo_sfx _ _ Hw) as [pre E]. pose proof (wo_split _ _ Hw) as Es. exists pre.
  assert (line = pre ++ text w ++ weq w) as El by (rewrite <- Es; exact E). split; [exact El|].
  assert (length line = (length pre + (length (text w) + length (weq w)))%nat) by (rewrite El at 1; by rewrite !length_app).
  assert (length line = (length pre + length (wq w))%nat) by (rewrite E at 1; by rewrite length_app). lia.
Qed.

(** The character at which a word's NUL is written is not one of a word. *)
Lemma word_end w c : word_ok line w → line !! (length line - length (weq w))%nat = Some c → word_char c = false.
Proof.
  intros Hw Hc. destruct (word_place w Hw) as (pre & El & _ & Ee). pose proof (wo_delim _ _ Hw) as Hd.
  rewrite Ee in Hc. rewrite El in Hc. rewrite app_assoc, <- length_app, lookup_app_r, Nat.sub_diag in Hc by lia.
  destruct (weq w) as [|c' r]; [done|]. simpl in Hc, Hd. congruence.
Qed.

Lemma nuls_lookup ws : ∀ buf i, (i < length buf)%nat →
  foldl (λ b w, nul_at (length line) w b) buf ws !! i =
    if bool_decide (i ∈ (λ w, (length line - length (weq w))%nat) <$> ws) then Some 0 else buf !! i.
Proof.
  induction ws as [|w ws IH]; intros buf i Hi; simpl; [done|].
  rewrite IH by (unfold nul_at; by rewrite length_insert). unfold nul_at.
  destruct (decide (i = (length line - length (weq w))%nat)) as [->|Hne].
  - rewrite list_lookup_insert_eq by done. rewrite (bool_decide_eq_true_2 (_ ∈ _ :: _)) by left. by destruct (bool_decide _).
  - rewrite list_lookup_insert_ne by done. rewrite (bool_decide_ext (i ∈ _ :: _) (i ∈ (λ w, (length line - length (weq w))%nat) <$> ws)); [done|].
    rewrite elem_of_cons. by intuition.
Qed.

Lemma nulterminate_ok c w : args_ok (words c) → w ∈ words c → termd (nulterminate (length line) c (line ++ [0])) w.
Proof.
  intros Hc Hw. assert (word_ok line w) as Hwo by (by apply (proj1 (Forall_forall _ _) Hc)).
  rewrite nulterminate_words. destruct (word_place w Hwo) as (pre & El & Ek & Ee). unfold termd. rewrite <- Ek.
  assert (length line = (length pre + (length (text w) + length (weq w)))%nat) as Elen by (rewrite El at 1; by rewrite !length_app).
  split.
  - apply list_eq. intros j. destruct (decide (j < length (text w))%nat) as [Hj|Hj].
    2: { rewrite (lookup_ge_None_2 (text w)) by lia. apply lookup_take_ge. lia. }
    rewrite lookup_take_lt, lookup_drop, nuls_lookup by (rewrite ?length_app; simpl; lia).
    assert (line !! (length pre + j)%nat = text w !! j) as Elj.
    { rewrite El at 1. rewrite lookup_app_r, lookup_app_l by lia. f_equal. lia. }
    rewrite lookup_app_l, Elj by lia. destruct (lookup_lt_is_Some_2 (text w) j Hj) as [ch Ech]. rewrite Ech.
    pose proof (proj1 (Forall_lookup _ _) (wo_chars _ _ Hwo) j ch Ech) as Hch.
    rewrite bool_decide_eq_false_2; [done|]. intros (w' & Eq & Hw')%list_elem_of_fmap.
    assert (word_char ch = false); [|congruence]. apply (word_end w'); [by apply (proj1 (Forall_forall _ _) Hc)|]. by rewrite <- Eq, Elj.
  - rewrite nuls_lookup by (rewrite length_app; simpl; lia). rewrite bool_decide_eq_true_2; [done|].
    apply list_elem_of_fmap. exists w. by rewrite Ee.
Qed.

End total.

Lemma parsecmd_ok line : 0 ∉ line → ends (λ c rest, rest = [] ∧ cmd_ok line c) (parsecmd line).
Proof.
  intros H0. unfold parsecmd, mbind, M_bind.
  apply (ends_bind _ _ _ _ (proj1 (parsers_ok line H0 (length line)) (4 * length line + 4)%nat line ltac:(done) ltac:(lia) ltac:(lia))).
  intros c l (Hc & Hl & _). apply (ends_bind (λ _ _, True)); [by apply peek_ok|]. intros _ l' _. unfold get. cbn [res_bind].
  by case_bool_decide.
Qed.

(** C30. The parser of the shell ends on every line: [parsecmd] returns a command or panics
    with a message, and never loops, whatever the nesting of blocks, pipes, lists and
    redirections.  When it returns, the whole line has been read, and after [nulterminate]
    every argument and file name of the command is, in the buffer, a string of its own: its
    characters are those of the line (no other word's NUL is written over them) and a NUL
    follows them. *)
Theorem parsecmd_total line : 0 ∉ line →
  ends (λ c rest, rest = [] ∧ (∀ w, w ∈ words c → word_ok line w ∧ termd line (nulterminate (length line) c (line ++ [0])) w))
    (parsecmd line).
Proof.
  intros H0. apply (ends_mono _ _ _ (parsecmd_ok line H0)). intros c rest [-> [Hc _]]. split; [done|].
  intros w Hw. split; [by apply (proj1 (Forall_forall _ _) Hc)|]. by apply nulterminate_ok.
Qed.

(** "(ls -l;cat<f)|wc &" *)
Definition a_line : list Z := [40; 108; 115; 32; 45; 108; 59; 99; 97; 116; 60; 102; 41; 124; 119; 99; 32; 38].

Lemma parsecmd_total_witness : ∃ c, parsecmd a_line = Ret c [] ∧ length (words c) = 5%nat ∧
  ∀ w, w ∈ words c → termd a_line (nulterminate (length a_line) c (a_line ++ [0])) w.
Proof.
  assert (0 ∉ a_line) as H0 by (apply (bool_decide_eq_true_1 (0 ∉ a_line)); vm_compute; reflexivity).
  pose proof (parsecmd_total a_line H0) as H.
  assert (match parsecmd a_line with Ret c _ => length (words c) | _ => 0%nat end = 5%nat) as H5 by (vm_compute; reflexivity).
  destruct (parsecmd a_line) as [c rest| | | |]; [|discriminate..].
  destruct H as [-> H]. exists c. split; [done|]. split; [exact H5|]. intros w Hw. by apply H.
Defined.
