(* ===== verification/ShRun.v ===== *)
(** The execution of commands by the shell, [runcmd] and [main] of user/sh.c.

    A program is a tree of system calls; what follows a call depends on its result.  [execs]
    runs such a tree on a table of open files, every call succeeding when the table has
    room, and collects the programs that get executed, each with the files it is given.
    Descriptors are allocated by the kernel's [fdalloc].  The text of messages is left out
    but for its format. *)

From S2P Require Import Prelude Fdtable Sh.

Inductive prog :=
| Exit (status : Z)
| SExec (argv : list word) (failed : prog)
| Fprintf (msg : string) (k : prog)
| Close (fd : Z) (k : prog)
| Open (file : word + string) (mode : Z) (k : Z → prog)
| Dup (fd : Z) (k : Z → prog)
| PipeS (k : option (Z * Z) → prog)
| Fork (k : Z → prog)
| Wait (k : prog)
| Chdir (path : list Z) (k : Z → prog)
| Stuck.

Definition sh_panic (s : string) : prog := Fprintf s (Exit 1).

Definition fork1 (k : Z → prog) : prog :=
  Fork (λ pid, if pid =? -1 then sh_panic "fork" else k pid).

(** [runcmd]; it does not return, so what a child does ends with it. *)
Fixpoint runcmd (c : cmd) : prog :=
  match c with
  | Exec [] => Exit 1
  | Exec argv => SExec argv (Fprintf "exec %s failed" (Exit 0))
  | Redir c f mode fd =>
      Close fd (Open (inl f) mode (λ r, if r <? 0 then Fprintf "open %s failed" (Exit 1) else runcmd c))
  | ListC l r => fork1 (λ pid, if pid =? 0 then runcmd l else Wait (runcmd r))
  | PipeC l r =>
      PipeS (λ p, match p with
        | None => sh_panic "pipe"
        | Some (p0, p1) =>
            fork1 (λ pid, if pid =? 0 then Close 1 (Dup p1 (λ _, Close p0 (Close p1 (runcmd l))))
            else fork1 (λ pid, if pid =? 0 then Close 0 (Dup p0 (λ _, Close p0 (Close p1 (runcmd r))))
            else Close p0 (Close p1 (Wait (Wait (Exit 0))))))
        end)
  | Back c => fork1 (λ pid, if pid =? 0 then runcmd c else Exit 0)
  end.

(** [getcmd]: [gets] reads up to the newline or [max - 1] bytes; the string ends at a NUL. *)
Fixpoint read_line (max : nat) (input : list Z) : list Z * list Z :=
  match max, input with
  | S max, c :: input =>
      if (c =? 10) || (c =? 13) then ([c], input)
      else let '(l, rest) := read_line max input in (c :: l, rest)
  | _, _ => ([], input)
  end.

Fixpoint upto_nul (l : list Z) : list Z :=
  match l with
  | c :: l => if c =? 0 then [] else c :: upto_nul l
  | [] => []
  end.

Definition getcmd (nbuf : nat) (input : list Z) : option (list Z * list Z) :=
  let '(l, rest) := read_line (nbuf - 1) input in
  let s := upto_nul l in
  if bool_decide (s = []) then None else Some (s, rest).

(** The child that runs a line. *)
Definition run_line (line : list Z) : prog :=
  match parsecmd line with
  | Ret c _ => runcmd c
  | Panic m => sh_panic m
  | _ => Stuck
  end.

Fixpoint main_loop (fuel : nat) (input : list Z) : prog :=
  match fuel with
  | O => Stuck
  | S fuel =>
      match getcmd 100 input with
      | None => Exit 0
      | Some (buf, rest) =>
          match buf with
          | 99 :: 100 :: 32 :: path =>
              Chdir (removelast path) (λ r, if r <? 0 then Fprintf "cannot cd %s" (main_loop fuel rest) else main_loop fuel rest)
          | _ => fork1 (λ pid, if pid =? 0 then run_line buf else Wait (main_loop fuel rest))
          end
      end
  end.


(** The loop that opens the console until three descriptors are in use. *)
Fixpoint open_console (fuel : nat) (k : prog) : prog :=
  match fuel with
  | O => Stuck
  | S fuel =>
      Open (inr "console") O_RDWR (λ fd, if fd <? 0 then k else if 3 <=? fd then Close fd k else open_console fuel k)
  end.

(** Each round of the loop takes a byte of the input at least. *)
Definition sh_main (input : list Z) : prog := open_console 4 (main_loop (S (length input)) input).

(** * The system calls on a table of open files *)

Inductive obj :=
| Initial (n : nat)
| PRead (id : nat)
| PWrite (id : nat)
| File (name : word + string) (mode : Z).

Notation table := (list (option obj)).

Definition started : Type := list (list word * table) * nat.

(** [id] numbers the pipes. *)
Fixpoint execs (p : prog) (t : table) (id : nat) : started :=
  match p with
  | Exit _ | Stuck => ([], id)
  | SExec argv _ => ([(argv, t)], id)
  | Fprintf _ k | Wait k => execs k t id
  | Close fd k => execs k (<[Z.to_nat fd := None]> t) id
  | Open f m k =>
      match fdalloc t (File f m) with
      | Some (fd, t') => execs (k (Z.of_nat fd)) t' id
      | None => execs (k (-1)) t id
      end
  | Dup fd k =>
      match t !! Z.to_nat fd with
      | Some (Some f) =>
          match fdalloc t f with
          | Some (fd', t') => execs (k (Z.of_nat fd')) t' id
          | None => execs (k (-1)) t id
          end
      | _ => execs (k (-1)) t id
      end
  | PipeS k =>
      match fdalloc t (PRead id) with
      | Some (fd0, t0) =>
          match fdalloc t0 (PWrite id) with
          | Some (fd1, t1) => execs (k (Some (Z.of_nat fd0, Z.of_nat fd1))) t1 (S id)
          | None => execs (k None) t id
          end
      | None => execs (k None) t id
      end
  | Fork k =>
      let '(l1, id1) := execs (k 0) t id in
      let '(l2, id2) := execs (k 1) t id1 in
      (l1 ++ l2, id2)
  | Chdir _ k => execs (k 0) t id
  end.

(** What a command means: the programs it starts, each with its files.  The two sides of a
    pipe get its two ends, in place of standard output and of standard input, and nothing
    else of it; a redirection puts its file in place of its descriptor. *)
Fixpoint wired (c : cmd) (t : table) (id : nat) : started :=
  match c with
  | Exec [] => ([], id)
  | Exec argv => ([(argv, t)], id)
  | Redir c f mode fd => wired c (<[Z.to_nat fd := Some (File (inl f) mode)]> t) id
  | ListC l r =>
      let '(l1, id1) := wired l t id in
      let '(l2, id2) := wired r t id1 in (l1 ++ l2, id2)
  | PipeC l r =>
      let '(l1, id1) := wired l (<[1%nat := Some (PWrite id)]> t) (S id) in
      let '(l2, id2) := wired r (<[0%nat := Some (PRead id)]> t) id1 in (l1 ++ l2, id2)
  | Back c => wired c t id
  end.

(** * Tables with room for a pipe *)

(** Descriptors 0, 1 and 2 are open, and [p] and [q] are the two lowest that are free. *)
Record room (t : table) (p q : nat) : Prop := {
  rm_p : (2 < p)%nat;
  rm_q : (p < q)%nat;
  rm_fp : t !! p = Some None;
  rm_fq : t !! q = Some None;
  rm_low : ∀ j, (j < q)%nat → j ≠ p → ∃ g, t !! j = Some (Some g);
}.

Section room.
Context (t : table) (p q : nat) (Hr : room t p q).

Lemma room_lt j : (j ≤ q)%nat → (j < length t)%nat.
Proof using Hr. intros Hj. pose proof (lookup_lt_Some _ _ _ (rm_fq _ _ _ Hr)). lia. Qed.

Lemma room_set n g : (n < 2)%nat → room (<[n := Some g]> t) p q.
Proof using Hr.
  intros Hn. destruct Hr as [Hp Hq Hfp Hfq Hlow]. split; [done|done|by rewrite list_lookup_insert_ne by lia..|].
  intros j Hj Hne. destruct (decide (j = n)) as [->|Hn'].
  - exists g. apply list_lookup_insert_eq. apply room_lt. lia.
  - rewrite list_lookup_insert_ne by done. by apply Hlow.
Qed.

Lemma room_lowest_p : lowest t p.
Proof using Hr. split; [apply Hr|]. intros j Hj. pose proof (rm_q _ _ _ Hr). apply Hr; lia. Qed.

Lemma room_lowest_q f : lowest (<[p := Some f]> t) q.
Proof using Hr.
  pose proof (rm_q _ _ _ Hr). split; [rewrite list_lookup_insert_ne by lia; apply Hr|]. intros j Hj.
  destruct (decide (j = p)) as [->|Hne]; [exists f; apply list_lookup_insert_eq, room_lt; lia|].
  rewrite list_lookup_insert_ne by done. by apply Hr.
Qed.

(** A redirection: what is closed is the lowest free descriptor. *)
Lemma reopen n g : (n < 2)%nat → fdalloc (<[n := None]> t) g = Some (n, <[n := Some g]> t).
Proof using Hr.
  intros Hn. pose proof (rm_p _ _ _ Hr). pose proof (rm_q _ _ _ Hr).
  rewrite (fdalloc_lowest _ _ n); [by rewrite list_insert_insert_eq|].
  apply lowest_closed; [|apply room_lt; lia]. intros j Hj. apply Hr; lia.
Qed.

Definition piped (id : nat) : table := <[q := Some (PWrite id)]> (<[p := Some (PRead id)]> t).

Lemma piped_lookup id j : piped id !! j = if decide (j = q) then Some (Some (PWrite id)) else if decide (j = p) then Some (Some (PRead id)) else t !! j.
Proof using Hr.
  unfold piped. pose proof (rm_q _ _ _ Hr). destruct (decide (j = q)) as [->|Hq].
  { apply list_lookup_insert_eq. rewrite length_insert. apply room_lt. lia. }
  rewrite list_lookup_insert_ne by done. destruct (decide (j = p)) as [->|Hp].
  - apply list_lookup_insert_eq. apply room_lt. lia.
  - by apply list_lookup_insert_ne.
Qed.

(** Moving one end of the pipe to descriptor [n] and closing both of the new ones. *)
Lemma move_end id n g : (n < 2)%nat →
  fdalloc (<[n := None]> (piped id)) g = Some (n, <[n := Some g]> (piped id)) ∧
  <[q := None]> (<[p := None]> (<[n := Some g]> (piped id))) = <[n := Some g]> t.
Proof using Hr.
  intros Hn. pose proof (rm_p _ _ _ Hr) as Hp. pose proof (rm_q _ _ _ Hr) as Hq.
  assert (∀ j, (j ≤ q)%nat → (j < length (piped id))%nat) as Hlen by (intros j Hj; unfold piped; rewrite !length_insert; by apply room_lt).
  split.
  - rewrite (fdalloc_lowest _ _ n); [by rewrite list_insert_insert_eq|].
    apply lowest_closed; [|apply Hlen; lia]. intros j Hj. rewrite piped_lookup, !decide_False by lia. apply Hr; lia.
  - apply list_eq. intros j.
    destruct (decide (j = q)) as [->|Hjq].
    { rewrite list_lookup_insert_eq by (rewrite !length_insert; apply Hlen; lia). rewrite list_lookup_insert_ne by lia. symmetry. apply Hr. }
    rewrite (list_lookup_insert_ne _ q) by done. destruct (decide (j = p)) as [->|Hjp].
    { rewrite list_lookup_insert_eq by (rewrite !length_insert; apply Hlen; lia). rewrite list_lookup_insert_ne by lia. symmetry. apply Hr. }
    rewrite (list_lookup_insert_ne _ p) by done. destruct (decide (j = n)) as [->|Hjn].
    { rewrite !list_lookup_insert_eq; [done|apply room_lt; lia|apply Hlen; lia]. }
    rewrite !(list_lookup_insert_ne _ n) by done. by rewrite piped_lookup, !decide_False.
Qed.

End room.

Lemma execs_pipe_side t p q id k c : room t p q → ∀ n g e, (n < 2)%nat → piped t p q id !! e = Some (Some g) → e ≠ n →
  execs (Close (Z.of_nat n) (Dup (Z.of_nat e) (λ _, Close (Z.of_nat p) (Close (Z.of_nat q) c)))) (piped t p q id) k =
  execs c (<[n := Some g]> t) k.
Proof.
  intros Hr n g e Hn He Hne. cbn [execs]. rewrite !Nat2Z.id, list_lookup_insert_ne, He by done.
  destruct (move_end t p q Hr id n g Hn) as [E1 E2]. by rewrite E1, E2.
Qed.

Lemma runcmd_ok c : ∀ t p q id, fds_ok c → room t p q → execs (runcmd c) t id = wired c t id.
Proof.
  induction c as [[|w argv]|c IH f md fd|l IHl r IHr|l IHl r IHr|c IH]; intros t p q id Hfd Hr; [done|done|..].
  - destruct Hfd as [Hc Hfd]. cbn [runcmd execs wired]. rewrite (reopen t p q Hr) by lia.
    rewrite (proj2 (Z.ltb_ge _ _)) by lia. apply (IH _ p q); [done|]. apply room_set; [done|lia].
  - destruct Hfd as [Hl Hrr]. cbn [runcmd execs wired]. rewrite (fdalloc_lowest t _ p) by (by eapply room_lowest_p).
    rewrite (fdalloc_lowest _ _ q) by (by eapply room_lowest_q). fold (piped t p q id). unfold fork1. cbn [execs Z.eqb].
    pose proof (rm_p _ _ _ Hr). pose proof (rm_q _ _ _ Hr).
    pose proof (execs_pipe_side t p q id (S id) (runcmd l) Hr 1 (PWrite id) q ltac:(lia) ltac:(rewrite (piped_lookup t p q Hr), decide_True; done) ltac:(lia)) as E1.
    cbn [execs] in E1. cbn [execs]. change (Z.of_nat 1) with 1 in E1. rewrite E1, (IHl _ p q) by (done || (apply room_set; [done|lia])).
    destruct (wired l _ _) as [l1 id1].
    pose proof (execs_pipe_side t p q id id1 (runcmd r) Hr 0 (PRead id) p ltac:(lia) ltac:(rewrite (piped_lookup t p q Hr), decide_False, decide_True; (done || lia)) ltac:(lia)) as E2.
    cbn [execs] in E2. change (Z.of_nat 0) with 0 in E2. rewrite E2, (IHr _ p q) by (done || (apply room_set; [done|lia])).
    destruct (wired r _ _) as [l2 id2]. by rewrite app_nil_r.
  - destruct Hfd as [Hl Hrr]. cbn [runcmd wired]. unfold fork1. cbn [execs Z.eqb].
    rewrite (IHl t p q) by done. destruct (wired l _ _) as [l1 id1]. by rewrite (IHr t p q).
  - cbn [runcmd wired]. unfold fork1. cbn [execs Z.eqb]. rewrite (IH t p q) by done. destruct (wired c _ _) as [l1 id1]. by rewrite app_nil_r.
Qed.

(** Past standard input and output, a program has the files of the shell. *)
Lemma wired_rest c : ∀ t id argv t', fds_ok c → (argv, t') ∈ (wired c t id).1 →
  length t' = length t ∧ ∀ j, (2 ≤ j)%nat → t' !! j = t !! j.
Proof.
  induction c as [[|w ws]|c IH f md fd|l IHl r IHr|l IHl r IHr|c IH]; intros t id argv t' Hfd Hin; cbn [wired] in Hin.
  - by apply elem_of_nil in Hin.
  - apply list_elem_of_singleton in Hin. by inversion Hin; subst.
  - destruct Hfd as [Hc Hfd]. apply IH in Hin as [Hl H]; [|done]. rewrite length_insert in Hl. split; [done|].
    intros j Hj. rewrite H by done. apply list_lookup_insert_ne. lia.
  - destruct Hfd as [Hfl Hfr]. destruct (wired l _ _) as [l1 id1] eqn:E1. destruct (wired r _ _) as [l2 id2] eqn:E2.
    cbn [fst] in Hin. apply elem_of_app in Hin as [Hin|Hin].
    + destruct (IHl (<[1%nat := Some (PWrite id)]> t) (S id) argv t' Hfl) as [Hl H]; [by rewrite E1|]. rewrite length_insert in Hl. split; [done|].
      intros j Hj. rewrite H by done. apply list_lookup_insert_ne. lia.
    + destruct (IHr (<[0%nat := Some (PRead id)]> t) id1 argv t' Hfr) as [Hl H]; [by rewrite E2|]. rewrite length_insert in Hl. split; [done|].
      intros j Hj. rewrite H by done. apply list_lookup_insert_ne. lia.
  - destruct Hfd as [Hfl Hfr]. destruct (wired l _ _) as [l1 id1] eqn:E1. destruct (wired r _ _) as [l2 id2] eqn:E2.
    cbn [fst] in Hin. apply elem_of_app in Hin as [Hin|Hin].
    + apply (IHl t id argv t' Hfl). by rewrite E1.
    + apply (IHr t id1 argv t' Hfr). by rewrite E2.
  - by apply (IH t id argv t' Hfd).
Qed.

(** C10. A line of the shell starts the right programs with the right files.  Run on a table
    in which 0, 1 and 2 are open and two descriptors are free, the child that [main] forks
    for the line makes the system calls that start exactly the programs of the parsed
    command, each side of a pipe with the pipe's end as its standard output or input, each
    redirection with its file at its descriptor, and every program otherwise with the files
    of the shell: no end of a pipe stays open by accident, so readers see the end of their
    input.  A line that does not parse starts nothing. *)
Theorem run_line_wires line t p q id : 0 ∉ line → room t p q →
  match parsecmd line with
  | Ret c _ =>
      execs (run_line line) t id = wired c t id ∧
      ∀ argv t', (argv, t') ∈ (wired c t id).1 → length t' = length t ∧ ∀ j, (2 ≤ j)%nat → t' !! j = t !! j
  | Panic _ => execs (run_line line) t id = ([], id)
  | _ => False
  end.
Proof.
  intros H0 Hr. pose proof (parsecmd_ok line H0) as H. unfold run_line. destruct (parsecmd line) as [c rest|m| | |]; try done.
  destruct H as [_ [_ Hfd]]. split; [by eapply runcmd_ok|]. intros argv t' Hin. by eapply wired_rest.
Qed.

(** The table of the shell; "a<f|b|c" *)
Definition sh_table : table := [Some (Initial 0); Some (Initial 1); Some (Initial 2)] ++ replicate 13 None.
Definition a_pipe : list Z := [97; 60; 102; 124; 98; 124; 99].

Lemma sh_table_room : room sh_table 3 4.
Proof.
  split; [lia|lia|done|done|]. intros j Hj Hne. destruct j as [|[|[|[|j]]]]; [by eexists..|done|lia].
Qed.

Lemma run_line_wires_witness :
  (λ e : list word * table, (text <$> e.1, take 5 e.2)) <$> (execs (run_line a_pipe) sh_table 0).1 =
  [([[97]], [Some (File (inl (Word [102; 124; 98; 124; 99] [124; 98; 124; 99])) 0); Some (PWrite 0); Some (Initial 2); None; None]);
   ([[98]], [Some (PRead 0); Some (PWrite 1); Some (Initial 2); None; None]);
   ([[99]], [Some (PRead 1); Some (Initial 1); Some (Initial 2); None; None])].
Proof.
  assert (0 ∉ a_pipe) as H0 by (apply (bool_decide_eq_true_1 (0 ∉ a_pipe)); vm_compute; reflexivity).
  pose proof (run_line_wires a_pipe sh_table 3 4 0 H0 sh_table_room) as H.
  destruct (parsecmd a_pipe) as [c rest|m| | |] eqn:E; [|vm_compute in E; discriminate..].
  destruct H as [-> _]. vm_compute in E. injection E as <- <-. vm_compute. reflexivity.
Defined.
