(* ===== verification/User.v ===== *)
(** User programs: user/cat.c, echo.c, grep.c, init.c, kill.c, ln.c, ls.c, mkdir.c, rm.c, wc.c
    and zombie.c, as interaction trees.

    A program is a tree whose nodes are the system calls it makes; what follows a call depends
    on its result.  Loops without a bound are [ITree.iter], so that [init], which never ends,
    is a program like the others.  Strings are lists of characters without their NUL, and a
    buffer that a call fills is part of the call's result. *)

From ITree Require Import ITree.
From S2P Require Import Prelude Bytes Fdtable Fs Printf Grep.

(** * System calls *)

(** user.h, with the results that the kernel stores in the caller's memory.  The last five are
    not calls: a program that reads or writes its own memory, a call that is given an address
    instead of a buffer, and an access that the hardware refuses. *)
Inductive sysE : Type → Type :=
| SExit (status : Z) : sysE Empty_set
| SFork : sysE Z
| SWait : sysE (option (Z * Z))
| SPipe : sysE (option (Z * Z))
| SRead (fd n : Z) : sysE (Z * list Z)
| SWrite (fd : Z) (bs : list Z) : sysE Z
| SClose (fd : Z) : sysE Z
| SKill (pid : Z) : sysE Z
| SExec (path : list Z) (argv : list (list Z)) : sysE Z
| SOpen (path : list Z) (omode : Z) : sysE Z
| SMknod (path : list Z) (major minor : Z) : sysE Z
| SUnlink (path : list Z) : sysE Z
| SFstat (fd : Z) : sysE (option stat)
| SLink (old new : list Z) : sysE Z
| SMkdir (path : list Z) : sysE Z
| SChdir (path : list Z) : sysE Z
| SDup (fd : Z) : sysE Z
| SGetpid : sysE Z
| SSbrk (n : Z) : sysE Z
| SSleep (n : Z) : sysE Z
| SUptime : sysE Z
| SPeek (a n : Z) : sysE (list Z)
| SPoke (a : Z) (bs : list Z) : sysE unit
| SReadAt (fd a n : Z) : sysE Z
| SWriteAt (fd a n : Z) : sysE Z
| SFault : sysE Empty_set.

Abbreviation user := (itree sysE).

#[export] Instance user_ret : MRet user := λ A a, ITreeDefinition.Ret a.
#[export] Instance user_bind : MBind user := λ A B f t, ITree.bind t f.

(** The stubs that usys.pl writes. *)
Definition call {X} (e : sysE X) : user X := ITree.trigger e.
Definition exit {A} (status : Z) : user A := r ← call (SExit status); match r : Empty_set with end.
Abbreviation fork := (call SFork).
Abbreviation wait := (call SWait).
Abbreviation pipe := (call SPipe).
Abbreviation read fd n := (call (SRead fd n)).
Abbreviation write fd bs := (call (SWrite fd bs)).
Abbreviation close fd := (call (SClose fd)).
Abbreviation kill pid := (call (SKill pid)).
Abbreviation exec path argv := (call (SExec path argv)).
Abbreviation open path omode := (call (SOpen path omode)).
Abbreviation mknod path major minor := (call (SMknod path major minor)).
Abbreviation unlink path := (call (SUnlink path)).
Abbreviation fstat fd := (call (SFstat fd)).
Abbreviation link old new := (call (SLink old new)).
Abbreviation mkdir path := (call (SMkdir path)).
Abbreviation chdir path := (call (SChdir path)).
Abbreviation dup fd := (call (SDup fd)).
Abbreviation getpid := (call SGetpid).
Abbreviation sbrk n := (call (SSbrk n)).
Abbreviation sleep n := (call (SSleep n)).
Abbreviation uptime := (call SUptime).

(** * Loops over arguments *)

Fixpoint for_each {A} (f : A → user unit) (l : list A) : user unit :=
  match l with
  | [] => mret tt
  | a :: l => f a;; for_each f l
  end.

(** The loop ends at the first that returns false. *)
Fixpoint for_while {A} (f : A → user bool) (l : list A) : user unit :=
  match l with
  | [] => mret tt
  | a :: l => b ← f a; if b : bool then for_while f l else mret tt
  end.

(** * Strings and output *)

(** The characters of a C string literal: a backslash stands before n, r, t, v and, where C
    has an escaped double quote, before a single one. *)
Fixpoint chars (l : list Z) : list Z :=
  match l with
  | 92 :: 110 :: l => 10 :: chars l
  | 92 :: 114 :: l => 13 :: chars l
  | 92 :: 116 :: l => 9 :: chars l
  | 92 :: 118 :: l => 11 :: chars l
  | 92 :: 39 :: l => 34 :: chars l
  | c :: l => c :: chars l
  | [] => []
  end.
Definition str (s : string) : list Z := chars ((λ a, Z.of_N (Ascii.N_of_ascii a)) <$> String.list_ascii_of_string s).
#[global] Arguments str : simpl never.

(** One [write] for each character, by [putc]; a number that the buffer of printint has no room
    for is undefined behaviour. *)
Definition fprintf (fd : Z) (fmt : string) (args : list arg) : user unit :=
  match vprintf (str fmt) args with
  | Some l => for_each (λ c, write fd [c];; mret tt) l
  | None => r ← call SFault; match r : Empty_set with end
  end.
Abbreviation printf fmt args := (fprintf 1 fmt args).

Abbreviation argv := (list (list Z)).

(** [start] of ulib.c, which runs [main]. *)
Definition start (main : argv → user unit) (args : argv) : user unit := main args;; exit 0.

(** The loop of cat, wc and grep over their arguments. *)
Fixpoint for_files (one : Z → list Z → user unit) (refuse : list Z → user unit) (args : argv) : user unit :=
  match args with
  | [] => mret tt
  | a :: args =>
      fd ← open a O_RDONLY;
      if fd <? 0 then refuse a;; exit 1
      else one fd a;; close fd;; for_files one refuse args
  end.

(** * cat.c *)

(** A round of the loop: what [read] returned last, when it is not positive. *)
Definition cat_body (fd : Z) (_ : unit) : user (unit + Z) :=
  '(n, buf) ← read fd 512;
  if 0 <? n then
    r ← write 1 (take (Z.to_nat n) buf);
    if negb (r =? n) then fprintf 2 "cat: write error\n" [];; exit 1 else mret (inl tt)
  else mret (inr n).

Definition cat (fd : Z) : user unit :=
  n ← ITree.iter (cat_body fd) tt;
  if n <? 0 then fprintf 2 "cat: read error\n" [];; exit 1 else mret tt.

Definition cat_main (args : argv) : user unit :=
  if (length args <=? 1)%nat then cat 0;; exit 0 
  else for_files (λ fd _, cat fd) (λ a, fprintf 2 "cat: cannot open %s\n" [Str (Some a)]) (tail args);; exit 0.

(** * echo.c *)

Definition echo_main (args : argv) : user unit :=
  let fix loop (args : argv) : user unit :=
    match args with
    | [] => mret tt
    | a :: rest =>
        write 1 a;;
        (match rest with [] => write 1 [10] | _ => write 1 [32] end);;
        loop rest
    end in
  loop (tail args);;
  exit 0.

(** * wc.c *)

(** The loop over the bytes of a buffer: lines, words, characters, which are [int]s, and
    whether the last byte was in a word. *)
Definition wc_byte (s : Z * Z * Z * bool) (b : Z) : Z * Z * Z * bool :=
  let '(l, w, c, inword) := s in
  let c := i32 (c + 1) in
  let l := if b =? 10 then i32 (l + 1) else l in
  if existsb (Z.eqb b) (str " \r\t\n\v") then (l, w, c, false)
  else if negb inword then (l, i32 (w + 1), c, true)
  else (l, w, c, inword).

Definition wc_body (fd : Z) (s : Z * Z * Z * bool) : user (Z * Z * Z * bool + Z * (Z * Z * Z * bool)) :=
  '(n, buf) ← read fd 512;
  if 0 <? n then mret (inl (foldl wc_byte s (take (Z.to_nat n) buf))) else mret (inr (n, s)).

Definition wc (fd : Z) (name : list Z) : user unit :=
  '(n, (l, w, c, _)) ← ITree.iter (wc_body fd) (0, 0, 0, false);
  if n <? 0 then printf "wc: read error\n" [];; exit 1
  else printf "%d %d %d %s\n" [Num l; Num w; Num c; Str (Some name)].

Definition wc_main (args : argv) : user unit :=
  if (length args <=? 1)%nat then wc 0 [];; exit 0 
  else for_files wc (λ a, printf "wc: cannot open %s\n" [Str (Some a)]) (tail args);; exit 0.

(** * grep.c *)

(** The lines at [p] that match are written out; what is left is the unfinished line. *)
Fixpoint grep_out (fuel : nat) (pattern p : list Z) : user (list Z) :=
  match fuel with
  | O => mret p
  | S fuel =>
      match split_nl p with
      | Some (line, rest) =>
          (if match_ pattern line then write 1 (line ++ [ch_nl]);; mret tt else mret tt);;
          grep_out fuel pattern rest
      | None => mret p
      end
  end.

(** A round of the loop; [buf] holds the [m] bytes of the unfinished line. *)
Definition grep_body (pattern : list Z) (fd : Z) (buf : list Z) : user (list Z + unit) :=
  '(n, bs) ← read fd (Z.of_nat (BUFSIZE - length buf - 1));
  if 0 <? n then
    let p := buf ++ take (Z.to_nat n) bs in
    rest ← grep_out (S (length p)) pattern p;
    mret (inl rest)
  else mret (inr tt).

Definition grep_file (pattern : list Z) (fd : Z) : user unit := ITree.iter (grep_body pattern fd) [].

Definition grep_main (args : argv) : user unit :=
  match args with
  | _ :: pattern :: files =>
      match files with
      | [] => grep_file pattern 0;; exit 0
      | _ => for_files (λ fd _, grep_file pattern fd) (λ a, printf "grep: cannot open %s\n" [Str (Some a)]) files;; exit 0
      end
  | _ => fprintf 2 "usage: grep pattern [file ...]\n" [];; exit 1
  end.

(** * init.c *)

Definition init_main : user unit :=
  fd ← open (str "console") O_RDWR;
  (if fd <? 0 then let CONSOLE := 1 in mknod (str "console") CONSOLE 0;; open (str "console") O_RDWR;; mret tt else mret tt);;
  dup 0;;
  dup 0;;
  ITree.iter (λ _ : unit,
    printf "init: starting sh\n" [];;
    pid ← fork;
    (if pid <? 0 then printf "init: fork failed\n" [];; exit 1 else mret tt);;
    (if pid =? 0 then
       exec (str "sh") [str "sh"];;
       printf "init: exec sh failed\n" [];;
       exit 1
     else mret tt);;
    ITree.iter (λ _ : unit,
      r ← wait;
      let wpid := from_option fst (-1) r in
      if wpid =? pid then mret (inr tt)
      else if wpid <? 0 then printf "init: wait returned an error\n" [];; exit 1
      else mret (inl tt)) tt;;
    mret (inl tt)) tt.

(** * kill.c, ln.c, mkdir.c, rm.c, zombie.c *)

Definition kill_main (args : argv) : user unit :=
  let fix atoi (n : Z) (s : list Z) : Z :=
    match s with
    | c :: s => if (48 <=? c) && (c <=? 57) then atoi (i32 (n * 10 + c - 48)) s else n
    | [] => n
    end in
  if (length args <? 2)%nat then fprintf 2 "usage: kill pid...\n" [];; exit 1 
  else for_each (λ a, kill (atoi 0 a);; mret tt) (tail args);; exit 0.

Definition ln_main (args : argv) : user unit :=
  match args with
  | [_; old; new] =>
      r ← link old new;
      (if r <? 0 then fprintf 2 "link %s %s: failed\n" [Str (Some old); Str (Some new)] else mret tt);;
      exit 0
  | _ => fprintf 2 "Usage: ln old new\n" [];; exit 1
  end.

Definition mkdir_main (args : argv) : user unit :=
  if (length args <? 2)%nat then fprintf 2 "Usage: mkdir files...\n" [];; exit 1 
  else
    for_while (λ a, r ← mkdir a; if r <? 0 then fprintf 2 "mkdir: %s failed to create\n" [Str (Some a)];; mret false else mret true) (tail args);;
    exit 0.

Definition rm_main (args : argv) : user unit :=
  if (length args <? 2)%nat then fprintf 2 "Usage: rm files...\n" [];; exit 1 
  else
    for_while (λ a, r ← unlink a; if r <? 0 then fprintf 2 "rm: %s failed to delete\n" [Str (Some a)];; mret false else mret true) (tail args);;
    exit 0.

Definition zombie_main (args : argv) : user unit :=
  pid ← fork;
  (if 0 <? pid then sleep 5;; mret tt else mret tt);;
  exit 0.

(** * ls.c *)

(** The characters after the last slash, padded. *)
Definition fmtname (path : list Z) : list Z :=
  let fix after_slash (l : list Z) : list Z :=
    match l with
    | [] => []
    | _ :: rest => if existsb (Z.eqb 47) l then after_slash rest else l
    end in
  let p := after_slash path in
  if DIRSIZ <=? Z.of_nat (length p) then p else p ++ replicate (Z.to_nat DIRSIZ - length p) 32.

(** [stat] of ulib.c *)
Definition ustat (path : list Z) : user (option stat) :=
  fd ← open path O_RDONLY;
  if fd <? 0 then mret None else r ← fstat fd; close fd;; mret r.

Fixpoint upto_nul (l : list Z) : list Z :=
  match l with
  | [] => []
  | c :: l => if c =? 0 then [] else c :: upto_nul l
  end.

(** An entry of the directory [path]. *)
Definition ls_body (path : list Z) (fd : Z) (_ : unit) : user (unit + unit) :=
  '(n, de) ← read fd DIRENT;
  if negb (n =? DIRENT) then mret (inr tt)
  else if get16 0 de =? 0 then mret (inl tt)
  else
    let buf := path ++ 47 :: upto_nul (drop 2 de) in
    r ← ustat buf;
    match r with
    | None => printf "ls: cannot stat %s\n" [Str (Some buf)];; mret (inl tt)
    | Some st => printf "%s %d %d %d\n" [Str (Some (fmtname buf)); Num (st_type st); Num (st_ino st); Num (st_size st)];; mret (inl tt)
    end.

Definition ls (path : list Z) : user unit :=
  fd ← open path O_RDONLY;
  if fd <? 0 then fprintf 2 "ls: cannot open %s\n" [Str (Some path)]
  else
    r ← fstat fd;
    match r with
    | None => fprintf 2 "ls: cannot stat %s\n" [Str (Some path)];; close fd;; mret tt
    | Some st =>
        (if (st_type st =? T_DEVICE) || (st_type st =? T_FILE) then printf "%s %d %d %d\n" [Str (Some (fmtname path)); Num (st_type st); Num (st_ino st); Num (st_size st)]
         else if st_type st =? T_DIR then
           if 512 <? Z.of_nat (length path) + 1 + DIRSIZ + 1 then printf "ls: path too long\n" []
           else ITree.iter (ls_body path fd) tt
         else mret tt);;
        close fd;;
        mret tt
    end.

Definition ls_main (args : argv) : user unit :=
  if (length args <? 2)%nat then ls (str ".");; exit 0 else for_each ls (tail args);; exit 0.
