(* ===== verification/UserProps.v ===== *)
(** What the user programs do, for every system that keeps the contract of its calls.

    [Files] is the interface: a state that answers system calls, and what of it the programs
    below can see, the contents of files by path, what is left to read at each descriptor,
    and what has been written to descriptors 1 and 2.  [FilesSpec] is the contract; a read may
    return fewer bytes than it is asked for.  Theorems are proved against the contract, and
    [stream] is an instance whose reads are cut in any way. *)

From ITree Require Import ITree.
From S2P Require Import Prelude Bytes Fdtable Fs Printf Grep User.

(** * Running a program *)

Class Files (W : Type) := {
  serve : ∀ X, sysE X → W → option (X * W);
  content : W → list Z → option (list Z);
  input : W → gmap Z (list Z);
  output : W → list Z;
  errors : W → list Z;
}.
Arguments serve {W _} {X} e w.

(** How many files a process can open. *)
Definition MAXOPEN : nat := 13.

Inductive outcome (W A : Type) : Type :=
| Done (a : A) (w : W)
| Exited (status : Z) (w : W)
| Stopped
| Running.
Arguments Done {W A} a w.
Arguments Exited {W A} status w.
Arguments Stopped {W A}.
Arguments Running {W A}.

Definition exit_of {X} (e : sysE X) : option Z := match e with SExit n => Some n | _ => None end.

Section run.
Context {W : Type} `{!Files W}.
Implicit Types (w : W).

Fixpoint steps {A} (fuel : nat) (t : user A) w : outcome W A :=
  match fuel with
  | O => Running
  | S fuel =>
      match observe t with
      | RetF a => Done a w
      | TauF t => steps fuel t w
      | VisF e k =>
          match exit_of e with
          | Some n => Exited n w
          | None => match serve e w with Some (x, w') => steps fuel (k x) w' | None => Stopped end
          end
      end
  end.

(** [t] ends with [o] when it is run from [w]. *)
Definition runs {A} (t : user A) w (o : outcome W A) : Prop := ∃ n, steps n t w = o.

Lemma observe_bind {A B} (t : user A) (k : A → user B) :
  observe (t ≫= k) = match observe t with
    | RetF a => observe (k a) | TauF t => TauF (t ≫= k) | VisF e h => VisF e (λ x, h x ≫= k) end.
Proof.
  unfold mbind, user_bind, ITree.bind.
  change (observe (ITree.subst k t)) with (observe (match observe t with RetF r => k r | TauF t => Tau (ITree.subst k t) | VisF e h => Vis e (λ x, ITree.subst k (h x)) end)).
  by destruct (observe t).
Qed.

Lemma observe_iter {A B} (b : A → user (A + B)) a :
  observe (ITree.iter b a) = observe (b a ≫= λ r, match r with inl a' => Tau (ITree.iter b a') | inr x => mret x end).
Proof. done. Qed.

Lemma steps_observe {A} n (t u : user A) w : observe t = observe u → steps n t w = steps n u w.
Proof. intros E. destruct n; [done|]. cbn [steps]. by rewrite E. Qed.

Lemma runs_observe {A} (t u : user A) w o : observe t = observe u → runs t w o → runs u w o.
Proof. intros E [n H]. exists n. by rewrite <- (steps_observe n t u w E). Qed.

Lemma steps_bind {A B} n m (t : user A) (k : A → user B) w : 
  match steps n t w with
  | Done a w' => ∃ j, steps (n + m) (t ≫= k) w = steps (j + m) (k a) w'
  | Exited st w' => steps (n + m) (t ≫= k) w = Exited st w'
  | _ => True
  end.
Proof.
  revert t w. induction n as [|n IH]; intros t w; [done|]. cbn [steps Nat.add]. rewrite observe_bind.
  destruct (observe t) as [a|t'|X e h] eqn:E.
  - exists (S n). cbn [steps Nat.add]. by destruct (observe (k a)).
  - apply IH.
  - destruct (exit_of e); [done|]. destruct (serve e w) as [[x w']|]; [|done]. apply IH.
Qed.

Lemma steps_more {A} n m (t : user A) w o : steps n t w = o → o ≠ Running → steps (n + m) t w = o.
Proof.
  revert t w. induction n as [|n IH]; intros t w; cbn [steps Nat.add]; [by intros <-|].
  destruct (observe t) as [a|t'|X e h]; [done|apply IH|]. destruct (exit_of e); [done|]. destruct (serve e w) as [[x w']|]; [apply IH|done].
Qed.

Lemma runs_ret {A} (a : A) w : runs (mret a) w (Done a w).
Proof. by exists 1%nat. Qed.

Lemma runs_call {X} (e : sysE X) w x w' : exit_of e = None → serve e w = Some (x, w') → runs (call e) w (Done x w').
Proof. intros He Hs. exists 2%nat. cbn. by rewrite He, Hs. Qed.

Lemma runs_exit {A} st w : runs (exit st : user A) w (Exited st w).
Proof. by exists 1%nat. Qed.

Lemma runs_bind {A B} (t : user A) (k : A → user B) w a w1 o :
  runs t w (Done a w1) → runs (k a) w1 o → o ≠ Running → runs (t ≫= k) w o.
Proof.
  intros [n Hn] [m Hm] Ho. pose proof (steps_bind n m t k w) as H. rewrite Hn in H. destruct H as [j H].
  exists (n + m)%nat. rewrite H, Nat.add_comm. by apply steps_more.
Qed.

Lemma runs_bind_exit {A B} (t : user A) (k : A → user B) w st w1 : runs t w (Exited st w1) → runs (t ≫= k) w (Exited st w1).
Proof. intros [n Hn]. pose proof (steps_bind n 0 t k w) as H. rewrite Hn in H. by exists (n + 0)%nat. Qed.

(** Leaving and repeating a loop. *)
Lemma runs_iter_inr {A B} (b : A → user (A + B)) a w x w1 : runs (b a) w (Done (inr x) w1) → runs (ITree.iter b a) w (Done x w1).
Proof. intros H. eapply runs_observe; [symmetry; apply observe_iter|]. eapply runs_bind; [exact H|apply runs_ret|done]. Qed.

Lemma runs_iter_inl {A B} (b : A → user (A + B)) a w a' w1 o :
  runs (b a) w (Done (inl a') w1) → runs (ITree.iter b a') w1 o → o ≠ Running → runs (ITree.iter b a) w o.
Proof.
  intros H [n Hn] Ho. eapply runs_observe; [symmetry; apply observe_iter|]. eapply runs_bind; [exact H| |done]. exists (S n). exact Hn.
Qed.

Lemma runs_iter_exit {A B} (b : A → user (A + B)) a w st w1 : runs (b a) w (Exited st w1) → runs (ITree.iter b a) w (Exited st w1).
Proof. intros H. eapply runs_observe; [symmetry; apply observe_iter|]. by apply runs_bind_exit. Qed.
End run.

(** * The contract *)

Section view.
Context {W : Type} `{!Files W}.

(** [w'] is [w] with this to read, written, and reported. *)
Definition becomes (w w' : W) (inp : gmap Z (list Z)) (out err : list Z) : Prop :=
  input w' = inp ∧ output w' = out ∧ errors w' = err ∧ ∀ p, content w' p = content w p.
End view.

Class FilesSpec (W : Type) `{!Files W} : Prop := {
  read_ok w fd n l : input w !! fd = Some l → 0 < n →
    ∃ k w', serve (SRead fd n) w = Some ((Z.of_nat k, take k l), w') ∧ Z.of_nat k ≤ n ∧ (k ≤ length l)%nat ∧ (k = 0%nat → l = []) ∧
      becomes w w' (<[fd := drop k l]> (input w)) (output w) (errors w);
  write_out w bs : ∃ w', serve (SWrite 1 bs) w = Some (Z.of_nat (length bs), w') ∧ becomes w w' (input w) (output w ++ bs) (errors w);
  write_err w bs : ∃ w', serve (SWrite 2 bs) w = Some (Z.of_nat (length bs), w') ∧ becomes w w' (input w) (output w) (errors w ++ bs);
  open_ok w p l : content w p = Some l → (size (input w) < MAXOPEN)%nat →
    ∃ fd w', serve (SOpen p O_RDONLY) w = Some (fd, w') ∧ 0 ≤ fd ∧ input w !! fd = None ∧ becomes w w' (<[fd := l]> (input w)) (output w) (errors w);
  open_missing w p : content w p = None → ∃ w', serve (SOpen p O_RDONLY) w = Some (-1, w') ∧ becomes w w' (input w) (output w) (errors w);
  close_ok w fd l : input w !! fd = Some l → ∃ w', serve (SClose fd) w = Some (0, w') ∧ becomes w w' (delete fd (input w)) (output w) (errors w);
}.

(** What a program writes to descriptor [fd], 1 or 2. *)
Definition to_out (fd : Z) (l : list Z) : list Z := if fd =? 1 then l else [].
Definition to_err (fd : Z) (l : list Z) : list Z := if fd =? 1 then [] else l.

Ltac run_call H := eapply runs_bind; [apply runs_call; [reflexivity|exact H]| |done]; cbv beta iota.

Section programs.
Context {W : Type} `{!Files W, !FilesSpec W}.
Implicit Types (w : W).

Lemma becomes_refl w : becomes w w (input w) (output w) (errors w).
Proof. by repeat split. Qed.

Lemma becomes_trans w1 w2 w3 i o e i' o' e' : becomes w1 w2 i o e → becomes w2 w3 i' o' e' → becomes w1 w3 i' o' e'.
Proof. intros (_ & _ & _ & C) (? & ? & ? & C'). repeat split; try done. intros p. by rewrite C', C. Qed.

Lemma puts_ok fd l w : fd = 1 ∨ fd = 2 → ∃ w', runs (for_each (λ c, write fd [c];; mret tt) l) w (Done tt w') ∧ becomes w w' (input w) (output w ++ to_out fd l) (errors w ++ to_err fd l).
Proof.
  intros Hfd. revert w. induction l as [|c l IH]; intros w; cbn [for_each].
  - exists w. split; [apply runs_ret|]. unfold to_out, to_err. destruct (fd =? 1); rewrite !app_nil_r; apply becomes_refl.
  - assert (∃ w1, serve (SWrite fd [c]) w = Some (1, w1) ∧ becomes w w1 (input w) (output w ++ to_out fd [c]) (errors w ++ to_err fd [c])) as (w1 & E1 & B1).
    { unfold to_out, to_err. destruct Hfd as [-> | ->]; cbn; rewrite app_nil_r; [apply (write_out w [c])|apply (write_err w [c])]. }
    destruct (IH w1) as (w2 & R2 & B2). exists w2. split.
    + eapply runs_bind; [run_call E1; apply runs_ret|exact R2|done].
    + pose proof B1 as (Ei & Eo & Ee & _). rewrite Ei, Eo, Ee, <- !app_assoc in B2. eapply becomes_trans; [exact B1|].
      unfold to_out, to_err in *. by destruct (fd =? 1).
Qed.

Lemma fprintf_ok fd fmt args l w : fd = 1 ∨ fd = 2 → vprintf (str fmt) args = Some l →
  ∃ w', runs (fprintf fd fmt args) w (Done tt w') ∧ becomes w w' (input w) (output w ++ to_out fd l) (errors w ++ to_err fd l).
Proof. intros Hfd E. unfold fprintf. rewrite E. by apply puts_ok. Qed.

Lemma eprintf_ok fmt args l w : vprintf (str fmt) args = Some l →
  ∃ w', runs (fprintf 2 fmt args) w (Done tt w') ∧ becomes w w' (input w) (output w ++ []) (errors w ++ l).
Proof. intros E. exact (fprintf_ok 2 fmt args l w (or_intror eq_refl) E). Qed.

(** ** cat *)

Lemma cat_loop_ok fd l w : input w !! fd = Some l →
  ∃ w', runs (ITree.iter (cat_body fd) tt) w (Done 0 w') ∧ becomes w w' (<[fd := []]> (input w)) (output w ++ l) (errors w).
Proof.
  remember (length l) as m eqn:Hm. revert l w Hm. induction m as [m IH] using lt_wf_ind. intros l w -> Hl.
  destruct (read_ok w fd 512 l Hl eq_refl) as (k & w1 & E1 & Hk & Hkl & H0 & B1). destruct k as [|k].
  - rewrite (H0 eq_refl) in *. exists w1. split; [|by rewrite app_nil_r]. apply runs_iter_inr. run_call E1. apply runs_ret.
  - destruct (write_out w1 (take (S k) l)) as (w2 & E2 & B2). rewrite length_take_le in E2 by done.
    pose proof B1 as (Ei1 & Eo1 & Ee1 & _). rewrite Ei1, Eo1, Ee1 in B2. pose proof B2 as (Ei2 & Eo2 & Ee2 & _).
    destruct (IH (length (drop (S k) l))) with (l := drop (S k) l) (w := w2) as (w3 & R3 & B3); [rewrite length_drop; lia|done|by rewrite Ei2, lookup_insert_eq|].
    exists w3. split.
    + eapply runs_iter_inl; [|exact R3|done]. run_call E1. rewrite (proj2 (Z.ltb_lt _ _)) by lia. rewrite Nat2Z.id, take_take, Nat.min_id.
      run_call E2. rewrite Z.eqb_refl. apply runs_ret.
    + rewrite Ei2, Eo2, Ee2, insert_insert_eq, <- app_assoc, take_drop in B3. eapply becomes_trans; [exact B1|]. eapply becomes_trans; [exact B2|exact B3].
Qed.

Lemma cat_ok fd l w : input w !! fd = Some l → ∃ w', runs (cat fd) w (Done tt w') ∧ becomes w w' (<[fd := []]> (input w)) (output w ++ l) (errors w).
Proof. intros Hl. destruct (cat_loop_ok fd l w Hl) as (w' & R & B). exists w'. split; [|done]. eapply runs_bind; [exact R|apply runs_ret|done]. Qed.

(** A program that opens its arguments in turn, and appends [f] of the contents of each. *)
Section each.
Context (one : Z → list Z → user unit) (f : list Z → list Z → list Z) (ok : list Z → Prop).
Hypothesis one_ok : ∀ fd p l w, input w !! fd = Some l → ok l →
  ∃ w' l', runs (one fd p) w (Done tt w') ∧ becomes w w' (<[fd := l']> (input w)) (output w ++ f p l) (errors w).

Lemma each_ok p l w : content w p = Some l → ok l → (size (input w) < MAXOPEN)%nat →
  ∃ fd w1 w2 w3, runs (open p O_RDONLY) w (Done fd w1) ∧ 0 ≤ fd ∧ runs (one fd p) w1 (Done tt w2) ∧ runs (close fd) w2 (Done 0 w3) ∧
    becomes w w3 (input w) (output w ++ f p l) (errors w).
Proof.
  intros Hp Hok Hsz. destruct (open_ok w p l Hp Hsz) as (fd & w1 & E1 & Hfd & Hno & B1). pose proof B1 as (Ei1 & Eo1 & Ee1 & _).
  destruct (one_ok fd p l w1) as (w2 & l' & R2 & B2); [by rewrite Ei1, lookup_insert_eq|done|]. rewrite Ei1, Eo1, Ee1, insert_insert_eq in B2.
  pose proof B2 as (Ei2 & Eo2 & Ee2 & _). destruct (close_ok w2 fd l') as (w3 & E3 & B3); [by rewrite Ei2, lookup_insert_eq|].
  rewrite Ei2, Eo2, Ee2, delete_insert_id in B3 by done. exists fd, w1, w2, w3. split; [by apply runs_call|]. do 2 (split; [done|]).
  split; [by apply runs_call|]. eapply becomes_trans; [exact B1|]. by eapply becomes_trans.
Qed.

Definition shown w (args : argv) : list Z := concat ((λ p, f p (default [] (content w p))) <$> args).

Lemma for_files_app refuse args rest w :
  (∀ p, p ∈ args → ∃ l, content w p = Some l ∧ ok l) → (size (input w) < MAXOPEN)%nat →
  ∃ w', becomes w w' (input w) (output w ++ shown w args) (errors w) ∧
    ∀ o, o ≠ Running → runs (for_files one refuse rest) w' o → runs (for_files one refuse (args ++ rest)) w o.
Proof.
  revert w. induction args as [|p args IH]; intros w Hall Hsz; unfold shown; cbn [for_files fmap list_fmap concat app].
  - exists w. split; [|done]. rewrite app_nil_r. apply becomes_refl.
  - destruct (Hall p) as (l & Hp & Hok); [set_solver|]. destruct (each_ok p l w Hp Hok Hsz) as (fd & w1 & w2 & w3 & R1 & Hfd & R2 & R3 & B).
    pose proof B as (Ei & Eo & Ee & Ec). destruct (IH w3) as (w4 & B4 & R4); [|by rewrite Ei|].
    { intros q Hq. rewrite Ec. apply Hall. set_solver. }
    exists w4. split.
    + rewrite Ei, Eo, Ee, <- app_assoc in B4. eapply becomes_trans; [exact B|]. rewrite Hp. cbn [default].
      erewrite list_fmap_ext; [exact B4|]. intros i q _. cbn. by rewrite Ec.
    + intros o Ho R. eapply runs_bind; [exact R1| |done]. rewrite (proj2 (Z.ltb_ge _ _)) by lia. eapply runs_bind; [exact R2| |done].
      eapply runs_bind; [exact R3|by apply R4|done].
Qed.

Lemma for_files_ok refuse args w :
  (∀ p, p ∈ args → ∃ l, content w p = Some l ∧ ok l) → (size (input w) < MAXOPEN)%nat →
  ∃ w', runs (for_files one refuse args) w (Done tt w') ∧ becomes w w' (input w) (output w ++ shown w args) (errors w).
Proof.
  intros Hall Hsz. destruct (for_files_app refuse args [] w Hall Hsz) as (w' & B & R). exists w'. split; [|done].
  rewrite app_nil_r in R. apply R; [done|apply runs_ret].
Qed.

(** The first argument that does not exist. *)
Lemma for_files_missing refuse args p rest w out err :
  (∀ p, p ∈ args → ∃ l, content w p = Some l ∧ ok l) → (size (input w) < MAXOPEN)%nat → content w p = None →
  (∀ w, ∃ w', runs (refuse p) w (Done tt w') ∧ becomes w w' (input w) (output w ++ out) (errors w ++ err)) →
  ∃ w', runs (for_files one refuse (args ++ p :: rest)) w (Exited 1 w') ∧ becomes w w' (input w) (output w ++ shown w args ++ out) (errors w ++ err).
Proof.
  intros Hall Hsz Hp Href. destruct (for_files_app refuse args (p :: rest) w Hall Hsz) as (w1 & B1 & R1). pose proof B1 as (Ei1 & Eo1 & Ee1 & Ec1).
  destruct (open_missing w1 p) as (w2 & E2 & B2); [by rewrite Ec1|]. pose proof B2 as (Ei2 & Eo2 & Ee2 & _).
  destruct (Href w2) as (w3 & R3 & B3). exists w3. split.
  - apply R1; [done|]. cbn [for_files]. run_call E2. cbn. eapply runs_bind; [exact R3|apply runs_exit|done].
  - rewrite Ei2, Eo2, Ee2, Ei1, Eo1, Ee1, <- app_assoc in B3. eapply becomes_trans; [exact B1|]. by eapply becomes_trans.
Qed.
End each.

(** ** wc *)

(** A text cut at its white space, and the words in it. *)
Definition is_space (c : Z) : bool := existsb (Z.eqb c) (str " \r\t\n\v").
#[global] Arguments is_space : simpl never.

Fixpoint cut (l : list Z) : list (list Z) :=
  match l with
  | [] => [[]]
  | c :: l => if is_space c then [] :: cut l else match cut l with [] => [[c]] | x :: ws => (c :: x) :: ws end
  end.
Definition words (l : list Z) : list (list Z) := filter (λ x, x ≠ []) (cut l).
Definition newlines (l : list Z) : list Z := filter (λ c, c = 10) l.

Lemma cut_cons l : ∃ x ws, cut l = x :: ws.
Proof. destruct l as [|c l]; [by eexists _, _|]. cbn. destruct (is_space c); [by eexists _, _|]. destruct (cut l); by eexists _, _. Qed.

(** The words that end after the first byte, when it follows one of a word. *)
Definition more_words (inw : bool) (l : list Z) : list (list Z) := if inw then filter (λ x, x ≠ []) (tail (cut l)) else words l.

Lemma more_words_cons inw c l :
  length (more_words inw (c :: l)) = if is_space c then length (words l) else ((if inw then 0 else 1) + length (more_words true l))%nat.
Proof.
  unfold more_words, words. cbn [cut]. destruct (is_space c).
  - destruct inw; [done|]. by rewrite filter_cons_False by tauto.
  - destruct (cut_cons l) as (x & ws & E). rewrite E. cbn [tail]. destruct inw; [done|]. by rewrite filter_cons_True.
Qed.

Lemma wc_byte_eq l m c inw b : wc_byte (l, m, c, inw) b =
  if is_space b then (if b =? 10 then i32 (l + 1) else l, m, i32 (c + 1), false)
  else if negb inw then (if b =? 10 then i32 (l + 1) else l, i32 (m + 1), i32 (c + 1), true)
  else (if b =? 10 then i32 (l + 1) else l, m, i32 (c + 1), inw).
Proof. unfold wc_byte, is_space. cbv zeta beta iota. by destruct (existsb _ _), inw. Qed.

#[local] Ltac tuple := rewrite !pair_eq; cbn [length]; split_and!; try done; lia.

Lemma wc_bytes_ok l : ∀ a b c inw,
  0 ≤ a → 0 ≤ b → 0 ≤ c → a + Z.of_nat (length l) < 2 ^ 31 → b + Z.of_nat (length l) < 2 ^ 31 → c + Z.of_nat (length l) < 2 ^ 31 →
  ∃ inw', foldl wc_byte (a, b, c, inw) l =
    (a + Z.of_nat (length (newlines l)), b + Z.of_nat (length (more_words inw l)), c + Z.of_nat (length l), inw').
Proof.
  induction l as [|x l IH]; intros a b c inw Ha Hb Hc Hl1 Hl2 Hl3; cbn [foldl length] in *.
  - exists inw. cbn [newlines length]. destruct inw; cbn; by rewrite !Z.add_0_r.
  - rewrite more_words_cons. unfold newlines. rewrite wc_byte_eq, (i32_id (c + 1)) by lia.
    destruct (decide (x = 10)) as [-> | Hx].
    + rewrite filter_cons_True by done. change (is_space 10) with true. cbn [Z.eqb Pos.eqb]. rewrite i32_id by lia.
      destruct (IH (a + 1) b (c + 1) false) as (inw' & E); try lia. exists inw'. rewrite E. unfold more_words, newlines. tuple.
    + rewrite filter_cons_False, (proj2 (Z.eqb_neq x 10)) by done. destruct (is_space x).
      * destruct (IH a b (c + 1) false) as (inw' & E); try lia. exists inw'. rewrite E. unfold more_words, newlines. tuple.
      * destruct inw; cbn [negb].
        -- destruct (IH a b (c + 1) true) as (inw' & E); try lia. exists inw'. rewrite E. unfold newlines. tuple.
        -- rewrite i32_id by lia. destruct (IH a (b + 1) (c + 1) true) as (inw' & E); try lia. exists inw'. rewrite E. unfold newlines. tuple.
Qed.

Lemma wc_loop_ok fd l s w : input w !! fd = Some l →
  ∃ w', runs (ITree.iter (wc_body fd) s) w (Done (0, foldl wc_byte s l) w') ∧ becomes w w' (<[fd := []]> (input w)) (output w) (errors w).
Proof.
  remember (length l) as m eqn:Hm. revert l s w Hm. induction m as [m IH] using lt_wf_ind. intros l s w -> Hl.
  destruct (read_ok w fd 512 l Hl eq_refl) as (k & w1 & E1 & Hk & Hkl & H0 & B1). destruct k as [|k].
  - rewrite (H0 eq_refl) in *. exists w1. split; [|done]. apply runs_iter_inr. run_call E1. apply runs_ret.
  - pose proof B1 as (Ei1 & Eo1 & Ee1 & _).
    destruct (IH (length (drop (S k) l))) with (l := drop (S k) l) (s := foldl wc_byte s (take (S k) l)) (w := w1) as (w2 & R2 & B2);
      [rewrite length_drop; lia|done|by rewrite Ei1, lookup_insert_eq|].
    rewrite <- foldl_app, take_drop in R2. exists w2. split.
    + eapply runs_iter_inl; [|exact R2|done]. run_call E1. rewrite (proj2 (Z.ltb_lt _ _)) by lia. rewrite Nat2Z.id, take_take, Nat.min_id. apply runs_ret.
    + rewrite Ei1, Eo1, Ee1, insert_insert_eq in B2. by eapply becomes_trans.
Qed.

(** The decimal numeral that printf prints. *)
Definition dec (n : Z) : list Z := default [] (uprintint n 10 true).

Definition wc_line (name l : list Z) : list Z :=
  dec (Z.of_nat (length (newlines l))) ++ [32] ++ dec (Z.of_nat (length (words l))) ++ [32] ++ dec (Z.of_nat (length l)) ++ [32] ++ name ++ [10].

Lemma vprintf_d n f v args : vprintf_loop (S (S n)) false (37 :: 100 :: f) (Num v :: args) =
  (o ← uprintint (i32 v) 10 true; o' ← vprintf_loop n false f args; Some (o ++ o')).
Proof. cbn [vprintf_loop negb]. change (37 =? ch_pct) with true. unfold udirective. change (100 =? ch_d) with true. cbv iota. destruct (uprintint (i32 v) 10 true); reflexivity. Qed.

Lemma vprintf_s n f s args : vprintf_loop (S (S n)) false (37 :: 115 :: f) (Str (Some s) :: args) = (o' ← vprintf_loop n false f args; Some (s ++ o')).
Proof. done. Qed.

Lemma vprintf_c n c f args : c ≠ 37 → vprintf_loop (S n) false (c :: f) args = (o ← vprintf_loop n false f args; Some (c :: o)).
Proof. intros Hc. cbn [vprintf_loop negb]. by rewrite (proj2 (Z.eqb_neq c ch_pct) Hc). Qed.

Lemma wc_format a b c name : 0 ≤ a < 2 ^ 31 → 0 ≤ b < 2 ^ 31 → 0 ≤ c < 2 ^ 31 →
  vprintf (str "%d %d %d %s\n") [Num a; Num b; Num c; Str (Some name)] = Some (dec a ++ [32] ++ dec b ++ [32] ++ dec c ++ [32] ++ name ++ [10]).
Proof.
  intros Ha Hb Hc. destruct (uprintint_ok a ltac:(lia)) as (da & Ea & _), (uprintint_ok b ltac:(lia)) as (db & Eb & _), (uprintint_ok c ltac:(lia)) as (dc & Ec & _).
  unfold dec. rewrite Ea, Eb, Ec. cbn [default].
  change (str "%d %d %d %s\n") with [37; 100; 32; 37; 100; 32; 37; 100; 32; 37; 115; 10].
  unfold vprintf. cbn [length]. rewrite !vprintf_d, !i32_id, Ea by lia. cbn [mbind option_bind].
  rewrite vprintf_c by done. rewrite vprintf_d, i32_id, Eb by lia. cbn [mbind option_bind].
  rewrite vprintf_c by done. rewrite vprintf_d, i32_id, Ec by lia. cbn [mbind option_bind]. rewrite vprintf_c by done. rewrite vprintf_s. done.
Qed.

Lemma length_newlines l : (length (newlines l) ≤ length l)%nat.
Proof. apply length_filter. Qed.

Lemma length_words l : (length (words l) ≤ length l)%nat.
Proof.
  cut (∀ inw, length (more_words inw l) ≤ length l)%nat; [intros H; exact (H false)|]. induction l as [|c l IH]; intros inw; [by destruct inw|].
  rewrite more_words_cons. cbn [length]. pose proof (IH false) as H0. pose proof (IH true). unfold more_words at 1 in H0. destruct (is_space c); [lia|]. destruct inw; lia.
Qed.

Lemma wc_ok fd name l w : input w !! fd = Some l → Z.of_nat (length l) < 2 ^ 31 →
  ∃ w' l', runs (wc fd name) w (Done tt w') ∧ becomes w w' (<[fd := l']> (input w)) (output w ++ wc_line name l) (errors w).
Proof.
  intros Hl Hlen. destruct (wc_loop_ok fd l ((0, 0, 0, false)) w Hl) as (w1 & R1 & B1). destruct (wc_bytes_ok l 0 0 0 false) as (inw & E); try lia.
  rewrite E in R1. cbn [more_words] in R1. rewrite !Z.add_0_l in R1. pose proof (length_newlines l). pose proof (length_words l).
  destruct (fprintf_ok 1 "%d %d %d %s\n" _ _ w1 (or_introl eq_refl) (wc_format (Z.of_nat (length (newlines l))) (Z.of_nat (length (words l))) (Z.of_nat (length l)) name ltac:(lia) ltac:(lia) ltac:(lia))) as (w2 & R2 & B2).
  pose proof B1 as (Ei & Eo & Ee & _). rewrite Ei, Eo, Ee in B2. exists w2, []. split.
  - eapply runs_bind; [exact R1| |done]. exact R2.
  - eapply becomes_trans; [exact B1|]. unfold to_out, to_err in B2. rewrite app_nil_r in B2. exact B2.
Qed.

(** ** grep *)

Lemma grep_out_ok pattern fuel : ∀ p w, ∃ w', runs (grep_out fuel pattern p) w (Done (grep_lines fuel pattern p).2 w') ∧
  becomes w w' (input w) (output w ++ (grep_lines fuel pattern p).1) (errors w).
Proof.
  induction fuel as [|fuel IH]; intros p w; cbn [grep_out grep_lines].
  - exists w. split; [apply runs_ret|]. rewrite app_nil_r. apply becomes_refl.
  - destruct (split_nl p) as [[line rest]|].
    2:{ exists w. split; [apply runs_ret|]. rewrite app_nil_r. apply becomes_refl. }
    assert (∃ w1, runs (if match_ pattern line then write 1 (line ++ [ch_nl]);; mret tt else mret tt) w (Done tt w1) ∧
      becomes w w1 (input w) (output w ++ if match_ pattern line then line ++ [ch_nl] else []) (errors w)) as (w1 & R1 & B1).
    { destruct (match_ pattern line).
      - destruct (write_out w (line ++ [ch_nl])) as (w1 & E1 & B1). exists w1. split; [|done]. run_call E1. apply runs_ret.
      - exists w. split; [apply runs_ret|]. rewrite app_nil_r. apply becomes_refl. }
    pose proof B1 as (Ei & Eo & Ee & _). destruct (IH rest w1) as (w2 & R2 & B2). destruct (grep_lines fuel pattern rest) as [out last]. cbn [fst snd] in *.
    exists w2. split; [eapply runs_bind; [exact R1|exact R2|done]|]. rewrite Ei, Eo, Ee, <- app_assoc in B2. by eapply becomes_trans.
Qed.

(** The text has no NUL, and its lines fit in the buffer. *)
Definition plain (l : list Z) : Prop := Forall (λ x, x ≠ 0) l ∧ short_lines l.

Lemma grep_loop_ok pattern fd l : ∀ buf w, input w !! fd = Some l → plain (buf ++ l) → lines buf = ([], buf) →
  ∃ w', runs (ITree.iter (grep_body pattern fd) buf) w (Done tt w') ∧
    becomes w w' (<[fd := []]> (input w)) (output w ++ Grep.printed pattern (lines (buf ++ l)).1) (errors w).
Proof.
  remember (length l) as m eqn:Hm. revert l Hm. induction m as [m IH] using lt_wf_ind. intros l -> buf w Hl [Hz Hs] Hbuf.
  pose proof (short_unfinished buf l Hbuf Hs) as Hroom.
  destruct (read_ok w fd (Z.of_nat (BUFSIZE - length buf - 1)) l Hl ltac:(lia)) as (k & w1 & E1 & Hk & Hkl & H0 & B1). destruct k as [|k].
  - rewrite (H0 eq_refl) in *. exists w1. rewrite app_nil_r, Hbuf, app_nil_r. split; [|done]. apply runs_iter_inr. run_call E1. apply runs_ret.
  - assert (buf ++ l = (buf ++ take (S k) l) ++ drop (S k) l) as Esplit by (by rewrite <- app_assoc, take_drop).
    rewrite Esplit in Hz, Hs |- *. set (p := buf ++ take (S k) l) in *. pose proof (proj1 (proj1 (Forall_app _ _ _) Hz)) as Hp.
    pose proof B1 as (Ei1 & Eo1 & Ee1 & _). destruct (grep_out_ok pattern (S (length p)) p w1) as (w2 & R2 & B2).
    rewrite grep_lines_spec in R2, B2 by (done || lia). cbn [fst snd] in R2, B2. rewrite Ei1, Eo1, Ee1 in B2. pose proof B2 as (Ei2 & Eo2 & Ee2 & _).
    destruct (IH (length (drop (S k) l))) with (l := drop (S k) l) (buf := (lines p).2) (w := w2) as (w3 & R3 & B3).
    + rewrite length_drop. lia.
    + done.
    + by rewrite Ei2, lookup_insert_eq.
    + split; [|by apply short_lines_app]. apply Forall_app. split; [by apply unfinished_nonzero|by apply Forall_app in Hz as [_ ?]].
    + apply lines_unfinished.
    + exists w3. split.
      * eapply runs_iter_inl; [|exact R3|done]. run_call E1. rewrite (proj2 (Z.ltb_lt _ _)) by lia. rewrite Nat2Z.id, take_take, Nat.min_id.
        eapply runs_bind; [exact R2|apply runs_ret|done].
      * rewrite Ei2, Eo2, Ee2, insert_insert_eq, <- app_assoc, <- printed_app in B3. rewrite (lines_app p). cbn [fst].
        eapply becomes_trans; [exact B1|]. by eapply becomes_trans.
Qed.
End programs.

(** * Theorems *)

(** [cat] copies.  Given files that exist, whatever the pieces in which reads return
    them, [cat] exits with 0 and has written to its output their contents one after the
    other, and nothing else; at the first that does not exist it reports that and exits
    with 1, after the contents of those before. *)
Lemma cat_copies {W} `{!Files W, !FilesSpec W} (w : W) name args p rest :
  args ≠ [] → (∀ a, a ∈ args → content w a ≠ None) → content w p = None → (size (input w) < MAXOPEN)%nat →
  let data := concat ((λ a, default [] (content w a)) <$> args) in
  (∃ w', runs (cat_main (name :: args)) w (Exited 0 w') ∧ becomes w w' (input w) (output w ++ data) (errors w)) ∧
  (∃ w' msg, runs (cat_main (name :: args ++ p :: rest)) w (Exited 1 w') ∧ vprintf (str "cat: cannot open %s\n") [Str (Some p)] = Some msg ∧
    becomes w w' (input w) (output w ++ data) (errors w ++ msg)).
Proof.
  intros Hne Hall Hp Hsz data. assert (∀ a, a ∈ args → ∃ l, content w a = Some l ∧ True) as Hall'.
  { intros a Ha. specialize (Hall a Ha). destruct (content w a); [by eexists|done]. }
  assert (∀ fd (q : list Z) l (w : W), input w !! fd = Some l → True → ∃ w' l', runs (cat fd) w (Done tt w') ∧ becomes w w' (<[fd := l']> (input w)) (output w ++ l) (errors w)) as Hone.
  { intros fd q l w1 Hl _. destruct (cat_ok fd l w1 Hl) as (w2 & R & B). by exists w2, []. }
  split.
  - destruct (for_files_ok (λ fd _, cat fd) (λ _ l, l) (λ _, True) Hone (λ a, fprintf 2 "cat: cannot open %s\n" [Str (Some a)]) args w Hall' Hsz) as (w' & R & B).
    exists w'. split; [|exact B]. unfold cat_main. rewrite (proj2 (Nat.leb_gt _ _)) by (destruct args; [done|cbn; lia]). eapply runs_bind; [exact R|apply runs_exit|done].
  - assert (vprintf (str "cat: cannot open %s\n") [Str (Some p)] = Some (str "cat: cannot open " ++ p ++ [10])) as Em by done.
    destruct (for_files_missing (λ fd _, cat fd) (λ _ l, l) (λ _, True) Hone (λ a, fprintf 2 "cat: cannot open %s\n" [Str (Some a)]) args p rest w [] (str "cat: cannot open " ++ p ++ [10]) Hall' Hsz Hp) as (w' & R & B).
    { intros w1. exact (eprintf_ok _ _ _ w1 Em). }
    exists w', (str "cat: cannot open " ++ p ++ [10]). split; [|split; [exact Em|by rewrite app_nil_r in B]].
    unfold cat_main. rewrite (proj2 (Nat.leb_gt _ _)) by (destruct args; [done|cbn; lia]). by apply runs_bind_exit.
Qed.

(** C32. [wc] counts.  For each file it prints a line with the number of newlines in it, the
    number of words, that is of the pieces that are not empty when it is cut at white space,
    its length and its name, whatever the pieces in which reads return the file, also when
    they cut a word.  (The counters are [int]s, hence the bound.) *)
Theorem wc_counts {W} `{!Files W, !FilesSpec W} (w : W) name args :
  args ≠ [] → (∀ a, a ∈ args → ∃ l, content w a = Some l ∧ Z.of_nat (length l) < 2 ^ 31) → (size (input w) < MAXOPEN)%nat →
  ∃ w', runs (wc_main (name :: args)) w (Exited 0 w') ∧
    becomes w w' (input w) (output w ++ concat ((λ a, wc_line a (default [] (content w a))) <$> args)) (errors w).
Proof.
  intros Hne Hall Hsz. destruct (for_files_ok wc wc_line (λ l, Z.of_nat (length l) < 2 ^ 31) wc_ok (λ a, printf "wc: cannot open %s\n" [Str (Some a)]) args w Hall Hsz) as (w' & R & B).
  exists w'. split; [|exact B]. unfold wc_main. rewrite (proj2 (Nat.leb_gt _ _)) by (destruct args; [done|cbn; lia]). eapply runs_bind; [exact R|apply runs_exit|done].
Qed.

(** C33. [grep] prints exactly the lines that match.  If the files have no NUL byte and every
    line, the unfinished one at the end included, is shorter than the buffer allows (1023
    bytes), then however [read] cuts them into pieces [grep] exits with 0 and has written
    the complete lines of each file that match the pattern, with their newlines, in order. *)
Theorem grep_prints {W} `{!Files W, !FilesSpec W} (w : W) name pattern args :
  args ≠ [] → (∀ a, a ∈ args → ∃ l, content w a = Some l ∧ plain l) → (size (input w) < MAXOPEN)%nat →
  ∃ w', runs (grep_main (name :: pattern :: args)) w (Exited 0 w') ∧
    becomes w w' (input w) (output w ++ concat ((λ a, Grep.printed pattern (lines (default [] (content w a))).1) <$> args)) (errors w).
Proof.
  intros Hne Hall Hsz. destruct (for_files_ok (λ fd _, grep_file pattern fd) (λ _ l, Grep.printed pattern (lines l).1) plain) with (refuse := λ a : list Z, printf "grep: cannot open %s\n" [Str (Some a)]) (args := args) (w := w) as (w' & R & B); [|done|done|].
  { intros fd q l w1 Hl Hp. destruct (grep_loop_ok pattern fd l [] w1 Hl Hp eq_refl) as (w2 & R & B). by exists w2, []. }
  exists w'. split; [|exact B]. unfold grep_main. destruct args; [done|]. eapply runs_bind; [exact R|apply runs_exit|done].
Qed.

(** * Reads in pieces *)

(** A system with files and nothing else.  [sizes] says how many bytes the coming reads
    return, one byte each when it is used up. *)
Record stream := Stream {
  files : gmap (list Z) (list Z);
  ins : gmap Z (list Z);
  outs : list Z;
  errs : list Z;
  sizes : list nat;
}.

Definition next_fd (m : gmap Z (list Z)) : Z := map_fold (λ k _ r, Z.max (k + 1) r) 3 m.

Lemma next_fd_new m : 0 ≤ next_fd m ∧ m !! next_fd m = None.
Proof.
  cut (3 ≤ next_fd m ∧ ∀ k l, m !! k = Some l → k < next_fd m).
  - intros [H1 H2]. split; [lia|]. destruct (m !! next_fd m) eqn:E; [|done]. apply H2 in E. lia.
  - unfold next_fd. apply (map_fold_weak_ind (λ r m, 3 ≤ r ∧ ∀ k l, m !! k = Some l → k < r)).
    + split; [lia|]. intros k l. by rewrite lookup_empty.
    + intros i x m' r Hi [H1 H2]. split; [lia|]. intros k l [[<- _]|[_ Hk]]%lookup_insert_Some; [lia|]. specialize (H2 _ _ Hk). lia.
Qed.

Definition stream_serve X (e : sysE X) (s : stream) : option (X * stream) :=
  match e in sysE X return option (X * stream) with
  | SRead fd n =>
      match ins s !! fd with
      | None => Some ((-1, []), s)
      | Some l =>
          let k := Nat.min (Nat.min (Nat.max 1 (hd 1%nat (sizes s))) (Z.to_nat n)) (length l) in
          Some ((Z.of_nat k, take k l), Stream (files s) (<[fd := drop k l]> (ins s)) (outs s) (errs s) (tail (sizes s)))
      end
  | SWrite fd bs =>
      if fd =? 1 then Some (Z.of_nat (length bs), Stream (files s) (ins s) (outs s ++ bs) (errs s) (sizes s))
      else if fd =? 2 then Some (Z.of_nat (length bs), Stream (files s) (ins s) (outs s) (errs s ++ bs) (sizes s))
      else Some (-1, s)
  | SOpen p omode =>
      match files s !! p with
      | Some l =>
          if decide (size (ins s) < MAXOPEN ∧ omode = O_RDONLY)%nat
          then let fd := next_fd (ins s) in Some (fd, Stream (files s) (<[fd := l]> (ins s)) (outs s) (errs s) (sizes s))
          else Some (-1, s)
      | None => Some (-1, s)
      end
  | SClose fd =>
      match ins s !! fd with
      | Some _ => Some (0, Stream (files s) (delete fd (ins s)) (outs s) (errs s) (sizes s))
      | None => Some (-1, s)
      end
  | _ => None
  end.

#[export] Instance stream_files : Files stream := {
  serve := stream_serve;
  content s p := files s !! p;
  input := ins;
  output := outs;
  errors := errs;
}.

#[export] Instance stream_spec : FilesSpec stream.
Proof.
  constructor; cbn [input content output errors serve stream_files stream_serve].
  - intros s fd n l Hl Hn. rewrite Hl. eexists _, _. split; [done|]. split; [lia|]. split; [lia|]. split; [|by repeat split].
    intros H0. destruct l; [done|]. cbn [length] in H0. lia.
  - intros s bs. by eexists.
  - intros s bs. by eexists.
  - intros s p l Hp Hsz. rewrite Hp, decide_True by done. destruct (next_fd_new (ins s)) as [H1 H2]. eexists _, _. split; [done|]. by repeat split.
  - intros s p Hp. rewrite Hp. eexists. by repeat split.
  - intros s fd l Hl. rewrite Hl. by eexists.
Qed.

(** Two files, read three bytes and then one byte at a time. *)
Definition two_files : stream :=
  Stream (list_to_map [(str "a", str "one two\nthree"); (str "b", str "x\n two  words\n")]) ∅ [] [] [3%nat; 3%nat].

Lemma cat_copies_witness :
  ∃ w', runs (cat_main [str "cat"; str "a"; str "b"]) two_files (Exited 0 w') ∧ outs w' = str "one two\nthreex\n two  words\n".
Proof.
  destruct (cat_copies two_files (str "cat") [str "a"; str "b"] (str "c") []) as [(w' & R & B) _].
  - discriminate.
  - intros a [-> | [-> | []%not_elem_of_nil]%elem_of_cons]%elem_of_cons; vm_compute; discriminate.
  - vm_compute. reflexivity.
  - vm_compute. lia.
  - exists w'. split; [exact R|]. destruct B as (_ & E & _). cbn [output stream_files] in E. rewrite E. vm_compute. reflexivity.
Defined.

Lemma wc_counts_witness :
  ∃ w', runs (wc_main [str "wc"; str "a"; str "b"]) two_files (Exited 0 w') ∧ outs w' = str "1 3 13 a\n2 3 14 b\n".
Proof.
  destruct (wc_counts two_files (str "wc") [str "a"; str "b"]) as (w' & R & B).
  - discriminate.
  - intros a [-> | [-> | []%not_elem_of_nil]%elem_of_cons]%elem_of_cons; eexists; (split; [vm_compute; reflexivity|]); vm_compute; reflexivity.
  - vm_compute. lia.
  - exists w'. split; [exact R|]. destruct B as (_ & E & _). cbn [output stream_files] in E. rewrite E. vm_compute. reflexivity.
Defined.

Lemma grep_prints_witness :
  ∃ w', runs (grep_main [str "grep"; str "^.*tw"; str "a"; str "b"]) two_files (Exited 0 w') ∧ outs w' = str "one two\n two  words\n".
Proof.
  destruct (grep_prints two_files (str "grep") (str "^.*tw") [str "a"; str "b"]) as (w' & R & B).
  - discriminate.
  - intros a [-> | [-> | []%not_elem_of_nil]%elem_of_cons]%elem_of_cons; eexists; (split; [vm_compute; reflexivity|]); split; vm_compute; repeat constructor; lia.
  - vm_compute. lia.
  - exists w'. split; [exact R|]. destruct B as (_ & E & _). cbn [output stream_files] in E. rewrite E. vm_compute. reflexivity.
Defined.
