(* ===== verification/Unix.v ===== *)
(** What the system calls promise: a specification of the kernel for user programs.

    Processes, descriptors, pipes and a tree of files, with each system call as one step.  A
    directory is a file of entries, read and changed with the functions that the theorems on
    the kernel's directories use ([dfind], [free_entry], [overwrite]), and a path is cut and
    walked as in [namei_resolves].  Limits of the kernel that programs can run into are kept:
    descriptors, open files, processes, inodes, the length of paths, names, files and
    arguments.  Disk blocks are not counted, and physical memory only by the largest size of a
    process. *)

From ITree Require Import ITree.
From S2P Require Import Prelude Bytes Fdtable Sleeplock Bio Store Fs Dir FsBlock FsAlloc Dinode FsFile FsRead FsWrite FsFileProps FsInode FsDir FsPath FsLink.
From S2P Require Import Printf Grep User.

(** * State *)

Record node := Node { n_type : Z; n_major : Z; n_minor : Z; n_nlink : Z; n_data : list Z }.

(** An open file; descriptors that were duplicated or inherited share it, and its offset. *)
Inductive handle :=
| HFile (i : Z) (off : Z) (r w : bool)
| HDev (i : Z) (r w : bool)
| HPipe (p : nat) (wr : bool).

Record upipe := UPipe { p_buf : list Z; p_rd : bool; p_wr : bool }.

Record uproc := UProc {
  code : user unit;
  fds : list (option nat);
  cwd : Z;
  parent : Z;
  zombie : option Z;
  killed : bool;
  brk : Z;
  ram : gmap Z Z;
  until : option Z;
  sent : nat;
}.

Record unix := Unix {
  nodes : gmap Z node;
  handles : gmap nat handle;
  pipes : gmap nat upipe;
  procs : gmap Z uproc;
  nextpid : Z;
  ticks : Z;
  console : list Z;
  exits : list (Z * Z);
}.

Definition w_nodes f u := Unix (f (nodes u)) (handles u) (pipes u) (procs u) (nextpid u) (ticks u) (console u) (exits u).
Definition w_handles f u := Unix (nodes u) (f (handles u)) (pipes u) (procs u) (nextpid u) (ticks u) (console u) (exits u).
Definition w_pipes f u := Unix (nodes u) (handles u) (f (pipes u)) (procs u) (nextpid u) (ticks u) (console u) (exits u).
Definition w_procs f u := Unix (nodes u) (handles u) (pipes u) (f (procs u)) (nextpid u) (ticks u) (console u) (exits u).
Definition w_nextpid n u := Unix (nodes u) (handles u) (pipes u) (procs u) n (ticks u) (console u) (exits u).
Definition w_ticks n u := Unix (nodes u) (handles u) (pipes u) (procs u) (nextpid u) n (console u) (exits u).
Definition w_console l u := Unix (nodes u) (handles u) (pipes u) (procs u) (nextpid u) (ticks u) l (exits u).
Definition w_exits l u := Unix (nodes u) (handles u) (pipes u) (procs u) (nextpid u) (ticks u) (console u) l.

Definition w_code c p := UProc c (fds p) (cwd p) (parent p) (zombie p) (killed p) (brk p) (ram p) (until p) (sent p).
Definition w_fds l p := UProc (code p) l (cwd p) (parent p) (zombie p) (killed p) (brk p) (ram p) (until p) (sent p).
Definition w_cwd i p := UProc (code p) (fds p) i (parent p) (zombie p) (killed p) (brk p) (ram p) (until p) (sent p).
Definition w_parent i p := UProc (code p) (fds p) (cwd p) i (zombie p) (killed p) (brk p) (ram p) (until p) (sent p).
Definition w_zombie z p := UProc (code p) (fds p) (cwd p) (parent p) z (killed p) (brk p) (ram p) (until p) (sent p).
Definition w_killed b p := UProc (code p) (fds p) (cwd p) (parent p) (zombie p) b (brk p) (ram p) (until p) (sent p).
Definition w_mem b m p := UProc (code p) (fds p) (cwd p) (parent p) (zombie p) (killed p) b m (until p) (sent p).
Definition w_until t p := UProc (code p) (fds p) (cwd p) (parent p) (zombie p) (killed p) (brk p) (ram p) t (sent p).
Definition w_sent n p := UProc (code p) (fds p) (cwd p) (parent p) (zombie p) (killed p) (brk p) (ram p) (until p) n.

Definition on_proc (pid : Z) (f : uproc → uproc) (u : unix) : unix := w_procs (alter f pid) u.

Definition NPROC : nat := 64.
Definition NFILE : nat := 100.
Definition NINODES : nat := 200.
Definition MAXPATH : nat := 128.
Definition MAXARG : nat := 32.
Definition PIPESIZE : nat := 512.
Definition PGSIZE : Z := 4096.
Definition MAXFILESIZE : Z := MAXFILE * BSIZE.
(** filewrite writes three blocks in a transaction. *)
Definition WRITEMAX : Z := 3 * BSIZE.
Definition MEMMAX : Z := 120 * 1024 * 1024.
Definition BRK0 : Z := 0x8000.
Definition INITPID : Z := 1.

(** The lowest number of [l] that is not in use. *)
Definition first_free {A} (m : gmap nat A) (n : nat) : option nat := snd <$> list_find (λ k, m !! k = None) (seq 0 n).
Definition free_inode (m : gmap Z node) : option Z := (λ x, Z.of_nat x.2) <$> list_find (λ k, m !! Z.of_nat k = None) (seq 1 (NINODES - 1)).

(** * Files *)

Definition data (u : unix) (i : Z) : list Z := from_option n_data [] (nodes u !! i).
Definition type_of (u : unix) (i : Z) : Z := from_option n_type 0 (nodes u !! i).
Definition set_data (i : Z) (l : list Z) (u : unix) : unix := w_nodes (alter (λ n, Node (n_type n) (n_major n) (n_minor n) (n_nlink n) l) i) u.
Definition add_nlink (i d : Z) (u : unix) : unix := w_nodes (alter (λ n, Node (n_type n) (n_major n) (n_minor n) (n_nlink n + d) (n_data n)) i) u.

Definition u_child (u : unix) (i : Z) (name : list Z) : option Z := if type_of u i =? T_DIR then dlook name (data u i) else None.

Fixpoint u_walk (u : unix) (i : Z) (names : list (list Z)) : option Z :=
  match names with
  | [] => Some i
  | n :: names => i ← u_child u i n; u_walk u i names
  end.

Fixpoint u_walk_parent (u : unix) (i : Z) (names : list (list Z)) : option (Z * list Z) :=
  match names with
  | [] => None
  | n :: names =>
      match names with
      | [] => if type_of u i =? T_DIR then Some (i, n) else None
      | _ => i ← u_child u i n; u_walk_parent u i names
      end
  end.

Definition from (pr : uproc) (path : list Z) : Z := if hd 0 path =? SLASH then ROOTINO else cwd pr.

Definition resolve (u : unix) (pr : uproc) (path : list Z) : option Z :=
  if (length path <? MAXPATH)%nat then u_walk u (from pr path) (elems path) else None.
Definition resolve_parent (u : unix) (pr : uproc) (path : list Z) : option (Z * list Z) :=
  if (length path <? MAXPATH)%nat then u_walk_parent u (from pr path) (elems path) else None.

Definition entry (i : Z) (name : list Z) : list Z := le_enc 2 i ++ strncpy 14 name.

(** The first free entry, or one more. *)
Definition add_entry (dp : Z) (name : list Z) (i : Z) (u : unix) : unix :=
  let c := data u dp in set_data dp (overwrite (16 * free_entry (dents c)) (entry i name) c) u.

Definition DOT : list Z := [46].
Definition DOTDOT : list Z := [46; 46].

Definition create (u : unix) (pr : uproc) (path : list Z) (type major minor : Z) : option (Z * unix) :=
  '(dp, name) ← resolve_parent u pr path;
  match dlook name (data u dp) with
  | Some i => if (type =? T_FILE) && ((type_of u i =? T_FILE) || (type_of u i =? T_DEVICE)) then Some (i, u) else None
  | None =>
      i ← free_inode (nodes u);
      let u := w_nodes <[i := Node type major minor 1 []]> u in
      let u := if type =? T_DIR then add_entry i DOTDOT dp (add_entry i DOT i u) else u in
      let u := add_entry dp name i u in
      Some (i, if type =? T_DIR then add_nlink dp 1 u else u)
  end.

(** An inode without names that nobody uses is free. *)
Definition in_use (u : unix) (i : Z) : bool :=
  existsb (λ h, match h.2 with HFile j _ _ _ | HDev j _ _ => j =? i | HPipe _ _ => false end) (map_to_list (handles u)) ||
  existsb (λ p, (cwd p.2 =? i) && negb (bool_decide (is_Some (zombie p.2)))) (map_to_list (procs u)).
Definition collect (i : Z) (u : unix) : unix :=
  match nodes u !! i with
  | Some n => if (n_nlink n =? 0) && negb (in_use u i) then w_nodes (delete i) u else u
  | None => u
  end.

Definition is_empty (c : list Z) : bool := forallb (λ e, e.1 =? 0) (drop 2 (dents c)).

Definition unlink_ (u : unix) (pr : uproc) (path : list Z) : option unix :=
  '(dp, name) ← resolve_parent u pr path;
  if bool_decide (name = DOT) || bool_decide (name = DOTDOT) then None
  else
    '(k, (i, _)) ← dfind name (data u dp);
    if (if type_of u i =? T_DIR then negb (is_empty (data u i)) else false) then None
    else
      let u := set_data dp (overwrite (16 * k) (replicate 16 0) (data u dp)) u in
      let u := if type_of u i =? T_DIR then add_nlink dp (-1) u else u in
      Some (collect i (add_nlink i (-1) u)).

Definition link_ (u : unix) (pr : uproc) (old new : list Z) : option unix :=
  i ← resolve u pr old;
  if type_of u i =? T_DIR then None
  else
    '(dp, name) ← resolve_parent u pr new;
    match dlook name (data u dp) with
    | Some _ => None
    | None => Some (add_entry dp name i (add_nlink i 1 u))
    end.

(** * Descriptors *)

Definition open_ (u : unix) (pid : Z) (pr : uproc) (path : list Z) (omode : Z) : option (Z * unix) :=
  '(i, u) ← (if Z.land omode O_CREATE =? 0 then
               i ← resolve u pr path;
               if (type_of u i =? T_DIR) && negb (omode =? O_RDONLY) then None else Some (i, u)
             else create u pr path T_FILE 0 0);
  h ← first_free (handles u) NFILE;
  '(fd, l) ← fdalloc (fds pr) h;
  let r := Z.land omode O_WRONLY =? 0 in
  let w := negb (Z.land omode O_WRONLY =? 0) || negb (Z.land omode O_RDWR =? 0) in
  let u := w_handles <[h := if type_of u i =? T_DEVICE then HDev i r w else HFile i 0 r w]> u in
  let u := if negb (Z.land omode O_TRUNC =? 0) && (type_of u i =? T_FILE) then set_data i [] u else u in
  Some (Z.of_nat fd, on_proc pid (w_fds l) u).

Definition fd_handle (pr : uproc) (fd : Z) : option nat := if 0 <=? fd then mjoin (fds pr !! Z.to_nat fd) else None.

(** The open file ends with its last descriptor. *)
Definition held (u : unix) (h : nat) : bool := existsb (λ p, bool_decide (Some h ∈ fds p.2)) (map_to_list (procs u)).
Definition drop_handle (h : nat) (u : unix) : unix :=
  if held u h then u
  else
    let u' := w_handles (delete h) u in
    match handles u !! h with
    | Some (HFile i _ _ _) | Some (HDev i _ _) => collect i u'
    | Some (HPipe p wr) => w_pipes (alter (λ x, if wr then UPipe (p_buf x) (p_rd x) false else UPipe (p_buf x) false (p_wr x)) p) u'
    | None => u'
    end.

Definition close_ (u : unix) (pid : Z) (pr : uproc) (fd : Z) : option unix :=
  h ← fd_handle pr fd;
  Some (drop_handle h (on_proc pid (w_fds (<[Z.to_nat fd := None]> (fds pr))) u)).

Inductive answer (X : Type) := Reply (x : X) (u : unix) | Block (u : unix) | Die (u : unix).
Arguments Reply {X} x u.
Arguments Block {X} u.
Arguments Die {X} u.

Definition read_ (u : unix) (pr : uproc) (fd n : Z) : answer (Z * list Z) :=
  match fd_handle pr fd ≫= λ h, pair h <$> handles u !! h with
  | Some (h, HFile i off true w) =>
      let l := take (Z.to_nat n) (drop (Z.to_nat off) (data u i)) in
      let k := Z.of_nat (length l) in
      Reply (k, l) (w_handles <[h := HFile i (off + k) true w]> u)
  | Some (_, HDev _ true _) => Block u
  | Some (_, HPipe p false) =>
      match pipes u !! p with
      | Some x =>
          if bool_decide (p_buf x = []) && p_wr x then Block u
          else
            let l := take (Z.to_nat n) (p_buf x) in
            Reply (Z.of_nat (length l), l) (w_pipes <[p := UPipe (drop (length l) (p_buf x)) (p_rd x) (p_wr x)]> u)
      | None => Reply (-1, []) u
      end
  | _ => Reply (-1, []) u
  end.

Definition write_ (u : unix) (pid : Z) (pr : uproc) (fd : Z) (bs : list Z) : answer Z :=
  let n := Z.of_nat (length bs) in
  match fd_handle pr fd ≫= λ h, pair h <$> handles u !! h with
  | Some (h, HFile i off r true) =>
      let c := data u i in
      if Z.of_nat (length c) <? off then Reply (-1) u
      else
        let room := (MAXFILESIZE - off) / WRITEMAX * WRITEMAX in
        let k := if off + n <=? MAXFILESIZE then n else room in
        let u := set_data i (overwrite (Z.to_nat off) (take (Z.to_nat k) bs) c) u in
        Reply (if k =? n then n else -1) (w_handles <[h := HFile i (off + k) r true]> u)
  | Some (_, HDev _ _ true) => Reply n (w_console (console u ++ bs) u)
  | Some (_, HPipe p true) =>
      match pipes u !! p with
      | Some x =>
          if negb (p_rd x) then Reply (-1) (on_proc pid (w_sent 0) u)
          else
            let rest := drop (sent pr) bs in
            let k := Nat.min (length rest) (PIPESIZE - length (p_buf x)) in
            let u := w_pipes <[p := UPipe (p_buf x ++ take k rest) (p_rd x) (p_wr x)]> u in
            if bool_decide (k = length rest) then Reply n (on_proc pid (w_sent 0) u)
            else Block (on_proc pid (w_sent (sent pr + k)) u)
      | None => Reply (-1) u
      end
  | _ => Reply (-1) u
  end.

Definition pipe_ (u : unix) (pid : Z) (pr : uproc) : option ((Z * Z) * unix) :=
  h0 ← first_free (handles u) NFILE;
  h1 ← first_free (<[h0 := HPipe 0 false]> (handles u)) NFILE;
  '(fd0, l) ← fdalloc (fds pr) h0;
  '(fd1, l) ← fdalloc l h1;
  p ← first_free (pipes u) 1000;
  Some ((Z.of_nat fd0, Z.of_nat fd1),
    on_proc pid (w_fds l) (w_pipes <[p := UPipe [] true true]> (w_handles (λ m, <[h1 := HPipe p true]> (<[h0 := HPipe p false]> m)) u))).

Definition fstat_ (u : unix) (pr : uproc) (fd : Z) : option stat :=
  h ← fd_handle pr fd;
  x ← handles u !! h;
  match x with
  | HFile i _ _ _ | HDev i _ _ => n ← nodes u !! i; Some (Stat ROOTDEV i (n_type n) (n_nlink n) (Z.of_nat (length (n_data n))))
  | HPipe _ _ => None
  end.

(** * Processes *)

Definition PGROUNDUP (a : Z) : Z := (a + PGSIZE - 1) / PGSIZE * PGSIZE.

(** The addresses a process may read, and those it may write, above its text. *)
Definition TEXT : Z := 0x4000.
Definition valid (pr : uproc) (a n : Z) : bool := (0 <=? a) && (a + n <=? PGROUNDUP (brk pr)).
Definition writable (pr : uproc) (a n : Z) : bool := (TEXT <=? a) && valid pr a n.

Definition peek (pr : uproc) (a n : Z) : list Z := (λ k, default 0 (ram pr !! (a + Z.of_nat k))) <$> seq 0 (Z.to_nat n).
Fixpoint poke (m : gmap Z Z) (a : Z) (bs : list Z) : gmap Z Z :=
  match bs with
  | [] => m
  | b :: bs => poke (<[a := b]> m) (a + 1) bs
  end.

Definition sbrk_ (pr : uproc) (n : Z) : Z * uproc :=
  let b := brk pr + n in
  if 0 <? n then if MEMMAX <? b then (-1, pr) else (brk pr, w_mem b (ram pr) pr)
  else if b <? 0 then (brk pr, pr)
  else (brk pr, w_mem b (if n =? 0 then ram pr else filter (λ x, x.1 < PGROUNDUP b) (ram pr)) pr).

(** The first child that has exited, and whether there is a child at all. *)
Definition children (u : unix) (pid : Z) : list (Z * uproc) := filter (λ p, parent p.2 = pid) (map_to_list (procs u)).

Definition wait_ (u : unix) (pid : Z) : answer (option (Z * Z)) :=
  let l := children u pid in
  match list_find (λ p, is_Some (zombie p.2)) l with
  | Some (_, (c, p)) => Reply (Some (c, default 0 (zombie p))) (w_procs (delete c) u)
  | None => if bool_decide (l = []) then Reply None u else Block u
  end.

Definition kill_ (u : unix) (pid : Z) : option unix :=
  match procs u !! pid with
  | Some p => Some (on_proc pid (w_killed true) u)
  | None => None
  end.

Definition reply {X} (r : option unix) (ok bad : X) (u : unix) : answer X := match r with Some u => Reply ok u | None => Reply bad u end.

(** The calls that return. *)
Definition syscall (u : unix) (pid : Z) (pr : uproc) X (e : sysE X) : answer X :=
  match e in sysE X return answer X with
  | SWait => wait_ u pid
  | SPipe => match pipe_ u pid pr with Some (p, u) => Reply (Some p) u | None => Reply None u end
  | SRead fd n => read_ u pr fd n
  | SWrite fd bs => write_ u pid pr fd bs
  | SClose fd => reply (close_ u pid pr fd) 0 (-1) u
  | SKill p => reply (kill_ u p) 0 (-1) u
  | SOpen path omode => match open_ u pid pr path omode with Some (fd, u) => Reply fd u | None => Reply (-1) u end
  | SMknod path major minor => reply (snd <$> create u pr path T_DEVICE major minor) 0 (-1) u
  | SUnlink path => reply (unlink_ u pr path) 0 (-1) u
  | SFstat fd => Reply (fstat_ u pr fd) u
  | SLink old new => reply (link_ u pr old new) 0 (-1) u
  | SMkdir path => reply (snd <$> create u pr path T_DIR 0 0) 0 (-1) u
  | SChdir path =>
      match resolve u pr path with
      | Some i => if type_of u i =? T_DIR then Reply 0 (collect (cwd pr) (on_proc pid (w_cwd i) u)) else Reply (-1) u
      | None => Reply (-1) u
      end
  | SDup fd =>
      match fd_handle pr fd ≫= λ h, fdalloc (fds pr) h with
      | Some (fd', l) => Reply (Z.of_nat fd') (on_proc pid (w_fds l) u)
      | None => Reply (-1) u
      end
  | SGetpid => Reply pid u
  | SSbrk n => let '(r, p) := sbrk_ pr n in Reply r (w_procs <[pid := p]> u)
  | SSleep n =>
      match until pr with
      | None => Block (on_proc pid (w_until (Some (ticks u + n))) u)
      | Some t => if t <=? ticks u then Reply 0 (on_proc pid (w_until None) u) else Block u
      end
  | SUptime => Reply (ticks u) u
  | SPeek a n => if valid pr a n then Reply (peek pr a n) u else Die u
  | SPoke a bs => if writable pr a (Z.of_nat (length bs)) then Reply tt (on_proc pid (w_mem (brk pr) (poke (ram pr) a bs)) u) else Die u
  | SReadAt fd a n =>
      if writable pr a n then
        match read_ u pr fd n with
        | Reply (k, l) u => Reply k (on_proc pid (w_mem (brk pr) (poke (ram pr) a l)) u)
        | Block u => Block u
        | Die u => Die u
        end
      else Reply (-1) u
  | SWriteAt fd a n => if valid pr a n then write_ u pid pr fd (peek pr a n) else Reply (-1) u
  | SExit _ | SFork | SExec _ _ | SFault => Die u
  end.

Definition close_all (pid : Z) (u : unix) : unix :=
  match procs u !! pid with
  | Some pr => foldl (λ u o, match o with Some h => drop_handle h u | None => u end) (on_proc pid (w_fds []) u) (fds pr)
  | None => u
  end.

Definition exit_ (pid st : Z) (u : unix) : unix :=
  let u := close_all pid u in
  let dir := from_option cwd 0 (procs u !! pid) in
  let u := on_proc pid (λ p, w_zombie (Some st) (w_code (mret tt) p)) u in
  let u := w_procs (fmap (λ p, if parent p =? pid then w_parent INITPID p else p)) u in
  w_exits (exits u ++ [(pid, st)]) (collect dir u).

Definition fork_ (u : unix) (pid : Z) (pr : uproc) (k : Z → user unit) : unix :=
  if (size (procs u) <? NPROC)%nat then
    let c := nextpid u in
    let child := UProc (k 0) (fds pr) (cwd pr) pid None false (brk pr) (ram pr) None 0 in
    w_nextpid (c + 1) (w_procs (λ m, <[c := child]> (<[pid := w_code (k c) pr]> m)) u)
  else on_proc pid (w_code (k (-1))) u.

(** The programs, by inode. *)
Section machine.
Context (binaries : gmap Z (argv → user unit)).

(** Arguments must fit in a page each, and on the stack of one page together. *)
Definition args_fit (args : argv) : bool :=
  (length args <? MAXARG)%nat && forallb (λ a, Z.of_nat (length a) <? PGSIZE) args &&
  (foldr (λ a n, (Z.of_nat (length a) + 16) / 16 * 16 + n) ((Z.of_nat (length args) + 2) / 2 * 16) args <=? PGSIZE).

Definition exec_ (u : unix) (pr : uproc) (path : list Z) (args : argv) : option uproc :=
  i ← resolve u pr path;
  main ← binaries !! i;
  if args_fit args then Some (w_mem BRK0 ∅ (w_code (start main args) pr)) else None.

(** A step of process [pid]: a system call, the attempt of one that has to wait, or the
    consequence of having been killed. *)
Definition step (pid : Z) (u : unix) : unix :=
  match procs u !! pid with
  | None => u
  | Some pr =>
      if bool_decide (is_Some (zombie pr)) then u
      else if killed pr then exit_ pid (-1) u
      else
        match observe (code pr) with
        | RetF _ => exit_ pid 0 u
        | TauF t => on_proc pid (w_code t) u
        | VisF e k =>
            match e in sysE X return (X → user unit) → unix with
            | SExit st => λ _, exit_ pid st u
            | SFork => λ k, fork_ u pid pr k
            | SExec path args => λ k, match exec_ u pr path args with Some p => w_procs <[pid := p]> u | None => on_proc pid (w_code (k (-1))) u end
            | SFault => λ _, exit_ pid (-1) u
            | e => λ k,
                match syscall u pid pr _ e with
                | Reply x u => on_proc pid (w_code (k x)) u
                | Block u => u
                | Die u => exit_ pid (-1) u
                end
            end k
        end
  end.

(** Each process in turn, and a tick of the clock. *)
Definition round (u : unix) : unix := w_ticks (ticks u + 1) (foldl (λ u pid, step pid u) u (map_to_list (procs u)).*1).

Fixpoint rounds (n : nat) (u : unix) : unix :=
  match n with
  | O => u
  | S n => rounds n (round u)
  end.
End machine.
