(* ===== verification/FsCalls.v ===== *)
(** The system calls on names implement their specification.

    [shows] relates the disk to the files of the specification (Unix): the inodes in use are
    its nodes, with the same types, link counts and contents.  The part of a call of
    kernel/sysfile.c that works on the file system, in a transaction on a consistent volume,
    returns what the specification says and leaves the volume consistent and showing the
    files that the specification has then; only a full disk makes the kernel refuse more. *)

From S2P Require Import Prelude Bytes Sleeplock Bio Store Fs Dir FsBlock FsAlloc Dinode FsFile FsRead FsWrite FsFileProps.
From S2P Require Import BioInv Log LogInv LogProps StoreLog Mkfs MkfsInv MkfsProps MkfsBoot.
From S2P Require Import FsInode FsDir FsPath FsLink FsTrunc FsVol Sysfile User Unix.

(** * Paths of bytes *)

Lemma bytes_split path : bytes path → Forall bytes (split_path path).
Proof.
  induction 1 as [|c p Hc _ IH]; [by repeat constructor|]. cbn [split_path]. destruct (c =? SLASH); [constructor; [constructor|done]|].
  destruct IH as [|e es He Hes]; (constructor; [|done]); by apply Forall_cons.
Qed.

Lemma bytes_elems path : bytes path → bytes (default [] (last (elems path))).
Proof.
  intros Hp%bytes_split. destruct (last (elems path)) as [e|] eqn:E; [|constructor]. apply last_Some_elem_of in E. unfold elems in E.
  apply list_elem_of_fmap in E as (x & -> & Hx). apply list_elem_of_filter in Hx as [_ Hx]. cbn. apply Forall_take. rewrite Forall_forall in Hp. by apply Hp.
Qed.

(** * The specification *)

Section same.
Context (u u' : unix).
Hypothesis Ht : ∀ i, type_of u' i = type_of u i.
Hypothesis Hd : ∀ i, data u' i = data u i.

Lemma u_child_same i n : u_child u' i n = u_child u i n.
Proof using All. unfold u_child. by rewrite Ht, Hd. Qed.

Lemma u_walk_parent_same names : ∀ i, u_walk_parent u' i names = u_walk_parent u i names.
Proof using All.
  induction names as [|n names IH]; intros i; [done|]. cbn [u_walk_parent]. rewrite Ht, u_child_same. destruct names; [done|].
  destruct (u_child u i n); [apply IH|done].
Qed.
End same.

Lemma lookup_add_nlink i d u j : nodes (add_nlink i d u) !! j =
  (λ n, if decide (j = i) then Node (n_type n) (n_major n) (n_minor n) (n_nlink n + d) (n_data n) else n) <$> nodes u !! j.
Proof.
  unfold add_nlink, w_nodes. cbn [nodes]. destruct (decide (j = i)) as [-> | Hne]; [by rewrite lookup_alter_eq|].
  rewrite lookup_alter_ne by done. by destruct (nodes u !! j).
Qed.

Lemma type_add_nlink i d u j : type_of (add_nlink i d u) j = type_of u j.
Proof. unfold type_of. rewrite lookup_add_nlink. destruct (nodes u !! j); [|done]. cbn. by case_decide. Qed.
Lemma data_add_nlink i d u j : data (add_nlink i d u) j = data u j.
Proof. unfold data. rewrite lookup_add_nlink. destruct (nodes u !! j); [|done]. cbn. by case_decide. Qed.

(** * The files on the disk *)

Section calls.
Context {S : Type} `{!Store S, !StoreSpec S}.
Implicit Types (s : fs S) (u : unix).

Definition node_of s (i : Z) : node := let x := disk_inode s i in Node (d_type x) (d_major x) (d_minor x) (d_nlink x) (file_data s i).

#[local] Existing Instance live_dec.

Record shows s u : Prop := {
  sh_count : ninodes (sb s) = Z.of_nat NINODES;
  sh_nodes : ∀ i, nodes u !! i = if decide (live s i) then Some (node_of s i) else None;
}.

Lemma shows_looks s s' u : looks s s' → shows s u → shows s' u.
Proof.
  intros L [H1 H2]. constructor; [by rewrite (lo_sb _ _ L)|]. intros i. rewrite H2. rewrite (decide_ext (live s' i) (live s i)) by (by apply live_looks).
  unfold node_of. by rewrite (looks_inode _ _ i L), (proj2 (probe_looks s s' i L)).
Qed.

Lemma shows_type s u i : shows s u → live s i → type_of u i = d_type (disk_inode s i) ∧ data u i = file_data s i.
Proof. intros H Hi. unfold type_of, data. by rewrite (sh_nodes _ _ H), decide_True. Qed.

Lemma shows_child s u i n : shows s u → live s i → u_child u i n = child s i n.
Proof.
  intros H Hi. destruct (shows_type s u i H Hi) as [E1 E2]. unfold u_child, child. by rewrite E1, E2.
Qed.

Lemma shows_target b s u names : volume s → shows s u → ∀ i, named s i →
  target s b i names = if b then fst <$> u_walk_parent u i names else u_walk u i names.
Proof.
  intros V H. induction names as [|n names IH]; intros i Hi; [by destruct b|]. rewrite target_step. pose proof (shows_child s u i n H (proj1 Hi)) as Ec.
  cbn [u_walk_parent u_walk]. rewrite Ec. destruct (shows_type s u i H (proj1 Hi)) as [Et _]. rewrite Et.
  destruct (child s i n) as [i'|] eqn:E; cbn [mbind option_bind].
  - pose proof (child_tree s (named s) i n i' (volume_tree s V) Hi E) as Hn. rewrite (IH i' Hn). destruct b; [|done]. cbn [andb].
    destruct names; [by destruct (_ =? _)|done].
  - destruct b; [|done]. cbn [andb]. destruct names; [by destruct (_ =? _)|done].
Qed.

(** One file changes. *)
Lemma shows_changes s s' u i f :
  volume s → shows s u → live s i → changes s i s' → live s' i → node_of s' i = f (node_of s i) → shows s' (w_nodes (alter f i) u).
Proof.
  intros V [H1 H2] Hi Ch Hi' Hf. constructor; [by rewrite (ch_sb _ _ _ Ch)|]. intros j. cbn [nodes w_nodes]. destruct (decide (j = i)) as [-> | Hne].
  - rewrite lookup_alter_eq, H2, !decide_True by done. cbn. by rewrite Hf.
  - rewrite lookup_alter_ne, H2 by done. destruct (decide (live s j)) as [Hj|Hj].
    + rewrite decide_True by (apply (other_live s s' i j); try done; apply Hi). unfold node_of.
      by rewrite (other_inode s s' i j Ch Hj Hne), (other_data s s' i j V (proj1 Hi) Ch Hj Hne).
    + rewrite decide_False; [done|]. intros Hj'. apply Hj. by apply (live_back s i s' j V (proj1 Hi)).
Qed.

Lemma shows_same s s' u i :
  volume s → shows s u → live s i → changes s i s' → live s' i → node_of s' i = node_of s i → shows s' u.
Proof.
  intros V H Hi Ch Hi' Hf. destruct (shows_changes s s' u i (λ x, x) V H Hi Ch Hi' Hf) as [H1 H2]. constructor; [done|]. intros j. rewrite <- H2. cbn [nodes w_nodes].
  destruct (decide (j = i)) as [-> | Hne]; [rewrite lookup_alter_eq; by destruct (nodes u !! i)|by rewrite lookup_alter_ne].
Qed.

Lemma shows_undo s u i : shows s (add_nlink i (-1) (add_nlink i 1 u)) → shows s u.
Proof.
  intros [H1 H2]. constructor; [done|]. intros j. rewrite <- H2, !lookup_add_nlink. destruct (nodes u !! j) as [[a b c d e]|]; [|done]. cbn.
  case_decide; [|done]. cbn. do 2 f_equal. lia.
Qed.

(** What makes the kernel refuse a name that the specification allows. *)
Definition no_room s u (d : Z) : Prop := full s ∨ Z.of_nat (length (data u d)) = MAXFILE * BSIZE.

Lemma length_file_data s i : wf_file s i → Z.of_nat (length (file_data s i)) = d_size (disk_inode s i).
Proof.
  intros [_ _ [Hs _] _]. unfold file_data. rewrite length_contents. change (meta 0 (probe s i)) with (disk_inode s i) in *. lia.
Qed.

(** ** Links *)

Context (pid : Z).
Implicit Types (P : gset Z) (r : nat → option (Z * Z)).

Lemma full_looks s s' : looks s s' → full s → full s'.
Proof using Type. intros L Hf b. rewrite (lo_sb _ _ L). intros Hb. unfold used. rewrite (lo_sb _ _ L), (lo_blks _ _ L). by apply Hf. Qed.
Lemma full_changes s i s' : changes s i s' → full s → full s'.
Proof using Type. intros Ch Hf b. rewrite (ch_sb _ _ _ Ch). intros Hb. by apply (ch_used _ _ _ Ch), Hf. Qed.

Lemma refs_put s s' j i r : (∀ k, refs s k = add_ref j i r k) → fits_ref r j i → (∀ k, refs s' k = drop_ref j (refs s) k) → ∀ k, refs s' k = r k.
Proof using Type. intros F Hf F' k. rewrite F', <- (drop_add r j i k Hf). unfold drop_ref. by rewrite !F. Qed.

Lemma ref_held s j i r : (∀ k, refs s k = add_ref j i r k) → refs s j = Some (i, 1 + from_option snd 0 (r j)).
Proof using Type. intros F. rewrite F. unfold add_ref. by rewrite decide_True. Qed.

(** The number of links changes. *)
Lemma count_k d s h P j i n u :
  kstate pid s h P → refs s j = Some (i, n) → loaded s j i → (size P < LOGCAP)%nat → named s i → shows s u → let c := d_nlink (disk_inode s i) + d in
  0 ≤ c < 2 ^ 15 → (c = 0 → unlisted s i) →
  ∃ s1 s', link_count j d s = Ret tt s1 ∧ iupdate j s1 = Ret tt s' ∧ kstate pid s' h ({[IBLOCK i (sb s)]} ∪ P) ∧ (∀ k, refs s' k = refs s k) ∧ loaded s' j i ∧
    changes s i s' ∧ shows s' (add_nlink i d u) ∧ d_nlink (disk_inode s' i) = c ∧ d_type (disk_inode s' i) = d_type (disk_inode s i) ∧ stays s s'.
Proof using Type.
  intros K Hj Ld HP Hn Hs c Hd Hc. pose proof K as [V _ _ _]. set (g := λ x, set_nlink (i16 (d_nlink x + d)) x).
  assert (i16 (d_nlink (disk_inode s i) + d) = c) as Ei.
  { unfold i16. fold c. change (2 ^ 15) with 32768 in *. change (2 ^ 16) with 65536. rewrite Z.mod_small; lia. }
  destruct (update_k pid g s h P j i n K Hj Ld HP) as (s' & E & K' & F' & Ld' & Ch & Ed & Hdat & _ & St); try done.
  { destruct (vo_file _ V i (proj1 Hn)) as [_ _ _ [D1 D2 D3 D4 D5 D6 D7]]. constructor; try done. cbn [g d_nlink set_nlink]. rewrite Ei. change (2 ^ 15) with 32768 in *. lia. }
  { cbn [g d_nlink set_nlink]. rewrite Ei. destruct (decide (c = 0)) as [Hz|Hz]; [right; by apply Hc|by left]. }
  { by left. }
  assert (d_nlink (disk_inode s' i) = c) as En by (by rewrite Ed; cbn [g d_nlink set_nlink]).
  assert (live s' i) as Hl by (destruct Hn as [[H1 H2] _]; split; [unfold inum_ok; by rewrite (ch_sb _ _ _ Ch)|by rewrite Ed]).
  exists (iupd j (λ x, set_idata (g (idata x)) x) s), s'. split; [done|]. do 5 (split; [done|]).
  split; [|split; [done|split; [by rewrite Ed|done]]].
  apply (shows_changes s s' u i); try done; [apply Hn|]. unfold node_of. rewrite Ed, Hdat. cbn [g d_nlink set_nlink d_type d_major d_minor]. by rewrite Ei.
Qed.

Lemma link_count_k d s h P j i n u :
  kstate pid s h P → refs s j = Some (i, n) → loaded s j i → (size P < LOGCAP)%nat → named s i → shows s u →
  0 < d_nlink (disk_inode s i) + d < 2 ^ 15 →
  ∃ s1 s', link_count j d s = Ret tt s1 ∧ iupdate j s1 = Ret tt s' ∧ kstate pid s' h ({[IBLOCK i (sb s)]} ∪ P) ∧ (∀ k, refs s' k = refs s k) ∧ loaded s' j i ∧
    (∀ k, named s k → named s' k) ∧ shows s' (add_nlink i d u) ∧ (full s → full s') ∧ d_nlink (disk_inode s' i) = d_nlink (disk_inode s i) + d ∧ stays s s'.
Proof using Type.
  intros K Hj Ld HP Hn Hs Hd. destruct (count_k d s h P j i n u K Hj Ld HP Hn Hs) as (s1 & s' & E1 & E2 & K' & F' & Ld' & Ch & Hs' & En & _ & St); [lia|lia|].
  exists s1, s'. do 5 (split; [done|]). split; [|split; [done|split; [by apply (full_changes s i)|done]]]. pose proof (ks_vol _ _ _ _ K) as V.
  intros k Hk. apply (named_other s i s' k V (proj1 (proj1 Hn)) Ch Hk). intros _. split; [|lia]. apply (ks_refs _ _ _ _ K' j i n). by rewrite F'.
Qed.

(** [dirlink], in the specification. *)
Lemma dirlink_shows fuel s h P dp d n name i u :
  kstate pid s h P → refs s dp = Some (d, n) → loaded s dp d → named s d → d_type (disk_inode s d) = T_DIR → slots 1 s → bytes name → named s i →
  (size P + 7 < LOGCAP)%nat → shows s u →
  ∃ v s' P', dirlink pid fuel dp name i s = Ret v s' ∧ kstate pid s' h P' ∧ (size P' ≤ size P + 7)%nat ∧ (∀ k, refs s' k = refs s k) ∧ loaded s' dp d ∧
    (∀ k, named s k → named s' k ∧ same_meta (disk_inode s k) (disk_inode s' k)) ∧
    match dlook name (data u d) with
    | Some _ => v = -1 ∧ shows s' u
    | None => (∀ j, j ≠ dp → ino j s' = ino j s) ∧ (v = 0 ∧ shows s' (add_entry d name i u) ∨ v = -1 ∧ shows s' u ∧ no_room s' u d)
    end.
Proof using Type.
  intros K Hr Ld Hd Ht Hsl Hb Hi HP Hs. pose proof (ks_vol _ _ _ _ K) as V. destruct (shows_type s u d Hs (proj1 Hd)) as [_ Edat].
  destruct (dirlink_k pid fuel s h P dp d n name i K Hr Ld Hd Ht Hsl Hb Hi HP) as (v & s' & P' & E & K' & HP' & F' & Ld' & Hres).
  exists v, s', P'. do 5 (split; [done|]). rewrite Edat. destruct (dlook name (file_data s d)) as [i2|].
  - destruct Hres as [-> L]. split; [|split; [done|by apply (shows_looks s)]]. intros k Hk. split; [by apply (named_looks s s')|]. by rewrite (looks_inode _ _ k L).
  - destruct Hres as (Ch & Hsm & Hin & _ & Hres). pose proof Hsm as (Et & _ & _ & En).
    assert (named s' d) as Hd'.
    { destruct Hd as [[H1 H2] H3]. split; [split|]; [unfold inum_ok; by rewrite (ch_sb _ _ _ Ch)|congruence..]. }
    split; [|split; [done|]].
    { intros k Hk. destruct (decide (k = d)) as [-> | Hne]; [done|]. split; [by apply (named_other s d s'); try done; apply Hd|].
      by rewrite (other_inode s s' d k Ch (proj1 Hk) Hne). }
    destruct Hres as [[-> Hdat]|(-> & Hdat & Hfull)]; [left|right]; (split; [done|]).
    + unfold add_entry. rewrite Edat. apply (shows_changes s s' u d); try done; [apply Hd|apply Hd'|]. unfold node_of. destruct Hsm as (-> & -> & -> & ->). by rewrite Hdat.
    + split; [apply (shows_same s s' u d); try done; [apply Hd|apply Hd'|]; unfold node_of; destruct Hsm as (-> & -> & -> & ->); by rewrite Hdat|].
      unfold no_room. rewrite Edat, length_file_data by (apply (vo_file _ V), Hd). done.
Qed.

Context (fuel : nat).
Hypothesis Hfuel : (0 < fuel)%nat.

Lemma link_bad_k s P j i r u :
  kstate pid s ∅ P → (∀ k, refs s k = add_ref j i r k) → fits_ref r j i → shows s (add_nlink i 1 u) → named s i → 1 < d_nlink (disk_inode s i) → (size P < LOGCAP)%nat →
  ∃ s' P', link_bad pid fuel j s = Ret (-1) s' ∧ kstate pid s' ∅ P' ∧ P' ⊆ {[IBLOCK i (sb s)]} ∪ P ∧ (∀ k, refs s' k = r k) ∧ shows s' u ∧ (full s → full s').
Proof using Hfuel.
  intros K F Hf Hs Hn Hl HP. pose proof (ref_held s j i r F) as Hj. assert (size P < NBUF)%nat as HB by (unfold LOGCAP, NBUF in *; lia).
  destruct (lock_k pid fuel Hfuel s ∅ P j i _ K HB ltac:(done) Hj) as (s1 & E1 & K1 & L1 & F1 & Ld1 & _). rewrite union_empty_r_L in K1.
  pose proof (proj2 (named_looks s s1 i L1) Hn) as Hn1. pose proof (looks_inode _ _ i L1) as Ei. pose proof (vo_file _ (ks_vol _ _ _ _ K) i (proj1 Hn)) as [_ _ _ D].
  pose proof (dk_nlink _ D) as Hb. change (meta 0 (probe s i)) with (disk_inode s i) in Hb.
  destruct (link_count_k (-1) s1 {[j]} P j i _ _ K1 ltac:(by rewrite F1) Ld1 HP Hn1 (shows_looks s s1 _ L1 Hs)) as (s2 & s3 & E2 & E3 & K3 & F3 & Ld3 & Hnm3 & Hs3 & Hf3 & En & _); [rewrite Ei; lia|]. pose proof (Hnm3 i Hn1) as Hn3.
  destruct (unlockput_k pid fuel s3 {[j]} _ j i (1 + from_option snd 0 (r j)) K3 ltac:(set_solver) ltac:(by rewrite F3, F1) Ld3 (or_intror Hn3)) as (s4 & E4 & K4 & L4 & F4 & _). rewrite difference_diag_L in K4.
  exists s4, ({[IBLOCK i (sb s1)]} ∪ P). split.
  { unfold link_bad. rewrite (bind_ret_eq _ _ _ _ _ E1), (bind_ret_eq _ _ _ _ _ E2), (bind_ret_eq _ _ _ _ _ E3), (bind_ret_eq _ _ _ _ _ E4). done. }
  split; [done|]. split; [by rewrite (lo_sb _ _ L1)|]. split; [|split; [by apply (shows_undo s4 u i), (shows_looks s3 s4)|]].
  - apply (refs_put s3 s4 j i r); [|done|done]. intros k. by rewrite F3, F1, F.
  - intros Hfl. by apply (full_looks s3 s4 L4), Hf3, (full_looks s s1 L1).
Qed.

(** The rest of [link_op], once the directory of the new name is known. *)
Definition link_dir (ip dp : nat) (name : list Z) : M (fs S) Z :=
  ilock pid fuel dp;;
  s ← get;
  r ← (if negb (idev (ino dp s) =? idev (ino ip s)) then mret (-1) else dirlink pid fuel dp name (inum (ino ip s)));
  if r <? 0 then iunlockput pid fuel dp;; link_bad pid fuel ip
  else iunlockput pid fuel dp;; iput pid fuel ip;; mret 0.

Lemma link_dir_k s P j i r dp d name u :
  kstate pid s ∅ P → (∀ k, refs s k = add_ref dp d (add_ref j i r) k) → fits_ref r j i → fits_ref (add_ref j i r) dp d → shows s (add_nlink i 1 u) →
  named s i → 1 < d_nlink (disk_inode s i) → named s d → d_type (disk_inode s d) = T_DIR → i ≠ d → slots 1 s → bytes name → (size P + 8 < LOGCAP)%nat →
  ∃ v s' P', link_dir j dp name s = Ret v s' ∧ kstate pid s' ∅ P' ∧ (size P' ≤ size P + 8)%nat ∧ (∀ k, refs s' k = r k) ∧
    match dlook name (data u d) with
    | Some _ => v = -1 ∧ shows s' u
    | None => v = 0 ∧ shows s' (add_entry d name i (add_nlink i 1 u)) ∨ v = -1 ∧ shows s' u ∧ no_room s' u d
    end.
Proof using Hfuel.
  intros K F Hf Hf' Hs Hn Hl Hd Ht Hid Hsl Hb HP. pose proof (ref_held s dp d _ F) as Hdp. assert (size P < NBUF)%nat as HB by (unfold LOGCAP, NBUF in *; lia).
  assert (dp ≠ j) as Hne.
  { intros ->. destruct (Hf' i (1 + from_option snd 0 (r j))) as [E _]; [|done]. unfold add_ref. by rewrite decide_True. }
  assert (refs s j = Some (i, 1 + from_option snd 0 (r j))) as Hj by (rewrite F; unfold add_ref; rewrite decide_False, decide_True by done; done).
  destruct (lock_k pid fuel Hfuel s ∅ P dp d _ K HB ltac:(done) Hdp) as (s1 & E1 & K1 & L1 & F1 & Ld1 & _). rewrite union_empty_r_L in K1.
  pose proof (shows_looks s s1 _ L1 Hs) as Hs1. pose proof (proj2 (named_looks s s1 i L1) Hn) as Hn1. pose proof (proj2 (named_looks s s1 d L1) Hd) as Hd1.
  assert (idev (ino j s1) = ROOTDEV ∧ inum (ino j s1) = i) as [Edj Eij].
  { destruct (refs_in s1 j i (1 + from_option snd 0 (r j))) as (? & Hr & Hp); [by rewrite F1|]. split; [|done]. apply (ks_cache _ _ _ _ K1). lia. }
  destruct (dirlink_shows fuel s1 {[dp]} P dp d _ name i (add_nlink i 1 u) K1 ltac:(by rewrite F1) Ld1 Hd1) as (v & s2 & P2 & E2 & K2 & HP2 & F2 & Ld2 & Hnm & Hres);
    [by rewrite (looks_inode _ _ d L1)|by apply (slots_refs 1 s)|done|done|lia|exact Hs1|].
  destruct (Hnm d Hd1) as [Hd2 _]. destruct (Hnm i Hn1) as [Hi2 (_ & _ & _ & El2)]. rewrite (looks_inode _ _ i L1) in El2.
  destruct (unlockput_k pid fuel s2 {[dp]} P2 dp d _ K2 ltac:(set_solver) ltac:(by rewrite F2, F1) Ld2 (or_intror Hd2)) as (s3 & E3 & K3 & L3 & F3 & _). rewrite difference_diag_L in K3.
  assert (∀ k, refs s3 k = add_ref j i r k) as Hr3 by (apply (refs_put s2 s3 dp d); [intros k; by rewrite F2, F1, F|done|done]).
  pose proof (proj2 (named_looks s2 s3 i L3) Hi2) as Hi3. assert (disk_inode s3 i = disk_inode s2 i) as Ei3 by (by apply looks_inode).
  assert (link_dir j dp name s = if v <? 0 then link_bad pid fuel j s3 else (iput pid fuel j;; mret 0) s3) as Erun.
  { unfold link_dir. rewrite (bind_ret_eq _ _ _ _ _ E1). msimpl. rewrite Edj, Eij. destruct Ld1 as (-> & _). rewrite Z.eqb_refl. cbn [negb]. rewrite E2. cbn [res_bind].
    destruct (v <? 0); msimpl; by rewrite E3. }
  rewrite data_add_nlink in Hres. rewrite Erun. assert (size P2 < LOGCAP)%nat as HL by lia.
  assert (∀ u', shows s2 (add_nlink i 1 u') → ∃ s' P', link_bad pid fuel j s3 = Ret (-1) s' ∧ kstate pid s' ∅ P' ∧ (size P' ≤ size P + 8)%nat ∧ (∀ k, refs s' k = r k) ∧ shows s' u' ∧ (full s2 → full s')) as Hbad.
  { intros u' Hs2. destruct (link_bad_k s3 P2 j i r u' K3 Hr3 Hf (shows_looks s2 s3 _ L3 Hs2) Hi3) as (s' & P' & E & K' & HP' & F' & Hs' & Hfl); [rewrite Ei3; lia|done|].
    exists s', P'. split; [done|]. split; [done|]. split; [apply subseteq_size in HP'; pose proof (size_insert (IBLOCK i (sb s3)) P2); lia|]. do 2 (split; [done|]). intros H'. by apply Hfl, (full_looks s2). }
  destruct (dlook name (data u d)) as [i2|].
  - destruct Hres as [-> Hs2]. destruct (Hbad u Hs2) as (s' & P' & E & K' & HP' & F' & Hs' & _). by exists (-1), s', P'.
  - destruct Hres as [_ [[-> Hs2]|(-> & Hs2 & Hfull)]].
    + destruct (put_k pid fuel s3 ∅ P2 j i (1 + from_option snd 0 (r j)) K3 ltac:(done) (ref_held s3 j i r Hr3) (or_intror Hi3)) as (s' & E & K' & L' & F').
      exists 0, s', P2. split; [cbn [Z.ltb Z.compare]; by rewrite (bind_ret_eq _ _ _ _ _ E)|]. split; [done|]. split; [lia|]. split; [by apply (refs_put s3 s' j i r)|].
      left. split; [done|]. by apply (shows_looks s3 s' _ L'), (shows_looks s2 s3).
    + destruct (Hbad u Hs2) as (s' & P' & E & K' & HP' & F' & Hs' & Hfl). exists (-1), s', P'. do 4 (split; [done|]). right. split; [done|]. split; [done|].
      destruct Hfull as [Hfull|Hsz]; [left; by apply Hfl|right; by rewrite data_add_nlink in Hsz].
Qed.

(** The current directory of the process, in slot [cwd] of the table of inodes. *)
Record start_ok s (pr : uproc) (cwd : nat) : Prop := {
  st_cwd : ∃ n, refs s cwd = Some (Unix.cwd pr, n);
  st_named : named s (Unix.cwd pr);
  st_root : named s ROOTINO;
}.

Lemma start_from s pr cwd path : start_ok s pr cwd →
  start_inode s cwd path = from pr path ∧ named s (from pr path) ∧ (hd 0 path ≠ SLASH → refs s cwd ≠ None).
Proof using Type.
  intros [(n & Hc) Hn Hr]. destruct (refs_in _ _ _ _ Hc) as (Hi & _). unfold start_inode, from. rewrite Hi. split; [done|].
  split; [by destruct (_ =? _)|]. by rewrite Hc.
Qed.

Lemma start_add s s' pr cwd j i : start_ok s pr cwd → (∀ k, refs s' k = add_ref j i (refs s) k) → fits_ref (refs s) j i →
  (∀ k, named s k → named s' k) → start_ok s' pr cwd.
Proof using Type.
  intros [(n & Hc) Hn Hr] F Hf Hm. constructor; [|by apply Hm..]. rewrite F. unfold add_ref. case_decide as Ec; [|by exists n].
  rewrite <- Ec, Hc in *. destruct (Hf _ _ Hc) as [-> _]. by eexists.
Qed.

Lemma walk_parent_dir u i names d n : u_walk_parent u i names = Some (d, n) → type_of u d = T_DIR ∧ last names = Some n.
Proof using Type.
  revert i. induction names as [|e names IH]; intros i; [done|]. cbn [u_walk_parent]. destruct names as [|e' names].
  - destruct (Z.eqb_spec (type_of u i) T_DIR); [|done]. by intros [= <- <-].
  - destruct (u_child u i e) as [i2|]; [|done]. rewrite last_cons_cons. apply IH.
Qed.

(** After the inode has one more link: the directory of the new name, and the entry. *)
Lemma link_new_k s P j i r cwd pr new u :
  kstate pid s ∅ P → (∀ k, refs s k = add_ref j i r k) → fits_ref r j i → shows s (add_nlink i 1 u) → named s i → 1 < d_nlink (disk_inode s i) →
  d_type (disk_inode s i) ≠ T_DIR → start_ok s pr cwd → slots 2 s → bytes new → (size P + 8 < LOGCAP)%nat →
  ∃ v s' P', (r ← nameiparent pid fuel cwd new; match r with (None, _) => link_bad pid fuel j | (Some dp, name) => link_dir j dp name end) s = Ret v s' ∧
    kstate pid s' ∅ P' ∧ (size P' ≤ size P + 8)%nat ∧ (∀ k, refs s' k = r k) ∧
    match u_walk_parent u (from pr new) (elems new) with
    | None => v = -1 ∧ shows s' u
    | Some (d, name) =>
        match dlook name (data u d) with
        | Some _ => v = -1 ∧ shows s' u
        | None => v = 0 ∧ shows s' (add_entry d name i (add_nlink i 1 u)) ∨ v = -1 ∧ shows s' u ∧ no_room s' u d
        end
    end.
Proof using Hfuel.
  intros K F Hf Hs Hn Hl Ht Hst Hsl Hb HP. destruct (start_from s pr cwd new Hst) as (Es & Hns & Hc). assert (size P < NBUF)%nat as HB by (unfold LOGCAP, NBUF in *; lia).
  pose proof (ks_vol _ _ _ _ K) as V. rewrite <- Es in Hns. destruct (path_k pid fuel Hfuel true s P cwd new K HB Hsl Hc Hns) as (o & nm & s1 & E1 & K1 & L1 & Hres).
  rewrite Es in Hres, Hns. unfold nameiparent. rewrite (bind_ret_eq _ _ _ _ _ E1). rewrite (shows_target true s (add_nlink i 1 u) _ V Hs _ Hns) in Hres.
  rewrite (u_walk_parent_same u (add_nlink i 1 u) (type_add_nlink i 1 u) (data_add_nlink i 1 u)) in Hres.
  pose proof (shows_looks s s1 _ L1 Hs) as Hs1. pose proof (proj2 (named_looks s s1 i L1) Hn) as Hn1.
  destruct (u_walk_parent u (from pr new) (elems new)) as [[d name]|] eqn:Ew; cbn [fmap option_fmap option_map fst] in Hres.
  - destruct Hres as (dp & -> & -> & Hd & Hfd & F1). destruct (walk_parent_dir u _ _ d name Ew) as [Htd Elast]. rewrite Elast. cbn [default from_option id].
    pose proof (proj2 (named_looks s s1 d L1) Hd) as Hd1. destruct (shows_type s1 _ d Hs1 (proj1 Hd1)) as [Etd _]. rewrite type_add_nlink, Htd in Etd.
    assert (i ≠ d) as Hid by (intros ->; rewrite (looks_inode _ _ d L1) in Etd; congruence).
    assert (fits_ref (add_ref j i r) dp d) as Hfd' by (intros a b Hab; apply Hfd; by rewrite F).
    assert (∀ k, refs s1 k = add_ref dp d (add_ref j i r) k) as F1' by (intros k; rewrite F1; unfold add_ref; by rewrite !F).
    destruct (link_dir_k s1 P j i r dp d name u K1 F1' Hf Hfd' Hs1 Hn1) as (v & s' & P' & E & K' & HP' & F' & Hr'); try done.
    + by rewrite (looks_inode _ _ i L1).
    + by apply (slots_add 1 dp d s s1).
    + replace name with (default [] (last (elems new))) by (by rewrite Elast). by apply bytes_elems.
    + by exists v, s', P'.
  - destruct Hres as (-> & F1). destruct (link_bad_k s1 P j i r u K1) as (s' & P' & E & K' & HP' & F' & Hs' & _); try done.
    + intros k. by rewrite F1, F.
    + by rewrite (looks_inode _ _ i L1).
    + lia.
    + exists (-1), s', P'. do 2 (split; [done|]). split; [apply subseteq_size in HP'; pose proof (size_insert (IBLOCK i (sb s1)) P); lia|done].
Qed.
End calls.


(** * On the image of mkfs *)

#[local] Instance boot_store : Store log_state := store_log 1 1.
#[local] Instance boot_spec : StoreSpec log_state := store_log_spec 1 1 2 1 (Nat.lt_0_succ 0).

(** The files that a disk shows. *)
Definition unix_of (s : fs log_state) : unix :=
  Unix (set_to_map (λ i, (i, node_of s i)) (filter (live s) (list_to_set (seqZ 1 199) : gset Z))) ∅ ∅ ∅ 2 0 [] [].

Lemma shows_unix_of s : ninodes (sb s) = 200 → shows s (unix_of s).
Proof.
  intros Hn. constructor; [done|]. intros i. cbn [nodes unix_of]. destruct (decide (live s i)) as [Hi|Hi].
  - apply lookup_set_to_map; [done|]. exists i. split; [|done]. apply elem_of_filter. split; [done|]. apply elem_of_list_to_set, elem_of_seqZ.
    destruct Hi as [Hi _]. unfold inum_ok in Hi. lia.
  - apply eq_None_not_Some. intros [x (j & Hj & [= -> _])%lookup_set_to_map]; [|done]. apply elem_of_filter in Hj as [? _]. done.
Qed.

Lemma booted_kstate l s : log_ready 1 2 1 l ∅ ∅ → main one_file empty_image = Ret tt s → (∀ b, 32 ≤ b < FSSIZE → view (bio l) b = m_img s b) →
  kstate 1 (booted l) ∅ ∅.
Proof.
  intros R E Hv. destruct (mounted_volume one_file s (booted l) one_file_fits one_file_whole E eq_refl (booted_shows l s Hv)) as (V & _). clear E.
  constructor; [exact V|exact (booted_cache l)|exact R|]. intros j i n Hj. unfold refs in Hj. rewrite ino_booted in Hj. discriminate Hj.
Qed.

Lemma booted_free n l : (n ≤ NINODE)%nat → slots n (booted l).
Proof.
  intros Hn. exists (seq 0 n). split; [apply NoDup_seq|]. split; [apply length_seq|]. apply Forall_seq. intros j Hj. split; [lia|]. unfold refs. by rewrite ino_booted.
Qed.

Definition init_proc (i : Z) : uproc := UProc (mret tt) [] i 0 None false 0 ∅ None 0.

(** After the first process has its current directory: the root, and its file under "hi". *)
Lemma booted_proc : ∃ (s : fs log_state) j m, kstate 1 s ∅ ∅ ∧ shows s (unix_of s) ∧ start_ok s (init_proc 1) j ∧ slots 3 s ∧
  (∀ i x, nodes (unix_of s) !! i = Some x → n_nlink x = 1) ∧
  type_of (unix_of s) 1 = T_DIR ∧ data (unix_of s) 1 = root_dir one_file ++ replicate m 0 ∧
  u_walk (unix_of s) 1 [[104; 105]] = Some 2 ∧ type_of (unix_of s) 2 = T_FILE ∧ (∀ i, live s i ↔ 1 ≤ i ≤ 2).
Proof.
  destruct (image_booted one_file one_file_fits) as (s & l & E & R & Hv). pose proof (booted_kstate l s R E Hv) as K.
  destruct (mounted_volume one_file s (booted l) one_file_fits one_file_whole E eq_refl (booted_shows l s Hv)) as (V & Hl & Hlk).
  destruct (mounted_tree one_file s (booted l) one_file_fits one_file_whole E eq_refl (booted_shows l s Hv)) as (_ & _ & Hd & Ht & (m & Em)).
  pose proof (mounted_child one_file s (booted l) one_file_fits one_file_whole E eq_refl (booted_shows l s Hv) 0%nat _ one_file_named eq_refl) as Hch. clear E.
  assert (named (booted l) 1) as Hn1 by (split; [by apply Hl|by rewrite Hlk by by apply Hl]). assert (size (∅ : gset Z) < NBUF)%nat as HB by (vm_compute; lia).
  destruct (path_k 1 1 (Nat.lt_0_succ 0) false (booted l) ∅ 0 [47] K HB) as (o & nm & s1 & _ & K1 & L1 & H1); [apply booted_free; vm_compute; lia|intros Hx; by destruct (Hx eq_refl)|exact Hn1|].
  change (target (booted l) false (start_inode (booted l) 0 [47]) (elems [47])) with (Some 1) in H1. destruct H1 as (j & _ & _ & _ & Hf & F1).
  assert (shows s1 (unix_of s1)) as Hs by (apply shows_unix_of; by rewrite (lo_sb _ _ L1)). exists s1, j, m. split; [exact K1|]. split; [exact Hs|].
  assert (∀ i, live s1 i → d_nlink (disk_inode s1 i) = 1) as Hlk1 by (intros i Hi%(live_looks _ _ i L1); rewrite (looks_inode _ _ i L1); by apply Hlk).
  assert (named s1 1) as Hn by (by apply (named_looks _ _ 1 L1)). destruct (shows_type s1 _ 1 Hs (proj1 Hn)) as [E1 E2]. destruct (probe_looks _ _ 1 L1) as [_ Ed].
  assert (live s1 2) as Hl2 by (apply (live_looks _ _ 2 L1), Hl; split; vm_compute; congruence). destruct (shows_type s1 _ 2 Hs Hl2) as [E3 _].
  split; [|split; [|split; [|split; [|split; [|split; [|split]]]]]].
  - constructor; [exists 1; rewrite F1; unfold add_ref; rewrite decide_True by done; unfold refs; by rewrite ino_booted|exact Hn|exact Hn].
  - apply (slots_add 3 j 1 (booted l) s1 F1), booted_free. vm_compute. lia.
  - intros i x. rewrite (sh_nodes _ _ Hs). destruct (decide (live s1 i)) as [Hi|]; [|done]. intros [= <-]. by apply Hlk1.
  - rewrite E1, (looks_inode _ _ 1 L1). exact Ht.
  - by rewrite E2, Ed.
  - change (u_walk (unix_of s1) 1 [host_name (Host [95; 104; 105] (Some [hello]))] = Some 2). rewrite <- (shows_target false s1 (unix_of s1) _ (ks_vol _ _ _ _ K1) Hs 1 Hn).
    unfold target. cbn [walk]. rewrite (child_looks _ _ 1 _ L1).
    assert (child (booted l) 1 (host_name (Host [95; 104; 105] (Some [hello]))) = Some 2) as -> by exact Hch. done.
  - rewrite E3, (looks_inode _ _ 2 L1). exact (proj2 (Hd 0%nat _ eq_refl)).
  - intros i. rewrite (live_looks _ _ i L1). apply Hl.
Qed.


