(* ===== verification/FsCreate.v ===== *)
(** Making files: [create] of kernel/sysfile.c implements its specification, for files,
    devices and directories, with a new name and with one that exists, and when the disk has
    no room. *)

From S2P Require Import Prelude Bytes Sleeplock Bio Store Fs Dir FsBlock FsAlloc Dinode FsFile FsRead FsWrite FsFileProps.
From S2P Require Import BioInv Log LogInv LogProps StoreLog Mkfs MkfsInv MkfsProps MkfsBoot.
From S2P Require Import FsInode FsDir FsPath FsLink FsTrunc FsVol FsNew Sysfile User Unix FsCalls.

(** * The specification *)

Lemma alter_insert_same {A} (m : gmap Z A) i x f : alter f i (<[i := x]> m) = <[i := f x]> m.
Proof.
  apply map_eq. intros j. destruct (decide (j = i)) as [-> | Hne]; [by rewrite lookup_alter_eq, !lookup_insert_eq|].
  by rewrite lookup_alter_ne, !lookup_insert_ne.
Qed.

Definition put_data (l : list Z) (x : node) : node := Node (n_type x) (n_major x) (n_minor x) (n_nlink x) l.

(** An entry of a directory that is new. *)
Lemma add_entry_new i name t x u :
  add_entry i name t (w_nodes <[i := x]> u) =
  w_nodes <[i := put_data (overwrite (16 * free_entry (dents (n_data x))) (entry t name) (n_data x)) x]> u.
Proof.
  unfold add_entry, set_data, w_nodes, data. cbn [nodes]. rewrite lookup_insert_eq. cbn [from_option]. by rewrite alter_insert_same.
Qed.

Lemma data_insert_other i x u d : d ≠ i → data (w_nodes <[i := x]> u) d = data u d.
Proof. intros Hne. unfold data, w_nodes. cbn [nodes]. by rewrite lookup_insert_ne. Qed.

Lemma bytes_dots : bytes dot ∧ bytes dotdot.
Proof. split; repeat (apply Forall_cons; split; [lia|]); by apply Forall_nil. Qed.

Definition dots (i d : Z) : list Z := overwrite 16 (entry d DOTDOT) (entry i DOT).

Lemma entry_dents t name : 0 < t < 65536 → length (entry t name) = 16%nat ∧ dents (entry t name) = [(t, cname 14 name)].
Proof.
  intros Ht. unfold entry. split; [by rewrite length_app, length_le_enc, length_strncpy|]. rewrite <- (dents_entry t name) by lia. unfold u16. rewrite Z.mod_small; [done|].
  change (2 ^ 16) with 65536. lia.
Qed.

Lemma dots_new i d x u : 0 < i < 65536 → n_data x = [] →
  add_entry i DOTDOT d (add_entry i DOT i (w_nodes <[i := x]> u)) = w_nodes <[i := put_data (dots i d) x]> u.
Proof.
  intros Hi Hx. destruct (entry_dents i DOT Hi) as [Hl He]. rewrite !add_entry_new, Hx. cbn [n_data put_data]. change (free_entry (dents [])) with 0%nat.
  assert (overwrite (16 * 0) (entry i DOT) [] = entry i DOT) as -> by (unfold overwrite; rewrite drop_nil, app_nil_r; done).
  rewrite He. unfold free_entry. cbn [list_find]. rewrite decide_False by (cbn; lia). cbn [length fmap option_fmap option_map]. done.
Qed.

Section create.
Context {S : Type} `{!Store S, !StoreSpec S} (pid : Z).
Implicit Types (s : fs S) (u : unix) (P : gset Z) (h : gset nat) (r : nat → option (Z * Z)).
#[local] Existing Instance live_dec.

Lemma shows_nodes s u u' : nodes u' = nodes u → shows s u → shows s u'.
Proof. intros E [H1 H2]. constructor; [done|]. intros i. by rewrite E. Qed.

Lemma shows_free s u i : shows s u → ¬ live s i → nodes u !! i = None.
Proof. intros H Hi. by rewrite (sh_nodes _ _ H), decide_False. Qed.

(** [ialloc] takes the inode that the specification takes. *)
Lemma free_inode_some s u i : shows s u → inum_ok s i → ¬ live s i → (∀ k, 0 < k < i → live s k) → free_inode (nodes u) = Some i.
Proof.
  intros H [Hi1 Hi2] Hn Hl. pose proof (sh_count _ _ H) as Hc. unfold free_inode.
  assert (list_find (λ k, nodes u !! Z.of_nat k = None) (seq 1 (NINODES - 1)) = Some ((Z.to_nat i - 1)%nat, Z.to_nat i)) as ->; [|cbn; f_equal; lia].
  apply list_find_Some. split; [apply lookup_seq; unfold NINODES in *; lia|]. split; [rewrite Z2Nat.id by lia; by apply (shows_free s)|].
  intros j y [-> Hj]%lookup_seq Hlt. rewrite (sh_nodes _ _ H), decide_True; [done|]. apply Hl. lia.
Qed.

Lemma free_inode_none s u : shows s u → (∀ j, inum_ok s j → live s j) → free_inode (nodes u) = None.
Proof.
  intros H Hl. unfold free_inode. assert (list_find (λ k, nodes u !! Z.of_nat k = None) (seq 1 (NINODES - 1)) = None) as ->; [|done].
  apply list_find_None, Forall_seq. intros j Hj. rewrite (sh_nodes _ _ H), decide_True; [done|]. apply Hl. unfold inum_ok. rewrite (sh_count _ _ H). unfold NINODES in *. lia.
Qed.

(** A file is new. *)
Lemma shows_new s s' u i :
  volume s → shows s u → inum_ok s i → ¬ live s i → changes s i s' → live s' i → shows s' (w_nodes <[i := node_of s' i]> u).
Proof.
  intros V [H1 H2] Hi Hn Ch Hi'. constructor; [by rewrite (ch_sb _ _ _ Ch)|]. intros j. cbn [nodes w_nodes]. destruct (decide (j = i)) as [-> | Hne].
  - by rewrite lookup_insert_eq, decide_True.
  - rewrite lookup_insert_ne, H2 by done. destruct (decide (live s j)) as [Hj|Hj].
    + rewrite decide_True by (by apply (other_live s s' i j)). unfold node_of. by rewrite (other_inode s s' i j Ch Hj Hne), (other_data s s' i j V Hi Ch Hj Hne).
    + rewrite decide_False; [done|]. intros Hj'. apply Hj. by apply (live_back s i s' j V Hi).
Qed.

(** A file is gone. *)
Lemma shows_forgets s s' u i : volume s → shows s u → live s i → forgets s i s' → shows s' (w_nodes (delete i) u).
Proof.
  intros V [H1 H2] Hi Fg. constructor; [by rewrite (fg_sb _ _ _ Fg)|]. intros j. cbn [nodes w_nodes]. pose proof (forgets_live s s' i Hi Fg j) as Hl.
  destruct (decide (j = i)) as [-> | Hne]; [rewrite lookup_delete_eq, decide_False; [done|tauto]|].
  rewrite lookup_delete_ne, H2 by done. destruct (decide (live s j)) as [Hj|Hj].
  - rewrite decide_True by tauto. unfold node_of. by rewrite (forgets_inode s s' i Fg j Hj Hne), (forgets_data s s' i V Hi Fg j Hj Hne).
  - rewrite decide_False; [done|tauto].
Qed.

(** * Entries that refer to an inode *)

Lemma unlisted_new s i : volume s → ¬ named s i → unlisted s i.
Proof. intros V Hn d e Hd _ Ht He H0 E. apply Hn. rewrite <- E. by apply (vo_dir _ V d Hd Ht). Qed.

Lemma unlisted_same s s' i :
  (∀ k, named s' k → k ≠ i → named s k ∧ d_type (disk_inode s' k) = d_type (disk_inode s k) ∧ file_data s' k = file_data s k) → unlisted s i → unlisted s' i.
Proof. intros H Hu d e Hd Hne. destruct (H d Hd Hne) as (Hd' & -> & ->). by apply Hu. Qed.

Lemma unlisted_changes s s' i : volume s → inum_ok s i → changes s i s' → unlisted s i → unlisted s' i.
Proof.
  intros V Hi Ch. apply unlisted_same. intros k [Hk Hn] Hne. pose proof (live_back s i s' k V Hi Ch Hk Hne) as Hl. pose proof (other_inode s s' i k Ch Hl Hne) as E.
  rewrite E in *. split; [done|]. split; [done|]. by apply (other_data s s' i k).
Qed.

(** * With the new inode and its directory locked *)

Record both s P (ip : nat) (i : Z) (dp : nat) (d : Z) r : Prop := {
  bo_state : kstate pid s ({[ip]} ∪ {[dp]}) P;
  bo_refs : ∀ k, refs s k = add_ref ip i (add_ref dp d r) k;
  bo_slot : add_ref dp d r ip = None;
  bo_fits : fits_ref r dp d;
  bo_ip : loaded s ip i;
  bo_dp : loaded s dp d;
  bo_i : named s i;
  bo_d : named s d;
  bo_dir : d_type (disk_inode s d) = T_DIR;
}.

(** The new inode has no entry yet, and at most one block. *)
Record making s P ip i dp d r u : Prop := {
  mk_both : both s P ip i dp d r;
  mk_one : ∀ k, 0 < k ≤ MAXFILE → faddr 0 (probe s i) k = 0;
  mk_unlisted : unlisted s i;
  mk_shows : shows s (w_nodes <[i := node_of s i]> u);
  mk_new : nodes u !! i = None;
  mk_apart : d ≠ i;
}.

Lemma both_slots s P ip i dp d r : both s P ip i dp d r →
  ip ≠ dp ∧ refs s ip = Some (i, 1) ∧ refs s dp = Some (d, 1 + from_option snd 0 (r dp)).
Proof.
  intros [B1 B2 B3 B4 B5 B6 B7 B8 B9]. assert (ip ≠ dp) as Hne by (intros ->; unfold add_ref in B3; by rewrite decide_True in B3). split; [done|]. rewrite !B2. unfold add_ref at 1 3.
  rewrite decide_True, decide_False, B3 by done. split; [done|]. unfold add_ref. by rewrite decide_True.
Qed.

Lemma both_step s s' P P' ip i dp d r :
  both s P ip i dp d r → kstate pid s' ({[ip]} ∪ {[dp]}) P' → (∀ k, refs s' k = refs s k) → stays s s' → named s' i → named s' d →
  d_type (disk_inode s' d) = T_DIR → both s' P' ip i dp d r.
Proof.
  intros B K' F' St Hi Hd Ht. destruct (both_slots _ _ _ _ _ _ _ B) as (_ & Hr1 & Hr2). destruct B as [B1 B2 B3 B4 B5 B6 B7 B8 B9].
  constructor; try done.
  - intros k. by rewrite F'.
  - apply (kstate_loaded pid s s' _ P' ip i 1 K'); [by rewrite F'|done|done].
  - apply (kstate_loaded pid s s' _ P' dp d _ K' (eq_trans (F' dp) Hr2)); done.
Qed.

(** The new file changes. *)
Lemma making_step s s' P P' ip i dp d r u :
  making s P ip i dp d r u → kstate pid s' ({[ip]} ∪ {[dp]}) P' → (∀ k, refs s' k = refs s k) → stays s s' → changes s i s' → named s' i →
  (∀ k, 0 < k ≤ MAXFILE → faddr 0 (probe s' i) k = faddr 0 (probe s i) k) → making s' P' ip i dp d r u.
Proof.
  intros [B M1 M2 M3 M4 M5] K' F' St Ch Hi' Ha. pose proof (bo_i _ _ _ _ _ _ _ B) as Hi. pose proof (bo_d _ _ _ _ _ _ _ B) as Hd.
  pose proof (ks_vol _ _ _ _ (bo_state _ _ _ _ _ _ _ B)) as V. constructor; try done.
  - apply (both_step s s' P P' ip i dp d r B K' F' St Hi').
    + apply (named_other s i s' d V (proj1 (proj1 Hi)) Ch Hd). done.
    + rewrite (other_inode s s' i d Ch (proj1 Hd) M5). apply B.
  - intros k Hk. rewrite Ha by done. by apply M1.
  - by apply (unlisted_changes s s' i V (proj1 (proj1 Hi)) Ch).
  - apply (shows_nodes s' (w_nodes (alter (λ _, node_of s' i) i) (w_nodes <[i := node_of s i]> u))); [cbn [nodes w_nodes]; by rewrite alter_insert_same|].
    apply (shows_changes s s' _ i (λ _, node_of s' i) V M3 (proj1 Hi) Ch (proj1 Hi') eq_refl).
Qed.

(** A new entry in the new directory. *)
Lemma making_entry fuel s P ip i dp d r u name t :
  making s P ip i dp d r u → d_type (disk_inode s i) = T_DIR → d_size (disk_inode s i) < BSIZE → slots 1 s → bytes name → named s t → (size P + 7 < LOGCAP)%nat →
  dlook name (file_data s i) = None →
  ∃ v s' P', dirlink pid fuel ip name t s = Ret v s' ∧ (size P' ≤ size P + 7)%nat ∧ making s' P' ip i dp d r u ∧ same_meta (disk_inode s i) (disk_inode s' i) ∧ disk_inode s' d = disk_inode s d ∧
    (v = 0 ∧ file_data s' i = overwrite (16 * free_entry (dents (file_data s i))) (entry t name) (file_data s i) ∨ v = -1 ∧ full s').
Proof.
  intros M Ht Hsz Hsl Hb Hn HP Hl. pose proof (mk_both _ _ _ _ _ _ _ _ M) as B. destruct (both_slots _ _ _ _ _ _ _ B) as (Hne & Hr1 & Hr2).
  destruct (dirlink_k pid fuel s _ P ip i 1 name t (bo_state _ _ _ _ _ _ _ B) Hr1 (bo_ip _ _ _ _ _ _ _ B) (bo_i _ _ _ _ _ _ _ B) Ht Hsl Hb Hn HP)
    as (v & s' & P' & E & K' & HP' & F' & Ld' & Hres). rewrite Hl in Hres. destruct Hres as (Ch & Hsm & Hin & Ha & Hres).
  assert (named s' i) as Hi'.
  { destruct (bo_i _ _ _ _ _ _ _ B) as [[H1 H2] H3]. destruct Hsm as (Et & _ & _ & En). split; [split|]; [unfold inum_ok; by rewrite (ch_sb _ _ _ Ch)|congruence..]. }
  exists v, s', P'. do 2 (split; [done|]). split; [|split; [done|split; [exact (other_inode s s' i d Ch (proj1 (bo_d _ _ _ _ _ _ _ B)) (mk_apart _ _ _ _ _ _ _ _ M))|]]].
  - apply (making_step s s' P P' ip i dp d r u M K' F'); try done; [|by apply Ha]. apply (stays_others s s' ip); [done|apply Ld'].
  - destruct Hres as [?|(-> & _ & [Hf|Hf])]; [by left|by right|]. destruct maxfile_val as (EM & _ & _ & EB). rewrite EM, EB in *. lia.
Qed.

(** The entry for the new file in its directory. *)
Lemma making_link fuel s P ip i dp d r u name :
  making s P ip i dp d r u → slots 1 s → bytes name → (size P + 7 < LOGCAP)%nat → dlook name (data u d) = None →
  ∃ v s' P', dirlink pid fuel dp name i s = Ret v s' ∧ (size P' ≤ size P + 7)%nat ∧
    (v = 0 ∧ both s' P' ip i dp d r ∧ d_nlink (disk_inode s' d) = d_nlink (disk_inode s d) ∧ shows s' (add_entry d name i (w_nodes <[i := node_of s i]> u)) ∨
     v = -1 ∧ making s' P' ip i dp d r u ∧ no_room s' u d).
Proof.
  intros M Hsl Hb HP Hl. pose proof M as [B M1 M2 M3 M4 M5]. destruct (both_slots _ _ _ _ _ _ _ B) as (Hne & Hr1 & Hr2). pose proof B as [B1 B2 B3 B4 B5 B6 B7 B8 B9].
  pose proof (ks_vol _ _ _ _ B1) as V. set (u1 := w_nodes <[i := node_of s i]> u) in *. destruct (shows_type s u1 d M3 (proj1 B8)) as [_ Ed].
  assert (data u1 d = data u d) as Eu by by apply data_insert_other.
  destruct (dirlink_k pid fuel s _ P dp d _ name i B1 Hr2 B6 B8 B9 Hsl Hb B7 HP) as (v & s' & P' & E & K' & HP' & F' & Ld' & Hres).
  rewrite <- Ed, Eu, Hl in Hres. destruct Hres as (Ch & Hsm & Hin & _ & Hres). pose proof Hsm as (Et & Ema & Emi & En).
  assert (named s' d) as Hd'. { destruct B8 as [[H1 H2] H3]. split; [split|]; [unfold inum_ok; by rewrite (ch_sb _ _ _ Ch)|congruence..]. }
  assert (stays s s') as St by (apply (stays_others s s' dp); [done|apply Ld']).
  assert (both s' P' ip i dp d r) as B'.
  { apply (both_step s s' P P' ip i dp d r B K' F' St); [|done|congruence]. apply (named_other s d s' i V (proj1 (proj1 B8)) Ch B7). done. }
  exists v, s', P'. do 2 (split; [done|]). destruct Hres as [[-> Hdat]|(-> & Hdat & Hfull)]; [left|right]; (split; [done|]).
  - split; [done|]. split; [done|]. unfold add_entry. rewrite Eu. apply (shows_changes s s' u1 d); try done; [apply B8|apply Hd'|]. unfold node_of. by rewrite Hdat, Et, Ema, Emi, En.
  - assert (shows s' u1) as Hs'. { apply (shows_same s s' u1 d); try done; [apply B8|apply Hd'|]. unfold node_of. by rewrite Hdat, <- Ed, Eu, Et, Ema, Emi, En. }
    assert (i ≠ d) as M5' by done. pose proof (other_inode s s' d i Ch (proj1 B7) M5') as Ei.
    assert (node_of s' i = node_of s i) as En'. { unfold node_of. by rewrite Ei, (other_data s s' d i V (proj1 (proj1 B8)) Ch (proj1 B7) M5'). }
    split; [|unfold no_room; destruct Hfull as [|Hz]; [by left|right]; rewrite <- Eu, Ed, length_file_data by (apply (vo_file _ V), B8); done].
    constructor; try done; [| |by rewrite En'].
    + intros k Hk. rewrite (kept_addr s s' i Ei (other_block s s' d i V (proj1 (proj1 B8)) Ch (proj1 B7) M5') k) by lia. by apply M1.
    + apply (unlisted_same s s' i); [|done]. intros k [Hk Hnk] Hki. destruct (decide (k = d)) as [-> | Hkd]; [by rewrite Hdat, <- Ed, Eu|].
      pose proof (live_back s d s' k V (proj1 (proj1 B8)) Ch Hk Hkd) as Hlk. pose proof (other_inode s s' d k Ch Hlk Hkd) as Ek. rewrite Ek in *.
      split; [done|]. split; [done|]. by apply (other_data s s' d k V (proj1 (proj1 B8)) Ch).
Qed.

(** At most one block of the disk is free. *)
Definition cramped s : Prop := ∀ a b, 0 ≤ a < sb_size (sb s) → 0 ≤ b < sb_size (sb s) → used s a = false → used s b = false → a = b.

Lemma full_forgets s i s' : full s → forgets s i s' → (∀ k, 0 < k ≤ MAXFILE → faddr 0 (probe s i) k = 0) → cramped s'.
Proof.
  intros Hf Fg Hone. assert (∀ a, 0 ≤ a < sb_size (sb s') → used s' a = false → a = faddr 0 (probe s i) 0) as H.
  { intros a. rewrite (fg_sb _ _ _ Fg). intros Ha Hu. destruct (has_dec s i a) as [(H0 & k & Hk & <-)|Hn].
    - destruct (decide (k = 0)) as [-> | Hk0]; [done|]. rewrite Hone in H0 by lia. done.
    - rewrite (fg_used _ _ _ Fg a Ha Hn), Hf in Hu; done. }
  intros a b Ha Hb Ua Ub. by rewrite (H a Ha Ua), (H b Hb Ub).
Qed.

Lemma cramped_looks s s' : looks s s' → cramped s → cramped s'.
Proof. intros L H a b. rewrite (lo_sb _ _ L). unfold used. rewrite (lo_sb _ _ L), !(lo_blks _ _ L). apply H. Qed.

Context (fuel : nat).
Hypothesis Hfuel : (0 < fuel)%nat.

(** [fail:] gives the new inode back. *)
Lemma create_fail_k s P ip i dp d r u :
  making s P ip i dp d r u → (size P + 3 < LOGCAP)%nat →
  ∃ s' P', create_fail pid fuel ip dp s = Ret None s' ∧ kstate pid s' ∅ P' ∧ (size P' ≤ size P + 3)%nat ∧ (∀ k, refs s' k = r k) ∧ shows s' u ∧ (full s → cramped s').
Proof using Hfuel.
  intros M HP. pose proof M as [B M1 M2 M3 M4 M5]. destruct (both_slots _ _ _ _ _ _ _ B) as (Hne & Hr1 & Hr2). pose proof B as [B1 B2 B3 B4 B5 B6 B7 B8 B9].
  destruct (update_k pid (set_nlink 0) s _ P ip i 1 B1 Hr1 B5 ltac:(lia)) as (s1 & E1 & K1 & F1 & Ld1 & Ch1 & Ed1 & Hdat1 & Ha1 & St1); try done.
  { destruct (vo_file _ (ks_vol _ _ _ _ B1) i (proj1 B7)) as [_ _ _ [D1 D2 D3 D4 D5 D6 D7]]. by constructor. }
  { by right. }
  { by left. }
  assert (live s1 i) as Hl1 by (destruct B7 as [[H1 H2] _]; split; [unfold inum_ok; by rewrite (ch_sb _ _ _ Ch1)|by rewrite Ed1]).
  pose proof (shows_changes s s1 _ i (λ _, node_of s1 i) (ks_vol _ _ _ _ B1) M3 (proj1 B7) Ch1 Hl1 eq_refl) as Hs1.
  destruct (unlock_k pid s1 _ _ ip i 1 K1 ltac:(set_solver) ltac:(by rewrite F1) Ld1) as (s2 & E2 & K2 & L2 & F2 & Ld2 & St2).
  replace (({[ip]} ∪ {[dp]}) ∖ {[ip]} : gset nat) with ({[dp]} : gset nat) in K2 by set_solver.
  assert (∀ k, 0 < k ≤ MAXFILE → faddr 0 (probe s2 i) k = 0) as Hone.
  { intros k Hk. rewrite (probe_addr s1 s2 i k (lo_blks _ _ L2) (looks_inode _ _ i L2)), Ha1 by lia. by apply M1. }
  pose proof (size_insert (IBLOCK i (sb s)) P) as HP1. pose proof (proj2 (live_looks s1 s2 i L2) Hl1) as Hl2.
  destruct (forget_k pid fuel s2 {[dp]} _ ip i (BBLOCK (faddr 0 (probe s2 i) 0) (sb s2)) Hfuel K2 ltac:(set_solver) ltac:(by rewrite F2, F1) Ld2) as (s3 & P3 & E3 & K3 & HP3 & F3 & Fg & Hm3);
    [by rewrite (looks_inode _ _ i L2), Ed1| |lia|].
  { intros b (H0 & k & Hk & <-). destruct (decide (k = 0)) as [-> | Hk0]; [done|]. by rewrite Hone in H0 by lia. }
  assert (∀ k, refs s3 k = add_ref dp d r k) as Hr3.
  { intros k. rewrite F3, F2, F1, B2. case_decide as Hk; [by rewrite Hk|]. unfold add_ref at 1. by rewrite decide_False. }
  assert (loaded s3 dp d) as Ld3. { apply (loaded_intro pid s3 _ dp d _ (ks_cache _ _ _ _ K3) (ref_held s3 dp d r Hr3)). rewrite Hm3 by done. by apply St2, St1, B6. }
  assert (live s2 d) as Hd2. { apply (live_looks s1 s2 d L2), (other_live s s1 i d (ks_vol _ _ _ _ B1) (proj1 (proj1 B7)) Ch1 (proj1 B8) M5). }
  assert (named s3 d) as Hd3.
  { split; [by apply (forgets_live s2 s3 i Hl2 Fg)|]. rewrite (forgets_inode s2 s3 i Fg d Hd2 M5), (looks_inode _ _ d L2), (other_inode s s1 i d Ch1 (proj1 B8) M5). apply B8. }
  destruct (unlockput_k pid fuel s3 {[dp]} P3 dp d _ K3 ltac:(set_solver) (ref_held s3 dp d r Hr3) Ld3 (or_intror Hd3)) as (s4 & E4 & K4 & L4 & F4 & _). rewrite difference_diag_L in K4.
  exists s4, P3. split.
  { assert (iunlockput pid fuel ip s1 = Ret tt s3) as E5 by (unfold iunlockput; by rewrite (bind_ret_eq _ _ _ _ _ E2)).
    unfold create_fail. rewrite (bind_ret_eq (modify _) _ s tt _ eq_refl), (bind_ret_eq _ _ _ _ _ E1), (bind_ret_eq _ _ _ _ _ E5). by rewrite (bind_ret_eq _ _ _ _ _ E4). }
  split; [done|]. split; [lia|]. split; [by apply (refs_put s3 s4 dp d r)|]. split.
  - apply (shows_looks s3 s4 _ L4). pose proof (shows_forgets s2 s3 _ i (ks_vol _ _ _ _ K2) (shows_looks s1 s2 _ L2 Hs1) Hl2 Fg) as Hs3.
    refine (shows_nodes s3 _ u _ Hs3). cbn [nodes w_nodes]. rewrite alter_insert_same. by rewrite delete_insert_id.
  - intros Hf. apply (cramped_looks s3 s4 L4), (full_forgets s2 i s3); [|done|done]. by apply (full_looks s1 s2 L2), (full_changes s i).
Qed.

(** The new inode, locked and written. *)
Lemma make_inode s P i type major minor ip s1 dp d r u :
  took pid s {[dp]} P i type ip s1 → kstate pid s {[dp]} P → inum_ok s i → ¬ live s i → (∀ k, refs s k = add_ref dp d r k) → fits_ref r dp d → loaded s dp d → named s d →
  d_type (disk_inode s d) = T_DIR → shows s u → 0 < type < 2 ^ 15 → - 2 ^ 15 ≤ major < 2 ^ 15 → - 2 ^ 15 ≤ minor < 2 ^ 15 → (size P + 2 < LOGCAP)%nat →
  ∃ s' P', (ilock pid fuel ip;; modify (iupd ip (λ x, set_idata (set_nlink 1 (set_dev (i16 major) (i16 minor) (idata x))) x));; iupdate ip) s1 = Ret tt s' ∧
    making s' P' ip i dp d r u ∧ (size P' ≤ size P + 2)%nat ∧ node_of s' i = Node type major minor 1 [] ∧ d_size (disk_inode s' i) = 0 ∧
    d_nlink (disk_inode s' d) = d_nlink (disk_inode s d).
Proof using Hfuel.
  intros [T1 T2 T3 T4 T5 T6] K Hi Hn F Hf Ld Hd Ht Hs Hty Hma Hmi HP. pose proof (size_insert (IBLOCK i (sb s)) P) as HP1.
  assert (ip ≠ dp) as Hne by (intros ->; rewrite F in T2; unfold add_ref in T2; by rewrite decide_True in T2).
  assert (refs s1 ip = Some (i, 1)) as Hr1 by (rewrite T3; unfold add_ref; by rewrite decide_True, T2).
  destruct (lock_k pid fuel Hfuel s1 {[dp]} _ ip i 1 T1 ltac:(unfold LOGCAP, NBUF in *; lia) ltac:(set_solver) Hr1) as (s2 & E2 & K2 & L2 & F2 & Ld2 & St2).
  assert (∀ x, - 2 ^ 15 ≤ x < 2 ^ 15 → i16 x = x) as Ei16 by (intros x Hx; unfold i16; change (2 ^ 15) with 32768 in *; change (2 ^ 16) with 65536; rewrite Z.mod_small; lia).
  rewrite (Ei16 major Hma), (Ei16 minor Hmi). set (g := λ x, set_nlink 1 (set_dev major minor x)).
  assert (disk_inode s2 i = fresh_dinode type) as Ed2 by (by rewrite (looks_inode _ _ i L2)).
  assert (¬ named s2 i) as Hn2 by (intros [_ H']; by rewrite Ed2 in H').
  destruct (update_k pid g s2 _ _ ip i 1 K2 ltac:(by rewrite F2) Ld2 ltac:(lia)) as (s3 & E3 & K3 & F3 & Ld3 & Ch3 & Ed3 & Hdat3 & Ha3 & St3); try done.
  { rewrite Ed2. destruct (vo_file _ (ks_vol _ _ _ _ K2) i (ks_refs _ _ _ _ K2 ip i 1 ltac:(by rewrite F2))) as [_ _ _ D]. change (meta 0 (probe s2 i)) with (disk_inode s2 i) in D. rewrite Ed2 in D.
    destruct D as [D1 D2 D3 D4 D5 D6 D7]. by constructor. }
  { by left. }
  { right. by rewrite Ed2. }
  rewrite Ed2 in Ed3. pose proof (ks_vol _ _ _ _ K) as V.
  assert (changes s i s3) as Ch by (apply (changes_trans s i s2); [done|by apply (changes_looks s i s1)|done]).
  assert (d ≠ i) as Hdi by (intros ->; by destruct Hd). pose proof (other_inode s s3 i d Ch (proj1 Hd) Hdi) as Edd.
  assert (named s3 i) as Hi3. { split; [split|]; rewrite ?Ed3; cbn [d_type d_nlink g set_nlink set_dev fresh_dinode]; [unfold inum_ok; by rewrite (ch_sb _ _ _ Ch)|lia|lia]. }
  assert (named s3 d) as Hd3 by (by apply (named_other s i s3 d V Hi Ch Hd)).
  assert (file_data s3 i = []) as Hnil. { apply length_zero_iff_nil. pose proof (length_file_data s3 i (vo_file _ (ks_vol _ _ _ _ K3) i (proj1 Hi3))) as Hl. rewrite Ed3 in Hl. cbn in Hl. lia. }
  exists s3, ({[IBLOCK i (sb s2)]} ∪ ({[IBLOCK i (sb s)]} ∪ P)). split; [rewrite (bind_ret_eq _ _ _ _ _ E2), (bind_ret_eq (modify _) _ s2 tt _ eq_refl); exact E3|].
  split; [|split; [pose proof (size_insert (IBLOCK i (sb s2)) ({[IBLOCK i (sb s)]} ∪ P)); lia|split; [unfold node_of; by rewrite Ed3, Hnil|split; [by rewrite Ed3|by rewrite Edd]]]].
  assert (∀ k, refs s3 k = add_ref ip i (add_ref dp d r) k) as Hr3 by (intros k; rewrite F3, F2, T3; unfold add_ref; by rewrite !F).
  assert (both s3 ({[IBLOCK i (sb s2)]} ∪ ({[IBLOCK i (sb s)]} ∪ P)) ip i dp d r) as B.
  { constructor; try done; [by rewrite <- F| |by rewrite Edd]. apply (kstate_loaded pid s2 s3 _ _ dp d (1 + from_option snd 0 (r dp)) K3).
    - rewrite Hr3. unfold add_ref. by rewrite decide_False, decide_True.
    - apply (kstate_loaded pid s1 s2 _ _ dp d (1 + from_option snd 0 (r dp)) K2); [|by apply (T6 dp d _ (ref_held s dp d r F))|done].
      rewrite F2, T3. unfold add_ref at 1. rewrite decide_False by done. apply (ref_held s dp d r F).
    - done. }
  constructor; try done.
  - intros k Hk. rewrite Ha3 by lia. apply (fresh_inode_addr s2 i type Ed2). lia.
  - apply (unlisted_changes s s3 i V Hi Ch). apply (unlisted_new s i V). by intros [? _].
  - apply (shows_new s s3 u i); try done. apply Hi3.
  - by apply (shows_free s).
Qed.

(** ** Directories *)

Lemma create_dots_k s P ip i dp d r u :
  making s P ip i dp d r u → d_type (disk_inode s i) = T_DIR → file_data s i = [] → slots 1 s → (size P + 14 < LOGCAP)%nat →
  ∃ b s' P', create_dots pid fuel ip dp s = Ret b s' ∧ (size P' ≤ size P + 14)%nat ∧ making s' P' ip i dp d r u ∧ (∀ k, refs s' k = refs s k) ∧
    d_nlink (disk_inode s' d) = d_nlink (disk_inode s d) ∧
    (b = true ∧ node_of s' i = put_data (dots i d) (node_of s i) ∨ b = false ∧ full s').
Proof using Type.
  clear Hfuel. intros M Ht Hnil Hsl HP. pose proof (mk_both _ _ _ _ _ _ _ _ M) as B. pose proof (bo_i _ _ _ _ _ _ _ B) as Hi. pose proof (ks_vol _ _ _ _ (bo_state _ _ _ _ _ _ _ B)) as V.
  assert (0 < i < 65536) as Hir by (destruct Hi as [[Hi _] _]; unfold inum_ok in Hi; pose proof (vo_count _ V); lia). destruct (entry_dents i DOT Hir) as [Hl He].
  assert (d_size (disk_inode s i) = 0) as Hz by (pose proof (length_file_data s i (vo_file _ V i (proj1 Hi))) as Hz; rewrite Hnil in Hz; cbn [length] in Hz; lia).
  assert (inum (ino ip s) = i) as Eip by apply B. assert (inum (ino dp s) = d) as Edp by apply B.
  destruct (making_entry fuel s P ip i dp d r u dot i M Ht) as (v1 & s1 & P1 & E1 & HP1 & M1 & Hm1 & Edd1 & Hr1); [rewrite Hz; done|done|apply bytes_dots|done|lia|by rewrite Hnil|].
  pose proof (mk_both _ _ _ _ _ _ _ _ M1) as B1. assert (∀ k, refs s1 k = refs s k) as F1 by (intros k; by rewrite (bo_refs _ _ _ _ _ _ _ B1), (bo_refs _ _ _ _ _ _ _ B)).
  unfold create_dots. rewrite (bind_ret_eq get _ s s s eq_refl), Eip, (bind_ret_eq _ _ _ _ _ E1).
  destruct Hr1 as [[-> Hd1]|[-> Hf1]]; cbn [Z.ltb Z.compare].
  2:{ exists false, s1, P1. do 2 (split; [done || lia|]). do 2 (split; [done|]). split; [by rewrite Edd1|]. by right. }
  rewrite Hnil in Hd1. change (overwrite (16 * free_entry (dents [])) (entry i dot) []) with (overwrite 0 (entry i DOT) []) in Hd1.
  assert (file_data s1 i = entry i DOT) as Ed1 by (rewrite Hd1; unfold overwrite; rewrite drop_nil, app_nil_r; done). destruct Hm1 as (Et1 & Ema1 & Emi1 & En1).
  pose proof (ks_vol _ _ _ _ (bo_state _ _ _ _ _ _ _ B1)) as V1. pose proof (length_file_data s1 i (vo_file _ V1 i (proj1 (bo_i _ _ _ _ _ _ _ B1)))) as Hz1. rewrite Ed1, Hl in Hz1.
  destruct (making_entry fuel s1 P1 ip i dp d r u dotdot d M1) as (v2 & s2 & P2 & E2 & HP2 & M2 & Hm2 & Edd2 & Hr2);
    [congruence|rewrite <- Hz1; done|by apply (slots_refs 1 s)|apply bytes_dots|apply B1|lia|rewrite Ed1, dlook_filter, He, filter_cons_False; [done|intros [_ H]; discriminate H]|].
  pose proof (mk_both _ _ _ _ _ _ _ _ M2) as B2. rewrite Edp, (bind_ret_eq _ _ _ _ _ E2). destruct Hm2 as (Et2 & Ema2 & Emi2 & En2).
  exists (negb (v2 <? 0)), s2, P2. split; [done|]. split; [lia|]. split; [done|]. split; [intros k; by rewrite (bo_refs _ _ _ _ _ _ _ B2), (bo_refs _ _ _ _ _ _ _ B)|]. split; [by rewrite Edd2, Edd1|].
  destruct Hr2 as [[-> Hd2]|[-> Hf2]]; [left|by right]. split; [done|]. unfold node_of, put_data. cbn [n_type n_major n_minor n_nlink].
  rewrite Et2, Ema2, Emi2, En2, Et1, Ema1, Emi1, En1, Hd2, Ed1. f_equal. unfold dots. f_equal. rewrite He. unfold free_entry. cbn [list_find]. rewrite decide_False by (cbn; lia). done.
Qed.

(** ** After the directory is known *)

(** No new file. *)
Record refused s P r u : Prop := {
  rf_state : kstate pid s ∅ P;
  rf_refs : ∀ k, refs s k = r k;
  rf_shows : shows s u;
}.

(** Inode [i] is locked in slot [ip]. *)
Record returned s P (ip : nat) (i : Z) r u : Prop := {
  rt_state : kstate pid s {[ip]} P;
  rt_refs : ∀ k, refs s k = add_ref ip i r k;
  rt_fits : fits_ref r ip i;
  rt_loaded : loaded s ip i;
  rt_shows : shows s u;
}.

Definition too_full s u (d : Z) : Prop := cramped s ∨ Z.of_nat (length (data u d)) = MAXFILE * BSIZE.

Lemma release_dir s P ip i dp d r u : both s P ip i dp d r → shows s u →
  ∃ s', iunlockput pid fuel dp s = Ret tt s' ∧ returned s' P ip i r u.
Proof using Type.
  clear Hfuel. intros B Hs. destruct (both_slots _ _ _ _ _ _ _ B) as (Hne & Hr1 & Hr2). pose proof B as [B1 B2 B3 B4 B5 B6 B7 B8 B9].
  destruct (unlockput_k pid fuel s _ P dp d _ B1 ltac:(set_solver) Hr2 B6 (or_intror B8)) as (s' & E & K & L & F & St). exists s'. split; [done|].
  replace (({[ip]} ∪ {[dp]}) ∖ {[dp]} : gset nat) with ({[ip]} : gset nat) in K by set_solver.
  assert (r ip = None) as Hn by (unfold add_ref in B3; by rewrite decide_False in B3).
  assert (∀ k, refs s' k = add_ref ip i r k) as F'.
  { intros k. rewrite F, <- (drop_add_add r dp d ip i k B4); [unfold drop_ref; by rewrite !B2|]. intros a b. by rewrite B3. }
  constructor; try done.
  - intros a b. by rewrite Hn.
  - apply (kstate_loaded pid s s' _ P ip i 1 K); [|done|done]. rewrite F'. unfold add_ref. by rewrite decide_True, Hn.
  - by apply (shows_looks s s').
Qed.

(** [create] from the entries of a new directory on. *)
Definition create_tail (ip dp : nat) (name : list Z) (type : Z) : M (fs S) (option nat) :=
  dots ← (if type =? T_DIR then create_dots pid fuel ip dp else mret true);
  if negb dots then create_fail pid fuel ip dp
  else
    s ← get;
    r ← dirlink pid fuel dp name (inum (ino ip s));
    if r <? 0 then create_fail pid fuel ip dp
    else
      when (type =? T_DIR) (link_count dp 1;; iupdate dp);;
      iunlockput pid fuel dp;;
      mret (Some ip).

Definition new_files (u : unix) (i d : Z) (name : list Z) (type major minor : Z) : unix :=
  let u := w_nodes <[i := Node type major minor 1 []]> u in
  let u := if type =? T_DIR then add_entry i DOTDOT d (add_entry i DOT i u) else u in
  let u := add_entry d name i u in
  if type =? T_DIR then add_nlink d 1 u else u.

Lemma create_tail_k s P ip i dp d r u name type major minor :
  making s P ip i dp d r u → node_of s i = Node type major minor 1 [] → slots 1 s → bytes name → dlook name (data u d) = None → (size P + 24 < LOGCAP)%nat →
  0 < d_nlink (disk_inode s d) < 2 ^ 15 - 1 →
  ∃ o s' P', create_tail ip dp name type s = Ret o s' ∧ (size P' ≤ size P + 24)%nat ∧
    ((o = Some ip ∧ returned s' P' ip i r (new_files u i d name type major minor)) ∨ (o = None ∧ refused s' P' r u ∧ too_full s' u d)).
Proof using Hfuel.
  intros M Hx Hsl Hb Hl HP Hnl. pose proof (mk_both _ _ _ _ _ _ _ _ M) as B. pose proof (ks_vol _ _ _ _ (bo_state _ _ _ _ _ _ _ B)) as V.
  assert (0 < i < 65536) as Hir by (destruct (bo_i _ _ _ _ _ _ _ B) as [[Hi _] _]; unfold inum_ok in Hi; pose proof (vo_count _ V); lia).
  assert (d_type (disk_inode s i) = type ∧ file_data s i = []) as [Et Hnil] by (unfold node_of in Hx; by injection Hx).
  assert (∃ b s1 P1, (if type =? T_DIR then create_dots pid fuel ip dp else mret true) s = Ret b s1 ∧ (size P1 ≤ size P + 14)%nat ∧ making s1 P1 ip i dp d r u ∧ (∀ k, refs s1 k = refs s k) ∧
    d_nlink (disk_inode s1 d) = d_nlink (disk_inode s d) ∧
    (b = true ∧ w_nodes <[i := node_of s1 i]> u = (let u := w_nodes <[i := Node type major minor 1 []]> u in if type =? T_DIR then add_entry i DOTDOT d (add_entry i DOT i u) else u) ∨
     b = false ∧ full s1)) as (b & s1 & P1 & E1 & HP1 & M1 & F1 & En1 & H1).
  { destruct (Z.eqb_spec type T_DIR) as [Htd|Htd].
    - destruct (create_dots_k s P ip i dp d r u M ltac:(congruence) Hnil Hsl ltac:(lia)) as (b & s1 & P1 & E1 & HP1 & M1 & F1 & En1 & H1). exists b, s1, P1. do 5 (split; [done|]).
      destruct H1 as [[-> H1]|?]; [left|by right]. split; [done|]. cbv zeta. by rewrite dots_new, H1, Hx.
    - exists true, s, P. split; [done|]. split; [lia|]. do 3 (split; [done|]). left. by rewrite Hx. }
  unfold create_tail. rewrite (bind_ret_eq _ _ _ _ _ E1). destruct H1 as [[-> Hu]|[-> Hf]]; cbn [negb].
  2:{ destruct (create_fail_k s1 P1 ip i dp d r u M1 ltac:(lia)) as (s' & P' & E & K' & HP' & F' & Hs' & Hc). exists None, s', P'. split; [done|]. split; [lia|]. right.
      split; [done|]. split; [done|]. left. by apply Hc. }
  pose proof (mk_both _ _ _ _ _ _ _ _ M1) as B1. assert (inum (ino ip s1) = i) as Eip by apply B1. rewrite (bind_ret_eq get _ s1 s1 s1 eq_refl), Eip.
  destruct (making_link fuel s1 P1 ip i dp d r u name M1) as (v & s2 & P2 & E2 & HP2 & H2); [by apply (slots_refs 1 s)|done|lia|done|]. rewrite (bind_ret_eq _ _ _ _ _ E2).
  destruct H2 as [(-> & B2 & En2 & Hs2)|(-> & M2 & Hf)]; cbn [Z.ltb Z.compare].
  2:{ destruct (create_fail_k s2 P2 ip i dp d r u M2 ltac:(lia)) as (s' & P' & E & K' & HP' & F' & Hs' & Hc). exists None, s', P'. split; [done|]. split; [lia|]. right.
      split; [done|]. split; [done|]. destruct Hf as [Hf|Hf]; [left; by apply Hc|by right]. }
  rewrite Hu in Hs2. destruct (both_slots _ _ _ _ _ _ _ B2) as (Hne & Hr1 & Hr2). pose proof B2 as [K2 F2 _ _ _ Ld2 Hi2 Hd2 Ht2].
  assert (∃ s3 P3, when (type =? T_DIR) (link_count dp 1;; iupdate dp) s2 = Ret tt s3 ∧ (size P3 ≤ size P2 + 1)%nat ∧ both s3 P3 ip i dp d r ∧ shows s3 (new_files u i d name type major minor))
    as (s3 & P3 & E3 & HP3 & B3 & Hs3).
  { unfold new_files, when. destruct (type =? T_DIR).
    - destruct (link_count_k pid 1 s2 _ P2 dp d _ _ K2 Hr2 Ld2 ltac:(lia) Hd2 Hs2) as (s3 & s4 & E3 & E4 & K4 & F4 & Ld4 & Hnm4 & Hs4 & _ & _ & St4); [rewrite En2, En1; change (2 ^ 15) with 32768 in *; lia|].
      exists s4, ({[IBLOCK d (sb s2)]} ∪ P2). split; [by rewrite (bind_ret_eq _ _ _ _ _ E3)|]. split; [pose proof (size_insert (IBLOCK d (sb s2)) P2); lia|]. split; [|done].
      apply (both_step s2 s4 P2 _ ip i dp d r B2 K4 F4 St4); [by apply Hnm4|by apply Hnm4|].
      destruct (shows_type s4 _ d Hs4 (proj1 (Hnm4 d Hd2))) as [<- _]. rewrite type_add_nlink. by destruct (shows_type s2 _ d Hs2 (proj1 Hd2)) as [-> _].
    - exists s2, P2. split; [done|]. split; [lia|]. by split. }
  destruct (release_dir s3 P3 ip i dp d r _ B3 Hs3) as (s4 & E4 & R4). exists (Some ip), s4, P3.
  split; [by rewrite (bind_ret_eq _ _ _ _ _ E3), (bind_ret_eq _ _ _ _ _ E4)|]. split; [lia|]. by left.
Qed.

(** The name exists. *)
Definition create_old (ip dp : nat) (type : Z) : M (fs S) (option nat) :=
  iunlockput pid fuel dp;;
  ilock pid fuel ip;;
  s ← get;
  let t := d_type (idata (ino ip s)) in
  if (type =? T_FILE) && ((t =? T_FILE) || (t =? T_DEVICE)) then mret (Some ip)
  else iunlockput pid fuel ip;; mret None.

Lemma create_old_k s P ip i dp d r u type :
  kstate pid s {[dp]} P → (∀ k, refs s k = add_ref ip i (add_ref dp d r) k) → fits_ref r dp d → fits_ref (add_ref dp d r) ip i → loaded s dp d → named s d → named s i → shows s u →
  (size P < NBUF)%nat →
  ∃ o s', create_old ip dp type s = Ret o s' ∧
    (if (type =? T_FILE) && ((type_of u i =? T_FILE) || (type_of u i =? T_DEVICE)) then o = Some ip ∧ returned s' P ip i r u else o = None ∧ refused s' P r u).
Proof using Hfuel.
  intros K F Hf Hf' Ld Hd Hi Hs HP. assert (∃ n, refs s dp = Some (d, n)) as [n Hn].
  { rewrite F. unfold add_ref. destruct (decide (dp = ip)) as [->|]; [|rewrite decide_True by done; by eexists].
    destruct (Hf' d (1 + from_option snd 0 (r ip))) as [-> _]; [unfold add_ref; by rewrite decide_True|]. by eexists. }
  destruct (unlockput_k pid fuel s {[dp]} P dp d n K ltac:(set_solver) Hn Ld (or_intror Hd)) as (s1 & E1 & K1 & L1 & F1 & _). rewrite difference_diag_L in K1.
  assert (∀ k, refs s1 k = add_ref ip i r k) as Hr1 by (intros k; rewrite F1, <- (drop_add_add r dp d ip i k Hf Hf'); unfold drop_ref; by rewrite !F).
  destruct (lock_k pid fuel Hfuel s1 ∅ P ip i _ K1 HP ltac:(done) (ref_held s1 ip i r Hr1)) as (s2 & E2 & K2 & L2 & F2 & Ld2 & _). rewrite union_empty_r_L in K2.
  assert (∀ k, refs s2 k = add_ref ip i r k) as Hr2 by (intros k; by rewrite F2). pose proof (looks_trans s s1 s2 L1 L2) as L. pose proof (shows_looks s s2 u L Hs) as Hs2.
  pose proof (proj2 (named_looks s s2 i L) Hi) as Hi2. destruct (shows_type s2 u i Hs2 (proj1 Hi2)) as [Et _].
  assert (fits_ref r ip i) as Hfi.
  { intros a b Hab. destruct (decide (ip = dp)) as [->|Hne]; [|apply (Hf' a b); unfold add_ref; by rewrite decide_False].
    destruct (Hf a b Hab) as [-> ?]. destruct (Hf' d (1 + from_option snd 0 (r dp))) as [-> _]; [unfold add_ref; by rewrite decide_True|done]. }
  unfold create_old. rewrite (bind_ret_eq _ _ _ _ _ E1), (bind_ret_eq _ _ _ _ _ E2), (bind_ret_eq get _ s2 s2 s2 eq_refl). assert (idata (ino ip s2) = disk_inode s2 i) as -> by apply Ld2.
  rewrite <- Et. cbv zeta. destruct ((type =? T_FILE) && ((type_of u i =? T_FILE) || (type_of u i =? T_DEVICE))).
  - exists (Some ip), s2. split; [done|]. by split.
  - destruct (unlockput_k pid fuel s2 {[ip]} P ip i _ K2 ltac:(set_solver) (ref_held s2 ip i r Hr2) Ld2 (or_intror Hi2)) as (s3 & E3 & K3 & L3 & F3 & _). rewrite difference_diag_L in K3.
    exists None, s3. split; [by rewrite (bind_ret_eq _ _ _ _ _ E3)|]. split; [done|]. constructor; [done|by apply (refs_put s2 s3 ip i)|by apply (shows_looks s2)].
Qed.

(** The name is new. *)
Definition create_new (dp : nat) (name : list Z) (type major minor : Z) : M (fs S) (option nat) :=
  s ← get;
  r ← Fs.ialloc (idev (ino dp s)) type;
  match r with
  | None => iunlockput pid fuel dp;; mret None
  | Some ip =>
      ilock pid fuel ip;;
      modify (iupd ip (λ x, set_idata (set_nlink 1 (set_dev (i16 major) (i16 minor) (idata x))) x));;
      iupdate ip;;
      create_tail ip dp name type
  end.

Lemma create_new_k s P dp d r u name type major minor :
  kstate pid s {[dp]} P → (∀ k, refs s k = add_ref dp d r k) → fits_ref r dp d → loaded s dp d → named s d → d_type (disk_inode s d) = T_DIR → shows s u → slots 2 s → bytes name →
  dlook name (data u d) = None → 0 < type < 2 ^ 15 → - 2 ^ 15 ≤ major < 2 ^ 15 → - 2 ^ 15 ≤ minor < 2 ^ 15 → (size P + 26 < LOGCAP)%nat → 0 < d_nlink (disk_inode s d) < 2 ^ 15 - 1 →
  ∃ o s' P', create_new dp name type major minor s = Ret o s' ∧ (size P' ≤ size P + 26)%nat ∧
    match free_inode (nodes u) with
    | None => o = None ∧ refused s' P' r u
    | Some i => (∃ ip, o = Some ip ∧ returned s' P' ip i r (new_files u i d name type major minor)) ∨ (o = None ∧ refused s' P' r u ∧ too_full s' u d)
    end.
Proof using Hfuel.
  intros K F Hf Ld Hd Ht Hs Hsl Hb Hl Hty Hma Hmi HP Hnl. assert (idev (ino dp s) = ROOTDEV) as Edev by apply Ld. unfold create_new. rewrite (bind_ret_eq get _ s s s eq_refl), Edev.
  destruct (ialloc_k pid s {[dp]} P type K (slots_less 2 1 s ltac:(lia) Hsl) ltac:(lia) Hty) as (o & s1 & E1 & Ho). rewrite (bind_ret_eq _ _ _ _ _ E1). destruct o as [ip|].
  - destruct Ho as (i & Hi & Hn & Hlow & T). rewrite (free_inode_some s u i Hs Hi Hn Hlow).
    destruct (make_inode s P i type major minor ip s1 dp d r u T K Hi Hn F Hf Ld Hd Ht Hs Hty Hma Hmi ltac:(lia)) as (s2 & P2 & E2 & M2 & HP2 & Hx & _ & Hnl2).
    assert (slots 1 s2) as Hsl2.
    { apply (slots_add 1 ip i s s2); [|done]. intros k. rewrite (bo_refs _ _ _ _ _ _ _ (mk_both _ _ _ _ _ _ _ _ M2)). unfold add_ref. by rewrite !F. }
    destruct (create_tail_k s2 P2 ip i dp d r u name type major minor M2 Hx Hsl2 Hb Hl ltac:(lia) ltac:(by rewrite Hnl2)) as (o & s' & P' & E' & HP' & Hres).
    exists o, s', P'. split; [|split; [lia|]].
    + revert E2. msimpl. destruct (ilock pid fuel ip s1) as [[] s3| | | |] eqn:El; try done. cbn [res_bind]. intros E2. rewrite E2. exact E'.
    + destruct Hres as [[-> ?]|?]; [left; by exists ip|by right].
  - destruct Ho as (K1 & U & Hall). rewrite (free_inode_none s u Hs Hall). pose proof (unseen_looks s s1 U) as L1. assert (∀ k, refs s1 k = add_ref dp d r k) as F1.
    { intros k. rewrite <- F. unfold refs, ino. by rewrite (un_mem _ _ U). }
    destruct (unlockput_k pid fuel s1 {[dp]} P dp d _ K1 ltac:(set_solver) (ref_held s1 dp d r F1) (loaded_unseen s s1 dp d U Ld) (or_intror (proj2 (named_looks s s1 d L1) Hd)))
      as (s2 & E2 & K2 & L2 & F2 & _). rewrite difference_diag_L in K2. exists None, s2, P. split; [by rewrite (bind_ret_eq _ _ _ _ _ E2)|]. split; [lia|]. split; [done|].
    constructor; [done|by apply (refs_put s1 s2 dp d)|by apply (shows_looks s1 s2), (shows_looks s s1)].
Qed.
End create.

(** C21. [create], which [sys_open] with O_CREATE, [sys_mknod] and [sys_mkdir] call, implements
    its specification.  On a consistent volume that shows the files of the specification,
    with nothing locked, three free slots in the table of inodes and room in the transaction,
    the call returns.  When the specification refuses (no such directory, a name that exists
    and cannot be opened as a file, no inode left) so does the call, and files and references
    are as they were.  When the specification has a file, old or new, the call returns its
    inode, locked and with one more reference, and the disk shows the files of the
    specification: for a new file its inode, the entry in its directory and, for a directory,
    its two entries and the link count of its parent; or the name is new and the call returns
    no inode, all that it had done taken back, and then at most one block of the disk is free
    or the directory is as large as a file can be.  The volume is consistent in every case. *)
Theorem create_implements {S : Type} `{!Store S, !StoreSpec S} pid fuel (s : fs S) P u pr cwd path type major minor :
  (0 < fuel)%nat → kstate pid s ∅ P → shows s u → start_ok s pr cwd → slots 3 s → (size P + 26 < LOGCAP)%nat → (length path < MAXPATH)%nat → bytes path →
  0 < type < 2 ^ 15 → - 2 ^ 15 ≤ major < 2 ^ 15 → - 2 ^ 15 ≤ minor < 2 ^ 15 →
  (∀ d name x, resolve_parent u pr path = Some (d, name) → nodes u !! d = Some x → 0 < n_nlink x < 2 ^ 15 - 1) →
  ∃ o s' P', Sysfile.create pid fuel cwd path type major minor s = Ret o s' ∧ (size P' ≤ size P + 26)%nat ∧
    match create u pr path type major minor with
    | Some (i, u') => (∃ ip, o = Some ip ∧ returned pid s' P' ip i (refs s) u') ∨
        (o = None ∧ refused pid s' P' (refs s) u ∧ ∃ d name, resolve_parent u pr path = Some (d, name) ∧ dlook name (data u d) = None ∧ too_full s' u d)
    | None => o = None ∧ refused pid s' P' (refs s) u
    end.
Proof.
  intros Hfuel K Hs Hst Hsl HP Hlp Hb Hty Hma Hmi Hnl. assert (size P < NBUF)%nat as HB by (unfold LOGCAP, NBUF in *; lia). pose proof (ks_vol _ _ _ _ K) as V.
  destruct (start_from s pr cwd path Hst) as (Es & Hns & Hc). rewrite <- Es in Hns.
  destruct (path_k pid fuel Hfuel true s P cwd path K HB (slots_less 3 2 s ltac:(lia) Hsl) Hc Hns) as (o & nm & s1 & E1 & K1 & L1 & Hres). rewrite Es in Hres, Hns.
  rewrite (shows_target true s u _ V Hs _ Hns) in Hres. assert (resolve_parent u pr path = u_walk_parent u (from pr path) (elems path)) as Er
    by (unfold resolve_parent; by rewrite (proj2 (Nat.ltb_lt _ _)) by done). rewrite <- Er in Hres. unfold create. pose proof (shows_looks s s1 u L1 Hs) as Hs1.
  unfold Sysfile.create, nameiparent. rewrite (bind_ret_eq _ _ _ _ _ E1). destruct (resolve_parent u pr path) as [[d name]|] eqn:Ew; cbn [fmap option_fmap option_map fst mbind option_bind] in *.
  2:{ destruct Hres as [-> F1]. exists None, s1, P. split; [done|]. split; [lia|]. split; [done|]. by constructor. }
  destruct Hres as (dp & -> & -> & Hd & Hf & F1). destruct (walk_parent_dir u _ _ d name (eq_sym Er)) as [Htd Elast]. rewrite Elast. cbn [default from_option id].
  pose proof (proj2 (named_looks s s1 d L1) Hd) as Hd1. destruct (lock_k pid fuel Hfuel s1 ∅ P dp d _ K1 HB ltac:(done) (ref_held s1 dp d _ F1)) as (s2 & E2 & K2 & L2 & F2 & Ld2 & _).
  rewrite union_empty_r_L in K2. assert (∀ k, refs s2 k = add_ref dp d (refs s) k) as Hr2 by (intros k; by rewrite F2). pose proof (shows_looks s1 s2 u L2 Hs1) as Hs2.
  pose proof (proj2 (named_looks s1 s2 d L2) Hd1) as Hd2. destruct (shows_type s2 u d Hs2 (proj1 Hd2)) as [Et Ed]. rewrite Htd in Et. rewrite (bind_ret_eq _ _ _ _ _ E2).
  assert (slots 2 s2) as Hsl2 by by apply (slots_add 2 dp d s).
  destruct (dirlookup_k pid s2 {[dp]} P dp d _ name K2 (ref_held s2 dp d _ Hr2) Ld2 Hd2 (eq_sym Et) (slots_less 2 1 s2 ltac:(lia) Hsl2) HB) as (o & s3 & E3 & K3 & L3 & Ld3 & H3).
  rewrite (bind_ret_eq _ _ _ _ _ E3). rewrite <- Ed in H3. pose proof (shows_looks s2 s3 u L3 Hs2) as Hs3. pose proof (proj2 (named_looks s2 s3 d L3) Hd2) as Hd3.
  destruct (dlook name (data u d)) as [i|] eqn:El.
  - destruct H3 as (Hi & ip & off & nm & _ & -> & Hfi & F3). assert (∀ k, refs s3 k = add_ref ip i (add_ref dp d (refs s)) k) as Hr3 by (intros k; rewrite F3; unfold add_ref; by rewrite !Hr2).
    destruct (create_old_k pid fuel Hfuel s3 P ip i dp d (refs s) u type K3 Hr3 Hf) as (o & s' & E & Hres); try done; [intros a b; rewrite <- Hr2; by apply Hfi|by apply (named_looks s2 s3 i L3)|].
    exists o, s', P. split; [exact E|]. split; [lia|]. destruct (_ && _); [left; by exists ip|done].
  - destruct H3 as [-> F3]. assert (∀ k, refs s3 k = add_ref dp d (refs s) k) as Hr3 by (intros k; by rewrite F3).
    destruct (create_new_k pid fuel Hfuel s3 P dp d (refs s) u name type major minor K3 Hr3 Hf Ld3 Hd3) as (o & s' & P' & E & HP' & Hres); try done.
    + by rewrite (looks_inode _ _ d L3), <- Et.
    + by apply (slots_refs 2 s2).
    + replace name with (default [] (last (elems path))) by (by rewrite Elast). by apply bytes_elems.
    + apply (Hnl d name (node_of s3 d) eq_refl). by rewrite (sh_nodes _ _ Hs3), decide_True by apply Hd3.
    + exists o, s', P'. split; [exact E|]. split; [done|]. destruct (free_inode (nodes u)) as [i|]; [|done]. cbn [mbind option_bind].
      destruct Hres as [?|(? & ? & ?)]; [by left|right]. do 2 (split; [done|]). by exists d, name.
Qed.

(** * On the image of mkfs *)

#[local] Instance new_store : Store log_state := store_log 1 1.
#[local] Instance new_spec : StoreSpec log_state := store_log_spec 1 1 2 1 (Nat.lt_0_succ 0).

(** The directory "/a". *)
Lemma create_implements_witness : ∃ (s : fs log_state) j u u' o s', Sysfile.create 1 1 j [47; 97] T_DIR 0 0 s = Ret o s' ∧
  shows s u ∧ create u (init_proc 1) [47; 97] T_DIR 0 0 = Some (3, u') ∧ (o ≠ None ∧ shows s' u' ∨ o = None ∧ shows s' u).
Proof.
  destruct booted_proc as (s & j & m & K & Hs & Hst & Hsl & Hnl & Ht & Hd & Hw & Ht2 & Hlive).
  assert (resolve_parent (unix_of s) (init_proc 1) [47; 97] = Some (1, [97])) as Er.
  { unfold resolve_parent. change (from (init_proc 1) [47; 97]) with 1. change (elems [47; 97]) with [[97]]. cbn [length Nat.ltb Nat.leb MAXPATH u_walk_parent]. by rewrite Ht. }
  assert (free_inode (nodes (unix_of s)) = Some 3) as Ef.
  { apply (free_inode_some s); [exact Hs| | |].
    - unfold inum_ok. rewrite (sh_count _ _ Hs). unfold NINODES. lia.
    - intros H%Hlive. lia.
    - intros k Hk. apply Hlive. lia. }
  destruct (create_implements 1 1 s ∅ (unix_of s) (init_proc 1) j [47; 97] T_DIR 0 0 (Nat.lt_0_succ 0) K Hs Hst Hsl) as (o & s' & P' & E & _ & Hres).
  - vm_compute. lia.
  - vm_compute. lia.
  - repeat constructor; lia.
  - vm_compute. split; congruence.
  - vm_compute. split; congruence.
  - vm_compute. split; congruence.
  - intros d name x _ Hx. rewrite (Hnl d x Hx). lia.
  - assert (∃ u', create (unix_of s) (init_proc 1) [47; 97] T_DIR 0 0 = Some (3, u')) as [u' Ec].
    { unfold create. rewrite Er. cbn [mbind option_bind]. rewrite Hd, one_file_new, Ef. cbn [mbind option_bind]. by eexists. }
    rewrite Ec in Hres. exists s, j, (unix_of s), u', o, s'. do 2 (split; [assumption|]). split; [exact Ec|]. destruct Hres as [(ip & -> & R)|(-> & R & _)]; [left|right]; (split; [done|]); apply R.
Defined.
