(* ===== verification/UserTests.v ===== *)
(** The test programs: user/usertests.c, cowtest.c, forktest.c, stressfs.c and grind.c, and
    what the specification of the system calls (Unix) makes of them.

    Neighbouring functions of usertests.c are kept in one table, as in its [quicktests].  A
    status that wait has not stored counts as 0, and static buffers are zero at the start. *)

From ITree Require Import ITree.
From S2P Require Import Prelude Bytes Fdtable Bio Fs Printf Grep User Unix.

Local Notation "a .| b" := (Z.lor a b) (at level 45, left associativity).

(** [if(bad){ printf(...); exit(1); }] *)
Definition check (bad : bool) (fmt : string) (args : list arg) : user unit :=
  if bad then printf fmt args;; exit 1 else mret tt.

Abbreviation S_ s := (Str (Some s)).
Definition status_of (r : option (Z * Z)) : Z := from_option snd 0 r.
Definition pid_of (r : option (Z * Z)) : Z := from_option fst (-1) r.
Definition wait_status : user Z := r ← wait; mret (status_of r).

(** [for(i = a; i < a + n; i++)] *)
Definition for_range (a : Z) (n : nat) (f : Z → user unit) : user unit := for_each (λ k, f (a + Z.of_nat k)) (seq 0 n).

Definition test : Type := string * (list Z → user unit).

(** * usertests.c *)

Definition truncate_tests : list test :=
  let truncfile := str "truncfile" in
  let truncate1 (s : list Z) : user unit :=
    unlink truncfile;;
    fd1 ← open truncfile (O_CREATE .| O_WRONLY .| O_TRUNC);
    write fd1 (str "abcd");;
    close fd1;;
    fd2 ← open truncfile O_RDONLY;
    '(n, _) ← read fd2 32;
    check (negb (n =? 4)) "%s: read %d bytes, wanted 4\n" [S_ s; Num n];;
    fd1 ← open truncfile (O_WRONLY .| O_TRUNC);
    fd3 ← open truncfile O_RDONLY;
    '(n, _) ← read fd3 32;
    (if negb (n =? 0) then
       printf "aaa fd3=%d\n" [Num fd3];; printf "%s: read %d bytes, wanted 0\n" [S_ s; Num n];; exit 1
     else mret tt);;
    '(n, _) ← read fd2 32;
    (if negb (n =? 0) then
       printf "bbb fd2=%d\n" [Num fd2];; printf "%s: read %d bytes, wanted 0\n" [S_ s; Num n];; exit 1
     else mret tt);;
    write fd1 (str "abcdef");;
    '(n, _) ← read fd3 32;
    check (negb (n =? 6)) "%s: read %d bytes, wanted 6\n" [S_ s; Num n];;
    '(n, _) ← read fd2 32;
    check (negb (n =? 2)) "%s: read %d bytes, wanted 2\n" [S_ s; Num n];;
    unlink truncfile;;
    close fd1;;
    close fd2;;
    close fd3;;
    mret tt in
  let truncate2 (s : list Z) : user unit :=
    unlink truncfile;;
    fd1 ← open truncfile (O_CREATE .| O_TRUNC .| O_WRONLY);
    write fd1 (str "abcd");;
    fd2 ← open truncfile (O_TRUNC .| O_WRONLY);
    n ← write fd1 (str "x");
    check (negb (n =? -1)) "%s: write returned %d, expected -1\n" [S_ s; Num n];;
    unlink truncfile;;
    close fd1;;
    close fd2;;
    mret tt in
  let truncate3 (s : list Z) : user unit :=
    fd ← open truncfile (O_CREATE .| O_TRUNC .| O_WRONLY);
    close fd;;
    pid ← fork;
    check (pid <? 0) "%s: fork failed\n" [S_ s];;
    (if pid =? 0 then
       for_range 0 100 (λ _,
         fd ← open truncfile O_WRONLY;
         check (fd <? 0) "%s: open failed\n" [S_ s];;
         n ← write fd (str "1234567890");
         check (negb (n =? 10)) "%s: write got %d, expected 10\n" [S_ s; Num n];;
         close fd;;
         fd ← open truncfile O_RDONLY;
         read fd 32;;
         close fd;;
         mret tt);;
       exit 0
     else mret tt);;
    for_range 0 150 (λ _,
      fd ← open truncfile (O_CREATE .| O_WRONLY .| O_TRUNC);
      check (fd <? 0) "%s: open failed\n" [S_ s];;
      n ← write fd (str "xxx");
      check (negb (n =? 3)) "%s: write got %d, expected 3\n" [S_ s; Num n];;
      close fd;;
      mret tt);;
    xstatus ← wait_status;
    unlink truncfile;;
    exit xstatus in
  [("truncate1", truncate1); ("truncate2", truncate2); ("truncate3", truncate3)].

Definition iput_tests : list test :=
  let iputtest (s : list Z) : user unit :=
    r ← mkdir (str "iputdir");
    check (r <? 0) "%s: mkdir failed\n" [S_ s];;
    r ← chdir (str "iputdir");
    check (r <? 0) "%s: chdir iputdir failed\n" [S_ s];;
    r ← unlink (str "../iputdir");
    check (r <? 0) "%s: unlink ../iputdir failed\n" [S_ s];;
    r ← chdir (str "/");
    check (r <? 0) "%s: chdir / failed\n" [S_ s] in
  let exitiputtest (s : list Z) : user unit :=
    pid ← fork;
    check (pid <? 0) "%s: fork failed\n" [S_ s];;
    (if pid =? 0 then
       r ← mkdir (str "iputdir");
       check (r <? 0) "%s: mkdir failed\n" [S_ s];;
       r ← chdir (str "iputdir");
       check (r <? 0) "%s: child chdir failed\n" [S_ s];;
       r ← unlink (str "../iputdir");
       check (r <? 0) "%s: unlink ../iputdir failed\n" [S_ s];;
       exit 0
     else mret tt);;
    xstatus ← wait_status;
    exit xstatus in
  let openiputtest (s : list Z) : user unit :=
    r ← mkdir (str "oidir");
    check (r <? 0) "%s: mkdir oidir failed\n" [S_ s];;
    pid ← fork;
    check (pid <? 0) "%s: fork failed\n" [S_ s];;
    (if pid =? 0 then
       fd ← open (str "oidir") O_RDWR;
       check (0 <=? fd) "%s: open directory for write succeeded\n" [S_ s];;
       exit 0
     else mret tt);;
    sleep 1;;
    r ← unlink (str "oidir");
    check (negb (r =? 0)) "%s: unlink failed\n" [S_ s];;
    xstatus ← wait_status;
    exit xstatus in
  let opentest (s : list Z) : user unit :=
    fd ← open (str "echo") 0;
    check (fd <? 0) "%s: open echo failed!\n" [S_ s];;
    close fd;;
    fd ← open (str "doesnotexist") 0;
    check (0 <=? fd) "%s: open doesnotexist succeeded!\n" [S_ s] in
  [("openiput", openiputtest); ("exitiput", exitiputtest); ("iput", iputtest); ("opentest", opentest)].

(** A buffer of zeros whose first [int] is set to [i]. *)
Definition int_block (i : Z) (n : nat) : list Z := le_enc 4 i ++ replicate (n - 4) 0.

Definition write_tests : list test :=
  let writetest (s : list Z) : user unit :=
    let N := 100 in let SZ := 10 in
    fd ← open (str "small") (O_CREATE .| O_RDWR);
    check (fd <? 0) "%s: error: creat small failed!\n" [S_ s];;
    for_range 0 100 (λ i,
      r ← write fd (str "aaaaaaaaaa");
      check (negb (r =? SZ)) "%s: error: write aa %d new file failed\n" [S_ s; Num i];;
      r ← write fd (str "bbbbbbbbbb");
      check (negb (r =? SZ)) "%s: error: write bb %d new file failed\n" [S_ s; Num i]);;
    close fd;;
    fd ← open (str "small") O_RDONLY;
    check (fd <? 0) "%s: error: open small failed!\n" [S_ s];;
    '(i, _) ← read fd (N * SZ * 2);
    check (negb (i =? N * SZ * 2)) "%s: read failed\n" [S_ s];;
    close fd;;
    r ← unlink (str "small");
    check (r <? 0) "%s: unlink small failed\n" [S_ s] in
  let writebig (s : list Z) : user unit :=
    fd ← open (str "big") (O_CREATE .| O_RDWR);
    check (fd <? 0) "%s: error: creat big failed!\n" [S_ s];;
    for_range 0 (Z.to_nat MAXFILE) (λ i,
      r ← write fd (int_block i 1024);
      check (negb (r =? BSIZE)) "%s: error: write big file failed i=%d\n" [S_ s; Num i]);;
    close fd;;
    fd ← open (str "big") O_RDONLY;
    check (fd <? 0) "%s: error: open big failed!\n" [S_ s];;
    ITree.iter (λ n,
      '(i, buf) ← read fd BSIZE;
      if i =? 0 then
        check (negb (n =? MAXFILE)) "%s: read only %d blocks from big" [S_ s; Num n];; mret (inr tt)
      else
        check (negb (i =? BSIZE)) "%s: read failed %d\n" [S_ s; Num i];;
        check (negb (get32 0 buf =? n)) "%s: read content of block %d is %d\n" [S_ s; Num n; Num (get32 0 buf)];;
        mret (inl (n + 1))) 0;;
    close fd;;
    r ← unlink (str "big");
    check (r <? 0) "%s: unlink big failed\n" [S_ s] in
  let createtest (s : list Z) : user unit :=
    let N := 52%nat in
    for_range 0 N (λ i, fd ← open [97; 48 + i] (O_CREATE .| O_RDWR); close fd;; mret tt);;
    for_range 0 N (λ i, unlink [97; 48 + i];; mret tt) in
  [("writetest", writetest); ("writebig", writebig); ("createtest", createtest)].

Definition exec_tests : list test :=
  let dirtest (s : list Z) : user unit :=
    r ← mkdir (str "dir0");
    check (r <? 0) "%s: mkdir failed\n" [S_ s];;
    r ← chdir (str "dir0");
    check (r <? 0) "%s: chdir dir0 failed\n" [S_ s];;
    r ← chdir (str "..");
    check (r <? 0) "%s: chdir .. failed\n" [S_ s];;
    r ← unlink (str "dir0");
    check (r <? 0) "%s: unlink dir0 failed\n" [S_ s] in
  let exectest (s : list Z) : user unit :=
    unlink (str "echo-ok");;
    pid ← fork;
    check (pid <? 0) "%s: fork failed\n" [S_ s];;
    (if pid =? 0 then
       close 1;;
       fd ← open (str "echo-ok") (O_CREATE .| O_WRONLY);
       check (fd <? 0) "%s: create failed\n" [S_ s];;
       check (negb (fd =? 1)) "%s: wrong fd\n" [S_ s];;
       r ← exec (str "echo") [str "echo"; str "OK"];
       check (r <? 0) "%s: exec echo failed\n" [S_ s]
     else mret tt);;
    r ← wait;
    (if negb (pid_of r =? pid) then printf "%s: wait failed!\n" [S_ s] else mret tt);;
    let xstatus := status_of r in
    (if negb (xstatus =? 0) then exit xstatus else mret tt);;
    fd ← open (str "echo-ok") O_RDONLY;
    check (fd <? 0) "%s: open failed\n" [S_ s];;
    '(n, buf) ← read fd 2;
    check (negb (n =? 2)) "%s: read failed\n" [S_ s];;
    unlink (str "echo-ok");;
    if (nth 0 buf 0 =? 79) && (nth 1 buf 0 =? 75) then exit 0
    else printf "%s: wrong output\n" [S_ s];; exit 1 in
  [("dirtest", dirtest); ("exectest", exectest)].

(** [sizeof(buf)] *)
Abbreviation BUFSZ := (12 * BSIZE).

Definition pipe_tests : list test :=
  let pipe1 (s : list Z) : user unit :=
    let N := 5 in let SZ := 1033 in
    r ← pipe;
    match r with
    | None => printf "%s: pipe() failed\n" [S_ s];; exit 1
    | Some (fds0, fds1) =>
        pid ← fork;
        if pid =? 0 then
          close fds0;;
          for_range 0 (Z.to_nat N) (λ n,
            r ← write fds1 ((λ i, (n * SZ + Z.of_nat i) mod 256) <$> seq 0 (Z.to_nat SZ));
            check (negb (r =? SZ)) "%s: pipe1 oops 1\n" [S_ s]);;
          exit 0
        else if 0 <? pid then
          close fds1;;
          total ← ITree.iter (λ '(seq_, total, cc),
            '(n, buf) ← read fds0 cc;
            if 0 <? n then
              if forallb (λ '(i, b), b =? (seq_ + Z.of_nat i) mod 256) (imap pair buf)
              then mret (inl (seq_ + n, total + n, if BUFSZ <? cc * 2 then BUFSZ else cc * 2))
              else printf "%s: pipe1 oops 2\n" [S_ s];; mret (inr None)
            else mret (inr (Some total))) (0, 0, 1);
          match total with
          | None => mret tt
          | Some total =>
              check (negb (total =? N * SZ)) "%s: pipe1 oops 3 total %d\n" [S_ s; Num total];;
              close fds0;;
              xstatus ← wait_status;
              exit xstatus
          end
        else printf "%s: fork() failed\n" [S_ s];; exit 1
    end in
  let killstatus (s : list Z) : user unit :=
    for_range 0 100 (λ _,
      pid1 ← fork;
      check (pid1 <? 0) "%s: fork failed\n" [S_ s];;
      (if pid1 =? 0 then ITree.iter (λ _ : unit, getpid;; mret (inl tt)) tt else mret tt);;
      sleep 1;;
      kill pid1;;
      xst ← wait_status;
      check (negb (xst =? -1)) "%s: status should be -1\n" [S_ s]);;
    exit 0 in
  let preempt (s : list Z) : user unit :=
    pid1 ← fork;
    check (pid1 <? 0) "%s: fork failed" [S_ s];;
    (if pid1 =? 0 then ITree.spin else mret tt);;
    pid2 ← fork;
    check (pid2 <? 0) "%s: fork failed\n" [S_ s];;
    (if pid2 =? 0 then ITree.spin else mret tt);;
    r ← pipe;
    let '(pfds0, pfds1) := default (0, 0) r in
    pid3 ← fork;
    check (pid3 <? 0) "%s: fork failed\n" [S_ s];;
    (if pid3 =? 0 then
       close pfds0;;
       r ← write pfds1 (str "x");
       (if negb (r =? 1) then printf "%s: preempt write error" [S_ s] else mret tt);;
       close pfds1;;
       ITree.spin
     else mret tt);;
    close pfds1;;
    '(n, _) ← read pfds0 BUFSZ;
    if negb (n =? 1) then printf "%s: preempt read error" [S_ s]
    else
      close pfds0;;
      printf "kill... " [];;
      kill pid1;;
      kill pid2;;
      kill pid3;;
      printf "wait... " [];;
      wait;;
      wait;;
      wait;;
      mret tt in
  [("pipe1", pipe1); ("killstatus", killstatus); ("preempt", preempt)].

Definition exit_tests : list test :=
  let exitwait (s : list Z) : user unit :=
    for_range 0 100 (λ i,
      pid ← fork;
      check (pid <? 0) "%s: fork failed\n" [S_ s];;
      if negb (pid =? 0) then
        r ← wait;
        check (negb (pid_of r =? pid)) "%s: wait wrong pid\n" [S_ s];;
        check (negb (i =? status_of r)) "%s: wait wrong exit status\n" [S_ s]
      else exit i) in
  let reparent (s : list Z) : user unit :=
    master_pid ← getpid;
    for_range 0 200 (λ _,
      pid ← fork;
      check (pid <? 0) "%s: fork failed\n" [S_ s];;
      if negb (pid =? 0) then
        r ← wait;
        check (negb (pid_of r =? pid)) "%s: wait wrong pid\n" [S_ s]
      else
        pid2 ← fork;
        (if pid2 <? 0 then kill master_pid;; exit 1 else mret tt);;
        exit 0);;
    exit 0 in
  let twochildren (s : list Z) : user unit :=
    for_range 0 1000 (λ _,
      pid1 ← fork;
      check (pid1 <? 0) "%s: fork failed\n" [S_ s];;
      if pid1 =? 0 then exit 0
      else
        pid2 ← fork;
        check (pid2 <? 0) "%s: fork failed\n" [S_ s];;
        if pid2 =? 0 then exit 0 else wait;; wait;; mret tt) in
  [("exitwait", exitwait); ("reparent", reparent); ("twochildren", twochildren)].

Definition fork_tests : list test :=
  let forkfork (s : list Z) : user unit :=
    let N := 2%nat in
    for_range 0 N (λ _,
      pid ← fork;
      check (pid <? 0) "%s: fork failed" [S_ s];;
      if pid =? 0 then
        for_range 0 200 (λ _,
          pid1 ← fork;
          (if pid1 <? 0 then exit 1 else mret tt);;
          (if pid1 =? 0 then exit 0 else mret tt);;
          wait;;
          mret tt);;
        exit 0
      else mret tt);;
    for_range 0 N (λ _,
      xstatus ← wait_status;
      check (negb (xstatus =? 0)) "%s: fork in child failed" [S_ s]) in
  let forkforkfork (s : list Z) : user unit :=
    let stopforking := str "stopforking" in
    unlink stopforking;;
    pid ← fork;
    check (pid <? 0) "%s: fork failed" [S_ s];;
    (if pid =? 0 then
       ITree.iter (λ _ : unit,
         fd ← open stopforking 0;
         (if 0 <=? fd then exit 0 else mret tt);;
         r ← fork;
         (if r <? 0 then fd ← open stopforking (O_CREATE .| O_RDWR); close fd;; mret tt else mret tt);;
         mret (inl tt)) tt
     else mret tt);;
    sleep 20;;
    fd ← open stopforking (O_CREATE .| O_RDWR);
    close fd;;
    wait;;
    sleep 10;;
    mret tt in
  let reparent2 (s : list Z) : user unit :=
    for_range 0 800 (λ _,
      pid1 ← fork;
      check (pid1 <? 0) "fork failed\n" [];;
      (if pid1 =? 0 then fork;; fork;; exit 0 else mret tt);;
      wait;;
      mret tt);;
    exit 0 in
  [("forkfork", forkfork); ("forkforkfork", forkforkfork); ("reparent2", reparent2)].

Definition shared_tests : list test :=
  let sharedfd (s : list Z) : user unit :=
    let N := 1000 in let SZ := 10 in
    unlink (str "sharedfd");;
    fd ← open (str "sharedfd") (O_CREATE .| O_RDWR);
    check (fd <? 0) "%s: cannot open sharedfd for writing" [S_ s];;
    pid ← fork;
    let buf := replicate (Z.to_nat SZ) (if pid =? 0 then 99 else 112) in
    for_range 0 (Z.to_nat N) (λ _,
      r ← write fd buf;
      check (negb (r =? SZ)) "%s: write sharedfd failed\n" [S_ s]);;
    (if pid =? 0 then exit 0
     else
       xstatus ← wait_status;
       if negb (xstatus =? 0) then exit xstatus else mret tt);;
    close fd;;
    fd ← open (str "sharedfd") 0;
    check (fd <? 0) "%s: cannot open sharedfd for reading\n" [S_ s];;
    '(nc, np) ← ITree.iter (λ '(buf, nc, np),
      '(n, bs) ← read fd SZ;
      let buf := bs ++ drop (length bs) buf in
      if 0 <? n then
        mret (inl (buf, nc + Z.of_nat (length (filter (λ c, c = 99) buf)), np + Z.of_nat (length (filter (λ c, c = 112) buf))))
      else mret (inr (nc, np))) (buf, 0, 0);
    close fd;;
    unlink (str "sharedfd");;
    if (nc =? N * SZ) && (np =? N * SZ) then exit 0
    else printf "%s: nc/np test fails\n" [S_ s];; exit 1 in
  let fourfiles (s : list Z) : user unit :=
    let N := 12 in let NCHILD := 4%nat in let SZ := 500 in
    let fname (pi : Z) := [102; 48 + pi] in
    for_range 0 NCHILD (λ pi,
      unlink (fname pi);;
      pid ← fork;
      check (pid <? 0) "%s: fork failed\n" [S_ s];;
      if pid =? 0 then
        fd ← open (fname pi) (O_CREATE .| O_RDWR);
        check (fd <? 0) "%s: create failed\n" [S_ s];;
        for_range 0 (Z.to_nat N) (λ _,
          n ← write fd (replicate (Z.to_nat SZ) (48 + pi));
          check (negb (n =? SZ)) "write failed %d\n" [Num n]);;
        exit 0
      else mret tt);;
    for_range 0 NCHILD (λ _,
      xstatus ← wait_status;
      if negb (xstatus =? 0) then exit xstatus else mret tt);;
    for_range 0 NCHILD (λ i,
      fd ← open (fname i) 0;
      total ← ITree.iter (λ total,
        '(n, buf) ← read fd BUFSZ;
        if 0 <? n then
          check (negb (forallb (λ b, b =? 48 + i) buf)) "%s: wrong char\n" [S_ s];;
          mret (inl (total + n))
        else mret (inr total)) 0;
      close fd;;
      check (negb (total =? N * SZ)) "wrong length %d\n" [Num total];;
      unlink (fname i);;
      mret tt) in
  [("sharedfd", sharedfd); ("fourfiles", fourfiles)].

Definition createdelete (s : list Z) : user unit :=
  let N := 20 in let NCHILD := 4%nat in
  for_range 0 NCHILD (λ pi,
    pid ← fork;
    check (pid <? 0) "%s: fork failed\n" [S_ s];;
    if pid =? 0 then
      for_range 0 (Z.to_nat N) (λ i,
        fd ← open [112 + pi; 48 + i] (O_CREATE .| O_RDWR);
        check (fd <? 0) "%s: create failed\n" [S_ s];;
        close fd;;
        if (0 <? i) && (i mod 2 =? 0) then
          r ← unlink [112 + pi; 48 + i / 2];
          check (r <? 0) "%s: unlink failed\n" [S_ s]
        else mret tt);;
      exit 0
    else mret tt);;
  for_range 0 NCHILD (λ _,
    xstatus ← wait_status;
    if negb (xstatus =? 0) then exit 1 else mret tt);;
  for_range 0 (Z.to_nat N) (λ i,
    for_range 0 NCHILD (λ pi,
      let name := [112 + pi; 48 + i] in
      fd ← open name 0;
      (if ((i =? 0) || (N / 2 <=? i)) && (fd <? 0) then
         printf "%s: oops createdelete %s didn't exist\n" [S_ s; S_ name];; exit 1
       else if (1 <=? i) && (i <? N / 2) && (0 <=? fd) then
         printf "%s: oops createdelete %s did exist\n" [S_ s; S_ name];; exit 1
       else mret tt);;
      if 0 <=? fd then close fd;; mret tt else mret tt));;
  for_range 0 (Z.to_nat N) (λ i,
    for_range 0 NCHILD (λ pi, unlink [112 + pi; 48 + i];; mret tt)).

Definition link_tests : list test :=
  let unlinkread (s : list Z) : user unit :=
    let SZ := 5 in
    let unlinkread := str "unlinkread" in
    fd ← open unlinkread (O_CREATE .| O_RDWR);
    check (fd <? 0) "%s: create unlinkread failed\n" [S_ s];;
    write fd (str "hello");;
    close fd;;
    fd ← open unlinkread O_RDWR;
    check (fd <? 0) "%s: open unlinkread failed\n" [S_ s];;
    r ← unlink unlinkread;
    check (negb (r =? 0)) "%s: unlink unlinkread failed\n" [S_ s];;
    fd1 ← open unlinkread (O_CREATE .| O_RDWR);
    write fd1 (str "yyy");;
    close fd1;;
    '(n, buf) ← read fd BUFSZ;
    check (negb (n =? SZ)) "%s: unlinkread read failed" [S_ s];;
    check (negb (hd 0 buf =? 104)) "%s: unlinkread wrong data\n" [S_ s];;
    r ← write fd (take 10 (buf ++ replicate 10 0));
    check (negb (r =? 10)) "%s: unlinkread write failed\n" [S_ s];;
    close fd;;
    unlink unlinkread;;
    mret tt in
  let linktest (s : list Z) : user unit :=
    let SZ := 5 in
    unlink (str "lf1");;
    unlink (str "lf2");;
    fd ← open (str "lf1") (O_CREATE .| O_RDWR);
    check (fd <? 0) "%s: create lf1 failed\n" [S_ s];;
    r ← write fd (str "hello");
    check (negb (r =? SZ)) "%s: write lf1 failed\n" [S_ s];;
    close fd;;
    r ← link (str "lf1") (str "lf2");
    check (r <? 0) "%s: link lf1 lf2 failed\n" [S_ s];;
    unlink (str "lf1");;
    r ← open (str "lf1") 0;
    check (0 <=? r) "%s: unlinked lf1 but it is still there!\n" [S_ s];;
    fd ← open (str "lf2") 0;
    check (fd <? 0) "%s: open lf2 failed\n" [S_ s];;
    '(n, _) ← read fd BUFSZ;
    check (negb (n =? SZ)) "%s: read lf2 failed\n" [S_ s];;
    close fd;;
    r ← link (str "lf2") (str "lf2");
    check (0 <=? r) "%s: link lf2 lf2 succeeded! oops\n" [S_ s];;
    unlink (str "lf2");;
    r ← link (str "lf2") (str "lf1");
    check (0 <=? r) "%s: link non-existent succeeded! oops\n" [S_ s];;
    r ← link (str ".") (str "lf1");
    check (0 <=? r) "%s: link . lf1 succeeded! oops\n" [S_ s] in
  [("unlinkread", unlinkread); ("linktest", linktest)].

Definition concreate_tests : list test :=
  let concreate (s : list Z) : user unit :=
    let N := 40%nat in
    let file (i : Z) := [67; 48 + i] in
    for_range 0 N (λ i,
      unlink (file i);;
      pid ← fork;
      (if negb (pid =? 0) && (i mod 3 =? 1) then link (str "C0") (file i);; mret tt
       else if (pid =? 0) && (i mod 5 =? 1) then link (str "C0") (file i);; mret tt
       else
         fd ← open (file i) (O_CREATE .| O_RDWR);
         check (fd <? 0) "concreate create %s failed\n" [S_ (file i)];;
         close fd;;
         mret tt);;
      if pid =? 0 then exit 0
      else
        xstatus ← wait_status;
        if negb (xstatus =? 0) then exit 1 else mret tt);;
    fd ← open (str ".") 0;
    '(_, n) ← ITree.iter (λ '(fa, n),
      '(r, de) ← read fd DIRENT;
      if 0 <? r then
        let name := drop 2 de in
        if get16 0 de =? 0 then mret (inl (fa, n))
        else if (nth 0 name 0 =? 67) && (nth 2 name 0 =? 0) then
          let i := nth 1 name 0 - 48 in
          check ((i <? 0) || (Z.of_nat N <=? i)) "%s: concreate weird file %s\n" [S_ s; S_ (upto_nul name)];;
          check (bool_decide (i ∈ fa)) "%s: concreate duplicate file %s\n" [S_ s; S_ (upto_nul name)];;
          mret (inl (i :: fa, n + 1))
        else mret (inl (fa, n))
      else mret (inr (fa, n))) ([], 0);
    close fd;;
    check (negb (n =? Z.of_nat N)) "%s: concreate not enough files in directory listing\n" [S_ s];;
    for_range 0 N (λ i,
      pid ← fork;
      check (pid <? 0) "%s: fork failed\n" [S_ s];;
      (if ((i mod 3 =? 0) && (pid =? 0)) || ((i mod 3 =? 1) && negb (pid =? 0)) then
         for_range 0 6 (λ _, fd ← open (file i) 0; close fd;; mret tt)
       else for_range 0 6 (λ _, unlink (file i);; mret tt));;
      if pid =? 0 then exit 0 else wait;; mret tt) in
  let linkunlink (s : list Z) : user unit :=
    unlink (str "x");;
    pid ← fork;
    check (pid <? 0) "%s: fork failed\n" [S_ s];;
    ITree.iter (λ '(i, x),
      if i <? 100 then
        let x := u32 (x * 1103515245 + 12345) in
        (if x mod 3 =? 0 then fd ← open (str "x") (O_RDWR .| O_CREATE); close fd
         else if x mod 3 =? 1 then link (str "cat") (str "x")
         else unlink (str "x"));;
        mret (inl (i + 1, x))
      else mret (inr tt)) (0, if pid =? 0 then 97 else 1);;
    if negb (pid =? 0) then wait;; mret tt else exit 0 in
  [("concreate", concreate); ("linkunlink", linkunlink)].

Definition subdir (s : list Z) : user unit :=
  let must_fail (c : user Z) (msg : string) : user unit := r ← c; check (0 <=? r) msg [S_ s] in
  let must_not (c : user Z) (msg : string) : user unit := r ← c; check (r =? 0) msg [S_ s] in
  let must (c : user Z) (msg : string) : user unit := r ← c; check (negb (r =? 0)) msg [S_ s] in
  unlink (str "ff");;
  must (mkdir (str "dd")) "%s: mkdir dd failed\n";;
  fd ← open (str "dd/ff") (O_CREATE .| O_RDWR);
  check (fd <? 0) "%s: create dd/ff failed\n" [S_ s];;
  write fd (str "ff");;
  close fd;;
  must_fail (unlink (str "dd")) "%s: unlink dd (non-empty dir) succeeded!\n";;
  must (mkdir (str "/dd/dd")) "%s: subdir mkdir dd/dd failed\n";;
  fd ← open (str "dd/dd/ff") (O_CREATE .| O_RDWR);
  check (fd <? 0) "%s: create dd/dd/ff failed\n" [S_ s];;
  write fd (str "FF");;
  close fd;;
  fd ← open (str "dd/dd/../ff") 0;
  check (fd <? 0) "%s: open dd/dd/../ff failed\n" [S_ s];;
  '(cc, buf) ← read fd BUFSZ;
  check (negb (cc =? 2) || negb (hd 0 buf =? 102)) "%s: dd/dd/../ff wrong content\n" [S_ s];;
  close fd;;
  must (link (str "dd/dd/ff") (str "dd/dd/ffff")) "%s: link dd/dd/ff dd/dd/ffff failed\n";;
  must (unlink (str "dd/dd/ff")) "%s: unlink dd/dd/ff failed\n";;
  must_fail (open (str "dd/dd/ff") O_RDONLY) "%s: open (unlinked) dd/dd/ff succeeded\n";;
  must (chdir (str "dd")) "%s: chdir dd failed\n";;
  must (chdir (str "dd/../../dd")) "%s: chdir dd/../../dd failed\n";;
  must (chdir (str "dd/../../../dd")) "%s: chdir dd/../../../dd failed\n";;
  must (chdir (str "./..")) "%s: chdir ./.. failed\n";;
  fd ← open (str "dd/dd/ffff") 0;
  check (fd <? 0) "%s: open dd/dd/ffff failed\n" [S_ s];;
  '(n, _) ← read fd BUFSZ;
  check (negb (n =? 2)) "%s: read dd/dd/ffff wrong len\n" [S_ s];;
  close fd;;
  must_fail (open (str "dd/dd/ff") O_RDONLY) "%s: open (unlinked) dd/dd/ff succeeded!\n";;
  must_fail (open (str "dd/ff/ff") (O_CREATE .| O_RDWR)) "%s: create dd/ff/ff succeeded!\n";;
  must_fail (open (str "dd/xx/ff") (O_CREATE .| O_RDWR)) "%s: create dd/xx/ff succeeded!\n";;
  must_fail (open (str "dd") O_CREATE) "%s: create dd succeeded!\n";;
  must_fail (open (str "dd") O_RDWR) "%s: open dd rdwr succeeded!\n";;
  must_fail (open (str "dd") O_WRONLY) "%s: open dd wronly succeeded!\n";;
  must_not (link (str "dd/ff/ff") (str "dd/dd/xx")) "%s: link dd/ff/ff dd/dd/xx succeeded!\n";;
  must_not (link (str "dd/xx/ff") (str "dd/dd/xx")) "%s: link dd/xx/ff dd/dd/xx succeeded!\n";;
  must_not (link (str "dd/ff") (str "dd/dd/ffff")) "%s: link dd/ff dd/dd/ffff succeeded!\n";;
  must_not (mkdir (str "dd/ff/ff")) "%s: mkdir dd/ff/ff succeeded!\n";;
  must_not (mkdir (str "dd/xx/ff")) "%s: mkdir dd/xx/ff succeeded!\n";;
  must_not (mkdir (str "dd/dd/ffff")) "%s: mkdir dd/dd/ffff succeeded!\n";;
  must_not (unlink (str "dd/xx/ff")) "%s: unlink dd/xx/ff succeeded!\n";;
  must_not (unlink (str "dd/ff/ff")) "%s: unlink dd/ff/ff succeeded!\n";;
  must_not (chdir (str "dd/ff")) "%s: chdir dd/ff succeeded!\n";;
  must_not (chdir (str "dd/xx")) "%s: chdir dd/xx succeeded!\n";;
  must (unlink (str "dd/dd/ffff")) "%s: unlink dd/dd/ff failed\n";;
  must (unlink (str "dd/ff")) "%s: unlink dd/ff failed\n";;
  must_not (unlink (str "dd")) "%s: unlink non-empty dd succeeded!\n";;
  r ← unlink (str "dd/dd");
  check (r <? 0) "%s: unlink dd/dd failed\n" [S_ s];;
  r ← unlink (str "dd");
  check (r <? 0) "%s: unlink dd failed\n" [S_ s].

Definition big_tests : list test :=
  let bigwrite (s : list Z) : user unit :=
    unlink (str "bigwrite");;
    ITree.iter (λ sz,
      if sz <? BUFSZ then
        fd ← open (str "bigwrite") (O_CREATE .| O_RDWR);
        check (fd <? 0) "%s: cannot create bigwrite\n" [S_ s];;
        for_range 0 2 (λ _,
          cc ← write fd (replicate (Z.to_nat sz) 0);
          check (negb (cc =? sz)) "%s: write(%d) ret %d\n" [S_ s; Num sz; Num cc]);;
        close fd;;
        unlink (str "bigwrite");;
        mret (inl (sz + 471))
      else mret (inr tt)) 499 in
  let bigfile (s : list Z) : user unit :=
    let N := 20 in let SZ := 600 in
    unlink (str "bigfile.dat");;
    fd ← open (str "bigfile.dat") (O_CREATE .| O_RDWR);
    check (fd <? 0) "%s: cannot create bigfile" [S_ s];;
    for_range 0 (Z.to_nat N) (λ i,
      r ← write fd (replicate (Z.to_nat SZ) i);
      check (negb (r =? SZ)) "%s: write bigfile failed\n" [S_ s]);;
    close fd;;
    fd ← open (str "bigfile.dat") 0;
    check (fd <? 0) "%s: cannot open bigfile\n" [S_ s];;
    total ← ITree.iter (λ '(i, total),
      '(cc, buf) ← read fd (SZ / 2);
      check (cc <? 0) "%s: read bigfile failed\n" [S_ s];;
      if cc =? 0 then mret (inr total)
      else
        check (negb (cc =? SZ / 2)) "%s: short read bigfile\n" [S_ s];;
        check (negb (nth 0 buf 0 =? i / 2) || negb (nth (Z.to_nat (SZ / 2 - 1)) buf 0 =? i / 2)) "%s: read bigfile wrong data\n" [S_ s];;
        mret (inl (i + 1, total + cc))) (0, 0);
    close fd;;
    check (negb (total =? N * SZ)) "%s: read bigfile wrong total\n" [S_ s];;
    unlink (str "bigfile.dat");;
    mret tt in
  let fourteen (s : list Z) : user unit :=
    r ← mkdir (str "12345678901234");
    check (negb (r =? 0)) "%s: mkdir 12345678901234 failed\n" [S_ s];;
    r ← mkdir (str "12345678901234/123456789012345");
    check (negb (r =? 0)) "%s: mkdir 12345678901234/123456789012345 failed\n" [S_ s];;
    fd ← open (str "123456789012345/123456789012345/123456789012345") O_CREATE;
    check (fd <? 0) "%s: create 123456789012345/123456789012345/123456789012345 failed\n" [S_ s];;
    close fd;;
    fd ← open (str "12345678901234/12345678901234/12345678901234") 0;
    check (fd <? 0) "%s: open 12345678901234/12345678901234/12345678901234 failed\n" [S_ s];;
    close fd;;
    r ← mkdir (str "12345678901234/12345678901234");
    check (r =? 0) "%s: mkdir 12345678901234/12345678901234 succeeded!\n" [S_ s];;
    r ← mkdir (str "123456789012345/12345678901234");
    check (r =? 0) "%s: mkdir 12345678901234/123456789012345 succeeded!\n" [S_ s];;
    unlink (str "123456789012345/12345678901234");;
    unlink (str "12345678901234/12345678901234");;
    unlink (str "12345678901234/12345678901234/12345678901234");;
    unlink (str "123456789012345/123456789012345/123456789012345");;
    unlink (str "12345678901234/123456789012345");;
    unlink (str "12345678901234");;
    mret tt in
  [("bigwrite", bigwrite); ("bigfile", bigfile); ("fourteen", fourteen)].

Definition dir_tests : list test :=
  let rmdot (s : list Z) : user unit :=
    r ← mkdir (str "dots");
    check (negb (r =? 0)) "%s: mkdir dots failed\n" [S_ s];;
    r ← chdir (str "dots");
    check (negb (r =? 0)) "%s: chdir dots failed\n" [S_ s];;
    r ← unlink (str ".");
    check (r =? 0) "%s: rm . worked!\n" [S_ s];;
    r ← unlink (str "..");
    check (r =? 0) "%s: rm .. worked!\n" [S_ s];;
    r ← chdir (str "/");
    check (negb (r =? 0)) "%s: chdir / failed\n" [S_ s];;
    r ← unlink (str "dots/.");
    check (r =? 0) "%s: unlink dots/. worked!\n" [S_ s];;
    r ← unlink (str "dots/..");
    check (r =? 0) "%s: unlink dots/.. worked!\n" [S_ s];;
    r ← unlink (str "dots");
    check (negb (r =? 0)) "%s: unlink dots failed!\n" [S_ s] in
  let dirfile (s : list Z) : user unit :=
    fd ← open (str "dirfile") O_CREATE;
    check (fd <? 0) "%s: create dirfile failed\n" [S_ s];;
    close fd;;
    r ← chdir (str "dirfile");
    check (r =? 0) "%s: chdir dirfile succeeded!\n" [S_ s];;
    fd ← open (str "dirfile/xx") 0;
    check (0 <=? fd) "%s: create dirfile/xx succeeded!\n" [S_ s];;
    fd ← open (str "dirfile/xx") O_CREATE;
    check (0 <=? fd) "%s: create dirfile/xx succeeded!\n" [S_ s];;
    r ← mkdir (str "dirfile/xx");
    check (r =? 0) "%s: mkdir dirfile/xx succeeded!\n" [S_ s];;
    r ← unlink (str "dirfile/xx");
    check (r =? 0) "%s: unlink dirfile/xx succeeded!\n" [S_ s];;
    r ← link (str "README") (str "dirfile/xx");
    check (r =? 0) "%s: link to dirfile/xx succeeded!\n" [S_ s];;
    r ← unlink (str "dirfile");
    check (negb (r =? 0)) "%s: unlink dirfile failed!\n" [S_ s];;
    fd ← open (str ".") O_RDWR;
    check (0 <=? fd) "%s: open . for writing succeeded!\n" [S_ s];;
    fd ← open (str ".") 0;
    r ← write fd (str "x");
    check (0 <? r) "%s: write . succeeded!\n" [S_ s];;
    close fd;;
    mret tt in
  let iref (s : list Z) : user unit :=
    for_range 0 (S NINODE) (λ _,
      r ← mkdir (str "irefd");
      check (negb (r =? 0)) "%s: mkdir irefd failed\n" [S_ s];;
      r ← chdir (str "irefd");
      check (negb (r =? 0)) "%s: chdir irefd failed\n" [S_ s];;
      mkdir (str "");;
      link (str "README") (str "");;
      fd ← open (str "") O_CREATE;
      (if 0 <=? fd then close fd;; mret tt else mret tt);;
      fd ← open (str "xx") O_CREATE;
      (if 0 <=? fd then close fd;; mret tt else mret tt);;
      unlink (str "xx");;
      mret tt);;
    for_range 0 (S NINODE) (λ _, chdir (str "..");; unlink (str "irefd");; mret tt);;
    chdir (str "/");;
    mret tt in
  [("rmdot", rmdot); ("dirfile", dirfile); ("iref", iref)].

(** The loop that forks until it cannot: how many children there are. *)
Definition fork_loop : user Z :=
  ITree.iter (λ n,
    if n <? 1000 then
      pid ← fork;
      if pid <? 0 then mret (inr n)
      else (if pid =? 0 then exit 0 else mret tt);; mret (inl (n + 1))
    else mret (inr n)) 0.

Definition forktest (s : list Z) : user unit :=
  n ← fork_loop;
  check (n =? 0) "%s: no fork at all!\n" [S_ s];;
  check (n =? 1000) "%s: fork claimed to work 1000 times!\n" [S_ s];;
  for_range 0 (Z.to_nat n) (λ _,
    r ← wait;
    check (pid_of r <? 0) "%s: wait stopped early\n" [S_ s]);;
  r ← wait;
  check (negb (pid_of r =? -1)) "%s: wait got too many\n" [S_ s].

Definition copy_tests : list test :=
  let bad := [0x80000000; 0x3fffffe000; 0x3ffffff000; 0x4000000000; 0xffffffffffffffff] in
  let copyin (s : list Z) : user unit :=
    for_each (λ addr,
      fd ← open (str "copyin1") (O_CREATE .| O_WRONLY);
      check (fd <? 0) "open(copyin1) failed\n" [];;
      n ← call (SWriteAt fd addr 8192);
      check (0 <=? n) "write(fd, %p, 8192) returned %d, not -1\n" [Num addr; Num n];;
      close fd;;
      unlink (str "copyin1");;
      n ← call (SWriteAt 1 addr 8192);
      check (0 <? n) "write(1, %p, 8192) returned %d, not -1 or 0\n" [Num addr; Num n];;
      r ← pipe;
      match r with
      | None => printf "pipe() failed\n" [];; exit 1
      | Some (fds0, fds1) =>
          n ← call (SWriteAt fds1 addr 8192);
          check (0 <? n) "write(pipe, %p, 8192) returned %d, not -1 or 0\n" [Num addr; Num n];;
          close fds0;;
          close fds1;;
          mret tt
      end) bad in
  let copyout (s : list Z) : user unit :=
    for_each (λ addr,
      fd ← open (str "README") 0;
      check (fd <? 0) "open(README) failed\n" [];;
      n ← call (SReadAt fd addr 8192);
      check (0 <? n) "read(fd, %p, 8192) returned %d, not -1 or 0\n" [Num addr; Num n];;
      close fd;;
      r ← pipe;
      match r with
      | None => printf "pipe() failed\n" [];; exit 1
      | Some (fds0, fds1) =>
          n ← write fds1 (str "x");
          check (negb (n =? 1)) "pipe write failed\n" [];;
          n ← call (SReadAt fds0 addr 8192);
          check (0 <? n) "read(pipe, %p, 8192) returned %d, not -1 or 0\n" [Num addr; Num n];;
          close fds0;;
          close fds1;;
          mret tt
      end) (0 :: bad) in
  [("copyin", copyin); ("copyout", copyout)].

(** [run] and [runtests]: each test in a process of its own. *)
Definition run (f : list Z → user unit) (s : list Z) : user bool :=
  printf "test %s: " [S_ s];;
  pid ← fork;
  (if pid <? 0 then printf "runtest: fork error\n" [];; exit 1 else mret tt);;
  if pid =? 0 then f s;; exit 0
  else
    xstatus ← wait_status;
    (if negb (xstatus =? 0) then printf "FAILED\n" [] else printf "OK\n" []);;
    mret (xstatus =? 0).

Fixpoint runtests (tests : list test) (justone : option (list Z)) (continuous : Z) : user Z :=
  match tests with
  | [] => mret 0
  | (name, f) :: tests =>
      ok ← (if bool_decide (justone = None ∨ justone = Some (str name)) then run f (str name) else mret true);
      if negb ok && negb (continuous =? 2) then printf "SOME TESTS FAILED\n" [];; mret 1
      else runtests tests justone continuous
  end.

(** * cowtest.c *)

Definition store_int (a v : Z) : user unit := call (SPoke a (le_enc 4 (u32 v))).
Definition load_int (a : Z) : user Z := bs ← call (SPeek a 4); mret (i32 (get32 0 bs)).

(** [for(char *q = p; q < p + n; q += 4096)] *)
Definition for_pages (p n : Z) (f : Z → user unit) : user unit :=
  for_each (λ k, f (p + 4096 * Z.of_nat k)) (seq 0 (Z.to_nat ((n + 4095) / 4096))).

Definition phys_size : Z := 128 * 1024 * 1024.

Definition simpletest : user unit :=
  let sz := phys_size / 3 * 2 in
  printf "simple: " [];;
  p ← sbrk sz;
  (if p =? -1 then printf "sbrk(%d) failed\n" [Num sz];; exit (-1) else mret tt);;
  for_pages p sz (λ q, pid ← getpid; store_int q pid);;
  pid ← fork;
  (if pid <? 0 then printf "fork() failed\n" [];; exit (-1) else mret tt);;
  (if pid =? 0 then exit 0 else mret tt);;
  wait;;
  r ← sbrk (- sz);
  (if r =? -1 then printf "sbrk(-%d) failed\n" [Num sz];; exit (-1) else mret tt);;
  printf "ok\n" [].

Definition threetest : user unit :=
  let sz := phys_size / 4 in
  let wrong (q : Z) : user unit :=
    v ← load_int q;
    pid ← getpid;
    if negb (v =? pid) then printf "wrong content\n" [];; exit (-1) else mret tt in
  printf "three: " [];;
  p ← sbrk sz;
  (if p =? -1 then printf "sbrk(%d) failed\n" [Num sz];; exit (-1) else mret tt);;
  pid1 ← fork;
  (if pid1 <? 0 then printf "fork failed\n" [];; exit (-1) else mret tt);;
  (if pid1 =? 0 then
     pid2 ← fork;
     (if pid2 <? 0 then printf "fork failed" [];; exit (-1) else mret tt);;
     (if pid2 =? 0 then
        for_pages p (sz / 5 * 4) (λ q, pid ← getpid; store_int q pid);;
        for_pages p (sz / 5 * 4) wrong;;
        exit (-1)
      else mret tt);;
     for_pages p (sz / 2) (λ q, store_int q 9999);;
     exit 0
   else mret tt);;
  for_pages p sz (λ q, pid ← getpid; store_int q pid);;
  wait;;
  sleep 1;;
  for_pages p sz wrong;;
  r ← sbrk (- sz);
  (if r =? -1 then printf "sbrk(-%d) failed\n" [Num sz];; exit (-1) else mret tt);;
  printf "ok\n" [].

(** Where the static [buf] of cowtest.c is. *)
Definition cow_buf : Z := 0x6000.

Definition filetest : user unit :=
  printf "file: " [];;
  call (SPoke cow_buf [99]);;
  for_range 0 4 (λ i,
    r ← pipe;
    match r with
    | None => printf "pipe() failed\n" [];; exit (-1)
    | Some (fds0, fds1) =>
        pid ← fork;
        (if pid <? 0 then printf "fork failed\n" [];; exit (-1) else mret tt);;
        (if pid =? 0 then
           sleep 1;;
           n ← call (SReadAt fds0 cow_buf 4);
           (if negb (n =? 4) then printf "error: read failed\n" [];; exit 1 else mret tt);;
           sleep 1;;
           j ← load_int cow_buf;
           (if negb (j =? i) then printf "error: read the wrong value\n" [];; exit 1 else mret tt);;
           exit 0
         else mret tt);;
        n ← write fds1 (le_enc 4 i);
        if negb (n =? 4) then printf "error: write failed\n" [];; exit (-1) else mret tt
    end);;
  for_range 0 4 (λ _,
    xstatus ← wait_status;
    if negb (xstatus =? 0) then exit 1 else mret tt);;
  b ← call (SPeek cow_buf 1);
  (if negb (hd 0 b =? 99) then printf "error: child overwrote parent\n" [];; exit 1 else mret tt);;
  printf "ok\n" [].

Definition forkforktest : user unit :=
  let sz := 256 * 4096 in
  let children := 3%nat in
  printf "forkfork: " [];;
  p ← sbrk sz;
  call (SPoke p (replicate (Z.to_nat sz) 27));;
  for_range 0 100 (λ _,
    for_range 0 children (λ _,
      pid ← fork;
      if pid =? 0 then sleep 2;; fork;; fork;; exit 0 else mret tt);;
    for_range 0 children (λ _, wait;; mret tt));;
  sleep 5;;
  for_pages p sz (λ q,
    b ← call (SPeek q 1);
    if negb (hd 0 b =? 27) then printf "error: parent's memory was modified!\n" [];; exit 1 else mret tt);;
  printf "ok\n" [].

Definition cow_main (args : argv) : user unit :=
  simpletest;;
  simpletest;;
  threetest;;
  threetest;;
  threetest;;
  filetest;;
  forkforktest;;
  printf "ALL COW TESTS PASSED\n" [];;
  exit 0.

(** * forktest.c and stressfs.c *)

Definition forktest_main (args : argv) : user unit :=
  let print (s : string) : user Z := write 1 (str s) in
  print "fork test\n";;
  n ← fork_loop;
  (if n =? 1000 then print "fork claimed to work N times!\n";; exit 1 else mret tt);;
  for_range 0 (Z.to_nat n) (λ _,
    r ← wait;
    if pid_of r <? 0 then print "wait stopped early\n";; exit 1 else mret tt);;
  r ← wait;
  (if negb (pid_of r =? -1) then print "wait got too many\n";; exit 1 else mret tt);;
  print "fork test OK\n";;
  exit 0.

Definition stressfs_main (args : argv) : user unit :=
  printf "stressfs starting\n" [];;
  i ← ITree.iter (λ i,
    if i <? 4 then pid ← fork; if 0 <? pid then mret (inr i) else mret (inl (i + 1))
    else mret (inr i)) 0;
  printf "write %d\n" [Num i];;
  let path := str "stressfs" ++ [48 + i] in
  fd ← open path (O_CREATE .| O_RDWR);
  for_range 0 20 (λ _, write fd (replicate 512 97);; mret tt);;
  close fd;;
  printf "read\n" [];;
  fd ← open path O_RDONLY;
  for_range 0 20 (λ _, read fd 512;; mret tt);;
  close fd;;
  wait;;
  exit 0.

(** * grind.c *)

(** The next state of the generator, which is also what it returns. *)
Definition do_rand (ctx : Z) : Z :=
  let x := ctx mod 0x7ffffffe + 1 in
  let hi := x / 127773 in
  let lo := x mod 127773 in
  let x := 16807 * lo - 2836 * hi in
  let x := if x <? 0 then x + 0x7fffffff else x in
  x - 1.

(** The descriptor, the buffer and the generator. *)
Record grind := Grind { g_fd : Z; g_buf : list Z; rand_next : Z }.

Definition create_close (path : string) : user unit := fd ← open (str path) (O_CREATE .| O_RDWR); close fd;; mret tt.

(** [if(fork() == 0) child] else wait, as most cases of [go] do. *)
Definition forked (child : user unit) (parent : Z → user unit) : user unit :=
  pid ← fork;
  (if pid =? 0 then child;; exit 0
   else if pid <? 0 then printf "grind: fork failed\n" [];; exit 1
   else mret tt);;
  parent pid;;
  wait;;
  mret tt.

(** The cases of [go] that open, close and change files. *)
Definition go_files (what : Z) (g : grind) : user grind :=
  match what with
  | 1 => create_close "grindir/../a";; mret g
  | 2 => create_close "grindir/../grindir/../b";; mret g
  | 3 => unlink (str "grindir/../a");; mret g
  | 4 =>
      r ← chdir (str "grindir");
      check (negb (r =? 0)) "grind: chdir grindir failed\n" [];;
      unlink (str "../b");;
      chdir (str "/");;
      mret g
  | 5 => close (g_fd g);; fd ← open (str "/grindir/../a") (O_CREATE .| O_RDWR); mret (Grind fd (g_buf g) (rand_next g))
  | 6 => close (g_fd g);; fd ← open (str "/./grindir/./../b") (O_CREATE .| O_RDWR); mret (Grind fd (g_buf g) (rand_next g))
  | 7 => write (g_fd g) (g_buf g);; mret g
  | 8 => '(_, bs) ← read (g_fd g) 999; mret (Grind (g_fd g) (bs ++ drop (length bs) (g_buf g)) (rand_next g))
  | 9 => mkdir (str "grindir/../a");; create_close "a/../a/./a";; unlink (str "a/a");; mret g
  | 10 => mkdir (str "/../b");; create_close "grindir/../b/b";; unlink (str "b/b");; mret g
  | 11 => unlink (str "b");; link (str "../grindir/./../a") (str "../b");; mret g
  | 12 => unlink (str "../grindir/../a");; link (str ".././b") (str "/grindir/../a");; mret g
  | _ => mret g
  end.

(** The cases with processes, memory and pipes. *)
Definition go_procs (what break0 : Z) : user unit :=
  match what with
  | 13 => forked (mret tt) (λ _, mret tt)
  | 14 => forked (fork;; fork;; mret tt) (λ _, mret tt)
  | 15 => sbrk 6011;; mret tt
  | 16 => b ← sbrk 0; if break0 <? b then b ← sbrk 0; sbrk (- (b - break0));; mret tt else mret tt
  | 17 =>
      forked (create_close "a") (λ pid,
        r ← chdir (str "../grindir/..");
        check (negb (r =? 0)) "grind: chdir failed\n" [];;
        kill pid;;
        mret tt)
  | 18 => forked (pid ← getpid; kill pid;; mret tt) (λ _, mret tt)
  | 19 =>
      r ← pipe;
      match r with
      | None => printf "grind: pipe failed\n" [];; exit 1
      | Some (fds0, fds1) =>
          forked
            (fork;;
             fork;;
             n ← write fds1 (str "x");
             (if negb (n =? 1) then printf "grind: pipe write failed\n" [] else mret tt);;
             '(n, _) ← read fds0 1;
             (if negb (n =? 1) then printf "grind: pipe read failed\n" [] else mret tt))
            (λ _, close fds0;; close fds1;; mret tt)
      end
  | 20 =>
      forked
        (unlink (str "a");;
         mkdir (str "a");;
         chdir (str "a");;
         unlink (str "../a");;
         open (str "x") (O_CREATE .| O_RDWR);;
         unlink (str "x");;
         mret tt) (λ _, mret tt)
  | 21 =>
      unlink (str "c");;
      fd1 ← open (str "c") (O_CREATE .| O_RDWR);
      check (fd1 <? 0) "grind: create c failed\n" [];;
      n ← write fd1 (str "x");
      check (negb (n =? 1)) "grind: write c failed\n" [];;
      st ← fstat fd1;
      match st with
      | None => printf "grind: fstat failed\n" [];; exit 1
      | Some st =>
          check (negb (st_size st =? 1)) "grind: fstat reports wrong size %d\n" [Num (st_size st)];;
          check (200 <? st_ino st) "grind: fstat reports crazy i-number %d\n" [Num (st_ino st)];;
          close fd1;;
          unlink (str "c");;
          mret tt
      end
  | _ => mret tt
  end.

(** Case 22: echo hi | cat *)
Definition go_pipeline : user unit :=
  let refuse (msg : string) (n : Z) : user unit := fprintf 2 msg [];; exit n in
  aa ← pipe;
  (if bool_decide (aa = None) then refuse "grind: pipe failed\n" 1 else mret tt);;
  bb ← pipe;
  match aa, bb with
  | Some (aa0, aa1), Some (bb0, bb1) =>
      pid1 ← fork;
      (if pid1 =? 0 then
         close bb0;; close bb1;; close aa0;; close 1;;
         r ← dup aa1;
         (if negb (r =? 1) then refuse "grind: dup failed\n" 1 else mret tt);;
         close aa1;;
         exec (str "grindir/../echo") [str "echo"; str "hi"];;
         refuse "grind: echo: not found\n" 2
       else if pid1 <? 0 then refuse "grind: fork failed\n" 3
       else mret tt);;
      pid2 ← fork;
      (if pid2 =? 0 then
         close aa1;; close bb0;; close 0;;
         r ← dup aa0;
         (if negb (r =? 0) then refuse "grind: dup failed\n" 4 else mret tt);;
         close aa0;; close 1;;
         r ← dup bb1;
         (if negb (r =? 1) then refuse "grind: dup failed\n" 5 else mret tt);;
         close bb1;;
         exec (str "/cat") [str "cat"];;
         refuse "grind: cat: not found\n" 6
       else if pid2 <? 0 then refuse "grind: fork failed\n" 7
       else mret tt);;
      close aa0;; close aa1;; close bb1;;
      '(_, b0) ← read bb0 1;
      '(_, b1) ← read bb0 1;
      '(_, b2) ← read bb0 1;
      close bb0;;
      st1 ← wait_status;
      st2 ← wait_status;
      let buf := upto_nul [hd 0 b0; hd 0 b1; hd 0 b2] in
      if negb (st1 =? 0) || negb (st2 =? 0) || negb (bool_decide (buf = str "hi\n")) then
        printf "grind: exec pipeline failed %d %d \'%s\'\n" [Num st1; Num st2; S_ buf];; exit 1
      else mret tt
  | _, _ => refuse "grind: pipe failed\n" 1
  end.

Definition go_body (which_child : bool) (break0 : Z) (st : Z * grind) : user (Z * grind + unit) :=
  let '(iters, g) := st in
  let iters := iters + 1 in
  (if iters mod 500 =? 0 then write 1 (if which_child then str "B" else str "A");; mret tt else mret tt);;
  let r := do_rand (rand_next g) in
  let g := Grind (g_fd g) (g_buf g) r in
  let what := r mod 23 in
  if what =? 22 then go_pipeline;; mret (inl (iters, g))
  else if 13 <=? what then go_procs what break0;; mret (inl (iters, g))
  else g ← go_files what g; mret (inl (iters, g)).

Definition go (which_child : bool) (rand_next : Z) : user unit :=
  break0 ← sbrk 0;
  mkdir (str "grindir");;
  r ← chdir (str "grindir");
  check (negb (r =? 0)) "grind: chdir grindir failed\n" [];;
  chdir (str "/");;
  ITree.iter (go_body which_child break0) (0, Grind (-1) (replicate 999 0) rand_next).

Definition iter_ (rand_next : Z) : user unit :=
  unlink (str "a");;
  unlink (str "b");;
  pid1 ← fork;
  check (pid1 <? 0) "grind: fork failed\n" [];;
  (if pid1 =? 0 then go false (Z.lxor rand_next 31);; exit 0 else mret tt);;
  pid2 ← fork;
  check (pid2 <? 0) "grind: fork failed\n" [];;
  (if pid2 =? 0 then go true (Z.lxor rand_next 7177);; exit 0 else mret tt);;
  r ← wait;
  (if negb (from_option snd (-1) r =? 0) then kill pid1;; kill pid2;; mret tt else mret tt);;
  wait;;
  exit 0.

Definition grind_main : user unit :=
  ITree.iter (λ rand_next : Z,
    pid ← fork;
    (if pid =? 0 then iter_ rand_next;; exit 0 else mret tt);;
    (if 0 <? pid then wait;; mret tt else mret tt);;
    sleep 20;;
    mret (inl (rand_next + 1))) 1.

(** * On the specification *)

(** The generator computes what its comment says, a product modulo the prime 2^31 - 1, and
    no intermediate result needs more than 31 bits and a sign. *)
Lemma do_rand_multiplies ctx :
  let x := ctx mod 0x7ffffffe + 1 in
  do_rand ctx = (7 ^ 5 * x) mod (2 ^ 31 - 1) - 1 ∧ 0 ≤ do_rand ctx ≤ 0x7ffffffd ∧
  0 ≤ 16807 * (x mod 127773) < 2 ^ 31 ∧ 0 ≤ 2836 * (x / 127773) < 2 ^ 31.
Proof.
  cbv zeta. unfold do_rand. set (x := ctx mod 0x7ffffffe + 1). assert (1 ≤ x ≤ 0x7ffffffe) as Hx by (unfold x; pose proof (Z.mod_pos_bound ctx 0x7ffffffe); lia).
  clearbody x. change (7 ^ 5) with 16807. change (2 ^ 31 - 1) with 2147483647. change (2 ^ 31) with 2147483648.
  pose proof (Z_div_mod_eq_full x 127773) as Hdm. pose proof (Z.mod_pos_bound x 127773 ltac:(lia)) as Hlo. set (hi := x / 127773) in *. set (lo := x mod 127773) in *. clearbody hi lo.
  assert (0 ≤ hi ≤ 16807) as Hhi by lia. assert (16807 * lo - 2836 * hi ≠ 0) as Hne.
  { intros E. assert (16807 | 2836 * hi) as Hdiv by (exists lo; lia). apply Z.gauss in Hdiv as [k Hk]; [|reflexivity]. assert (k = 0 ∨ k = 1) as [-> | ->] by lia; lia. }
  assert ((16807 * x) mod 2147483647 = if 16807 * lo - 2836 * hi <? 0 then 16807 * lo - 2836 * hi + 2147483647 else 16807 * lo - 2836 * hi) as ->.
  { symmetry. destruct (Z.ltb_spec (16807 * lo - 2836 * hi) 0).
    - apply Z.mod_unique with (q := hi - 1); [left; lia|lia].
    - apply Z.mod_unique with (q := hi); [left; lia|lia]. }
  destruct (Z.ltb_spec (16807 * lo - 2836 * hi) 0); lia.
Qed.

(** A disk with a few files, and the programs in it. *)
Definition disk_files : list string := ["README"; "cat"; "echo"; "init"; "console"].
Definition disk_nodes : gmap Z node :=
  let file (k : nat) (n : string) := (Z.of_nat k + 2, Node (if bool_decide (n = "console") then T_DEVICE else T_FILE) 1 0 1 (str n)) in
  <[ROOTINO := Node T_DIR 0 0 1 (entry 1 DOT ++ entry 1 DOTDOT ++ concat (imap (λ k n, entry (Z.of_nat k + 2) (str n)) disk_files))]>
    (list_to_map (imap file disk_files)).
Definition binaries : gmap Z (argv → user unit) := {[ 3 := cat_main; 4 := echo_main ]}.

(** Two processes with the console open: one that waits for orphans, as init does, and [main]. *)
Definition booted (main : user unit) : unix :=
  let std := replicate 3 (Some 0%nat) ++ replicate 13 None in
  let proc (parent : Z) (c : user unit) := UProc c std ROOTINO parent None false BRK0 ∅ None 0 in
  Unix disk_nodes {[ 0%nat := HDev 6 true true ]} ∅ {[ 1 := proc 0 (ITree.iter (λ _ : unit, wait;; mret (inl tt)) tt); 2 := proc 1 main ]} 3 0 [] [].

(** The tests of usertests.c that are modelled, but for five that take long to run. *)
Definition quick_tests : list test :=
  filter (λ t, t.1 ∉ ["writebig"; "twochildren"; "reparent2"; "sharedfd"; "concreate"])
    (copy_tests ++ truncate_tests ++ iput_tests ++ write_tests ++ exec_tests ++ pipe_tests ++ exit_tests ++ fork_tests ++ shared_tests ++
     [("createdelete", createdelete)] ++ link_tests ++ concreate_tests ++ [("subdir", subdir)] ++ big_tests ++ dir_tests ++ [("forktest", forktest)]).

(** The specification passes the tests of the repository.  [runtests] on thirty-three tests
    of usertests.c, every one in a process of its own with the processes it starts, taking
    turns, reports OK for each of them, ends with 0, and leaves no process behind. *)
Lemma usertests_pass :
  let u := rounds binaries 5500 (booted (r ← runtests quick_tests None 0; exit r)) in
  (2, 0) ∈ exits u ∧ dom (procs u) = {[1]} ∧
  console u = concat ((λ t : test, str "test " ++ str t.1 ++ str ": " ++ (if bool_decide (t.1 = "preempt") then str "kill... wait... " else []) ++ str "OK\n") <$> quick_tests).
Proof.
  cbv zeta. set (u := rounds _ _ _).
  assert (bool_decide ((2, 0) ∈ exits u ∧ dom (procs u) = {[1]} ∧
    console u = concat ((λ t : test, str "test " ++ str t.1 ++ str ": " ++ (if bool_decide (t.1 = "preempt") then str "kill... wait... " else []) ++ str "OK\n") <$> quick_tests)) = true) as H
    by (unfold u; vm_compute; reflexivity).
  exact (bool_decide_eq_true_1 _ H).
Qed.
